(* ===== verification/_CoqProject ===== *)
-Q . S2P
Prelude.v
StateM.v
JsMap.v
JsValue.v
Text.v
Canonical.v
Types.v
StateMachine.v
Coordinator.v
RateLimit.v
Locks.v
Idempotency.v
Queue.v
ToolSystem.v
Paths.v
Policy.v
CommandGuard.v
Approvals.v
Plans.v
Recovery.v
Checkpoint.v
Privacy.v
Controller.v
Changesets.v
Events.v
RedisQueue.v
Network.v
Isolation.v
CommandRun.v
ToolExecutor.v
Number.v
Sorting.v
NumberOrder.v
RuntimeState.v
RunConfig.v
Switching.v
PolicyEngine.v
Orchestrator.v
OrchestratorLoop.v
LoopSafety.v
Registry.v
RegistryInvariant.v
Auth.v
Tenants.v
HttpGuards.v
HttpApi.v
Economics.v
CostEstimator.v
Savings.v
SemanticCache.v
CacheManager.v
Regex.v
TaskClassifier.v
MemoryIntel.v
MemoryManager.v
Session.v
Performance.v
Evaluator.v
Learning.v
ModelRegistry.v
RoutingObjective.v
RouterIntel.v
Eligibility.v
Decisions.v
Router.v
ContextEngine.v
ContextCompression.v
ContextManager.v
PromptPlan.v
Credentials.v
Sse.v
Providers.v
ProviderStream.v
SandboxWorker.v
FileStore.v
FileTools.v
ProjectTools.v
