(* ===== verification/Prelude.v ===== *)
(** * OrchestraAI: a verification development

    OrchestraAI runs language-model agents. A client creates a run over HTTP;
    the orchestrator drives it through a step loop that routes each step to a
    model, calls the provider, executes the tools the model asks for behind an
    execution gate, accounts tokens and money, takes checkpoints, and publishes
    events; an execution controller adds policies, approvals, changesets, plans,
    pausing and continuation; tenants own runs, projects and memories; jobs,
    locks, rate limits and idempotency records live in process or in redis.
    This library models that program, the JavaScript of [backend/], as Rocq
    functions over explicit state, and proves what makes it correct. Some of the
    theorems state defects of the code: what it does is proved, and where a
    comment or a document promises something else, the theorem says which.

    ** Files

    Foundations
    - Prelude: record assignment, results of fallible code, arrays with bounded
      history, traces of step relations; [js_cases], [js_auto] and the hint
      databases [js] and [jsmap].
    - StateM: the state and error monad of the step loop. JsMap: [Map], a
      dictionary in insertion order. JsValue: JSON-like values. Text: scanning
      of strings. Number, NumberOrder: binary64 arithmetic, its order and sign
      lemmas, and the exactness of the sign of a difference. Sorting:
      [Array.prototype.sort]. Regex: a backtracking matcher.

    Life of a run (src/core, src/state, src/run-config.js)
    - Types: the enumerations of core/types.js. StateMachine: the transition
      table of core/state-machine.js. RuntimeState: state/runtime-state.js, with
      what the orchestrator and the recovery write to its fields.
      RunConfig: run-config.js and limits.js.
    - Orchestrator: starting, ending, cancelling, pausing a run
      (core/orchestrator.js). OrchestratorLoop: [_executeRun] and everything it
      calls, in StateM, over the answers of the services ([env]) and what other
      requests do meanwhile ([ext]). LoopSafety: every execution of the loop
      settles, is bounded, and records what it dispatches. Registry and
      RegistryInvariant: the maps of runs, eviction, retry and continuation, and
      how often a run ends. Session: the
      controller around the orchestrator (execution/controller.js).
    - Recovery, Checkpoint: execution/recovery.js, core/recovery-service.js,
      checkpoint/checkpoint-manager.js.

    Execution gate (src/execution, src/policies)
    - ToolSystem, ToolExecutor, CommandRun: execution/tool-system.js,
      impl/tool-executor.js, impl/tool-registry.js. Policy, PolicyEngine:
      execution/execution-policy.js, policies/. CommandGuard: command-guard.js.
      Approvals and Canonical: approvals.js and its fingerprints. Controller:
      the gate of controller.js, composed of the previous ones. Plans:
      plans-episodes.js. Changesets with Paths: changesets.js. FileTools: [read_file],
      [search_code] and [apply_patch] of tool-executor.js. ProjectTools: the
      tests and builds of a project, its detection and the store of artifacts
      (environment.js, tool-executor.js). Network:
      environment.js and [fetch_url], with the second resolution of a name that
      the connection makes. Isolation: isolated-executor.js and
      sandbox-env.js. SandboxWorker: sandbox-worker/server.js, the service that
      runs the commands. Privacy: redaction and retention.

    Routing and learning (src/decisions, src/intelligence, src/impl)
    - Switching: decisions/switching-cost.js. ModelRegistry:
      impl/model-registry.js. RoutingObjective: decisions/routing-objective.js.
      Eligibility and Router: impl/model-router.js; Decisions:
      decisions/decision-engine.js. RouterIntel: intelligence/
      router-intelligence.js. Performance: performance-store.js. Evaluator:
      outcome-evaluator.js. Learning: intelligence-store.js.
    - TaskClassifier, SemanticCache, CacheManager, MemoryIntel, MemoryManager:
      the modules of the same names under intelligence/ and impl/.

    Context and prompt (intelligence/context-engine.js, impl/context-manager.js)
    - ContextEngine: scores, categories, dependency closure and selection under
      a token budget. ContextCompression: compression of one text.
      ContextManager: adding, removing and compressing items over RuntimeState.
      PromptPlan: the prompt, its plan of tokens and its fingerprint.

    Providers (providers/provider-adapter.js)
    - Sse: the parser of server-sent events. Providers: failures, requests,
      completions, the conversation of Anthropic, the registry of adapters.
      ProviderStream: streamed answers and [_callProvider].

    Money: Economics, CostEstimator, Savings (economics/, cost/, savings/,
    billing.js, billing-webhooks.js).

    Access: Auth, Tenants, HttpGuards, HttpApi (auth.js, tenant-store.js,
    server.js, security/http-headers.js); Credentials (providers/
    credential-store.js and the resolver of server.js).

    Files: FileStore (persistence.js), the directory of runs, events and learned
    data, whose retention keeps entries by identity, as a JavaScript [Set] does.

    Coordination: Coordinator (infrastructure/redis.js and its memory
    counterpart, behind the class [CoordinatorLaws]), RateLimit, Locks,
    Idempotency, Queue, RedisQueue, Events. A command of RedisQueue is answered,
    sent with its reply lost, or not sent; Tenants and Credentials take whether
    each write of theirs succeeds.

    ** How the model corresponds to the code

    An operation is a function named as in the code, from the state (a record
    with the fields of the class) and its arguments to the new state and the
    result; [throw] is a value of [res] or of StateM; [await] points where other
    requests may interleave are constructors of a step relation or queries of an
    oracle. [r <| f := v |>] is [r.f = v]. Each definition that stands for code
    is preceded by the path, the lines and the name it translates.

    Integers that the code keeps below 2^53 (counts, tokens, milliseconds) are
    [Z] or [nat]; amounts of money, ratios and scores are binary64 ([num]).
    Clocks, random ids and nonces are arguments: a theorem holds for all of
    them. Hash functions, the host's collation and [Math.pow] are arguments with
    the laws a theorem needs. Strings are ASCII; texts that are only displayed
    (labels, reasons, log lines) are left out where nothing reads them.

    ** What the theorems show

    - The gate: [Controller.gate_sound], [CommandGuard.command_gate_sound],
      [Approvals.approval_consumption_sound], [Session.changeset_apply_gated],
      [Changesets.changeset_all_or_nothing], [Changesets.rollback_safe],
      [CommandRun.execution_fail_closed], [ToolExecutor.handlers_start_checked],
      [Network.fetch_contacts_only_safe_targets],
      [SandboxWorker.sandbox_confined]: an effect happens only after
      the checks that guard it, on the arguments they checked.
    - The loop: [LoopSafety.attempt_settles] (every execution returns, and the
      run is then not active), [LoopSafety.loop_bounded],
      [LoopSafety.dispatch_recorded], [RegistryInvariant.run_ends_once],
      [RegistryInvariant.registry_sound], [RegistryInvariant.retry_sound],
      [Checkpoint.recovery_sound], [RuntimeState.runtime_state_wf].
    - Tenancy: [HttpApi.api_isolation], [Tenants.session_sound],
      [Tenants.project_isolation], [MemoryManager.memory_isolation],
      [Credentials.store_refines_vault] (the store of keys is a map of scopes and
      providers, across restarts and failed writes) and
      [Providers.run_key_isolation] (a live run has the key of its tenant).
    - Providers: [ProviderStream.stream_chunking_irrelevant] and
      [ProviderStream.stream_equals_complete]: neither the cuts of the network nor
      those of the provider change an answer; [Providers.provider_errors_sound],
      [Providers.anthropic_blocks_preserved].
    - Context: [ContextEngine.selection_sound], [ContextManager.compression_sound],
      [PromptPlan.prompt_isolation] (what a prompt holds, and where: nothing of the
      task, the context or the memory is in the system message).
    - Routing: [Eligibility.eligibility_sound] and [Router.routed_soundly] (a
      routed model passed every stage or is the incumbent),
      [RoutingObjective.cheapest_wins].
    - Files: [FileTools.search_refines], [FileTools.read_confined],
      [FileTools.patch_atomic], [ProjectTools.project_commands_fixed],
      [ProjectTools.artifacts_bounded], [FileStore.retention_isolated],
      [FileStore.sweep_spares_needed],
      [FileStore.compaction_reaches_caps], [FileStore.log_merge_sound].
    - Coordination: [RedisQueue.redis_refines_ledger] and
      [CacheManager.cache_refines_writes] are refinements of abstract
      specifications, [Locks.lock_mutual_exclusion],
      [Idempotency.idempotent_replay], [Queue.queue_accounting] invariants over
      all interleavings.
    - Defects: [Session.completion_never_reported],
      [Orchestrator.pause_fails_running_run],
      [RegistryInvariant.blocked_retry_leaks],
      [Learning.reliability_counts_failures_only] and the examples of each file.

    ** Bounds and fuel

    Recursion is structural almost everywhere. The regular expression matcher
    runs a quantifier at most once per character of the text, because an
    iteration that consumes nothing fails. The step loop runs on [maxSteps] of
    the run's configuration, which the code compares with its counter before
    each step; [LoopSafety.attempt_settles] shows that nothing is cut off. The
    drain loops of the queues run on the number of waiting jobs. The search for
    dependencies runs on their number, which [ContextEngine.closure_terminates]
    shows to be enough, cycles included. Redirects of
    [fetch_url] are bounded by the code's own limit.

    ** What is not modelled, and why

    The front end, the demo, deployment files and the release checks render or
    script, and hold no state of a run. The browser tool drives a browser. The
    loop takes the answers of the providers from [env], and the adapters, over an
    arbitrary network, are modelled apart. The listing of models and its polling
    are not. execution-state.js is required by no module. Between the check of an
    address and the connection, between two operations on a file, other processes
    of the host are not modelled, except where a fault or an answer is an
    argument. The stores of postgres.js and run-store.js issue statements to a
    database; telemetry and logging only observe. Reports (data.js, api/,
    intelligence-analytics.js) format what other components computed. The
    benchmark store and the capability profiles are not modelled. *)

From stdpp Require Export base tactics option list strings gmap.
From Stdlib Require Export ZArith Lia.

#[export] Set Default Goal Selector "!".

(** * Notation scope, hint databases and tactics of the development *)

Declare Scope js_scope.
Delimit Scope js_scope with js.

Create HintDb js.
Create HintDb jsmap.

(** Case analysis on every [if]/[match] whose scrutinee is exposed, with
    the equations simplified as they appear. *)
Ltac js_cases :=
  repeat (case_match || case_decide); simplify_eq/=; try done.

(** Split every conjunction of the goal, keeping the hypotheses as they are. *)
Ltac js_split := repeat match goal with |- _ /\ _ => split end.

(** [js_auto]: the closing tactic of routine side conditions. *)
Ltac js_auto := try done; try lia; eauto with js jsmap.

(** * Assignment to a field of a record

    [Eta R] lists the fields of [R]; from it the update of any one field is
    found by instance search, so that [r <| f := v |>] is the record [r] after
    the assignment [r.f = v] and [r <| f ::= g |>] after [r.f = g(r.f)]. *)
Class Eta (R : Type) := eta : R → R.
Class Assign {R E : Type} (field : R → E) := MkAssign { assign : (E → E) → R → R; assign_tag : True }.
Arguments assign {R E} field {_} g r.

Ltac solve_assign R field :=
  let e := constr:(_ : Eta R) in
  let e := (let h := match e with ?f _ => f | ?f => f end in eval cbv delta [h] in e) in
  let e := eval cbv beta in e in
  match eval pattern field in e with
  | ?body _ =>
      let t := eval cbv beta in (fun g r => body (fun r' => g (field r')) r) in
      exact (MkAssign R _ field t I)
  end.
#[export] Hint Extern 0 (@Assign ?R ?E ?field) => solve_assign R field : typeclass_instances.

Notation "r <| f := v |>" := (assign f (fun _ => v) r)
  (at level 1, f at level 1, v at level 200) : js_scope.
Notation "r <| f ::= g |>" := (assign f g r)
  (at level 1, f at level 1, g at level 200) : js_scope.

(** * Results of fallible code

    A JavaScript [Error] as the callers observe it: the [code] property, when
    one was attached, and the message. *)
Record js_error := JsError { err_code : option string; err_msg : string }.

#[export] Instance js_error_eq_dec : EqDecision js_error.
Proof. solve_decision. Defined.

Inductive res (A : Type) : Type :=
| Ok (a : A)
| Throw (e : js_error).
Arguments Ok {A} a.
Arguments Throw {A} e.

#[export] Instance res_ret : MRet res := fun A a => Ok a.
#[export] Instance res_bind : MBind res := fun A B f m =>
  match m with Ok a => f a | Throw e => Throw e end.

Lemma res_bind_ok {A B} (f : A → res B) (m : res A) b :
  (m ≫= f) = Ok b ↔ ∃ a, m = Ok a ∧ f a = Ok b.
Proof. destruct m; simpl; naive_solver. Qed.

(** * Truthiness of optional strings: [undefined], [null] and [""] are falsy *)
Definition truthy (s : option string) : bool :=
  match s with Some (String _ _) => true | _ => false end.

Definition truthy_str (s : string) : bool :=
  match s with EmptyString => false | _ => true end.

(** [a || b] on strings. *)
Definition or_str (a b : string) : string := if truthy_str a then a else b.

Lemma truthy_Some s : truthy s = true → is_Some s.
Proof. destruct s; naive_solver. Qed.

(** * Arrays *)

(** [xs.push(x); if (xs.length > max) xs.shift();] *)
Definition push_shift {A} (max : nat) (l : list A) (x : A) : list A :=
  let l' := l ++ [x] in
  if decide (max < length l') then tail l' else l'.

(** [xs.slice(-n)]; [slice(-0)] is the whole array. *)
Definition slice_last {A} (n : nat) (l : list A) : list A :=
  match n with O => l | _ => drop (length l - n) l end.

Lemma forallb_Forall {A} (p : A → bool) (l : list A) : forallb p l = true ↔ Forall (λ x, p x = true) l.
Proof.
  rewrite Forall_forall, List.forallb_forall. by setoid_rewrite list_elem_of_In.
Qed.

Section Arrays.
Context {A : Type}.
Implicit Types (l : list A) (x : A).

Lemma length_tail l : length (tail l) = pred (length l).
Proof. by destruct l. Qed.

Lemma push_shift_length max l x :
  length l ≤ max → length (push_shift max l x) ≤ max.
Proof.
  intros Hl. unfold push_shift. case_decide as Hd.
  - rewrite length_tail, length_app; simpl. lia.
  - lia.
Qed.

Lemma push_shift_suffix max l x : push_shift max l x `suffix_of` l ++ [x].
Proof.
  unfold push_shift. case_decide; [|done].
  destruct l as [|y l]; simpl; [by exists [x]|by exists [y]].
Qed.

Lemma push_shift_last max l x :
  0 < max → last (push_shift max l x) = Some x.
Proof.
  intros Hm. unfold push_shift. case_decide as Hd; [|apply last_snoc].
  destruct l as [|y l]; simpl in *; [lia|]. apply last_snoc.
Qed.

Lemma push_shift_Forall (P : A → Prop) max l x :
  Forall P l → P x → Forall P (push_shift max l x).
Proof.
  intros Hl Hx. assert (Forall P (l ++ [x])) as H
    by (apply Forall_app; auto).
  destruct (push_shift_suffix max l x) as [k Hk]. rewrite Hk in H.
  by apply Forall_app in H as [_ ?].
Qed.

Lemma push_shift_small max l x :
  length l < max → push_shift max l x = l ++ [x].
Proof.
  intros Hl. unfold push_shift. case_decide as Hd; [|done].
  rewrite length_app in Hd; simpl in Hd. lia.
Qed.

Lemma slice_last_length n l : 0 < n → length (slice_last n l) ≤ n.
Proof. intros Hn. destruct n; [lia|]. unfold slice_last. rewrite length_drop. lia. Qed.

Lemma slice_last_all n l : length l ≤ n → slice_last n l = l.
Proof. intros H. destruct n; simpl; [done|]. by replace (length l - S n)%nat with 0%nat by lia. Qed.

Lemma slice_last_suffix n l : slice_last n l `suffix_of` l.
Proof.
  destruct n; [done|]. exists (take (length l - S n) l). unfold slice_last.
  by rewrite take_drop.
Qed.

Lemma suffix_Forall (P : A → Prop) l l' :
  l' `suffix_of` l → Forall P l → Forall P l'.
Proof. intros [k ->]. rewrite Forall_app. naive_solver. Qed.

Lemma filter_ext_in (P Q : A → Prop) `{∀ x, Decision (P x), ∀ x, Decision (Q x)} l :
  (∀ x, x ∈ l → P x ↔ Q x) → filter P l = filter Q l.
Proof.
  induction l as [|x l IH]; intros HPQ; [done|]. rewrite !filter_cons, IH.
  - repeat case_decide; set_solver.
  - set_solver.
Qed.

(** Every two neighbours of an array are related. *)
Definition adjacent (R : A → A → Prop) l : Prop :=
  ∀ i x y, l !! i = Some x → l !! S i = Some y → R x y.

Lemma adjacent_nil R : adjacent R [].
Proof. by intros i x y ?. Qed.

Lemma adjacent_singleton R x : adjacent R [x].
Proof. intros [|i] y z ? ?; done. Qed.

Lemma adjacent_cons R x y l :
  adjacent R (x :: y :: l) ↔ R x y ∧ adjacent R (y :: l).
Proof.
  split.
  - intros H. split; [by apply (H 0)|]. intros i. apply (H (S i)).
  - intros [Hxy H] [|i] u v; simpl; [naive_solver|apply (H i)].
Qed.

Lemma adjacent_snoc R l x :
  adjacent R l → (∀ y, last l = Some y → R y x) → adjacent R (l ++ [x]).
Proof.
  intros Hl Hx i u v Hu Hv.
  assert (S i < length (l ++ [x])) as Hlt by (by eapply lookup_lt_Some).
  rewrite length_app in Hlt; simpl in Hlt.
  destruct (decide (S i = length l)) as [E|E].
  - rewrite lookup_app_r in Hv by lia. replace (S i - length l) with 0 in Hv by lia.
    simplify_eq/=. apply Hx. rewrite last_lookup, <- E. simpl.
    by rewrite lookup_app_l in Hu by lia.
  - rewrite !lookup_app_l in * by lia. eauto.
Qed.

Lemma adjacent_suffix R l l' : l' `suffix_of` l → adjacent R l → adjacent R l'.
Proof.
  intros [k ->] H i u v Hu Hv. apply (H (length k + i)).
  - rewrite lookup_app_r by lia. by replace (length k + i - length k) with i by lia.
  - rewrite lookup_app_r by lia. by replace (S (length k + i) - length k) with (S i) by lia.
Qed.

Lemma push_shift_adjacent R max l x :
  adjacent R l → (∀ y, last l = Some y → R y x) → adjacent R (push_shift max l x).
Proof.
  intros Hl Hx. eapply adjacent_suffix; [apply push_shift_suffix|].
  by apply adjacent_snoc.
Qed.
End Arrays.
#[export] Hint Resolve push_shift_length push_shift_Forall : js.

(** * Event sequences: invariants of a deterministic step function *)
Section Runs.
Context {S E : Type} (step : S → E → S).

Definition run (s : S) (es : list E) : S := foldl step s es.

Lemma run_app s es es' : run s (es ++ es') = run (run s es) es'.
Proof. apply foldl_app. Qed.

Lemma run_invariant (P : S → Prop) (Q : E → Prop) s es :
  (∀ s e, P s → Q e → P (step s e)) →
  P s → Forall Q es → P (run s es).
Proof.
  intros Hstep Hs Hes. revert s Hs.
  induction Hes as [|e es He Hes IH]; intros s Hs; simpl; [done|].
  apply IH. by apply Hstep.
Qed.

Lemma run_invariant_all (P : S → Prop) s es :
  (∀ s e, P s → P (step s e)) → P s → P (run s es).
Proof.
  intros Hstep Hs. apply (run_invariant P (λ _, True)); auto.
  by apply Forall_true.
Qed.
End Runs.

(** Reflexive-transitive closure of a labelled step relation. *)
Section Traces.
Context {S L : Type} (R : S → L → S → Prop).

Inductive trace : S → list L → S → Prop :=
| trace_nil s : trace s [] s
| trace_cons s l s' ls s'' : R s l s' → trace s' ls s'' → trace s (l :: ls) s''.

Lemma trace_invariant (P : S → Prop) s ls s' :
  (∀ s l s', P s → R s l s' → P s') → trace s ls s' → P s → P s'.
Proof. intros Hstep. induction 1; eauto. Qed.

Lemma trace_app s ls s' ls' s'' :
  trace s ls s' → trace s' ls' s'' → trace s (ls ++ ls') s''.
Proof. induction 1; intros; simpl; [done|]. econstructor; eauto. Qed.
End Traces.
#[export] Hint Constructors trace : js.
