(* ===== verification/StateM.v ===== *)
(** Stateful code that can throw: a state and error monad.

    [M S A] is a program over the state [S] that returns an [A] or throws; the
    state it reaches is kept in both cases, as an exception leaves the writes
    made before it. *)

From S2P Require Import Prelude.

Definition M (S A : Type) : Type := S → S * res A.

#[export] Instance M_ret S : MRet (M S) := λ A a s, (s, Ok a).
#[export] Instance M_bind S : MBind (M S) := λ A B f m s,
  match m s with (s', Ok a) => f a s' | (s', Throw e) => (s', Throw e) end.

Section StateM.
Context {S : Type}.

Definition throw {A} (e : js_error) : M S A := λ s, (s, Throw e).
Definition lift {A} (r : res A) : M S A := λ s, (s, r).
Definition gets {A} (f : S → A) : M S A := λ s, (s, Ok (f s)).
Definition modify (f : S → S) : M S unit := λ s, (f s, Ok tt).

(** [try { m } catch (e) { h(e) }] *)
Definition try_catch {A} (m : M S A) (h : js_error → M S A) : M S A := λ s,
  match m s with (s', Ok a) => (s', Ok a) | (s', Throw e) => h e s' end.

(** [for (const x of xs) await f(x)], stopping at the first exception. *)
Fixpoint for_each {A} (f : A → M S unit) (l : list A) : M S unit :=
  match l with
  | [] => mret tt
  | x :: l' => f x ≫= λ _, for_each f l'
  end.

Lemma bind_ok {A B} (f : A → M S B) (m : M S A) s s' b :
  (m ≫= f) s = (s', Ok b) ↔ ∃ s1 a, m s = (s1, Ok a) ∧ f a s1 = (s', Ok b).
Proof.
  unfold mbind, M_bind. destruct (m s) as [s1 [a|e]]; split.
  - eauto.
  - intros (? & ? & [= <- <-] & ?). done.
  - done.
  - by intros (? & ? & ? & ?).
Qed.

Lemma bind_throw {A B} (f : A → M S B) (m : M S A) s s' e :
  (m ≫= f) s = (s', Throw e) ↔
  m s = (s', Throw e) ∨ ∃ s1 a, m s = (s1, Ok a) ∧ f a s1 = (s', Throw e).
Proof.
  unfold mbind, M_bind. destruct (m s) as [s1 [a|e1]]; split.
  - eauto.
  - intros [?|(? & ? & [= <- <-] & ?)]; done.
  - intros [= -> ->]. by left.
  - intros [[= -> ->]|(? & ? & ? & ?)]; done.
Qed.

(** What every operation preserves, whether it returns or throws. *)
Definition keeps {A} (R : S → S → Prop) (m : M S A) : Prop := ∀ s, R s (m s).1.

Lemma keeps_bind {A B} R `{!Transitive R} (m : M S A) (f : A → M S B) :
  keeps R m → (∀ a, keeps R (f a)) → keeps R (m ≫= f).
Proof.
  intros Hm Hf s. unfold mbind, M_bind. specialize (Hm s).
  destruct (m s) as [s1 [a|e]]; simpl in *; [|done]. etrans; [exact Hm|apply Hf].
Qed.

Lemma keeps_for_each {A} R `{!Reflexive R, !Transitive R} (f : A → M S unit) l :
  (∀ x, x ∈ l → keeps R (f x)) → keeps R (for_each f l).
Proof.
  induction l as [|x l IH]; intros Hf; [intros s; simpl; reflexivity|].
  simpl. apply keeps_bind; [done|apply Hf; by left|]. intros _. apply IH.
  intros y Hy. apply Hf. by right.
Qed.
End StateM.
