(* ===== verification/JsMap.v ===== *)
(** JavaScript [Map]: a dictionary that iterates in insertion order.

    Several components depend on that order (the oldest key is evicted, the
    newest entry is last), so a [Map] is an association list in insertion
    order: [set] overwrites an existing key in place and appends a new one,
    [delete] removes the key.  [map_of] relates it to stdpp's finite maps. *)

From S2P Require Import Prelude.

Section JsMap.
Context {K : Type} `{Countable K} {V : Type}.

Abbreviation jsmap := (list (K * V)).

(** [m.get(k)] *)
Fixpoint mget (m : jsmap) (k : K) : option V :=
  match m with
  | [] => None
  | (k', v) :: m' => if decide (k = k') then Some v else mget m' k
  end.

(** [m.has(k)] *)
Definition mhas (m : jsmap) (k : K) : bool := bool_decide (is_Some (mget m k)).

(** [m.set(k, v)] *)
Fixpoint mset (m : jsmap) (k : K) (v : V) : jsmap :=
  match m with
  | [] => [(k, v)]
  | (k', v') :: m' =>
      if decide (k = k') then (k, v) :: m' else (k', v') :: mset m' k v
  end.

(** [m.delete(k)] *)
Fixpoint mdelete (m : jsmap) (k : K) : jsmap :=
  match m with
  | [] => []
  | (k', v') :: m' =>
      if decide (k = k') then m' else (k', v') :: mdelete m' k
  end.

(** [[...m.keys()]], [[...m.values()]], [m.size] *)
Definition mkeys (m : jsmap) : list K := m.*1.
Definition mvalues (m : jsmap) : list V := m.*2.
Definition msize (m : jsmap) : nat := length m.

(** [m.keys().next().value] *)
Definition mfirst (m : jsmap) : option K := head (mkeys m).

(** Mutating a value reached through [m.get(k)]. *)
Definition malter (f : V → V) (m : jsmap) (k : K) : jsmap :=
  match mget m k with Some v => mset m k (f v) | None => m end.

(** [for (const v of m.values()) ...] mutating each record in place. *)
Definition mmap (f : V → V) (m : jsmap) : jsmap := prod_map id f <$> m.

(** Keys are distinct: true of every [Map], preserved by every operation. *)
Definition mwf (m : jsmap) : Prop := NoDup (mkeys m).

Implicit Types (m : jsmap) (k : K) (v : V).

Lemma mget_set_eq m k v : mget (mset m k v) k = Some v.
Proof.
  induction m as [|[k' v'] m IH]; simpl; [by rewrite decide_True|].
  case_decide; simpl; [by rewrite decide_True|by rewrite decide_False].
Qed.

Lemma mget_set_ne m k k' v : k ≠ k' → mget (mset m k v) k' = mget m k'.
Proof.
  intros Hne. induction m as [|[j w] m IH]; simpl.
  - by rewrite decide_False.
  - repeat case_decide; simplify_eq/=; repeat case_decide; by simplify_eq.
Qed.

Lemma mget_set m k k' v :
  mget (mset m k v) k' = if decide (k = k') then Some v else mget m k'.
Proof. case_decide; subst; [apply mget_set_eq|by apply mget_set_ne]. Qed.

Lemma mget_elem m k v : mget m k = Some v → (k, v) ∈ m.
Proof.
  induction m as [|[j w] m IH]; simpl; [done|]. case_decide; intros; simplify_eq.
  - by left.
  - right. auto.
Qed.

Lemma mget_None_keys m k : mget m k = None ↔ k ∉ mkeys m.
Proof.
  induction m as [|[j w] m IH]; simpl; [split; [by intros _ ?%not_elem_of_nil|done]|].
  rewrite not_elem_of_cons. case_decide; naive_solver.
Qed.

Lemma mget_Some_keys m k : is_Some (mget m k) ↔ k ∈ mkeys m.
Proof.
  rewrite <- not_eq_None_Some, mget_None_keys.
  destruct (decide (k ∈ mkeys m)); naive_solver.
Qed.

Lemma elem_mget m k v : mwf m → (k, v) ∈ m → mget m k = Some v.
Proof.
  unfold mwf. induction m as [|[j w] m IH]; simpl; intros Hwf Hin.
  - by apply not_elem_of_nil in Hin.
  - apply NoDup_cons in Hwf as [Hj Hwf]. apply elem_of_cons in Hin as [|Hin]; simplify_eq.
    + by rewrite decide_True.
    + rewrite decide_False; [by apply IH|].
      intros ->. apply Hj. apply list_elem_of_fmap. by exists (j, v).
Qed.

Lemma mkeys_set m k v :
  mkeys (mset m k v) = if decide (k ∈ mkeys m) then mkeys m else mkeys m ++ [k].
Proof.
  induction m as [|[j w] m IH]; [done|].
  destruct (decide (k = j)) as [->|Hd].
  - rewrite (decide_True (P := j ∈ _)) by (simpl; by left). simpl. by rewrite decide_True.
  - simpl mset. rewrite decide_False by done. simpl mkeys. rewrite IH.
    repeat case_decide; set_solver.
Qed.

Lemma mwf_nil : mwf [].
Proof. constructor. Qed.

Lemma mwf_set m k v : mwf m → mwf (mset m k v).
Proof.
  unfold mwf. intros Hwf. rewrite mkeys_set. case_decide; [done|].
  apply NoDup_app. split_and!; [done|set_solver|apply NoDup_singleton].
Qed.

Lemma mdelete_filter m k : mwf m → mdelete m k = filter (λ p, p.1 ≠ k) m.
Proof.
  unfold mwf. induction m as [|[j w] m IH]; simpl; intros Hwf; [done|].
  apply NoDup_cons in Hwf as [Hj Hwf]. rewrite filter_cons; simpl.
  case_decide; subst.
  - rewrite decide_False by naive_solver. symmetry.
    clear IH Hwf. induction m as [|[i u] m IH]; simpl in *; [done|].
    rewrite filter_cons; simpl. apply not_elem_of_cons in Hj as [??].
    rewrite decide_True by done. by rewrite IH.
  - rewrite decide_True by done. by rewrite IH.
Qed.

Lemma mkeys_delete m k : mwf m → mkeys (mdelete m k) = filter (λ j, j ≠ k) (mkeys m).
Proof.
  intros Hwf. rewrite mdelete_filter by done. unfold mkeys.
  clear Hwf. induction m as [|[j w] m IH]; simpl; [done|].
  rewrite !filter_cons; simpl. case_decide; simpl; [by f_equal|done].
Qed.

Lemma mwf_delete m k : mwf m → mwf (mdelete m k).
Proof. intros Hwf. unfold mwf. rewrite mkeys_delete by done. by apply NoDup_filter. Qed.

Lemma mget_delete_eq m k : mwf m → mget (mdelete m k) k = None.
Proof.
  intros Hwf. apply mget_None_keys. rewrite mkeys_delete by done.
  rewrite list_elem_of_filter. naive_solver.
Qed.

Lemma mget_delete_ne m k k' : k ≠ k' → mget (mdelete m k) k' = mget m k'.
Proof.
  intros Hne. induction m as [|[j w] m IH]; simpl; [done|].
  repeat case_decide; simplify_eq/=; [done|by rewrite decide_True|by rewrite decide_False].
Qed.

Lemma mget_delete m k k' :
  mwf m → mget (mdelete m k) k' = if decide (k = k') then None else mget m k'.
Proof.
  intros Hwf. case_decide; subst; [by apply mget_delete_eq|by apply mget_delete_ne].
Qed.

Lemma msize_set_new m k v : mget m k = None → msize (mset m k v) = S (msize m).
Proof.
  unfold msize. induction m as [|[j w] m IH]; simpl; [done|].
  case_decide; [done|]. intros. simpl. by rewrite IH.
Qed.

Lemma msize_set_old m k v : is_Some (mget m k) → msize (mset m k v) = msize m.
Proof.
  unfold msize. induction m as [|[j w] m IH]; simpl; [by intros [??]|].
  case_decide; [done|]. intros. simpl. by rewrite IH.
Qed.

Lemma msize_set_le m k v : msize (mset m k v) ≤ S (msize m).
Proof.
  destruct (mget m k) eqn:E; [rewrite msize_set_old|rewrite msize_set_new]; eauto.
Qed.

Lemma msize_delete m k : is_Some (mget m k) → S (msize (mdelete m k)) = msize m.
Proof.
  unfold msize. induction m as [|[j w] m IH]; simpl; [by intros [??]|].
  case_decide; [done|]. intros. simpl. by rewrite IH.
Qed.

Lemma mset_new m k v : mget m k = None → mset m k v = m ++ [(k, v)].
Proof. induction m as [|[j w] m IH]; simpl; [done|]. case_decide; [done|]. intros. by rewrite IH. Qed.

Lemma mdelete_snoc m k v : mget m k = None → mdelete (m ++ [(k, v)]) k = m.
Proof.
  induction m as [|[j w] m IH]; simpl; [by rewrite decide_True|]. case_decide; [done|].
  intros. by rewrite IH.
Qed.

Lemma mdelete_absent m k : mget m k = None → mdelete m k = m.
Proof. induction m as [|[j w] m IH]; simpl; [done|]. case_decide; [done|]. intros. by rewrite IH. Qed.

Lemma msize_keys m : msize m = length (mkeys m).
Proof. unfold msize, mkeys. by rewrite length_fmap. Qed.

Lemma msize_bound m (U : list K) :
  mwf m → (∀ k, k ∈ mkeys m → k ∈ U) → msize m ≤ length U.
Proof.
  intros Hwf Hsub. rewrite msize_keys. apply submseteq_length.
  apply NoDup_submseteq; [done|]. set_solver.
Qed.

Lemma elem_mkeys_set m k k' v : k' ∈ mkeys (mset m k v) ↔ k' = k ∨ k' ∈ mkeys m.
Proof. rewrite mkeys_set. case_decide; set_solver. Qed.

(** ** Properties of all values *)
Definition mall (P : K → V → Prop) m : Prop := ∀ k v, mget m k = Some v → P k v.

Lemma mall_set (P : K → V → Prop) m k v : mall P m → P k v → mall P (mset m k v).
Proof. intros Hm Hv k' v'. rewrite mget_set. case_decide; naive_solver. Qed.

Lemma mall_delete (P : K → V → Prop) m k : mwf m → mall P m → mall P (mdelete m k).
Proof. intros Hwf Hm k' v'. rewrite mget_delete by done. case_decide; naive_solver. Qed.

Lemma mall_nil (P : K → V → Prop) : mall P [].
Proof. by intros ??. Qed.

Lemma mkeys_mmap f m : mkeys (mmap f m) = mkeys m.
Proof. unfold mkeys, mmap. rewrite <- list_fmap_compose. by apply list_fmap_ext. Qed.

Lemma mget_mmap f m k : mget (mmap f m) k = f <$> mget m k.
Proof. induction m as [|[j w] m IH]; simpl; [done|]. by case_decide. Qed.

Lemma mwf_mmap f m : mwf m → mwf (mmap f m).
Proof. unfold mwf. by rewrite mkeys_mmap. Qed.

Lemma mget_malter f m k k' :
  mget (malter f m k) k' = if decide (k = k') then f <$> mget m k else mget m k'.
Proof.
  unfold malter. case_decide as Hd; subst.
  - destruct (mget m k') eqn:E; simpl; [by rewrite mget_set_eq|done].
  - destruct (mget m k); [by rewrite mget_set_ne|done].
Qed.

Lemma mwf_malter f m k : mwf m → mwf (malter f m k).
Proof. unfold malter. case_match; [apply mwf_set|done]. Qed.

(** [mset] and [mdelete] as multisets of entries. *)
Lemma mset_perm m k v : mset m k v ≡ₚ (k, v) :: mdelete m k.
Proof.
  induction m as [|[j w] m IH]; simpl; [done|]. case_decide; [done|]. rewrite IH. apply perm_swap.
Qed.

Lemma mdelete_perm m k v : mget m k = Some v → m ≡ₚ (k, v) :: mdelete m k.
Proof.
  induction m as [|[j w] m IH]; simpl; [done|]. case_decide; [by intros [= ->]; subst|].
  intros E. rewrite (IH E) at 1. apply perm_swap.
Qed.

(** ** Counting and filtering *)
Lemma filter_length_le {A} (P : A → Prop) `{!∀ x, Decision (P x)} (f : A → A) l :
  (∀ x, P (f x) → P x) → length (filter P (f <$> l)) ≤ length (filter P l).
Proof.
  intros Hf. induction l as [|x l IH]; [done|]. rewrite fmap_cons, !filter_cons.
  case_decide; case_decide; simpl; naive_solver lia.
Qed.

Section Count.
Context (P : V → Prop) `{!∀ v, Decision (P v)}.

Definition mcount m : nat := length (filter P (mvalues m)).

Lemma mcount_cons k v m : mcount ((k, v) :: m) = (if decide (P v) then 1 else 0) + mcount m.
Proof. unfold mcount, mvalues. simpl. rewrite filter_cons. by case_decide. Qed.

Lemma mcount_set_le m k v : mcount (mset m k v) ≤ S (mcount m).
Proof.
  induction m as [|[j w] m IH]; simpl; [rewrite mcount_cons; case_decide; lia|].
  case_decide; rewrite !mcount_cons; [repeat case_decide; lia|lia].
Qed.

Lemma mcount_set_not m k v : ¬ P v → mcount (mset m k v) ≤ mcount m.
Proof.
  intros Hv. induction m as [|[j w] m IH]; simpl; [rewrite mcount_cons; by case_decide|].
  case_decide; rewrite !mcount_cons; [rewrite (decide_False (P := P v)) by done; lia|lia].
Qed.

Lemma mcount_set_old m k v v0 : mget m k = Some v0 → (P v → P v0) → mcount (mset m k v) ≤ mcount m.
Proof.
  intros Hk Hv. induction m as [|[j w] m IH]; simpl in *; [done|].
  case_decide; rewrite !mcount_cons; simplify_eq; [repeat case_decide; naive_solver lia|].
  specialize (IH Hk). lia.
Qed.

Lemma mcount_mmap f m : (∀ v, P (f v) → P v) → mcount (mmap f m) ≤ mcount m.
Proof.
  intros Hf. induction m as [|[j w] m IH]; [done|].
  change (mmap f ((j, w) :: m)) with ((j, f w) :: mmap f m). rewrite !mcount_cons.
  repeat case_decide; naive_solver lia.
Qed.
End Count.

Section Filter.
Context (Q : K * V → Prop) `{!∀ p, Decision (Q p)}.

Lemma mwf_filter m : mwf m → mwf (filter Q m).
Proof. unfold mwf, mkeys. intros Hm. eapply sublist_NoDup; [done|]. apply fmap_sublist, sublist_filter. Qed.

Lemma mget_filter m k : mwf m →
  mget (filter Q m) k = v ← mget m k; if decide (Q (k, v)) then Some v else None.
Proof.
  unfold mwf, mkeys. induction m as [|[j w] m IH]; [done|]. simpl.
  intros [Hj Hm]%NoDup_cons. rewrite filter_cons. case_decide as Hq.
  - simpl. case_decide; simplify_eq; simpl; [by rewrite decide_True|auto].
  - rewrite IH by done. case_decide as Hk; simplify_eq; simpl; [|done].
    rewrite decide_False by done. destruct (mget m j) eqn:E; [|done].
    destruct Hj. apply mget_Some_keys. by eexists.
Qed.

Lemma mcount_filter (P : V → Prop) `{!∀ v, Decision (P v)} m : mcount P (filter Q m) ≤ mcount P m.
Proof.
  induction m as [|[j w] m IH]; [done|]. rewrite filter_cons, mcount_cons.
  case_decide; [rewrite mcount_cons|]; lia.
Qed.
End Filter.

(** ** Refinement to stdpp's finite maps *)
Definition map_of (m : jsmap) : gmap K V := list_to_map m.

Lemma map_of_lookup m k : map_of m !! k = mget m k.
Proof.
  unfold map_of. induction m as [|[j w] m IH]; simpl; [done|].
  rewrite lookup_insert. repeat case_decide; by simplify_eq.
Qed.

Lemma map_of_set m k v : map_of (mset m k v) = <[k := v]> (map_of m).
Proof.
  apply map_eq. intros i. rewrite map_of_lookup, lookup_insert, mget_set, map_of_lookup.
  done.
Qed.

Lemma map_of_delete m k : mwf m → map_of (mdelete m k) = delete k (map_of m).
Proof.
  intros Hwf. apply map_eq. intros i.
  rewrite map_of_lookup, lookup_delete, mget_delete, map_of_lookup by done. done.
Qed.
End JsMap.

#[export] Hint Resolve mwf_nil mwf_set mwf_delete mwf_mmap mwf_malter mall_set mall_delete mall_nil mwf_filter : jsmap.

(** A [Map] from [K] to [V]. *)
Abbreviation jsmap K V := (list (K * V)).
