(* ===== verification/JsValue.v ===== *)
(** JavaScript values and their textual forms.

    Integers print in decimal ([String(n)], template literals) and read back
    with [Number(s)].  [jsval] is the type of the JSON-like values that tool
    arguments and metadata carry. *)

From S2P Require Import Prelude JsMap.
From Stdlib Require Import DecimalString DecimalZ DecimalFacts.
From Stdlib Require Export Ascii.

Local Open Scope string_scope.

(** * Integers as decimal strings *)

(** [String(n)] for an integer [n]. *)
Definition string_of_Z (n : Z) : string := NilZero.string_of_int (Z.to_int n).

(** [Number(s)] for a decimal integer literal; [None] stands for [NaN]. *)
Definition Z_of_string (s : string) : option Z := Z.of_int <$> NilZero.int_of_string s.

Lemma Z_of_string_of_Z n : Z_of_string (string_of_Z n) = Some n.
Proof.
  unfold Z_of_string, string_of_Z. rewrite NilZero.isi.
  - simpl. by rewrite DecimalZ.of_to.
  - intros E. pose proof (DecimalZ.of_to n) as H. rewrite E in H. simpl in H. by subst n.
  - intros E. pose proof (DecimalZ.of_to n) as H. rewrite E in H. simpl in H. by subst n.
Qed.

#[export] Instance string_of_Z_inj : Inj (=) (=) string_of_Z.
Proof.
  intros a b E. apply (f_equal Z_of_string) in E. rewrite !Z_of_string_of_Z in E.
  by simplify_eq.
Qed.

(** * JSON-like values

    Numbers are integers; object keys keep their insertion order. *)

Inductive jsval :=
| JUndef
| JNull
| JBool (b : bool)
| JNum (n : Z)
| JStr (s : string)
| JArr (xs : list jsval)
| JObj (fields : list (string * jsval)).

Section Induction.
Context (P : jsval → Prop).
Context (Hundef : P JUndef) (Hnull : P JNull) (Hbool : ∀ b, P (JBool b))
  (Hnum : ∀ n, P (JNum n)) (Hstr : ∀ s, P (JStr s))
  (Harr : ∀ xs, Forall P xs → P (JArr xs))
  (Hobj : ∀ fs, Forall (λ f, P f.2) fs → P (JObj fs)).

Fixpoint jsval_nested_ind (v : jsval) : P v :=
  match v with
  | JUndef => Hundef | JNull => Hnull | JBool b => Hbool b | JNum n => Hnum n
  | JStr s => Hstr s
  | JArr xs => Harr xs
      ((fix go xs : Forall P xs := match xs with
        | [] => Forall_nil_2 P
        | x :: xs' => Forall_cons_2 P x xs' (jsval_nested_ind x) (go xs')
        end) xs)
  | JObj fs => Hobj fs
      ((fix go fs : Forall (λ f, P f.2) fs := match fs with
        | [] => Forall_nil_2 _
        | f :: fs' => Forall_cons_2 _ f fs' (jsval_nested_ind f.2) (go fs')
        end) fs)
  end.
End Induction.

#[export] Instance jsval_eq_dec : EqDecision jsval.
Proof.
  refine (fix go v w : {v = w} + {v ≠ w} :=
    match v, w with
    | JUndef, JUndef | JNull, JNull => left eq_refl
    | JBool a, JBool b => cast_if (decide (a = b))
    | JNum a, JNum b => cast_if (decide (a = b))
    | JStr a, JStr b => cast_if (decide (a = b))
    | JArr xs, JArr ys => cast_if (@list_eq_dec _ go xs ys)
    | JObj xs, JObj ys =>
        cast_if (@list_eq_dec _ (@prod_eq_dec string _ jsval go) xs ys)
    | _, _ => right _
    end); clear go; abstract congruence.
Defined.

(** [!!v] *)
Definition truthy_val (v : jsval) : bool :=
  match v with
  | JUndef | JNull => false
  | JBool b => b
  | JNum n => negb (n =? 0)%Z
  | JStr s => truthy_str s
  | JArr _ | JObj _ => true
  end.

(** [v.k], [undefined] when absent or when [v] is a primitive. *)
Definition prop (v : jsval) (k : string) : jsval :=
  match v with JObj fs => default JUndef (mget fs k) | _ => JUndef end.

Definition is_array (v : jsval) : bool := match v with JArr _ => true | _ => false end.
Definition is_string (v : jsval) : bool := match v with JStr _ => true | _ => false end.

(** [xs.join(sep)] *)
Fixpoint js_join (sep : string) (xs : list string) : string :=
  match xs with
  | [] => ""
  | [x] => x
  | x :: xs' => x ++ sep ++ js_join sep xs'
  end.

(** [String(v)] *)
Fixpoint to_string (v : jsval) : string :=
  match v with
  | JUndef => "undefined"
  | JNull => "null"
  | JBool true => "true"
  | JBool false => "false"
  | JNum n => string_of_Z n
  | JStr s => s
  | JArr xs => js_join "," (List.map (λ x,
      match x with JUndef | JNull => "" | _ => to_string x end) xs)
  | JObj _ => "[object Object]"
  end.

(** ** Strings in JSON: quoted, with the quote, the backslash and the control
    characters escaped. *)

Definition quote_char : ascii := "034"%char.
Definition backslash : ascii := "092"%char.

Definition hex_digit (n : nat) : ascii :=
  match String.get n "0123456789abcdef" with Some c => c | None => "0"%char end.

Definition escape_char (c : ascii) : string :=
  let n := nat_of_ascii c in
  if decide (c = quote_char) then String backslash (String quote_char "")
  else if decide (c = backslash) then String backslash (String backslash "")
  else if decide (n = 8) then String backslash "b"
  else if decide (n = 9) then String backslash "t"
  else if decide (n = 10) then String backslash "n"
  else if decide (n = 12) then String backslash "f"
  else if decide (n = 13) then String backslash "r"
  else if decide (n < 32) then
    String backslash ("u00" ++ String (hex_digit (n / 16)) (String (hex_digit (n mod 16)) ""))
  else String c "".

Fixpoint escape (s : string) : string :=
  match s with EmptyString => "" | String c s' => escape_char c ++ escape s' end.

(** [JSON.stringify(s)] *)
Definition json_quote (s : string) : string :=
  String quote_char (escape s ++ String quote_char "").

(** [JSON.stringify(v)]; [None] is [undefined]. *)
Fixpoint json_stringify (v : jsval) : option string :=
  match v with
  | JUndef => None
  | JNull => Some "null"
  | JBool true => Some "true"
  | JBool false => Some "false"
  | JNum n => Some (string_of_Z n)
  | JStr s => Some (json_quote s)
  | JArr xs => Some ("[" ++ js_join "," (List.map (λ x, default "null" (json_stringify x)) xs) ++ "]")
  | JObj fs =>
      Some ("{" ++ js_join "," (omap (λ f : string * option string,
               r ← f.2; Some (json_quote f.1 ++ ":" ++ r))
               (List.map (λ f, (f.1, json_stringify f.2)) fs)) ++ "}")
  end.

(** * String methods *)

(** [s.startsWith(p)] *)
Definition starts_with (p s : string) : bool := String.prefix p s.

(** [s.includes(p)] *)
Fixpoint contains (p s : string) : bool :=
  String.prefix p s || match s with EmptyString => false | String _ s' => contains p s' end.

(** [s.endsWith(p)] *)
Fixpoint ends_with (p s : string) : bool :=
  String.eqb p s || match s with EmptyString => false | String _ s' => ends_with p s' end.

Definition newline : ascii := "010"%char.

(** [s.split(c)] *)
Fixpoint split_on (c : ascii) (s : string) : list string :=
  match s with
  | EmptyString => [""]
  | String d s' =>
      if decide (d = c) then "" :: split_on c s'
      else match split_on c s' with
           | w :: ws => String d w :: ws
           | [] => [String d ""]
           end
  end.

(** [s.toLowerCase()] *)
Definition lower_char (c : ascii) : ascii :=
  let n := nat_of_ascii c in
  if decide (65 <= n <= 90) then ascii_of_nat (n + 32) else c.

Fixpoint to_lower (s : string) : string :=
  match s with EmptyString => "" | String c s' => String (lower_char c) (to_lower s') end.

(** [s.slice(0, n)] *)
Definition slice0 (n : nat) (s : string) : string := String.substring 0 n s.
