(* ===== verification/Text.v ===== *)
(** Text scanning: the character classes, searches and trims that the code's
    regular expressions are made of, on ASCII strings. *)

From S2P Require Import Prelude JsMap JsValue.

Local Open Scope string_scope.

(** [/[...]/.test(s)] for a character class. *)
Fixpoint any_char (f : ascii → bool) (s : string) : bool :=
  match s with EmptyString => false | String c s' => f c || any_char f s' end.

(** A match of [f] starts at some position of [s]. *)
Fixpoint any_suffix (f : string → bool) (s : string) : bool :=
  f s || match s with EmptyString => false | String _ s' => any_suffix f s' end.

Fixpoint string_drop (n : nat) (s : string) : string :=
  match n, s with S n', String _ s' => string_drop n' s' | _, _ => s end.

Fixpoint drop_spaces (is_space : ascii → bool) (s : string) : string :=
  match s with
  | String c s' => if is_space c then drop_spaces is_space s' else s
  | EmptyString => EmptyString
  end.

(** [\s] on ASCII. *)
Definition is_space (c : ascii) : bool :=
  let n := nat_of_ascii c in bool_decide (n = 32 ∨ (9 ≤ n ∧ n ≤ 13))%nat.

Definition is_alpha_ (c : ascii) : bool :=
  let n := nat_of_ascii c in
  bool_decide ((65 ≤ n ∧ n ≤ 90) ∨ (97 ≤ n ∧ n ≤ 122) ∨ n = 95)%nat.

(** [\w] *)
Definition is_word (c : ascii) : bool :=
  let n := nat_of_ascii c in is_alpha_ c || bool_decide (48 ≤ n ∧ n ≤ 57)%nat.

Definition one_of (cs : string) (c : ascii) : bool := contains (String c "") cs.

Fixpoint rev_string (acc s : string) : string :=
  match s with EmptyString => acc | String c s' => rev_string (String c acc) s' end.

(** [s.trim()] *)
Definition trim (s : string) : string :=
  let t := drop_spaces is_space s in
  rev_string "" (drop_spaces is_space (rev_string "" t)).

(** [s.split(/[...]+/).filter(Boolean)]: the maximal pieces free of
    separators. *)
Fixpoint words (sep : ascii → bool) (s : string) : list string :=
  match s with
  | EmptyString => []
  | String c s' =>
      if sep c then words sep s'
      else match s' with
           | EmptyString => [String c ""]
           | String d _ =>
               if sep d then String c "" :: words sep s'
               else match words sep s' with
                    | w :: ws => String c w :: ws
                    | [] => [String c ""]
                    end
           end
  end.

(** The rest of [s] after the first of the prefixes [ps] it starts with. *)
Fixpoint strip_any (ps : list string) (s : string) : option string :=
  match ps with
  | [] => None
  | p :: ps' =>
      if starts_with p s then Some (string_drop (String.length p) s) else strip_any ps' s
  end.

(** The rest of [s] after [\s+]. *)
Definition strip_spaces (s : string) : option string :=
  match s with
  | String c s' => if is_space c then Some (drop_spaces is_space s') else None
  | EmptyString => None
  end.

(** [.] matches no line terminator. *)
Definition single_line (s : string) : bool :=
  negb (any_char (one_of (String "010" (String "013" ""))) s).

(** [s.replace(/^\/+/, '')] *)
Fixpoint strip_slashes (p : string) : string :=
  match p with String c p' => if Ascii.eqb c "/"%char then strip_slashes p' else p | _ => p end.

(** ** Lengths *)

Lemma length_append (a b : string) : String.length (a ++ b) = (String.length a + String.length b)%nat.
Proof. induction a as [|c a IH]; simpl; [done|]. by rewrite IH. Qed.

Lemma slice0_all n s : (String.length s ≤ n)%nat → slice0 n s = s.
Proof.
  unfold slice0. revert n. induction s as [|c s IH]; intros [|n] Hn; simpl in *; try done; [lia|].
  by rewrite IH by lia.
Qed.

Lemma slice0_length n s : (String.length (slice0 n s) ≤ n)%nat.
Proof.
  unfold slice0. revert n. induction s as [|c s IH]; intros [|n]; simpl; [lia..|]. specialize (IH n). lia.
Qed.

(** ** Concatenation, reversal, trimming *)

Lemma string_app_assoc (a b c : string) : (a ++ b) ++ c = a ++ (b ++ c).
Proof. induction a as [|x a IH]; [done|]. change (String x ((a ++ b) ++ c) = String x (a ++ (b ++ c))). by rewrite IH. Qed.

Lemma string_app_nil_r (a : string) : a ++ "" = a.
Proof. induction a as [|x a IH]; [done|]. change (String x (a ++ "") = String x a). by rewrite IH. Qed.

Lemma any_char_app f a b : any_char f (a ++ b) = any_char f a || any_char f b.
Proof.
  induction a as [|c a IH]; [done|]. change (f c || any_char f (a ++ b) = (f c || any_char f a) || any_char f b).
  by rewrite IH, orb_assoc.
Qed.

Lemma rev_string_app acc s : rev_string acc s = rev_string "" s ++ acc.
Proof.
  revert acc. induction s as [|c s IH]; intros acc; simpl; [done|].
  rewrite IH, (IH (String c "")). by rewrite string_app_assoc.
Qed.

Lemma rev_string_involutive s : rev_string "" (rev_string "" s) = s.
Proof.
  assert (∀ a b, rev_string "" (a ++ b) = rev_string "" b ++ rev_string "" a) as Hr.
  { induction a as [|c a IH]; intros b; [by rewrite string_app_nil_r|].
    change (rev_string (String c "") (a ++ b) = rev_string "" b ++ rev_string (String c "") a).
    rewrite (rev_string_app _ (a ++ b)), IH, (rev_string_app (String c "") a). by rewrite string_app_assoc. }
  induction s as [|c s IH]; simpl; [done|]. rewrite (rev_string_app (String c "") s), Hr, IH. done.
Qed.

Lemma any_char_rev f s : any_char f (rev_string "" s) = any_char f s.
Proof.
  induction s as [|c s IH]; simpl; [done|]. rewrite (rev_string_app (String c "") s), any_char_app, IH. simpl.
  by rewrite orb_false_r, orb_comm.
Qed.

Lemma trim_id s : any_char is_space s = false → trim s = s.
Proof.
  assert (∀ t, any_char is_space t = false → drop_spaces is_space t = t) as Hd.
  { intros [|c t]; simpl; [done|]. by intros [-> _]%orb_false_iff. }
  intros H. unfold trim. rewrite (Hd s H), Hd by (by rewrite any_char_rev). apply rev_string_involutive.
Qed.

