(* ===== verification/Canonical.v ===== *)
(** Canonical JSON: [stableStringify] of backend/src/execution/approvals.js,
    the text an approval's fingerprint is computed from.

    [canon] sorts the keys of every object; [stableStringify] is the plain
    rendering of the canonical value ([stable_render]), so it does not depend
    on key order, and on values without [undefined] that rendering is a prefix
    code ([render_inj]): equal texts mean equal values up to key order. *)

From S2P Require Import Prelude JsMap JsValue.
From stdpp Require Import sorting.
From Stdlib Require Import Sorted.

Local Open Scope string_scope.

(** * Sorting by key *)

Definition key_le (a b : string) : bool := String.leb a b.

Fixpoint insert_key {A} (f : string * A) (l : list (string * A)) : list (string * A) :=
  match l with
  | [] => [f]
  | g :: l' => if key_le f.1 g.1 then f :: l else g :: insert_key f l'
  end.

(** [Object.keys(value).sort()], each key with its value. *)
(* [src/backend/src/execution/approvals.js:29-29] sorted keys *)
Definition sort_keys {A} (l : list (string * A)) : list (string * A) :=
  foldr insert_key [] l.

(* [src/backend/src/execution/approvals.js:26-31] stableStringify *)
Fixpoint stableStringify (v : jsval) : option string :=
  match v with
  | JArr xs => Some ("[" ++ js_join "," (List.map (λ x, default "" (stableStringify x)) xs) ++ "]")
  | JObj fs =>
      Some ("{" ++ js_join "," (List.map (λ f : string * option string,
               json_quote f.1 ++ ":" ++ default "undefined" f.2)
               (sort_keys (List.map (λ f, (f.1, stableStringify f.2)) fs))) ++ "}")
  | _ => json_stringify v
  end.

Lemma insert_key_map {A B} (g : A → B) k a l :
  insert_key (k, g a) (List.map (λ f, (f.1, g f.2)) l) =
  List.map (λ f, (f.1, g f.2)) (insert_key (k, a) l).
Proof. induction l as [|[j b] l IH]; simpl; [done|]. case_match; simpl; [done|]. by rewrite IH. Qed.

Lemma sort_keys_map {A B} (g : A → B) l :
  sort_keys (List.map (λ f, (f.1, g f.2)) l) = List.map (λ f, (f.1, g f.2)) (sort_keys l).
Proof.
  induction l as [|[k a] l IH]; simpl; [done|]. unfold sort_keys in *. simpl.
  by rewrite IH, insert_key_map.
Qed.

Lemma insert_key_perm {A} (f : string * A) l : insert_key f l ≡ₚ f :: l.
Proof.
  induction l as [|g l IH]; simpl; [done|]. case_match; [done|].
  rewrite IH. by constructor.
Qed.

Lemma sort_keys_perm {A} (l : list (string * A)) : sort_keys l ≡ₚ l.
Proof.
  induction l as [|f l IH]; simpl; [done|]. unfold sort_keys in *. simpl.
  rewrite insert_key_perm. by constructor.
Qed.

Lemma key_le_total a b : key_le a b = false → key_le b a = true.
Proof. unfold key_le. intros H. destruct (String.leb_total a b) as [E|E]; congruence. Qed.

Lemma key_le_antisym a b : key_le a b = true → key_le b a = true → a = b.
Proof. apply String.leb_antisym. Qed.

Lemma ascii_compare_nat a b : Ascii.compare a b = (nat_of_ascii a ?= nat_of_ascii b)%nat.
Proof.
  unfold Ascii.compare, nat_of_ascii. by rewrite N2Nat.inj_compare.
Qed.

Lemma key_le_trans a b c : key_le a b = true → key_le b c = true → key_le a c = true.
Proof.
  unfold key_le, String.leb. revert b c.
  induction a as [|x a IH]; intros [|y b] [|z c]; simpl; try done.
  rewrite !ascii_compare_nat.
  destruct (Nat.compare_spec (nat_of_ascii x) (nat_of_ascii y)),
    (Nat.compare_spec (nat_of_ascii y) (nat_of_ascii z)),
    (Nat.compare_spec (nat_of_ascii x) (nat_of_ascii z)); try done; try lia.
  intros. by eapply IH.
Qed.

Definition pair_le {A} (f g : string * A) : Prop := key_le f.1 g.1 = true.

Lemma sort_keys_sorted {A} (l : list (string * A)) : StronglySorted pair_le (sort_keys l).
Proof.
  induction l as [|f l IH]; simpl; [constructor|]. unfold sort_keys in *. simpl.
  revert IH. generalize (foldr insert_key [] l) as s. clear l.
  induction s as [|g s IH]; intros Hs; simpl; [repeat constructor|].
  inversion Hs as [|? ? Hs' Hg]; subst. case_match eqn:E.
  - constructor; [done|]. constructor; [done|]. eapply Forall_impl; [exact Hg|].
    intros h Hh. by eapply key_le_trans.
  - constructor; [by apply IH|]. rewrite insert_key_perm. constructor; [|done].
    by apply key_le_total.
Qed.

(** Objects with the same fields in any order sort to the same list. *)
Lemma sort_keys_unique {A} (l l' : list (string * A)) :
  NoDup l.*1 → l ≡ₚ l' → sort_keys l = sort_keys l'.
Proof.
  intros Hn Hp. apply (StronglySorted_unique_strong pair_le).
  - intros x1 x2 H1 H2 H12 H21.
    assert (x1.1 = x2.1) as E by by apply key_le_antisym.
    assert (x1 ∈ l) as I1 by (by rewrite <- (sort_keys_perm l)).
    assert (x2 ∈ l) as I2 by (rewrite Hp; by rewrite <- (sort_keys_perm l')).
    apply list_elem_of_lookup in I1 as [i Hi]. apply list_elem_of_lookup in I2 as [j Hj].
    assert (i = j) as ->; [|congruence].
    eapply NoDup_lookup; [exact Hn|by rewrite list_lookup_fmap, Hi|].
    rewrite list_lookup_fmap, Hj. simpl. by rewrite E.
  - apply sort_keys_sorted.
  - apply sort_keys_sorted.
  - by rewrite !sort_keys_perm.
Qed.

(** * Canonical values and their rendering *)

Fixpoint canon (v : jsval) : jsval :=
  match v with
  | JArr xs => JArr (List.map canon xs)
  | JObj fs => JObj (sort_keys (List.map (λ f, (f.1, canon f.2)) fs))
  | _ => v
  end.

(** No [undefined] inside. *)
Fixpoint defined (v : jsval) : bool :=
  match v with
  | JUndef => false
  | JArr xs => forallb defined xs
  | JObj fs => forallb (λ f, defined f.2) fs
  | _ => true
  end.

Fixpoint render (v : jsval) : string :=
  match v with
  | JUndef => ""
  | JNull => "null"
  | JBool true => "true"
  | JBool false => "false"
  | JNum n => string_of_Z n
  | JStr s => json_quote s
  | JArr xs => "[" ++ js_join "," (List.map render xs) ++ "]"
  | JObj fs => "{" ++ js_join "," (List.map (λ f, json_quote f.1 ++ ":" ++ render f.2) fs) ++ "}"
  end.

Lemma stable_render v :
  defined v = true → stableStringify v = Some (render (canon v)).
Proof.
  induction v as [| | | | |xs IH|fs IH] using jsval_nested_ind; try done.
  - by destruct b.
  - simpl. rewrite forallb_Forall. intros Hd. do 3 f_equal. rewrite List.map_map.
    f_equal. apply List.map_ext_in. intros x Hx%list_elem_of_In.
    rewrite Forall_forall in IH, Hd. by rewrite IH by auto.
  - simpl. rewrite forallb_Forall. intros Hd.
    assert (List.map (λ f, (f.1, stableStringify f.2)) fs =
            List.map (λ f, (f.1, Some (render (canon f.2)))) fs) as ->.
    { apply List.map_ext_in. intros f Hf%list_elem_of_In. rewrite Forall_forall in IH, Hd.
      by rewrite IH by auto. }
    rewrite (sort_keys_map (λ v, Some (render (canon v)))), (sort_keys_map canon).
    by rewrite !List.map_map.
Qed.

Lemma canon_defined v : defined v = true → defined (canon v) = true.
Proof.
  induction v as [| | | | |xs IH|fs IH] using jsval_nested_ind; try done.
  - simpl. rewrite !forallb_Forall. intros Hd. rewrite List.Forall_map.
    rewrite Forall_forall in IH, Hd |- *. auto.
  - simpl. rewrite !forallb_Forall, sort_keys_perm. intros Hd. rewrite List.Forall_map.
    rewrite Forall_forall in IH, Hd |- *. simpl. auto.
Qed.

(** Key order is irrelevant. *)
Lemma canon_perm fs fs' : NoDup fs.*1 → fs ≡ₚ fs' → canon (JObj fs) = canon (JObj fs').
Proof.
  intros Hn Hp. simpl. f_equal. apply sort_keys_unique.
  - assert ((List.map (λ f : string * jsval, (f.1, canon f.2)) fs).*1 = fs.*1) as ->; [|done].
    clear. induction fs as [|f fs IH]; csimpl; [done|]. by f_equal.
  - by apply Permutation_map.
Qed.

(** * The rendering is injective *)

(** ** Characters *)

#[local] Arguments String.append !_ _ / : simpl nomatch.

Definition all_ascii : list ascii := List.map ascii_of_nat (seq 0 256).

Lemma all_ascii_complete c : c ∈ all_ascii.
Proof.
  unfold all_ascii. apply list_elem_of_In, List.in_map_iff. exists (nat_of_ascii c).
  split; [apply ascii_nat_embedding|]. apply List.in_seq.
  pose proof (nat_ascii_bounded c). lia.
Qed.

Definition escapes : list (ascii * string) := List.map (λ c, (c, escape_char c)) all_ascii.

Lemma escapes_complete c : (c, escape_char c) ∈ escapes.
Proof.
  apply list_elem_of_In, List.in_map_iff. exists c. split; [done|].
  apply list_elem_of_In, all_ascii_complete.
Qed.

Definition escape_ok (t : list (ascii * string)) : bool :=
  forallb (λ p, negb (String.prefix (String quote_char "") p.2) && negb (String.eqb p.2 "") &&
    forallb (λ q, negb (String.prefix p.2 q.2) || Ascii.eqb p.1 q.1) t) t.

Lemma escape_table : escape_ok escapes = true.
Proof. vm_compute. reflexivity. Qed.

Lemma escape_row c :
  String.prefix (String quote_char "") (escape_char c) = false ∧ escape_char c ≠ "" ∧
  ∀ d, String.prefix (escape_char c) (escape_char d) = true → c = d.
Proof.
  pose proof escape_table as H. unfold escape_ok in H.
  rewrite forallb_Forall, Forall_forall in H. specialize (H _ (escapes_complete c)).
  cbn [fst snd] in H. rewrite !andb_true_iff, !negb_true_iff in H. destruct H as [[H1 H2] H3].
  split; [done|]. split; [by apply String.eqb_neq|]. intros d Hd.
  rewrite forallb_Forall, Forall_forall in H3. specialize (H3 _ (escapes_complete d)).
  cbn [fst snd] in H3. rewrite Hd in H3. by apply Ascii.eqb_eq in H3.
Qed.

Lemma prefix_app a b r r' : a ++ r = b ++ r' → String.prefix a b = true ∨ String.prefix b a = true.
Proof.
  revert b. induction a as [|x a IH]; intros [|y b]; simpl; [by left|by left|by right|].
  intros [= -> E].
  destruct (IH b E); [left|right]; destruct (ascii_dec y y); done.
Qed.

Lemma app_cancel (a b b' : string) : a ++ b = a ++ b' → b = b'.
Proof. induction a as [|x a IH]; simpl; [done|]. intros [= ?]. auto. Qed.

Lemma app_assoc_str (a b c : string) : (a ++ b) ++ c = a ++ b ++ c.
Proof. induction a as [|x a IH]; simpl; [done|]. by f_equal. Qed.

Lemma escape_char_inj c d x y : escape_char c ++ x = escape_char d ++ y → c = d ∧ x = y.
Proof.
  intros E. assert (c = d) as ->.
  { destruct (prefix_app _ _ _ _ E) as [H|H]; apply escape_row in H; congruence. }
  split; [done|]. by apply app_cancel in E.
Qed.

Lemma quote_head c x r : String quote_char x ≠ escape_char c ++ r.
Proof.
  intros E. destruct (escape_row c) as (H & Hn & _).
  destruct (escape_char c) as [|a s] eqn:Es; [done|].
  simpl in *. injection E as <- _. destruct (ascii_dec quote_char quote_char); [|done].
  by destruct s.
Qed.

Lemma json_quote_inj s t r r' : json_quote s ++ r = json_quote t ++ r' → s = t ∧ r = r'.
Proof.
  unfold json_quote. simpl. intros [= E]. rewrite !app_assoc_str in E. revert t E.
  induction s as [|c s IH]; intros [|d t]; simpl; rewrite ?app_assoc_str; intros E.
  - by injection E.
  - by apply quote_head in E.
  - symmetry in E. by apply quote_head in E.
  - apply escape_char_inj in E as [-> E]. destruct (IH t E) as [-> ->]. done.
Qed.

(** ** Numbers *)

Definition is_digit (c : ascii) : bool :=
  let n := nat_of_ascii c in ((48 <=? n) && (n <=? 57))%nat || (n =? 45)%nat.

Fixpoint digits (s : string) : bool :=
  match s with "" => true | String c s' => is_digit c && digits s' end.

Definition stops (r : string) : bool :=
  match r with "" => true | String c _ => negb (is_digit c) end.

Lemma digits_split a b r r' :
  digits a = true → digits b = true → stops r = true → stops r' = true →
  a ++ r = b ++ r' → a = b ∧ r = r'.
Proof.
  revert b. induction a as [|x a IH]; intros [|y b]; simpl; intros Ha Hb Hr Hr' E.
  - done.
  - subst r. simpl in Hr. apply andb_true_iff in Hb as [Hb _]. by rewrite Hb in Hr.
  - subst r'. simpl in Hr'. apply andb_true_iff in Ha as [Ha _]. by rewrite Ha in Hr'.
  - injection E as -> E. apply andb_true_iff in Ha as [_ Ha], Hb as [_ Hb].
    destruct (IH b) as [-> ->]; done.
Qed.

Lemma digits_uint d : digits (DecimalString.NilEmpty.string_of_uint d) = true.
Proof. by induction d. Qed.

Lemma digits_Z n : digits (string_of_Z n) = true ∧ string_of_Z n ≠ "".
Proof.
  unfold string_of_Z, DecimalString.NilZero.string_of_int, DecimalString.NilZero.string_of_uint.
  destruct (Z.to_int n) as [d|d]; simpl; destruct d; simpl; rewrite ?digits_uint; done.
Qed.

Lemma digits_head n : ∃ c s, string_of_Z n = String c s ∧ is_digit c = true.
Proof.
  destruct (digits_Z n) as [H Hn]. destruct (string_of_Z n) as [|c s]; [done|].
  exists c, s. split; [done|]. simpl in H. by apply andb_true_iff in H as [? _].
Qed.

(** ** Values *)

(** The kinds of first characters: they tell the constructors apart. *)
Definition head_kind (c : ascii) : nat :=
  if is_digit c then 1
  else if Ascii.eqb c quote_char then 2
  else if Ascii.eqb c "["%char then 3
  else if Ascii.eqb c "{"%char then 4
  else if Ascii.eqb c "n"%char then 5
  else if Ascii.eqb c "t"%char then 6
  else if Ascii.eqb c "f"%char then 7 else 0.

Definition kind (v : jsval) : nat :=
  match v with
  | JUndef => 0 | JNum _ => 1 | JStr _ => 2 | JArr _ => 3 | JObj _ => 4
  | JNull => 5 | JBool true => 6 | JBool false => 7
  end.

Lemma render_head v : defined v = true →
  ∃ c s, render v = String c s ∧ head_kind c = kind v ∧ 0 < kind v.
Proof.
  destruct v as [| |[]|n| | |]; simpl; intros Hd; try done;
    try (eexists _, _; split; [done|]; split; [done|lia]).
  destruct (digits_head n) as (c & s & E & Hc). exists c, s. split; [done|].
  unfold head_kind. rewrite Hc. lia.
Qed.

Lemma render_kind v w r r' :
  defined v = true → defined w = true → render v ++ r = render w ++ r' → kind v = kind w.
Proof.
  intros Hv Hw E. destruct (render_head v Hv) as (c & s & Ev & Hk & _).
  destruct (render_head w Hw) as (d & t & Ew & Hk' & _).
  rewrite Ev, Ew in E. simpl in E. injection E as -> _. congruence.
Qed.

Definition injective_at (v : jsval) : Prop := ∀ w r r',
  defined v = true → defined w = true → stops r = true → stops r' = true →
  render v ++ r = render w ++ r' → v = w ∧ r = r'.

Lemma js_join_cons sep x xs :
  js_join sep (x :: xs) = x ++ match xs with [] => "" | _ => sep ++ js_join sep xs end.
Proof.
  destruct xs; simpl; [|done]. induction x as [|c x IH]; simpl; [done|]. by rewrite <- IH.
Qed.

Lemma app_nil_str (s : string) : s ++ "" = s.
Proof. induction s as [|c s IH]; simpl; [done|]. by f_equal. Qed.

(** Comma-separated items closed by a bracket: a prefix code when each item
    is one (before a comma or the bracket) and no item starts with the
    bracket. *)
Lemma items_inj {A} (f : A → string) (ok : A → Prop) (close : ascii) xs ys r r' :
  is_digit close = false → close ≠ ","%char →
  (∀ x, ok x → ∃ c s, f x = String c s ∧ c ≠ close) →
  Forall (λ x, ∀ y r r', ok x → ok y → stops r = true → stops r' = true →
          f x ++ r = f y ++ r' → x = y ∧ r = r') xs →
  Forall ok xs → Forall ok ys →
  js_join "," (List.map f xs) ++ String close r = js_join "," (List.map f ys) ++ String close r' →
  xs = ys ∧ r = r'.
Proof.
  intros Hd Hc Hhead Hinj Hxs. revert ys.
  assert (∀ (l : list A) q, stops (match List.map f l with [] => "" | _ => "," ++
    js_join "," (List.map f l) end ++ String close q) = true) as Hstop.
  { intros [|x l] q; simpl; [by rewrite Hd|done]. }
  induction xs as [|x xs IH]; intros [|y ys] Hys E; simpl List.map in E.
  - by injection E.
  - apply Forall_cons in Hys as [Hy _]. destruct (Hhead y Hy) as (c & s & Ef & Hne).
    rewrite js_join_cons, Ef in E. simpl in E. by injection E.
  - apply Forall_cons in Hxs as [Hx _]. destruct (Hhead x Hx) as (c & s & Ef & Hne).
    rewrite js_join_cons, Ef in E. simpl in E. injection E as E _. congruence.
  - apply Forall_cons in Hys as [Hy Hys], Hxs as [Hx Hxs], Hinj as [Hi Hinj].
    rewrite !js_join_cons, !app_assoc_str in E.
    apply Hi in E as [-> E]; [|done|done|apply Hstop|apply Hstop].
    destruct xs as [|x' xs], ys as [|y' ys]; simpl List.map in E; simpl in E.
    + by injection E.
    + injection E as E. congruence.
    + injection E as E. congruence.
    + injection E as E. destruct (IH Hinj Hxs (y' :: ys) Hys E) as [-> ->]. done.
Qed.

Lemma render_inj v : injective_at v.
Proof.
  induction v as [| |b|n|s|xs IH|fs IH] using jsval_nested_ind; intros w r r' Hv Hw Hr Hr' E;
    pose proof (render_kind _ _ _ _ Hv Hw E) as Hk.
  - done.
  - destruct w as [| |[]| | | |]; try done. by injection E.
  - destruct b, w as [| |[]| | | |]; try done; by injection E.
  - destruct w as [| |[]|m| | |]; try done. simpl in E.
    apply digits_split in E as [E ->]; [|apply digits_Z|apply digits_Z|done|done].
    by apply (inj string_of_Z) in E as ->.
  - destruct w as [| |[]| |t| |]; try done. simpl render in E.
    by apply json_quote_inj in E as [-> ->].
  - destruct w as [| |[]| | |ys|]; try done. simpl in E, Hv, Hw. injection E as E.
    rewrite !app_assoc_str in E. rewrite forallb_Forall in Hv. rewrite forallb_Forall in Hw.
    assert (xs = ys ∧ r = r') as [-> ->]; [|done].
    eapply (items_inj render (λ x, defined x = true)); [..|exact E]; try done.
    intros x Hx. destruct (render_head x Hx) as (c & s & Ec & Hkc & Hpos).
    exists c, s. split; [done|]. intros ->. destruct x as [| |[]| | | |]; done.
  - destruct w as [| |[]| | | |gs]; try done. simpl in E, Hv, Hw. injection E as E.
    rewrite !app_assoc_str in E. rewrite forallb_Forall in Hv. rewrite forallb_Forall in Hw.
    assert (fs = gs ∧ r = r') as [-> ->]; [|done].
    eapply (items_inj (λ f, json_quote f.1 ++ ":" ++ render f.2) (λ f, defined f.2 = true));
      [..|exact E]; try done.
    + intros x Hx. by eexists _, _.
    + eapply Forall_impl; [exact IH|]. intros [k x] Hx [l y] q q' ? ? ? ? Exy; cbn [fst snd] in *.
      rewrite !app_assoc_str in Exy. apply json_quote_inj in Exy as [-> Exy].
      injection Exy as Exy. apply Hx in Exy as [-> ->]; done.
Qed.

(** The canonical text determines the value up to key order, and conversely. *)
Lemma stable_canon v w :
  defined v = true → defined w = true →
  stableStringify v = stableStringify w ↔ canon v = canon w.
Proof.
  intros Hv Hw. rewrite !stable_render by done. split; [|by intros ->].
  intros [= E]. apply (render_inj (canon v) (canon w) "" ""); try done;
    [by apply canon_defined|by apply canon_defined|by rewrite !app_nil_str].
Qed.
