(* ===== verification/Types.v ===== *)
(** The shared vocabulary of backend/src/core/types.js.

    Each frozen constant object is a module with an inductive type of its keys
    ([t]), the wire string of each key ([value]) and the list of all keys in
    source order ([all], what [Object.values] enumerates). *)

From S2P Require Import Prelude.

Local Open Scope string_scope.

Section Enum.
Context {A : Type} (value : A → string) (all : list A).

Definition find_value (s : string) : option A :=
  snd <$> list_find (λ x, value x = s) all.

Lemma find_value_elem s x : find_value s = Some x → x ∈ all.
Proof.
  unfold find_value. destruct (list_find _ _) as [[i y]|] eqn:E; intros [= <-].
  apply list_find_Some in E as (E & _ & _). by eapply list_elem_of_lookup_2.
Qed.

Lemma value_inj_of : (∀ x, find_value (value x) = Some x) → Inj (=) (=) value.
Proof. intros H x y E. pose proof (H x) as Hx. rewrite E, H in Hx. by injection Hx. Qed.

Definition eq_dec_of `{!Inj (=) (=) value} : EqDecision A := λ x y,
  match decide (value x = value y) with
  | left E => left (inj value x y E)
  | right N => right (λ E, N (f_equal value E))
  end.
End Enum.

Module TaskStatus.
(* [src/backend/src/core/types.js:3-19] TaskStatus *)
Inductive t : Set :=
  | CREATED | PLANNING | CONTEXT_BUILD | MODEL_SELECT | EXECUTING
  | WAITING_FOR_TOOL | OBSERVING | REOPTIMIZING | COMPLETED | FAILED
  | CANCELLED | PAUSED | PAUSING | RESUMING | RETRYING.

(* [src/backend/src/core/types.js:3-19] TaskStatus *)
Definition value (x : t) : string :=
  match x with
  | CREATED => "created"
  | PLANNING => "planning"
  | CONTEXT_BUILD => "context_build"
  | MODEL_SELECT => "model_select"
  | EXECUTING => "executing"
  | WAITING_FOR_TOOL => "waiting_for_tool"
  | OBSERVING => "observing"
  | REOPTIMIZING => "reoptimizing"
  | COMPLETED => "completed"
  | FAILED => "failed"
  | CANCELLED => "cancelled"
  | PAUSED => "paused"
  | PAUSING => "pausing"
  | RESUMING => "resuming"
  | RETRYING => "retrying"
  end.

(* [src/backend/src/core/types.js:3-19] TaskStatus *)
Definition all : list t :=
  [CREATED; PLANNING; CONTEXT_BUILD; MODEL_SELECT; EXECUTING;
   WAITING_FOR_TOOL; OBSERVING; REOPTIMIZING; COMPLETED; FAILED; CANCELLED;
   PAUSED; PAUSING; RESUMING; RETRYING].

(** The key a wire string denotes. *)
Definition parse (s : string) : option t := find_value value all s.

Lemma TaskStatus_parse_value x : parse (value x) = Some x.
Proof. by destruct x. Qed.

#[export] Instance value_inj : Inj (=) (=) value.
Proof. exact (value_inj_of value all TaskStatus_parse_value). Qed.

#[global] Instance t_eq_dec : EqDecision t := eq_dec_of value.

Lemma TaskStatus_all_complete x : x ∈ all.
Proof. exact (find_value_elem value all _ _ (TaskStatus_parse_value x)). Qed.
End TaskStatus.

Module ModelStatus.
(* [src/backend/src/core/types.js:21-25] ModelStatus *)
Inductive t : Set :=
  | HEALTHY | DEGRADED | UNAVAILABLE.

(* [src/backend/src/core/types.js:21-25] ModelStatus *)
Definition value (x : t) : string :=
  match x with
  | HEALTHY => "healthy"
  | DEGRADED => "degraded"
  | UNAVAILABLE => "unavailable"
  end.

(* [src/backend/src/core/types.js:21-25] ModelStatus *)
Definition all : list t :=
  [HEALTHY; DEGRADED; UNAVAILABLE].

(** The key a wire string denotes. *)
Definition parse (s : string) : option t := find_value value all s.

Lemma ModelStatus_parse_value x : parse (value x) = Some x.
Proof. by destruct x. Qed.

#[export] Instance value_inj : Inj (=) (=) value.
Proof. exact (value_inj_of value all ModelStatus_parse_value). Qed.

#[global] Instance t_eq_dec : EqDecision t := eq_dec_of value.

Lemma ModelStatus_all_complete x : x ∈ all.
Proof. exact (find_value_elem value all _ _ (ModelStatus_parse_value x)). Qed.
End ModelStatus.

Module EventType.
(* [src/backend/src/core/types.js:27-101] EventType *)
Inductive t : Set :=
  | TASK_CREATED | TASK_STARTED | TASK_UPDATED | PLANNING | CONTEXT_BUILT
  | CONTEXT_ADDED | CONTEXT_REMOVED | CONTEXT_COMPRESSED
  | CONTEXT_LIMIT_WARNING | MODEL_DISCOVERED | MODEL_UPDATED
  | MODEL_PRICE_CHANGED | MODEL_HEALTH_CHANGED | MODEL_UNAVAILABLE
  | MODEL_SELECTED | MODEL_SWITCH_REQUESTED | MODEL_SWITCHED | MODEL_RETAINED
  | MODEL_SWITCH_REJECTED | CACHE_HIT | CACHE_MISS | CACHE_INVALIDATED
  | MEMORY_READ | MEMORY_WRITTEN | MEMORY_EVICTED | TOOL_SELECTED
  | TOOL_STARTED | TOOL_COMPLETED | TOOL_FAILED | EXECUTION_STARTED
  | EXECUTION_STEP_STARTED | EXECUTION_STEP_COMPLETED | EXECUTION_FAILED
  | EXECUTION_RETRY | EXECUTION_PAUSED | EXECUTION_RESUMED
  | EXECUTION_COMPLETED | ROUTING_EVALUATED | COST_UPDATED | BUDGET_WARNING
  | BUDGET_EXCEEDED | OPTIMIZATION_TRIGGERED | OPTIMIZATION_COMPLETED
  | RUN_COMPLETED | RUN_FAILED | RUN_CANCELLED | PRICE_UPDATED
  | CHANGE_RECORDED | RESPONSE_DELTA | RESPONSE_DONE | MODEL_CALL_COMPLETED
  | PLAN_CREATED | PLAN_UPDATED | TOOL_APPROVAL_REQUIRED | TOOL_APPROVED
  | TOOL_DENIED | TOOL_TIMED_OUT | CHANGESET_CREATED
  | CHANGESET_APPROVAL_REQUIRED | CHANGESET_APPLIED | CHANGESET_ROLLED_BACK
  | VERIFICATION_STARTED | VERIFICATION_PASSED | VERIFICATION_FAILED
  | EXECUTION_RECOVERY_STARTED | EXECUTION_RECOVERED
  | EXECUTION_RECOVERY_BLOCKED | EPISODE_STARTED | EPISODE_COMPLETED
  | APPROVAL_REQUESTED | APPROVAL_DECIDED.

(* [src/backend/src/core/types.js:27-101] EventType *)
Definition value (x : t) : string :=
  match x with
  | TASK_CREATED => "task.created"
  | TASK_STARTED => "task.started"
  | TASK_UPDATED => "task.updated"
  | PLANNING => "planning"
  | CONTEXT_BUILT => "context.built"
  | CONTEXT_ADDED => "context.added"
  | CONTEXT_REMOVED => "context.removed"
  | CONTEXT_COMPRESSED => "context.compressed"
  | CONTEXT_LIMIT_WARNING => "context.limit_warning"
  | MODEL_DISCOVERED => "model.discovered"
  | MODEL_UPDATED => "model.updated"
  | MODEL_PRICE_CHANGED => "model.price_changed"
  | MODEL_HEALTH_CHANGED => "model.health_changed"
  | MODEL_UNAVAILABLE => "model.unavailable"
  | MODEL_SELECTED => "model.selected"
  | MODEL_SWITCH_REQUESTED => "model.switch_requested"
  | MODEL_SWITCHED => "model.switched"
  | MODEL_RETAINED => "model.retained"
  | MODEL_SWITCH_REJECTED => "model.switch_rejected"
  | CACHE_HIT => "cache.hit"
  | CACHE_MISS => "cache.miss"
  | CACHE_INVALIDATED => "cache.invalidated"
  | MEMORY_READ => "memory.read"
  | MEMORY_WRITTEN => "memory.written"
  | MEMORY_EVICTED => "memory.evicted"
  | TOOL_SELECTED => "tool.selected"
  | TOOL_STARTED => "tool.started"
  | TOOL_COMPLETED => "tool.completed"
  | TOOL_FAILED => "tool.failed"
  | EXECUTION_STARTED => "execution.started"
  | EXECUTION_STEP_STARTED => "execution.step_started"
  | EXECUTION_STEP_COMPLETED => "execution.step_completed"
  | EXECUTION_FAILED => "execution.failed"
  | EXECUTION_RETRY => "execution.retry"
  | EXECUTION_PAUSED => "execution.paused"
  | EXECUTION_RESUMED => "execution.resumed"
  | EXECUTION_COMPLETED => "execution.completed"
  | ROUTING_EVALUATED => "routing.evaluated"
  | COST_UPDATED => "cost.updated"
  | BUDGET_WARNING => "budget.warning"
  | BUDGET_EXCEEDED => "budget.exceeded"
  | OPTIMIZATION_TRIGGERED => "optimization.triggered"
  | OPTIMIZATION_COMPLETED => "optimization.completed"
  | RUN_COMPLETED => "run.completed"
  | RUN_FAILED => "run.failed"
  | RUN_CANCELLED => "run.cancelled"
  | PRICE_UPDATED => "price.updated"
  | CHANGE_RECORDED => "change.recorded"
  | RESPONSE_DELTA => "response.delta"
  | RESPONSE_DONE => "response.done"
  | MODEL_CALL_COMPLETED => "model.call_completed"
  | PLAN_CREATED => "plan.created"
  | PLAN_UPDATED => "plan.updated"
  | TOOL_APPROVAL_REQUIRED => "tool.approval_required"
  | TOOL_APPROVED => "tool.approved"
  | TOOL_DENIED => "tool.denied"
  | TOOL_TIMED_OUT => "tool.timed_out"
  | CHANGESET_CREATED => "changeset.created"
  | CHANGESET_APPROVAL_REQUIRED => "changeset.approval_required"
  | CHANGESET_APPLIED => "changeset.applied"
  | CHANGESET_ROLLED_BACK => "changeset.rolled_back"
  | VERIFICATION_STARTED => "verification.started"
  | VERIFICATION_PASSED => "verification.passed"
  | VERIFICATION_FAILED => "verification.failed"
  | EXECUTION_RECOVERY_STARTED => "execution.recovery_started"
  | EXECUTION_RECOVERED => "execution.recovered"
  | EXECUTION_RECOVERY_BLOCKED => "execution.recovery_blocked"
  | EPISODE_STARTED => "episode.started"
  | EPISODE_COMPLETED => "episode.completed"
  | APPROVAL_REQUESTED => "approval.requested"
  | APPROVAL_DECIDED => "approval.decided"
  end.

(* [src/backend/src/core/types.js:27-101] EventType *)
Definition all : list t :=
  [TASK_CREATED; TASK_STARTED; TASK_UPDATED; PLANNING; CONTEXT_BUILT;
   CONTEXT_ADDED; CONTEXT_REMOVED; CONTEXT_COMPRESSED; CONTEXT_LIMIT_WARNING;
   MODEL_DISCOVERED; MODEL_UPDATED; MODEL_PRICE_CHANGED;
   MODEL_HEALTH_CHANGED; MODEL_UNAVAILABLE; MODEL_SELECTED;
   MODEL_SWITCH_REQUESTED; MODEL_SWITCHED; MODEL_RETAINED;
   MODEL_SWITCH_REJECTED; CACHE_HIT; CACHE_MISS; CACHE_INVALIDATED;
   MEMORY_READ; MEMORY_WRITTEN; MEMORY_EVICTED; TOOL_SELECTED; TOOL_STARTED;
   TOOL_COMPLETED; TOOL_FAILED; EXECUTION_STARTED; EXECUTION_STEP_STARTED;
   EXECUTION_STEP_COMPLETED; EXECUTION_FAILED; EXECUTION_RETRY;
   EXECUTION_PAUSED; EXECUTION_RESUMED; EXECUTION_COMPLETED;
   ROUTING_EVALUATED; COST_UPDATED; BUDGET_WARNING; BUDGET_EXCEEDED;
   OPTIMIZATION_TRIGGERED; OPTIMIZATION_COMPLETED; RUN_COMPLETED; RUN_FAILED;
   RUN_CANCELLED; PRICE_UPDATED; CHANGE_RECORDED; RESPONSE_DELTA;
   RESPONSE_DONE; MODEL_CALL_COMPLETED; PLAN_CREATED; PLAN_UPDATED;
   TOOL_APPROVAL_REQUIRED; TOOL_APPROVED; TOOL_DENIED; TOOL_TIMED_OUT;
   CHANGESET_CREATED; CHANGESET_APPROVAL_REQUIRED; CHANGESET_APPLIED;
   CHANGESET_ROLLED_BACK; VERIFICATION_STARTED; VERIFICATION_PASSED;
   VERIFICATION_FAILED; EXECUTION_RECOVERY_STARTED; EXECUTION_RECOVERED;
   EXECUTION_RECOVERY_BLOCKED; EPISODE_STARTED; EPISODE_COMPLETED;
   APPROVAL_REQUESTED; APPROVAL_DECIDED].

(** The key a wire string denotes. *)
Definition parse (s : string) : option t := find_value value all s.

Lemma EventType_parse_value x : parse (value x) = Some x.
Proof. by destruct x. Qed.

#[export] Instance value_inj : Inj (=) (=) value.
Proof. exact (value_inj_of value all EventType_parse_value). Qed.

#[global] Instance t_eq_dec : EqDecision t := eq_dec_of value.

Lemma EventType_all_complete x : x ∈ all.
Proof. exact (find_value_elem value all _ _ (EventType_parse_value x)). Qed.
End EventType.

Module DecisionType.
(* [src/backend/src/core/types.js:103-118] DecisionType *)
Inductive t : Set :=
  | MODEL_SELECTION | MODEL_SWITCH | MODEL_RETENTION | CONTEXT_COMPRESSION
  | CONTEXT_RETRIEVAL | TOOL_SELECTION | TOOL_ENABLE | TOOL_DISABLE | RETRY
  | FALLBACK | PAUSE | RESUME | TERMINATE | CHECKPOINT.

(* [src/backend/src/core/types.js:103-118] DecisionType *)
Definition value (x : t) : string :=
  match x with
  | MODEL_SELECTION => "model_selection"
  | MODEL_SWITCH => "model_switch"
  | MODEL_RETENTION => "model_retention"
  | CONTEXT_COMPRESSION => "context_compression"
  | CONTEXT_RETRIEVAL => "context_retrieval"
  | TOOL_SELECTION => "tool_selection"
  | TOOL_ENABLE => "tool_enable"
  | TOOL_DISABLE => "tool_disable"
  | RETRY => "retry"
  | FALLBACK => "fallback"
  | PAUSE => "pause"
  | RESUME => "resume"
  | TERMINATE => "terminate"
  | CHECKPOINT => "checkpoint"
  end.

(* [src/backend/src/core/types.js:103-118] DecisionType *)
Definition all : list t :=
  [MODEL_SELECTION; MODEL_SWITCH; MODEL_RETENTION; CONTEXT_COMPRESSION;
   CONTEXT_RETRIEVAL; TOOL_SELECTION; TOOL_ENABLE; TOOL_DISABLE; RETRY;
   FALLBACK; PAUSE; RESUME; TERMINATE; CHECKPOINT].

(** The key a wire string denotes. *)
Definition parse (s : string) : option t := find_value value all s.

Lemma DecisionType_parse_value x : parse (value x) = Some x.
Proof. by destruct x. Qed.

#[export] Instance value_inj : Inj (=) (=) value.
Proof. exact (value_inj_of value all DecisionType_parse_value). Qed.

#[global] Instance t_eq_dec : EqDecision t := eq_dec_of value.

Lemma DecisionType_all_complete x : x ∈ all.
Proof. exact (find_value_elem value all _ _ (DecisionType_parse_value x)). Qed.
End DecisionType.

Module DecisionStatus.
(* [src/backend/src/core/types.js:120-125] DecisionStatus *)
Inductive t : Set :=
  | PENDING | EXECUTED | REJECTED | FAILED.

(* [src/backend/src/core/types.js:120-125] DecisionStatus *)
Definition value (x : t) : string :=
  match x with
  | PENDING => "pending"
  | EXECUTED => "executed"
  | REJECTED => "rejected"
  | FAILED => "failed"
  end.

(* [src/backend/src/core/types.js:120-125] DecisionStatus *)
Definition all : list t :=
  [PENDING; EXECUTED; REJECTED; FAILED].

(** The key a wire string denotes. *)
Definition parse (s : string) : option t := find_value value all s.

Lemma DecisionStatus_parse_value x : parse (value x) = Some x.
Proof. by destruct x. Qed.

#[export] Instance value_inj : Inj (=) (=) value.
Proof. exact (value_inj_of value all DecisionStatus_parse_value). Qed.

#[global] Instance t_eq_dec : EqDecision t := eq_dec_of value.

Lemma DecisionStatus_all_complete x : x ∈ all.
Proof. exact (find_value_elem value all _ _ (DecisionStatus_parse_value x)). Qed.
End DecisionStatus.

Module CheckpointType.
(* [src/backend/src/core/types.js:127-134] CheckpointType *)
Inductive t : Set :=
  | MODEL_EXECUTION | TOOL_EXECUTION | MODEL_SWITCH | CONTEXT_UPDATE
  | MEMORY_UPDATE | STEP_COMPLETE.

(* [src/backend/src/core/types.js:127-134] CheckpointType *)
Definition value (x : t) : string :=
  match x with
  | MODEL_EXECUTION => "model_execution"
  | TOOL_EXECUTION => "tool_execution"
  | MODEL_SWITCH => "model_switch"
  | CONTEXT_UPDATE => "context_update"
  | MEMORY_UPDATE => "memory_update"
  | STEP_COMPLETE => "step_complete"
  end.

(* [src/backend/src/core/types.js:127-134] CheckpointType *)
Definition all : list t :=
  [MODEL_EXECUTION; TOOL_EXECUTION; MODEL_SWITCH; CONTEXT_UPDATE;
   MEMORY_UPDATE; STEP_COMPLETE].

(** The key a wire string denotes. *)
Definition parse (s : string) : option t := find_value value all s.

Lemma CheckpointType_parse_value x : parse (value x) = Some x.
Proof. by destruct x. Qed.

#[export] Instance value_inj : Inj (=) (=) value.
Proof. exact (value_inj_of value all CheckpointType_parse_value). Qed.

#[global] Instance t_eq_dec : EqDecision t := eq_dec_of value.

Lemma CheckpointType_all_complete x : x ∈ all.
Proof. exact (find_value_elem value all _ _ (CheckpointType_parse_value x)). Qed.
End CheckpointType.

Module CostCategory.
(* [src/backend/src/core/types.js:136-147] CostCategory *)
Inductive t : Set :=
  | INPUT_TOKENS | OUTPUT_TOKENS | CACHED_INPUT_TOKENS | UNCACHED_INPUT_TOKENS
  | TOOL_EXECUTION | RETRIEVAL | SWITCHING | RETRY | EVALUATION
  | ORCHESTRATION_OVERHEAD.

(* [src/backend/src/core/types.js:136-147] CostCategory *)
Definition value (x : t) : string :=
  match x with
  | INPUT_TOKENS => "input_tokens"
  | OUTPUT_TOKENS => "output_tokens"
  | CACHED_INPUT_TOKENS => "cached_input_tokens"
  | UNCACHED_INPUT_TOKENS => "uncached_input_tokens"
  | TOOL_EXECUTION => "tool_execution"
  | RETRIEVAL => "retrieval"
  | SWITCHING => "switching"
  | RETRY => "retry"
  | EVALUATION => "evaluation"
  | ORCHESTRATION_OVERHEAD => "orchestration_overhead"
  end.

(* [src/backend/src/core/types.js:136-147] CostCategory *)
Definition all : list t :=
  [INPUT_TOKENS; OUTPUT_TOKENS; CACHED_INPUT_TOKENS; UNCACHED_INPUT_TOKENS;
   TOOL_EXECUTION; RETRIEVAL; SWITCHING; RETRY; EVALUATION;
   ORCHESTRATION_OVERHEAD].

(** The key a wire string denotes. *)
Definition parse (s : string) : option t := find_value value all s.

Lemma CostCategory_parse_value x : parse (value x) = Some x.
Proof. by destruct x. Qed.

#[export] Instance value_inj : Inj (=) (=) value.
Proof. exact (value_inj_of value all CostCategory_parse_value). Qed.

#[global] Instance t_eq_dec : EqDecision t := eq_dec_of value.

Lemma CostCategory_all_complete x : x ∈ all.
Proof. exact (find_value_elem value all _ _ (CostCategory_parse_value x)). Qed.
End CostCategory.
