(* ===== verification/StateMachine.v ===== *)
(** The task life cycle: backend/src/core/state-machine.js, and the two
    orchestrator methods that drive it
    (backend/src/core/orchestrator.js, [transition] and [toObserving]).

    A machine is its current state and a bounded history.  Timestamps are the
    clock reading passed to each call; [metadata] is any type. *)

From S2P Require Import Prelude JsMap Types.

Import TaskStatus.
Local Open Scope nat_scope.

(* [src/backend/src/core/state-machine.js:5-38] STATE_TRANSITIONS *)
Definition STATE_TRANSITIONS (s : TaskStatus.t) : list TaskStatus.t :=
  match s with
  | CREATED => [PLANNING; CANCELLED]
  | PLANNING => [CONTEXT_BUILD; FAILED; CANCELLED]
  | CONTEXT_BUILD => [MODEL_SELECT; FAILED; CANCELLED]
  | MODEL_SELECT => [EXECUTING; FAILED; CANCELLED]
  | EXECUTING =>
      [WAITING_FOR_TOOL; OBSERVING; REOPTIMIZING; COMPLETED; FAILED; CANCELLED;
       PAUSED; PAUSING]
  | WAITING_FOR_TOOL => [EXECUTING; RETRYING; FAILED; CANCELLED; PAUSING]
  | OBSERVING => [EXECUTING; REOPTIMIZING; COMPLETED; FAILED; CANCELLED; PAUSING]
  | REOPTIMIZING => [EXECUTING; MODEL_SELECT; CONTEXT_BUILD; FAILED; CANCELLED]
  | RETRYING => [EXECUTING; PLANNING; FAILED; CANCELLED]
  | PAUSED => [EXECUTING; RESUMING; CANCELLED]
  | PAUSING => [PAUSED; CANCELLED]
  | RESUMING => [EXECUTING; CANCELLED]
  | COMPLETED => [RETRYING]
  | FAILED => [RETRYING; CANCELLED]
  | CANCELLED => []
  end.

(* [src/backend/src/core/state-machine.js:40-40] TERMINAL_STATES *)
Definition TERMINAL_STATES : list TaskStatus.t := [COMPLETED; FAILED; CANCELLED].

Section Machine.
Context {M : Type}.

(* [src/backend/src/core/state-machine.js:71-76] history entry *)
Record entry := Entry {
  state : TaskStatus.t;
  previousState : option TaskStatus.t;
  timestamp : Z;
  metadata : option M;
}.

(* [src/backend/src/core/state-machine.js:43-47] StateMachine *)
Record machine := Machine {
  currentState : TaskStatus.t;
  history : list entry;
  maxHistory : nat;
}.

(* [src/backend/src/core/state-machine.js:60-66] transition error *)
Record transition_error := TransitionError {
  te_currentState : TaskStatus.t;
  te_attemptedState : TaskStatus.t;
  te_allowedStates : list TaskStatus.t;
}.

(* [src/backend/src/core/state-machine.js:43-47] constructor *)
Definition create (initialState : TaskStatus.t) (now : Z) : machine :=
  Machine initialState [Entry initialState None now None] 100.

(* [src/backend/src/core/state-machine.js:49-51] getState *)
Definition getState (sm : machine) : TaskStatus.t := currentState sm.

(* [src/backend/src/core/state-machine.js:53-56] canTransition *)
Definition canTransition (sm : machine) (toState : TaskStatus.t) : bool :=
  bool_decide (toState ∈ STATE_TRANSITIONS (currentState sm)).

(* [src/backend/src/core/state-machine.js:58-82] transition *)
Definition transition (sm : machine) (toState : TaskStatus.t) (md : M) (now : Z)
    : transition_error + machine * (TaskStatus.t * TaskStatus.t) :=
  if canTransition sm toState then
    let prev := currentState sm in
    inr (Machine toState
           (push_shift (maxHistory sm) (history sm)
              (Entry toState (Some prev) now (Some md)))
           (maxHistory sm),
         (prev, toState))
  else
    inl (TransitionError (currentState sm) toState
           (STATE_TRANSITIONS (currentState sm))).

(* [src/backend/src/core/state-machine.js:84-86] isTerminal *)
Definition isTerminal (sm : machine) : bool :=
  bool_decide (currentState sm ∈ TERMINAL_STATES).

(* [src/backend/src/core/state-machine.js:88-90] getHistory *)
Definition getHistory (sm : machine) : list entry := history sm.

(* [src/backend/src/core/state-machine.js:92-94] getPossibleTransitions *)
Definition getPossibleTransitions (sm : machine) : list TaskStatus.t :=
  STATE_TRANSITIONS (currentState sm).

(* [src/backend/src/core/state-machine.js:96-99] reset *)
Definition reset (sm : machine) (initialState : TaskStatus.t) (now : Z) : machine :=
  Machine initialState [Entry initialState None now None] (maxHistory sm).

(* [src/backend/src/core/state-machine.js:101-111] validateSequence result *)
Inductive validation :=
| Valid
| Invalid (at_ : nat) (from to : TaskStatus.t) (allowed : list TaskStatus.t).

Fixpoint validate_from (i : nat) (from : TaskStatus.t) (rest : list TaskStatus.t)
    : validation :=
  match rest with
  | [] => Valid
  | to :: rest' =>
      if decide (to ∈ STATE_TRANSITIONS from) then validate_from (S i) to rest'
      else Invalid i from to (STATE_TRANSITIONS from)
  end.

(* [src/backend/src/core/state-machine.js:101-111] validateSequence *)
Definition validateSequence (sequence : list TaskStatus.t) : validation :=
  match sequence with [] => Valid | s :: rest => validate_from 1 s rest end.

(** ** Invariant: the history is a legal, bounded path to the current state *)

Definition legal_step (e e' : entry) : Prop :=
  previousState e' = Some (state e) ∧ state e' ∈ STATE_TRANSITIONS (state e).

Record machine_ok (sm : machine) : Prop := {
  ok_last : state <$> last (history sm) = Some (currentState sm);
  ok_legal : adjacent legal_step (history sm);
  ok_bound : length (history sm) ≤ maxHistory sm;
  ok_max : 0 < maxHistory sm;
}.

Inductive op :=
| Transition (toState : TaskStatus.t) (md : M) (now : Z)
| Reset (initialState : TaskStatus.t) (now : Z).

(** One call by a client that catches the exception of [transition]. *)
Definition apply_op (sm : machine) (o : op) : machine :=
  match o with
  | Transition to md now =>
      match transition sm to md now with inl _ => sm | inr (sm', _) => sm' end
  | Reset s now => reset sm s now
  end.

Lemma machine_created s now : machine_ok (create s now).
Proof. split; simpl; [done|apply adjacent_singleton|lia|lia]. Qed.

Lemma transition_ok sm to md now sm' r :
  machine_ok sm → transition sm to md now = inr (sm', r) → machine_ok sm'.
Proof.
  unfold transition, canTransition. intros [Hl Hg Hb Hm] H. case_bool_decide as Hin; [|done].
  simplify_eq. split; simpl.
  - rewrite push_shift_last by done. done.
  - apply push_shift_adjacent; [done|]. intros y Hy. rewrite Hy in Hl. simplify_eq/=.
    split; simpl; congruence.
  - auto with js.
  - done.
Qed.

Lemma apply_op_ok sm o : machine_ok sm → machine_ok (apply_op sm o).
Proof.
  intros H. destruct o as [to md now|s now]; simpl.
  - destruct (transition sm to md now) as [|[sm' r]] eqn:E; [done|].
    by eapply transition_ok.
  - destruct H. split; simpl; [done|apply adjacent_singleton|lia|done].
Qed.

(** C14: after any sequence of [transition] calls (accepted or rejected) and
    [reset]s on a fresh machine, the history is non-empty, holds at most 100
    entries, ends in the current state, and each of its entries was a
    transition the table allows from the entry before it. *)
Theorem history_is_legal_path s0 t0 ops :
  machine_ok (run apply_op (create s0 t0) ops) ∧
  maxHistory (run apply_op (create s0 t0) ops) = 100.
Proof.
  apply (run_invariant_all apply_op (λ sm, machine_ok sm ∧ maxHistory sm = 100)).
  - intros sm o [Hok Hm]. split; [by apply apply_op_ok|].
    destruct o as [to md now|]; simpl; [|done].
    unfold transition. by destruct (canTransition sm to).
  - split; [apply machine_created|done].
Qed.

(** A rejected transition reports the state, the attempt and the alternatives. *)
Lemma transition_reject sm to md now e :
  transition sm to md now = inl e ↔
  to ∉ STATE_TRANSITIONS (currentState sm) ∧
  e = TransitionError (currentState sm) to (getPossibleTransitions sm).
Proof. unfold transition, canTransition. case_bool_decide; naive_solver. Qed.

Definition legal_path : list TaskStatus.t → Prop :=
  adjacent (λ a b, b ∈ STATE_TRANSITIONS a).

Lemma validate_from_spec i from rest :
  match validate_from i from rest with
  | Valid => legal_path (from :: rest)
  | Invalid k a b al =>
      ∃ j, k = i + j ∧ (from :: rest) !! j = Some a ∧ (from :: rest) !! S j = Some b ∧
      b ∉ STATE_TRANSITIONS a ∧ al = STATE_TRANSITIONS a ∧
      legal_path (take (S j) (from :: rest))
  end.
Proof.
  revert i from. induction rest as [|to rest IH]; intros i from; simpl.
  - apply adjacent_singleton.
  - case_decide as Hin.
    + specialize (IH (S i) to). destruct (validate_from (S i) to rest) as [|k a b al].
      * by apply adjacent_cons.
      * destruct IH as (j & -> & Ha & Hb & Hn & -> & Hadj). exists (S j).
        split_and!; [lia|done|done|done|done|]. simpl. by apply adjacent_cons.
    + exists 0. split_and!; [lia|done|done|done|done|apply adjacent_singleton].
Qed.

(** [validateSequence] accepts exactly the sequences whose consecutive
    states the table allows, and otherwise reports the index of the first
    illegal step, its two states and what was allowed there. *)
Theorem validateSequence_correct sequence :
  match validateSequence sequence with
  | Valid => legal_path sequence
  | Invalid k a b al =>
      0 < k ∧ sequence !! (k - 1) = Some a ∧ sequence !! k = Some b ∧
      b ∉ STATE_TRANSITIONS a ∧ al = STATE_TRANSITIONS a ∧
      legal_path (take k sequence)
  end.
Proof.
  destruct sequence as [|s rest]; simpl; [apply adjacent_nil|].
  pose proof (validate_from_spec 1 s rest) as H.
  destruct (validate_from 1 s rest) as [|k a b al]; [done|].
  destruct H as (j & -> & Ha & Hb & Hn & -> & Hadj).
  replace (1 + j - 1) with j by lia. split_and!; try done. lia.
Qed.
End Machine.

(** ** Reachability in the transition table *)

Inductive reaches : TaskStatus.t → TaskStatus.t → Prop :=
| reaches_refl s : reaches s s
| reaches_step s s' s'' : s' ∈ STATE_TRANSITIONS s → reaches s' s'' → reaches s s''.

Definition steps_to (s s' : TaskStatus.t) : bool := bool_decide (s' ∈ STATE_TRANSITIONS s).

Lemma reaches_by s s' s'' : steps_to s s' = true → reaches s' s'' → reaches s s''.
Proof. intros H%bool_decide_eq_true. by econstructor. Qed.

(** States a run can be in before any model has been selected. *)
Definition setup_states : list TaskStatus.t := [CREATED; PLANNING; CONTEXT_BUILD].

Lemma setup_leaves s s' :
  s ∈ setup_states → s' ∈ STATE_TRANSITIONS s →
  s' ∈ setup_states ++ [MODEL_SELECT; FAILED; CANCELLED].
Proof.
  intros Hs Hs'. unfold setup_states in Hs. rewrite !elem_of_cons, elem_of_nil in Hs.
  destruct Hs as [->|[->|[->|[]]]]; simpl in *;
    rewrite !elem_of_cons, elem_of_nil in *; naive_solver.
Qed.

(** Cancellation is final and always possible: from every state a legal
    path leads to CANCELLED, nothing leaves CANCELLED, it is the only state
    with that property, and a COMPLETED run can only be re-entered through
    RETRYING. *)
Theorem cancellation_final :
  (∀ s, reaches s CANCELLED) ∧
  (∀ s, reaches CANCELLED s → s = CANCELLED) ∧
  (∀ s, STATE_TRANSITIONS s = [] ↔ s = CANCELLED) ∧
  (∀ s, s ∈ STATE_TRANSITIONS COMPLETED ↔ s = RETRYING).
Proof.
  split_and!.
  - assert (reaches RETRYING CANCELLED) as Hr.
    { apply (reaches_by _ CANCELLED); [done|constructor]. }
    intros []; try (apply (reaches_by _ CANCELLED); [done|constructor]); [|constructor].
    apply (reaches_by _ RETRYING); [done|apply Hr].
  - intros s H. inversion H as [|? s' ? Hs']; [done|]. by apply not_elem_of_nil in Hs'.
  - by intros [].
  - intros s. simpl. by rewrite list_elem_of_singleton.
Qed.

(** ** The orchestrator's use of the machine *)

Section Orchestrator.
Context {M : Type} (no_metadata : M).

(** The parts of a run's control record and runtime state these methods
    touch: the machine, [runtimeState.status] and [runtimeState.task.status]. *)
Record run_status := RunStatus {
  rs_machine : @machine M;
  rs_status : TaskStatus.t;
  rs_task_status : TaskStatus.t;
}.

(* [src/backend/src/state/runtime-state.js:537-541] updateStatus *)
Definition updateStatus (r : run_status) (s : TaskStatus.t) : run_status :=
  RunStatus (rs_machine r) s s.

Definition invalid_transition (from to : TaskStatus.t) : js_error :=
  JsError (Some "invalid_transition")
    ("Invalid state transition: " ++ value from ++ " -> " ++ value to)%string.

(* [src/backend/src/core/orchestrator.js:195-209] transition *)
Definition orch_transition (r : run_status) (to : TaskStatus.t) (now : Z) : res run_status :=
  if decide (getState (rs_machine r) = to) then Ok r
  else if canTransition (rs_machine r) to then
    match transition (rs_machine r) to no_metadata now with
    | inl e => Throw (invalid_transition (te_currentState e) to)
    | inr (m, _) => Ok (updateStatus (RunStatus m (rs_status r) (rs_task_status r)) to)
    end
  else Throw (invalid_transition (getState (rs_machine r)) to).

(* [src/backend/src/core/orchestrator.js:213-219] toObserving *)
Definition toObserving (r : run_status) (now : Z) : res run_status :=
  r' ← (if decide (getState (rs_machine r) = WAITING_FOR_TOOL)
        then orch_transition r EXECUTING now else Ok r);
  orch_transition r' OBSERVING now.

Definition in_sync (r : run_status) : Prop :=
  machine_ok (rs_machine r) ∧
  rs_status r = currentState (rs_machine r) ∧
  rs_task_status r = currentState (rs_machine r).

Lemma orch_transition_spec r to now :
  in_sync r →
  match orch_transition r to now with
  | Ok r' => in_sync r' ∧ rs_status r' = to ∧
             (to = rs_status r ∨ to ∈ STATE_TRANSITIONS (rs_status r))
  | Throw e => e = invalid_transition (rs_status r) to ∧
               to ≠ rs_status r ∧ to ∉ STATE_TRANSITIONS (rs_status r)
  end.
Proof.
  intros (Hok & Hs & Ht). unfold orch_transition, getState. case_decide as Hd.
  - unfold in_sync. naive_solver congruence.
  - destruct (canTransition _ to) eqn:Hc.
    + destruct (transition _ to _ _) as [e|[m out]] eqn:E.
      * unfold transition in E. by rewrite Hc in E.
      * split_and!; simpl; [|done|right].
        { split_and!; simpl; [by eapply transition_ok| |];
            unfold transition in E; rewrite Hc in E; by simplify_eq. }
        unfold canTransition in Hc. apply bool_decide_eq_true in Hc. by rewrite Hs.
    + unfold canTransition in Hc. apply bool_decide_eq_false in Hc.
      rewrite Hs. split_and!; done || congruence.
Qed.

(** The orchestrator never mutates a run's status silently.  On a run
    whose machine, runtime status and task status agree, [transition] either
    moves all three to the requested state along an allowed edge (or is
    already there), or throws [invalid_transition] and leaves nothing
    changed; and [toObserving] reaches OBSERVING from WAITING_FOR_TOOL, which
    has no direct edge to it. *)
Theorem orchestrator_transition_sound r to now :
  in_sync r →
  (∀ r', orch_transition r to now = Ok r' →
     in_sync r' ∧ rs_status r' = to ∧ reaches (rs_status r) to) ∧
  (∀ e, orch_transition r to now = Throw e →
     err_code e = Some "invalid_transition" ∧ to ∉ STATE_TRANSITIONS (rs_status r)) ∧
  (rs_status r = WAITING_FOR_TOOL →
     OBSERVING ∉ STATE_TRANSITIONS (rs_status r) ∧
     ∃ r', toObserving r now = Ok r' ∧ in_sync r' ∧ rs_status r' = OBSERVING).
Proof.
  intros Hr. pose proof (orch_transition_spec r to now Hr) as Hspec.
  split_and!.
  - intros r' E. rewrite E in Hspec. destruct Hspec as (? & ? & [->|?]);
      split_and!; eauto using reaches.
  - intros e E. rewrite E in Hspec. by destruct Hspec as (-> & ? & ?).
  - intros Hw. split; [rewrite Hw; simpl; set_solver|].
    unfold toObserving, getState.
    destruct Hr as (Hok & Hs & Ht). rewrite decide_True by congruence.
    pose proof (orch_transition_spec r EXECUTING now (conj Hok (conj Hs Ht))) as H1.
    destruct (orch_transition r EXECUTING now) as [r1|e]; simpl.
    + destruct H1 as (H1 & Hs1 & _).
      pose proof (orch_transition_spec r1 OBSERVING now H1) as H2.
      destruct (orch_transition r1 OBSERVING now) as [r2|e]; [naive_solver|].
      destruct H2 as (_ & _ & []). rewrite Hs1. set_solver.
    + destruct H1 as (_ & _ & []). rewrite Hw. set_solver.
Qed.
End Orchestrator.

Lemma orchestrator_transition_sound_witness :
  let r := RunStatus (@create unit WAITING_FOR_TOOL 0%Z) WAITING_FOR_TOOL WAITING_FOR_TOOL in
  ∃ r', toObserving tt r 1%Z = Ok r' ∧ in_sync r' ∧ rs_status r' = OBSERVING.
Proof.
  intros r. assert (in_sync r) as Hr by (split_and!; [apply machine_created|done|done]).
  destruct (orchestrator_transition_sound tt r OBSERVING 1%Z Hr) as (_ & _ & H).
  exact (proj2 (H eq_refl)).
Defined.
