(* ===== verification/Coordinator.v ===== *)
(** Transient coordination: backend/src/infrastructure/redis.js,
    backend/src/infrastructure/redis-atomic.js and
    backend/src/infrastructure/rate-limit.js.

    [Coordinator] is the interface its clients (locks, rate limits) use, and
    [CoordinatorLaws] what they may rely on.  Two implementations discharge it:
    the in-memory adapter, and the ioredis adapter over any client that obeys
    the documented Redis command semantics ([RedisClient], [RedisLaws]; the
    server is not part of the repository).  One operation is one atomic step;
    the await inside the memory adapter's [set] is modelled in Locks.v. *)

From S2P Require Import Prelude JsMap JsValue.

Local Open Scope Z_scope.

(** * The interface *)

Class Coordinator (S : Type) := {
  c_get : Z → string → S → S * option string;
  c_set : Z → string → string → Z → bool → S → S * bool;
  c_del : string → S → S * nat;
  c_incr : Z → string → S → S * option Z;
  c_expire : Z → string → Z → S → S * bool;
}.

(** [live s t k]: the value a [get] of [k] at time [t] would return. *)
Class CoordinatorLaws (S : Type) `{Coordinator S} := {
  c_ok : S → Prop;
  live : S → Z → string → option string;
  live_expiry s t t' k v : t ≤ t' → live s t' k = Some v → live s t k = Some v;
  get_result s t k : (c_get t k s).2 = live s t k;
  get_ok s t k : c_ok s → c_ok (c_get t k s).1;
  get_live s t k t' k' : c_ok s → t ≤ t' → live (c_get t k s).1 t' k' = live s t' k';
  set_ok s t k v px nx : c_ok s → c_ok (c_set t k v px nx s).1;
  set_result s t k v px nx :
    (c_set t k v px nx s).2 = negb nx || bool_decide (live s t k = None);
  set_live s t k v px nx t' k' : c_ok s → 0 < px → 0 ≤ t ≤ t' →
    live (c_set t k v px nx s).1 t' k' =
    (if decide (k = k' ∧ (c_set t k v px nx s).2 = true)
     then if decide (t' < t + px) then Some v else None
     else live s t' k');
  del_ok s k : c_ok s → c_ok (c_del k s).1;
  del_live s k t' k' : c_ok s →
    live (c_del k s).1 t' k' = if decide (k = k') then None else live s t' k';
}.

(** * MemoryCoordinator *)

Module Memory.

(* [src/backend/src/infrastructure/redis.js:37-37] kv entry *)
Record kv_entry := KvEntry { value : string; expiresAt : Z }.

(* [src/backend/src/infrastructure/redis.js:32-39] MemoryCoordinator *)
Record coordinator := MemoryCoordinator {
  backend : string;
  degraded : bool;
  lastError : option string;
  kv : jsmap string kv_entry;
}.

(* [src/backend/src/infrastructure/redis.js:33-39] constructor *)
Definition create (degraded : bool) (lastError : option string) : coordinator :=
  MemoryCoordinator (if degraded then "memory-degraded" else "memory")
    degraded lastError [].

Definition with_kv (c : coordinator) (m : jsmap string kv_entry) : coordinator :=
  MemoryCoordinator (backend c) (degraded c) (lastError c) m.

(* [src/backend/src/infrastructure/redis.js:41-43] _expired *)
Definition expired (now : Z) (e : kv_entry) : bool :=
  negb (expiresAt e =? 0) && (expiresAt e <=? now).

(* [src/backend/src/infrastructure/redis.js:49-56] get *)
Definition get (now : Z) (key : string) (c : coordinator) : coordinator * option string :=
  match mget (kv c) key with
  | None => (c, None)
  | Some e =>
      if expired now e then (with_kv c (mdelete (kv c) key), None)
      else (c, Some (value e))
  end.

(** [set] before its await: the existence test of the [nx] option. *)
(* [src/backend/src/infrastructure/redis.js:58-62] set, up to the await *)
Definition set_check (now : Z) (key : string) (nx : bool) (c : coordinator)
    : coordinator * option string :=
  if nx then get now key c else (c, None).

(** [set] after its await: the write. *)
(* [src/backend/src/infrastructure/redis.js:63-64] set, after the await *)
Definition set_write (now : Z) (key val : string) (px : Z) (c : coordinator) : coordinator :=
  with_kv c (mset (kv c) key (KvEntry val (if px >? 0 then now + px else 0))).

(* [src/backend/src/infrastructure/redis.js:58-65] set *)
Definition set (now : Z) (key val : string) (px : Z) (nx : bool) (c : coordinator)
    : coordinator * bool :=
  match set_check now key nx c with
  | (c', Some _) => (c', false)
  | (c', None) => (set_write now key val px c', true)
  end.

(* [src/backend/src/infrastructure/redis.js:67-71] del *)
Definition del (keys : list string) (c : coordinator) : coordinator * nat :=
  foldl (λ '(c, n) k,
    (with_kv c (mdelete (kv c) k), if mhas (kv c) k then S n else n)) (c, 0%nat) keys.

(* [src/backend/src/infrastructure/redis.js:73-79] incr *)
Definition incr (now : Z) (key : string) (c : coordinator) : coordinator * option Z :=
  let (c1, cur) := get now key c in
  let next :=
    match cur with
    | Some (String _ _ as s) => n ← Z_of_string s; Some (n + 1)
    | _ => Some 1
    end in
  let keep := match mget (kv c1) key with Some e => expiresAt e | None => 0 end in
  (with_kv c1 (mset (kv c1) key
     (KvEntry (from_option string_of_Z "NaN" next) keep)), next).

(* [src/backend/src/infrastructure/redis.js:81-86] expire *)
Definition expire (now : Z) (key : string) (seconds : Z) (c : coordinator)
    : coordinator * bool :=
  match mget (kv c) key with
  | None => (c, false)
  | Some e =>
      (with_kv c (mset (kv c) key (KvEntry (value e) (now + seconds * 1000))), true)
  end.

#[global] Instance coordinator_memory : Coordinator coordinator := {|
  c_get := get;
  c_set := set;
  c_del k := del [k];
  c_incr := incr;
  c_expire := expire;
|}.

Definition peek (c : coordinator) (t : Z) (k : string) : option string :=
  e ← mget (kv c) k; if expired t e then None else Some (value e).

Definition ok (c : coordinator) : Prop := mwf (kv c).

Lemma expired_mono t t' e : t ≤ t' → expired t e = true → expired t' e = true.
Proof. unfold expired. intros Ht. rewrite !andb_true_iff, !Z.leb_le. lia. Qed.

Lemma peek_expiry c t t' k v : t ≤ t' → peek c t' k = Some v → peek c t k = Some v.
Proof.
  unfold peek. intros Ht. destruct (mget (kv c) k) as [e|]; simpl; [|done].
  destruct (expired t e) eqn:E; [|by destruct (expired t' e)].
  by rewrite (expired_mono t t').
Qed.

Lemma get_spec c t k : (get t k c).2 = peek c t k.
Proof. unfold get, peek. destruct (mget _ _) as [e|]; simpl; [by destruct (expired t e)|done]. Qed.

Lemma get_peek c t k t' k' :
  ok c → t ≤ t' → peek (get t k c).1 t' k' = peek c t' k'.
Proof.
  intros Hwf Ht. unfold get. destruct (mget (kv c) k) as [e|] eqn:Hk; [|done].
  destruct (expired t e) eqn:He; [|done]. unfold peek; simpl.
  rewrite mget_delete by done. case_decide; [|done]. subst. rewrite Hk. simpl.
  by rewrite (expired_mono t t').
Qed.

Lemma get_preserves c t k : ok c → ok (get t k c).1.
Proof.
  unfold ok, get. destruct (mget (kv c) k) as [e|]; [|done].
  destruct (expired t e); simpl; auto with jsmap.
Qed.

(** The result of the write half of [set], for any interleaving before it. *)
Lemma set_write_peek c t k v px t' k' :
  0 < px → 0 ≤ t ≤ t' →
  peek (set_write t k v px c) t' k' =
  if decide (k = k') then if decide (t' < t + px) then Some v else None else peek c t' k'.
Proof.
  intros Hpx Ht. unfold peek; simpl. rewrite mget_set. case_decide; [|done]. simpl.
  unfold expired; simpl. replace (px >? 0) with true by lia.
  case_decide; destruct (t + px =? 0) eqn:E1, (t + px <=? t') eqn:E2; simpl; lia || done.
Qed.

#[global] Program Instance coordinator_memory_laws : CoordinatorLaws coordinator := {|
  c_ok := ok;
  live := peek;
|}.
Next Obligation. intros ????? Ht. by apply peek_expiry. Qed.
Next Obligation. intros. apply get_spec. Qed.
Next Obligation. intros ????. by apply get_preserves. Qed.
Next Obligation. intros ????? Hok Ht. by apply get_peek. Qed.
Next Obligation.
  intros s t k v px nx Hok. simpl. unfold set, set_check.
  destruct nx; simpl; [|by apply mwf_set].
  pose proof (get_preserves s t k Hok) as Hok'.
  destruct (get t k s) as [s' [w|]]; simpl in *; [done|by apply mwf_set].
Qed.
Next Obligation.
  intros s t k v px nx. simpl. unfold set, set_check.
  destruct nx; simpl; [|done]. pose proof (get_spec s t k) as E.
  destruct (get t k s) as [s' [w|]]; simpl in *; rewrite <- E; by case_bool_decide.
Qed.
Next Obligation.
  intros s t k v px nx t' k' Hok Hpx Ht. simpl. unfold set, set_check.
  destruct nx; simpl.
  - pose proof (get_peek s t k t' k' Hok) as Hp.
    destruct (get t k s) as [s' [w|]]; simpl in *.
    + rewrite decide_False by naive_solver. apply Hp. lia.
    + rewrite set_write_peek, Hp by lia. repeat case_decide; naive_solver.
  - rewrite set_write_peek by lia. repeat case_decide; naive_solver.
Qed.
Next Obligation. intros s k Hok. by apply mwf_delete. Qed.
Next Obligation.
  intros s k t' k' Hok. unfold peek; simpl. rewrite mget_delete by done. by case_decide.
Qed.

(** A batch [del] removes exactly the listed keys and counts those present. *)
Lemma del_keys ks c n :
  mwf (kv c) → NoDup ks →
  let r := foldl (λ '(c, n) k,
    (with_kv c (mdelete (kv c) k), if mhas (kv c) k then S n else n)) (c, n) ks in
  mwf (kv r.1) ∧
  r.2 = (n + length (filter (λ k, is_Some (mget (kv c) k)) ks))%nat ∧
  ∀ k, mget (kv r.1) k = if decide (k ∈ ks) then None else mget (kv c) k.
Proof.
  revert c n. induction ks as [|k ks IH]; intros c n Hwf Hnd.
  - split_and!; [done|simpl; lia|done].
  - simpl. apply NoDup_cons in Hnd as [Hk Hnd].
    destruct (IH (with_kv c (mdelete (kv c) k)) (if mhas (kv c) k then S n else n))
      as (H1 & H2 & H3); simpl; [by apply mwf_delete|done|].
    split_and!; [done| |].
    + rewrite H2, filter_cons. simpl.
      assert (filter (λ k0, is_Some (mget (mdelete (kv c) k) k0)) ks =
              filter (λ k0, is_Some (mget (kv c) k0)) ks) as ->.
      { apply filter_ext_in. intros j Hj. rewrite mget_delete_ne by set_solver. done. }
      unfold mhas. case_bool_decide; case_decide; simpl; done || lia.
    + intros j. rewrite H3. simpl. rewrite mget_delete by done.
      repeat case_decide; set_solver.
Qed.
End Memory.

(** * IoredisCoordinator

    The ioredis client is a third-party package: a client is any type with the
    commands the adapter sends, and [RedisLaws] is the documented behaviour of
    [GET], [SET key value [PX ms] [NX]], [DEL] and [PEXPIRE] that the code
    relies on. *)

(** The arguments of [client.set(...args)]. *)
Inductive redis_arg := AStr (s : string) | ANum (n : Z).

Class RedisClient (C : Type) := {
  r_get : Z → string → C → C * option string;
  r_set : Z → list redis_arg → C → C * option string;
  r_del : string → C → C * nat;
  r_incr : Z → string → C → C * option Z;
  r_expire : Z → string → Z → C → C * bool;
  r_pexpire : Z → string → Z → C → C * bool;
}.

(** [val s t k]: the unexpired value of [k] in the server's database. *)
Class RedisLaws (C : Type) `{RedisClient C} := {
  val : C → Z → string → option string;
  val_expiry s t t' k v : t ≤ t' → val s t' k = Some v → val s t k = Some v;
  r_get_val s t k : r_get t k s = (s, val s t k);
  r_set_px s t k v px t' k' : 0 < px → t ≤ t' →
    let r := r_set t [AStr k; AStr v; AStr "PX"; ANum px] s in
    r.2 = Some "OK" ∧
    val r.1 t' k' = if decide (k = k') then if decide (t' < t + px) then Some v else None
                    else val s t' k';
  r_set_plain s t k v :
    (r_set t [AStr k; AStr v] s).2 = Some "OK";
  r_set_px_nx s t k v px : 0 < px →
    r_set t [AStr k; AStr v; AStr "PX"; ANum px; AStr "NX"] s =
    (if decide (val s t k = None) then r_set t [AStr k; AStr v; AStr "PX"; ANum px] s
     else (s, None));
  r_set_nx s t k v :
    r_set t [AStr k; AStr v; AStr "NX"] s =
    (if decide (val s t k = None) then r_set t [AStr k; AStr v] s else (s, None));
  r_del_val s t k k' :
    val (r_del k s).1 t k' = if decide (k = k') then None else val s t k';
  r_del_count s k t v : val s t k = Some v → (r_del k s).2 = 1%nat;
  r_pexpire_live s t k ms v t' k' : 0 < ms → t ≤ t' → val s t k = Some v →
    (r_pexpire t k ms s).2 = true ∧
    val (r_pexpire t k ms s).1 t' k' =
    if decide (k = k') then if decide (t' < t + ms) then Some v else None
    else val s t' k';
  r_pexpire_dead s t k ms : val s t k = None → r_pexpire t k ms s = (s, false);
}.

Section Redis.
Context {C : Type} `{RL : RedisLaws C}.

(* [src/backend/src/infrastructure/redis.js:105-105] get *)
Definition redis_get (t : Z) (key : string) (c : C) : C * option string := r_get t key c.

(* [src/backend/src/infrastructure/redis.js:107-112] set *)
Definition redis_set (t : Z) (key value : string) (px : Z) (nx : bool) (c : C) : C * bool :=
  let args := [AStr key; AStr value] in
  let args := if px >? 0 then args ++ [AStr "PX"; ANum px] else args in
  let args := if nx then args ++ [AStr "NX"] else args in
  let (c', r) := r_set t args c in (c', bool_decide (r = Some "OK"%string)).

(* [src/backend/src/infrastructure/redis.js:91-118] IoredisCoordinator *)
#[local] Instance coordinator_redis : Coordinator C := {|
  c_get := redis_get;
  c_set := redis_set;
  c_del := r_del;
  c_incr := r_incr;
  c_expire := r_expire;
|}.

Lemma reply_ok (r : C * option string) :
  (let (c', o) := r in (c', bool_decide (o = Some "OK"%string))) =
  (r.1, bool_decide (r.2 = Some "OK"%string)).
Proof. by destruct r. Qed.

Lemma redis_set_result s t k v px nx :
  (redis_set t k v px nx s).2 = negb nx || bool_decide (val s t k = None).
Proof.
  unfold redis_set. rewrite reply_ok.
  assert ((r_set t [AStr k; AStr v] s).2 = Some "OK"%string) as E1 by apply r_set_plain.
  destruct (px >? 0) eqn:Hpx.
  - assert ((r_set t [AStr k; AStr v; AStr "PX"; ANum px] s).2 = Some "OK"%string) as E2
      by (apply (r_set_px s t k v px t k); lia).
    destruct nx; simpl; [rewrite r_set_px_nx by lia; case_decide|];
      simpl; rewrite ?E2; by repeat case_bool_decide.
  - destruct nx; simpl; [rewrite r_set_nx; case_decide|];
      simpl; rewrite ?E1; by repeat case_bool_decide.
Qed.

Lemma redis_set_live s t k v px nx t' k' :
  0 < px → t ≤ t' →
  val (redis_set t k v px nx s).1 t' k' =
  if decide (k = k' ∧ (redis_set t k v px nx s).2 = true)
  then if decide (t' < t + px) then Some v else None
  else val s t' k'.
Proof.
  intros Hpx Ht. pose proof (r_set_px s t k v px t' k' Hpx Ht) as [E Hv].
  unfold redis_set. rewrite reply_ok. replace (px >? 0) with true by lia.
  destruct nx; simpl; [rewrite r_set_px_nx by done; case_decide; simpl|];
    rewrite ?E, ?Hv, ?bool_decide_eq_true; repeat case_decide; naive_solver.
Qed.

#[local] Program Instance coordinator_redis_laws : CoordinatorLaws C := {|
  c_ok _ := True;
  live := val;
|}.
Next Obligation. eauto using val_expiry. Qed.
Next Obligation. intros. simpl. unfold redis_get. by rewrite r_get_val. Qed.
Next Obligation. done. Qed.
Next Obligation. intros. simpl. unfold redis_get. by rewrite r_get_val. Qed.
Next Obligation. done. Qed.
Next Obligation. intros. apply redis_set_result. Qed.
Next Obligation. intros. apply redis_set_live; lia. Qed.
Next Obligation. done. Qed.
Next Obligation. intros. apply r_del_val. Qed.

(** ** redis-atomic.js: the Lua scripts, which the server runs atomically *)

(* [src/backend/src/infrastructure/redis-atomic.js:23-31] compareAndDeleteValue *)
Definition compareAndDeleteValue (t : Z) (key expected : string) (c : C) : C * bool :=
  let (c1, v) := r_get t key c in
  if decide (v = Some expected) then
    let (c2, n) := r_del key c1 in (c2, bool_decide (n = 1%nat))
  else (c1, false).

(* [src/backend/src/infrastructure/redis-atomic.js:33-41] compareAndExpireValue *)
Definition compareAndExpireValue (t : Z) (key expected : string) (ttlMs : Z) (c : C)
    : C * bool :=
  let (c1, v) := r_get t key c in
  if decide (v = Some expected) then r_pexpire t key (Z.max 1 ttlMs) c1
  else (c1, false).

Lemma compareAndDelete_spec t k e c t' k' : t ≤ t' →
  let r := compareAndDeleteValue t k e c in
  r.2 = bool_decide (val c t k = Some e) ∧
  val r.1 t' k' = if decide (k = k' ∧ val c t k = Some e) then None else val c t' k'.
Proof.
  intros Ht. unfold compareAndDeleteValue. rewrite r_get_val.
  destruct (decide (val c t k = Some e)) as [E|E]; simpl.
  - pose proof (r_del_count c k t e E) as Hn. pose proof (r_del_val c t' k k') as Hv.
    destruct (r_del k c) as [c2 n]; simpl in *. subst n.
    rewrite !bool_decide_true by done. split; [done|]. rewrite Hv.
    repeat case_decide; naive_solver.
  - rewrite bool_decide_false by done. by rewrite decide_False by naive_solver.
Qed.

Lemma compareAndExpire_spec t k e ttl c t' k' : t ≤ t' → 0 < ttl →
  let r := compareAndExpireValue t k e ttl c in
  r.2 = bool_decide (val c t k = Some e) ∧
  val r.1 t' k' = if decide (k = k' ∧ val c t k = Some e)
                  then if decide (t' < t + ttl) then Some e else None
                  else val c t' k'.
Proof.
  intros Ht Httl. unfold compareAndExpireValue. rewrite r_get_val.
  destruct (decide (val c t k = Some e)) as [E|E]; simpl.
  - rewrite Z.max_r by lia. rewrite bool_decide_true by done.
    destruct (r_pexpire_live c t k ttl e t' k' Httl Ht E) as [-> ->].
    split; [done|]. repeat case_decide; naive_solver.
  - rewrite bool_decide_false by done. by rewrite decide_False by naive_solver.
Qed.
End Redis.
