(* ===== verification/RateLimit.v ===== *)
(** Fixed-window rate limiting: backend/src/infrastructure/rate-limit.js.

    [allow_local] is the in-process path (a [Map] of buckets, purged when it
    outgrows 5000 keys), [allow_distributed] the INCR/EXPIRE path over any
    [Coordinator]. *)

From S2P Require Import Prelude JsMap JsValue Coordinator.

Local Open Scope Z_scope.

(* [src/backend/src/infrastructure/rate-limit.js:31-31] bucket *)
Record bucket := Bucket { startedAt : Z; count : Z }.

(* [src/backend/src/infrastructure/rate-limit.js:37-37] allow result *)
Record verdict := Verdict { allowed : bool; v_count : Z; retryAfterMs : Z }.

Abbreviation buckets := (jsmap string bucket).

(* [src/backend/src/infrastructure/rate-limit.js:34-36] purge of expired buckets *)
Definition purge (windowMs now : Z) (m : buckets) : buckets :=
  if decide (5000 < msize m)%nat
  then filter (λ p, ¬ startedAt p.2 + windowMs ≤ now) m else m.

(* [src/backend/src/infrastructure/rate-limit.js:22-38] allow, local path *)
Definition allow_local (prefix key : string) (limit windowMs now : Z) (m : buckets)
    : buckets * verdict :=
  let namespaced := (prefix ++ key)%string in
  let fresh := Bucket now 0 in
  let b :=
    match mget m namespaced with
    | Some b => if decide (startedAt b + windowMs ≤ now) then fresh else b
    | None => fresh
    end in
  let b := Bucket (startedAt b) (count b + 1) in
  let ok := count b <=? limit in
  (purge windowMs now (mset m namespaced b),
   Verdict ok (count b) (if ok then 0 else startedAt b + windowMs - now)).

(* [src/backend/src/infrastructure/rate-limit.js:22-28] allow, Redis path *)
Definition allow_distributed {S} `{Coordinator S} (prefix key : string)
    (limit windowMs now : Z) (s : S) : S * option verdict :=
  let namespaced := (prefix ++ key)%string in
  let (s1, n) := c_incr now namespaced s in
  match n with
  | None => (s1, None)
  | Some n =>
      let s2 := if n =? 1 then (c_expire now namespaced ((windowMs + 999) / 1000) s1).1
                else s1 in
      (s2, Some (Verdict (n <=? limit) n (if n <=? limit then 0 else windowMs)))
  end.

(** ** The local path: a bounded number of calls in any window *)

Section Window.
Context (prefix key : string) (limit windowMs : Z).
Context (Hlimit : 0 ≤ limit) (Hw : 0 < windowMs).

(** A call by any client of the limiter, and the admitted times of [key]. *)
Record lstate := LState { l_buckets : buckets; l_admitted : list Z }.

Definition call (s : lstate) (e : string * Z) : lstate :=
  let (m, v) := allow_local prefix e.1 limit windowMs e.2 (l_buckets s) in
  LState m (if decide (e.1 = key) then if allowed v then e.2 :: l_admitted s
            else l_admitted s else l_admitted s).

(** Ghost grouping of the admitted times by bucket, newest first. *)
Fixpoint grouped (gs : list (Z * list Z)) : Prop :=
  match gs with
  | [] => True
  | (s, ts) :: gs' =>
      Forall (λ t, s ≤ t < s + windowMs) ts ∧ Z.of_nat (length ts) ≤ limit ∧
      match gs' with [] => True | (s', _) :: _ => s' + windowMs ≤ s end ∧
      grouped gs'
  end.

Definition inside (t : Z) (ts : list Z) : nat :=
  length (filter (λ u, t ≤ u < t + windowMs) ts).

Definition admissions (gs : list (Z * list Z)) : list Z := concat gs.*2.

Lemma inside_le t ts : (inside t ts ≤ length ts)%nat.
Proof. unfold inside. apply length_filter. Qed.

Lemma inside_nil t : inside t [] = O.
Proof. done. Qed.

Lemma inside_app t ts us : inside t (ts ++ us) = (inside t ts + inside t us)%nat.
Proof. unfold inside. by rewrite filter_app, length_app. Qed.

Lemma inside_none t s ts :
  Forall (λ u, s ≤ u < s + windowMs) ts → s + windowMs ≤ t ∨ t + windowMs ≤ s →
  inside t ts = O.
Proof.
  intros Hts Hs. unfold inside. induction Hts as [|u ts Hu _ IH]; [done|].
  rewrite filter_cons. case_decide; [lia|done].
Qed.

Lemma grouped_old t s ts gs :
  grouped ((s, ts) :: gs) → s + windowMs ≤ t → inside t (admissions ((s, ts) :: gs)) = O.
Proof.
  revert s ts. induction gs as [|[s' ts'] gs IH]; intros s ts (Hts & _ & Hs & Hgs) Ht;
    unfold admissions; simpl; rewrite inside_app, (inside_none t s ts) by auto.
  - done.
  - apply (IH s' ts' Hgs). lia.
Qed.

Lemma grouped_recent t s ts gs :
  grouped ((s, ts) :: gs) → s ≤ t →
  Z.of_nat (inside t (admissions ((s, ts) :: gs))) ≤ limit.
Proof.
  intros (Hts & Hlen & Hs & Hgs) Ht. unfold admissions; simpl. rewrite inside_app.
  pose proof (inside_le t ts). destruct gs as [|[s' ts'] gs]; simpl in Hs |- *; [rewrite inside_nil; lia|].
  pose proof (grouped_old t s' ts' gs Hgs) as E. unfold admissions in E; simpl in E.
  rewrite E by lia. lia.
Qed.

Lemma grouped_window t gs :
  grouped gs → Z.of_nat (inside t (admissions gs)) ≤ 2 * limit.
Proof.
  induction gs as [|[s ts] gs IH]; intros Hg; [change (inside t (admissions [])) with O; lia|].
  destruct (decide (s ≤ t)) as [Hs|Hs].
  { pose proof (grouped_recent t s ts gs Hg Hs). lia. }
  destruct Hg as (Hts & Hlen & Hs' & Hgs). unfold admissions; simpl. rewrite inside_app.
  destruct (decide (t + windowMs ≤ s)) as [Hf|Hf].
  - rewrite (inside_none t s ts) by auto. apply IH, Hgs.
  - pose proof (inside_le t ts). destruct gs as [|[s' ts'] gs]; simpl in Hs' |- *; [rewrite inside_nil; lia|].
    pose proof (grouped_recent t s' ts' gs Hgs ltac:(lia)) as E.
    unfold admissions in E; simpl in E. lia.
Qed.

(** What the limiter's state says about the admissions so far, at time [now]. *)
Definition tracks (now : Z) (s : lstate) : Prop :=
  mwf (l_buckets s) ∧
  ∃ gs, grouped gs ∧ l_admitted s = admissions gs ∧
  match mget (l_buckets s) (prefix ++ key)%string, gs with
  | Some b, (st, ts) :: _ =>
      st = startedAt b ∧ st ≤ now ∧ Z.of_nat (length ts) = Z.min (count b) limit ∧
      0 ≤ count b
  | Some _, [] => False
  | None, (st, _) :: _ => st + windowMs ≤ now
  | None, [] => True
  end.

Lemma tracks_later now now' s : now ≤ now' → tracks now s → tracks now' s.
Proof.
  intros Hn (Hwf & gs & Hg & Ha & Hm). split; [done|]. exists gs. split_and!; [done..|].
  destruct (mget _ _), gs as [|[st ts] gs]; naive_solver lia.
Qed.

Lemma purge_spec now m k : mwf m →
  mwf (purge windowMs now m) ∧
  (mget (purge windowMs now m) k = mget m k ∨
   ∃ b, mget m k = Some b ∧ startedAt b + windowMs ≤ now ∧
        mget (purge windowMs now m) k = None).
Proof.
  intros Hwf. unfold purge. case_decide; [|by split; [|left]].
  clear H. unfold mwf in *. induction m as [|[j b] m IH]; simpl; [by split; [|left]|].
  apply NoDup_cons in Hwf as [Hj Hwf]. destruct (IH Hwf) as [IH1 IH2].
  rewrite filter_cons; simpl. case_decide as Hb; simpl.
  - split.
    + apply NoDup_cons. split; [|done]. intros Hin. apply Hj. unfold mkeys in *.
      apply list_elem_of_fmap in Hin as [p [-> Hp]]. apply list_elem_of_filter in Hp as [_ Hp].
      apply list_elem_of_fmap. by exists p.
    + by case_decide; [left|].
  - split; [done|]. case_decide; [subst j|done].
    destruct IH2 as [E|(b' & E & _)].
    + right. exists b. split_and!; [done|lia|]. rewrite E. by apply mget_None_keys.
    + apply mget_None_keys in Hj. simpl in Hj. congruence.
Qed.

(** One more admission decision for [key], in a running or in a new bucket. *)
Lemma grouped_running st ts gs t c :
  grouped ((st, ts) :: gs) → st ≤ t < st + windowMs → 0 ≤ c →
  Z.of_nat (length ts) = Z.min c limit →
  let ts' := if c + 1 <=? limit then t :: ts else ts in
  grouped ((st, ts') :: gs) ∧ Z.of_nat (length ts') = Z.min (c + 1) limit.
Proof.
  intros (Hts & Hlen & Hs & Hg) Ht Hc Hl. destruct (c + 1 <=? limit) eqn:E; simpl.
  - split; [|lia]. split_and!; [by constructor|lia|done|done].
  - split; [|lia]. by split_and!.
Qed.

Lemma grouped_fresh gs t :
  grouped gs → match gs with [] => True | (st, _) :: _ => st + windowMs ≤ t end →
  let ts := if 1 <=? limit then [t] else [] in
  grouped ((t, ts) :: gs) ∧ Z.of_nat (length ts) = Z.min 1 limit.
Proof.
  intros Hg Hh. destruct (1 <=? limit) eqn:E; simpl; (split; [|lia]);
    (split_and!; [repeat constructor; simpl; lia|simpl; lia|by destruct gs as [|[??]]|done]).
Qed.

(** The bucket [allow_local] counts in. *)
Definition current (t : Z) (old : option bucket) : bucket :=
  match old with
  | Some b => if decide (startedAt b + windowMs ≤ t) then Bucket t 0 else b
  | None => Bucket t 0
  end.

Lemma admit_current t old gs :
  grouped gs →
  match old, gs with
  | Some b, (st, ts) :: _ =>
      st = startedAt b ∧ st ≤ t ∧ Z.of_nat (length ts) = Z.min (count b) limit ∧
      0 ≤ count b
  | Some _, [] => False
  | None, (st, _) :: _ => st + windowMs ≤ t
  | None, [] => True
  end →
  let b := current t old in
  ∃ st ts gs', grouped ((st, ts) :: gs') ∧
    admissions ((st, ts) :: gs') =
      (if count b + 1 <=? limit then t :: admissions gs else admissions gs) ∧
    st = startedAt b ∧ st ≤ t < st + windowMs ∧
    Z.of_nat (length ts) = Z.min (count b + 1) limit ∧ 0 ≤ count b.
Proof.
  intros Hg Hm. simpl.
  assert (∀ (H : match gs with [] => True | (st, _) :: _ => st + windowMs ≤ t end),
    ∃ st ts gs', grouped ((st, ts) :: gs') ∧
    admissions ((st, ts) :: gs') =
      (if 0 + 1 <=? limit then t :: admissions gs else admissions gs) ∧
    st = t ∧ st ≤ t < st + windowMs ∧
    Z.of_nat (length ts) = Z.min (0 + 1) limit ∧ 0 ≤ 0) as Hfresh.
  { intros H. destruct (grouped_fresh gs t Hg H) as [H1 H2]. eexists _, _, gs.
    split; [exact H1|]. split_and!; [change (0 + 1) with 1; by destruct (1 <=? limit)|done|lia|lia|exact H2|lia]. }
  destruct old as [b|]; simpl; [|apply Hfresh; exact Hm].
  destruct gs as [|[st ts] gs]; [done|]. destruct Hm as (-> & Hle & Hlen & Hc).
  case_decide; simpl; [by apply Hfresh|].
  destruct (grouped_running (startedAt b) ts gs t (count b)) as [H1 H2]; [done|lia|done|done|].
  eexists _, _, gs. split; [exact H1|].
  split_and!; [by unfold admissions; simpl; destruct (count b + 1 <=? limit)
              |done|lia|lia|exact H2|done].
Qed.

Lemma allow_local_eq k t m :
  let b := current t (mget m (prefix ++ k)%string) in
  let n := count b + 1 in
  allow_local prefix k limit windowMs t m =
    (purge windowMs t (mset m (prefix ++ k)%string (Bucket (startedAt b) n)),
     Verdict (n <=? limit) n (if n <=? limit then 0 else startedAt b + windowMs - t)).
Proof. done. Qed.

Lemma call_tracks now s e : now ≤ e.2 → tracks now s → tracks e.2 (call s e).
Proof.
  intros Hn Ht. apply (tracks_later now (e.2)) in Ht; [|done].
  destruct Ht as (Hwf & gs & Hg & Ha & Hm), e as [k t]; simpl in *.
  unfold call; cbn [fst snd]. rewrite allow_local_eq. simpl.
  set (nk := (prefix ++ k)%string). set (b := current t _).
  set (b' := Bucket (startedAt b) (count b + 1)).
  destruct (purge_spec t (mset (l_buckets s) nk b') (prefix ++ key)%string)
    as [Hw1 Hw2]; [auto with jsmap|]. split; [done|].
  destruct (decide (k = key)) as [->|Hk].
  - destruct (admit_current t _ gs Hg Hm) as (st & ts & gs' & H1 & H2 & H3 & H4 & H5 & H6).
    exists ((st, ts) :: gs'). split; [exact H1|]. split; [by rewrite H2, Ha|].
    change (current t (mget _ (prefix ++ key)%string)) with b in H2, H3, H5, H6. rewrite mget_set_eq in Hw2. simpl.
    destruct Hw2 as [->|(b0 & [= <-] & Hb & _)]; simpl in *; [split_and!; done || lia|lia].
  - exists gs. split_and!; [done|done|].
    rewrite mget_set_ne in Hw2 by (intros E; apply Hk; by apply (inj (String.append prefix))).
    simpl. destruct Hw2 as [->|(b0 & E & Hb & ->)]; [done|].
    rewrite E in Hm. destruct gs as [|[st ts] gs]; [done|]. naive_solver lia.
Qed.

(** Calls arrive in clock order. *)
Fixpoint in_order (now : Z) (es : list (string * Z)) : Prop :=
  match es with [] => True | e :: es' => now ≤ e.2 ∧ in_order e.2 es' end.

Lemma run_tracks now s es :
  in_order now es → tracks now s → ∃ now', now ≤ now' ∧ tracks now' (run call s es).
Proof.
  revert now s. induction es as [|e es IH]; intros now s Ho Hs; simpl; [by exists now|].
  destruct Ho as [Hn Ho].
  destruct (IH _ _ Ho (call_tracks _ _ _ Hn Hs)) as (now' & ? & ?).
  exists now'. split; [lia|done].
Qed.

(** A refused caller that waits [retryAfterMs] is admitted. *)
Lemma retry_after_wait t m :
  mwf m → 1 ≤ limit →
  let r := allow_local prefix key limit windowMs t m in
  allowed r.2 = false →
  allowed (allow_local prefix key limit windowMs (t + retryAfterMs r.2) r.1).2 = true.
Proof.
  intros Hwf Hl. rewrite (allow_local_eq key t). cbn zeta. set (b := current t _).
  set (b' := Bucket (startedAt b) (count b + 1)). cbn [fst snd allowed retryAfterMs].
  intros ->. rewrite allow_local_eq. cbn [fst snd allowed].
  destruct (purge_spec t (mset m (prefix ++ key)%string b') (prefix ++ key)%string)
    as [_ Hp]; [auto with jsmap|]. rewrite mget_set_eq in Hp.
  destruct Hp as [->|(? & _ & _ & ->)]; simpl; [|lia].
  rewrite decide_True by lia. simpl. lia.
Qed.

(** The in-process limiter admits at most twice its limit of a key's calls
    in any interval of one window, whatever the interleaving with other keys
    and the purging of old buckets; and a refused caller that waits [retryAfterMs]
    is admitted. *)
Theorem rate_limit_bound now es t :
  in_order now es →
  let s := run call (LState [] []) es in
  Z.of_nat (inside t (l_admitted s)) ≤ 2 * limit ∧
  (∀ t', 1 ≤ limit →
     let r := allow_local prefix key limit windowMs t' (l_buckets s) in
     allowed r.2 = false →
     allowed (allow_local prefix key limit windowMs (t' + retryAfterMs r.2) r.1).2 = true).
Proof.
  intros Ho s.
  destruct (run_tracks now (LState [] []) es Ho) as (now' & _ & Hwf & gs & Hg & Ha & _).
  - split; [apply mwf_nil|]. by exists [].
  - split; [unfold s; rewrite Ha; by apply grouped_window|].
    intros t' Hl. by apply retry_after_wait.
Qed.
End Window.

Lemma rate_limit_bound_witness :
  let es := [("a", 0); ("b", 1); ("a", 2); ("a", 70); ("a", 100); ("a", 101)]%string in
  Z.of_nat (inside 100 50 (l_admitted (run (call "rl:" "a" 2 100) (LState [] []) es))) ≤ 4 ∧
  l_admitted (run (call "rl:" "a" 2 100) (LState [] []) es) = [101; 100; 2; 0].
Proof.
  split; [|vm_compute; reflexivity].
  refine (proj1 (rate_limit_bound "rl:" "a" 2 100 _ _ 0 _ 50 _)); [lia|lia|simpl; lia].
Defined.
