(* ===== verification/Locks.v ===== *)
(** Distributed locks: backend/src/infrastructure/locks.js.

    [LockManager] is modelled over any [CoordinatorLaws]; [withLock] follows
    the code's try/finally with the renewals its timer makes.  [world] is a set
    of processes sharing one coordinator, each command one atomic step (Redis
    commands and scripts are); [race] splits the in-memory adapter's [set] at
    its await and shows what that loses. *)

From S2P Require Import Prelude JsMap JsValue Coordinator.

Local Open Scope Z_scope.

(** [`lock:${key}`] *)
(* [src/backend/src/infrastructure/locks.js:24-24] namespaced *)
Definition namespaced (key : string) : string := ("lock:" ++ key)%string.

(* [src/backend/src/infrastructure/locks.js:25-25] ttl *)
Definition lock_ttl (ttlMs : Z) : Z := Z.max 1000 (if ttlMs =? 0 then 10000 else ttlMs).

Section Manager.
Context {S : Type} `{CL : CoordinatorLaws S}.

(** The commands a release or a renewal is made of: one script when the
    coordinator has a client ([compareAndDeleteValue]), get-then-del otherwise. *)
Class LockCommands := {
  lock_cad : Z → string → string → S → S * bool;
  lock_cae : Z → string → string → Z → S → S * bool;
}.

Class LockLaws `{LC : LockCommands} := {
  cad_ok s t k e : c_ok s → c_ok (lock_cad t k e s).1;
  cad_result s t k e : (lock_cad t k e s).2 = bool_decide (live s t k = Some e);
  cad_live s t k e t' k' : c_ok s → 0 ≤ t ≤ t' →
    live (lock_cad t k e s).1 t' k' =
    if decide (k = k' ∧ live s t k = Some e) then None else live s t' k';
  cae_ok s t k e ttl : c_ok s → c_ok (lock_cae t k e ttl s).1;
  cae_result s t k e ttl : (lock_cae t k e ttl s).2 = bool_decide (live s t k = Some e);
  cae_live s t k e ttl t' k' : c_ok s → 0 < ttl → 0 ≤ t ≤ t' →
    live (lock_cae t k e ttl s).1 t' k' =
    if decide (k = k' ∧ live s t k = Some e)
    then if decide (t' < t + ttl) then Some e else None else live s t' k';
}.

(** The fallback of [release] and [renew], run without interruption. *)
(* [src/backend/src/infrastructure/locks.js:45-49] release, fallback *)
Definition get_then_del (t : Z) (k e : string) (s : S) : S * bool :=
  let (s1, cur) := c_get t k s in
  if decide (cur = Some e) then ((c_del k s1).1, true) else (s1, false).

(* [src/backend/src/infrastructure/locks.js:64-66] renew, fallback *)
Definition get_then_set (t : Z) (k e : string) (ttl : Z) (s : S) : S * bool :=
  let (s1, cur) := c_get t k s in
  if decide (cur = Some e) then c_set t k e ttl false s1 else (s1, false).

Context `{LL : LockLaws}.

(* [src/backend/src/infrastructure/locks.js:12-16] LockManager *)
Record manager := LockManager { coordinator : S; localHeld : jsmap string string }.

(* [src/backend/src/infrastructure/locks.js:22-32] tryAcquire *)
Definition tryAcquire (now : Z) (key token : string) (ttlMs : Z) (m : manager)
    : manager * option string :=
  let (s, ok) := c_set now (namespaced key) token (lock_ttl ttlMs) true (coordinator m) in
  if ok : bool then (LockManager s (mset (localHeld m) (namespaced key) token), Some token)
  else (LockManager s (localHeld m), None).

(* [src/backend/src/infrastructure/locks.js:34-53] release *)
Definition release (now : Z) (key token : string) (m : manager) : manager * bool :=
  let (s, ok) := lock_cad now (namespaced key) token (coordinator m) in
  (LockManager s (if ok then mdelete (localHeld m) (namespaced key) else localHeld m), ok).

(* [src/backend/src/infrastructure/locks.js:55-70] renew *)
Definition renew (now : Z) (key token : string) (ttlMs : Z) (m : manager) : manager * bool :=
  let (s, ok) := lock_cae now (namespaced key) token (lock_ttl ttlMs) (coordinator m) in
  (LockManager s (localHeld m), ok).

Definition lock_busy (key : string) : js_error :=
  JsError (Some "lock_busy"%string) ("lock busy: " ++ key)%string.
Definition lock_lost (key : string) : js_error :=
  JsError (Some "lock_lost"%string) ("lock lease lost: " ++ key)%string.

(** What happens while [fn] runs: other processes change the coordinator, and
    the timer renews the lease. *)
Inductive tick :=
| Interfere (f : S → S)
| RenewTimer (now : Z).

(* [src/backend/src/infrastructure/locks.js:93-101] renewal timer *)
Definition tick_step (key token : string) (ttl : Z) (ml : manager * bool) (e : tick)
    : manager * bool :=
  match e with
  | Interfere f => (LockManager (f (coordinator ml.1)) (localHeld ml.1), ml.2)
  | RenewTimer now =>
      let (m', ok) := renew now key token ttl ml.1 in (m', ml.2 || negb ok)
  end.

(* [src/backend/src/infrastructure/locks.js:73-115] withLock *)
Definition withLock {A} (now : Z) (key token : string) (ttlMs : Z) (ticks : list tick)
    (fn : res A) (done_at : Z) (m : manager) : manager * res A :=
  let ttl := lock_ttl ttlMs in
  match tryAcquire now key token ttl m with
  | (m1, None) => (m1, Throw (lock_busy key))
  | (m1, Some token) =>
      let (m2, lost) := foldl (tick_step key token ttl) (m1, false) ticks in
      let r := result ← fn; if lost : bool then Throw (lock_lost key) else Ok result in
      ((release done_at key token m2).1, r)
  end.

(** ** Processes sharing one coordinator *)

Record lease := Lease { l_key : string; l_token : string; l_until : Z }.

Record world := World {
  w_store : S;
  w_now : Z;
  w_leases : list lease;
  w_issued : list string;
}.

Definition foreign (f : S → S) : Prop :=
  ∀ s, (c_ok s → c_ok (f s)) ∧
       ∀ t k, live (f s) t (namespaced k) = live s t (namespaced k).

Inductive event :=
| EElapse (dt : Z)
| EAcquire (key token : string) (ttl : Z) (ok : bool)
| ERelease (key token : string)
| ERenew (key token : string) (ttl : Z) (ok : bool)
| EOther.

(** One command of one process.  A token is fresh random bytes; a process
    releases or renews a lease it was granted; [lh] is its bookkeeping. *)
Inductive wstep : world → event → world → Prop :=
| step_elapse w dt : 0 ≤ dt →
    wstep w (EElapse dt) (World (w_store w) (w_now w + dt) (w_leases w) (w_issued w))
| step_acquire w lh key token ttl m r :
    token ∉ w_issued w →
    tryAcquire (w_now w) key token ttl (LockManager (w_store w) lh) = (m, r) →
    wstep w (EAcquire key token ttl (bool_decide (is_Some r)))
      (World (coordinator m) (w_now w)
         (if r is Some _ then Lease key token (w_now w + lock_ttl ttl) :: w_leases w
          else w_leases w) (token :: w_issued w))
| step_release w lh l m r :
    l ∈ w_leases w →
    release (w_now w) (l_key l) (l_token l) (LockManager (w_store w) lh) = (m, r) →
    wstep w (ERelease (l_key l) (l_token l))
      (World (coordinator m) (w_now w) (filter (λ l', l_token l' ≠ l_token l) (w_leases w))
         (w_issued w))
| step_renew w lh l ttl m r :
    l ∈ w_leases w →
    renew (w_now w) (l_key l) (l_token l) ttl (LockManager (w_store w) lh) = (m, r) →
    wstep w (ERenew (l_key l) (l_token l) ttl r)
      (World (coordinator m) (w_now w)
         (if r then Lease (l_key l) (l_token l) (w_now w + lock_ttl ttl) ::
                    filter (λ l', l_token l' ≠ l_token l) (w_leases w)
          else w_leases w) (w_issued w))
| step_other w f : foreign f →
    wstep w EOther (World (f (w_store w)) (w_now w) (w_leases w) (w_issued w)).

Definition held (w : world) (key token : string) : Prop :=
  ∃ u, Lease key token u ∈ w_leases w ∧ w_now w < u.

(** The store holds exactly the unexpired leases. *)
Record world_ok (w : world) : Prop := {
  wo_store : c_ok (w_store w);
  wo_now : 0 ≤ w_now w;
  wo_tokens : ∀ l l', l ∈ w_leases w → l' ∈ w_leases w → l_token l = l_token l' → l = l';
  wo_issued : ∀ l, l ∈ w_leases w → l_token l ∈ w_issued w;
  wo_lease : ∀ l t, l ∈ w_leases w → w_now w ≤ t < l_until l →
    live (w_store w) t (namespaced (l_key l)) = Some (l_token l);
  wo_live : ∀ k v t, w_now w ≤ t → live (w_store w) t (namespaced k) = Some v →
    ∃ u, Lease k v u ∈ w_leases w ∧ t < u;
}.

#[export] Instance namespaced_inj : Inj (=) (=) namespaced.
Proof. intros a b E. unfold namespaced in E. by simplify_eq/=. Qed.

Lemma lock_ttl_pos ttl : 0 < lock_ttl ttl.
Proof. unfold lock_ttl. lia. Qed.

Lemma acquire_ok w lh key token ttl m r :
  world_ok w → token ∉ w_issued w →
  tryAcquire (w_now w) key token ttl (LockManager (w_store w) lh) = (m, r) →
  world_ok (World (coordinator m) (w_now w)
    (if r is Some _ then Lease key token (w_now w + lock_ttl ttl) :: w_leases w
     else w_leases w) (token :: w_issued w)) ∧
  (r = None ↔ ∃ tok, held w key tok).
Proof.
  intros [Hs Hn Ht Hi Hl Hv] Hf. unfold tryAcquire; simpl.
  pose proof (lock_ttl_pos ttl) as Hp.
  pose proof (set_result (w_store w) (w_now w) (namespaced key) token (lock_ttl ttl) true) as Hr.
  pose proof (λ t' k' H, set_live (w_store w) (w_now w) (namespaced key) token
    (lock_ttl ttl) true t' k' Hs Hp H) as Hlv.
  pose proof (set_ok (w_store w) (w_now w) (namespaced key) token (lock_ttl ttl) true Hs) as Hs'.
  destruct (c_set _ _ _ _ _ _) as [s ok]; simpl in *. subst ok.
  case_bool_decide as Hlive; intros [= <- <-]; simpl.
  - assert (∀ u, Lease key u.1 u.2 ∈ w_leases w → u.2 ≤ w_now w) as Hexp.
    { intros [tok u] Hu; simpl in *. destruct (decide (u ≤ w_now w)); [done|].
      pose proof (Hl _ (w_now w) Hu) as E. simpl in E. rewrite Hlive in E. naive_solver lia. }
    split.
    + split; simpl; [done|done| | | |].
      * intros l l'. rewrite !elem_of_cons. intros [->|?] [->|?] E; simpl in *;
          [done|naive_solver|naive_solver|auto].
      * intros l. rewrite !elem_of_cons. naive_solver.
      * intros l t. rewrite elem_of_cons. intros [->|Hin] Hlt; simpl in *.
        { rewrite Hlv, decide_True, decide_True by (done || lia). done. }
        rewrite Hlv by lia. rewrite decide_False; [by apply Hl|].
        intros [E%(inj namespaced) _]. destruct l as [k tok u]; simpl in *; subst.
        specialize (Hexp (tok, u)); simpl in *. apply Hexp in Hin. lia.
      * intros k v t Hlt. rewrite Hlv by lia.
        destruct (decide (namespaced key = namespaced k ∧ _)) as [[<-%(inj namespaced) _]|_].
        { destruct (decide (t < _)); intros ?; simplify_eq. eexists. split; [by left|lia]. }
        intros (u & Hin & ?)%Hv; [|done]. exists u. split; [by right|done].
    + split; [done|]. intros (tok & u & Hin & Hlt). specialize (Hexp (tok, u) Hin).
      simpl in Hexp. lia.
  - split.
    + split; simpl; [done|done|done| | |].
      * intros l Hin. right. auto.
      * intros l t Hin Hlt. rewrite Hlv, decide_False by (lia || naive_solver). auto.
      * intros k v t Hlt. rewrite Hlv, decide_False by (lia || naive_solver). auto.
    + split; [|done]. intros _. destruct (live _ _ _) as [v|] eqn:E; [|done].
      destruct (Hv key v (w_now w)) as (u & Hin & ?); [lia|done|]. by exists v, u.
Qed.

Lemma release_ok w lh l m r :
  world_ok w → l ∈ w_leases w →
  release (w_now w) (l_key l) (l_token l) (LockManager (w_store w) lh) = (m, r) →
  world_ok (World (coordinator m) (w_now w)
    (filter (λ l', l_token l' ≠ l_token l) (w_leases w)) (w_issued w)).
Proof.
  intros [Hs Hn Ht Hi Hl Hv] Hin. unfold release; simpl.
  pose proof (cad_ok (w_store w) (w_now w) (namespaced (l_key l)) (l_token l) Hs) as Hs'.
  pose proof (λ t' k' H, cad_live (w_store w) (w_now w) (namespaced (l_key l)) (l_token l)
    t' k' Hs H) as Hlv.
  destruct (lock_cad _ _ _ _) as [s ok]; simpl in *. intros [= <- <-].
  split; simpl; [done|done| | | |].
  - intros l1 l2 [_ ?]%list_elem_of_filter [_ ?]%list_elem_of_filter. auto.
  - intros l1 [_ ?]%list_elem_of_filter. auto.
  - intros l1 t [Hne Hin1]%list_elem_of_filter Hlt. rewrite Hlv by lia.
    rewrite decide_False; [by apply Hl|]. intros [E%(inj namespaced) E2].
    pose proof (Hl l1 (w_now w) Hin1 ltac:(lia)) as E1. rewrite E in E2. congruence.
  - intros k v t Hlt. rewrite Hlv by lia.
    destruct (decide (namespaced _ = namespaced k ∧ _)) as [|Hd]; [done|]. intros Hv'.
    destruct (Hv k v t Hlt Hv') as (u & Hinu & Hu). exists u. split; [|done].
    apply list_elem_of_filter. split; [|done]. simpl. intros ->.
    pose proof (Ht _ _ Hinu Hin eq_refl) as E%(f_equal l_key). simpl in E.
    subst k. apply Hd. split; [done|].
    by apply (live_expiry _ (w_now w) t).
Qed.

Lemma renew_ok w lh l ttl m r :
  world_ok w → l ∈ w_leases w →
  renew (w_now w) (l_key l) (l_token l) ttl (LockManager (w_store w) lh) = (m, r) →
  world_ok (World (coordinator m) (w_now w)
    (if r then Lease (l_key l) (l_token l) (w_now w + lock_ttl ttl) ::
               filter (λ l', l_token l' ≠ l_token l) (w_leases w)
     else w_leases w) (w_issued w)).
Proof.
  intros [Hs Hn Ht Hi Hl Hv] Hin. unfold renew; simpl.
  pose proof (lock_ttl_pos ttl) as Hp.
  pose proof (cae_ok (w_store w) (w_now w) (namespaced (l_key l)) (l_token l)
    (lock_ttl ttl) Hs) as Hs'.
  pose proof (cae_result (w_store w) (w_now w) (namespaced (l_key l)) (l_token l)
    (lock_ttl ttl)) as Hr.
  pose proof (λ t' k' H, cae_live (w_store w) (w_now w) (namespaced (l_key l)) (l_token l)
    (lock_ttl ttl) t' k' Hs Hp H) as Hlv.
  destruct (lock_cae _ _ _ _ _) as [s ok]; simpl in *. subst ok. intros [= <- <-].
  case_bool_decide as Hlive.
  - split; simpl; [done|done| | | |].
    + intros l1 l2. rewrite !elem_of_cons, !list_elem_of_filter.
      intros [->|[??]] [->|[??]] E; simpl in *; congruence || auto.
    + intros l1. rewrite elem_of_cons, list_elem_of_filter. naive_solver.
    + intros l1 t. rewrite elem_of_cons, list_elem_of_filter.
      intros [->|[Hne Hin1]] Hlt; simpl in *.
      { rewrite Hlv, decide_True, decide_True by (done || lia). done. }
      rewrite Hlv by lia. rewrite decide_False; [by apply Hl|].
      intros [E%(inj namespaced) _]. pose proof (Hl l1 (w_now w) Hin1 ltac:(lia)) as E1.
      rewrite E in Hlive. congruence.
    + intros k v t Hlt. rewrite Hlv by lia.
      destruct (decide (namespaced _ = namespaced k ∧ _)) as [[<-%(inj namespaced) _]|Hd].
      { destruct (decide (t < _)); intros ?; simplify_eq. eexists. split; [by left|lia]. }
      intros Hv'. destruct (Hv k v t Hlt Hv') as (u & Hinu & Hu). exists u.
      split; [|done]. right. apply list_elem_of_filter. split; [|done]. simpl. intros ->.
      pose proof (Ht _ _ Hinu Hin eq_refl) as E%(f_equal l_key).
      simpl in E. subst k. by apply Hd.
  - split; simpl; [done|done|done|done| |].
    + intros l1 t Hin1 Hlt. rewrite Hlv, decide_False by (lia || naive_solver). auto.
    + intros k v t Hlt. rewrite Hlv, decide_False by (lia || naive_solver). auto.
Qed.

Lemma wstep_ok w e w' : world_ok w → wstep w e w' → world_ok w'.
Proof.
  intros Hw Hstep. destruct Hstep as [w dt|w lh key token ttl m r Hf E|w lh l m r Hin E
                                     |w lh l ttl m r Hin E|w f Hf].
  - destruct Hw as [Hs Hn Ht Hi Hl Hv]. split; simpl; [done|lia|done|done| |].
    + intros l t Hin Hlt. apply Hl; [done|lia].
    + intros k v t Hlt. apply Hv. lia.
  - by apply (acquire_ok w lh key token ttl m r).
  - by apply (release_ok w lh l m r).
  - by apply (renew_ok w lh l ttl m r).
  - destruct Hw as [Hs Hn Ht Hi Hl Hv]. destruct (Hf (w_store w)) as [Hok Hfr].
    split; simpl; [auto|done|done|done| |].
    + intros l t Hin Hlt. rewrite Hfr. auto.
    + intros k v t Hlt. rewrite Hfr. auto.
Qed.

(** A coordinator with no lock key set. *)
Definition initial (s : S) (now : Z) : world := World s now [] [].

Lemma initial_ok s now :
  c_ok s → 0 ≤ now → (∀ t k, live s t (namespaced k) = None) → world_ok (initial s now).
Proof.
  intros Hs Hn Hl. split; simpl; try done; try (by intros ? ?%not_elem_of_nil).
  - by intros ? ? ?%not_elem_of_nil.
  - intros l t ?%not_elem_of_nil. done.
  - intros k v t _. by rewrite Hl.
Qed.

(** C27: mutual exclusion over an atomic coordinator.  After any interleaving
    of acquisitions with fresh tokens, releases (stale ones included),
    renewals, clock advances and other traffic: a key has at most one
    unexpired holder; [tryAcquire] fails exactly when there is one, so a crash
    never blocks a key beyond its lease; and a release by a holder whose lease
    was lost leaves the current holder in place. *)
Theorem lock_mutual_exclusion s0 t0 es w :
  c_ok s0 → 0 ≤ t0 → (∀ t k, live s0 t (namespaced k) = None) →
  trace wstep (initial s0 t0) es w →
  (∀ key tok tok', held w key tok → held w key tok' → tok = tok') ∧
  (∀ lh key token ttl m r, token ∉ w_issued w →
     tryAcquire (w_now w) key token ttl (LockManager (w_store w) lh) = (m, r) →
     (r = None ↔ ∃ tok, held w key tok)) ∧
  (∀ lh key tok stale m r, held w key tok → stale ≠ tok →
     release (w_now w) key stale (LockManager (w_store w) lh) = (m, r) →
     r = false ∧ live (coordinator m) (w_now w) (namespaced key) = Some tok).
Proof.
  intros Hs Ht Hl Htr.
  assert (world_ok w) as Hw.
  { eapply (trace_invariant wstep world_ok); [exact wstep_ok|exact Htr|by apply initial_ok]. }
  split_and!.
  - intros key tok tok' (u & Hin & ?) (u' & Hin' & ?).
    pose proof (wo_lease w Hw _ (w_now w) Hin) as E.
    pose proof (wo_lease w Hw _ (w_now w) Hin') as E'. simpl in *.
    rewrite E in E' by lia. specialize (E' ltac:(lia)). by simplify_eq.
  - intros lh key token ttl m r Hf E. by eapply acquire_ok.
  - intros lh key tok stale m r (u & Hin & ?) Hne. unfold release; simpl.
    pose proof (wo_lease w Hw _ (w_now w) Hin) as E. simpl in E. specialize (E ltac:(lia)).
    pose proof (cad_result (w_store w) (w_now w) (namespaced key) stale) as Hr.
    pose proof (cad_live (w_store w) (w_now w) (namespaced key) stale (w_now w)
      (namespaced key) (wo_store w Hw)) as Hlv.
    pose proof (wo_now w Hw).
    destruct (lock_cad _ _ _ _) as [s ok]; simpl in *. intros [= <- <-]. simpl.
    rewrite Hlv, E, decide_False by (lia || naive_solver). split; [|done].
    rewrite Hr, E. apply bool_decide_eq_false. congruence.
Qed.

(** ** withLock *)

(** Every renewal of the run found the caller's token in the store. *)
Fixpoint confirmed (key token : string) (ttl : Z) (ticks : list tick) (m : manager) : Prop :=
  match ticks with
  | [] => True
  | Interfere f :: ticks' =>
      confirmed key token ttl ticks' (LockManager (f (coordinator m)) (localHeld m))
  | RenewTimer now :: ticks' =>
      live (coordinator m) now (namespaced key) = Some token ∧
      confirmed key token ttl ticks' (renew now key token ttl m).1
  end.

Lemma tick_lost_mono key token ttl ticks ml :
  ml.2 = true → (foldl (tick_step key token ttl) ml ticks).2 = true.
Proof.
  revert ml. induction ticks as [|e ticks IH]; intros [m l]; simpl; [done|]. intros ->.
  apply IH. destruct e as [f|now]; simpl; [done|]. by destruct (renew _ _ _ _ _).
Qed.

Lemma renew_result now key token ttl m :
  (renew now key token ttl m).2 =
  bool_decide (live (coordinator m) now (namespaced key) = Some token).
Proof.
  unfold renew. rewrite <- (cae_result _ _ _ _ (lock_ttl ttl)).
  by destruct (lock_cae _ _ _ _ _).
Qed.

Lemma ticks_confirmed key token ttl ticks m :
  (foldl (tick_step key token ttl) (m, false) ticks).2 = false ↔
  confirmed key token ttl ticks m.
Proof.
  revert m. induction ticks as [|e ticks IH]; intros m; simpl; [done|].
  destruct e as [f|now]; simpl; [apply IH|].
  pose proof (renew_result now key token ttl m) as Hr.
  destruct (renew now key token ttl m) as [m' ok]; simpl in *. subst ok.
  case_bool_decide as Hd; simpl; [rewrite IH; naive_solver|].
  rewrite tick_lost_mono by done. naive_solver.
Qed.

Lemma ticks_ok key token ttl ticks ml :
  Forall (λ e, match e with Interfere f => ∀ s, c_ok s → c_ok (f s) | _ => True end) ticks →
  c_ok (coordinator ml.1) →
  c_ok (coordinator (foldl (tick_step key token ttl) ml ticks).1).
Proof.
  intros Hf. revert ml. induction Hf as [|e ticks He _ IH]; intros [m l] Hm; simpl in *; [done|].
  apply IH. destruct e as [f|now]; simpl; [auto|]. unfold renew.
  pose proof (cae_ok (coordinator m) now (namespaced key) token (lock_ttl ttl) Hm).
  by destruct (lock_cae _ _ _ _ _).
Qed.

(** [withLock] runs its function only when the lock was free, reports
    [lock_busy] otherwise, returns the function's result exactly when every
    renewal during the run found the caller's token in the store, reports
    [lock_lost] when one did not, passes an error of the function through, and
    on every path after the acquisition has released the lock. *)
Theorem withLock_outcome {A} now key token ttlMs ticks (fn : res A) done_at m m' r :
  c_ok (coordinator m) → 0 ≤ done_at →
  Forall (λ e, match e with Interfere f => ∀ s, c_ok s → c_ok (f s) | _ => True end) ticks →
  withLock now key token ttlMs ticks fn done_at m = (m', r) →
  match tryAcquire now key token (lock_ttl ttlMs) m with
  | (m1, None) =>
      is_Some (live (coordinator m) now (namespaced key)) ∧
      r = Throw (lock_busy key) ∧ m' = m1
  | (m1, Some _) =>
      live (coordinator m) now (namespaced key) = None ∧
      live (coordinator m') done_at (namespaced key) ≠ Some token ∧
      match fn with
      | Throw e => r = Throw e
      | Ok a => (confirmed key token (lock_ttl ttlMs) ticks m1 ∧ r = Ok a) ∨
                (¬ confirmed key token (lock_ttl ttlMs) ticks m1 ∧ r = Throw (lock_lost key))
      end
  end.
Proof.
  intros Hm Hd Hticks. unfold withLock, tryAcquire.
  pose proof (set_ok (coordinator m) now (namespaced key) token
    (lock_ttl (lock_ttl ttlMs)) true Hm) as Hs1.
  pose proof (set_result (coordinator m) now (namespaced key) token
    (lock_ttl (lock_ttl ttlMs)) true) as Hs2.
  destruct (c_set _ _ _ _ _ _) as [s ok]; simpl in *. subst ok.
  case_bool_decide as Hlive; simpl; [|intros [= <- <-]; split; [|done]].
  2: { by apply not_eq_None_Some. }
  set (m1 := LockManager s _).
  pose proof (ticks_ok key token (lock_ttl ttlMs) ticks (m1, false) Hticks Hs1) as Hok.
  pose proof (ticks_confirmed key token (lock_ttl ttlMs) ticks m1) as Hc.
  destruct (foldl _ (m1, false) ticks) as [m2 lost]; simpl in *. intros [= <- <-].
  split_and!; [done| |].
  - unfold release.
    pose proof (cad_live (coordinator m2) done_at (namespaced key) token done_at
      (namespaced key) Hok ltac:(lia)) as E.
    destruct (lock_cad _ _ _ _); simpl in *. rewrite E.
    destruct (decide (namespaced key = _ ∧ _)) as [|Hn]; [done|]. intros ?. by apply Hn.
  - destruct fn as [a|e]; simpl; [|done]. destruct lost; [right|left]; split; try done.
    + by rewrite <- Hc.
    + by apply Hc.
Qed.
End Manager.

(** * The commands *)

(** Coordinators without a client: [get] then [del]/[set], uninterrupted. *)
Section Fallback.
Context {S : Type} `{CL : CoordinatorLaws S}.

#[local] Instance fallback_commands : @LockCommands S := {|
  lock_cad := get_then_del;
  lock_cae := get_then_set;
|}.

#[local] Instance fallback_laws : LockLaws.
Proof.
  split; simpl.
  - intros s t k e Hs. unfold get_then_del. pose proof (get_ok s t k Hs).
    destruct (c_get t k s) as [s1 cur]; simpl in *. case_decide; simpl; auto using del_ok.
  - intros s t k e. unfold get_then_del. rewrite <- (get_result s t k).
    destruct (c_get t k s) as [s1 cur]; simpl. by case_decide; case_bool_decide.
  - intros s t k e t' k' Hs Ht. unfold get_then_del. rewrite <- (get_result s t k).
    pose proof (get_ok s t k Hs) as Hs1.
    pose proof (get_live s t k t' k' Hs ltac:(lia)) as Hl.
    destruct (c_get t k s) as [s1 cur]; simpl in *.
    destruct (decide (cur = Some e)) as [->|Hne]; simpl.
    + rewrite del_live by done. destruct (decide (k = k')), (decide (k = k' ∧ _)); naive_solver.
    + by rewrite decide_False by naive_solver.
  - intros s t k e ttl Hs. unfold get_then_set. pose proof (get_ok s t k Hs).
    destruct (c_get t k s) as [s1 cur]; simpl in *. case_decide; simpl; auto using set_ok.
  - intros s t k e ttl. unfold get_then_set. rewrite <- (get_result s t k).
    destruct (c_get t k s) as [s1 cur]; simpl. case_decide; case_bool_decide; try done.
    by rewrite set_result.
  - intros s t k e ttl t' k' Hs Hp Ht. unfold get_then_set. rewrite <- (get_result s t k).
    pose proof (get_ok s t k Hs) as Hs1.
    pose proof (get_live s t k t' k' Hs ltac:(lia)) as Hl.
    destruct (c_get t k s) as [s1 cur]; simpl in *.
    destruct (decide (cur = Some e)) as [->|Hne]; simpl.
    + rewrite set_live, set_result by done. simpl.
      destruct (decide (k = k' ∧ true = true)), (decide (k = k' ∧ Some e = Some e));
        naive_solver.
    + by rewrite decide_False by naive_solver.
Qed.
End Fallback.

(** The Redis coordinator: the scripts of redis-atomic.js. *)
Section Scripts.
Context {C : Type} `{RL : RedisLaws C}.

#[local] Existing Instance coordinator_redis.
#[local] Existing Instance coordinator_redis_laws.

#[local] Instance script_commands : @LockCommands C := {|
  lock_cad := compareAndDeleteValue;
  lock_cae := compareAndExpireValue;
|}.

#[local] Instance script_laws : LockLaws.
Proof.
  split; simpl; try done.
  - intros. by apply (compareAndDelete_spec t k e s t k).
  - intros. apply compareAndDelete_spec. lia.
  - intros. unfold compareAndExpireValue. rewrite r_get_val. simpl.
    destruct (decide _) as [E|E]; simpl; [|by rewrite bool_decide_false].
    rewrite bool_decide_true by done.
    by apply (r_pexpire_live s t k (Z.max 1 ttl) e t k ltac:(lia) ltac:(lia) E).
  - intros. apply compareAndExpire_spec; lia.
Qed.
End Scripts.

Section WitnessSetup.
#[local] Existing Instance fallback_commands.
#[local] Existing Instance fallback_laws.

Lemma lock_mutual_exclusion_witness :
  ∃ w : @world Memory.coordinator,
    held w "run-1" "A" ∧ (∀ tok, held w "run-1" tok → tok = "A"%string).
Proof.
  pose (s0 := Memory.create false None).
  pose (m := (tryAcquire 5 "run-1" "A" 5000 (LockManager s0 [])).1).
  pose (w := World (coordinator m) 5 [Lease "run-1" "A" 5005] ["A"%string]).
  assert (trace wstep (initial s0 0) [EElapse 5; EAcquire "run-1" "A" 5000 true] w) as Htr.
  { econstructor; [apply (step_elapse (initial s0 0) 5); lia|].
    econstructor; [|constructor].
    exact (step_acquire (World s0 5 [] []) [] "run-1" "A" 5000 m (Some "A"%string)
      (not_elem_of_nil _) eq_refl). }
  assert (held w "run-1" "A") as Hh by (exists 5005; split; [by left|simpl; lia]).
  exists w. split; [done|]. intros tok Htok.
  refine (proj1 (lock_mutual_exclusion s0 0 _ w _ _ _ Htr) "run-1"%string tok "A"%string
    Htok Hh).
  - apply mwf_nil.
  - lia.
  - intros t k. done.
Defined.

Lemma withLock_outcome_witness :
  let m := LockManager (Memory.create false None) [] in
  let t := [RenewTimer 1000; Interfere (λ s, (c_del "lock:run-1" s).1); RenewTimer 2000] in
  (withLock 0 "run-1" "A" 3000 [RenewTimer 1000] (Ok 7%nat) 1500 m).2 = Ok 7%nat ∧
  (withLock 0 "run-1" "A" 3000 t (Ok 7%nat) 2500 m).2 = Throw (lock_lost "run-1") ∧
  live (coordinator (withLock 0 "run-1" "A" 3000 t (Ok 7%nat) 2500 m).1) 2500
    (namespaced "run-1") ≠ Some "A"%string.
Proof.
  intros m t. split; [vm_compute; reflexivity|]. split; [vm_compute; reflexivity|].
  refine (proj1 (proj2 (withLock_outcome 0 "run-1" "A" 3000 t (Ok 7%nat) 2500 m _ _ _ _ _ _))).
  - apply mwf_nil.
  - lia.
  - repeat constructor. intros s Hs. by apply del_ok.
  - apply surjective_pairing.
Defined.
End WitnessSetup.

(** * The in-memory [set ... nx] is not atomic

    [set] awaits [get] before it writes, so another call may run in between. *)

Module race.

Inductive pc :=
| Start
| Checked (existing : option string)
| Done (acquired : bool).

#[export] Instance pc_eq_dec : EqDecision pc.
Proof. solve_decision. Defined.

Record rstate := RState { r_mem : Memory.coordinator; r_pcs : list pc }.

Definition token_of (i : nat) : string := ("token-" ++ string_of_Z (Z.of_nat i))%string.

(** Process [i] runs its next uninterrupted segment of [tryAcquire(key, ttl)]. *)
(* [src/backend/src/infrastructure/redis.js:58-65] set, segments around the await *)
Definition rstep (now : Z) (key : string) (ttl : Z) (st : rstate) (i : nat) : rstate :=
  match r_pcs st !! i with
  | Some Start =>
      let (c, e) := Memory.set_check now (namespaced key) true (r_mem st) in
      RState c (<[i := Checked e]> (r_pcs st))
  | Some (Checked None) =>
      RState (Memory.set_write now (namespaced key) (token_of i) (lock_ttl ttl) (r_mem st))
        (<[i := Done true]> (r_pcs st))
  | Some (Checked (Some _)) => RState (r_mem st) (<[i := Done false]> (r_pcs st))
  | _ => st
  end.

Definition start (n : nat) : rstate := RState (Memory.create false None) (replicate n Start).

Definition winners (st : rstate) : nat :=
  length (filter (λ p, p = Done true) (r_pcs st)).

Lemma sweep now key ttl (good : Memory.coordinator → Prop) p q m st j :
  (∀ st i, good (r_mem st) → r_pcs st !! i = Some p →
     good (r_mem (rstep now key ttl st i)) ∧
     r_pcs (rstep now key ttl st i) = <[i := q]> (r_pcs st)) →
  good (r_mem st) → r_pcs st = replicate j q ++ replicate m p →
  let st' := run (rstep now key ttl) st (seq j m) in
  good (r_mem st') ∧ r_pcs st' = replicate (j + m) q.
Proof.
  intros Hstep. revert st j. induction m as [|m IH]; intros st j Hg Hp; simpl.
  - rewrite Hp, Nat.add_0_r, app_nil_r. done.
  - destruct (Hstep st j) as [Hg' Hp']; [done| |].
    { rewrite Hp, lookup_app_r; rewrite length_replicate; [|done].
      by rewrite Nat.sub_diag. }
    replace (j + S m)%nat with (S j + m)%nat by lia. apply IH; [done|].
    rewrite Hp', Hp, insert_app_r_alt by (by rewrite length_replicate).
    rewrite length_replicate, Nat.sub_diag. simpl.
    by rewrite (cons_middle q), (app_assoc _ [q]), <- replicate_S_end.
Qed.
End race.

(** A race in the in-memory adapter.  [MemoryCoordinator.set] with [nx]
    awaits its existence test before it writes, so when [n] callers of
    [tryAcquire] for one key are all started before the first resumes, every
    one of them is told it holds the lock, at the same instant. *)
Theorem memory_set_nx_race now key ttl n :
  race.winners (run (race.rstep now key ttl) (race.start n) (seq 0 n ++ seq 0 n)) = n.
Proof.
  rewrite run_app.
  destruct (race.sweep now key ttl (λ c, Memory.kv c = []) race.Start
    (race.Checked None) n (race.start n) 0) as [_ Hp]; [|done|done|].
  { intros st i Hm Hi. unfold race.rstep. rewrite Hi. simpl. unfold Memory.get.
    by rewrite Hm. }
  destruct (race.sweep now key ttl (λ _, True) (race.Checked None) (race.Done true) n
    (run (race.rstep now key ttl) (race.start n) (seq 0 n)) 0) as [_ Hq].
  { intros st i _ Hi. unfold race.rstep. by rewrite Hi. }
  { done. }
  { exact Hp. }
  unfold race.winners. rewrite Hq. simpl. clear.
  induction n as [|n IH]; [done|]. simpl replicate. rewrite filter_cons_True by done.
  simpl. by rewrite IH.
Qed.
