(* ===== verification/Idempotency.v ===== *)
(** Idempotency records: backend/src/idempotency.js.

    [IdempotencyStore] (the [Map], its bounded eviction, its atomic file) and
    [RedisIdempotencyBackend] over any coordinator.  A result is a value of any
    type [R]; [None] is [null].  Timestamps are clock readings in ms
    ([Date.parse] of the ISO string the code stores). *)

From S2P Require Import Prelude JsMap JsValue Coordinator.

Local Open Scope nat_scope.

(* [src/backend/src/idempotency.js:21-27] STATES *)
Inductive STATES := PENDING | RUNNING | COMPLETED | FAILED | UNKNOWN.

#[export] Instance STATES_eq_dec : EqDecision STATES.
Proof. solve_decision. Defined.

Definition terminal (s : STATES) : bool :=
  match s with COMPLETED | FAILED => true | _ => false end.

Section Store.
Context {R : Type}.

(* [src/backend/src/idempotency.js:33-33] record *)
Record record := Record_ {
  key : string;
  state : STATES;
  result : option R;
  error : option string;
  runId : option string;
  op : option string;
  createdAt : option Z;
  updatedAt : Z;
}.

(** The store: its file's contents ([None]: no such file) and whether it has a
    file at all. *)
(* [src/backend/src/idempotency.js:29-42] IdempotencyStore *)
Record store := IdempotencyStore {
  max : nat;
  records : jsmap string record;
  has_file : bool;
  file : option (list record);
}.

Definition with_records (s : store) (m : jsmap string record) : store :=
  IdempotencyStore (max s) m (has_file s) (file s).

(** [write_ok]: whether this write of the temporary file and its rename
    succeed; when they fail the old file stays. *)
(* [src/backend/src/idempotency.js:70-87] _persist *)
Definition persist (write_ok : bool) (s : store) : store :=
  if has_file s && write_ok then
    IdempotencyStore (max s) (records s) (has_file s)
      (Some (slice_last (max s) (mvalues (records s))))
  else s.

(* [src/backend/src/idempotency.js:54-68] _restore, readable file *)
Definition restore_from (max : nat) (arr : list record) : jsmap string record :=
  foldl (λ m r, mset m (key r) r) [] (slice_last max arr).

(* [src/backend/src/idempotency.js:30-42] constructor *)
Definition create (max : nat) (has_file : bool) (disk : option (list record)) : store :=
  IdempotencyStore max
    (if has_file then from_option (restore_from max) [] disk else []) has_file disk.

(** The oldest COMPLETED/FAILED record: the first of least [updatedAt]. *)
(* [src/backend/src/idempotency.js:92-99] oldest terminal record *)
Fixpoint oldest_terminal (oldest : option (string * Z)) (m : jsmap string record)
    : option (string * Z) :=
  match m with
  | [] => oldest
  | (k, r) :: m' =>
      let better := terminal (state r) &&
        match oldest with None => true | Some (_, ts) => (updatedAt r <? ts)%Z end in
      oldest_terminal (if better then Some (k, updatedAt r) else oldest) m'
  end.

(** The record the next round of eviction removes. *)
(* [src/backend/src/idempotency.js:100-101] oldestKey *)
Definition victim (m : jsmap string record) : option string :=
  let k := match oldest_terminal None m with
           | Some (k, _) => if truthy_str k then Some k else mfirst m
           | None => mfirst m
           end in
  if truthy k then k else None.

Fixpoint evict (fuel max : nat) (m : jsmap string record) : jsmap string record :=
  match fuel with
  | O => m
  | S fuel' =>
      if decide (max < msize m) then
        match victim m with
        | Some k => evict fuel' max (mdelete m k)
        | None => m
        end
      else m
  end.

(** Every round removes a record, so [msize] rounds are enough. *)
(* [src/backend/src/idempotency.js:89-104] _evictIfNeeded *)
Definition evictIfNeeded (s : store) : store :=
  with_records s (evict (msize (records s)) (max s) (records s)).

(** [this.records.set(key, rec); this._evictIfNeeded(); this._persist();] *)
Definition put (w : bool) (s : store) (k : string) (r : record) : store :=
  persist w (evictIfNeeded (with_records s (mset (records s) k r))).

Record meta := Meta {
  m_state : option STATES;
  m_runId : option string;
  m_op : option string;
}.

Definition key_required : js_error := JsError None "idempotency key required".

(** [x || null] on an optional string. *)
Definition or_null (s : option string) : option string := if truthy s then s else None.

(* [src/backend/src/idempotency.js:111-128] begin *)
Definition begin (k : string) (mt : meta) (now : Z) (w : bool) (s : store)
    : res (store * (bool * record)) :=
  if truthy_str k then
    match mget (records s) k with
    | Some existing => Ok (s, (false, existing))
    | None =>
        let rec := Record_ k (default RUNNING (m_state mt)) None None
                     (or_null (m_runId mt)) (or_null (m_op mt)) (Some now) now in
        Ok (put w s k rec, (true, rec))
    end
  else Throw key_required.

(* [src/backend/src/idempotency.js:130-145] complete *)
Definition complete (k : string) (r : option R) (now : Z) (w : bool) (s : store)
    : store * option record :=
  let rec :=
    match mget (records s) k with
    | None => Record_ k COMPLETED r None None None (Some now) now
    | Some rec => Record_ (key rec) COMPLETED r None (runId rec) (op rec) (createdAt rec) now
    end in
  let s' := put w s k rec in
  (s', mget (records s') k).

(** [err]: the text of the error, cut to 500 characters. *)
(* [src/backend/src/idempotency.js:147-162] fail *)
Definition fail (k : string) (err : string) (now : Z) (w : bool) (s : store)
    : store * option record :=
  let safe := String.substring 0 500 (if truthy_str err then err else "failed") in
  let rec :=
    match mget (records s) k with
    | None => Record_ k FAILED None (Some safe) None None (Some now) now
    | Some rec => Record_ (key rec) FAILED (result rec) (Some safe) (runId rec) (op rec)
                    (createdAt rec) now
    end in
  let s' := put w s k rec in
  (s', mget (records s') k).

(* [src/backend/src/idempotency.js:164-168] get *)
Definition get (k : string) (s : store) : option record := mget (records s) k.

(* [src/backend/src/idempotency.js:216-219] statusOf *)
Definition statusOf (k : string) (s : store) : STATES :=
  from_option state UNKNOWN (mget (records s) k).

(* [src/backend/src/idempotency.js:221-223] size *)
Definition size (s : store) : nat := msize (records s).

(* [src/backend/src/idempotency.js:225-228] clear *)
Definition clear (w : bool) (s : store) : store := persist w (with_records s []).

(** ** Eviction *)

Lemma oldest_terminal_spec o m :
  match oldest_terminal o m with
  | Some (k, ts) =>
      (o = Some (k, ts) ∨ ∃ r, (k, r) ∈ m ∧ terminal (state r) = true ∧ updatedAt r = ts) ∧
      (∀ k' r, (k', r) ∈ m → terminal (state r) = true → (ts ≤ updatedAt r)%Z) ∧
      (∀ k' ts', o = Some (k', ts') → (ts ≤ ts')%Z)
  | None => o = None ∧ ∀ k' r, (k', r) ∈ m → terminal (state r) = false
  end.
Proof.
  revert o. induction m as [|[k r] m IH]; intros o; simpl.
  - destruct o as [[k ts]|]; [|split; [done|by intros ?? ?%not_elem_of_nil]].
    split_and!; [by left|by intros ?? ?%not_elem_of_nil|intros; by simplify_eq].
  - destruct (terminal (state r)) eqn:Ht; simpl; [destruct o as [[ko to]|]; simpl|].
    + destruct (updatedAt r <? to)%Z eqn:E.
      * specialize (IH (Some (k, updatedAt r))). destruct (oldest_terminal _ m) as [[kv tv]|].
        -- destruct IH as (H1 & H2 & H3). pose proof (H3 _ _ eq_refl). split_and!.
           ++ destruct H1 as [[= <- <-]|(r' & ? & ? & ?)]; right; [exists r|exists r'];
                split_and!; try done; [by left|by right].
           ++ intros k' r' [[= -> ->]|Hin]%elem_of_cons; [done|eauto].
           ++ intros k' ts' [= -> ->]. lia.
        -- by destruct IH.
      * specialize (IH (Some (ko, to))). destruct (oldest_terminal _ m) as [[kv tv]|].
        -- destruct IH as (H1 & H2 & H3). pose proof (H3 _ _ eq_refl). split_and!.
           ++ destruct H1 as [?|(r' & ? & ? & ?)]; [by left|].
              right. exists r'. split_and!; try done. by right.
           ++ intros k' r' [[= -> ->]|Hin]%elem_of_cons; [lia|eauto].
           ++ done.
        -- by destruct IH.
    + specialize (IH (Some (k, updatedAt r))). destruct (oldest_terminal _ m) as [[kv tv]|].
      * destruct IH as (H1 & H2 & H3). pose proof (H3 _ _ eq_refl). split_and!; [| |done].
        -- destruct H1 as [[= <- <-]|(r' & ? & ? & ?)]; right; [exists r|exists r'];
             split_and!; try done; [by left|by right].
        -- intros k' r' [[= -> ->]|Hin]%elem_of_cons; [done|eauto].
      * by destruct IH.
    + specialize (IH o). destruct (oldest_terminal o m) as [[kv tv]|].
      * destruct IH as (H1 & H2 & H3). split_and!; [| |done].
        -- destruct H1 as [?|(r' & ? & ? & ?)]; [by left|].
           right. exists r'. split_and!; try done. by right.
        -- intros k' r' [[= -> ->]|Hin]%elem_of_cons; [congruence|eauto].
      * destruct IH as [-> H2]. split; [done|].
        intros k' r' [[= -> ->]|Hin]%elem_of_cons; [done|eauto].
Qed.

Definition keys_ok (m : jsmap string record) : Prop :=
  mwf m ∧ (∀ k r, mget m k = Some r → key r = k ∧ truthy_str k = true).

(** What a victim is: a terminal record no other terminal record is older than,
    or, when nothing is terminal, the record inserted first. *)
Lemma victim_spec m :
  keys_ok m → m ≠ [] →
  ∃ k r, victim m = Some k ∧ mget m k = Some r ∧
    ((terminal (state r) = true ∧
      ∀ k' r', mget m k' = Some r' → terminal (state r') = true →
               (updatedAt r ≤ updatedAt r')%Z) ∨
     (mfirst m = Some k ∧ ∀ k' r', mget m k' = Some r' → terminal (state r') = false)).
Proof.
  intros [Hwf Hk] Hm. unfold victim. pose proof (oldest_terminal_spec None m) as Ho.
  destruct (oldest_terminal None m) as [[k ts]|].
  - destruct Ho as ([?|(r & Hin & Ht & <-)] & Hmin & _); [done|].
    apply elem_mget in Hin; [|done]. exists k, r. destruct (Hk _ _ Hin) as [_ Htr].
    rewrite Htr. simpl. split_and!; [by destruct k|done|]. left. split; [done|].
    intros k' r' Hr'. apply (Hmin k'). by apply mget_elem.
  - destruct Ho as [_ Hnone]. destruct m as [|[k r] m]; [done|].
    assert (mget ((k, r) :: m) k = Some r) as Hin by (simpl; by rewrite decide_True).
    exists k, r. destruct (Hk _ _ Hin) as [_ Htr]. unfold mfirst; simpl head.
    split_and!; [by destruct k|done|]. right. split; [done|].
    intros k' r' ?%mget_elem. by eapply Hnone.
Qed.

Lemma keys_ok_set m k r :
  keys_ok m → key r = k → truthy_str k = true → keys_ok (mset m k r).
Proof.
  intros [Hwf Hk] Hr Ht. split; [auto with jsmap|]. intros k' r'. rewrite mget_set.
  case_decide; [naive_solver|apply Hk].
Qed.

Lemma keys_ok_delete m k : keys_ok m → keys_ok (mdelete m k).
Proof.
  intros [Hwf Hk]. split; [auto with jsmap|]. intros k' r'. rewrite mget_delete by done.
  case_decide; [done|apply Hk].
Qed.

(** One insertion into a store within its bound evicts at most one record. *)
Lemma evict_one fuel mx m :
  keys_ok m → 0 < mx → msize m ≤ S mx → 0 < fuel →
  evict fuel mx m =
  if decide (mx < msize m) then from_option (mdelete m) m (victim m) else m.
Proof.
  intros Hm Hmx Hs Hf. destruct fuel as [|fuel]; [lia|]. simpl. case_decide as Hd; [|done].
  destruct (victim_spec m Hm) as (k & r & -> & Hk & _);
    [intros ->; unfold msize in Hd; simpl in Hd; lia|]. simpl.
  assert (msize (mdelete m k) = mx) as Hsz.
  { pose proof (msize_delete m k ltac:(eauto)). lia. }
  destruct fuel as [|fuel]; simpl; [done|]. rewrite decide_False by lia. done.
Qed.

Lemma evict_fit mx m : msize m ≤ mx → evict (msize m) mx m = m.
Proof. intros H. destruct (msize m) eqn:E; simpl; [done|]. rewrite decide_False by lia. done. Qed.

Record store_ok (s : store) : Prop := {
  so_max : 0 < max s;
  so_keys : keys_ok (records s);
  so_size : msize (records s) ≤ max s;
}.

Lemma persist_records w s : records (persist w s) = records s ∧ max (persist w s) = max s.
Proof. unfold persist. by case_match. Qed.

Lemma put_max w s k r : max (put w s k r) = max s.
Proof. exact (proj2 (persist_records w _)). Qed.

(** The record a write of [k] evicts, if any. *)
Lemma put_spec (s : store) k r w :
  store_ok s → key r = k → truthy_str k = true →
  let s' := put w s k r in
  store_ok s' ∧
  (records s' = mset (records s) k r ∨
   msize (records s) = max s ∧ mget (records s) k = None ∧
   ∃ v, victim (mset (records s) k r) = Some v ∧
        records s' = mdelete (mset (records s) k r) v).
Proof.
  intros [Hm Hk Hs] Hr Ht s'.
  pose proof (keys_ok_set _ k r Hk Hr Ht) as Hk'.
  pose proof (msize_set_le (records s) k r) as Hle.
  assert (records s' = evict (msize (mset (records s) k r)) (max s) (mset (records s) k r))
    as E1 by exact (proj1 (persist_records w _)).
  assert (max s' = max s) as E2 by exact (proj2 (persist_records w _)).
  assert (0 < msize (mset (records s) k r)) as Hpos.
  { assert (is_Some (mget (mset (records s) k r) k)) as Hi by (rewrite mget_set_eq; eauto).
    pose proof (msize_delete _ _ Hi). lia. }
  rewrite (evict_one _ (max s)) in E1 by (done || lia).
  destruct (decide (max s < msize (mset (records s) k r))) as [Hd|Hd].
  - destruct (victim_spec _ Hk') as (v & rv & Hv & Hrv & _);
      [intros E; rewrite E in Hpos; unfold msize in Hpos; simpl in Hpos; lia|].
    rewrite Hv in E1. simpl in E1.
    pose proof (msize_delete (mset (records s) k r) v ltac:(eauto)) as Hsz.
    split.
    + split; [by rewrite E2| |].
      * rewrite E1. by apply keys_ok_delete.
      * rewrite E1, E2. lia.
    + right. split_and!; [lia| |by exists v].
      destruct (mget (records s) k) eqn:E; [|done].
      rewrite msize_set_old in Hd by eauto. lia.
  - split; [|by left]. split; [by rewrite E2|by rewrite E1|]. rewrite E1, E2. lia.
Qed.

(** ** Sequences of calls

    The calls the executor and the controller make. [clear] is not among them: it
    has no caller, and forgets every key ([clear_forgets]). *)

Inductive call :=
| CBegin (k : string) (mt : meta) (now : Z) (w : bool)
| CComplete (k : string) (r : option R) (now : Z) (w : bool)
| CFail (k err : string) (now : Z) (w : bool).

Definition call_key (c : call) : string :=
  match c with CBegin k _ _ _ | CComplete k _ _ _ | CFail k _ _ _ => k end.

Definition call_written (c : call) : bool :=
  match c with CBegin _ _ _ w | CComplete _ _ _ w | CFail _ _ _ w => w end.

Definition step (s : store) (c : call) : store :=
  match c with
  | CBegin k mt now w => match begin k mt now w s with Ok (s', _) => s' | Throw _ => s end
  | CComplete k r now w => (complete k r now w s).1
  | CFail k err now w => (fail k err now w s).1
  end.

(** Every call that changes the store puts one record and evicts. *)
Lemma step_put s c :
  store_ok s → truthy_str (call_key c) = true →
  (∃ r, key r = call_key c ∧ step s c = put (call_written c) s (call_key c) r) ∨
  (∃ k mt now w, c = CBegin k mt now w ∧ is_Some (mget (records s) k) ∧ step s c = s).
Proof.
  intros [_ [_ Hk] _] Ht. destruct c as [k mt now w|k r now w|k e now w]; simpl in *.
  - unfold begin. rewrite Ht. destruct (mget (records s) k) as [r|] eqn:E.
    + right. by exists k, mt, now, w.
    + left. by eexists; split; [|done].
  - left. eexists; split; [|done]. destruct (mget (records s) k) as [r0|] eqn:E; [|done].
    by apply Hk in E as [].
  - left. eexists; split; [|done]. destruct (mget (records s) k) as [r0|] eqn:E; [|done].
    by apply Hk in E as [].
Qed.

Lemma step_ok s c :
  truthy_str (call_key c) = true → store_ok s → store_ok (step s c).
Proof.
  intros Ht Hs. destruct (step_put s c Hs Ht) as [(r & Hr & ->)|(k & mt & now & w & _ & _ & ->)];
    [|done]. by apply put_spec.
Qed.

Lemma create_ok mx hf :
  0 < mx → store_ok (create mx hf None).
Proof.
  intros. unfold create. split; simpl; [done|destruct hf; split; [apply mwf_nil|done|apply mwf_nil|done]
    |destruct hf; unfold msize; simpl; lia].
Qed.

Lemma step_max s c : max (step s c) = max s.
Proof.
  destruct c; simpl; [unfold begin|by rewrite put_max..].
  repeat case_match; simplify_eq; rewrite ?put_max; done.
Qed.

Definition calls_ok (cs : list call) : Prop :=
  Forall (λ c, truthy_str (call_key c) = true) cs.

Lemma run_ok s cs : store_ok s → calls_ok cs → store_ok (run step s cs).
Proof. intros Hs Hcs. apply (run_invariant step store_ok _ s cs (λ s c H T, step_ok s c T H) Hs Hcs). Qed.

(** The store never holds more than its bound, and what it forgets is
    chosen as documented.  A call that loses the record of another key was a
    write of a new key to a full store; a terminal record it loses is one that
    no remaining terminal record of another key is older than; and a record
    that is still running is lost only when every other record is running
    too. *)
Theorem eviction_policy mx hf cs c k0 r0 :
  0 < mx → calls_ok (cs ++ [c]) →
  let s := run step (create mx hf None) cs in
  let s' := step s c in
  msize (records s') ≤ mx ∧
  (mget (records s) k0 = Some r0 → k0 ≠ call_key c → mget (records s') k0 = None →
   msize (records s) = mx ∧ mget (records s) (call_key c) = None ∧
   (terminal (state r0) = true → ∀ k r, mget (records s') k = Some r → k ≠ call_key c →
      terminal (state r) = true → (updatedAt r0 ≤ updatedAt r)%Z) ∧
   (terminal (state r0) = false → ∀ k r, mget (records s') k = Some r →
      terminal (state r) = false)).
Proof.
  intros Hmx [Hcs Hc]%Forall_app s s'. rewrite Forall_singleton in Hc.
  assert (store_ok s) as Hs by (apply run_ok; [by apply create_ok|done]).
  assert (max s = mx ∧ max s' = mx) as [E E'].
  { assert (max s = mx) as E; [|by rewrite <- E; unfold s'; rewrite step_max].
    unfold s. apply (run_invariant_all step (λ s, max s = mx)); [|done].
    intros s1 c1 <-. apply step_max. }
  pose proof (step_ok s c Hc Hs) as Hs'. split; [by rewrite <- E'; apply Hs'|].
  intros Hk0 Hne Hlost. unfold s' in *.
  destruct (step_put s c Hs Hc) as [(r & Hr & Heq)|(k & mt & now & w & _ & _ & Heq)].
  2: { rewrite Heq, Hk0 in Hlost. done. }
  rewrite Heq in *. destruct (put_spec s (call_key c) r (call_written c) Hs Hr Hc)
    as [_ [Hrec|(Hfull & Hnew & v & Hv & Hrec)]].
  { rewrite Hrec, mget_set_ne in Hlost by done. congruence. }
  rewrite Hrec in Hlost |- *.
  pose proof (keys_ok_set _ (call_key c) r (so_keys s Hs) Hr Hc) as Hk'.
  assert (v = k0) as ->.
  { destruct (decide (v = k0)); [done|]. rewrite mget_delete_ne, mget_set_ne in Hlost by done.
    congruence. }
  destruct (victim_spec _ Hk') as (k1 & r1 & Hv1 & Hr1 & Hcase).
  { intros En. rewrite En in Hv. done. }
  rewrite Hv in Hv1. injection Hv1 as <-. rewrite mget_set_ne, Hk0 in Hr1 by done.
  injection Hr1 as <-. split_and!; [congruence|done| |].
  - intros Ht k r' Hr' Hkc Ht'. rewrite mget_delete in Hr' by apply Hk'.
    destruct (decide (k0 = k)); [done|].
    destruct Hcase as [[_ Hmin]|[_ Hno]]; [by apply (Hmin k)|].
    specialize (Hno k0 r0). rewrite mget_set_ne in Hno by done. rewrite Hno in Ht; done.
  - intros Ht k r' Hr'. rewrite mget_delete in Hr' by apply Hk'.
    destruct (decide (k0 = k)); [done|].
    destruct Hcase as [[Ht' _]|[_ Hno]]; [congruence|by apply (Hno k)].
Qed.

(** ** Within its bound, the store is a table of outcomes *)

Definition outcome : Type := STATES * option R * option string.
Definition outcome_of (r : record) : outcome := (state r, result r, error r).

Definition error_text (err : string) : string :=
  String.substring 0 500 (if truthy_str err then err else "failed").

(** The specification: what one call means for the outcome recorded at [k]. *)
Definition spec_step (k : string) (o : option outcome) (c : call) : option outcome :=
  if decide (call_key c = k) then
    match c, o with
    | CBegin _ mt _ _, None => Some (default RUNNING (m_state mt), None, None)
    | CBegin _ _ _ _, Some o => Some o
    | CComplete _ r _ _, _ => Some (COMPLETED, r, None)
    | CFail _ err _ _, None => Some (FAILED, None, Some (error_text err))
    | CFail _ err _ _, Some (_, r, _) => Some (FAILED, r, Some (error_text err))
    end
  else o.

Definition fits (U : list string) (s : store) : Prop :=
  length U ≤ max s ∧ ∀ k, k ∈ mkeys (records s) → k ∈ U.

Lemma put_fits U s k r w :
  store_ok s → fits U s → key r = k → truthy_str k = true → k ∈ U →
  records (put w s k r) = mset (records s) k r ∧ fits U (put w s k r).
Proof.
  intros Hs [HU Hk] Hr Ht Hin. destruct (put_spec s k r w Hs Hr Ht) as [_ Hcase].
  pose proof (put_max w s k r) as E.
  assert (records (put w s k r) = mset (records s) k r) as Hrec.
  { destruct Hcase as [?|(Hfull & Hnew & _)]; [done|exfalso].
    assert (msize (mset (records s) k r) ≤ length U) as Hb.
    { apply msize_bound; [apply mwf_set, Hs|].
      intros k'. rewrite elem_mkeys_set. naive_solver. }
    rewrite msize_set_new in Hb by done. lia. }
  split; [done|]. split; [by rewrite E|]. rewrite Hrec. intros k'.
  rewrite elem_mkeys_set. naive_solver.
Qed.

Lemma step_spec U s c :
  store_ok s → fits U s → truthy_str (call_key c) = true → call_key c ∈ U →
  fits U (step s c) ∧
  ∀ k, outcome_of <$> mget (records (step s c)) k =
       spec_step k (outcome_of <$> mget (records s) k) c.
Proof.
  intros Hs Hf Ht Hin. pose proof (so_keys s Hs) as [_ Hk]. unfold spec_step.
  destruct c as [k0 mt now w|k0 r now w|k0 e now w]; simpl in *.
  - unfold begin. rewrite Ht. destruct (mget (records s) k0) as [r|] eqn:E.
    + split; [done|]. intros k. case_decide; [|done]. subst. by rewrite E.
    + destruct (put_fits U s k0 (Record_ k0 (default RUNNING (m_state mt)) None None
        (or_null (m_runId mt)) (or_null (m_op mt)) (Some now) now) w Hs Hf eq_refl Ht Hin)
        as [Hrec Hf']. split; [done|]. intros k. rewrite Hrec, mget_set.
      case_decide; subst; [by rewrite E|done].
  - match goal with |- context [put w s k0 ?r] => destruct (put_fits U s k0 r w Hs Hf)
      as [Hrec Hf']; [|done|done|] end.
    { destruct (mget (records s) k0) as [r0|] eqn:E; [|done]. by apply Hk in E as []. }
    split; [done|]. intros k. rewrite Hrec, mget_set. case_decide; [|done]. subst.
    by destruct (mget (records s) k).
  - match goal with |- context [put w s k0 ?r] => destruct (put_fits U s k0 r w Hs Hf)
      as [Hrec Hf']; [|done|done|] end.
    { destruct (mget (records s) k0) as [r0|] eqn:E; [|done]. by apply Hk in E as []. }
    split; [done|]. intros k. rewrite Hrec, mget_set. case_decide; [|done]. subst.
    by destruct (mget (records s) k).
Qed.

Lemma run_spec U s cs :
  store_ok s → fits U s → calls_ok cs → Forall (λ c, call_key c ∈ U) cs →
  fits U (run step s cs) ∧
  ∀ k, outcome_of <$> mget (records (run step s cs)) k =
       foldl (spec_step k) (outcome_of <$> mget (records s) k) cs.
Proof.
  intros Hs Hf Hcs HU. revert s Hs Hf. induction cs as [|c cs IH]; intros s Hs Hf; simpl; [done|].
  apply Forall_cons in Hcs as [Hc Hcs]. apply Forall_cons in HU as [HcU HU].
  destruct (step_spec U s c Hs Hf Hc HcU) as [Hf' Hsp].
  destruct (IH Hcs HU (step s c)) as [IH1 IH2]; [by apply step_ok|done|].
  split; [done|]. intros k. by rewrite IH2, Hsp.
Qed.

Lemma spec_some k cs o : is_Some o → is_Some (foldl (spec_step k) o cs).
Proof.
  revert o. induction cs as [|c cs IH]; intros o [x ->]; simpl; [eauto|]. apply IH.
  unfold spec_step. case_decide; [|eauto]. destruct c, x as [[??]?]; eauto.
Qed.

Lemma clear_forgets w s k : mget (records (clear w s)) k = None.
Proof. unfold clear, persist. by repeat case_match. Qed.

(** C28: no operation is started twice, and a retry sees the recorded outcome.
    While the keys in use fit the store, once [begin k] has answered fresh,
    every later [begin k], after any [begin], [complete] and [fail] by any clients
    (of [clear], which nothing calls, none), answers not fresh,
    changes nothing, and returns the record whose state, result and error are
    those of the last [complete] or [fail] of [k]; an unknown or empty key
    never counts as begun. *)
Theorem idempotent_replay mx hf U cs cs' k mt now w s1 rec :
  0 < mx → length U ≤ mx → calls_ok (cs ++ cs') →
  Forall (λ c, call_key c ∈ U) (cs ++ cs') → k ∈ U →
  begin k mt now w (run step (create mx hf None) cs) = Ok (s1, (true, rec)) →
  let s2 := run step s1 cs' in
  (∀ mt' now' w', ∃ rec',
     begin k mt' now' w' s2 = Ok (s2, (false, rec')) ∧
     Some (outcome_of rec') = foldl (spec_step k) (Some (outcome_of rec)) cs') ∧
  (∀ mt' now' w', begin "" mt' now' w' s2 = Throw key_required).
Proof.
  intros Hmx HU [Hc Hc']%Forall_app [Hu Hu']%Forall_app Hk Hb s2.
  pose proof (create_ok mx hf Hmx) as H0.
  assert (fits U (create mx hf None)) as Hf0.
  { split; [done|]. destruct hf; simpl; by intros ? ?%not_elem_of_nil. }
  destruct (run_spec U _ cs H0 Hf0 Hc Hu) as [Hf _].
  pose proof (run_ok _ cs H0 Hc) as Hs. set (s := run step (create mx hf None) cs) in *.
  assert (truthy_str k = true) as Ht.
  { unfold begin in Hb. by destruct (truthy_str k). }
  assert (step s (CBegin k mt now w) = s1) as Es by (simpl; by rewrite Hb).
  destruct (step_spec U s (CBegin k mt now w) Hs Hf Ht Hk) as [Hf1 _].
  pose proof (step_ok s (CBegin k mt now w) Ht Hs) as Hs1. rewrite Es in Hf1, Hs1.
  assert (mget (records s1) k = Some rec) as Hrec.
  { unfold begin in Hb. rewrite Ht in Hb. destruct (mget (records s) k) eqn:E; [done|].
    injection Hb as <- <-. match goal with |- context [put w s k ?r] =>
      rewrite (proj1 (put_fits U s k r w Hs Hf eq_refl Ht Hk)) end. apply mget_set_eq. }
  destruct (run_spec U s1 cs' Hs1 Hf1 Hc' Hu') as [_ Hsp]. specialize (Hsp k).
  rewrite Hrec in Hsp. simpl in Hsp. fold s2 in Hsp. split; [|done].
  intros mt' now' w'. unfold begin. rewrite Ht.
  destruct (mget (records s2) k) as [rec'|] eqn:E; [by exists rec'|].
  destruct (spec_some k cs' (Some (outcome_of rec))) as [x Hx]; [eauto|].
  simpl in Hsp. congruence.
Qed.

(** ** Restart *)

Lemma restore_values mx m :
  keys_ok m → msize m ≤ mx → restore_from mx (mvalues m) = m.
Proof.
  intros [Hwf Hk] Hs. unfold restore_from.
  rewrite slice_last_all by (unfold mvalues; rewrite length_fmap; exact Hs). clear Hs.
  assert (∀ acc, (∀ k, k ∈ mkeys acc → k ∉ mkeys m) →
    foldl (λ m r, mset m (key r) r) acc (mvalues m) = acc ++ m) as Hgen; [|by apply Hgen; set_solver].
  revert Hwf Hk. induction m as [|[k r] m IH]; intros Hwf Hk acc Hacc; simpl; [by rewrite app_nil_r|].
  apply NoDup_cons in Hwf as [Hkm Hwf].
  destruct (Hk k r) as [Hkr _]; [simpl; by rewrite decide_True|]. rewrite Hkr.
  rewrite mset_new.
  - rewrite IH; [by rewrite <- app_assoc|done| |].
    + intros k' r' Hr'. apply (Hk k'). simpl. rewrite decide_False; [done|].
      intros ->. apply Hkm, mget_Some_keys. eauto.
    + intros k'. unfold mkeys. rewrite fmap_app, elem_of_app. simpl.
      rewrite list_elem_of_singleton. intros [Hin| ->]; [|done].
      specialize (Hacc k' Hin). set_solver.
  - apply mget_None_keys. intros Hin. apply (Hacc k Hin). set_solver.
Qed.

Definition saved (s : store) : Prop :=
  has_file s = true ∧ file s = Some (mvalues (records s)).

Lemma put_saved (w : bool) s k r :
  store_ok s → key r = k → truthy_str k = true → has_file s = true →
  if w then saved (put w s k r) else has_file (put w s k r) = true ∧ file (put w s k r) = file s.
Proof.
  intros Hs Hr Ht Hf. destruct (put_spec s k r w Hs Hr Ht) as [[Hm Hk Hsz] _].
  destruct w; unfold put, persist in *; simpl in *; rewrite Hf in *; [|done].
  split; simpl; [done|]. f_equal. apply slice_last_all.
  unfold mvalues. rewrite length_fmap. exact Hsz.
Qed.

(** Restart.  After any calls whose file writes succeed, a store created
    over the same directory holds exactly the records of the one that stopped,
    in the same order, so an operation that was completed stays completed; and
    a write that fails leaves the file of the last successful write in
    place. *)
Theorem restart_restores mx cs :
  0 < mx → calls_ok cs → cs ≠ [] → Forall (λ c, call_written c = true) cs →
  (∀ c s, store_ok s → truthy_str (call_key c) = true → has_file s = true →
     call_written c = false → file (step s c) = file s) ∧
  let s := run step (create mx true None) cs in
  records (create mx true (file s)) = records s ∧
  ∀ k, get k (create mx true (file s)) = get k s.
Proof.
  intros Hmx Hcs Hne Hw. split.
  { intros c s Hs Ht Hf Hcw.
    destruct (step_put s c Hs Ht) as [(r & Hr & ->)|(? & ? & ? & ? & _ & _ & ->)]; [|done].
    pose proof (put_saved (call_written c) s (call_key c) r Hs Hr Ht Hf) as H.
    rewrite Hcw in H |- *. apply H. }
  intros s. assert (store_ok s) as Hs by (apply run_ok; [by apply create_ok|done]).
  assert (max s = mx) as Emx.
  { unfold s. apply (run_invariant_all step (λ s, max s = mx)); [|done].
    intros s1 c1 <-. apply step_max. }
  assert (has_file s = true ∧ (file s = Some (mvalues (records s)))) as [_ Hfile].
  { unfold s. clear s Hs Emx. induction cs as [|c cs IH] using rev_ind; [done|].
    rewrite run_app. simpl. apply Forall_app in Hcs as [Hcs Hc], Hw as [Hw Hwc].
    rewrite Forall_singleton in Hc. rewrite Forall_singleton in Hwc.
    assert (store_ok (run step (create mx true None) cs)) as Hs
      by (apply run_ok; [by apply create_ok|done]).
    destruct (step_put _ c Hs Hc) as [(r & Hr & Hst)|(k & mt & now & w & _ & [r Hk] & Hst)];
      rewrite Hst.
    - destruct (decide (cs = [])) as [->|Hcs'].
      + pose proof (put_saved (call_written c) _ (call_key c) r Hs Hr Hc eq_refl) as H.
        by rewrite Hwc in H |- *.
      + destruct (IH Hcs Hcs' Hw) as [Hf _].
        pose proof (put_saved (call_written c) _ (call_key c) r Hs Hr Hc Hf) as H.
        by rewrite Hwc in H |- *.
    - destruct (decide (cs = [])) as [->|Hcs']; [done|]. by apply IH. }
  assert (records (create mx true (file s)) = records s) as Hrec.
  { rewrite Hfile. simpl. apply restore_values; [apply Hs|]. rewrite <- Emx. apply Hs. }
  split; [done|]. intros k. unfold get. by rewrite Hrec.
Qed.

(** A completion can be lost.  When the store is full and nothing in it is
    terminal, [complete] of a key it has no record of evicts the record it
    just wrote: it returns nothing, the key reads as unknown, and a later
    [begin] of it starts the operation again. *)
Theorem completion_lost s k r now w :
  store_ok s → truthy_str k = true → msize (records s) = max s → mget (records s) k = None →
  (∀ k' r', mget (records s) k' = Some r' → terminal (state r') = false) →
  let (s', out) := complete k r now w s in
  out = None ∧ statusOf k s' = UNKNOWN ∧
  (∀ mt now' w', ∃ s'' rec, begin k mt now' w' s' = Ok (s'', (true, rec))).
Proof.
  intros Hs Ht Hfull Hnew Hrun. unfold complete. rewrite Hnew. simpl.
  set (rec := Record_ k COMPLETED r None None None (Some now) now).
  assert (mget (records (put w s k rec)) k = None) as Hlost.
  { destruct (put_spec s k rec w Hs eq_refl Ht) as [Hs' [Hrec|(_ & _ & v & Hv & ->)]].
    - pose proof (so_size _ Hs') as Hsz. fold (put w s k rec) in *.
      rewrite put_max, Hrec, msize_set_new in Hsz by done. lia.
    - pose proof (keys_ok_set _ k rec (so_keys s Hs) eq_refl Ht) as Hk'.
      destruct (victim_spec _ Hk') as (k1 & r1 & Hv1 & Hr1 & Hcase).
      { intros En. by rewrite En in Hv. }
      rewrite Hv in Hv1. injection Hv1 as <-.
      destruct Hcase as [[Htm _]|[_ Hno]].
      + rewrite mget_set in Hr1. case_decide; simplify_eq.
        * apply mget_delete_eq, Hk'.
        * rewrite (Hrun _ _ Hr1) in Htm. done.
      + specialize (Hno k rec). rewrite mget_set_eq in Hno. by specialize (Hno eq_refl). }
  split_and!; [done|unfold statusOf; by rewrite Hlost|].
  intros mt now' w'. unfold begin. rewrite Ht, Hlost. eauto.
Qed.
End Store.
Arguments record : clear implicits.
Arguments store : clear implicits.
Arguments call : clear implicits.

(** * RedisIdempotencyBackend *)

(** [JSON.stringify] and [JSON.parse] on records: parsing gives back what was
    written, and no record is written as the empty string. *)
Class RecordCodec (R : Type) := {
  enc : record R → string;
  dec : string → option (record R);
  dec_enc r : dec (enc r) = Some r;
  enc_nonempty r : enc r ≠ "";
}.

Section Backend.
Context {R : Type} `{RC : RecordCodec R}.
Context {S : Type} `{CL : CoordinatorLaws S}.
Context (prefix : string) (ttlMs : Z).

(* [src/backend/src/idempotency.js:240-240] _k *)
Definition bkey (k : string) : string := (prefix ++ k)%string.

(* [src/backend/src/idempotency.js:272-276] get *)
Definition r_get (now : Z) (k : string) (s : S) : S * option (record R) :=
  let (s1, raw) := c_get now (bkey k) s in
  (s1, match raw with Some (String _ _ as j) => dec j | _ => None end).

(* [src/backend/src/idempotency.js:242-255] begin *)
Definition r_begin (k : string) (mt : meta) (now : Z) (s : S)
    : S * (bool * option (record R)) :=
  let rec := Record_ k (default RUNNING (m_state mt)) None None
               (or_null (m_runId mt)) (or_null (m_op mt)) (Some now) now in
  let (s1, ok) := c_set now (bkey k) (enc rec) ttlMs true s in
  if ok : bool then (s1, (true, Some rec))
  else let (s2, r) := r_get now k s1 in (s2, (false, r)).

(** [(await this.get(key)) || { key }] *)
Definition existing_or_key (k : string) (r : option (record R)) (now : Z) : record R :=
  default (Record_ k RUNNING None None None None None now) r.

(* [src/backend/src/idempotency.js:257-262] complete *)
Definition r_complete (k : string) (r : option R) (now : Z) (s : S) : S * record R :=
  let (s1, e) := r_get now k s in
  let e := existing_or_key k e now in
  let rec := Record_ k COMPLETED r None (runId e) (op e) (createdAt e) now in
  ((c_set now (bkey k) (enc rec) ttlMs false s1).1, rec).

(* [src/backend/src/idempotency.js:264-270] fail *)
Definition r_fail (k err : string) (now : Z) (s : S) : S * record R :=
  let (s1, e) := r_get now k s in
  let e := existing_or_key k e now in
  let rec := Record_ k FAILED (result e) (Some (error_text err)) (runId e) (op e)
               (createdAt e) now in
  ((c_set now (bkey k) (enc rec) ttlMs false s1).1, rec).

Definition r_step (s : S) (c : call R) : S :=
  match c with
  | CBegin k mt now _ => (r_begin k mt now s).1
  | CComplete k r now _ => (r_complete k r now s).1
  | CFail k err now _ => (r_fail k err now s).1
  end.

Definition call_time (c : call R) : Z :=
  match c with CBegin _ _ now _ | CComplete _ _ now _ | CFail _ _ now _ => now end.

(** Calls made one after the other from [now] on, all before [deadline]. *)
Fixpoint until_deadline (now deadline : Z) (cs : list (call R)) : Prop :=
  match cs with
  | [] => True
  | c :: cs' => (now ≤ call_time c < deadline)%Z ∧ until_deadline (call_time c) deadline cs'
  end.

(** The backend holds [r] for [k] until [deadline] at least. *)
Definition holds (k : string) (now deadline : Z) (r : record R) (s : S) : Prop :=
  c_ok s ∧ ∀ t, (now ≤ t < deadline)%Z → live s t (bkey k) = Some (enc r).

Context (Httl : (0 < ttlMs)%Z).

Lemma bkey_ne k k' : k ≠ k' → bkey k ≠ bkey k'.
Proof. intros Hne E. apply Hne. by apply (inj (String.append prefix)). Qed.

Lemma r_get_holds k now t deadline r s :
  holds k now deadline r s → (now ≤ t < deadline)%Z →
  (r_get t k s).2 = Some r ∧ holds k t deadline r (r_get t k s).1.
Proof.
  intros [Hs Hl] Ht. unfold r_get.
  pose proof (get_result s t (bkey k)) as Hg. pose proof (get_ok s t (bkey k) Hs) as Hok.
  pose proof (get_live s t (bkey k)) as Hlv.
  destruct (c_get t (bkey k) s) as [s1 raw]; simpl in *. subst raw.
  rewrite (Hl t) by done. split.
  - pose proof (enc_nonempty r). destruct (enc r) eqn:E; [done|]. by rewrite <- E, dec_enc.
  - split; [done|]. intros t' Ht'. rewrite Hlv by (done || lia). apply Hl. lia.
Qed.

Lemma r_get_frame k k' now t deadline r s :
  holds k now deadline r s → (now ≤ t)%Z → holds k t deadline r (r_get t k' s).1.
Proof.
  intros [Hs Hl] Ht. unfold r_get. pose proof (get_ok s t (bkey k') Hs) as Hok.
  pose proof (get_live s t (bkey k')) as Hlv.
  destruct (c_get t (bkey k') s) as [s1 raw]; simpl in *. split; [done|].
  intros t' Ht'. rewrite Hlv by (done || lia). apply Hl. lia.
Qed.

(** An overwrite of [k] itself keeps it held; any write of another key does. *)
Lemma set_holds k now t deadline r s v nx k' :
  (0 ≤ now ≤ t)%Z → (t < deadline)%Z → (deadline ≤ t + ttlMs)%Z → holds k now deadline r s →
  holds k t deadline
    (if decide (k = k') then if nx : bool then r else v else r)
    (c_set t (bkey k') (enc v) ttlMs nx s).1.
Proof.
  intros Hn Hd Hdt [Hs Hl]. split; [by apply set_ok|]. intros t' Ht'.
  rewrite set_live by (done || lia). rewrite set_result.
  destruct (decide (k = k')) as [->|Hne].
  - destruct nx; simpl.
    + rewrite (Hl t), bool_decide_false by (done || lia). rewrite decide_False by naive_solver.
      apply Hl. lia.
    + rewrite decide_True, decide_True by (done || lia). done.
  - rewrite decide_False; [apply Hl; lia|]. intros [E _]. by apply (bkey_ne k' k).
Qed.

Lemma r_step_holds k c now deadline r s :
  (0 ≤ now ≤ call_time c)%Z → (call_time c < deadline ≤ call_time c + ttlMs)%Z →
  holds k now deadline r s →
  ∃ r', holds k (call_time c) deadline r' (r_step s c) ∧
        Some (outcome_of r') = spec_step k (Some (outcome_of r)) c.
Proof.
  intros Hn Hd Hh. unfold spec_step.
  destruct c as [k' mt t w|k' res t w|k' e t w]; simpl in *.
  - exists r. split; [|by case_decide].
    unfold r_begin. match goal with |- context [c_set t (bkey k') (enc ?v) ttlMs true s] =>
      pose proof (set_holds k now t deadline r s v true k') as H0 end.
    destruct (c_set _ _ _ _ _ _) as [s1 ok]; simpl in *.
    assert (holds k t deadline r s1) as H1.
    { specialize (H0 ltac:(lia) ltac:(lia) ltac:(lia) Hh). by destruct (decide (k = k')). }
    destruct ok; simpl; [done|].
    pose proof (r_get_frame k k' t t deadline r s1 H1 ltac:(lia)).
    by destruct (r_get t k' s1).
  - unfold r_complete. pose proof (r_get_frame k k' now t deadline r s Hh ltac:(lia)) as H1.
    destruct (r_get t k' s) as [s1 e]; simpl in *.
    eexists. split; [apply (set_holds k t t deadline r s1 _ false k'); done || lia|].
    rewrite (decide_ext (k = k') (k' = k)) by done. by case_decide.
  - unfold r_fail. pose proof (r_get_frame k k' now t deadline r s Hh ltac:(lia)) as H1.
    destruct (decide (k = k')) as [->|Hne].
    + pose proof (r_get_holds k' now t deadline r s Hh ltac:(lia)) as [He _].
      destruct (r_get t k' s) as [s1 e0]; simpl in *. subst e0.
      eexists. split; [apply (set_holds k' t t deadline r s1 _ false k'); done || lia|].
      by rewrite !decide_True by done.
    + destruct (r_get t k' s) as [s1 e0]; simpl in *.
      eexists. split; [apply (set_holds k t t deadline r s1 _ false k'); done || lia|].
      by rewrite !decide_False by done.
Qed.

Lemma r_run_holds k cs now deadline r s :
  (0 ≤ now < deadline)%Z → (deadline ≤ now + ttlMs)%Z → until_deadline now deadline cs →
  holds k now deadline r s →
  ∃ now' r', (now ≤ now' < deadline)%Z ∧ holds k now' deadline r' (run r_step s cs) ∧
    (∀ t, until_deadline now deadline (cs ++ [CBegin k (Meta None None None) t true]) →
          (now' ≤ t)%Z) ∧
    Some (outcome_of r') = foldl (spec_step k) (Some (outcome_of r)) cs.
Proof.
  revert now r s. induction cs as [|c cs IH]; intros now r s Hn Hd Hcs Hh; simpl.
  - exists now, r. split; [lia|]. split; [done|]. split; [intros t [? _]; lia|done].
  - destruct Hcs as [Hc Hcs].
    destruct (r_step_holds k c now deadline r s) as (r1 & Hh1 & E1); [lia|lia|done|].
    destruct (IH (call_time c) r1 (r_step s c)) as (now' & r' & Hn' & Hh' & Hlast & E');
      [lia|lia|done|done|].
    exists now', r'. split; [lia|]. split; [done|]. split; [|by rewrite E', E1].
    intros t [_ Ht]. by apply Hlast.
Qed.

(** One winner across instances.  When [begin] of a key succeeds on the
    shared backend at [t0], then for the backend's time to live, whatever calls
    any instances make for this and other keys, a [begin] of that key is not
    fresh and returns a record with the outcome of the key's last [complete]
    or [fail]. *)
Theorem redis_single_winner k mt t0 s s1 rec cs mt' t :
  c_ok s → (0 ≤ t0)%Z →
  r_begin k mt t0 s = (s1, (true, rec)) →
  until_deadline t0 (t0 + ttlMs) (cs ++ [CBegin k (Meta None None None) t true]) →
  ∃ s3 rec', r_begin k mt' t (run r_step s1 cs) = (s3, (false, Some rec')) ∧
    Some (outcome_of rec') = foldl (spec_step k) (outcome_of <$> rec) cs.
Proof.
  intros Hs Ht0 Hb Hcs.
  assert (∃ r, rec = Some r ∧ holds k t0 (t0 + ttlMs) r s1) as (r & -> & Hh).
  { revert Hb. unfold r_begin. match goal with |- context [enc ?v] => set (r0 := v) end.
    pose proof (set_ok s t0 (bkey k) (enc r0) ttlMs true Hs) as H1.
    pose proof (λ t' H, set_live s t0 (bkey k) (enc r0) ttlMs true t' (bkey k) Hs Httl H) as H2.
    destruct (c_set _ _ _ _ _ _) as [s' ok]; simpl in *. destruct ok; [|by destruct (r_get _ _ _)].
    intros [= -> <-]. exists r0. split; [done|]. split; [done|].
    intros t' Ht'. rewrite H2, decide_True, decide_True by (done || lia). done. }
  assert (until_deadline t0 (t0 + ttlMs) cs ∧ (t < t0 + ttlMs)%Z) as [Hcs' Ht].
  { clear - Hcs. revert Hcs. generalize (t0 + ttlMs)%Z as d. generalize t0 as n.
    induction cs as [|c cs IH]; simpl; intros n d; [lia|]. intros [? H]. apply IH in H. tauto. }
  destruct (r_run_holds k cs t0 (t0 + ttlMs) r s1) as (now' & r' & Hn & Hh' & Hlast & E);
    [lia|lia|done|done|].
  specialize (Hlast t Hcs). destruct Hh' as [Hok Hl].
  unfold r_begin. match goal with |- context [enc ?v] => set (r0 := v) end.
  pose proof (set_ok _ t (bkey k) (enc r0) ttlMs true Hok) as H1.
  pose proof (set_result (run r_step s1 cs) t (bkey k) (enc r0) ttlMs true) as H2.
  pose proof (λ t' H, set_live _ t (bkey k) (enc r0) ttlMs true t' (bkey k) Hok Httl H) as H3.
  rewrite (Hl t), bool_decide_false in H2 by (done || lia). simpl in H2.
  destruct (c_set _ _ _ _ _ _) as [s2 ok]; simpl in *. subst ok.
  assert (holds k t (t0 + ttlMs) r' s2) as Hh2.
  { split; [done|]. intros t' Ht'. rewrite H3, decide_False by (naive_solver lia).
    apply Hl. lia. }
  pose proof (r_get_holds k t t (t0 + ttlMs) r' s2 Hh2 ltac:(lia)) as [Hg _].
  destruct (r_get t k s2) as [s3 g]; simpl in *. subst g. eauto.
Qed.
End Backend.

(** * Witnesses *)

Definition to_tuple (r : record unit) :=
  (key r, (match state r with PENDING => 0 | RUNNING => 1 | COMPLETED => 2 | FAILED => 3
           | UNKNOWN => 4 end), result r, error r, (runId r, op r, createdAt r, updatedAt r)).

Definition of_tuple (p : string * nat * option unit * option string *
    (option string * option string * option Z * Z)) : record unit :=
  let '(k, st, res, err, (ri, o, ca, ua)) := p in
  Record_ k (match st with 0 => PENDING | 1 => RUNNING | 2 => COMPLETED | 3 => FAILED
             | _ => UNKNOWN end) res err ri o ca ua.

(** A concrete codec: the record's code number, in decimal. *)
#[local] Program Instance unit_codec : RecordCodec unit := {|
  enc r := string_of_Z (Zpos (encode (to_tuple r)));
  dec s := n ← Z_of_string s; p ← decode (Z.to_pos n); Some (of_tuple p);
|}.
Next Obligation.
  intros r. simpl. rewrite Z_of_string_of_Z. simpl. rewrite decode_encode. simpl.
  by destruct r as [? []].
Qed.
Next Obligation.
  intros r E. simpl in E. apply (f_equal Z_of_string) in E.
  rewrite Z_of_string_of_Z in E. done.
Qed.

Lemma redis_single_winner_witness :
  let s1 := (r_begin "idem:" 1000 "op-1" (Meta None None None) 5
               (Memory.create false None)).1 in
  ∃ s3 rec', r_begin (R:=unit) "idem:" 1000 "op-1" (Meta None None None) 900
      (run (r_step "idem:" 1000) s1
         [CBegin "op-2" (Meta None None None) 10 true; CComplete "op-1" (Some tt) 20 true])
    = (s3, (false, Some rec')) ∧ state rec' = COMPLETED.
Proof.
  intros s1.
  destruct (redis_single_winner (R:=unit) "idem:" 1000 ltac:(lia) "op-1" (Meta None None None) 5
    (Memory.create false None) s1
    (Some (Record_ "op-1" RUNNING None None None None (Some 5%Z) 5))
    [CBegin "op-2" (Meta None None None) 10 true; CComplete "op-1" (Some tt) 20 true]
    (Meta None None None) 900) as (s3 & rec' & E & O).
  - apply mwf_nil.
  - lia.
  - reflexivity.
  - simpl. lia.
  - exists s3, rec'. split; [exact E|]. simpl in O. unfold spec_step in O. simpl in O.
    by injection O.
Defined.

Lemma eviction_policy_witness :
  let s := run step (create 2 false None)
    [CBegin "a" (Meta None None None) 1 true; CComplete "a" (Some 7) 2 true;
     CBegin "b" (Meta None None None) 3 true] in
  let s' := step s (CBegin "c" (Meta None None None) 4 true) in
  msize (records s') ≤ 2 ∧ mget (records s') "a" = None ∧ is_Some (mget (records s') "b").
Proof.
  split; [|by vm_compute; eauto].
  refine (proj1 (eviction_policy (R:=nat) 2 false
    [CBegin "a" (Meta None None None) 1 true; CComplete "a" (Some 7) 2 true;
     CBegin "b" (Meta None None None) 3 true]
    (CBegin "c" (Meta None None None) 4 true) "a"
    (Record_ "a" COMPLETED (Some 7) None None None (Some 1%Z) 2) _ _)); [lia|by repeat constructor].
Defined.

Lemma idempotent_replay_witness :
  let s1 := match begin "op" (Meta None None None) 1 true (create 10 true None) with
            | Ok (s, _) => s | Throw _ => create 10 true None end in
  let s2 := run step s1 [CComplete "op" (Some 42) 2 true; CBegin "other" (Meta None None None) 3 true] in
  ∃ rec, begin "op" (Meta None None None) 4 true s2 = Ok (s2, (false, rec)) ∧
         state rec = COMPLETED ∧ result rec = Some 42.
Proof.
  intros s1 s2.
  destruct (idempotent_replay (R:=nat) 10 true ["op"; "other"]%string []
    [CComplete "op" (Some 42) 2 true; CBegin "other" (Meta None None None) 3 true]
    "op" (Meta None None None) 1 true s1
    (Record_ "op" RUNNING None None None None (Some 1%Z) 1)) as [H _].
  - lia.
  - simpl. lia.
  - by repeat constructor.
  - repeat constructor; set_solver.
  - set_solver.
  - reflexivity.
  - destruct (H (Meta None None None) 4%Z true) as (rec & E & O). exists rec.
    split; [exact E|]. vm_compute in O. destruct rec; by simplify_eq/=.
Defined.

Lemma restart_restores_witness :
  let s := run step (create 10 true None)
    [CBegin "op" (Meta None None None) 1 true; CComplete "op" (Some 42) 2 true] in
  get "op" (create 10 true (file s)) =
  Some (Record_ "op" COMPLETED (Some 42) None None None (Some 1%Z) 2).
Proof.
  intros s.
  destruct (restart_restores (R:=nat) 10
    [CBegin "op" (Meta None None None) 1 true; CComplete "op" (Some 42) 2 true]) as (_ & _ & H);
    [lia|by repeat constructor|done|by repeat constructor|].
  etransitivity; [exact (H "op"%string)|vm_compute; reflexivity].
Defined.

Lemma completion_lost_witness :
  let s := run step (create 1 false None) [CBegin "a" (Meta None None None) 1 true] in
  statusOf "b" (complete "b" (Some 7) 2 true s).1 = UNKNOWN.
Proof.
  intros s.
  pose proof (completion_lost (R:=nat) s "b" (Some 7) 2 true) as H.
  destruct (complete "b" (Some 7) 2 true s) as [s' out] eqn:E.
  refine (proj1 (proj2 (H _ eq_refl eq_refl eq_refl _))).
  - apply run_ok; [by apply create_ok; lia|by repeat constructor].
  - intros k r Hr. unfold s in Hr. simpl in Hr.
    case_decide; [injection Hr as <-; reflexivity|done].
Defined.
