(* ===== verification/Queue.v ===== *)
(** The in-process job queue: [BaseJobQueue] and [MemoryJobQueue] of
    backend/src/infrastructure/queue.js.

    Every uninterrupted segment of the code is one operation here: [enqueue]
    (and its waiting variants up to their first await), a run of [_drain], the
    continuation of a handler that succeeded or failed, the [finally] that
    follows it, a retry timer, a wait timeout, and the two halves of [close].
    [qstep] lets them interleave freely.  A handler's own execution is outside
    the model: it is the time between a job's start and its outcome.  Besides
    the code's fields the state carries what the event loop holds ([executing],
    [finalizing], [backoff], [scheduled]) and what clients observe
    ([started], [settled], [dropped], [accepted]). *)

From S2P Require Import Prelude JsMap JsValue.

Local Open Scope nat_scope.
Local Open Scope js_scope.

(* [src/backend/src/infrastructure/queue.js:49-53] constants *)
Definition DEFAULT_MAX_ATTEMPTS : nat := 3.
Definition DEFAULT_TIMEOUT_MS : Z := 120000.
(* [src/backend/src/infrastructure/queue.js:49-53] constants *)
Definition RETRY_BASE_MS : Z := 500.
(* [src/backend/src/infrastructure/queue.js:52-52] COMPLETED_KEY_TTL_MS *)
Definition COMPLETED_KEY_TTL_MS : Z := 10 * 60 * 1000.
(* [src/backend/src/infrastructure/queue.js:53-53] MAX_COMPLETED_KEYS *)
Definition MAX_COMPLETED_KEYS : nat := 2000.

(** How a job ended, for its waiters. *)
Inductive outcome := Succeeded | FailedWith (e : js_error).

#[export] Instance outcome_eq_dec : EqDecision outcome.
Proof. solve_decision. Defined.

(* [src/backend/src/infrastructure/queue.js:260-272] job *)
Record job := Job {
  id : string;
  type : string;
  runId : option string;
  idempotencyKey : option string;
  enqueuedAt : Z;
  attempts : nat;
  maxAttempts : nat;
  timeoutMs : Z;
  retryable : bool;
  dedupeCompleted : bool;
}.

#[export] Instance job_eta : Eta job := λ j,
  Job (id j) (type j) (runId j) (idempotencyKey j) (enqueuedAt j) (attempts j)
    (maxAttempts j) (timeoutMs j) (retryable j) (dedupeCompleted j).

#[export] Instance job_eq_dec : EqDecision job.
Proof. solve_decision. Defined.

(* [src/backend/src/infrastructure/queue.js:243-243] enqueue options *)
Record options := Options {
  o_type : string;
  o_runId : option string;
  o_idempotencyKey : option string;
  o_maxAttempts : nat;
  o_timeoutMs : Z;
  o_retryable : bool;
  o_dedupeCompleted : bool;
}.

(* [src/backend/src/infrastructure/queue.js:84-101] BaseJobQueue *)
Record queue := Queue {
  concurrency : nat;
  handlers : list string;
  running : nat;
  closed : bool;
  waiters : jsmap string unit;
  claimWaiters : jsmap string unit;
  settledCache : jsmap string outcome;
  inflightKeys : jsmap string string;
  completedKeys : jsmap string Z;
  processed : nat;
  failed : nat;
  retried : nat;
  duplicates : nat;
  deadLetter : nat;
  pending : list job;
  (* the event loop *)
  executing : list job;
  finalizing : nat;
  backoff : list (job * js_error);
  scheduled : nat;
  (* observations *)
  accepted : list job;
  started : list string;
  settled : list (string * outcome);
  dropped : list string;
}.

#[export] Instance queue_eta : Eta queue := λ q,
  Queue (concurrency q) (handlers q) (running q) (closed q) (waiters q) (claimWaiters q)
    (settledCache q) (inflightKeys q) (completedKeys q) (processed q) (failed q)
    (retried q) (duplicates q) (deadLetter q) (pending q) (executing q) (finalizing q)
    (backoff q) (scheduled q) (accepted q) (started q) (settled q) (dropped q).

(* [src/backend/src/infrastructure/queue.js:365-371] constructor *)
Definition create (concurrency : nat) (handlers : list string) : queue :=
  Queue (Nat.max 1 (if decide (concurrency = 0) then 4 else concurrency)) handlers
    0 false [] [] [] [] [] 0 0 0 0 0 [] [] 0 [] 0 [] [] [] [].

(* [src/backend/src/infrastructure/queue.js:103-106] on *)
Definition on (type : string) (q : queue) : queue :=
  if decide (type ∈ handlers q) then q else q <| handlers ::= λ hs, hs ++ [type] |>.

(** Drop the oldest entry of a map that outgrew its bound. *)
(* [src/backend/src/infrastructure/queue.js:111-114] oldest eviction *)
Definition bounded {V} (max : nat) (m : jsmap string V) : jsmap string V :=
  if decide (max < msize m)
  then match mfirst m with Some k0 => mdelete m k0 | None => m end else m.

(* [src/backend/src/infrastructure/queue.js:108-115] _rememberCompleted *)
Definition rememberCompleted (key : option string) (now : Z) (q : queue) : queue :=
  q <| completedKeys ::= λ m,
    match key with
    | Some (String _ _ as k) => bounded MAX_COMPLETED_KEYS (mset m k now)
    | _ => m
    end |>.

(* [src/backend/src/infrastructure/queue.js:117-126] _recentlyCompleted *)
Definition recentlyCompleted (key : string) (now : Z) (q : queue) : queue * bool :=
  let recent := match mget (completedKeys q) key with
                | None => false
                | Some at_ => bool_decide (now - at_ ≤ COMPLETED_KEY_TTL_MS)%Z
                end in
  (q <| completedKeys ::= λ m, if recent : bool then m else mdelete m key |>, recent).

(* [src/backend/src/infrastructure/queue.js:128-130] _releaseKey *)
Definition releaseKey (j : job) (q : queue) : queue :=
  q <| inflightKeys ::= λ m,
    match idempotencyKey j with Some (String _ _ as k) => mdelete m k | _ => m end |>.

(* [src/backend/src/infrastructure/queue.js:177-200] _settleWaiter *)
Definition settleWaiter (j : job) (o : outcome) (q : queue) : queue :=
  let waited := mhas (waiters q) (id j) in
  q <| waiters ::= λ m, if waited then mdelete m (id j) else m |>
    <| settledCache ::= λ m, if waited then m else bounded 500 (mset m (id j) o) |>
    <| claimWaiters ::= λ m, mdelete m (id j) |>
    <| settled ::= λ l, l ++ [(id j, o)] |>.

(* [src/backend/src/infrastructure/queue.js:202-208] _notifyClaim *)
Definition notifyClaim (j : job) (q : queue) : queue :=
  q <| claimWaiters ::= λ m, mdelete m (id j) |>.

(* [src/backend/src/infrastructure/queue.js:210-218] _afterSuccess *)
Definition afterSuccess (j : job) (now : Z) (q : queue) : queue :=
  let q := releaseKey j (q <| processed ::= S |>) in
  let q := rememberCompleted (if dedupeCompleted j then idempotencyKey j else None) now q in
  settleWaiter j Succeeded q.

(** Errors a retry cannot help. *)
(* [src/backend/src/infrastructure/queue.js:226-226] non-retryable error codes *)
Definition final_codes : list string :=
  ["terminal"; "not_found"; "busy"; "bad_params"; "denied"]%string.

(* [src/backend/src/infrastructure/queue.js:226-226] retryable *)
Definition can_retry (j : job) (e : js_error) : bool :=
  retryable j &&
  match err_code e with Some c => negb (bool_decide (c ∈ final_codes)) | None => true end.

(** [Math.max(1, Number(job.maxAttempts) || 1)] *)
(* [src/backend/src/infrastructure/queue.js:225-225] max *)
Definition max_attempts (j : job) : nat := Nat.max 1 (maxAttempts j).

(* [src/backend/src/infrastructure/queue.js:229-229] retry delay *)
Definition retry_delay (attempts : nat) : Z :=
  Z.min 30000 (RETRY_BASE_MS * 2 ^ Z.of_nat (attempts - 1)).

(** The job is requeued by a timer ([backoff]) or settled. *)
(* [src/backend/src/infrastructure/queue.js:222-241] _afterFailure *)
Definition afterFailure (j : job) (e : js_error) (q : queue) : queue :=
  let j := j <| attempts ::= S |> in
  let r := can_retry j e in
  if r && bool_decide (attempts j < max_attempts j) && negb (closed q) then
    q <| retried ::= S |> <| backoff ::= λ l, l ++ [(j, e)] |>
  else
    let dead := r && bool_decide (max_attempts j ≤ attempts j) in
    let q := q <| failed ::= S |> <| deadLetter ::= λ n, if dead then S n else n |> in
    settleWaiter j (FailedWith e) (releaseKey j q).

Inductive norm :=
| Duplicate (jobId : option string) (completed : bool)
| Fresh (j : job).

Definition bad_type : js_error := JsError (Some "bad_params"%string) "job type is required".

(** [newId] is the random id the call draws. *)
(* [src/backend/src/infrastructure/queue.js:243-275] _normalizeEnqueue *)
Definition normalizeEnqueue (o : options) (newId : string) (now : Z) (q : queue)
    : res (queue * norm) :=
  if truthy_str (o_type o) then
    let j := Job newId (o_type o) (o_runId o) (o_idempotencyKey o) now 0 (o_maxAttempts o)
               (o_timeoutMs o) (o_retryable o) (o_dedupeCompleted o) in
    match o_idempotencyKey o with
    | Some (String _ _ as k) =>
        match mget (inflightKeys q) k with
        | Some inflight =>
            Ok (q <| duplicates ::= S |>, Duplicate (Some inflight) false)
        | None =>
            let (q, recent) := if o_dedupeCompleted o then recentlyCompleted k now q
                               else (q, false) in
            if recent : bool then Ok (q <| duplicates ::= S |>, Duplicate None true)
            else Ok (q <| inflightKeys ::= λ m, mset m k newId |>, Fresh j)
        end
    | _ => Ok (q, Fresh j)
    end
  else Throw bad_type.

(** [this.pending.push(job); setImmediate(() => this._drain())] *)
Definition push (j : job) (q : queue) : queue :=
  q <| pending ::= λ l, l ++ [j] |> <| scheduled ::= S |>.

(* [src/backend/src/infrastructure/queue.js:373-379] enqueue *)
Definition enqueue (o : options) (newId : string) (now : Z) (q : queue) : res (queue * norm) :=
  '(q, n) ← normalizeEnqueue o newId now q;
  match n with
  | Duplicate _ _ => Ok (q, n)
  | Fresh j => Ok (push j (q <| accepted ::= λ l, l ++ [j] |>), n)
  end.

Definition duplicate_job : js_error :=
  JsError (Some "duplicate"%string) "duplicate job already pending or running".

(* [src/backend/src/infrastructure/queue.js:384-395] enqueueAndWait, up to its await *)
Definition enqueueAndWait (o : options) (newId : string) (now : Z) (q : queue)
    : res (queue * job) :=
  '(q, n) ← normalizeEnqueue o newId now q;
  match n with
  | Duplicate _ _ => Throw duplicate_job
  | Fresh j =>
      Ok (push j (q <| waiters ::= λ m, mset m newId tt |>
                    <| accepted ::= λ l, l ++ [j] |>), j)
  end.

(** [enqueueAndClaim] after its first await: the cached outcome, or waiters. *)
(* [src/backend/src/infrastructure/queue.js:288-310] enqueueAndClaim *)
Definition registerClaim (jobId : string) (q : queue) : queue * option outcome :=
  match mget (settledCache q) jobId with
  | Some o => (q <| settledCache ::= λ m, mdelete m jobId |>, Some o)
  | None => (q <| claimWaiters ::= λ m, mset m jobId tt |>
               <| waiters ::= λ m, mset m jobId tt |>, None)
  end.

(* [src/backend/src/infrastructure/queue.js:401-406] wait timeout *)
Definition waitTimeout (jobId : string) (q : queue) : queue :=
  q <| waiters ::= λ m, mdelete m jobId |>.

Definition no_handler (j : job) : js_error :=
  JsError (Some "no_handler"%string) ("no handler for job type " ++ type j)%string.

(** Starting a job: [running++] and the first segment of [_invoke]. *)
(* [src/backend/src/infrastructure/queue.js:142-151] _invoke, up to the handlers *)
Definition start (j : job) (q : queue) : queue :=
  notifyClaim j (q <| running ::= S |> <| executing ::= λ l, l ++ [j] |>
                   <| started ::= λ l, l ++ [id j] |>).

(** The loop of [_drain], over the jobs pending when it runs. *)
(* [src/backend/src/infrastructure/queue.js:419-451] _drain loop *)
Fixpoint drain_loop (jobs : list job) (q : queue) : queue :=
  match jobs with
  | [] => q <| pending := [] |>
  | j :: jobs' =>
      if decide (running q < concurrency q) then
        if decide (type j ∈ handlers q) then drain_loop jobs' (start j q)
        else drain_loop jobs'
               (settleWaiter j (FailedWith (no_handler j))
                  (releaseKey j q <| failed ::= S |>))
      else q <| pending := jobs |>
  end.

(** One [setImmediate] callback. *)
(* [src/backend/src/infrastructure/queue.js:415-455] _drain *)
Definition drain (q : queue) : queue :=
  let q := q <| scheduled ::= pred |> in
  if closed q then q else drain_loop (pending q) q.

(* [src/backend/src/infrastructure/queue.js:431-432] success continuation *)
Definition handlerDone (i : nat) (now : Z) (q : queue) : queue :=
  match executing q !! i with
  | Some j => afterSuccess j now (q <| executing ::= delete i |> <| finalizing ::= S |>)
  | None => q
  end.

(** A handler error or the timeout of [_invoke] (code [timed_out]); the late
    result of a timed-out handler has no continuation. *)
(* [src/backend/src/infrastructure/queue.js:433-446] failure continuation *)
Definition handlerFailed (i : nat) (e : js_error) (q : queue) : queue :=
  match executing q !! i with
  | Some j => afterFailure j e (q <| executing ::= delete i |> <| finalizing ::= S |>)
  | None => q
  end.

(* [src/backend/src/infrastructure/queue.js:447-450] finally *)
Definition finally (q : queue) : queue :=
  let q := q <| finalizing ::= pred |> <| running ::= pred |> in
  if decide (pending q = []) then q else q <| scheduled ::= S |>.

(* [src/backend/src/infrastructure/queue.js:434-444] retry timer *)
Definition retryTimer (i : nat) (q : queue) : queue :=
  match backoff q !! i with
  | Some (j, e) =>
      let q := q <| backoff ::= delete i |> in
      if closed q then settleWaiter j (FailedWith e) (releaseKey j (q <| failed ::= S |>))
      else push j q
  | None => q
  end.

(* [src/backend/src/infrastructure/queue.js:459-465] close, first segment *)
Definition closeStart (drain : bool) (q : queue) : queue :=
  let q := q <| closed := true |> in
  if drain then q
  else q <| dropped ::= λ l, l ++ (id <$> pending q) |> <| pending := [] |>.

(* [src/backend/src/infrastructure/queue.js:466-485] close, after the grace period *)
Definition closeFinish (rejectWaiters : bool) (q : queue) : queue :=
  let q := q <| dropped ::= λ l, l ++ (id <$> pending q) |> <| pending := [] |> in
  let q := if rejectWaiters then q <| waiters := [] |> <| claimWaiters := [] |> else q in
  q <| inflightKeys := [] |>.

(* [src/backend/src/infrastructure/queue.js:347-358] stats *)
Definition stats (q : queue) :=
  (length (pending q), running q, processed q, failed q, retried q, duplicates q, deadLetter q).

(** ** Interleavings *)

Inductive event :=
| EOn (type : string)
| EEnqueue (o : options) (newId : string) (now : Z)
| EEnqueueAndWait (o : options) (newId : string) (now : Z)
| ERegisterClaim (jobId : string)
| EWaitTimeout (jobId : string)
| EDrain
| EDone (i : nat) (now : Z)
| EFailed (i : nat) (e : js_error)
| EFinally
| ERetry (i : nat)
| EClose (drain : bool)
| ECloseFinish (rejectWaiters : bool).

(** What an event does; what the caller saw is in the operations above. *)
Definition apply_event (q : queue) (e : event) : queue :=
  match e with
  | EOn t => on t q
  | EEnqueue o i now => match enqueue o i now q with Ok (q', _) => q' | Throw _ => q end
  | EEnqueueAndWait o i now =>
      match enqueueAndWait o i now q with
      | Ok (q', _) => q'
      | Throw _ => match normalizeEnqueue o i now q with Ok (q', _) => q' | Throw _ => q end
      end
  | ERegisterClaim i => (registerClaim i q).1
  | EWaitTimeout i => waitTimeout i q
  | EDrain => drain q
  | EDone i now => handlerDone i now q
  | EFailed i e => handlerFailed i e q
  | EFinally => finally q
  | ERetry i => retryTimer i q
  | EClose d => closeStart d q
  | ECloseFinish r => closeFinish r q
  end.

(** When the event loop can run an event: a new id is fresh, a callback was
    scheduled, a handler or a timer is outstanding, [close] was called. *)
Definition enabled (q : queue) (e : event) : Prop :=
  match e with
  | EEnqueue _ i _ | EEnqueueAndWait _ i _ => i ∉ id <$> accepted q
  | EDrain => 0 < scheduled q
  | EDone i _ | EFailed i _ => i < length (executing q)
  | EFinally => 0 < finalizing q
  | ERetry i => i < length (backoff q)
  | ECloseFinish _ => closed q = true
  | _ => True
  end.

Definition qstep (q : queue) (e : event) (q' : queue) : Prop :=
  enabled q e ∧ q' = apply_event q e.

Definition reachable (c : nat) (hs : list string) (q : queue) : Prop :=
  ∃ es, trace qstep (create c hs) es q.

(** ** The shape of an enqueue *)

Lemma normalize_cases o newId now q :
  (truthy_str (o_type o) = false ∧ normalizeEnqueue o newId now q = Throw bad_type) ∨
  (∃ m jid c, normalizeEnqueue o newId now q =
     Ok (q <| completedKeys := m |> <| duplicates ::= S |>, Duplicate jid c)) ∨
  (∃ m j, normalizeEnqueue o newId now q =
     Ok (q <| completedKeys := m |> <| inflightKeys ::= λ m,
           match idempotencyKey j with Some (String _ _ as k) => mset m k (id j) | _ => m end |>,
         Fresh j) ∧
     id j = newId ∧ attempts j = 0 ∧ type j = o_type o ∧ idempotencyKey j = o_idempotencyKey o ∧
     (∀ k, idempotencyKey j = Some k → truthy_str k = true →
           mget (inflightKeys q) k = None)).
Proof.
  destruct o as [ot ori okey omx oto ort ode]. unfold normalizeEnqueue; simpl.
  destruct (truthy_str ot); [right|by left].
  assert (∀ q : queue, q = q <| completedKeys := completedKeys q |>) as Hid by (by intros []).
  destruct okey as [[|a k]|].
  - right. exists (completedKeys q), (Job newId ot ori (Some ""%string) now 0 omx oto ort ode). split; [by destruct q|]. simpl. naive_solver.
  - destruct (mget (inflightKeys q) (String a k)) as [i|] eqn:Ei.
    + left. exists (completedKeys q), (Some i), false. by destruct q.
    + destruct ode; simpl.
      * set (r := match mget (completedKeys q) _ with Some _ => _ | None => _ end).
        destruct r; [left; by eexists _, None, true|].
        right. exists (mdelete (completedKeys q) (String a k)),
          (Job newId ot ori (Some (String a k)) now 0 omx oto ort true).
        split; [by destruct q|]. simpl. naive_solver.
      * right. exists (completedKeys q), (Job newId ot ori (Some (String a k)) now 0 omx oto ort false). split; [by destruct q|]. simpl. naive_solver.
  - right. exists (completedKeys q), (Job newId ot ori None now 0 omx oto ort ode). split; [by destruct q|]. simpl. naive_solver.
Qed.

(** ** The invariant

    [core w x v]: the jobs [w] that wait (pending or in backoff) and the jobs
    [x] that run account, with the settled and the dropped ones, for every job
    accepted; [v] is the part of the state this is about. *)

Record cview := CView {
  v_conc : nat;
  v_running : nat;
  v_final : nat;
  v_closed : bool;
  v_keys : jsmap string string;
  v_processed : nat;
  v_failed : nat;
  v_dead : nat;
  v_accepted : list job;
  v_started : list string;
  v_settled : list (string * outcome);
  v_dropped : list string;
}.

#[export] Instance cview_eta : Eta cview := λ v,
  CView (v_conc v) (v_running v) (v_final v) (v_closed v) (v_keys v) (v_processed v)
    (v_failed v) (v_dead v) (v_accepted v) (v_started v) (v_settled v) (v_dropped v).

Definition view (q : queue) : cview :=
  CView (concurrency q) (running q) (finalizing q) (closed q) (inflightKeys q) (processed q)
    (failed q) (deadLetter q) (accepted q) (started q) (settled q) (dropped q).

(** How often a job was started. *)
Definition starts (i : string) (l : list string) : nat := length (filter (λ x, x = i) l).

Definition keyed (j : job) (k : string) : Prop :=
  idempotencyKey j = Some k ∧ truthy_str k = true.

#[export] Instance keyed_dec j k : Decision (keyed j k).
Proof. unfold keyed. apply _. Defined.

Record core (w x : list job) (v : cview) : Prop := {
  i_running : v_running v = length x + v_final v;
  i_conc : v_running v ≤ v_conc v;
  i_ids : NoDup (id <$> v_accepted v);
  i_acct : (id <$> w ++ x) ++ (v_settled v).*1 ++ v_dropped v ≡ₚ id <$> v_accepted v;
  i_jobs : ∀ j, j ∈ w ++ x → j <| attempts := 0 |> ∈ v_accepted v;
  i_att : ∀ j, j ∈ w ++ x → attempts j < max_attempts j ∧ (0 < attempts j → retryable j = true);
  i_wait : ∀ j, j ∈ w → starts (id j) (v_started v) = attempts j;
  i_exec : ∀ j, j ∈ x → starts (id j) (v_started v) = S (attempts j);
  i_bound : ∀ a, a ∈ v_accepted v → starts (id a) (v_started v) ≤ max_attempts a ∧
              (retryable a = false → starts (id a) (v_started v) ≤ 1);
  i_started : ∀ i, i ∈ v_started v → i ∈ id <$> v_accepted v;
  i_wf : mwf (v_keys v);
  i_keys : v_closed v = false → ∀ j k, j ∈ w ++ x → keyed j k → mget (v_keys v) k = Some (id j);
  i_keys_live : v_closed v = false → ∀ k i, mget (v_keys v) k = Some i →
                ∃ j, j ∈ w ++ x ∧ id j = i ∧ keyed j k;
  i_count : v_processed v = length (filter (λ p, p.2 = Succeeded) (v_settled v)) ∧
            v_processed v + v_failed v = length (v_settled v) ∧ v_dead v ≤ v_failed v;
  i_open : v_closed v = false → v_dropped v = [];
}.

Definition release (j : job) (m : jsmap string string) : jsmap string string :=
  match idempotencyKey j with Some (String _ _ as k) => mdelete m k | _ => m end.

Lemma release_get j m k :
  mwf m → mget (release j m) k = mget m k ∧ ¬ keyed j k ∨
          mget (release j m) k = None ∧ keyed j k.
Proof.
  intros Hwf. unfold release, keyed. destruct (idempotencyKey j) as [[|a s]|]; simpl.
  - left. split; [done|]. intros [[= <-] ?]. done.
  - rewrite mget_delete by done. case_decide as Hd; [right; by subst|left; split; [done|]].
    intros [[= <-] ?]. done.
  - left. split; [done|]. by intros [? _].
Qed.

Lemma release_wf j m : mwf m → mwf (release j m).
Proof. intros. unfold release. repeat case_match; auto with jsmap. Qed.

Lemma starts_snoc i l i' : starts i (l ++ [i']) = starts i l + (if decide (i' = i) then 1 else 0).
Proof.
  unfold starts. rewrite filter_app, length_app, filter_cons, filter_nil. by case_decide.
Qed.

(** Live jobs have distinct ids. *)
Lemma live_nodup w x v : core w x v → NoDup (id <$> w ++ x).
Proof.
  intros Hc. pose proof (i_ids _ _ _ Hc) as Hn. rewrite <- (i_acct _ _ _ Hc) in Hn.
  by apply NoDup_app in Hn as [? _].
Qed.

Lemma live_id_eq w x v j j' :
  core w x v → j ∈ w ++ x → j' ∈ w ++ x → id j = id j' → j = j'.
Proof.
  intros Hc Hj Hj' E. pose proof (live_nodup _ _ _ Hc) as Hn.
  apply list_elem_of_lookup in Hj as [n Hn1]. apply list_elem_of_lookup in Hj' as [m Hm1].
  assert (n = m) as ->; [|congruence].
  eapply NoDup_lookup; [exact Hn|rewrite list_lookup_fmap, Hn1; done|].
  rewrite list_lookup_fmap, Hm1. simpl. by rewrite E.
Qed.

Lemma core_perm w x w' x' v : w ≡ₚ w' → x ≡ₚ x' → core w x v → core w' x' v.
Proof.
  intros Hw Hx [H1 H2 H3 H4 H5 H6 H7 H8 H9 H10 H11 H12 H13 H14 H15].
  assert (∀ j, j ∈ w' ++ x' ↔ j ∈ w ++ x) as E by (intros j; by rewrite Hw, Hx).
  split; try done.
  - by rewrite H1, Hx.
  - by rewrite <- Hw, <- Hx.
  - intros j. rewrite E. auto.
  - intros j. rewrite E. auto.
  - intros j. rewrite <- Hw. auto.
  - intros j. rewrite <- Hx. auto.
  - intros Ho j k. rewrite E. auto.
  - intros Ho k i Hk. destruct (H13 Ho k i Hk) as (j & ? & ?). exists j. by rewrite E.
Qed.

#[export] Instance core_proper : Proper ((≡ₚ) ==> (≡ₚ) ==> (=) ==> iff) core.
Proof. intros w w' Hw x x' Hx v v' <-. by split; apply core_perm. Qed.

(** *** Moves *)

Lemma core_accept w x v j :
  core w x v → id j ∉ id <$> v_accepted v → attempts j = 0 →
  (∀ k, keyed j k → mget (v_keys v) k = None) →
  core (j :: w) x (v <| v_accepted ::= λ l, l ++ [j] |>
    <| v_keys ::= λ m, match idempotencyKey j with Some (String _ _ as k) => mset m k (id j)
                       | _ => m end |>).
Proof.
  intros [H1 H2 H3 H4 H5 H6 H7 H8 H9 H10 H11 H12 H13 H14 H15] Hid Ha Hk.
  assert (starts (id j) (v_started v) = 0) as Hst.
  { unfold starts. destruct (filter _ (v_started v)) as [|i l] eqn:E; [done|].
    assert (i ∈ filter (λ x, x = id j) (v_started v)) as Hi by (rewrite E; by left).
    apply list_elem_of_filter in Hi as [-> Hi]. by apply H10 in Hi. }
  assert (∀ k', mget (match idempotencyKey j with Some (String _ _ as k) =>
      mset (v_keys v) k (id j) | _ => v_keys v end) k' =
    if decide (keyed j k') then Some (id j) else mget (v_keys v) k') as Hget.
  { intros k'. destruct (decide (keyed j k')) as [Hd|Hd]; revert Hd; unfold keyed;
      destruct (idempotencyKey j) as [[|a s]|]; try (by intros [[= <-] ?]); try (by intros [? _]);
      try done; rewrite mget_set.
    - intros [[= <-] _]. by rewrite decide_True.
    - intros Hd. rewrite decide_False; [done|]. intros <-. by apply Hd. }
  split; csimpl; try done.
  - rewrite fmap_app. apply NoDup_app. split_and!; [done| |apply NoDup_singleton]. set_solver.
  - rewrite (fmap_app _ (v_accepted v)), <- H4. csimpl. by rewrite Permutation_cons_append.
  - intros j' [->|Hin]%elem_of_cons; apply elem_of_app; [right|left; by apply H5].
    apply list_elem_of_singleton. destruct j; simpl in *. by subst.
  - intros j' [->|Hin]%elem_of_cons; [|auto]. rewrite Ha. unfold max_attempts. lia.
  - intros j' [->|Hin]%elem_of_cons; [by rewrite Ha|auto].
  - intros a [Hin|Hin%list_elem_of_singleton]%elem_of_app; [auto|subst]. rewrite Hst. lia.
  - intros i Hi. rewrite fmap_app. apply elem_of_app. left. auto.
  - clear Hget. destruct (idempotencyKey j) as [[|a s]|]; auto with jsmap.
  - intros Ho j' k [->|Hin]%elem_of_cons Hkj; rewrite Hget; [by rewrite decide_True|].
    rewrite decide_False; [auto|]. intros Hkk. apply Hk in Hkk.
    rewrite (H12 Ho j' k Hin Hkj) in Hkk. done.
  - intros Ho k i. rewrite Hget. case_decide as Hd.
    + intros [= <-]. exists j. split; [by left|done].
    + intros Hm. destruct (H13 Ho k i Hm) as (j' & ? & ?). exists j'. split; [by right|done].
Qed.

Lemma core_start w x v j :
  core (j :: w) x v → v_running v < v_conc v →
  core w (j :: x) (v <| v_running ::= S |> <| v_started ::= λ l, l ++ [id j] |>).
Proof.
  intros Hc Hlt. pose proof (live_nodup _ _ _ Hc) as Hn.
  destruct Hc as [H1 H2 H3 H4 H5 H6 H7 H8 H9 H10 H11 H12 H13 H14 H15].
  assert (∀ y, y ∈ w ++ j :: x ↔ y ∈ (j :: w) ++ x) as E by (intros y; set_solver).
  assert (∀ y, y ∈ w ++ x → id j ≠ id y) as Hne.
  { csimpl in Hn. apply NoDup_cons in Hn as [Hn _]. intros y Hy Eq. apply Hn.
    rewrite Eq. by apply list_elem_of_fmap_2. }
  destruct (H6 j) as [Hj1 Hj2]; [by left|]. pose proof (H7 j ltac:(by left)) as Hj3.
  assert (j <| attempts := 0 |> ∈ v_accepted v) as Hja by (apply H5; by left).
  split; csimpl; try done; try lia.
  - by rewrite <- H4, <- Permutation_middle.
  - intros y Hy%E. by apply H5.
  - intros y. rewrite E. auto.
  - intros y Hy. rewrite starts_snoc, decide_False, H7; [lia|by right|].
    apply Hne. set_solver.
  - intros y [->|Hy]%elem_of_cons; rewrite starts_snoc.
    + rewrite decide_True by done. lia.
    + rewrite decide_False, H8; [lia|done|]. apply Hne. set_solver.
  - intros a Ha. rewrite starts_snoc. destruct (decide (id j = id a)) as [Eq|]; [|rewrite Nat.add_0_r; auto].
    assert (a = j <| attempts := 0 |>) as ->.
    { apply list_elem_of_lookup in Ha as [n Hn1]. apply list_elem_of_lookup in Hja as [m Hm1].
      assert (n = m) as ->; [|congruence].
      eapply NoDup_lookup; [exact H3|rewrite list_lookup_fmap, Hn1; done|].
      rewrite list_lookup_fmap, Hm1. simpl. by rewrite Eq. }
    simpl. rewrite Hj3. unfold max_attempts in *; simpl. split; [lia|].
    intros Hr. destruct (attempts j); [lia|]. rewrite Hj2 in Hr by lia. done.
  - intros i [Hi|Hi%list_elem_of_singleton]%elem_of_app; [auto|subst].
    apply list_elem_of_fmap. by exists (j <| attempts := 0 |>).
  - intros Ho y k. rewrite E. auto.
  - intros Ho k i Hk. destruct (H13 Ho k i Hk) as (y & ? & ?). exists y. by rewrite E.
Qed.

Definition v_settle (j : job) (o : outcome) (dead : bool) (final : nat) (v : cview) : cview :=
  v <| v_keys ::= release j |> <| v_settled ::= λ l, l ++ [(id j, o)] |>
    <| v_processed ::= λ n, if decide (o = Succeeded) then S n else n |>
    <| v_failed ::= λ n, if decide (o = Succeeded) then n else S n |>
    <| v_dead ::= λ n, if dead then S n else n |> <| v_final := final |>.

Lemma core_settle w x w' x' v j o dead final :
  core w x v → w ++ x ≡ₚ j :: w' ++ x' →
  (∀ y, y ∈ w' → y ∈ w) → (∀ y, y ∈ x' → y ∈ x) →
  v_running v = length x' + final → (o = Succeeded → dead = false) →
  core w' x' (v_settle j o dead final v).
Proof.
  intros Hc Hp Hw Hx Hr Hd. pose proof (live_nodup _ _ _ Hc) as Hn.
  pose proof (live_id_eq w x v) as Hid.
  assert (∀ y, y ∈ w' ++ x' → y ∈ w ++ x) as E by (intros y; set_solver).
  assert (j ∈ w ++ x) as Hj by (rewrite Hp; by left).
  rewrite Hp in Hn. csimpl in Hn. apply NoDup_cons in Hn as [Hnj _].
  assert (∀ y, y ∈ w' ++ x' → id y ≠ id j) as Hne.
  { intros y Hy Eq. apply Hnj. rewrite <- Eq. by apply list_elem_of_fmap_2. }
  specialize (Hid j) as Hidj.
  destruct Hc as [H1 H2 H3 H4 H5 H6 H7 H8 H9 H10 H11 H12 H13 H14 H15].
  split; csimpl; try done; try (intros y Hy; by auto);
    try (intros y Hy; by apply H5, E).
  - rewrite <- H4, Hp, (fmap_app _ (v_settled v)). csimpl.
    rewrite <- (app_assoc (v_settled v).*1). csimpl. by rewrite <- !Permutation_middle.
  - by apply release_wf.
  - intros Ho y k Hy Hk. destruct (release_get j (v_keys v) k H11) as [[-> _]|[_ Hkj]]; [auto|].
    pose proof (H12 Ho y k (E y Hy) Hk) as E1. rewrite (H12 Ho j k Hj Hkj) in E1.
    exfalso. apply (Hne y Hy). congruence.
  - intros Ho k i. destruct (release_get j (v_keys v) k H11) as [[-> Hkj]|[-> _]]; [|done].
    intros Hk. destruct (H13 Ho k i Hk) as (y & Hy & Hi & Hyk). exists y.
    split; [|done]. rewrite Hp in Hy. apply elem_of_cons in Hy as [->|]; done.
  - destruct H14 as (Hs & Ht & Hdd). rewrite filter_app, !length_app. simpl.
    rewrite filter_cons, filter_nil. simpl.
    destruct (decide (o = Succeeded)) as [->|]; simpl.
    + rewrite Hd by done. lia.
    + destruct dead; lia.
Qed.

Lemma core_retry w x v j final :
  core w (j :: x) v → v_running v = length x + final →
  S (attempts j) < max_attempts j → retryable j = true →
  core (j <| attempts ::= S |> :: w) x (v <| v_final := final |>).
Proof.
  intros [H1 H2 H3 H4 H5 H6 H7 H8 H9 H10 H11 H12 H13 H14 H15] Hr Ha Hre.
  set (j' := j <| attempts ::= S |>).
  assert (∀ y, y ∈ (j' :: w) ++ x → y = j' ∨ y ∈ w ++ j :: x) as E by (intros y; set_solver).
  assert (j ∈ w ++ j :: x) as Hj by set_solver.
  split; csimpl; try done.
  - rewrite <- H4. csimpl. by rewrite <- (Permutation_middle w).
  - intros y [->|Hy]%E; [by apply (H5 j)|by apply H5].
  - intros y [->|Hy]%E; [split; [exact Ha|done]|auto].
  - intros y [->|Hy]%elem_of_cons; [|auto]. simpl. apply H8. by left.
  - intros y Hy. apply H8. by right.
  - intros Ho y k [->|Hy]%E Hk; [by apply (H12 Ho j k)|auto].
  - intros Ho k i Hk. destruct (H13 Ho k i Hk) as (y & Hy & Hi & Hyk).
    apply elem_of_app in Hy as [Hy|[->|Hy]%elem_of_cons].
    + exists y. split; [set_solver|done].
    + exists j'. split; [by left|done].
    + exists y. split; [set_solver|done].
Qed.

(** *** Every event preserves the invariant *)

Definition inv (q : queue) : Prop :=
  core (pending q ++ (backoff q).*1) (executing q) (view q).

Lemma drain_loop_inv jobs q :
  core (jobs ++ (backoff q).*1) (executing q) (view q) → inv (drain_loop jobs q).
Proof.
  revert q. induction jobs as [|j jobs IH]; intros q Hc; simpl; [exact Hc|].
  case_decide as Hlt; [|exact Hc]. case_decide.
  - apply IH. simpl. eapply core_perm; [done|by rewrite <- Permutation_cons_append|].
    by apply (core_start _ _ (view q)).
  - apply IH. simpl.
    apply (core_settle _ _ _ _ _ _ (FailedWith (no_handler j)) false (finalizing q) Hc);
      [done|set_solver|done|apply Hc|done].
Qed.

Lemma inv_accept q j m :
  inv q → id j ∉ id <$> accepted q → attempts j = 0 →
  (∀ k, keyed j k → mget (inflightKeys q) k = None) →
  inv (push j (q <| completedKeys := m |> <| inflightKeys ::= λ m,
         match idempotencyKey j with Some (String _ _ as k) => mset m k (id j) | _ => m end |>
         <| accepted ::= λ l, l ++ [j] |>)).
Proof.
  intros Hq Hid Ha Hk. unfold inv; simpl.
  apply (core_perm (j :: pending q ++ (backoff q).*1) (executing q)); [|done|].
  { rewrite <- app_assoc. apply Permutation_middle. }
  by apply (core_accept _ _ (view q)).
Qed.

Lemma executing_perm i q j :
  executing q !! i = Some j → executing q ≡ₚ j :: delete i (executing q).
Proof. apply delete_Permutation. Qed.

Lemma inv_handlerDone i now q : inv q → inv (handlerDone i now q).
Proof.
  intros Hc. unfold handlerDone. destruct (executing q !! i) as [j|] eqn:E; [|done].
  pose proof (executing_perm i q j E) as Hp. unfold inv; simpl.
  apply (core_settle _ _ _ _ _ j Succeeded false (S (finalizing q)) Hc); try done.
  - rewrite Hp at 1. by rewrite Permutation_middle.
  - intros y. apply list_elem_of_delete_inv.
  - pose proof (i_running _ _ _ Hc) as Hr. simpl in Hr. rewrite Hp in Hr. simpl in *. lia.
Qed.

Lemma inv_handlerFailed i e q : inv q → inv (handlerFailed i e q).
Proof.
  intros Hc. unfold handlerFailed. destruct (executing q !! i) as [j|] eqn:E; [|done].
  pose proof (executing_perm i q j E) as Hp.
  assert (running q = length (delete i (executing q)) + S (finalizing q)) as Hr.
  { pose proof (i_running _ _ _ Hc) as Hr. simpl in Hr. rewrite Hp in Hr. simpl in *. lia. }
  unfold afterFailure. set (j' := j <| attempts ::= S |>).
  destruct (can_retry j' e && _ && _) eqn:Er.
  - apply andb_true_iff in Er as [[Hre Hlt%bool_decide_eq_true]%andb_true_iff _].
    unfold inv; simpl. eapply core_perm; [|done|].
    { rewrite fmap_app, app_assoc. csimpl. by rewrite <- Permutation_cons_append. }
    apply (core_retry _ _ (view q)); [by rewrite <- Hp|done|done|].
    unfold can_retry in Hre. by apply andb_true_iff in Hre as [? _].
  - unfold inv; simpl.
    apply (core_settle _ _ _ _ _ j (FailedWith e)
      (can_retry j' e && bool_decide (max_attempts j' ≤ attempts j')) (S (finalizing q)) Hc);
      try done.
    + rewrite Hp at 1. by rewrite Permutation_middle.
    + intros y. apply list_elem_of_delete_inv.
Qed.

Lemma inv_retryTimer i q : inv q → inv (retryTimer i q).
Proof.
  intros Hc. unfold retryTimer. destruct (backoff q !! i) as [[j e]|] eqn:E; [|done].
  assert ((backoff q).*1 ≡ₚ j :: (delete i (backoff q)).*1) as Hp.
  { by rewrite (delete_Permutation (backoff q) i (j, e)) at 1. }
  simpl. destruct (closed q) eqn:Ec; unfold inv; simpl; rewrite <- ?Ec.
  - apply (core_settle _ _ _ _ _ j (FailedWith e) false (finalizing q) Hc); try done.
    + rewrite Hp. by rewrite <- Permutation_middle.
    + intros y. rewrite Hp. set_solver.
    + apply Hc.
  - eapply core_perm; [|done|exact Hc].
    rewrite Hp, <- app_assoc. done.
Qed.

Lemma inv_drop q m : inv q → mwf m →
  inv (q <| closed := true |> <| dropped ::= λ l, l ++ (id <$> pending q) |>
         <| pending := [] |> <| inflightKeys := m |>).
Proof.
  intros [H1 H2 H3 H4 H5 H6 H7 H8 H9 H10 H11 H12 H13 H14 H15] Hm. unfold inv; simpl in *.
  split; simpl; try done.
  - rewrite <- H4. rewrite !fmap_app. solve_Permutation.
  - intros j Hj. apply H5. set_solver.
  - intros j Hj. apply H6. set_solver.
  - intros j Hj. apply H7. set_solver.
Qed.

Lemma inv_closed q : inv q → inv (q <| closed := true |>).
Proof.
  intros [H1 H2 H3 H4 H5 H6 H7 H8 H9 H10 H11 H12 H13 H14 H15]. by split.
Qed.

Lemma apply_event_inv q e : inv q → enabled q e → inv (apply_event q e).
Proof.
  intros Hc Hen. destruct e as [t|o i now|o i now|i|i| |i now|i e| |i|d|r]; simpl in *.
  - unfold on. case_decide; exact Hc.
  - unfold enqueue. destruct (normalize_cases o i now q)
      as [[_ ->]|[(m & jid & c & ->)|(m & j & -> & Hid & Ha & _ & _ & Hk)]]; simpl; try done.
    apply (inv_accept q j m Hc); [by rewrite Hid|done|]. intros k [? ?]. auto.
  - unfold enqueueAndWait. destruct (normalize_cases o i now q)
      as [[_ ->]|[(m & jid & c & ->)|(m & j & -> & Hid & Ha & _ & _ & Hk)]]; simpl; try done.
    apply (inv_accept q j m Hc); [by rewrite Hid|done|]. intros k [? ?]. auto.
  - unfold registerClaim. by destruct (mget (settledCache q) i).
  - done.
  - unfold drain. cbv zeta. destruct (closed _); [done|]. by apply drain_loop_inv.
  - by apply inv_handlerDone.
  - by apply inv_handlerFailed.
  - assert (inv (q <| finalizing ::= pred |> <| running ::= pred |>)) as H.
    { destruct Hc as [H1 H2 H3 H4 H5 H6 H7 H8 H9 H10 H11 H12 H13 H14 H15].
      split; simpl in *; try done; lia. }
    unfold finally. simpl. case_decide; exact H.
  - by apply inv_retryTimer.
  - destruct d; simpl.
    + by apply inv_closed.
    + apply (inv_drop q (inflightKeys q)); [done|apply Hc].
  - pose proof (inv_drop q [] Hc mwf_nil) as H. unfold inv in *; simpl in *.
    destruct r; simpl; unfold view in *; simpl in *; rewrite Hen; exact H.
Qed.

Lemma create_inv c hs : inv (create c hs).
Proof.
  split; try done; try (by intros ? ?%not_elem_of_nil); try (by apply mwf_nil).
  - simpl. lia.
  - apply NoDup_nil_2.
  - by intros _ ? ? ?%not_elem_of_nil.
Qed.

Lemma concurrency_const q e q' : qstep q e q' → concurrency q' = concurrency q.
Proof.
  intros [_ ->]. destruct e as [t|o i now|o i now|i|i| |i now|i e| |i|d|r]; simpl; try done.
  - unfold on. by case_decide.
  - unfold enqueue. by destruct (normalize_cases o i now q)
      as [[_ ->]|[(m & jid & c & ->)|(m & j & -> & _)]].
  - unfold enqueueAndWait. by destruct (normalize_cases o i now q)
      as [[_ ->]|[(m & jid & c & ->)|(m & j & -> & _)]].
  - unfold registerClaim. by destruct (mget (settledCache q) i).
  - unfold drain. cbv zeta. destruct (closed _); [done|].
    assert (∀ jobs q, concurrency (drain_loop jobs q) = concurrency q) as H; [|by rewrite H].
    induction jobs as [|j jobs IH]; intros q'; simpl; [done|].
    repeat case_decide; rewrite ?IH; done.
  - unfold handlerDone. by destruct (executing q !! i).
  - unfold handlerFailed. destruct (executing q !! i); [|done].
    unfold afterFailure. by destruct (_ && _ && _).
  - unfold finally. by simpl; case_decide.
  - unfold retryTimer. destruct (backoff q !! i) as [[j e]|]; [|done].
    simpl. by destruct (closed q).
  - by destruct d.
  - by destruct r.
Qed.

Lemma reachable_inv c hs q : reachable c hs q → inv q.
Proof.
  intros [es Ht]. apply (trace_invariant qstep inv _ _ _ (λ q e q' Hq H,
    eq_ind_r inv (apply_event_inv q e Hq (proj1 H)) (proj2 H)) Ht).
  apply create_inv.
Qed.

(** ** Properties *)

(** Accounting.  In every reachable state of the queue: at most
    [concurrency] handlers run; every accepted job is exactly one of waiting,
    running, settled or dropped, and is settled at most once; the counters
    agree with what was settled ([processed] successes, [failed] failures,
    dead letters among them); and nothing is dropped before [close]. *)
Theorem queue_accounting c hs q :
  reachable c hs q →
  running q ≤ Nat.max 1 (if decide (c = 0) then 4 else c) ∧
  length (executing q) ≤ running q ∧
  (id <$> pending q ++ (backoff q).*1 ++ executing q) ++ (settled q).*1 ++ dropped q
    ≡ₚ id <$> accepted q ∧
  NoDup ((id <$> pending q ++ (backoff q).*1 ++ executing q) ++ (settled q).*1 ++ dropped q) ∧
  processed q = length (filter (λ p, p.2 = Succeeded) (settled q)) ∧
  processed q + failed q = length (settled q) ∧ deadLetter q ≤ failed q ∧
  (closed q = false → dropped q = []).
Proof.
  intros Hr. pose proof (reachable_inv c hs q Hr) as Hi.
  assert (concurrency q = Nat.max 1 (if decide (c = 0) then 4 else c)) as Hc.
  { destruct Hr as [es Ht].
    apply (trace_invariant qstep (λ q, concurrency q = _) _ _ _
      (λ q e q' Hq H, eq_trans (concurrency_const q e q' H) Hq) Ht). done. }
  destruct Hi as [H1 H2 H3 H4 _ _ _ _ _ _ _ _ _ (H5 & H6 & H7) H8]; simpl in *.
  rewrite <- app_assoc in H4. split_and!; try done; [lia|lia|].
  by rewrite H4.
Qed.

(** Retries are bounded, and only jobs declared retryable are retried.  In
    every reachable state each accepted job has been started at most
    [max(1, maxAttempts)] times, and a job enqueued with [retryable: false] at
    most once, whatever its handler did, timed out or not. *)
Theorem queue_attempts c hs q a :
  reachable c hs q → a ∈ accepted q →
  starts (id a) (started q) ≤ max_attempts a ∧
  (retryable a = false → starts (id a) (started q) ≤ 1).
Proof. intros Hr Ha. by apply (i_bound _ _ _ (reachable_inv c hs q Hr)). Qed.

(** Idempotent enqueue.  While the queue is open, two jobs that wait or run
    never share an idempotency key, and an enqueue with key [k] is answered
    "duplicate" with the id of the job that holds [k] exactly when such a job
    exists (and, without [dedupeCompleted], is accepted otherwise). *)
Theorem queue_dedupe c hs q o newId now k :
  reachable c hs q → closed q = false → truthy_str (o_type o) = true →
  o_idempotencyKey o = Some k → truthy_str k = true → o_dedupeCompleted o = false →
  let live := pending q ++ (backoff q).*1 ++ executing q in
  (∀ j j', j ∈ live → j' ∈ live → keyed j k → keyed j' k → j = j') ∧
  (∀ j, j ∈ live → keyed j k →
     ∃ q', enqueue o newId now q = Ok (q', Duplicate (Some (id j)) false) ∧
           pending q' = pending q) ∧
  ((∀ j, j ∈ live → ¬ keyed j k) →
     ∃ q' j, enqueue o newId now q = Ok (q', Fresh j) ∧ pending q' = pending q ++ [j] ∧
             id j = newId ∧ keyed j k).
Proof.
  intros Hr Hop Hty Hk Htk Hd live. pose proof (reachable_inv c hs q Hr) as Hi.
  assert (∀ j, j ∈ live ↔ j ∈ (pending q ++ (backoff q).*1) ++ executing q) as El.
  { intros j. unfold live. by rewrite app_assoc. }
  pose proof (i_keys _ _ _ Hi Hop) as Hkeys. simpl in Hkeys.
  unfold enqueue, normalizeEnqueue. rewrite Hty, Hk. destruct k as [|a k]; [done|].
  rewrite Hd. split_and!.
  - intros j j' Hj%El Hj'%El Hjk Hjk'. eapply live_id_eq; [exact Hi|done|done|].
    pose proof (Hkeys j _ Hj Hjk). pose proof (Hkeys j' _ Hj' Hjk'). congruence.
  - intros j Hj%El Hjk. rewrite (Hkeys j _ Hj Hjk). simpl. by eexists.
  - intros Hno. destruct (mget (inflightKeys q) (String a k)) as [i|] eqn:Ei.
    + destruct (i_keys_live _ _ _ Hi Hop _ _ Ei) as (j & Hj & _ & Hjk).
      by destruct (Hno j (proj2 (El j) Hj)).
    + simpl. by eexists _, _.
Qed.

Definition awake (q : queue) : Prop :=
  closed q = false → pending q ≠ [] → running q < concurrency q → 0 < scheduled q.

Lemma drain_loop_done jobs q :
  (pending (drain_loop jobs q) = [] ∨
   concurrency (drain_loop jobs q) ≤ running (drain_loop jobs q)) ∧
  running q ≤ running (drain_loop jobs q).
Proof.
  revert q. induction jobs as [|j jobs IH]; intros q; simpl; [split; [by left|lia]|].
  case_decide; [case_decide|].
  - destruct (IH (start j q)) as [? Hl]. split; [done|]. simpl in Hl. lia.
  - match goal with |- context [drain_loop jobs ?q'] => destruct (IH q') as [? Hl] end.
    split; [done|]. simpl in Hl. lia.
  - simpl. split; [right|]; lia.
Qed.

Lemma apply_event_awake q e : awake q → enabled q e → awake (apply_event q e).
Proof.
  intros Ha Hen. destruct e as [t|o i now|o i now|i|i| |i now|i e| |i|d|r]; simpl in *.
  - unfold on. by case_decide.
  - unfold enqueue. destruct (normalize_cases o i now q)
      as [[_ ->]|[(m & jid & c & ->)|(m & j & -> & _)]]; simpl; try done.
    intros _ _ _. simpl. lia.
  - unfold enqueueAndWait. destruct (normalize_cases o i now q)
      as [[_ ->]|[(m & jid & c & ->)|(m & j & -> & _)]]; simpl; try done.
    intros _ _ _. simpl. lia.
  - unfold registerClaim. by destruct (mget (settledCache q) i).
  - done.
  - unfold drain. cbv zeta. destruct (closed _) eqn:Ec; simpl in Ec; [by intros ?; simpl in *; congruence|].
    intros _ Hp Hlt.
    destruct (drain_loop_done (pending (q <| scheduled ::= pred |>)) (q <| scheduled ::= pred |>))
      as [[?|?] _]; [done|lia].
  - unfold handlerDone. by destruct (executing q !! i).
  - unfold handlerFailed. destruct (executing q !! i); [|done].
    unfold afterFailure. by destruct (_ && _ && _).
  - unfold finally. simpl. case_decide as Hp.
    + intros _ Hp'. done.
    + intros _ _ _. simpl. lia.
  - unfold retryTimer. destruct (backoff q !! i) as [[j e]|]; [|done].
    cbv zeta. destruct (closed _) eqn:Ec; simpl in Ec.
    + intros Hc. simpl in Hc. congruence.
    + intros _ _ _. simpl. lia.
  - destruct d; by intros ?.
  - destruct r; intros ?; simpl in *; congruence.
Qed.

(** No lost wakeup.  In every reachable state of an open queue with a
    waiting job and a free slot, a [_drain] is scheduled; and a scheduled drain
    leaves nothing waiting unless every slot is taken. *)
Theorem queue_no_lost_wakeup c hs q :
  reachable c hs q → closed q = false →
  (pending q ≠ [] → running q < concurrency q → 0 < scheduled q) ∧
  (pending (drain q) = [] ∨ running (drain q) = concurrency (drain q)).
Proof.
  intros Hr Hop. assert (awake q) as Ha.
  { destruct Hr as [es Ht]. apply (trace_invariant qstep awake _ _ _ (λ q e q' Hq H,
      eq_ind_r awake (apply_event_awake q e Hq (proj1 H)) (proj2 H)) Ht). by intros _ ?. }
  split; [by apply Ha|].
  pose proof (drain_loop_inv (pending q) (q <| scheduled ::= pred |>)
    (reachable_inv c hs q Hr)) as Hi.
  assert (drain q = drain_loop (pending q) (q <| scheduled ::= pred |>)) as ->
    by (unfold drain; simpl; by rewrite Hop).
  destruct (drain_loop_done (pending q) (q <| scheduled ::= pred |>)) as [[?|?] _];
    [by left|right]. apply Nat.le_antisymm; [exact (i_conc _ _ _ Hi)|done].
Qed.

Lemma closed_step q e : closed q = true →
  closed (apply_event q e) = true ∧ started (apply_event q e) = started q.
Proof.
  intros Hc. destruct e as [t|o i now|o i now|i|i| |i now|i e| |i|d|r]; simpl; try done.
  - unfold on. by case_decide.
  - unfold enqueue. by destruct (normalize_cases o i now q)
      as [[_ ->]|[(m & jid & c & ->)|(m & j & -> & _)]].
  - unfold enqueueAndWait. by destruct (normalize_cases o i now q)
      as [[_ ->]|[(m & jid & c & ->)|(m & j & -> & _)]].
  - unfold registerClaim. by destruct (mget (settledCache q) i).
  - unfold drain. simpl. by rewrite Hc.
  - unfold handlerDone. by destruct (executing q !! i).
  - unfold handlerFailed. destruct (executing q !! i); [|done].
    unfold afterFailure. by destruct (_ && _ && _).
  - unfold finally. by simpl; case_decide.
  - unfold retryTimer. destruct (backoff q !! i) as [[j e]|]; [|done]. simpl. by rewrite Hc.
  - by destruct d.
  - by destruct r.
Qed.

(** A closed queue still accepts jobs.  [close] is documented to stop
    intake, but [enqueue] never looks at [closed]: the caller of a closed queue
    is told its job is queued, and in no continuation is any job started. *)
Theorem closed_queue_accepts q o newId now :
  closed q = true → truthy_str (o_type o) = true → o_idempotencyKey o = None →
  ∃ q' j, enqueue o newId now q = Ok (q', Fresh j) ∧ pending q' = pending q ++ [j] ∧
    ∀ es q'', trace qstep q' es q'' → started q'' = started q.
Proof.
  intros Hc Hty Hk. unfold enqueue, normalizeEnqueue. rewrite Hty, Hk. simpl.
  eexists _, _. split; [done|]. split; [done|]. intros es q'' Ht.
  apply (trace_invariant qstep (λ x, closed x = true ∧ started x = started q) _ _ _) in Ht
    as [_ ?]; [done| |done].
  intros x e x' [Hx <-] [_ ->]. by apply closed_step.
Qed.

(** ** Witnesses *)

Fixpoint all_enabled (q : queue) (es : list event) : Prop :=
  match es with [] => True | e :: es' => enabled q e ∧ all_enabled (apply_event q e) es' end.

Lemma run_trace q es : all_enabled q es → trace qstep q es (run apply_event q es).
Proof.
  revert q. induction es as [|e es IH]; intros q; simpl; [constructor|].
  intros [He Hes]. econstructor; [by split|]. by apply IH.
Qed.

Definition sample : list event :=
  let o := Options "run" (Some "r1"%string) (Some "key"%string) 2 1000 true false in
  let once := Options "run" (Some "r2"%string) None 3 1000 false false in
  [EEnqueue o "job-1" 0; EEnqueue once "job-2" 1; EDrain; EFailed 0 (JsError None "boom");
   EFinally; ERetry 0; EDrain; EFailed 0 (JsError None "boom"); EFinally].

Lemma sample_reachable : reachable 1 ["run"%string] (run apply_event (create 1 ["run"%string]) sample).
Proof.
  exists sample. apply run_trace. simpl. unfold enqueue; simpl.
  split_and!; try lia; try done; set_solver.
Qed.

Lemma queue_accounting_witness :
  let q := run apply_event (create 1 ["run"%string]) sample in
  running q ≤ 1 ∧ failed q = 1 ∧ retried q = 1 ∧ started q = ["job-1"; "job-2"]%string.
Proof.
  split; [exact (proj1 (queue_accounting 1 ["run"%string] _ sample_reachable))|].
  vm_compute. auto.
Defined.

Lemma queue_attempts_witness :
  let q := run apply_event (create 1 ["run"%string]) sample in
  starts "job-2" (started q) ≤ 1.
Proof.
  exact (proj2 (queue_attempts 1 ["run"%string] _
    (Job "job-2" "run" (Some "r2"%string) None 1 0 3 1000 false false)
    sample_reachable ltac:(vm_compute; repeat constructor)) eq_refl).
Defined.

Lemma queue_dedupe_witness :
  let q := run apply_event (create 1 ["run"%string]) sample in
  let o := Options "run" None (Some "key"%string) 2 1000 true false in
  ∃ q', enqueue o "job-9" 5 q = Ok (q', Duplicate (Some "job-1"%string) false) ∧
        pending q' = pending q.
Proof.
  intros q o.
  refine (proj1 (proj2 (queue_dedupe 1 ["run"%string] q o "job-9" 5 "key" sample_reachable
    eq_refl eq_refl eq_refl eq_refl eq_refl))
    (Job "job-1" "run" (Some "r1"%string) (Some "key"%string) 0 1 2 1000 true false) _ _).
  - vm_compute. repeat constructor.
  - by split.
Defined.

Lemma queue_no_lost_wakeup_witness :
  let q := run apply_event (create 1 ["run"%string]) (take 2 sample) in
  0 < scheduled q ∧ running (drain q) = 1.
Proof.
  intros q. split; [|vm_compute; reflexivity].
  refine (proj1 (queue_no_lost_wakeup 1 ["run"%string] q _ eq_refl) _ _).
  - exists (take 2 sample). apply run_trace. simpl. split_and!; done || set_solver.
  - discriminate.
  - vm_compute. lia.
Defined.

Lemma closed_queue_accepts_witness :
  let q := closeStart true (create 1 ["run"%string]) in
  ∃ q' j, enqueue (Options "run" None None 3 1000 true false) "job-1" 0 q = Ok (q', Fresh j) ∧
    pending q' = pending q ++ [j] ∧
    ∀ es q'', trace qstep q' es q'' → started q'' = started q.
Proof.
  intros q. exact (closed_queue_accepts q (Options "run" None None 3 1000 true false) "job-1" 0
    eq_refl eq_refl eq_refl).
Defined.
