(* ===== verification/ToolSystem.v ===== *)
(** The tool capability framework: backend/src/execution/tool-system.js.

    [TOOL_DEFINITIONS] is the canonical catalogue; [normalizeDefinition] fills
    in a partial record; [validateInput] and [truncateOutput] are the checks
    every execution goes through.  Strings are ASCII, so a byte is a
    character. *)

From S2P Require Import Prelude JsMap JsValue.

Local Open Scope string_scope.

Module ToolCategory.
(* [src/backend/src/execution/tool-system.js:15-25] ToolCategory *)
Inductive t : Set := FILESYSTEM | SEARCH | CODE | TESTING | GIT | ENVIRONMENT | NETWORK | BROWSER | DEPLOYMENT.

(* [src/backend/src/execution/tool-system.js:15-25] ToolCategory *)
Definition value (x : t) : string :=
  match x with
  | FILESYSTEM => "filesystem"
  | SEARCH => "search"
  | CODE => "code"
  | TESTING => "testing"
  | GIT => "git"
  | ENVIRONMENT => "environment"
  | NETWORK => "network"
  | BROWSER => "browser"
  | DEPLOYMENT => "deployment"
  end.

#[global] Instance t_eq_dec : EqDecision t.
Proof. solve_decision. Defined.
End ToolCategory.

Module RiskLevel.
(* [src/backend/src/execution/tool-system.js:27-32] RiskLevel *)
Inductive t : Set := LOW | MEDIUM | HIGH | CRITICAL.

(* [src/backend/src/execution/tool-system.js:27-32] RiskLevel *)
Definition value (x : t) : string :=
  match x with
  | LOW => "LOW"
  | MEDIUM => "MEDIUM"
  | HIGH => "HIGH"
  | CRITICAL => "CRITICAL"
  end.

#[global] Instance t_eq_dec : EqDecision t.
Proof. solve_decision. Defined.
End RiskLevel.

Module ToolStatus.
(* [src/backend/src/execution/tool-system.js:36-45] ToolStatus *)
Inductive t : Set := SUCCESS | FAILURE | TIMED_OUT | CANCELLED | DISABLED | DENIED | NEEDS_APPROVAL | UNKNOWN.

(* [src/backend/src/execution/tool-system.js:36-45] ToolStatus *)
Definition value (x : t) : string :=
  match x with
  | SUCCESS => "success"
  | FAILURE => "failure"
  | TIMED_OUT => "timed_out"
  | CANCELLED => "cancelled"
  | DISABLED => "disabled"
  | DENIED => "denied"
  | NEEDS_APPROVAL => "needs_approval"
  | UNKNOWN => "unknown"
  end.

#[global] Instance t_eq_dec : EqDecision t.
Proof. solve_decision. Defined.
End ToolStatus.

Module DeliverySemantics.
(* [src/backend/src/execution/tool-system.js:49-54] DeliverySemantics *)
Inductive t : Set := AT_MOST_ONCE | AT_LEAST_ONCE | IDEMPOTENT | UNKNOWN.

(* [src/backend/src/execution/tool-system.js:49-54] DeliverySemantics *)
Definition value (x : t) : string :=
  match x with
  | AT_MOST_ONCE => "at-most-once"
  | AT_LEAST_ONCE => "at-least-once"
  | IDEMPOTENT => "idempotent"
  | UNKNOWN => "unknown"
  end.

#[global] Instance t_eq_dec : EqDecision t.
Proof. solve_decision. Defined.
End DeliverySemantics.

(** The [type] of a schema property. *)
Inductive prop_type := TString | TNumber | TBoolean | TArray | TObject.

Record schema := Schema {
  properties : list (string * prop_type);
  required : list string;
}.

(** A tool record as registered: any field may be missing. *)
Record raw_tool := RawTool {
  r_id : option string;
  r_name : option string;
  r_description : option string;
  r_category : option ToolCategory.t;
  r_riskLevel : option RiskLevel.t;
  r_permissions : option (list string);
  r_timeoutMs : option Z;
  r_supportsDryRun : option bool;
  r_idempotent : option bool;
  r_requiresApproval : option bool;
  r_disabled : option bool;
  r_status : option string;
  r_available : option bool;
  r_delivery : option DeliverySemantics.t;
  r_inputSchema : option schema;
}.

(* [src/backend/src/execution/tool-system.js:67-155] TOOL_DEFINITIONS, first eleven *)
Definition TOOL_DEFINITIONS_core : list raw_tool := [
  RawTool (Some "tool-read-file") (Some "read_file") (Some "Read a workspace file with line ranges (sandboxed)")
    (Some ToolCategory.FILESYSTEM) (Some RiskLevel.LOW)
    (Some ["workspace:read"]) (Some 10000%Z) (Some false) (Some true) (Some false)
    None None None (Some DeliverySemantics.AT_MOST_ONCE)
    (Some (Schema [("path", TString); ("startLine", TNumber); ("endLine", TNumber); ("maxBytes", TNumber)] ["path"]));
  RawTool (Some "tool-search-code") (Some "search_code") (Some "Bounded code search over the workspace")
    (Some ToolCategory.SEARCH) (Some RiskLevel.LOW)
    (Some ["workspace:read"]) (Some 15000%Z) (Some false) (Some true) (Some false)
    None None None (Some DeliverySemantics.AT_MOST_ONCE)
    (Some (Schema [("query", TString); ("include", TString); ("maxResults", TNumber); ("excludeDir", TArray)] ["query"]));
  RawTool (Some "tool-run-tests") (Some "run_tests") (Some "Execute an allowlisted test/build/lint command (no shell)")
    (Some ToolCategory.TESTING) (Some RiskLevel.LOW)
    (Some ["tests:execute"]) (Some 60000%Z) (Some false) (Some false) (Some false)
    None None None (Some DeliverySemantics.AT_LEAST_ONCE)
    (Some (Schema [("suite", TString); ("command", TString)] []));
  RawTool (Some "tool-apply-patch") (Some "apply_patch") (Some "Apply exact-match edits to a workspace file (atomic, hash-verified)")
    (Some ToolCategory.CODE) (Some RiskLevel.MEDIUM)
    (Some ["workspace:write"]) (Some 10000%Z) (Some true) (Some false) (Some true)
    None None None (Some DeliverySemantics.AT_MOST_ONCE)
    (Some (Schema [("path", TString); ("edits", TArray); ("dryRun", TBoolean); ("changesetId", TString)] ["path"; "edits"]));
  RawTool (Some "tool-git-status") (Some "git_status") (Some "Read-only git status for the workspace")
    (Some ToolCategory.GIT) (Some RiskLevel.LOW)
    (Some ["workspace:read"; "git:read"]) (Some 10000%Z) (Some false) (Some true) (Some false)
    None None None (Some DeliverySemantics.AT_MOST_ONCE)
    (Some (Schema [] []));
  RawTool (Some "tool-git-diff") (Some "git_diff") (Some "Read-only git diff (bounded output)")
    (Some ToolCategory.GIT) (Some RiskLevel.LOW)
    (Some ["workspace:read"; "git:read"]) (Some 10000%Z) (Some false) (Some true) (Some false)
    None None None (Some DeliverySemantics.AT_MOST_ONCE)
    (Some (Schema [("staged", TBoolean); ("path", TString); ("maxBytes", TNumber)] []));
  RawTool (Some "tool-git-log") (Some "git_log") (Some "Read-only git log (bounded)")
    (Some ToolCategory.GIT) (Some RiskLevel.LOW)
    (Some ["git:read"]) (Some 10000%Z) (Some false) (Some true) (Some false)
    None None None (Some DeliverySemantics.AT_MOST_ONCE)
    (Some (Schema [("limit", TNumber)] []));
  RawTool (Some "tool-git-branch") (Some "git_branch") (Some "List or show git branches (read-only)")
    (Some ToolCategory.GIT) (Some RiskLevel.LOW)
    (Some ["git:read"]) (Some 10000%Z) (Some false) (Some true) (Some false)
    None None None (Some DeliverySemantics.AT_MOST_ONCE)
    (Some (Schema [] []));
  RawTool (Some "tool-git-create-branch") (Some "git_create_branch") (Some "Create and optionally checkout a new branch")
    (Some ToolCategory.GIT) (Some RiskLevel.MEDIUM)
    (Some ["git:write"]) (Some 15000%Z) (Some true) (Some false) (Some true)
    None None None (Some DeliverySemantics.AT_MOST_ONCE)
    (Some (Schema [("name", TString); ("checkout", TBoolean)] ["name"]));
  RawTool (Some "tool-git-add") (Some "git_add") (Some "Stage explicit workspace-relative paths (never -A)")
    (Some ToolCategory.GIT) (Some RiskLevel.MEDIUM)
    (Some ["git:write"]) (Some 15000%Z) (Some true) (Some true) (Some true)
    None None None (Some DeliverySemantics.IDEMPOTENT)
    (Some (Schema [("paths", TArray)] ["paths"]));
  RawTool (Some "tool-git-commit") (Some "git_commit") (Some "Commit staged changes with an explicit message (scope-checked)")
    (Some ToolCategory.GIT) (Some RiskLevel.MEDIUM)
    (Some ["git:write"]) (Some 15000%Z) (Some true) (Some false) (Some true)
    None None None (Some DeliverySemantics.AT_MOST_ONCE)
    (Some (Schema [("message", TString); ("allowUnrelated", TBoolean)] ["message"]))
].

(* [src/backend/src/execution/tool-system.js:156-237] TOOL_DEFINITIONS, the others *)
Definition TOOL_DEFINITIONS_gated : list raw_tool := [
  RawTool (Some "tool-git-push") (Some "git_push") (Some "Push to remote (HIGH risk, disabled by default)")
    (Some ToolCategory.GIT) (Some RiskLevel.HIGH)
    (Some ["git:push"]) (Some 30000%Z) (Some true) (Some false) (Some true)
    (Some true) None None (Some DeliverySemantics.AT_MOST_ONCE)
    (Some (Schema [("remote", TString); ("branch", TString); ("dryRun", TBoolean)] []));
  RawTool (Some "tool-env-inspect") (Some "env_inspect") (Some "Normalized environment/project profile (no secrets)")
    (Some ToolCategory.ENVIRONMENT) (Some RiskLevel.LOW)
    (Some ["env:read"]) (Some 10000%Z) (Some false) (Some true) (Some false)
    None None None (Some DeliverySemantics.AT_MOST_ONCE)
    (Some (Schema [] []));
  RawTool (Some "tool-install-package") (Some "install_package") (Some "Install a package (supply-chain risk, approval required)")
    (Some ToolCategory.ENVIRONMENT) (Some RiskLevel.HIGH)
    (Some ["env:install"]) (Some 120000%Z) (Some true) (Some false) (Some true)
    (Some true) None None (Some DeliverySemantics.AT_MOST_ONCE)
    (Some (Schema [("manager", TString); ("package", TString); ("version", TString); ("dryRun", TBoolean)] ["package"]));
  RawTool (Some "tool-web-search") (Some "web_search") (Some "Policy-gated web search interface (allowlist/network policy apply)")
    (Some ToolCategory.NETWORK) (Some RiskLevel.MEDIUM)
    (Some ["network:search"]) (Some 20000%Z) (Some false) (Some true) (Some false)
    (Some true) None None (Some DeliverySemantics.AT_MOST_ONCE)
    (Some (Schema [("query", TString); ("maxResults", TNumber)] ["query"]));
  RawTool (Some "tool-fetch-url") (Some "fetch_url") (Some "Policy-gated URL fetch with SSRF guards and size/time limits")
    (Some ToolCategory.NETWORK) (Some RiskLevel.MEDIUM)
    (Some ["network:fetch"]) (Some 20000%Z) (Some false) (Some true) (Some false)
    (Some true) None None (Some DeliverySemantics.AT_MOST_ONCE)
    (Some (Schema [("url", TString); ("maxBytes", TNumber)] ["url"]));
  RawTool (Some "tool-build") (Some "build_project") (Some "Run the detected build command (allowlisted, no shell)")
    (Some ToolCategory.TESTING) (Some RiskLevel.LOW)
    (Some ["tests:execute"]) (Some 120000%Z) (Some false) (Some false) (Some false)
    None None None (Some DeliverySemantics.AT_LEAST_ONCE)
    (Some (Schema [("target", TString)] []));
  RawTool (Some "tool-deploy-preview") (Some "deploy_preview") (Some "Build a preview deployment (CRITICAL, disabled by default)")
    (Some ToolCategory.DEPLOYMENT) (Some RiskLevel.CRITICAL)
    (Some ["deploy"]) (Some 30000%Z) (Some true) (Some false) (Some true)
    (Some true) None None (Some DeliverySemantics.AT_MOST_ONCE)
    (Some (Schema [] []));
  RawTool (Some "tool-browser-navigate") (Some "browser_navigate") (Some "Navigate to a URL and return a bounded, redacted snapshot (DEMO mock or policy-gated fetch)")
    (Some ToolCategory.BROWSER) (Some RiskLevel.HIGH)
    (Some ["browser:automate"]) (Some 20000%Z) (Some false) (Some true) (Some true)
    (Some true) None None (Some DeliverySemantics.AT_MOST_ONCE)
    (Some (Schema [("url", TString); ("maxBytes", TNumber)] ["url"]));
  RawTool (Some "tool-browser-snapshot") (Some "browser_snapshot") (Some "Read-only page snapshot (title/headings/links/text) via DEMO mock or policy-gated fetch")
    (Some ToolCategory.BROWSER) (Some RiskLevel.MEDIUM)
    (Some ["browser:read"]) (Some 20000%Z) (Some false) (Some true) (Some false)
    (Some true) None None (Some DeliverySemantics.AT_MOST_ONCE)
    (Some (Schema [("url", TString); ("maxBytes", TNumber)] ["url"]))
].

Definition TOOL_DEFINITIONS : list raw_tool := TOOL_DEFINITIONS_core ++ TOOL_DEFINITIONS_gated.

Definition find_tool (name : string) : option raw_tool :=
  snd <$> list_find (λ d, r_name d = Some name) TOOL_DEFINITIONS.

(** A normalized definition; its name stays possibly missing. *)
(* [src/backend/src/execution/tool-system.js:241-261] normalized definition *)
Record definition := Definition_ {
  d_id : string;
  d_name : option string;
  d_description : string;
  d_category : ToolCategory.t;
  d_inputSchema : schema;
  d_riskLevel : RiskLevel.t;
  d_permissions : list string;
  d_timeoutMs : Z;
  d_supportsDryRun : bool;
  d_idempotent : bool;
  d_requiresApproval : bool;
  d_disabled : bool;
  d_available : bool;
  d_delivery : DeliverySemantics.t;
}.

#[export] Instance definition_eta : Eta definition := λ d,
  Definition_ (d_id d) (d_name d) (d_description d) (d_category d) (d_inputSchema d)
    (d_riskLevel d) (d_permissions d) (d_timeoutMs d) (d_supportsDryRun d) (d_idempotent d)
    (d_requiresApproval d) (d_disabled d) (d_available d) (d_delivery d).

(* [src/backend/src/execution/tool-system.js:264-276] inferCategory *)
Definition inferCategory (name : option string) : ToolCategory.t :=
  let n := if truthy name then default "" name else "" in
  if starts_with "git_" n then ToolCategory.GIT
  else if decide (n = "read_file") then ToolCategory.FILESYSTEM
  else if decide (n = "search_code" ∨ n = "web_search") then
    if decide (n = "web_search") then ToolCategory.NETWORK else ToolCategory.SEARCH
  else if decide (n = "run_tests" ∨ n = "build_project") then ToolCategory.TESTING
  else if decide (n = "apply_patch") then ToolCategory.CODE
  else if decide (n = "env_inspect" ∨ n = "install_package") then ToolCategory.ENVIRONMENT
  else if decide (n = "fetch_url") then ToolCategory.NETWORK
  else if starts_with "browser_" n then ToolCategory.BROWSER
  else if starts_with "deploy_" n then ToolCategory.DEPLOYMENT
  else ToolCategory.CODE.

(** [String(name)] of a missing name is "undefined". *)
(* [src/backend/src/execution/tool-system.js:278-283] inferRisk *)
Definition inferRisk (name : option string) (permissions : list string) : RiskLevel.t :=
  let perms := js_join " " permissions in
  let n := default "undefined" name in
  let any_of ps s := existsb (λ p, contains p s) ps in
  if any_of ["deploy"; "push"; "install"] n || any_of ["deploy"; "push"; "install"] perms
  then RiskLevel.HIGH
  else if contains "write" perms || any_of ["patch"; "commit"; "branch"; "add"] n
  then RiskLevel.MEDIUM else RiskLevel.LOW.

(* [src/backend/src/execution/tool-system.js:34-34] RISK_ORDER *)
Definition RISK_ORDER (r : RiskLevel.t) : Z :=
  match r with
  | RiskLevel.LOW => 0 | RiskLevel.MEDIUM => 1 | RiskLevel.HIGH => 2 | RiskLevel.CRITICAL => 3
  end.

(* [src/backend/src/execution/tool-system.js:285-287] compareRisk *)
Definition compareRisk (a b : RiskLevel.t) : Z := (RISK_ORDER a - RISK_ORDER b)%Z.

(* [src/backend/src/execution/tool-system.js:56-61] DEFAULTS *)
Definition DEFAULT_maxOutputBytes : N := 24 * 1024.
Definition DEFAULT_maxLines : N := 400.
Definition DEFAULT_timeoutMs : Z := 30000.

(** [Number(d.timeoutMs) || default], clamped to [1000, 300000]. *)
(* [src/backend/src/execution/tool-system.js:250-250] timeoutMs *)
Definition clamp_timeout (t : option Z) : Z :=
  let n := match t with Some n => if (n =? 0)%Z then DEFAULT_timeoutMs else n
           | None => DEFAULT_timeoutMs end in
  Z.min (Z.max n 1000) 300000.

(* [src/backend/src/execution/tool-system.js:239-262] normalizeDefinition *)
Definition normalizeDefinition (d : raw_tool) : definition :=
  let perms := default [] (r_permissions d) in
  Definition_
    (if truthy (r_id d) then default "" (r_id d)
     else "tool-" ++ (if truthy (r_name d) then default "" (r_name d) else "unknown"))
    (r_name d)
    (default "" (r_description d))
    (default (inferCategory (r_name d)) (r_category d))
    (default (Schema [] []) (r_inputSchema d))
    (default (inferRisk (r_name d) perms) (r_riskLevel d))
    perms
    (clamp_timeout (r_timeoutMs d))
    (default false (r_supportsDryRun d))
    (default false (r_idempotent d))
    (default false (r_requiresApproval d))
    (default false (r_disabled d) || bool_decide (r_status d = Some "disabled"))
    (negb (bool_decide (r_available d = Some false)))
    (default DeliverySemantics.UNKNOWN (r_delivery d)).

(* [src/backend/src/execution/tool-system.js:356-360] type tests *)
Definition has_type (t : prop_type) (v : jsval) : bool :=
  match t, v with
  | TString, JStr _ | TNumber, JNum _ | TBoolean, JBool _ | TArray, JArr _ | TObject, JObj _ => true
  | _, _ => false
  end.

Definition type_phrase (t : prop_type) : string :=
  match t with
  | TString => "a string" | TNumber => "a number" | TBoolean => "a boolean"
  | TArray => "an array" | TObject => "an object"
  end.

(* [src/backend/src/execution/tool-system.js:345-364] validateInput *)
Definition validateInput (s : schema) (params : jsval) : option string :=
  match list_find (λ k, prop params k = JUndef) (required s) with
  | Some (_, k) => Some ("Missing required parameter: " ++ k)
  | None =>
      match list_find (λ p, prop params p.1 ≠ JUndef ∧ has_type p.2 (prop params p.1) = false)
              (properties s) with
      | Some (_, (k, t)) => Some ("Parameter " ++ k ++ " must be " ++ type_phrase t)
      | None => None
      end
  end.

(** Limits are [Number(limits.x) || default], capped. *)
(* [src/backend/src/execution/tool-system.js:328-343] truncateOutput *)
Definition truncateOutput (text : string) (maxOutputBytes maxLines : option N)
    : string * bool :=
  let limit (d cap : N) (o : option N) :=
    N.min (match o with Some (Npos n) => Npos n | _ => d end) cap in
  let maxBytes := limit DEFAULT_maxOutputBytes (256 * 1024)%N maxOutputBytes in
  let maxL := limit DEFAULT_maxLines 2000%N maxLines in
  let lines := split_on newline text in
  let '(text, truncated) :=
    if decide (maxL < N.of_nat (length lines))%N
    then (js_join (String newline "") (take (N.to_nat maxL) lines), true)
    else (text, false) in
  if decide (maxBytes < N.of_nat (String.length text))%N
  then (String.substring 0 (N.to_nat maxBytes) text, true)
  else (text, truncated).

(** The status of an execution result, and the fields derived from it. *)
(* [src/backend/src/execution/tool-system.js:293-326] createExecutionResult *)
Definition result_status (status : option ToolStatus.t) (success : option bool) : ToolStatus.t :=
  match status with
  | Some s => s
  | None => if decide (success = Some false) then ToolStatus.FAILURE else ToolStatus.SUCCESS
  end.

(** ** Properties *)

Lemma compareRisk_refl a : compareRisk a a = 0%Z.
Proof. unfold compareRisk. lia. Qed.

Lemma compareRisk_trans a b c :
  (0 ≤ compareRisk a b)%Z → (0 ≤ compareRisk b c)%Z → (0 ≤ compareRisk a c)%Z.
Proof. unfold compareRisk. lia. Qed.

Lemma compareRisk_antisym a b : compareRisk a b = 0%Z → a = b.
Proof. by destruct a, b. Qed.

Lemma list_find_none {A} (P : A → Prop) `{∀ x, Decision (P x)} l :
  list_find P l = None ↔ Forall (λ x, ¬ P x) l.
Proof. apply list_find_None. Qed.

Definition well_typed (s : schema) (params : jsval) : Prop :=
  (∀ k, k ∈ required s → prop params k ≠ JUndef) ∧
  (∀ k t, (k, t) ∈ properties s → prop params k ≠ JUndef → has_type t (prop params k) = true).

Lemma validateInput_spec s params : validateInput s params = None ↔ well_typed s params.
Proof.
  unfold validateInput, well_typed. destruct (list_find _ (required s)) as [[i k]|] eqn:E.
  - apply list_find_Some in E as (Hk & Hp & _). apply list_elem_of_lookup_2 in Hk.
    split; [done|]. intros [Hr _]. by destruct (Hr k Hk).
  - apply list_find_none in E. rewrite Forall_forall in E.
    destruct (list_find _ (properties s)) as [[i [k t]]|] eqn:E'.
    + apply list_find_Some in E' as (Hk & [Hp Ht] & _). apply list_elem_of_lookup_2 in Hk.
      split; [done|]. intros [_ Hty]. simpl in Hp, Ht.
      rewrite (Hty k t Hk Hp) in Ht. done.
    + apply list_find_none in E'. rewrite Forall_forall in E'. split; [|done]. intros _.
      split; [exact E|]. intros k t Hk Hp. specialize (E' (k, t) Hk). simpl in E'.
      destruct (has_type t (prop params k)); [done|]. exfalso. by apply E'.
Qed.

Lemma split_on_nonempty c s : split_on c s ≠ [].
Proof. destruct s; simpl; [done|]. case_decide; [done|]. by case_match. Qed.

Lemma substring_length n s : (String.length (String.substring 0 n s) ≤ n)%nat.
Proof. revert s. induction n as [|n IH]; intros [|c s]; simpl; [lia|lia|lia|]. specialize (IH s). lia. Qed.

Lemma js_join_split c s : js_join (String c "") (split_on c s) = s.
Proof.
  induction s as [|d s IH]; [done|]. simpl. pose proof (split_on_nonempty c s) as Hn.
  case_decide as Hd.
  - subst d. destruct (split_on c s) as [|w ws]; [done|].
    change (js_join (String c "") ("" :: w :: ws)) with (String c (js_join (String c "") (w :: ws))).
    by rewrite IH.
  - destruct (split_on c s) as [|w ws]; [done|]. rewrite <- IH.
    by destruct ws.
Qed.

Lemma split_on_app c a b :
  contains (String c "") a = false →
  split_on c (a ++ String c b) = a :: split_on c b.
Proof.
  induction a as [|d a IH]; simpl; intros H.
  - change ("" ++ String c b) with (String c b). simpl. by rewrite decide_True.
  - change (String d a ++ String c b) with (String d (a ++ String c b)). simpl.
    destruct (ascii_dec c d) as [->|Hne]; [by destruct a|].
    rewrite decide_False by done. by rewrite IH.
Qed.

Lemma split_on_pieces c s : Forall (λ w, contains (String c "") w = false) (split_on c s).
Proof.
  induction s as [|d s IH]; simpl; [by repeat constructor|]. case_decide as Hd.
  - by constructor.
  - destruct (split_on c s) as [|w ws].
    + repeat constructor. simpl. by destruct (ascii_dec c d).
    + apply Forall_cons in IH as [Hw Hws]. constructor; [|done]. simpl.
      destruct (ascii_dec c d); [done|]. exact Hw.
Qed.

Lemma split_single c w : contains (String c "") w = false → split_on c w = [w].
Proof.
  induction w as [|d w IH]; simpl; [done|]. intros H.
  destruct (ascii_dec c d) as [->|Hne]; [by destruct w|].
  rewrite decide_False by done. by rewrite IH.
Qed.

Lemma split_join c ws :
  ws ≠ [] → Forall (λ w, contains (String c "") w = false) ws →
  split_on c (js_join (String c "") ws) = ws.
Proof.
  intros Hn Hws. induction Hws as [|w ws Hw Hws IH]; [done|].
  destruct ws as [|w' ws]; [by apply split_single|].
  change (js_join (String c "") (w :: w' :: ws)) with
    (w ++ String c (js_join (String c "") (w' :: ws))).
  rewrite split_on_app by done. by rewrite IH.
Qed.

(** Truncating a text never adds a line. *)
Lemma split_substring c n s : (length (split_on c (String.substring 0 n s)) ≤ length (split_on c s))%nat.
Proof.
  revert n. induction s as [|d s IH]; intros [|n]; simpl; try done.
  - case_decide; simpl; [lia|]. case_match; simpl; lia.
  - specialize (IH n). case_decide; simpl; [lia|].
    pose proof (split_on_nonempty c s). repeat case_match; simpl in *; try done; lia.
Qed.

Definition effective_limit (d cap : N) (o : option N) : N :=
  N.min (match o with Some (Npos n) => Npos n | _ => d end) cap.

(** The checks around every tool execution.  [validateInput] accepts
    exactly the parameters whose required fields are present and whose declared
    fields have the declared type; and whatever a tool prints, the text kept
    for the model has at most the configured bytes (never over 256 KiB) and
    lines (never over 2000), and is unchanged when nothing is flagged
    truncated. *)
Theorem tool_io_checked s params text mb ml :
  (validateInput s params = None ↔ well_typed s params) ∧
  let bytes := effective_limit DEFAULT_maxOutputBytes (256 * 1024) mb in
  let lines := effective_limit DEFAULT_maxLines 2000 ml in
  let (out, truncated) := truncateOutput text mb ml in
  (N.of_nat (String.length out) ≤ bytes)%N ∧
  (N.of_nat (length (split_on newline out)) ≤ lines)%N ∧
  (truncated = false → out = text) ∧
  (truncated = true → (bytes < N.of_nat (String.length text))%N ∨
                      (lines < N.of_nat (length (split_on newline text)))%N).
Proof.
  split; [apply validateInput_spec|]. cbn zeta. unfold truncateOutput.
  fold (effective_limit DEFAULT_maxOutputBytes (256 * 1024) mb).
  fold (effective_limit DEFAULT_maxLines 2000 ml).
  assert (0 < effective_limit DEFAULT_maxLines 2000 ml)%N as Hpos.
  { unfold effective_limit, DEFAULT_maxLines. destruct ml as [[|n]|]; lia. }
  set (bytes := effective_limit _ (256 * 1024) mb).
  set (lines := effective_limit _ 2000 ml) in *.
  set (cut := λ t : string, String.substring 0 (N.to_nat bytes) t).
  assert (∀ t, (N.of_nat (String.length (cut t)) ≤ bytes)%N) as Hcut.
  { intros t. unfold cut. pose proof (substring_length (N.to_nat bytes) t). lia. }
  assert (∀ t, (length (split_on newline (cut t)) ≤ length (split_on newline t))%nat) as Hlines
    by (intros t; apply split_substring).
  case_decide as Hl.
  - assert (split_on newline (js_join (String newline "")
      (take (N.to_nat lines) (split_on newline text)))
      = take (N.to_nat lines) (split_on newline text)) as Es.
    { apply split_join; [|apply Forall_take, split_on_pieces].
      intros E. apply (f_equal length) in E. rewrite length_take in E. simpl in E. lia. }
    assert (length (take (N.to_nat lines) (split_on newline text)) ≤ N.to_nat lines)%nat as Ht
      by (rewrite length_take; lia).
    case_decide as Hb.
    + split_and!; [apply Hcut| |done|by right].
      pose proof (Hlines (js_join (String newline "") (take (N.to_nat lines)
        (split_on newline text)))) as H. rewrite Es in H. lia.
    + split_and!; [lia|rewrite Es; lia|done|by right].
  - case_decide as Hb.
    + split_and!; [apply Hcut| |done|by left]. pose proof (Hlines text) as H.
      lia.
    + split_and!; [lia|lia|done|done].
Qed.
