(* ===== verification/Paths.v ===== *)
(** POSIX paths as Node's [path] module treats them: [path.resolve] of an
    absolute base and a relative or absolute path, [path.isAbsolute],
    [path.dirname], and the "inside the workspace" test the code uses. *)

From S2P Require Import Prelude JsMap JsValue ToolSystem.

Local Open Scope string_scope.

Definition slash : ascii := "/"%char.

(** [path.isAbsolute(p)] *)
Definition isAbsolute (p : string) : bool := starts_with "/" p.

(** One segment of a path being normalized: empty and "." are dropped, ".."
    removes the last segment (the root has no parent). *)
Definition push_segment (acc : list string) (seg : string) : list string :=
  if decide (seg = "" ∨ seg = ".") then acc
  else if decide (seg = "..") then take (length acc - 1) acc
  else (acc ++ [seg])%list.

Definition segments (p : string) : list string := foldl push_segment [] (split_on slash p).

Definition render_path (segs : list string) : string := "/" ++ js_join "/" segs.

(** [path.resolve(base, p)] for an absolute, normalized [base]. *)
Definition path_resolve (base p : string) : string :=
  render_path (if isAbsolute p then segments p
               else foldl push_segment (segments base) (split_on slash p)).

(** [abs === ws || abs.startsWith(ws + path.sep)] *)
Definition inside_root (ws abs : string) : bool :=
  String.eqb abs ws || starts_with (ws ++ "/") abs.

(** A segment of a normalized path. *)
Definition plain (seg : string) : Prop :=
  seg ≠ "" ∧ seg ≠ "." ∧ seg ≠ ".." ∧ contains "/" seg = false.

Lemma push_segment_plain acc seg :
  Forall plain acc → contains "/" seg = false → Forall plain (push_segment acc seg).
Proof.
  intros Hacc Hs. unfold push_segment. case_decide as H1; [done|]. case_decide as H2.
  - by apply Forall_take.
  - apply Forall_app. split; [done|]. repeat constructor; naive_solver.
Qed.

Lemma fold_segments_plain acc l :
  Forall plain acc → Forall (λ w, contains "/" w = false) l →
  Forall plain (foldl push_segment acc l).
Proof.
  intros Hacc Hl. revert acc Hacc. induction Hl as [|w l Hw Hl IH]; intros acc Hacc; simpl; [done|].
  apply IH. by apply push_segment_plain.
Qed.

Lemma segments_plain p : Forall plain (segments p).
Proof. apply fold_segments_plain; [constructor|apply split_on_pieces]. Qed.

Lemma plain_pieces segs : Forall plain segs → Forall (λ w, contains "/" w = false) segs.
Proof. intros H. eapply Forall_impl; [exact H|]. by intros w (_ & _ & _ & ?). Qed.

Lemma fold_plain acc segs :
  Forall plain segs → foldl push_segment acc segs = (acc ++ segs)%list.
Proof.
  intros H. revert acc. induction H as [|w segs (H1 & H2 & H3 & H4) _ IH]; intros acc; simpl.
  - by rewrite app_nil_r.
  - rewrite IH. unfold push_segment. rewrite decide_False by naive_solver.
    rewrite decide_False by done. by rewrite <- app_assoc.
Qed.

Lemma split_slash_render segs :
  Forall plain segs → split_on slash (render_path segs) = "" :: (if segs is [] then [""] else segs).
Proof.
  intros H. unfold render_path. change ("/" ++ js_join "/" segs) with (String slash (js_join "/" segs)).
  simpl. f_equal. destruct segs as [|w segs]; [done|].
  apply split_join; [done|]. by apply plain_pieces.
Qed.

(** Rendering and splitting are inverse on normalized paths. *)
Lemma segments_render segs : Forall plain segs → segments (render_path segs) = segs.
Proof.
  intros H. unfold segments. rewrite split_slash_render by done.
  destruct segs as [|w segs]; [done|]. simpl foldl.
  rewrite fold_plain by (by inversion H). unfold push_segment; simpl.
  inversion H as [|? ? (H1 & H2 & H3 & H4) _]; subst.
  rewrite decide_False by naive_solver. by rewrite decide_False by done.
Qed.

Lemma path_resolve_normal base p :
  ∃ segs, Forall plain segs ∧ path_resolve base p = render_path segs.
Proof.
  unfold path_resolve. destruct (isAbsolute p); eexists; (split; [|done]).
  - apply segments_plain.
  - apply fold_segments_plain; [apply segments_plain|apply split_on_pieces].
Qed.

Lemma starts_with_split p s : starts_with p s = true → ∃ r, s = p ++ r.
Proof.
  unfold starts_with. revert s. induction p as [|c p IH]; intros s H; [by exists s|].
  destruct s as [|d s]; [done|]. simpl in H. destruct (ascii_dec c d) as [->|]; [|done].
  destruct (IH s H) as [r ->]. by exists r.
Qed.

Lemma starts_with_app p r : starts_with p (p ++ r) = true.
Proof.
  unfold starts_with. induction p as [|c p IH]; [by destruct r|].
  change (String c p ++ r) with (String c (p ++ r)). simpl. by destruct (ascii_dec c c).
Qed.

Lemma append_assoc (a b c : string) : (a ++ b) ++ c = a ++ b ++ c.
Proof. induction a as [|x a IH]; [done|]. change (String x ((a ++ b) ++ c) = String x (a ++ b ++ c)).
  by f_equal. Qed.

Lemma split_on_join_app c ws r :
  ws ≠ [] → Forall (λ w, contains (String c "") w = false) ws →
  split_on c (js_join (String c "") ws ++ String c r) = (ws ++ split_on c r)%list.
Proof.
  intros Hn Hws. induction Hws as [|w ws Hw Hws IH]; [done|].
  destruct ws as [|w' ws]; [by apply split_on_app|].
  change (js_join (String c "") (w :: w' :: ws)) with
    (w ++ String c (js_join (String c "") (w' :: ws))).
  rewrite append_assoc.
  change (String c (js_join (String c "") (w' :: ws)) ++ String c r) with
    (String c (js_join (String c "") (w' :: ws) ++ String c r)).
  rewrite split_on_app by done. by rewrite IH.
Qed.

(** The string test is containment of normalized paths, except that nothing
    but the root itself is "inside" the root directory "/". *)
Lemma inside_root_spec root segs :
  Forall plain root → Forall plain segs →
  inside_root (render_path root) (render_path segs) = true ↔
  segs = root ∨ (root ≠ [] ∧ ∃ rest, segs = (root ++ rest)%list ∧ rest ≠ []).
Proof.
  intros Hr Hs. unfold inside_root. rewrite orb_true_iff, String.eqb_eq. split.
  - intros [E|E].
    + left. apply (f_equal segments) in E. by rewrite !segments_render in E.
    + apply starts_with_split in E as [r E]. apply (f_equal (split_on slash)) in E.
      rewrite split_slash_render in E by done. destruct root as [|w root].
      * change ("" :: match segs with [] => [""] | _ => segs end = "" :: "" :: split_on slash r) in E.
        destruct segs as [|s segs].
        -- injection E as E. by destruct (split_on_nonempty slash r).
        -- injection E as E _. inversion Hs as [|? ? (H1 & _) _]; subst. done.
      * right. split; [done|]. unfold render_path in E.
        rewrite !append_assoc in E.
        change (split_on slash ("/" ++ js_join "/" (w :: root) ++ "/" ++ r)) with
          ("" :: split_on slash (js_join "/" (w :: root) ++ String slash r)) in E.
        apply (f_equal tail) in E. cbn [tail] in E.
        pose proof (split_on_join_app slash (w :: root) r ltac:(done) (plain_pieces _ Hr)) as E'.
        change (String slash "") with "/" in E'.
        rewrite E' in E. exists (split_on slash r). destruct segs as [|s segs].
        -- exfalso. destruct root; simpl in E; injection E as E1 E2;
             inversion Hr as [|? ? (H1 & _) _]; subst; done.
        -- split; [done|apply split_on_nonempty].
  - intros [->|(Hn & rest & -> & Hne)]; [by left|right].
    destruct root as [|w root]; [done|]. unfold render_path.
    assert (js_join "/" ((w :: root) ++ rest)%list = js_join "/" (w :: root) ++ "/" ++ js_join "/" rest)
      as ->.
    { clear - Hne. revert w. induction root as [|w' root IH]; intros w.
      - by destruct rest.
      - change (w ++ "/" ++ js_join "/" ((w' :: root) ++ rest)%list =
          (w ++ "/" ++ js_join "/" (w' :: root)) ++ "/" ++ js_join "/" rest).
        by rewrite IH, !append_assoc. }
    rewrite <- !append_assoc. apply starts_with_app.
Qed.

(** ** The workspace root

    What the process sees of its host: the working directory, the
    [WORKSPACE_ROOT] variable and [fs.realpathSync] ([None]: it throws). *)
Record host := Host {
  h_cwd : string;
  h_env_root : option string;
  h_realpath : string → option string;
}.

(* [src/backend/src/execution/changesets.js:32-41] resolveWorkspaceRoot *)
Definition resolveWorkspaceRoot (h : host) (root : option string) : string :=
  let chosen := or_str (default "" root) (or_str (default "" (h_env_root h)) (h_cwd h)) in
  let resolved := path_resolve (h_cwd h) chosen in
  default resolved (h_realpath h resolved).

(** Without "..", a relative path stays below its base. *)
Lemma fold_push_descend acc l :
  ".." ∉ l → ∃ rest, foldl push_segment acc l = (acc ++ rest)%list.
Proof.
  revert acc. induction l as [|w l IH]; intros acc Hl; simpl; [exists []; by rewrite app_nil_r|].
  apply not_elem_of_cons in Hl as [Hw Hl]. destruct (IH (push_segment acc w) Hl) as [rest ->].
  unfold push_segment. case_decide; [by eexists|]. rewrite decide_False by done.
  rewrite <- app_assoc. by eexists.
Qed.

Lemma path_resolve_descend root p :
  root ≠ [] → Forall plain root → isAbsolute p = false → ".." ∉ split_on slash p →
  inside_root (render_path root) (path_resolve (render_path root) p) = true.
Proof.
  intros Hne Hroot Ha Hp. unfold path_resolve. rewrite Ha, segments_render by done.
  destruct (fold_push_descend root _ Hp) as [rest E]. rewrite E.
  apply inside_root_spec; [done| |].
  - rewrite <- E. apply fold_segments_plain; [done|apply split_on_pieces].
  - destruct rest as [|w rest]; [left; by rewrite app_nil_r|right]. split; [done|].
    by exists (w :: rest).
Qed.
