(* ===== verification/Policy.v ===== *)
(** Execution policy: backend/src/execution/execution-policy.js.

    Autonomy presets, the policy a run starts with, the per-tool gate and the
    decision whether a call needs a human.  A policy's modes are strings, as
    requests supply them; the enums give the strings the code compares with. *)

From S2P Require Import Prelude JsMap JsValue ToolSystem.

Local Open Scope string_scope.

Module AutonomyMode.
(* [src/backend/src/execution/execution-policy.js:12-17] AutonomyMode *)
Inductive t : Set := READ_ONLY | ASSISTED | AUTONOMOUS | RESTRICTED_AUTONOMOUS.

(* [src/backend/src/execution/execution-policy.js:12-17] AutonomyMode *)
Definition value (x : t) : string :=
  match x with
  | READ_ONLY => "read_only"
  | ASSISTED => "assisted"
  | AUTONOMOUS => "autonomous"
  | RESTRICTED_AUTONOMOUS => "restricted_autonomous"
  end.

#[global] Instance t_eq_dec : EqDecision t.
Proof. solve_decision. Defined.
End AutonomyMode.

Module ApprovalMode.
(* [src/backend/src/execution/execution-policy.js:19-24] ApprovalMode *)
Inductive t : Set := AUTO_APPROVE_LOW | APPROVE_WRITES | APPROVE_DANGEROUS | APPROVE_ALL.

(* [src/backend/src/execution/execution-policy.js:19-24] ApprovalMode *)
Definition value (x : t) : string :=
  match x with
  | AUTO_APPROVE_LOW => "AUTO_APPROVE_LOW"
  | APPROVE_WRITES => "APPROVE_WRITES"
  | APPROVE_DANGEROUS => "APPROVE_DANGEROUS"
  | APPROVE_ALL => "APPROVE_ALL"
  end.

#[global] Instance t_eq_dec : EqDecision t.
Proof. solve_decision. Defined.
End ApprovalMode.

Module NetworkMode.
(* [src/backend/src/execution/execution-policy.js:26-30] NetworkMode *)
Inductive t : Set := DISABLED | ALLOWLIST | ENABLED.

(* [src/backend/src/execution/execution-policy.js:26-30] NetworkMode *)
Definition value (x : t) : string :=
  match x with
  | DISABLED => "disabled"
  | ALLOWLIST => "allowlist"
  | ENABLED => "enabled"
  end.

#[global] Instance t_eq_dec : EqDecision t.
Proof. solve_decision. Defined.
End NetworkMode.

(* [src/backend/src/execution/execution-policy.js:32-73] preset *)
Record preset := Preset {
  ps_approvalMode : string;
  ps_writeAccess : bool;
  ps_networkAccess : string;
  ps_maxExecutionTimeMs : Z;
  ps_maxOutputSize : Z;
}.

(** [AUTONOMY_PRESETS[mode]]; [undefined] for a string that is no mode. *)
(* [src/backend/src/execution/execution-policy.js:32-73] AUTONOMY_PRESETS *)
Definition AUTONOMY_PRESETS (mode : string) : option preset :=
  if decide (mode = AutonomyMode.value AutonomyMode.READ_ONLY) then
    Some (Preset (ApprovalMode.value ApprovalMode.APPROVE_ALL) false
            (NetworkMode.value NetworkMode.DISABLED) 120000 (16 * 1024))
  else if decide (mode = AutonomyMode.value AutonomyMode.ASSISTED) then
    Some (Preset (ApprovalMode.value ApprovalMode.APPROVE_WRITES) false
            (NetworkMode.value NetworkMode.ALLOWLIST) 300000 (24 * 1024))
  else if decide (mode = AutonomyMode.value AutonomyMode.AUTONOMOUS) then
    Some (Preset (ApprovalMode.value ApprovalMode.APPROVE_DANGEROUS) true
            (NetworkMode.value NetworkMode.ALLOWLIST) 600000 (32 * 1024))
  else if decide (mode = AutonomyMode.value AutonomyMode.RESTRICTED_AUTONOMOUS) then
    Some (Preset (ApprovalMode.value ApprovalMode.APPROVE_DANGEROUS) true
            (NetworkMode.value NetworkMode.DISABLED) 180000 (16 * 1024))
  else None.

Definition assisted_preset : preset :=
  Preset (ApprovalMode.value ApprovalMode.APPROVE_WRITES) false
    (NetworkMode.value NetworkMode.ALLOWLIST) 300000 (24 * 1024).

(* [src/backend/src/execution/execution-policy.js:80-99] policy *)
Record policy := Policy {
  autonomyMode : string;
  approvalMode : string;
  allowedTools : list string;
  deniedTools : list string;
  allowedCommands : list string;
  deniedCommands : list string;
  workspaceRoot : string;
  networkAccess : string;
  networkAllowlist : list string;
  writeAccess : bool;
  allowDeploy : bool;
  allowPush : bool;
  allowInstall : bool;
  maxExecutionTimeMs : Z;
  maxOutputSize : Z;
  maxSteps : Z;
  maxToolCalls : Z;
}.

#[export] Instance policy_eta : Eta policy := λ p,
  Policy (autonomyMode p) (approvalMode p) (allowedTools p) (deniedTools p) (allowedCommands p)
    (deniedCommands p) (workspaceRoot p) (networkAccess p) (networkAllowlist p) (writeAccess p)
    (allowDeploy p) (allowPush p) (allowInstall p) (maxExecutionTimeMs p) (maxOutputSize p)
    (maxSteps p) (maxToolCalls p).

(** The object a caller passes to [defaultPolicy]; a missing field, a field of
    another type where the code tests the type, and [undefined] are [None]. *)
(* [src/backend/src/execution/execution-policy.js:77-98] overrides *)
Record overrides := Overrides {
  o_autonomyMode : option string;
  o_approvalMode : option string;
  o_allowedTools : option (list string);
  o_deniedTools : option (list string);
  o_allowedCommands : option (list string);
  o_deniedCommands : option (list string);
  o_workspaceRoot : option string;
  o_networkAccess : option string;
  o_networkAllowlist : option (list string);
  o_writeAccess : option jsval;
  o_allowDeploy : option bool;
  o_allowPush : option bool;
  o_allowInstall : option bool;
  o_maxExecutionTimeMs : option Z;
  o_maxOutputSize : option Z;
  o_maxSteps : option Z;
  o_maxToolCalls : option Z;
}.

Definition no_overrides : overrides :=
  Overrides None None None None None None None None None None None None None None None None None.

#[export] Instance overrides_eta : Eta overrides := λ o,
  Overrides (o_autonomyMode o) (o_approvalMode o) (o_allowedTools o) (o_deniedTools o)
    (o_allowedCommands o) (o_deniedCommands o) (o_workspaceRoot o) (o_networkAccess o)
    (o_networkAllowlist o) (o_writeAccess o) (o_allowDeploy o) (o_allowPush o) (o_allowInstall o)
    (o_maxExecutionTimeMs o) (o_maxOutputSize o) (o_maxSteps o) (o_maxToolCalls o).

(** [x || d] for an optional string [x]. *)
Definition or_default (x : option string) (d : string) : string := or_str (default "" x) d.

(** [default_root] is [process.env.WORKSPACE_ROOT || process.cwd()]. *)
(* [src/backend/src/execution/execution-policy.js:77-100] defaultPolicy *)
Definition defaultPolicy (default_root : string) (o : overrides) : policy :=
  let mode := or_default (o_autonomyMode o) (AutonomyMode.value AutonomyMode.ASSISTED) in
  let ps := default assisted_preset (AUTONOMY_PRESETS mode) in
  {| autonomyMode := mode;
     approvalMode := or_default (o_approvalMode o) (ps_approvalMode ps);
     allowedTools := default [] (o_allowedTools o);
     deniedTools := default ["git_push"; "deploy_preview"; "install_package"] (o_deniedTools o);
     allowedCommands := default [] (o_allowedCommands o);
     deniedCommands := default [] (o_deniedCommands o);
     workspaceRoot := or_default (o_workspaceRoot o) default_root;
     networkAccess := or_default (o_networkAccess o) (ps_networkAccess ps);
     networkAllowlist := default [] (o_networkAllowlist o);
     writeAccess := match o_writeAccess o with
                    | Some v => truthy_val v | None => ps_writeAccess ps end;
     allowDeploy := false;
     allowPush := false;
     allowInstall := false;
     maxExecutionTimeMs := default (ps_maxExecutionTimeMs ps) (o_maxExecutionTimeMs o);
     maxOutputSize := default (ps_maxOutputSize ps) (o_maxOutputSize o);
     maxSteps := default 12%Z (o_maxSteps o);
     maxToolCalls := default 20%Z (o_maxToolCalls o) |}.

(** The result carries its reason. *)
(* [src/backend/src/execution/execution-policy.js:102-124] isToolAllowedByPolicy *)
Definition isToolAllowedByPolicy (pol : option policy) (toolName : string)
    (def : option definition) : bool * string :=
  match pol with
  | None => (true, "no-policy")
  | Some p =>
      if decide (toolName ∈ deniedTools p) then (false, "tool denied by policy: " ++ toolName)
      else if decide (allowedTools p ≠ [] ∧ toolName ∉ allowedTools p) then
        (false, "tool not in policy allowlist: " ++ toolName)
      else if decide ((d_disabled <$> def) = Some true ∧ toolName ≠ "deploy_preview"
                      ∧ toolName ∉ allowedTools p) then
        (false, "tool disabled by default: " ++ toolName)
      else if decide ((d_category <$> def) = Some ToolCategory.DEPLOYMENT ∧ allowDeploy p = false) then
        (false, "deployment disabled by policy")
      else if decide (toolName = "git_push" ∧ allowPush p = false) then
        (false, "git push disabled by policy")
      else if decide (toolName = "install_package" ∧ allowInstall p = false) then
        (false, "package install disabled by policy")
      else (true, "allowed")
  end.

(* [src/backend/src/execution/execution-policy.js:129-153] needsApproval *)
Definition needsApproval (pol : option policy) (def : option definition)
    (riskLevel : option RiskLevel.t) : bool * string :=
  let mode := or_default (approvalMode <$> pol) (ApprovalMode.value ApprovalMode.APPROVE_WRITES) in
  let risk := match riskLevel with
              | Some r => r | None => default RiskLevel.LOW (d_riskLevel <$> def) end in
  let name := default "undefined" (def ≫= d_name) in
  if decide (mode = ApprovalMode.value ApprovalMode.APPROVE_ALL) then (true, "APPROVE_ALL")
  else if decide ((d_requiresApproval <$> def) = Some true) then
    if decide (mode = ApprovalMode.value ApprovalMode.AUTO_APPROVE_LOW ∧ risk = RiskLevel.LOW) then
      (false, "AUTO_APPROVE_LOW: low-risk auto-approved")
    else (true, "tool requires approval: " ++ name)
  else if decide (mode = ApprovalMode.value ApprovalMode.APPROVE_WRITES) then
    if decide (0 ≤ compareRisk risk RiskLevel.MEDIUM)%Z then
      (true, "APPROVE_WRITES: " ++ RiskLevel.value risk ++ " action")
    else (false, "low-risk read/test auto-approved")
  else if decide (mode = ApprovalMode.value ApprovalMode.APPROVE_DANGEROUS) then
    if decide (0 ≤ compareRisk risk RiskLevel.HIGH)%Z then
      (true, "APPROVE_DANGEROUS: " ++ RiskLevel.value risk ++ " action")
    else (false, "MEDIUM and below auto-approved")
  else if decide (mode = ApprovalMode.value ApprovalMode.AUTO_APPROVE_LOW) then
    if decide (risk = RiskLevel.LOW) then (false, "AUTO_APPROVE_LOW")
    else (true, RiskLevel.value risk ++ " action needs approval")
  else (true, "default-deny").

(** ** Properties *)

(** The largest risk that a mode lets through without asking, for a tool
    that does not itself require approval; [None]: everything asks. *)
Definition mode_ceiling (mode : string) : option RiskLevel.t :=
  if decide (mode = ApprovalMode.value ApprovalMode.APPROVE_WRITES) then Some RiskLevel.LOW
  else if decide (mode = ApprovalMode.value ApprovalMode.APPROVE_DANGEROUS) then Some RiskLevel.MEDIUM
  else if decide (mode = ApprovalMode.value ApprovalMode.AUTO_APPROVE_LOW) then Some RiskLevel.LOW
  else None.

Lemma or_default_truthy s d : truthy_str s = true → or_default (Some s) d = s.
Proof. intros H. unfold or_default, or_str. simpl. by rewrite H. Qed.

Lemma needsApproval_dangerous pol def r :
  (0 ≤ compareRisk r RiskLevel.HIGH)%Z → (needsApproval pol def (Some r)).1 = true.
Proof.
  intros Hr. unfold needsApproval. repeat case_decide; try done;
    destruct r; unfold compareRisk in *; simpl in *; naive_solver lia.
Qed.

Lemma needsApproval_ceiling p def r :
  truthy_str (approvalMode p) = true → d_requiresApproval def = false →
  (needsApproval (Some p) (Some def) (Some r)).1 = false ↔
  ∃ c, mode_ceiling (approvalMode p) = Some c ∧ (compareRisk r c ≤ 0)%Z.
Proof.
  intros Hm Hd. unfold needsApproval, mode_ceiling.
  cbn [fmap option_fmap option_map]. rewrite Hd, or_default_truthy by done. generalize dependent (approvalMode p). intros m Hm.
  destruct (decide (m = ApprovalMode.value ApprovalMode.APPROVE_ALL)) as [->|]; [naive_solver|].
  rewrite (decide_False (P := Some false = Some true)) by done.
  destruct r; repeat case_decide; simplify_eq; unfold compareRisk in *; simpl in *;
    split; naive_solver lia.
Qed.

(** When a call asks for a human.  HIGH and CRITICAL actions always need
    approval, whatever the policy, the approval mode (an unknown string
    included) or the tool.  A tool that requires approval is only let through
    by AUTO_APPROVE_LOW at LOW risk; any other tool exactly when the risk is
    within the mode's ceiling (LOW, or MEDIUM under APPROVE_DANGEROUS). *)
Theorem approval_decision pol p def r :
  ((0 ≤ compareRisk r RiskLevel.HIGH)%Z → (needsApproval pol (Some def) (Some r)).1 = true) ∧
  (truthy_str (approvalMode p) = true →
   (needsApproval (Some p) (Some def) (Some r)).1 = false ↔
   if d_requiresApproval def
   then approvalMode p = ApprovalMode.value ApprovalMode.AUTO_APPROVE_LOW ∧ r = RiskLevel.LOW
   else ∃ c, mode_ceiling (approvalMode p) = Some c ∧ (compareRisk r c ≤ 0)%Z).
Proof.
  split; [apply needsApproval_dangerous|]. intros Hm. destruct (d_requiresApproval def) eqn:Hd.
  - unfold needsApproval. cbn [fmap option_fmap option_map].
    rewrite Hd, or_default_truthy by done. revert Hm. generalize (approvalMode p). intros m Hm.
    destruct (decide (m = ApprovalMode.value ApprovalMode.APPROVE_ALL)) as [->|]; [naive_solver|].
    rewrite (decide_True (P := Some true = Some true)) by done. case_decide; naive_solver.
  - by apply needsApproval_ceiling.
Qed.

Lemma isToolAllowed_spec q tool def :
  (isToolAllowedByPolicy (Some q) tool (Some def)).1 = true ↔
  tool ∉ deniedTools q ∧ ¬ (allowedTools q ≠ [] ∧ tool ∉ allowedTools q) ∧
  ¬ (Some (d_disabled def) = Some true ∧ tool ≠ "deploy_preview" ∧ tool ∉ allowedTools q) ∧
  ¬ (Some (d_category def) = Some ToolCategory.DEPLOYMENT ∧ allowDeploy q = false) ∧
  ¬ (tool = "git_push" ∧ allowPush q = false) ∧
  ¬ (tool = "install_package" ∧ allowInstall q = false).
Proof.
  unfold isToolAllowedByPolicy. cbn [fmap option_fmap option_map].
  repeat case_decide; cbn [fst]; (split; [intros ?|intros (?&?&?&?&?&?)]); try done;
    by split_and!.
Qed.

(** A policy built by [defaultPolicy] never lets a deployment, a git push
    or a package install through, whatever the request overrides (its own
    [allowDeploy], [allowPush] and [allowInstall] included); under any policy a
    denied tool is refused, a non-empty allow-list is exhaustive, and a tool
    disabled by default needs to be on it. *)
Theorem default_policy_narrow root o tool def :
  let p := defaultPolicy root o in
  (tool = "git_push" ∨ tool = "install_package" ∨
   d_category def = ToolCategory.DEPLOYMENT →
   (isToolAllowedByPolicy (Some p) tool (Some def)).1 = false) ∧
  (∀ q, (isToolAllowedByPolicy (Some q) tool (Some def)).1 = true →
     tool ∉ deniedTools q ∧
     (allowedTools q ≠ [] → tool ∈ allowedTools q) ∧
     (d_disabled def = true → tool ≠ "deploy_preview" → tool ∈ allowedTools q) ∧
     (d_category def = ToolCategory.DEPLOYMENT → allowDeploy q = true) ∧
     (tool = "git_push" → allowPush q = true) ∧
     (tool = "install_package" → allowInstall q = true)).
Proof.
  cbn zeta. split.
  - intros H. apply not_true_iff_false. rewrite isToolAllowed_spec.
    intros (_ & _ & _ & H1 & H2 & H3). destruct H as [->|[->|E]]; [by apply H2|by apply H3|].
    apply H1. by rewrite E.
  - intros q. rewrite isToolAllowed_spec. intros (H0 & H1 & H2 & H3 & H4 & H5).
    split_and!.
    + done.
    + intros Hn. destruct (decide (tool ∈ allowedTools q)); [done|]. by destruct H1.
    + intros Hd Hp. destruct (decide (tool ∈ allowedTools q)); [done|]. destruct H2. by rewrite Hd.
    + intros Hc. destruct (allowDeploy q); [done|]. destruct H3. by rewrite Hc.
    + intros ->. destruct (allowPush q); [done|]. by destruct H4.
    + intros ->. destruct (allowInstall q); [done|]. by destruct H5.
Qed.
