(* ===== verification/CommandGuard.v ===== *)
(** The command gate: backend/src/execution/command-guard.js and the command
    half of execution-policy.js.

    The regular expressions are written out as character tests and searches
    over strings; [argv] is an array of strings. *)

From S2P Require Import Prelude JsMap JsValue Text ToolSystem Paths Policy.

Local Open Scope string_scope.

(** ** Pieces of the regular expressions *)

(** [\b] after a word character. *)
Definition word_end (s : string) : bool :=
  match s with EmptyString => true | String c _ => negb (is_word c) end.

(** [[= ]] *)
Definition eq_or_space (s : string) : bool :=
  match s with String c _ => bool_decide (c = "="%char ∨ c = " "%char) | EmptyString => false end.

(** [/(^|\s)flag tail/] *)
Definition re_flag (flag : string) (tail : string → bool) (s : string) : bool :=
  let here u := starts_with flag u && tail (string_drop (String.length flag) u) in
  here s || any_suffix (λ u, match u with String c u' => is_space c && here u' | _ => false end) s.

(** ** The tables *)

(* [src/backend/src/execution/command-guard.js:28-28] MAX_ARGS *)
Definition MAX_ARGS : nat := 20.

(* [src/backend/src/execution/command-guard.js:29-29] MAX_ARG_LEN *)
Definition MAX_ARG_LEN : N := 500.

Definition control_chars : string := String "000" (String "010" (String "013" "")).

(* [src/backend/src/execution/command-guard.js:33-33] SHELL_META_RE *)
Definition SHELL_META_RE (s : string) : bool :=
  any_char (λ c, one_of ";&|$`(){}<>*?!#~" c || one_of control_chars c) s.

(* [src/backend/src/execution/command-guard.js:37-42] SUBSTITUTION_RES *)
Definition SUBSTITUTION_RES : list string := ["$("; "`"; "${"; "$("].

(* [src/backend/src/execution/command-guard.js:82-84] containsSubstitution *)
Definition containsSubstitution (text : string) : bool :=
  existsb (λ p, contains p text) SUBSTITUTION_RES.

(* [src/backend/src/execution/command-guard.js:44-44] ENV_ASSIGN_RE *)
Definition ENV_ASSIGN_RE (s : string) : bool :=
  match s with
  | String c s' =>
      is_alpha_ c && starts_with "=" (drop_spaces is_word s')
  | EmptyString => false
  end.

(* [src/backend/src/execution/command-guard.js:47-56] BLOCKED_BINS *)
Definition BLOCKED_BINS : list string := [
  "sh"; "bash"; "zsh"; "dash"; "fish"; "ksh";
  "powershell"; "pwsh"; "cmd"; "cmd.exe";
  "curl"; "wget"; "nc"; "ncat"; "socat"; "ssh"; "scp"; "ftp"; "telnet";
  "ruby"; "perl"; "php"; "lua"; "r"; "R";
  "java"; "javac"; "gradle"; "mvn"; "make"; "cmake";
  "docker"; "podman"; "kubectl"; "systemctl"; "service";
  "sudo"; "su"; "chmod"; "chown"; "rm"; "mv"; "cp"; "dd"; "mkfs";
  "env"; "export"; "source"; "eval"; "exec"; "xargs"; "find"].

(* [src/backend/src/execution/command-guard.js:60-60] INLINE_CODE_FLAGS *)
Definition INLINE_CODE_FLAGS : list string := ["-c"; "-e"; "--eval"; "--command"; "-r"; "--require"].

(** [(\b|=|\s)] holds exactly at the end of a word: "=" and white space are
    no word characters. *)
(* [src/backend/src/execution/command-guard.js:63-76] WORKSPACE_REDIRECT_RES *)
Definition WORKSPACE_REDIRECT_RES : list (string → bool) := [
  re_flag "--prefix" word_end;
  re_flag "--workspace" word_end;
  re_flag "--workspaces" word_end;
  re_flag "--node-options" eq_or_space;
  re_flag "--exec" word_end;
  re_flag "--rootdir" eq_or_space;
  re_flag "--cache" word_end;
  re_flag "--cache-dir" eq_or_space;
  re_flag "--userconfig" eq_or_space;
  re_flag "--global" word_end;
  re_flag "--unsafe-perm" word_end;
  re_flag "-p" word_end].

(** ** [validateArgv] *)

(* [src/backend/src/execution/command-guard.js:78-80] denied *)
Definition denied {A} (reason : string) : res A := Throw (JsError (Some "denied") reason).

Definition backslash_char : ascii := "092"%char.

(** [a.split(/[\\/]/)] *)
(* [src/backend/src/execution/command-guard.js:115-115] segs *)
Definition split_slashes (a : string) : list string :=
  flat_map (split_on backslash_char) (split_on slash a).

(** The checks of one argument; [ws] is the workspace root. *)
(* [src/backend/src/execution/command-guard.js:99-124] loop body *)
Definition check_arg (ws a : string) : res unit :=
  if String.eqb a "" then denied "empty command argument"
  else if decide (MAX_ARG_LEN < N.of_nat (String.length a))%N then
    denied "command argument too long"
  else if any_char (one_of control_chars) a then
    denied "command argument contains control characters"
  else if SHELL_META_RE a then denied ("command argument not allowed: " ++ slice0 60 a)
  else if ENV_ASSIGN_RE a then denied "environment assignments are not allowed in commands"
  else if contains "/" a then
    if decide (".." ∈ split_slashes a) then denied "path traversal is not allowed in commands"
    else if isAbsolute a && negb (inside_root ws (path_resolve "/" a)) then
      denied "command path escapes workspace"
    else Ok tt
  else Ok tt.

Fixpoint check_args (ws : string) (l : list string) : res unit :=
  match l with
  | [] => Ok tt
  | a :: l' => check_arg ws a ≫= λ _, check_args ws l'
  end.

(** [argv.filter(Boolean)] on strings. *)
Definition filter_truthy (argv : list string) : list string := filter (λ a, a ≠ "") argv.

(* [src/backend/src/execution/command-guard.js:88-145] validateArgv *)
Definition validateArgv (h : host) (argv : list string) (workspace : option string)
    : res (string * list string) :=
  match filter_truthy argv with
  | [] => Throw (JsError (Some "bad_params") "empty command")
  | bin :: rest =>
      if any_char (one_of (String backslash_char "/")) bin then
        denied ("command binary must be a bare name: " ++ slice0 60 bin)
      else if decide (bin ∈ BLOCKED_BINS) then denied ("interpreter/tool not allowlisted: " ++ bin)
      else if decide (MAX_ARGS < length rest)%nat then denied "too many command arguments"
      else
        let ws := resolveWorkspaceRoot h workspace in
        check_args ws rest ≫= λ _,
        let joined := js_join " " rest in
        if containsSubstitution (js_join " " (bin :: rest)) then
          denied "command substitution is not allowed"
        else
          let first := default "" (head rest) in
          if bool_decide (bin = "node") && starts_with "-" first then
            denied "node flags are not allowed; provide a workspace file path"
          else if bool_decide (bin = "python" ∨ bin = "python3") && bool_decide (first = "-c" ∨ first = "--command")
          then denied "inline code execution is not allowed via python"
          else if decide (first ∈ INLINE_CODE_FLAGS ∧ bin ∈ ["node"; "python"; "python3"; "pytest"])
          then denied ("inline code flag not allowed: " ++ first)
          else if existsb (λ re, re (" " ++ joined)) WORKSPACE_REDIRECT_RES then
            denied "workspace-redirecting flags are not allowed"
          else Ok (bin, rest)
  end.

(** ** [classifyArgv] *)

(* [src/backend/src/execution/command-guard.js:148-182] classification *)
Record classification := Classification {
  c_family : option string;
  c_risk : RiskLevel.t;
  c_reason : string;
}.

(** [/^run\s+(test|build|lint)$/] *)
Definition npm_run_re (s : string) : bool :=
  starts_with "run" s &&
  match string_drop 3 s with
  | String c s' => is_space c &&
      bool_decide (drop_spaces is_space s' ∈ ["test"; "build"; "lint"])
  | EmptyString => false
  end.

(* [src/backend/src/execution/command-guard.js:178-178] package install test *)
Definition package_install_re (s : string) : bool :=
  existsb (λ p, starts_with p s && word_end (string_drop (String.length p) s))
    ["npm"; "pip"; "pip3"; "yarn"; "pnpm"; "cargo"; "go"] &&
  (contains "install" s || contains "add " s).

(* [src/backend/src/execution/command-guard.js:148-182] classifyArgv *)
Definition classifyArgv (argv : list string) : classification :=
  match filter_truthy argv with
  | [] => Classification None RiskLevel.CRITICAL "empty command"
  | bin :: rest =>
      let r0 := head rest in
      let r1 := head (tail rest) in
      if decide (bin ∈ BLOCKED_BINS) then
        Classification None RiskLevel.CRITICAL ("interpreter not allowlisted: " ++ bin)
      else if bool_decide (bin = "node") && truthy r0 && negb (starts_with "-" (default "" r0)) then
        Classification (Some "node_test_file") RiskLevel.LOW "node workspace file"
      else if bool_decide (bin = "npm") &&
              (String.eqb (js_join " " rest) "test" || npm_run_re (js_join " " rest)) then
        Classification (Some "npm_test") RiskLevel.LOW "npm test/build/lint"
      else if decide (bin = "pytest" ∨ bin = "python" ∧ r0 = Some "-m" ∧ r1 = Some "pytest") then
        Classification (Some "pytest") RiskLevel.LOW "pytest"
      else if decide (bin = "python3" ∧ r0 = Some "-m" ∧ r1 = Some "pytest") then
        Classification (Some "pytest") RiskLevel.LOW "pytest"
      else if decide (bin = "cargo" ∧ r0 = Some "test") then
        Classification (Some "cargo_test") RiskLevel.LOW "cargo test"
      else if decide (bin = "go" ∧ r0 = Some "test") then
        Classification (Some "go_test") RiskLevel.LOW "go test"
      else if decide (bin = "git" ∧
          r0 ∈ Some <$> ["status"; "diff"; "log"; "branch"; "show"; "rev-parse"]) then
        Classification (Some "git_readonly") RiskLevel.LOW "git read-only"
      else if decide (bin = "git" ∧ r0 ∈ Some <$> ["add"; "commit"; "branch"]) then
        Classification (Some "git_write") RiskLevel.MEDIUM "git write"
      else if decide (bin = "git" ∧ r0 ∈ Some <$> ["push"; "reset"; "clean"; "checkout"]) then
        Classification (Some "git_write") RiskLevel.HIGH "git destructive"
      else if package_install_re (js_join " " (bin :: rest)) then
        Classification None RiskLevel.HIGH "package install is a separate capability"
      else Classification None RiskLevel.CRITICAL ("command not allowlisted: " ++ bin)
  end.

(** ** The combined gate *)

Record verdict := Verdict {
  v_allowed : bool;
  v_family : option string;
  v_risk : RiskLevel.t;
  v_reason : string;
}.

Definition with_classification (allowed : bool) (c : classification) : verdict :=
  Verdict allowed (c_family c) (c_risk c) (c_reason c).

(** [key] joins the raw [argv], empty elements included. *)
(* [src/backend/src/execution/command-guard.js:186-209] assertCommandAllowed *)
Definition assertCommandAllowed (h : host) (pol : option policy) (argv : list string) : verdict :=
  let c := classifyArgv argv in
  match c_family c with
  | None => with_classification false c
  | Some family =>
      match validateArgv h argv (workspaceRoot <$> pol) with
      | Throw e => Verdict false (Some family) RiskLevel.CRITICAL (slice0 200 (err_msg e))
      | Ok _ =>
          let deniedList := default [] (deniedCommands <$> pol) in
          let allowedList := default [] (allowedCommands <$> pol) in
          let key := js_join " " argv in
          if existsb (λ d, starts_with d key) deniedList then
            Verdict false (Some family) (c_risk c) ("command denied by policy: " ++ slice0 120 key)
          else if negb (bool_decide (allowedList = [])) &&
                  negb (existsb (λ a, starts_with a key || String.eqb family a) allowedList) then
            Verdict false (Some family) (c_risk c) "command not in policy allowlist"
          else with_classification true c
      end
  end.

(** [classifyCommand] and [isCommandAllowed] catch what the guard throws; the
    two functions above throw nothing on an array of strings. *)
(* [src/backend/src/execution/execution-policy.js:174-180] classifyCommand *)
Definition classifyCommand (argv : list string) : classification := classifyArgv argv.

(* [src/backend/src/execution/execution-policy.js:197-203] isCommandAllowed *)
Definition isCommandAllowed (h : host) (pol : option policy) (argv : list string) : verdict :=
  assertCommandAllowed h pol argv.

(* [src/backend/src/execution/execution-policy.js:186-186] SHELL_METACHAR_RE *)
Definition SHELL_METACHAR_RE (s : string) : bool :=
  any_char (λ c, one_of (";&|`$(){}!#~*?<>" ++ String "010" (String "013" "")) c) s.

(* [src/backend/src/execution/execution-policy.js:188-195] containsShellMetachars *)
Definition containsShellMetachars (argv : list string) : bool :=
  existsb SHELL_METACHAR_RE argv || containsSubstitution (js_join " " argv).

(** ** Properties *)

(** What the gate checks of an argument. *)
Definition safe_arg (ws a : string) : Prop :=
  a ≠ "" ∧ (N.of_nat (String.length a) ≤ MAX_ARG_LEN)%N ∧
  SHELL_META_RE a = false ∧ ENV_ASSIGN_RE a = false ∧
  (contains "/" a = true → ".." ∉ split_slashes a) ∧
  (isAbsolute a = true → inside_root ws (path_resolve "/" a) = true).

Lemma absolute_has_slash a : isAbsolute a = true → contains "/" a = true.
Proof.
  unfold isAbsolute, starts_with. destruct a as [|c a]; [done|].
  change (contains "/" (String c a)) with (String.prefix "/" (String c a) || contains "/" a).
  by intros ->.
Qed.

Lemma check_arg_safe ws a u : check_arg ws a = Ok u → safe_arg ws a.
Proof.
  unfold check_arg. destruct (String.eqb_spec a ""); [done|]. case_decide; [done|].
  destruct (any_char _ a); [done|]. destruct (SHELL_META_RE a) eqn:?; [done|].
  destruct (ENV_ASSIGN_RE a) eqn:?; [done|]. intros Hchk. split_and!; try done; [lia|..].
  - intros Hc. rewrite Hc in Hchk. by case_decide.
  - intros Ha. rewrite (absolute_has_slash _ Ha), Ha in Hchk. case_decide; [done|]. simpl in Hchk.
    by destruct (inside_root ws _).
Qed.

Lemma check_args_safe ws l u : check_args ws l = Ok u → Forall (safe_arg ws) l.
Proof.
  revert u. induction l as [|a l IH]; intros u H; [constructor|].
  apply res_bind_ok in H as ([] & Ha & Hl). constructor; [by eapply check_arg_safe|eauto].
Qed.

Lemma dotdot_split_slashes a : ".." ∈ split_on slash a → ".." ∈ split_slashes a.
Proof.
  intros H. unfold split_slashes. apply list_elem_of_In, in_flat_map. exists "..".
  split; [by apply list_elem_of_In|by left].
Qed.

(** A safe argument, taken as a path from the workspace, stays inside it --
    unless it is the bare "..". *)
Lemma safe_arg_inside root a :
  root ≠ [] → Forall plain root → safe_arg (render_path root) a → a ≠ ".." →
  inside_root (render_path root) (path_resolve (render_path root) a) = true.
Proof.
  intros Hne Hroot (_ & _ & _ & _ & Hdots & Habs) Hd. destruct (isAbsolute a) eqn:Ea.
  - specialize (Habs eq_refl). unfold path_resolve in *. by rewrite Ea in *.
  - apply path_resolve_descend; try done. intros H. destruct (contains "/" a) eqn:Ec.
    + by apply (Hdots eq_refl), dotdot_split_slashes.
    + rewrite split_single in H by done. set_solver.
Qed.

Lemma validateArgv_ok h argv w bin rest :
  validateArgv h argv w = Ok (bin, rest) →
  filter_truthy argv = bin :: rest ∧ bin ∉ BLOCKED_BINS ∧ (length rest ≤ MAX_ARGS)%nat ∧
  any_char (one_of (String backslash_char "/")) bin = false ∧
  Forall (safe_arg (resolveWorkspaceRoot h w)) rest ∧
  containsSubstitution (js_join " " (bin :: rest)) = false ∧
  Forall (λ re, re (" " ++ js_join " " rest) = false) WORKSPACE_REDIRECT_RES ∧
  (bin = "node" → starts_with "-" (default "" (head rest)) = false) ∧
  (bin ∈ ["node"; "python"; "python3"; "pytest"] → default "" (head rest) ∉ INLINE_CODE_FLAGS).
Proof.
  unfold validateArgv. destruct (filter_truthy argv) as [|b r]; [done|].
  destruct (any_char _ b) eqn:Hb; [done|]. case_decide; [done|]. case_decide; [done|].
  intros H1. apply res_bind_ok in H1 as ([] & Hargs & H1).
  destruct (containsSubstitution _) eqn:?; [done|].
  destruct (bool_decide (b = "node") && _) eqn:Hn; [done|].
  destruct (bool_decide (b = "python" ∨ b = "python3") && _); [done|].
  case_decide as Hin; [done|]. destruct (existsb _ _) eqn:Hre; [done|]. simplify_eq.
  split_and!; try done; [lia|by eapply check_args_safe| | |].
  - apply Forall_forall. intros re Hr. destruct (re _) eqn:E; [|done]. exfalso.
    apply not_true_iff_false in Hre. apply Hre, existsb_exists. exists re.
    split; [by apply list_elem_of_In|done].
  - intros ->. by rewrite bool_decide_true in Hn.
  - intros Hbin Hf. by apply Hin.
Qed.

Definition runners : list string := ["node"; "npm"; "pytest"; "python"; "python3"; "cargo"; "go"; "git"].

Ltac in_list := apply list_elem_of_In; simpl; tauto.

Lemma classifyArgv_family argv f :
  c_family (classifyArgv argv) = Some f →
  ∃ bin rest, filter_truthy argv = bin :: rest ∧ bin ∈ runners.
Proof.
  unfold classifyArgv. destruct (filter_truthy argv) as [|bin rest]; [done|].
  intros H. exists bin, rest. split; [done|]. unfold runners. revert H.
  case_decide; [done|].
  destruct (bool_decide_reflect (bin = "node")) as [->|]; [intros _; in_list|]. simpl.
  destruct (bool_decide_reflect (bin = "npm")) as [->|]; [intros _; in_list|]. simpl.
  do 7 (case_decide as Hc; [intros _; destruct_or? Hc; destruct_and? Hc; subst bin; in_list|clear Hc]).
  by destruct (package_install_re _).
Qed.

Lemma assertCommandAllowed_inv h pol argv :
  v_allowed (assertCommandAllowed h pol argv) = true →
  ∃ f bin rest, c_family (classifyArgv argv) = Some f ∧
    validateArgv h argv (workspaceRoot <$> pol) = Ok (bin, rest) ∧
    Forall (λ d, starts_with d (js_join " " argv) = false) (default [] (deniedCommands <$> pol)) ∧
    (default [] (allowedCommands <$> pol) ≠ [] →
     ∃ a, a ∈ default [] (allowedCommands <$> pol) ∧
          (starts_with a (js_join " " argv) = true ∨ f = a)).
Proof.
  unfold assertCommandAllowed. destruct (c_family (classifyArgv argv)) as [f|] eqn:Ef; [|done].
  destruct (validateArgv h argv _) as [[bin rest]|e] eqn:Ev; [|done].
  destruct (existsb _ (default [] (deniedCommands <$> pol))) eqn:Hd; [done|].
  destruct (negb _ && _) eqn:Ha; [done|]. intros _. exists f, bin, rest. split_and!; try done.
  - apply Forall_forall. intros d Hin. destruct (starts_with d _) eqn:E; [|done]. exfalso.
    apply not_true_iff_false in Hd. apply Hd, existsb_exists. exists d.
    split; [by apply list_elem_of_In|done].
  - intros Hn. rewrite bool_decide_false in Ha by done. simpl in Ha.
    apply negb_false_iff, existsb_exists in Ha as (a & Hin & Hor). exists a.
    split; [by apply list_elem_of_In|]. apply orb_true_iff in Hor as [?|E]; [by left|right].
    by apply String.eqb_eq in E.
Qed.

(** C4: soundness of the command gate.  Whatever the policy, an accepted
    command runs one of eight allow-listed programs with at most 20 further
    arguments; no argument carries a shell metacharacter, a control character
    or an environment assignment; no argument but the bare ".." names a path
    outside the workspace, absolute or relative; no flag redirects the
    workspace; the command matches no denied prefix, and matches the
    allow-list when there is one. *)
Theorem command_gate_sound h pol argv root :
  root ≠ [] → Forall plain root →
  resolveWorkspaceRoot h (workspaceRoot <$> pol) = render_path root →
  v_allowed (isCommandAllowed h pol argv) = true →
  ∃ bin rest f, filter_truthy argv = bin :: rest ∧ bin ∈ runners ∧
    c_family (classifyCommand argv) = Some f ∧
    (length rest ≤ MAX_ARGS)%nat ∧
    (∀ a, a ∈ rest → safe_arg (render_path root) a ∧
       (a ≠ ".." → inside_root (render_path root) (path_resolve (render_path root) a) = true)) ∧
    Forall (λ re, re (" " ++ js_join " " rest) = false) WORKSPACE_REDIRECT_RES ∧
    Forall (λ d, starts_with d (js_join " " argv) = false) (default [] (deniedCommands <$> pol)) ∧
    (default [] (allowedCommands <$> pol) ≠ [] →
     ∃ a, a ∈ default [] (allowedCommands <$> pol) ∧
          (starts_with a (js_join " " argv) = true ∨ f = a)).
Proof.
  intros Hne Hroot Hws H.
  apply assertCommandAllowed_inv in H as (f & bin & rest & Hf & Hv & Hd & Ha).
  destruct (classifyArgv_family _ _ Hf) as (bin' & rest' & E & Hb).
  apply validateArgv_ok in Hv as (E' & _ & Hlen & _ & Hsafe & _ & Hre & _ & _).
  rewrite E' in E. simplify_eq. exists bin', rest', f. rewrite Hws in Hsafe.
  split_and!; try done. intros a Hin. rewrite Forall_forall in Hsafe.
  split; [by apply Hsafe|]. intros Hdd. by apply safe_arg_inside; auto.
Qed.

Definition sample_host : host := Host "/srv/app" None Some.

Lemma command_gate_sound_witness :
  v_allowed (isCommandAllowed sample_host (Some (defaultPolicy "/srv/app" no_overrides))
    ["node"; "tests/unit.js"; "--verbose"]) = true ∧
  ∃ bin rest f, ["node"; "tests/unit.js"; "--verbose"] = bin :: rest ∧ bin ∈ runners ∧
    c_family (classifyCommand ["node"; "tests/unit.js"; "--verbose"]) = Some f.
Proof.
  split; [vm_compute; reflexivity|].
  destruct (command_gate_sound sample_host (Some (defaultPolicy "/srv/app" no_overrides))
    ["node"; "tests/unit.js"; "--verbose"] ["srv"; "app"]) as (bin & rest & f & E & Hb & Hf & _).
  - discriminate.
  - repeat constructor; vm_compute; congruence.
  - vm_compute. reflexivity.
  - vm_compute. reflexivity.
  - exists bin, rest, f. split; [exact E|split; [exact Hb|exact Hf]].
Defined.

(** Three commands that the gate's own rules mean to refuse or to gate
    pass it as LOW-risk under the default policy: "node .." (a ".." segment is
    only looked for in arguments that contain a slash), "git diff
    --output=/etc/x" (an absolute path is only recognised when it is the whole
    argument) and "git branch -D main" (the read-only clause precedes the
    git-write clause, whose "branch" case is unreachable). *)
Theorem command_gate_gaps root :
  let pol := Some (defaultPolicy root no_overrides) in
  let h := Host root None Some in
  Forall (λ argv, v_allowed (isCommandAllowed h pol argv) = true ∧
                  v_risk (isCommandAllowed h pol argv) = RiskLevel.LOW)
    [["node"; ".."]; ["git"; "diff"; "--output=/etc/x"]; ["git"; "branch"; "-D"; "main"]] ∧
  ∀ argv, v_family (isCommandAllowed h pol argv) = Some "git_write" →
          ∃ b a l, filter_truthy argv = b :: a :: l ∧ a ≠ "branch".
Proof.
  cbn zeta. split; [repeat constructor|].
  intros argv H. assert (c_family (classifyArgv argv) = Some "git_write") as Hc.
  { revert H. unfold isCommandAllowed, assertCommandAllowed.
    destruct (c_family (classifyArgv argv)) as [f|] eqn:E; [|by rewrite <- E].
    destruct (validateArgv _ _ _); [|done]. repeat case_match; simpl; congruence. }
  clear H. revert Hc. unfold classifyArgv. destruct (filter_truthy argv) as [|b r]; [done|].
  case_decide; [done|]. destruct (_ && negb _); [done|]. destruct (_ && (_ || _)); [done|].
  do 4 (case_decide; [done|]). case_decide as Hro; [done|].
  assert (b = "git" → head r ≠ Some "branch") as Hbr.
  { intros -> E. apply Hro. split; [done|]. rewrite E. in_list. }
  case_decide as Ha; [|case_decide as Hp; [|by destruct (package_install_re _)]];
    intros _; destruct_and!; destruct r as [|a l]; try set_solver;
    exists b, a, l; naive_solver.
Qed.
