(* ===== verification/Approvals.v ===== *)
(** Approvals and risk classification: backend/src/execution/approvals.js.

    Time is in milliseconds: an ISO time stamp is the instant it denotes.  Each
    operation takes the readings of the clock it makes, in order; the random
    part of an approval id is an input.  SHA-256 (node:crypto) is a parameter. *)

From S2P Require Import Prelude JsMap JsValue Canonical ToolSystem Policy.

Local Open Scope string_scope.
Local Open Scope js_scope.

Module ApprovalStatus.
(* [src/backend/src/execution/approvals.js:14-20] ApprovalStatus *)
Inductive t : Set := PENDING | APPROVED | DENIED | EXPIRED | CANCELLED.

(* [src/backend/src/execution/approvals.js:14-20] ApprovalStatus *)
Definition value (x : t) : string :=
  match x with
  | PENDING => "PENDING"
  | APPROVED => "APPROVED"
  | DENIED => "DENIED"
  | EXPIRED => "EXPIRED"
  | CANCELLED => "CANCELLED"
  end.

#[global] Instance t_eq_dec : EqDecision t.
Proof. solve_decision. Defined.
End ApprovalStatus.

(** ** Risk classification *)

(** A risk and the reasons collected so far. *)
(* [src/backend/src/execution/approvals.js:59-63] raise *)
Definition raise (to : RiskLevel.t) (why : string) (acc : RiskLevel.t * list string)
    : RiskLevel.t * list string :=
  if decide (0 < compareRisk to acc.1)%Z then (to, (acc.2 ++ [why])%list) else acc.

Definition when (b : bool) (f : RiskLevel.t * list string → RiskLevel.t * list string)
    (acc : RiskLevel.t * list string) : RiskLevel.t * list string :=
  if b then f acc else acc.

(** [params || {}] *)
Definition or_empty (v : jsval) : jsval := if truthy_val v then v else JObj [].

Definition new_text_length (e : jsval) : N :=
  let t := prop e "newText" in
  if truthy_val t then N.of_nat (String.length (to_string t)) else 0%N.

(* [src/backend/src/execution/approvals.js:70-72] sensitive-area test *)
Definition sensitive_area (p : jsval) : bool :=
  let text := to_lower (slice0 2000 (default "" (json_stringify p))) in
  existsb (λ w, contains w text) ["migrate"; "schema"; "auth"; "credential"; "secret"; "deploy"].

(* [src/backend/src/execution/approvals.js:83-83] allow-listed command prefix *)
Definition listed_command (c : string) : bool :=
  existsb (λ w, starts_with w c)
    ["npm test"; "npm run test"; "npm run build"; "npm run lint"; "pytest"; "cargo test";
     "go test"; "node "].

(* [src/backend/src/execution/approvals.js:56-89] classifyRisk *)
Definition classifyRisk (def : option definition) (params : jsval) : RiskLevel.t * list string :=
  let base := default RiskLevel.LOW (d_riskLevel <$> def) in
  let name := default "" (def ≫= d_name) in
  let p := or_empty params in
  let edits := match prop p "edits" with JArr xs => xs | _ => [] end in
  let totalChars := foldr N.add 0%N (new_text_length <$> edits) in
  let smuggled := match prop p "command" with
                  | JStr c => truthy_str c && negb (listed_command c) | _ => false end in
  let among l := bool_decide (name ∈ l) in
  let acc := (base, ["base:" ++ RiskLevel.value base]) in
  let acc := when (among ["apply_patch"] &&
                   bool_decide (10 < length edits ∨ (20000 < totalChars)%N)%nat)
               (raise RiskLevel.HIGH "large-patch") acc in
  let acc := when (among ["apply_patch"] && sensitive_area p)
               (raise RiskLevel.HIGH "sensitive-area") acc in
  let acc := when (among ["git_commit"; "git_add"] && truthy_val (prop p "allowUnrelated"))
               (raise RiskLevel.HIGH "unrelated-changes-included") acc in
  let acc := when (among ["git_create_branch"]) (raise RiskLevel.MEDIUM "branch-mutation") acc in
  let acc := when (among ["git_push"]) (raise RiskLevel.HIGH "remote-mutation") acc in
  let acc := when (among ["install_package"]) (raise RiskLevel.HIGH "supply-chain") acc in
  let acc := when (among ["fetch_url"; "web_search"]) (raise RiskLevel.MEDIUM "egress") acc in
  let acc := when (among ["run_tests"; "build_project"] && smuggled)
               (raise RiskLevel.CRITICAL "non-allowlisted-command") acc in
  when (among ["deploy_preview"]) (raise RiskLevel.CRITICAL "deploy") acc.

(* [src/backend/src/execution/approvals.js:91-99] approvalModeForAutonomy *)
Definition approvalModeForAutonomy (autonomyMode : string) : string :=
  if decide (autonomyMode = "read_only") then ApprovalMode.value ApprovalMode.APPROVE_ALL
  else if decide (autonomyMode = "assisted") then ApprovalMode.value ApprovalMode.APPROVE_WRITES
  else if decide (autonomyMode = "autonomous") then ApprovalMode.value ApprovalMode.APPROVE_DANGEROUS
  else if decide (autonomyMode = "restricted_autonomous")
  then ApprovalMode.value ApprovalMode.APPROVE_DANGEROUS
  else ApprovalMode.value ApprovalMode.APPROVE_WRITES.

(** ** The store *)

(* [src/backend/src/execution/approvals.js:119-137] record *)
Record approval := Approval {
  a_id : string;
  a_runId : string;
  a_actionType : string;
  a_title : string;
  a_description : string;
  a_riskLevel : RiskLevel.t;
  a_requestedAt : Z;
  a_expiresAt : Z;
  a_affectedResources : list string;
  a_proposedAction : option jsval;
  a_paramsFingerprint : string;
  a_estimatedCost : option jsval;
  a_estimatedChanges : option jsval;
  a_status : ApprovalStatus.t;
  a_decidedAt : option Z;
  a_decidedBy : option string;
  a_consumed : bool;
}.

#[export] Instance approval_eta : Eta approval := λ a,
  Approval (a_id a) (a_runId a) (a_actionType a) (a_title a) (a_description a) (a_riskLevel a)
    (a_requestedAt a) (a_expiresAt a) (a_affectedResources a) (a_proposedAction a)
    (a_paramsFingerprint a) (a_estimatedCost a) (a_estimatedChanges a) (a_status a)
    (a_decidedAt a) (a_decidedBy a) (a_consumed a).

(* [src/backend/src/execution/approvals.js:103-108] ApprovalStore *)
Record ApprovalStore := MkStore {
  approvals : jsmap string approval;
  defaultTtlMs : Z;
  maxPending : nat;
}.

#[export] Instance ApprovalStore_eta : Eta ApprovalStore := λ s,
  MkStore (approvals s) (defaultTtlMs s) (maxPending s).

(** [options.x || default] *)
(* [src/backend/src/execution/approvals.js:104-108] constructor *)
Definition new_store (ttl : option Z) (pending : option nat) : ApprovalStore :=
  MkStore [] (match ttl with Some t => if decide (t = 0%Z) then 600000%Z else t | None => 600000%Z end)
    (match pending with Some (S n) => S n | _ => 50 end).

(* [src/backend/src/execution/approvals.js:110-110] request arguments *)
Record request_args := RequestArgs {
  q_runId : option string;
  q_actionType : option string;
  q_title : option string;
  q_description : option string;
  q_riskLevel : option RiskLevel.t;
  q_params : jsval;
  q_proposedAction : jsval;
  q_affectedResources : option (list string);
  q_estimatedChanges : option jsval;
  q_estimatedCost : option jsval;
  q_expiresInMs : option Z;
}.

(** The arguments of [checkAndConsume] and [peek]; [JUndef]: not given. *)
(* [src/backend/src/execution/approvals.js:189-189] gate arguments *)
Record gate_args := GateArgs {
  g_runId : string;
  g_actionType : string;
  g_params : jsval;
  g_proposedAction : jsval;
}.

Definition or_null (v : jsval) : option jsval := if truthy_val v then Some v else None.

Definition is_pending_of (run : string) (a : approval) : Prop :=
  a_runId a = run ∧ a_status a = ApprovalStatus.PENDING.
#[export] Instance is_pending_of_dec run a : Decision (is_pending_of run a) := _.

Definition pending_count (s : ApprovalStore) (run : string) : nat :=
  mcount (is_pending_of run) (approvals s).

(* [src/backend/src/execution/approvals.js:162-165] expire one record *)
Definition expire (t : Z) (a : approval) : approval :=
  if decide ((a_status a = ApprovalStatus.PENDING ∨ a_status a = ApprovalStatus.APPROVED)
             ∧ (a_expiresAt a ≤ t)%Z)
  then a <| a_status := ApprovalStatus.EXPIRED |>
         <| a_decidedAt := Some (default t (a_decidedAt a)) |>
  else a.

(* [src/backend/src/execution/approvals.js:158-168] _sweepExpired *)
Definition sweepExpired (s : ApprovalStore) (t : Z) : ApprovalStore :=
  s <| approvals ::= mmap (expire t) |>.

(* [src/backend/src/execution/approvals.js:142-145] get *)
Definition get (s : ApprovalStore) (id : string) : option approval := mget (approvals s) id.

(* [src/backend/src/execution/approvals.js:147-151] listForRun *)
Definition listForRun (s : ApprovalStore) (run : string) (includeDecided : bool) : list approval :=
  filter (λ a, a_runId a = run ∧ (includeDecided = true ∨ a_status a = ApprovalStatus.PENDING))
    (mvalues (approvals s)).

(* [src/backend/src/execution/approvals.js:153-156] pendingForRun *)
Definition pendingForRun (s : ApprovalStore) (t : Z) (run : string) : ApprovalStore * list approval :=
  let s' := sweepExpired s t in (s', listForRun s' run false).

Definition not_found : string := "approval not found".
Definition wrong_status (a : approval) : string := "approval is " ++ ApprovalStatus.value (a_status a).

(** [t0] is the sweep's reading of the clock, [t1] the decision's. *)
(* [src/backend/src/execution/approvals.js:170-179] _settle *)
Definition settle (s : ApprovalStore) (t0 t1 : Z) (id : string) (st : ApprovalStatus.t)
    (decidedBy : option string) : ApprovalStore * (approval + string) :=
  let s := sweepExpired s t0 in
  match mget (approvals s) id with
  | None => (s, inr not_found)
  | Some r =>
      if decide (a_status r = ApprovalStatus.PENDING) then
        let r' := r <| a_status := st |> <| a_decidedAt := Some t1 |>
                    <| a_decidedBy := Some (or_default decidedBy "user") |> in
        (s <| approvals ::= λ m, mset m id r' |>, inl r')
      else (s, inr (wrong_status r))
  end.

(* [src/backend/src/execution/approvals.js:181-181] approve *)
Definition approve s t0 t1 id by_ := settle s t0 t1 id ApprovalStatus.APPROVED by_.
(* [src/backend/src/execution/approvals.js:182-182] deny *)
Definition deny s t0 t1 id by_ := settle s t0 t1 id ApprovalStatus.DENIED by_.
(* [src/backend/src/execution/approvals.js:183-183] cancel *)
Definition cancel s t0 t1 id by_ := settle s t0 t1 id ApprovalStatus.CANCELLED by_.

(* [src/backend/src/execution/approvals.js:260-264] clearRun *)
Definition clearRun (s : ApprovalStore) (run : string) : ApprovalStore :=
  s <| approvals ::= filter (λ p, a_runId p.2 ≠ run) |>.

Section Digest.
(** The hexadecimal SHA-256 digest of a text. *)
Context (sha256 : string → string).

Definition canonical_text (actionType : string) (params : jsval) : string :=
  actionType ++ "|" ++ default "undefined" (stableStringify (or_empty params)).

(* [src/backend/src/execution/approvals.js:47-51] fingerprintParams *)
Definition fingerprintParams (actionType : string) (params : jsval) : string :=
  slice0 16 (sha256 (canonical_text actionType params)).

(* [src/backend/src/execution/approvals.js:33-45] fingerprintAction *)
Definition fingerprintAction (actionType : string) (params : jsval) (extra : string) : string :=
  if decide (extra ≠ "" ∧ extra ≠ "{}") then
    slice0 16 (sha256 (default "" (json_stringify
      (JObj [("actionType", JStr actionType); ("params", or_empty params); ("extra", JStr extra)]))))
  else slice0 16 (sha256 (canonical_text actionType params)).

(** [fingerprintAction(actionType, params, JSON.stringify(v || {}))] *)
Definition legacy_with (actionType : string) (params v : jsval) : string :=
  fingerprintAction actionType params (default "" (json_stringify (or_empty v))).

(* [src/backend/src/execution/approvals.js:110-140] request *)
Definition request (s : ApprovalStore) (t : Z) (id : string) (q : request_args)
    : ApprovalStore * (approval + string) :=
  if truthy (q_runId q) && truthy (q_actionType q) then
    let runId := default "" (q_runId q) in
    let actionType := default "" (q_actionType q) in
    if decide (maxPending s ≤ pending_count s runId)%nat then
      (s, inr "too many pending approvals for run")
    else
      let r := {|
        a_id := id; a_runId := runId; a_actionType := actionType;
        a_title := slice0 200 (or_default (q_title q) actionType);
        a_description := slice0 2000 (default "" (q_description q));
        a_riskLevel := default RiskLevel.MEDIUM (q_riskLevel q);
        a_requestedAt := t;
        a_expiresAt := (t + default (defaultTtlMs s) (q_expiresInMs q))%Z;
        a_affectedResources := take 20 (default [] (q_affectedResources q));
        a_proposedAction := or_null (q_proposedAction q);
        a_paramsFingerprint := fingerprintParams actionType (q_params q);
        a_estimatedCost := q_estimatedCost q; a_estimatedChanges := q_estimatedChanges q;
        a_status := ApprovalStatus.PENDING; a_decidedAt := None; a_decidedBy := None;
        a_consumed := false |} in
      (s <| approvals ::= λ m, mset m id r |>, inl r)
  else (s, inr "runId and actionType are required").

(* [src/backend/src/execution/approvals.js:212-218] legacyFp *)
Definition legacyFp (g : gate_args) (r : approval) : option string :=
  if decide (g_proposedAction g ≠ JUndef) then
    Some (legacy_with (g_actionType g) (g_params g) (g_proposedAction g))
  else legacy_with (g_actionType g) (g_params g) <$> a_proposedAction r.

Definition fingerprint_ok (g : gate_args) (r : approval) : bool :=
  bool_decide (fingerprintParams (g_actionType g) (g_params g) = a_paramsFingerprint r ∨
               legacyFp g r = Some (a_paramsFingerprint r)).

(** [t0]: the sweep's clock reading, [t1]: the explicit expiry check's. *)
(* [src/backend/src/execution/approvals.js:189-224] checkAndConsume *)
Definition checkAndConsume (s : ApprovalStore) (t0 t1 : Z) (g : gate_args) (approvalId : string)
    : ApprovalStore * (approval + string) :=
  let s := sweepExpired s t0 in
  match mget (approvals s) approvalId with
  | None => (s, inr not_found)
  | Some r =>
      if negb (String.eqb (a_runId r) (g_runId g)) then
        (s, inr "approval belongs to a different run")
      else if negb (String.eqb (a_actionType r) (g_actionType g)) then
        (s, inr "approval is for a different action")
      else if decide (a_expiresAt r ≤ t1)%Z then
        (if decide (a_status r = ApprovalStatus.EXPIRED) then s
         else s <| approvals ::= λ m, mset m approvalId
                (r <| a_status := ApprovalStatus.EXPIRED |>
                   <| a_decidedAt := Some (default t1 (a_decidedAt r)) |>) |>,
         inr "approval expired")
      else if negb (bool_decide (a_status r = ApprovalStatus.APPROVED)) then
        (s, inr (wrong_status r))
      else if a_consumed r then (s, inr "approval already consumed (replay rejected)")
      else if fingerprint_ok g r then
        let r' := r <| a_consumed := true |> in
        (s <| approvals ::= λ m, mset m approvalId r' |>, inl r')
      else (s, inr "approval does not match this action (fingerprint mismatch)")
  end.

(* [src/backend/src/execution/approvals.js:236-256] peek match *)
Definition peek_match (t1 : Z) (g : gate_args) (r : approval) : bool :=
  String.eqb (a_runId r) (g_runId g) && String.eqb (a_actionType r) (g_actionType g)
  && bool_decide (a_status r = ApprovalStatus.APPROVED) && negb (a_consumed r)
  && negb (bool_decide (a_expiresAt r ≤ t1)%Z)
  && (String.eqb (a_paramsFingerprint r) (fingerprintParams (g_actionType g) (g_params g))
      || (bool_decide (g_proposedAction g ≠ JUndef) &&
          String.eqb (a_paramsFingerprint r)
            (legacy_with (g_actionType g) (g_params g) (g_proposedAction g)))
      || (negb (truthy_val (g_proposedAction g)) &&
          bool_decide ((legacy_with (g_actionType g) (g_params g) <$> a_proposedAction r)
                       = Some (a_paramsFingerprint r)))).

(* [src/backend/src/execution/approvals.js:227-258] peek *)
Definition peek (s : ApprovalStore) (t0 t1 : Z) (g : gate_args)
    : ApprovalStore * option approval :=
  let s := sweepExpired s t0 in
  (s, snd <$> list_find (λ r, peek_match t1 g r = true) (mvalues (approvals s))).
End Digest.

(** ** How one record evolves *)

Definition same_scope (r r' : approval) : Prop :=
  a_id r' = a_id r ∧ a_runId r' = a_runId r ∧ a_actionType r' = a_actionType r ∧
  a_paramsFingerprint r' = a_paramsFingerprint r ∧ a_expiresAt r' = a_expiresAt r ∧
  a_proposedAction r' = a_proposedAction r.

(** The legal life of a record: its scope is fixed; PENDING may become
    anything, anything may become EXPIRED, which is final; nothing else
    changes, so a refused record is never approved; consumption is
    irrevocable. *)
Definition evolves (r r' : approval) : Prop :=
  same_scope r r' ∧
  (a_status r' = a_status r ∨ a_status r = ApprovalStatus.PENDING ∨
   a_status r' = ApprovalStatus.EXPIRED) ∧
  (a_status r ≠ ApprovalStatus.PENDING → a_status r' ≠ ApprovalStatus.PENDING) ∧
  (a_status r = ApprovalStatus.EXPIRED → r' = r) ∧
  (a_consumed r = true → a_consumed r' = true).

Lemma evolves_refl r : evolves r r.
Proof. unfold evolves, same_scope. naive_solver. Qed.

Lemma evolves_trans r1 r2 r3 : evolves r1 r2 → evolves r2 r3 → evolves r1 r3.
Proof.
  unfold evolves, same_scope. intros (Ha&Hb&Hc&Hd&He) (Ka&Kb&Kc&Kd&Ke).
  split; [naive_solver congruence|]. split; [|split; [auto|split; [|auto]]].
  - destruct Hb as [E|[E|E]]; [|by auto|].
    + rewrite <- E. destruct Kb as [->|[E'|E']]; auto.
    + right; right. rewrite Kd; auto.
  - intros Hs. specialize (Hd Hs). subst. auto.
Qed.

Lemma evolves_expired r t :
  a_status r ≠ ApprovalStatus.EXPIRED →
  evolves r (r <| a_status := ApprovalStatus.EXPIRED |> <| a_decidedAt := t |>).
Proof. intros Hne. unfold evolves, same_scope; simpl. split_and!; auto; done. Qed.

Lemma evolves_expire t r : evolves r (expire t r).
Proof.
  unfold expire. case_decide as H; [|apply evolves_refl]. apply evolves_expired.
  destruct H as [[E|E] _]; by rewrite E.
Qed.

Lemma evolves_consumed r : a_status r ≠ ApprovalStatus.EXPIRED → evolves r (r <| a_consumed := true |>).
Proof. intros Hne. unfold evolves, same_scope; simpl. split_and!; auto. intros E. by destruct Hne. Qed.

(** What an observer sees succeed. *)
Inductive event :=
| ERequested (r : approval)
| EApproved (id : string)
| EConsumed (id : string) (g : gate_args) (t : Z).

(** A record's evolution in a step whose visible events are [es]: it is
    approved, or consumed, only when the events say so. *)
Definition evolves_by (es : list event) (id : string) (r r' : approval) : Prop :=
  evolves r r' ∧
  (a_status r' = ApprovalStatus.APPROVED → a_status r = ApprovalStatus.APPROVED ∨ EApproved id ∈ es) ∧
  (∀ g t, EConsumed id g t ∈ es → a_consumed r' = true).

(** [s'] holds evolved records of [s] only, and no more pending ones. *)
Definition keeps (es : list event) (s s' : ApprovalStore) : Prop :=
  maxPending s' = maxPending s ∧
  (mwf (approvals s) → mwf (approvals s')) ∧
  (mwf (approvals s) → ∀ id r', mget (approvals s') id = Some r' →
     ∃ r, mget (approvals s) id = Some r ∧ evolves_by es id r r') ∧
  ∀ run, (pending_count s' run ≤ pending_count s run)%nat.

Lemma evolves_by_refl id r : evolves_by [] id r r.
Proof. split; [apply evolves_refl|split; [by left|]]. intros g t Hin. by apply not_elem_of_nil in Hin. Qed.

Lemma evolves_by_quiet id r r' :
  evolves r r' → (a_status r' = ApprovalStatus.APPROVED → a_status r = ApprovalStatus.APPROVED) →
  evolves_by [] id r r'.
Proof. intros He Hs. split; [done|split; [auto|]]. intros g t Hin. by apply not_elem_of_nil in Hin. Qed.

Lemma keeps_refl s : keeps [] s s.
Proof. split_and!; [done|done| |done]. intros _ id r E. exists r. split; [done|apply evolves_by_refl]. Qed.

Lemma keeps_trans es s1 s2 s3 : keeps [] s1 s2 → keeps es s2 s3 → keeps es s1 s3.
Proof.
  intros (E1 & W1 & R1 & P1) (E2 & W2 & R2 & P2). split_and!; [congruence|auto| |].
  - intros W id r3 G3. destruct (R2 (W1 W) id r3 G3) as (r2 & G2 & H23 & A23 & C23).
    destruct (R1 W id r2 G2) as (r1 & G1 & H12 & A12 & _). exists r1.
    js_split; [done|split; [by eapply evolves_trans|split; [|done]]].
    intros Ha. destruct (A23 Ha) as [Hb|?]; [|by right]. destruct (A12 Hb) as [?|Hin]; [by left|].
    by apply not_elem_of_nil in Hin.
  - intros run. etrans; [apply P2|apply P1].
Qed.

Lemma evolves_pending run r r' : evolves r r' → is_pending_of run r' → is_pending_of run r.
Proof.
  intros ((_ & Er & _) & _ & Hp & _) [Hr Hs]. split; [congruence|].
  destruct (decide (a_status r = ApprovalStatus.PENDING)); [done|]. by destruct Hp.
Qed.

Lemma keeps_sweep s t : keeps [] s (sweepExpired s t).
Proof.
  split_and!; [done|intros W; by apply mwf_mmap| |].
  - intros _ id r'. simpl. rewrite mget_mmap. destruct (mget (approvals s) id) as [r|]; [|done].
    intros [= <-]. exists r. split; [done|]. apply evolves_by_quiet; [apply evolves_expire|].
    unfold expire. by case_decide.
  - intros run. apply mcount_mmap. intros r. apply evolves_pending, evolves_expire.
Qed.

(** Updating the record of one id; [es] may only speak of that id. *)
Lemma keeps_set es s id r r' :
  mget (approvals s) id = Some r → evolves_by es id r r' →
  (∀ j g t, EConsumed j g t ∈ es → j = id) →
  keeps es s (s <| approvals ::= λ m, mset m id r' |>).
Proof.
  intros E (He & Ha & Hc) Hes. split_and!; [done|intros W; by apply mwf_set| |].
  - intros _ j w. simpl. rewrite mget_set. case_decide; intros Hw; simplify_eq; [by exists r|].
    exists w. split; [done|split; [apply evolves_refl|split; [by left|]]].
    intros g t Hin. by rewrite (Hes _ _ _ Hin) in *.
  - intros run. eapply mcount_set_old; [done|]. by apply evolves_pending.
Qed.

Lemma keeps_clear s run : keeps [] s (clearRun s run).
Proof.
  split_and!; [done|intros W; by apply mwf_filter| |].
  - intros W id r'. simpl. rewrite mget_filter by done.
    destruct (mget (approvals s) id) as [r|]; simpl; [|done]. case_decide; [|done].
    intros [= <-]. exists r. split; [done|apply evolves_by_refl].
  - intros run'. apply mcount_filter.
Qed.

Lemma evolves_settle r st t by_ :
  a_status r = ApprovalStatus.PENDING → st ≠ ApprovalStatus.PENDING →
  evolves r (r <| a_status := st |> <| a_decidedAt := t |> <| a_decidedBy := by_ |>).
Proof. intros E Hst. unfold evolves, same_scope; simpl. rewrite E. split_and!; auto; done. Qed.

(** The events of settling [id] with status [st]. *)
Definition settle_events (id : string) (st : ApprovalStatus.t) (res : approval + string) : list event :=
  match res with
  | inl _ => if decide (st = ApprovalStatus.APPROVED) then [EApproved id] else []
  | inr _ => []
  end.

Lemma keeps_settle s t0 t1 id st by_ :
  st ≠ ApprovalStatus.PENDING →
  keeps (settle_events id st (settle s t0 t1 id st by_).2) s (settle s t0 t1 id st by_).1.
Proof.
  intros Hst. eapply keeps_trans; [apply (keeps_sweep s t0)|]. unfold settle.
  destruct (mget (approvals (sweepExpired s t0)) id) as [r|] eqn:E; [|apply keeps_refl].
  case_decide; [|apply keeps_refl]. unfold settle_events.
  apply (keeps_set _ (sweepExpired s t0) id r); [done| |].
  - split; [by apply evolves_settle|split].
    + simpl. intros ->. right. rewrite decide_True by done. set_solver.
    + case_decide; set_solver.
  - case_decide; set_solver.
Qed.

(** ** Histories of operations *)

(* [src/backend/src/execution/approvals.js:103-265] ApprovalStore methods *)
Inductive op :=
| ORequest (t : Z) (id : string) (q : request_args)
| OApprove (t0 t1 : Z) (id : string) (by_ : option string)
| ODeny (t0 t1 : Z) (id : string) (by_ : option string)
| OCancel (t0 t1 : Z) (id : string) (by_ : option string)
| OConsume (t0 t1 : Z) (g : gate_args) (id : string)
| OPeek (t0 t1 : Z) (g : gate_args)
| OPending (t : Z) (run : string)
| OClear (run : string).

Section Histories.
Context (sha256 : string → string).

Definition step (s : ApprovalStore) (o : op) : ApprovalStore * list event :=
  match o with
  | ORequest t id q =>
      match request sha256 s t id q with (s', inl r) => (s', [ERequested r]) | (s', _) => (s', []) end
  | OApprove t0 t1 id by_ =>
      match approve s t0 t1 id by_ with (s', inl _) => (s', [EApproved id]) | (s', _) => (s', []) end
  | ODeny t0 t1 id by_ => ((deny s t0 t1 id by_).1, [])
  | OCancel t0 t1 id by_ => ((cancel s t0 t1 id by_).1, [])
  | OConsume t0 t1 g id =>
      match checkAndConsume sha256 s t0 t1 g id with
      | (s', inl _) => (s', [EConsumed id g t1]) | (s', _) => (s', []) end
  | OPeek t0 t1 g => ((peek sha256 s t0 t1 g).1, [])
  | OPending t run => ((pendingForRun s t run).1, [])
  | OClear run => (clearRun s run, [])
  end.

Definition history (s : ApprovalStore) (ops : list op) : ApprovalStore * list event :=
  foldl (λ st o, let (s', es) := step st.1 o in (s', st.2 ++ es)%list) (s, []) ops.

Definition new_id (o : op) : option string := match o with ORequest _ id _ => Some id | _ => None end.

(** The fingerprint of record [r] is the one of action [g]: the canonical
    binding or the legacy one. *)
Definition binds (g : gate_args) (r : approval) : Prop :=
  a_paramsFingerprint r = fingerprintParams sha256 (g_actionType g) (g_params g) ∨
  legacyFp sha256 g r = Some (a_paramsFingerprint r).

Lemma checkAndConsume_keeps s t0 t1 g id :
  keeps (match (checkAndConsume sha256 s t0 t1 g id).2 with
         | inl _ => [EConsumed id g t1] | inr _ => [] end)
    s (checkAndConsume sha256 s t0 t1 g id).1.
Proof.
  eapply keeps_trans; [apply (keeps_sweep s t0)|]. unfold checkAndConsume.
  destruct (mget (approvals (sweepExpired s t0)) id) as [r|] eqn:E; [|apply keeps_refl].
  destruct (negb (String.eqb (a_runId r) _)); [apply keeps_refl|].
  destruct (negb (String.eqb (a_actionType r) _)); [apply keeps_refl|].
  case_decide as Hx.
  { case_decide; [apply keeps_refl|]. apply (keeps_set _ (sweepExpired s t0) id r); [done| |set_solver].
    apply evolves_by_quiet; [by apply evolves_expired|done]. }
  destruct (bool_decide_reflect (a_status r = ApprovalStatus.APPROVED)) as [Hs|]; [|apply keeps_refl].
  simpl negb. cbn match. destruct (a_consumed r); [apply keeps_refl|].
  destruct (fingerprint_ok _ _ _); [|apply keeps_refl].
  apply (keeps_set _ (sweepExpired s t0) id r); [done| |set_solver].
  split; [apply evolves_consumed; by rewrite Hs|split; [by left|done]].
Qed.

Lemma checkAndConsume_ok s t0 t1 g id s' r' :
  checkAndConsume sha256 s t0 t1 g id = (s', inl r') →
  ∃ r, mget (approvals (sweepExpired s t0)) id = Some r ∧ r' = r <| a_consumed := true |> ∧
    a_runId r = g_runId g ∧ a_actionType r = g_actionType g ∧ (t1 < a_expiresAt r)%Z ∧
    a_status r = ApprovalStatus.APPROVED ∧ a_consumed r = false ∧ binds g r.
Proof.
  unfold checkAndConsume.
  destruct (mget (approvals (sweepExpired s t0)) id) as [r|] eqn:E; [|done].
  destruct (String.eqb_spec (a_runId r) (g_runId g)); [|done].
  destruct (String.eqb_spec (a_actionType r) (g_actionType g)); [|done]. simpl negb. cbn match.
  case_decide; [done|].
  destruct (bool_decide_reflect (a_status r = ApprovalStatus.APPROVED)); [|done].
  simpl negb. cbn match. destruct (a_consumed r) eqn:Hc; [done|].
  destruct (fingerprint_ok _ _ _) eqn:Hf; [|done]. intros [= <- <-].
  exists r. split_and!; try done; [lia|]. unfold fingerprint_ok in Hf.
  apply bool_decide_eq_true in Hf as [Hf|Hf]; [by left|by right].
Qed.

Lemma step_keeps s o : new_id o = None → keeps (step s o).2 s (step s o).1.
Proof.
  destruct o as [|t0 t1 id by_|t0 t1 id by_|t0 t1 id by_|t0 t1 g id|t0 t1 g|t run|run]; simpl; [done|..];
    intros _.
  - pose proof (keeps_settle s t0 t1 id ApprovalStatus.APPROVED by_ ltac:(done)) as H.
    unfold approve. by destruct (settle _ _ _ _ _ _) as [s' [r|e]].
  - pose proof (keeps_settle s t0 t1 id ApprovalStatus.DENIED by_ ltac:(done)) as H.
    unfold deny. by destruct (settle _ _ _ _ _ _) as [s' [r|e]].
  - pose proof (keeps_settle s t0 t1 id ApprovalStatus.CANCELLED by_ ltac:(done)) as H.
    unfold cancel. by destruct (settle _ _ _ _ _ _) as [s' [r|e]].
  - pose proof (checkAndConsume_keeps s t0 t1 g id) as H.
    by destruct (checkAndConsume _ _ _ _ _ _) as [s' [r|e]].
  - apply keeps_sweep.
  - apply keeps_sweep.
  - apply keeps_clear.
Qed.

Lemma history_snoc s ops o :
  history s (ops ++ [o]) =
  (let (s', es) := step (history s ops).1 o in (s', (history s ops).2 ++ es)%list).
Proof. unfold history. rewrite foldl_app. done. Qed.

Lemma request_spec s t id q :
  match request sha256 s t id q with
  | (s', inl r) =>
      approvals s' = mset (approvals s) id r ∧ maxPending s' = maxPending s ∧
      (pending_count s (a_runId r) < maxPending s)%nat ∧ a_id r = id ∧
      q_runId q = Some (a_runId r) ∧ q_actionType q = Some (a_actionType r) ∧
      a_status r = ApprovalStatus.PENDING ∧ a_consumed r = false ∧
      a_paramsFingerprint r = fingerprintParams sha256 (a_actionType r) (q_params q)
  | (s', inr _) => s' = s
  end.
Proof.
  unfold request. destruct (truthy (q_runId q) && truthy (q_actionType q)) eqn:Ht; [|done].
  apply andb_true_iff in Ht as [[run Hr]%truthy_Some [act Ha]%truthy_Some].
  case_decide; [done|]. rewrite Hr, Ha in *. simpl in *. split_and!; try done; lia.
Qed.

(** *** What the history knows about a stored record *)
Definition known (tr : list event) (id : string) (r : approval) : Prop :=
  (∃ r0, ERequested r0 ∈ tr ∧ a_id r0 = id ∧ same_scope r0 r) ∧
  (a_status r = ApprovalStatus.APPROVED → EApproved id ∈ tr) ∧
  (∀ g t, EConsumed id g t ∈ tr → a_consumed r = true).

Definition requested (tr : list event) (id : string) : Prop := ∃ r, ERequested r ∈ tr ∧ a_id r = id.

Definition sound (s : ApprovalStore) (tr : list event) : Prop :=
  mwf (approvals s) ∧
  (∀ id r, mget (approvals s) id = Some r → known tr id r) ∧
  (∀ id g t, EConsumed id g t ∈ tr → requested tr id).

(** An event is explained by the events before it. *)
Definition justified (past : list event) (e : event) : Prop :=
  match e with
  | EConsumed id g t => ∃ r, ERequested r ∈ past ∧ a_id r = id ∧ EApproved id ∈ past ∧
      a_runId r = g_runId g ∧ a_actionType r = g_actionType g ∧ (t < a_expiresAt r)%Z ∧
      binds g r ∧ ∀ g' t', EConsumed id g' t' ∉ past
  | _ => True
  end.

Lemma known_evolves tr es id r r' :
  known tr id r → evolves_by es id r r' → known (tr ++ es) id r'.
Proof.
  intros ((r0 & H1 & H2 & H3) & Ha & Hc) ((Hsc & _ & _ & _ & Hk) & Hst & Hes). split_and!.
  - exists r0. split; [set_solver|]. split; [done|]. unfold same_scope in *. naive_solver congruence.
  - intros E. destruct (Hst E) as [?|?]; set_solver.
  - intros g t [Hin|Hin]%elem_of_app; eauto.
Qed.

Lemma sound_keeps s s' tr es :
  sound s tr → keeps es s s' → (∀ id g t, EConsumed id g t ∈ es → requested tr id) → sound s' (tr ++ es).
Proof.
  intros (Hw & Hk & Hc) (_ & W & R & _) Hes. split_and!; [auto| |].
  - intros id r' E. destruct (R Hw id r' E) as (r & Er & Hev). eapply known_evolves; eauto.
  - intros id g t [Hin|Hin]%elem_of_app.
    + destruct (Hc _ _ _ Hin) as (r & ? & ?). exists r. set_solver.
    + destruct (Hes _ _ _ Hin) as (r & ? & ?). exists r. set_solver.
Qed.

Lemma sound_request s tr t id q :
  sound s tr → ¬ requested tr id →
  sound (step s (ORequest t id q)).1 (tr ++ (step s (ORequest t id q)).2).
Proof.
  intros (Hw & Hk & Hc) Hnew. simpl. pose proof (request_spec s t id q) as H.
  destruct (request sha256 s t id q) as [s' [r|e]]; simpl.
  2: { subst. rewrite app_nil_r. done. }
  destruct H as (E & _ & _ & Hid & _ & _ & Hp & Hcn & _). split_and!.
  - rewrite E. by apply mwf_set.
  - intros j r'. rewrite E, mget_set. case_decide; intros Hj; simplify_eq.
    + split_and!.
      * exists r'. split; [set_solver|]. split; [done|]. done.
      * intros Ha. congruence.
      * intros g t' [Hin|Hin]%elem_of_app; [|set_solver]. destruct Hnew. by eapply Hc.
    + rewrite <- (app_nil_r tr), <- app_assoc. simpl.
      destruct (Hk _ _ Hj) as ((r0 & H1 & H2 & H3) & Ha & Hcc). split_and!.
      * exists r0. set_solver.
      * intros Hst. set_solver.
      * intros g t' Hin. apply (Hcc g t'). set_solver.
  - intros j g t' [Hin|Hin]%elem_of_app; [|set_solver].
    destruct (Hc _ _ _ Hin) as (r0 & ? & ?). exists r0. set_solver.
Qed.

(** A step from a sound state gives a sound state and justified events. *)
Lemma step_sound s tr o :
  sound s tr → (∀ id, new_id o = Some id → ¬ requested tr id) →
  sound (step s o).1 (tr ++ (step s o).2) ∧ Forall (justified tr) (step s o).2 ∧
  (length (step s o).2 ≤ 1)%nat.
Proof.
  intros Hs Hnew. destruct o as [t id q|t0 t1 id by_|t0 t1 id by_|t0 t1 id by_|t0 t1 g id|t0 t1 g|t run|run].
  - split; [by apply sound_request, Hnew|]. simpl.
    destruct (request sha256 s t id q) as [s' [r|e]]; simpl; (split; [repeat constructor|lia]).
  - split; [eapply sound_keeps; [done|by apply step_keeps|]|]; simpl; unfold approve;
      destruct (settle _ _ _ _ _ _) as [s' [r|e]]; simpl; try set_solver;
      (split; [repeat constructor|lia]).
  - split; [eapply sound_keeps; [done|by apply step_keeps|]; set_solver|]. simpl.
    split; [constructor|lia].
  - split; [eapply sound_keeps; [done|by apply step_keeps|]; set_solver|]. simpl.
    split; [constructor|lia].
  - pose proof (keeps_sweep s t0) as Hsw.
    assert (sound (sweepExpired s t0) tr) as (_ & Hk & _).
    { rewrite <- (app_nil_r tr). eapply sound_keeps; [done|done|set_solver]. }
    assert (∀ s' r', checkAndConsume sha256 s t0 t1 g id = (s', inl r') →
      justified tr (EConsumed id g t1)) as Hj.
    { intros s' r' E. apply checkAndConsume_ok in E as (r & E & _ & Er & Ea & Ht & Hst & Hc & Hb).
      destruct (Hk id r E) as ((r0 & H1 & H2 & Hsc) & Hap & Hcc).
      destruct Hsc as (_ & S2 & S3 & S4 & S5 & S6). exists r0. split_and!; try done; try congruence.
      - by apply Hap.
      - destruct Hb as [Hb|Hb]; [left|right]; [congruence|].
        unfold legacyFp in *. by rewrite <- S6, <- S4.
      - intros g' t' Hin. apply Hcc in Hin. congruence. }
    split; [eapply sound_keeps; [done|by apply step_keeps|]|]; simpl;
      destruct (checkAndConsume _ _ _ _ _ _) as [s' [r'|e]]; simpl; try set_solver;
      try (split; [repeat constructor; eauto|lia]).
    intros j g' t' Hin. apply list_elem_of_singleton in Hin. simplify_eq.
    destruct (Hj _ _ eq_refl) as (r0 & ? & ? & _). by exists r0.
  - split; [eapply sound_keeps; [done|by apply step_keeps|]; set_solver|]. simpl.
    split; [constructor|lia].
  - split; [eapply sound_keeps; [done|by apply step_keeps|]; set_solver|]. simpl.
    split; [constructor|lia].
  - split; [eapply sound_keeps; [done|by apply step_keeps|]; set_solver|]. simpl.
    split; [constructor|lia].
Qed.

Definition all_justified (tr : list event) : Prop :=
  ∀ past e rest, tr = (past ++ e :: rest)%list → justified past e.

Lemma all_justified_app tr es :
  all_justified tr → Forall (justified tr) es → (length es ≤ 1)%nat → all_justified (tr ++ es).
Proof.
  intros Ht Hes Hl past e rest E. destruct es as [|e' [|e'' es]]; simpl in Hl; [| |lia].
  - rewrite app_nil_r in E. eauto.
  - apply Forall_cons in Hes as [Hes _]. destruct rest as [|x rest _] using rev_ind.
    + apply app_inj_tail in E as [-> ->]. done.
    + rewrite app_comm_cons, app_assoc in E. apply app_inj_tail in E as [E _]. eauto.
Qed.

Lemma step_requests s o r : ERequested r ∈ (step s o).2 → new_id o = Some (a_id r).
Proof.
  rewrite list_elem_of_In. destruct o as [t id q| | | | | | |]; simpl; try tauto.
  - pose proof (request_spec s t id q) as H. destruct (request sha256 s t id q) as [s' [r'|e]]; simpl; [|tauto].
    destruct H as (_ & _ & _ & <- & _). intros [[= <-]|[]]. done.
  - unfold approve. destruct (settle _ _ _ _ _ _) as [? [?|?]]; simpl; [|tauto]. by intros [|[]].
  - destruct (checkAndConsume _ _ _ _ _ _) as [? [?|?]]; simpl; [|tauto]. by intros [|[]].
Qed.

Definition new_ids (ops : list op) : list string := omap new_id ops.

Lemma history_sound ops :
  NoDup (new_ids ops) → ∀ ttl mp,
  let '(s, tr) := history (new_store ttl mp) ops in
  sound s tr ∧ all_justified tr ∧ ∀ id, requested tr id → id ∈ new_ids ops.
Proof.
  intros Hnd ttl mp. induction ops as [|o ops IH] using rev_ind.
  - simpl. split; [|split].
    + split; [apply mwf_nil|split; [done|]]. intros id g t Hin. by apply not_elem_of_nil in Hin.
    + intros past e rest E. destruct past; discriminate E.
    + intros id (r & Hin & _). by apply not_elem_of_nil in Hin.
  - unfold new_ids in *. rewrite omap_app in Hnd. apply NoDup_app in Hnd as (Hnd & Hdis & _).
    rewrite history_snoc. destruct (history (new_store ttl mp) ops) as [s tr].
    destruct (IH Hnd) as (Hs & Hj & Hr). simpl fst. simpl snd.
    destruct (step_sound s tr o Hs) as (Hs' & Hes & Hl).
    { intros id Hid Hreq. apply (Hdis id (Hr id Hreq)). simpl. rewrite Hid. set_solver. }
    destruct (step s o) as [s' es] eqn:Est. simpl in Hs', Hes, Hl.
    split; [done|split; [by apply all_justified_app|]].
    intros id (r & [Hin|Hin]%elem_of_app & <-); rewrite omap_app, elem_of_app.
    + left. apply Hr. by exists r.
    + right. assert (new_id o = Some (a_id r)) as E.
      { eapply step_requests. rewrite Est. exact Hin. }
      simpl. rewrite E. set_solver.
Qed.

Lemma step_pending_bound s o :
  (∀ run, pending_count s run ≤ maxPending s)%nat →
  maxPending (step s o).1 = maxPending s ∧
  ∀ run, (pending_count (step s o).1 run ≤ maxPending (step s o).1)%nat.
Proof.
  intros Hs. destruct (new_id o) as [i|] eqn:Hn.
  - destruct o as [t id q| | | | | | |]; try done. simpl. pose proof (request_spec s t id q) as H.
    destruct (request sha256 s t id q) as [s' [r|e]]; simpl; [|by subst].
    destruct H as (E & Em & Hlt & _). rewrite Em. split; [done|]. intros run.
    unfold pending_count in *. rewrite E.
    destruct (decide (is_pending_of run r)) as [[Hrun _]|Hnp].
    + subst run. etrans; [apply mcount_set_le|]. lia.
    + etrans; [by apply mcount_set_not|]. apply Hs.
  - destruct (step_keeps s o Hn) as (Em & _ & _ & Hp). rewrite Em. split; [done|].
    intros run. etrans; [apply Hp|apply Hs].
Qed.
End Histories.

(** ** Properties *)

Lemma history_wf sha256 s ops :
  mwf (approvals s) → (∀ run, (pending_count s run ≤ maxPending s)%nat) →
  let s' := (history sha256 s ops).1 in
  mwf (approvals s') ∧ maxPending s' = maxPending s ∧ ∀ run, (pending_count s' run ≤ maxPending s')%nat.
Proof.
  intros Hw Hp. induction ops as [|o ops IH] using rev_ind; [done|]. rewrite history_snoc.
  destruct (history sha256 s ops) as [s1 tr]. destruct IH as (Hw1 & Em & Hp1). simpl in Hw1, Em, Hp1. simpl fst.
  destruct (step_pending_bound sha256 s1 o Hp1) as [Em' Hp'].
  assert (mwf (approvals (step sha256 s1 o).1)) as Hw'.
  { destruct (new_id o) as [i|] eqn:Hn; [|by apply step_keeps].
    destruct o as [t id q| | | | | | |]; try done. simpl. pose proof (request_spec sha256 s1 t id q) as H.
    destruct (request sha256 s1 t id q) as [s2 [r|e]]; simpl; [|by subst].
    destruct H as (-> & _). by apply mwf_set. }
  destruct (step sha256 s1 o) as [s2 es]. simpl in *. js_split; [done|congruence|done].
Qed.

(** C3: an approval authorizes one action, once.  In any history of the store
    whose generated ids do not repeat, every successful consumption of an id
    comes after a request that created it for the same run, the same action
    type and a fingerprint binding the same parameters, and after its approval;
    it happens strictly before the expiry set by the request; and the id was
    never consumed before. *)
Theorem approval_consumption_sound sha256 ttl mp ops :
  NoDup (new_ids ops) →
  let tr := (history sha256 (new_store ttl mp) ops).2 in
  ∀ past e rest, tr = (past ++ e :: rest)%list → justified sha256 past e.
Proof.
  intros Hnd. pose proof (history_sound sha256 ops Hnd ttl mp) as H.
  destruct (history sha256 (new_store ttl mp) ops) as [s tr]. destruct H as (_ & Hj & _). exact Hj.
Qed.

Definition sample_request : request_args :=
  RequestArgs (Some "run-1") (Some "git_commit") None None None
    (JObj [("message", JStr "x")]) JUndef None None None None.
Definition sample_gate : gate_args :=
  GateArgs "run-1" "git_commit" (JObj [("message", JStr "x")]) JUndef.
Definition sample_ops : list op :=
  [ORequest 0 "a1" sample_request; OApprove 1 1 "a1" None; OConsume 2 2 sample_gate "a1";
   OConsume 3 3 sample_gate "a1"].

Lemma approval_consumption_sound_witness :
  (∃ r, (history id (new_store None None) sample_ops).2 =
     [ERequested r; EApproved "a1"; EConsumed "a1" sample_gate 2]) ∧
  ∀ r, (history id (new_store None None) sample_ops).2 =
     ([ERequested r; EApproved "a1"] ++ EConsumed "a1" sample_gate 2 :: [])%list →
  justified id [ERequested r; EApproved "a1"] (EConsumed "a1" sample_gate 2).
Proof.
  split; [eexists; vm_compute; reflexivity|]. intros r E.
  apply (approval_consumption_sound id None None sample_ops) with (rest := []); [|exact E].
  vm_compute. repeat constructor. intros Hin. inversion Hin.
Defined.

(** The life of an approval and the bound on pending ones.  After any
    history, a run never has more pending approvals than [maxPending]; and one
    further operation leaves every record it does not create with the same
    scope, moves its status only along PENDING -> anything and anything ->
    EXPIRED (final), and never clears its consumed mark. *)
Theorem approval_lifecycle sha256 ttl mp ops o :
  let s := (history sha256 (new_store ttl mp) ops).1 in
  let s' := (step sha256 s o).1 in
  (∀ run, (pending_count s run ≤ maxPending (new_store ttl mp))%nat) ∧
  ∀ id r', mget (approvals s') id = Some r' → new_id o ≠ Some id →
    ∃ r, mget (approvals s) id = Some r ∧ evolves r r'.
Proof.
  cbn zeta. destruct (history_wf sha256 (new_store ttl mp) ops mwf_nil) as (Hw & Em & Hp).
  { intros run. change (pending_count (new_store ttl mp) run) with 0%nat. lia. }
  split; [by rewrite <- Em|]. intros id r' E Hn.
  destruct (new_id o) as [i|] eqn:Ho.
  - destruct o as [t i' q| | | | | | |]; try done. simpl in *. simplify_eq.
    pose proof (request_spec sha256 (history sha256 (new_store ttl mp) ops).1 t i q) as H.
    destruct (request _ _ t i q) as [s2 [r|e]]; simpl in *; [|subst; exists r'; split; [done|apply evolves_refl]].
    destruct H as (H & _). rewrite H, mget_set_ne in E by congruence.
    exists r'. split; [done|apply evolves_refl].
  - destruct (step_keeps sha256 (history sha256 (new_store ttl mp) ops).1 o Ho) as (_ & _ & R & _).
    destruct (R Hw id r' E) as (r & ? & ? & _). by exists r.
Qed.

Lemma truthy_obj fs : or_empty (JObj fs) = JObj fs.
Proof. done. Qed.

(** The fingerprint binds the parameters up to the order of object keys.
    For an action and two parameter objects of defined values, provided SHA-256
    (cut to 16 digits) does not collide on the two canonical texts, the
    fingerprints agree exactly when the objects are equal after sorting their
    keys. *)
Theorem fingerprint_binds_params sha256 act fs gs :
  defined (JObj fs) = true → defined (JObj gs) = true →
  (slice0 16 (sha256 (canonical_text act (JObj fs))) = slice0 16 (sha256 (canonical_text act (JObj gs))) →
   canonical_text act (JObj fs) = canonical_text act (JObj gs)) →
  fingerprintParams sha256 act (JObj fs) = fingerprintParams sha256 act (JObj gs) ↔
  canon (JObj fs) = canon (JObj gs).
Proof.
  intros Hf Hg Hc. rewrite <- (stable_canon (JObj fs) (JObj gs)) by done.
  unfold fingerprintParams. split.
  - intros E%Hc. unfold canonical_text in E. rewrite !truthy_obj in E.
    apply app_cancel in E. apply (app_cancel "|") in E.
    pose proof (stable_render _ Hf) as Ef. pose proof (stable_render _ Hg) as Eg.
    rewrite Ef, Eg in E |- *. cbn [default] in E. by f_equal.
  - intros E. unfold canonical_text. rewrite !truthy_obj. by rewrite E.
Qed.

Lemma fingerprint_binds_params_witness :
  fingerprintParams id "a" (JObj [("x", JNum 1); ("y", JNull)])
    = fingerprintParams id "a" (JObj [("y", JNull); ("x", JNum 1)]) ↔
  canon (JObj [("x", JNum 1); ("y", JNull)]) = canon (JObj [("y", JNull); ("x", JNum 1)]).
Proof. apply (fingerprint_binds_params id "a"); [reflexivity|reflexivity|reflexivity]. Defined.

Lemma raise_ge to why acc x : (0 ≤ compareRisk acc.1 x → 0 ≤ compareRisk (raise to why acc).1 x)%Z.
Proof. unfold raise. case_decide; simpl; unfold compareRisk in *; lia. Qed.

Lemma when_ge b to why acc x : (0 ≤ compareRisk acc.1 x → 0 ≤ compareRisk (when b (raise to why) acc).1 x)%Z.
Proof. destruct b; [apply raise_ge|done]. Qed.

Lemma when_to b to why acc : b = true → (0 ≤ compareRisk (when b (raise to why) acc).1 to)%Z.
Proof. intros ->. unfold when, raise. case_decide; simpl; unfold compareRisk in *; lia. Qed.

(** Pushing, installing and deploying are never classified below HIGH. *)
Lemma classified_dangerous def params :
  d_name def = Some "git_push" ∨ d_name def = Some "install_package" ∨ d_name def = Some "deploy_preview" →
  (0 ≤ compareRisk (classifyRisk (Some def) params).1 RiskLevel.HIGH)%Z.
Proof.
  unfold classifyRisk. change (Some def ≫= d_name) with (d_name def). intros [-> | [-> | ->]].
  - do 4 apply when_ge. by apply when_to.
  - do 3 apply when_ge. by apply when_to.
  - eapply compareRisk_trans; [by apply when_to|]. unfold compareRisk; simpl. lia.
Qed.

Lemma critical_top r : (0 ≤ compareRisk r RiskLevel.CRITICAL)%Z → r = RiskLevel.CRITICAL.
Proof. by destruct r. Qed.

(** Parameter analysis only raises a risk.  The classified risk is never
    below the tool's declared risk; pushing, installing and deploying are at
    least HIGH, so they need approval under every policy and mode; running a
    test or build command that is not allow-listed is CRITICAL. *)
Theorem risk_only_raised pol def params :
  let r := (classifyRisk (Some def) params).1 in
  (0 ≤ compareRisk r (d_riskLevel def))%Z ∧
  (d_name def = Some "git_push" ∨ d_name def = Some "install_package" ∨
   d_name def = Some "deploy_preview" → (needsApproval pol (Some def) (Some r)).1 = true) ∧
  (∀ c, d_name def = Some "run_tests" ∨ d_name def = Some "build_project" →
     prop params "command" = JStr c → truthy_str c = true → listed_command c = false →
     r = RiskLevel.CRITICAL).
Proof.
  cbn zeta. unfold classifyRisk. change (Some def ≫= d_name) with (d_name def).
  split; [|split].
  - repeat apply when_ge. simpl. unfold compareRisk. lia.
  - intros Hn. by apply needsApproval_dangerous, classified_dangerous.
  - intros c Hn Hc Ht Hl.
    assert (or_empty params = params) as -> by (by destruct params).
    rewrite Hc, Ht, Hl. match goal with |- ?x.1 = _ =>
      assert (0 ≤ compareRisk x.1 RiskLevel.CRITICAL)%Z as Hx end.
    { apply when_ge, when_to. by destruct Hn as [->| ->]. }
    by apply critical_top.
Qed.
