(* ===== verification/Plans.v ===== *)
(** Plans, episodes, cooperative pause and user constraints:
    backend/src/execution/plans-episodes.js, with the parts of controller.js
    that open and close episodes.

    Generated ids are inputs; time is in milliseconds. *)

From S2P Require Import Prelude JsMap JsValue Text Paths.

Local Open Scope string_scope.
Local Open Scope js_scope.

Module PlanStepStatus.
(* [src/backend/src/execution/plans-episodes.js:13-20] PlanStepStatus *)
Inductive t : Set := PENDING | RUNNING | BLOCKED | COMPLETED | FAILED | SKIPPED.

(* [src/backend/src/execution/plans-episodes.js:13-20] PlanStepStatus *)
Definition value (x : t) : string :=
  match x with
  | PENDING => "PENDING"
  | RUNNING => "RUNNING"
  | BLOCKED => "BLOCKED"
  | COMPLETED => "COMPLETED"
  | FAILED => "FAILED"
  | SKIPPED => "SKIPPED"
  end.

#[global] Instance t_eq_dec : EqDecision t.
Proof. solve_decision. Defined.
End PlanStepStatus.

Module EpisodeStatus.
(* [src/backend/src/execution/plans-episodes.js:22-28] EpisodeStatus *)
Inductive t : Set := RUNNING | COMPLETED | FAILED | CANCELLED | PAUSED.

(* [src/backend/src/execution/plans-episodes.js:22-28] EpisodeStatus *)
Definition value (x : t) : string :=
  match x with
  | RUNNING => "RUNNING"
  | COMPLETED => "COMPLETED"
  | FAILED => "FAILED"
  | CANCELLED => "CANCELLED"
  | PAUSED => "PAUSED"
  end.

#[global] Instance t_eq_dec : EqDecision t.
Proof. solve_decision. Defined.
End EpisodeStatus.

Module PauseState.
(* [src/backend/src/execution/plans-episodes.js:30-35] PauseState *)
Inductive t : Set := RUNNING | PAUSING | PAUSED | RESUMING.

(* [src/backend/src/execution/plans-episodes.js:30-35] PauseState *)
Definition value (x : t) : string :=
  match x with
  | RUNNING => "RUNNING"
  | PAUSING => "PAUSING"
  | PAUSED => "PAUSED"
  | RESUMING => "RESUMING"
  end.

#[global] Instance t_eq_dec : EqDecision t.
Proof. solve_decision. Defined.
End PauseState.

Module PlanManager.

(* [src/backend/src/execution/plans-episodes.js:40-52] plan step *)
Record plan_step := PlanStep {
  id : string;
  description : string;
  status : PlanStepStatus.t;
  dependencies : list string;
  expectedArtifacts : list string;
  verification : option jsval;
  startedAt : option Z;
  completedAt : option Z;
  attempts : Z;
}.

#[export] Instance plan_step_eta : Eta plan_step := λ s,
  PlanStep (id s) (description s) (status s) (dependencies s) (expectedArtifacts s)
    (verification s) (startedAt s) (completedAt s) (attempts s).

(** A step to add: a bare description, or one with its options. *)
Record step_spec := StepSpec {
  sp_description : string;
  sp_dependencies : list string;
  sp_expectedArtifacts : list string;
  sp_verification : jsval;
}.

(* [src/backend/src/execution/plans-episodes.js:40-52] newPlanStep *)
Definition newPlanStep (new_id : string) (d : step_spec) : plan_step :=
  PlanStep new_id (slice0 500 (sp_description d)) PlanStepStatus.PENDING (sp_dependencies d)
    (sp_expectedArtifacts d)
    (if truthy_val (sp_verification d) then Some (sp_verification d) else None) None None 0.

(** The fields an [Object.assign(step, patch)] overwrites. *)
(* [src/backend/src/execution/plans-episodes.js:77-77] step patch *)
Record step_patch := StepPatch {
  pa_description : option string;
  pa_status : option PlanStepStatus.t;
  pa_dependencies : option (list string);
  pa_attempts : option Z;
}.

Definition assign_step (s : plan_step) (p : step_patch) : plan_step :=
  s <| description ::= λ d, default d (pa_description p) |>
    <| status ::= λ x, default x (pa_status p) |>
    <| dependencies ::= λ x, default x (pa_dependencies p) |>
    <| attempts ::= λ x, default x (pa_attempts p) |>.

(* [src/backend/src/execution/plans-episodes.js:61-61] plan *)
Record plan := Plan {
  runId : string;
  steps : list plan_step;
  version : Z;
  updatedAt : Z;
}.

#[export] Instance plan_eta : Eta plan := λ p, Plan (runId p) (steps p) (version p) (updatedAt p).

(** [this.plans] *)
(* [src/backend/src/execution/plans-episodes.js:54-57] PlanManager *)
Definition plans := jsmap string plan.

Definition new_steps (ds : list (string * step_spec)) : list plan_step :=
  (λ d, newPlanStep d.1 d.2) <$> ds.

(* [src/backend/src/execution/plans-episodes.js:59-64] create *)
Definition create (m : plans) (now : Z) (run : string) (ds : list (string * step_spec)) : plans :=
  mset m run (Plan run (new_steps ds) 1 now).

(* [src/backend/src/execution/plans-episodes.js:66-69] view *)
Definition view (m : plans) (run : string) : option plan := mget m run.

(* [src/backend/src/execution/plans-episodes.js:76-79] adapt one step *)
Definition adapt_step (updateStep : jsmap string step_patch) (skipStepIds : list string)
    (s : plan_step) : plan_step :=
  let s := match mget updateStep (id s) with Some p => assign_step s p | None => s end in
  if decide (id s ∈ skipStepIds ∧ status s = PlanStepStatus.PENDING)
  then s <| status := PlanStepStatus.SKIPPED |> else s.

(* [src/backend/src/execution/plans-episodes.js:73-84] adapt *)
Definition adapt (m : plans) (now : Z) (run : string) (updateStep : jsmap string step_patch)
    (addSteps : list (string * step_spec)) (skipStepIds : list string) : plans :=
  match mget m run with
  | None => m
  | Some p =>
      mset m run (p <| steps ::= λ l, ((adapt_step updateStep skipStepIds <$> l) ++ new_steps addSteps)%list |>
                    <| version ::= Z.succ |> <| updatedAt := now |>)
  end.

Definition closed_status : list PlanStepStatus.t :=
  [PlanStepStatus.COMPLETED; PlanStepStatus.FAILED; PlanStepStatus.SKIPPED].

(* [src/backend/src/execution/plans-episodes.js:91-94] set one status *)
Definition set_step_status (now : Z) (st : PlanStepStatus.t) (extra : step_patch) (s : plan_step)
    : plan_step :=
  let s := s <| status := st |> in
  let s := if decide (st = PlanStepStatus.RUNNING ∧ startedAt s = None)
           then s <| startedAt := Some now |> <| attempts ::= Z.succ |> else s in
  let s := if decide (st ∈ closed_status) then s <| completedAt := Some now |> else s in
  assign_step s extra.

(** The first step with the id is updated. *)
Fixpoint update_first (stepId : string) (f : plan_step → plan_step) (l : list plan_step)
    : option (list plan_step) :=
  match l with
  | [] => None
  | s :: l' => if decide (id s = stepId) then Some (f s :: l')
               else l'' ← update_first stepId f l'; Some (s :: l'')
  end.

(* [src/backend/src/execution/plans-episodes.js:86-97] setStatus *)
Definition setStatus (m : plans) (now : Z) (run stepId : string) (st : PlanStepStatus.t)
    (extra : step_patch) : plans :=
  match mget m run with
  | None => m
  | Some p =>
      match update_first stepId (set_step_status now st extra) (steps p) with
      | None => m
      | Some l => mset m run (p <| steps := l |> <| updatedAt := now |>)
      end
  end.

(** [new Map(p.steps.map((s) => [s.id, s]))]: a later step replaces an earlier
    one with the same id. *)
(* [src/backend/src/execution/plans-episodes.js:103-103] byId *)
Definition by_id (l : list plan_step) : jsmap string plan_step :=
  foldl (λ m s, mset m (id s) s) [] l.

(* [src/backend/src/execution/plans-episodes.js:104-107] step is ready *)
Definition is_ready (l : list plan_step) (s : plan_step) : bool :=
  bool_decide (status s = PlanStepStatus.PENDING) &&
  forallb (λ d, match mget (by_id l) d with
                | Some s' => bool_decide (status s' = PlanStepStatus.COMPLETED)
                | None => false end) (dependencies s).

(* [src/backend/src/execution/plans-episodes.js:100-108] readySteps *)
Definition readySteps (m : plans) (run : string) : list plan_step :=
  match mget m run with
  | None => []
  | Some p => filter (λ s, is_ready (steps p) s = true) (steps p)
  end.

(* [src/backend/src/execution/plans-episodes.js:110-114] isComplete *)
Definition isComplete (m : plans) (run : string) : bool :=
  match mget m run with
  | None => false
  | Some p => negb (bool_decide (steps p = [])) &&
      forallb (λ s, bool_decide (status s ∈ [PlanStepStatus.COMPLETED; PlanStepStatus.SKIPPED])) (steps p)
  end.

(* [src/backend/src/execution/plans-episodes.js:116-116] clearRun *)
Definition clearRun (m : plans) (run : string) : plans := mdelete m run.

(** ** Properties *)

Lemma is_ready_spec l s :
  is_ready l s = true ↔ status s = PlanStepStatus.PENDING ∧
  ∀ d, d ∈ dependencies s → ∃ s', mget (by_id l) d = Some s' ∧ status s' = PlanStepStatus.COMPLETED.
Proof.
  unfold is_ready. rewrite andb_true_iff, bool_decide_eq_true, forallb_forall. split.
  - intros [Hs Hd]. split; [done|]. intros d Hin%list_elem_of_In. specialize (Hd d Hin).
    destruct (mget (by_id l) d) as [s'|]; [|done]. exists s'. by apply bool_decide_eq_true in Hd.
  - intros [Hs Hd]. split; [done|]. intros d Hin%list_elem_of_In.
    destruct (Hd d Hin) as (s' & -> & Hs'). by apply bool_decide_eq_true.
Qed.

Lemma by_id_snoc l s : by_id (l ++ [s]) = mset (by_id l) (id s) s.
Proof. unfold by_id. by rewrite foldl_app. Qed.

Lemma by_id_elem l d s : mget (by_id l) d = Some s → s ∈ l ∧ id s = d.
Proof.
  revert s. induction l as [|x l IH] using rev_ind; intros s; [done|]. rewrite by_id_snoc, mget_set.
  case_decide; intros E; simplify_eq; [set_solver|]. destruct (IH _ E). set_solver.
Qed.

Lemma by_id_unique l s : NoDup (id <$> l) → s ∈ l → mget (by_id l) (id s) = Some s.
Proof.
  induction l as [|x l IH] using rev_ind; intros Hnd Hin; [by apply not_elem_of_nil in Hin|].
  rewrite fmap_app in Hnd. apply NoDup_app in Hnd as (Hnd & Hdis & _).
  rewrite by_id_snoc, mget_set. apply elem_of_app in Hin as [Hin|Hin].
  - case_decide as E; [|by apply IH]. exfalso. apply (Hdis (id s)); [by apply list_elem_of_fmap_2|].
    simpl. rewrite E. set_solver.
  - apply list_elem_of_singleton in Hin as ->. by rewrite decide_True.
Qed.

Lemma adapt_step_quiet u sk s :
  mget u (id s) = None → status s ≠ PlanStepStatus.PENDING → adapt_step u sk s = s.
Proof. intros Hu Hs. unfold adapt_step. rewrite Hu. rewrite decide_False; naive_solver. Qed.

Lemma adapt_step_id u sk s : id (adapt_step u sk s) = id s.
Proof. unfold adapt_step. destruct (mget u (id s)); case_decide; done. Qed.

(** Readiness and completion of a plan with distinct step ids.  The ready
    steps are exactly its PENDING steps all of whose dependencies name
    COMPLETED steps; a complete plan has no ready step; adapting the plan keeps
    every step that is neither pending nor patched, keeps the ids in order,
    appends the new steps as PENDING and increments the version. *)
Theorem plan_readiness m run p now u add sk :
  mget m run = Some p → NoDup (id <$> steps p) →
  (∀ s, s ∈ readySteps m run ↔ s ∈ steps p ∧ status s = PlanStepStatus.PENDING ∧
     ∀ d, d ∈ dependencies s →
       ∃ s', s' ∈ steps p ∧ id s' = d ∧ status s' = PlanStepStatus.COMPLETED) ∧
  (isComplete m run = true → readySteps m run = []) ∧
  ∃ p', mget (adapt m now run u add sk) run = Some p' ∧ version p' = (version p + 1)%Z ∧
    (id <$> steps p') = ((id <$> steps p) ++ add.*1)%list ∧
    (∀ i s, steps p !! i = Some s → mget u (id s) = None → status s ≠ PlanStepStatus.PENDING →
       steps p' !! i = Some s) ∧
    (∀ i s, steps p' !! (length (steps p) + i)%nat = Some s → status s = PlanStepStatus.PENDING).
Proof.
  intros E Hnd. split; [|split].
  - intros s. unfold readySteps. rewrite E, list_elem_of_filter, is_ready_spec. split.
    + intros [[Hs Hd] Hin]. split_and!; [done|done|]. intros d Hdin.
      destruct (Hd d Hdin) as (s' & Hs' & ?). apply by_id_elem in Hs' as [? ?]. by exists s'.
    + intros (Hin & Hs & Hd). split; [|done]. split; [done|]. intros d Hdin.
      destruct (Hd d Hdin) as (s' & Hin' & <- & ?). exists s'. split; [by apply by_id_unique|done].
  - unfold isComplete, readySteps. rewrite E. intros [_ Hall]%andb_true_iff.
    apply elem_of_nil_inv. intros s [Hr Hin]%list_elem_of_filter. apply is_ready_spec in Hr as [Hs _].
    rewrite forallb_forall in Hall. specialize (Hall s). rewrite <- list_elem_of_In in Hall.
    apply Hall in Hin. apply bool_decide_eq_true in Hin. rewrite Hs in Hin. set_solver.
  - unfold adapt. rewrite E. eexists. split; [apply mget_set_eq|]. simpl. split_and!.
    + done.
    + rewrite fmap_app. f_equal; unfold new_steps; rewrite <- list_fmap_compose;
        apply list_fmap_ext; intros i x _; simpl; [apply adapt_step_id|done].
    + intros i s Hi Hu Hs. rewrite lookup_app_l by (rewrite length_fmap; by eapply lookup_lt_Some).
      rewrite list_lookup_fmap, Hi. simpl. by rewrite adapt_step_quiet.
    + intros i s Hi. rewrite lookup_app_r in Hi by (rewrite length_fmap; lia).
      rewrite length_fmap in Hi. unfold new_steps in Hi. apply list_lookup_fmap_Some in Hi as (d & -> & _).
      done.
Qed.

Definition spec (d : string) (deps : list string) : step_spec := StepSpec d deps [] JUndef.

Lemma plan_readiness_witness :
  let m := create [] 5 "r" [("s1", spec "build" []); ("s2", spec "test" ["s1"])] in
  (∃ p, mget m "r" = Some p) ∧ (id <$> readySteps m "r") = ["s1"] ∧
  ∀ s, s ∈ readySteps m "r" → status s = PlanStepStatus.PENDING.
Proof.
  cbn zeta. split; [by eexists|]. split; [reflexivity|]. intros s Hs.
  destruct (plan_readiness (create [] 5 "r" [("s1", spec "build" []); ("s2", spec "test" ["s1"])]) "r"
    (Plan "r" (new_steps [("s1", spec "build" []); ("s2", spec "test" ["s1"])]) 1 5) 6 [] [] [])
    as [Hr _]; [reflexivity| |].
  - vm_compute. constructor; [|repeat constructor]; intros Hin; inversion Hin; subst; by inversion H1.
  - by apply Hr in Hs as (_ & ? & _).
Defined.
End PlanManager.

Module EpisodeManager.

(* [src/backend/src/execution/plans-episodes.js:140-150] episode *)
Record episode := Episode {
  episodeId : string;
  ep_runId : string;
  parentEpisodeId : option string;
  goal : string;
  ep_startedAt : Z;
  ep_completedAt : option Z;
  ep_status : EpisodeStatus.t;
  ep_steps : Z;
  ep_toolCalls : Z;
}.

#[export] Instance episode_eta : Eta episode := λ e,
  Episode (episodeId e) (ep_runId e) (parentEpisodeId e) (goal e) (ep_startedAt e)
    (ep_completedAt e) (ep_status e) (ep_steps e) (ep_toolCalls e).

(** [this.episodes]: the episodes of each run, oldest first. *)
(* [src/backend/src/execution/plans-episodes.js:133-136] EpisodeManager *)
Definition episodes := jsmap string (list episode).

(* [src/backend/src/execution/plans-episodes.js:177-179] list *)
Definition list_ (m : episodes) (run : string) : list episode := default [] (mget m run).

(* [src/backend/src/execution/plans-episodes.js:172-175] current *)
Definition current (m : episodes) (run : string) : option episode := last (list_ m run).

(* [src/backend/src/execution/plans-episodes.js:138-154] start *)
Definition start (m : episodes) (now : Z) (new_id run : string) (parent : option string)
    (goal : string) : episodes * episode :=
  let ep := Episode new_id run parent (slice0 1000 goal) now None EpisodeStatus.RUNNING 0 0 in
  (mset m run (list_ m run ++ [ep])%list, ep).

Fixpoint update_first (eid : string) (f : episode → episode) (l : list episode) : option (list episode) :=
  match l with
  | [] => None
  | e :: l' => if decide (episodeId e = eid) then Some (f e :: l')
               else l'' ← update_first eid f l'; Some (e :: l'')
  end.

(** Mutating the first episode with the id; [None] is the early return. *)
Definition update (m : episodes) (run eid : string) (f : episode → episode) : option episodes :=
  l ← update_first eid f (list_ m run); Some (mset m run l).

(* [src/backend/src/execution/plans-episodes.js:156-162] recordStep *)
Definition recordStep (m : episodes) (run eid : string) (toolCalls : Z) : option episodes :=
  update m run eid (λ e, e <| ep_steps ::= Z.succ |> <| ep_toolCalls ::= Z.add toolCalls |>).

(* [src/backend/src/execution/plans-episodes.js:164-170] finish *)
Definition finish (m : episodes) (now : Z) (run eid : string) (st : EpisodeStatus.t) : option episodes :=
  update m run eid (λ e, e <| ep_status := st |> <| ep_completedAt := Some now |>).

(* [src/backend/src/execution/plans-episodes.js:181-181] clearRun *)
Definition clearRun (m : episodes) (run : string) : episodes := mdelete m run.

(** *** The callers *)

(** The wrapper of [startRun]: the first message opens episode 1. *)
(* [src/backend/src/execution/controller.js:207-214] startRun wrapper *)
Definition on_startRun (m : episodes) (now : Z) (new_id run msg : string) : episodes :=
  match current m run with
  | Some _ => m
  | None => (start m now new_id run None msg).1
  end.

(** The part of [continueRun] that closes the previous episode and opens the
    next; [failed]: the run's status is FAILED. *)
(* [src/backend/src/execution/controller.js:602-609] continueRun, episodes *)
Definition on_continueRun (m : episodes) (now : Z) (new_id run msg : string) (failed : bool) : episodes :=
  let prev := current m run in
  let m := match prev with
           | Some p =>
               if decide (ep_status p = EpisodeStatus.RUNNING)
               then default m (finish m now run (episodeId p)
                      (if failed then EpisodeStatus.FAILED else EpisodeStatus.COMPLETED))
               else m
           | None => m
           end in
  (start m now new_id run (episodeId <$> prev) msg).1.

(** The part of [_postTool] that counts a tool call. *)
(* [src/backend/src/execution/controller.js:392-395] _postTool, episodes *)
Definition on_postTool (m : episodes) (run : string) : episodes :=
  match current m run with
  | Some e => default m (recordStep m run (episodeId e) 1)
  | None => m
  end.

Inductive op :=
| OStartRun (now : Z) (new_id run msg : string)
| OContinue (now : Z) (new_id run msg : string) (failed : bool)
| OPostTool (run : string)
| OClear (run : string).

Definition step (m : episodes) (o : op) : episodes :=
  match o with
  | OStartRun now i run msg => on_startRun m now i run msg
  | OContinue now i run msg failed => on_continueRun m now i run msg failed
  | OPostTool run => on_postTool m run
  | OClear run => clearRun m run
  end.

(** ** Properties *)

(** Episodes of a run: distinct ids, each the child of the one before, and
    only the last may be running. *)
Definition chained (l : list episode) : Prop :=
  NoDup (episodeId <$> l) ∧
  (∀ e, head l = Some e → parentEpisodeId e = None) ∧
  adjacent (λ e e', parentEpisodeId e' = Some (episodeId e) ∧
                    ep_status e ≠ EpisodeStatus.RUNNING) l.

Lemma update_first_split eid f l l' :
  update_first eid f l = Some l' →
  ∃ l1 e l2, l = (l1 ++ e :: l2)%list ∧ l' = (l1 ++ f e :: l2)%list ∧ episodeId e = eid ∧
    eid ∉ (episodeId <$> l1).
Proof.
  revert l'. induction l as [|x l IH]; intros l'; simpl; [done|]. case_decide as E.
  - intros [= <-]. exists [], x, l. split_and!; [done|done|done|set_solver].
  - destruct (update_first eid f l) as [l''|]; simpl; [|done]. intros [= <-].
    destruct (IH l'' eq_refl) as (l1 & e & l2 & -> & -> & He & Hn).
    exists (x :: l1), e, l2. split_and!; [done|done|done|set_solver].
Qed.

(** Only the last episode is ever updated. *)
Lemma update_first_last f (l : list episode) e :
  NoDup (episodeId <$> (l ++ [e])%list) → update_first (episodeId e) f (l ++ [e]) = Some (l ++ [f e])%list.
Proof.
  induction l as [|x l IH]; intros Hnd; simpl.
  - by rewrite decide_True.
  - simpl in Hnd. apply NoDup_cons in Hnd as [Hx Hnd]. rewrite decide_False.
    + by rewrite IH.
    + intros E. apply Hx. rewrite E, fmap_app. set_solver.
Qed.

Lemma adjacent_snoc_inv {A} (R : A → A → Prop) l x y :
  adjacent R (l ++ [x]) → (∀ z, R z x → R z y) → adjacent R (l ++ [y]).
Proof.
  intros H Hxy i u v Hu Hv. destruct (decide (S i = length l)) as [E|E].
  - rewrite lookup_app_l in Hu by lia. rewrite lookup_app_r in Hv by lia.
    rewrite <- E, Nat.sub_diag in Hv. simpl in Hv. simplify_eq. apply Hxy, (H i).
    + by rewrite lookup_app_l by lia.
    + rewrite lookup_app_r by lia. by rewrite <- E, Nat.sub_diag.
  - assert (S i < length (l ++ [y]))%nat as Hlt by (by eapply lookup_lt_Some).
    rewrite length_app in Hlt. simpl in Hlt. rewrite lookup_app_l in Hu, Hv by lia.
    apply (H i); by rewrite lookup_app_l by lia.
Qed.

Lemma chained_update_last l e f :
  chained (l ++ [e]) → episodeId (f e) = episodeId e → parentEpisodeId (f e) = parentEpisodeId e →
  chained (l ++ [f e]).
Proof.
  intros (Hnd & Hh & Ha) Ei Ep. split_and!.
  - rewrite fmap_app in *. simpl in *. by rewrite Ei.
  - intros e' He'. destruct l as [|x l]; simpl in *; simplify_eq; [rewrite Ep|]; auto.
  - eapply adjacent_snoc_inv; [done|]. intros z [? ?]. by rewrite Ep.
Qed.

Lemma chained_snoc l e :
  chained l → episodeId e ∉ (episodeId <$> l) →
  parentEpisodeId e = (episodeId <$> last l) →
  (∀ e', last l = Some e' → ep_status e' ≠ EpisodeStatus.RUNNING) → chained (l ++ [e]).
Proof.
  intros (Hnd & Hh & Ha) Hn Hp Hr. split_and!.
  - rewrite fmap_app. apply NoDup_app. split_and!; [done| |apply NoDup_singleton]. set_solver.
  - intros e' He'. destruct l as [|x l]; simpl in *; simplify_eq; auto.
  - apply adjacent_snoc; [done|]. intros e' He'. rewrite Hp, He'. auto.
Qed.

Definition invariant (m : episodes) : Prop := mwf m ∧ mall (λ _ l, chained l) m.

Lemma chained_nil : chained [].
Proof. split_and!; [constructor|done|apply adjacent_nil]. Qed.

Lemma invariant_list m run : invariant m → chained (list_ m run).
Proof.
  intros [_ H]. unfold list_. destruct (mget m run) eqn:E; simpl; [by eapply H|apply chained_nil].
Qed.

Lemma invariant_set m run l : invariant m → chained l → invariant (mset m run l).
Proof. intros [Hw Ha] Hl. split; [by apply mwf_set|by apply mall_set]. Qed.

Lemma last_snoc_inv {A} (l : list A) x : last l = Some x → ∃ l', l = (l' ++ [x])%list.
Proof. intros E. apply last_Some in E as [l' ->]. by exists l'. Qed.

(** The id an operation brings is fresh for the run. *)
Definition fresh (m : episodes) (o : op) : Prop :=
  match o with
  | OStartRun _ i run _ | OContinue _ i run _ _ => i ∉ (episodeId <$> list_ m run)
  | _ => True
  end.

Lemma update_last m run f e :
  invariant m → current m run = Some e →
  ∃ l, list_ m run = (l ++ [e])%list ∧
    update m run (episodeId e) f = Some (mset m run (l ++ [f e])%list).
Proof.
  intros Hi Hc. unfold current in Hc. apply last_snoc_inv in Hc as [l Hl]. exists l. split; [done|].
  unfold update. pose proof (invariant_list m run Hi) as (Hnd & _). rewrite Hl in *.
  by rewrite update_first_last.
Qed.

(** The episodes of a run form one chain.  From the empty manager, after
    any sequence of first messages, continuations, tool calls and clean-ups
    whose generated ids are fresh, the episodes of every run have distinct ids,
    each names its predecessor as parent, and no episode but the last is
    RUNNING; a continuation of the last state opens a RUNNING episode. *)
Theorem episodes_chained ops o :
  (∀ pre x post, (ops ++ [o])%list = (pre ++ x :: post)%list → fresh (run step [] pre) x) →
  (∀ run', chained (list_ (run step [] (ops ++ [o])) run')) ∧
  ∀ now i r msg failed, o = OContinue now i r msg failed →
    ∃ e, current (run step [] (ops ++ [o])) r = Some e ∧
         ep_status e = EpisodeStatus.RUNNING ∧ episodeId e = i.
Proof.
  assert (∀ m x, invariant m → fresh m x → invariant (step m x)) as Hstep.
  { intros m x Hi Hf. destruct x as [now i r msg|now i r msg failed|r|r]; simpl in *.
    - unfold on_startRun. destruct (current m r) eqn:E; [done|]. simpl.
      apply invariant_set; [done|]. apply chained_snoc; [by apply invariant_list|done| |].
      + unfold current in E. by rewrite E.
      + unfold current in E. by rewrite E.
    - unfold on_continueRun. destruct (current m r) as [p|] eqn:E; simpl.
      + case_decide as Hr.
        * set (f := λ e, e <| ep_status := if failed then EpisodeStatus.FAILED
            else EpisodeStatus.COMPLETED |> <| ep_completedAt := Some now |>).
          destruct (update_last m r f p Hi E) as (l & El & Eu).
          unfold finish. fold f. rewrite Eu. simpl. pose proof (invariant_list m r Hi) as Hc.
          rewrite El in Hc, Hf.
          apply (chained_update_last l p f) in Hc; [|done|done].
          apply invariant_set; [by apply invariant_set|]. unfold list_. rewrite mget_set_eq. simpl.
          apply chained_snoc; [done| |by rewrite last_snoc|].
          -- rewrite fmap_app in *. done.
          -- intros e'. rewrite last_snoc. intros [= <-]. simpl. by destruct failed.
        * apply invariant_set; [done|]. apply chained_snoc; [by apply invariant_list|done| |].
          -- unfold current in E. by rewrite E.
          -- unfold current in E. rewrite E. by intros e' [= <-].
      + apply invariant_set; [done|]. unfold current in E.
        apply chained_snoc; [by apply invariant_list|done|by rewrite E|by rewrite E].
    - unfold on_postTool. destruct (current m r) as [e|] eqn:E; [|done]. unfold recordStep.
      set (f := λ e, e <| ep_steps ::= Z.succ |> <| ep_toolCalls ::= Z.add 1 |>).
      destruct (update_last m r f e Hi E) as (l & El & ->). simpl. apply invariant_set; [done|].
      pose proof (invariant_list m r Hi) as Hc. rewrite El in Hc.
      by apply (chained_update_last l e f) in Hc.
    - destruct Hi as [Hw Ha]. split; [by apply mwf_delete|by apply mall_delete]. }
  intros Hf. assert (∀ pre post, (ops ++ [o])%list = (pre ++ post)%list → invariant (run step [] pre)) as Hinv.
  { intros pre. induction pre as [|x pre IH] using rev_ind; intros post E.
    - split; [apply mwf_nil|apply mall_nil].
    - rewrite run_app. simpl. rewrite <- app_assoc in E. apply Hstep; [by eapply IH|].
      by eapply Hf. }
  split.
  - intros run'. apply invariant_list. by apply (Hinv _ []); rewrite app_nil_r.
  - intros now i r msg failed ->. rewrite run_app. simpl. unfold on_continueRun, current, start. simpl.
    eexists. unfold list_ at 1. rewrite mget_set_eq. simpl. rewrite last_snoc. done.
Qed.

Definition sample_ops : list op :=
  [OStartRun 0 "e1" "r" "hi"; OPostTool "r"; OContinue 9 "e2" "r" "more" false].

Lemma sample_fresh pre x post : sample_ops = (pre ++ x :: post)%list → fresh (run step [] pre) x.
Proof.
  unfold sample_ops. intros E. destruct pre as [|a [|b [|c [|d pre]]]]; simplify_eq/=; try done;
    apply (bool_decide_unpack _); vm_compute; exact I.
Qed.

Lemma episodes_chained_witness :
  (episodeId <$> list_ (run step [] sample_ops) "r") = ["e1"; "e2"] ∧
  chained (list_ (run step [] sample_ops) "r").
Proof.
  split; [reflexivity|].
  exact (proj1 (episodes_chained [OStartRun 0 "e1" "r" "hi"; OPostTool "r"]
    (OContinue 9 "e2" "r" "more" false) sample_fresh) "r").
Defined.
End EpisodeManager.

Module PauseController.

(* [src/backend/src/execution/plans-episodes.js:187-191] PauseController *)
Record PauseController := MkPause {
  states : jsmap string PauseState.t;
  requested : gset string;
}.

#[export] Instance PauseController_eta : Eta PauseController := λ c,
  MkPause (states c) (requested c).

Definition empty : PauseController := MkPause [] ∅.

(* [src/backend/src/execution/plans-episodes.js:193-193] state *)
Definition state (c : PauseController) (run : string) : PauseState.t :=
  default PauseState.RUNNING (mget (states c) run).

Definition set_state (c : PauseController) (run : string) (st : PauseState.t) : PauseController :=
  c <| states ::= λ m, mset m run st |>.

(* [src/backend/src/execution/plans-episodes.js:195-201] requestPause *)
Definition requestPause (c : PauseController) (run : string) : PauseController * PauseState.t :=
  let cur := state c run in
  if decide (cur ≠ PauseState.RUNNING) then (c, cur)
  else ((set_state c run PauseState.PAUSING) <| requested ::= λ r, {[run]} ∪ r |>, PauseState.PAUSING).

(* [src/backend/src/execution/plans-episodes.js:204-210] settlePause *)
Definition settlePause (c : PauseController) (run : string) : PauseController * PauseState.t :=
  if decide (mget (states c) run = Some PauseState.PAUSING)
  then (set_state c run PauseState.PAUSED, PauseState.PAUSED) else (c, state c run).

(* [src/backend/src/execution/plans-episodes.js:212-218] requestResume *)
Definition requestResume (c : PauseController) (run : string) : PauseController * PauseState.t :=
  let cur := state c run in
  if decide (cur ≠ PauseState.PAUSED ∧ cur ≠ PauseState.PAUSING) then (c, cur)
  else ((set_state c run PauseState.RESUMING) <| requested ::= λ r, r ∖ {[run]} |>, PauseState.RESUMING).

(* [src/backend/src/execution/plans-episodes.js:220-226] settleResume *)
Definition settleResume (c : PauseController) (run : string) : PauseController * PauseState.t :=
  if decide (mget (states c) run = Some PauseState.RESUMING)
  then (set_state c run PauseState.RUNNING, PauseState.RUNNING) else (c, state c run).

(* [src/backend/src/execution/plans-episodes.js:228-228] isPaused *)
Definition isPaused (c : PauseController) (run : string) : bool :=
  bool_decide (state c run = PauseState.PAUSED).
(* [src/backend/src/execution/plans-episodes.js:229-229] isPausing *)
Definition isPausing (c : PauseController) (run : string) : bool :=
  bool_decide (state c run = PauseState.PAUSING).
(* [src/backend/src/execution/plans-episodes.js:230-233] shouldHold *)
Definition shouldHold (c : PauseController) (run : string) : bool :=
  bool_decide (state c run = PauseState.PAUSING ∨ state c run = PauseState.PAUSED).

(* [src/backend/src/execution/plans-episodes.js:235-235] clearRun *)
Definition clearRun (c : PauseController) (run : string) : PauseController :=
  c <| states ::= λ m, mdelete m run |> <| requested ::= λ r, r ∖ {[run]} |>.

Inductive op := ORequestPause (run : string) | OSettlePause (run : string)
| ORequestResume (run : string) | OSettleResume (run : string) | OClear (run : string).

Definition step (c : PauseController) (o : op) : PauseController :=
  match o with
  | ORequestPause run => (requestPause c run).1
  | OSettlePause run => (settlePause c run).1
  | ORequestResume run => (requestResume c run).1
  | OSettleResume run => (settleResume c run).1
  | OClear run => clearRun c run
  end.

Definition op_run (o : op) : string :=
  match o with ORequestPause r | OSettlePause r | ORequestResume r | OSettleResume r | OClear r => r end.

(** The wait at a tool boundary: one 50 ms sleep per check while the run is
    paused, given up after more than 15 minutes.  [seen i] is what the [i]-th
    check sees: is the run paused, has the caller's signal aborted. *)
(* [src/backend/src/execution/controller.js:359-365] wait loop *)
Fixpoint hold_loop (fuel : nat) (waited : Z) (i : nat) (seen : nat → bool * bool) : option nat :=
  match fuel with
  | O => None
  | S fuel' =>
      let (paused, aborted) := seen i in
      if negb paused then Some i
      else if aborted then Some i
      else
        let waited := (waited + 50)%Z in
        if decide (15 * 60 * 1000 < waited)%Z then Some (S i)
        else hold_loop fuel' waited (S i) seen
  end.

(** ** Properties *)

Definition edge (a b : PauseState.t) : Prop :=
  match a, b with
  | PauseState.RUNNING, PauseState.PAUSING
  | PauseState.PAUSING, PauseState.PAUSED
  | PauseState.PAUSING, PauseState.RESUMING
  | PauseState.PAUSED, PauseState.RESUMING
  | PauseState.RESUMING, PauseState.RUNNING => True
  | _, _ => False
  end.

Definition consistent (c : PauseController) : Prop :=
  mwf (states c) ∧ ∀ run, run ∈ requested c ↔ shouldHold c run = true.

Lemma state_set c run run' st :
  state (set_state c run st) run' = if decide (run = run') then st else state c run'.
Proof. unfold state, set_state. simpl. rewrite mget_set. by case_decide. Qed.

Lemma consistent_set c run st (f : gset string → gset string) :
  consistent c →
  (∀ x, x ≠ run → x ∈ f (requested c) ↔ x ∈ requested c) →
  (run ∈ f (requested c) ↔ st = PauseState.PAUSING ∨ st = PauseState.PAUSED) →
  consistent ((set_state c run st) <| requested ::= f |>).
Proof.
  intros [Hw Hc] Hne He. split; [by apply mwf_set|]. intros x. unfold shouldHold. simpl.
  rewrite bool_decide_eq_true. destruct (decide (x = run)) as [->|Hx].
  - rewrite He. unfold state; simpl. rewrite mget_set_eq. done.
  - rewrite Hne, Hc by done. unfold shouldHold. rewrite bool_decide_eq_true. unfold state; simpl.
    by rewrite mget_set_ne by congruence.
Qed.

Lemma step_consistent c o : consistent c → consistent (step c o).
Proof.
  intros Hcons. pose proof Hcons as [Hw Hc].
  destruct o as [r|r|r|r|r]; simpl.
  - unfold requestPause. case_decide; [done|]. apply consistent_set; [done|set_solver|]. set_solver.
  - unfold settlePause. case_decide as E; [|done]. change (set_state c r PauseState.PAUSED) with
      ((set_state c r PauseState.PAUSED) <| requested ::= λ x, x |>).
    apply consistent_set; [done|done|]. rewrite Hc. unfold shouldHold, state. rewrite bool_decide_eq_true, E. simpl. naive_solver.
  - unfold requestResume. case_decide; [done|]. apply consistent_set; [done|set_solver|]. set_solver.
  - unfold settleResume. case_decide as E; [|done]. change (set_state c r PauseState.RUNNING) with
      ((set_state c r PauseState.RUNNING) <| requested ::= λ x, x |>).
    apply consistent_set; [done|done|]. rewrite Hc. unfold shouldHold, state. rewrite bool_decide_eq_true, E. simpl. naive_solver.
  - split; [by apply mwf_delete|]. intros x. unfold shouldHold.
    rewrite bool_decide_eq_true. unfold state; simpl. rewrite mget_delete by done. case_decide as Hx.
    + subst. simpl. set_solver by naive_solver.
    + rewrite elem_of_difference, Hc. unfold shouldHold, state. rewrite bool_decide_eq_true. set_solver.
Qed.

(** The pause protocol.  After any operations, a run has a pending pause
    request exactly when it is PAUSING or PAUSED; every further operation other
    than clearing leaves each run's state alone or moves the named run along
    RUNNING -> PAUSING -> PAUSED -> RESUMING -> RUNNING (or PAUSING ->
    RESUMING); and a request followed by the next boundary's settlement always
    pauses a running run, a resume always runs it again. *)
Theorem pause_protocol ops o run :
  let c := Prelude.run step empty ops in
  (run ∈ requested c ↔ shouldHold c run = true) ∧
  ((∀ r, o ≠ OClear r) → state (step c o) run = state c run ∨
     (op_run o = run ∧ edge (state c run) (state (step c o) run))) ∧
  (state c run = PauseState.RUNNING →
     let c' := Prelude.run step c [ORequestPause run; OSettlePause run] in
     state c' run = PauseState.PAUSED ∧
     state (Prelude.run step c' [ORequestResume run; OSettleResume run]) run = PauseState.RUNNING).
Proof.
  cbn zeta. assert (consistent (Prelude.run step empty ops)) as Hc.
  { apply run_invariant_all; [intros; by apply step_consistent|]. split; [apply mwf_nil|].
    intros x. unfold shouldHold. rewrite bool_decide_eq_true. simpl. set_solver. }
  generalize dependent (Prelude.run step empty ops). intros c [Hw Hc]. split; [apply Hc|]. split.
  - intros Hno. destruct o as [r|r|r|r|r]; cbn [step op_run]; [..|by destruct (Hno r)].
    + unfold requestPause. case_decide as Hr; [by left|]. cbn [fst].
      change (state ((set_state c r PauseState.PAUSING) <| requested ::= λ r0, {[r]} ∪ r0 |>) run)
        with (state (set_state c r PauseState.PAUSING) run). rewrite state_set. case_decide; [|by left].
      subst. right. split; [done|]. by rewrite Hr.
    + unfold settlePause. case_decide as Hr; [|by left]. cbn [fst]. rewrite state_set.
      case_decide; [|by left]. subst. right. split; [done|]. unfold state. by rewrite Hr.
    + unfold requestResume. case_decide as Hr; [by left|]. cbn [fst].
      change (state ((set_state c r PauseState.RESUMING) <| requested ::= λ r0, r0 ∖ {[r]} |>) run)
        with (state (set_state c r PauseState.RESUMING) run). rewrite state_set. case_decide; [|by left].
      subst. right. split; [done|]. destruct (state c run); try exact I;
        (exfalso; by apply Hr).
    + unfold settleResume. case_decide as Hr; [|by left]. cbn [fst]. rewrite state_set.
      case_decide; [|by left]. subst. right. split; [done|]. unfold state. by rewrite Hr.
  - intros Hr. simpl. unfold requestPause. rewrite decide_False by (intros Hn; by apply Hn).
    cbn [fst]. unfold settlePause.
    change (states ((set_state c run PauseState.PAUSING) <| requested ::= λ r, {[run]} ∪ r |>))
      with (mset (states c) run PauseState.PAUSING).
    rewrite decide_True by (by rewrite mget_set_eq). cbn [fst].
    split; [by rewrite state_set, decide_True|].
    unfold requestResume. rewrite state_set, (decide_True (P := run = run)) by done. cbn [fst].
    rewrite decide_False by (intros [Hn _]; by apply Hn). cbn [fst]. unfold settleResume.
    match goal with |- context [states (?x <| requested ::= _ |>)] =>
      change (states (x <| requested ::= λ r, r ∖ {[run]} |>)) with (states x) end.
    rewrite decide_True by (simpl; by rewrite mget_set_eq). cbn [fst].
    by rewrite state_set, decide_True.
Qed.

Lemma hold_loop_bound n waited i seen :
  (0 <= waited)%Z → (900000 < waited + 50 * Z.of_nat n)%Z → (n > 0)%nat →
  ∃ k, hold_loop n waited i seen = Some k ∧ (k ≤ i + n)%nat.
Proof.
  revert waited i. induction n as [|n IH]; intros waited i Hw Hn Hp; [lia|]. simpl.
  destruct (seen i) as [paused aborted]. destruct (negb paused); [exists i; split; [done|lia]|].
  destruct aborted; [exists i; split; [done|lia]|]. case_decide; [exists (S i); split; [done|lia]|].
  destruct (IH (waited + 50)%Z (S i)) as (k & -> & ?); [lia|lia|lia|]. exists k. split; [done|lia].
Qed.

(** A paused run never blocks a tool call for ever: the wait ends after at
    most 18001 sleeps (fifteen minutes and 50 ms), whatever the checks see, and
    it ends at once when the first check finds the run not paused. *)
Theorem pause_hold_terminates seen :
  (∃ k, hold_loop (N.to_nat 18001) 0 0 seen = Some k ∧ (k ≤ N.to_nat 18001)%nat) ∧
  ((seen 0%nat).1 = false → hold_loop (N.to_nat 18001) 0 0 seen = Some 0%nat).
Proof.
  split; [apply (hold_loop_bound _ 0 0 seen); lia|].
  destruct (N.to_nat 18001) eqn:E; [lia|]. simpl. destruct (seen 0%nat) as [p a]. simpl. by intros ->.
Qed.
End PauseController.

Module ConstraintStore.

(** The structured commands [parseRuntimeCommand] recognizes. *)
(* [src/backend/src/execution/plans-episodes.js:241-250] RuntimeCommand *)
Inductive command :=
| STOP | PAUSE | RESUME
| CONSTRAIN_PATHS (paths : list string)
| FORBID_PATHS (paths : list string)
| USE_BRANCH (branch : string)
| ADD_NOTE (note : string).

(** [s] is one of [ws], optionally followed by a full stop. *)
Definition phrase (ws : list string) (s : string) : bool :=
  existsb (λ w, String.eqb s w || String.eqb s (w ++ ".")) ws.

(** [/^resume(\s+execution)?\.?$/] *)
Definition resume_re (low : string) : bool :=
  phrase ["resume"] low ||
  match strip_any ["resume"] low ≫= strip_spaces with
  | Some rest => phrase ["execution"] rest
  | None => false
  end.

(** The pieces of a path list: cut at commas, semicolons and white space. *)
Definition path_list (s : string) : list string :=
  take 20 (words (λ c, one_of ",;" c || is_space c) s).

(** Case-insensitive prefixes: the alternatives are tried on the lower-cased
    text and the same number of characters is dropped from the original. *)
Definition strip_any_i (ps : list string) (s : string) : option string :=
  match strip_any ps (to_lower s) with
  | Some r => Some (string_drop (String.length s - String.length r) s)
  | None => None
  end.

Definition write_verbs : list string := ["change"; "touch"; "modify"; "edit"].

(** [(.+)$] *)
Definition rest_of_line (s : string) : option string :=
  if truthy_str s && single_line s then Some s else None.

(** [/^(?:only (?:change|touch|modify|edit)\s+)(.+)$/i] *)
Definition only_re (t : string) : option string :=
  r ← strip_any_i (List.map (λ v, "only " ++ v) write_verbs) t;
  r ← strip_spaces r; rest_of_line r.

(** [/^(?:don't|do not|never)\s+(?:touch|modify|change|edit)\s+(.+)$/i] *)
Definition forbid_re (t : string) : option string :=
  r ← strip_any_i ["don't"; "do not"; "never"] t; r ← strip_spaces r;
  r ← strip_any_i write_verbs r; r ← strip_spaces r; rest_of_line r.

Definition branch_char (c : ascii) : bool := is_word c || one_of "./-" c.

Fixpoint all_chars (f : ascii → bool) (s : string) : bool :=
  match s with EmptyString => true | String c s' => f c && all_chars f s' end.

Definition branch_name (s : string) : option string :=
  if bool_decide (1 ≤ String.length s ≤ 128)%nat && all_chars branch_char s then Some s else None.

(** [/^use (?:branch\s+)?([A-Za-z0-9._/-]{1,128})$/i] *)
Definition branch_re (t : string) : option string :=
  match strip_any_i ["use "] t with
  | None => None
  | Some rest =>
      match (r ← strip_any_i ["branch"] rest; r ← strip_spaces r; branch_name r) with
      | Some b => Some b
      | None => branch_name rest
      end
  end.

(* [src/backend/src/execution/plans-episodes.js:252-265] parseRuntimeCommand *)
Definition parseRuntimeCommand (text : string) : command :=
  let t := trim text in
  let low := to_lower t in
  if phrase ["stop"; "cancel"; "abort"] low then STOP
  else if phrase ["pause"] low then PAUSE
  else if resume_re low then RESUME
  else match only_re t with
  | Some r => CONSTRAIN_PATHS (path_list r)
  | None =>
  match forbid_re t with
  | Some r => FORBID_PATHS (path_list r)
  | None =>
  match branch_re t with
  | Some b => USE_BRANCH b
  | None => ADD_NOTE (slice0 2000 t)
  end end end.

(* [src/backend/src/execution/plans-episodes.js:273-273] constraint record *)
Record constraint := Constraint {
  forbidPaths : list string;
  onlyPaths : list string;
  branch : option string;
  notes : list string;
}.

#[export] Instance constraint_eta : Eta constraint := λ c,
  Constraint (forbidPaths c) (onlyPaths c) (branch c) (notes c).

(* [src/backend/src/execution/plans-episodes.js:267-270] ConstraintStore *)
Definition constraints := jsmap string constraint.

(* [src/backend/src/execution/plans-episodes.js:272-274] get *)
Definition get (m : constraints) (run : string) : constraint :=
  default (Constraint [] [] None []) (mget m run).

Definition add_path (acc : list string) (x : string) : list string :=
  if decide (x ∈ acc) then acc else (acc ++ [x])%list.

(** [[...new Set([...a, ...b])].slice(0, 20)] *)
Definition merge_paths (a b : list string) : list string :=
  take 20 (foldl add_path [] (a ++ b)%list).

(* [src/backend/src/execution/plans-episodes.js:276-296] applyCommand *)
Definition applyCommand (m : constraints) (run : string) (cmd : command) : constraints :=
  let cur := get m run in
  let cur := match cmd with
    | CONSTRAIN_PATHS ps => cur <| onlyPaths ::= λ l, merge_paths l ps |>
    | FORBID_PATHS ps => cur <| forbidPaths ::= λ l, merge_paths l ps |>
    | USE_BRANCH b => cur <| branch := Some b |>
    | ADD_NOTE n => cur <| notes ::= λ l, slice_last 20 (l ++ [n])%list |>
    | _ => cur
    end in
  mset m run cur.

Definition forbids (f p : string) : bool :=
  String.eqb p f || starts_with (f ++ "/") p || ends_with f p.

Definition covers (f p : string) : bool :=
  String.eqb p f || starts_with (f ++ "/") p || ends_with f p || ends_with p f.

(* [src/backend/src/execution/plans-episodes.js:299-309] checkWrite *)
Definition checkWrite (m : constraints) (run relPath : string) : bool * string :=
  let c := get m run in
  if existsb (λ f, forbids f relPath) (forbidPaths c) then
    (false, "path forbidden by user constraint: " ++ relPath)
  else if negb (bool_decide (onlyPaths c = [])) && negb (existsb (λ f, covers f relPath) (onlyPaths c)) then
    (false, "path outside user-constrained scope: " ++ relPath)
  else (true, "").

(* [src/backend/src/execution/plans-episodes.js:311-311] clearRun *)
Definition clearRun (m : constraints) (run : string) : constraints := mdelete m run.

(** ** Properties *)

Lemma checkWrite_spec m run p :
  (checkWrite m run p).1 = true ↔
  (∀ f, f ∈ forbidPaths (get m run) → forbids f p = false) ∧
  (onlyPaths (get m run) = [] ∨ ∃ f, f ∈ onlyPaths (get m run) ∧ covers f p = true).
Proof.
  unfold checkWrite. destruct (existsb (λ f, forbids f p) _) eqn:Ef.
  - split; [done|]. intros [H _]. apply existsb_exists in Ef as (f & Hin & Hf).
    apply list_elem_of_In in Hin. by rewrite H in Hf.
  - assert (∀ f, f ∈ forbidPaths (get m run) → forbids f p = false) as Hf.
    { intros f Hin. destruct (forbids f p) eqn:E; [|done]. exfalso. apply not_true_iff_false in Ef.
      apply Ef, existsb_exists. exists f. split; [by apply list_elem_of_In|done]. }
    destruct (bool_decide_reflect (onlyPaths (get m run) = [])) as [Eo|Eo]; simpl.
    + split; [intros _; split; [done|by left]|done].
    + destruct (existsb (λ f, covers f p) _) eqn:Ec; simpl.
      * apply existsb_exists in Ec as (f & Hin & Hc). split; [|done]. intros _. split; [done|].
        right. exists f. split; [by apply list_elem_of_In|done].
      * split; [done|]. intros [_ [?|(f & Hin & Hc)]]; [done|]. apply not_true_iff_false in Ec.
        exfalso. apply Ec, existsb_exists. exists f. split; [by apply list_elem_of_In|done].
Qed.

Lemma merge_paths_keep a b x : (length a ≤ 20)%nat → NoDup a → x ∈ a → x ∈ merge_paths a b.
Proof.
  intros Hl Hnd Hx. unfold merge_paths.
  assert (∀ acc l : list string, NoDup (acc ++ l)%list →
    foldl add_path acc l = (acc ++ l)%list) as Hid.
  { intros acc l. revert acc. induction l as [|y l IH]; intros acc H; simpl; [by rewrite app_nil_r|].
    unfold add_path at 2. rewrite decide_False.
    - rewrite IH by (by rewrite <- app_assoc). by rewrite <- app_assoc.
    - apply NoDup_app in H as (_ & H & _). intros Hy. apply (H y Hy). set_solver. }
  rewrite foldl_app, (Hid [] a) by done. simpl.
  assert (∀ acc l : list string, ∃ r, foldl add_path acc l
    = (acc ++ r)%list) as Hext.
  { intros acc l. revert acc. induction l as [|y l IH]; intros acc; simpl; [exists []; by rewrite app_nil_r|].
    destruct (IH (add_path acc y)) as [r ->]. unfold add_path. case_decide.
    - by exists r.
    - exists (y :: r). by rewrite <- app_assoc. }
  destruct (Hext a b) as [r ->]. rewrite take_app_ge by done. apply elem_of_app. by left.
Qed.

Definition full_list : list string :=
  (λ n, "f" ++ string_of_Z (Z.of_nat n)) <$> seq 0 20.

(** What a user's path constraint does and does not stop.  A write is let
    through exactly when no forbidden entry is the path, a directory prefix of
    it or a suffix of it, and some allowed entry (if there are any) covers it.
    But the test is textual: after "don't touch secret" the write "./secret/k"
    passes while "secret/k", the same file, is refused; after "only change src"
    the write "src/../server.js" passes; and after twenty forbidden paths a
    further "don't touch x" is recorded as nothing. *)
Theorem constraint_enforcement m run p ws :
  ((checkWrite m run p).1 = true ↔
    (∀ f, f ∈ forbidPaths (get m run) → forbids f p = false) ∧
    (onlyPaths (get m run) = [] ∨ ∃ f, f ∈ onlyPaths (get m run) ∧ covers f p = true)) ∧
  (let c := applyCommand [] "r" (parseRuntimeCommand "Don't touch secret") in
   (checkWrite c "r" "secret/k").1 = false ∧ (checkWrite c "r" "./secret/k").1 = true ∧
   path_resolve ws "./secret/k" = path_resolve ws "secret/k") ∧
  (let c := applyCommand [] "r" (parseRuntimeCommand "only change src") in
   (checkWrite c "r" "server.js").1 = false ∧ (checkWrite c "r" "src/../server.js").1 = true ∧
   path_resolve ws "src/../server.js" = path_resolve ws "server.js") ∧
  (let c := applyCommand [] "r" (FORBID_PATHS full_list) in
   applyCommand c "r" (parseRuntimeCommand "never edit x") = c ∧ (checkWrite c "r" "x").1 = true).
Proof.
  split; [apply checkWrite_spec|]. cbn zeta.
  assert (∀ s t, isAbsolute s = false → isAbsolute t = false →
    foldl push_segment (segments ws) (split_on slash s) = foldl push_segment (segments ws) (split_on slash t) →
    path_resolve ws s = path_resolve ws t) as Hres.
  { intros s t Hs Ht E. unfold path_resolve. by rewrite Hs, Ht, E. }
  split; [|split].
  - split; [vm_compute; reflexivity|split; [vm_compute; reflexivity|]]. by apply Hres.
  - split; [vm_compute; reflexivity|split; [vm_compute; reflexivity|]]. apply Hres; [done|done|].
    simpl. unfold push_segment. simpl. rewrite length_app. simpl.
    rewrite Nat.add_sub, take_app_length. done.
  - split; vm_compute; reflexivity.
Qed.
End ConstraintStore.
