(* ===== verification/Recovery.v ===== *)
(** Recovery decisions, retries and honest results:
    backend/src/execution/recovery.js, with [buildResult]'s status of
    controller.js and [classifySideEffect] of core/recovery-service.js.

    Time is in milliseconds; generated ids are inputs. *)

From S2P Require Import Prelude JsMap JsValue Types ToolSystem.

Local Open Scope string_scope.
Local Open Scope js_scope.

Module RecoveryDecision.
(* [src/backend/src/execution/recovery.js:17-24] RecoveryDecision *)
Inductive t : Set := RESUME | RETRY | SKIP | ROLLBACK | ASK_USER | MARK_UNKNOWN.

(* [src/backend/src/execution/recovery.js:17-24] RecoveryDecision *)
Definition value (x : t) : string :=
  match x with
  | RESUME => "resume"
  | RETRY => "retry"
  | SKIP => "skip"
  | ROLLBACK => "rollback"
  | ASK_USER => "ask_user"
  | MARK_UNKNOWN => "mark_unknown"
  end.

#[global] Instance t_eq_dec : EqDecision t.
Proof. solve_decision. Defined.
End RecoveryDecision.

Module SideEffectState.
(* [src/backend/src/execution/recovery.js:26-32] SideEffectState *)
Inductive t : Set := NOT_STARTED | IN_FLIGHT | COMPLETED | FAILED | UNKNOWN.

(* [src/backend/src/execution/recovery.js:26-32] SideEffectState *)
Definition value (x : t) : string :=
  match x with
  | NOT_STARTED => "not_started"
  | IN_FLIGHT => "in_flight"
  | COMPLETED => "completed"
  | FAILED => "failed"
  | UNKNOWN => "unknown"
  end.

#[global] Instance t_eq_dec : EqDecision t.
Proof. solve_decision. Defined.
End SideEffectState.

Module VerificationKind.
(* [src/backend/src/execution/recovery.js:127-133] VerificationKind *)
Inductive t : Set := TESTS | LINT | BUILD | DIFF_INSPECTION | EVIDENCE.

(* [src/backend/src/execution/recovery.js:127-133] VerificationKind *)
Definition value (x : t) : string :=
  match x with
  | TESTS => "tests"
  | LINT => "lint"
  | BUILD => "build"
  | DIFF_INSPECTION => "diff_inspection"
  | EVIDENCE => "evidence"
  end.

#[global] Instance t_eq_dec : EqDecision t.
Proof. solve_decision. Defined.
End VerificationKind.

(** ** Deciding how to recover *)

(** The last known state of a tool's side effect; [te_state] is one of
    [SideEffectState]'s strings in the records the program writes. *)
(* [src/backend/src/core/recovery-service.js:24-26] tool record *)
Record tool_effect := ToolEffect {
  te_state : string;
  te_tool : option string;
  te_idempotencyKey : option string;
  te_destructive : bool;
  te_idempotent : bool;
  te_retryable : bool;
}.

(* [src/backend/src/core/recovery-service.js:24-26] defaultToolRecord *)
Definition defaultToolRecord : tool_effect :=
  ToolEffect (SideEffectState.value SideEffectState.NOT_STARTED) None None false true true.

Definition is_state (r : tool_effect) (s : SideEffectState.t) : bool :=
  String.eqb (te_state r) (SideEffectState.value s).

(** [a && b && a !== b] on optional strings. *)
Definition both_differ (a b : option string) : bool :=
  truthy a && truthy b && negb (bool_decide (a = b)).

(* [src/backend/src/execution/recovery.js:62-85] decideRecovery *)
Definition decideRecovery (toolRecord : option tool_effect) (idempotencyKnownCompleted : bool)
    (workspaceHash workspaceHashAtCheckpoint : option string) : RecoveryDecision.t * string :=
  if idempotencyKnownCompleted then
    (RecoveryDecision.SKIP, "idempotency proof: side effect already completed")
  else match toolRecord with
  | None => (RecoveryDecision.RESUME, "no in-flight side effect; resume from checkpoint")
  | Some r =>
      if is_state r SideEffectState.NOT_STARTED then
        (RecoveryDecision.RESUME, "no in-flight side effect; resume from checkpoint")
      else if is_state r SideEffectState.COMPLETED then
        (RecoveryDecision.RESUME, "last action completed before crash")
      else if is_state r SideEffectState.FAILED then
        if te_retryable r then (RecoveryDecision.RETRY, "last action failed retryably")
        else (RecoveryDecision.ASK_USER, "last action failed non-retryably")
      else if is_state r SideEffectState.IN_FLIGHT || is_state r SideEffectState.UNKNOWN then
        if te_destructive r then
          (RecoveryDecision.MARK_UNKNOWN, "in-flight destructive action: state UNKNOWN, needs user")
        else if both_differ workspaceHash workspaceHashAtCheckpoint then
          (RecoveryDecision.MARK_UNKNOWN, "workspace changed during outage; side effect UNKNOWN")
        else if te_idempotent r then
          (RecoveryDecision.RETRY, "in-flight but idempotent: safe to retry")
        else (RecoveryDecision.MARK_UNKNOWN, "in-flight non-idempotent action: state UNKNOWN")
      else (RecoveryDecision.ASK_USER, "ambiguous recovery state")
  end.

(** A tool definition as [classifySideEffect] reads it: the name and the
    property [risk]. *)
Record risk_view := RiskView { rv_name : option string; rv_risk : option string }.

(* [src/backend/src/core/recovery-service.js:30-36] classifySideEffect *)
Definition classifySideEffect (def : option risk_view) : bool * bool * string :=
  let risk := to_lower (let r := default "" (def ≫= rv_risk) in if truthy_str r then r else "low") in
  let name := default "" (def ≫= rv_name) in
  let destructive := bool_decide (risk = "high" ∨ risk = "critical") in
  let readOnly := bool_decide (name ∈ ["read_file"; "search_code"; "git_status"; "git_diff";
    "git_log"; "git_branch"; "env_inspect"; "web_search"; "fetch_url"]) in
  (destructive, readOnly || bool_decide (risk = "low"), risk).

(** A registered tool record has the property [riskLevel] and none called
    [risk] (backend/src/impl/tool-registry.js:41 and controller.js:83-95). *)
(* [src/backend/src/impl/tool-registry.js:32-50] registered record, as read back *)
Definition registry_view (d : raw_tool) : risk_view := RiskView (r_name d) None.

(** The record [_markToolInFlight] writes before a dispatch; [def] is what the
    registry returns, [None] when it has no such tool. *)
(* [src/backend/src/core/orchestrator.js:225-251] _markToolInFlight *)
Definition markToolInFlight (toolName : string) (def : option risk_view) (key : option string) : tool_effect :=
  let '(destructive, idempotent, _) :=
    classifySideEffect (Some (default (RiskView (Some toolName) (Some "medium")) def)) in
  ToolEffect (SideEffectState.value SideEffectState.IN_FLIGHT) (Some toolName) key
    destructive idempotent true.

(* [src/backend/src/core/orchestrator.js:253-261] _markToolSettled *)
Definition markToolSettled (r : tool_effect) (ok : bool) (code : option string) : tool_effect :=
  ToolEffect (SideEffectState.value (if ok then SideEffectState.COMPLETED else SideEffectState.FAILED))
    (te_tool r) (te_idempotencyKey r) (te_destructive r) (te_idempotent r)
    (ok || negb (bool_decide (default "" code ∈ ["bad_params"; "denied"; "scope_violation";
       "path_escape"; "not_found"; "patch_conflict"]))).

(** ** Retries *)

(* [src/backend/src/execution/recovery.js:89-89] BACKOFF_SEQUENCE *)
Definition BACKOFF_SEQUENCE : list Z := [250; 500; 1000; 2000]%Z.

(* [src/backend/src/execution/recovery.js:91-94] backoffForAttempt *)
Definition backoffForAttempt (attempt : Z) : Z :=
  let i := Z.max 0 (Z.min attempt (Z.of_nat (length BACKOFF_SEQUENCE) - 1)) in
  default 0%Z (BACKOFF_SEQUENCE !! Z.to_nat i).

(* [src/backend/src/execution/recovery.js:102-102] codes never retried *)
Definition final_codes : list string :=
  ["bad_params"; "denied"; "scope_violation"; "path_escape"; "not_found"; "patch_conflict";
   "sandbox_unavailable"; "executor_unavailable"; "secret_refused"; "executor_malformed"].

(* [src/backend/src/execution/recovery.js:109-109] transient codes *)
Definition transient_codes : list string :=
  ["timeout"; "rate_limited"; "rate-limit"; "transient"; "fetch_failure"; "provider_overloaded"].

(** The decision: retry with a delay, or not; and the reason. *)
(* [src/backend/src/execution/recovery.js:96-119] retryDecision *)
Definition retryDecision (code : option string) (attempt maxAttempts : Z) (idempotent destructive : bool)
    : option Z * string :=
  let c := default "" code in
  if decide (c ∈ final_codes) then (None, c ++ ": retrying unchanged would fail identically")
  else if destructive && bool_decide (c = "unknown" ∨ c = "timeout" ∨ c = "cancelled") then
    (None, "destructive action with unknown outcome must not auto-retry")
  else if decide (c ∈ transient_codes) then
    if decide (maxAttempts ≤ attempt)%Z then (None, "retry budget exhausted")
    else (Some (backoffForAttempt attempt),
          c ++ ": transient, backoff " ++ string_of_Z (backoffForAttempt attempt) ++ "ms")
  else if decide (c = "test_failure" ∨ c = "command_failure" ∨ c = "git_failure") then
    if idempotent && bool_decide (attempt < 1)%Z then
      (Some (backoffForAttempt attempt), "single retry of idempotent read")
    else (None, c ++ ": needs strategy change, not blind retry")
  else (None, "no retry rule for " ++ or_str c "unknown").

(** A loop that asks before every further attempt: the delays it sleeps, for an
    action that keeps failing with [code]. *)
Fixpoint retry_loop (fuel : nat) (code : option string) (attempt maxAttempts : Z)
    (idempotent destructive : bool) : option (list Z) :=
  match fuel with
  | O => None
  | S fuel' =>
      match (retryDecision code attempt maxAttempts idempotent destructive).1 with
      | None => Some []
      | Some d =>
          ds ← retry_loop fuel' code (attempt + 1) maxAttempts idempotent destructive;
          Some (d :: ds)
      end
  end.

(** ** Verification and the agent's result *)

(* [src/backend/src/execution/recovery.js:135-144] verificationRecord *)
Record verification := Verification {
  vr_kind : VerificationKind.t;
  vr_passed : bool;
  vr_summary : string;
  vr_artifacts : list string;
  vr_durationMs : Z;
  vr_at : Z;
}.

(* [src/backend/src/execution/recovery.js:135-144] verificationRecord *)
Definition verificationRecord (now : Z) (kind : VerificationKind.t) (passed : bool) (summary : string)
    (artifacts : list string) (durationMs : Z) : verification :=
  Verification kind passed (slice0 1000 summary) (take 8 artifacts) durationMs now.

(** The parts of the result that say whether the task is done. *)
(* [src/backend/src/execution/recovery.js:149-170] agentResult *)
Record agent_result := AgentResult {
  ar_status : string;
  ar_goal : string;
  ar_summary : string;
  ar_verification : list verification;
  ar_verificationIncomplete : bool;
  ar_missingVerification : list VerificationKind.t;
}.

Definition done_kinds (vs : list verification) : list VerificationKind.t :=
  vr_kind <$> filter (λ v, vr_passed v = true) vs.

(* [src/backend/src/execution/recovery.js:149-170] agentResult *)
Definition agentResult (status goal summary : string) (vs : list verification)
    (requiredVerification : list VerificationKind.t) : agent_result :=
  let missing := filter (λ k, k ∉ done_kinds vs) requiredVerification in
  AgentResult status (slice0 1000 goal) (slice0 2000 summary) vs
    (bool_decide (0 < length missing)%nat) missing.

(** [run_status] is the run's status when the run is live; [applied] the number
    of applied changesets; [lastAssistant]: the model has answered. *)
(* [src/backend/src/execution/controller.js:792-824] buildResult *)
Definition buildResult (run_status : option TaskStatus.t) (applied : nat) (lastAssistant : bool)
    (goal summary : string) (vs : list verification) : agent_result :=
  let hasUnverified := bool_decide (0 < applied)%nat &&
    negb (existsb (λ v, vr_passed v && bool_decide (vr_kind v = VerificationKind.TESTS)) vs) in
  let required := if decide (0 < applied)%nat then [VerificationKind.TESTS] else [] in
  agentResult
    (if decide (run_status = Some TaskStatus.COMPLETED)
     then if hasUnverified then "VERIFICATION_INCOMPLETE" else "TASK_COMPLETED"
     else if decide (run_status = Some TaskStatus.FAILED) then "FAILED"
     else if decide (run_status = Some TaskStatus.CANCELLED) then "CANCELLED"
     else if lastAssistant then "MODEL_STOPPED" else "UNKNOWN")
    goal summary vs required.

(** ** The loop guard *)

(* [src/backend/src/execution/recovery.js:216-226] LoopGuard *)
Record LoopGuard := MkGuard {
  g_maxSteps : Z; g_maxToolCalls : Z; g_maxTimeMs : Z; g_maxRetries : Z;
  g_steps : Z; g_toolCalls : Z; g_retries : Z; g_startedAt : Z;
}.

#[export] Instance LoopGuard_eta : Eta LoopGuard := λ g,
  MkGuard (g_maxSteps g) (g_maxToolCalls g) (g_maxTimeMs g) (g_maxRetries g) (g_steps g)
    (g_toolCalls g) (g_retries g) (g_startedAt g).

(* [src/backend/src/execution/recovery.js:217-226] constructor *)
Definition new_guard (now maxSteps maxToolCalls maxTimeMs maxRetries : Z) : LoopGuard :=
  MkGuard maxSteps maxToolCalls maxTimeMs maxRetries 0 0 0 now.

(* [src/backend/src/execution/recovery.js:229-234] nextStep *)
Definition nextStep (g : LoopGuard) (now : Z) : LoopGuard * (Z + string) :=
  let g := g <| g_steps ::= Z.succ |> in
  (g, if decide (g_maxSteps g < g_steps g)%Z
      then inr ("step budget exhausted (" ++ string_of_Z (g_maxSteps g) ++ ")")
      else if decide (g_maxTimeMs g < now - g_startedAt g)%Z then inr "time budget exhausted"
      else inl (g_steps g)).

(* [src/backend/src/execution/recovery.js:236-240] nextToolCall *)
Definition nextToolCall (g : LoopGuard) : LoopGuard * (Z + string) :=
  let g := g <| g_toolCalls ::= Z.succ |> in
  (g, if decide (g_maxToolCalls g < g_toolCalls g)%Z
      then inr ("tool call budget exhausted (" ++ string_of_Z (g_maxToolCalls g) ++ ")")
      else inl (g_toolCalls g)).

(* [src/backend/src/execution/recovery.js:242-246] nextRetry *)
Definition nextRetry (g : LoopGuard) : LoopGuard * (Z + string) :=
  let g := g <| g_retries ::= Z.succ |> in
  (g, if decide (g_maxRetries g < g_retries g)%Z then inr "retry budget exhausted"
      else inl (g_retries g)).

(** ** Tool health *)

(* [src/backend/src/execution/recovery.js:180-180] tool statistics *)
Record tool_stats := ToolStats {
  ts_calls : Z; ts_success : Z; ts_failures : Z; ts_timeouts : Z; ts_totalDurationMs : Z;
  ts_approvals : Z; ts_totalOutputBytes : Z; ts_totalArtifacts : Z;
}.

#[export] Instance tool_stats_eta : Eta tool_stats := λ s,
  ToolStats (ts_calls s) (ts_success s) (ts_failures s) (ts_timeouts s) (ts_totalDurationMs s)
    (ts_approvals s) (ts_totalOutputBytes s) (ts_totalArtifacts s).

(* [src/backend/src/execution/recovery.js:179-194] record *)
Definition record_health (stats : jsmap string tool_stats) (tool : string) (durationMs : Z)
    (status : ToolStatus.t) (approvalId : option string) (outputBytes artifactCount : Z)
    : jsmap string tool_stats :=
  let s := default (ToolStats 0 0 0 0 0 0 0 0) (mget stats tool) in
  let s := s <| ts_calls ::= Z.succ |> in
  let s := match status with
           | ToolStatus.SUCCESS => s <| ts_success ::= Z.succ |>
           | ToolStatus.TIMED_OUT => s <| ts_timeouts ::= Z.succ |>
           | _ => s <| ts_failures ::= Z.succ |>
           end in
  let s := s <| ts_totalDurationMs ::= Z.add durationMs |> in
  let s := if truthy approvalId then s <| ts_approvals ::= Z.succ |> else s in
  mset stats tool (s <| ts_totalOutputBytes ::= Z.add outputBytes |>
                     <| ts_totalArtifacts ::= Z.add artifactCount |>).

(** ** Properties *)

Definition in_doubt (r : tool_effect) : Prop :=
  te_state r = SideEffectState.value SideEffectState.IN_FLIGHT ∨
  te_state r = SideEffectState.value SideEffectState.UNKNOWN.

Lemma is_state_spec r s : is_state r s = true ↔ te_state r = SideEffectState.value s.
Proof. unfold is_state. apply String.eqb_eq. Qed.

(** When the outcome is in doubt, the action runs again only if it is neither
    destructive nor non-idempotent and the workspace is unchanged. *)
Lemma decideRecovery_in_doubt r known h h' :
  in_doubt r →
  (decideRecovery (Some r) known h h').1 =
    if known then RecoveryDecision.SKIP
    else if negb (te_destructive r) && te_idempotent r && negb (both_differ h h')
    then RecoveryDecision.RETRY else RecoveryDecision.MARK_UNKNOWN.
Proof.
  intros [E|E]; unfold decideRecovery, is_state; rewrite E; destruct known; try done; simpl;
    destruct (te_destructive r); try done; simpl;
    destruct (both_differ h h'), (te_idempotent r); done.
Qed.

(** The crash rule.  With proof of completion an action is skipped, never
    run again; without it, an action whose outcome is in doubt (in flight or
    unknown) runs again only when it is idempotent, not destructive, and the
    workspace has not changed, and is otherwise marked UNKNOWN; a failed action
    runs again only if it failed retryably; and the decision to skip is taken
    only on that proof. *)
Theorem crash_rule r known h h' :
  ((decideRecovery (Some r) known h h').1 = RecoveryDecision.SKIP ↔ known = true) ∧
  (in_doubt r → known = false →
    (decideRecovery (Some r) known h h').1 =
      if negb (te_destructive r) && te_idempotent r && negb (both_differ h h')
      then RecoveryDecision.RETRY else RecoveryDecision.MARK_UNKNOWN) ∧
  (te_state r = SideEffectState.value SideEffectState.FAILED →
    (decideRecovery (Some r) known h h').1 = RecoveryDecision.RETRY →
    te_retryable r = true).
Proof.
  split; [|split].
  - unfold decideRecovery. destruct known; [done|].
    repeat (match goal with |- context [if ?b then _ else _] => destruct b end; try done).
  - intros Hd ->. by rewrite decideRecovery_in_doubt.
  - intros E. unfold decideRecovery, is_state. rewrite E. destruct known; [done|]. simpl.
    by destruct (te_retryable r).
Qed.

(** The crash rule is defeated by the classification it relies on.
    [classifySideEffect] reads a property [risk] that registered tool records
    do not have ([riskLevel] is the one they have), so every registered tool,
    git_push and deploy_preview included, is recorded as not destructive and
    idempotent, and after a crash in the middle of any of them the decision is
    to retry; had the risk level been read, a HIGH-risk tool would have been
    marked UNKNOWN instead. *)
Theorem registered_tools_retried d key :
  let r := markToolInFlight (default "" (r_name d)) (Some (registry_view d)) key in
  te_destructive r = false ∧ te_idempotent r = true ∧
  (decideRecovery (Some r) false None None).1 = RecoveryDecision.RETRY ∧
  (r_riskLevel d = Some RiskLevel.HIGH →
     let intended := RiskView (r_name d) (RiskLevel.value <$> r_riskLevel d) in
     (decideRecovery (Some (markToolInFlight (default "" (r_name d)) (Some intended) key))
        false None None).1 = RecoveryDecision.MARK_UNKNOWN).
Proof.
  unfold markToolInFlight, registry_view, classifySideEffect. simpl.
  rewrite orb_true_r. do 3 (split; [done|]). intros ->. reflexivity.
Qed.

Lemma registered_tools_retried_witness :
  ∃ d, find_tool "git_push" = Some d ∧ r_riskLevel d = Some RiskLevel.HIGH ∧
    (decideRecovery (Some (markToolInFlight "git_push" (Some (registry_view d)) None)) false None None).1
      = RecoveryDecision.RETRY.
Proof.
  destruct (find_tool "git_push") as [d|] eqn:E; [|vm_compute in E; discriminate E].
  exists d. split; [reflexivity|].
  destruct (registered_tools_retried d None) as (_ & _ & H & _).
  vm_compute in E. injection E as <-. split; [reflexivity|exact H].
Defined.

Lemma backoff_bounds a : (250 ≤ backoffForAttempt a ≤ 2000)%Z.
Proof.
  unfold backoffForAttempt. simpl length. set (i := Z.max 0 (Z.min a (Z.of_nat 4 - 1))).
  assert (0 ≤ i < 4)%Z as Hi by lia.
  assert (i = 0 ∨ i = 1 ∨ i = 2 ∨ i = 3)%Z as [-> | [-> | [-> | ->]]] by lia;
    unfold BACKOFF_SEQUENCE; simpl; lia.
Qed.

Lemma retryDecision_budget code attempt maxA idem destr d :
  (retryDecision code attempt maxA idem destr).1 = Some d →
  (attempt < Z.max maxA 1)%Z ∧ d = backoffForAttempt attempt ∧
  default "" code ∉ final_codes ∧
  (destr = true → default "" code ≠ "unknown" ∧ default "" code ≠ "timeout" ∧ default "" code ≠ "cancelled").
Proof.
  unfold retryDecision. case_decide; [done|].
  destruct (destr && _) eqn:Hd; [done|].
  assert (destr = true → default "" code ≠ "unknown" ∧ default "" code ≠ "timeout" ∧
    default "" code ≠ "cancelled") as Hdes.
  { intros ->. simpl in Hd. apply bool_decide_eq_false in Hd. naive_solver. }
  destruct (decide (default "" code ∈ transient_codes)).
  - destruct (decide (maxA ≤ attempt)%Z); [done|]. intros [= <-]. split; [lia|done].
  - destruct (decide (default "" code = "test_failure" ∨ _)); [|done]. destruct idem; simpl; [|done].
    destruct (bool_decide_reflect (attempt < 1)%Z); [|done]. intros [= <-]. split; [lia|done].
Qed.

Lemma retry_loop_S n code attempt maxA idem destr :
  retry_loop (S n) code attempt maxA idem destr =
    match (retryDecision code attempt maxA idem destr).1 with
    | None => Some []
    | Some d => ds ← retry_loop n code (attempt + 1) maxA idem destr; Some (d :: ds)
    end.
Proof. done. Qed.

Lemma retry_loop_bound n code attempt maxA idem destr :
  (Z.max maxA 1 ≤ attempt + Z.of_nat n)%Z →
  ∃ ds, retry_loop (S n) code attempt maxA idem destr = Some ds ∧
    (Z.of_nat (length ds) ≤ Z.max 0 (Z.max maxA 1 - attempt))%Z ∧
    Forall (λ d, 250 ≤ d ≤ 2000)%Z ds ∧
    (default "" code ∈ final_codes → ds = []).
Proof.
  revert attempt. induction n as [|n IH]; intros attempt Hn; rewrite retry_loop_S;
    destruct (retryDecision code attempt maxA idem destr).1 as [d|] eqn:E;
    try (exists []; simpl; split_and!; [done|lia|constructor|done]);
    pose proof (retryDecision_budget _ _ _ _ _ _ E) as (Hlt & Hd & Hf & _); [lia|].
  destruct (IH (attempt + 1)%Z) as (ds & -> & Hl & Hds & _); [lia|]. exists (d :: ds). simpl.
  split_and!; [done|lia| |done]. constructor; [|done]. subst d. apply backoff_bounds.
Qed.

(** Retrying ends.  A caller that retries as [retryDecision] says, counting
    attempts from 0, stops after at most max(maxAttempts, 1) retries with
    delays between 250 ms and 2 s; an error that repeating cannot cure is never
    retried; and a destructive action whose outcome is unknown, timed out or
    cancelled is never retried automatically. *)
Theorem retries_bounded code maxA idem destr :
  (∃ ds, retry_loop (S (Z.to_nat (Z.max maxA 1))) code 0 maxA idem destr = Some ds ∧
    (Z.of_nat (length ds) ≤ Z.max maxA 1)%Z ∧ Forall (λ d, 250 ≤ d ≤ 2000)%Z ds ∧
    (default "" code ∈ final_codes → ds = [])) ∧
  (∀ attempt d, (retryDecision code attempt maxA idem destr).1 = Some d → destr = true →
     default "" code ≠ "unknown" ∧ default "" code ≠ "timeout" ∧ default "" code ≠ "cancelled").
Proof.
  split.
  - destruct (retry_loop_bound (Z.to_nat (Z.max maxA 1)) code 0 maxA idem destr) as (ds & E & Hl & ? & ?);
      [lia|]. exists ds. split_and!; try done. lia.
  - intros attempt d E Hd. by apply retryDecision_budget in E as (_ & _ & _ & H); apply H.
Qed.

(** Honest results.  A run is reported TASK_COMPLETED only if its status is
    COMPLETED, and then no required verification is missing: either no
    changeset was applied or a tests verification passed; the model's last word
    alone never counts as completion. *)
Theorem result_honest run_status applied la goal summary vs :
  let r := buildResult run_status applied la goal summary vs in
  (ar_status r = "TASK_COMPLETED" ↔ run_status = Some TaskStatus.COMPLETED ∧
     (applied = 0%nat ∨ ∃ v, v ∈ vs ∧ vr_passed v = true ∧ vr_kind v = VerificationKind.TESTS)) ∧
  (ar_status r = "TASK_COMPLETED" → ar_verificationIncomplete r = false) ∧
  (ar_status r = "VERIFICATION_INCOMPLETE" → ar_verificationIncomplete r = true).
Proof.
  cbn zeta. set (tested := existsb (λ v, vr_passed v && bool_decide (vr_kind v = VerificationKind.TESTS)) vs).
  assert (tested = true ↔ ∃ v, v ∈ vs ∧ vr_passed v = true ∧ vr_kind v = VerificationKind.TESTS) as Ht.
  { unfold tested. rewrite existsb_exists. setoid_rewrite andb_true_iff.
    setoid_rewrite bool_decide_eq_true. by setoid_rewrite list_elem_of_In. }
  assert (tested = true ↔ VerificationKind.TESTS ∈ done_kinds vs) as Hk.
  { rewrite Ht. unfold done_kinds. rewrite list_elem_of_fmap. setoid_rewrite list_elem_of_filter. naive_solver. }
  unfold buildResult, agentResult. fold tested. simpl.
  destruct (decide (0 < applied)%nat) as [Ha|Ha].
  - rewrite (bool_decide_true (0 < applied)%nat) by done. rewrite filter_cons, filter_nil.
    destruct tested eqn:Et; simpl.
    + rewrite (decide_False (P := VerificationKind.TESTS ∉ done_kinds vs)) by (intros Hn; apply Hn; by apply Hk). simpl.
      split; [|split; [done|]].
      * split; [|intros [-> _]; by rewrite decide_True]. case_decide; [|case_decide; [done|case_decide; [done|by destruct la]]].
        intros _. split; [done|]. right. by apply Ht.
      * case_decide; [done|]. case_decide; [done|]. case_decide; [done|]. by destruct la.
    + rewrite (decide_True (P := VerificationKind.TESTS ∉ done_kinds vs)) by (intros Hn; by apply Hk in Hn). simpl.
      split; [|split; [intros H; exfalso|done]].
      * split.
        -- case_decide; [done|]. case_decide; [done|]. case_decide; [done|]. by destruct la.
        -- intros [-> [->|H]]; [lia|]. by apply Ht in H.
      * revert H. case_decide; [done|]. case_decide; [done|]. case_decide; [done|]. by destruct la.
  - rewrite (bool_decide_false (0 < applied)%nat) by done. simpl. split; [|split; [done|]].
    + split; [|intros [-> _]; by rewrite decide_True]. case_decide; [|case_decide; [done|case_decide; [done|by destruct la]]].
      intros _. split; [done|left; lia].
    + case_decide; [done|]. case_decide; [done|]. case_decide; [done|]. by destruct la.
Qed.

(** The requests a loop makes of its guard. *)
Inductive guard_op := GStep (now : Z) | GTool | GRetry.

Definition guard_step (st : LoopGuard * (nat * nat * nat)) (o : guard_op) : LoopGuard * (nat * nat * nat) :=
  let '(g, (a, b, c)) := st in
  match o with
  | GStep now => let (g, r) := nextStep g now in
      (g, (match r with inl _ => S a | _ => a end, b, c))
  | GTool => let (g, r) := nextToolCall g in
      (g, (a, match r with inl _ => S b | _ => b end, c))
  | GRetry => let (g, r) := nextRetry g in
      (g, (a, b, match r with inl _ => S c | _ => c end))
  end.

(** The loop's budgets hold.  Whatever a loop asks and in whatever order,
    its guard grants at most [maxSteps] steps, [maxToolCalls] tool calls and
    [maxRetries] retries (nothing when the limit is negative). *)
Theorem loop_budgets now ms mt mm mr ops :
  let '(g, (a, b, c)) := run guard_step (new_guard now ms mt mm mr, (0, 0, 0)%nat) ops in
  (Z.of_nat a ≤ Z.max 0 ms)%Z ∧ (Z.of_nat b ≤ Z.max 0 mt)%Z ∧ (Z.of_nat c ≤ Z.max 0 mr)%Z.
Proof.
  set (P := λ st : LoopGuard * (nat * nat * nat), let '(g, (a, b, c)) := st in
    g_maxSteps g = ms ∧ g_maxToolCalls g = mt ∧ g_maxRetries g = mr ∧
    (Z.of_nat a ≤ g_steps g ∧ Z.of_nat b ≤ g_toolCalls g ∧ Z.of_nat c ≤ g_retries g)%Z ∧
    (Z.of_nat a ≤ Z.max 0 ms)%Z ∧ (Z.of_nat b ≤ Z.max 0 mt)%Z ∧ (Z.of_nat c ≤ Z.max 0 mr)%Z).
  assert (P (run guard_step (new_guard now ms mt mm mr, (0, 0, 0)%nat) ops)) as HP.
  { apply run_invariant_all; [|subst P; simpl; lia].
    intros [g [[a b] c]] [t| |] (E1 & E2 & E3 & (H1 & H2 & H3) & H4 & H5 & H6); simpl;
      repeat case_decide; simpl in *; lia. }
  destruct (run guard_step _ ops) as [g [[a b] c]]. subst P. simpl in HP. tauto.
Qed.
