(* ===== verification/Checkpoint.v ===== *)
(** Checkpoints and recovery from them:
    backend/src/checkpoint/checkpoint-manager.js and the recovery service of
    backend/src/core/recovery-service.js.

    Snapshots are JSON documents ([jsval]); the live runtime state is the
    document of its fields.  Time is in milliseconds and a time stamp is the
    instant it parses to; generated ids are inputs; SHA-256 is a parameter. *)

From S2P Require Import Prelude JsMap JsValue Recovery.

Local Open Scope string_scope.
Local Open Scope js_scope.

Definition is_num (v : jsval) : bool := match v with JNum _ => true | _ => false end.
Definition is_obj (v : jsval) : bool := match v with JObj _ => true | _ => false end.

(** [v && typeof v === 'object'] *)
Definition is_objlike (v : jsval) : bool := is_obj v || is_array v.

(** ** Checkpoints *)

(** A checkpoint as stored or as read back from a document: the fields that
    validation inspects may hold anything. *)
(* [src/backend/src/checkpoint/checkpoint-manager.js:26-46] ExecutionCheckpoint *)
Record checkpoint := Checkpoint {
  checkpointId : string;
  version : jsval;
  cp_runId : jsval;
  type : jsval;
  timestamp : option Z;
  stateSnapshot : jsval;
  controlSnapshot : jsval;
  stepNumber : jsval;
  idempotencyKey : string;
  completed : bool;
  completedAt : option Z;
  result : jsval;
  integrity : string;
}.

#[export] Instance checkpoint_eta : Eta checkpoint := λ c,
  Checkpoint (checkpointId c) (version c) (cp_runId c) (type c) (timestamp c) (stateSnapshot c)
    (controlSnapshot c) (stepNumber c) (idempotencyKey c) (completed c) (completedAt c) (result c)
    (integrity c).

(* [src/backend/src/checkpoint/checkpoint-manager.js:27-27] constructor options *)
Record cp_options := CpOptions {
  op_controlSnapshot : jsval;
  op_stepNumber : option Z;
  op_idempotencyKey : option string;
}.

(* [src/backend/src/checkpoint/checkpoint-manager.js:10-10] CHECKPOINT_VERSION *)
Definition CHECKPOINT_VERSION : Z := 1.

(* [src/backend/src/checkpoint/checkpoint-manager.js:14-14] CHECKPOINT_MAX_AGE_MS *)
Definition CHECKPOINT_MAX_AGE_MS : Z := 7 * 24 * 60 * 60 * 1000.

(* [src/backend/src/checkpoint/checkpoint-manager.js:48-52] markCompleted *)
Definition markCompleted (now : Z) (res : jsval) (c : checkpoint) : checkpoint :=
  c <| completed := true |> <| completedAt := Some now |> <| result := res |>.

Inductive validation :=
| Valid (c : checkpoint)
| Invalid (code error : string).

Section Digest.
Context (sha256 : string → string).

(* [src/backend/src/checkpoint/checkpoint-manager.js:22-24] checkpointIntegrity *)
Definition checkpointIntegrity (runId type stepNumber stateSnapshot : jsval) : string :=
  sha256 (default "" (json_stringify (JArr [runId; type; stepNumber; stateSnapshot]))).

(** [t] is the clock at construction, [id] the generated id. *)
(* [src/backend/src/checkpoint/checkpoint-manager.js:27-46] constructor *)
Definition new_checkpoint (t : Z) (id runId ty : string) (snap : jsval) (o : cp_options) : checkpoint :=
  let step := default 0%Z (op_stepNumber o) in
  {| checkpointId := id; version := JNum CHECKPOINT_VERSION; cp_runId := JStr runId; type := JStr ty;
     timestamp := Some t; stateSnapshot := snap;
     controlSnapshot := if is_objlike (op_controlSnapshot o) then op_controlSnapshot o else JNull;
     stepNumber := JNum step;
     idempotencyKey :=
       let k := default "" (op_idempotencyKey o) in
       or_str k (runId ++ ":" ++ ty ++ ":" ++ string_of_Z step ++ ":" ++ string_of_Z t);
     completed := false; completedAt := None; result := JUndef;
     integrity := checkpointIntegrity (JStr runId) (JStr ty) (JNum step) snap |}.

(* [src/backend/src/checkpoint/checkpoint-manager.js:113-113] version test *)
Definition version_ok (v : jsval) : bool :=
  match v with JNum n => bool_decide (1 ≤ n ≤ CHECKPOINT_VERSION)%Z | _ => false end.

(* [src/backend/src/checkpoint/checkpoint-manager.js:100-133] validateCheckpoint *)
Definition validateCheckpoint (now : Z) (cp : option checkpoint) (runId : string) (maxAge : option Z)
    : validation :=
  let maxAgeMs := default CHECKPOINT_MAX_AGE_MS maxAge in
  match cp with
  | None => Invalid "missing" "Checkpoint not found"
  | Some c =>
      if negb (is_string (cp_runId c) && is_string (type c) && is_num (stepNumber c)
               && is_objlike (stateSnapshot c)) then
        Invalid "bad_shape" "Checkpoint has an unrecognized shape"
      else if truthy_str runId && negb (bool_decide (cp_runId c = JStr runId)) then
        Invalid "run_mismatch" "Checkpoint belongs to a different run"
      else if negb (version_ok (version c)) then
        Invalid "bad_version" ("Unsupported checkpoint version: " ++ to_string (version c))
      else if negb (completed c) then
        Invalid "incomplete" "Checkpoint was never marked completed"
      else match timestamp c with
      | None => Invalid "bad_shape" "Checkpoint timestamp is invalid"
      | Some ts =>
          if decide (maxAgeMs < now - ts)%Z then
            Invalid "stale" "Checkpoint is older than the automatic-resume horizon"
          else if truthy_str (integrity c) &&
                  negb (String.eqb (checkpointIntegrity (cp_runId c) (type c) (stepNumber c) (stateSnapshot c))
                          (integrity c)) then
            Invalid "corrupt" "Checkpoint integrity check failed"
          else Valid c
      end
  end.

(** ** The store *)

(* [src/backend/src/checkpoint/checkpoint-manager.js:135-140] CheckpointManager *)
Record CheckpointManager := MkManager {
  checkpoints : jsmap string (list checkpoint);
  idempotencyKeys : gset string;
  maxCheckpoints : nat;
}.

#[export] Instance CheckpointManager_eta : Eta CheckpointManager := λ m,
  MkManager (checkpoints m) (idempotencyKeys m) (maxCheckpoints m).

(* [src/backend/src/checkpoint/checkpoint-manager.js:136-140] constructor *)
Definition new_manager (max : option nat) : CheckpointManager :=
  MkManager [] ∅ (match max with Some (S n) => S n | _ => 50 end).

(* [src/backend/src/checkpoint/checkpoint-manager.js:243-245] getAllCheckpoints *)
Definition getAllCheckpoints (m : CheckpointManager) (run : string) : list checkpoint :=
  default [] (mget (checkpoints m) run).

(* [src/backend/src/checkpoint/checkpoint-manager.js:142-164] createCheckpoint *)
Definition createCheckpoint (m : CheckpointManager) (t : Z) (id run ty : string) (snap : jsval)
    (o : cp_options) : CheckpointManager * checkpoint * bool :=
  let c := new_checkpoint t id run ty snap o in
  if decide (idempotencyKey c ∈ idempotencyKeys m) then (m, c, true)
  else
    let keys := {[idempotencyKey c]} ∪ idempotencyKeys m in
    let l := (getAllCheckpoints m run ++ [c])%list in
    if decide (maxCheckpoints m < length l)%nat then
      match l with
      | removed :: l' =>
          (MkManager (mset (checkpoints m) run l') (keys ∖ {[idempotencyKey removed]})
             (maxCheckpoints m), c, false)
      | [] => (m, c, false)
      end
    else (MkManager (mset (checkpoints m) run l) keys (maxCheckpoints m), c, false).

(* [src/backend/src/checkpoint/checkpoint-manager.js:166-169] getCheckpoint *)
Definition getCheckpoint (m : CheckpointManager) (run id : string) : option checkpoint :=
  snd <$> list_find (λ c, checkpointId c = id) (getAllCheckpoints m run).

Definition of_type (ty : option string) (c : checkpoint) : bool :=
  if truthy ty then bool_decide (type c = JStr (default "" ty)) else true.

(* [src/backend/src/checkpoint/checkpoint-manager.js:171-180] getLastCheckpoint *)
Definition getLastCheckpoint (m : CheckpointManager) (run : string) (ty : option string) : option checkpoint :=
  last (filter (λ c, of_type ty c = true) (getAllCheckpoints m run)).

(** The loop runs from the newest to the oldest. *)
(* [src/backend/src/checkpoint/checkpoint-manager.js:184-193] getLastCompletedCheckpoint *)
Definition getLastCompletedCheckpoint (m : CheckpointManager) (run : string) (ty : option string)
    : option checkpoint :=
  snd <$> list_find (λ c, completed c = true ∧ of_type ty c = true) (reverse (getAllCheckpoints m run)).

(* [src/backend/src/checkpoint/checkpoint-manager.js:196-201] validatedResumeCheckpoint *)
Definition validatedResumeCheckpoint (m : CheckpointManager) (now : Z) (run : string) (id ty : option string)
    (maxAge : option Z) : validation :=
  validateCheckpoint now
    (if truthy id then getCheckpoint m run (default "" id) else getLastCompletedCheckpoint m run ty) run maxAge.

Fixpoint update_id (id : string) (f : checkpoint → checkpoint) (l : list checkpoint) : list checkpoint :=
  match l with
  | [] => []
  | c :: l' => if decide (checkpointId c = id) then f c :: l' else c :: update_id id f l'
  end.

(* [src/backend/src/checkpoint/checkpoint-manager.js:208-215] markCheckpointCompleted *)
Definition markCheckpointCompleted (m : CheckpointManager) (now : Z) (run id : string) (res : jsval)
    : CheckpointManager * bool :=
  match getCheckpoint m run id with
  | None => (m, false)
  | Some _ => (m <| checkpoints ::= λ s, malter (update_id id (markCompleted now res)) s run |>, true)
  end.

(* [src/backend/src/checkpoint/checkpoint-manager.js:217-219] isIdempotent *)
Definition isIdempotent (m : CheckpointManager) (key : string) : bool :=
  bool_decide (key ∈ idempotencyKeys m).

(* [src/backend/src/checkpoint/checkpoint-manager.js:221-224] canResumeFrom *)
Definition canResumeFrom (m : CheckpointManager) (run id : string) : bool :=
  match getCheckpoint m run id with Some c => completed c | None => false end.

(* [src/backend/src/checkpoint/checkpoint-manager.js:226-232] getResumeState *)
Definition getResumeState (m : CheckpointManager) (run id : string) : option jsval :=
  match getCheckpoint m run id with
  | Some c => if completed c then Some (stateSnapshot c) else None
  | None => None
  end.

(* [src/backend/src/checkpoint/checkpoint-manager.js:234-240] clearRun *)
Definition clearRun (m : CheckpointManager) (run : string) : CheckpointManager :=
  MkManager (mdelete (checkpoints m) run)
    (idempotencyKeys m ∖ list_to_set (idempotencyKey <$> getAllCheckpoints m run)) (maxCheckpoints m).
End Digest.

(** ** Restoring a snapshot onto the live runtime *)

(** [o.k = v] on an object. *)
Definition set_prop (o : jsval) (k : string) (v : jsval) : jsval :=
  match o with JObj fs => JObj (mset fs k v) | _ => o end.

Fixpoint get_path (o : jsval) (p : list string) : jsval :=
  match p with [] => o | k :: p' => get_path (prop o k) p' end.

Fixpoint set_path (o : jsval) (p : list string) (v : jsval) : jsval :=
  match p with [] => v | k :: p' => set_prop o k (set_path (prop o k) p' v) end.

(** [if (guard(snapshot.path)) runtime.path = conv(snapshot.path);] *)
Record rule := Rule { r_path : list string; r_guard : jsval → bool; r_conv : jsval → jsval }.

Definition apply_rule (snap rt : jsval) (r : rule) : jsval :=
  let v := get_path snap (r_path r) in
  if r_guard r v then set_path rt (r_path r) (r_conv r v) else rt.

(** [{ ...v }] of an element of an array; the elements are objects. *)
Definition copy_obj (v : jsval) : jsval := match v with JObj fs => JObj fs | _ => JObj [] end.

Definition copies (v : jsval) : jsval :=
  match v with JArr xs => JArr (copy_obj <$> xs) | _ => v end.

(** [v.slice(-n)] *)
Definition tail_of (n : nat) (v : jsval) : jsval :=
  match v with JArr xs => JArr (slice_last n xs) | _ => v end.

(** [new Map(Object.entries(v))], as the document of its entries. *)
Definition entries (v : jsval) : jsval :=
  match v with JArr xs => JObj (imap (λ i x, (string_of_Z (Z.of_nat i), x)) xs) | _ => v end.

Definition defined_val (v : jsval) : bool := negb (bool_decide (v = JUndef)).
Definition same (v : jsval) : jsval := v.

Definition num (p : list string) : rule := Rule p is_num same.
Definition if_truthy (p : list string) : rule := Rule p truthy_val same.
Definition arr (p : list string) (f : jsval → jsval) : rule := Rule p is_array f.

(* [src/backend/src/checkpoint/checkpoint-manager.js:402-461] applySnapshotToRuntime, assignments *)
Definition snapshot_rules : list rule := [
  if_truthy ["status"];
  if_truthy ["task"; "status"];
  num ["task"; "progress"];
  num ["task"; "successProbability"];
  Rule ["model"; "currentModel"] defined_val same;
  Rule ["model"; "currentProvider"] defined_val same;
  arr ["model"; "candidateModels"] copies;
  num ["model"; "modelContextLimit"];
  if_truthy ["model"; "modelHealth"];
  num ["model"; "modelLatency"];
  num ["model"; "modelReliability"];
  Rule ["model"; "modelSelectionReason"] is_string same;
  num ["model"; "modelSwitchCount"];
  num ["model"; "modelStickinessScore"];
  num ["context"; "currentTokens"];
  arr ["context"; "contextItems"] copies;
  arr ["context"; "compressedItems"] copies;
  arr ["context"; "discardedItems"] (tail_of 50);
  num ["context"; "contextVersion"];
  if_truthy ["context"; "cacheState"];
  arr ["memory"; "workingMemoryRefs"] copies;
  arr ["memory"; "persistentMemoryRefs"] copies;
  num ["budget"; "currentSpend"];
  num ["budget"; "maximumCost"];
  num ["budget"; "elapsedLatency"];
  num ["budget"; "maximumLatency"];
  Rule ["budget"; "costBreakdown"] is_objlike entries;
  arr ["budget"; "costHistory"] (λ v, copies (tail_of 50 v));
  num ["execution"; "currentStep"];
  num ["execution"; "totalSteps"];
  arr ["execution"; "stepHistory"] copies;
  num ["execution"; "retries"];
  num ["execution"; "failures"];
  if_truthy ["execution"; "executionStatus"];
  arr ["modelCalls"] (λ v, copies (tail_of 200 v));
  Rule ["metadata"] is_objlike entries].

(** The sections a snapshot is rejected without. *)
(* [src/backend/src/checkpoint/checkpoint-manager.js:393-463] applySnapshotToRuntime *)
Definition applySnapshotToRuntime (now : Z) (rt snap : jsval) : res jsval :=
  if negb (is_objlike snap) then Throw (JsError None "snapshot missing")
  else if negb (truthy_val (prop snap "task") && truthy_val (prop snap "execution")
                && truthy_val (prop snap "budget")) then
    Throw (JsError None "snapshot missing task/execution/budget sections")
  else Ok (set_path (foldl (apply_rule snap) rt snapshot_rules) ["updatedAt"] (JNum now)).

(** ** The run-control record *)

(* [src/backend/src/checkpoint/checkpoint-manager.js:467-481] control record *)
Record control := Control {
  c_messages : list jsval;
  c_history : list jsval;
  c_tokens : jsval;
  c_toolCalls : Z;
  c_retries : Z;
  c_triedModels : list string;
  c_completedCheckpoints : Z;
  c_heuristicToolUsed : bool;
  c_lastUserMessage : string;
  c_latency : jsval;
  c_lastToolEffect : option tool_effect;
}.

#[export] Instance control_eta : Eta control := λ c,
  Control (c_messages c) (c_history c) (c_tokens c) (c_toolCalls c) (c_retries c) (c_triedModels c)
    (c_completedCheckpoints c) (c_heuristicToolUsed c) (c_lastUserMessage c) (c_latency c)
    (c_lastToolEffect c).

Definition no_tokens : jsval :=
  JObj [("input", JNum 0); ("output", JNum 0); ("cached", JNum 0); ("reasoning", JNum 0)].

(* [src/backend/src/checkpoint/checkpoint-manager.js:467-481] captureControlSnapshot *)
Definition captureControlSnapshot (c : control) : jsval :=
  JObj [
    ("messages", JArr (copy_obj <$> slice_last 300 (c_messages c)));
    ("history", JArr (copy_obj <$> slice_last 300 (c_history c)));
    ("tokens", if truthy_val (c_tokens c) then copy_obj (c_tokens c) else no_tokens);
    ("toolCalls", JNum (c_toolCalls c));
    ("retries", JNum (c_retries c));
    ("triedModels", JArr (JStr <$> c_triedModels c));
    ("completedCheckpoints", JNum (c_completedCheckpoints c));
    ("heuristicToolUsed", JBool (c_heuristicToolUsed c));
    ("lastUserMessage", JStr (slice0 4000 (c_lastUserMessage c)));
    ("latency", if truthy_val (c_latency c) then copy_obj (c_latency c) else JNull)].

(** [new Set(xs)] in insertion order. *)
Definition to_set (xs : list string) : list string :=
  foldl (λ acc x, if decide (x ∈ acc) then acc else (acc ++ [x])%list) [] xs.

Definition strings_of (v : jsval) : list string :=
  match v with JArr xs => omap (λ x, match x with JStr s => Some s | _ => None end) xs | _ => [] end.

Definition merge_obj (a b : jsval) : jsval :=
  match copy_obj a, copy_obj b with
  | JObj fs, JObj gs => JObj (foldl (λ m f, mset m f.1 f.2) fs gs)
  | _, _ => a
  end.

Definition elements (v : jsval) : list jsval := match v with JArr xs => xs | _ => [] end.

(* [src/backend/src/checkpoint/checkpoint-manager.js:484-497] restoreControlSnapshot *)
Definition restoreControlSnapshot (c : control) (snap : jsval) : control :=
  if negb (is_objlike snap) then c
  else
    let p k := prop snap k in
    let n k (d : Z) := match p k with JNum z => z | _ => d end in
    {| c_messages := if is_array (p "messages") then copy_obj <$> elements (p "messages") else c_messages c;
       c_history := if is_array (p "history") then copy_obj <$> elements (p "history") else c_history c;
       c_tokens := if is_objlike (p "tokens") then copy_obj (p "tokens") else c_tokens c;
       c_toolCalls := n "toolCalls" (c_toolCalls c);
       c_retries := n "retries" (c_retries c);
       c_triedModels := if is_array (p "triedModels") then to_set (strings_of (p "triedModels"))
                        else c_triedModels c;
       c_completedCheckpoints := n "completedCheckpoints" (c_completedCheckpoints c);
       c_heuristicToolUsed := match p "heuristicToolUsed" with JBool b => b | _ => c_heuristicToolUsed c end;
       c_lastUserMessage := match p "lastUserMessage" with JStr s => s | _ => c_lastUserMessage c end;
       c_latency := if is_objlike (p "latency") then merge_obj (c_latency c) (p "latency") else c_latency c;
       c_lastToolEffect := c_lastToolEffect c |}.

(** ** Planning and performing a recovery *)

(* [src/backend/src/core/recovery-service.js:9-15] recovery actions *)
Inductive action := resume | retry_step | skip_completed | ask_user | mark_unknown | unrecoverable.

#[global] Instance action_eq_dec : EqDecision action.
Proof. solve_decision. Defined.

(* [src/backend/src/checkpoint/checkpoint-manager.js:282-298] recovery plan *)
Record recovery_plan := RecoveryPlan { pl_action : action; pl_reason : string; pl_cursor : option Z }.

(* [src/backend/src/checkpoint/checkpoint-manager.js:282-298] toPlan *)
Definition toPlan (d : RecoveryDecision.t * string) (cursor : option Z) : recovery_plan :=
  match d.1 with
  | RecoveryDecision.SKIP => RecoveryPlan skip_completed d.2 cursor
  | RecoveryDecision.RESUME => RecoveryPlan resume d.2 cursor
  | RecoveryDecision.RETRY => RecoveryPlan retry_step d.2 cursor
  | RecoveryDecision.ROLLBACK =>
      RecoveryPlan ask_user ("rollback suggested (" ++ d.2 ++ "); requires operator approval") cursor
  | RecoveryDecision.MARK_UNKNOWN => RecoveryPlan mark_unknown d.2 cursor
  | RecoveryDecision.ASK_USER => RecoveryPlan ask_user d.2 cursor
  end.

(** The idempotency store as recovery reads it: the state of a key's record;
    [None] when there is no store. *)
Definition idem_lookup := option (string → option string).

(* [src/backend/src/checkpoint/checkpoint-manager.js:267-273] idempotency proof *)
Definition known_completed (store : idem_lookup) (r : tool_effect) : bool :=
  match store with
  | Some get => truthy (te_idempotencyKey r) &&
      bool_decide (get (default "" (te_idempotencyKey r)) = Some "completed")
  | None => false
  end.

(* [src/backend/src/checkpoint/checkpoint-manager.js:262-334] planRecovery *)
Definition planRecovery (v : validation) (r : tool_effect) (store : idem_lookup)
    (workspaceHash workspaceHashAtCheckpoint : option string) : recovery_plan :=
  let known := known_completed store r in
  let decision := decideRecovery (Some r) known workspaceHash workspaceHashAtCheckpoint in
  match v with
  | Invalid code error =>
      if decide (code = "stale") then
        RecoveryPlan ask_user "checkpoint is stale; automatic resume refused" None
      else if decide (code = "missing" ∨ code = "incomplete") then
        if is_state r SideEffectState.NOT_STARTED then
          RecoveryPlan retry_step
            "no completed checkpoint; nothing in flight — restarting failed run from preserved state"
            (Some 0%Z)
        else toPlan decision None
      else RecoveryPlan unrecoverable error None
  | Valid cp => toPlan decision (Some (match stepNumber cp with JNum n => n | _ => 0%Z end))
  end.

Section Recover.
Context (sha256 : string → string).

(** The outcome of restoring: the checkpoint, the new runtime and the control
    snapshot to restore; or the code and text of the refusal. *)
(* [src/backend/src/checkpoint/checkpoint-manager.js:336-366] recoverFromCheckpoint *)
Definition recoverFromCheckpoint (m : CheckpointManager) (now : Z) (run id : string) (rt : jsval)
    (maxAge : Z) : (checkpoint * jsval * option jsval) + (string * string) :=
  match getCheckpoint m run id with
  | None => inr ("missing", "Checkpoint not found")
  | Some raw =>
      match validateCheckpoint sha256 now (Some raw) run (Some maxAge) with
      | Invalid code error => inr (code, error)
      | Valid c =>
          match applySnapshotToRuntime now rt (stateSnapshot c) with
          | Throw e => inr ("bad_shape", "Checkpoint snapshot incompatible: " ++ slice0 160 (err_msg e))
          | Ok rt' => inl (c, rt', if is_objlike (controlSnapshot c) then Some (controlSnapshot c) else None)
          end
      end
  end.

(** What [recover] returns, and the state it leaves. *)
(* [src/backend/src/core/recovery-service.js:98-125] outcome of recover *)
Record outcome := Outcome {
  out_plan : recovery_plan;
  out_checkpoint : option checkpoint;
  out_restored : bool;
  out_cursor : option Z;
  out_runtime : jsval;
  out_control : control;
}.

(** [Math.max(runtime.execution.totalSteps || 0, cursor)] *)
Definition restore_cursor (rt : jsval) (cursor : Z) : jsval :=
  let rt := set_path rt ["execution"; "currentStep"] (JNum cursor) in
  let total := match get_path rt ["execution"; "totalSteps"] with JNum n => n | _ => 0%Z end in
  set_path rt ["execution"; "totalSteps"] (JNum (Z.max total cursor)).

(* [src/backend/src/core/recovery-service.js:98-98] operator needed *)
Definition blocked (a : action) : bool :=
  bool_decide (a = ask_user ∨ a = mark_unknown ∨ a = unrecoverable).

(** [t0]: the clock at the first validation, [t1]: at the restore. *)
(* [src/backend/src/core/recovery-service.js:80-126] recover *)
Definition recover (m : CheckpointManager) (maxAge t0 t1 : Z) (run : string) (rt : jsval) (ctrl : control)
    (store : idem_lookup) (toolRecord : option tool_effect) (cpId : option string)
    (workspaceHash workspaceHashAtCheckpoint : option string) : outcome :=
  let record := match toolRecord with
                | Some r => r
                | None => default defaultToolRecord (c_lastToolEffect ctrl)
                end in
  let raw := if truthy cpId then getCheckpoint m run (default "" cpId)
             else getLastCompletedCheckpoint m run None in
  let v := validateCheckpoint sha256 t0 raw run None in
  let plan := planRecovery v record store workspaceHash workspaceHashAtCheckpoint in
  if blocked (pl_action plan) then
    Outcome plan (match v with Valid c => Some c | _ => None end) false None rt ctrl
  else match v with
  | Valid c =>
      match recoverFromCheckpoint m t1 run (checkpointId c) rt maxAge with
      | inr (_, error) =>
          Outcome (RecoveryPlan unrecoverable error None) None false None rt ctrl
      | inl (c', rt', control') =>
          let ctrl := match control' with Some s => restoreControlSnapshot ctrl s | None => ctrl end in
          let cursor := default 0%Z (pl_cursor plan) in
          Outcome plan (Some c') true (Some cursor) (restore_cursor rt' cursor) ctrl
      end
  | Invalid _ _ => Outcome plan None false (pl_cursor plan) rt ctrl
  end.
End Recover.

(** Capturing: the created checkpoint object, which is the stored one unless
    its key was a duplicate, is marked completed. *)
Definition update_last (f : checkpoint → checkpoint) (l : list checkpoint) : list checkpoint :=
  match reverse l with [] => [] | c :: r => reverse (f c :: r) end.

(* [src/backend/src/core/recovery-service.js:54-74] captureCheckpoint *)
Definition captureCheckpoint (sha256 : string → string) (m : CheckpointManager) (t0 t1 : Z)
    (id run ty : string) (snap : jsval) (ctrl : control) (step : Z) (res : jsval)
    : CheckpointManager * checkpoint * control :=
  let '(m', c, duplicate) := createCheckpoint sha256 m t0 id run ty snap
      (CpOptions (captureControlSnapshot ctrl) (Some step) None) in
  let m' := if duplicate then m'
            else m' <| checkpoints ::= λ s, malter (update_last (markCompleted t1 res)) s run |> in
  (m', markCompleted t1 res c, ctrl <| c_completedCheckpoints ::= Z.succ |>).

(** ** Properties of the store *)

Local Close Scope string_scope.

Definition stored_keys (s : jsmap string (list checkpoint)) : list string :=
  concat ((λ p : string * list checkpoint, idempotencyKey <$> p.2) <$> s).

Definition store_ok (m : CheckpointManager) : Prop :=
  mwf (checkpoints m) ∧ NoDup (stored_keys (checkpoints m)) ∧
  (∀ k, k ∈ idempotencyKeys m ↔ k ∈ stored_keys (checkpoints m)) ∧
  0 < maxCheckpoints m ∧
  mall (λ _ l, length l ≤ maxCheckpoints m) (checkpoints m).

Lemma concat_perm {A} (l l' : list (list A)) : l ≡ₚ l' → concat l ≡ₚ concat l'.
Proof.
  induction 1; simpl; [done|by apply Permutation_app_head| |by etrans].
  rewrite !app_assoc. apply Permutation_app_tail, Permutation_app_comm.
Qed.

Lemma stored_keys_perm s s' : s ≡ₚ s' → stored_keys s ≡ₚ stored_keys s'.
Proof. intros E. unfold stored_keys. by apply concat_perm, fmap_Permutation. Qed.

Lemma stored_keys_get s run l :
  mget s run = Some l → stored_keys s ≡ₚ (idempotencyKey <$> l) ++ stored_keys (mdelete s run).
Proof. intros E%mdelete_perm. by rewrite (stored_keys_perm _ _ E). Qed.

Lemma stored_keys_default s run :
  stored_keys s ≡ₚ (idempotencyKey <$> default [] (mget s run)) ++ stored_keys (mdelete s run).
Proof.
  destruct (mget s run) as [l|] eqn:E; simpl; [by apply stored_keys_get|]. by rewrite mdelete_absent.
Qed.

Lemma stored_keys_set s run l :
  stored_keys (mset s run l) ≡ₚ (idempotencyKey <$> l) ++ stored_keys (mdelete s run).
Proof. by rewrite (stored_keys_perm _ _ (mset_perm s run l)). Qed.

(** Replacing a run's list by one with the given keys. *)
Lemma store_ok_set m run l keys :
  store_ok m → NoDup ((idempotencyKey <$> l) ++ stored_keys (mdelete (checkpoints m) run)) →
  (∀ k, k ∈ keys ↔ k ∈ (idempotencyKey <$> l) ++ stored_keys (mdelete (checkpoints m) run)) →
  length l ≤ maxCheckpoints m →
  store_ok (MkManager (mset (checkpoints m) run l) keys (maxCheckpoints m)).
Proof.
  intros (Hw & _ & _ & Hp & Hl) Hnd Hk Hlen. split; [by apply mwf_set|]. simpl. split; [|split; [|split]].
  - by rewrite stored_keys_set.
  - intros k. by rewrite stored_keys_set.
  - done.
  - by apply mall_set.
Qed.

Lemma store_ok_create sha256 m t id run ty snap o :
  store_ok m → store_ok (createCheckpoint sha256 m t id run ty snap o).1.1.
Proof.
  intros Hm. pose proof Hm as (Hw & Hnd & Hk & Hp & Hl). unfold createCheckpoint.
  generalize (new_checkpoint sha256 t id run ty snap o). intros c. cbn zeta.
  case_decide as Hd; [done|].
  assert (length (getAllCheckpoints m run) ≤ maxCheckpoints m) as Hlen.
  { unfold getAllCheckpoints. destruct (mget (checkpoints m) run) eqn:E; simpl; [by eapply Hl|lia]. }
  pose proof (stored_keys_default (checkpoints m) run) as Hperm.
  fold (getAllCheckpoints m run) in Hperm.
  assert (NoDup ((idempotencyKey <$> getAllCheckpoints m run ++ [c]) ++
    stored_keys (mdelete (checkpoints m) run))) as Hnd'.
  { rewrite fmap_app, <- app_assoc. simpl. rewrite <- Permutation_middle. apply NoDup_cons. split.
    - rewrite <- Hperm. by rewrite <- Hk.
    - by rewrite <- Hperm. }
  assert (∀ k, k ∈ {[idempotencyKey c]} ∪ idempotencyKeys m ↔
    k ∈ (idempotencyKey <$> getAllCheckpoints m run ++ [c]) ++ stored_keys (mdelete (checkpoints m) run)) as Hk'.
  { intros k. rewrite elem_of_union, (Hk k), Hperm, fmap_app, !elem_of_app. set_solver. }
  case_decide as Hmax.
  - destruct (getAllCheckpoints m run ++ [c])%list as [|rm l'] eqn:El; [done|].
    simpl in Hnd', Hk'. apply NoDup_cons in Hnd' as [Hrm Hnd'].
    apply store_ok_set; [done|done| |].
    + intros k. rewrite elem_of_difference, Hk'. set_solver.
    + apply (f_equal length) in El. rewrite length_app in El. simpl in El. lia.
  - apply store_ok_set; [done|done|done|lia].
Qed.

(** Updates that keep the keys keep the store well formed. *)
Lemma store_ok_alter m run f :
  store_ok m → (∀ l, idempotencyKey <$> f l = idempotencyKey <$> l) →
  store_ok (m <| checkpoints ::= λ s, malter f s run |>).
Proof.
  intros Hm Hf. pose proof Hm as (Hw & Hnd & Hk & Hp & Hl).
  assert (stored_keys (malter f (checkpoints m) run) ≡ₚ stored_keys (checkpoints m)) as E.
  { unfold malter. destruct (mget (checkpoints m) run) as [l|] eqn:E; [|done].
    rewrite stored_keys_set, Hf. symmetry. by apply stored_keys_get. }
  split; [by apply mwf_malter|]. simpl. split; [by rewrite E|split; [intros k; by rewrite E|split; [done|]]].
  intros j l. rewrite mget_malter. case_decide; [|apply Hl].
  subst. destruct (mget (checkpoints m) j) as [l0|] eqn:E0; [|done]. intros [= <-].
  specialize (Hl _ _ E0). simpl in Hl. rewrite <- (length_fmap idempotencyKey), Hf, length_fmap. done.
Qed.

Lemma update_id_keys id f l :
  (∀ c, idempotencyKey (f c) = idempotencyKey c) →
  idempotencyKey <$> update_id id f l = idempotencyKey <$> l.
Proof. intros Hf. induction l as [|c l IH]; [done|]. cbn [update_id]. case_decide; rewrite !fmap_cons.
  - by rewrite Hf.
  - by rewrite IH.
Qed.

Lemma update_last_keys f l :
  (∀ c, idempotencyKey (f c) = idempotencyKey c) →
  idempotencyKey <$> update_last f l = idempotencyKey <$> l.
Proof.
  intros Hf. unfold update_last. destruct (reverse l) as [|c r] eqn:E.
  - apply (f_equal reverse) in E. rewrite reverse_involutive in E. by subst.
  - apply (f_equal reverse) in E. rewrite reverse_involutive in E. subst l.
    rewrite !reverse_cons, !fmap_app. cbn. by rewrite Hf.
Qed.

Inductive store_op :=
| SCreate (t : Z) (id run ty : string) (snap : jsval) (o : cp_options)
| SCapture (t0 t1 : Z) (id run ty : string) (snap : jsval) (ctrl : control) (step : Z) (res : jsval)
| SMark (now : Z) (run id : string) (res : jsval)
| SClear (run : string).

Definition store_step (sha256 : string → string) (m : CheckpointManager) (o : store_op) : CheckpointManager :=
  match o with
  | SCreate t id run ty snap o => (createCheckpoint sha256 m t id run ty snap o).1.1
  | SCapture t0 t1 id run ty snap ctrl step res =>
      (captureCheckpoint sha256 m t0 t1 id run ty snap ctrl step res).1.1
  | SMark now run id res => (markCheckpointCompleted m now run id res).1
  | SClear run => clearRun m run
  end.

Lemma store_ok_step sha256 m o : store_ok m → store_ok (store_step sha256 m o).
Proof.
  intros Hm. destruct o as [t id run ty snap o|t0 t1 id run ty snap ctrl step res|now run id res|run]; simpl.
  - by apply store_ok_create.
  - unfold captureCheckpoint.
    pose proof (store_ok_create sha256 m t0 id run ty snap
      (CpOptions (captureControlSnapshot ctrl) (Some step) None) Hm) as H.
    destruct (createCheckpoint _ _ _ _ _ _ _ _) as [[m' c] d]. simpl in *. destruct d; [done|].
    apply store_ok_alter; [done|]. intros l. by apply update_last_keys.
  - unfold markCheckpointCompleted. destruct (getCheckpoint m run id); [|done]. simpl.
    apply store_ok_alter; [done|]. intros l. by apply update_id_keys.
  - destruct Hm as (Hw & Hnd & Hk & Hp & Hl). pose proof (stored_keys_default (checkpoints m) run) as E.
    fold (getAllCheckpoints m run) in E. rewrite E in Hnd. apply NoDup_app in Hnd as (_ & Hdis & Hnd).
    split; [by apply mwf_delete|]. simpl. split; [done|split; [|split; [done|by apply mall_delete]]].
    intros k. rewrite elem_of_difference, Hk, E, elem_of_app, elem_of_list_to_set.
    split; [naive_solver|]. intros Hin. split; [by right|]. intros Hin'. by apply (Hdis k).
Qed.

(** The checkpoint store stays consistent.  After any sequence of
    creations, captures, completions and clean-ups, the set of idempotency keys
    is exactly the set of keys of the stored checkpoints, no two stored
    checkpoints share a key, and no run holds more than [maxCheckpoints]. *)
Theorem checkpoint_store_consistent sha256 max ops :
  let m := run (store_step sha256) (new_manager max) ops in
  (∀ k, isIdempotent m k = true ↔ k ∈ stored_keys (checkpoints m)) ∧
  NoDup (stored_keys (checkpoints m)) ∧
  ∀ run', (length (getAllCheckpoints m run') ≤ maxCheckpoints m)%nat.
Proof.
  cbn zeta. assert (store_ok (run (store_step sha256) (new_manager max) ops)) as (Hw & Hnd & Hk & Hp & Hl).
  { apply run_invariant_all; [intros; by apply store_ok_step|]. split; [apply mwf_nil|]. simpl.
    split; [constructor|split; [set_solver|split; [|apply mall_nil]]]. destruct max as [[|n]|]; lia. }
  split; [|split; [done|]].
  - intros k. unfold isIdempotent. by rewrite bool_decide_eq_true.
  - intros run'. unfold getAllCheckpoints. destruct (mget _ run') eqn:E; simpl; [by eapply Hl|lia].
Qed.

(** ** Properties of validation *)

(** What validation promises about an accepted checkpoint. *)
Definition trusted (sha256 : string → string) (now : Z) (run : string) (maxAge : Z) (c : checkpoint) : Prop :=
  (run ≠ ""%string → cp_runId c = JStr run) ∧ is_num (stepNumber c) = true ∧
  is_objlike (stateSnapshot c) = true ∧ version c = JNum 1 ∧ completed c = true ∧
  (∃ ts, timestamp c = Some ts ∧ (now - ts ≤ maxAge)%Z) ∧
  (integrity c = ""%string ∨
   integrity c = checkpointIntegrity sha256 (cp_runId c) (type c) (stepNumber c) (stateSnapshot c)).

Lemma validate_trusted sha256 now cp run maxAge c :
  validateCheckpoint sha256 now cp run maxAge = Valid c →
  cp = Some c ∧ trusted sha256 now run (default CHECKPOINT_MAX_AGE_MS maxAge) c.
Proof.
  unfold validateCheckpoint. destruct cp as [c0|]; [|done].
  destruct (negb (is_string _ && _ && _ && _)) eqn:H1; [done|].
  destruct (truthy_str run && _) eqn:H2; [done|]. destruct (version_ok (version c0)) eqn:H3; [|done].
  destruct (completed c0) eqn:H4; simpl; [|done]. destruct (timestamp c0) as [ts|] eqn:H5; [|done].
  destruct (decide (default CHECKPOINT_MAX_AGE_MS maxAge < now - ts)%Z) as [H6|H6]; [done|]. destruct (truthy_str (integrity c0) && _) eqn:H7; [done|].
  intros [= <-]. split; [done|]. apply negb_false_iff in H1. rewrite !andb_true_iff in H1.
  destruct H1 as [[[_ _] Hn] Ho]. split; [|split; [done|split; [done|split; [|split; [done|split]]]]].
  - intros Hr. destruct run as [|a run]; [done|]. simpl in H2. by apply negb_false_iff, bool_decide_eq_true in H2.
  - destruct (version c0) as [| | |v| | |]; try done. apply bool_decide_eq_true in H3.
    unfold CHECKPOINT_VERSION in H3. f_equal. lia.
  - exists ts. split; [done|lia].
  - destruct (integrity c0) as [|a s] eqn:Ei; [by left|right]. simpl in H7.
    apply negb_false_iff, String.eqb_eq in H7. done.
Qed.

(** What a validated checkpoint guarantees.  A checkpoint the code creates
    and marks completed is accepted for its own run until it is a week old; an
    accepted one is of the requested run, completed, not stale, of version 1,
    well shaped, and its integrity field is either the digest of run, type,
    step and snapshot, or empty: a checkpoint whose integrity field has been
    blanked is accepted whatever its snapshot says. *)
Theorem checkpoint_validation sha256 now cp run maxAge c :
  validateCheckpoint sha256 now cp run maxAge = Valid c →
  trusted sha256 now run (default CHECKPOINT_MAX_AGE_MS maxAge) c ∧
  (∀ t id ty snap o t1 res, is_objlike snap = true → (now - t ≤ default CHECKPOINT_MAX_AGE_MS maxAge)%Z →
     let c' := markCompleted t1 res (new_checkpoint sha256 t id run ty snap o) in
     validateCheckpoint sha256 now (Some c') run maxAge = Valid c') ∧
  (∀ forged, is_objlike forged = true →
     let c' := c <| stateSnapshot := forged |> <| integrity := ""%string |> in
     validateCheckpoint sha256 now (Some c') run maxAge = Valid c').
Proof.
  intros H. pose proof (validate_trusted _ _ _ _ _ _ H) as [-> Ht]. split; [done|]. split.
  - intros t id ty snap o t1 res Hs Hage. simpl. rewrite Hs. simpl.
    rewrite (bool_decide_true (JStr run = JStr run)) by done. rewrite andb_false_r. simpl.
    rewrite decide_False by lia. rewrite String.eqb_refl, andb_false_r. done.
  - intros forged Hf. cbn zeta. revert H. unfold validateCheckpoint. simpl. rewrite Hf.
    destruct Ht as (_ & _ & Ho & _). rewrite Ho.
    destruct (negb (is_string _ && _ && _ && _)); [done|]. destruct (truthy_str run && _); [done|].
    destruct (negb (version_ok _)); [done|]. destruct (negb (completed c)); [done|].
    destruct (timestamp c); [|done]. by case_decide.
Qed.

Definition sample_checkpoint : checkpoint :=
  markCompleted 5 JUndef (new_checkpoint id 4 "cp-1" "run-1" "step_complete" (JObj [("a", JNum 1)])
    (CpOptions JNull (Some 3%Z) None)).

Lemma checkpoint_validation_witness :
  validateCheckpoint id 10 (Some sample_checkpoint) "run-1" None = Valid sample_checkpoint ∧
  let c' := sample_checkpoint <| stateSnapshot := JObj [("a", JNum 2)] |> <| integrity := ""%string |> in
  validateCheckpoint id 10 (Some c') "run-1" None = Valid c'.
Proof.
  split; [vm_compute; reflexivity|].
  exact (proj2 (proj2 (checkpoint_validation id 10 (Some sample_checkpoint) "run-1" None sample_checkpoint eq_refl))
    (JObj [("a", JNum 2)]) eq_refl).
Defined.

(** ** Properties of restoring *)

(** Every prefix of the path reaches an object. *)
Fixpoint path_ok (o : jsval) (p : list string) : Prop :=
  match p with
  | [] => True
  | k :: p' => is_obj o = true ∧ (p' = [] ∨ path_ok (prop o k) p')
  end.

Definition disjoint_paths (p q : list string) : Prop := ¬ p `prefix_of` q ∧ ¬ q `prefix_of` p.

Lemma prop_set_eq o k v : is_obj o = true → prop (set_prop o k v) k = v.
Proof. destruct o; try done. intros _. simpl. by rewrite mget_set_eq. Qed.

Lemma prop_set_ne o k k' v : k ≠ k' → prop (set_prop o k v) k' = prop o k'.
Proof. destruct o; try done. intros Hk. simpl. by rewrite mget_set_ne. Qed.

Lemma is_obj_set o k v : is_obj (set_prop o k v) = is_obj o.
Proof. by destruct o. Qed.

Lemma get_set_path o p v : path_ok o p → get_path (set_path o p v) p = v.
Proof.
  revert o. induction p as [|k p IH]; intros o; simpl; [done|]. intros [Ho Hp].
  rewrite prop_set_eq by done. destruct Hp as [->|Hp]; [done|auto].
Qed.

Lemma get_set_path_ne o p q v : disjoint_paths p q → get_path (set_path o p v) q = get_path o q.
Proof.
  revert o q. induction p as [|k p IH]; intros o q [H1 H2]; [by destruct H1; apply prefix_nil|].
  destruct q as [|j q]; [by destruct H2; apply prefix_nil|]. simpl.
  destruct (decide (k = j)) as [->|Hk]; [|by rewrite prop_set_ne].
  destruct o; simpl; try done. rewrite mget_set_eq. simpl. apply IH.
  split; intros H; [apply H1|apply H2]; by apply prefix_cons.
Qed.

Lemma path_ok_set o p q v : disjoint_paths p q → path_ok o q → path_ok (set_path o p v) q.
Proof.
  revert o q. induction p as [|k p IH]; intros o q [H1 H2]; [by destruct H1; apply prefix_nil|].
  destruct q as [|j q]; [done|]. simpl. intros [Ho Hq]. rewrite is_obj_set. split; [done|].
  destruct Hq as [->|Hq]; [by left|right].
  destruct (decide (k = j)) as [->|Hk]; [|by rewrite prop_set_ne].
  rewrite prop_set_eq by done. apply IH; [|done].
  split; intros H; [apply H1|apply H2]; by apply prefix_cons.
Qed.

Section Rules.
Context (snap : jsval).

Lemma apply_rule_ne rt r q : disjoint_paths (r_path r) q → get_path (apply_rule snap rt r) q = get_path rt q.
Proof. intros H. unfold apply_rule. destruct (r_guard r _); [by apply get_set_path_ne|done]. Qed.

Lemma apply_rules_ne rs rt q :
  Forall (λ r, disjoint_paths (r_path r) q) rs → get_path (foldl (apply_rule snap) rt rs) q = get_path rt q.
Proof.
  intros H. revert rt. induction H as [|r rs Hr _ IH]; intros rt; simpl; [done|].
  rewrite IH. by apply apply_rule_ne.
Qed.

Lemma apply_rules_ok rs rt q :
  Forall (λ r, disjoint_paths (r_path r) q) rs → path_ok rt q → path_ok (foldl (apply_rule snap) rt rs) q.
Proof.
  intros H. revert rt. induction H as [|r rs Hr _ IH]; intros rt Hq; simpl; [done|]. apply IH.
  unfold apply_rule. destruct (r_guard r _); [by apply path_ok_set|done].
Qed.

Lemma apply_rules_at rs1 r rs2 rt :
  Forall (λ r', disjoint_paths (r_path r') (r_path r)) (rs1 ++ rs2) → path_ok rt (r_path r) →
  get_path (foldl (apply_rule snap) rt (rs1 ++ r :: rs2)) (r_path r) =
    let v := get_path snap (r_path r) in if r_guard r v then r_conv r v else get_path rt (r_path r).
Proof.
  intros [H1 H2]%Forall_app Hp. rewrite foldl_app. simpl. rewrite apply_rules_ne by done.
  unfold apply_rule at 1. cbn zeta.
  destruct (r_guard r _); [|by apply apply_rules_ne]. apply get_set_path. by apply apply_rules_ok.
Qed.
End Rules.

Lemma path_ok_set_same o p v : path_ok o p → path_ok (set_path o p v) p.
Proof.
  revert o. induction p as [|k p IH]; intros o; simpl; [done|]. intros [Ho Hp]. rewrite is_obj_set.
  split; [done|]. destruct Hp as [->|Hp]; [by left|right]. rewrite prop_set_eq by done. by apply IH.
Qed.

Lemma apply_rules_keep snap rs rt q :
  Forall (λ r, r_path r = q ∨ disjoint_paths (r_path r) q) rs → path_ok rt q →
  path_ok (foldl (apply_rule snap) rt rs) q.
Proof.
  intros H. revert rt. induction H as [|r rs Hr _ IH]; intros rt Hq; simpl; [done|]. apply IH.
  unfold apply_rule. destruct (r_guard r _); [|done]. destruct Hr as [Hr|Hr]; [|by apply path_ok_set].
  rewrite Hr. by apply path_ok_set_same.
Qed.

#[export] Instance disjoint_paths_dec p q : Decision (disjoint_paths p q) := _.

(** The snapshot rules write to pairwise independent places. *)
Definition rules_disjoint : bool :=
  forallb (λ i, match snapshot_rules !! i with
    | Some r => bool_decide (Forall (λ r', disjoint_paths (r_path r') (r_path r))
                  (take i snapshot_rules ++ drop (S i) snapshot_rules)) &&
                bool_decide (disjoint_paths ["updatedAt"%string] (r_path r))
    | None => true end) (seq 0 (length snapshot_rules)).

Lemma rules_disjoint_true : rules_disjoint = true.
Proof. vm_compute. reflexivity. Qed.

Lemma restored_path_ok now rt snap rt' q :
  applySnapshotToRuntime now rt snap = Ok rt' →
  Forall (λ r, r_path r = q ∨ disjoint_paths (r_path r) q) snapshot_rules →
  disjoint_paths ["updatedAt"%string] q → path_ok rt q → path_ok rt' q.
Proof.
  unfold applySnapshotToRuntime. generalize snapshot_rules. intros rs Ea Hrs Hu Hp.
  destruct (negb _); [done|]. destruct (negb _); [done|].
  assert (set_path (foldl (apply_rule snap) rt rs) ["updatedAt"%string] (JNum now) = rt') as <-
    by congruence.
  apply path_ok_set; [done|]. by apply apply_rules_keep.
Qed.

Lemma snapshot_effect now rt snap rt' :
  applySnapshotToRuntime now rt snap = Ok rt' →
  (∀ r, r ∈ snapshot_rules → path_ok rt (r_path r) →
     get_path rt' (r_path r) =
       let v := get_path snap (r_path r) in
       if r_guard r v then r_conv r v else get_path rt (r_path r)) ∧
  (∀ q, Forall (λ r, disjoint_paths (r_path r) q) snapshot_rules →
        disjoint_paths ["updatedAt"%string] q → get_path rt' q = get_path rt q).
Proof.
  unfold applySnapshotToRuntime. destruct (is_objlike snap); [|done]. cbn [negb].
  destruct (truthy_val (prop snap "task")); cbn [negb andb]; [|done].
  destruct (truthy_val (prop snap "execution")); cbn [negb andb]; [|done].
  destruct (truthy_val (prop snap "budget")); cbn [negb andb]; [|done]. intros E.
  assert (set_path (foldl (apply_rule snap) rt snapshot_rules) ["updatedAt"%string] (JNum now) = rt') as <-
    by congruence.
  split.
  - intros r Hr Hp. apply list_elem_of_lookup in Hr as [i Hi].
    pose proof rules_disjoint_true as Hd. unfold rules_disjoint in Hd. rewrite forallb_forall in Hd.
    specialize (Hd i). rewrite Hi in Hd. rewrite andb_true_iff, !bool_decide_eq_true in Hd.
    destruct Hd as [Hd Hu]; [apply list_elem_of_In, elem_of_seq; apply lookup_lt_Some in Hi; lia|].
    rewrite get_set_path_ne by done.
    rewrite <- (take_drop_middle snapshot_rules i r Hi). by apply apply_rules_at.
  - intros q Hq Hu. rewrite get_set_path_ne by done. by apply apply_rules_ne.
Qed.


(** A snapshot is restored exactly.  When the snapshot has its task,
    execution and budget sections, every restored field (status, spend, token
    and step counters, model, context, memory, metadata...) takes the
    snapshot's value when that passes the field's guard, and keeps the live
    value otherwise; nothing else of the live state changes but [updatedAt];
    without those sections the restore fails and changes nothing. *)
Theorem snapshot_restored now rt snap :
  match applySnapshotToRuntime now rt snap with
  | Ok rt' =>
      (∀ r, r ∈ snapshot_rules → path_ok rt (r_path r) →
         get_path rt' (r_path r) =
           let v := get_path snap (r_path r) in
           if r_guard r v then r_conv r v else get_path rt (r_path r)) ∧
      (∀ q, Forall (λ r, disjoint_paths (r_path r) q) snapshot_rules →
            disjoint_paths ["updatedAt"%string] q → get_path rt' q = get_path rt q)
  | Throw _ => is_objlike snap = false ∨ truthy_val (prop snap "task") = false ∨
      truthy_val (prop snap "execution") = false ∨ truthy_val (prop snap "budget") = false
  end.
Proof.
  destruct (applySnapshotToRuntime now rt snap) as [rt'|e] eqn:E; [by apply (snapshot_effect now)|].
  revert E. unfold applySnapshotToRuntime. destruct (is_objlike snap); [|by left]. cbn [negb].
  destruct (truthy_val (prop snap "task")); cbn [negb andb]; [|by auto].
  destruct (truthy_val (prop snap "execution")); cbn [negb andb]; [|by auto].
  destruct (truthy_val (prop snap "budget")); cbn [negb andb]; [done|by auto].
Qed.
(** ** Properties of recovery *)

Lemma getCheckpoint_elem m run id c :
  getCheckpoint m run id = Some c → c ∈ getAllCheckpoints m run ∧ checkpointId c = id.
Proof.
  unfold getCheckpoint. destruct (list_find _ _) as [[i c']|] eqn:E; [|done]. intros [= <-].
  apply list_find_Some in E as (Hi & Hid & _). split; [by eapply list_elem_of_lookup_2|done].
Qed.

Lemma getCheckpoint_unique m run c :
  NoDup (checkpointId <$> getAllCheckpoints m run) → c ∈ getAllCheckpoints m run →
  getCheckpoint m run (checkpointId c) = Some c.
Proof.
  unfold getCheckpoint. generalize (getAllCheckpoints m run). intros l Hnd Hin.
  induction l as [|c' l IH]; [by apply not_elem_of_nil in Hin|]. simpl.
  case_decide as E; simpl.
  - apply elem_of_cons in Hin as [->|Hin]; [done|]. exfalso. simpl in Hnd.
    apply NoDup_cons in Hnd as [Hn _]. apply Hn. rewrite E. by apply list_elem_of_fmap_2.
  - apply elem_of_cons in Hin as [->|Hin]; [done|]. simpl in Hnd. apply NoDup_cons in Hnd as [_ Hnd].
    specialize (IH Hnd Hin). destruct (list_find _ l) as [[i x]|]; [|done]. simpl in *. done.
Qed.

Lemma getLastCompleted_elem m run ty c :
  getLastCompletedCheckpoint m run ty = Some c →
  c ∈ getAllCheckpoints m run ∧ completed c = true ∧ of_type ty c = true.
Proof.
  unfold getLastCompletedCheckpoint. destruct (list_find _ _) as [[i c']|] eqn:E; [|done]. intros [= <-].
  apply list_find_Some in E as (Hi & [Hc Ht] & _). apply list_elem_of_lookup_2 in Hi.
  rewrite elem_of_reverse in Hi. done.
Qed.

Lemma toPlan_action d cur :
  (pl_action (toPlan d cur) = skip_completed ↔ d.1 = RecoveryDecision.SKIP) ∧
  (pl_action (toPlan d cur) = resume ↔ d.1 = RecoveryDecision.RESUME) ∧
  (pl_action (toPlan d cur) = retry_step ↔ d.1 = RecoveryDecision.RETRY) ∧ pl_cursor (toPlan d cur) = cur.
Proof. unfold toPlan. by destruct d.1. Qed.

(** A plan that runs an in-doubt action again only does so when it is safe. *)
Lemma plan_rerun_safe v r store h h' :
  in_doubt r → pl_action (planRecovery v r store h h') = resume ∨
               pl_action (planRecovery v r store h h') = retry_step →
  te_destructive r = false ∧ te_idempotent r = true ∧ both_differ h h' = false.
Proof.
  intros Hd. pose proof (decideRecovery_in_doubt r (known_completed store r) h h' Hd) as E.
  assert (∀ cur, pl_action (toPlan (decideRecovery (Some r) (known_completed store r) h h') cur) = resume ∨
    pl_action (toPlan (decideRecovery (Some r) (known_completed store r) h h') cur) = retry_step →
    te_destructive r = false ∧ te_idempotent r = true ∧ both_differ h h' = false) as Hp.
  { intros cur. destruct (toPlan_action (decideRecovery (Some r) (known_completed store r) h h') cur)
      as (_ & H1 & H2 & _). rewrite H1, H2, E.
    destruct (known_completed store r), (te_destructive r), (te_idempotent r), (both_differ h h');
      simpl; intros [?|?]; done. }
  assert (is_state r SideEffectState.NOT_STARTED = false) as Hn.
  { unfold is_state. by destruct Hd as [-> | ->]. }
  unfold planRecovery. destruct v as [c|code error]; [apply Hp|].
  case_decide; [naive_solver|]. case_decide; [|naive_solver]. rewrite Hn. apply Hp.
Qed.

Lemma plan_skip_proven v r store h h' :
  pl_action (planRecovery v r store h h') = skip_completed → known_completed store r = true.
Proof.
  assert (∀ cur, pl_action (toPlan (decideRecovery (Some r) (known_completed store r) h h') cur)
    = skip_completed → known_completed store r = true) as Hp.
  { intros cur. destruct (toPlan_action (decideRecovery (Some r) (known_completed store r) h h') cur)
      as (H & _). rewrite H. by apply crash_rule. }
  unfold planRecovery. destruct v as [c|code error]; [apply Hp|].
  case_decide; [done|]. case_decide; [|done]. destruct (is_state _ _); [done|apply Hp].
Qed.

Lemma blocked_false a :
  blocked a = false → a = ask_user ∨ a = mark_unknown ∨ a = unrecoverable → False.
Proof. unfold blocked. intros H%bool_decide_eq_false Ha. by apply H. Qed.

(** The effect record a recovery looks at. *)
Definition effect_of (toolRecord : option tool_effect) (ctrl : control) : tool_effect :=
  match toolRecord with Some r => r | None => default defaultToolRecord (c_lastToolEffect ctrl) end.

(** What a restore from checkpoint [c] leaves in the runtime. *)
Lemma restore_effect t rt snap rt1 n :
  applySnapshotToRuntime t rt snap = Ok rt1 →
  let rt2 := restore_cursor rt1 n in
  (path_ok rt ["execution"; "currentStep"]%string →
     get_path rt2 ["execution"; "currentStep"]%string = JNum n) ∧
  (path_ok rt ["budget"; "currentSpend"]%string →
     is_num (get_path snap ["budget"; "currentSpend"]%string) = true →
     get_path rt2 ["budget"; "currentSpend"]%string = get_path snap ["budget"; "currentSpend"]%string).
Proof.
  intros Ea. destruct (snapshot_effect t rt snap rt1 Ea) as [Hs Hother]. cbn zeta. unfold restore_cursor.
  assert (disjoint_paths ["execution"; "totalSteps"]%string ["execution"; "currentStep"]%string) as D1
    by (apply (bool_decide_unpack _); vm_compute; exact I).
  assert (disjoint_paths ["execution"; "totalSteps"]%string ["budget"; "currentSpend"]%string) as D2
    by (apply (bool_decide_unpack _); vm_compute; exact I).
  assert (disjoint_paths ["execution"; "currentStep"]%string ["budget"; "currentSpend"]%string) as D3
    by (apply (bool_decide_unpack _); vm_compute; exact I).
  split.
  - intros Hp. rewrite get_set_path_ne by done. apply get_set_path.
    eapply restored_path_ok; [done| | |done]; apply (bool_decide_unpack _); vm_compute; exact I.
  - intros Hp Hnum. rewrite !get_set_path_ne by done.
    pose proof (Hs (num ["budget"; "currentSpend"]%string)) as E. cbn [num r_path r_guard r_conv same] in E.
    rewrite E; [by rewrite Hnum|by apply (list_elem_of_lookup_2 _ 22)|done].
Qed.

(** C13: recovery is sound.  If a run's checkpoint ids are distinct: state is
    only restored from a checkpoint that validates at that moment; the cursor
    is that checkpoint's step, the live cursor equals it and the spend is the
    snapshot's; a recovery that needs the operator changes neither runtime nor
    control state; an action in doubt is resumed or retried only if it is
    recorded as neither destructive nor non-idempotent and the workspace did
    not change; and an action is skipped only with proof in the idempotency
    store that it completed. *)
Theorem recovery_sound sha256 m maxAge t0 t1 run rt ctrl store toolRecord cpId h h' :
  NoDup (checkpointId <$> getAllCheckpoints m run) →
  let out := recover sha256 m maxAge t0 t1 run rt ctrl store toolRecord cpId h h' in
  let r := effect_of toolRecord ctrl in
  (out_restored out = true → ∃ c n, out_checkpoint out = Some c ∧ trusted sha256 t1 run maxAge c ∧
     stepNumber c = JNum n ∧ out_cursor out = Some n ∧
     (path_ok rt ["execution"; "currentStep"]%string →
        get_path (out_runtime out) ["execution"; "currentStep"]%string = JNum n) ∧
     (path_ok rt ["budget"; "currentSpend"]%string →
        is_num (get_path (stateSnapshot c) ["budget"; "currentSpend"]%string) = true →
        get_path (out_runtime out) ["budget"; "currentSpend"]%string
          = get_path (stateSnapshot c) ["budget"; "currentSpend"]%string)) ∧
  (pl_action (out_plan out) = ask_user ∨ pl_action (out_plan out) = mark_unknown ∨
   pl_action (out_plan out) = unrecoverable →
     out_runtime out = rt ∧ out_control out = ctrl ∧ out_restored out = false) ∧
  (in_doubt r → pl_action (out_plan out) = resume ∨ pl_action (out_plan out) = retry_step →
     te_destructive r = false ∧ te_idempotent r = true ∧ both_differ h h' = false) ∧
  (pl_action (out_plan out) = skip_completed → known_completed store r = true).
Proof.
  intros Hnd. cbn zeta. unfold recover. fold (effect_of toolRecord ctrl).
  set (r := effect_of toolRecord ctrl).
  set (raw := if truthy cpId then getCheckpoint m run (default "" cpId)%string
              else getLastCompletedCheckpoint m run None).
  assert (∀ c, raw = Some c → c ∈ getAllCheckpoints m run) as Hraw.
  { intros c. unfold raw. destruct (truthy cpId); intros E; [by eapply getCheckpoint_elem|].
    by eapply getLastCompleted_elem. }
  destruct (blocked (pl_action (planRecovery (validateCheckpoint sha256 t0 raw run None) r store h h'))) eqn:Eb.
  { cbn [out_plan out_restored out_runtime out_control].
    split; [done|split; [done|split]]; [intros Hd; by apply plan_rerun_safe|apply plan_skip_proven]. }
  destruct (validateCheckpoint sha256 t0 raw run None) as [c|code error] eqn:Ev.
  2: { cbn [out_plan out_restored out_runtime out_control].
    split; [done|split; [by intros ?%(blocked_false _ Eb)|split]];
      [intros Hd; by apply plan_rerun_safe|apply plan_skip_proven]. }
  destruct (recoverFromCheckpoint sha256 m t1 run (checkpointId c) rt maxAge) as [[[c' rt'] control']|[code error]] eqn:Er.
  2: { cbn [out_plan out_restored out_runtime out_control pl_action].
    split; [done|split; [done|split]]; [intros _ [|]; done|done]. }
  cbn [out_plan out_restored out_runtime out_control out_checkpoint out_cursor].
  split; [|split; [by intros ?%(blocked_false _ Eb)|split]]; [|intros Hd; by apply plan_rerun_safe|apply plan_skip_proven].
  intros _. apply validate_trusted in Ev as [Eraw Ht0]. unfold recoverFromCheckpoint in Er.
  rewrite (getCheckpoint_unique m run c Hnd (Hraw c Eraw)) in Er.
  destruct (validateCheckpoint sha256 t1 (Some c) run (Some maxAge)) as [c1|] eqn:Ev1; [|done].
  apply validate_trusted in Ev1 as [[= <-] Ht1].
  destruct (applySnapshotToRuntime t1 rt (stateSnapshot c)) as [rt1|e] eqn:Ea; [|done].
  injection Er as <- <- <-. destruct Ht0 as (_ & Hn & _). destruct (stepNumber c) as [| | |n| | |] eqn:En; try done.
  exists c, n. split; [done|split; [done|split; [done|]]].
  assert (pl_cursor (planRecovery (Valid c) r store h h') = Some n) as Ecur.
  { unfold planRecovery. rewrite (proj2 (proj2 (proj2 (toPlan_action _ _)))), En. done. }
  rewrite Ecur. split; [done|].
  by eapply restore_effect.
Qed.

Definition sample_snapshot : jsval :=
  JObj [("task", JObj [("status", JStr "EXECUTING")]); ("budget", JObj [("currentSpend", JNum 7)]);
        ("execution", JObj [("currentStep", JNum 3)])]%string.

Definition sample_control : control :=
  Control [] [] no_tokens 0 0 [] 0 false "" JNull None.

Definition sample_manager : CheckpointManager :=
  (captureCheckpoint id (new_manager None) 4 5 "cp-1" "run-1" "step_complete" sample_snapshot
     sample_control 3 JNull).1.1.

Definition sample_runtime : jsval :=
  JObj [("task", JObj []); ("budget", JObj [("currentSpend", JNum 1)]); ("execution", JObj [])]%string.

Lemma recovery_sound_witness :
  let out := recover id sample_manager CHECKPOINT_MAX_AGE_MS 9 9 "run-1" sample_runtime sample_control
    None None None None None in
  out_restored out = true ∧
  ∃ c n, out_checkpoint out = Some c ∧ out_cursor out = Some n ∧
    get_path (out_runtime out) ["budget"; "currentSpend"]%string = JNum 7.
Proof.
  cbn zeta. split; [vm_compute; reflexivity|].
  destruct (recovery_sound id sample_manager CHECKPOINT_MAX_AGE_MS 9 9 "run-1" sample_runtime sample_control
    None None None None None) as [H _].
  - vm_compute. constructor; [intros Hin; inversion Hin|constructor].
  - destruct H as (c & n & H1 & _ & _ & H2 & _); [vm_compute; reflexivity|]. exists c, n.
    split; [exact H1|split; [exact H2|vm_compute; reflexivity]].
Defined.

(** ** The control snapshot *)

Lemma to_set_nodup (acc xs : list string) : NoDup (acc ++ xs) →
  foldl (λ acc x, if decide (x ∈ acc) then acc else acc ++ [x]) acc xs = acc ++ xs.
Proof.
  revert acc. induction xs as [|x xs IH]; intros acc Hnd; simpl; [by rewrite app_nil_r|].
  rewrite decide_False.
  - rewrite IH by (by rewrite <- app_assoc). by rewrite <- app_assoc.
  - intros Hin. apply NoDup_app in Hnd as (_ & Hd & _). apply (Hd x Hin). set_solver.
Qed.

Lemma strings_of_JStr xs : strings_of (JArr (JStr <$> xs)) = xs.
Proof. simpl. induction xs as [|x xs IH]; simpl; [done|]. by f_equal. Qed.

Lemma copies_objs l : Forall (λ v, is_obj v = true) l → copy_obj <$> l = l.
Proof.
  induction 1 as [|v l Hv _ IH]; [done|]. rewrite fmap_cons, IH. by destruct v.
Qed.

Lemma substring_all n s : String.length s ≤ n → String.substring 0 n s = s.
Proof. revert n. induction s as [|c s IH]; intros [|n] Hn; simpl in *; try done; [lia|]. rewrite IH; [done|lia]. Qed.

Lemma restore_fields live m h t tc rt tm cc hb lu lat :
  is_objlike t = true →
  restoreControlSnapshot live (JObj [("messages", JArr m); ("history", JArr h); ("tokens", t);
    ("toolCalls", JNum tc); ("retries", JNum rt); ("triedModels", JArr (JStr <$> tm));
    ("completedCheckpoints", JNum cc); ("heuristicToolUsed", JBool hb); ("lastUserMessage", JStr lu);
    ("latency", lat)])%string =
  Control (copy_obj <$> m) (copy_obj <$> h) (copy_obj t) tc rt (to_set tm) cc hb lu
    (if is_objlike lat then merge_obj (c_latency live) lat else c_latency live) (c_lastToolEffect live).
Proof.
  intros Ht. rewrite <- (strings_of_JStr tm) at 2. unfold restoreControlSnapshot. simpl. by rewrite Ht.
Qed.

(** Resuming continues the same conversation.  Restoring a captured control
    snapshot onto any control record gives back the captured conversation
    (messages and history up to 300 entries), token totals, tool-call, retry and
    checkpoint counters, tried models, the tool flag and the last user message;
    the last tool effect, which recovery reads, is left as it was. *)
Theorem control_roundtrip c live :
  (length (c_messages c) ≤ 300)%nat → (length (c_history c) ≤ 300)%nat →
  Forall (λ v, is_obj v = true) (c_messages c) → Forall (λ v, is_obj v = true) (c_history c) →
  is_obj (c_tokens c) = true → NoDup (c_triedModels c) →
  (N.of_nat (String.length (c_lastUserMessage c)) ≤ 4000)%N →
  let c' := restoreControlSnapshot live (captureControlSnapshot c) in
  c_messages c' = c_messages c ∧ c_history c' = c_history c ∧ c_tokens c' = c_tokens c ∧
  c_toolCalls c' = c_toolCalls c ∧ c_retries c' = c_retries c ∧ c_triedModels c' = c_triedModels c ∧
  c_completedCheckpoints c' = c_completedCheckpoints c ∧
  c_heuristicToolUsed c' = c_heuristicToolUsed c ∧ c_lastUserMessage c' = c_lastUserMessage c ∧
  c_lastToolEffect c' = c_lastToolEffect live.
Proof.
  intros Hm Hh Hmo Hho Ht Hnd Hu. cbn zeta. unfold captureControlSnapshot, slice0.
  rewrite (slice_last_all 300 (c_messages c) Hm), (slice_last_all 300 (c_history c) Hh).
  rewrite (substring_all 4000 (c_lastUserMessage c)) by lia.
  assert (truthy_val (c_tokens c) = true ∧ copy_obj (c_tokens c) = c_tokens c ∧
    is_objlike (c_tokens c) = true) as (E1 & E2 & E3) by (by destruct (c_tokens c)).
  rewrite E1, restore_fields; cbn [c_messages c_history c_tokens c_toolCalls c_retries c_triedModels
    c_completedCheckpoints c_heuristicToolUsed c_lastUserMessage c_lastToolEffect]; [|by rewrite E2].
  rewrite !copies_objs by (rewrite ?copies_objs by done; done).
  rewrite !E2. unfold to_set. by rewrite to_set_nodup.
Qed.

Lemma control_roundtrip_witness :
  let c := sample_control <| c_toolCalls := 4%Z |> <| c_triedModels := ["m1"; "m2"]%string |> in
  c_triedModels (restoreControlSnapshot sample_control (captureControlSnapshot c)) = ["m1"; "m2"]%string.
Proof.
  cbn zeta.
  destruct (control_roundtrip (sample_control <| c_toolCalls := 4%Z |> <| c_triedModels := ["m1"; "m2"]%string |>)
    sample_control) as (_ & _ & _ & _ & _ & E & _); [simpl; lia|simpl; lia|constructor|constructor|reflexivity| |vm_compute; discriminate|].
  - vm_compute. constructor; [|constructor; [|constructor]]; intros Hin; inversion Hin as [|? ? ? Hin']; inversion Hin'.
  - exact E.
Defined.
