(* ===== verification/Privacy.v ===== *)
(** Keeping secrets and content out of what is stored:
    backend/src/privacy.js (what a project's retention mode lets through) and
    the redaction of tool inputs in backend/src/execution/environment.js.

    The regular expressions are written out as scanners over ASCII strings. *)

From S2P Require Import Prelude JsMap JsValue Text ToolSystem.

Local Open Scope string_scope.

(** ** Redaction of tool inputs *)

Module Redaction.

Definition opt_sep (a b : string) : list string := [a ++ b; a ++ "_" ++ b; a ++ "-" ++ b].

(* [src/backend/src/execution/environment.js:23-23] SECRET_KEY_RE *)
Definition SECRET_KEY_RE (k : string) : bool :=
  existsb (λ w, contains w (to_lower k))
    (opt_sep "api" "key" ++ ["secret"; "token"; "password"; "passwd"; "bearer"; "authorization"]
     ++ opt_sep "private" "key" ++ opt_sep "client" "secret")%list.

(** The longest prefix of [s] in the class [f], and the rest. *)
Fixpoint span (f : ascii → bool) (s : string) : string * string :=
  match s with
  | String c s' => if f c then let (a, b) := span f s' in (String c a, b) else ("", s)
  | EmptyString => ("", "")
  end.

Definition head_char (s : string) : option ascii :=
  match s with String c _ => Some c | EmptyString => None end.

Definition word_at (c : option ascii) : bool := match c with Some c => is_word c | None => false end.

(** Global replacement: [m prev s] is a match at the start of [s], after the
    character [prev]: the replacement and the number of characters consumed
    beyond the first. *)
Fixpoint replace_all (m : option ascii → string → option (string * nat)) (skip : nat)
    (prev : option ascii) (s : string) : string :=
  match s with
  | EmptyString => ""
  | String c s' =>
      match skip with
      | S n => replace_all m n (Some c) s'
      | O => match m prev s with
             | Some (r, n) => r ++ replace_all m n (Some c) s'
             | None => String c (replace_all m 0 (Some c) s')
             end
      end
  end.

Definition lower_alpha (c : ascii) : bool := let c := lower_char c in is_alpha_ c && negb (Ascii.eqb c "_"%char).
Definition alnum (c : ascii) : bool := is_word c && negb (Ascii.eqb c "_"%char).

(** A scheme at a word boundary, "://", a user, optionally ":" and a password,
    and "@"; ignoring case. *)
(* [src/backend/src/execution/environment.js:24-24] URL_CREDS_RE *)
Definition URL_CREDS_RE (prev : option ascii) (s : string) : option (string * nat) :=
  match s with
  | String c _ =>
      if negb (word_at prev) && lower_alpha c then
        let (scheme, r) := span (λ c, alnum c || one_of "+.-" c) s in
        if starts_with "://" r then
          let (user, r) := span (λ c, negb (one_of "/:@" c || is_space c)) (string_drop 3 r) in
          let rest := match r with
            | String ":"%char r' => (span (λ c, negb (one_of "/@" c || is_space c)) r').2
            | _ => r end in
          if truthy_str user && starts_with "@" rest then
            Some (scheme ++ "://" ++ "[REDACTED]@",
                  String.length s - String.length rest)%nat
          else None
        else None
      else None
  | EmptyString => None
  end.

(** "Bearer", white space, then a token free of spaces and quotes; ignoring
    case. *)
(* [src/backend/src/execution/environment.js:30-30] bearer token *)
Definition BEARER_RE (_ : option ascii) (s : string) : option (string * nat) :=
  if starts_with "bearer" (to_lower s) then
    let (spaces, r) := span is_space (string_drop 6 s) in
    let (token, rest) := span (λ c, negb (is_space c || one_of (String quote_char "'") c)) r in
    if truthy_str spaces && truthy_str token then
      Some (String.substring 0 6 s ++ spaces ++ "[REDACTED]",
            String.length s - String.length rest - 1)%nat
    else None
  else None.

(** The longest prefix of length at least [min] of a run of class [f] that ends
    at a word boundary: its length. *)
Fixpoint bounded_run (f : ascii → bool) (min : nat) (n : nat) (s : string) : option nat :=
  match s with
  | String c s' =>
      if f c then
        match bounded_run f min (S n) s' with
        | Some k => Some k
        | None => if bool_decide (min ≤ S n)%nat && negb (Bool.eqb (is_word c) (word_at (head_char s')))
                  then Some (S n) else None
        end
      else None
  | EmptyString => None
  end.

(** One alternative of the token expression: prefixes, class, length. *)
Definition token_alt (prefixes : list string) (f : ascii → bool) (min : nat) (s : string)
    : option (string * nat) :=
  match strip_any prefixes s with
  | Some r => match bounded_run f min 0 r with
              | Some k => Some ("[REDACTED]", String.length s - String.length r + k - 1)%nat
              | None => None end
  | None => None
  end.

(** [/\b(sk-[..]{8,}|xox[bpas]-[..]{6,}|gh[pousr]_[..]{10,})\b/g] *)
(* [src/backend/src/execution/environment.js:32-32] token expression *)
Definition TOKEN_RE (prev : option ascii) (s : string) : option (string * nat) :=
  if word_at prev then None
  else match token_alt ["sk-"] (λ c, is_word c || one_of "-" c) 8 s with
  | Some r => Some r
  | None =>
  match token_alt ["xoxb-"; "xoxp-"; "xoxa-"; "xoxs-"] (λ c, alnum c || one_of "-" c) 6 s with
  | Some r => Some r
  | None => token_alt ["ghp_"; "gho_"; "ghu_"; "ghs_"; "ghr_"] alnum 10 s
  end end.

(* [src/backend/src/execution/environment.js:28-34] redact one string *)
Definition redact_string (s : string) : string :=
  let out := replace_all URL_CREDS_RE 0 None s in
  let out := replace_all BEARER_RE 0 None out in
  let out := replace_all TOKEN_RE 0 None out in
  slice0 (N.to_nat 8000) out.

(** [depth] counts down from 6. *)
(* [src/backend/src/execution/environment.js:26-44] redactSecrets *)
Fixpoint redact_depth (depth : nat) (v : jsval) : jsval :=
  match v with
  | JStr s => JStr (redact_string s)
  | JArr xs => JArr (match depth with
      | O => (λ _, JStr "[REDACTED]") <$> take 100 xs
      | S d => redact_depth d <$> take 100 xs end)
  | JObj fs => JObj ((λ f : string * jsval, (f.1, if SECRET_KEY_RE f.1 then JStr "[REDACTED]" else
      match depth with O => JStr "[REDACTED]" | S d => redact_depth d f.2 end)) <$> take 100 fs)
  | _ => v
  end.

(* [src/backend/src/execution/environment.js:26-44] redactSecrets *)
Definition redactSecrets (v : jsval) : jsval := redact_depth 6 v.

Definition ellipsis : string := String "226" (String "128" (String "166" "")).

(* [src/backend/src/execution/environment.js:46-50] summarizeInputs *)
Definition summarizeInputs (params : jsval) : string :=
  let text := default "" (json_stringify (redactSecrets (if truthy_val params then params else JObj []))) in
  if decide (1000 < N.of_nat (String.length text))%N
  then slice0 (N.to_nat 1000) text ++ ellipsis ++ "(truncated)" else text.

(** *** Properties *)

(** No secret-named field anywhere holds anything but the marker. *)
Fixpoint clean (v : jsval) : Prop :=
  match v with
  | JArr xs => (fix go xs := match xs with [] => True | x :: xs' => clean x ∧ go xs' end) xs
  | JObj fs => (fix go fs := match fs with
      | [] => True
      | f :: fs' => (SECRET_KEY_RE f.1 = true → f.2 = JStr "[REDACTED]") ∧ clean f.2 ∧ go fs' end) fs
  | _ => True
  end.

Lemma clean_arr xs : clean (JArr xs) ↔ Forall clean xs.
Proof. induction xs as [|x xs IH]; simpl in *; [by split; [constructor|]|]. rewrite Forall_cons. tauto. Qed.

Lemma clean_obj fs : clean (JObj fs) ↔
  Forall (λ f, (SECRET_KEY_RE f.1 = true → f.2 = JStr "[REDACTED]") ∧ clean f.2) fs.
Proof. induction fs as [|f fs IH]; simpl in *; [by split; [constructor|]|]. rewrite Forall_cons. tauto. Qed.

(** The number of levels of nesting. *)
Fixpoint depth_le (n : nat) (v : jsval) : Prop :=
  match v with
  | JArr xs => match n with O => xs = [] ∨ Forall (λ x, x = JStr "[REDACTED]") xs | S d => Forall (depth_le d) xs end
  | JObj fs => match n with O => Forall (λ f : string * jsval, f.2 = JStr "[REDACTED]") fs
                          | S d => Forall (λ f : string * jsval, depth_le d f.2) fs end
  | _ => True
  end.

Lemma redact_clean d v : clean (redact_depth d v).
Proof.
  revert v. induction d as [|d IH]; intros v; destruct v as [| | | |s|xs|fs]; try exact I;
    cbn [redact_depth]; rewrite ?clean_arr, ?clean_obj; apply Forall_forall; intros x Hx;
    apply list_elem_of_fmap in Hx as (y & -> & _); simpl; try done;
    destruct (SECRET_KEY_RE y.1); split; try done; apply IH.
Qed.

Lemma redact_depth_le d v : depth_le d (redact_depth d v).
Proof.
  revert v. induction d as [|d IH]; intros v; destruct v as [| | | |s|xs|fs]; try exact I; cbn [redact_depth depth_le].
  - right. apply Forall_forall. intros x Hx. by apply list_elem_of_fmap in Hx as (y & -> & _).
  - apply Forall_forall. intros x Hx. apply list_elem_of_fmap in Hx as (y & -> & _). simpl.
    by destruct (SECRET_KEY_RE y.1).
  - apply Forall_forall. intros x Hx. apply list_elem_of_fmap in Hx as (y & -> & _). apply IH.
  - apply Forall_forall. intros x Hx. apply list_elem_of_fmap in Hx as (y & -> & _). simpl.
    destruct (SECRET_KEY_RE y.1); [by destruct d|apply IH].
Qed.
End Redaction.

(** ** Retention modes *)

Module Retention.

Definition REDACTED : string := "[REDACTED_BY_PRIVACY]".

(* [src/backend/src/privacy.js:7-7] MODES *)
Definition MODES : list string := ["metadata_only"; "standard"; "zero_retention"].

(* [src/backend/src/privacy.js:9-15] CONTENT_KEYS *)
Definition CONTENT_KEYS : list string := [
  "content"; "text"; "full"; "delta"; "prompt"; "query"; "userText";
  "userMessage"; "snippet"; "raw"; "result"; "output"; "stdout"; "stderr";
  "arguments"; "input"; "messages"; "memory"; "contextItems"; "compressedItems";
  "discardedItems"; "working"; "longterm"; "message"; "description"; "objective";
  "goal"; "sourceTask"; "providerMetadata"; "providerPayload"; "responseBody"].

(* [src/backend/src/privacy.js:16-16] SECRET_KEYS *)
Definition SECRET_KEYS (k : string) : bool :=
  existsb (λ w, contains w (to_lower k))
    (Redaction.opt_sep "api" "key" ++ ["authorization"; "bearer"; "secret"; "password"]
     ++ Redaction.opt_sep "session" "token" ++ Redaction.opt_sep "access" "token"
     ++ Redaction.opt_sep "refresh" "token")%list.

(* [src/backend/src/privacy.js:18-20] normalizePrivacyMode *)
Definition normalizePrivacyMode (mode : string) : string :=
  if decide (mode ∈ MODES) then mode else "standard".

(** [JSON.parse(JSON.stringify(v))]: undefined fields vanish, undefined array
    elements become null. *)
(* [src/backend/src/privacy.js:22-25] clone *)
Fixpoint clone (v : jsval) : jsval :=
  match v with
  | JArr xs => JArr (List.map (λ x, match x with JUndef => JNull | _ => clone x end) xs)
  | JObj fs => JObj (omap (λ f : string * jsval, match f.2 with JUndef => None | _ => Some f end)
                 (List.map (λ f : string * jsval, (f.1, clone f.2)) fs))
  | _ => v
  end.

Definition is_standard (mode : string) : bool := String.eqb mode "standard".
Definition content_key (k : string) : bool := bool_decide (k ∈ CONTENT_KEYS).

(* [src/backend/src/privacy.js:27-45] sanitize *)
Fixpoint sanitize (mode key : string) (v : jsval) : jsval :=
  match v with
  | JStr s => if is_standard mode || negb (content_key key) then v else JStr REDACTED
  | JArr xs => JArr (List.map (sanitize mode key) xs)
  | JObj fs => JObj (List.map (λ f : string * jsval, (f.1,
      if SECRET_KEYS f.1 then JStr REDACTED
      else if negb (is_standard mode) && content_key f.1 then
        if is_array f.2 then JArr [] else JStr REDACTED
      else sanitize mode f.1 f.2)) fs)
  | _ => v
  end.

(* [src/backend/src/privacy.js:47-51] persistedEvents *)
Definition persistedEvents (events : list jsval) (mode : string) : list jsval :=
  let m := normalizePrivacyMode mode in
  if String.eqb m "zero_retention" then [] else (λ e, sanitize m "" (clone e)) <$> events.

(** [out.k = v] *)
Definition put (o : jsval) (k : string) (v : jsval) : jsval :=
  match o with JObj fs => JObj (mset fs k v) | _ => o end.

Definition or_val (v d : jsval) : jsval := if truthy_val v then v else d.

Definition no_memory : jsval := JObj [("working", JArr []); ("longterm", JArr [])].

(** A snapshot is an object; anything else is not stored. *)
(* [src/backend/src/privacy.js:53-75] persistedSnapshot *)
Definition persistedSnapshot (snapshot : jsval) (mode : string) : jsval :=
  let m := normalizePrivacyMode mode in
  match snapshot with
  | JObj _ =>
      let out := sanitize m "" (clone snapshot) in
      let out := if is_standard m then out
                 else put (put out "messages" (JArr [])) "memory" no_memory in
      if String.eqb m "zero_retention" then
        let out := put out "trace" (JArr []) in
        let c := prop out "context" in
        let out := put out "context" (match c with
          | JObj _ | JArr _ => JObj [("usedTokens", or_val (prop c "usedTokens") (JNum 0));
              ("windowTokens", or_val (prop c "windowTokens") (JNum 0));
              ("segments", or_val (prop c "segments") (JArr [])); ("items", JArr [])]
          | _ => JObj [("usedTokens", JNum 0); ("windowTokens", JNum 0); ("segments", JArr []); ("items", JArr [])]
          end) in
        let out := put out "memory" no_memory in
        let e := prop out "execution" in
        put out "execution" (match e with
          | JObj _ | JArr _ => JObj [("status", or_val (prop e "status") JNull);
              ("currentAction", or_val (prop e "currentAction") JNull);
              ("pause", or_val (prop e "pause") JNull)]
          | _ => JNull end)
      else out
  | _ => JNull
  end.

(* [src/backend/src/privacy.js:77-82] persistedRunSummary *)
Definition persistedRunSummary (summary : jsval) (mode : string) : jsval :=
  let m := normalizePrivacyMode mode in
  let out := sanitize m "" (clone summary) in
  if String.eqb m "zero_retention" && truthy_val out then put out "title" (JStr "Private run") else out.

(** *** Properties *)

(** The value a field may hold under a mode. *)
Definition field_ok (mode : string) (f : string * jsval) : Prop :=
  (SECRET_KEYS f.1 = true → f.2 = JStr REDACTED) ∧
  (SECRET_KEYS f.1 = false → mode ≠ "standard" → content_key f.1 = true →
   f.2 = JStr REDACTED ∨ f.2 = JArr []).

(** Every field of every object, at any depth, is allowed by the mode. *)
Fixpoint private (mode : string) (v : jsval) : Prop :=
  match v with
  | JArr xs => (fix go xs := match xs with [] => True | x :: xs' => private mode x ∧ go xs' end) xs
  | JObj fs => (fix go fs := match fs with
      | [] => True | f :: fs' => field_ok mode f ∧ private mode f.2 ∧ go fs' end) fs
  | _ => True
  end.

Lemma private_arr mode xs : private mode (JArr xs) ↔ Forall (private mode) xs.
Proof. induction xs as [|x xs IH]; simpl in *; [by split; [constructor|]|]. rewrite Forall_cons. tauto. Qed.

Lemma private_obj mode fs : private mode (JObj fs) ↔ Forall (λ f, field_ok mode f ∧ private mode f.2) fs.
Proof. induction fs as [|f fs IH]; simpl in *; [by split; [constructor|]|]. rewrite Forall_cons. tauto. Qed.

Lemma is_standard_spec mode : is_standard mode = true ↔ mode = "standard".
Proof. apply String.eqb_eq. Qed.

Lemma sanitize_private mode key v : private mode (sanitize mode key v).
Proof.
  revert key. induction v as [| | | |s|xs IH|fs IH] using jsval_nested_ind; intros key; try exact I.
  - simpl. by destruct (is_standard mode || negb (content_key key)).
  - cbn [sanitize]. rewrite private_arr. apply Forall_fmap. eapply Forall_impl; [exact IH|]. intros x Hx. apply Hx.
  - cbn [sanitize]. rewrite private_obj. apply Forall_fmap. eapply Forall_impl; [exact IH|].
    intros [k x] Hx. unfold field_ok. simpl. destruct (SECRET_KEYS k) eqn:Es; [done|].
    destruct (negb (is_standard mode) && content_key k) eqn:Ec.
    + destruct (is_array x); (split; [|done]); (split; [done|]); auto.
    + split; [|apply Hx]. split; [done|]. intros _ Hm Hk. rewrite Hk, andb_true_r in Ec.
      apply negb_false_iff, is_standard_spec in Ec. done.
Qed.

Lemma private_put mode o k v : private mode o → field_ok mode (k, v) → private mode v → private mode (put o k v).
Proof.
  destruct o as [| | | | | |fs]; try done. cbn [put]. rewrite !private_obj. intros H Hk Hv.
  induction fs as [|[j w] fs IH]; cbn [mset]; [by apply Forall_singleton|].
  apply Forall_cons in H as [H1 H2]. case_decide; apply Forall_cons; auto.
Qed.

Lemma put_prop o k v : (∃ fs, o = JObj fs) → prop (put o k v) k = v.
Proof. intros [fs ->]. simpl. by rewrite mget_set_eq. Qed.

Lemma sanitize_obj mode key fs : ∃ fs', sanitize mode key (JObj fs) = JObj fs'.
Proof. by eexists. Qed.

Lemma normalize_modes mode : normalizePrivacyMode mode ∈ MODES.
Proof. unfold normalizePrivacyMode. case_decide; [done|]. set_solver. Qed.

(** A project's retention mode is enforced on everything persisted.  In
    every stored event and run summary, at any depth, a field with a secret
    name holds only the marker, and unless the mode is "standard" a field with
    a content name holds only the marker or an empty array; with
    "zero_retention" no event is stored, the summary's title is "Private run",
    and a stored snapshot has no messages, trace, memory or context items. *)
Theorem retention_enforced mode events summary fs :
  let m := normalizePrivacyMode mode in
  (∀ e, e ∈ persistedEvents events mode → private m e) ∧
  private m (persistedRunSummary summary mode) ∧
  (m = "zero_retention" →
     persistedEvents events mode = [] ∧
     let out := persistedSnapshot (JObj fs) mode in
     prop out "messages" = JArr [] ∧ prop out "trace" = JArr [] ∧ prop out "memory" = no_memory ∧
     prop (prop out "context") "items" = JArr []).
Proof.
  cbn zeta. split; [|split].
  - intros e. unfold persistedEvents. destruct (String.eqb _ "zero_retention"); [set_solver|].
    intros Hin. apply list_elem_of_fmap in Hin as (x & -> & _). apply sanitize_private.
  - unfold persistedRunSummary. destruct (_ && _); [|apply sanitize_private].
    apply private_put; [apply sanitize_private| |done]. split; [by vm_compute|]. intros _ _. by vm_compute.
  - intros Hm. unfold persistedEvents, persistedSnapshot. rewrite Hm. split; [done|].
    destruct (sanitize_obj "zero_retention" "" (omap (λ f : string * jsval,
      match f.2 with JUndef => None | _ => Some f end)
      (List.map (λ f : string * jsval, (f.1, clone f.2)) fs))) as [gs Egs].
    cbn [clone]. rewrite Egs. generalize gs. clear. intros gs.
    assert (∀ a k v k', k ≠ k' → prop (put a k v) k' = prop a k') as Hne.
    { intros [| | | | | |l] k v k' Hk; try done. simpl. by rewrite mget_set_ne. }
    change (is_standard "zero_retention") with false. cbv iota.
    change (String.eqb "zero_retention" "zero_retention") with true. cbv iota.
    split; [|split; [|split]].
    + rewrite !Hne by done. apply put_prop. by eexists.
    + rewrite !Hne by done. apply put_prop. by eexists.
    + rewrite Hne by done. apply put_prop. by eexists.
    + rewrite !(Hne _ "execution"), !(Hne _ "memory") by done. rewrite put_prop by (by eexists).
      by destruct (prop _ "context").
Qed.

(** Tool inputs kept for audit carry no secrets.  In what [redactSecrets]
    returns, every field with a secret-like name, at any depth, holds only the
    marker; nesting is cut at six levels; and the value is otherwise the input
    with its strings scrubbed, arrays and objects cut to 100 entries. *)
Theorem audit_inputs_redacted v :
  Redaction.clean (Redaction.redactSecrets v) ∧ Redaction.depth_le 6 (Redaction.redactSecrets v) ∧
  (∀ s, v = JStr s → Redaction.redactSecrets v = JStr (Redaction.redact_string s) ∧
        (N.of_nat (String.length (Redaction.redact_string s)) ≤ 8000)%N) ∧
  (∀ fs, v = JObj fs → ∃ gs, Redaction.redactSecrets v = JObj gs ∧ gs.*1 = (take 100 fs).*1).
Proof.
  split; [apply Redaction.redact_clean|]. split; [apply Redaction.redact_depth_le|]. split.
  - intros s ->. split; [done|]. unfold Redaction.redact_string, slice0. cbn zeta.
    match goal with |- (N.of_nat (String.length (String.substring 0 ?n ?t)) ≤ _)%N =>
      pose proof (ToolSystem.substring_length n t) end. lia.
  - intros fs ->. eexists. split; [done|]. rewrite <- list_fmap_compose. by apply list_fmap_ext.
Qed.
End Retention.
