(* ===== verification/Controller.v ===== *)
(** The execution gate: backend/src/execution/controller.js.

    [preGate] is what every tool call passes through before it runs: the
    production boundary, the canonical overlay, the run's own policy, the
    execution policy, the user's constraints, the risk classification and the
    single-use approval.  The parts it composes are the models of Policy,
    Approvals, Plans and Privacy.  SHA-256 is a parameter; the clock readings
    and the generated approval id are inputs. *)

From S2P Require Import Prelude JsMap JsValue Text ToolSystem Policy Approvals Plans Privacy.

Local Open Scope string_scope.
Local Open Scope js_scope.

(** The state the gate reads and writes. *)
(* [src/backend/src/execution/controller.js:41-67] controller state used by the gate *)
Record controller := Controller {
  k_approvals : ApprovalStore;
  k_policies : jsmap string policy;
  k_constraints : ConstraintStore.constraints;
}.

#[export] Instance controller_eta : Eta controller := λ c,
  Controller (k_approvals c) (k_policies c) (k_constraints c).

(** What the gate sees of the process and of the orchestrator: the production
    flag, the isolated executor's URL (option or environment variable), the
    workspace of a run, and the run's own policy ([true] when it has none). *)
Record gate_env := GateEnv {
  e_productionSafeToolsOnly : bool;
  e_isolatedExecutorUrl : option string;
  e_workspaceFor : string → string;
  e_run_allows : string → string → bool;
}.

Inductive gate_result :=
| Allowed (approvalId : option string)
| Blocked (code reason : string) (approvalId : option string).

(* [src/backend/src/execution/controller.js:154-159] policyFor *)
Definition policyFor (e : gate_env) (c : controller) (run : string) : controller * policy :=
  match mget (k_policies c) run with
  | Some p => (c, p)
  | None =>
      let p := defaultPolicy "" (no_overrides <| o_workspaceRoot := Some (e_workspaceFor e run) |>) in
      (c <| k_policies ::= λ m, mset m run p |>, p)
  end.

(** The fields of a [setPolicy] patch that the model covers. *)
(* [src/backend/src/execution/controller.js:161-161] patch *)
Record policy_patch := PolicyPatch {
  pp_autonomyMode : option string;
  pp_approvalMode : option string;
  pp_allowedTools : option (list string);
  pp_deniedTools : option (list string);
  pp_allowedCommands : option (list string);
  pp_deniedCommands : option (list string);
  pp_writeAccess : option bool;
  pp_allowDeploy : option bool;
  pp_allowPush : option bool;
  pp_allowInstall : option bool;
}.

(* [src/backend/src/execution/controller.js:161-171] setPolicy *)
Definition setPolicy (e : gate_env) (c : controller) (run : string) (patch : policy_patch) : controller :=
  let (c, cur) := policyFor e c run in
  let next := cur
    <| autonomyMode ::= λ x, default x (pp_autonomyMode patch) |>
    <| approvalMode ::= λ x, default x (pp_approvalMode patch) |>
    <| allowedTools ::= λ x, default x (pp_allowedTools patch) |>
    <| deniedTools ::= λ x, default x (pp_deniedTools patch) |>
    <| allowedCommands ::= λ x, default x (pp_allowedCommands patch) |>
    <| deniedCommands ::= λ x, default x (pp_deniedCommands patch) |>
    <| writeAccess ::= λ x, default x (pp_writeAccess patch) |>
    <| allowDeploy ::= λ x, default x (pp_allowDeploy patch) |>
    <| allowPush ::= λ x, default x (pp_allowPush patch) |>
    <| allowInstall ::= λ x, default x (pp_allowInstall patch) |> in
  let next := if truthy (pp_autonomyMode patch) && negb (truthy (pp_approvalMode patch))
    then next <| approvalMode := approvalModeForAutonomy (default "" (pp_autonomyMode patch)) |>
    else next in
  c <| k_policies ::= λ m, mset m run next |>.

(** ** The gate *)

Definition production_safe : list string :=
  ["read_file"; "search_code"; "git_status"; "git_diff"; "git_log"; "git_branch"].

(** The production boundary; [None]: the call may go on. *)
(* [src/backend/src/execution/controller.js:247-265] production boundary *)
Definition production_boundary (e : gate_env) (toolName : string) : option gate_result :=
  if e_productionSafeToolsOnly e && negb (bool_decide (toolName ∈ production_safe)) then
    if bool_decide (toolName = "run_tests" ∨ toolName = "build_project") then
      if truthy (e_isolatedExecutorUrl e) then None
      else Some (Blocked "sandbox_unavailable"
        ("production requires an isolated executor for " ++ toolName
         ++ " (set ISOLATED_EXECUTOR_URL); failing closed") None)
    else Some (Blocked "denied" ("production safe-tools policy blocks " ++ toolName) None)
  else None.

(** The canonical definitions are authoritative. *)
(* [src/backend/src/execution/controller.js:266-281] canonical overlay *)
Definition overlay (toolName : string) (given : option raw_tool) (def : definition) : definition :=
  match find_tool toolName with
  | None => def
  | Some c =>
      let def := if default false (r_requiresApproval c) then def <| d_requiresApproval := true |> else def in
      let def := if default false (r_disabled c) then def <| d_disabled := true |> else def in
      let def := if bool_decide (r_available c = Some false) then def <| d_available := false |> else def in
      let def := match given ≫= r_riskLevel, r_riskLevel c with
        | None, Some r => if decide (0 < compareRisk r (d_riskLevel def))%Z
                          then def <| d_riskLevel := r |> else def
        | _, _ => def end in
      match given ≫= r_category, r_category c with
      | None, Some cat => def <| d_category := cat |>
      | _, _ => def end
  end.

Definition named (toolName : string) : raw_tool :=
  RawTool None (Some toolName) None None None None None None None None None None None None None.

(* [src/backend/src/execution/controller.js:246-281] effective definition *)
Definition effective_definition (toolName : string) (given : option raw_tool) : definition :=
  overlay toolName given (normalizeDefinition (default (named toolName) given)).

(** [paths.some(...)] throws when [paths] is truthy and no array. *)
(* [src/backend/src/execution/controller.js:292-302] user constraints *)
Definition constraint_block (cs : ConstraintStore.constraints) (run toolName : string) (params : jsval)
    : option (res gate_result) :=
  let patch := if String.eqb toolName "apply_patch" && truthy_val (prop params "path") then
      let '(ok, reason) := ConstraintStore.checkWrite cs run (strip_slashes (to_string (prop params "path"))) in
      if ok then None else Some (Ok (Blocked "denied" reason None))
    else None in
  match patch with
  | Some b => Some b
  | None =>
      if String.eqb toolName "git_add" &&
         negb (bool_decide (ConstraintStore.onlyPaths (ConstraintStore.get cs run) = [])) then
        match params, prop params "paths" with
        | JUndef, _ | JNull, _ => Some (Throw (JsError None "Cannot read properties (reading 'paths')"))
        | _, JArr xs =>
            if existsb (λ p, negb (ConstraintStore.checkWrite cs run (to_string p)).1) xs
            then Some (Ok (Blocked "denied" "paths outside user-constrained scope" None)) else None
        | _, v => if truthy_val v then Some (Throw (JsError None "paths.some is not a function")) else None
        end
      else None
  end.

(** The clock readings of one pass, in order. *)
Record clock := Clock { t_check0 : Z; t_check1 : Z; t_peek0 : Z; t_peek1 : Z; t_request : Z }.

Section Gate.
Context (sha256 : string → string).

(** [/expired/i.test(error)] *)
Definition says_expired (error : string) : bool := contains "expired" (to_lower error).

(** The approval step for a call that needs one: consume the named approval,
    or a matching one, or request a new one. *)
(* [src/backend/src/execution/controller.js:306-342] approval step *)
Definition approval_step (s : ApprovalStore) (k : clock) (newId run toolName : string) (params : jsval)
    (risk : RiskLevel.t) (why : string) (approvalId : option string) : ApprovalStore * res gate_result :=
  let g := GateArgs run toolName params JUndef in
  if truthy approvalId then
    let id := default "" approvalId in
    match checkAndConsume sha256 s (t_check0 k) (t_check1 k) g id with
    | (s, inl _) => (s, Ok (Allowed (Some id)))
    | (s, inr error) =>
        (s, Ok (Blocked (if says_expired error then "expired" else "denied")
                        ("approval rejected: " ++ error) None))
    end
  else
    let (s, found) := peek sha256 s (t_peek0 k) (t_peek1 k) g in
    let '(s, consumed) := match found with
      | Some r => match checkAndConsume sha256 s (t_check0 k) (t_check1 k) g (a_id r) with
                  | (s, inl _) => (s, Some (a_id r)) | (s, inr _) => (s, None) end
      | None => (s, None) end in
    match consumed with
    | Some id => (s, Ok (Allowed (Some id)))
    | None =>
        let q := RequestArgs (Some run) (Some toolName) (Some (toolName ++ " requires approval"))
          (Some (toolName ++ " " ++ why ++ " (risk " ++ RiskLevel.value risk ++ "). Params: "
                 ++ slice0 500 (Redaction.summarizeInputs params)))
          (Some risk) params
          (JObj [("tool", JStr toolName); ("params", Redaction.redactSecrets params)])
          (Some (if String.eqb toolName "apply_patch" && truthy_val (prop params "path")
                 then [to_string (prop params "path")] else [])) None None None in
        match request sha256 s (t_request k) newId q with
        | (s, inl r) => (s, Ok (Blocked "needs_approval"
            ("waiting for approval " ++ a_id r ++ " (" ++ RiskLevel.value risk ++ ")") (Some (a_id r))))
        | (s, inr error) => (s, Throw (JsError None error))
        end
    end.

(* [src/backend/src/execution/controller.js:244-344] _preGate *)
Definition preGate (e : gate_env) (c : controller) (k : clock) (newId run toolName : string)
    (params : jsval) (given : option raw_tool) (approvalId : option string) : controller * res gate_result :=
  let (c, pol) := policyFor e c run in
  match production_boundary e toolName with
  | Some b => (c, Ok b)
  | None =>
      let def := effective_definition toolName given in
      if negb (e_run_allows e run toolName) then
        (c, Ok (Blocked "denied" ("tool blocked by run policy: " ++ toolName) None))
      else
        let '(ok, reason) := isToolAllowedByPolicy (Some pol) toolName (Some def) in
        if negb ok then (c, Ok (Blocked "denied" reason None))
        else match constraint_block (k_constraints c) run toolName params with
        | Some b => (c, b)
        | None =>
            let risk := (classifyRisk (Some def) params).1 in
            let '(need, why) := needsApproval (Some pol) (Some def) (Some risk) in
            if need then
              let (s, r) := approval_step (k_approvals c) k newId run toolName params risk why approvalId in
              (c <| k_approvals := s |>, r)
            else (c, Ok (Allowed None))
        end
  end.

(** ** The approvals API *)

(** [decision] other than "approve" and "deny" cancels; [decidedBy] is not
    passed on. *)
(* [src/backend/src/execution/controller.js:420-432] decideApproval *)
Definition decideApproval (c : controller) (t0 t1 : Z) (run approvalId decision : string)
    : controller * (approval + string) :=
  let fn := if String.eqb decision "approve" then approve
            else if String.eqb decision "deny" then deny else cancel in
  let '(s, r) := fn (k_approvals c) t0 t1 approvalId None in
  let c := c <| k_approvals := s |> in
  match r with
  | inr error => (c, inr error)
  | inl a => if negb (String.eqb (a_runId a) run)
             then (c, inr "approval belongs to a different run") else (c, inl a)
  end.

(* [src/backend/src/execution/controller.js:412-418] requestApproval *)
Definition requestApproval (c : controller) (t : Z) (newId : string) (q : request_args)
    : controller * (approval + string) :=
  let '(s, r) := request sha256 (k_approvals c) t newId q in (c <| k_approvals := s |>, r).

(* [src/backend/src/execution/controller.js:922-935] clearRun *)
Definition clearRun (c : controller) (run : string) : controller :=
  Controller (Approvals.clearRun (k_approvals c) run) (mdelete (k_policies c) run)
    (ConstraintStore.clearRun (k_constraints c) run).
End Gate.

(** ** Properties *)

Section Props.
Context (sha256 : string → string).

Lemma approval_step_allowed s k newId run tool params risk why apId s' ap :
  approval_step sha256 s k newId run tool params risk why apId = (s', Ok (Allowed ap)) →
  ∃ id s0 s1 r, ap = Some id ∧ (s0 = s ∨ s0 = sweepExpired s (t_peek0 k)) ∧
    checkAndConsume sha256 s0 (t_check0 k) (t_check1 k) (GateArgs run tool params JUndef) id = (s1, inl r) ∧
    s' = s1.
Proof.
  unfold approval_step. destruct (truthy apId).
  - destruct (checkAndConsume _ _ _ _ _ _) as [s1 [r|e]] eqn:E; [|done]. intros [= <- <-].
    exists (default "" apId), s, s1, r. auto.
  - unfold peek. destruct (list_find _ _) as [[i r0]|]; simpl.
    + destruct (checkAndConsume _ _ _ _ _ _) as [s1 [r|e]] eqn:E.
      * intros [= <- <-]. exists (a_id r0), (sweepExpired s (t_peek0 k)), s1, r. auto.
      * by destruct (request _ _ _ _ _) as [s2 [q|e2]].
    + by destruct (request _ _ _ _ _) as [s2 [q|e2]].
Qed.

Lemma expire_approved t r :
  a_status (expire t r) = ApprovalStatus.APPROVED → expire t r = r ∧ (t < a_expiresAt r)%Z ∨ expire t r = r.
Proof. unfold expire. case_decide; simpl; [done|]. auto. Qed.

Lemma sweep_get s t id r :
  mget (approvals (sweepExpired s t)) id = Some r → a_status r = ApprovalStatus.APPROVED →
  mget (approvals s) id = Some r.
Proof.
  simpl. rewrite mget_mmap. destruct (mget (approvals s) id) as [r0|]; [|done]. intros [= <-] Hs.
  unfold expire in *. by case_decide.
Qed.

Lemma checkAndConsume_effect s t0 t1 g id s' r' :
  checkAndConsume sha256 s t0 t1 g id = (s', inl r') →
  ∃ r, mget (approvals s) id = Some r ∧ a_status r = ApprovalStatus.APPROVED ∧ a_consumed r = false ∧
    a_runId r = g_runId g ∧ a_actionType r = g_actionType g ∧ (t1 < a_expiresAt r)%Z ∧
    binds sha256 g r ∧ mget (approvals s') id = Some (r <| a_consumed := true |>).
Proof.
  intros E. pose proof E as E'. apply checkAndConsume_ok in E as (r & Hr & -> & H1 & H2 & H3 & H4 & H5 & H6).
  exists r. split; [by eapply sweep_get|]. js_split; try done.
  revert E'. unfold checkAndConsume. rewrite Hr.
  destruct (negb _); [done|]. destruct (negb _); [done|]. case_decide; [done|].
  destruct (negb _); [done|]. destruct (a_consumed r); [done|]. destruct (fingerprint_ok _ _ _); [|done].
  intros E'. apply (f_equal fst) in E'. cbn [fst] in E'. rewrite <- E'.
  unfold assign at 1. cbn -[mset]. by rewrite mget_set_eq.
Qed.

(** The approval an allowed call used up. *)
Definition used_approval (s s' : ApprovalStore) (run tool : string) (params : jsval) (id : string) : Prop :=
  ∃ r, mget (approvals s) id = Some r ∧ a_status r = ApprovalStatus.APPROVED ∧ a_consumed r = false ∧
    a_runId r = run ∧ a_actionType r = tool ∧ binds sha256 (GateArgs run tool params JUndef) r ∧
    mget (approvals s') id = Some (r <| a_consumed := true |>).

Lemma boundary_blocks e tool ap : production_boundary e tool ≠ Some (Allowed ap).
Proof.
  unfold production_boundary. destruct (_ && _); [|done]. destruct (bool_decide _); [|done].
  by destruct (truthy _).
Qed.

Lemma constraint_blocks cs run tool params ap : constraint_block cs run tool params ≠ Some (Ok (Allowed ap)).
Proof.
  unfold constraint_block. destruct (String.eqb tool "apply_patch" && _).
  - destruct (ConstraintStore.checkWrite _ _ _) as [[] reason]; [|done]. by repeat case_match.
  - by repeat case_match.
Qed.

Lemma preGate_allowed e c k newId run tool params given apId c' ap :
  preGate sha256 e c k newId run tool params given apId = (c', Ok (Allowed ap)) →
  let pol := (policyFor e c run).2 in
  let def := effective_definition tool given in
  let risk := (classifyRisk (Some def) params).1 in
  production_boundary e tool = None ∧ e_run_allows e run tool = true ∧
  (isToolAllowedByPolicy (Some pol) tool (Some def)).1 = true ∧
  constraint_block (k_constraints c) run tool params = None ∧
  ((needsApproval (Some pol) (Some def) (Some risk)).1 = true →
   ∃ id, ap = Some id ∧ used_approval (k_approvals c) (k_approvals c') run tool params id).
Proof.
  cbn zeta. unfold preGate. destruct (policyFor e c run) as [c0 pol] eqn:Ep.
  assert (k_approvals c0 = k_approvals c ∧ k_constraints c0 = k_constraints c) as [Ea Ec].
  { unfold policyFor in Ep. by destruct (mget _ _); simplify_eq. }
  cbn [snd]. destruct (production_boundary e tool) as [b|] eqn:Eb.
  { intros [= <- ->]. by apply boundary_blocks in Eb. }
  destruct (e_run_allows e run tool) eqn:Er; [|done]. simpl negb. cbn match.
  destruct (isToolAllowedByPolicy _ _ _) as [ok reason] eqn:Ei. destruct ok; [|done]. simpl negb. cbn match.
  rewrite Ec. destruct (constraint_block _ _ _ _) as [b|] eqn:Ecb.
  { intros [= <- ->]. by apply constraint_blocks in Ecb. }
  destruct (needsApproval _ _ _) as [need why] eqn:En. destruct need.
  - destruct (approval_step _ _ _ _ _ _ _ _ _ _) as [s' r] eqn:Est. intros [= <- ->].
    js_split; try done. intros _. rewrite Ea in Est.
    apply approval_step_allowed in Est as (id & s0 & s1 & r & -> & Hs0 & Hcc & ->).
    exists id. split; [done|]. apply checkAndConsume_effect in Hcc as (r0 & H1 & H2 & H3 & H4 & H5 & _ & H6 & H7).
    exists r0. js_split; try done. destruct Hs0 as [->|Hs0]; [done|]. rewrite Hs0 in H1. by eapply sweep_get.
  - intros [= <- <-]. by js_split.
Qed.

(** C1: soundness of the execution gate.  A call the gate lets through is
    inside the production boundary, allowed by the run's own policy, by the
    execution policy and by the user's constraints; and if its classified risk
    needs approval under the run's policy, the gate has just used up one
    approval: approved, never consumed before, for the same run and tool, whose
    fingerprint binds these parameters. *)
Theorem gate_sound e c k newId run tool params given apId c' ap :
  preGate sha256 e c k newId run tool params given apId = (c', Ok (Allowed ap)) →
  let pol := (policyFor e c run).2 in
  let def := effective_definition tool given in
  let risk := (classifyRisk (Some def) params).1 in
  (e_productionSafeToolsOnly e = true → tool ∈ production_safe ∨
     ((tool = "run_tests" ∨ tool = "build_project") ∧ truthy (e_isolatedExecutorUrl e) = true)) ∧
  e_run_allows e run tool = true ∧
  (isToolAllowedByPolicy (Some pol) tool (Some def)).1 = true ∧
  constraint_block (k_constraints c) run tool params = None ∧
  ((needsApproval (Some pol) (Some def) (Some risk)).1 = true →
   ∃ id, ap = Some id ∧ used_approval (k_approvals c) (k_approvals c') run tool params id).
Proof.
  intros H. apply preGate_allowed in H as (H1 & H2 & H3 & H4 & H5). cbn zeta. js_split; try done.
  intros Hp. unfold production_boundary in H1. rewrite Hp in H1.
  destruct (bool_decide_reflect (tool ∈ production_safe)); [by left|]. simpl in H1.
  destruct (bool_decide_reflect (tool = "run_tests" ∨ tool = "build_project")); [|done].
  right. split; [done|]. by destruct (truthy (e_isolatedExecutorUrl e)).
Qed.

(** The overlay keeps the name and the requirement of approval, and imposes the
    catalogue's requirement. *)
Lemma overlay_keeps tool given d cd :
  find_tool tool = Some cd →
  d_name (overlay tool given d) = d_name d ∧
  d_requiresApproval (overlay tool given d) =
    default false (r_requiresApproval cd) || d_requiresApproval d.
Proof.
  intros Hf. unfold overlay. rewrite Hf.
  destruct (default false (r_requiresApproval cd)), (default false (r_disabled cd)),
    (bool_decide (r_available cd = Some false)); cbv beta iota zeta;
    (destruct (given ≫= r_riskLevel), (r_riskLevel cd); try case_decide;
     destruct (given ≫= r_category), (r_category cd); split; reflexivity).
Qed.

Lemma effective_name tool given :
  (given = None ∨ (given ≫= r_name) = Some tool) → d_name (effective_definition tool given) = Some tool.
Proof.
  intros Hg. assert (d_name (normalizeDefinition (default (named tool) given)) = Some tool) as Hn.
  { destruct Hg as [->|Hg]; [done|]. destruct given as [d|]; [|done]. exact Hg. }
  unfold effective_definition. destruct (find_tool tool) as [cd|] eqn:Ef.
  - by rewrite (proj1 (overlay_keeps tool given _ cd Ef)).
  - unfold overlay. by rewrite Ef.
Qed.

Lemma effective_requires tool given cd :
  find_tool tool = Some cd → r_requiresApproval cd = Some true →
  d_requiresApproval (effective_definition tool given) = true.
Proof.
  intros Hf Hr. unfold effective_definition. by rewrite (proj2 (overlay_keeps tool given _ cd Hf)), Hr.
Qed.

(** Gated tools stay gated.  Whatever the registry's record says (as long
    as it is about this tool), whatever the policy and the mode: an allowed
    git_push, install_package or deploy_preview has used up an approval; and so
    has any allowed tool the catalogue marks as requiring approval, except at
    LOW risk under AUTO_APPROVE_LOW. *)
Theorem gated_tools_consume_approval e c k newId run tool params given apId c' ap cd :
  preGate sha256 e c k newId run tool params given apId = (c', Ok (Allowed ap)) →
  (given = None ∨ (given ≫= r_name) = Some tool) →
  find_tool tool = Some cd → r_requiresApproval cd = Some true →
  let mode := approvalMode (policyFor e c run).2 in
  let risk := (classifyRisk (Some (effective_definition tool given)) params).1 in
  tool ∈ ["git_push"; "install_package"; "deploy_preview"] ∨
  (mode ≠ "" ∧ ¬ (mode = ApprovalMode.value ApprovalMode.AUTO_APPROVE_LOW ∧ risk = RiskLevel.LOW)) →
  ∃ id, ap = Some id ∧ used_approval (k_approvals c) (k_approvals c') run tool params id.
Proof.
  intros H Hg Hf Hr. cbn zeta. intros Hcase. apply preGate_allowed in H as (_ & _ & _ & _ & Hused).
  apply Hused. pose proof (effective_requires tool given cd Hf Hr) as Hreq.
  destruct Hcase as [Hin|[Hm Hn]].
  - assert (d_name (effective_definition tool given) = Some tool) as Hname by (by apply effective_name).
    apply needsApproval_dangerous. apply list_elem_of_In in Hin. simpl in Hin.
    eapply classified_dangerous. rewrite Hname. destruct Hin as [<-|[<-|[<-|[]]]]; auto.
  - apply not_false_iff_true. intros E.
    assert (truthy_str (approvalMode (policyFor e c run).2) = true) as Ht.
    { by destruct (approvalMode (policyFor e c run).2). }
    unfold needsApproval in E. cbn [fmap option_fmap option_map] in E.
    rewrite Hreq, or_default_truthy in E by done. case_decide; [done|].
    rewrite (decide_True (P := Some true = Some true)) in E by done. case_decide; [|done]. tauto.
Qed.

(** Deciding an approval through another run still decides it.
    [decideApproval] settles the approval first and compares the run afterwards:
    called with run B on a pending, unexpired approval of run A it answers that
    the approval belongs to a different run, and the approval is APPROVED. *)
Theorem decide_cross_run c t0 t1 runB id r :
  mget (approvals (k_approvals c)) id = Some r → a_status r = ApprovalStatus.PENDING →
  (t0 < a_expiresAt r)%Z → a_runId r ≠ runB →
  let '(c', answer) := decideApproval c t0 t1 runB id "approve" in
  answer = inr "approval belongs to a different run" ∧
  (a_status <$> mget (approvals (k_approvals c')) id) = Some ApprovalStatus.APPROVED.
Proof.
  intros E Hp Ht Hr. unfold decideApproval. change (String.eqb "approve" "approve") with true.
  cbv iota. unfold approve, settle.
  assert (mget (approvals (sweepExpired (k_approvals c) t0)) id = Some r) as Es.
  { simpl. rewrite mget_mmap, E. simpl. unfold expire. rewrite decide_False; [done|lia]. }
  rewrite Es, decide_True by done. cbv beta iota zeta.
  match goal with |- context [negb (String.eqb ?a runB)] => change a with (a_runId r) end.
  destruct (String.eqb_spec (a_runId r) runB); [done|]. cbn [negb]. split; [done|].
  unfold assign. cbn -[mset]. by rewrite mget_set_eq.
Qed.

(** A policy's [writeAccess] is never enforced by the gate: switching it in
    the run's policy changes no verdict, so a read-only run's approved writes go
    through like any other's. *)
Theorem write_access_unenforced e c k newId run tool params given apId pol b :
  mget (k_policies c) run = Some pol →
  (preGate sha256 e (c <| k_policies ::= λ m, mset m run (pol <| writeAccess := b |>) |>)
     k newId run tool params given apId).2 =
  (preGate sha256 e c k newId run tool params given apId).2.
Proof.
  intros E. unfold preGate, policyFor. simpl k_policies. rewrite mget_set_eq, E.
  destruct (production_boundary e tool); [done|]. destruct (negb _); [done|].
  change (isToolAllowedByPolicy (Some (pol <| writeAccess := b |>)) tool (Some (effective_definition tool given)))
    with (isToolAllowedByPolicy (Some pol) tool (Some (effective_definition tool given))).
  destruct (isToolAllowedByPolicy _ _ _) as [[] reason]; [|done]. simpl negb. cbn match.
  change (k_constraints (c <| k_policies ::= λ m, mset m run (pol <| writeAccess := b |>) |>)) with (k_constraints c).
  destruct (constraint_block _ _ _ _); [done|].
  change (needsApproval (Some (pol <| writeAccess := b |>)) (Some (effective_definition tool given))
    (Some (classifyRisk (Some (effective_definition tool given)) params).1))
    with (needsApproval (Some pol) (Some (effective_definition tool given))
    (Some (classifyRisk (Some (effective_definition tool given)) params).1)).
  destruct (needsApproval _ _ _) as [[] why]; [|done].
  change (k_approvals (c <| k_policies ::= λ m, mset m run (pol <| writeAccess := b |>) |>)) with (k_approvals c).
  by destruct (approval_step _ _ _ _ _ _ _ _ _ _).
Qed.
End Props.

(** ** Witnesses *)

Definition sample_env : gate_env := GateEnv false None (λ _, "/ws") (λ _ _, true).

Definition sample_params : jsval := JObj [("message", JStr "x")].

(** A run with one approved commit. *)
Definition sample_controller : controller :=
  Controller (history id (new_store None None)
    [ORequest 0 "a1" sample_request; OApprove 1 1 "a1" None]).1 [] [].

Definition sample_clock : clock := Clock 2 2 2 2 2.

Definition sample_pass : controller * res gate_result :=
  preGate id sample_env sample_controller sample_clock "a2" "run-1" "git_commit" sample_params None None.

Lemma sample_pass_allowed : sample_pass = (sample_pass.1, Ok (Allowed (Some "a1"))).
Proof. vm_compute. reflexivity. Qed.

Lemma gate_sound_witness :
  ∃ id', Some "a1" = Some id' ∧
    used_approval id (k_approvals sample_controller) (k_approvals sample_pass.1) "run-1" "git_commit"
      sample_params id'.
Proof.
  apply (gate_sound id sample_env sample_controller sample_clock "a2" "run-1" "git_commit" sample_params
    None None sample_pass.1 (Some "a1") sample_pass_allowed).
  vm_compute. reflexivity.
Defined.

Lemma gated_tools_consume_approval_witness :
  ∃ id', Some "a1" = Some id' ∧
    used_approval id (k_approvals sample_controller) (k_approvals sample_pass.1) "run-1" "git_commit"
      sample_params id'.
Proof.
  destruct (find_tool "git_commit") as [cd|] eqn:E; [|vm_compute in E; discriminate E].
  eapply (gated_tools_consume_approval id sample_env sample_controller sample_clock "a2" "run-1" "git_commit"
    sample_params None None sample_pass.1 (Some "a1") cd sample_pass_allowed).
  - left. reflexivity.
  - exact E.
  - vm_compute in E. injection E as <-. reflexivity.
  - right. split; [vm_compute; discriminate|]. intros [H _]. vm_compute in H. discriminate H.
Defined.

Definition pending_controller : controller :=
  Controller (history id (new_store None None) [ORequest 0 "a1" sample_request]).1 [] [].

Lemma decide_cross_run_witness :
  let '(c', answer) := decideApproval pending_controller 1 1 "run-2" "a1" "approve" in
  answer = inr "approval belongs to a different run" ∧
  (a_status <$> mget (approvals (k_approvals c')) "a1") = Some ApprovalStatus.APPROVED.
Proof.
  destruct (mget (approvals (k_approvals pending_controller)) "a1") as [r|] eqn:E;
    [|vm_compute in E; discriminate E].
  apply (decide_cross_run pending_controller 1 1 "run-2" "a1" r E);
    vm_compute in E; injection E as <-; [reflexivity|reflexivity|discriminate].
Defined.

Lemma write_access_unenforced_witness :
  let pol := defaultPolicy "/ws" no_overrides in
  let c := Controller (new_store None None) [("run-1", pol)] [] in
  (preGate id sample_env (c <| k_policies ::= λ m, mset m "run-1" (pol <| writeAccess := true |>) |>)
     sample_clock "a2" "run-1" "apply_patch" sample_params None None).2 =
  (preGate id sample_env c sample_clock "a2" "run-1" "apply_patch" sample_params None None).2.
Proof. apply (write_access_unenforced id sample_env _ sample_clock). reflexivity. Defined.
