(* ===== verification/Changesets.v ===== *)
(** Changesets: backend/src/execution/changesets.js.

    A changeset is proposed from exact-match edits against the files as they
    are, applied to all its files or none, and rolled back only over the
    changeset's own output.  The file system is a map from paths to contents
    behind awaited operations: each consumes one [tick] of the environment,
    which says whether it fails (a failing write may leave a partial file) and
    what the clock reads.  Files hold text: reading with [utf8] and writing are
    inverse on it (bytes that are not UTF-8 are not modelled), and nothing outside
    the operations modelled writes to the files while one of them runs.  Symbolic
    links enter through [h_realpath], sha256 is a parameter. *)

From S2P Require Import Prelude StateM JsMap JsValue Text ToolSystem Paths.

Local Open Scope string_scope.
Local Open Scope js_scope.

Module ChangesetStatus.
(* [src/backend/src/execution/changesets.js:16-26] ChangesetStatus *)
Inductive t : Set :=
| PROPOSED | DRY_RUN | PENDING_APPROVAL | APPROVED | APPLYING | APPLIED | FAILED
| ROLLED_BACK | CONFLICT.

#[global] Instance t_eq_dec : EqDecision t.
Proof. solve_decision. Defined.

(* [src/backend/src/execution/changesets.js:16-26] ChangesetStatus *)
Definition value (x : t) : string :=
  match x with
  | PROPOSED => "PROPOSED" | DRY_RUN => "DRY_RUN" | PENDING_APPROVAL => "PENDING_APPROVAL"
  | APPROVED => "APPROVED" | APPLYING => "APPLYING" | APPLIED => "APPLIED"
  | FAILED => "FAILED" | ROLLED_BACK => "ROLLED_BACK" | CONFLICT => "CONFLICT"
  end.
End ChangesetStatus.

(** ** The workspace sandbox *)

(** [s.replace(/\0/g, '')] *)
Fixpoint strip_nul (p : string) : string :=
  match p with
  | String c p' => if Ascii.eqb c "000"%char then strip_nul p' else String c (strip_nul p')
  | EmptyString => EmptyString
  end.

(** [path.dirname], [path.basename] of a normalized absolute path. *)
Definition dirname (p : string) : string :=
  render_path (take (length (segments p) - 1) (segments p)).
Definition basename (p : string) : string := default "" (last (segments p)).

Definition escapes (what requested : string) : js_error :=
  JsError (Some "path_escape") (what ++ " escapes workspace: " ++ requested).

(** The real location of [abs]: of the file when it exists, below that of its
    directory otherwise; [None] when neither resolves. *)
(* [src/backend/src/execution/changesets.js:55-59] realpath of the path or of its parent *)
Definition real_location (h : host) (abs : string) : option string :=
  match h_realpath h abs with
  | Some r => Some r
  | None => (λ p, path_resolve p (basename abs)) <$> h_realpath h (dirname abs)
  end.

(* [src/backend/src/execution/changesets.js:45-68] sandboxPath *)
Definition sandboxPath (h : host) (workspace : option string) (requested : string) : res string :=
  let ws := resolveWorkspaceRoot h workspace in
  let rel := strip_nul (strip_slashes requested) in
  if bool_decide (rel = "" ∨ rel = ".") then Throw (JsError (Some "bad_params") "path is required")
  else
    let abs := path_resolve ws rel in
    if negb (inside_root ws abs) then Throw (escapes "Path" requested)
    else match real_location h abs with
    | Some real => if inside_root ws real then Ok abs else Throw (escapes "Symlink" requested)
    | None => Ok abs
    end.

(** Byte values: a NUL byte, or more than 30% control bytes, in the first
    8000. *)
(* [src/backend/src/execution/changesets.js:70-80] isBinaryBuffer *)
Definition isBinaryBuffer (buf : list Z) : bool :=
  let sample := take (N.to_nat 8000) buf in
  if decide (0%Z ∈ sample) then true
  else
    let odd := length (filter (λ b, b < 9 ∨ (13 < b ∧ b < 32))%Z sample) in
    bool_decide (0 < length sample ∧ 3 * length sample < 10 * odd)%nat.

(** ** Text edits *)

(** The text around the first occurrence of [p] in [s]. *)
Fixpoint find_first (p s : string) : option (string * string) :=
  if starts_with p s then Some ("", string_drop (String.length p) s)
  else match s with
  | EmptyString => None
  | String c s' => (λ ab : string * string, (String c ab.1, ab.2)) <$> find_first p s'
  end.

(** The replacement text of [String.prototype.replace] for a string pattern:
    [$$], [$&], [$`] and [$'] are special. *)
Fixpoint expand (before matched after tpl : string) : string :=
  match tpl with
  | String "$" (String c t as rest) =>
      if Ascii.eqb c "$" then String "$" (expand before matched after t)
      else if Ascii.eqb c "&" then matched ++ expand before matched after t
      else if Ascii.eqb c "`" then before ++ expand before matched after t
      else if Ascii.eqb c "'" then after ++ expand before matched after t
      else String "$" (expand before matched after rest)
  | String c t => String c (expand before matched after t)
  | EmptyString => EmptyString
  end.

(** [s.replace(p, t)] for strings: the first occurrence only. *)
Definition replace_first (p t s : string) : string :=
  match find_first p s with
  | Some (before, after) => before ++ expand before p after t ++ after
  | None => s
  end.

(** [None]: the property is not a string. *)
(* [src/backend/src/execution/changesets.js:109-112] an edit *)
Record edit := Edit { oldText : option string; newText : option string }.

(** [f.edits]: [None] when it is not an array. *)
(* [src/backend/src/execution/changesets.js:100-103] a file of a proposal *)
Record file_edits := FileEdits { f_path : string; f_edits : option (list edit) }.

Definition line_count (s : string) : nat := length (split_on newline s).

(** The new content and the lines added and deleted. *)
(* [src/backend/src/execution/changesets.js:109-122] edits loop *)
Fixpoint apply_edits (path : string) (next : string) (add del : nat) (eds : list edit)
    : res (string * nat * nat) :=
  match eds with
  | [] => Ok (next, add, del)
  | Edit (Some (String _ _ as old)) (Some new) :: eds' =>
      if contains old next then
        let o := line_count old in
        let n := line_count new in
        apply_edits path (replace_first old new next)
          (if decide (o ≤ n)%nat then add + (n - o) else add)%nat
          (if decide (o ≤ n)%nat then del else del + (o - n))%nat eds'
      else Throw (JsError (Some "patch_conflict")
             ("Patch context not found in " ++ path ++ "; no changes applied"))
  | _ :: _ => Throw (JsError (Some "bad_params") "Each edit needs oldText/newText strings")
  end.

(** ** Records *)

(* [src/backend/src/execution/changesets.js:123-131] entry *)
Record entry := Entry {
  e_path : string;
  e_abs : string;
  e_edits : list edit;
  beforeHash : string;
  afterHash : string;
  afterContent : string;
  bytesBefore : nat;
  bytesAfter : nat;
}.

(** The summaries computed from the entries ([files], [beforeHashes],
    [afterHashes], [patch]) are read off [_entries]. *)
(* [src/backend/src/execution/changesets.js:134-148] record *)
Record changeset := Changeset {
  cs_id : string;
  cs_runId : string;
  additions : nat;
  deletions : nat;
  riskLevel : RiskLevel.t;
  status : ChangesetStatus.t;
  createdAt : Z;
  appliedAt : option Z;
  _entries : list entry;
}.

#[export] Instance changeset_eta : Eta changeset := λ r,
  Changeset (cs_id r) (cs_runId r) (additions r) (deletions r) (riskLevel r) (status r)
    (createdAt r) (appliedAt r) (_entries r).

(* [src/backend/src/execution/changesets.js:137-137] files of a record *)
Definition files_summary (r : changeset) : list (string * string * string * nat) :=
  (λ e, (e_path e, beforeHash e, afterHash e, length (e_edits e))) <$> _entries r.

(* [src/backend/src/execution/changesets.js:140-141] beforeHashes, afterHashes *)
Definition hashes (f : entry → string) (r : changeset) : jsmap string string :=
  foldl (λ m e, mset m (e_path e) (f e)) [] (_entries r).

(** What leaves the store: everything but the apply plan. *)
(* [src/backend/src/execution/changesets.js:278-281] publicChangeset *)
Definition publicChangeset (r : changeset) : changeset := r <| _entries := [] |>.

(** ** The file system *)

Record tick := Tick { t_fault : option (js_error * option string); t_now : Z }.

(** [files] maps absolute paths to contents; [env] is what the next awaited
    operations meet. *)
Record sys := Sys {
  changesets : jsmap string changeset;
  files : gmap string string;
  env : list tick;
}.

#[export] Instance sys_eta : Eta sys := λ s, Sys (changesets s) (files s) (env s).

Abbreviation io := (M sys).

Definition next_tick : io tick := λ s,
  match env s with [] => (s, Ok (Tick None 0)) | t :: e => (s <| env := e |>, Ok t) end.

(** [Date.now()] *)
Definition date_now : io Z := gets (λ s, if env s is t :: _ then t_now t else 0%Z).

Definition enoent (p : string) : js_error :=
  JsError (Some "ENOENT") ("ENOENT: no such file or directory, open '" ++ p ++ "'").

(** A read; decoding is the identity on text. *)
Definition readFile (p : string) : io string :=
  t ← next_tick;
  if t_fault t is Some (e, _) then throw e else
  f ← gets files;
  if f !! p is Some c then mret c else throw (enoent p).

Definition writeFile (p c : string) : io unit :=
  t ← next_tick;
  match t_fault t with
  | Some (e, partial) =>
      modify (λ s, s <| files ::= λ f, if partial is Some c' then <[p := c']> f else f |>) ≫= λ _, throw e
  | None => modify (λ s, s <| files ::= λ f, <[p := c]> f |>)
  end.

Definition rename (a b : string) : io unit :=
  t ← next_tick;
  if t_fault t is Some (e, _) then throw e else
  f ← gets files;
  if f !! a is Some c then modify (λ s, s <| files ::= λ f, <[b := c]> (delete a f) |>)
  else throw (enoent a).

(** [readFile(p).catch(() => null)] *)
Definition read_or_null (p : string) : io (option string) :=
  try_catch (c ← readFile p; mret (Some c)) (λ _, mret None).

(** Write to a temporary name, then rename over the target. *)
Definition replace_file (abs tmp c : string) : io unit := writeFile tmp c ≫= λ _, rename tmp abs.

Section Store.
Context (h : host) (sha256 : string → string) (pid : Z).

(** ** Proposing *)

Definition not_found (p : string) : js_error := JsError (Some "not_found") ("File not found: " ++ p).

(* [src/backend/src/execution/changesets.js:100-132] propose, one file *)
Definition propose_file (ws : string) (f : file_edits) : io (entry * nat * nat) :=
  abs ← lift (sandboxPath h (Some ws) (f_path f));
  let edits := take 20 (default [] (f_edits f)) in
  if edits is [] then
    throw (JsError (Some "bad_params") ("edits[] required for " ++ f_path f))
  else
    oc ← read_or_null abs;
    match oc with
    | None => throw (not_found (f_path f))
    | Some content =>
        if decide (500000 < N.of_nat (String.length content))%N then
          throw (JsError (Some "too_large") ("File too large: " ++ f_path f))
        else
          r ← lift (apply_edits (f_path f) content 0 0 edits);
          let '(next, add, del) := r in
          mret (Entry (f_path f) abs edits (sha256 content) (sha256 next) next
                  (String.length content) (String.length next), add, del)
    end.

(* [src/backend/src/execution/changesets.js:97-132] propose, loop *)
Fixpoint propose_files (ws : string) (fs : list file_edits) (es : list entry) (add del : nat)
    : io (list entry * nat * nat) :=
  match fs with
  | [] => mret (es, add, del)
  | f :: fs' =>
      r ← propose_file ws f;
      let '(e, a, d) := r in propose_files ws fs' (es ++ [e]) (add + a) (del + d)
  end.

(** [files]: [None] when it is not an array; [newId] is the generated id. *)
(* [src/backend/src/execution/changesets.js:92-151] propose *)
Definition propose (newId : string) (runId workspace : option string)
    (fs : option (list file_edits)) (risk : option RiskLevel.t) : io changeset :=
  if negb (truthy runId) then throw (JsError None "runId is required")
  else match fs with
  | None | Some [] => throw (JsError None "files[] is required")
  | Some fs =>
      if decide (20 < length fs)%nat then
        throw (JsError None "too many files in one changeset (max 20)")
      else
        let ws := resolveWorkspaceRoot h workspace in
        r ← propose_files ws (take 20 fs) [] 0 0;
        let '(es, add, del) := r in
        now ← date_now;
        let record := Changeset newId (default "" runId) add del
          (default RiskLevel.MEDIUM risk) ChangesetStatus.PROPOSED now None es in
        modify (λ s, s <| changesets ::= λ m, mset m newId record |>) ≫= λ _,
        mret (publicChangeset record)
  end.

(* [src/backend/src/execution/changesets.js:153-156] get *)
Definition get (s : sys) (id : string) : option changeset :=
  publicChangeset <$> mget (changesets s) id.

(* [src/backend/src/execution/changesets.js:158-160] listForRun *)
Definition listForRun (s : sys) (run : string) : list changeset :=
  publicChangeset <$> filter (λ r, cs_runId r = run) (mvalues (changesets s)).

(* [src/backend/src/execution/changesets.js:264-269] mark *)
Definition mark (s : sys) (id : string) (st : ChangesetStatus.t) : sys * option changeset :=
  (s <| changesets ::= λ m, malter (λ r, r <| status := st |>) m id |>,
   (λ r, publicChangeset (r <| status := st |>)) <$> mget (changesets s) id).

(* [src/backend/src/execution/changesets.js:271-275] clearRun *)
Definition clearRun (s : sys) (run : string) : sys :=
  s <| changesets ::= λ m, filter (λ p : string * changeset, cs_runId p.2 ≠ run) m |>.

(** ** Applying *)

Definition backup : Type := string * string.

(* [src/backend/src/execution/changesets.js:187-187] temporary name *)
Definition tmp_apply (abs : string) (now : Z) : string :=
  abs ++ ".tmp-" ++ string_of_Z pid ++ "-" ++ string_of_Z now.
(* [src/backend/src/execution/changesets.js:210-210] temporary name *)
Definition tmp_restore (abs : string) : string := abs ++ ".tmp-" ++ "restore-" ++ string_of_Z pid.
(* [src/backend/src/execution/changesets.js:238-238] temporary name *)
Definition tmp_rollback (abs : string) : string := abs ++ ".tmp-" ++ "rollback-" ++ string_of_Z pid.

(* [src/backend/src/execution/changesets.js:207-215] _restore *)
Definition _restore (backups : list backup) : io unit :=
  for_each (λ b : backup, try_catch (replace_file b.1 (tmp_restore b.1) b.2) (λ _, mret tt)) backups.

(** How the loop over the entries leaves: with what error. *)
Inductive outcome :=
| Completed
| Changed (path : string)
| Unverified (path : string)
| Failed (e : js_error).

(** The backups are the array the handlers see, so they are returned on every
    way out. *)
(* [src/backend/src/execution/changesets.js:176-196] apply, loop *)
Fixpoint apply_entries (ws : string) (es : list entry) (backups : list backup) (s : sys)
    : sys * list backup * outcome :=
  match es with
  | [] => (s, backups, Completed)
  | e :: es' =>
      match sandboxPath h (Some ws) (e_path e) with
      | Throw err => (s, backups, Failed err)
      | Ok abs =>
      match read_or_null abs s with
      | (s, Throw err) => (s, backups, Failed err)
      | (s, Ok None) => (s, backups, Failed (not_found (e_path e)))
      | (s, Ok (Some current)) =>
          if negb (String.eqb (sha256 current) (beforeHash e)) then (s, backups, Changed (e_path e))
          else
            let backups := (backups ++ [(abs, current)])%list in
            match (now ← date_now;
                   replace_file abs (tmp_apply abs now) (afterContent e) ≫= λ _, readFile abs) s with
            | (s, Throw err) => (s, backups, Failed err)
            | (s, Ok verify) =>
                if String.eqb (sha256 verify) (afterHash e) then apply_entries ws es' backups s
                else (s, backups, Unverified (e_path e))
            end
      end
      end
  end.

Definition set_status (id : string) (st : ChangesetStatus.t) : io unit :=
  modify (λ s, s <| changesets ::= λ m, malter (λ r, r <| status := st |>) m id |>).

Inductive apply_result :=
| Applied (r : changeset)
| Refused (error : string)
| ConflictAt (error : string)
| ApplyFailed (error : string) (code : option string).

(* [src/backend/src/execution/changesets.js:169-169] statuses that may be applied *)
Definition applicable (st : ChangesetStatus.t) : Prop :=
  st ∈ [ChangesetStatus.PROPOSED; ChangesetStatus.DRY_RUN; ChangesetStatus.APPROVED;
        ChangesetStatus.FAILED].

(* [src/backend/src/execution/changesets.js:166-205] apply *)
Definition apply (id : string) (workspace : option string) (s : sys) : sys * apply_result :=
  match mget (changesets s) id with
  | None => (s, Refused "changeset not found")
  | Some record =>
      if bool_decide (applicable (status record)) then
        let (s, _) := set_status id ChangesetStatus.APPLYING s in
        let ws := resolveWorkspaceRoot h workspace in
        match apply_entries ws (_entries record) [] s with
        | (s, _, Completed) =>
            let (s, now) := date_now s in
            let now := if now is Ok n then n else 0%Z in
            let r := record <| status := ChangesetStatus.APPLIED |> <| appliedAt := Some now |> in
            (s <| changesets ::= λ m, mset m id r |>, Applied (publicChangeset r))
        | (s, backups, Changed p) =>
            let (s, _) := set_status id ChangesetStatus.CONFLICT s in
            let (s, _) := _restore backups s in
            (s, ConflictAt ("conflict: " ++ p ++ " changed since proposal (user edit?)"))
        | (s, backups, Unverified p) =>
            let (s, _) := _restore backups s in
            let (s, _) := set_status id ChangesetStatus.FAILED s in
            (s, ApplyFailed ("hash verification failed for " ++ p) None)
        | (s, backups, Failed e) =>
            let (s, _) := _restore backups s in
            let (s, _) := set_status id ChangesetStatus.FAILED s in
            (s, ApplyFailed (slice0 500 (err_msg e))
                  (Some (or_str (default "" (err_code e)) "apply_failed")))
        end
      else (s, Refused ("changeset is " ++ ChangesetStatus.value (status record)))
  end.

(** ** Rolling back *)

(* [src/backend/src/execution/changesets.js:251-262] _reconstructBefore *)
Definition _reconstructBefore (e : entry) : res string :=
  let content := foldl (λ c ed, replace_first (default "" (newText ed)) (default "" (oldText ed)) c)
                   (afterContent e) (e_edits e) in
  if String.eqb (sha256 content) (beforeHash e) then Ok content
  else Throw (JsError None ("rollback integrity check failed for " ++ e_path e)).

Inductive reason := missing | modified_after_apply.

(* [src/backend/src/execution/changesets.js:227-243] rollback, loop *)
Fixpoint rollback_entries (ws : string) (es : list entry) (conflicts : list (string * reason))
    (restored : list string) : io (list (string * reason) * list string) :=
  match es with
  | [] => mret (conflicts, restored)
  | e :: es' =>
      abs ← lift (sandboxPath h (Some ws) (e_path e));
      current ← read_or_null abs;
      match current with
      | None => rollback_entries ws es' (conflicts ++ [(e_path e, missing)]) restored
      | Some current =>
          let hash := sha256 current in
          if negb (String.eqb hash (afterHash e)) && negb (String.eqb hash (beforeHash e)) then
            rollback_entries ws es' (conflicts ++ [(e_path e, modified_after_apply)]) restored
          else if String.eqb hash (afterHash e) then
            original ← lift (_reconstructBefore e);
            replace_file abs (tmp_rollback abs) original ≫= λ _,
            rollback_entries ws es' conflicts (restored ++ [e_path e])
          else rollback_entries ws es' conflicts restored
      end
  end.

Inductive rollback_result :=
| RolledBack (restored : list string) (r : changeset)
| RollbackRefused (error : string)
| RollbackConflicts (conflicts : list (string * reason)) (restored : list string).

(** [Throw]: the promise rejects. *)
(* [src/backend/src/execution/changesets.js:220-249] rollback *)
Definition rollback (id : string) (workspace : option string) : io rollback_result :=
  m ← gets changesets;
  match mget m id with
  | None => mret (RollbackRefused "changeset not found")
  | Some record =>
      if bool_decide (status record = ChangesetStatus.APPLIED) then
        let ws := resolveWorkspaceRoot h workspace in
        cr ← rollback_entries ws (_entries record) [] [];
        if cr.1 is [] then
          set_status id ChangesetStatus.ROLLED_BACK ≫= λ _,
          mret (RolledBack cr.2 (publicChangeset (record <| status := ChangesetStatus.ROLLED_BACK |>)))
        else mret (RollbackConflicts cr.1 cr.2)
      else mret (RollbackRefused ("cannot rollback " ++ ChangesetStatus.value (status record)))
  end.
End Store.

(** ** The git layer

    Running git is outside the program: [git_output] gives its truncated
    standard output (or the failure) from the commands run before and this one.
    The state is the list of commands run. *)

Module Git.

(* [src/backend/src/execution/changesets.js:285-287] GIT_READONLY, GIT_WRITE, GIT_HIGH_RISK *)
Definition GIT_READONLY : list string := ["status"; "diff"; "log"; "branch"; "show"; "rev-parse"].
Definition GIT_WRITE : list string := ["add"; "commit"; "branch"].
Definition GIT_HIGH_RISK : list string := ["push"; "reset"; "clean"; "checkout"].

(* [src/backend/src/execution/changesets.js:327-333] classifyGit *)
Definition classifyGit (args : list string) : RiskLevel.t * bool :=
  let sub := default "" (head args) in
  if decide (sub ∈ GIT_READONLY) then (RiskLevel.LOW, false)
  else if decide (sub ∈ GIT_WRITE) then (RiskLevel.MEDIUM, true)
  else if decide (sub ∈ GIT_HIGH_RISK) then (RiskLevel.HIGH, true)
  else (RiskLevel.CRITICAL, true).

Definition alnum (c : ascii) : bool := is_word c && negb (Ascii.eqb c "_"%char).

(* [src/backend/src/execution/changesets.js:335-335] BRANCH_RE *)
Definition BRANCH_RE (s : string) : bool :=
  match s with
  | String c r => alnum c && negb (any_char (λ d, negb (alnum d || one_of "._/-" d)) r)
                  && bool_decide (String.length r ≤ 127)%nat
  | EmptyString => false
  end.

Section Git.
Context (h : host) (git_output : list (list string) → list string → res string).

Abbreviation git := (M (list (list string))).

(* [src/backend/src/execution/changesets.js:303-325] runGit, the commands run *)
Definition runGit (args : list string) : git string := λ log,
  (log ++ [args], git_output log args)%list.

Definition truthy_lines (out : string) : list string := filter (λ l, l ≠ "") (split_on newline out).

(** index state, worktree state, path *)
(* [src/backend/src/execution/changesets.js:337-346] gitStatus *)
Definition gitStatus : git (string * list (string * string * string) * bool) :=
  porcelain ← runGit ["status"; "--porcelain=v1"; "--branch"];
  branch ← try_catch (runGit ["rev-parse"; "--abbrev-ref"; "HEAD"]) (λ _, mret "unknown");
  let fs := (λ l, (slice0 1 l, slice0 1 (string_drop 1 l), string_drop 3 l)) <$>
    take 100 (filter (λ l, starts_with "##" l = false) (truthy_lines porcelain)) in
  mret (trim branch, fs, bool_decide (length fs = 0%nat)).

(* [src/backend/src/execution/changesets.js:348-358] gitDiff *)
Definition gitDiff (staged : bool) (filePath : option string) : git (string * nat * nat) :=
  r ← runGit (["diff"] ++ (if staged then ["--cached"] else []) ++ ["--no-color"; "--"]
              ++ (if truthy filePath then [default "" filePath] else []))%list;
  let counted (p : string) := length (filter (λ l,
    starts_with p l = true ∧ starts_with (p ++ p ++ p) l = false) (split_on newline r)) in
  mret (r, counted "+", counted "-").

(* [src/backend/src/execution/changesets.js:369-374] gitBranches *)
Definition gitBranches : git (list (bool * string)) :=
  r ← runGit ["branch"; "--list"; "-vv"];
  mret ((λ l, (starts_with "*" l,
    default "" (head (words is_space (trim (match l with
      | String "*" rest => default l (strip_spaces rest) | _ => l end))))))
    <$> take 50 (truthy_lines r)).

(* [src/backend/src/execution/changesets.js:376-386] gitCreateBranch *)
Definition gitCreateBranch (name : string) (checkout : bool) : git (string * bool) :=
  if negb (BRANCH_RE name) || contains ".." name then
    throw (JsError (Some "bad_params") "invalid branch name")
  else
    runGit (if checkout then ["checkout"; "-b"; name] else ["branch"; name]) ≫= λ _,
    mret (name, checkout).

Definition refuse_broad (p : string) : js_error :=
  JsError (Some "denied") ("refusing broad add: " ++ p).

(* [src/backend/src/execution/changesets.js:392-397] gitAdd, one path *)
Definition check_add (workspace : option string) (p : string) : git unit :=
  if String.eqb p "." || String.eqb p "-A" || starts_with "-" p then throw (refuse_broad p)
  else lift (sandboxPath h (Some (resolveWorkspaceRoot h workspace)) p) ≫= λ _, mret tt.

(** [paths]: [None] when it is not an array. *)
(* [src/backend/src/execution/changesets.js:388-400] gitAdd *)
Definition gitAdd (workspace : option string) (paths : option (list string)) : git (list string) :=
  let paths := default [] paths in
  if bool_decide (paths = [] ∨ 20 < length paths)%nat then
    throw (JsError (Some "bad_params") "paths[] (1-20 explicit files) is required; never -A")
  else
    for_each (check_add workspace) paths ≫= λ _,
    runGit (["add"; "--"] ++ paths)%list ≫= λ _, mret paths.

(* [src/backend/src/execution/changesets.js:405-423] gitCommit *)
Definition gitCommit (message : string) (allowedPaths : option (list string))
    : git (string * list string * string) :=
  let msg := trim message in
  if bool_decide (N.of_nat (String.length msg) < 4 ∨ 500 < N.of_nat (String.length msg))%N then
    throw (JsError (Some "bad_params") "commit message must be 4-500 chars")
  else
    staged ← runGit ["diff"; "--cached"; "--name-only"];
    let stagedPaths := filter (λ p, p ≠ "") (trim <$> split_on newline staged) in
    let unrelated := filter (λ p, p ∉ default stagedPaths allowedPaths) stagedPaths in
    if stagedPaths is [] then throw (JsError (Some "bad_params") "nothing staged to commit")
    else if unrelated is [] then
      runGit ["commit"; "-m"; msg] ≫= λ _,
      hd ← runGit ["rev-parse"; "--short"; "HEAD"];
      mret (trim hd, stagedPaths, msg)
    else throw (JsError (Some "scope_violation")
            ("refusing to commit unrelated changes: " ++ js_join ", " (take 5 unrelated))).
End Git.
End Git.

(** ** The sandbox confines *)

(** What an accepted path satisfies. *)
Definition confined (h : host) (workspace : option string) (abs : string) : Prop :=
  let ws := resolveWorkspaceRoot h workspace in
  inside_root ws abs = true ∧ (∀ real, real_location h abs = Some real → inside_root ws real = true).

Lemma sandboxPath_confined h w p abs : sandboxPath h w p = Ok abs → confined h w abs.
Proof.
  unfold sandboxPath, confined. set (ws := resolveWorkspaceRoot h w).
  destruct (bool_decide _); [done|]. destruct (inside_root ws (path_resolve ws _)) eqn:E; [|done].
  cbn [negb]. destruct (real_location h _) as [real|] eqn:Er.
  - destruct (inside_root ws real) eqn:Ei; [|done]. intros [= <-]. split; [done|]. intros ? E2. congruence.
  - intros [= <-]. split; [done|]. intros ? E2. congruence.
Qed.

(** ** File operations *)

(** [s'] differs from [s] only on the paths [P] of the file map. *)
Definition only (P : string → Prop) (s s' : sys) : Prop :=
  changesets s' = changesets s ∧ ∀ p, ¬ P p → files s' !! p = files s !! p.

#[export] Instance only_refl P : Reflexive (only P).
Proof. by intros s. Qed.
#[export] Instance only_trans P : Transitive (only P).
Proof. intros s1 s2 s3 [H1 H2] [H3 H4]. split; [congruence|]. intros p Hp. by rewrite H4, H2. Qed.

Lemma only_weaken (P Q : string → Prop) s s' : (∀ p, P p → Q p) → only P s s' → only Q s s'.
Proof. intros H [H1 H2]. split; [done|]. intros p Hp. apply H2. auto. Qed.

Lemma keeps_tick P : keeps (only P) next_tick.
Proof. intros [c f [|t e]]; by split. Qed.

Lemma keeps_read P p : keeps (only P) (readFile p).
Proof.
  apply keeps_bind; [apply _|apply keeps_tick|]. intros t s. destruct (t_fault t) as [[]|]; [done|].
  unfold gets, mbind, M_bind. by destruct (files s !! p).
Qed.

Lemma keeps_write p c : keeps (only (λ q, q = p)) (writeFile p c).
Proof.
  apply keeps_bind; [apply _|apply keeps_tick|]. intros t s.
  assert (∀ c', only (λ q, q = p) s (s <| files ::= λ f, <[p := c']> f |>)) as H.
  { intros c'. split; [done|]. intros q Hq. cbn. by rewrite lookup_insert_ne by done. }
  destruct (t_fault t) as [[e [c'|]]|]; [apply H|split; done|apply H].
Qed.

Lemma keeps_rename a b : keeps (only (λ q, q = a ∨ q = b)) (rename a b).
Proof.
  apply keeps_bind; [apply _|apply keeps_tick|]. intros t s. destruct (t_fault t) as [[]|]; [done|].
  unfold gets, mbind, M_bind. cbn. destruct (files s !! a); [|done]. split; [done|].
  intros q Hq. cbn. by rewrite lookup_insert_ne, lookup_delete_ne by naive_solver.
Qed.

Lemma keeps_replace abs tmp c : keeps (only (λ q, q = tmp ∨ q = abs)) (replace_file abs tmp c).
Proof.
  apply keeps_bind; [apply _| |].
  - intros s. eapply only_weaken; [|apply keeps_write]. naive_solver.
  - intros _. apply keeps_rename.
Qed.

(** A replacement is atomic: the target holds the new content exactly when the
    operation returned, its old content otherwise. *)
Lemma replace_file_spec abs tmp c s s' r :
  tmp ≠ abs → replace_file abs tmp c s = (s', r) →
  only (λ q, q = tmp ∨ q = abs) s s' ∧
  files s' !! abs = (if r is Ok _ then Some c else files s !! abs).
Proof.
  intros Hne E. split; [pose proof (keeps_replace abs tmp c s) as K; by rewrite E in K|].
  revert E. unfold replace_file. unfold mbind at 1, M_bind.
  pose proof (keeps_write tmp c s) as [_ Kw]. specialize (Kw abs ltac:(congruence)).
  destruct (writeFile tmp c s) as [s1 [[]|e]] eqn:Ew; [|by intros [= <- <-]].
  cbn in Kw. rewrite <- Kw. clear Kw.
  unfold rename, next_tick, gets, throw, modify, mbind, M_bind. destruct s1 as [cs f [|t en]]; cbn.
  - destruct (f !! tmp) as [c'|] eqn:Et; intros [= <- <-]; cbn; [|done].
    revert Ew. unfold writeFile, next_tick, modify, throw, mbind, M_bind.
    destruct s as [cs0 f0 [|[[[e [d|]]|] nw] en0]]; cbn; intros [= -> <-]; rewrite lookup_insert_eq;
      rewrite lookup_insert_eq in Et; congruence.
  - destruct (t_fault t) as [[e pt]|]; [by intros [= <- <-]|]. cbn.
    destruct (f !! tmp) as [c'|] eqn:Et; intros [= <- <-]; cbn; [|done].
    revert Ew. unfold writeFile, next_tick, modify, throw, mbind, M_bind.
    destruct s as [cs0 f0 [|[[[e [d|]]|] nw] en0]]; cbn; intros [= -> <-]; rewrite lookup_insert_eq;
      rewrite lookup_insert_eq in Et; congruence.
Qed.

Lemma readFile_spec p s s' c : readFile p s = (s', Ok c) → files s' = files s ∧ files s !! p = Some c.
Proof.
  unfold readFile. rewrite bind_ok. intros (s1 & t & Et & E).
  assert (files s1 = files s) as Hf by (revert Et; unfold next_tick; by destruct (env s); intros [= <- <-]).
  destruct (t_fault t) as [[]|]; [done|]. revert E. unfold gets, mbind, M_bind, mret, M_ret.
  destruct (files s1 !! p) eqn:El; [|done]. intros [= <- <-]. by rewrite <- Hf.
Qed.

Lemma read_files p s : files (readFile p s).1 = files s.
Proof. pose proof (keeps_read (λ _, False) p s) as [_ H]. apply map_eq. intros q. apply H. tauto. Qed.

Lemma read_or_null_spec p s s' r : read_or_null p s = (s', r) →
  only (λ _, False) s s' ∧ ∃ o, r = Ok o ∧ (∀ c, o = Some c → files s !! p = Some c).
Proof.
  unfold read_or_null, try_catch. pose proof (keeps_read (λ _, False) p s) as K.
  unfold mbind at 1, M_bind. destruct (readFile p s) as [s1 [c|e]] eqn:E; cbn; intros [= <- <-].
  - split; [done|]. exists (Some c). split; [done|]. intros ? [= <-]. by apply readFile_spec in E as [_ ?].
  - split; [done|]. by exists None.
Qed.

(** ** Applying, all or nothing *)

Lemma append_nil_inj (a t : string) : a ++ t = a → t = "".
Proof. induction a as [|c a IH]; simpl; [done|]. intros [= E]. auto. Qed.

(** Scratch names of the files [ts]. *)
Definition scratch (ts : list string) (p : string) : Prop :=
  ∃ a t, a ∈ ts ∧ p = a ++ ".tmp-" ++ t.

(** No file of the changeset has the form of another's temporary name. *)
Definition no_scratch (ts : list string) : Prop := ∀ a, a ∈ ts → ¬ scratch ts a.

Definition fault_free (s : sys) : Prop := Forall (λ t, t_fault t = None) (env s).

Lemma tick_free s : fault_free s → ∃ t s', next_tick s = (s', Ok t) ∧ t_fault t = None ∧
  files s' = files s ∧ changesets s' = changesets s ∧ fault_free s'.
Proof.
  unfold fault_free, next_tick. destruct s as [c f [|t e]]; cbn; intros H; [by eexists _, _|].
  inversion H; subst. by eexists _, _.
Qed.

Lemma replace_free abs tmp c s : fault_free s →
  ∃ s', replace_file abs tmp c s = (s', Ok tt) ∧ fault_free s'.
Proof.
  intros (t & s1 & E1 & F1 & _ & _ & H1)%tick_free.
  unfold replace_file, writeFile, rename, mbind, M_bind. rewrite E1, F1. unfold modify.
  set (s2 := s1 <| files ::= _ |>).
  assert (files s2 !! tmp = Some c) as Hf by apply lookup_insert_eq.
  destruct (tick_free s2 H1) as (t2 & s3 & E2 & F2 & Hf2 & _ & H3).
  rewrite E2, F2. unfold gets. rewrite Hf2, Hf. by eexists.
Qed.

Section ApplySpec.
Context (h : host) (sha256 : string → string) (pid : Z) (ws : string).

Definition resolves (e : entry) (abs : string) : Prop := sandboxPath h (Some ws) (e_path e) = Ok abs.

Definition targets (es : list entry) : list string :=
  omap (λ e, match sandboxPath h (Some ws) (e_path e) with Ok a => Some a | Throw _ => None end) es.

Lemma elem_of_targets es a : a ∈ targets es ↔ ∃ e, e ∈ es ∧ resolves e a.
Proof.
  unfold targets, resolves. rewrite list_elem_of_omap. split; intros (e & He & E); exists e; (split; [done|]).
  - destruct (sandboxPath _ _ _); naive_solver.
  - by rewrite E.
Qed.

Context (ts : list string) (f0 : gmap string string).

(** Files outside the scratch names and the backups are as they were, and a
    backup is the content its file had. *)
Definition backed_up (bs : list backup) (s : sys) : Prop :=
  (∀ p, ¬ scratch ts p → p ∉ bs.*1 → files s !! p = f0 !! p) ∧
  (∀ b, b ∈ bs → f0 !! b.1 = Some b.2 ∧ b.1 ∈ ts).

(** Every file holds its old content or the new one, whole. *)
Definition whole (es : list entry) (s : sys) : Prop := ∀ p, ¬ scratch ts p →
  files s !! p = f0 !! p ∨ ∃ e, e ∈ es ∧ resolves e p ∧ files s !! p = Some (afterContent e).

Lemma restore_one b s s' r : ¬ scratch ts b.1 → b.1 ∈ ts →
  try_catch (replace_file b.1 (tmp_restore pid b.1) b.2) (λ _, mret tt) s = (s', r) →
  changesets s' = changesets s ∧
  (∀ p, ¬ scratch ts p → p ≠ b.1 → files s' !! p = files s !! p) ∧
  (files s' !! b.1 = files s !! b.1 ∨ files s' !! b.1 = Some b.2) ∧
  (fault_free s → files s' !! b.1 = Some b.2 ∧ fault_free s').
Proof.
  intros Hb Hin. unfold try_catch.
  destruct (replace_file _ _ _ s) as [s1 r1] eqn:E.
  assert (scratch ts (tmp_restore pid b.1)) as Ht by (by eexists _, _).
  destruct (replace_file_spec b.1 (tmp_restore pid b.1) b.2 s s1 r1) as [[Hc Hf] Ha];
    [congruence|exact E|].
  assert (fault_free s → files s1 !! b.1 = Some b.2 ∧ fault_free s1) as Hfree.
  { intros (s2 & E2 & H2)%(replace_free b.1 (tmp_restore pid b.1) b.2).
    rewrite E in E2. injection E2 as -> ->. done. }
  intros Es. assert (s' = s1) as -> by (destruct r1; by injection Es).
  split; [done|]. split; [|split; [destruct r1; auto|done]].
  intros p Hp Hne. apply Hf. intros [->| ->]; done.
Qed.

Lemma restore_spec es bs s s' r : no_scratch ts → (∀ b, b ∈ bs → f0 !! b.1 = Some b.2 ∧ b.1 ∈ ts) →
  _restore pid bs s = (s', r) →
  changesets s' = changesets s ∧ (whole es s → whole es s') ∧
  (fault_free s → (∀ p, ¬ scratch ts p → p ∉ bs.*1 → files s !! p = f0 !! p) →
   ∀ p, ¬ scratch ts p → files s' !! p = f0 !! p).
Proof.
  intros Hns. revert s s' r. induction bs as [|b bs IH]; intros s s' r Hbs.
  { intros [= <- <-]. split; [done|split; [done|]]. intros _ H p Hp. apply H; [done|]. apply not_elem_of_nil. }
  unfold _restore. simpl for_each. unfold mbind, M_bind.
  destruct (try_catch _ _ s) as [s1 r1] eqn:E1.
  destruct (Hbs b ltac:(by left)) as [Hb Hin].
  destruct (restore_one b s s1 r1 (Hns _ Hin) Hin E1) as (Hc & Hf & Hor & Hfree).
  assert (r1 = Ok tt) as ->.
  { revert E1. unfold try_catch. destruct (replace_file _ _ _ s) as [? [[]|]]; by intros [= _ <-]. }
  intros E2. destruct (IH s1 s' r) as (Hc' & Hw & Hall); [intros b' Hb'; apply Hbs; by right|exact E2|].
  split; [congruence|]. split.
  - intros Hs. apply Hw. intros p Hp. destruct (decide (p = b.1)) as [->|Hne].
    + destruct Hor as [->| ->]; [by apply Hs|left; by rewrite Hb].
    + rewrite (Hf p Hp Hne). by apply Hs.
  - intros Hfs Hs. destruct (Hfree Hfs) as [Hb1 Hfs1]. apply Hall; [done|].
    intros p Hp Hnin. destruct (decide (p = b.1)) as [->|Hne]; [by rewrite Hb|].
    rewrite (Hf p Hp Hne). apply Hs; [done|]. rewrite fmap_cons. by apply not_elem_of_cons.
Qed.

(** What a completed loop has done to the file of [e]. *)
Definition installed (e : entry) (s : sys) : Prop :=
  ∃ abs c0, resolves e abs ∧ f0 !! abs = Some c0 ∧ sha256 c0 = beforeHash e ∧
    files s !! abs = Some (afterContent e) ∧ sha256 (afterContent e) = afterHash e.

Lemma install_spec abs c s s1 r : abs ∈ ts →
  (now ← date_now; replace_file abs (tmp_apply pid abs now) c ≫= λ _, readFile abs) s = (s1, r) →
  ¬ scratch ts abs →
  changesets s1 = changesets s ∧
  (∀ p, ¬ scratch ts p → p ≠ abs → files s1 !! p = files s !! p) ∧
  (files s1 !! abs = files s !! abs ∨ files s1 !! abs = Some c) ∧
  (∀ v, r = Ok v → v = c ∧ files s1 !! abs = Some c).
Proof.
  intros Hin E Hns. unfold date_now, gets in E. unfold mbind at 1, M_bind in E.
  set (now := match env s with [] => _ | _ => _ end) in E.
  assert (scratch ts (tmp_apply pid abs now)) as Ht by (by eexists _, _).
  unfold mbind, M_bind in E. destruct (replace_file _ _ _ s) as [s2 r2] eqn:Er.
  apply replace_file_spec in Er as [[Hc Hf] Ha]; [|congruence].
  assert (changesets s2 = changesets s ∧
    (∀ p, ¬ scratch ts p → p ≠ abs → files s2 !! p = files s !! p)) as [Hc2 Hf2].
  { split; [done|]. intros p Hp Hne. apply Hf. intros [->| ->]; done. }
  destruct r2 as [[]|e]; [|injection E as <- <-; split; [done|split; [done|split; [by left|done]]]].
  pose proof (keeps_read (λ _, False) abs s2) as [Hck Hfk]. rewrite E in Hck, Hfk. cbn in Hck, Hfk.
  split; [congruence|]. split; [intros p Hp Hne; rewrite Hfk by tauto; by apply Hf2|].
  split; [right; rewrite Hfk by tauto; done|].
  intros v ->. apply readFile_spec in E as [_ E]. rewrite Hfk by tauto.
  rewrite Ha in E. injection E as ->. done.
Qed.

Lemma apply_entries_spec all es bs s s' bs' out :
  no_scratch ts → (∀ e, e ∈ es → e ∈ all) → (∀ a, a ∈ targets es → a ∈ ts) →
  NoDup (bs.*1 ++ targets es)%list → backed_up bs s → whole all s →
  apply_entries h sha256 pid ws es bs s = (s', bs', out) →
  changesets s' = changesets s ∧ backed_up bs' s' ∧ whole all s' ∧
  (∀ p, ¬ scratch ts p → p ∉ targets es → files s' !! p = files s !! p) ∧
  (out = Completed → ∀ e, e ∈ es → installed e s').
Proof.
  intros Hns. revert bs s. induction es as [|e es IH]; intros bs s Hall Hts Hnd Hbs Hw; simpl.
  { intros [= <- <- <-]. js_split; try done. intros _ e He. by apply not_elem_of_nil in He. }
  destruct (sandboxPath h (Some ws) (e_path e)) as [abs|err] eqn:Ep.
  2: { intros [= <- <- <-]. by js_split. }
  assert (targets (e :: es) = abs :: targets es) as Etg by (unfold targets; simpl; by rewrite Ep).
  rewrite Etg in *. assert (abs ∈ ts) as Hin by (apply Hts; by left).
  destruct (read_or_null abs s) as [s1 r1] eqn:Er.
  apply read_or_null_spec in Er as [[Hc1 Hf1'] (o & -> & Ho)].
  assert (files s1 = files s) as Hf1 by (apply map_eq; intros p; apply Hf1'; tauto). clear Hf1'.
  assert (backed_up bs s1 ∧ whole all s1) as [Hbs1 Hw1]
    by (split; [unfold backed_up|unfold whole]; rewrite Hf1; assumption).
  destruct o as [current|].
  2: { intros [= <- <- <-]. rewrite Hf1. by js_split. }
  specialize (Ho _ eq_refl).
  destruct (String.eqb_spec (sha256 current) (beforeHash e)) as [Eh|]; cbn [negb].
  2: { intros [= <- <- <-]. rewrite Hf1. by js_split. }
  destruct ((now ← date_now; _) s1) as [s2 r2] eqn:Ei.
  apply install_spec in Ei as (Hc2 & Hf2 & Hor & Hv); [|done|by apply Hns].
  assert (abs ∉ bs.*1) as Hnb.
  { intros Hb. apply NoDup_app in Hnd as (_ & Hd & _). apply (Hd abs Hb). by left. }
  assert (f0 !! abs = Some current) as H0.
  { destruct Hbs as [Hb _]. rewrite <- (Hb abs) by (done || by apply Hns). done. }
  assert (backed_up (bs ++ [(abs, current)]) s2) as Hbs2.
  { split.
    - intros p Hp Hn. rewrite fmap_app in Hn. apply not_elem_of_app in Hn as [Hn Hn'].
      apply not_elem_of_cons in Hn' as [Hn' _]. rewrite Hf2; [by apply Hbs1|done|done].
    - intros b [Hb|Hb%list_elem_of_singleton]%elem_of_app; [by apply Hbs|by subst b]. }
  assert (whole all s2) as Hw2.
  { intros p Hp. destruct (decide (p = abs)) as [->|Hne]; [|rewrite (Hf2 p Hp Hne); by apply Hw1].
    destruct Hor as [->| ->]; [by apply Hw1|]. right. exists e. split; [|done]. apply Hall. by left. }
  assert (∀ p, ¬ scratch ts p → p ∉ abs :: targets es → files s2 !! p = files s !! p) as Hfr.
  { intros p Hp [Hn _]%not_elem_of_cons. by rewrite Hf2, Hf1. }
  destruct r2 as [v|err].
  2: { intros [= <- <- <-]. js_split; try done. congruence. }
  destruct (String.eqb_spec (sha256 v) (afterHash e)) as [Ev|].
  2: { intros [= <- <- <-]. js_split; try done. congruence. }
  intros E. edestruct (IH (bs ++ [(abs, current)])%list s2) as (Hc3 & Hb3 & Hw3 & Hf3 & Hdone);
    [by intros; apply Hall; right|by intros; apply Hts; right| |done|done|exact E|].
  { rewrite fmap_app, <- app_assoc. done. }
  js_split; [congruence|done|done| |].
  - intros p Hp Hn. rewrite Hf3; [by apply Hfr|done|set_solver].
  - intros Hcomp e' [->|He']%elem_of_cons; [|by apply Hdone].
    destruct (Hv v eq_refl) as [-> Hfa].
    exists abs, current. split; [done|]. split; [done|]. split; [done|]. split; [|done].
    rewrite Hf3; [done|by apply Hns|].
    apply NoDup_app in Hnd as (_ & _ & Hnd). by apply NoDup_cons in Hnd as [? _].
Qed.
End ApplySpec.

Lemma set_status_spec id st s :
  let s' := (set_status id st s).1 in
  files s' = files s ∧ env s' = env s ∧
  ∀ id', mget (changesets s') id' =
    if decide (id = id') then (λ r, r <| status := st |>) <$> mget (changesets s) id else mget (changesets s) id'.
Proof. cbn. js_split; [done|done|]. intros id'. apply mget_malter. Qed.

(** The status an application leaves. *)
Definition left_status (res : apply_result) (old : ChangesetStatus.t) : ChangesetStatus.t :=
  match res with
  | Applied _ => ChangesetStatus.APPLIED
  | ConflictAt _ => ChangesetStatus.CONFLICT
  | ApplyFailed _ _ => ChangesetStatus.FAILED
  | Refused _ => old
  end.

Lemma undo_spec h ws pid ts f0 es bs s1 s1' s2 u :
  no_scratch ts → backed_up ts f0 bs s1 → whole h ws ts f0 es s1 →
  files s1' = files s1 → env s1' = env s1 → _restore pid bs s1' = (s2, u) →
  changesets s2 = changesets s1' ∧ whole h ws ts f0 es s2 ∧
  (fault_free s1 → ∀ p, ¬ scratch ts p → files s2 !! p = f0 !! p).
Proof.
  intros Hns [Hb1 Hb2] Hw Hf He Hr.
  destruct (restore_spec h pid ws ts f0 es bs s1' s2 u Hns Hb2 Hr) as (Hc & Hw2 & Hall).
  split; [done|]. split; [apply Hw2; unfold whole; by rewrite Hf|].
  intros Hfree. apply Hall; [unfold fault_free; by rewrite He|]. by rewrite Hf.
Qed.

(** What a caller of [apply] can rely on; [free]: no operation failed while
    the backups were restored. *)
Definition all_or_nothing h sha256 ws ts f0 (id : string) (r : changeset) (free : Prop)
    (s' : sys) (res : apply_result) : Prop :=
  whole h ws ts f0 (_entries r) s' ∧
  (∀ r', res = Applied r' → ∀ e, e ∈ _entries r → installed h sha256 ws f0 e s') ∧
  ((∀ r', res ≠ Applied r') → free → ∀ p, ¬ scratch ts p → files s' !! p = f0 !! p) ∧
  (status <$> mget (changesets s') id) = Some (left_status res (status r)).

(** The ways out of [apply] that undo the work done. *)
Lemma undo_result h sha256 ws pid ts f0 id r bs s1 s1' s2 u s3 res :
  no_scratch ts → backed_up ts f0 bs s1 → whole h ws ts f0 (_entries r) s1 →
  files s1' = files s1 → env s1' = env s1 → _restore pid bs s1' = (s2, u) → files s3 = files s2 →
  (∀ r', res ≠ Applied r') →
  (changesets s2 = changesets s1' →
     (status <$> mget (changesets s3) id) = Some (left_status res (status r))) →
  all_or_nothing h sha256 ws ts f0 id r (fault_free s1) s3 res.
Proof.
  intros Hns Hb1 Hw1 Hf He Hr H3 Hres Hst. unfold all_or_nothing, whole. rewrite H3.
  destruct (undo_spec _ _ _ _ _ _ _ _ _ _ _ Hns Hb1 Hw1 Hf He Hr) as (Hc & Hw2 & Hall).
  split; [exact Hw2|split; [|split; [by intros _|auto]]]. intros r' ->. by destruct (Hres r').
Qed.

(** C21: a changeset is applied to all of its files or to none. Let the paths of
    the changeset be distinct and none of them have the form of a temporary name
    of another ([<path>.tmp-...]), and let the files hold text (what a read
    decodes is what a write stores) that nothing else writes meanwhile. For any
    failures of the file system's operations, partial writes included: afterwards
    every file that is not a temporary one holds its old content or, if the
    changeset names it, the new one, never a part; if [apply] reports success,
    every file of the changeset held the content the proposal saw and now holds
    one with the promised hash; in every other case, unless an operation fails
    while the backups are being restored, every file is what it was; and the
    recorded status is the reported one. *)
Theorem changeset_all_or_nothing h sha256 pid id w s r :
  mget (changesets s) id = Some r →
  let ws := resolveWorkspaceRoot h w in
  let ts := targets h ws (_entries r) in
  NoDup ts → no_scratch ts →
  let '(s', res) := apply h sha256 pid id w s in
  all_or_nothing h sha256 ws ts (files s) id r
    (fault_free (apply_entries h sha256 pid ws (_entries r) []
       (set_status id ChangesetStatus.APPLYING s).1).1.1) s' res.
Proof.
  intros E ws ts Hnd Hns. unfold apply. rewrite E.
  assert (whole h ws ts (files s) (_entries r) s) as Hw0 by (intros p _; by left).
  destruct (bool_decide _); [|by split; [exact Hw0|split; [done|split; [done|rewrite E]]]].
  rewrite (surjective_pairing (set_status id ChangesetStatus.APPLYING s)).
  pose proof (set_status_spec id ChangesetStatus.APPLYING s) as (Hf0 & _ & Hs0).
  set (s0 := (set_status id ChangesetStatus.APPLYING s).1) in *. fold ws.
  specialize (Hs0 id). rewrite decide_True, E in Hs0 by done. cbn [fst].
  destruct (apply_entries h sha256 pid ws (_entries r) [] s0) as [[s1 bs] out] eqn:El.
  apply (apply_entries_spec h sha256 pid ws ts (files s) (_entries r)) in El
    as (Hc1 & Hb1 & Hw1 & _ & Hdone);
    [|done|done|done|done|split; [by rewrite Hf0|by intros ? ?%not_elem_of_nil]
     |unfold whole; by rewrite Hf0].
  cbn [fst].
  assert (∀ st s2, changesets s2 = changesets s1 →
    (status <$> mget (changesets (set_status id st s2).1) id) = Some st) as Hst.
  { intros st s2 Hc. destruct (set_status_spec id st s2) as (_ & _ & ->).
    by rewrite decide_True, Hc, Hc1, Hs0. }
  destruct out as [|p|p|e].
  - unfold date_now, gets. cbv beta iota zeta.
    split; [exact Hw1|split; [intros r' _; by apply Hdone|split; [intros H; by destruct (H _ eq_refl)|]]].
    cbn. by rewrite mget_set_eq.
  - destruct (_restore pid bs (set_status id ChangesetStatus.CONFLICT s1).1) as [s2 u] eqn:Er.
    change (set_status id ChangesetStatus.CONFLICT s1) with
      ((set_status id ChangesetStatus.CONFLICT s1).1, @Ok unit tt). cbv beta iota. rewrite Er. cbv beta iota.
    apply (undo_result h sha256 ws pid ts (files s) id r bs s1
      (set_status id ChangesetStatus.CONFLICT s1).1 s2 u s2 _ Hns Hb1 Hw1 eq_refl eq_refl Er);
      [done|done|]. intros Hc. rewrite Hc. by apply Hst.
  - destruct (_restore pid bs s1) as [s2 u] eqn:Er.
    change (set_status id ChangesetStatus.FAILED s2) with
      ((set_status id ChangesetStatus.FAILED s2).1, @Ok unit tt). cbv beta iota.
    apply (undo_result h sha256 ws pid ts (files s) id r bs s1 s1 s2 u _ _ Hns Hb1 Hw1 eq_refl eq_refl Er); [done|done|]. intros Hc. by apply Hst.
  - destruct (_restore pid bs s1) as [s2 u] eqn:Er.
    change (set_status id ChangesetStatus.FAILED s2) with
      ((set_status id ChangesetStatus.FAILED s2).1, @Ok unit tt). cbv beta iota.
    apply (undo_result h sha256 ws pid ts (files s) id r bs s1 s1 s2 u _ _ Hns Hb1 Hw1 eq_refl eq_refl Er); [done|done|]. intros Hc. by apply Hst.
Qed.

(** ** Rolling back *)

Section RollbackSpec.
Context (h : host) (sha256 : string → string) (pid : Z) (ws : string) (ts : list string).

(** The file of [e] went from the changeset's own output to its before image. *)
Definition reverted (e : entry) (s s' : sys) (p : string) : Prop :=
  resolves h ws e p ∧ (∃ c, files s !! p = Some c ∧ sha256 c = afterHash e) ∧
  ∃ c, files s' !! p = Some c ∧ sha256 c = beforeHash e.

Definition before_image (e : entry) (s : sys) : Prop :=
  ∃ abs c, resolves h ws e abs ∧ files s !! abs = Some c ∧ sha256 c = beforeHash e.

(** One step of the loop: files other than [abs] are left alone. *)
Definition steps_on (abs : string) (s s' : sys) : Prop :=
  changesets s' = changesets s ∧
  ∀ p, ¬ scratch ts p → p ≠ abs → files s' !! p = files s !! p.

Lemma rollback_write e abs s s' r original : no_scratch ts → abs ∈ ts →
  _reconstructBefore sha256 e = Ok original →
  replace_file abs (tmp_rollback pid abs) original s = (s', r) →
  steps_on abs s s' ∧ sha256 original = beforeHash e ∧
  files s' !! abs = (if r is Ok _ then Some original else files s !! abs).
Proof.
  intros Hns Hin Hr E. assert (scratch ts (tmp_rollback pid abs)) as Ht by (by eexists _, _).
  assert (¬ scratch ts abs) as Hn by (by apply Hns).
  destruct (replace_file_spec abs (tmp_rollback pid abs) original s s' r) as [[Hc Hf] Ha];
    [congruence|exact E|].
  split; [split; [done|]; intros p Hp Hne; apply Hf; intros [->| ->]; done|].
  split; [|done]. revert Hr. unfold _reconstructBefore.
  destruct (String.eqb_spec (sha256 (foldl (λ c ed, replace_first (default "" (newText ed))
    (default "" (oldText ed)) c) (afterContent e) (e_edits e))) (beforeHash e)); [|done].
  by intros [= <-].
Qed.

(** What the loop over [es] from [s], entered with the conflicts [cs], has
    done when it leaves in [s']. *)
Definition rolled (es : list entry) (cs : list (string * reason)) (s s' : sys)
    (res : res (list (string * reason) * list string)) : Prop :=
  changesets s' = changesets s ∧
  (∀ p, ¬ scratch ts p → p ∉ targets h ws es → files s' !! p = files s !! p) ∧
  (∀ p, ¬ scratch ts p → files s' !! p = files s !! p ∨ ∃ e, e ∈ es ∧ reverted e s s' p) ∧
  (∀ rs', res = Ok ([], rs') → cs = [] ∧ ∀ e, e ∈ es → before_image e s').

Lemma rolled_stop e es cs s s' err : changesets s' = changesets s →
  (∀ p, ¬ scratch ts p → files s' !! p = files s !! p) → rolled (e :: es) cs s s' (Throw err).
Proof. intros Hc Hf. split; [done|split; [auto|split; [by left; auto|done]]]. Qed.

(** A step on the file of [e], then the rest of the loop. *)
Lemma rolled_cons e es abs cs cs' s s2 s' res :
  resolves h ws e abs → ¬ scratch ts abs → abs ∉ targets h ws es → steps_on abs s s2 →
  (files s2 !! abs = files s !! abs ∨ reverted e s s2 abs) →
  (cs' = [] → cs = [] ∧ ∃ c, files s2 !! abs = Some c ∧ sha256 c = beforeHash e) →
  rolled es cs' s2 s' res → rolled (e :: es) cs s s' res.
Proof.
  intros Hp Hnabs Hna [Hc2 Hf2] Hor Hcs (Hc3 & Hf3 & Hr3 & Hd3).
  assert (targets h ws (e :: es) = abs :: targets h ws es) as Etg
    by (unfold targets; simpl; unfold resolves in Hp; by rewrite Hp).
  split; [congruence|]. rewrite Etg. split.
  { intros p Hps [Hpa Hn]%not_elem_of_cons. by rewrite (Hf3 p Hps Hn), Hf2. }
  split.
  - intros p Hps. destruct (decide (p = abs)) as [->|Hne].
    + rewrite (Hf3 abs Hps Hna). destruct Hor as [?|(H1 & H2 & H3)]; [by left|].
      right. exists e. split; [by left|]. split; [done|]. split; [done|]. by rewrite (Hf3 abs Hps Hna).
    + rewrite <- (Hf2 p Hps Hne). destruct (Hr3 p Hps) as [?|(e' & He' & H1 & H2 & H3)]; [by left|].
      right. exists e'. split; [by right|]. split; [done|]. split; [|done].
      by rewrite <- (Hf2 p Hps Hne).
  - intros rs'' Hres. destruct (Hd3 rs'' Hres) as [-> Hd]. destruct (Hcs eq_refl) as (-> & c & Hfc & Hh).
    split; [done|]. intros e' [->|He']%elem_of_cons; [|by apply Hd].
    exists abs, c. split; [done|]. by rewrite (Hf3 abs Hnabs Hna).
Qed.

Lemma rollback_entries_spec es cs rs s s' res :
  no_scratch ts → (∀ a, a ∈ targets h ws es → a ∈ ts) → NoDup (targets h ws es) →
  rollback_entries h sha256 pid ws es cs rs s = (s', res) → rolled es cs s s' res.
Proof.
  intros Hns. revert cs rs s. induction es as [|e es IH]; intros cs rs s Hts Hnd.
  { simpl. intros [= <- <-]. split; [done|split; [done|split; [by left|]]].
    intros rs' [= -> ->]. split; [done|]. by intros ? ?%not_elem_of_nil. }
  simpl rollback_entries. unfold mbind, M_bind, lift at 1.
  destruct (sandboxPath h (Some ws) (e_path e)) as [abs|err] eqn:Ep.
  2: { intros [= <- <-]. by apply rolled_stop. }
  assert (targets h ws (e :: es) = abs :: targets h ws es) as Etg
    by (unfold targets; simpl; by rewrite Ep).
  rewrite Etg in *. apply NoDup_cons in Hnd as [Hna Hnd].
  assert (abs ∈ ts) as Hin by (apply Hts; by left).
  assert (∀ a, a ∈ targets h ws es → a ∈ ts) as Hts' by (intros; apply Hts; by right).
  destruct (read_or_null abs s) as [s1 r1] eqn:Er.
  apply read_or_null_spec in Er as [[Hc1 Hf1'] (o & -> & Ho)].
  assert (steps_on abs s s1) as Hsame by (split; [done|]; intros p _ _; apply Hf1'; tauto).
  assert (files s1 !! abs = files s !! abs) as Hfa1 by (apply Hf1'; tauto).
  pose proof (λ cs' s2, rolled_cons e es abs cs cs' s s2 s' res Ep (Hns abs Hin) Hna) as Hcons.
  destruct o as [current|].
  2: { intros E%IH; [|done|done]. eapply Hcons; [exact Hsame|by left| |exact E]. by intros [_ ?]%app_nil. }
  specialize (Ho _ eq_refl).
  destruct (String.eqb_spec (sha256 current) (afterHash e)) as [Ea|Ea]; cbn [negb andb].
  - unfold lift. destruct (_reconstructBefore sha256 e) as [original|err] eqn:Eo.
    2: { intros [= <- <-]. apply rolled_stop; [done|]. intros p _. apply Hf1'. tauto. }
    destruct (replace_file abs (tmp_rollback pid abs) original s1) as [s2 [[]|err]] eqn:Ew;
      apply (rollback_write e abs s1) in Ew as ([Hc2 Hf2] & Eh & Hfa); try done.
    + intros E%IH; [|done|done]. eapply Hcons; [|right|intros ->; by eauto|exact E].
      * split; [congruence|]. intros p Hp Hne. rewrite Hf2 by done. by apply Hsame.
      * split; [done|]. split; [by exists current|eauto].
    + intros [= <- <-]. apply rolled_stop; [congruence|]. intros p Hp.
      destruct (decide (p = abs)) as [->|]; [congruence|]. rewrite Hf2 by done. by apply Hsame.
  - destruct (String.eqb_spec (sha256 current) (beforeHash e)) as [Eb|Eb]; cbn [negb];
      intros E%IH; try done.
    + eapply Hcons; [exact Hsame|by left| |exact E]. intros ->. split; [done|]. exists current.
      by rewrite Hfa1.
    + eapply Hcons; [exact Hsame|by left| |exact E]. by intros [_ ?]%app_nil.
Qed.
End RollbackSpec.

(** A rollback never destroys a user's work.  Whatever fails on the way, a
    file that is not a temporary one either keeps its content or went from the
    changeset's own output to an image with the recorded before hash; if the
    rollback reports success every file of the changeset has its before hash
    and the status is ROLLED_BACK; otherwise the status is unchanged. *)
Theorem rollback_safe h sha256 pid id w s r s' res :
  mget (changesets s) id = Some r →
  let ws := resolveWorkspaceRoot h w in
  let ts := targets h ws (_entries r) in
  NoDup ts → no_scratch ts →
  rollback h sha256 pid id w s = (s', res) →
  (∀ p, ¬ scratch ts p →
     files s' !! p = files s !! p ∨ ∃ e, e ∈ _entries r ∧ reverted h sha256 ws e s s' p) ∧
  match res with
  | Ok (RolledBack _ _) =>
      (∀ e, e ∈ _entries r → before_image h sha256 ws e s') ∧
      (status <$> mget (changesets s') id) = Some ChangesetStatus.ROLLED_BACK
  | _ => changesets s' = changesets s
  end.
Proof.
  intros E ws ts Hnd Hns. unfold rollback, gets. unfold mbind at 1, M_bind. cbn beta. rewrite E.
  destruct (bool_decide _); [|intros [= <- <-]; split; [by left|done]].
  unfold mbind, M_bind.
  destruct (rollback_entries _ _ _ _ _ _ _ s) as [s1 [[cs rs]|e]] eqn:Er;
    apply (rollback_entries_spec h sha256 pid ws ts) in Er as (Hc & _ & Hrev & Hd); try done.
  2: { intros [= <- <-]. by split. }
  destruct cs as [|c cs]; cbn; [|intros [= <- <-]; by split].
  intros [= <- <-]. split; [done|]. destruct (Hd rs eq_refl) as [_ Hb]. split; [done|].
  cbn. rewrite mget_malter, Hc, E. by rewrite decide_True.
Qed.

(** ** From proposal to application *)

Section Pipeline.
Context (h : host) (sha256 : string → string) (pid : Z) (ws : string).

(** What [propose] records about the file of one request. *)
Definition planned (fl : gmap string string) (f : file_edits) (e : entry) : Prop :=
  e_path e = f_path f ∧
  ∃ abs c a d, resolves h ws e abs ∧ fl !! abs = Some c ∧ beforeHash e = sha256 c ∧
    afterHash e = sha256 (afterContent e) ∧
    apply_edits (f_path f) c 0 0 (take 20 (default [] (f_edits f))) = Ok (afterContent e, a, d).

Lemma propose_file_spec f s s' e a d :
  propose_file h sha256 ws f s = (s', Ok (e, a, d)) →
  files s' = files s ∧ changesets s' = changesets s ∧ planned (files s) f e.
Proof.
  unfold propose_file. rewrite bind_ok. intros (s1 & abs & Ea & E). injection Ea as <- Ea.
  destruct (take 20 _) as [|ed eds] eqn:Et; [done|]. rewrite <- Et in *. clear Et.
  apply bind_ok in E as (s2 & o & Er & E).
  apply read_or_null_spec in Er as [[Hc Hf] (o' & [= ->] & Ho)].
  assert (files s2 = files s) as Hf2 by (apply map_eq; intros p; apply Hf; tauto).
  destruct o' as [c|]; [|done]. case_decide; [done|].
  apply bind_ok in E as (s3 & [[next ad] de] & El & E). injection El as -> El. injection E as <- <- <- <-.
  split; [done|split; [done|]]. split; [done|]. exists abs, c, ad, de.
  split; [exact Ea|]. split; [by apply Ho|]. done.
Qed.

Lemma propose_files_spec fs es a d s s' es' a' d' :
  propose_files h sha256 ws fs es a d s = (s', Ok (es', a', d')) →
  files s' = files s ∧ changesets s' = changesets s ∧
  ∃ new, es' = (es ++ new)%list ∧ Forall2 (planned (files s)) fs new.
Proof.
  revert es a d s. induction fs as [|f fs IH]; intros es a d s; simpl.
  { intros [= <- <- _ _]. split; [done|split; [done|]]. exists []. by rewrite app_nil_r. }
  rewrite bind_ok. intros (s1 & [[e a1] d1] & Ef & E).
  apply propose_file_spec in Ef as (Hf & Hc & Hp). apply IH in E as (Hf' & Hc' & new & -> & Hnew).
  split; [congruence|split; [congruence|]]. exists (e :: new). rewrite <- app_assoc. split; [done|].
  constructor; [done|]. by rewrite <- Hf.
Qed.

(** Without faults, an unchanged workspace takes the whole plan. *)
Lemma apply_entries_complete ts es bs s : fault_free s → no_scratch ts →
  (∀ a, a ∈ targets h ws es → a ∈ ts) → NoDup (targets h ws es) →
  (∀ e, e ∈ es → ∃ abs c, resolves h ws e abs ∧ files s !! abs = Some c ∧
     sha256 c = beforeHash e ∧ sha256 (afterContent e) = afterHash e) →
  ∃ s' bs', apply_entries h sha256 pid ws es bs s = (s', bs', Completed).
Proof.
  intros Hfree Hns. revert bs s Hfree. induction es as [|e es IH]; intros bs s Hfree Hts Hnd Hes; [by eexists _, _|].
  simpl. destruct (Hes e ltac:(by left)) as (abs & c & Hp & Hc & Hb & Ha).
  unfold resolves in Hp. rewrite Hp.
  assert (targets h ws (e :: es) = abs :: targets h ws es) as Etg
    by (unfold targets; simpl; by rewrite Hp).
  rewrite Etg in *. apply NoDup_cons in Hnd as [Hna Hnd].
  destruct (tick_free s Hfree) as (t & s1 & Et & Ft & Hf1 & _ & Hfree1).
  assert (read_or_null abs s = (s1, Ok (Some c))) as ->.
  { unfold read_or_null, try_catch, readFile, mbind, M_bind. rewrite Et, Ft. unfold gets. by rewrite Hf1, Hc. }
  rewrite Hb, String.eqb_refl. cbn [negb].
  assert (¬ scratch ts abs ∧ abs ∈ ts) as [Hnabs Hin] by (split; [apply Hns|]; apply Hts; by left).
  destruct ((now ← date_now; _) s1) as [s2 r2] eqn:Ei.
  assert (∃ v, r2 = Ok v ∧ fault_free s2) as (v & -> & Hfree2).
  { revert Ei. unfold date_now, gets. unfold mbind at 1, M_bind. set (now := match env s1 with [] => _ | _ => _ end).
    destruct (replace_free abs (tmp_apply pid abs now) (afterContent e) s1 Hfree1) as (s3 & E3 & Hfree3).
    pose proof (replace_file_spec abs (tmp_apply pid abs now) (afterContent e) s1 s3 (Ok tt)) as Hsp.
    destruct Hsp as [_ Hfa]; [intros E; apply Hnabs; rewrite <- E; by eexists _, _|done|].
    unfold mbind, M_bind. rewrite E3. destruct (tick_free s3 Hfree3) as (t' & s4 & Et' & Ft' & Hf4 & _ & H4).
    unfold readFile, mbind, M_bind. rewrite Et', Ft'. unfold gets. rewrite Hf4, Hfa.
    intros [= <- <-]. eauto. }
  apply (install_spec sha256 pid ws ts) in Ei as (_ & Hf2 & _ & Hv); [|done|done].
  destruct (Hv v eq_refl) as [-> _]. rewrite Ha, String.eqb_refl.
  apply IH; [done|by intros; apply Hts; right|done|].
  intros e' He'. destruct (Hes e' ltac:(by right)) as (abs' & c' & Hp' & Hc' & H'). exists abs', c'.
  split; [done|]. split; [|done]. assert (abs' ∈ targets h ws es) as Hin' by (apply elem_of_targets; eauto).
  rewrite Hf2; [by rewrite Hf1|apply Hns, Hts; by right|congruence].
Qed.
End Pipeline.

(** What was proposed is what gets applied.  A proposal touches no file
    and stores its plan; if the workspace is then unchanged and no operation
    fails, applying it succeeds, and every requested file holds the text its
    edits give, the edits taken in order on its first 20, each replacing the
    first occurrence. *)
Theorem propose_then_apply h sha256 pid newId runId w fs risk s s1 pub :
  propose h sha256 newId runId w (Some fs) risk s = (s1, Ok pub) →
  files s1 = files s ∧
  ∃ r, mget (changesets s1) newId = Some r ∧ pub = publicChangeset r ∧
    let ws := resolveWorkspaceRoot h w in
    let ts := targets h ws (_entries r) in
    ∀ s2, changesets s2 = changesets s1 → files s2 = files s → fault_free s2 →
      NoDup ts → no_scratch ts →
      ∃ s3 r', apply h sha256 pid newId w s2 = (s3, Applied r') ∧
        ∀ f, f ∈ fs → ∃ abs c c' a d, sandboxPath h (Some ws) (f_path f) = Ok abs ∧
          files s !! abs = Some c ∧
          apply_edits (f_path f) c 0 0 (take 20 (default [] (f_edits f))) = Ok (c', a, d) ∧
          files s3 !! abs = Some c'.
Proof.
  unfold propose. destruct (negb (truthy runId)); [done|]. destruct fs as [|f0 fs]; [done|].
  case_decide as Hlen; [done|]. set (l := f0 :: fs) in *.
  rewrite take_ge by lia. rewrite bind_ok. intros (s' & [[es a] d] & Ef & E).
  apply propose_files_spec in Ef as (Hf & Hc & new & -> & Hplan). simpl app in E.
  unfold date_now, gets, modify, mbind, M_bind, mret, M_ret in E. injection E as <- <-. cbn [files changesets assign].
  split; [done|]. eexists. split; [apply mget_set_eq|]. split; [done|].
  cbn zeta. cbn [_entries]. set (ws := resolveWorkspaceRoot h w) in *.
  intros s2 Hcs Hfs Hfree Hnd Hns.
  assert (mget (changesets s2) newId = Some (Changeset newId (default "" runId) a d
    (default RiskLevel.MEDIUM risk) ChangesetStatus.PROPOSED
    (match env s' with [] => 0%Z | t :: _ => t_now t end) None new)) as Er
    by (rewrite Hcs; apply mget_set_eq).
  pose proof (set_status_spec newId ChangesetStatus.APPLYING s2) as (Hf0 & He0 & _).
  set (s0 := (set_status newId ChangesetStatus.APPLYING s2).1) in *.
  assert (∀ e, e ∈ new → ∃ abs c, resolves h ws e abs ∧ files s0 !! abs = Some c ∧
    sha256 c = beforeHash e ∧ sha256 (afterContent e) = afterHash e) as Hnew.
  { intros e He. apply list_elem_of_lookup in He as [i Hi].
    destruct (Forall2_lookup_r _ _ _ _ _ Hplan Hi) as (f & _ & _ & abs & c & ? & ? & Hr & Hc0 & Hb & Ha & _).
    exists abs, c. by rewrite Hf0, Hfs. }
  destruct (apply_entries_complete h sha256 pid ws (targets h ws new) new [] s0)
    as (s3 & bs & Ea); [unfold fault_free; by rewrite He0|done|done|done|done|].
  pose proof Ea as Eb.
  apply (apply_entries_spec h sha256 pid ws (targets h ws new) (files s2) new) in Eb
    as (_ & _ & _ & _ & Hdone);
    [|done|done|done|done|split; [by rewrite Hf0|by intros ? ?%not_elem_of_nil]
     |intros p _; left; by rewrite Hf0].
  unfold apply. rewrite Er. change (bool_decide (applicable _)) with true. cbv iota.
  rewrite (surjective_pairing (set_status newId ChangesetStatus.APPLYING s2)). fold s0 ws.
  cbn [_entries]. rewrite Ea. eexists _, _. split; [reflexivity|].
  intros f Hin. apply list_elem_of_lookup in Hin as [i Hi].
  destruct (Forall2_lookup_l _ _ _ _ _ Hplan Hi) as (e & He & Hpath & abs & c & a' & d' & Hr & Hc0 & _ & _ & Hed).
  destruct (Hdone eq_refl e) as (abs' & c0 & Hr' & _ & _ & Hfin & _); [by eapply list_elem_of_lookup_2|].
  unfold resolves in *. rewrite Hr in Hr'. injection Hr' as <-. rewrite Hpath in Hr.
  exists abs, c, (afterContent e), a', d'. done.
Qed.

(** ** Where rollback gives up *)

(** Some applied changesets cannot be rolled back although nothing was
    touched.  [_reconstructBefore] undoes the edits in the order they were made
    and with [String.replace]'s special replacement patterns, so after the
    edits x to y and y to z, or after one edit whose new text contains a
    dollar pattern, it does not find the before image again and throws. *)
Theorem rollback_gap sha256 `{!Inj (=) (=) sha256} (e : entry) c a d eds :
  (c, eds) ∈ [("xy", [Edit (Some "x") (Some "y"); Edit (Some "y") (Some "z")]);
              ("price", [Edit (Some "price") (Some "$&s")])] →
  apply_edits (e_path e) c 0 0 eds = Ok (afterContent e, a, d) →
  e_edits e = eds → beforeHash e = sha256 c →
  _reconstructBefore sha256 e =
    Throw (JsError None ("rollback integrity check failed for " ++ e_path e)).
Proof.
  intros Hin Ha He Hb. unfold _reconstructBefore. rewrite He, Hb.
  assert (∀ ac, apply_edits (e_path e) c 0 0 eds = Ok (ac, a, d) →
    foldl (λ c ed, replace_first (default "" (newText ed)) (default "" (oldText ed)) c) ac eds ≠ c) as Hne.
  { intros ac Hac. apply elem_of_cons in Hin as [E|E%list_elem_of_singleton]; injection E as -> ->;
      vm_compute in Hac; injection Hac as <- _ _; vm_compute; discriminate. }
  specialize (Hne _ Ha).
  destruct (String.eqb_spec (sha256 (foldl (λ c ed, replace_first (default "" (newText ed))
    (default "" (oldText ed)) c) (afterContent e) eds)) (sha256 c)) as [E|]; [|done].
  by apply (inj sha256) in E.
Qed.

Definition gap_entry : entry :=
  Entry "x" "/w/x" [Edit (Some "price") (Some "$&s")] "price" "prices" "prices" 5 6.

Lemma rollback_gap_witness : ∃ err, _reconstructBefore id gap_entry = Throw err.
Proof.
  eexists. apply (rollback_gap id gap_entry "price" 0 0 [Edit (Some "price") (Some "$&s")]).
  - right. left.
  - reflexivity.
  - reflexivity.
  - reflexivity.
Defined.

(** ** Git writes *)

Section GitSpec.
Context (h : host) (git_output : list (list string) → list string → res string).

Lemma check_add_log w p log : (Git.check_add h w p log).1 = log.
Proof. unfold Git.check_add. destruct (_ || _ || _); [done|]. cbn. by destruct (sandboxPath _ _ _). Qed.

Lemma check_all_spec w ps log log' r : for_each (Git.check_add h w) ps log = (log', r) →
  log' = log ∧ (r = Ok tt → ∀ p, p ∈ ps → starts_with "-" p = false ∧
    ∃ abs, sandboxPath h (Some (resolveWorkspaceRoot h w)) p = Ok abs).
Proof.
  revert log. induction ps as [|p ps IH]; intros log; simpl.
  { intros [= <- <-]. split; [done|]. by intros _ ? ?%not_elem_of_nil. }
  unfold mbind, M_bind. pose proof (check_add_log w p log) as Hl.
  destruct (Git.check_add h w p log) as [l1 [[]|e]] eqn:Ec; simpl in Hl; subst l1.
  - intros [-> Hr]%IH. split; [done|]. intros Ok_ q [->|Hq]%elem_of_cons; [|by apply Hr].
    revert Ec. unfold Git.check_add.
    destruct (String.eqb p "."), (String.eqb p "-A"), (starts_with "-" p); simpl; try done.
    unfold lift. destruct (sandboxPath _ _ _) as [abs|]; [|done]. eauto.
  - by intros [= <- <-].
Qed.
End GitSpec.

(** What [gitCommit] has established when it commits. *)
Definition commit_allowed (git_output : list (list string) → list string → res string)
    (log : list (list string)) (message : string) (allowed : list string) : Prop :=
  (4 ≤ N.of_nat (String.length (trim message)) ≤ 500)%N ∧
  ∃ staged, git_output log ["diff"; "--cached"; "--name-only"] = Ok staged ∧
    let paths := filter (λ p, p ≠ "") (trim <$> split_on newline staged) in
    paths ≠ [] ∧ ∀ p, p ∈ paths → p ∈ allowed.

Lemma gitCommit_spec git_output message allowed log log' r :
  Git.gitCommit git_output message (Some allowed) log = (log', r) →
  ∃ new, log' = (log ++ new)%list ∧ ∀ args, args ∈ new →
    Git.classifyGit args = (RiskLevel.LOW, false) ∨
    args = ["commit"; "-m"; trim message] ∧ commit_allowed git_output log message allowed.
Proof.
  unfold Git.gitCommit. case_bool_decide as Hlen.
  { intros [= <- <-]. exists []. rewrite app_nil_r. split; [done|]. by intros ? ?%not_elem_of_nil. }
  unfold Git.runGit, mbind, M_bind.
  set (diff := ["diff"; "--cached"; "--name-only"]).
  assert (∀ args, args ∈ [diff] → Git.classifyGit args = (RiskLevel.LOW, false)) as Hdiff
    by (by intros ? ->%list_elem_of_singleton).
  destruct (git_output log diff) as [staged|e] eqn:Es.
  2: { intros [= <- <-]. exists [diff]. split; [done|]. auto. }
  set (paths := filter (λ p, p ≠ "") (trim <$> split_on newline staged)). cbn [default].
  destruct paths as [|p0 paths'] eqn:Ep; [intros [= <- <-]; exists [diff]; auto|]. rewrite <- Ep.
  destruct (filter _ paths) as [|u us] eqn:Eu; [|intros [= <- <-]; exists [diff]; auto].
  assert (commit_allowed git_output log message allowed) as Hok.
  { split; [lia|]. exists staged. split; [done|]. fold paths. split; [by rewrite Ep|].
    intros p Hp. destruct (decide (p ∈ allowed)) as [|Hn]; [done|].
    assert (p ∈ []) as Hf by (rewrite <- Eu; by apply list_elem_of_filter).
    by apply not_elem_of_nil in Hf. }
  set (commit := ["commit"; "-m"; trim message]). set (rev := ["rev-parse"; "--short"; "HEAD"]).
  destruct (git_output (log ++ [diff])%list commit) as [out|e].
  - destruct (git_output _ rev); intros [= <- <-]; exists [diff; commit; rev];
      (split; [by rewrite <- !app_assoc|]); intros args Ha;
      repeat apply elem_of_cons in Ha as [->|Ha]; try (by left); try (by right);
      by apply not_elem_of_nil in Ha.
  - intros [= <- <-]. exists [diff; commit]. split; [by rewrite <- app_assoc|].
    intros args [->|[->|Ha]%elem_of_cons]%elem_of_cons; [by left|by right|by apply not_elem_of_nil in Ha].
Qed.

(** The git layer writes only what it was asked to.  [gitCommit] commits,
    if at all, with a message of 4 to 500 characters and only when git listed
    at least one staged path and every staged path is allowed; [gitAdd] stages
    at most 20 named paths, none of them an option and all inside the
    workspace; nothing else is run by either but read-only commands. *)
Theorem git_writes_guarded h git_output log :
  (∀ message allowed log' r, Git.gitCommit git_output message (Some allowed) log = (log', r) →
     ∃ new, log' = (log ++ new)%list ∧ ∀ args, args ∈ new →
       Git.classifyGit args = (RiskLevel.LOW, false) ∨
       args = ["commit"; "-m"; trim message] ∧ commit_allowed git_output log message allowed) ∧
  (∀ w paths log' r, Git.gitAdd h git_output w (Some paths) log = (log', r) →
     log' = log ∨
     log' = (log ++ [["add"; "--"] ++ paths])%list ∧ (1 ≤ length paths ≤ 20)%nat ∧
     ∀ p, p ∈ paths → starts_with "-" p = false ∧
       ∃ abs, confined h (Some (resolveWorkspaceRoot h w)) abs ∧
         sandboxPath h (Some (resolveWorkspaceRoot h w)) p = Ok abs).
Proof.
  split; [intros *; apply gitCommit_spec|].
  intros w paths log' r. unfold Git.gitAdd. change (default [] (Some paths)) with paths. cbv zeta.
  case_bool_decide as Hlen; [intros [= <- <-]; by left|].
  unfold mbind, M_bind. destruct (for_each (Git.check_add h w) paths log) as [l1 r1] eqn:Ec.
  apply check_all_spec in Ec as [-> Hr1].
  destruct r1 as [[]|e]; [|intros [= <- <-]; by left].
  unfold Git.runGit. intros E. right. split; [by destruct (git_output _ _); injection E as <- _|]. split; [destruct paths; simpl in *; [naive_solver|lia]|].
  intros p Hp. destruct (Hr1 eq_refl p Hp) as [Hs [abs Ha]]. split; [done|].
  exists abs. split; [|done]. by apply sandboxPath_confined in Ha.
Qed.

(** ** A run of the store *)

Definition sample_host : host := Host "/w" None Some.

Definition sample_sys : sys := Sys [] {[ "/w/x" := "say hello" ]} [].

Definition sample_request : list file_edits :=
  [FileEdits "x" (Some [Edit (Some "hello") (Some "goodbye")])].

Definition proposed : sys :=
  (propose sample_host id "cs-1" (Some "run-1") None (Some sample_request) None sample_sys).1.

Definition sample_record : changeset :=
  Changeset "cs-1" "run-1" 0 0 RiskLevel.MEDIUM ChangesetStatus.PROPOSED 0 None
    [Entry "x" "/w/x" [Edit (Some "hello") (Some "goodbye")] "say hello" "say goodbye" "say goodbye" 9 11].

Definition applied : sys := (apply sample_host id 7 "cs-1" None proposed).1.

Lemma sample_no_scratch : no_scratch ["/w/x"].
Proof.
  intros a ->%list_elem_of_singleton (b & t & ->%list_elem_of_singleton & E). discriminate E.
Qed.

Lemma changeset_all_or_nothing_witness :
  (apply sample_host id 7 "cs-1" None proposed).2 =
    Applied (publicChangeset (sample_record <| status := ChangesetStatus.APPLIED |> <| appliedAt := Some 0%Z |>)) ∧
  installed sample_host id "/w" (files proposed)
    (Entry "x" "/w/x" [Edit (Some "hello") (Some "goodbye")] "say hello" "say goodbye" "say goodbye" 9 11)
    applied.
Proof.
  split; [vm_compute; reflexivity|].
  assert (mget (changesets proposed) "cs-1" = Some sample_record) as E by (vm_compute; reflexivity).
  pose proof (changeset_all_or_nothing sample_host id 7 "cs-1" None proposed sample_record E) as H.
  destruct H as (_ & H & _).
  - vm_compute. constructor; [intros Hn; inversion Hn|constructor].
  - exact sample_no_scratch.
  - eapply H; [vm_compute; reflexivity|left].
Defined.

Lemma propose_then_apply_witness :
  files proposed = files sample_sys ∧
  ∃ r, mget (changesets proposed) "cs-1" = Some r ∧ _entries r ≠ [].
Proof.
  destruct (propose_then_apply sample_host id 7 "cs-1" (Some "run-1") None sample_request None
    sample_sys proposed (publicChangeset sample_record)) as (Hf & r & Hr & _).
  - vm_compute. reflexivity.
  - split; [exact Hf|]. exists r. split; [exact Hr|]. vm_compute in Hr. injection Hr as <-. discriminate.
Defined.

Lemma rollback_safe_witness :
  let out := rollback sample_host id 7 "cs-1" None applied in
  files out.1 !! "/w/x" = Some "say hello" ∧
  (status <$> mget (changesets out.1) "cs-1") = Some ChangesetStatus.ROLLED_BACK.
Proof.
  cbn zeta. split; [vm_compute; reflexivity|].
  assert (mget (changesets applied) "cs-1" =
    Some (sample_record <| status := ChangesetStatus.APPLIED |> <| appliedAt := Some 0%Z |>)) as E
    by (vm_compute; reflexivity).
  destruct (rollback_safe sample_host id 7 "cs-1" None applied _
    (rollback sample_host id 7 "cs-1" None applied).1
    (rollback sample_host id 7 "cs-1" None applied).2 E) as [_ H].
  - vm_compute. constructor; [intros Hn; inversion Hn|constructor].
  - exact sample_no_scratch.
  - apply surjective_pairing.
  - assert ((rollback sample_host id 7 "cs-1" None applied).2 = Ok (RolledBack ["x"]
      (publicChangeset (sample_record <| status := ChangesetStatus.ROLLED_BACK |>
        <| appliedAt := Some 0%Z |>)))) as Er by (vm_compute; reflexivity).
    rewrite Er in H. exact (proj2 H).
Defined.
