(* ===== verification/Events.v ===== *)
(** Run events: the bus of backend/src/events/event-bus.js with its bounded
    replay buffers, the merge with the durable log
    (backend/src/infrastructure/event-log.js), the wire contract
    (backend/src/events/event-contract.js) and the HTTP event stream
    (backend/src/services/sse-service.js).

    A response object is a number; what is written to it is a list of frames.
    [res.write] may throw: every operation takes the predicate of responses on
    which it does. *)

From S2P Require Import Prelude JsMap JsValue Text Types Privacy.
From stdpp Require Import sorting.

Local Open Scope js_scope.

Abbreviation response := nat.

(* [src/backend/src/events/event-bus.js:16-23] EventEnvelope *)
Record envelope := EventEnvelope {
  seq : Z;
  ev_runId : string;
  ev_type : string;
  ts : Z;
  payload : jsval;
}.

(** What a client sees on its connection. *)
Inductive frame :=
| Connected (run : string)
| Event (e : envelope)
| GapFrame (run : string) (since oldest : Z)
| PingFrame
| EndOfStream.

(* [src/backend/src/events/event-bus.js:40-51] EventBus *)
Record bus := EventBus {
  maxReplayBuffer : nat;
  maxRuns : nat;
  maxSubscribersPerRun : nat;
  eventLogs : jsmap string (list envelope);
  runSeq : jsmap string Z;
  subscribers : jsmap string (list response);
  globalSeq : Z;
  privacyModes : jsmap string string;
  written : list (response * frame);
}.

#[export] Instance bus_eta : Eta bus := λ b,
  EventBus (maxReplayBuffer b) (maxRuns b) (maxSubscribersPerRun b) (eventLogs b) (runSeq b)
    (subscribers b) (globalSeq b) (privacyModes b) (written b).

(** [options.x || default]. *)
(* [src/backend/src/events/event-bus.js:41-51] constructor *)
Definition new_bus (buffer runs subs : nat) : bus :=
  EventBus (if decide (buffer = 0) then 500 else buffer) (if decide (runs = 0) then 500 else runs)
    (if decide (subs = 0) then 50 else subs) [] [] [] 0 [] [].

Definition write (r : response) (f : frame) (b : bus) : bus := b <| written ::= λ l, l ++ [(r, f)] |>.

(** Every [jsval] can be stringified. *)
(* [src/backend/src/events/event-bus.js:30-38] safePayload *)
Definition safePayload (p : jsval) : jsval := match p with JUndef => JNull | _ => p end.

(** [new Set] operations on an insertion-ordered list. *)
Definition set_add (r : response) (l : list response) : list response :=
  if decide (r ∈ l) then l else l ++ [r].
Definition set_delete (r : response) (l : list response) : list response := filter (λ x, x ≠ r) l.

(** [n] bounds the iterations; each but the last drops a run. *)
(* [src/backend/src/events/event-bus.js:57-73] _pruneRunsIfNeeded *)
Fixpoint prune (n : nat) (b : bus) : bus :=
  match n with
  | O => b
  | S n =>
      if decide (maxRuns b < msize (eventLogs b)) then
        match eventLogs b with
        | [] => b
        | (oldest, log) :: _ =>
            if negb (truthy_str oldest) then b
            else if decide (0 < length (default [] (mget (subscribers b) oldest))) then
              b <| eventLogs ::= λ m, mset (mdelete m oldest) oldest log |>
            else
              prune n (b <| eventLogs ::= λ m, mdelete m oldest |>
                         <| runSeq ::= λ m, mdelete m oldest |>)
        end
      else b
  end.

Definition _pruneRunsIfNeeded (b : bus) : bus := prune (msize (eventLogs b)) b.

(** [subscribers.delete(res)] for those on which [write] threw. *)
(* [src/backend/src/events/event-bus.js:97-113] delivery *)
Definition deliver (dead : response → bool) (run : string) (e : envelope) (b : bus) : bus :=
  match mget (subscribers b) run with
  | None | Some [] => b
  | Some subs =>
      let alive := filter (λ r, dead r = false) subs in
      let b := b <| written ::= λ l, l ++ ((λ r, (r, Event e)) <$> alive) |> in
      b <| subscribers ::= λ m, if alive is [] then mdelete m run else mset m run alive |>
  end.

Definition backwards (run : string) : js_error :=
  JsError None ("event seq went backwards for run " ++ run)%string.

(* [src/backend/src/events/event-bus.js:74-116] emit *)
Definition emit (dead : response → bool) (run ty : string) (p : jsval) (now : Z) (b : bus)
    : bus * res envelope :=
  let b := b <| globalSeq ::= Z.succ |> in
  let n := globalSeq b in
  let safe := safePayload p in
  let e := EventEnvelope n run ty now
             (match mget (privacyModes b) run with
              | Some m => if truthy_str m then Retention.sanitize m "" safe else safe
              | None => safe end) in
  let b := if mhas (eventLogs b) run then b
           else _pruneRunsIfNeeded (b <| eventLogs ::= λ m, mset m run [] |>) in
  let b := b <| eventLogs ::= λ m, malter (λ log, push_shift (maxReplayBuffer b) log e) m run |> in
  if decide (n ≤ default 0 (mget (runSeq b) run))%Z then (b, Throw (backwards run))
  else
    let b := b <| runSeq ::= λ m, mset m run n |> in
    (deliver dead run e b, Ok e).

(* [src/backend/src/events/event-bus.js:118-126] setPrivacyMode *)
Definition setPrivacyMode (run mode : string) (b : bus) : bus :=
  if truthy_str run then
    let m := Retention.normalizePrivacyMode mode in
    b <| privacyModes ::= λ pm, mset pm run m |>
      <| eventLogs ::= λ logs, malter (fmap (λ e, EventEnvelope (seq e) (ev_runId e) (ev_type e) (ts e)
            (Retention.sanitize m "" (payload e)))) logs run |>
  else b.

(** The result, the replay buffer, is not used by the callers. *)
(* [src/backend/src/events/event-bus.js:128-165] subscribe *)
Definition subscribe (dead : response → bool) (run : string) (r : response) (b : bus) : bus :=
  let subs := default [] (mget (subscribers b) run) in
  let shed := bool_decide (maxSubscribersPerRun b ≤ length subs) in
  let b := match subs with
           | oldest :: _ => if shed then write oldest EndOfStream b else b
           | [] => b end in
  let subs := set_add r (if shed then tail subs else subs) in
  if dead r then b <| subscribers ::= λ m, mset m run (set_delete r subs) |>
  else write r (Connected run) (b <| subscribers ::= λ m, mset m run subs |>).

(* [src/backend/src/events/event-bus.js:167-175] unsubscribe *)
Definition unsubscribe (run : string) (r : response) (b : bus) : bus :=
  match mget (subscribers b) run with
  | None => b
  | Some subs =>
      let subs := set_delete r subs in
      b <| subscribers ::= λ m, if subs is [] then mdelete m run else mset m run subs |>
  end.

(** The ping timer of one subscription, and its close handler. *)
(* [src/backend/src/events/event-bus.js:145-162] ping interval, onClose *)
Definition ping (dead : response → bool) (run : string) (r : response) (b : bus) : bus :=
  if dead r then unsubscribe run r b else write r PingFrame b.

(* [src/backend/src/events/event-bus.js:177-180] subscriberCount *)
Definition subscriberCount (run : string) (b : bus) : nat :=
  length (default [] (mget (subscribers b) run)).

Definition log_of (run : string) (b : bus) : list envelope := default [] (mget (eventLogs b) run).

(* [src/backend/src/events/event-bus.js:182-185] getReplayBuffer *)
Definition getReplayBuffer (run : string) (since : Z) (b : bus) : list envelope :=
  filter (λ e, since < seq e)%Z (log_of run b).

Record replay := Replay { events : list envelope; gap : bool; oldestSeq : Z; latestSeq : Z }.

(** The window of an ordered log, and the gap test on its oldest entry. *)
(* [src/backend/src/events/event-bus.js:194-202] getEventsSinceWithGap *)
Definition window (n : Z) (log : list envelope) : replay :=
  match log with
  | [] => Replay [] false 0 0
  | e :: _ =>
      Replay (filter (λ e, n < seq e)%Z log) (bool_decide (0 < n ∧ n < seq e - 1)%Z) (seq e)
        (default 0%Z (seq <$> last log))
  end.

(* [src/backend/src/events/event-bus.js:194-202] getEventsSinceWithGap *)
Definition getEventsSinceWithGap (run : string) (n : Z) (b : bus) : replay := window n (log_of run b).

(* [src/backend/src/events/event-bus.js:204-212] oldestSeq, latestSeq *)
Definition bus_latestSeq (run : string) (b : bus) : Z := default 0%Z (seq <$> last (log_of run b)).

(* [src/backend/src/events/event-bus.js:223-231] closeSubscribers *)
Definition closeSubscribers (run : string) (b : bus) : bus :=
  match mget (subscribers b) run with
  | None => b
  | Some subs =>
      b <| written ::= λ l, l ++ ((λ r, (r, EndOfStream)) <$> subs) |>
        <| subscribers ::= λ m, mdelete m run |>
  end.

(* [src/backend/src/events/event-bus.js:233-238] clearRun *)
Definition clearRun (run : string) (b : bus) : bus :=
  closeSubscribers run
    (b <| eventLogs ::= λ m, mdelete m run |> <| runSeq ::= λ m, mdelete m run |>
       <| privacyModes ::= λ m, mdelete m run |>).

(** ** The event stream of a run *)

(** [loaded]: what the store has for the run; [since]: the cursor. *)
(* [src/backend/src/services/sse-service.js:23-65] serveRunEvents *)
Definition serveRunEvents (dead : response → bool) (run : string) (loaded : list envelope)
    (since : Z) (live : bool) (r : response) (b : bus) : bus * option (nat * bool) :=
  let in_memory := mhas (eventLogs b) run in
  if negb in_memory && bool_decide (loaded = []) then (b, None)
  else
    let b := if in_memory then b else b <| eventLogs ::= λ m, mset m run loaded |> in
    let b := write r (Connected run) b in
    let n := Z.max 0 since in
    let rp := getEventsSinceWithGap run n b in
    let b := if gap rp then write r (GapFrame run n (oldestSeq rp)) b else b in
    let b := b <| written ::= λ l, l ++ ((λ e, (r, Event e)) <$> events rp) |> in
    (if live then subscribe dead run r b else write r EndOfStream b,
     Some (length (events rp), gap rp)).

(** ** Merging with the durable log *)

(** [xs.sort((a, b) => a.seq - b.seq)], a stable sort. *)
Fixpoint insert_seq (e : envelope) (l : list envelope) : list envelope :=
  match l with
  | [] => [e]
  | x :: l' => if decide (seq e ≤ seq x)%Z then e :: l else x :: insert_seq e l'
  end.

Definition sort_seq (l : list envelope) : list envelope := foldr insert_seq [] l.

(* [src/backend/src/infrastructure/event-log.js:36-46] dedupeBySeq *)
Definition dedupeBySeq (l : list envelope) : list envelope :=
  foldl (λ out e, if decide (seq e ∈ seq <$> out) then out else out ++ [e]) [] (sort_seq l).

(** [durable] is [None] when the store throws. *)
(* [src/backend/src/infrastructure/event-log.js:51-82] readDurableSince *)
Definition readDurableSince (run : string) (n : Z) (durable : option (list envelope)) (b : bus) : replay :=
  window n (dedupeBySeq (default [] durable ++ events (getEventsSinceWithGap run 0 b))).

(** ** The wire contract *)

(* [src/backend/src/events/event-contract.js:31-31] WIRE_ALIASES *)
Definition WIRE_ALIASES : list string := ["tool.finished"; "memory.write"]%string.
(* [src/backend/src/events/event-contract.js:34-34] TRANSPORT_EVENTS *)
Definition TRANSPORT_EVENTS : list string := ["gap"]%string.
(* [src/backend/src/events/event-contract.js:36-36] WIRE_EVENTS *)
Definition WIRE_EVENTS : list string := (EventType.value <$> EventType.all) ++ WIRE_ALIASES.
(* [src/backend/src/events/event-contract.js:38-38] ENVELOPE_FIELDS *)
Definition ENVELOPE_FIELDS : list string := ["seq"; "runId"; "type"; "ts"; "payload"]%string.

(* [src/backend/src/events/event-contract.js:40-42] isKnownWireEvent *)
Definition isKnownWireEvent (ty : jsval) : bool :=
  match ty with JStr s => bool_decide (s ∈ WIRE_EVENTS ∨ s ∈ TRANSPORT_EVENTS) | _ => false end.

(** The error, and whether it is for an unknown type; [None] is ok. *)
(* [src/backend/src/events/event-contract.js:44-52] assertEnvelope *)
Definition assertEnvelope (env : jsval) : option (string * bool) :=
  match env with
  | JObj _ =>
      match list_find (λ f, prop env f = JUndef) ENVELOPE_FIELDS with
      | Some (_, f) => Some ("envelope missing " ++ f, false)%string
      | None =>
          match prop env "seq" with
          | JNum _ =>
              if isKnownWireEvent (prop env "type") then None
              else Some ("unknown event type: " ++ to_string (prop env "type"), true)%string
          | _ => Some ("envelope seq must be a number", false)%string
          end
      end
  | _ => Some ("envelope missing", false)%string
  end.

(** The envelope as the object that is sent. *)
(* [src/backend/src/events/event-bus.js:25-27] toSSE *)
Definition envelope_json (e : envelope) (iso : Z → string) : jsval :=
  JObj [("seq", JNum (seq e)); ("runId", JStr (ev_runId e)); ("type", JStr (ev_type e));
        ("ts", JStr (iso (ts e))); ("payload", payload e)]%string.

(** ** Histories

    [hist] records every event ever emitted, in order; it is not part of the
    program. *)

Inductive op :=
| OpEmit (dead : response → bool) (run ty : string) (p : jsval) (now : Z)
| OpMode (run mode : string)
| OpSubscribe (dead : response → bool) (run : string) (r : response)
| OpUnsubscribe (run : string) (r : response)
| OpPing (dead : response → bool) (run : string) (r : response)
| OpClose (run : string)
| OpClear (run : string)
| OpServe (dead : response → bool) (run : string) (loaded : list envelope) (since : Z)
    (live : bool) (r : response).

Abbreviation state := (bus * list envelope)%type.

Definition apply_op (s : state) (o : op) : state :=
  let (b, hist) := s in
  match o with
  | OpEmit dead run ty p now =>
      match emit dead run ty p now b with
      | (b, Ok e) => (b, hist ++ [e])
      | (b, Throw _) => (b, hist)
      end
  | OpMode run mode => (setPrivacyMode run mode b, hist)
  | OpSubscribe dead run r => (subscribe dead run r b, hist)
  | OpUnsubscribe run r => (unsubscribe run r b, hist)
  | OpPing dead run r => (ping dead run r b, hist)
  | OpClose run => (closeSubscribers run b, hist)
  | OpClear run => (clearRun run b, hist)
  | OpServe dead run loaded since live r =>
      ((serveRunEvents dead run loaded since live r b).1, hist)
  end.

(** The events of a run in the history, by number. *)
Definition seqs_of (run : string) (hist : list envelope) : list Z :=
  seq <$> filter (λ e, ev_runId e = run) hist.

(** What the store returns for a run that is not in memory is the newest part
    of its history, no longer than the replay buffer. *)
Definition up_to_date (s : state) (o : op) : Prop :=
  match o with
  | OpServe _ run loaded _ _ _ =>
      mhas (eventLogs s.1) run = false →
      (seq <$> loaded) `suffix_of` seqs_of run s.2 ∧ length loaded ≤ maxReplayBuffer s.1 ∧
      Forall (λ e, ev_runId e = run) loaded
  | _ => True
  end.

Definition bstep (s : state) (o : op) (s' : state) : Prop := up_to_date s o ∧ s' = apply_op s o.

Definition reachable (buffer runs subs : nat) (s : state) : Prop :=
  ∃ os, trace bstep (new_bus buffer runs subs, []) os s.

Definition increasing (l : list Z) : Prop := StronglySorted Z.lt l.

Lemma increasing_snoc l n : increasing l → Forall (λ m, m < n)%Z l → increasing (l ++ [n]).
Proof.
  intros Hl Hn. apply StronglySorted_app_2; [|done|by repeat constructor].
  intros x y Hx ->%list_elem_of_singleton. rewrite Forall_forall in Hn. auto.
Qed.

Lemma increasing_suffix l l' : l' `suffix_of` l → increasing l → increasing l'.
Proof. intros [k ->]. apply StronglySorted_app_1_r. Qed.

Lemma seqs_of_increasing run hist : increasing (seq <$> hist) → increasing (seqs_of run hist).
Proof.
  unfold seqs_of. induction hist as [|e hist IH]; [done|]. rewrite fmap_cons, filter_cons.
  intros [He Hh]%StronglySorted_cons. case_decide; [|by apply IH]. rewrite fmap_cons.
  apply StronglySorted_cons. split; [|by apply IH]. rewrite Forall_fmap, Forall_forall in He.
  apply Forall_fmap, Forall_forall. intros x [_ Hx]%list_elem_of_filter. by apply He.
Qed.

(** The logs, numbers and counters. *)
Record logs_ok (b : bus) (hist : list envelope) : Prop := {
  ok_wf : mwf (eventLogs b) ∧ mwf (runSeq b);
  ok_sizes : 0 < maxReplayBuffer b ∧ 0 < maxRuns b;
  ok_pos : (0 ≤ globalSeq b)%Z;
  ok_hist : increasing (seq <$> hist) ∧ Forall (λ e, seq e ≤ globalSeq b)%Z hist;
  ok_log : mall (λ run log, (seq <$> log) `suffix_of` seqs_of run hist ∧
                   length log ≤ maxReplayBuffer b) (eventLogs b);
  ok_seq : mall (λ _ n, n ≤ globalSeq b)%Z (runSeq b);
}.

(** The subscriptions. *)
Record subs_ok (b : bus) : Prop := {
  subs_wf : mwf (subscribers b);
  subs_max : 0 < maxSubscribersPerRun b;
  subs_each : mall (λ _ l, NoDup l ∧ length l ≤ maxSubscribersPerRun b) (subscribers b);
}.

Definition ok (s : state) : Prop := logs_ok s.1 s.2 ∧ subs_ok s.1.

(** *** Subscribers *)

(** [b'] differs from [b] in what was written and who is subscribed only. *)
Definition same_logs (b b' : bus) : Prop :=
  maxReplayBuffer b' = maxReplayBuffer b ∧ maxRuns b' = maxRuns b ∧
  maxSubscribersPerRun b' = maxSubscribersPerRun b ∧ globalSeq b' = globalSeq b ∧
  eventLogs b' = eventLogs b ∧ runSeq b' = runSeq b ∧ privacyModes b' = privacyModes b.

#[export] Instance same_logs_refl : Reflexive same_logs.
Proof. by intros b. Qed.
#[export] Instance same_logs_trans : Transitive same_logs.
Proof. intros b1 b2 b3 (?&?&?&?&?&?&?) (?&?&?&?&?&?&?). unfold same_logs. js_split; congruence. Qed.

Lemma logs_ok_same b b' hist : same_logs b b' → logs_ok b hist → logs_ok b' hist.
Proof.
  intros (E1 & E2 & E3 & E4 & E5 & E6 & E7) [H1 H2 H3 H4 H5 H6].
  split; rewrite ?E1, ?E2, ?E4, ?E5, ?E6; done.
Qed.

Lemma subs_ok_ext b b' : subscribers b' = subscribers b →
  maxSubscribersPerRun b' = maxSubscribersPerRun b → subs_ok b → subs_ok b'.
Proof. intros E1 E2 [H1 H2 H3]. split; rewrite ?E1, ?E2; done. Qed.

Lemma subs_ok_set b run l : subs_ok b → NoDup l → length l ≤ maxSubscribersPerRun b →
  subs_ok (b <| subscribers ::= λ m, mset m run l |>).
Proof. intros [H1 H2 H3] Hn Hl. split; cbn; [by apply mwf_set|done|by apply mall_set]. Qed.

Lemma subs_ok_delete b run : subs_ok b → subs_ok (b <| subscribers ::= λ m, mdelete m run |>).
Proof. intros [H1 H2 H3]. split; cbn; [by apply mwf_delete|done|by apply mall_delete]. Qed.

(** [if (set.size === 0) m.delete(run)]. *)
Lemma subs_ok_put b run l : subs_ok b → NoDup l → length l ≤ maxSubscribersPerRun b →
  subs_ok (b <| subscribers ::= λ m, if l is [] then mdelete m run else mset m run l |>).
Proof. intros Hb Hn Hl. destruct l; [by apply subs_ok_delete|by apply subs_ok_set]. Qed.

Lemma subs_of b run : subs_ok b →
  NoDup (default [] (mget (subscribers b) run)) ∧
  length (default [] (mget (subscribers b) run)) ≤ maxSubscribersPerRun b.
Proof.
  intros [H1 H2 H3]. destruct (mget (subscribers b) run) eqn:E; [by apply (H3 run)|].
  split; [constructor|simpl; lia].
Qed.

Lemma set_add_nodup r l : NoDup l → NoDup (set_add r l).
Proof.
  intros H. unfold set_add. case_decide; [done|]. apply NoDup_app. split; [done|].
  split; [|apply NoDup_singleton]. by intros x Hx ->%list_elem_of_singleton.
Qed.

Lemma set_add_length r l : length (set_add r l) ≤ S (length l).
Proof. unfold set_add. case_decide; [lia|]. rewrite length_app. simpl. lia. Qed.

Lemma deliver_same dead run e b : same_logs b (deliver dead run e b).
Proof. unfold deliver. by destruct (mget (subscribers b) run) as [[]|]. Qed.

Lemma deliver_subs dead run e b : subs_ok b → subs_ok (deliver dead run e b).
Proof.
  intros Hb. pose proof (subs_of b run Hb) as [Hn Hl]. unfold deliver.
  destruct (mget (subscribers b) run) as [[|r l]|] eqn:E; [done| |done]. cbn [default] in Hn, Hl.
  set (b' := b <| written ::= _ |>).
  assert (subs_ok b') as Hb' by by apply (subs_ok_ext b).
  apply subs_ok_put; [done|by apply NoDup_filter|].
  etrans; [apply length_filter|exact Hl].
Qed.

Lemma subscribe_same dead run r b : same_logs b (subscribe dead run r b).
Proof.
  unfold subscribe, write. destruct (default [] _) as [|o l]; [by destruct (dead r)|].
  destruct (bool_decide _), (dead r); done.
Qed.

Lemma subscribe_subs dead run r b : subs_ok b → subs_ok (subscribe dead run r b).
Proof.
  intros Hb. pose proof (subs_of b run Hb) as [Hn Hl]. unfold subscribe.
  set (l := default [] (mget (subscribers b) run)) in *.
  set (shed := bool_decide (maxSubscribersPerRun b ≤ length l)).
  set (b1 := match l with [] => b | _ => _ end).
  assert (subs_ok b1 ∧ maxSubscribersPerRun b1 = maxSubscribersPerRun b) as [Hb1 Em].
  { unfold b1. destruct l; [done|]. destruct shed; [|done]. split; [by apply (subs_ok_ext b)|done]. }
  set (l' := set_add r (if shed then tail l else l)).
  assert (NoDup l' ∧ length l' ≤ maxSubscribersPerRun b1) as [Hn' Hl'].
  { rewrite Em. pose proof (subs_max b Hb) as Hp. unfold l', shed. case_bool_decide as Hd.
    - split; [apply set_add_nodup; destruct l; [constructor|by inversion Hn]|].
      pose proof (set_add_length r (tail l)). rewrite length_tail in *. lia.
    - split; [by apply set_add_nodup|]. pose proof (set_add_length r l). lia. }
  destruct (dead r).
  - apply subs_ok_set; [done|by apply NoDup_filter|]. etrans; [apply length_filter|done].
  - apply (subs_ok_ext (b1 <| subscribers ::= λ m, mset m run l' |>)); [done|done|].
    by apply subs_ok_set.
Qed.

Lemma unsubscribe_same run r b : same_logs b (unsubscribe run r b).
Proof. unfold unsubscribe. by destruct (mget _ _). Qed.

Lemma unsubscribe_subs run r b : subs_ok b → subs_ok (unsubscribe run r b).
Proof.
  intros Hb. pose proof (subs_of b run Hb) as [Hn Hl]. unfold unsubscribe.
  destruct (mget (subscribers b) run) as [l|]; [|done]. cbn [default] in *.
  apply subs_ok_put; [done|by apply NoDup_filter|]. etrans; [apply length_filter|exact Hl].
Qed.

Lemma close_same run b : same_logs b (closeSubscribers run b).
Proof. unfold closeSubscribers. by destruct (mget _ _). Qed.

Lemma close_subs run b : subs_ok b → subs_ok (closeSubscribers run b).
Proof.
  intros Hb. unfold closeSubscribers. destruct (mget _ _) as [l|]; [|done].
  apply subs_ok_delete. by apply (subs_ok_ext b).
Qed.

(** *** Logs *)

Lemma seqs_of_snoc run hist e :
  seqs_of run (hist ++ [e]) = seqs_of run hist ++ (if decide (ev_runId e = run) then [seq e] else []).
Proof. unfold seqs_of. rewrite filter_app, fmap_app, filter_cons. by case_decide. Qed.

Lemma fmap_push_shift {A B} (f : A → B) n l x : f <$> push_shift n l x = push_shift n (f <$> l) (f x).
Proof.
  unfold push_shift. rewrite !length_app, length_fmap. simpl. case_decide; [|by rewrite fmap_app].
  by destruct l; simpl; rewrite ?fmap_app.
Qed.

Lemma suffix_snoc {A} (l H : list A) x : l `suffix_of` H → l ++ [x] `suffix_of` H ++ [x].
Proof. intros [k ->]. exists k. by rewrite app_assoc. Qed.

(** A bus in which only counters moved forward and logs shrank. *)
Lemma logs_ok_weaken b b' hist :
  maxReplayBuffer b' = maxReplayBuffer b → maxRuns b' = maxRuns b →
  (globalSeq b ≤ globalSeq b')%Z → mwf (eventLogs b') → mwf (runSeq b') →
  (∀ run log, mget (eventLogs b') run = Some log → mget (eventLogs b) run = Some log ∨ log = []) →
  (∀ run n, mget (runSeq b') run = Some n → mget (runSeq b) run = Some n) →
  logs_ok b hist → logs_ok b' hist.
Proof.
  intros E1 E2 Hg Hw1 Hw2 Hl Hs [_ H2 H3 [H4 H4'] H5 H6]. split; [done|by rewrite E1, E2|lia| | |].
  - split; [done|]. eapply Forall_impl; [exact H4'|]. intros e; simpl; lia.
  - intros run log [E| ->]%Hl; [rewrite E1; by apply H5|]. split; [|simpl; lia]. apply suffix_nil.
  - intros run n E%Hs%H6. lia.
Qed.

Lemma prune_spec n b hist : logs_ok b hist →
  let b' := prune n b in
  logs_ok b' hist ∧ subscribers b' = subscribers b ∧ written b' = written b ∧
  privacyModes b' = privacyModes b ∧ globalSeq b' = globalSeq b ∧
  maxSubscribersPerRun b' = maxSubscribersPerRun b ∧ maxReplayBuffer b' = maxReplayBuffer b ∧
  (∀ run m, mget (runSeq b') run = Some m → mget (runSeq b) run = Some m) ∧
  (∀ run log, mget (eventLogs b') run = Some log → mget (eventLogs b) run = Some log).
Proof.
  revert b. induction n as [|n IH]; intros b Hb; cbn zeta; [done|]. simpl prune.
  case_decide; [|done]. destruct (eventLogs b) as [|[oldest log] rest] eqn:E; [by rewrite <- E|].
  rewrite <- E in *. destruct (negb (truthy_str oldest)); [done|].
  assert (mget (eventLogs b) oldest = Some log) as Ho by (rewrite E; simpl; by rewrite decide_True).
  destruct (ok_wf b hist Hb) as [Hw1 Hw2]. case_decide.
  - assert (∀ run log', mget (mset (mdelete (eventLogs b) oldest) oldest log) run = Some log' →
      mget (eventLogs b) run = Some log') as Hsub.
    { intros run log'. rewrite mget_set. case_decide; [intros [= <-]; by subst|].
      by rewrite mget_delete_ne by done. }
    split; [|by js_split]. eapply logs_ok_weaken; [..|exact Hb]; try done; cbn; [by apply mwf_set, mwf_delete|].
    intros run log' ?%Hsub. auto.
  - match goal with |- context [prune n ?b2] => set (b1 := b2) end.
    assert (logs_ok b1 hist) as Hb1.
    { eapply logs_ok_weaken; [..|exact Hb]; try done; cbn; try by apply mwf_delete.
      - intros run log'. rewrite mget_delete by done. case_decide; [done|auto].
      - intros run m. rewrite mget_delete by done. by case_decide. }
    destruct (IH b1 Hb1) as (H1' & ? & ? & ? & ? & ? & ? & Hseq & Hlog). js_split; try done.
    + intros run m E'%Hseq. revert E'. cbn. rewrite mget_delete by done. by case_decide.
    + intros run lg E'%Hlog. revert E'. cbn. rewrite mget_delete by done. by case_decide.
Qed.

(** The newest run survives. *)
Lemma prune_newest n b run log : mwf (eventLogs b) → 0 < maxRuns b →
  last (eventLogs b) = Some (run, log) → mget (eventLogs (prune n b)) run = Some log.
Proof.
  revert b. induction n as [|n IH]; intros b Hw Hm Hl.
  { simpl. apply elem_mget; [done|]. by apply last_Some_elem_of. }
  assert (mget (eventLogs b) run = Some log) as Hg by (by apply elem_mget; [|apply last_Some_elem_of]).
  simpl prune. case_decide as Hsz; [|done].
  destruct (eventLogs b) as [|[oldest lg] rest] eqn:E; [done|].
  destruct (negb (truthy_str oldest)); [by rewrite E|].
  destruct rest as [|x rest]; [unfold msize in Hsz; simpl in Hsz; lia|].
  assert (oldest ≠ run) as Hne.
  { intros ->. unfold mwf in Hw. simpl in Hw. apply NoDup_cons in Hw as [Hn _]. apply Hn.
    change (run ∈ mkeys (x :: rest)). apply list_elem_of_fmap. exists (run, log).
    split; [done|]. apply last_Some_elem_of. by rewrite last_cons_cons in Hl. }
  case_decide.
  - cbn [eventLogs assign]. cbn. rewrite (decide_True (P := oldest = oldest)) by done.
    rewrite mget_set_ne by done. simpl mget in Hg. by rewrite decide_False in Hg by done.
  - apply IH; cbn; rewrite ?(decide_True (P := oldest = oldest)) by done.
    + unfold mwf in *. simpl in *. by apply NoDup_cons in Hw as [_ ?].
    + done.
    + by rewrite last_cons_cons in Hl.
Qed.

Lemma emit_spec dead run ty p now b hist b' r :
  logs_ok b hist → emit dead run ty p now b = (b', r) →
  ∃ e b1, r = Ok e ∧ ev_runId e = run ∧ seq e = Z.succ (globalSeq b) ∧
    logs_ok b1 (hist ++ [e]) ∧ b' = deliver dead run e b1 ∧
    subscribers b1 = subscribers b ∧ written b1 = written b ∧
    maxSubscribersPerRun b1 = maxSubscribersPerRun b ∧
    (∀ run' log, mget (eventLogs b1) run' = Some log → mget (eventLogs b) run' = Some log ∨
       run' = run ∧ log = push_shift (maxReplayBuffer b) (default [] (mget (eventLogs b) run)) e).
Proof.
  intros Hb. unfold emit. set (b0 := b <| globalSeq ::= Z.succ |>).
  assert (logs_ok b0 hist) as H0.
  { destruct (ok_wf b hist Hb). eapply logs_ok_weaken; [..|exact Hb]; try done; cbn; [lia|auto]. }
  match goal with |- context [EventEnvelope _ _ _ _ ?p] => set (pl := p) end.
  set (e := EventEnvelope (globalSeq b0) run ty now pl).
  set (b1 := if mhas (eventLogs b0) run then b0 else _).
  assert (logs_ok b1 hist ∧ subscribers b1 = subscribers b ∧ written b1 = written b ∧
    globalSeq b1 = globalSeq b0 ∧ maxSubscribersPerRun b1 = maxSubscribersPerRun b ∧
    is_Some (mget (eventLogs b1) run) ∧
    (∀ m, mget (runSeq b1) run = Some m → mget (runSeq b) run = Some m) ∧
    (∀ run' log, run' ≠ run → mget (eventLogs b1) run' = Some log → mget (eventLogs b) run' = Some log) ∧
    maxReplayBuffer b1 = maxReplayBuffer b ∧
    mget (eventLogs b1) run = Some (default [] (mget (eventLogs b) run)))
    as (H1 & Es & Ew & Eg & Em & Hrun & Hseq & Hsub & Eb & Elog).
  { unfold b1, mhas. case_bool_decide as Hin.
    { js_split; try done. change (eventLogs b0) with (eventLogs b) in *. destruct Hin as [? ->]. done. }
    set (b2 := b0 <| eventLogs ::= λ m, mset m run [] |>).
    destruct (ok_wf b0 hist H0) as [Hw1 Hw2].
    assert (logs_ok b2 hist) as H2.
    { eapply logs_ok_weaken; [..|exact H0]; try done; cbn; [by apply mwf_set|].
      intros run' log. rewrite mget_set. case_decide; [intros [= <-]; auto|auto]. }
    destruct (prune_spec (msize (eventLogs b2)) b2 hist H2) as (H3 & ? & ? & ? & ? & ? & ? & Hq & Hq').
    split; [exact H3|]. js_split; try done;
      [|by intros m; apply Hq|intros run' log Hne Hg%Hq'; revert Hg; cbn; by rewrite mget_set_ne by done|].
    2: { change (eventLogs b0) with (eventLogs b) in Hin. apply eq_None_not_Some in Hin. rewrite Hin.
      apply prune_newest; cbn; [by apply mwf_set|apply H0|].
      rewrite mset_new by done. apply last_snoc. }
    exists []. apply prune_newest; cbn.
    - by apply mwf_set.
    - apply H0.
    - rewrite mset_new by (by apply eq_None_not_Some). apply last_snoc. }
  destruct Hrun as [log Hlog].
  set (b2 := b1 <| eventLogs ::= _ |>).
  assert (default 0 (mget (runSeq b2) run) < globalSeq b0)%Z as Hlt.
  { change (runSeq b2) with (runSeq b1). change (globalSeq b0) with (Z.succ (globalSeq b)).
    destruct (mget (runSeq b1) run) as [m|] eqn:E; simpl.
    - specialize (Hseq m eq_refl). apply (ok_seq b hist Hb) in Hseq. simpl in Hseq. lia.
    - pose proof (ok_pos b hist Hb). lia. }
  rewrite decide_False by lia. intros [= <- <-].
  set (b3 := b2 <| runSeq ::= λ m, mset m run (globalSeq b0) |>).
  exists e, b3. js_split; try done.
  2: { intros run' log'. cbn. rewrite mget_malter. case_decide; [|intros Hg; left; by apply Hsub].
    rewrite Elog, Eb. intros [= <-]. by right. }
  destruct H1 as [[W1 W2] H1b H1c [H1d H1e] H1f H1g]. split; cbn.
  - split; [by apply mwf_malter|by apply mwf_set].
  - done.
  - done.
  - rewrite Eg. split.
    + rewrite fmap_app. apply increasing_snoc; [done|]. rewrite Forall_fmap.
      pose proof (ok_hist b hist Hb) as [_ Hall]. eapply Forall_impl; [exact Hall|].
      intros e'. simpl. lia.
    + apply Forall_app. split; [by rewrite <- Eg|]. constructor; [reflexivity|constructor].
  - intros run' log'. rewrite mget_malter, seqs_of_snoc. cbn [ev_runId seq e].
    case_decide as Hd; subst.
    + rewrite Hlog. intros [= <-]. destruct (H1f run' log Hlog) as [Hsuf Hlen]. split.
      * rewrite fmap_push_shift. etrans; [apply push_shift_suffix|]. by apply suffix_snoc.
      * by apply push_shift_length.
    + rewrite app_nil_r. apply H1f.
  - apply mall_set; [done|]. by rewrite Eg.
Qed.

(** *** Every operation *)

Lemma logs_ok_serve b hist run loaded : logs_ok b hist →
  (seq <$> loaded) `suffix_of` seqs_of run hist ∧ length loaded ≤ maxReplayBuffer b →
  logs_ok (b <| eventLogs ::= λ m, mset m run loaded |>) hist.
Proof.
  intros [[W1 W2] H2 H3 H4 H5 H6] Hl. split; cbn; try done; [split; [by apply mwf_set|done]|].
  intros k log. rewrite mget_set. case_decide; [intros [= <-]; by subst|apply H5].
Qed.

Lemma serve_same dead run loaded since live r b :
  let b0 := if mhas (eventLogs b) run then b else b <| eventLogs ::= λ m, mset m run loaded |> in
  let b' := (serveRunEvents dead run loaded since live r b).1 in
  (mhas (eventLogs b) run = false ∧ loaded = [] ∧ b' = b) ∨
  same_logs b0 b' ∧ (subs_ok b → subs_ok b').
Proof.
  cbn zeta. unfold serveRunEvents. destruct (mhas (eventLogs b) run) eqn:E; cbn [negb andb];
    [|case_bool_decide as El; [by left|]]; right; cbn [fst].
  - match goal with |- context [subscribe dead run r ?x] => set (b1 := x) end.
    assert (same_logs b b1 ∧ (subs_ok b → subs_ok b1)) as [H1 H2].
    { unfold b1. destruct (gap _); (split; [done|]); intros; by apply (subs_ok_ext b). }
    destruct live; [|split; [by etrans; [exact H1|]|intros; by apply (subs_ok_ext b1), H2]].
    split; [etrans; [exact H1|apply subscribe_same]|intros; by apply subscribe_subs, H2].
  - match goal with |- context [subscribe dead run r ?x] => set (b1 := x) end.
    set (b0 := b <| eventLogs ::= _ |>).
    assert (same_logs b0 b1 ∧ (subs_ok b → subs_ok b1)) as [H1 H2].
    { unfold b1. destruct (gap _); (split; [done|]); intros; by apply (subs_ok_ext b). }
    destruct live; [|split; [by etrans; [exact H1|]|intros; by apply (subs_ok_ext b1), H2]].
    split; [etrans; [exact H1|apply subscribe_same]|intros; by apply subscribe_subs, H2].
Qed.

Lemma setPrivacyMode_ok run mode b hist :
  logs_ok b hist → logs_ok (setPrivacyMode run mode b) hist.
Proof.
  unfold setPrivacyMode. destruct (truthy_str run); [|done]. intros [[W1 W2] H2 H3 H4 H5 H6].
  split; cbn; try done; [split; [by apply mwf_malter|done]|].
  intros run' log. rewrite mget_malter. case_decide; subst; [|apply H5].
  destruct (mget (eventLogs b) run') as [l|] eqn:E; [|done]. intros [= <-].
  destruct (H5 run' l E) as [Hs Hl]. split; [|by rewrite length_fmap].
  rewrite <- list_fmap_compose. by erewrite (list_fmap_ext _ seq).
Qed.

Lemma clearRun_ok run b hist : logs_ok b hist → logs_ok (clearRun run b) hist.
Proof.
  intros Hb. eapply logs_ok_same; [apply close_same|]. destruct (ok_wf b hist Hb).
  eapply logs_ok_weaken; [..|exact Hb]; try done; cbn; try by apply mwf_delete.
  - intros run' log. rewrite mget_delete by done. case_decide; auto; done.
  - intros run' n. rewrite mget_delete by done. by case_decide.
Qed.

Lemma bstep_ok s o s' : ok s → bstep s o s' → ok s'.
Proof.
  destruct s as [b hist]. intros [Hl Hs] [Hu ->]. simpl in *. unfold ok.
  destruct o as [dead run ty p now|run mode|dead run r|run r|dead run r|run|run|dead run loaded since live r];
    cbn [apply_op].
  - destruct (emit dead run ty p now b) as [b' r] eqn:E.
    destruct (emit_spec _ _ _ _ _ _ _ _ _ Hl E) as (e & b1 & -> & _ & _ & Hl1 & -> & E1 & _ & E2 & _).
    split; [eapply logs_ok_same; [apply deliver_same|done]|]. apply deliver_subs.
    by apply (subs_ok_ext b).
  - split; [by apply setPrivacyMode_ok|]. unfold setPrivacyMode. destruct (truthy_str run); [|done].
    by apply (subs_ok_ext b).
  - split; [eapply logs_ok_same; [apply subscribe_same|done]|by apply subscribe_subs].
  - split; [eapply logs_ok_same; [apply unsubscribe_same|done]|by apply unsubscribe_subs].
  - unfold ping. destruct (dead r).
    + split; [eapply logs_ok_same; [apply unsubscribe_same|done]|by apply unsubscribe_subs].
    + split; [by eapply (logs_ok_same b)|by apply (subs_ok_ext b)].
  - split; [eapply logs_ok_same; [apply close_same|done]|by apply close_subs].
  - split; [by apply clearRun_ok|]. unfold clearRun. apply close_subs. by apply (subs_ok_ext b).
  - cbn [fst snd]. destruct (serve_same dead run loaded since live r b) as [(_ & _ & ->)|[Hsm Hss]]; [done|].
    split; [|by apply Hss]. eapply logs_ok_same; [exact Hsm|].
    destruct (mhas (eventLogs b) run) eqn:E; [done|]. apply logs_ok_serve; [done|]. by destruct (Hu E) as (? & ? & _).
Qed.

Lemma reachable_ok buffer runs subs s : reachable buffer runs subs s → ok s.
Proof.
  intros [os Ht]. eapply (trace_invariant bstep ok); [exact bstep_ok|exact Ht|].
  unfold new_bus. split; split; cbn; try done; try apply mwf_nil;
    try (repeat case_decide; lia).
  - split; apply mwf_nil.
  - split; [constructor|done].
Qed.

(** The stream's invariants.  In every reachable state of the bus: [emit]
    never throws and numbers the new event above all others; each run's buffer
    holds the run's newest events, in strictly increasing order, at most
    [maxReplayBuffer] of them; and a run has at most [maxSubscribersPerRun]
    subscribers, each once. *)
Theorem bus_invariant buffer runs subs b hist :
  reachable buffer runs subs (b, hist) →
  (∀ dead run ty p now, ∃ e, (emit dead run ty p now b).2 = Ok e ∧
     ev_runId e = run ∧ Forall (λ e', seq e' < seq e)%Z hist) ∧
  (∀ run, (seq <$> log_of run b) `suffix_of` seqs_of run hist ∧ increasing (seq <$> log_of run b) ∧
     length (log_of run b) ≤ maxReplayBuffer b) ∧
  (∀ run, NoDup (default [] (mget (subscribers b) run)) ∧
     subscriberCount run b ≤ maxSubscribersPerRun b).
Proof.
  intros [Hl Hs]%reachable_ok. cbn [fst snd] in *. split; [|split].
  - intros dead run ty p now. destruct (emit dead run ty p now b) as [b' r] eqn:E.
    destruct (emit_spec _ _ _ _ _ _ _ _ _ Hl E) as (e & _ & -> & Hr & Hq & _). exists e.
    split; [done|split; [done|]]. pose proof (ok_hist b hist Hl) as [_ Hall].
    eapply Forall_impl; [exact Hall|]. intros e'. simpl. lia.
  - intros run. unfold log_of. destruct (mget (eventLogs b) run) as [log|] eqn:E; simpl.
    + destruct (ok_log b hist Hl run log E) as [Hsuf Hlen]. js_split; [done| |done].
      eapply increasing_suffix; [exact Hsuf|]. apply seqs_of_increasing, (ok_hist b hist Hl).
    + js_split; [apply suffix_nil|constructor|lia].
  - intros run. by apply subs_of.
Qed.

(** ** Replay *)

Lemma filter_split (P : Z → Prop) `{!∀ x, Decision (P x)} k l :
  (∀ x, x ∈ k → ¬ P x) → filter P (k ++ l) = filter P l.
Proof.
  intros Hk. induction k as [|x k IH]; [done|]. simpl app. rewrite filter_cons_False by (apply Hk; by left).
  apply IH. intros y Hy. apply Hk. by right.
Qed.

Lemma fmap_filter_seq n (l : list envelope) :
  seq <$> filter (λ e, n < seq e)%Z l = filter (λ m, n < m)%Z (seq <$> l).
Proof.
  induction l as [|e l IH]; [done|]. rewrite fmap_cons, !filter_cons. by case_decide; rewrite ?fmap_cons, IH.
Qed.

(** No gap reported: the window holds everything above the cursor. *)
Lemma window_complete n log all :
  increasing all → (seq <$> log) `suffix_of` all → (0 < n)%Z → log ≠ [] →
  gap (window n log) = false → seq <$> events (window n log) = filter (λ m, n < m)%Z all.
Proof.
  intros Hi [k ->] Hn Hne. destruct log as [|e log]; [done|]. cbn [window gap events].
  intros Hg%bool_decide_eq_false. rewrite fmap_filter_seq. symmetry. apply filter_split.
  intros x Hx. assert (x < seq e)%Z; [|lia].
  eapply StronglySorted_app_1_elem_of; [exact Hi|done|]. rewrite fmap_cons. by left.
Qed.

(** The cursor moved past the retained window: every missing event is older
    than the oldest the client is offered. *)
Lemma window_gap n log : gap (window n log) = true →
  (0 < n)%Z ∧ ∃ e log', log = e :: log' ∧ (n < seq e - 1)%Z ∧ events (window n log) = filter (λ e, n < seq e)%Z log.
Proof. destruct log as [|e log]; [done|]. cbn. intros []%bool_decide_eq_true. eauto 6. Qed.

(** ** Following a run *)

(** The numbers of the run's events among frames written to a response. *)
Definition got (r : response) (run : string) (l : list (response * frame)) : list Z :=
  omap (λ p : response * frame, match p.2 with
    | Event e => if decide (p.1 = r ∧ ev_runId e = run) then Some (seq e) else None
    | _ => None end) l.

Definition received (r : response) (run : string) (b : bus) : list Z := got r run (written b).

Definition listening (r : response) (run : string) (b : bus) : Prop :=
  ∃ l, mget (subscribers b) run = Some l ∧ r ∈ l.

(** While [r] follows [run]: it stays subscribed, its connection works, and no
    other request is served on it. *)
Inductive follows (r : response) (run : string) : state → list op → state → Prop :=
| follows_nil s : follows r run s [] s
| follows_cons s o s' os s'' :
    bstep s o s' →
    match o with
    | OpEmit dead _ _ _ _ => dead r = false
    | OpSubscribe _ _ r' | OpServe _ _ _ _ _ r' => r' ≠ r
    | _ => True
    end →
    listening r run s'.1 → follows r run s' os s'' → follows r run s (o :: os) s''.

Lemma got_app r run l l' : got r run (l ++ l') = got r run l ++ got r run l'.
Proof. apply omap_app. Qed.

Lemma got_event r run x e l : got r run ((x, Event e) :: l) =
  (if decide (x = r ∧ ev_runId e = run) then [seq e] else []) ++ got r run l.
Proof. unfold got. simpl. by case_decide. Qed.

Lemma got_others r run r' es : r' ≠ r → got r run ((λ e, (r', Event e)) <$> es) = [].
Proof.
  intros Hne. induction es as [|e es IH]; [done|]. rewrite fmap_cons, got_event.
  rewrite decide_False by naive_solver. exact IH.
Qed.

Lemma got_own r run es : Forall (λ e, ev_runId e = run) es →
  got r run ((λ e, (r, Event e)) <$> es) = seq <$> es.
Proof.
  induction 1 as [|e es He Hes IH]; [done|]. rewrite !fmap_cons, got_event.
  rewrite decide_True by done. simpl. by f_equal.
Qed.

(** A delivery reaches a live subscriber once. *)
Lemma got_delivery r run e (l : list response) : NoDup l → r ∈ l →
  got r run ((λ x, (x, Event e)) <$> l) = if decide (ev_runId e = run) then [seq e] else [].
Proof.
  induction l as [|x l IH]; intros Hnd Hin; [by apply not_elem_of_nil in Hin|].
  apply NoDup_cons in Hnd as [Hx Hnd]. rewrite fmap_cons, got_event.
  apply elem_of_cons in Hin as [<-|Hin].
  - assert (got r run ((λ x, (x, Event e)) <$> l) = []) as Hnone.
    { clear IH Hnd. induction l as [|y l IH]; [done|]. apply not_elem_of_cons in Hx as [Hy Hl].
      rewrite fmap_cons. unfold got. simpl. rewrite decide_False by naive_solver. by apply IH. }
    rewrite Hnone, app_nil_r. case_decide as H1; case_decide as H2; naive_solver.
  - rewrite decide_False by (intros [-> _]; done). by apply IH.
Qed.

Lemma got_missing r run e (l : list response) : ev_runId e ≠ run →
  got r run ((λ x, (x, Event e)) <$> l) = [].
Proof.
  intros Hne. induction l as [|x l IH]; [done|]. rewrite fmap_cons, got_event.
  rewrite decide_False by naive_solver. exact IH.
Qed.

Lemma got_ends r run l : got r run ((λ x, (x, EndOfStream)) <$> l) = [].
Proof. by induction l. Qed.

Lemma received_write r run x f b : (∀ e, f ≠ Event e) → received r run (write x f b) = received r run b.
Proof.
  intros Hf. unfold received. change (written (write x f b)) with (written b ++ [(x, f)]).
  rewrite got_app. destruct f; try apply app_nil_r. by destruct (Hf e).
Qed.

Lemma received_subscribe r run dead run' r' b :
  received r run (subscribe dead run' r' b) = received r run b.
Proof.
  unfold subscribe. set (b1 := match default [] _ with [] => b | _ => _ end).
  assert (received r run b1 = received r run b) as <-.
  { unfold b1. destruct (default [] _); [done|]. case_bool_decide; [by apply received_write|done]. }
  destruct (dead r'); [done|]. by rewrite received_write.
Qed.

Lemma received_unsubscribe r run run' r' b : received r run (unsubscribe run' r' b) = received r run b.
Proof. unfold unsubscribe. by destruct (mget (subscribers b) run'). Qed.

Lemma received_close r run run' b : received r run (closeSubscribers run' b) = received r run b.
Proof.
  unfold closeSubscribers, received. destruct (mget (subscribers b) run') as [l|]; [|done].
  change (written _) with (written b ++ ((λ x, (x, EndOfStream)) <$> l)) at 1.
  by rewrite got_app, got_ends, app_nil_r.
Qed.

Lemma received_serve r run dead run' loaded since live r' b :
  let b0 := if mhas (eventLogs b) run' then b else b <| eventLogs ::= λ m, mset m run' loaded |> in
  let rp := getEventsSinceWithGap run' (Z.max 0 since) b0 in
  let res := serveRunEvents dead run' loaded since live r' b in
  res.2 ≠ None →
  res.2 = Some (length (events rp), gap rp) ∧
  received r run res.1 = received r run b ++ got r run ((λ e, (r', Event e)) <$> events rp).
Proof.
  cbn zeta. unfold serveRunEvents. destruct (negb _ && _); [done|]. intros _. cbn [fst snd].
  split; [by destruct (mhas _ _)|].
  set (b0 := if mhas _ _ then b else _).
  assert (received r run b0 = received r run b) as <- by (unfold b0; by destruct (mhas _ _)).
  change (getEventsSinceWithGap run' (Z.max 0 since) (write r' (Connected run') b0))
    with (getEventsSinceWithGap run' (Z.max 0 since) b0).
  set (rp := getEventsSinceWithGap run' (Z.max 0 since) b0).
  set (b1 := if gap rp then _ else _).
  assert (received r run b1 = received r run b0) as <-.
  { unfold b1. destruct (gap rp); rewrite ?received_write; done. }
  set (b2 := b1 <| written ::= _ |>).
  assert (received r run b2 = received r run b1 ++ got r run ((λ e, (r', Event e)) <$> events rp)) as <-
    by apply got_app.
  destruct live; [apply received_subscribe|by apply received_write].
Qed.

Lemma follow_step r run s o s' : ok s → bstep s o s' → listening r run s.1 →
  match o with
  | OpEmit dead _ _ _ _ => dead r = false
  | OpSubscribe _ _ r' | OpServe _ _ _ _ _ r' => r' ≠ r
  | _ => True
  end →
  ∃ new, s'.2 = s.2 ++ new ∧ received r run s'.1 = received r run s.1 ++ seqs_of run new.
Proof.
  destruct s as [b hist]. intros [Hl Hs] [_ ->] (subs & Hsubs & Hin) Ho. simpl in *.
  destruct o as [dead run' ty p now|run' mode|dead run' r'|run' r'|dead run' r'|run'|run'
    |dead run' loaded since live r']; cbn [apply_op].
  2-8: exists []; cbn [fst snd]; rewrite !app_nil_r; (split; [done|]).
  - destruct (emit dead run' ty p now b) as [b' res] eqn:E.
    destruct (emit_spec _ _ _ _ _ _ _ _ _ Hl E) as (e & b1 & -> & Her & _ & _ & -> & E1 & E2 & _ & _).
    exists [e]. split; [done|]. cbn [fst]. unfold received at 2. rewrite <- E2.
    assert (seqs_of run [e] = if decide (ev_runId e = run) then [seq e] else []) as ->
      by (unfold seqs_of; rewrite filter_cons; by case_decide).
    unfold received, deliver. rewrite E1. destruct (mget (subscribers b) run') as [l|] eqn:El.
    2: { rewrite decide_False by congruence. by rewrite app_nil_r. }
    assert (ev_runId e = run → r ∈ filter (λ x, dead x = false) l ∧ NoDup (filter (λ x, dead x = false) l)) as Hr.
    { intros <-. rewrite Her, El in Hsubs. injection Hsubs as ->. split; [by apply list_elem_of_filter|].
      apply NoDup_filter. by apply (subs_each b Hs _ _ El). }
    destruct l as [|x l].
    { rewrite decide_False; [by rewrite app_nil_r|]. intros [Hn _]%Hr. by apply not_elem_of_nil in Hn. }
    change (written (assign _ _ _)) with
      (written b1 ++ ((λ x, (x, Event e)) <$> filter (λ x, dead x = false) (x :: l))).
    rewrite got_app. f_equal. case_decide as Hd.
    + destruct (Hr Hd) as [H1 H2]. rewrite (got_delivery r run e) by done. by rewrite decide_True.
    + by apply got_missing.
  - unfold setPrivacyMode. by destruct (truthy_str run').
  - apply received_subscribe.
  - apply received_unsubscribe.
  - unfold ping. destruct (dead r'); [apply received_unsubscribe|by apply received_write].
  - apply received_close.
  - unfold clearRun. by rewrite received_close.
  - destruct (decide ((serveRunEvents dead run' loaded since live r' b).2 = None)) as [En|En].
    + revert En. unfold serveRunEvents. by destruct (negb _ && _).
    + destruct (received_serve r run dead run' loaded since live r' b En) as [_ ->].
      by rewrite got_others, app_nil_r.
Qed.

Lemma follow_all r run s os s' : ok s → listening r run s.1 → follows r run s os s' →
  ∃ new, s'.2 = s.2 ++ new ∧ received r run s'.1 = received r run s.1 ++ seqs_of run new.
Proof.
  intros Hs Hl Hf. revert Hs Hl. induction Hf as [s|s o s1 os s2 Hst Ho Hl1 Hf IH]; intros Hs Hl.
  { exists []. by rewrite !app_nil_r. }
  destruct (follow_step r run s o s1 Hs Hst Hl Ho) as (n1 & E1 & E2).
  destruct IH as (n2 & E3 & E4); [by eapply bstep_ok|done|].
  exists (n1 ++ n2). rewrite E3, E1, E4, E2, <- !app_assoc. split; [done|].
  f_equal. unfold seqs_of. by rewrite filter_app, fmap_app.
Qed.

(** No run is kept with an empty buffer, and a buffer holds its run's events. *)
Definition full (b : bus) : Prop :=
  mall (λ run log, log ≠ [] ∧ Forall (λ e, ev_runId e = run) log) (eventLogs b).

Lemma full_same b b' : same_logs b b' → full b → full b'.
Proof. intros (_ & _ & _ & _ & E & _). unfold full. by rewrite E. Qed.

Lemma bstep_full s o s' : ok s ∧ full s.1 → bstep s o s' → ok s' ∧ full s'.1.
Proof.
  intros [Hok Hf] Hst. split; [by eapply bstep_ok|]. destruct s as [b hist], Hst as [Hu ->], Hok as [Hl _].
  simpl in *.
  destruct o as [dead run ty p now|run mode|dead run r|run r|dead run r|run|run|dead run loaded since live r];
    cbn [apply_op].
  - destruct (emit dead run ty p now b) as [b' r] eqn:E.
    destruct (emit_spec _ _ _ _ _ _ _ _ _ Hl E) as (e & b1 & -> & Her & _ & _ & -> & _ & _ & _ & Hsub).
    eapply full_same; [apply deliver_same|]. intros run' log [Hg|[-> ->]]%Hsub; [by apply Hf|].
    split.
    + intros En. pose proof (push_shift_last (maxReplayBuffer b) (default [] (mget (eventLogs b) run)) e) as Hp.
      rewrite En in Hp. by specialize (Hp (proj1 (ok_sizes b hist Hl))).
    + apply push_shift_Forall; [|done]. destruct (mget (eventLogs b) run) eqn:Eg; [|constructor].
      by apply (Hf run).
  - unfold setPrivacyMode. destruct (truthy_str run); [|done]. intros run' log. cbn. rewrite mget_malter.
    case_decide; subst; [|apply Hf]. destruct (mget (eventLogs b) run') as [l|] eqn:E; [|done].
    intros [= <-]. destruct (Hf run' l E) as [Hne Hown]. split; [by intros ?%fmap_nil_inv|].
    apply Forall_fmap. by eapply Forall_impl; [exact Hown|].
  - eapply full_same; [apply subscribe_same|done].
  - eapply full_same; [apply unsubscribe_same|done].
  - unfold ping. destruct (dead r); [eapply full_same; [apply unsubscribe_same|done]|done].
  - eapply full_same; [apply close_same|done].
  - eapply full_same; [apply close_same|]. apply mall_delete; [apply (ok_wf b hist Hl)|done].
  - cbn [fst]. destruct (serve_same dead run loaded since live r b) as [(_ & _ & ->)|[Hsm _]]; [done|].
    destruct (decide (loaded = [])) as [->|Hne].
    + destruct (mhas (eventLogs b) run) eqn:Em; [by eapply full_same|].
      unfold serveRunEvents. by rewrite Em.
    + eapply full_same; [exact Hsm|]. destruct (mhas (eventLogs b) run) eqn:Em; [done|].
      apply mall_set; [done|]. split; [done|]. by destruct (Hu Em) as (_ & _ & ?).
Qed.

Lemma reachable_full buffer runs subs s : reachable buffer runs subs s → ok s ∧ full s.1.
Proof.
  intros Hr. split; [by eapply reachable_ok|]. destruct Hr as [os Ht].
  assert (ok (new_bus buffer runs subs, []) ∧ full (new_bus buffer runs subs)) as H0.
  { split; [eapply reachable_ok; exists []; constructor|apply mall_nil]. }
  eapply (trace_invariant bstep (λ s, ok s ∧ full s.1) _ _ _ bstep_full Ht H0).
Qed.

Lemma subscribe_listening run r b : listening r run (subscribe (λ _, false) run r b).
Proof.
  unfold subscribe, listening. set (b1 := match default [] _ with [] => b | _ => _ end).
  set (l := set_add r _). exists l. split; [apply mget_set_eq|].
  unfold l, set_add. case_decide; [done|]. apply elem_of_app. right. by apply list_elem_of_singleton.
Qed.

(** The buffer of a served run, from the history. *)
Lemma served_log b hist run loaded : ok (b, hist) → full b →
  up_to_date (b, hist) (OpServe (λ _, false) run loaded 0 true 0) →
  (mhas (eventLogs b) run = true ∨ loaded ≠ []) →
  let b0 := if mhas (eventLogs b) run then b else b <| eventLogs ::= λ m, mset m run loaded |> in
  (seq <$> log_of run b0) `suffix_of` seqs_of run hist ∧ log_of run b0 ≠ [] ∧
  Forall (λ e, ev_runId e = run) (log_of run b0).
Proof.
  intros [Hl _] Hf Hu Hor. cbn [fst snd] in *. unfold log_of, mhas in *. case_bool_decide as Hin.
  - destruct Hin as [log E]. rewrite E. split; [by apply (ok_log b hist Hl run log E)|by apply (Hf run)].
  - cbn. rewrite mget_set_eq. cbn. destruct Hor as [?|Hne]; [done|].
    destruct Hu as (Hsuf & _ & Hown); [by apply bool_decide_eq_false|]. done.
Qed.

(** Numbers only grow. *)
Lemma bstep_numbers s o s' : ok s → bstep s o s' →
  (globalSeq s.1 ≤ globalSeq s'.1)%Z ∧ ∃ new, s'.2 = s.2 ++ new ∧ Forall (λ e, globalSeq s.1 < seq e)%Z new.
Proof.
  destruct s as [b hist]. intros [Hl _] [_ ->]. cbn [fst snd] in *.
  destruct o as [dead run ty p now|run mode|dead run r|run r|dead run r|run|run|dead run loaded since live r];
    cbn [apply_op].
  2-8: split; [|exists []; by rewrite app_nil_r]; cbn [fst].
  - destruct (emit dead run ty p now b) as [b' r] eqn:E.
    destruct (emit_spec _ _ _ _ _ _ _ _ _ Hl E) as (e & b1 & -> & _ & Hq & Hl1 & -> & _).
    cbn [fst snd]. destruct (deliver_same dead run e b1) as (_ & _ & _ & -> & _).
    pose proof (ok_hist _ _ Hl1) as [_ Hall]. apply Forall_app in Hall as [_ Hall].
    inversion Hall; subst. split; [lia|]. exists [e]. split; [done|]. constructor; [lia|constructor].
  - unfold setPrivacyMode. by destruct (truthy_str run).
  - by destruct (subscribe_same dead run r b) as (_ & _ & _ & -> & _).
  - by destruct (unsubscribe_same run r b) as (_ & _ & _ & -> & _).
  - unfold ping. destruct (dead r); [|done]. by destruct (unsubscribe_same run r b) as (_ & _ & _ & -> & _).
  - by destruct (close_same run b) as (_ & _ & _ & -> & _).
  - unfold clearRun. by destruct (close_same run (b <| eventLogs ::= λ m, mdelete m run |>
      <| runSeq ::= λ m, mdelete m run |> <| privacyModes ::= λ m, mdelete m run |>)) as (_ & _ & _ & -> & _).
  - destruct (serve_same dead run loaded since live r b) as [(_ & _ & ->)|[(_ & _ & _ & -> & _) _]]; [done|].
    by destruct (mhas _ _).
Qed.

Lemma follows_numbers r run s os s' : ok s → follows r run s os s' →
  increasing (seq <$> s'.2) ∧ ∃ new, s'.2 = s.2 ++ new ∧ Forall (λ e, globalSeq s.1 < seq e)%Z new.
Proof.
  intros Hs Hf. induction Hf as [s|s o s1 os s2 Hst Ho Hl1 Hf IH].
  { split; [apply (ok_hist _ _ (proj1 Hs))|]. exists []. by rewrite app_nil_r. }
  destruct (bstep_numbers s o s1 Hs Hst) as (Hg & n1 & E1 & H1).
  destruct IH as (Hi & n2 & E2 & H2); [by eapply bstep_ok|]. split; [done|].
  exists (n1 ++ n2). split; [by rewrite E2, E1, app_assoc|]. apply Forall_app. split; [done|].
  eapply Forall_impl; [exact H2|]. intros e. simpl. lia.
Qed.

Lemma increasing_filter (P : Z → Prop) `{!∀ x, Decision (P x)} l : increasing l → increasing (filter P l).
Proof.
  induction l as [|x l IH]; [done|]. intros [Hx Hl]%StronglySorted_cons. rewrite filter_cons.
  case_decide; [|by apply IH]. apply StronglySorted_cons. split; [|by apply IH].
  rewrite Forall_forall in Hx |- *. intros y [_ Hy]%list_elem_of_filter. auto.
Qed.

Lemma filter_all (P : Z → Prop) `{!∀ x, Decision (P x)} l : Forall P l → filter P l = l.
Proof.
  induction 1 as [|x l Hx Hl IH]; [done|]. by rewrite filter_cons_True, IH.
Qed.

(** A client that follows a run misses nothing and sees nothing twice.  A
    client connects with cursor [n > 0], the number of an event this server
    sent; unless the reply carries a gap frame, whatever the bus then does,
    for as long as the client stays subscribed, the events of the run written
    to it are exactly the run's events numbered above [n] in the whole history,
    each once and in order, replayed and live ones together. *)
Theorem stream_exactly_once buffer runs subs b hist r run n loaded b1 k os b2 hist2 :
  reachable buffer runs subs (b, hist) → (0 < n ≤ globalSeq b)%Z → received r run b = [] →
  up_to_date (b, hist) (OpServe (λ _, false) run loaded n true r) →
  serveRunEvents (λ _, false) run loaded n true r b = (b1, Some (k, false)) →
  follows r run (b1, hist) os (b2, hist2) →
  received r run b2 = filter (λ m, n < m)%Z (seqs_of run hist2) ∧ increasing (received r run b2).
Proof.
  intros Hreach Hn Hfresh Hu Hserve Hfol.
  destruct (reachable_full _ _ _ _ Hreach) as [Hok Hfull]. cbn [fst] in Hfull.
  assert (bstep (b, hist) (OpServe (λ _, false) run loaded n true r) (b1, hist)) as Hst.
  { split; [done|]. cbn [apply_op]. by rewrite Hserve. }
  pose proof (bstep_ok _ _ _ Hok Hst) as Hok1.
  assert ((serveRunEvents (λ _, false) run loaded n true r b).2 ≠ None) as Hsome by (by rewrite Hserve).
  destruct (received_serve r run (λ _, false) run loaded n true r b Hsome) as [Hout Hrec].
  assert (mhas (eventLogs b) run = true ∨ loaded ≠ []) as Hor.
  { destruct (mhas (eventLogs b) run) eqn:Em; [by left|right]. intros ->.
    apply Hsome. unfold serveRunEvents. by rewrite Em. }
  destruct (served_log b hist run loaded Hok Hfull Hu Hor) as (Hsuf & Hne & Hown).
  rewrite Hserve in Hout, Hrec. cbn [fst snd] in Hout, Hrec.
  set (b0 := if mhas (eventLogs b) run then b else _) in *.
  rewrite Z.max_r in Hout, Hrec by lia. injection Hout as _ Hgap. rewrite Hfresh in Hrec. simpl in Hrec.
  destruct Hok as [Hl _]. cbn [fst snd] in Hl.
  pose proof (ok_hist b hist Hl) as [Hinc Hmax].
  pose proof (window_complete n (log_of run b0) (seqs_of run hist) (seqs_of_increasing _ _ Hinc) Hsuf
    ltac:(lia) Hne (eq_sym Hgap)) as Hwin.
  assert (listening r run b1) as Hlis.
  { revert Hserve. unfold serveRunEvents. destruct (negb _ && _); [done|]. intros [= <- _ _].
    apply subscribe_listening. }
  destruct (follow_all r run _ _ _ Hok1 Hlis Hfol) as (new & E2 & Erec). cbn [fst snd] in *.
  assert (received r run b1 = filter (λ m, n < m)%Z (seqs_of run hist)) as Hb1.
  { rewrite Hrec. rewrite got_own; [exact Hwin|]. apply Forall_forall. intros e He.
    rewrite Forall_forall in Hown. apply Hown. revert He. unfold getEventsSinceWithGap, window.
    destruct (log_of run b0); [done|]. intros [_ He]%list_elem_of_filter. done. }
  destruct (follows_numbers _ _ _ _ _ Hok1 Hfol) as (Hinc2 & new' & E2' & Hnew). cbn [fst snd] in *.
  assert (new' = new) as -> by (rewrite E2 in E2'; by apply app_inv_head in E2').
  destruct (bstep_numbers _ _ _ (reachable_ok _ _ _ _ Hreach) Hst) as [Hglob _]. cbn [fst] in Hglob.
  assert (received r run b2 = filter (λ m, n < m)%Z (seqs_of run hist2)) as ->.
  { rewrite Erec, Hb1, E2. unfold seqs_of. rewrite !filter_app, fmap_app, filter_app. f_equal.
    symmetry. apply filter_all. rewrite Forall_fmap, Forall_forall. intros e [_ He]%list_elem_of_filter.
    rewrite Forall_forall in Hnew. specialize (Hnew e He). simpl in *. lia. }
  split; [done|]. by apply increasing_filter, seqs_of_increasing.
Qed.

(** ** Merging *)

Abbreviation numbered n := (filter (λ e, seq e = n)).

Lemma insert_seq_numbered n e l : numbered n (insert_seq e l) = numbered n (e :: l).
Proof.
  induction l as [|x l IH]; [done|]. simpl insert_seq. case_decide as Hd; [done|].
  rewrite filter_cons, IH, !filter_cons. repeat case_decide; try done; lia.
Qed.

(** The sort is stable. *)
Lemma sort_seq_numbered n l : numbered n (sort_seq l) = numbered n l.
Proof.
  induction l as [|e l IH]; [done|]. change (sort_seq (e :: l)) with (insert_seq e (sort_seq l)).
  by rewrite insert_seq_numbered, !filter_cons, IH.
Qed.

Definition by_seq (e e' : envelope) : Prop := (seq e ≤ seq e')%Z.

Lemma insert_seq_sorted e l : StronglySorted by_seq l → StronglySorted by_seq (insert_seq e l).
Proof.
  induction l as [|x l IH]; [by repeat constructor|]. intros [Hx Hl]%StronglySorted_cons.
  simpl. case_decide as Hd; apply StronglySorted_cons.
  - split; [|by apply StronglySorted_cons]. constructor; [done|].
    eapply Forall_impl; [exact Hx|]. unfold by_seq. intros y; simpl. lia.
  - split; [|by apply IH]. rewrite Forall_forall in Hx |- *. intros y Hy.
    assert (y ∈ numbered (seq y) (insert_seq e l)) as Hn by (by apply list_elem_of_filter).
    rewrite insert_seq_numbered in Hn. apply list_elem_of_filter in Hn as [_ [->|Hn]%elem_of_cons]; [|auto].
    unfold by_seq. lia.
Qed.

Lemma sort_seq_sorted l : StronglySorted by_seq (sort_seq l).
Proof. induction l as [|e l IH]; [constructor|]. by apply insert_seq_sorted. Qed.

Definition keep_first (out : list envelope) (e : envelope) : list envelope :=
  if decide (seq e ∈ seq <$> out) then out else out ++ [e].

Lemma numbered_nil n l : numbered n l = [] ↔ n ∉ seq <$> l.
Proof.
  induction l as [|e l IH]; [split; [by intros _ ?%not_elem_of_nil|done]|].
  rewrite filter_cons, fmap_cons, not_elem_of_cons. case_decide; naive_solver.
Qed.

Lemma keep_first_numbered n l out : (∀ m, length (numbered m out) ≤ 1) →
  numbered n (foldl keep_first out l) = take 1 (numbered n (out ++ l)) ∧
  ∀ m, length (numbered m (foldl keep_first out l)) ≤ 1.
Proof.
  revert out. induction l as [|e l IH]; intros out Hout; simpl.
  - rewrite app_nil_r. split; [|done]. by rewrite take_ge.
  - unfold keep_first at 2 4. case_decide as Hin.
    + destruct (IH out Hout) as [-> H2]. split; [|done]. rewrite !filter_app, filter_cons.
      case_decide as Hn; [|done]. subst n. destruct (numbered (seq e) out) eqn:E; [|done].
      by apply numbered_nil in E.
    + destruct (IH (out ++ [e])) as [-> H2]; [|by rewrite <- app_assoc].
      intros m. rewrite filter_app, filter_cons. case_decide as Hm; [|by rewrite app_nil_r].
      subst m. by rewrite (proj2 (numbered_nil _ _) Hin).
Qed.

Lemma keep_first_increasing l out : increasing (seq <$> out) → StronglySorted by_seq l →
  (∀ x y, x ∈ out → y ∈ l → by_seq x y) → increasing (seq <$> foldl keep_first out l).
Proof.
  revert out. induction l as [|e l IH]; intros out Ho Hl Hc; simpl; [done|].
  apply StronglySorted_cons in Hl as [He Hl]. unfold keep_first at 2. case_decide as Hin.
  - apply IH; [done|done|]. intros x y Hx Hy. apply Hc; [done|by right].
  - apply IH; [|done|].
    + rewrite fmap_app. apply increasing_snoc; [done|]. rewrite Forall_fmap. apply Forall_forall.
      intros x Hx. assert (by_seq x e) as Hle by (apply Hc; [done|by left]).
      assert (seq x ≠ seq e) by (intros E; apply Hin; rewrite <- E; by apply list_elem_of_fmap_2).
      unfold by_seq in Hle. simpl. lia.
    + intros x y [Hx| ->%list_elem_of_singleton]%elem_of_app Hy; [apply Hc; [done|by right]|].
      rewrite Forall_forall in He. auto.
Qed.

(** The merged replay of an instance that did not emit the events itself.
    Merging the durable log with the live buffer gives one event per number,
    in strictly increasing order, for exactly the numbers that occur in either;
    where both have an event the durable one is kept (the code's comment says
    that the bus wins); and when no gap is reported the reply is every merged
    event above the cursor. *)
Theorem durable_merge run n durable b :
  let live := events (getEventsSinceWithGap run 0 b) in
  let m := dedupeBySeq (durable ++ live) in
  increasing (seq <$> m) ∧
  (∀ e, e ∈ m ↔ head (numbered (seq e) (durable ++ live)) = Some e) ∧
  (0 < n → m ≠ [] → gap (readDurableSince run n (Some durable) b) = false →
   seq <$> events (readDurableSince run n (Some durable) b) = filter (λ k, n < k) (seq <$> m))%Z.
Proof.
  cbn zeta. set (live := events _). set (l := durable ++ live).
  change (dedupeBySeq l) with (foldl keep_first [] (sort_seq l)).
  assert (increasing (seq <$> foldl keep_first [] (sort_seq l))) as Hi.
  { apply keep_first_increasing; [constructor|apply sort_seq_sorted|]. by intros ? ? ?%not_elem_of_nil. }
  split; [done|]. split.
  - intros e. destruct (keep_first_numbered (seq e) (sort_seq l) []) as [E _]; [intros; simpl; lia|].
    simpl app in E. rewrite sort_seq_numbered in E.
    assert (e ∈ foldl keep_first [] (sort_seq l) ↔ e ∈ take 1 (numbered (seq e) l)) as ->.
    { rewrite <- E. rewrite list_elem_of_filter. naive_solver. }
    destruct (numbered (seq e) l) as [|x k]; simpl; [split; [by intros ?%not_elem_of_nil|done]|].
    rewrite take_0, list_elem_of_singleton. naive_solver.
  - intros Hn Hne Hg. by apply (window_complete n (dedupeBySeq l)).
Qed.

(** ** Witnesses *)

Definition dead_none : response → bool := λ _, false.

Definition sample_ops : list op :=
  [OpEmit dead_none "r1" "planning" JNull 1; OpEmit dead_none "r2" "planning" JNull 2;
   OpEmit dead_none "r1" "context.built" JNull 3; OpEmit dead_none "r1" "cost.updated" JNull 4]%string.

Definition sample_state : state := run apply_op (new_bus 2 10 5, []) sample_ops.

Lemma ops_reachable os s : Forall (λ o, if o is OpServe _ _ _ _ _ _ then False else True) os →
  trace bstep s os (run apply_op s os).
Proof.
  revert s. induction os as [|o os IH]; intros s Hos; [constructor|]. inversion Hos; subst.
  econstructor; [|by apply IH]. split; [by destruct o|done].
Qed.

Lemma sample_ops_reachable : reachable 2 10 5 (sample_state.1, sample_state.2).
Proof. rewrite <- surjective_pairing. exists sample_ops. apply ops_reachable. by repeat constructor. Qed.

Lemma bus_invariant_witness :
  seq <$> log_of "r1" sample_state.1 = [3; 4]%Z ∧
  increasing (seq <$> log_of "r1" sample_state.1).
Proof.
  split; [vm_compute; reflexivity|].
  destruct (bus_invariant 2 10 5 sample_state.1 sample_state.2) as (_ & H & _).
  - exact sample_ops_reachable.
  - exact (proj1 (proj2 (H "r1"%string))).
Defined.

Definition connected : state :=
  apply_op sample_state (OpServe dead_none "r1" [] 3 true 9).
Definition followed : state :=
  apply_op connected (OpEmit dead_none "r1" "task.completed" JNull 5).

Lemma sample_follows : follows 9 "r1"%string (connected.1, sample_state.2)
  [OpEmit dead_none "r1"%string "task.completed"%string JNull 5] (followed.1, followed.2).
Proof.
  assert (∀ s : state, ((apply_op s (OpServe dead_none "r1"%string [] 3 true 9)).1, s.2)
    = apply_op s (OpServe dead_none "r1"%string [] 3 true 9)) as E by by intros [].
  unfold followed, connected. rewrite E. clear E.
  set (s1 := apply_op sample_state _).
  rewrite <- (surjective_pairing (apply_op s1 _)).
  eapply follows_cons; [by split|done| |apply follows_nil].
  exists [9]. split; [vm_compute; reflexivity|left].
Qed.

Lemma stream_exactly_once_witness : received 9 "r1" followed.1 = [4; 5]%Z.
Proof.
  destruct (stream_exactly_once 2 10 5 sample_state.1 sample_state.2 9 "r1" 3 [] connected.1 1
    [OpEmit dead_none "r1"%string "task.completed"%string JNull 5] followed.1 followed.2) as [H _].
  - exact sample_ops_reachable.
  - vm_compute. split; [reflexivity|discriminate].
  - vm_compute. reflexivity.
  - intros Hn. vm_compute in Hn. discriminate Hn.
  - vm_compute. reflexivity.
  - apply sample_follows.
  - rewrite H. vm_compute. reflexivity.
Defined.
