(* ===== verification/RedisQueue.v ===== *)
(** The redis job queue: [RedisJobQueue] of
    backend/src/infrastructure/queue.js with the scripts of
    backend/src/infrastructure/redis-atomic.js, on a client that runs scripts.

    Pending jobs and claims are in redis, shared by every worker process; a
    worker adds its own [BaseJobQueue] state (Queue.v), the leases of the jobs
    it runs and its timers.  One operation is one script or command together
    with the code that runs on its reply.  A command may not arrive, and it may
    arrive and its reply be lost ([delivery]); where the code does the same in
    two of these cases a boolean says whether the command arrived.  A worker can
    crash at any point, and keeps nothing.  Job ids are those of [newJobId],
    which the script's pattern matches in full.

    A script that failed is followed by plain commands (HGET, then HDEL or
    HSET).  They are taken to fail with it, or to run with no other worker
    between them; then they do what the script would have done, or, after a
    lost reply, nothing more. *)

From S2P Require Import Prelude JsMap JsValue Queue.

Local Open Scope nat_scope.
Local Open Scope js_scope.

(** ** State *)

(** What happens to a command: it is answered, or it runs and the reply is lost,
    or it does not arrive. *)
Inductive delivery := Answered | ReplyLost | NotSent.

Definition arrived (d : delivery) : bool := match d with NotSent => false | _ => true end.

(* [src/backend/src/infrastructure/queue.js:674-680] claim record *)
Record claim := Claim { c_job : job; c_deadline : Z; c_token : string }.

#[export] Instance claim_eq_dec : EqDecision claim.
Proof. solve_decision. Defined.

(* [src/backend/src/infrastructure/queue.js:656-656] lease *)
Record lease := Lease { l_token : string; l_duration : Z; l_raw : claim }.

(** [leases] runs parallel to [executing base]; [reclaimed] are the jobs a
    reclaim timer will push. *)
(* [src/backend/src/infrastructure/queue.js:492-508] RedisJobQueue *)
Record worker := Worker {
  base : queue;
  visibilityMs : Z;
  draining : bool;
  leases : list lease;
  reclaimed : list job;
}.

#[export] Instance worker_eta : Eta worker := λ w,
  Worker (base w) (visibilityMs w) (draining w) (leases w) (reclaimed w).

(* [src/backend/src/infrastructure/queue.js:493-508] constructor *)
Definition new_worker (concurrency : nat) (handlers : list string) (visibility : Z) : worker :=
  Worker (create concurrency handlers) (Z.max 5000 visibility) false [] [].

(** The last four fields record what happened; they are not part of the
    program: the jobs whose first RPUSH arrived (every job whose enqueue
    answered, and those whose answer was lost), the starts of handlers, the
    jobs settled, and the jobs lost. *)
Record sys := Sys {
  shared_pending : list job;
  processing : jsmap string claim;
  workers : list worker;
  g_accepted : list job;
  g_started : list string;
  g_settled : list string;
  g_lost : list string;
}.

#[export] Instance sys_eta : Eta sys := λ s,
  Sys (shared_pending s) (processing s) (workers s) (g_accepted s) (g_started s) (g_settled s) (g_lost s).

(** ** The scripts *)

(** LPOP, then HSETNX of the claim record; a job whose record exists goes to
    the tail. *)
(* [src/backend/src/infrastructure/queue.js:72-82] CLAIM_LUA *)
Definition CLAIM_LUA (duration started : Z) (token : string) (s : sys) : sys * option claim :=
  match shared_pending s with
  | [] => (s, None)
  | j :: rest =>
      let record := Claim j (started + duration) token in
      if mhas (processing s) (id j) then (s <| shared_pending := rest ++ [j] |>, None)
      else (s <| shared_pending := rest |> <| processing ::= λ m, mset m (id j) record |>, Some record)
  end.

(* [src/backend/src/infrastructure/redis-atomic.js:43-51] compareAndDeleteHash *)
Definition compareAndDeleteHash (field : string) (expected : claim) (s : sys) : sys * bool :=
  if decide (mget (processing s) field = Some expected)
  then (s <| processing ::= λ m, mdelete m field |>, true) else (s, false).

(* [src/backend/src/infrastructure/redis-atomic.js:53-61] compareAndSetHash *)
Definition compareAndSetHash (field : string) (expected next : claim) (s : sys) : sys * bool :=
  if decide (mget (processing s) field = Some expected)
  then (s <| processing ::= λ m, mset m field next |>, true) else (s, false).

(** ** The operations of one worker *)

Definition queue_unavailable : js_error :=
  JsError (Some "queue_unavailable"%string) "redis queue unavailable".

(** It throws when no reply came, although the job may be in the list. *)
(* [src/backend/src/infrastructure/queue.js:528-540] _push *)
Definition _push (j : job) (push : delivery) (s : sys) : sys * option js_error :=
  (if arrived push then s <| shared_pending ::= λ l, l ++ [j] |> else s,
   match push with Answered => None | _ => Some queue_unavailable end).

(* [src/backend/src/infrastructure/queue.js:542-554] enqueue *)
Definition enqueue (o : options) (newId : string) (now : Z) (push : delivery) (s : sys) (w : worker)
    : sys * worker * res norm :=
  match normalizeEnqueue o newId now (base w) with
  | Throw e => (s, w, Throw e)
  | Ok (q, Duplicate i c) => (s, w <| base := q |>, Ok (Duplicate i c))
  | Ok (q, Fresh j) =>
      let (s, failure) := _push j push s in
      let s := if arrived push then s <| g_accepted ::= λ l, l ++ [j] |> else s in
      match failure with
      | None => (s, w <| base := q |>, Ok (Fresh j))
      | Some e => (s, w <| base := releaseKey j q |>, Throw e)
      end
  end.

(* [src/backend/src/infrastructure/queue.js:845-847] _drain, start *)
Definition drainStart (w : worker) : worker :=
  if closed (base w) || draining w then w else w <| draining := true |>.

(** The duration of a claim: the job is not known yet. *)
(* [src/backend/src/infrastructure/queue.js:629-637] _claimNext, duration *)
Definition claim_duration (w : worker) : Z := Z.max (visibilityMs w) (DEFAULT_TIMEOUT_MS + 5000).

(** Starting the handlers of a claimed job. *)
(* [src/backend/src/infrastructure/queue.js:872-875] _drain, start of a job *)
Definition start_job (c : claim) (dur : Z) (w : worker) : worker :=
  w <| base ::= start (c_job c) |>
    <| leases ::= λ l, l ++ [Lease (c_token c) dur c] |>.

(** One round of the loop: the script, and on its reply the rest of the round.
    [reached]: the record of a job without a consumer can be released. *)
(* [src/backend/src/infrastructure/queue.js:849-875] _drain, one round *)
Definition drainClaim (now : Z) (token : string) (claimed : delivery) (reached : bool) (s : sys) (w : worker)
    : sys * worker :=
  if draining w && bool_decide (running (base w) < concurrency (base w)) then
    let dur := claim_duration w in
    let (s, r) := if arrived claimed then CLAIM_LUA dur now token s else (s, None) in
    match claimed, r with
    | ReplyLost, _ | NotSent, _ | Answered, None => (s, w <| draining := false |>)
    | Answered, Some c =>
        let j := c_job c in
        if decide (type j ∈ handlers (base w)) then
          (s <| g_started ::= λ l, l ++ [id j] |>, start_job c dur w)
        else
          let s := if reached : bool then (compareAndDeleteHash (id j) c s).1 else s in
          (s, w <| base ::= λ q, settleWaiter j (FailedWith (no_handler j))
                 (releaseKey j q <| failed ::= S |>) |>)
    end
  else (s, w <| draining := false |>).

(* [src/backend/src/infrastructure/queue.js:696-717] _release *)
Definition _release (j : job) (l : lease) (reached : bool) (s : sys) : sys :=
  if reached then (compareAndDeleteHash (id j) (l_raw l) s).1 else s.

(** When the reply is lost the record is the next one and the lease still has
    the old one. *)
(* [src/backend/src/infrastructure/queue.js:719-745] _renew *)
Definition _renew (i : nat) (now : Z) (sent : delivery) (s : sys) (w : worker) : sys * worker :=
  match executing (base w) !! i, leases w !! i with
  | Some j, Some l =>
      if arrived sent then
        let next := Claim j (now + l_duration l) (l_token l) in
        let (s, ok) := compareAndSetHash (id j) (l_raw l) next s in
        (s, if ok && (match sent with Answered => true | _ => false end) then w <| leases ::= λ ls, <[i := Lease (l_token l) (l_duration l) next]> ls |> else w)
      else (s, w)
  | _, _ => (s, w)
  end.

(* [src/backend/src/infrastructure/queue.js:876-880] success continuation *)
Definition jobDone (i : nat) (now : Z) (reached : bool) (s : sys) (w : worker) : sys * worker :=
  match executing (base w) !! i, leases w !! i with
  | Some j, Some l =>
      (_release j l reached s,
       w <| base ::= handlerDone i now |> <| leases ::= delete i |>)
  | _, _ => (s, w)
  end.

(* [src/backend/src/infrastructure/queue.js:881-884] failure continuation *)
Definition jobFailed (i : nat) (e : js_error) (reached : bool) (s : sys) (w : worker) : sys * worker :=
  match executing (base w) !! i, leases w !! i with
  | Some j, Some l =>
      (_release j l reached s,
       w <| base ::= handlerFailed i e |> <| leases ::= delete i |>)
  | _, _ => (s, w)
  end.

(** [finally] only frees the slot: the next poll drains. *)
(* [src/backend/src/infrastructure/queue.js:903-903] finally *)
Definition jobFinally (w : worker) : worker :=
  w <| base ::= λ q, q <| finalizing ::= pred |> <| running ::= pred |> |>.

(** The tail of a retry or reclaim timer whose push failed. *)
(* [src/backend/src/infrastructure/queue.js:885-900] retry timer *)
Definition timer_fails (j : job) (e : js_error) (q : queue) : queue :=
  settleWaiter j (FailedWith e) (releaseKey j (q <| failed ::= S |>)).

(* [src/backend/src/infrastructure/queue.js:885-900] retry timer *)
Definition retryTimer (i : nat) (push : delivery) (s : sys) (w : worker) : sys * worker :=
  match backoff (base w) !! i with
  | Some (j, e) =>
      let w := w <| base ::= λ q, q <| backoff ::= delete i |> |> in
      if closed (base w) then (s, w <| base ::= timer_fails j e |>)
      else
        let (s, failure) := _push j push s in
        (s, match failure with None => w | Some e => w <| base ::= timer_fails j e |> end)
  | None => (s, w)
  end.

Definition queue_closed : js_error :=
  JsError (Some "queue_closed"%string) "queue closed before reclaimed job was requeued".
Definition worker_lost (j : job) : js_error :=
  JsError (Some "worker_lost"%string) ("job " ++ id j ++ " lost its worker and is not retryable")%string.

(** One stale record of the scan: [r] was read from the hash with an expired
    deadline, the script deletes it if it is still there.  When its reply is
    lost, [evalRedis] asks again and the record is gone: the item is skipped,
    and no one has the job any more.  [closed] was tested before the scan and is
    tested again here. *)
(* [src/backend/src/infrastructure/queue.js:780-841] _reclaim, one item *)
Definition reclaim (field : string) (r : claim) (now : Z) (sent : delivery) (s : sys) (w : worker) : sys * worker :=
  if bool_decide (now < c_deadline r)%Z then (s, w)
  else
    let (s, ok) := if arrived sent then compareAndDeleteHash field r s else (s, false) in
    if negb ok then (s, w)
    else match sent with
    | NotSent | ReplyLost => (s <| g_lost ::= λ l, l ++ [id (c_job r)] |>, w)
    | Answered =>
      let j := (c_job r) <| attempts ::= S |> in
      if retryable j && bool_decide (attempts j < max_attempts j) && negb (closed (base w)) then
        (s, w <| base ::= λ q, q <| retried ::= S |> |> <| reclaimed ::= λ l, l ++ [j] |>)
      else
        (s, w <| base ::= λ q, settleWaiter j (FailedWith (worker_lost j))
               (releaseKey j (q <| failed ::= S |> <| deadLetter ::= S |>)) |>)
    end.

(* [src/backend/src/infrastructure/queue.js:821-831] reclaim timer *)
Definition reclaimTimer (i : nat) (push : delivery) (s : sys) (w : worker) : sys * worker :=
  match reclaimed w !! i with
  | Some j =>
      let w := w <| reclaimed ::= delete i |> in
      if closed (base w) then (s, w <| base ::= timer_fails j queue_closed |>)
      else
        let (s, failure) := _push j push s in
        (s, match failure with None => w | Some e => w <| base ::= timer_fails j e |> end)
  | None => (s, w)
  end.

(** Pending and claimed jobs stay in redis. *)
(* [src/backend/src/infrastructure/queue.js:912-936] close *)
Definition close (rejectWaiters : bool) (w : worker) : worker :=
  w <| base ::= λ q,
    let q := q <| closed := true |> in
    let q := if rejectWaiters then q <| waiters := [] |> <| claimWaiters := [] |> else q in
    q <| inflightKeys := [] |> |>.

(** ** Interleavings of the workers *)

Inductive event :=
| EEnqueue (o : options) (newId : string) (now : Z) (push : delivery)
| EDrainStart
| EDrainClaim (now : Z) (token : string) (claimed : delivery) (reached : bool)
| ERenew (i : nat) (now : Z) (sent : delivery)
| EDone (i : nat) (now : Z) (reached : bool)
| EFailed (i : nat) (e : js_error) (reached : bool)
| EFinally
| ERetry (i : nat) (push : delivery)
| EReclaim (field : string) (r : claim) (now : Z) (sent : delivery)
| EReclaimTimer (i : nat) (push : delivery)
| EClose (rejectWaiters : bool).

Definition apply_event (e : event) (s : sys) (w : worker) : sys * worker :=
  match e with
  | EEnqueue o i now push => (enqueue o i now push s w).1
  | EDrainStart => (s, drainStart w)
  | EDrainClaim now t claimed reached => drainClaim now t claimed reached s w
  | ERenew i now sent => _renew i now sent s w
  | EDone i now reached => jobDone i now reached s w
  | EFailed i e reached => jobFailed i e reached s w
  | EFinally => (s, jobFinally w)
  | ERetry i push => retryTimer i push s w
  | EReclaim f r now sent => reclaim f r now sent s w
  | EReclaimTimer i push => reclaimTimer i push s w
  | EClose r => (s, close r w)
  end.

(** The jobs only this process knows about. *)
Definition in_timers (w : worker) : list job := (backoff (base w)).*1 ++ reclaimed w.

Definition new_settled (w w' : worker) : list string :=
  (drop (length (settled (base w))) (settled (base w'))).*1.

(** A worker acts, a worker joins, a worker dies with its process. *)
Inductive step : sys → unit → sys → Prop :=
| step_worker s n w e s' w' :
    workers s !! n = Some w →
    match e with
    | EEnqueue _ i _ _ => i ∉ id <$> g_accepted s
    | EDrainClaim _ t _ _ => (∀ w l, w ∈ workers s → l ∈ leases w → l_token l ≠ t) ∧
                             (∀ k c, mget (processing s) k = Some c → c_token c ≠ t)
    | _ => True
    end →
    apply_event e s w = (s', w') →
    step s tt (s' <| workers ::= λ ws, <[n := w']> ws |>
                  <| g_settled ::= λ l, l ++ new_settled w w' |>)
| step_join s c hs v :
    step s tt (s <| workers ::= λ ws, ws ++ [new_worker c hs v] |>)
| step_crash s n w :
    workers s !! n = Some w →
    step s tt (s <| workers ::= delete n |> <| g_lost ::= λ l, l ++ (id <$> in_timers w) |>).

Definition start_state : sys := Sys [] [] [] [] [] [] [].

Definition reachable (s : sys) : Prop := ∃ ls, trace step start_state ls s.

(** ** The contract: a ledger of jobs

    What the workers promise together, whoever does what: a job waits, is
    claimed under its id, runs under a lease, sleeps in a timer, and ends
    settled or lost.  A lost reply leaves its mark: a claim may be renewed
    without its lease knowing ([ld_renew]), a job may wait although it was
    settled as failed ([ld_requeue_unknown]), and a claim may be deleted with
    nobody left to run its job ([ld_vanish]).  Several workers' jobs are one
    unordered collection. *)

Record ledger := Ledger {
  waiting : list job;
  claims : jsmap string claim;
  active : list (job * lease);
  sleeping : list job;
  ld_accepted : list job;
  ld_started : list string;
  ld_settled : list string;
  ld_lost : list string;
}.

#[export] Instance ledger_eta : Eta ledger := λ d,
  Ledger (waiting d) (claims d) (active d) (sleeping d) (ld_accepted d) (ld_started d) (ld_settled d) (ld_lost d).

#[export] Instance ledger_equiv : Equiv ledger := λ d d',
  waiting d = waiting d' ∧ claims d = claims d' ∧ active d ≡ₚ active d' ∧ sleeping d ≡ₚ sleeping d' ∧
  ld_accepted d = ld_accepted d' ∧ ld_started d = ld_started d' ∧
  ld_settled d = ld_settled d' ∧ ld_lost d = ld_lost d'.

#[export] Instance ledger_equivalence : Equivalence (≡@{ledger}).
Proof.
  split.
  - by intros d; repeat split.
  - intros d d' (?&?&?&?&?&?&?&?). repeat split; by symmetry.
  - intros d1 d2 d3 (?&?&?&?&?&?&?&?) (?&?&?&?&?&?&?&?). repeat split; by etrans.
Qed.

(** The claim of [j] that lease [l] holds, gone from [m]; any other claim stays. *)
Definition released (j : job) (l : lease) (m : jsmap string claim) : jsmap string claim :=
  if decide (mget m (id j) = Some (l_raw l)) then mdelete m (id j) else m.

Definition fresh_token (t : string) (d : ledger) : Prop :=
  (∀ p, p ∈ active d → l_token p.2 ≠ t) ∧ (∀ k c, mget (claims d) k = Some c → c_token c ≠ t).

Inductive ledger_step (d : ledger) : ledger → Prop :=
| ld_idle : ledger_step d d
| ld_accept j :
    id j ∉ id <$> ld_accepted d →
    ledger_step d (d <| waiting ::= λ l, l ++ [j] |> <| ld_accepted ::= λ l, l ++ [j] |>)
| ld_rotate j ws :
    waiting d = j :: ws → is_Some (mget (claims d) (id j)) →
    ledger_step d (d <| waiting := ws ++ [j] |>)
| ld_claim j ws c (reply : bool) dur :
    waiting d = j :: ws → mget (claims d) (id j) = None → c_job c = j → fresh_token (c_token c) d →
    ledger_step d (d <| waiting := ws |> <| claims ::= λ m, mset m (id j) c |>
      <| active ::= λ l, if reply then l ++ [(j, Lease (c_token c) dur c)] else l |>
      <| ld_started ::= λ l, if reply then l ++ [id j] else l |>)
| ld_refuse j ws c m :
    waiting d = j :: ws → mget (claims d) (id j) = None → c_job c = j → fresh_token (c_token c) d →
    m = claims d ∨ m = mset (claims d) (id j) c →
    ledger_step d (d <| waiting := ws |> <| claims := m |> <| ld_settled ::= λ l, l ++ [id j] |>)
| ld_renew j l xs next (told : bool) :
    active d ≡ₚ (j, l) :: xs → mget (claims d) (id j) = Some (l_raw l) →
    c_job next = j → c_token next = l_token l →
    ledger_step d (d <| claims ::= λ m, mset m (id j) next |>
      <| active := (j, if told then Lease (l_token l) (l_duration l) next else l) :: xs |>)
| ld_finish j l xs m :
    active d ≡ₚ (j, l) :: xs → m = claims d ∨ m = released j l (claims d) →
    ledger_step d (d <| claims := m |> <| active := xs |> <| ld_settled ::= λ l, l ++ [id j] |>)
| ld_retry j l xs m :
    active d ≡ₚ (j, l) :: xs → m = claims d ∨ m = released j l (claims d) →
    retryable j = true → S (attempts j) < max_attempts j →
    ledger_step d (d <| claims := m |> <| active := xs |>
      <| sleeping ::= cons (j <| attempts ::= S |>) |>)
| ld_requeue j ts :
    sleeping d ≡ₚ j :: ts →
    ledger_step d (d <| sleeping := ts |> <| waiting ::= λ l, l ++ [j] |>)
| ld_requeue_unknown j ts :
    sleeping d ≡ₚ j :: ts →
    ledger_step d (d <| sleeping := ts |> <| waiting ::= λ l, l ++ [j] |> <| ld_settled ::= λ l, l ++ [id j] |>)
| ld_give_up j ts :
    sleeping d ≡ₚ j :: ts →
    ledger_step d (d <| sleeping := ts |> <| ld_settled ::= λ l, l ++ [id j] |>)
| ld_reclaim k c :
    mget (claims d) k = Some c → retryable (c_job c) = true → S (attempts (c_job c)) < max_attempts (c_job c) →
    ledger_step d (d <| claims ::= λ m, mdelete m k |> <| sleeping ::= cons ((c_job c) <| attempts ::= S |>) |>)
| ld_abandon k c :
    mget (claims d) k = Some c →
    ledger_step d (d <| claims ::= λ m, mdelete m k |> <| ld_settled ::= λ l, l ++ [id (c_job c)] |>)
| ld_vanish k c :
    mget (claims d) k = Some c →
    ledger_step d (d <| claims ::= λ m, mdelete m k |> <| ld_lost ::= λ l, l ++ [id (c_job c)] |>)
| ld_crash dead xs gone ts :
    active d ≡ₚ dead ++ xs → sleeping d ≡ₚ gone ++ ts →
    ledger_step d (d <| active := xs |> <| sleeping := ts |> <| ld_lost ::= λ l, l ++ (id <$> gone) |>).

(** ** The ledger's invariant *)

(** The jobs of the ledger that may still run. *)
Definition known (d : ledger) : list job :=
  waiting d ++ (c_job <$> mvalues (claims d)) ++ (active d).*1 ++ sleeping d.

Record ledger_inv (d : ledger) : Prop := {
  li_wf : mwf (claims d);
  li_key : mall (λ k c, k = id (c_job c)) (claims d);
  li_ids : NoDup (id <$> ld_accepted d);
  li_known : ∀ j, j ∈ known d → ∃ a, a ∈ ld_accepted d ∧ id a = id j ∧ retryable a = retryable j;
  li_sleep : ∀ j, j ∈ sleeping d → retryable j = true;
  li_started : ∀ i, i ∈ ld_started d → i ∈ id <$> ld_accepted d;
  li_once : ∀ a, a ∈ ld_accepted d → retryable a = false →
    starts (id a) (id <$> waiting d) + starts (id a) (ld_started d) ≤ 1;
  li_account : ∀ i, i ∈ id <$> ld_accepted d →
    i ∈ id <$> waiting d ∨ i ∈ mkeys (claims d) ∨ i ∈ id <$> sleeping d ∨
    i ∈ ld_settled d ∨ i ∈ ld_lost d;
  li_leases : NoDup (l_token <$> (active d).*2);
  li_raw : ∀ p, p ∈ active d → c_token (l_raw p.2) = l_token p.2;
}.

#[export] Instance ledger_inv_proper : Proper ((≡) ==> impl) ledger_inv.
Proof.
  intros d d' (E1&E2&E3&E4&E5&E6&E7&E8) [H1 H2 H3 H4 H5 H6 H7 H8 H9 H10].
  split; rewrite <- ?E1, <- ?E2, <- ?E5, <- ?E6, <- ?E7, <- ?E8; try done.
  - intros j. unfold known. rewrite <- E1, <- E2, <- E3, <- E4. apply H4.
  - intros j. rewrite <- E4. apply H5.
  - intros i. rewrite <- E4. apply H8.
  - by rewrite <- E3.
  - intros p. rewrite <- E3. apply H10.
Qed.

Lemma starts_app i l l' : starts i (l ++ l') = starts i l + starts i l'.
Proof. unfold starts. by rewrite filter_app, length_app. Qed.

Lemma starts_none i l : i ∉ l → starts i l = 0.
Proof.
  intros Hi. unfold starts. apply length_zero_iff_nil.
  destruct (filter _ l) as [|x l'] eqn:E; [done|].
  assert (x ∈ filter (λ x, x = i) l) as Hx by (rewrite E; by left).
  apply list_elem_of_filter in Hx as [-> ?]. done.
Qed.

Lemma starts_pos i l n : l !! n = Some i → 0 < starts i l.
Proof.
  intros Hn%list_elem_of_lookup_2. unfold starts.
  assert (i ∈ filter (λ x, x = i) l) as H by (by apply list_elem_of_filter).
  destruct (filter _ l); [by apply not_elem_of_nil in H|simpl; lia].
Qed.

Lemma starts_cons i j l : starts i (j :: l) = starts i [j] + starts i l.
Proof. apply (starts_app i [j] l). Qed.

Lemma mvalues_set_in {V} (m : jsmap string V) k v x :
  x ∈ mvalues (mset m k v) → x = v ∨ x ∈ mvalues m.
Proof.
  unfold mvalues. intros Hx. rewrite mset_perm in Hx. csimpl in Hx.
  apply elem_of_cons in Hx as [->|Hx]; [by left|right].
  destruct (mget m k) eqn:E; [|by rewrite mdelete_absent in Hx].
  rewrite (mdelete_perm m k _ E). csimpl. by right.
Qed.

Lemma mvalues_delete_in {V} (m : jsmap string V) k x :
  x ∈ mvalues (mdelete m k) → x ∈ mvalues m.
Proof.
  unfold mvalues. intros Hx. destruct (mget m k) eqn:E; [|by rewrite mdelete_absent in Hx].
  rewrite (mdelete_perm m k _ E). csimpl. by right.
Qed.

Lemma mvalues_get {V} (m : jsmap string V) k v : mget m k = Some v → v ∈ mvalues m.
Proof. intros E. apply list_elem_of_fmap. exists (k, v). split; [done|by apply mget_elem]. Qed.

(** Claims that left the hash, seen from the invariant. *)
Record shrunk (i : string) (m m' : jsmap string claim) : Prop := {
  sh_wf : mwf m → mwf m';
  sh_get : mwf m → ∀ k c, mget m' k = Some c → mget m k = Some c;
  sh_vals : ∀ c, c ∈ mvalues m' → c ∈ mvalues m;
  sh_keys : mwf m → ∀ k, k ∈ mkeys m → k = i ∨ k ∈ mkeys m';
}.

Lemma shrunk_refl i m : shrunk i m m.
Proof. split; naive_solver. Qed.

Lemma shrunk_delete i m : shrunk i m (mdelete m i).
Proof.
  split.
  - apply mwf_delete.
  - intros Hm k c. rewrite mget_delete by done. by case_decide.
  - intros c. apply mvalues_delete_in.
  - intros Hm k. rewrite mkeys_delete, list_elem_of_filter by done. destruct (decide (k = i)); auto.
Qed.

Lemma shrunk_released j l m : shrunk (id j) m (released j l m).
Proof. unfold released. case_decide; [apply shrunk_delete|apply shrunk_refl]. Qed.

Lemma shrunk_cases j l m m' : m' = m ∨ m' = released j l m → shrunk (id j) m m'.
Proof. intros [->| ->]; [apply shrunk_refl|apply shrunk_released]. Qed.

Lemma known_sub d d' :
  ledger_inv d →
  (∀ j, j ∈ known d' → ∃ j0, j0 ∈ known d ∧ id j0 = id j ∧ retryable j0 = retryable j) →
  ∀ j, j ∈ known d' → ∃ a, a ∈ ld_accepted d ∧ id a = id j ∧ retryable a = retryable j.
Proof.
  intros Hd Hk j Hj. destruct (Hk j Hj) as (j0 & Hj0 & Ei & Er).
  destruct (li_known _ Hd j0 Hj0) as (a & ? & ? & ?). exists a. split_and!; [done|congruence..].
Qed.

Lemma elem_known j d :
  j ∈ known d ↔ j ∈ waiting d ∨ (∃ c, c ∈ mvalues (claims d) ∧ j = c_job c) ∨
                (∃ l, (j, l) ∈ active d) ∨ j ∈ sleeping d.
Proof.
  unfold known. rewrite !elem_of_app, !list_elem_of_fmap. split.
  - intros [?|[(?&?&?)|[([? l]&?&?)|?]]]; simpl in *; subst; eauto 6.
  - intros [?|[(?&?&?)|[[l ?]|?]]]; eauto 6. right; right; left. by exists (j, l).
Qed.

(** A retryable job has an accepted job that is retryable. *)
Lemma known_retryable d j a :
  ledger_inv d → j ∈ known d → a ∈ ld_accepted d → id a = id j → retryable a = retryable j.
Proof.
  intros Hd Hj Ha E. destruct (li_known _ Hd j Hj) as (b & Hb & Eb & Er). rewrite <- Er. f_equal.
  pose proof (li_ids _ Hd) as Hn.
  apply list_elem_of_lookup in Ha as [n Hn1]. apply list_elem_of_lookup in Hb as [m Hm1].
  assert (n = m) as ->; [|congruence].
  eapply NoDup_lookup; [exact Hn|rewrite list_lookup_fmap, Hn1; done|].
  rewrite list_lookup_fmap, Hm1. simpl. congruence.
Qed.

Lemma known_id d j : ledger_inv d → j ∈ known d → id j ∈ id <$> ld_accepted d.
Proof.
  intros Hd Hj. destruct (li_known _ Hd j Hj) as (a & Ha & <- & _). by apply list_elem_of_fmap_2.
Qed.

(** The lists of a head element. *)
Lemma rq_inv_accept d j :
  ledger_inv d → id j ∉ id <$> ld_accepted d →
  ledger_inv (d <| waiting ::= λ l, l ++ [j] |> <| ld_accepted ::= λ l, l ++ [j] |>).
Proof.
  intros Hd Hj. assert (∀ y, y ∈ known d → id y ≠ id j) as Hne.
  { intros y Hy E. apply Hj. rewrite <- E. by apply known_id. }
  pose proof Hd as [H1 H2 H3 H4 H5 H6 H7 H8 H9 H10]. split; csimpl; try done.
  - rewrite fmap_app. apply NoDup_app. split; [done|split; [|apply NoDup_singleton]]. set_solver.
  - intros y Hy. rewrite elem_known in Hy. csimpl in Hy. rewrite elem_of_app, list_elem_of_singleton in Hy.
    assert (y ∈ known d ∨ y = j) as [Hy'| ->] by (rewrite elem_known; tauto).
    + destruct (H4 y Hy') as (a & ? & ?). exists a. rewrite elem_of_app. eauto.
    + exists j. rewrite elem_of_app, list_elem_of_singleton. auto.
  - intros i Hi. rewrite fmap_app, elem_of_app. auto.
  - intros a Ha Hr. rewrite fmap_app, starts_app. csimpl. apply elem_of_app in Ha as [Ha|Ha].
    + rewrite (starts_none (id a) [id j]), Nat.add_0_r by
        (rewrite list_elem_of_singleton; intros E; apply Hj; rewrite <- E; by apply list_elem_of_fmap_2). auto.
    + apply list_elem_of_singleton in Ha as ->. rewrite (starts_none (id j) (id <$> waiting d)), (starts_none (id j) (ld_started d)).
      * unfold starts. rewrite filter_cons. case_decide; simpl; rewrite ?filter_nil; simpl; lia.
      * intros ?%H6. done.
      * intros (y & E & Hy)%list_elem_of_fmap. apply (Hne y); [rewrite elem_known; auto|done].
  - intros i. rewrite !fmap_app, !elem_of_app. intros [Hi|Hi]; [|tauto]. destruct (H8 i Hi); tauto.
Qed.

(** What becomes of a job whose claim is deleted. *)
Inductive fate := Again | Told | Gone.

Section Preservation.
Context (d : ledger) (Hd : ledger_inv d).

(** The head of the list is claimed. *)
Lemma inv_claim j ws c (reply : bool) dur :
  waiting d = j :: ws → mget (claims d) (id j) = None → c_job c = j → fresh_token (c_token c) d →
  ledger_inv (d <| waiting := ws |> <| claims ::= λ m, mset m (id j) c |>
    <| active ::= λ l, if reply then l ++ [(j, Lease (c_token c) dur c)] else l |>
    <| ld_started ::= λ l, if reply then l ++ [id j] else l |>).
Proof using Hd.
  intros Ew Em Ec [Hf1 Hf2]. pose proof Hd as [H1 H2 H3 H4 H5 H6 H7 H8 H9 H10].
  assert (j ∈ known d) as Hj by (rewrite elem_known, Ew; left; by left).
  split; csimpl; try done.
  - by apply mwf_set.
  - intros k v. rewrite mget_set. case_decide; [intros [= <-]; congruence|apply H2].
  - apply (known_sub d); [done|]. intros y. rewrite elem_known. csimpl.
    intros [Hy|[(c' & Hy & ->)|[[l Hy]|Hy]]].
    + exists y. split; [|done]. rewrite elem_known, Ew. left. by right.
    + apply mvalues_set_in in Hy as [->|Hy]; [exists j; by rewrite Ec|].
      exists (c_job c'). split; [|done]. rewrite elem_known. eauto 6.
    + exists y. split; [|done]. destruct reply; [|rewrite elem_known; eauto 6].
      apply elem_of_app in Hy as [Hy|[= -> _]%list_elem_of_singleton]; [|done]. rewrite elem_known. eauto 6.
    + exists y. split; [|done]. rewrite elem_known. auto.
  - intros i. destruct reply; [|auto]. intros [Hi|Hi%list_elem_of_singleton]%elem_of_app; [auto|subst].
    by apply known_id.
  - intros a Ha Hr. specialize (H7 a Ha Hr). rewrite Ew in H7. csimpl in H7. rewrite starts_cons in H7.
    destruct reply; [rewrite starts_app|]; lia.
  - intros i Hi. rewrite elem_mkeys_set. destruct (H8 i Hi) as [Hw|?]; [|tauto].
    rewrite Ew in Hw. csimpl in Hw. apply elem_of_cons in Hw. tauto.
  - destruct reply; [|done]. rewrite !fmap_app. apply NoDup_app. split; [done|split; [|apply NoDup_singleton]].
    intros t Ht ->%list_elem_of_singleton. rewrite <- list_fmap_compose in Ht.
    apply list_elem_of_fmap in Ht as (p & E & Hp). by apply (Hf1 p).
  - intros p. destruct reply; [|auto]. intros [Hp|Hp%list_elem_of_singleton]%elem_of_app; [auto|by subst].
Qed.

(** A job of the list without a consumer. *)
Lemma inv_refuse j ws c m :
  waiting d = j :: ws → mget (claims d) (id j) = None → c_job c = j → fresh_token (c_token c) d →
  m = claims d ∨ m = mset (claims d) (id j) c →
  ledger_inv (d <| waiting := ws |> <| claims := m |> <| ld_settled ::= λ l, l ++ [id j] |>).
Proof using Hd.
  intros Ew Em Ec Hf Hm. assert (shrunk (id j) (mset (claims d) (id j) c) m) as [S1 S2 S3 S4].
  { destruct Hm as [->| ->]; [|apply shrunk_refl]. split.
    - intros _. apply (li_wf _ Hd).
    - intros _ k v E. rewrite mget_set. case_decide; [subst; congruence|done].
    - intros v Hv. unfold mvalues in *. rewrite mset_perm, mdelete_absent by done. csimpl. by right.
    - intros _ k. by rewrite elem_mkeys_set. }
  destruct (inv_claim j ws c false 0%Z Ew Em Ec Hf) as [H1 H2 H3 H4 H5 H6 H7 H8 H9 H10].
  csimpl in *. split; csimpl; try done; eauto.
  - intros k v E. apply H2. eauto.
  - intros y Hy. apply H4. rewrite elem_known in *. csimpl in *. naive_solver.
  - intros i Hi. rewrite elem_of_app, list_elem_of_singleton.
    destruct (H8 i Hi) as [?|[Hk|?]]; [tauto| |tauto]. destruct (S4 H1 i Hk); tauto.
Qed.

(** A lease ends: its claim may be released, its job is settled or sleeps. *)
Lemma inv_end j l xs m (again : bool) :
  active d ≡ₚ (j, l) :: xs → m = claims d ∨ m = released j l (claims d) →
  (again = true → retryable j = true) →
  ledger_inv (d <| claims := m |> <| active := xs |>
    <| sleeping ::= λ ts, if again then (j <| attempts ::= S |>) :: ts else ts |>
    <| ld_settled ::= λ l, if again then l else l ++ [id j] |>).
Proof using Hd.
  intros Ea [S1 S2 S3 S4]%shrunk_cases Hr. pose proof Hd as [H1 H2 H3 H4 H5 H6 H7 H8 H9 H10].
  split; csimpl; try done; eauto.
  - intros k v E. apply H2. eauto.
  - apply (known_sub d); [done|]. intros y. rewrite elem_known. csimpl.
    intros [Hy|[(c' & Hy & ->)|[[l' Hy]|Hy]]].
    + exists y. split; [|done]. rewrite elem_known. auto.
    + exists (c_job c'). split; [|done]. rewrite elem_known. eauto 6.
    + exists y. split; [|done]. rewrite elem_known. right; right; left. exists l'. rewrite Ea. by right.
    + destruct again; [apply elem_of_cons in Hy as [->|Hy]|].
      * exists j. split; [|done]. rewrite elem_known. right; right; left. exists l. rewrite Ea. by left.
      * exists y. split; [|done]. rewrite elem_known. auto.
      * exists y. split; [|done]. rewrite elem_known. auto.
  - intros y. destruct again; [|auto]. intros [->|Hy]%elem_of_cons; [by apply Hr|auto].
  - intros i Hi. destruct (H8 i Hi) as [?|[Hk|[?|?]]].
    + auto.
    + destruct (S4 H1 i Hk) as [->|?]; [|auto]. destruct again; csimpl.
      * right; right; left. by left.
      * right; right; right; left. rewrite elem_of_app. right. by left.
    + right; right; left. destruct again; csimpl; [by right|done].
    + right; right; right. destruct again; [done|]. rewrite elem_of_app. tauto.
  - rewrite Ea in H9. csimpl in H9. by apply NoDup_cons in H9 as [_ ?].
  - intros p Hp. apply H10. rewrite Ea. by right.
Qed.

(** A stale claim is deleted: its job is settled or lost, or it sleeps. *)
Lemma inv_expire k c (end_ : fate) :
  mget (claims d) k = Some c → (end_ = Again → retryable (c_job c) = true) →
  ledger_inv (d <| claims ::= λ m, mdelete m k |>
    <| sleeping ::= λ ts, match end_ with Again => ((c_job c) <| attempts ::= S |>) :: ts | _ => ts end |>
    <| ld_settled ::= λ l, match end_ with Told => l ++ [id (c_job c)] | _ => l end |>
    <| ld_lost ::= λ l, match end_ with Gone => l ++ [id (c_job c)] | _ => l end |>).
Proof using Hd.
  intros Ek Hr. pose proof Hd as [H1 H2 H3 H4 H5 H6 H7 H8 H9 H10].
  destruct (shrunk_delete k (claims d)) as [S1 S2 S3 S4]. pose proof (H2 _ _ Ek) as Hk. simpl in Hk.
  split; csimpl; try done; eauto.
  - intros k' v E. apply H2. eauto.
  - apply (known_sub d); [done|]. intros y. rewrite elem_known. csimpl.
    intros [Hy|[(c' & Hy & ->)|[[l' Hy]|Hy]]].
    + exists y. split; [|done]. rewrite elem_known. auto.
    + exists (c_job c'). split; [|done]. rewrite elem_known. eauto 6.
    + exists y. split; [|done]. rewrite elem_known. eauto 6.
    + assert (y ∈ sleeping d ∨ y = (c_job c) <| attempts ::= S |>) as [Hy'| ->]
        by (destruct end_; [apply elem_of_cons in Hy|..]; tauto).
      * exists y. split; [|done]. rewrite elem_known. auto.
      * exists (c_job c). split; [|done]. rewrite elem_known. right; left. exists c.
        split; [by eapply mvalues_get|done].
  - intros y. destruct end_; [|auto..]. intros [->|Hy]%elem_of_cons; [by apply Hr|auto].
  - intros i Hi. destruct (H8 i Hi) as [?|[Hi'|[?|[?|?]]]].
    + auto.
    + destruct (S4 H1 i Hi') as [->|?]; [|auto]. rewrite Hk. destruct end_; csimpl.
      * right; right; left. by left.
      * right; right; right; left. rewrite elem_of_app. right. by left.
      * right; right; right; right. rewrite elem_of_app. right. by left.
    + right; right; left. destruct end_; csimpl; [by right|assumption..].
    + right; right; right; left. destruct end_; [assumption| |assumption]. rewrite elem_of_app. by left.
    + right; right; right; right. destruct end_; [assumption..|]. rewrite elem_of_app. by left.
Qed.

Lemma inv_rotate j ws :
  waiting d = j :: ws → ledger_inv (d <| waiting := ws ++ [j] |>).
Proof using Hd.
  intros Ew. pose proof Hd as [H1 H2 H3 H4 H5 H6 H7 H8 H9 H10].
  assert (∀ y, y ∈ ws ++ [j] → y ∈ waiting d) as Hin by (intros y; rewrite Ew; set_solver).
  split; csimpl; try done.
  - apply (known_sub d); [done|]. intros y Hy. exists y. split; [|done].
    rewrite elem_known in *. csimpl in *. destruct Hy as [?|?]; auto.
  - intros a Ha Hr. specialize (H7 a Ha Hr). rewrite Ew in H7. csimpl in H7.
    rewrite starts_cons in H7. rewrite fmap_app, starts_app. csimpl. lia.
  - intros i Hi. destruct (H8 i Hi) as [Hw|?]; [left|tauto].
    rewrite Ew in Hw. rewrite fmap_app. csimpl in *. set_solver.
Qed.

Lemma inv_renew j l xs next (told : bool) :
  active d ≡ₚ (j, l) :: xs → mget (claims d) (id j) = Some (l_raw l) →
  c_job next = j → c_token next = l_token l →
  ledger_inv (d <| claims ::= λ m, mset m (id j) next |>
    <| active := (j, if told then Lease (l_token l) (l_duration l) next else l) :: xs |>).
Proof using Hd.
  intros Ea Em Ej Et. pose proof Hd as [H1 H2 H3 H4 H5 H6 H7 H8 H9 H10].
  split; csimpl; try done.
  - by apply mwf_set.
  - intros k v. rewrite mget_set. case_decide; [intros [= <-]; congruence|apply H2].
  - apply (known_sub d); [done|]. intros y. rewrite elem_known. csimpl.
    assert (j ∈ known d) as Hj by (rewrite elem_known; right; right; left; exists l; rewrite Ea; by left).
    intros [Hy|[(c' & Hy & ->)|[[l' Hy]|Hy]]].
    + exists y. split; [|done]. rewrite elem_known. auto.
    + apply mvalues_set_in in Hy as [->|Hy]; [exists j; by rewrite Ej|].
      exists (c_job c'). split; [|done]. rewrite elem_known. eauto 6.
    + apply elem_of_cons in Hy as [[= -> _]|Hy]; [by exists j|].
      exists y. split; [|done]. rewrite elem_known. right; right; left. exists l'. rewrite Ea. by right.
    + exists y. split; [|done]. rewrite elem_known. auto.
  - intros i Hi. rewrite elem_mkeys_set. destruct (H8 i Hi) as [?|[?|?]]; tauto.
  - rewrite Ea in H9. by destruct told.
  - intros p [->|Hp]%elem_of_cons; [|apply H10; rewrite Ea; by right].
    destruct told; [done|]. apply (H10 (j, l)). rewrite Ea. by left.
Qed.

(** A timer fires: the job waits again, or is settled, or both. *)
Lemma inv_wake j ts (again told : bool) :
  sleeping d ≡ₚ j :: ts → again || told = true →
  ledger_inv (d <| sleeping := ts |> <| waiting ::= λ l, if again then l ++ [j] else l |>
    <| ld_settled ::= λ l, if told then l ++ [id j] else l |>).
Proof using Hd.
  intros Es Hsome. pose proof Hd as [H1 H2 H3 H4 H5 H6 H7 H8 H9 H10].
  assert (j ∈ sleeping d) as Hj by (rewrite Es; by left).
  assert (j ∈ known d) as Hk by (rewrite elem_known; auto).
  split; csimpl; try done.
  - apply (known_sub d); [done|]. intros y. rewrite elem_known. csimpl. intros Hy.
    exists y. split; [|done]. rewrite elem_known. destruct Hy as [Hy|[?|[?|Hy]]]; auto.
    + destruct again; [|auto]. apply elem_of_app in Hy as [?|Hy%list_elem_of_singleton]; subst; auto.
    + right; right; right. rewrite Es. by right.
  - intros y Hy. apply H5. rewrite Es. by right.
  - intros a Ha Hr. specialize (H7 a Ha Hr). destruct again; [|done]. rewrite fmap_app, starts_app. csimpl.
    rewrite (starts_none (id a) [id j]), Nat.add_0_r; [done|].
    rewrite list_elem_of_singleton. intros E. pose proof (known_retryable d j a Hd Hk Ha E) as Er.
    rewrite (H5 j Hj) in Er. congruence.
  - intros i Hi. specialize (H8 i Hi). rewrite Es in H8. csimpl in H8.
    destruct H8 as [?|[?|[[->|?]%elem_of_cons|[?|?]]]].
    + left. destruct again; [rewrite fmap_app, elem_of_app|]; auto.
    + tauto.
    + destruct again.
      * left. rewrite fmap_app, elem_of_app. right. by left.
      * simpl in Hsome. subst told. right; right; right; left. rewrite elem_of_app. right. by left.
    + tauto.
    + right; right; right; left. destruct told; [rewrite elem_of_app|]; tauto.
    + tauto.
Qed.

Lemma inv_crash dead xs gone ts :
  active d ≡ₚ dead ++ xs → sleeping d ≡ₚ gone ++ ts →
  ledger_inv (d <| active := xs |> <| sleeping := ts |> <| ld_lost ::= λ l, l ++ (id <$> gone) |>).
Proof using Hd.
  intros Ea Es. pose proof Hd as [H1 H2 H3 H4 H5 H6 H7 H8 H9 H10].
  split; csimpl; try done.
  - apply (known_sub d); [done|]. intros y Hy. exists y. split; [|done].
    rewrite elem_known in *. csimpl in *. destruct Hy as [?|[?|[[l Hy]|?]]]; auto.
    + right; right; left. exists l. rewrite Ea, elem_of_app. auto.
    + right; right; right. rewrite Es, elem_of_app. auto.
  - intros y Hy. apply H5. rewrite Es, elem_of_app. auto.
  - intros i Hi. specialize (H8 i Hi). rewrite Es, fmap_app in H8.
    rewrite elem_of_app in H8. rewrite elem_of_app. tauto.
  - rewrite Ea, !fmap_app in H9. by apply NoDup_app in H9 as (_ & _ & ?).
  - intros p Hp. apply H10. rewrite Ea, elem_of_app. auto.
Qed.
End Preservation.

Lemma ledger_step_inv d d' : ledger_inv d → ledger_step d d' → ledger_inv d'.
Proof.
  intros Hd Hs. destruct Hs.
  - done.
  - by apply rq_inv_accept.
  - by eapply inv_rotate.
  - by apply inv_claim.
  - by eapply inv_refuse.
  - by apply inv_renew.
  - by eapply (inv_end d Hd j l xs m false).
  - by apply (inv_end d Hd j l xs m true).
  - by apply (inv_wake d Hd j ts true false).
  - by apply (inv_wake d Hd j ts true true).
  - by apply (inv_wake d Hd j ts false true).
  - by apply (inv_expire d Hd k c Again).
  - by apply (inv_expire d Hd k c Told).
  - by apply (inv_expire d Hd k c Gone).
  - by eapply inv_crash.
Qed.

(** ** The workers implement the ledger *)

(** A worker's executions with their leases. *)
Definition running_of (w : worker) : list (job * lease) := zip (executing (base w)) (leases w).

Definition abs (s : sys) : ledger :=
  Ledger (shared_pending s) (processing s) (mjoin (running_of <$> workers s))
    (mjoin (in_timers <$> workers s)) (g_accepted s) (g_started s) (g_settled s) (g_lost s).

Definition leased (w : worker) : Prop := length (leases w) = length (executing (base w)).

(** The ledger with one worker's jobs in front of the others' ([R], [T]). *)
Definition focus (s : sys) (w : worker) (R : list (job * lease)) (T : list job) (st : list string) : ledger :=
  Ledger (shared_pending s) (processing s) (running_of w ++ R) (in_timers w ++ T)
    (g_accepted s) (g_started s) st (g_lost s).

Lemma zip_delete {A B} i (l : list A) (k : list B) :
  delete i (zip l k) = zip (delete i l) (delete i k).
Proof.
  revert i k. induction l as [|x l IH]; intros [|i] [|y k]; try done.
  - by destruct l.
  - change ((x, y) :: delete i (zip l k) = (x, y) :: zip (delete i l) (delete i k)). by rewrite IH.
Qed.

Lemma running_of_pick w i j l :
  executing (base w) !! i = Some j → leases w !! i = Some l →
  running_of w ≡ₚ (j, l) :: zip (delete i (executing (base w))) (delete i (leases w)).
Proof.
  intros Ej El. unfold running_of. rewrite <- zip_delete. apply delete_Permutation.
  by rewrite lookup_zip_with, Ej; simpl; rewrite El.
Qed.

Lemma running_of_start w j l :
  leased w → zip (executing (base w) ++ [j]) (leases w ++ [l]) = running_of w ++ [(j, l)].
Proof. intros Hw. unfold running_of. by rewrite zip_with_app. Qed.

Lemma running_of_renew w i j l l' :
  executing (base w) !! i = Some j → leases w !! i = Some l →
  zip (executing (base w)) (<[i := l']> (leases w)) ≡ₚ
  (j, l') :: zip (delete i (executing (base w))) (delete i (leases w)).
Proof.
  intros Ej El. rewrite <- zip_delete.
  assert (delete i (zip (executing (base w)) (leases w)) =
          delete i (zip (executing (base w)) (<[i := l']> (leases w)))) as ->.
  { rewrite !zip_delete. f_equal. rewrite !delete_take_drop, take_insert_ge, drop_insert_lt by lia. done. }
  apply delete_Permutation. rewrite lookup_zip_with, Ej. simpl.
  rewrite list_lookup_insert_eq by (by eapply lookup_lt_Some). done.
Qed.

Lemma new_settled_app w w' x :
  settled (base w') = settled (base w) ++ x → new_settled w w' = x.*1.
Proof. intros E. unfold new_settled. by rewrite E, drop_app_length. Qed.

Lemma new_settled_none w w' : settled (base w') = settled (base w) → new_settled w w' = [].
Proof. intros E. apply (new_settled_app w w' []). by rewrite E, app_nil_r. Qed.

(** Steps up to the order of the unordered fields. *)
Definition ledger_may (d d' : ledger) : Prop := ∃ x, ledger_step d x ∧ x ≡ d'.

Lemma ledger_may_idle d d' : d ≡ d' → ledger_may d d'.
Proof. exists d. split; [constructor|done]. Qed.

Ltac ledger_done := repeat split; csimpl; try done; try by f_equiv.

Lemma ledger_step_equiv d1 d2 x : d1 ≡ d2 → ledger_step d1 x → ledger_may d2 x.
Proof.
  destruct d1 as [w1 c1 a1 s1 ac1 st1 se1 lo1], d2 as [w2 c2 a2 s2 ac2 st2 se2 lo2].
  intros (E1&E2&E3&E4&E5&E6&E7&E8) Hs. csimpl in *. subst.
  destruct Hs; csimpl in *; eexists; split.
  - apply ld_idle.
  - ledger_done.
  - by apply ld_accept.
  - ledger_done.
  - by eapply ld_rotate.
  - ledger_done.
  - eapply (ld_claim _ j ws c reply dur); try done. destruct H2 as [Hf1 Hf2]. split; csimpl in *; [|done].
    intros p. rewrite <- E3. auto.
  - ledger_done. destruct reply; [by rewrite E3|done].
  - eapply ld_refuse; try done. destruct H2 as [Hf1 Hf2]. split; csimpl in *; [|done].
    intros p. rewrite <- E3. auto.
  - ledger_done.
  - eapply (ld_renew _ j l xs next told); try done. csimpl. by rewrite <- E3.
  - ledger_done.
  - eapply (ld_finish _ j l xs); try done. csimpl. by rewrite <- E3.
  - ledger_done.
  - eapply (ld_retry _ j l xs); try done. csimpl. by rewrite <- E3.
  - ledger_done.
  - eapply (ld_requeue _ j ts). csimpl. by rewrite <- E4.
  - ledger_done.
  - eapply (ld_requeue_unknown _ j ts). csimpl. by rewrite <- E4.
  - ledger_done.
  - eapply (ld_give_up _ j ts). csimpl. by rewrite <- E4.
  - ledger_done.
  - by eapply (ld_reclaim _ k c).
  - ledger_done.
  - by eapply (ld_abandon _ k c).
  - ledger_done.
  - by eapply (ld_vanish _ k c).
  - ledger_done.
  - eapply (ld_crash _ dead xs gone ts); csimpl; [by rewrite <- E3|by rewrite <- E4].
  - ledger_done.
Qed.

(** What the freshness of an event's inputs gives the ledger. *)
Definition fresh_inputs (e : event) (d : ledger) : Prop :=
  match e with
  | EEnqueue _ i _ _ => i ∉ id <$> ld_accepted d
  | EDrainClaim _ t _ _ => fresh_token t d
  | _ => True
  end.

Section Simulation.
Context (s : sys) (w : worker) (R : list (job * lease)) (T : list job) (st : list string).
Context (Hw : leased w).
Local Abbreviation before := (focus s w R T st).
Local Abbreviation after s' w' := (focus s' w' R T (st ++ new_settled w w')).
Local Abbreviation simulated s' w' := (leased w' ∧ ledger_may before (after s' w')).

Lemma sim_idle w' :
  leased w' → running_of w' = running_of w → in_timers w' = in_timers w →
  settled (base w') = settled (base w) → simulated s w'.
Proof using.
  intros Hl Er Et Es. split; [done|]. apply ledger_may_idle. unfold focus.
  rewrite Er, Et, new_settled_none, app_nil_r by done. done.
Qed.

Lemma sim_enqueue o i now push s' w' :
  i ∉ id <$> g_accepted s → (enqueue o i now push s w).1 = (s', w') → simulated s' w'.
Proof using Hw.
  intros Hi. unfold enqueue.
  destruct (normalize_cases o i now (base w)) as [[_ ->]|[(m&jid&c& ->)|(m&j& -> &<-&_)]].
  - intros [= <- <-]. by apply sim_idle.
  - intros [= <- <-]. by apply sim_idle.
  - destruct push; intros [= <- <-]; [| |by apply sim_idle]; (split; [done|]; eexists; split;
      [apply (ld_accept _ j); done|]; unfold focus; by rewrite new_settled_none, app_nil_r by done).
Qed.

Lemma sim_claim now t claimed reached s' w' :
  fresh_token t before → drainClaim now t claimed reached s w = (s', w') → simulated s' w'.
Proof using Hw.
  intros Hf. unfold drainClaim, CLAIM_LUA.
  case_match; [|intros [= <- <-]; by apply sim_idle].
  destruct (arrived claimed) eqn:Ea; [|destruct claimed; try done; intros [= <- <-]; by apply sim_idle].
  destruct (shared_pending s) as [|j rest] eqn:Ep.
  { destruct claimed; simpl; intros [= <- <-]; by apply sim_idle. }
  destruct (mhas (processing s) (id j)) eqn:Eh.
  { apply bool_decide_eq_true in Eh.
    destruct claimed; simpl; intros [= <- <-]; (split; [done|]; eexists; split;
      [by eapply (ld_rotate _ j rest)|unfold focus; by rewrite new_settled_none, app_nil_r by done]). }
  apply bool_decide_eq_false in Eh. rewrite <- eq_None_not_Some in Eh.
  destruct claimed; [| |done]; simpl.
  2:{ intros [= <- <-]. split; [done|]. eexists. split.
      - by eapply (ld_claim _ j rest (Claim j _ t) false 0%Z).
      - unfold focus. by rewrite new_settled_none, app_nil_r by done. }
  destruct (decide (type j ∈ handlers (base w))); intros [= <- <-].
  - split; [unfold leased in *; simpl; rewrite !length_app; simpl; lia|].
    eexists. split; [by eapply (ld_claim _ j rest (Claim j _ t) true)|].
    unfold focus. rewrite new_settled_none, app_nil_r by done.
    repeat split; csimpl; try done. unfold running_of at 2. csimpl. rewrite running_of_start by done.
    by rewrite <- !app_assoc, (Permutation_app_comm R).
  - destruct reached; [unfold compareAndDeleteHash; csimpl; rewrite decide_True by apply mget_set_eq|];
      (split; [done|]; eexists; split; [eapply (ld_refuse _ j rest (Claim j (now + claim_duration w) t)); try done|]);
      try (unfold focus; erewrite (new_settled_app w _ [(id j, _)]) by done; done); [left|by right].
    csimpl. by rewrite mset_new, mdelete_snoc.
Qed.

Lemma pick i j l :
  executing (base w) !! i = Some j → leases w !! i = Some l →
  active before ≡ₚ (j, l) :: (zip (delete i (executing (base w))) (delete i (leases w)) ++ R).
Proof using. intros Ej El. csimpl. by rewrite (running_of_pick w i j l). Qed.

Lemma sim_renew i now sent s' w' :
  _renew i now sent s w = (s', w') → simulated s' w'.
Proof using Hw.
  unfold _renew. destruct (executing (base w) !! i) as [j|] eqn:Ej; [|intros [= <- <-]; by apply sim_idle].
  destruct (leases w !! i) as [l|] eqn:El; [|intros [= <- <-]; by apply sim_idle].
  destruct (arrived sent) eqn:Ea; [|intros [= <- <-]; by apply sim_idle].
  unfold compareAndSetHash. case_decide as Em; [|simpl; intros [= <- <-]; by apply sim_idle].
  set (next := Claim j (now + l_duration l) (l_token l)). rewrite andb_true_l.
  destruct sent; [| |done]; intros [= <- <-].
  - split; [unfold leased in *; simpl; by rewrite length_insert|]. eexists. split.
    + eapply (ld_renew _ j l _ next true); [|exact Em|reflexivity..]. by apply (pick i).
    + unfold focus. rewrite new_settled_none, app_nil_r by done.
      repeat split; csimpl; try done. unfold running_of at 1. csimpl. by rewrite (running_of_renew w i j l).
  - split; [done|]. eexists. split.
    + eapply (ld_renew _ j l _ next false); [|exact Em|reflexivity..]. by apply (pick i).
    + unfold focus. rewrite new_settled_none, app_nil_r by done.
      repeat split; csimpl; try done. by rewrite (running_of_pick w i j l).
Qed.

Lemma leased_delete i j : leased w → executing (base w) !! i = Some j →
  length (delete i (leases w)) = length (delete i (executing (base w))).
Proof using.
  intros Hl Ej. apply lookup_lt_Some in Ej. unfold leased in Hl. rewrite !length_delete; [congruence|..];
    apply lookup_lt_is_Some; lia.
Qed.

Lemma release_shape j l reached : ∃ m,
  _release j l reached s = s <| processing := m |> ∧
  (m = processing s ∨ m = released j l (processing s)).
Proof using.
  unfold _release, compareAndDeleteHash, released. destruct reached; [case_decide|].
  - eexists. split; [reflexivity|by right].
  - exists (processing s). split; [by destruct s|by left].
  - exists (processing s). split; [by destruct s|by left].
Qed.

Lemma sim_done i now reached s' w' :
  jobDone i now reached s w = (s', w') → simulated s' w'.
Proof using Hw.
  unfold jobDone, handlerDone. destruct (executing (base w) !! i) as [j|] eqn:Ej; [|intros [= <- <-]; by apply sim_idle].
  destruct (leases w !! i) as [l|] eqn:El; [|intros [= <- <-]; by apply sim_idle].
  destruct (release_shape j l reached) as (m & -> & Hm). intros [= <- <-].
  split; [unfold leased; csimpl; rewrite Ej; by eapply leased_delete|].
  eexists. split.
  - eapply (ld_finish _ j l); [|exact Hm]. by apply (pick i).
  - unfold focus, running_of, in_timers. csimpl. rewrite Ej.
    erewrite (new_settled_app w _ [(id j, Succeeded)]) by done. done.
Qed.

Lemma sim_failed i e reached s' w' :
  jobFailed i e reached s w = (s', w') → simulated s' w'.
Proof using Hw.
  unfold jobFailed, handlerFailed. destruct (executing (base w) !! i) as [j|] eqn:Ej; [|intros [= <- <-]; by apply sim_idle].
  destruct (leases w !! i) as [l|] eqn:El; [|intros [= <- <-]; by apply sim_idle].
  destruct (release_shape j l reached) as (m & -> & Hm). intros [= <- <-].
  assert (leased (w <| base ::= λ q, afterFailure j e (q <| executing ::= delete i |> <| finalizing ::= S |>) |>
    <| leases ::= delete i |>)) as Hl.
  { unfold leased, afterFailure. csimpl. case_match; csimpl; by eapply leased_delete. }
  split; [unfold leased in *; csimpl in *; by rewrite Ej|].
  unfold focus, new_settled, running_of, in_timers, leased in *. csimpl. rewrite Ej. unfold afterFailure in *. csimpl.
  destruct (_ && _ && _) eqn:E.
  - apply andb_true_iff in E as [E _]. apply andb_true_iff in E as [E Ea]. apply bool_decide_eq_true in Ea.
    unfold can_retry in E. apply andb_true_iff in E as [E _]. simpl in E.
    eexists. split; [eapply (ld_retry _ j l); [|exact Hm|done|done]|].
    + by apply (pick i).
    + repeat split; csimpl; try done.
      * by rewrite fmap_app, <- !app_assoc; csimpl; rewrite <- Permutation_middle.
      * by rewrite drop_all, app_nil_r.
  - eexists. split; [eapply (ld_finish _ j l); [|exact Hm]|].
    + by apply (pick i).
    + repeat split; csimpl; try done. by rewrite drop_app_length.
Qed.

Lemma sim_retry i push s' w' :
  retryTimer i push s w = (s', w') → simulated s' w'.
Proof using Hw.
  unfold retryTimer. destruct (backoff (base w) !! i) as [[j e]|] eqn:Eb; [|intros [= <- <-]; by apply sim_idle].
  assert (in_timers w ≡ₚ j :: (delete i (backoff (base w))).*1 ++ reclaimed w) as Ht.
  { exact (Permutation_app_tail (reclaimed w) (fmap_Permutation fst _ _ (delete_Permutation _ _ _ Eb))). }
  case_match; [|destruct push]; intros [= <- <-]; (split; [done|]; eexists; split).
  1,7: apply (ld_give_up _ j); csimpl; rewrite Ht; apply reflexivity.
  - unfold focus. by erewrite (new_settled_app w _ [(id j, _)]) by done.
  - apply (ld_requeue _ j). csimpl. rewrite Ht. apply reflexivity.
  - unfold focus. by rewrite new_settled_none, app_nil_r by done.
  - apply (ld_requeue_unknown _ j). csimpl. rewrite Ht. apply reflexivity.
  - unfold focus. by erewrite (new_settled_app w _ [(id j, _)]) by done.
  - unfold focus. by erewrite (new_settled_app w _ [(id j, _)]) by done.
Qed.

Lemma sim_reclaim_timer i push s' w' :
  reclaimTimer i push s w = (s', w') → simulated s' w'.
Proof using Hw.
  unfold reclaimTimer. destruct (reclaimed w !! i) as [j|] eqn:Eb; [|intros [= <- <-]; by apply sim_idle].
  assert (in_timers w ≡ₚ j :: (backoff (base w)).*1 ++ delete i (reclaimed w)) as Ht.
  { unfold in_timers. rewrite Permutation_middle. by apply Permutation_app_head, delete_Permutation. }
  case_match; [|destruct push]; intros [= <- <-]; (split; [done|]; eexists; split).
  1,7: apply (ld_give_up _ j); csimpl; rewrite Ht; apply reflexivity.
  - unfold focus. by erewrite (new_settled_app w _ [(id j, _)]) by done.
  - apply (ld_requeue _ j). csimpl. rewrite Ht. apply reflexivity.
  - unfold focus. by rewrite new_settled_none, app_nil_r by done.
  - apply (ld_requeue_unknown _ j). csimpl. rewrite Ht. apply reflexivity.
  - unfold focus. by erewrite (new_settled_app w _ [(id j, _)]) by done.
  - unfold focus. by erewrite (new_settled_app w _ [(id j, _)]) by done.
Qed.

Lemma sim_reclaim f r now sent s' w' :
  reclaim f r now sent s w = (s', w') → simulated s' w'.
Proof using Hw.
  unfold reclaim, compareAndDeleteHash. case_bool_decide; [intros [= <- <-]; by apply sim_idle|].
  destruct (arrived sent) eqn:Er; [|intros [= <- <-]; by apply sim_idle].
  case_decide as Em; simpl; [|intros [= <- <-]; by apply sim_idle].
  destruct sent; [| |done].
  2:{ intros [= <- <-]. split; [done|]. eexists. split; [by apply (ld_vanish _ f r)|].
      unfold focus. by rewrite new_settled_none, app_nil_r by done. }
  destruct (_ && _ && _) eqn:E; intros [= <- <-]; (split; [done|]; eexists; split).
  - apply andb_true_iff in E as [[E Ea]%andb_true_iff _]. apply bool_decide_eq_true in Ea.
    by apply (ld_reclaim _ f r).
  - unfold focus. rewrite new_settled_none, app_nil_r by done. repeat split; csimpl; try done.
    unfold in_timers. csimpl. rewrite <- !app_assoc. by do 2 rewrite Permutation_middle.
  - by apply (ld_abandon _ f r).
  - unfold focus. by erewrite (new_settled_app w _ [(id (c_job r), _)]) by done.
Qed.

(** Whatever a worker does is a step of the ledger. *)
Lemma sim_event e s' w' :
  fresh_inputs e before → apply_event e s w = (s', w') → simulated s' w'.
Proof using Hw.
  destruct e; simpl; intros Hf H.
  - by eapply sim_enqueue.
  - injection H as <- <-. unfold drainStart. case_match; by apply sim_idle.
  - by eapply sim_claim.
  - by eapply sim_renew.
  - by eapply sim_done.
  - by eapply sim_failed.
  - injection H as <- <-. by apply sim_idle.
  - by eapply sim_retry.
  - by eapply sim_reclaim.
  - by eapply sim_reclaim_timer.
  - injection H as <- <-. destruct rejectWaiters; by apply sim_idle.
Qed.
End Simulation.

Lemma mjoin_pick {A B} (f : A → list B) ws n w :
  ws !! n = Some w → mjoin (f <$> ws) ≡ₚ f w ++ mjoin (f <$> delete n ws).
Proof. intros E. by rewrite (delete_Permutation _ _ _ E) at 1. Qed.

Lemma mjoin_put {A B} (f : A → list B) ws n w w' :
  ws !! n = Some w → mjoin (f <$> <[n := w']> ws) ≡ₚ f w' ++ mjoin (f <$> delete n ws).
Proof.
  intros E. rewrite (mjoin_pick f (<[n := w']> ws) n w').
  - rewrite !delete_take_drop, take_insert_ge, drop_insert_lt by lia. done.
  - apply list_lookup_insert_eq. by eapply lookup_lt_Some.
Qed.

Lemma mjoin_app {A B} (f : A → list B) ws ws' :
  mjoin (f <$> ws ++ ws') = mjoin (f <$> ws) ++ mjoin (f <$> ws').
Proof. by rewrite fmap_app, join_app. Qed.

Lemma abs_focus s n w :
  workers s !! n = Some w →
  abs s ≡ focus s w (mjoin (running_of <$> delete n (workers s)))
    (mjoin (in_timers <$> delete n (workers s))) (g_settled s).
Proof. intros E. repeat split; csimpl; by apply mjoin_pick. Qed.

(** What no operation of a worker touches. *)
Lemma apply_event_frame e s w s' w' :
  apply_event e s w = (s', w') → workers s' = workers s ∧ g_settled s' = g_settled s.
Proof.
  assert (∀ j l b (s : sys), workers (_release j l b s) = workers s ∧ g_settled (_release j l b s) = g_settled s) as Hr.
  { intros j l b s0. unfold _release, compareAndDeleteHash. destruct b; [by case_decide|done]. }
  destruct e; simpl; unfold enqueue, drainClaim, _renew, jobDone, jobFailed, retryTimer, reclaim, reclaimTimer,
    CLAIM_LUA, compareAndDeleteHash, compareAndSetHash, _push; intros H.
  all: repeat (case_match; simplify_eq/=; try done); try apply Hr; repeat (case_decide; simpl);
    try done; by injection H as <- <-.
Qed.

Definition all_leased (s : sys) : Prop := Forall leased (workers s).

(** Every step of the workers is a step of the ledger. *)
Lemma redis_simulates s l s' :
  all_leased s → step s l s' → all_leased s' ∧ ledger_may (abs s) (abs s').
Proof.
  intros Hl Hs. destruct Hs as [s n w e s' w' Ew Hf He|s c hs v|s n w Ew].
  - assert (leased w) as Hw by (by eapply Forall_lookup_1).
    set (R := mjoin (running_of <$> delete n (workers s))).
    set (T := mjoin (in_timers <$> delete n (workers s))).
    destruct (apply_event_frame _ _ _ _ _ He) as [Ews Est].
    destruct (sim_event s w R T (g_settled s) Hw e s' w') as [Hw' (x & Hx & Ex)]; [|done|].
    { destruct e; try done. split; csimpl; [|naive_solver].
      intros p Hp. unfold R in Hp. rewrite <- (mjoin_pick running_of _ _ _ Ew) in Hp.
      apply list_elem_of_join in Hp as (ps & Hp & (w0 & -> & Hw0)%list_elem_of_fmap).
      destruct p as [j l]. apply elem_of_zip_r in Hp. naive_solver. }
    split.
    + unfold all_leased. csimpl. rewrite Ews. by apply Forall_insert.
    + destruct (ledger_step_equiv _ (abs s) x (symmetry (abs_focus s n w Ew)) Hx) as (y & Hy & Ey).
      exists y. split; [done|]. rewrite Ey, Ex. repeat split; csimpl; try done.
      * rewrite Ews. by rewrite mjoin_put.
      * rewrite Ews. by rewrite mjoin_put.
      * by rewrite Est.
  - split.
    + apply Forall_app. split; [done|]. by apply Forall_singleton.
    + apply ledger_may_idle. repeat split; csimpl; try done; rewrite mjoin_app; simpl; by rewrite app_nil_r.
  - split; [by apply Forall_delete|].
    eexists. split; [|reflexivity]. apply (ld_crash (abs s) (running_of w) _ (in_timers w)); csimpl; by apply mjoin_pick.
Qed.

Lemma ledger_may_inv d d' : ledger_inv d → ledger_may d d' → ledger_inv d'.
Proof. intros Hd (x & Hx & <-). by eapply ledger_step_inv. Qed.

Lemma rq_reachable_inv s : reachable s → all_leased s ∧ ledger_inv (abs s).
Proof.
  intros [ls Ht]. eapply (trace_invariant _ (λ s, all_leased s ∧ ledger_inv (abs s))); [|exact Ht|].
  - intros s0 l s1 [Hl Hi] Hs. destruct (redis_simulates s0 l s1 Hl Hs) as [Hl' Hm].
    split; [done|by eapply ledger_may_inv].
  - split; [by constructor|]. split; csimpl; try done; try (by intros ? ?%not_elem_of_nil); by constructor.
Qed.

(** ** Running a schedule *)

Definition fresh_check (e : event) (s : sys) : bool :=
  match e with
  | EEnqueue _ i _ _ => bool_decide (i ∉ id <$> g_accepted s)
  | EDrainClaim _ t _ _ =>
      forallb (λ w, forallb (λ l, negb (bool_decide (l_token l = t))) (leases w)) (workers s) &&
      forallb (λ c, negb (bool_decide (c_token c = t))) (mvalues (processing s))
  | _ => true
  end.

Definition act (p : nat * event) (s : sys) : option sys :=
  let (n, e) := p in
  w ← workers s !! n;
  if fresh_check e s then
    let (s', w') := apply_event e s w in
    Some (s' <| workers ::= λ ws, <[n := w']> ws |> <| g_settled ::= λ l, l ++ new_settled w w' |>)
  else None.

Fixpoint drive (ps : list (nat * event)) (s : sys) : option sys :=
  match ps with
  | [] => Some s
  | p :: ps => s' ← act p s; drive ps s'
  end.

Lemma fresh_check_sound e s : fresh_check e s = true →
  match e with
  | EEnqueue _ i _ _ => i ∉ id <$> g_accepted s
  | EDrainClaim _ t _ _ => (∀ w l, w ∈ workers s → l ∈ leases w → l_token l ≠ t) ∧
                           (∀ k c, mget (processing s) k = Some c → c_token c ≠ t)
  | _ => True
  end.
Proof.
  destruct e; simpl; try done; [by intros ?%bool_decide_eq_true|].
  intros [H1 H2]%andb_true_iff. rewrite forallb_forall in H1, H2. split.
  - intros w l Hw Hl. specialize (H1 w). rewrite forallb_forall in H1.
    apply list_elem_of_In in Hw, Hl. specialize (H1 Hw l Hl).
    by apply negb_true_iff, bool_decide_eq_false in H1.
  - intros k c Hc%mvalues_get. rewrite list_elem_of_In in Hc. specialize (H2 c Hc).
    by apply negb_true_iff, bool_decide_eq_false in H2.
Qed.

Lemma drive_trace ps s s' : drive ps s = Some s' → ∃ ls, trace step s ls s'.
Proof.
  revert s. induction ps as [|[n e] ps IH]; intros s; simpl; [intros [= ->]; eexists; constructor|].
  intros (s1 & Ha & Hd)%bind_Some. apply bind_Some in Ha as (w & Ew & Ha).
  destruct (fresh_check e s) eqn:Ef; [|done].
  destruct (apply_event e s w) as [s2 w2] eqn:E. injection Ha as <-.
  destruct (IH _ Hd) as [ls Hls]. exists (tt :: ls). econstructor; [|exact Hls].
  by eapply step_worker; [|apply fresh_check_sound|].
Qed.

Definition two_workers : sys := start_state <| workers := [new_worker 1 ["run"%string] 0; new_worker 1 ["run"%string] 0] |>.

Lemma drive_reachable ps s : drive ps two_workers = Some s → reachable s.
Proof.
  intros [ls Hls]%drive_trace. exists (tt :: tt :: ls).
  econstructor; [apply (step_join _ 1 ["run"%string] 0)|].
  econstructor; [apply (step_join _ 1 ["run"%string] 0)|]. exact Hls.
Qed.

Definition run_job (retry : bool) : options := Options "run" None None 3 0 retry false.

(** Worker 0 runs job "a" while its renewals fail; worker 1 reclaims it; worker
    0's handler then fails: both requeue the job. *)
Definition split_schedule : list (nat * event) :=
  [(0, EEnqueue (run_job true) "a" 0 Answered); (0, EDrainStart); (0, EDrainClaim 0 "t0" Answered true);
   (1, EReclaim "a" (Claim (Job "a" "run" None None 0 0 3 0 true false) 125000 "t0") 130000 Answered);
   (1, EReclaimTimer 0 Answered);
   (0, EFailed 0 (JsError None "boom") true); (0, ERetry 0 Answered)].

(** One accepted job waits twice. *)
Example one_job_waits_twice :
  (λ s, (id <$> shared_pending s, id <$> g_accepted s)) <$> drive split_schedule two_workers =
  Some (["a"; "a"]%string, ["a"]%string).
Proof. vm_compute. reflexivity. Qed.

(** ... and runs again after it succeeded. *)
Example job_runs_after_success :
  (λ s, (g_started s, g_settled s)) <$> drive (split_schedule ++
    [(1, EDrainStart); (1, EDrainClaim 130000 "t1" Answered true); (1, EDone 0 130001 true); (1, EFinally);
     (1, EDrainClaim 130002 "t2" Answered true)]) two_workers =
  Some (["a"; "a"; "a"]%string, ["a"]%string).
Proof. vm_compute. reflexivity. Qed.

(** A reclaim whose script ran without its reply coming back: the job is
    nowhere, and nobody was told. *)
Example reclaimed_job_vanishes :
  (λ s, (g_accepted s ≫= λ j, [id j], (shared_pending s, mkeys (processing s)), workers s ≫= in_timers, g_settled s)) <$>
    drive [(0, EEnqueue (run_job true) "a" 0 Answered); (0, EDrainStart); (0, EDrainClaim 0 "t0" ReplyLost true);
      (1, EReclaim "a" (Claim (Job "a" "run" None None 0 0 3 0 true false) 125000 "t0") 130000 ReplyLost)] two_workers =
  Some (["a"]%string, ([], []), [], []).
Proof. vm_compute. reflexivity. Qed.

(** A retry whose push arrived unanswered: the job is settled as failed and
    still waits to run. *)
Example settled_job_waits :
  (λ s, (id <$> shared_pending s, g_settled s)) <$>
    drive [(0, EEnqueue (run_job true) "a" 0 Answered); (0, EDrainStart); (0, EDrainClaim 0 "t0" Answered true);
      (0, EFailed 0 (JsError None "boom") true); (0, ERetry 0 ReplyLost)] two_workers =
  Some (["a"]%string, ["a"]%string).
Proof. vm_compute. reflexivity. Qed.

(** An enqueue whose push arrived unanswered: the caller is refused and the job
    waits to run. *)
Example refused_job_waits :
  let '(s, _, r) := enqueue (run_job true) "a" 0 ReplyLost start_state (new_worker 1 ["run"%string] 0) in
  (id <$> shared_pending s, r) = (["a"]%string, Throw queue_unavailable).
Proof. vm_compute. reflexivity. Qed.

(** ** Theorems *)

(** C23: Refinement.  Each step of the redis queue is one step of the job
    ledger: any operation of any worker, where any command may fail to arrive
    and any reply may be lost, a worker joining, a worker crashing.  In the
    ledger a job waits, is claimed under its id, runs under a lease, sleeps
    until a retry or reclaim timer, is settled, or is lost.  A lost reply is
    visible there: a renewal the lease does not know of, a job requeued and
    settled as failed at once, a reclaimed job that nobody has any more.  Plain
    commands after a failed script are taken to fail with it or to run
    undisturbed. *)
Theorem redis_refines_ledger s l s' :
  reachable s → step s l s' → ∃ d, ledger_step (abs s) d ∧ d ≡ abs s'.
Proof. intros [Hl _]%rq_reachable_inv Hs. by apply (redis_simulates s l). Qed.

Definition scheduled_state (ps : list (nat * event)) : sys := default start_state (drive ps two_workers).

Lemma scheduled_reachable ps : is_Some (drive ps two_workers) → reachable (scheduled_state ps).
Proof. intros [s E]. unfold scheduled_state. rewrite E. by apply (drive_reachable ps). Qed.

Definition after (n : nat) : sys := scheduled_state (take n split_schedule).

(** A worker dies while its job runs. *)
Lemma redis_refines_ledger_witness :
  reachable (after 3) ∧
  ∃ s', step (after 3) tt s' ∧ ∃ d, ledger_step (abs (after 3)) d ∧ d ≡ abs s'.
Proof.
  assert (reachable (after 3)) as Hr by (apply scheduled_reachable; vm_compute; eauto).
  split; [exact Hr|]. eexists. split; [by apply (step_crash _ 0)|].
  apply (redis_refines_ledger _ tt); [exact Hr|]. by apply (step_crash _ 0).
Defined.

(** No accepted job disappears unnoticed.  In every reachable state a job whose
    push arrived is in the pending list, or claimed under its own id, or
    in a retry or reclaim timer of a live worker, or settled, or it was in such
    a timer when its process died, or its claim was deleted by a reclaim that
    got no reply.  A claim can always be taken back: once its deadline has
    passed, the answered scan of any worker deletes it, and the job is then
    in that worker's reclaim timers (retryable, attempts left, worker open) or
    settled as lost. *)
Theorem redis_jobs_accounted s :
  reachable s →
  (∀ a, a ∈ g_accepted s →
    id a ∈ id <$> shared_pending s ∨
    (∃ c, mget (processing s) (id a) = Some c ∧ id (c_job c) = id a) ∨
    (∃ w j, w ∈ workers s ∧ j ∈ in_timers w ∧ id j = id a) ∨
    id a ∈ g_settled s ∨ id a ∈ g_lost s) ∧
  (∀ k c w now, mget (processing s) k = Some c → w ∈ workers s → (c_deadline c ≤ now)%Z →
    let (s', w') := reclaim k c now Answered s w in
    mget (processing s') k = None ∧ id (c_job c) = k ∧
    (if retryable (c_job c) && bool_decide (S (attempts (c_job c)) < max_attempts (c_job c)) && negb (closed (base w))
     then reclaimed w' = reclaimed w ++ [(c_job c) <| attempts ::= S |>]
     else new_settled w w' = [k])).
Proof.
  intros [_ Hi]%rq_reachable_inv. split.
  - intros a Ha. destruct (li_account _ Hi (id a)) as [?|[Hk|[Hs|?]]]; [by apply list_elem_of_fmap_2|..]; csimpl in *; auto.
    + apply mget_Some_keys in Hk as [c Hc]. right; left. exists c. split; [done|].
      symmetry. apply (li_key _ Hi). done.
    + apply list_elem_of_fmap in Hs as (j & E & Hj).
      apply list_elem_of_join in Hj as (js & Hj & (w & -> & Hw)%list_elem_of_fmap). eauto 10.
  - intros k c w now Hk Hw Hd. assert (k = id (c_job c)) as -> by (by apply (li_key _ Hi)).
    unfold reclaim, compareAndDeleteHash. rewrite bool_decide_eq_false_2 by lia. rewrite decide_True by done.
    csimpl. assert (mget (mdelete (processing s) (id (c_job c))) (id (c_job c)) = None) as Hn
      by (apply mget_delete_eq, (li_wf _ Hi)).
    change (max_attempts _) with (max_attempts (c_job c)).
    destruct (_ && _ && _) eqn:E; csimpl; (split; [done|split; [done|]]); [done|].
    by erewrite (new_settled_app w _ [(_, _)]) by done.
Qed.

Lemma redis_jobs_accounted_witness :
  reachable (after 3) ∧ ∃ c, mget (processing (after 3)) "a" = Some c ∧
  reclaimed (reclaim "a" c 130000 Answered (after 3) (new_worker 1 ["run"%string] 0)).2 = [(c_job c) <| attempts ::= S |>] ∧
  id <$> g_accepted (after 3) = ["a"%string].
Proof.
  assert (reachable (after 3)) as Hr by (apply scheduled_reachable; vm_compute; eauto).
  split; [exact Hr|].
  assert (mget (processing (after 3)) "a" =
    Some (Claim (Job "a" "run" None None 0 0 3 0 true false) 125000 "t0")) as Hc by (vm_compute; reflexivity).
  assert (new_worker 1 ["run"%string] 0 ∈ workers (after 3)) as Hw
    by (apply (list_elem_of_lookup_2 _ 1); vm_compute; reflexivity).
  destruct (redis_jobs_accounted _ Hr) as [_ H]. specialize (H _ _ _ 130000%Z Hc Hw ltac:(simpl; lia)).
  eexists. split; [exact Hc|].
  destruct (reclaim _ _ _ _ _) as [s' w']. destruct H as (_ & _ & H).
  split; [exact H|vm_compute; reflexivity].
Defined.

(** A job that is not retryable is started at most once, whatever the
    workers and redis do: lost replies, expired leases, reclaims, crashes,
    jobs rotated in the list.  And a job whose handler started is never again
    in the pending list unless it is retryable. *)
Theorem non_retryable_once s a :
  reachable s → a ∈ g_accepted s → retryable a = false →
  starts (id a) (g_started s) ≤ 1 ∧
  (id a ∈ g_started s → id a ∉ id <$> shared_pending s).
Proof.
  intros [_ Hi]%rq_reachable_inv Ha Hr. pose proof (li_once _ Hi a Ha Hr) as H. csimpl in H.
  split; [lia|]. intros [n Hn]%list_elem_of_lookup [m Hm]%list_elem_of_lookup.
  pose proof (starts_pos _ _ _ Hn). pose proof (starts_pos _ _ _ Hm). lia.
Qed.

(** The same schedule with a job that is not retryable. *)
Definition once_state : sys := scheduled_state
  [(0, EEnqueue (run_job false) "a" 0 Answered); (0, EDrainStart); (0, EDrainClaim 0 "t0" Answered true);
   (1, EReclaim "a" (Claim (Job "a" "run" None None 0 0 3 0 false false) 125000 "t0") 130000 Answered);
   (0, EFailed 0 (JsError None "boom") true)].

Lemma non_retryable_once_witness :
  starts "a" (g_started once_state) = 1 ∧ starts "a" (g_started once_state) ≤ 1.
Proof.
  assert (reachable once_state) as Hr by (apply scheduled_reachable; vm_compute; eauto).
  assert (g_accepted once_state = [Job "a" "run" None None 0 0 3 0 false false]) as Ha by (vm_compute; reflexivity).
  destruct (non_retryable_once once_state (Job "a" "run" None None 0 0 3 0 false false) Hr) as [H _];
    [rewrite Ha; left|reflexivity|].
  split; [vm_compute; reflexivity|exact H].
Defined.

Lemma elem_delete_ne {A} (l : list A) n m x : l !! m = Some x → n ≠ m → x ∈ delete n l.
Proof.
  intros Hm Hne. destruct (decide (m < n)) as [|].
  - apply (list_elem_of_lookup_2 _ m). by rewrite list_lookup_delete_lt.
  - apply (list_elem_of_lookup_2 _ (pred m)). rewrite list_lookup_delete_ge by lia.
    by replace (S (pred m)) with m by lia.
Qed.

(** Two executions somewhere among the workers. *)
Lemma executions_differ s n m i k w w' l l' j j' :
  reachable s → workers s !! n = Some w → workers s !! m = Some w' →
  executing (base w) !! i = Some j → leases w !! i = Some l →
  executing (base w') !! k = Some j' → leases w' !! k = Some l' →
  (n, i) ≠ (m, k) → l_token l ≠ l_token l' ∧ c_token (l_raw l) = l_token l ∧ c_token (l_raw l') = l_token l'.
Proof.
  intros [_ Hi]%rq_reachable_inv Hn Hm Hj Hl Hj' Hl' Hne.
  assert (running_of w !! i = Some (j, l)) as E1 by (unfold running_of; rewrite lookup_zip_with, Hj; simpl; by rewrite Hl).
  assert (running_of w' !! k = Some (j', l')) as E2 by (unfold running_of; rewrite lookup_zip_with, Hj'; simpl; by rewrite Hl').
  pose proof (li_leases _ Hi) as Hnd. pose proof (li_raw _ Hi) as Hraw. csimpl in Hnd. csimpl in Hraw.
  assert (∀ n w p, workers s !! n = Some w → p ∈ running_of w → p ∈ mjoin (running_of <$> workers s)) as Hin.
  { intros n0 w0 p Hw0 Hp. rewrite (mjoin_pick running_of _ _ _ Hw0), elem_of_app. by left. }
  assert (c_token (l_raw l) = l_token l) as R1
    by (apply (Hraw (j, l)), (Hin n w); [done|by eapply list_elem_of_lookup_2]).
  assert (c_token (l_raw l') = l_token l') as R2
    by (apply (Hraw (j', l')), (Hin m w'); [done|by eapply list_elem_of_lookup_2]).
  split; [|done].
  rewrite <- list_fmap_compose in Hnd. intros Et. destruct (decide (n = m)) as [->|Hnm].
  - assert (w' = w) as -> by congruence. apply Hne. f_equal.
    rewrite (mjoin_pick running_of _ _ _ Hn), fmap_app in Hnd. apply NoDup_app in Hnd as [Hnd _].
    eapply NoDup_lookup; [exact Hnd|by rewrite list_lookup_fmap, E1|]. rewrite list_lookup_fmap, E2. simpl. by rewrite Et.
  - rewrite (mjoin_pick running_of _ _ _ Hn), fmap_app in Hnd. apply NoDup_app in Hnd as (_ & Hnd & _).
    apply (Hnd (l_token l)).
    + apply list_elem_of_fmap. exists (j, l). split; [done|]. by eapply list_elem_of_lookup_2.
    + apply list_elem_of_fmap. exists (j', l'). split; [done|]. apply list_elem_of_join.
      exists (running_of w'). split; [by eapply list_elem_of_lookup_2|]. apply list_elem_of_fmap. exists w'.
      split; [done|]. by apply (elem_delete_ne _ n m).
Qed.

(** Leases fence executions.  Of two executions anywhere among the workers
    at most one holds the claim that redis records for a job: the holder's
    claim is not the other's, and neither the other's release nor its renewal
    changes it, so a worker that outlived its lease cannot give away or extend
    a job that another worker runs. *)
Theorem lease_fencing s n m i k w w' l l' j j' now reached sent :
  reachable s → workers s !! n = Some w → workers s !! m = Some w' →
  executing (base w) !! i = Some j → leases w !! i = Some l →
  executing (base w') !! k = Some j' → leases w' !! k = Some l' →
  (n, i) ≠ (m, k) → mget (processing s) (id j) = Some (l_raw l) →
  (id j' = id j → mget (processing s) (id j') ≠ Some (l_raw l')) ∧
  mget (processing (_release j' l' reached s)) (id j) = Some (l_raw l) ∧
  mget (processing (_renew k now sent s w').1) (id j) = Some (l_raw l).
Proof.
  intros Hs Hn Hm Hj Hl Hj' Hl' Hne Hc.
  destruct (executions_differ s n m i k w w' l l' j j') as (Ht & E1 & E2); try done.
  assert (∀ x, mget (processing s) x = Some (l_raw l') → x ≠ id j) as Hx by (intros x Ex ->; congruence).
  split; [naive_solver|]. unfold _release, _renew, compareAndDeleteHash, compareAndSetHash. rewrite Hj', Hl'.
  case_decide as Hd; csimpl; (split; [destruct reached|destruct (arrived sent)]); try done; csimpl.
  - by rewrite mget_delete_ne by (by apply Hx).
  - by rewrite mget_set_ne by (by apply Hx).
Qed.

(** Worker 0 outlived its lease; worker 1 runs the job now. *)
Definition fenced_state : sys := scheduled_state
  (take 5 split_schedule ++ [(1, EDrainStart); (1, EDrainClaim 130000 "t1" Answered true)]).

Definition worker_at (n : nat) (s : sys) : worker := default (new_worker 1 [] 0) (workers s !! n).

Lemma lease_fencing_witness :
  ∃ j0 j1 l0 l1,
  executing (base (worker_at 0 fenced_state)) !! 0 = Some j0 ∧ leases (worker_at 0 fenced_state) !! 0 = Some l0 ∧
  executing (base (worker_at 1 fenced_state)) !! 0 = Some j1 ∧ leases (worker_at 1 fenced_state) !! 0 = Some l1 ∧
  id j0 = id j1 ∧ mget (processing fenced_state) (id j1) = Some (l_raw l1) ∧
  mget (processing (_release j0 l0 true fenced_state)) (id j1) = Some (l_raw l1).
Proof.
  assert (reachable fenced_state) as Hr by (apply scheduled_reachable; vm_compute; eauto).
  set (j0 := Job "a" "run" None None 0 0 3 0 true false). set (j1 := Job "a" "run" None None 0 1 3 0 true false).
  set (l0 := Lease "t0" 125000 (Claim j0 125000 "t0")). set (l1 := Lease "t1" 125000 (Claim j1 255000 "t1")).
  assert (executing (base (worker_at 0 fenced_state)) !! 0 = Some j0) as E0 by (vm_compute; reflexivity).
  assert (leases (worker_at 0 fenced_state) !! 0 = Some l0) as L0 by (vm_compute; reflexivity).
  assert (executing (base (worker_at 1 fenced_state)) !! 0 = Some j1) as E1 by (vm_compute; reflexivity).
  assert (leases (worker_at 1 fenced_state) !! 0 = Some l1) as L1 by (vm_compute; reflexivity).
  assert (mget (processing fenced_state) (id j1) = Some (l_raw l1)) as Hc by (vm_compute; reflexivity).
  assert (workers fenced_state !! 0 = Some (worker_at 0 fenced_state)) as W0 by (vm_compute; reflexivity).
  assert (workers fenced_state !! 1 = Some (worker_at 1 fenced_state)) as W1 by (vm_compute; reflexivity).
  exists j0, j1, l0, l1. do 5 (split; [assumption || reflexivity|]). split; [exact Hc|].
  refine (proj1 (proj2 (lease_fencing fenced_state 1 0 0 0 _ _ l1 l0 j1 j0 0 true Answered Hr W1 W0 E1 L1 E0 L0 _ Hc))). done.
Defined.
