(* ===== verification/Network.v ===== *)
(** Guarded network access: the SSRF gate of
    backend/src/execution/environment.js and the [fetch_url] tool of
    backend/src/impl/tool-executor.js.

    A fetch passes three gates per hop: the URL's shape ([parseAndGuardUrl]),
    the scheme, and the addresses its host resolves to ([resolveAndGuardHost]).
    32-bit operators are written with their wrap-around, BigInt ones on [Z].
    The URL parser, the name resolver and the HTTP stack are parameters; every
    lookup and request the code makes is recorded, and the environment may
    answer each of them differently.  The HTTP stack resolves a host name again
    when it connects ([lib.get] of [doRequest]); a request is recorded with the
    address that this second resolution gave.  Host names are ASCII. *)

From S2P Require Import Prelude StateM JsMap JsValue Text Policy.

Local Open Scope Z_scope.
Local Open Scope js_scope.

(** ** 32-bit integers *)

Definition to_uint32 (z : Z) : Z := z mod 2 ^ 32.
Definition to_int32 (z : Z) : Z := let u := to_uint32 z in if bool_decide (u < 2 ^ 31) then u else u - 2 ^ 32.
(** [a << n], [a & b], [a >>> 0] *)
Definition js_shl (a n : Z) : Z := to_int32 (Z.shiftl (to_int32 a) (n mod 32)).
Definition js_and (a b : Z) : Z := to_int32 (Z.land (to_int32 a) (to_int32 b)).

(** ** IPv4 *)

Definition is_digit (c : ascii) : bool := let n := nat_of_ascii c in bool_decide (48 ≤ n ∧ n ≤ 57)%nat.
Definition all_chars (f : ascii → bool) (s : string) : bool := negb (any_char (λ c, negb (f c)) s).

(** [Number(s)] of a string of digits. *)
Fixpoint dec_value (acc : Z) (s : string) : Z :=
  match s with
  | EmptyString => acc
  | String c s' => dec_value (acc * 10 + Z.of_nat (nat_of_ascii c - 48)) s'
  end.

(** [/^\d{1,3}$/] *)
Definition is_octet_text (p : string) : bool :=
  bool_decide (1 ≤ String.length p ≤ 3)%nat && all_chars is_digit p.

(* [src/backend/src/execution/environment.js:316-321] ipv4ToInt, one part *)
Definition octet (n : option Z) (p : string) : option Z :=
  n ← n;
  if is_octet_text p then
    let v := dec_value 0 p in
    if bool_decide (255 < v) then None else Some (to_uint32 (n * 256 + v))
  else None.

(* [src/backend/src/execution/environment.js:312-323] ipv4ToInt *)
Definition ipv4ToInt (ip : string) : option Z :=
  match split_on "."%char ip with
  | [_; _; _; _] as parts => to_uint32 <$> foldl octet (Some 0) parts
  | _ => None
  end.

(* [src/backend/src/execution/environment.js:324-331] ipv4InCidr *)
Definition ipv4InCidr (ip base : string) (bits : Z) : bool :=
  match ipv4ToInt ip, ipv4ToInt base with
  | Some a, Some b =>
      if decide (bits = 0) then true
      else
        let mask := if decide (bits = 32) then 0xffffffff else to_uint32 (js_shl 0xffffffff (32 - bits)) in
        bool_decide (to_uint32 (js_and a mask) = to_uint32 (js_and b mask))
  | _, _ => false
  end.

(* [src/backend/src/execution/environment.js:336-342] BLOCKED_V4 *)
Definition BLOCKED_V4 : list (string * Z * string) := [
  ("127.0.0.0", 8, "loopback"); ("10.0.0.0", 8, "rfc1918"); ("172.16.0.0", 12, "rfc1918");
  ("192.168.0.0", 16, "rfc1918"); ("169.254.0.0", 16, "link-local"); ("224.0.0.0", 4, "multicast");
  ("0.0.0.0", 8, "unspecified"); ("255.255.255.255", 32, "broadcast"); ("240.0.0.0", 4, "reserved");
  ("100.64.0.0", 10, "shared-cgnat"); ("192.0.2.0", 24, "documentation"); ("198.51.100.0", 24, "documentation");
  ("203.0.113.0", 24, "documentation"); ("192.88.99.0", 24, "reserved-relay")]%string.

(** ** IPv6 *)

Definition hex_value (c : ascii) : option Z :=
  let n := nat_of_ascii c in
  if bool_decide (48 ≤ n ∧ n ≤ 57)%nat then Some (Z.of_nat (n - 48))
  else if bool_decide (97 ≤ n ∧ n ≤ 102)%nat then Some (Z.of_nat (n - 87))
  else None.

(** [parseInt(g, 16)] of a string of hexadecimal digits. *)
Fixpoint hex_parse (acc : Z) (s : string) : option Z :=
  match s with
  | EmptyString => Some acc
  | String c s' => v ← hex_value c; hex_parse (acc * 16 + v) s'
  end.

(** [/^[0-9a-f]{1,4}$/] and the value. *)
Definition hex_group (g : string) : option Z :=
  if bool_decide (1 ≤ String.length g ≤ 4)%nat then hex_parse 0 g else None.

Fixpoint hex_text (fuel : nat) (n : Z) : string :=
  match fuel with
  | O => ""
  | S f => if bool_decide (n < 16) then String (hex_digit (Z.to_nat n)) ""
           else (hex_text f (n / 16) ++ String (hex_digit (Z.to_nat (n mod 16))) "")%string
  end.

(** [n.toString(16)] for a 16-bit number. *)
Definition to_hex (n : Z) : string := hex_text 4 n.

(** The leftmost suffix of [s] that satisfies [f]. *)
Fixpoint find_suffix (f : string → bool) (s : string) : option string :=
  if f s then Some s else match s with EmptyString => None | String _ s' => find_suffix f s' end.

(** [/^\d+\.\d+\.\d+\.\d+$/] *)
Definition four_numbers (s : string) : bool :=
  match split_on "."%char s with
  | [_; _; _; _] as parts => forallb (λ p, truthy_str p && all_chars is_digit p) parts
  | _ => false
  end.

(** [s.split('::')] *)
Fixpoint split_colons (fuel : nat) (cur : string) (s : string) : list string :=
  match fuel, s with
  | S f, String ":" (String ":" s') => rev_string "" cur :: split_colons f "" s'
  | S f, String c s' => split_colons f (String c cur) s'
  | _, _ => [rev_string "" cur]
  end.

Definition split_double (s : string) : list string := split_colons (S (String.length s)) "" s.

(** [g.split(':').filter((x) => x.length > 0)] *)
Definition parse_groups (g : string) : list string := filter (λ x, x ≠ "") (split_on ":"%char g).

(** The digits of a group accumulated by the final loop. *)
Definition push_group (n : option Z) (g : string) : option Z :=
  n ← n; v ← hex_group g; Some (Z.shiftl n 16 + v).

(* [src/backend/src/execution/environment.js:345-348] ipv6ToBigInt, normalisation *)
Definition v6_text (ip : string) : string :=
  let s := default "" (head (split_on "%"%char (to_lower ip))) in
  if starts_with "[" s && ends_with "]" s then String.substring 1 (String.length s - 2) s else s.

(* [src/backend/src/execution/environment.js:344-382] ipv6ToBigInt *)
Definition ipv6ToBigInt (ip : string) : option Z :=
  let s := v6_text ip in
  '(s, v4) ← match find_suffix four_numbers s with
             | Some m => n ← ipv4ToInt m;
                         Some (slice0 (String.length s - String.length m) s, Some n)
             | None => Some (s, None)
             end;
  groups ← match split_double s with
           | [l; r] =>
               let l := parse_groups l in
               let r := parse_groups r in
               let missing := 8 - Z.of_nat (length l + length r) - (if v4 is Some _ then 2 else 0) in
               if bool_decide (missing < 0) then None
               else Some (l ++ replicate (Z.to_nat missing) "0"%string ++ r)
           | [one] => Some (parse_groups one)
           | _ => None
           end;
  groups ← match v4 with
           | Some n =>
               if decide (length groups = 6)%nat
               then Some (groups ++ [to_hex (Z.land (Z.shiftr n 16) 0xffff); to_hex (Z.land n 0xffff)])
               else None
           | None => Some groups
           end;
  if decide (length groups = 8)%nat then foldl push_group (Some 0) groups else None.

(* [src/backend/src/execution/environment.js:383-389] ipv6InCidr *)
Definition ipv6InCidr (ipInt : Z) (base : string) (bits : Z) : bool :=
  match ipv6ToBigInt base with
  | Some b =>
      if decide (bits = 0) then true
      else bool_decide (Z.shiftr ipInt (128 - bits) = Z.shiftr b (128 - bits))
  | None => false
  end.

(* [src/backend/src/execution/environment.js:394-403] BLOCKED_V6 *)
Definition BLOCKED_V6 : list (string * Z * string) := [
  ("::1", 128, "loopback"); ("::", 128, "unspecified"); ("fe80::", 10, "link-local");
  ("fc00::", 7, "unique-local"); ("ff00::", 8, "multicast"); ("2001:db8::", 32, "documentation");
  ("::ffff:0:0", 96, "ipv4-mapped"); ("2002::", 16, "6to4-transition"); ("2001::", 32, "teredo-transition");
  ("64:ff9b::", 96, "translation"); ("100::", 64, "discard"); ("::", 96, "ipv4-compatible")]%string.

(** [`${a}.${b}.${c}.${d}`] *)
Definition dotted (a b c d : Z) : string :=
  (string_of_Z a ++ "." ++ string_of_Z b ++ "." ++ string_of_Z c ++ "." ++ string_of_Z d)%string.

(** The first range that contains an address. *)
Definition first_match (inside : string → Z → bool) (ranges : list (string * Z * string)) : option string :=
  snd <$> List.find (λ r : string * Z * string, inside r.1.1 r.1.2) ranges.

(** ** Which addresses are refused *)

(** [/^(?:25[0-5]|2[0-4]\d|1\d\d|[1-9]\d|\d)$/], an octet as [net.isIP] reads it. *)
Definition is_octet_strict (p : string) : bool :=
  is_octet_text p && bool_decide (dec_value 0 p ≤ 255) &&
  match p with String "0" (String _ _) => false | _ => true end.

(** [net.isIPv4]: dotted decimal without leading zeros. *)
Definition isIPv4 (s : string) : bool :=
  match split_on "."%char s with
  | [_; _; _; _] as parts => forallb is_octet_strict parts
  | _ => false
  end.

Section Guard.
Context (isIPv6 : string → bool).

(** [net.isIP] *)
Definition isIP (s : string) : Z := if isIPv4 s then 4 else if isIPv6 s then 6 else 0.

(** [fuel]: the code calls itself on the embedded IPv4 address. *)
(* [src/backend/src/execution/environment.js:406-431] blockedIpReason *)
Fixpoint blocked_ip (fuel : nat) (ip : string) : option string :=
  match fuel with
  | O => None
  | S fuel =>
      if decide (isIP ip = 4) then first_match (λ base bits, ipv4InCidr ip base bits) BLOCKED_V4
      else if decide (isIP ip = 6) then
        match ipv6ToBigInt ip with
        | None => Some "malformed-ip"%string
        | Some n =>
            reason ← first_match (ipv6InCidr n) BLOCKED_V6;
            if bool_decide (reason = "ipv4-mapped" ∨ reason = "ipv4-compatible")%string then
              let inner := dotted (Z.land (Z.shiftr n 24) 255) (Z.land (Z.shiftr n 16) 255)
                             (Z.land (Z.shiftr n 8) 255) (Z.land n 255) in
              match blocked_ip fuel inner with
              | Some innerReason => Some (reason ++ "-" ++ innerReason)%string
              | None => Some reason
              end
            else Some reason
        end
      else Some "not-an-ip"%string
  end.

Definition blockedIpReason (ip : string) : option string := blocked_ip 2 ip.

(** ** Host names *)

(* [src/backend/src/execution/environment.js:433-436] BLOCKED_HOSTNAMES *)
Definition BLOCKED_HOSTNAMES : list string :=
  ["localhost"; "metadata.google.internal"; "metadata.google"; "instance-data"; "instance-data-compute"]%string.
(* [src/backend/src/execution/environment.js:437-437] BLOCKED_SUFFIXES *)
Definition BLOCKED_SUFFIXES : list string :=
  [".local"; ".internal"; ".lan"; ".localhost"; ".localdomain"; ".invalid"; ".test"]%string.

(** [s.replace(/\.$/, '')] *)
Definition strip_dot (s : string) : string :=
  if ends_with "." s then slice0 (String.length s - 1) s else s.

(** Brackets around the whole text go; [.] matches no line break. *)
Definition strip_brackets (s : string) : string :=
  if starts_with "[" s && ends_with "]" s && bool_decide (2 ≤ String.length s)%nat then
    let inner := String.substring 1 (String.length s - 2) s in
    if single_line inner then inner else s
  else s.

(* [src/backend/src/execution/environment.js:441-444] normalizeHostname *)
Definition normalizeHostname (raw : string) : string := strip_brackets (strip_dot (to_lower raw)).

(* [src/backend/src/execution/environment.js:439-439] METADATA_HOST_RES *)
Definition metadata_host (h : string) : bool :=
  starts_with "metadata." h || starts_with "instance-data" h || bool_decide (h = "169.254.169.254"%string).

(* [src/backend/src/execution/environment.js:446-458] blockedHostnameReason *)
Definition blockedHostnameReason (host : string) : option string :=
  let h := normalizeHostname host in
  if negb (truthy_str h) then Some "empty-host"%string
  else if contains ".." h then Some "double-dot-hostname"%string
  else if bool_decide (h ∈ BLOCKED_HOSTNAMES) then Some "blocked-hostname"%string
  else if existsb (λ sfx, bool_decide (h = string_drop 1 sfx) || ends_with sfx h) BLOCKED_SUFFIXES
       then Some "private-suffix"%string
  else if metadata_host h then Some "metadata-host"%string
  else None.

(** ** URLs *)

(** What the code reads of a parsed URL; [href] is [u.toString()]. *)
Record url := Url {
  protocol : string; username : string; password : string;
  hostname : string; pathname : string; href : string;
}.

Context (parse_url : string → option url).
Context (resolve_url : string → url → option url).

Definition deny (msg : string) : js_error := JsError (Some "denied"%string) msg.
Definition bad_params (msg : string) : js_error := JsError (Some "bad_params"%string) msg.

(** [(policy && policy.networkAccess) || 'disabled'] *)
Definition network_mode (policy : option policy) : string :=
  match policy with Some p => or_str (networkAccess p) "disabled" | None => "disabled" end.

Definition allowlist (policy : option policy) : list string :=
  match policy with Some p => networkAllowlist p | None => [] end.

(* [src/backend/src/execution/environment.js:497-497] allowlist match *)
Definition allowlisted (host : string) (allow : list string) : bool :=
  existsb (λ a, bool_decide (host = normalizeHostname a) || ends_with ("." ++ normalizeHostname a) host) allow.

(* [src/backend/src/execution/environment.js:478-480] traversal test *)
Definition has_traversal (path raw : string) : bool :=
  existsb (λ t, contains t path) [".."; "%2e%2e"; "%252e%252e"]%string ||
  existsb (λ t, contains t raw) [".."; "%2e%2e"; "%252e%252e"; "%2f"; "@"]%string.

(* [src/backend/src/execution/environment.js:460-501] parseAndGuardUrl *)
Definition parseAndGuardUrl (raw : string) (policy : option policy) : res url :=
  match parse_url raw with
  | None => Throw (bad_params "invalid URL")
  | Some u =>
      let host := normalizeHostname (hostname u) in
      let mode := network_mode policy in
      if negb (bool_decide (protocol u ∈ ["http:"; "https:"]%string)) then
        Throw (deny ("protocol not allowed: " ++ protocol u))
      else if truthy_str (username u) || truthy_str (password u) then
        Throw (deny "URLs with embedded credentials are rejected")
      else if negb (truthy_str host) then Throw (bad_params "URL has no hostname")
      else if has_traversal (pathname u) raw then Throw (deny "blocked URL pathname traversal (..)")
      else
        match if bool_decide (isIP host ≠ 0)
              then (λ r, "blocked IP target (" ++ r ++ "): " ++ host)%string <$> blockedIpReason host
              else (λ r, "blocked host (" ++ r ++ "): " ++ host)%string <$> blockedHostnameReason host with
        | Some msg => Throw (deny msg)
        | None =>
            if bool_decide (mode = NetworkMode.value NetworkMode.DISABLED) then
              Throw (deny "network access disabled by policy")
            else if bool_decide (mode = NetworkMode.value NetworkMode.ALLOWLIST) &&
                    negb (allowlisted host (allowlist policy)) then
              Throw (deny ("host not in network allowlist: " ++ host))
            else Ok u
        end
  end.

(* [src/backend/src/execution/environment.js:534-539] schemeAllowedForPolicy *)
Definition schemeAllowedForPolicy (protocol : string) (policy : option policy) : bool :=
  bool_decide (protocol = "https:"%string) ||
  match policy with
  | Some p => bool_decide (networkAccess p = NetworkMode.value NetworkMode.ENABLED)
  | None => false
  end.

(** ** The environment, recorded *)

(** How an HTTP exchange ended for the code. *)
Inductive ending := Ended | StreamError (msg : string) | TimerFired.
Inductive exchange :=
| ConnectTimeout
| RequestFailed (msg : string)
| Answer (status : Z) (location : option string) (chunks : list string) (e : ending).

Inductive net_event :=
| EvLookup (host : string) (answer : option (list string))
| EvRequest (u : url) (contacted : option string).

Context (lookupAll : nat → string → option (list string)).
Context (connectAddress : nat → string → option string).
Context (doRequest : nat → url → exchange).

(** Programs over the record of what was asked; answers depend on its length. *)
Local Abbreviation Net := (M (list net_event)).

Definition ask_dns (host : string) : Net (option (list string)) := λ log,
  let a := lookupAll (length log) host in (log ++ [EvLookup host a], Ok a).

(** The address a connection to [u] goes to: the host when it is an address,
    else what the stack resolves it to, on its own. *)
(* [src/backend/src/execution/environment.js:643-646] doRequest, lib.get *)
Definition contact (n : nat) (u : url) : option string :=
  let host := normalizeHostname (hostname u) in
  if bool_decide (isIP host ≠ 0) then Some host else connectAddress n host.

(* [src/backend/src/execution/environment.js:638-650] doRequest *)
Definition send (u : url) : Net exchange := λ log,
  (log ++ [EvRequest u (contact (length log) u)], Ok (doRequest (length log) u)).

(** The first address that is refused. *)
Definition blocked_address (addrs : list string) : option (string * string) :=
  head (omap (λ a, (λ r, (a, r)) <$> blockedIpReason a) addrs).

(* [src/backend/src/execution/environment.js:507-532] resolveAndGuardHost *)
Definition resolveAndGuardHost (hostname : string) : Net (list string) :=
  let host := normalizeHostname hostname in
  if bool_decide (isIP host ≠ 0) then
    match blockedIpReason host with
    | Some r => throw (deny ("blocked IP target (" ++ r ++ "): " ++ host)%string)
    | None => mret [host]
    end
  else
    records ← ask_dns host;
    match records with
    | None => throw (deny ("DNS resolution failed for " ++ host ++ ": cannot verify target is public")%string)
    | Some [] => throw (deny ("no DNS records for " ++ host)%string)
    | Some addrs =>
        match blocked_address addrs with
        | Some (a, r) => throw (deny ("hostname " ++ host ++ " resolves to blocked address " ++ a ++ " (" ++ r ++ ")")%string)
        | None => mret addrs
        end
    end.

Record fetched := Fetched { f_url : string; f_status : Z; f_body : string; f_bytes : Z }.

Definition total_length (chunks : list string) : Z :=
  foldr (λ c n, Z.of_nat (String.length c) + n) 0 chunks.

Definition fetch_timeout : js_error := JsError (Some "timeout"%string) "fetch timed out".
Definition oversized : js_error := JsError (Some "oversized"%string) "response exceeds the byte limit".
Definition fetch_failure (msg : string) : js_error := JsError (Some "fetch_failure"%string) ("fetch failed: " ++ msg).

(** The chunks kept stop at the one that passes the limit. *)
(* [src/backend/src/execution/environment.js:602-628] consumeBounded *)
Definition consumeBounded (chunks : list string) (e : ending) (maxBytes : Z) : res (string * Z) :=
  let bytes := total_length chunks in
  match e with
  | TimerFired => Throw fetch_timeout
  | Ended => if bool_decide (maxBytes < bytes) then Throw oversized else Ok (String.concat "" chunks, bytes)
  | StreamError msg => if bool_decide (maxBytes < bytes) then Throw oversized else Throw (fetch_failure msg)
  end.

(* [src/backend/src/execution/environment.js:572-572] redirect test *)
Definition is_redirect (status : Z) (location : option string) : bool :=
  bool_decide (status ∈ [301; 302; 303; 307; 308]) && truthy location.

Definition check (b : bool) (e : js_error) : Net unit := if b then mret tt else throw e.

(** [n = maxRedirects - redirects]. *)
(* [src/backend/src/execution/environment.js:555-599] fetchHop *)
Fixpoint fetchHop (n : nat) (policy : option policy) (maxBytes : Z) (target : url) : Net fetched :=
  guarded ← lift (parseAndGuardUrl (href target) policy);
  _ ← check (schemeAllowedForPolicy (protocol guarded) policy)
        (deny "redirect to non-https URL is not allowed under restricted network policy");
  _ ← resolveAndGuardHost (hostname guarded);
  answer ← send guarded;
  match answer with
  | ConnectTimeout => throw fetch_timeout
  | RequestFailed msg =>
      throw (if contains "timed out" (to_lower msg)
             then JsError (Some "timeout"%string) ("fetch failed: " ++ msg) else fetch_failure msg)
  | Answer status location chunks e =>
      if is_redirect status location then
        match n with
        | O => throw (JsError (Some "redirect_limit"%string) "too many redirects")
        | S n =>
            match resolve_url (default ""%string location) guarded with
            | None => throw (JsError (Some "ERR_INVALID_URL"%string) "Invalid URL")
            | Some next => fetchHop n policy maxBytes next
            end
        end
      else
        '(body, bytes) ← lift (consumeBounded chunks e maxBytes);
        mret (Fetched (href guarded) status body bytes)
  end.

(* [src/backend/src/execution/environment.js:541-550] fetchUrlGuarded *)
Definition fetchUrlGuarded (rawUrl : string) (policy : option policy) (maxBytes : Z) (maxRedirects : nat)
    : Net fetched :=
  startUrl ← lift (parseAndGuardUrl rawUrl policy);
  _ ← check (schemeAllowedForPolicy (protocol startUrl) policy)
        (deny "only https URLs are allowed under restricted network policy");
  _ ← resolveAndGuardHost (hostname startUrl);
  fetchHop maxRedirects policy maxBytes startUrl.

Record tool_fetched := ToolFetched { t_status : Z; t_body : string; t_truncated : bool; t_bytes : Z }.

(** [maxBytes]: [Number(params.maxBytes)], 0 when it is not a number. *)
(* [src/backend/src/impl/tool-executor.js:558-568] handleFetchUrl *)
Definition handleFetchUrl (rawUrl : string) (policy : option policy) (maxBytes : Z) : Net tool_fetched :=
  if negb (truthy_str rawUrl) then throw (bad_params "url is required")
  else
    r ← fetchUrlGuarded rawUrl policy (Z.min (if decide (maxBytes = 0) then 65536 else maxBytes) 262144) 3;
    mret (ToolFetched (f_status r) (slice0 (Z.to_nat 8000) (f_body r))
            (bool_decide (8000 < Z.of_nat (String.length (f_body r)))) (f_bytes r)).
End Guard.

(** ** Arithmetic of the ranges *)

Lemma to_uint32_ones z : to_uint32 z = Z.land z (Z.ones 32).
Proof. unfold to_uint32. by rewrite Z.land_ones. Qed.

Lemma to_uint32_small z : 0 ≤ z < 2 ^ 32 → to_uint32 z = z.
Proof. intros. unfold to_uint32. by apply Z.mod_small. Qed.

Lemma to_uint32_int32 z : to_uint32 (to_int32 z) = to_uint32 z.
Proof.
  unfold to_int32. case_bool_decide; unfold to_uint32; [by rewrite Z.mod_mod|].
  replace (z mod 2 ^ 32 - 2 ^ 32) with (z mod 2 ^ 32 + (-1) * 2 ^ 32) by lia.
  by rewrite Z.mod_add, Z.mod_mod.
Qed.

Lemma js_and_uint32 a b :
  0 ≤ a < 2 ^ 32 → 0 ≤ b < 2 ^ 32 → to_uint32 (js_and a b) = Z.land a b.
Proof.
  intros Ha Hb. unfold js_and. rewrite to_uint32_int32, to_uint32_ones.
  assert (∀ x, 0 ≤ x < 2 ^ 32 → Z.land (to_int32 x) (Z.ones 32) = x) as H.
  { intros x Hx. rewrite <- to_uint32_ones, to_uint32_int32. by apply to_uint32_small. }
  rewrite <- (H a Ha) at 2. rewrite <- (H b Hb) at 2.
  rewrite !Z.land_assoc, <- (Z.land_assoc (to_int32 a) (Z.ones 32) (to_int32 b)), (Z.land_comm (Z.ones 32) (to_int32 b)).
  rewrite !Z.land_assoc, <- (Z.land_assoc _ (Z.ones 32) (Z.ones 32)), Z.land_diag. done.
Qed.

(** Masking off the low bits compares the high ones. *)
Lemma masked n k : 0 ≤ n < 2 ^ 32 → 0 ≤ k ≤ 32 →
  Z.land n (Z.ldiff (Z.ones 32) (Z.ones k)) = Z.shiftl (Z.shiftr n k) k.
Proof.
  intros Hn Hk. rewrite <- Z.ldiff_ones_r by lia. rewrite !Z.ldiff_land, Z.land_assoc.
  rewrite <- to_uint32_ones, to_uint32_small by done. done.
Qed.

Lemma masked_eq n b k : 0 ≤ n < 2 ^ 32 → 0 ≤ b < 2 ^ 32 → 0 ≤ k ≤ 32 →
  Z.land n (Z.ldiff (Z.ones 32) (Z.ones k)) = Z.land b (Z.ldiff (Z.ones 32) (Z.ones k)) ↔
  n / 2 ^ k = b / 2 ^ k.
Proof.
  intros Hn Hb Hk. rewrite !masked by done. rewrite !Z.shiftl_mul_pow2, !Z.shiftr_div_pow2 by lia.
  split; [|by intros ->]. intros E. apply Z.mul_cancel_r in E; [done|lia].
Qed.

(** The mask of a prefix length in the table. *)
Definition v4_mask (bits : Z) : Z :=
  if decide (bits = 32) then 0xffffffff else to_uint32 (js_shl 0xffffffff (32 - bits)).

Lemma ipv4InCidr_spec ip base n b bits :
  ipv4ToInt ip = Some n → ipv4ToInt base = Some b → 0 ≤ n < 2 ^ 32 → 0 ≤ b < 2 ^ 32 → 1 ≤ bits ≤ 32 →
  v4_mask bits = Z.ldiff (Z.ones 32) (Z.ones (32 - bits)) →
  ipv4InCidr ip base bits = bool_decide (n / 2 ^ (32 - bits) = b / 2 ^ (32 - bits)).
Proof.
  intros En Eb Hn Hb Hbits Hm. unfold ipv4InCidr. rewrite En, Eb, decide_False by lia.
  fold (v4_mask bits). rewrite Hm.
  assert (0 ≤ Z.ldiff (Z.ones 32) (Z.ones (32 - bits)) < 2 ^ 32) as Hr.
  { rewrite <- Hm. unfold v4_mask. case_decide; [lia|]. unfold to_uint32. apply Z.mod_pos_bound. lia. }
  rewrite !js_and_uint32 by done. apply bool_decide_ext. by apply masked_eq; [..|lia].
Qed.

Lemma first_match_None inside ranges :
  first_match inside ranges = None ↔ Forall (λ r, inside r.1.1 r.1.2 = false) ranges.
Proof.
  unfold first_match. induction ranges as [|r rs IH]; simpl; [split; [by constructor|done]|].
  rewrite Forall_cons. destruct (inside r.1.1 r.1.2); simpl; [naive_solver|]. rewrite IH. naive_solver.
Qed.

(** ** Dotted decimal text *)

Definition octet_ok (z : Z) : bool :=
  let p := string_of_Z z in
  is_octet_strict p && bool_decide (dec_value 0 p = z) && negb (any_char (λ c, bool_decide (c = "."%char)) p).

Lemma octets_ok : forallb octet_ok (Z.of_nat <$> seq 0 256) = true.
Proof. vm_compute. reflexivity. Qed.

Lemma octet_text z : 0 ≤ z ≤ 255 →
  is_octet_strict (string_of_Z z) = true ∧ dec_value 0 (string_of_Z z) = z ∧
  any_char (λ c, bool_decide (c = "."%char)) (string_of_Z z) = false.
Proof.
  intros Hz. pose proof octets_ok as H. rewrite forallb_forall in H. specialize (H z).
  unfold octet_ok in H. rewrite !andb_true_iff, negb_true_iff, bool_decide_eq_true in H.
  destruct H as [[? ?] ?]; [|done]. apply list_elem_of_In, list_elem_of_fmap. exists (Z.to_nat z).
  split; [lia|]. apply elem_of_seq. lia.
Qed.

Lemma split_on_sep c p s :
  any_char (λ x, bool_decide (x = c)) p = false →
  split_on c (p ++ String c s)%string = p :: split_on c s.
Proof.
  induction p as [|x p IH]; simpl; [by rewrite decide_True|].
  intros [Hx Hp]%orb_false_iff. apply bool_decide_eq_false in Hx. by rewrite decide_False, IH.
Qed.

Lemma split_on_none c p : any_char (λ x, bool_decide (x = c)) p = false → split_on c p = [p].
Proof.
  induction p as [|x p IH]; simpl; [done|]. intros [Hx Hp]%orb_false_iff. apply bool_decide_eq_false in Hx.
  by rewrite decide_False, IH.
Qed.

Section Dotted.
Context (a b c d : Z) (Ha : 0 ≤ a ≤ 255) (Hb : 0 ≤ b ≤ 255) (Hc : 0 ≤ c ≤ 255) (Hd : 0 ≤ d ≤ 255).

Lemma split_dotted :
  split_on "."%char (dotted a b c d) = [string_of_Z a; string_of_Z b; string_of_Z c; string_of_Z d].
Proof using Ha Hb Hc Hd.
  assert (dotted a b c d = string_of_Z a ++ String "." (string_of_Z b ++ String "." (string_of_Z c ++ String "." (string_of_Z d))))%string
    as -> by done.
  rewrite (split_on_sep _ (string_of_Z a)) by (by apply octet_text).
  rewrite (split_on_sep _ (string_of_Z b)) by (by apply octet_text).
  rewrite (split_on_sep _ (string_of_Z c)) by (by apply octet_text).
  by rewrite (split_on_none _ (string_of_Z d)) by (by apply octet_text).
Qed.

Lemma dotted_isIPv4 : isIPv4 (dotted a b c d) = true.
Proof using Ha Hb Hc Hd.
  unfold isIPv4. rewrite split_dotted. simpl.
  destruct (octet_text a), (octet_text b), (octet_text c), (octet_text d); try done.
  by rewrite !andb_true_iff.
Qed.

Lemma octet_step n z : 0 ≤ z ≤ 255 → 0 ≤ n < 2 ^ 24 → octet (Some n) (string_of_Z z) = Some (n * 256 + z).
Proof using.
  intros Hz Hn. destruct (octet_text z Hz) as (Ht & Ev & _). unfold octet. simpl.
  unfold is_octet_strict in Ht. rewrite !andb_true_iff in Ht. destruct Ht as [[-> _] _].
  rewrite Ev, bool_decide_eq_false_2 by lia. by rewrite to_uint32_small by lia.
Qed.

Lemma dotted_value : ipv4ToInt (dotted a b c d) = Some (((a * 256 + b) * 256 + c) * 256 + d).
Proof using Ha Hb Hc Hd.
  unfold ipv4ToInt. rewrite split_dotted. cbn [foldl]. rewrite !octet_step by lia. simpl.
  f_equal. rewrite to_uint32_small by lia. lia.
Qed.
End Dotted.

(** ** The reference: public addresses by their bytes *)

(** Not loopback, private, link-local, carrier-grade NAT, documentation, relay,
    multicast, reserved, unspecified or broadcast. *)
Definition public_v4 (a b c : Z) : Prop :=
  a ≠ 0 ∧ a ≠ 10 ∧ a ≠ 127 ∧ a < 224 ∧
  ¬ (a = 100 ∧ 64 ≤ b < 128) ∧ ¬ (a = 169 ∧ b = 254) ∧ ¬ (a = 172 ∧ 16 ≤ b < 32) ∧ ¬ (a = 192 ∧ b = 168) ∧
  ¬ (a = 192 ∧ b = 0 ∧ c = 2) ∧ ¬ (a = 192 ∧ b = 88 ∧ c = 99) ∧
  ¬ (a = 198 ∧ b = 51 ∧ c = 100) ∧ ¬ (a = 203 ∧ b = 0 ∧ c = 113).

(** Outside ::/96 and ::ffff:0:0/96 (embedded IPv4), fe80::/10, fc00::/7,
    ff00::/8, the documentation, transition, translation and discard prefixes. *)
Definition public_v6 (n : Z) : Prop :=
  n / 2 ^ 32 ≠ 0 ∧ n / 2 ^ 32 ≠ 0xffff ∧ n / 2 ^ 118 ≠ 0x3fa ∧ n / 2 ^ 121 ≠ 0x7e ∧ n / 2 ^ 120 ≠ 0xff ∧
  n / 2 ^ 96 ≠ 0x20010db8 ∧ n / 2 ^ 112 ≠ 0x2002 ∧ n / 2 ^ 96 ≠ 0x20010000 ∧
  n / 2 ^ 32 ≠ 0x64ff9b * 2 ^ 64 ∧ n / 2 ^ 64 ≠ 0x100 * 2 ^ 48.

Section Ranges.
Context (isIPv6 : string → bool).
Local Abbreviation reason := (blockedIpReason isIPv6).

(** Dividing the 32-bit value reads off the leading bytes. *)
Lemma v4_prefixes a b c d :
  0 ≤ b ≤ 255 → 0 ≤ c ≤ 255 → 0 ≤ d ≤ 255 → let n := ((a * 256 + b) * 256 + c) * 256 + d in
  n / 2 ^ 24 = a ∧ n / 2 ^ 28 = a / 16 ∧ n / 2 ^ 20 = a * 16 + b / 16 ∧ n / 2 ^ 22 = a * 4 + b / 64 ∧
  n / 2 ^ 16 = a * 256 + b ∧ n / 2 ^ 8 = (a * 256 + b) * 256 + c ∧ n / 2 ^ 0 = n.
Proof using. intros Hb Hc Hd n. unfold n. repeat split; first [apply Z.div_1_r|Z.div_mod_to_equations; lia]. Qed.

(** The same for each prefix of the table. *)
Lemma v4_bytes a b c d :
  0 ≤ a ≤ 255 → 0 ≤ b ≤ 255 → 0 ≤ c ≤ 255 → 0 ≤ d ≤ 255 →
  (a * 16 + b / 16 = 2753 ↔ a = 172 ∧ 16 ≤ b < 32) ∧ (a * 4 + b / 64 = 401 ↔ a = 100 ∧ 64 ≤ b < 128) ∧
  (a * 256 + b = 49320 ↔ a = 192 ∧ b = 168) ∧ (a * 256 + b = 43518 ↔ a = 169 ∧ b = 254) ∧
  ((a * 256 + b) * 256 + c = 12582914 ↔ a = 192 ∧ b = 0 ∧ c = 2) ∧
  ((a * 256 + b) * 256 + c = 12605539 ↔ a = 192 ∧ b = 88 ∧ c = 99) ∧
  ((a * 256 + b) * 256 + c = 12989284 ↔ a = 198 ∧ b = 51 ∧ c = 100) ∧
  ((a * 256 + b) * 256 + c = 13303921 ↔ a = 203 ∧ b = 0 ∧ c = 113) ∧
  (a / 16 ≠ 14 ∧ a / 16 ≠ 15 ↔ a < 224) ∧
  (a < 224 → ((a * 256 + b) * 256 + c) * 256 + d ≠ 4294967295).
Proof using.
  intros Ha Hb Hc Hd. split; [Z.div_mod_to_equations; lia|]. split; [Z.div_mod_to_equations; lia|].
  do 6 (split; [lia|]). split; [Z.div_mod_to_equations; lia|lia].
Qed.

Ltac closed_quotients := repeat match goal with
  | |- context [Z.pos ?p / ?y] => let v := eval vm_compute in (Z.pos p / y) in change (Z.pos p / y) with v
  | |- context [0 / ?y] => change (0 / y) with 0
  end.

Lemma v4_ranges a b c d :
  0 ≤ a ≤ 255 → 0 ≤ b ≤ 255 → 0 ≤ c ≤ 255 → 0 ≤ d ≤ 255 →
  first_match (λ base bits, ipv4InCidr (dotted a b c d) base bits) BLOCKED_V4 = None ↔ public_v4 a b c.
Proof using.
  intros Ha Hb Hc Hd. rewrite first_match_None.
  pose proof (dotted_value a b c d Ha Hb Hc Hd) as En.
  destruct (v4_prefixes a b c d Hb Hc Hd) as (P24 & P28 & P20 & P22 & P16 & P8 & P0).
  set (n := ((a * 256 + b) * 256 + c) * 256 + d) in *.
  assert (0 ≤ n < 2 ^ 32) as Hn by lia.
  assert (∀ base bits m k, ipv4ToInt base = Some m → 0 ≤ m < 2 ^ 32 → 1 ≤ bits ≤ 32 → k = 32 - bits →
    v4_mask bits = Z.ldiff (Z.ones 32) (Z.ones (32 - bits)) →
    ipv4InCidr (dotted a b c d) base bits = bool_decide (n / 2 ^ k = m / 2 ^ k)) as Hin.
  { intros base bits m k Em Hm Hbits -> Hmask. by apply ipv4InCidr_spec. }
  unfold BLOCKED_V4. rewrite !Forall_cons, Forall_nil. cbn [fst snd].
  erewrite (Hin "127.0.0.0"%string 8 _ 24), (Hin "10.0.0.0"%string 8 _ 24), (Hin "172.16.0.0"%string 12 _ 20),
    (Hin "192.168.0.0"%string 16 _ 16), (Hin "169.254.0.0"%string 16 _ 16), (Hin "224.0.0.0"%string 4 _ 28),
    (Hin "0.0.0.0"%string 8 _ 24), (Hin "255.255.255.255"%string 32 _ 0), (Hin "240.0.0.0"%string 4 _ 28),
    (Hin "100.64.0.0"%string 10 _ 22), (Hin "192.0.2.0"%string 24 _ 8), (Hin "198.51.100.0"%string 24 _ 8),
    (Hin "203.0.113.0"%string 24 _ 8), (Hin "192.88.99.0"%string 24 _ 8);
    [|first [vm_compute; reflexivity|vm_compute; split; congruence|lia]..].
  rewrite P24, P28, P20, P22, P16, P8, P0. rewrite !bool_decide_eq_false.
  pose proof (v4_bytes a b c d Ha Hb Hc Hd) as (E1 & E2 & E3 & E4 & E5 & E6 & E7 & E8 & E9 & E10).
  fold n in E10. unfold public_v4. closed_quotients.
  rewrite E1, E2, E3, E4, E5, E6, E7, E8, <- E9. clear - E10 E9.
  split; intros H; decompose [and] H; split_and!; first [done|apply E10, E9; done].
Qed.

Lemma v4_guard a b c d :
  0 ≤ a ≤ 255 → 0 ≤ b ≤ 255 → 0 ≤ c ≤ 255 → 0 ≤ d ≤ 255 →
  reason (dotted a b c d) = None ↔ public_v4 a b c.
Proof using.
  intros Ha Hb Hc Hd. unfold blockedIpReason. cbn [blocked_ip]. unfold isIP.
  rewrite dotted_isIPv4 by done. rewrite decide_True by done. by apply v4_ranges.
Qed.
Lemma v6_ranges n : first_match (ipv6InCidr n) BLOCKED_V6 = None ↔ public_v6 n.
Proof using.
  rewrite first_match_None.
  assert (∀ base bits m k v, ipv6ToBigInt base = Some m → bits ≠ 0 → k = 128 - bits → 0 ≤ k → m / 2 ^ k = v →
    ipv6InCidr n base bits = bool_decide (n / 2 ^ k = v)) as Hin.
  { intros base bits m k v Em Hb -> Hk <-. unfold ipv6InCidr. rewrite Em, decide_False by done.
    by rewrite !Z.shiftr_div_pow2. }
  unfold BLOCKED_V6. rewrite !Forall_cons, Forall_nil. cbn [fst snd].
  erewrite (Hin "::1"%string 128 _ 0 1), (Hin "::"%string 128 _ 0 0), (Hin "fe80::"%string 10 _ 118 0x3fa),
    (Hin "fc00::"%string 7 _ 121 0x7e), (Hin "ff00::"%string 8 _ 120 0xff),
    (Hin "2001:db8::"%string 32 _ 96 0x20010db8), (Hin "::ffff:0:0"%string 96 _ 32 0xffff),
    (Hin "2002::"%string 16 _ 112 0x2002), (Hin "2001::"%string 32 _ 96 0x20010000),
    (Hin "64:ff9b::"%string 96 _ 32 (0x64ff9b * 2 ^ 64)), (Hin "100::"%string 64 _ 64 (0x100 * 2 ^ 48)),
    (Hin "::"%string 96 _ 32 0);
    [|first [vm_compute; reflexivity|done|lia]..].
  rewrite !bool_decide_eq_false, Z.div_1_r. unfold public_v6.
  assert (n / 2 ^ 32 ≠ 0 → n ≠ 1 ∧ n ≠ 0) as H0 by (intros Hn; split; intros ->; apply Hn; reflexivity).
  split; intros H; decompose [and] H; repeat apply conj; first [assumption|exact I|apply H0; assumption].
Qed.

Lemma v6_reason f s n :
  isIP isIPv6 s = 6 → ipv6ToBigInt s = Some n →
  blocked_ip isIPv6 (S f) s = None ↔ first_match (ipv6InCidr n) BLOCKED_V6 = None.
Proof using.
  intros E En. cbn [blocked_ip]. rewrite E, decide_False, decide_True, En by done.
  generalize (first_match (ipv6InCidr n) BLOCKED_V6). intros [r|]; cbn [mbind option_bind]; [|done].
  split; [|done]. case_bool_decide; [|done]. by case_match.
Qed.

Lemma v6_guard s n :
  isIPv4 s = false → isIPv6 s = true → ipv6ToBigInt s = Some n → reason s = None ↔ public_v6 n.
Proof using.
  intros H4 H6 En. rewrite <- v6_ranges. apply v6_reason; [|done]. unfold isIP. by rewrite H4, H6.
Qed.
End Ranges.

(** The address test is exact.  For every dotted-decimal address the code's
    masked 32-bit comparisons against its CIDR table refuse exactly the
    loopback, private, link-local, CGNAT, documentation, relay, multicast,
    reserved and broadcast addresses, stated by their bytes; for every IPv6
    text with a value, its BigInt shifts refuse exactly the listed prefixes, so
    that no IPv4-mapped or IPv4-compatible address passes; any other text is
    refused. *)
Theorem ip_guard_exact isIPv6 :
  (∀ a b c d, 0 ≤ a ≤ 255 → 0 ≤ b ≤ 255 → 0 ≤ c ≤ 255 → 0 ≤ d ≤ 255 →
    blockedIpReason isIPv6 (dotted a b c d) = None ↔ public_v4 a b c) ∧
  (∀ s, isIPv4 s = false → isIPv6 s = true →
    blockedIpReason isIPv6 s = None ↔ ∃ n, ipv6ToBigInt s = Some n ∧ public_v6 n) ∧
  (∀ s, isIPv4 s = false → isIPv6 s = false → blockedIpReason isIPv6 s = Some "not-an-ip"%string).
Proof.
  split; [apply v4_guard|split].
  - intros s H4 H6. destruct (ipv6ToBigInt s) as [n|] eqn:En.
    + rewrite (v6_guard isIPv6 s n) by done. naive_solver.
    + unfold blockedIpReason. cbn [blocked_ip]. unfold isIP. rewrite H4, H6, decide_False, decide_True, En by done.
      naive_solver.
  - intros s H4 H6. unfold blockedIpReason. cbn [blocked_ip]. unfold isIP. by rewrite H4, H6, !decide_False by done.
Qed.

Lemma ip_guard_exact_witness :
  blockedIpReason (λ _, true) "93.184.216.34" = None ∧
  blockedIpReason (λ _, true) "172.31.0.1" = Some "rfc1918"%string ∧
  blockedIpReason (λ _, true) "2606:4700::1111" = None ∧
  blockedIpReason (λ _, true) "::ffff:169.254.169.254" = Some "ipv4-mapped-link-local"%string.
Proof.
  destruct (ip_guard_exact (λ _, true)) as (H4 & H6 & _). split; [|split; [vm_compute; reflexivity|split; [|vm_compute; reflexivity]]].
  - apply (H4 93 184 216 34); [lia..|]. unfold public_v4. lia.
  - apply (H6 "2606:4700::1111"%string); [reflexivity..|]. eexists. split; [vm_compute; reflexivity|].
    repeat split; vm_compute; congruence.
Defined.

(** ** What a fetch contacts *)

Definition is_request (e : net_event) : Prop := match e with EvRequest _ _ => True | _ => False end.

#[export] Instance is_request_dec e : Decision (is_request e).
Proof. destruct e; simpl; apply _. Defined.

Section Fetch.
Context (isIPv6 : string → bool) (parse_url : string → option url) (resolve_url : string → url → option url).
Context (lookupAll : nat → string → option (list string)) (connectAddress : nat → string → option string).
Context (doRequest : nat → url → exchange).
Context (policy : option policy).


(** The URL itself passed the guard. *)
Record safe_url (u : url) : Prop := {
  su_protocol : protocol u = "http:"%string ∨ protocol u = "https:"%string;
  su_scheme : protocol u = "https:"%string ∨ network_mode policy = NetworkMode.value NetworkMode.ENABLED;
  su_credentials : username u = ""%string ∧ password u = ""%string;
  su_mode : network_mode policy ≠ NetworkMode.value NetworkMode.DISABLED;
  su_allow : network_mode policy = NetworkMode.value NetworkMode.ALLOWLIST →
    ∃ a, a ∈ allowlist policy ∧
      let host := normalizeHostname (hostname u) in
      (host = normalizeHostname a ∨ ends_with ("." ++ normalizeHostname a) host = true);
  su_ip : isIP isIPv6 (normalizeHostname (hostname u)) ≠ 0 →
    blockedIpReason isIPv6 (normalizeHostname (hostname u)) = None;
  su_name : isIP isIPv6 (normalizeHostname (hostname u)) = 0 →
    blockedHostnameReason (normalizeHostname (hostname u)) = None;
}.

(** Every request of the log is to a safe URL and, unless its host is an
    address, comes right after a lookup that answered only public addresses. *)
Definition log_ok (log : list net_event) : Prop :=
  ∀ i u x, log !! i = Some (EvRequest u x) →
    safe_url u ∧
    (isIP isIPv6 (normalizeHostname (hostname u)) ≠ 0 → x = Some (normalizeHostname (hostname u))) ∧
    (isIP isIPv6 (normalizeHostname (hostname u)) = 0 →
     ∃ k addrs, i = S k ∧ log !! k = Some (EvLookup (normalizeHostname (hostname u)) (Some addrs)) ∧
       addrs ≠ [] ∧ ∀ a, a ∈ addrs → blockedIpReason isIPv6 a = None).

Lemma truthy_str_false s : truthy_str s = false → s = ""%string.
Proof. by destruct s. Qed.

Lemma guard_safe raw u :
  parseAndGuardUrl isIPv6 parse_url raw policy = Ok u →
  schemeAllowedForPolicy (protocol u) policy = true → safe_url u.
Proof.
  unfold parseAndGuardUrl. destruct (parse_url raw) as [v|]; [|done].
  destruct (negb (bool_decide (protocol v ∈ _))) eqn:Ep; [done|].
  destruct (truthy_str (username v) || truthy_str (password v)) eqn:Ec; [done|].
  destruct (negb (truthy_str _)); [done|]. destruct (has_traversal _ _); [done|].
  destruct (if bool_decide (isIP _ _ ≠ 0) then _ else _) eqn:Eb; [done|].
  destruct (bool_decide (network_mode policy = _)) eqn:Ed; [done|].
  destruct (bool_decide (network_mode policy = _) && _) eqn:Ea; [done|]. intros [= ->] Es.
  apply negb_false_iff, bool_decide_eq_true in Ep. apply bool_decide_eq_false in Ed.
  apply orb_false_iff in Ec as [Eu Epw]. split.
  - rewrite !elem_of_cons, elem_of_nil in Ep. tauto.
  - unfold schemeAllowedForPolicy in Es. apply orb_true_iff in Es as [Es%bool_decide_eq_true|Es]; [by left|right].
    destruct policy as [p|]; [|done]. apply bool_decide_eq_true in Es. simpl. by rewrite Es.
  - split; by apply truthy_str_false.
  - done.
  - intros Em. rewrite Em in Ea. rewrite bool_decide_eq_true_2 in Ea by done. simpl in Ea.
    apply negb_false_iff in Ea. unfold allowlisted in Ea. apply existsb_exists in Ea as (a & Ha & Hm).
    exists a. split; [by apply list_elem_of_In|]. apply orb_true_iff in Hm as [Hm%bool_decide_eq_true|Hm]; auto.
  - intros Hi. rewrite bool_decide_eq_true_2 in Eb by done. by apply fmap_None in Eb.
  - intros Hi. rewrite bool_decide_eq_false_2 in Eb by lia. by apply fmap_None in Eb.
Qed.

Lemma blocked_address_None addrs :
  blocked_address isIPv6 addrs = None → ∀ a, a ∈ addrs → blockedIpReason isIPv6 a = None.
Proof.
  unfold blocked_address. induction addrs as [|b addrs IH]; [by intros _ ? ?%not_elem_of_nil|].
  cbn [omap list_omap]. destruct (blockedIpReason isIPv6 b) eqn:Eb; simpl; [done|].
  intros H a [->|Ha]%elem_of_cons; [done|]. by apply IH.
Qed.

Lemma resolve_spec h log :
  let host := normalizeHostname h in
  let out := resolveAndGuardHost isIPv6 lookupAll h log in
  (out.1 = log ∧ isIP isIPv6 host ≠ 0) ∨
  (∃ a, out.1 = log ++ [EvLookup host a] ∧
    (∀ r, out.2 = Ok r → ∃ addrs, a = Some addrs ∧ addrs ≠ [] ∧ ∀ x, x ∈ addrs → blockedIpReason isIPv6 x = None)).
Proof.
  unfold resolveAndGuardHost. case_bool_decide as Hi.
  - left. by destruct (blockedIpReason _ _).
  - right. unfold ask_dns, mbind, M_bind. cbv beta iota zeta.
    set (a := lookupAll (length log) (normalizeHostname h)). exists a.
    destruct a as [[|x addrs]|]; [done| |done].
    destruct (blocked_address isIPv6 (x :: addrs)) as [[b r]|] eqn:Eb; [done|]. split; [done|].
    intros r Hr. exists (x :: addrs). split; [done|]. split; [done|]. by apply blocked_address_None.
Qed.

Lemma log_ok_lookup log h a : log_ok log → log_ok (log ++ [EvLookup h a]).
Proof.
  intros Hl i u x Hi. destruct (decide (i < length log)%nat) as [Hlt|Hge].
  - rewrite lookup_app_l in Hi by done. destruct (Hl i u x Hi) as (Hs & Hx & Hk). split; [done|]. split; [done|].
    intros H0. destruct (Hk H0) as (k & addrs & -> & Ek & ?). exists k, addrs.
    rewrite lookup_app_l by lia. done.
  - rewrite lookup_app_r in Hi by lia. destruct (i - length log)%nat as [|[|?]]; done.
Qed.

Lemma log_ok_request log u x :
  log_ok log → safe_url u →
  (isIP isIPv6 (normalizeHostname (hostname u)) ≠ 0 → x = Some (normalizeHostname (hostname u))) →
  (isIP isIPv6 (normalizeHostname (hostname u)) = 0 →
    ∃ addrs, last log = Some (EvLookup (normalizeHostname (hostname u)) (Some addrs)) ∧ addrs ≠ [] ∧
      ∀ a, a ∈ addrs → blockedIpReason isIPv6 a = None) →
  log_ok (log ++ [EvRequest u x]).
Proof.
  intros Hl Hs Hc Ha i v y Hi. destruct (decide (i < length log)%nat) as [Hlt|Hge].
  - rewrite lookup_app_l in Hi by done. destruct (Hl i v y Hi) as (Hv & Hy & Hk). split; [done|]. split; [done|].
    intros H0. destruct (Hk H0) as (k & addrs & -> & Ek & ?). exists k, addrs.
    rewrite lookup_app_l by lia. done.
  - rewrite lookup_app_r in Hi by lia. destruct (i - length log)%nat as [|[|?]] eqn:Ei; try done.
    injection Hi as <- <-. split; [done|]. split; [done|]. intros H0. destruct (Ha H0) as (addrs & El & ?).
    rewrite last_lookup in El. assert (length log ≠ 0)%nat by (by destruct log).
    exists (pred (length log)), addrs. split; [lia|]. rewrite lookup_app_l by lia. done.
Qed.

(** The state and result of a run, hop by hop. *)
Definition fetch_good (n : nat) (maxBytes : Z) (log : list net_event) (out : list net_event * res fetched) : Prop :=
  log_ok out.1 ∧
  (length (filter is_request out.1) ≤ length (filter is_request log) + n)%nat ∧
  (∀ f, out.2 = Ok f → Z.of_nat (String.length (f_body f)) ≤ maxBytes ∧ f_bytes f = Z.of_nat (String.length (f_body f))).
Lemma concat_length chunks : Z.of_nat (String.length (String.concat "" chunks)) = total_length chunks.
Proof.
  induction chunks as [|x [|y l] IH]; [done|simpl; lia|].
  change (String.concat "" (x :: y :: l)) with (x ++ ("" ++ String.concat "" (y :: l)))%string.
  rewrite !length_append, !Nat2Z.inj_add, IH.
  change (total_length (x :: y :: l)) with (Z.of_nat (String.length x) + total_length (y :: l)). simpl String.length. lia.
Qed.

Lemma consumed chunks e maxBytes body bytes :
  consumeBounded chunks e maxBytes = Ok (body, bytes) →
  bytes = Z.of_nat (String.length body) ∧ bytes ≤ maxBytes.
Proof.
  unfold consumeBounded. destruct e; [|case_bool_decide; done|done].
  case_bool_decide; [done|]. intros [= <- <-]. rewrite concat_length. lia.
Qed.

Lemma requests_lookup log h a : filter is_request (log ++ [EvLookup h a]) = filter is_request log.
Proof. rewrite filter_app, filter_cons_False, filter_nil, app_nil_r; [done|]. simpl. tauto. Qed.

Lemma requests_send log u x : length (filter is_request (log ++ [EvRequest u x])) = S (length (filter is_request log)).
Proof. rewrite filter_app, filter_cons_True, filter_nil, length_app; [simpl; lia|done]. Qed.

Lemma contact_address n u :
  isIP isIPv6 (normalizeHostname (hostname u)) ≠ 0 →
  contact isIPv6 connectAddress n u = Some (normalizeHostname (hostname u)).
Proof. intros H. unfold contact. by rewrite bool_decide_eq_true_2. Qed.

(** After the address gate: the log is good and allows the request. *)
Lemma gate_good log u :
  log_ok log → safe_url u →
  let out := resolveAndGuardHost isIPv6 lookupAll (hostname u) log in
  log_ok out.1 ∧ filter is_request out.1 = filter is_request log ∧
  (∀ r n, out.2 = Ok r → log_ok (out.1 ++ [EvRequest u (contact isIPv6 connectAddress n u)])).
Proof.
  intros Hl Hs. simpl. destruct (resolve_spec (hostname u) log) as [[E Hi]|(a & E & Ha)]; rewrite E.
  - split; [done|]. split; [done|]. intros r n _. apply log_ok_request; [done..| |done]. apply contact_address.
  - split; [by apply log_ok_lookup|]. split; [apply requests_lookup|].
    intros r n Hr. apply log_ok_request; [by apply log_ok_lookup|done|apply contact_address|].
    intros _. destruct (Ha r Hr) as (addrs & -> & ?). exists addrs. by rewrite last_snoc.
Qed.

Lemma fetch_stop n maxBytes log log' e :
  log_ok log' → (length (filter is_request log') ≤ length (filter is_request log) + n)%nat →
  fetch_good n maxBytes log (log', Throw e).
Proof. by split. Qed.

Lemma fetchHop_good n maxBytes target log :
  log_ok log →
  fetch_good (S n) maxBytes log
    (fetchHop isIPv6 parse_url resolve_url lookupAll connectAddress doRequest n policy maxBytes target log).
Proof.
  revert target log. induction n as [|n IH]; intros target log Hl; cbn [fetchHop];
    unfold lift, mbind, M_bind; cbv beta iota zeta.
  all: destruct (parseAndGuardUrl _ _ _ _) as [u|e] eqn:Eg; [|apply fetch_stop; [done|lia]].
  all: unfold check; destruct (schemeAllowedForPolicy _ _) eqn:Es; unfold throw, mret, M_ret;
    cbv beta iota zeta; [|apply fetch_stop; [done|lia]].
  all: pose proof (guard_safe _ u Eg Es) as Hs; destruct (gate_good log u Hl Hs) as (H1 & H2 & H3).
  all: destruct (resolveAndGuardHost _ _ _ log) as [log1 [r|e]]; cbn [fst snd] in *;
    [|apply fetch_stop; [done|rewrite H2; lia]].
  all: specialize (H3 r (length log1) eq_refl); unfold send; cbv beta iota zeta.
  all: pose proof (requests_send log1 u (contact isIPv6 connectAddress (length log1) u)) as Hn; rewrite H2 in Hn.
  all: destruct (doRequest (length log1) u) as [|msg|status location chunks e];
    [apply fetch_stop; [done|lia]|apply fetch_stop; [done|lia]|].
  all: destruct (is_redirect status location).
  - apply fetch_stop; [done|lia].
  - destruct (consumeBounded chunks e maxBytes) as [[body bytes]|e'] eqn:Ec; [|apply fetch_stop; [done|lia]].
    apply consumed in Ec as [-> ?]. split; [done|]. split; [simpl; lia|]. by intros f [= <-].
  - destruct (resolve_url _ u) as [next|]; [|apply fetch_stop; [done|lia]].
    destruct (IH next _ H3) as (G1 & G2 & G3). split; [done|]. split; [lia|done].
  - destruct (consumeBounded chunks e maxBytes) as [[body bytes]|e'] eqn:Ec; [|apply fetch_stop; [done|lia]].
    apply consumed in Ec as [-> ?]. split; [done|]. split; [simpl; lia|]. by intros f [= <-].
Qed.

Lemma fetchUrlGuarded_good rawUrl maxBytes maxRedirects :
  fetch_good (S maxRedirects) maxBytes []
    (fetchUrlGuarded isIPv6 parse_url resolve_url lookupAll connectAddress doRequest rawUrl policy maxBytes maxRedirects []).
Proof.
  assert (log_ok []) as H0 by (intros i u x Hi; by rewrite lookup_nil in Hi).
  unfold fetchUrlGuarded, lift, mbind, M_bind. cbv beta iota zeta.
  destruct (parseAndGuardUrl _ _ _ _) as [u|e] eqn:Eg; [|apply fetch_stop; [done|simpl; lia]].
  unfold check. destruct (schemeAllowedForPolicy _ _) eqn:Es; unfold throw, mret, M_ret;
    cbv beta iota zeta; [|apply fetch_stop; [done|simpl; lia]].
  pose proof (guard_safe _ u Eg Es) as Hs. destruct (gate_good [] u H0 Hs) as (H1 & H2 & H3).
  destruct (resolveAndGuardHost _ _ _ []) as [log1 [r|e]]; cbn [fst snd] in *;
    [|apply fetch_stop; [done|rewrite H2; simpl; lia]].
  destruct (fetchHop_good maxRedirects maxBytes u log1 H1) as (G1 & G2 & G3).
  split; [done|]. rewrite H2 in G2. done.
Qed.
End Fetch.

(** C25: What a fetch may contact, whatever the URL parser, the resolver
    (which may answer each lookup differently) and the servers do.  Every
    request that [fetchUrlGuarded] sends, the first one and each redirect hop,
    goes to an http(s) URL without credentials, over https unless the policy
    enables the network, never when the policy disables it, to an allowlisted
    host when it has an allowlist, and not to a blocked name.  A host that is an
    address is contacted itself and is not a blocked one.  A named host was
    resolved immediately before, for that hop, to public addresses only, so the
    address contacted is public whenever the HTTP stack, which resolves the name
    again when it connects, gets one of those; an answer that changes in between
    is not excluded. *)
Theorem fetch_contacts_only_safe_targets isIPv6 parse_url resolve_url lookupAll connectAddress doRequest policy
    rawUrl maxBytes maxRedirects :
  let log := (fetchUrlGuarded isIPv6 parse_url resolve_url lookupAll connectAddress doRequest rawUrl policy maxBytes maxRedirects []).1 in
  ∀ i u contacted, log !! i = Some (EvRequest u contacted) →
    let host := normalizeHostname (hostname u) in
    safe_url isIPv6 policy u ∧
    (isIP isIPv6 host ≠ 0 → contacted = Some host ∧ blockedIpReason isIPv6 host = None) ∧
    (isIP isIPv6 host = 0 →
     ∃ k addrs, i = S k ∧ log !! k = Some (EvLookup host (Some addrs)) ∧
       addrs ≠ [] ∧ (∀ a, a ∈ addrs → blockedIpReason isIPv6 a = None) ∧
       (∀ a, contacted = Some a → a ∈ addrs → blockedIpReason isIPv6 a = None)).
Proof.
  intros log i u x Hi. destruct (fetchUrlGuarded_good isIPv6 parse_url resolve_url lookupAll connectAddress
    doRequest policy rawUrl maxBytes maxRedirects) as [Hl _].
  destruct (Hl i u x Hi) as (Hs & Hx & Hk). split; [done|]. split.
  - intros Ha. split; [by apply Hx|]. by apply (su_ip _ _ _ Hs).
  - intros Ha. destruct (Hk Ha) as (k & addrs & ? & ? & ? & ?). exists k, addrs. eauto 10.
Qed.

(** A fetch is bounded: at most [maxRedirects + 1] requests are sent, and a
    body that is returned is within the byte limit, which the tool clamps to
    262144 (3 redirects, 8000 characters shown); a longer response, a fourth
    redirect, a timeout or a refused hop is an error. *)
Theorem fetch_bounded isIPv6 parse_url resolve_url lookupAll connectAddress doRequest policy rawUrl maxBytes :
  (∀ maxRedirects,
    let out := fetchUrlGuarded isIPv6 parse_url resolve_url lookupAll connectAddress doRequest rawUrl policy maxBytes maxRedirects [] in
    (length (filter is_request out.1) ≤ S maxRedirects)%nat ∧
    (∀ f, out.2 = Ok f → Z.of_nat (String.length (f_body f)) ≤ maxBytes)) ∧
  (let out := handleFetchUrl isIPv6 parse_url resolve_url lookupAll connectAddress doRequest rawUrl policy maxBytes [] in
   (length (filter is_request out.1) ≤ 4)%nat ∧
   (∀ t, out.2 = Ok t → t_bytes t ≤ 262144 ∧ Z.of_nat (String.length (t_body t)) ≤ 8000 ∧
      (t_truncated t = false → Z.of_nat (String.length (t_body t)) = t_bytes t))).
Proof.
  split.
  - intros maxRedirects. destruct (fetchUrlGuarded_good isIPv6 parse_url resolve_url lookupAll connectAddress doRequest policy
      rawUrl maxBytes maxRedirects) as (_ & Hn & Hb). split; [done|]. intros f Hf. by apply Hb.
  - unfold handleFetchUrl. destruct (negb (truthy_str rawUrl)); [by split; [simpl; lia|]|].
    set (m := Z.min _ _). destruct (fetchUrlGuarded_good isIPv6 parse_url resolve_url lookupAll connectAddress doRequest policy
      rawUrl m 3) as (_ & Hn & Hb). unfold mbind, M_bind.
    destruct (fetchUrlGuarded _ _ _ _ _ _ _ _ _ _ []) as [log [f|e]]; cbn [fst snd] in *; [|by split].
    destruct (Hb f eq_refl) as [Hb1 Hb2]. split; [done|]. intros t [= <-]. cbn [t_bytes t_body t_truncated].
    pose proof (slice0_length (Z.to_nat 8000) (f_body f)). split; [lia|]. split; [lia|].
    rewrite bool_decide_eq_false. intros Hle. rewrite slice0_all by lia. lia.
Qed.

(** ** A server that redirects to the metadata address *)

Definition demo_url (scheme host : string) : url := Url scheme "" "" host "/" (scheme ++ "//" ++ host ++ "/").

Definition demo_parse (raw : string) : option url :=
  if decide (raw = "https://good.example/"%string) then Some (demo_url "https:" "good.example")
  else if decide (raw = "https://169.254.169.254/"%string) then Some (demo_url "https:" "169.254.169.254")
  else None.

Definition demo_policy : policy :=
  defaultPolicy "/w" (no_overrides <| o_networkAccess := Some "enabled"%string |>).

(** Three redirects to [target], then a page. *)
Definition demo_server (target : string) (n : nat) (u : url) : exchange :=
  if decide (n < 3)%nat then Answer 302 (Some target) [] Ended else Answer 200 None ["secret"%string] Ended.

Definition demo_fetch (target : string) (answers : list string) (at_connect : string) :=
  fetchUrlGuarded (λ _, false) demo_parse (λ loc _, demo_parse loc) (λ _ _, Some answers) (λ _ _, Some at_connect) (demo_server target)
    "https://good.example/" (Some demo_policy) 1000 3 [].

Lemma fetch_contacts_only_safe_targets_witness :
  ∃ u, (demo_fetch "https://169.254.169.254/" ["93.184.216.34"%string] "93.184.216.34").1 !! 2%nat =
         Some (EvRequest u (Some "93.184.216.34"%string)) ∧
       hostname u = "good.example"%string ∧ safe_url (λ _, false) (Some demo_policy) u.
Proof.
  exists (demo_url "https:" "good.example"). split; [vm_compute; reflexivity|]. split; [reflexivity|].
  refine (proj1 (fetch_contacts_only_safe_targets (λ _, false) demo_parse (λ loc _, demo_parse loc)
    (λ _ _, Some ["93.184.216.34"%string]) (λ _ _, Some "93.184.216.34"%string)
    (demo_server "https://169.254.169.254/") (Some demo_policy) "https://good.example/" 1000 3 2 _ _ _)).
  vm_compute. reflexivity.
Defined.

(** A resolver that answers a public address when asked by the guard and an
    inside one when the stack connects: the inside address is contacted. *)
Example rebinding_reaches_inside :
  last (demo_fetch "" ["93.184.216.34"%string] "10.0.0.8").1 =
    Some (EvRequest (demo_url "https:" "good.example") (Some "10.0.0.8"%string)) ∧
  blockedIpReason (λ _, false) "10.0.0.8" = Some "rfc1918"%string.
Proof. vm_compute. done. Qed.

(** The redirect is refused, and so is a name that resolves inside. *)
Example metadata_redirect_refused :
  (demo_fetch "https://169.254.169.254/" ["93.184.216.34"%string] "93.184.216.34").2 =
  Throw (deny "blocked IP target (link-local): 169.254.169.254").
Proof. vm_compute. reflexivity. Qed.

Example internal_name_refused :
  (demo_fetch "https://good.example/" ["93.184.216.34"; "10.0.0.8"]%string "93.184.216.34").2 =
  Throw (deny "hostname good.example resolves to blocked address 10.0.0.8 (rfc1918)").
Proof. vm_compute. reflexivity. Qed.
