(* ===== verification/Isolation.v ===== *)
(** Isolated execution: backend/src/execution/isolated-executor.js (the
    boundary to the sandbox worker) and backend/src/execution/sandbox-env.js
    (what a child process may inherit, what a request may carry).

    A workspace is a tree as [lstat] and [readdir] show it; file contents are
    byte strings.  The HTTP exchange with the worker is a parameter.  Requests
    and responses are JSON values. *)

From S2P Require Import Prelude JsMap JsValue Text Privacy Policy.

Local Open Scope string_scope.

(** ** The environment of a child process *)

Module SandboxEnv.

(* [src/backend/src/execution/sandbox-env.js:14-14] SECRET_ENV_RE *)
Definition SECRET_ENV_RE (k : string) : bool :=
  existsb (λ w, contains w (to_lower k))
    (Redaction.opt_sep "api" "key" ++ ["secret"; "token"; "password"; "passwd"; "bearer"; "authorization"]
     ++ Redaction.opt_sep "private" "key" ++ Redaction.opt_sep "client" "secret"
     ++ ["session"; "cookie"; "stripe"; "openai"; "anthropic"; "openrouter"; "aws_"; "gcp_"; "azure"])%list.

(* [src/backend/src/execution/sandbox-env.js:19-19] SAFE_ENV_KEYS *)
Definition SAFE_ENV_KEYS : list string := ["PATH"; "NODE_ENV"; "CI"; "TERM"; "LANG"; "SHELL"].
(* [src/backend/src/execution/sandbox-env.js:21-21] DEFAULT_SAFE_PATH *)
Definition DEFAULT_SAFE_PATH : string := "/usr/local/bin:/usr/bin:/bin".

Definition safe_segment (seg : string) : bool :=
  existsb (λ p, starts_with p seg) ["/usr/local/bin"; "/usr/bin"; "/bin"; "/opt/"].

(* [src/backend/src/execution/sandbox-env.js:23-33] sanitizePath *)
Definition sanitizePath (value : string) : string :=
  let raw := filter (λ s, s ≠ "") (split_on ":"%char value) in
  let safe := filter (λ s, safe_segment s = true) raw in
  or_str (slice0 (Z.to_nat 2000) (js_join ":" safe)) DEFAULT_SAFE_PATH.

(** [process.env], the variables as a map. *)
Definition env_get (env : jsmap string string) (k : string) : string := default "" (mget env k).

(* [src/backend/src/execution/sandbox-env.js:36-42] buildSandboxEnv, base *)
Definition base_env (process_env : jsmap string string) : jsmap string string :=
  let get := env_get process_env in
  let env := [("PATH", sanitizePath (or_str (get "PATH") DEFAULT_SAFE_PATH));
              ("LANG", slice0 100 (or_str (get "LANG") "C.UTF-8"));
              ("TERM", slice0 50 (or_str (get "TERM") "dumb"))] in
  let env := if truthy_str (get "CI") then mset env "CI" (slice0 20 (get "CI")) else env in
  if truthy_str (get "NODE_ENV") then mset env "NODE_ENV" (slice0 30 (get "NODE_ENV")) else env.

(* [src/backend/src/execution/sandbox-env.js:44-48] buildSandboxEnv, overrides *)
Definition apply_override (env : jsmap string string) (o : string * string) : jsmap string string :=
  if SECRET_ENV_RE o.1 then env
  else if bool_decide (o.1 ∈ SAFE_ENV_KEYS) then mset env o.1 (slice0 (Z.to_nat 2000) o.2)
  else env.

Definition proxy_keys : list string :=
  ["HTTP_PROXY"; "HTTPS_PROXY"; "http_proxy"; "https_proxy"; "ALL_PROXY"; "all_proxy"].

(* [src/backend/src/execution/sandbox-env.js:35-62] buildSandboxEnv *)
Definition buildSandboxEnv (process_env overrides : jsmap string string) : jsmap string string :=
  let env := foldl apply_override (base_env process_env) overrides in
  let env := filter (λ kv, SECRET_ENV_RE kv.1 = false) env in
  foldl mdelete env proxy_keys.

(** [[...new Set(xs)]] *)
Definition unique (xs : list string) : list string :=
  foldl (λ acc x, if bool_decide (x ∈ acc) then acc else (acc ++ [x])%list) [] xs.

(** [fuel]: the code stops below depth 4. *)
(* [src/backend/src/execution/sandbox-env.js:66-75] findSecretKeys *)
Fixpoint findSecretKeys (fuel : nat) (v : jsval) : list string :=
  match fuel with
  | O => []
  | S fuel =>
      match v with
      | JObj fs => unique (mjoin ((λ f, (if SECRET_ENV_RE f.1 then [f.1] else []) ++ findSecretKeys fuel f.2)%list <$> fs))
      | JArr xs => unique (mjoin (findSecretKeys fuel <$> xs))
      | _ => []
      end
  end.

(* [src/backend/src/execution/sandbox-env.js:77-85] assertNoSecrets *)
Definition assertNoSecrets (v : jsval) (what : string) : res unit :=
  match findSecretKeys 5 v with
  | [] => Ok tt
  | hits => Throw (JsError (Some "secret_refused")
              (what ++ " must never carry provider secrets (found: " ++ js_join ", " (take 5 hits) ++ ")"))
  end.
End SandboxEnv.

(** ** Base64 *)

Definition base64_alphabet : string := "ABCDEFGHIJKLMNOPQRSTUVWXYZabcdefghijklmnopqrstuvwxyz0123456789+/".

Definition base64_digit (n : Z) : ascii := default "A"%char (String.get (Z.to_nat (n mod 64)) base64_alphabet).

Definition byte (c : ascii) : Z := Z.of_nat (nat_of_ascii c).

(** [buf.toString('base64')] *)
Fixpoint base64 (s : string) : string :=
  match s with
  | String a (String b (String c s')) =>
      let n := (byte a * 65536 + byte b * 256 + byte c)%Z in
      String (base64_digit (n / 262144)) (String (base64_digit (n / 4096))
        (String (base64_digit (n / 64)) (String (base64_digit n) (base64 s'))))
  | String a (String b "") =>
      let n := (byte a * 1024 + byte b * 4)%Z in
      String (base64_digit (n / 4096)) (String (base64_digit (n / 64)) (String (base64_digit n) "="))
  | String a "" =>
      let n := (byte a * 16)%Z in
      String (base64_digit (n / 64)) (String (base64_digit n) "==")
  | "" => ""
  end.

(** [/^[A-Za-z0-9+/=]*$/] *)
Definition is_base64_char (c : ascii) : bool := one_of (base64_alphabet ++ "=") c.
Definition is_base64_text (s : string) : bool := negb (any_char (λ c, negb (is_base64_char c)) s).

(** ** Limits and routing *)

(* [src/backend/src/execution/isolated-executor.js:36-40] snapshot limits *)
Definition SNAPSHOT_MAX_FILES : nat := 200.
(* [src/backend/src/execution/isolated-executor.js:36-40] snapshot limits *)
Definition SNAPSHOT_MAX_TOTAL_BYTES : Z := 8 * 1024 * 1024.
(* [src/backend/src/execution/isolated-executor.js:36-40] snapshot limits *)
Definition SNAPSHOT_MAX_FILE_BYTES : Z := 1024 * 1024.
(* [src/backend/src/execution/isolated-executor.js:36-40] snapshot limits *)
Definition COLLECT_MAX_PATHS : nat := 20.
(* [src/backend/src/execution/isolated-executor.js:36-40] snapshot limits *)
Definition COLLECT_MAX_TOTAL_BYTES : Z := 2 * 1024 * 1024.
(* [src/backend/src/execution/isolated-executor.js:43-43] SNAPSHOT_SKIP_DIRS *)
Definition SNAPSHOT_SKIP_DIRS : list string :=
  ["node_modules"; ".git"; "dist"; ".vite"; "__pycache__"; ".venv"; "venv"; "target"].

(** Some word of [ws], ignoring case, between a start [pre] accepts and a next
    character [post] accepts. *)
Fixpoint word_match (pre post : option ascii → bool) (ws : list string) (prev : option ascii) (s : string) : bool :=
  (pre prev && existsb (λ w, starts_with w s && post (Redaction.head_char (string_drop (String.length w) s))) ws) ||
  match s with
  | EmptyString => false
  | String c s' => word_match pre post ws (Some c) s'
  end.

Definition edge_or (cs : string) (c : option ascii) : bool := match c with None => true | Some c => one_of cs c end.

(* [src/backend/src/execution/isolated-executor.js:44-44] SNAPSHOT_SKIP_BASENAME_RE *)
Definition SNAPSHOT_SKIP_BASENAME_RE (name : string) : bool :=
  let s := to_lower name in
  word_match (edge_or ".") (edge_or ".")
    ["env"; "secret"; "secrets"; "credential"; "credentials"; "passwd"; "shadow"] None s ||
  word_match (edge_or "_-") (edge_or "_.-")
    ["key"; "keys"; "token"; "private"; "id_rsa"; "id_ed25519"; "pem"; "p12"; "pfx"; "keystore"] None s.

(* [src/backend/src/execution/isolated-executor.js:45-45] SNAPSHOT_SKIP_SUFFIX_RE *)
Definition SNAPSHOT_SKIP_SUFFIX_RE (name : string) : bool :=
  existsb (λ x, ends_with x (to_lower name))
    [".pem"; ".key"; ".p12"; ".pfx"; ".jks"; ".keystore"; ".sqlite"; ".sqlite3"; ".db"].

(** [.] does not match a line break. *)
(* [src/backend/src/execution/isolated-executor.js:46-46] SNAPSHOT_SKIP_PREFIX_RE *)
Definition SNAPSHOT_SKIP_PREFIX_RE (name : string) : bool :=
  starts_with ".runtime-data" name ||
  (fix go (s : string) := starts_with ".corrupt-" s ||
     match s with
     | EmptyString => false
     | String c s' => single_line (String c "") && go s'
     end) name.

(* [src/backend/src/execution/isolated-executor.js:47-47] SNAPSHOT_SKIP_RUNTIME_RE *)
Definition SNAPSHOT_SKIP_RUNTIME_RE (name : string) : bool :=
  existsb (λ x, ends_with x name) [".events.json"; ".snapshot.json"; ".billing.json"].

(** [s.replace(/\/+$/, '')] *)
Definition strip_trailing_slashes (s : string) : string := rev_string "" (strip_slashes (rev_string "" s)).

(* [src/backend/src/execution/isolated-executor.js:49-52] getIsolatedExecutorUrl *)
Definition getIsolatedExecutorUrl (env : jsmap string string) : option string :=
  let raw := strip_trailing_slashes (trim (SandboxEnv.env_get env "ISOLATED_EXECUTOR_URL")) in
  if truthy_str raw then Some raw else None.

(* [src/backend/src/execution/isolated-executor.js:54-56] isProductionEnv *)
Definition isProductionEnv (env : jsmap string string) : bool :=
  bool_decide (to_lower (SandboxEnv.env_get env "NODE_ENV") = "production").

(* [src/backend/src/execution/isolated-executor.js:62-66] toolRequiresIsolation *)
Definition toolRequiresIsolation (toolName : string) : bool := bool_decide (toolName ∈ ["run_tests"; "build_project"]).

(* [src/backend/src/execution/isolated-executor.js:68-70] isolationRequired *)
Definition isolationRequired (toolName : string) (env : jsmap string string) : bool :=
  isProductionEnv env && toolRequiresIsolation toolName.

(* [src/backend/src/execution/isolated-executor.js:265-267] err *)
Definition err (code message : string) : js_error := JsError (Some code) message.

(* [src/backend/src/execution/isolated-executor.js:269-277] sandboxUnavailableError *)
Definition sandboxUnavailableError (toolName : string) : js_error :=
  err "sandbox_unavailable" ("isolated execution required for " ++ toolName ++
    " in production but no isolated executor is available (set ISOLATED_EXECUTOR_URL to a reachable sandbox-worker). Failing closed.").

(** ** Workspace paths *)

Definition backslash_to_slash (s : string) : string :=
  (fix go s := match s with
   | "" => ""
   | String c s' => String (if Ascii.eqb c backslash then "/"%char else c) (go s')
   end) s.

Definition is_alpha (c : ascii) : bool := let c := lower_char c in is_alpha_ c && negb (Ascii.eqb c "_"%char).

(** [/^[A-Za-z]:\//] *)
Definition drive_prefix (s : string) : bool :=
  match s with String c (String ":" (String "/" _)) => is_alpha c | _ => false end.

Definition control_chars : string := String "000" (String "010" (String "013" "")).

(* [src/backend/src/execution/isolated-executor.js:113-120] assertWorkspaceRelPath *)
Definition assertWorkspaceRelPath (p : jsval) : res string :=
  match p with
  | JStr s =>
      if negb (truthy_str s) || bool_decide (500 < String.length s)%nat then Throw (err "denied" "bad workspace path length")
      else if any_char (one_of control_chars) s then
        Throw (err "denied" "control characters are not allowed in workspace paths")
      else
        let norm := backslash_to_slash s in
        if starts_with "/" norm || drive_prefix norm then Throw (err "denied" "workspace paths must be relative")
        else if bool_decide (".." ∈ split_on "/"%char norm) then
          Throw (err "denied" "path traversal is not allowed in workspace paths")
        else Ok norm
  | _ => Throw (err "denied" "bad workspace path length")
  end.

Definition is_object (v : jsval) : bool := match v with JObj _ | JArr _ => true | _ => false end.

(** [String(v || '')] *)
Definition string_or_empty (v : jsval) : string := if truthy_val v then to_string v else "".

(** One file; the sizes are compared in thirds of bytes. *)
(* [src/backend/src/execution/isolated-executor.js:126-135] validateWorkspaceSnapshot, one file *)
Definition check_file (total : Z) (f : jsval) : res Z :=
  if negb (is_object f) then Throw (err "bad_params" "workspace file must be an object")
  else
    _ ← assertWorkspaceRelPath (prop f "path");
    let b64 := string_or_empty (prop f "contentBase64") in
    let bytes := Z.of_nat (String.length b64) in
    if negb (is_base64_text b64) then Throw (err "bad_params" "workspace file content must be base64")
    else if bool_decide (SNAPSHOT_MAX_FILE_BYTES * 4 + 64 * 3 < bytes * 3)%Z then
      Throw (err "denied" ("workspace file too large: " ++ to_string (prop f "path")))
    else if bool_decide (SNAPSHOT_MAX_TOTAL_BYTES * 4 + 1024 * 3 < (total + bytes) * 3)%Z then
      Throw (err "denied" "workspace snapshot exceeds total byte cap")
    else Ok (total + bytes)%Z.

Fixpoint fold_res {A B} (f : A → B → res A) (a : A) (l : list B) : res A :=
  match l with [] => Ok a | x :: l' => a' ← f a x; fold_res f a' l' end.

(* [src/backend/src/execution/isolated-executor.js:122-137] validateWorkspaceSnapshot *)
Definition validateWorkspaceSnapshot (ws : jsval) : res unit :=
  match ws, prop ws "files" with
  | JObj _, JArr files =>
      if bool_decide (SNAPSHOT_MAX_FILES < length files)%nat then
        Throw (err "denied" "workspace snapshot exceeds 200 files")
      else _ ← fold_res check_file 0%Z files; Ok tt
  | _, _ => Throw (err "bad_params" "workspace must be { files: [...] }")
  end.

(* [src/backend/src/execution/isolated-executor.js:143-150] workspacePayload *)
Definition workspacePayload (ws : jsval) : jsval :=
  match ws with
  | JObj _ =>
      JObj [("files", match prop ws "files" with
        | JArr files => JArr ((λ f, JObj [("path", prop f "path"); ("contentBase64", prop f "contentBase64")]) <$> files)
        | v => v end)]
  | _ => ws
  end.

(** ** The snapshot *)

(** An entry as [lstat] and [readFile] report it; [size] is [st.size]. *)
Inductive node :=
| NFile (size : Z) (content : option string)
| NDir (entries : option (list (string * node)))
| NLink
| NOther
| NGone.

Record skipped := Skipped { sk_dirs : nat; sk_secrets : nat; sk_oversized : nat; sk_count : nat }.
#[export] Instance skipped_eta : Eta skipped := λ k,
  Skipped (sk_dirs k) (sk_secrets k) (sk_oversized k) (sk_count k).

Record snap := Snap { files : list (string * string); skips : skipped; total : Z }.
#[export] Instance snap_eta : Eta snap := λ s, Snap (files s) (skips s) (total s).

Section Snapshot.
Local Open Scope js_scope.
Context (maxFiles : nat) (maxTotalBytes maxFileBytes : Z).

Definition skip_one (f : skipped → skipped) (s : snap) : snap := s <| skips ::= f |>.
Definition bump_count (k : skipped) : skipped := k <| sk_count ::= S |>.
Definition bump_secrets (k : skipped) : skipped := k <| sk_secrets ::= S |>.
Definition bump_oversized (k : skipped) : skipped := k <| sk_oversized ::= S |>.
Definition bump_dirs (k : skipped) : skipped := k <| sk_dirs ::= S |>.

(* [src/backend/src/execution/isolated-executor.js:197-210] snapshotWorkspace, a file *)
Definition add_file (relPath name : string) (size : Z) (content : option string) (s : snap) : snap :=
  if SNAPSHOT_SKIP_BASENAME_RE name || SNAPSHOT_SKIP_SUFFIX_RE name then skip_one bump_secrets s
  else if bool_decide (maxFileBytes < size)%Z then skip_one bump_oversized s
  else match content with
  | None => skip_one bump_count s
  | Some buf =>
      let len := Z.of_nat (String.length buf) in
      if bool_decide (maxFileBytes < len)%Z then skip_one bump_oversized s
      else if bool_decide (maxTotalBytes < total s + len)%Z then skip_one bump_count s
      else s <| total ::= λ t, (t + len)%Z |> <| files ::= λ l, (l ++ [(relPath, base64 buf)])%list |>
  end.

(** [`${rel}/${name}`] *)
Definition join_rel (rel name : string) : string := if truthy_str rel then rel ++ "/" ++ name else name.

(* [src/backend/src/execution/isolated-executor.js:172-212] walk *)
Fixpoint walk (rel : string) (d : node) (s : snap) : snap :=
  match d with
  | NDir (Some entries) =>
      (fix each (es : list (string * node)) (s : snap) : snap :=
         match es with
         | [] => s
         | (name, n) :: es =>
             each es
               (if bool_decide (maxFiles ≤ length (files s))%nat || bool_decide (maxTotalBytes ≤ total s)%Z
                then skip_one bump_count s
                else if SNAPSHOT_SKIP_PREFIX_RE name || SNAPSHOT_SKIP_RUNTIME_RE name then skip_one bump_count s
                else
                  let relPath := join_rel rel name in
                  match n with
                  | NDir _ =>
                      if bool_decide (name ∈ SNAPSHOT_SKIP_DIRS) then skip_one bump_dirs s
                      else walk relPath n s
                  | NFile size content => add_file relPath name size content s
                  | NLink | NOther | NGone => skip_one bump_count s
                  end)
         end) entries s
  | _ => s
  end.

(* [src/backend/src/execution/isolated-executor.js:158-215] snapshotWorkspace *)
Definition snapshotWorkspace (root : node) : res snap :=
  match root with
  | NDir _ => Ok (walk "" root (Snap [] (Skipped 0 0 0 0) 0))
  | NGone => Throw (err "denied" "workspace snapshot failed")
  | _ => Throw (err "denied" "workspace snapshot root must be a directory")
  end.
End Snapshot.

(** The value the caller sends on: the file list and the counters. *)
Definition snap_json (s : snap) : jsval :=
  JObj [("files", JArr ((λ f : string * string, JObj [("path", JStr f.1); ("contentBase64", JStr f.2)]) <$> files s));
        ("skipped", JObj [("dirs", JNum (Z.of_nat (sk_dirs (skips s)))); ("secrets", JNum (Z.of_nat (sk_secrets (skips s))));
                          ("oversized", JNum (Z.of_nat (sk_oversized (skips s)))); ("count", JNum (Z.of_nat (sk_count (skips s))))]);
        ("bytes", JNum (total s))].

(** ** Requests *)

Definition network_modes : list string :=
  [NetworkMode.value NetworkMode.DISABLED; NetworkMode.value NetworkMode.ALLOWLIST; NetworkMode.value NetworkMode.ENABLED].

(** An optional field that must be a positive number. *)
Definition positive_number (v : jsval) : bool :=
  match v with JUndef => true | JNum n => bool_decide (0 < n)%Z | _ => false end.

Definition is_nullish (v : jsval) : bool := match v with JUndef | JNull => true | _ => false end.

(* [src/backend/src/execution/isolated-executor.js:89-93] host path test *)
Definition host_path (a : jsval) : bool :=
  match a with
  | JStr s => bool_decide (s = "/etc/passwd") || starts_with "/etc/" s || starts_with "/root" s
  | _ => false
  end.

Definition guard (b : bool) (e : js_error) : res unit := if b then Ok tt else Throw e.

Definition required_string (body : jsval) (k : string) : res unit :=
  guard (truthy_val (prop body k) && is_string (prop body k)) (err "bad_params" (k ++ " is required")).

(* [src/backend/src/execution/isolated-executor.js:72-109] validateExecuteRequest *)
Definition validateExecuteRequest (body : jsval) : res unit :=
  _ ← guard (is_object body) (err "bad_params" "request must be an object");
  _ ← required_string body "runId";
  _ ← required_string body "command";
  _ ← guard (is_array (prop body "args") || match prop body "args" with JUndef => true | _ => false end)
        (err "bad_params" "args must be an array");
  _ ← guard (positive_number (prop body "timeoutMs")) (err "bad_params" "timeoutMs must be a positive number");
  _ ← guard (positive_number (prop body "maxOutputBytes")) (err "bad_params" "maxOutputBytes must be a positive number");
  _ ← guard (match prop body "networkMode" with
             | JUndef => true | JStr m => bool_decide (m ∈ network_modes) | _ => false end)
        (err "bad_params" ("unknown networkMode: " ++ to_string (prop body "networkMode")));
  _ ← guard (match prop body "args" with JArr l => negb (existsb host_path l) | _ => true end)
        (err "denied" "host path outside worker workspace refused");
  _ ← SandboxEnv.assertNoSecrets body "isolated-executor request";
  _ ← (if is_nullish (prop body "workspace") then Ok tt else validateWorkspaceSnapshot (prop body "workspace"));
  if is_nullish (prop body "collect") then Ok tt
  else match prop body "collect" with
  | JArr ps =>
      if bool_decide (COLLECT_MAX_PATHS < length ps)%nat then
        Throw (err "bad_params" "collect must be an array of at most 20 workspace-relative paths")
      else fold_res (λ _ p, _ ← assertWorkspaceRelPath p; Ok tt) tt ps
  | _ => Throw (err "bad_params" "collect must be an array of at most 20 workspace-relative paths")
  end.

(** [x ? String(x) : null] *)
Definition string_or_null (v : jsval) : jsval := if truthy_val v then JStr (to_string v) else JNull.

(** [Math.min(Number(v) || d, cap)], for a number field. *)
Definition clamp (v : jsval) (d cap : Z) : Z :=
  Z.min (match v with JNum n => if decide (n = 0)%Z then d else n | _ => d end) cap.

(* [src/backend/src/execution/isolated-executor.js:331-347] executeIsolated, body *)
Definition request_body (r : jsval) : jsval :=
  JObj ([("runId", JStr (string_or_empty (prop r "runId")));
         ("tenantId", string_or_null (prop r "tenantId"));
         ("projectId", string_or_null (prop r "projectId"));
         ("workspaceId", string_or_null (prop r "workspaceId"));
         ("command", JStr (string_or_empty (prop r "command")));
         ("args", JArr (match prop r "args" with JArr l => (λ a, JStr (to_string a)) <$> l | _ => [] end));
         ("cwd", JStr (if truthy_val (prop r "cwd") then to_string (prop r "cwd") else "/"));
         ("timeoutMs", JNum (clamp (prop r "timeoutMs") 30000 180000));
         ("maxOutputBytes", JNum (clamp (prop r "maxOutputBytes") (64 * 1024) (512 * 1024)));
         ("networkMode", if truthy_val (prop r "networkMode") then prop r "networkMode" else JStr "disabled");
         ("networkAllowlist", JArr (match prop r "networkAllowlist" with
                                    | JArr l => (λ a, JStr (to_string a)) <$> take 50 l | _ => [] end))]
        ++ (if truthy_val (prop r "workspace") then [("workspace", workspacePayload (prop r "workspace"))] else [])
        ++ (if truthy_val (prop r "collect") then [("collect", prop r "collect")] else []))%list.

(** ** Responses *)

Record artifact := Artifact { ar_path : string; ar_size : option Z; ar_content : option string }.

Record response := Response {
  ok : bool; exitCode : option Z; stdout : string; stderr : string; timedOut : bool;
  durationMs : Z; isolated : bool; executorVersion : option string;
  artifacts : list artifact; workspaceManifest : list (string * option Z);
}.

Definition finite (v : jsval) : option Z := match v with JNum n => Some n | _ => None end.

(* [src/backend/src/execution/isolated-executor.js:231-239] validateExecuteResponse, one artifact *)
Definition check_artifact (acc : Z * list artifact) (a : jsval) : res (Z * list artifact) :=
  if negb (is_object a) then Throw (err "executor_malformed" "executor artifact must be an object")
  else
    _ ← assertWorkspaceRelPath (prop a "path");
    let b64 := string_or_empty (prop a "contentBase64") in
    let total := (acc.1 + Z.of_nat (String.length b64))%Z in
    if truthy_str b64 && negb (is_base64_text b64) then
      Throw (err "executor_malformed" "executor artifact content must be base64")
    else if bool_decide (COLLECT_MAX_TOTAL_BYTES * 4 + 1024 * 3 < total * 3)%Z then
      Throw (err "executor_malformed" "executor artifacts exceed byte cap")
    else Ok (total, acc.2 ++ [Artifact (backslash_to_slash (to_string (prop a "path"))) (finite (prop a "size"))
                                (if truthy_str b64 then Some b64 else None)])%list.

Definition response_keys : list string :=
  ["ok"; "exitCode"; "stdout"; "stderr"; "timedOut"; "durationMs"; "isolated"].

(* [src/backend/src/execution/isolated-executor.js:217-263] validateExecuteResponse *)
Definition validateExecuteResponse (json : jsval) : res response :=
  _ ← guard (is_object json) (err "executor_malformed" "executor returned a non-object response");
  _ ← fold_res (λ _ k, guard (match prop json k with JUndef => false | _ => true end)
                         (err "executor_malformed" ("executor response missing " ++ k))) tt response_keys;
  _ ← guard (match prop json "isolated" with JBool true => true | _ => false end)
        (err "executor_malformed" "executor did not attest isolation (isolated=true required)");
  arts ← (if is_nullish (prop json "artifacts") then Ok []
          else match prop json "artifacts" with
          | JArr l =>
              if bool_decide (COLLECT_MAX_PATHS < length l)%nat then
                Throw (err "executor_malformed" "executor artifacts must be an array within the collect cap")
              else (r ← fold_res check_artifact (0%Z, []) l; Ok r.2)
          | _ => Throw (err "executor_malformed" "executor artifacts must be an array within the collect cap")
          end);
  manifest ← (if is_nullish (prop json "workspaceManifest") then Ok []
              else match prop json "workspaceManifest" with
              | JArr l =>
                  if bool_decide (200 < length l)%nat then
                    Throw (err "executor_malformed" "executor workspace manifest must be a bounded array")
                  else Ok (filter (λ m : string * option Z, m.1 ≠ "")
                             ((λ m, (slice0 300 (string_or_empty (prop m "path")), finite (prop m "size"))) <$> l))
              | _ => Throw (err "executor_malformed" "executor workspace manifest must be a bounded array")
              end);
  Ok (Response (truthy_val (prop json "ok")) (finite (prop json "exitCode"))
        (slice0 (Z.to_nat (512 * 1024)) (string_or_empty (prop json "stdout")))
        (slice0 (Z.to_nat (256 * 1024)) (string_or_empty (prop json "stderr")))
        (truthy_val (prop json "timedOut")) (default 0%Z (finite (prop json "durationMs")))
        true
        (if truthy_val (prop json "executorVersion") then Some (slice0 50 (to_string (prop json "executorVersion"))) else None)
        arts manifest).

(** ** The call *)

Section Call.
(** [postJson]: the parsed reply, or an error. *)
Context (postJson : string → jsval → option string → res jsval).

(* [src/backend/src/execution/isolated-executor.js:327-364] executeIsolated *)
Definition executeIsolated (request : jsval) (baseUrl : option string) (token : option string)
    (env : jsmap string string) : res response :=
  let base := strip_trailing_slashes (match baseUrl with Some b => b | None => default "" (getIsolatedExecutorUrl env) end) in
  if negb (truthy_str base) then
    Throw (sandboxUnavailableError (if truthy_val (prop request "toolName") then to_string (prop request "toolName") else "command"))
  else
    let body := request_body request in
    _ ← validateExecuteRequest body;
    match postJson (base ++ "/v1/execute") body token with
    | Throw e =>
        if bool_decide (err_code e = Some "bad_params" ∨ err_code e = Some "denied") then Throw e
        else Throw (err "executor_unavailable" (slice0 300 (err_msg e)))
    | Ok json =>
        parsed ← validateExecuteResponse json;
        if negb (isolated parsed) then Throw (err "executor_malformed" "executor did not attest isolation (isolated=true required)")
        else Ok parsed
    end.
End Call.

(** ** Base64 text *)

Lemma base64_digit_char n : is_base64_char (base64_digit n) = true.
Proof.
  assert (forallb (λ i, is_base64_char (default "A"%char (String.get i base64_alphabet))) (seq 0 64) = true) as H
    by (vm_compute; reflexivity).
  rewrite forallb_forall in H. apply (H (Z.to_nat (n mod 64))). pose proof (Z.mod_pos_bound n 64). apply list_elem_of_In, elem_of_seq. lia.
Qed.

(** Induction by groups of three bytes. *)
Lemma three_ind (P : string → Prop) :
  P "" → (∀ a, P (String a "")) → (∀ a b, P (String a (String b ""))) →
  (∀ a b c s, P s → P (String a (String b (String c s)))) → ∀ s, P s.
Proof.
  intros H0 H1 H2 H3 s. assert (∀ n s, (String.length s ≤ n)%nat → P s) as H; [|by apply (H (String.length s))].
  intros n. induction n as [|n IH]; intros [|a [|b [|c t]]] Hl; simpl in Hl; auto; try lia.
  apply H3, IH. lia.
Qed.

Lemma base64_text s : is_base64_text (base64 s) = true.
Proof.
  unfold is_base64_text. apply negb_true_iff. revert s. apply three_ind; [done|..];
    intros; cbn [base64 any_char]; rewrite !base64_digit_char; simpl; done.
Qed.

Lemma base64_length s : (3 * Z.of_nat (String.length (base64 s)) ≤ 4 * Z.of_nat (String.length s) + 8)%Z.
Proof. revert s. apply three_ind; intros; cbn [base64 String.length]; lia. Qed.

(** ** The sandbox environment *)

Lemma env_subset (m : jsmap string string) p : p ∈ foldl mdelete m SandboxEnv.proxy_keys → p ∈ m.
Proof.
  generalize SandboxEnv.proxy_keys. intros ks. revert m. induction ks as [|x ks IH]; intros m; simpl; [done|].
  intros Hin%IH. destruct (mget m x) eqn:E; [|by rewrite mdelete_absent in Hin].
  rewrite (mdelete_perm m x _ E). by right.
Qed.

Lemma mset_in (m : jsmap string string) k v p : p ∈ mset m k v → p = (k, v) ∨ p ∈ m.
Proof.
  intros Hp. rewrite mset_perm in Hp. apply elem_of_cons in Hp as [->|Hp]; [by left|right].
  destruct (mget m k) eqn:E; [|by rewrite mdelete_absent in Hp]. rewrite (mdelete_perm m k _ E). by right.
Qed.

Definition env_entry_ok (p : string * string) : Prop :=
  p.1 ∈ SandboxEnv.SAFE_ENV_KEYS ∧ (String.length p.2 ≤ Z.to_nat 2000)%nat.

Lemma slice0_within m n s : (m ≤ n)%nat → (String.length (slice0 m s) ≤ n)%nat.
Proof. intros H. pose proof (slice0_length m s). lia. Qed.

Lemma sanitizePath_length v : (String.length (SandboxEnv.sanitizePath v) ≤ Z.to_nat 2000)%nat.
Proof.
  unfold SandboxEnv.sanitizePath, or_str.
  destruct (truthy_str _); [apply slice0_length|]. apply Nat2Z.inj_le. rewrite Z2Nat.id by lia. vm_compute. congruence.
Qed.

Lemma base_env_ok e : Forall env_entry_ok (SandboxEnv.base_env e).
Proof.
  assert (∀ m k v, Forall env_entry_ok m → env_entry_ok (k, v) → Forall env_entry_ok (mset m k v)) as Hset.
  { intros m k v Hm Hv. apply Forall_forall. intros p [->|Hp]%mset_in; [done|]. by eapply Forall_forall in Hm. }
  assert (∀ k n s, bool_decide (k ∈ SandboxEnv.SAFE_ENV_KEYS) = true → (n ≤ Z.to_nat 2000)%nat → env_entry_ok (k, slice0 n s)) as Hk.
  { intros k n s Hin%bool_decide_eq_true Hn. split; [done|]. by apply slice0_within. }
  assert (env_entry_ok ("PATH", SandboxEnv.sanitizePath (or_str (SandboxEnv.env_get e "PATH") SandboxEnv.DEFAULT_SAFE_PATH))) as Hp.
  { split; [left|apply sanitizePath_length]. }
  unfold SandboxEnv.base_env. generalize (or_str (SandboxEnv.env_get e "LANG") "C.UTF-8") (or_str (SandboxEnv.env_get e "TERM") "dumb").
  intros lang term.
  assert (Forall env_entry_ok [("PATH", SandboxEnv.sanitizePath (or_str (SandboxEnv.env_get e "PATH") SandboxEnv.DEFAULT_SAFE_PATH));
    ("LANG", slice0 100 lang); ("TERM", slice0 50 term)]) as H0.
  { apply Forall_cons; split; [done|]. apply Forall_cons; split; [apply Hk; [reflexivity|lia]|].
    apply Forall_cons; split; [apply Hk; [reflexivity|lia]|by apply Forall_nil]. }
  destruct (truthy_str (SandboxEnv.env_get e "CI")), (truthy_str (SandboxEnv.env_get e "NODE_ENV"));
    repeat apply Hset; try exact H0; (apply Hk; [reflexivity|lia]).
Qed.

Lemma overrides_ok os m : Forall env_entry_ok m → Forall env_entry_ok (foldl SandboxEnv.apply_override m os).
Proof.
  revert m. induction os as [|o os IH]; intros m Hm; simpl; [done|]. apply IH. unfold SandboxEnv.apply_override.
  destruct (SandboxEnv.SECRET_ENV_RE o.1); [done|]. case_bool_decide; [|done].
  apply Forall_forall. intros p [->|Hp]%mset_in; [|by eapply Forall_forall in Hm].
  split; [done|]. simpl. apply slice0_length.
Qed.

(** A child process inherits nothing but the safe variables.  Whatever the
    process environment and the overrides hold, every variable of the sandbox
    environment is one of the six safe keys, none looks like a secret, and
    every value is at most 2000 characters. *)
Theorem sandbox_env_minimal process_env overrides k v :
  (k, v) ∈ SandboxEnv.buildSandboxEnv process_env overrides →
  k ∈ SandboxEnv.SAFE_ENV_KEYS ∧ SandboxEnv.SECRET_ENV_RE k = false ∧ (String.length v ≤ Z.to_nat 2000)%nat.
Proof.
  intros Hin%env_subset. apply list_elem_of_filter in Hin as [Hs Hin].
  pose proof (overrides_ok overrides _ (base_env_ok process_env)) as Ho.
  rewrite Forall_forall in Ho. destruct (Ho _ Hin) as [? ?]. done.
Qed.

Definition sample_env : jsmap string string :=
  [("PATH", "/home/eve/bin:/usr/bin"); ("OPENAI_API_KEY", "sk-1"); ("HTTPS_PROXY", "http://u:p@h"); ("CI", "1")].

Lemma sandbox_env_minimal_witness :
  SandboxEnv.buildSandboxEnv sample_env [("API_KEY", "x"); ("SHELL", "/bin/sh")] =
    [("PATH", "/usr/bin"); ("LANG", "C.UTF-8"); ("TERM", "dumb"); ("CI", "1"); ("SHELL", "/bin/sh")] ∧
  SandboxEnv.SECRET_ENV_RE "PATH" = false.
Proof.
  assert (SandboxEnv.buildSandboxEnv sample_env [("API_KEY", "x"); ("SHELL", "/bin/sh")] =
    [("PATH", "/usr/bin"); ("LANG", "C.UTF-8"); ("TERM", "dumb"); ("CI", "1"); ("SHELL", "/bin/sh")]) as E
    by (vm_compute; reflexivity).
  split; [exact E|].
  refine (proj1 (proj2 (sandbox_env_minimal sample_env [("API_KEY", "x"); ("SHELL", "/bin/sh")] "PATH" "/usr/bin" _))).
  rewrite E. left.
Defined.

(** A segment outside the system directories that shares their prefix stays. *)
Example sanitize_path_prefix :
  SandboxEnv.sanitizePath "/bin/../tmp/evil:/usr/bin-evil:/home/eve/bin" = "/bin/../tmp/evil:/usr/bin-evil".
Proof. vm_compute. reflexivity. Qed.

(** ** The snapshot *)

Section NodeInd.
Context (P : node → Prop).
Context (Hfile : ∀ n c, P (NFile n c)) (Hdir : ∀ es, Forall (λ e, P e.2) es → P (NDir (Some es)))
  (Hnone : P (NDir None)) (Hlink : P NLink) (Hother : P NOther) (Hgone : P NGone).

Fixpoint node_nested_ind (d : node) : P d :=
  match d with
  | NFile n c => Hfile n c
  | NDir (Some es) => Hdir es
      ((fix go es : Forall (λ e : string * node, P e.2) es := match es with
        | [] => @Forall_nil_2 _ _
        | e :: es => @Forall_cons_2 _ _ e es (node_nested_ind e.2) (go es)
        end) es)
  | NDir None => Hnone
  | NLink => Hlink
  | NOther => Hother
  | NGone => Hgone
  end.
End NodeInd.

Definition walked_name (name : string) : bool :=
  negb (SNAPSHOT_SKIP_PREFIX_RE name || SNAPSHOT_SKIP_RUNTIME_RE name).

(** [ships rel d p buf]: the directory [d], at the relative path [rel], holds at
    [p] a regular file with content [buf], reached through directories only,
    none of them skipped, whose name does not look like a secret. *)
Inductive ships : string → node → string → string → Prop :=
| ships_file rel es name size buf :
    (name, NFile size (Some buf)) ∈ es → walked_name name = true →
    SNAPSHOT_SKIP_BASENAME_RE name || SNAPSHOT_SKIP_SUFFIX_RE name = false →
    ships rel (NDir (Some es)) (join_rel rel name) buf
| ships_dir rel es name sub p buf :
    (name, NDir sub) ∈ es → walked_name name = true → name ∉ SNAPSHOT_SKIP_DIRS →
    ships (join_rel rel name) (NDir sub) p buf → ships rel (NDir (Some es)) p buf.

Section Walk.
Local Open Scope js_scope.
Context (maxFiles : nat) (maxTotalBytes maxFileBytes : Z).
Local Abbreviation walk := (walk maxFiles maxTotalBytes maxFileBytes).
Local Abbreviation add_file := (add_file maxTotalBytes maxFileBytes).

(** One entry of a directory. *)
Definition visit (rel : string) (s : snap) (e : string * node) : snap :=
  if bool_decide (maxFiles ≤ length (files s))%nat || bool_decide (maxTotalBytes ≤ total s)%Z
  then skip_one bump_count s
  else if SNAPSHOT_SKIP_PREFIX_RE e.1 || SNAPSHOT_SKIP_RUNTIME_RE e.1 then skip_one bump_count s
  else
    let relPath := join_rel rel e.1 in
    match e.2 with
    | NDir _ => if bool_decide (e.1 ∈ SNAPSHOT_SKIP_DIRS) then skip_one bump_dirs s else walk relPath e.2 s
    | NFile size content => add_file relPath e.1 size content s
    | NLink | NOther | NGone => skip_one bump_count s
    end.

Lemma walk_dir rel es s : walk rel (NDir (Some es)) s = foldl (visit rel) s es.
Proof. revert s. induction es as [|[name n] es IH]; intros s; [done|]. apply IH. Qed.

Definition sizes (l : list (string * string)) : Z :=
  foldr (λ p n, Z.of_nat (String.length p.2) + n)%Z 0%Z l.

(** The snapshot is the encoding of files that [Q] describes, within the limits. *)
Definition snap_inv (Q : string * string → Prop) (s : snap) : Prop :=
  (length (files s) ≤ maxFiles)%nat ∧ (total s ≤ maxTotalBytes)%Z ∧
  ∃ l, files s = (λ p, (p.1, base64 p.2)) <$> l ∧ total s = sizes l ∧
    Forall (λ p, (Z.of_nat (String.length p.2) ≤ maxFileBytes)%Z ∧ Q p) l.

Lemma snap_inv_skip Q f s : snap_inv Q s → snap_inv Q (skip_one f s).
Proof. done. Qed.

Lemma snap_inv_weaken (Q Q' : string * string → Prop) s : (∀ p, Q p → Q' p) → snap_inv Q s → snap_inv Q' s.
Proof.
  intros HQ (H1 & H2 & l & H3 & H4 & H5). split; [done|]. split; [done|]. exists l. split; [done|]. split; [done|].
  eapply Forall_impl; [exact H5|]. naive_solver.
Qed.

Lemma sizes_snoc l p : sizes (l ++ [p])%list = (sizes l + Z.of_nat (String.length p.2))%Z.
Proof. induction l as [|q l IH]; simpl; [lia|]. fold sizes in *. unfold sizes in *. simpl. lia. Qed.

Lemma snap_inv_add Q relPath name size content s :
  snap_inv Q s → (length (files s) < maxFiles)%nat →
  (∀ buf, content = Some buf → SNAPSHOT_SKIP_BASENAME_RE name || SNAPSHOT_SKIP_SUFFIX_RE name = false → Q (relPath, buf)) →
  snap_inv Q (add_file relPath name size content s).
Proof.
  intros Hs Hlt HQ. unfold Isolation.add_file. destruct (_ || _) eqn:En; [by apply snap_inv_skip|].
  case_bool_decide; [by apply snap_inv_skip|]. destruct content as [buf|]; [|by apply snap_inv_skip].
  case_bool_decide; [by apply snap_inv_skip|]. case_bool_decide; [by apply snap_inv_skip|].
  destruct Hs as (Hs1 & Hs2 & l & Hs3 & Hs4 & Hs5). split; [cbn; rewrite length_app; simpl; lia|]. split; [cbn; lia|].
  exists (l ++ [(relPath, buf)])%list. cbn. rewrite Hs3, fmap_app, sizes_snoc, Hs4. split; [done|]. split; [done|].
  apply Forall_app. split; [done|]. apply Forall_singleton. split; [simpl; lia|by apply HQ].
Qed.

Lemma walk_inv d rel Q s :
  snap_inv Q s → (∀ p buf, ships rel d p buf → Q (p, buf)) → snap_inv Q (walk rel d s).
Proof.
  revert rel s. induction d as [n c|es IH| | | |] using node_nested_ind; intros rel s Hs HQ; try done.
  rewrite walk_dir.
  assert (∀ e, e ∈ es → ∀ s, snap_inv Q s → snap_inv Q (visit rel s e)) as Hv.
  { intros [name n] He s0 Hs0. unfold visit. cbn [fst snd].
    destruct (_ || _) eqn:El; [by apply snap_inv_skip|]. apply orb_false_iff in El as [El _].
    apply bool_decide_eq_false in El.
    destruct (SNAPSHOT_SKIP_PREFIX_RE name || SNAPSHOT_SKIP_RUNTIME_RE name) eqn:Ew; [by apply snap_inv_skip|].
    assert (walked_name name = true) as Hw by (unfold walked_name; by rewrite Ew).
    destruct n as [size content|sub| | |]; try by apply snap_inv_skip.
    - apply snap_inv_add; [done|lia|]. intros buf -> En. apply HQ. by eapply ships_file.
    - case_bool_decide; [by apply snap_inv_skip|]. rewrite Forall_forall in IH. apply (IH _ He); [done|].
      intros p buf Hp. apply HQ. by eapply ships_dir. }
  clear IH HQ. revert s Hs. induction es as [|e es IHes]; intros s Hs; simpl; [done|].
  apply IHes; [|apply Hv; [by left|done]]. intros e' He'. apply Hv. by right.
Qed.
End Walk.

Definition snapshot (root : node) : res snap :=
  snapshotWorkspace SNAPSHOT_MAX_FILES SNAPSHOT_MAX_TOTAL_BYTES SNAPSHOT_MAX_FILE_BYTES root.

Lemma snapshot_inv root s :
  snapshot root = Ok s →
  snap_inv SNAPSHOT_MAX_FILES SNAPSHOT_MAX_TOTAL_BYTES SNAPSHOT_MAX_FILE_BYTES (λ p, ships "" root p.1 p.2) s.
Proof.
  unfold snapshot, snapshotWorkspace. intros H.
  assert (s = walk SNAPSHOT_MAX_FILES SNAPSHOT_MAX_TOTAL_BYTES SNAPSHOT_MAX_FILE_BYTES "" root (Snap [] (Skipped 0 0 0 0) 0))
    as -> by (destruct root; congruence).
  apply walk_inv; [|done].
  split; [cbn; lia|]. split; [cbn; unfold SNAPSHOT_MAX_TOTAL_BYTES; lia|]. by exists [].
Qed.

(** The worker's caps leave room for the encoding. *)
Lemma check_files l acc :
  Forall (λ p : string * string, (Z.of_nat (String.length p.2) ≤ SNAPSHOT_MAX_FILE_BYTES)%Z ∧
    is_Some (match assertWorkspaceRelPath (JStr p.1) with Ok _ => Some tt | Throw _ => None end)) l →
  (0 ≤ acc)%Z →
  (acc * 3 + 4 * sizes l + 8 * Z.of_nat (length l) ≤ SNAPSHOT_MAX_TOTAL_BYTES * 4 + 1024 * 3)%Z →
  ∃ t, fold_res check_file acc
    ((λ p : string * string, JObj [("path", JStr p.1); ("contentBase64", JStr (base64 p.2))]) <$> l) = Ok t.
Proof.
  revert acc. induction l as [|[p buf] l IH]; intros acc Hl Ha Hle; [by exists acc|].
  apply Forall_cons in Hl as [[Hb Hp] Hl]. cbn [fst snd] in *.
  destruct (assertWorkspaceRelPath (JStr p)) as [norm|] eqn:Ep; [|by destruct Hp].
  pose proof (base64_length buf). pose proof (base64_text buf) as Ht.
  assert (string_or_empty (JStr (base64 buf)) = base64 buf) as Es.
  { unfold string_or_empty. simpl. by destruct (base64 buf). }
  change (sizes ((p, buf) :: l)) with (Z.of_nat (String.length buf) + sizes l)%Z in Hle. simpl length in Hle.
  assert (0 ≤ sizes l)%Z as Hpos by (clear; induction l as [|q l IH]; simpl; lia).
  assert (check_file acc (JObj [("path", JStr p); ("contentBase64", JStr (base64 buf))]) =
    Ok (acc + Z.of_nat (String.length (base64 buf)))%Z) as Ec.
  { unfold check_file.
    change (prop (JObj [("path", JStr p); ("contentBase64", JStr (base64 buf))]) "path") with (JStr p).
    change (prop (JObj [("path", JStr p); ("contentBase64", JStr (base64 buf))]) "contentBase64") with (JStr (base64 buf)).
    rewrite Ep, Es, Ht. cbn [is_object negb mbind res_bind]. by rewrite !bool_decide_eq_false_2 by lia. }
  change (∃ t, (a' ← check_file acc (JObj [("path", JStr p); ("contentBase64", JStr (base64 buf))]);
    fold_res check_file a' ((λ p : string * string, JObj [("path", JStr p.1); ("contentBase64", JStr (base64 p.2))]) <$> l)) = Ok t).
  rewrite Ec. cbn [mbind res_bind]. apply IH; [done|lia|lia].
Qed.

Lemma validate_files F :
  (length F ≤ SNAPSHOT_MAX_FILES)%nat → (∃ t, fold_res check_file 0%Z F = Ok t) →
  validateWorkspaceSnapshot (JObj [("files", JArr F)]) = Ok tt.
Proof.
  intros Hl [t Et].
  assert (validateWorkspaceSnapshot (JObj [("files", JArr F)]) =
    if bool_decide (SNAPSHOT_MAX_FILES < length F)%nat then Throw (err "denied" "workspace snapshot exceeds 200 files")
    else _ ← fold_res check_file 0%Z F; Ok tt) as -> by done.
  rewrite bool_decide_eq_false_2 by lia. by rewrite Et.
Qed.

(** A workspace snapshot keeps its contract with the worker.  Whatever the
    tree, it has at most 200 files, at most 8 MiB in total and 1 MiB each; every
    file of it is a regular file reached through directories only (never a
    link), under no skipped directory, whose name does not look like a secret,
    with its content in base64.  Once the names are acceptable workspace paths,
    the request validation accepts the snapshot: its own size caps never refuse
    what the client collected. *)
Theorem snapshot_within_contract root s :
  snapshot root = Ok s →
  (length (files s) ≤ SNAPSHOT_MAX_FILES)%nat ∧ (total s ≤ SNAPSHOT_MAX_TOTAL_BYTES)%Z ∧
  (∀ p content, (p, content) ∈ files s →
    ∃ buf, content = base64 buf ∧ ships "" root p buf ∧ (Z.of_nat (String.length buf) ≤ SNAPSHOT_MAX_FILE_BYTES)%Z) ∧
  ((∀ p content, (p, content) ∈ files s → ∃ norm, assertWorkspaceRelPath (JStr p) = Ok norm) →
   validateWorkspaceSnapshot (workspacePayload (snap_json s)) = Ok tt).
Proof.
  intros (H1 & H2 & l & H3 & H4 & H5)%snapshot_inv. split; [done|]. split; [done|]. split.
  - intros p content Hin. rewrite H3 in Hin. apply list_elem_of_fmap in Hin as ([q buf] & [= -> ->] & Hin).
    rewrite Forall_forall in H5. destruct (H5 _ Hin). by exists buf.
  - intros Hp. change (workspacePayload (snap_json s)) with (JObj [("files", JArr ((λ f, JObj [("path", prop f "path"); ("contentBase64", prop f "contentBase64")])
      <$> ((λ f : string * string, JObj [("path", JStr f.1); ("contentBase64", JStr f.2)]) <$> files s)))]).
    rewrite H3, length_fmap in H1. apply validate_files; [by rewrite !length_fmap, H3, length_fmap|].
    rewrite H3, <- !list_fmap_compose. apply (check_files l 0).
    + rewrite Forall_forall in H5 |- *. intros [p buf] Hin. destruct (H5 _ Hin) as [? _]. split; [done|].
      destruct (Hp p (base64 buf)) as [norm E]; [|cbn [fst]; by rewrite E]. rewrite H3. apply list_elem_of_fmap. by exists (p, buf).
    + lia.
    + unfold SNAPSHOT_MAX_FILES, SNAPSHOT_MAX_TOTAL_BYTES in *. lia.
Qed.

Definition sample_tree : node := NDir (Some [
  ("src", NDir (Some [("a.js", NFile 5 (Some "hello")); ("link", NLink); (".env", NFile 3 (Some "K=1"))]));
  ("node_modules", NDir (Some [("x.js", NFile 1 (Some "x"))])); ("server.key", NFile 2 (Some "pk"))]).

Definition sample_snap : snap := match snapshot sample_tree with Ok s => s | Throw _ => Snap [] (Skipped 0 0 0 0) 0 end.

Lemma snapshot_within_contract_witness :
  files sample_snap = [("src/a.js", "aGVsbG8=")] ∧ validateWorkspaceSnapshot (workspacePayload (snap_json sample_snap)) = Ok tt.
Proof.
  assert (files sample_snap = [("src/a.js", "aGVsbG8=")]) as E by (vm_compute; reflexivity).
  assert (snapshot sample_tree = Ok sample_snap) as Es by (vm_compute; reflexivity).
  split; [exact E|].
  destruct (snapshot_within_contract sample_tree sample_snap Es) as (_ & _ & _ & H). apply H.
  intros p content Hin. rewrite E in Hin. apply list_elem_of_singleton in Hin. injection Hin as -> ->.
  eexists. vm_compute. reflexivity.
Defined.
