(* ===== verification/CommandRun.v ===== *)
(** Running a command for a tool: the routing of
    backend/src/impl/tool-executor.js between the isolated worker and a local
    restricted child process ([runCommandSandboxed] and what it calls).

    Programs run over the record of what left the process: child processes and
    requests.  [execFile] and the worker are parameters; the worker's replies
    are arbitrary JSON values. *)

From S2P Require Import Prelude StateM JsMap JsValue Text Paths Policy CommandGuard Isolation.

Local Open Scope string_scope.

(* [src/backend/src/impl/tool-executor.js:422-430] command spec *)
Record spec := Spec { cmd : string; args : list string; label : option string }.

(** The context a handler gets; [policy_net]: the policy's network mode and
    allowlist; [executor]: the override of the isolated executor (its
    environment, its URL, its token). *)
Record override := Override {
  ov_env : option (jsmap string string); ov_baseUrl : option (option string); ov_token : option string;
}.
Record context := Context_ {
  workspace : option string;
  runId : option string; tenantId : option string; projectId : option string; workspaceId : option string;
  policy_net : option (string * list string);
  isolatedExecutor : option override;
}.

Inductive left_process :=
| Spawned (env : jsmap string string) (command : string) (argv : list string)
| Posted (body : jsval) (baseUrl : string) (token : option string).

Inductive route := Local_ | Remote (baseUrl : string) (token : option string).

Record command_result := CommandResult {
  passed : bool; command : string; cr_exitCode : option Z; cr_stdout : string; cr_stderr : string;
  cr_truncated : bool; cr_isolated : bool; cr_executor : string;
}.

(** How the child ended: [error.killed], [error.signal], [error.code]. *)
Record child_exit := ChildExit {
  ce_error : option (bool * option string * option Z); ce_stdout : string; ce_stderr : string;
}.

Section Run.
Context (h : host) (process_env : jsmap string string).
Context (tree : string → node).
Context (execFile : jsmap string string → string → list string → child_exit).
Context (executeIsolated : jsval → res jsval).

Local Abbreviation Run := (M (list left_process)).

Definition env_of (ctx : context) : jsmap string string := default process_env (isolatedExecutor ctx ≫= ov_env).

(* [src/backend/src/impl/tool-executor.js:217-229] routeCommandExecution *)
Definition routeCommandExecution (toolName : string) (ctx : context) : res route :=
  let env := env_of ctx in
  let baseUrl := match isolatedExecutor ctx ≫= ov_baseUrl with
                 | Some b => b
                 | None => getIsolatedExecutorUrl env
                 end in
  if isProductionEnv env && toolRequiresIsolation toolName then
    if truthy baseUrl then
      Ok (Remote (default "" baseUrl)
            (let t := isolatedExecutor ctx ≫= ov_token in
             if truthy t then t
             else let e := mget env "ISOLATED_EXECUTOR_TOKEN" in if truthy e then e else None))
    else Throw (sandboxUnavailableError toolName)
  else Ok Local_.

(** [path.relative(from, to)] on absolute paths. *)
Fixpoint relative_segments (a b : list string) : list string :=
  match a, b with
  | x :: a', y :: b' => if decide (x = y) then relative_segments a' b' else ((λ _, "..") <$> a) ++ b
  | _, _ => ((λ _, "..") <$> a) ++ b
  end.
Definition path_relative (a b : string) : string := js_join "/" (relative_segments (segments a) (segments b)).

(* [src/backend/src/impl/tool-executor.js:238-247] toIsolatedRequest, node target *)
Definition relative_target (ws : string) (s : spec) : res (list string) :=
  match args s with
  | a :: rest =>
      if bool_decide (cmd s = "node") && truthy_str a then
        let rel := path_relative ws (path_resolve (h_cwd h) a) in
        if negb (truthy_str rel) || starts_with ".." rel || isAbsolute rel then
          Throw (err "denied" "node target escapes workspace")
        else Ok (backslash_to_slash rel :: rest)
      else Ok (a :: rest)
  | [] => Ok []
  end.

Definition or_null (s : option string) : jsval := match s with Some s => if truthy_str s then JStr s else JNull | None => JNull end.

(* [src/backend/src/impl/tool-executor.js:237-282] toIsolatedRequest *)
Definition toIsolatedRequest (toolName : string) (s : spec) (ctx : context) (timeoutMs maxOutputBytes : Z) : res jsval :=
  let ws := resolveWorkspaceRoot h (workspace ctx) in
  args ← relative_target ws s;
  _ ← guard (negb (existsb (λ a, host_path (JStr a)) args)) (err "denied" "host path outside worker workspace refused");
  ws ← match snapshot (tree ws) with
       | Ok s => Ok s
       | Throw e => Throw (err "denied" ("workspace snapshot failed: " ++ slice0 160 (err_msg e)))
       end;
  Ok (JObj [("toolName", JStr toolName);
            ("runId", JStr (if truthy (runId ctx) then default "" (runId ctx) else "unknown-run"));
            ("tenantId", or_null (tenantId ctx)); ("projectId", or_null (projectId ctx));
            ("workspaceId", or_null (workspaceId ctx));
            ("command", JStr (cmd s)); ("args", JArr (JStr <$> args)); ("cwd", JStr "/");
            ("timeoutMs", JNum timeoutMs); ("maxOutputBytes", JNum maxOutputBytes);
            ("networkMode", JStr (or_str (from_option fst "" (policy_net ctx)) "disabled"));
            ("networkAllowlist", JArr (JStr <$> from_option snd [] (policy_net ctx)));
            ("workspace", snap_json ws)]).

(** The last [n] bytes, [n > 0]. *)
(* [src/backend/src/impl/tool-executor.js:284-288] capText *)
Definition capText (s : string) (n : nat) : string * bool :=
  let truncated := bool_decide (n < String.length s)%nat in
  (if truncated then string_drop (String.length s - n) s else s, truncated).

Definition spec_label (s : spec) : string :=
  if truthy (label s) then default "" (label s) else trim (cmd s ++ " " ++ js_join " " (args s)).

(* [src/backend/src/impl/tool-executor.js:380-393] runCommandLocal, error *)
Definition local_error (e : bool * option string * option Z) (out err : string) : js_error :=
  let '(killed, signal, code) := e in
  if killed && bool_decide (signal = Some "SIGTERM") then JsError (Some "timeout") "Test command timed out"
  else JsError (Some "test_failure")
         ("Tests failed (exit " ++ match code with Some c => string_of_Z c | None => "?" end ++ "): " ++
          string_drop (String.length (out ++ err) - 500) (out ++ err)).

(* [src/backend/src/impl/tool-executor.js:359-401] runCommandLocal *)
Definition runCommandLocal (s : spec) (maxOutputBytes : Z) : Run command_result := λ log,
  let env := SandboxEnv.buildSandboxEnv process_env [] in
  let r := execFile env (cmd s) (args s) in
  let (out, t1) := capText (ce_stdout r) (Z.to_nat (maxOutputBytes * 2 / 3)) in
  let (err, t2) := capText (ce_stderr r) (Z.to_nat (maxOutputBytes / 3)) in
  ((log ++ [Spawned env (cmd s) (args s)])%list,
   match ce_error r with
   | Some e => Throw (local_error e out err)
   | None => Ok (CommandResult true (default "undefined" (label s)) (Some 0%Z) out err (t1 || t2) false "local-restricted")
   end).

Definition post (body : jsval) (baseUrl : string) (token : option string) : Run (res jsval) := λ log,
  ((log ++ [Posted body baseUrl token])%list, Ok (executeIsolated body)).

(** The worker's failures keep their code only when it is one of these. *)
(* [src/backend/src/impl/tool-executor.js:317-323] runCommandSandboxed, catch *)
Definition isolated_failure (e : js_error) : js_error :=
  if bool_decide (err_code e ∈ (Some <$> ["sandbox_unavailable"; "denied"; "bad_params"; "executor_malformed"])) then e
  else err "sandbox_unavailable" ("isolated executor unavailable: " ++ slice0 200 (err_msg e)).

(* [src/backend/src/impl/tool-executor.js:303-354] runCommandSandboxed, isolated *)
Definition run_isolated (toolName : string) (s : spec) (ctx : context) (timeoutMs maxOutputBytes : Z)
    (baseUrl : string) (token : option string) : Run command_result :=
  body ← lift (toIsolatedRequest toolName s ctx timeoutMs maxOutputBytes);
  reply ← post body baseUrl token;
  match (json ← reply; validateExecuteResponse json) with
  | Throw e => throw (isolated_failure e)
  | Ok r =>
      let (out, t1) := capText (stdout r) (Z.to_nat maxOutputBytes) in
      let (errOut, t2) := capText (stderr r) (Z.to_nat (maxOutputBytes / 2)) in
      if timedOut r then throw (JsError (Some "timeout") "Test command timed out")
      else mret (CommandResult (bool_decide (exitCode r = Some 0%Z)) (spec_label s) (exitCode r) out errOut
                   (t1 || t2) true "isolated")
  end.

(* [src/backend/src/impl/tool-executor.js:294-357] runCommandSandboxed *)
Definition runCommandSandboxed (toolName : string) (s : spec) (ctx : context) (timeoutMs maxOutputBytes : Z)
    : Run command_result :=
  r ← lift (routeCommandExecution toolName ctx);
  _ ← match validateArgv h (cmd s :: args s) (workspace ctx) with
      | Ok _ => mret tt
      | Throw e => throw (JsError (Some (if truthy (err_code e) then default "" (err_code e) else "denied"))
                            (slice0 200 (err_msg e)))
      end;
  match r with
  | Remote baseUrl token => run_isolated toolName s ctx timeoutMs maxOutputBytes baseUrl token
  | Local_ => runCommandLocal s maxOutputBytes
  end.
End Run.

(** ** Where commands run *)

Section Properties.
Context (h : host) (process_env : jsmap string string) (tree : string → node).
Context (execFile : jsmap string string → string → list string → child_exit) (executeIsolated : jsval → res jsval).
Local Abbreviation run := (runCommandSandboxed h process_env tree execFile executeIsolated).

Definition required_isolation (toolName : string) (ctx : context) : bool :=
  isProductionEnv (env_of process_env ctx) && toolRequiresIsolation toolName.

Lemma response_attested json r : validateExecuteResponse json = Ok r → prop json "isolated" = JBool true.
Proof.
  unfold validateExecuteResponse. intros (? & _ & H)%res_bind_ok.
  apply res_bind_ok in H as (? & _ & H). apply res_bind_ok in H as (? & Hg & _).
  unfold guard in Hg. by destruct (prop json "isolated") as [| |[]| | | |].
Qed.

(** What a run through the worker leaves and returns. *)
Lemma run_isolated_spec toolName s ctx t m url token :
  let out := run_isolated h tree executeIsolated toolName s ctx t m url token [] in
  (out.1 = [] ∧ (∃ e, out.2 = Throw e)) ∨
  (∃ body, toIsolatedRequest h tree toolName s ctx t m = Ok body ∧ out.1 = [Posted body url token] ∧
    (∀ e, executeIsolated body = Throw e → out.2 = Throw (isolated_failure e)) ∧
    (∀ r, out.2 = Ok r → cr_isolated r = true ∧ cr_executor r = "isolated" ∧
       ∃ json, executeIsolated body = Ok json ∧ prop json "isolated" = JBool true)).
Proof.
  unfold run_isolated, lift, post, mbind, M_bind, res_bind. cbv beta iota zeta.
  destruct (toIsolatedRequest h tree toolName s ctx t m) as [body|e]; [right|left; split; [done|by exists e]].
  exists body. split; [done|]. destruct (executeIsolated body) as [json|e]; cbn [fst snd].
  2:{ split; [done|]. split; [by intros e' [= ->]|done]. }
  destruct (validateExecuteResponse json) as [r|e] eqn:Er; [|split; [done|]; split; done].
  destruct (capText (stdout r) _) as [out t1], (capText (stderr r) _) as [errOut t2].
  destruct (timedOut r); (split; [done|]; split; [done|]); [done|].
  intros r' [= <-]. split; [done|]. split; [done|]. exists json. split; [done|]. by eapply response_attested.
Qed.

Lemma request_args_safe toolName s ctx t m body :
  toIsolatedRequest h tree toolName s ctx t m = Ok body →
  ∃ l, prop body "args" = JArr (JStr <$> l) ∧ Forall (λ a, host_path (JStr a) = false) l.
Proof.
  unfold toIsolatedRequest. intros (l & _ & H)%res_bind_ok. apply res_bind_ok in H as (? & Hg & H).
  apply res_bind_ok in H as (? & _ & [= <-]). exists l. split; [done|].
  unfold guard in Hg. destruct (existsb _ l) eqn:E; [done|]. apply Forall_forall. intros a Ha.
  destruct (host_path (JStr a)) eqn:Ea; [|done]. enough (existsb (λ a, host_path (JStr a)) l = true) by congruence.
  apply existsb_exists. exists a. split; [by apply list_elem_of_In|done].
Qed.
End Properties.

(** Whatever leaves the process has passed the command guard, and is no child process
    where isolation is required. *)
Lemma what_leaves h process_env tree execFile executeIsolated toolName s ctx t m x :
  x ∈ (runCommandSandboxed h process_env tree execFile executeIsolated toolName s ctx t m []).1 →
  (∃ argv, validateArgv h (cmd s :: args s) (workspace ctx) = Ok argv) ∧
  match x with
  | Spawned env c a => c = cmd s ∧ a = args s ∧ env = SandboxEnv.buildSandboxEnv process_env [] ∧
      required_isolation process_env toolName ctx = false
  | Posted body _ _ => ∃ l, prop body "args" = JArr (JStr <$> l) ∧ Forall (λ a, host_path (JStr a) = false) l
  end.
Proof.
  unfold runCommandSandboxed, lift, mbind, M_bind. cbv beta iota zeta.
  destruct (routeCommandExecution process_env toolName ctx) as [r|e] eqn:Er; [|by intros ?%not_elem_of_nil].
  destruct (validateArgv h (cmd s :: args s) (workspace ctx)) as [argv|e] eqn:Ev; cbn [throw mret M_ret]; [|by intros ?%not_elem_of_nil].
  unfold mret, M_ret. cbv beta iota zeta. destruct r as [|url token].
  - unfold runCommandLocal. destruct (capText _ _), (capText _ _). cbn [fst].
    intros Hx%list_elem_of_singleton. subst x. split; [by eexists|]. split_and!; try done.
    unfold routeCommandExecution in Er. unfold required_isolation.
    destruct (isProductionEnv _ && toolRequiresIsolation toolName); [|done]. by destruct (truthy _).
  - destruct (run_isolated_spec h tree executeIsolated toolName s ctx t m url token)
      as [[E1 [e E2]]|(body & Eb & E1 & He & Ho)]; cbv zeta in E1; rewrite E1; [by intros ?%not_elem_of_nil|].
    intros Hx%list_elem_of_singleton. subst x. split; [by eexists|]. by eapply request_args_safe.
Qed.

Lemma route_refused process_env toolName ctx e :
  routeCommandExecution process_env toolName ctx = Throw e → err_code e = Some "sandbox_unavailable".
Proof. unfold routeCommandExecution. repeat case_match; try done; by intros [= <-]. Qed.

(** No worker is configured: the override of the context, if it has one, is
    empty, and else the variable is. *)
Definition no_executor (process_env : jsmap string string) (ctx : context) : Prop :=
  match isolatedExecutor ctx ≫= ov_baseUrl with
  | Some b => b = None ∨ b = Some ""
  | None => trim (SandboxEnv.env_get (env_of process_env ctx) "ISOLATED_EXECUTOR_URL") = ""
  end.

Lemma route_unconfigured process_env toolName ctx :
  required_isolation process_env toolName ctx = true → no_executor process_env ctx →
  routeCommandExecution process_env toolName ctx = Throw (sandboxUnavailableError toolName).
Proof.
  unfold required_isolation, no_executor, routeCommandExecution. cbv zeta. intros -> Hn.
  destruct (isolatedExecutor ctx ≫= ov_baseUrl) as [b|]; [by destruct Hn as [-> | ->]|].
  unfold getIsolatedExecutorUrl. by rewrite Hn.
Qed.


(** A production run of the tests, and a worker that is down. *)
Definition prod_ctx : context :=
  Context_ (Some "/w") (Some "run-1") None None None None
    (Some (Override (Some [("NODE_ENV", "production")]) (Some (Some "http://worker:9")) None)).

(** Production without a worker. *)
Definition unconfigured_ctx : context :=
  Context_ (Some "/w") (Some "run-1") None None None None
    (Some (Override (Some [("NODE_ENV", "production")]) None None)).

Definition demo_run (worker : jsval → res jsval) :=
  runCommandSandboxed sample_host [] (λ _, NDir (Some [("a.js", NFile 1 (Some "x"))]))
    (λ _ _ _, ChildExit None "local" "") worker "run_tests" (Spec "npm" ["test"] None) prod_ctx 1000 600 [].

Definition attesting (body : jsval) : res jsval :=
  Ok (JObj [("ok", JBool true); ("exitCode", JNum 0); ("stdout", JStr "passed"); ("stderr", JStr "");
            ("timedOut", JBool false); ("durationMs", JNum 5); ("isolated", JBool true)]).

