(* ===== verification/ToolExecutor.v ===== *)
(** The tool executor: backend/src/impl/tool-executor.js
    ([InMemoryToolExecutor], command routing, result validation) and the tool
    registry of backend/src/impl/tool-registry.js, with the provenance tags of
    backend/src/execution/provenance.js.

    A call of [execute] is two uninterrupted parts here: [execute], up to the
    start of the handler, and [settle], from the moment the race between the
    handler, the timeout and the cancellation is decided.  Calls interleave in
    between ([xstep]).  What the handler does is outside; the gate is a
    parameter with the results of the execution controller's (Controller.v);
    the durable store is the one of Idempotency.v.  Costs count thousandths. *)

From S2P Require Import Prelude StateM JsMap JsValue Text ToolSystem Policy Isolation.
From S2P Require Controller Idempotency CommandGuard.

Local Open Scope string_scope.
Local Open Scope js_scope.

(** ** Provenance *)

Module Provenance.
(* [src/backend/src/execution/provenance.js:15-22] PROVENANCE_SOURCES *)
Inductive source := USER | OPERATOR_POLICY | REPO_CONTENT | TOOL_OUTPUT | FETCHED_CONTENT | MODEL_OUTPUT.

#[export] Instance source_eq_dec : EqDecision source.
Proof. solve_decision. Defined.

(* [src/backend/src/execution/provenance.js:25-30] UNTRUSTED_SOURCES *)
Definition UNTRUSTED_SOURCES : list source := [REPO_CONTENT; TOOL_OUTPUT; FETCHED_CONTENT; MODEL_OUTPUT].

Record t := Tag {
  p_source : source; trustedAsInstruction : bool; instructionAuthority : string;
  p_runId : option string; p_toolName : option string;
}.

(* [src/backend/src/execution/provenance.js:32-47] buildProvenance *)
Definition buildProvenance (s : source) (runId toolName : option string) : t :=
  Tag s (negb (bool_decide (s ∈ UNTRUSTED_SOURCES)))
    (if bool_decide (s = USER ∨ s = OPERATOR_POLICY) then "principal" else "none") runId toolName.
End Provenance.

(** ** The registry *)

(* [src/backend/src/impl/tool-registry.js:32-57] registered record *)
Record tool := Tool {
  t_name : string;
  t_status : string;
  t_schema : option schema;
  t_riskLevel : RiskLevel.t;
  t_requiresApproval : bool;
  t_timeoutMs : Z;
  t_costPerCall : Z;
  t_capabilities : list string;
}.

#[export] Instance tool_eta : Eta tool := λ t,
  Tool (t_name t) (t_status t) (t_schema t) (t_riskLevel t) (t_requiresApproval t) (t_timeoutMs t)
    (t_costPerCall t) (t_capabilities t).

(** What a caller registers; a missing field is [None]. *)
Record tool_request := ToolRequest {
  q_name : string;
  q_status : option string;
  q_disabled : bool;
  q_schema : option schema;
  q_riskLevel : option RiskLevel.t;
  q_requiresApproval : bool;
  q_timeoutMs : Z;
  q_costPerCall : Z;
  q_capabilities : list string;
}.

Definition banned_names : list string := ["shell"; "exec"; "run_any_command"; "run_shell"; "bash"; "sh"].

(* [src/backend/src/impl/tool-registry.js:25-66] registerTool *)
Definition registerTool (q : tool_request) (tools : jsmap string tool) : res (jsmap string tool) :=
  if bool_decide (q_name q ∈ banned_names) then
    Throw (JsError None ("tool name not allowed: " ++ q_name q ++ " (raw shell execution is never exposed)"))
  else
    let t := Tool (q_name q)
      (if truthy (q_status q) then default "" (q_status q) else if q_disabled q then "disabled" else "enabled")
      (Some (default (Schema [] []) (q_schema q)))
      (default RiskLevel.LOW (q_riskLevel q)) (q_requiresApproval q)
      (if decide (q_timeoutMs q = 0)%Z then 30000 else q_timeoutMs q)
      (if decide (q_costPerCall q = 0)%Z then 1 else q_costPerCall q) (q_capabilities q) in
    Ok (mset tools (t_name t) t).

(* [src/backend/src/impl/tool-registry.js:68-79] unregisterTool *)
Definition unregisterTool (name : string) (tools : jsmap string tool) : jsmap string tool * bool :=
  if mhas tools name then (mdelete tools name, true) else (tools, false).

(** [updates]: the fields of the record that change, its name too. *)
(* [src/backend/src/impl/tool-registry.js:81-93] updateTool *)
Definition updateTool (name : string) (updates : tool → tool) (tools : jsmap string tool) : jsmap string tool :=
  match mget tools name with Some t => mset tools name (updates t) | None => tools end.

(* [src/backend/src/impl/tool-registry.js:95-97] getToolsByCapability *)
Definition getToolsByCapability (capability : string) (tools : jsmap string tool) : list tool :=
  filter (λ t, capability ∈ t_capabilities t) (mvalues tools).

(** ** Results *)

(** What the executor keeps of an execution. *)
(* [src/backend/src/impl/tool-executor.js:938-987] _createResult, result *)
Record xresult := XResult {
  x_tool : string;
  x_status : string;
  x_code : string;
  x_output : jsval;
  x_error : option string;
  x_latencyMs : Z;
  x_cost : Z;
  x_executionId : string;
  x_idempotencyKey : option string;
  x_approvalId : option string;
  x_deduped : bool;
  x_isolated : bool;
  x_executor : option string;
  x_timedOut : bool;
  x_provenance : option Provenance.t;
}.

#[export] Instance xresult_eta : Eta xresult := λ r,
  XResult (x_tool r) (x_status r) (x_code r) (x_output r) (x_error r) (x_latencyMs r) (x_cost r)
    (x_executionId r) (x_idempotencyKey r) (x_approvalId r) (x_deduped r) (x_isolated r) (x_executor r)
    (x_timedOut r) (x_provenance r).

(** [success] of a result. *)
Definition x_success (r : xresult) : bool := bool_decide (x_status r = ToolStatus.value ToolStatus.SUCCESS).

Record extra := Extra {
  ex_executionId : option string; ex_idempotencyKey : option string; ex_code : option string;
  ex_status : option string; ex_approvalId : option string;
}.
Definition no_extra : extra := Extra None None None None None.

#[export] Instance extra_eta : Eta extra := λ e,
  Extra (ex_executionId e) (ex_idempotencyKey e) (ex_code e) (ex_status e) (ex_approvalId e).

(** The sixth argument is a number, or the object that belongs seventh;
    [newId]: the id a result without one draws. *)
(* [src/backend/src/impl/tool-executor.js:938-987] _createResult *)
Definition createResult (newId toolName : string) (success : bool) (result : jsval) (error : option string)
    (latencyMs : Z) (cost : Z + extra) (e : option extra) : xresult :=
  let '(cost, e) := match cost, e with
    | inl c, _ => (c, default no_extra e)
    | inr ex, None => (0%Z, ex)
    | inr _, Some e => (0%Z, e)
    end in
  let status := if truthy (ex_status e) then default "" (ex_status e)
    else ToolStatus.value (if success then ToolStatus.SUCCESS else ToolStatus.FAILURE) in
  let ok := bool_decide (status = ToolStatus.value ToolStatus.SUCCESS) in
  XResult toolName status (if ok then "success" else if truthy (ex_code e) then default "" (ex_code e) else status)
    result (if truthy error then error else None) latencyMs cost
    (if truthy (ex_executionId e) then default "" (ex_executionId e) else newId)
    (if truthy (ex_idempotencyKey e) then ex_idempotencyKey e else None)
    (if truthy (ex_approvalId e) then ex_approvalId e else None)
    false false None (bool_decide (status = ToolStatus.value ToolStatus.TIMED_OUT)) None.

Definition is_obj (v : jsval) : bool := match v with JObj _ => true | _ => false end.

(** [k in v] *)
Definition has_prop (v : jsval) (k : string) : bool := match v with JObj fs => mhas fs k | _ => false end.

(** [s.slice(-n)] *)
Definition slice_end (n : nat) (s : string) : string := string_drop (String.length s - n) s.

(** Why an output is not a success, if it is not. *)
(* [src/backend/src/impl/tool-executor.js:1027-1035] validateToolOutput *)
Definition validateToolOutput (toolName : string) (raw : jsval) : option string :=
  if has_prop raw "exitCode" &&
     negb (match prop raw "exitCode" with JNum 0 | JNull => true | _ => false end) then
    Some (toolName ++ " exited with code " ++ to_string (prop raw "exitCode"))
  else if is_obj raw && match prop raw "passed" with JBool false => true | _ => false end then
    Some (if truthy_val (prop raw "stderr") then slice_end 300 (to_string (prop raw "stderr"))
          else toolName ++ " reported failure")
  else None.

(** ** The executor *)

(* [src/backend/src/impl/tool-executor.js:716-716] in-flight record *)
Record flight := Flight { fl_tool : string; fl_key : string }.

(** An execution between its two parts: what [settle] closes over. *)
Record pending_call := Call {
  pc_name : string; pc_tool : tool; pc_key : string; pc_start : Z; pc_approval : option string; pc_runId : string; pc_timeoutMs : Z;
}.

Inductive xevent :=
| ToolStarted (executionId tool key : string) (params : jsval)
| ToolCompleted (executionId tool key : string) (deduped : bool)
| ToolFailed (executionId tool key code : string) (status : string).

(** [open_calls] is what the event loop holds; [g_runs] records the handlers
    that were started and is not part of the program. *)
(* [src/backend/src/impl/tool-executor.js:601-627] InMemoryToolExecutor *)
Record executor := Executor {
  tools : jsmap string tool;
  completedKeys : jsmap string xresult;
  inFlight : jsmap string flight;
  executionHistory : list xresult;
  durable : option (@Idempotency.store xresult);
  cfg_timeoutMs : Z;
  emitted : list xevent;
  recorded : list (string * bool * string);
  charged : Z;
  open_calls : jsmap string pending_call;
  g_runs : list (string * string);
}.

#[export] Instance executor_eta : Eta executor := λ x,
  Executor (tools x) (completedKeys x) (inFlight x) (executionHistory x) (durable x) (cfg_timeoutMs x)
    (emitted x) (recorded x) (charged x) (open_calls x) (g_runs x).

Definition MAX_COMPLETED : nat := 500.
Definition MAX_HISTORY : nat := 100.

(** [completedKeys.set(k, r)], then the oldest key goes if there are too many. *)
(* [src/backend/src/impl/tool-executor.js:796-800] completedKeys *)
Definition remember (k : string) (r : xresult) (m : jsmap string xresult) : jsmap string xresult :=
  let m := mset m k r in
  if decide (MAX_COMPLETED < msize m)%nat
  then match mfirst m with Some first => mdelete m first | None => m end else m.

(** The request of one call: [aborted] when the signal was already raised. *)
Record options := Options {
  o_idempotencyKey : option string; o_timeoutMs : Z; o_aborted : bool; o_approvalId : option string;
  o_networkMode : string;
}.

Section Executor.
Context (sha256 : string → string).
(** [HANDLERS] by name, and the gate ([None]: no gate configured). *)
Context (handlers : list string).
Context (gate : option (string → jsval → tool → res (option Controller.gate_result))).

(* [src/backend/src/impl/tool-executor.js:61-63] hashParams *)
Definition hashParams (params : jsval) : string :=
  slice0 12 (sha256 (default "" (json_stringify (if truthy_val params then params else JObj [])))).

(* [src/backend/src/impl/tool-executor.js:629-631] idempotencyKeyFor *)
Definition idempotencyKeyFor (runId toolName : string) (params : jsval) (step : Z) : string :=
  runId ++ ":" ++ toolName ++ ":" ++ string_of_Z step ++ ":" ++ hashParams params.

(* [src/backend/src/impl/tool-executor.js:881-887] validateParams *)
Definition validateParams (t : tool) (params : jsval) : option string :=
  match t_schema t with Some sc => validateInput sc (if truthy_val params then params else JObj []) | None => None end.

(** [/api[_-]?key|secret|token|password|authorization/i] *)
Definition sensitive_key (k : string) : bool :=
  existsb (λ w, contains w (to_lower k)) ["apikey"; "api_key"; "api-key"; "secret"; "token"; "password"; "authorization"].

(* [src/backend/src/impl/tool-executor.js:989-1001] _sanitizeParams *)
Definition sanitizeParams (params : jsval) : jsval :=
  match params with
  | JObj fs => JObj ((λ f : string * jsval,
      (f.1, if sensitive_key f.1 then JStr "[REDACTED]"
            else match f.2 with
                 | JStr s => if bool_decide (100 < String.length s)%nat then JStr (slice0 100 s ++ "...") else f.2
                 | v => v
                 end)) <$> fs)
  | _ => JObj []
  end.

(** An early return: no handler runs, nothing is recorded. *)
Definition refused (newId toolName error code status : string) (approval : option string) : xresult :=
  createResult newId toolName false JNull (Some error) 0
    (inr (Extra None None (Some code) (Some status) approval)) None.

(** The gate: a refusal, or the approval id that goes on with the call. *)
(* [src/backend/src/impl/tool-executor.js:652-665] execute, gate *)
Definition run_gate (newId toolName : string) (params : jsval) (t : tool) (o : options) : xresult + option string :=
  match gate with
  | None => inr (o_approvalId o)
  | Some g =>
      match g toolName (if truthy_val params then params else JObj []) t with
      | Throw e => inl (refused newId toolName (err_msg e) "denied" "failure" None)
      | Ok None => inr (o_approvalId o)
      | Ok (Some (Controller.Allowed a)) => inr (if truthy a then a else o_approvalId o)
      | Ok (Some (Controller.Blocked code reason a)) =>
          let reason := or_str reason "denied by policy" in
          if bool_decide (code = "needs_approval") then
            inl (refused newId toolName reason "needs_approval" "needs_approval" a)
          else inl (refused newId toolName reason (or_str code "denied") "failure" a)
      end
  end.

(** A stored result that answers the call. *)
(* [src/backend/src/impl/tool-executor.js:667-700] execute, idempotency *)
Definition replay (toolName key : string) (x : executor) : option (executor * xresult) :=
  match mget (completedKeys x) key with
  | Some cached =>
      Some (x <| emitted ::= λ l, (l ++ [ToolCompleted (x_executionId cached) toolName key true])%list |>,
            cached <| x_deduped := true |>)
  | None =>
      match durable x ≫= Idempotency.get key with
      | Some rec =>
          match Idempotency.state rec, Idempotency.result rec with
          | Idempotency.COMPLETED, Some r =>
              let stored := r <| x_deduped := true |> <| x_idempotencyKey := Some key |> in
              Some (x <| completedKeys ::= remember key stored |>
                      <| emitted ::= λ l, (l ++ [ToolCompleted (or_str (x_executionId stored) "durable") toolName key true])%list |>,
                    stored)
          | _, _ => None
          end
      | None => None
      end
  end.

(** How the call answered at once, or the id of the handler it started. *)
Inductive started := Answered (r : xresult) | Running (executionId : string).

(* [src/backend/src/impl/tool-executor.js:714-714] execute, timeoutMs *)
Definition timeout_of (o : options) (t : tool) (x : executor) : Z :=
  let d := if decide (o_timeoutMs o = 0)%Z then (if decide (t_timeoutMs t = 0)%Z then cfg_timeoutMs x else t_timeoutMs t)
           else o_timeoutMs o in
  Z.min d (cfg_timeoutMs x * 4).

(* [src/backend/src/impl/tool-executor.js:633-719] execute, up to the handler *)
Definition execute (newId runId : string) (step now : Z) (toolName : string) (params : jsval) (o : options)
    (x : executor) : executor * started :=
  match mget (tools x) toolName with
  | None => (x, Answered (refused newId toolName ("Tool " ++ toolName ++ " not found") "not_found" "failure" None))
  | Some t =>
      if negb (bool_decide (t_status t = "enabled")) then
        (x, Answered (refused newId toolName ("Tool " ++ toolName ++ " is disabled") "disabled" "failure" None))
      else match validateParams t params with
      | Some e => (x, Answered (refused newId toolName e "bad_params" "failure" None))
      | None =>
          match run_gate newId toolName params t o with
          | inl r => (x, Answered r)
          | inr approval =>
              let key := if truthy (o_idempotencyKey o) then default "" (o_idempotencyKey o)
                         else idempotencyKeyFor runId toolName params step in
              match replay toolName key x with
              | Some (x, r) => (x, Answered r)
              | None =>
                  if o_aborted o then
                    (x, Answered (refused newId toolName "Tool execution cancelled" "cancelled" "cancelled" None))
                  else if negb (bool_decide (toolName ∈ handlers)) then
                    (x, Answered (refused newId toolName ("No handler registered for tool " ++ toolName) "not_found" "failure" None))
                  else
                    (x <| inFlight ::= λ m, mset m newId (Flight toolName key) |>
                       <| emitted ::= λ l, (l ++ [ToolStarted newId toolName key (sanitizeParams params)])%list |>
                       <| open_calls ::= λ m, mset m newId (Call toolName t key now approval runId (timeout_of o t x)) |>
                       <| g_runs ::= λ l, (l ++ [(newId, key)])%list |>,
                     Running newId)
              end
          end
      end
  end.

(** Who won the race. *)
Inductive outcome :=
| Returned (raw : jsval)
| Threw (code : option string) (msg : string) (details : option jsval)
| TimedOut
| Aborted.

(** [{ ...details, timedOut: true, timed_out: true }] *)
Definition with_timeout (d : jsval) : jsval :=
  match d with
  | JObj fs => JObj (mset (mset fs "timedOut" (JBool true)) "timed_out" (JBool true))
  | d => d
  end.

(** The error of the race: its code, message and details. *)
(* [src/backend/src/impl/tool-executor.js:739-783] execute, race and validation *)
Definition race (c : pending_call) (out : outcome) : jsval + (option string * string * option jsval) :=
  let name := pc_name c in
  match out with
  | Returned raw =>
      match validateToolOutput name raw with
      | None => inl raw
      | Some e => inr (Some (if bool_decide (name = "run_tests") then "test_failure" else "command_failure"),
                       or_str e (name ++ " reported failure"), Some raw)
      end
  | Threw code msg details => inr (code, msg, details)
  | TimedOut => inr (Some "timeout", "Tool " ++ name ++ " timed out after " ++ string_of_Z (pc_timeoutMs c) ++ "ms",
      Some (JObj [("tool", JStr name); ("timedOut", JBool true); ("timed_out", JBool true);
                  ("timeoutMs", JNum (pc_timeoutMs c)); ("timedOutBy", JStr "executor-race")]))
  | Aborted => inr (Some "cancelled", "Tool execution cancelled", None)
  end.

(* [src/backend/src/impl/tool-executor.js:824-825] execute, code and status of an error *)
Definition failure_code (code : option string) (msg : string) : string :=
  if truthy code then default "" code else if contains "timed out" msg then "timeout" else "failure".
(* [src/backend/src/impl/tool-executor.js:824-825] execute, code and status of an error *)
Definition failure_status (code : string) : ToolStatus.t :=
  if bool_decide (code = "timeout") then ToolStatus.TIMED_OUT
  else if bool_decide (code = "cancelled") then ToolStatus.CANCELLED else ToolStatus.FAILURE.

Definition is_true (v : jsval) : bool := match v with JBool true => true | _ => false end.

(* [src/backend/src/impl/tool-executor.js:899-936] _attachAudit *)
Definition attachAudit (toolName runId : string) (raw : jsval) (r : xresult) : xresult :=
  let out := if is_object raw then raw else JObj [] in
  let isolated := is_true (prop out "isolated") in
  let timed := is_true (prop out "timedOut") || is_true (prop out "timed_out") ||
               bool_decide (x_status r = ToolStatus.value ToolStatus.TIMED_OUT) in
  r <| x_isolated := isolated |>
    <| x_executor := Some (if truthy_val (prop out "executor") then to_string (prop out "executor")
                           else if isolated then "isolated" else "local-restricted") |>
    <| x_timedOut := timed |>
    <| x_provenance := Some (Provenance.buildProvenance
         (if bool_decide (toolName = "read_file" ∨ toolName = "search_code") then Provenance.REPO_CONTENT
          else Provenance.TOOL_OUTPUT) (Some runId) (Some toolName)) |>.

Definition push_history (r : xresult) (x : executor) : executor :=
  x <| executionHistory ::= λ l, push_shift MAX_HISTORY l r |>.

(** [w]: the durable store's file could be written. *)
(* [src/backend/src/impl/tool-executor.js:784-819] execute, success *)
Definition settle_ok (execId : string) (c : pending_call) (raw : jsval) (now : Z) (w : bool) (x : executor)
    : executor * xresult :=
  let name := pc_name c in
  let cost := if decide (t_costPerCall (pc_tool c) = 0)%Z then 1%Z else t_costPerCall (pc_tool c) in
  let r := attachAudit name (pc_runId c) raw
    (createResult execId name true raw None (now - pc_start c) (inl cost)
       (Some (no_extra <| ex_executionId := Some execId |> <| ex_idempotencyKey := Some (pc_key c) |>
                       <| ex_approvalId := pc_approval c |>))) in
  (push_history r
     (x <| completedKeys ::= remember (pc_key c) r |>
        <| durable ::= fmap (λ d, (Idempotency.complete (pc_key c) (Some r) now w d).1) |>
        <| emitted ::= λ l, (l ++ [ToolCompleted execId name (pc_key c) false])%list |>
        <| recorded ::= λ l, (l ++ [(name, true, x_code r)])%list |>
        <| charged ::= λ n, (n + cost)%Z |>), r).

(* [src/backend/src/impl/tool-executor.js:820-854] execute, failure *)
Definition settle_error (execId : string) (c : pending_call) (code : option string) (msg : string)
    (details : option jsval) (now : Z) (x : executor) : executor * xresult :=
  let name := pc_name c in
  let code := failure_code code msg in
  let status := ToolStatus.value (failure_status code) in
  let output := match details with
    | Some d => if truthy_val d then (if bool_decide (code = "timeout") then with_timeout d else d) else JNull
    | None => JNull end in
  let r := attachAudit name (pc_runId c) output
    (createResult execId name false output (Some msg) (now - pc_start c) (inl 0%Z)
       (Some (Extra (Some execId) (Some (pc_key c)) (Some code) (Some status) (pc_approval c)))) in
  (push_history r
     (x <| emitted ::= λ l, (l ++ [ToolFailed execId name (pc_key c) code
              (if bool_decide (code = "cancelled") then "cancelled"
               else if bool_decide (status = "timed_out") then "timed_out" else "failed")])%list |>
        <| recorded ::= λ l, (l ++ [(name, false, x_code r)])%list |>), r).

(* [src/backend/src/impl/tool-executor.js:765-855] execute, from the race *)
Definition settle (execId : string) (out : outcome) (now : Z) (w : bool) (x : executor)
    : executor * option xresult :=
  match mget (open_calls x) execId with
  | None => (x, None)
  | Some c =>
      let x := x <| open_calls ::= λ m, mdelete m execId |> <| inFlight ::= λ m, mdelete m execId |> in
      let (x, r) := match race c out with
        | inl raw => settle_ok execId c raw now w x
        | inr (code, msg, details) => settle_error execId c code msg details now x
        end in
      (x, Some r)
  end.

(* [src/backend/src/impl/tool-executor.js:890-892] inFlightRecords *)
Definition inFlightRecords (x : executor) : list (string * flight) := inFlight x.

(* [src/backend/src/impl/tool-executor.js:1018-1020] getExecutionHistory *)
Definition getExecutionHistory (limit : nat) (x : executor) : list xresult := slice_last limit (executionHistory x).

(** ** Interleavings: calls start and settle in any order; the process may be
    replaced by one that has only the durable store. *)
Inductive xlabel :=
| LExecute (newId runId : string) (step now : Z) (toolName : string) (params : jsval) (o : options)
| LSettle (execId : string) (out : outcome) (now : Z) (w : bool)
| LRestart.

Inductive xstep : executor → xlabel → executor → Prop :=
| xs_execute x newId runId step now toolName params o :
    newId ≠ "" → newId ∉ (g_runs x).*1 →
    xstep x (LExecute newId runId step now toolName params o)
      (execute newId runId step now toolName params o x).1
| xs_settle x execId out now w :
    xstep x (LSettle execId out now w) (settle execId out now w x).1
| xs_restart x :
    xstep x LRestart (x <| completedKeys := [] |> <| inFlight := [] |> <| executionHistory := [] |> <| open_calls := [] |>).

Definition fresh_executor (ts : jsmap string tool) (d : option (@Idempotency.store xresult)) (timeout : Z) : executor :=
  Executor ts [] [] [] d timeout [] [] 0 [] [].
End Executor.

(** [executeParallel]: calls are started in batches of at most [maxParallel]. *)
(* [src/backend/src/impl/tool-executor.js:857-879] executeParallel *)
Fixpoint batches {A} (maxParallel : nat) (executing : list A) (calls : list A) : list (list A) :=
  match calls with
  | [] => match executing with [] => [] | _ => [executing] end
  | c :: calls =>
      let executing := (executing ++ [c])%list in
      if decide (maxParallel ≤ length executing)%nat then executing :: batches maxParallel [] calls
      else batches maxParallel executing calls
  end.

(** ** The invariant *)

Definition durable_ok (d : @Idempotency.store xresult) : Prop :=
  ∀ p r, p ∈ Idempotency.records d → Idempotency.state p.2 = Idempotency.COMPLETED →
    Idempotency.result p.2 = Some r → x_success r = true.

Record exec_inv (x : executor) : Prop := {
  ei_completed : ∀ p, p ∈ completedKeys x → x_success p.2 = true;
  ei_size : (msize (completedKeys x) ≤ MAX_COMPLETED)%nat;
  ei_history : (length (executionHistory x) ≤ MAX_HISTORY)%nat;
  ei_keys : mkeys (inFlight x) = mkeys (open_calls x);
  ei_wf : mwf (open_calls x);
  ei_runs : NoDup (g_runs x).*1;
  ei_open : ∀ i, i ∈ mkeys (open_calls x) → i ∈ (g_runs x).*1;
  ei_durable : ∀ d, durable x = Some d → durable_ok d;
}.

Lemma mset_elem {V} (m : jsmap string V) k v (p : string * V) : p ∈ mset m k v → p = (k, v) ∨ p ∈ m.
Proof.
  intros Hp. rewrite mset_perm in Hp. apply elem_of_cons in Hp as [->|Hp]; [by left|right].
  destruct (mget m k) eqn:E; [|by rewrite mdelete_absent in Hp]. rewrite (mdelete_perm m k _ E). by right.
Qed.

Lemma mdelete_elem {V} (m : jsmap string V) k (p : string * V) : p ∈ mdelete m k → p ∈ m.
Proof.
  intros Hp. destruct (mget m k) eqn:E; [|by rewrite mdelete_absent in Hp]. rewrite (mdelete_perm m k _ E). by right.
Qed.

Lemma remember_elem k r m p : p ∈ remember k r m → p = (k, r) ∨ p ∈ m.
Proof.
  unfold remember. destruct (decide _); [|apply mset_elem].
  destruct (mfirst _); [intros Hp%mdelete_elem|intros Hp]; by apply mset_elem.
Qed.

Lemma remember_size k r m : (msize m ≤ MAX_COMPLETED)%nat → (msize (remember k r m) ≤ MAX_COMPLETED)%nat.
Proof.
  intros Hm. unfold remember. pose proof (msize_set_le m k r). destruct (decide _); [|lia].
  destruct (mfirst (mset m k r)) as [f|] eqn:E.
  - assert (is_Some (mget (mset m k r) f)) as Hf.
    { apply mget_Some_keys. unfold mfirst in E. destruct (mkeys (mset m k r)); [done|]. injection E as ->. by left. }
    pose proof (msize_delete _ _ Hf). lia.
  - unfold mfirst in E. destruct (mset m k r); [simpl in *; lia|done].
Qed.

(** The key just completed survives the eviction. *)
Lemma remember_get k r m : (msize m ≤ MAX_COMPLETED)%nat → mget (remember k r m) k = Some r.
Proof.
  intros Hm. unfold remember. destruct (decide _) as [Hd|]; [|apply mget_set_eq].
  destruct (mget m k) eqn:E; [rewrite msize_set_old in Hd by eauto; lia|].
  rewrite mset_new by done. destruct m as [|[f v] m]; [unfold MAX_COMPLETED in *; simpl in Hd; lia|].
  cbn [mfirst mkeys fmap list_fmap app head fst mdelete]. rewrite decide_True by done.
  assert (mget m k = None) as E' by (simpl in E; by destruct (decide (k = f))).
  rewrite <- (mset_new m k r) by done. apply mget_set_eq.
Qed.

Lemma evict_elem {R} fuel mx (m : jsmap string (@Idempotency.record R)) p : p ∈ Idempotency.evict fuel mx m → p ∈ m.
Proof.
  revert m. induction fuel as [|fuel IH]; intros m; simpl; [done|]. destruct (decide _); [|done].
  destruct (Idempotency.victim m); [|done]. intros Hp%IH. by eapply mdelete_elem.
Qed.

Lemma complete_ok k r now w d :
  durable_ok d → x_success r = true → durable_ok (Idempotency.complete k (Some r) now w d).1.
Proof.
  intros Hd Hr p r' Hp Hs Hres. unfold Idempotency.complete in Hp. cbn [fst] in Hp.
  unfold Idempotency.put in Hp. rewrite (proj1 (Idempotency.persist_records _ _)) in Hp.
  unfold Idempotency.evictIfNeeded, Idempotency.with_records in Hp. cbn [Idempotency.records] in Hp.
  apply evict_elem, mset_elem in Hp as [->|Hp]; [|by eapply Hd].
  cbn [snd] in Hres. by destruct (mget _ k); injection Hres as <-.
Qed.

Section Invariant.
Context (sha256 : string → string) (handlers : list string).
Context (gate : option (string → jsval → tool → res (option Controller.gate_result))).
Local Abbreviation execute := (execute sha256 handlers gate).
Local Abbreviation xstep := (xstep sha256 handlers gate).

(** How a call leaves the executor: the checks it passed, or nothing started. *)
Lemma execute_cases newId runId step now toolName params o x :
  (∃ r, (execute newId runId step now toolName params o x) = (x, Answered r)) ∨
  (∃ t key approval x' r, mget (tools x) toolName = Some t ∧ replay toolName key x = Some (x', r) ∧
     run_gate gate newId toolName params t o = inr approval ∧
     (execute newId runId step now toolName params o x) = (x', Answered r)) ∨
  (∃ t approval key c, mget (tools x) toolName = Some t ∧ t_status t = "enabled" ∧ validateParams t params = None ∧
     run_gate gate newId toolName params t o = inr approval ∧ replay toolName key x = None ∧ o_aborted o = false ∧
     toolName ∈ handlers ∧ pc_key c = key ∧ pc_name c = toolName ∧
     key = (if truthy (o_idempotencyKey o) then default "" (o_idempotencyKey o)
            else idempotencyKeyFor sha256 runId toolName params step) ∧
     (execute newId runId step now toolName params o x) =
       (x <| inFlight ::= λ m, mset m newId (Flight toolName key) |>
          <| emitted ::= λ l, (l ++ [ToolStarted newId toolName key (sanitizeParams params)])%list |>
          <| open_calls ::= λ m, mset m newId c |>
          <| g_runs ::= λ l, (l ++ [(newId, key)])%list |>, Running newId)).
Proof.
  unfold ToolExecutor.execute. destruct (mget (tools x) toolName) as [t|] eqn:Et; [|left; by eexists].
  destruct (bool_decide (t_status t = "enabled")) eqn:Es; [|left; by eexists]. apply bool_decide_eq_true in Es. cbn [negb].
  destruct (validateParams t params) eqn:Ev; [left; by eexists|].
  destruct (run_gate gate newId toolName params t o) as [r|approval] eqn:Eg; [left; by eexists|].
  set (key := if truthy (o_idempotencyKey o) then _ else _).
  destruct (replay toolName key x) as [[x' r]|] eqn:Er.
  { right; left. by exists t, key, approval, x', r. }
  destruct (o_aborted o) eqn:Ea; [left; by eexists|].
  destruct (bool_decide (toolName ∈ handlers)) eqn:Eh; [|left; by eexists]. apply bool_decide_eq_true in Eh. cbn [negb].
  right; right. by exists t, approval, key, (Call toolName t key now approval runId (timeout_of o t x)).
Qed.

(** A replay answers with a success it has, and starts nothing. *)
Lemma replay_spec toolName key x x' r :
  replay toolName key x = Some (x', r) →
  (∃ r0, r = r0 <| x_deduped := true |> ∧ mget (completedKeys x) key = Some r0 ∧
     x' = x <| emitted ::= λ l, (l ++ [ToolCompleted (x_executionId r0) toolName key true])%list |>) ∨
  (∃ d rec r0, durable x = Some d ∧ mget (Idempotency.records d) key = Some rec ∧
     Idempotency.state rec = Idempotency.COMPLETED ∧ Idempotency.result rec = Some r0 ∧
     r = r0 <| x_deduped := true |> <| x_idempotencyKey := Some key |> ∧
     x' = x <| completedKeys ::= remember key r |>
            <| emitted ::= λ l, (l ++ [ToolCompleted (or_str (x_executionId r) "durable") toolName key true])%list |>).
Proof.
  unfold replay. destruct (mget (completedKeys x) key) as [r0|] eqn:Ec.
  - intros [= <- <-]. left. by exists r0.
  - destruct (durable x) as [d|] eqn:Ed; [|done]. cbn [mbind option_bind]. unfold Idempotency.get.
    destruct (mget (Idempotency.records d) key) as [rec|] eqn:Er; [|done].
    destruct (Idempotency.state rec) eqn:Es; try done. destruct (Idempotency.result rec) as [r0|] eqn:Eres; [|done].
    intros [= <- <-]. right. by exists d, rec, r0.
Qed.

Lemma execute_inv newId runId step now toolName params o x :
  newId ∉ (g_runs x).*1 → exec_inv x → exec_inv (execute newId runId step now toolName params o x).1.
Proof.
  intros Hnew Hx. destruct (execute_cases newId runId step now toolName params o x)
    as [[r ->]|[(t & key & ap & x' & r & _ & Hr & _ & ->)|(t & ap & key & c & _ & _ & _ & _ & _ & _ & _ & _ & _ & _ & ->)]]; [done|..].
  - destruct Hx as [H1 H2 H3 H4 H5 H6 H7 H8].
    apply replay_spec in Hr as [(r0 & -> & Hg & ->)|(d & rec & r0 & Hd & Hg & Hs & Hres & Er & ->)]; [by split|].
    split; cbn -[mkeys msize remember mset mdelete]; try done; [|by apply remember_size].
    intros p [->|Hp]%remember_elem; [|by apply H1]. cbn [snd]. rewrite Er.
    apply mget_elem in Hg. by apply (H8 d Hd (key, rec) r0).
  - destruct Hx as [H1 H2 H3 H4 H5 H6 H7 H8]. split; cbn -[mkeys msize remember mset mdelete]; try done.
    + by rewrite !mkeys_set, H4.
    + by apply mwf_set.
    + rewrite fmap_app. apply NoDup_app. split; [done|]. split; [|apply NoDup_singleton].
      intros i Hi ->%list_elem_of_singleton. done.
    + intros i. rewrite elem_mkeys_set, fmap_app, elem_of_app. intros [->|Hi]; [right; by left|left; auto].
Qed.

Lemma push_shift_history r (l : list xresult) :
  (length l ≤ MAX_HISTORY)%nat → (length (push_shift MAX_HISTORY l r) ≤ MAX_HISTORY)%nat.
Proof. apply push_shift_length. Qed.

(** The execution is closed: its in-flight record goes with it. *)
Lemma close_inv execId x :
  exec_inv x → exec_inv (x <| open_calls ::= λ m, mdelete m execId |> <| inFlight ::= λ m, mdelete m execId |>).
Proof.
  intros [H1 H2 H3 H4 H5 H6 H7 H8]. split; cbn -[mkeys msize remember mset mdelete]; try done.
  - rewrite !mkeys_delete, H4; [done|done|]. unfold mwf. by rewrite H4.
  - by apply mwf_delete.
  - intros i. rewrite mkeys_delete by done. intros [_ Hi]%list_elem_of_filter. auto.
Qed.

Lemma settle_ok_inv execId c raw now w x : exec_inv x → exec_inv (settle_ok execId c raw now w x).1.
Proof.
  intros [H1 H2 H3 H4 H5 H6 H7 H8]. unfold settle_ok.
  set (r := attachAudit _ _ _ _). assert (x_success r = true) as Hr by reflexivity. clearbody r.
  split; cbn -[mkeys msize remember mset mdelete push_shift]; try done.
  - intros p [->|Hp]%remember_elem; [done|by apply H1].
  - by apply remember_size.
  - by apply push_shift_history.
  - intros d Hd. destruct (durable x) as [d0|] eqn:Ed; [|done]. injection Hd as <-. apply complete_ok; [by apply H8|done].
Qed.

Lemma settle_error_inv execId c code msg details now x :
  exec_inv x → exec_inv (settle_error execId c code msg details now x).1.
Proof.
  intros [H1 H2 H3 H4 H5 H6 H7 H8]. unfold settle_error.
  split; cbn -[mkeys msize remember mset mdelete push_shift]; try done. by apply push_shift_history.
Qed.

Lemma settle_inv execId out now w x : exec_inv x → exec_inv (settle execId out now w x).1.
Proof.
  intros Hx. unfold settle. destruct (mget (open_calls x) execId) as [c|]; [|done].
  apply (close_inv execId) in Hx. destruct (race c out) as [raw|[[code msg] details]].
  - pose proof (settle_ok_inv execId c raw now w _ Hx) as H. by destruct (settle_ok _ _ _ _ _ _).
  - pose proof (settle_error_inv execId c code msg details now _ Hx) as H. by destruct (settle_error _ _ _ _ _ _ _).
Qed.

Lemma fresh_inv ts d timeout :
  (∀ s, d = Some s → durable_ok s) → exec_inv (fresh_executor ts d timeout).
Proof. intros Hd. split; cbn; try done; try lia; try constructor; by intros ? ?%not_elem_of_nil. Qed.

Lemma reachable_exec_inv ts d timeout ls x :
  (∀ s, d = Some s → durable_ok s) → trace xstep (fresh_executor ts d timeout) ls x → exec_inv x.
Proof.
  intros Hd Ht. eapply (trace_invariant _ exec_inv); [|exact Ht|by apply fresh_inv].
  intros x1 l x2 Hx Hs. destruct Hs as [x1 newId runId step now toolName params o _ Hn|x1 execId out now w|x1].
  - by apply execute_inv.
  - by apply settle_inv.
  - destruct Hx as [H1 H2 H3 H4 H5 H6 H7 H8]. split; cbn; try done; try lia; try constructor; by intros ? ?%not_elem_of_nil.
Qed.
End Invariant.

(** The executor's state stays well-formed under every interleaving of
    calls, settlements and restarts: at most 500 completed keys and 100 history
    entries; every stored result, in memory or COMPLETED in the durable store,
    is a success; the in-flight records are exactly the executions that have
    started and not settled, so that a crash leaves UNKNOWN exactly those; and
    no execution id is used twice. *)
Theorem executor_state_invariant sha256 handlers gate ts d timeout ls x :
  (∀ s, d = Some s → durable_ok s) →
  trace (xstep sha256 handlers gate) (fresh_executor ts d timeout) ls x →
  (msize (completedKeys x) ≤ 500)%nat ∧ (length (executionHistory x) ≤ 100)%nat ∧
  (∀ k r, mget (completedKeys x) k = Some r → x_success r = true) ∧
  mkeys (inFlightRecords x) = mkeys (open_calls x) ∧ NoDup (mkeys (inFlightRecords x)) ∧
  (∀ i, i ∈ mkeys (inFlightRecords x) → i ∈ (g_runs x).*1) ∧ NoDup (g_runs x).*1 ∧
  (∀ s, durable x = Some s → durable_ok s).
Proof.
  intros Hd Ht. destruct (reachable_exec_inv _ _ _ _ _ _ _ _ Hd Ht) as [H1 H2 H3 H4 H5 H6 H7 H8].
  unfold inFlightRecords. rewrite H4. split; [done|]. split; [done|]. split; [|done].
  intros k r Hk%mget_elem. by apply (H1 (k, r)).
Qed.

(** A handler starts only after every check, and a completed key never
    starts one.  A call that runs a handler has a registered, enabled tool,
    valid parameters, a gate that allowed it, no stored result for its key, no
    raised cancellation and a handler; any other call starts nothing, charges
    nothing and leaves the in-flight records.  When the key has a result in
    memory, or a COMPLETED one in the durable store (after a restart), the call
    that reaches the lookup answers with it, marked deduped. *)
Theorem handlers_start_checked sha256 handlers gate newId runId step now toolName params o x :
  match execute sha256 handlers gate newId runId step now toolName params o x with
  | (x', Running i) =>
      i = newId ∧ toolName ∈ handlers ∧ o_aborted o = false ∧
      ∃ t approval key, mget (tools x) toolName = Some t ∧ t_status t = "enabled" ∧ validateParams t params = None ∧
        run_gate gate newId toolName params t o = inr approval ∧
        mget (completedKeys x) key = None ∧
        (∀ d rec r, durable x = Some d → mget (Idempotency.records d) key = Some rec →
           Idempotency.state rec = Idempotency.COMPLETED → Idempotency.result rec ≠ Some r) ∧
        g_runs x' = (g_runs x ++ [(newId, key)])%list ∧ inFlight x' = mset (inFlight x) newId (Flight toolName key)
  | (x', Answered r) =>
      g_runs x' = g_runs x ∧ inFlight x' = inFlight x ∧ open_calls x' = open_calls x ∧ charged x' = charged x ∧
      durable x' = durable x ∧ executionHistory x' = executionHistory x
  end.
Proof.
  destruct (execute_cases sha256 handlers gate newId runId step now toolName params o x)
    as [[r ->]|[(t & key & ap & x' & r & _ & Hr & _ & ->)
      |(t & ap & key & c & Ht & Hs & Hv & Hg & Hr & Ha & Hh & Hc & _ & _ & ->)]]; [done|..].
  - apply replay_spec in Hr as [(r0 & -> & _ & ->)|(d & rec & r0 & _ & _ & _ & _ & _ & ->)]; done.
  - split; [done|]. split; [done|]. split; [done|]. exists t, ap, key. do 4 (split; [done|]).
    unfold replay in Hr. destruct (mget (completedKeys x) key); [done|]. split; [done|]. split; [|done].
    intros d rec r Hd Hrec Hst Hres. rewrite Hd in Hr. cbn [mbind option_bind] in Hr. unfold Idempotency.get in Hr.
    by rewrite Hrec, Hst, Hres in Hr.
Qed.

Lemma validate_evidence name raw :
  (∃ n, prop raw "exitCode" = JNum n ∧ n ≠ 0%Z) ∨ prop raw "passed" = JBool false → validateToolOutput name raw ≠ None.
Proof.
  unfold validateToolOutput. intros [(n & En & Hn)|Ep].
  - assert (has_prop raw "exitCode" = true) as ->.
    { destruct raw; try done. unfold has_prop, prop in *. unfold mhas. apply bool_decide_eq_true.
      destruct (mget fields "exitCode"); [by eexists|done]. }
    rewrite En. destruct n; [done|done|done].
  - destruct (has_prop raw "exitCode" && _); [done|]. rewrite Ep. by destruct raw.
Qed.

Lemma failure_status_value code :
  ToolStatus.value (failure_status code) ≠ ToolStatus.value ToolStatus.SUCCESS.
Proof. unfold failure_status. by repeat case_bool_decide. Qed.

Lemma attachAudit_status name run raw r : x_status (attachAudit name run raw r) = x_status r.
Proof. done. Qed.

Lemma attachAudit_code name run raw r : x_code (attachAudit name run raw r) = x_code r.
Proof. done. Qed.

(** Every error of the race is settled as one. *)
Lemma settle_error_result execId c code msg details now x :
  let '(x', r) := settle_error execId c code msg details now x in
  x_success r = false ∧ x_status r = ToolStatus.value (failure_status (failure_code code msg)) ∧
  (truthy_str (failure_code code msg) = true → x_code r = failure_code code msg) ∧
  (failure_code code msg = "timeout" → x_timedOut r = true) ∧
  last (executionHistory x') = Some r ∧ completedKeys x' = completedKeys x ∧ durable x' = durable x ∧
  charged x' = charged x ∧ inFlight x' = inFlight x.
Proof.
  unfold settle_error. set (fc := failure_code code msg). set (st := ToolStatus.value (failure_status fc)).
  assert (truthy_str st = true) as Ht by (unfold st, failure_status; by repeat case_bool_decide).
  assert (st ≠ ToolStatus.value ToolStatus.SUCCESS) as Hn by apply failure_status_value.
  assert (truthy (Some st) = true) as Ht' by (by destruct st). cbn -[attachAudit createResult push_shift truthy].
  set (out := match details with Some d => _ | None => _ end).
  set (cr := createResult _ _ _ _ _ _ _ _).
  assert (x_status cr = st) as Es by (unfold cr, createResult; cbn -[truthy]; by rewrite Ht').
  assert (∀ a b d, x_status (attachAudit a b d cr) = st) as Ea by (intros; by rewrite attachAudit_status).
  split; [unfold x_success; rewrite Ea; by apply bool_decide_eq_false|]. split; [apply Ea|]. split; [|split; [|by rewrite push_shift_last by (unfold MAX_HISTORY; lia)]].
  - intros Hc. rewrite attachAudit_code. unfold cr, createResult. cbn -[truthy]. rewrite Ht'.
    rewrite bool_decide_eq_false_2 by done. assert (truthy (Some fc) = true) as -> by (by destruct fc). done.
  - intros Hc. unfold attachAudit. cbn -[truthy cr]. rewrite Es. unfold st, failure_status. rewrite Hc. apply orb_true_r.
Qed.

(** Outcomes are classified by what happened, not by what the tool says.
    A settled execution is a success exactly when the handler returned a value
    with no contrary evidence (a non-zero exit code or [passed: false] is never
    a success, whatever else it claims); the executor's timeout gives
    [timed_out], a cancellation [cancelled].  Only a success is stored under
    its key, where the next call finds it, and charged; an error leaves the
    stored results, the durable store and the budget alone.  In both cases the
    execution is last in the history and no longer in flight. *)
Theorem outcome_classified execId out now w x c :
  exec_inv x → mget (open_calls x) execId = Some c →
  ∃ x' r, settle execId out now w x = (x', Some r) ∧
    (x_success r = true ↔ ∃ raw, out = Returned raw ∧ validateToolOutput (pc_name c) raw = None) ∧
    (∀ raw, out = Returned raw → (∃ n, prop raw "exitCode" = JNum n ∧ n ≠ 0%Z) ∨ prop raw "passed" = JBool false →
       x_success r = false) ∧
    (out = TimedOut → x_status r = "timed_out" ∧ x_code r = "timeout" ∧ x_timedOut r = true) ∧
    (out = Aborted → x_status r = "cancelled" ∧ x_code r = "cancelled") ∧
    last (executionHistory x') = Some r ∧ mget (inFlight x') execId = None ∧
    (if x_success r
     then mget (completedKeys x') (pc_key c) = Some r ∧
          charged x' = (charged x + if decide (t_costPerCall (pc_tool c) = 0) then 1 else t_costPerCall (pc_tool c))%Z
     else completedKeys x' = completedKeys x ∧ durable x' = durable x ∧ charged x' = charged x).
Proof.
  intros Hx Hc. unfold settle. rewrite Hc.
  assert (mget (mdelete (inFlight x) execId) execId = None) as Hin.
  { apply mget_delete_eq. unfold mwf. rewrite (ei_keys _ Hx). apply (ei_wf _ Hx). }
  destruct (race c out) as [raw|[[code msg] details]] eqn:Er.
  - assert (out = Returned raw ∧ validateToolOutput (pc_name c) raw = None) as [-> Hv].
    { unfold race in Er. destruct out as [raw'| | |]; try done. destruct (validateToolOutput _ raw') eqn:E; [done|].
      by injection Er as ->. }
    cbn -[attachAudit createResult push_shift remember]. do 2 eexists. split; [reflexivity|].
    match goal with |- context [attachAudit ?a ?b ?d ?e] => set (r := attachAudit a b d e) end.
    assert (x_success r = true) as Hs by reflexivity. rewrite Hs. clearbody r.
    split; [split; [by intros _; exists raw|done]|].
    split; [intros raw' [= <-] He%(validate_evidence (pc_name c)); done|]. split; [done|]. split; [done|].
    split; [apply push_shift_last; unfold MAX_HISTORY; lia|]. split; [done|]. split; [|done].
    apply remember_get. apply (ei_size _ Hx).
  - pose proof (settle_error_result execId c code msg details now
      (x <| open_calls ::= λ m, mdelete m execId |> <| inFlight ::= λ m, mdelete m execId |>)) as H.
    destruct (settle_error _ _ _ _ _ _ _) as [x' r]. destruct H as (Hs & Est & Ecode & Etime & Hl & H1 & H2 & H3 & H4).
    exists x', r. split; [done|]. rewrite Hs.
    assert (∀ raw, out = Returned raw → validateToolOutput (pc_name c) raw = None → False) as Hno.
    { intros raw -> Hv. unfold race in Er. by rewrite Hv in Er. }
    split; [split; [done|]; intros (raw & E1 & E2); by destruct (Hno raw E1 E2)|]. split; [done|].
    split; [|split; [|by rewrite H4]].
    + intros ->. unfold race in Er. injection Er as <- <- <-. by rewrite Est, (Ecode eq_refl), (Etime eq_refl).
    + intros ->. unfold race in Er. injection Er as <- <- <-. by rewrite Est, (Ecode eq_refl).
Qed.

(** ** A run of two calls *)

Definition demo_tool : tool := Tool "apply_patch" "enabled" None RiskLevel.MEDIUM true 30000 5 [].
Definition demo_store : @Idempotency.store xresult := Idempotency.create 2000 true None.
Definition demo_executor : executor := fresh_executor [("apply_patch", demo_tool)] (Some demo_store) 30000.
Definition demo_options : options := Options (Some "k1") 0 false None "disabled".
Definition demo_call (newId : string) (x : executor) : executor * started :=
  execute (λ s, s) ["apply_patch"] None newId "run-1" 1 0 "apply_patch" (JObj [("path", JStr "a.js")]) demo_options x.

Definition patched : jsval := JObj [("applied", JBool true)].
Definition demo_done : executor := (settle "e1" (Returned patched) 40 true (demo_call "e1" demo_executor).1).1.

(** The second call with the key replays the stored result, in the same process
    and after a restart. *)
Example second_call_replays :
  ((λ s, match s with Answered r => Some (x_output r, x_deduped r) | Running _ => None end) ((demo_call "e2" demo_done).2),
   (λ s, match s with Answered r => Some (x_output r, x_deduped r) | Running _ => None end)
     ((demo_call "e2" (demo_done <| completedKeys := [] |>)).2)) =
  (Some (patched, true), Some (patched, true)).
Proof. vm_compute. reflexivity. Qed.

(** Nothing waits for a handler in flight: a second call with the same key, or
    the retry after the executor's timeout, starts the handler again while the
    first may still be running. *)
Example same_key_runs_twice :
  g_runs (demo_call "e2" (demo_call "e1" demo_executor).1).1 = [("e1", "k1"); ("e2", "k1")] ∧
  g_runs (demo_call "e2" (settle "e1" TimedOut 30000 true (demo_call "e1" demo_executor).1).1).1 = [("e1", "k1"); ("e2", "k1")].
Proof. vm_compute. done. Qed.

Lemma executor_state_invariant_witness :
  mkeys (inFlightRecords (demo_call "e2" (settle "e1" TimedOut 30000 true (demo_call "e1" demo_executor).1).1).1) = ["e2"] ∧
  NoDup (mkeys (inFlightRecords (demo_call "e2" (settle "e1" TimedOut 30000 true (demo_call "e1" demo_executor).1).1).1)).
Proof.
  split; [vm_compute; reflexivity|].
  refine (proj1 (proj2 (proj2 (proj2 (proj2 (executor_state_invariant (λ s, s) ["apply_patch"] None
    [("apply_patch", demo_tool)] (Some demo_store) 30000
    [LExecute "e1" "run-1" 1 0 "apply_patch" (JObj [("path", JStr "a.js")]) demo_options; LSettle "e1" TimedOut 30000 true;
     LExecute "e2" "run-1" 1 0 "apply_patch" (JObj [("path", JStr "a.js")]) demo_options] _ _ _)))))).
  - intros s [= <-] p r Hp. by apply not_elem_of_nil in Hp.
  - econstructor; [apply xs_execute; [done|apply not_elem_of_nil]|].
    econstructor; [apply xs_settle|]. econstructor; [|constructor].
    apply xs_execute; [done|]. vm_compute. intros H. inversion H as [|? ? ? H']; subst. inversion H'.
Defined.

Lemma outcome_classified_witness :
  ∃ x' r, settle "e1" (Returned (JObj [("success", JBool true); ("exitCode", JNum 1)])) 40 true (demo_call "e1" demo_executor).1
            = (x', Some r) ∧ x_success r = false ∧ x_code r = "command_failure".
Proof.
  assert (exec_inv (demo_call "e1" demo_executor).1) as Hx.
  { apply execute_inv; [apply not_elem_of_nil|]. apply fresh_inv. intros s [= <-] p r Hp. by apply not_elem_of_nil in Hp. }
  destruct (outcome_classified "e1" (Returned (JObj [("success", JBool true); ("exitCode", JNum 1)])) 40 true
    (demo_call "e1" demo_executor).1 (Call "apply_patch" demo_tool "k1" 0 None "run-1" 30000) Hx eq_refl)
    as (x' & r & E & _ & Hev & _).
  exists x', r. split; [exact E|]. split; [apply (Hev _ eq_refl); left; by exists 1%Z|].
  vm_compute in E. injection E as <- <-. reflexivity.
Defined.

(** Batches start the calls in order, at most [maxParallel] at a time. *)
Lemma batches_spec {A} n (calls : list A) :
  (0 < n)%nat → mjoin (batches n [] calls) = calls ∧ Forall (λ b, (length b ≤ n)%nat) (batches n [] calls).
Proof.
  intros Hn. assert (∀ acc, (length acc < n)%nat → mjoin (batches n acc calls) = (acc ++ calls)%list ∧
    Forall (λ b, (length b ≤ n)%nat) (batches n acc calls)) as H; [|by apply (H [])].
  induction calls as [|c calls IH]; intros acc Hacc; simpl.
  - destruct acc; [by split|]. split; [simpl; by rewrite !app_nil_r|]. apply Forall_singleton. lia.
  - assert (length (acc ++ [c]) ≤ n)%nat by (rewrite length_app; simpl; lia).
    case_decide.
    + destruct (IH []) as [E Hb]; [done|]. split; [|by constructor]. simpl. rewrite E. by rewrite <- app_assoc.
    + destruct (IH (acc ++ [c])%list) as [E Hb]; [lia|]. split; [|done]. by rewrite E, <- app_assoc.
Qed.
