(* ===== verification/Number.v ===== *)
(** JavaScript numbers.

    A JavaScript number is an IEEE 754 binary64 value. Amounts of money, ratios
    and scores are computed with [SpecFloat], the executable specification of
    binary64 of the standard library, so that rounding, overflow to infinity and
    NaN happen in the model where they happen in the code. Counters, token
    counts and milliseconds, which are integers below 2^53 in the code, are [Z].

    The order lemmas go through [nle_key]: on numbers other than NaN the
    comparison is a lexicographic order on a triple of integers, and [lia] does
    the rest ([num_order]). The sign lemmas ([nonneg_*]) say that sums, products
    and quotients of non-negative amounts are non-negative. *)

From Stdlib Require Import SpecFloat.
From S2P Require Import Prelude.

Local Open Scope Z_scope.

Definition num : Set := spec_float.

Definition prec : Z := 53.
Definition emax : Z := 1024.

Definition nadd : num → num → num := SFadd prec emax.
Definition nsub : num → num → num := SFsub prec emax.
Definition nmul : num → num → num := SFmul prec emax.
Definition ndiv : num → num → num := SFdiv prec emax.
Definition nneg : num → num := SFopp.

(** The literal of the integer [z], and the literal closest to [p/q] (decimal
    literals such as 0.8 are [ratio 8 10]: division rounds correctly). *)
Definition of_Z (z : Z) : num := binary_normalize prec emax z 0 false.
Definition ratio (p q : Z) : num := ndiv (of_Z p) (of_Z q).

Definition nzero : num := S754_zero false.
Definition Infinity : num := S754_infinity false.
Definition NaN : num := S754_nan.

Definition nlt (x y : num) : bool := SFltb x y.
Definition nle (x y : num) : bool := SFleb x y.
Definition neqb (x y : num) : bool := SFeqb x y.

Definition isNaN (x : num) : bool := match x with S754_nan => true | _ => false end.
Definition isFinite (x : num) : bool := match x with S754_zero _ | S754_finite _ _ _ => true | _ => false end.

(** [if (x)], [x || y] on numbers. *)
Definition truthy_num (x : num) : bool := negb (isNaN x) && negb (neqb x nzero).
Definition or_num (x y : num) : num := if truthy_num x then x else y.

(** [Math.max(x, y)] and [Math.min(x, y)]; +0 is greater than -0. *)
Definition nmax (x y : num) : num :=
  if isNaN x || isNaN y then NaN
  else if nlt x y then y
  else match x, y with S754_zero true, S754_zero s => S754_zero s | _, _ => x end.
Definition nmin (x y : num) : num :=
  if isNaN x || isNaN y then NaN
  else if nlt y x then y
  else match x, y with S754_zero false, S754_zero s => S754_zero s | _, _ => x end.

Definition signed (s : bool) (m : positive) : Z := if s then Zneg m else Zpos m.

(** [floor((2^k * x + c) / 2^k)] for a finite [x], as an integer. *)
Definition floor_Z (s : bool) (m : positive) (e : Z) : Z :=
  if 0 <=? e then Z.shiftl (signed s m) e else Z.shiftr (signed s m) (- e).
Definition round_Z (s : bool) (m : positive) (e : Z) : Z :=
  if 0 <=? e then Z.shiftl (signed s m) e
  else Z.shiftr (signed s m + Z.shiftl 1 (- e - 1)) (- e).

(** The number of an integer result, which keeps the sign of zero of [x]. *)
Definition of_Z_signed (s : bool) (z : Z) : num := if z =? 0 then S754_zero s else of_Z z.

Definition nfloor (x : num) : num :=
  match x with S754_finite s m e => of_Z_signed s (floor_Z s m e) | _ => x end.
Definition nround (x : num) : num :=
  match x with S754_finite s m e => of_Z_signed s (round_Z s m e) | _ => x end.
Definition nceil (x : num) : num :=
  match x with S754_finite s m e => of_Z_signed s (- floor_Z (negb s) m e) | _ => x end.
Definition nabs (x : num) : num := SFabs x.

#[export] Instance num_eq_dec : EqDecision num.
Proof. solve_decision. Defined.

(** * The order *)

Definition key (x : num) : Z * Z * Z :=
  match x with
  | S754_zero _ | S754_nan => (0, 0, 0)
  | S754_infinity s => (if s then -2 else 2, 0, 0)
  | S754_finite false m e => (1, e, Zpos m)
  | S754_finite true m e => (-1, - e, Zneg m)
  end.

Definition lex_le (a b : Z * Z * Z) : Prop :=
  a.1.1 < b.1.1 ∨ a.1.1 = b.1.1 ∧ (a.1.2 < b.1.2 ∨ a.1.2 = b.1.2 ∧ a.2 ≤ b.2).

Lemma compare_key x y : isNaN x = false → isNaN y = false →
  SFcompare x y = Some
    match key x, key y with
    | (a1, a2, a3), (b1, b2, b3) =>
      match a1 ?= b1 with Eq => match a2 ?= b2 with Eq => a3 ?= b3 | c => c end | c => c end
    end.
Proof.
  destruct x as [s|[]| |[] m e], y as [t|[]| |[] m' e']; try done; intros _ _; simpl; f_equal.
  - rewrite Z.compare_opp, (Z.compare_antisym e e'). by destruct (e ?= e').
Qed.

Lemma nle_key x y : nle x y = true ↔ isNaN x = false ∧ isNaN y = false ∧ lex_le (key x) (key y).
Proof.
  destruct (isNaN x) eqn:Hx; [destruct x; try done; by split; [|intros (? & _)]|].
  destruct (isNaN y) eqn:Hy; [destruct y; try done; destruct x; by split; [|intros (_ & ? & _)]|].
  unfold nle, SFleb. rewrite (compare_key x y) by done.
  destruct (key x) as [[a1 a2] a3], (key y) as [[b1 b2] b3]. unfold lex_le. simpl.
  destruct (Z.compare_spec a1 b1), (Z.compare_spec a2 b2), (Z.compare_spec a3 b3);
    split; intros; try done; try (split; [done|split; [done|]]); lia.
Qed.

Lemma nlt_key x y : nlt x y = true ↔ isNaN x = false ∧ isNaN y = false ∧ ¬ lex_le (key y) (key x).
Proof.
  destruct (isNaN x) eqn:Hx; [destruct x; try done; by split; [|intros (? & _)]|].
  destruct (isNaN y) eqn:Hy; [destruct y; try done; destruct x; by split; [|intros (_ & ? & _)]|].
  unfold nlt, SFltb. rewrite (compare_key x y) by done.
  destruct (key x) as [[a1 a2] a3], (key y) as [[b1 b2] b3]. unfold lex_le. simpl.
  destruct (Z.compare_spec a1 b1), (Z.compare_spec a2 b2), (Z.compare_spec a3 b3);
    split; intros; try done; try (split; [done|split; [done|]]); lia.
Qed.

(** Decides goals about [nle] and [nlt] from hypotheses about them. *)
Ltac num_order :=
  repeat match goal with
  | H : nlt _ _ = false |- _ => rewrite <-not_true_iff_false, nlt_key in H
  | H : nle _ _ = false |- _ => rewrite <-not_true_iff_false, nle_key in H
  | H : nlt _ _ = true |- _ => rewrite nlt_key in H
  | H : nle _ _ = true |- _ => rewrite nle_key in H
  end;
  try match goal with
  | |- nlt _ _ = true => rewrite nlt_key
  | |- nle _ _ = true => rewrite nle_key
  | |- nlt _ _ = false => rewrite <-not_true_iff_false, nlt_key
  | |- nle _ _ = false => rewrite <-not_true_iff_false, nle_key
  end;
  unfold lex_le in *; destruct_and?; intuition (try congruence; try lia).

Lemma nle_refl x : isNaN x = false → nle x x = true.
Proof. intros. num_order. Qed.
Lemma nlt_nle x y : nlt x y = true → nle x y = true.
Proof. intros. num_order. Qed.
Lemma nle_trans x y z : nle x y = true → nle y z = true → nle x z = true.
Proof. intros. num_order. Qed.
Lemma nlt_nle_trans x y z : nlt x y = true → nle y z = true → nlt x z = true.
Proof. intros. num_order. Qed.
Lemma nle_nlt_trans x y z : nle x y = true → nlt y z = true → nlt x z = true.
Proof. intros. num_order. Qed.
Lemma nlt_false x y : isNaN x = false → isNaN y = false → nlt x y = false ↔ nle y x = true.
Proof. intros. split; intros; num_order. Qed.
Lemma nle_false x y : isNaN x = false → isNaN y = false → nle x y = false ↔ nlt y x = true.
Proof. intros. split; intros; num_order. Qed.
Lemma nle_not_nan x y : nle x y = true → isNaN x = false ∧ isNaN y = false.
Proof. rewrite nle_key. tauto. Qed.

Lemma nmax_cases x y : isNaN x = false → isNaN y = false →
  isNaN (nmax x y) = false ∧ nle x (nmax x y) = true ∧ nle y (nmax x y) = true
  ∧ (key (nmax x y) = key x ∨ nmax x y = y).
Proof.
  intros Hx Hy. unfold nmax. rewrite Hx, Hy. simpl. destruct (nlt x y) eqn:E.
  - split; [done|]. split; [num_order|]. split; [by apply nle_refl|]. by right.
  - apply nlt_false in E; [|done..]. destruct x as [[]|? | |? ? ?], y; try done; split_and?; auto using nle_refl.
Qed.

Lemma nmin_cases x y : isNaN x = false → isNaN y = false →
  isNaN (nmin x y) = false ∧ nle (nmin x y) x = true ∧ nle (nmin x y) y = true
  ∧ (key (nmin x y) = key x ∨ nmin x y = y).
Proof.
  intros Hx Hy. unfold nmin. rewrite Hx, Hy. simpl. destruct (nlt y x) eqn:E.
  - split; [done|]. split; [num_order|]. split; [by apply nle_refl|]. by right.
  - apply nlt_false in E; [|done..]. destruct x as [[]|? | |? ? ?], y; try done; split_and?; auto using nle_refl.
Qed.

(** [Math.max(lo, Math.min(hi, x))] lies between the bounds, and is [x] up to
    the sign of zero when [x] does. *)
Lemma nclamp_bounds lo hi x : nle lo hi = true → isNaN x = false →
  nle lo (nmax lo (nmin hi x)) = true ∧ nle (nmax lo (nmin hi x)) hi = true
  ∧ isNaN (nmax lo (nmin hi x)) = false.
Proof.
  intros Hlh Hx. destruct (nle_not_nan _ _ Hlh) as [Hl Hh].
  destruct (nmin_cases hi x Hh Hx) as (Hm & H1 & H2 & _).
  destruct (nmax_cases lo _ Hl Hm) as (Hm' & H3 & H4 & [E|E]).
  - split; [done|]. split; [|done]. rewrite nle_key in Hlh |- *. rewrite E. tauto.
  - split; [done|]. split; [|done]. by rewrite E.
Qed.

Lemma nclamp_bounds' lo hi x : nle lo hi = true → isNaN x = false →
  nle lo (nmin hi (nmax lo x)) = true ∧ nle (nmin hi (nmax lo x)) hi = true
  ∧ isNaN (nmin hi (nmax lo x)) = false.
Proof.
  intros Hlh Hx. destruct (nle_not_nan _ _ Hlh) as [Hl Hh].
  destruct (nmax_cases lo x Hl Hx) as (Hm & H1 & H2 & _).
  destruct (nmin_cases hi _ Hh Hm) as (Hm' & H3 & H4 & [E|E]).
  - split; [|by split]. rewrite nle_key in Hlh |- *. rewrite E. tauto.
  - split; [|by split]. by rewrite E.
Qed.

(** * Signs *)

(** Not NaN, and not below zero. *)
Definition nonneg (x : num) : bool :=
  match x with S754_zero _ | S754_infinity false | S754_finite false _ _ => true | _ => false end.

Lemma nonneg_not_nan x : nonneg x = true → isNaN x = false.
Proof. by destruct x as [|[]| |[]]. Qed.

Lemma nonneg_le x : nonneg x = true ↔ nle nzero x = true.
Proof. destruct x as [|[]| |[] m e]; by split. Qed.

Lemma shr_1_nonneg r : 0 ≤ shr_m r → 0 ≤ shr_m (shr_1 r).
Proof. destruct r as [[|[]|[]] ? ?]; simpl; lia. Qed.

Lemma iter_shr_nonneg p : ∀ r, 0 ≤ shr_m r → 0 ≤ shr_m (SpecFloat.iter_pos shr_1 p r).
Proof. induction p; intros r H; simpl; auto using shr_1_nonneg. Qed.

Lemma shr_fexp_nonneg m e l : 0 ≤ m → 0 ≤ shr_m (shr_fexp prec emax m e l).1.
Proof.
  intros H. unfold shr_fexp, shr.
  assert (0 ≤ shr_m (shr_record_of_loc m l)) by by destruct l as [|[]].
  case_match; simpl; auto using iter_shr_nonneg.
Qed.

Lemma round_even_nonneg m l : 0 ≤ m → 0 ≤ round_nearest_even m l.
Proof. intros. destruct l as [|[]]; simpl; repeat case_match; lia. Qed.

Lemma round_aux_sign s m e l : 0 ≤ m →
  isNaN (binary_round_aux prec emax s m e l) = false ∧
  (s = false → nonneg (binary_round_aux prec emax s m e l) = true).
Proof.
  intros H. unfold binary_round_aux.
  pose proof (shr_fexp_nonneg m e l H) as H1.
  destruct (shr_fexp prec emax m e l) as [r e']. simpl in H1.
  pose proof (shr_fexp_nonneg (round_nearest_even (shr_m r) (loc_of_shr_record r)) e' loc_Exact
    (round_even_nonneg _ _ H1)) as H2.
  destruct (shr_fexp prec emax _ e' loc_Exact) as [r' e'']. simpl in H2.
  destruct (shr_m r'); [by split|case_match; by split; [|intros ->]|lia].
Qed.

Lemma normalize_nonneg m e : 0 ≤ m → nonneg (binary_normalize prec emax m e false) = true.
Proof.
  intros H. destruct m as [|m|m]; [done| |lia]. simpl. unfold binary_round.
  destruct (shl_align m e _) as [mz ez]. by apply round_aux_sign.
Qed.

Lemma nonneg_of_Z z : 0 ≤ z → nonneg (of_Z z) = true.
Proof. apply normalize_nonneg. Qed.

Lemma nonneg_add x y : nonneg x = true → nonneg y = true → nonneg (nadd x y) = true.
Proof.
  destruct x as [[]|[]| |[] m e], y as [[]|[]| |[] m' e']; try done. intros _ _.
  unfold nadd, SFadd. apply normalize_nonneg. simpl. lia.
Qed.

Lemma nonneg_mul x y : isFinite x = true → isFinite y = true →
  nonneg x = true → nonneg y = true → nonneg (nmul x y) = true.
Proof.
  destruct x as [[]|[]| |[] m e], y as [[]|[]| |[] m' e']; try done. intros _ _ _ _.
  unfold nmul, SFmul. by apply round_aux_sign.
Qed.

Lemma nsub_not_nan x y : isNaN x = false → isFinite y = true → isNaN (nsub x y) = false.
Proof.
  destruct x as [[]|[]| |s m e], y as [[]|[]| |t m' e']; try done. intros _ _.
  unfold nsub, SFsub. generalize (Z.min e e').
  intros ez. generalize (cond_Zopp s (Zpos (shl_align m e ez).1) - cond_Zopp t (Zpos (shl_align m' e' ez).1)).
  intros [|p|p]; [done|..]; simpl; unfold binary_round; destruct (shl_align p ez _) as [mz e2];
    by apply round_aux_sign.
Qed.

Lemma div_eucl_nonneg m d : 0 ≤ m → 0 < d → 0 ≤ (Z.div_eucl m d).1.
Proof. intros. change (0 ≤ m / d). by apply Z.div_pos. Qed.

Lemma div_core_nonneg m1 e1 m2 e2 :
  0 ≤ (SFdiv_core_binary prec emax (Zpos m1) e1 (Zpos m2) e2).1.1.
Proof.
  unfold SFdiv_core_binary. cbv zeta.
  set (s := _ - _ - _). set (m' := match s with 0 => _ | Zpos _ => _ | Zneg _ => _ end).
  assert (0 ≤ m') as H by (subst m'; destruct s; [lia|apply Z.shiftl_nonneg; lia|lia]).
  pose proof (div_eucl_nonneg m' (Zpos m2) H ltac:(lia)) as Hq. by destruct (Z.div_eucl m' (Zpos m2)).
Qed.

Lemma nonneg_div x y : isFinite x = true → nonneg x = true →
  nonneg y = true → neqb y nzero = false → nonneg (ndiv x y) = true.
Proof.
  destruct x as [[]|[]| |[] m e], y as [[]|[]| |[] m' e']; try done. intros _ _ _ _.
  unfold ndiv, SFdiv. pose proof (div_core_nonneg m e m' e') as H.
  destruct (SFdiv_core_binary _ _ _ _ _ _) as [[mz ez] lz]. by apply round_aux_sign.
Qed.

#[export] Hint Resolve nonneg_of_Z nonneg_add nonneg_not_nan nle_refl nlt_nle : js.

(** * Conversions

    The arguments the code passes to [Number(...)]: absent, [null], the empty
    string, and anything else by the number it converts to. *)
Inductive jsnum := JUndefined | JNullish | JEmpty | JNumber (n : num).

Definition to_number (v : jsnum) : num :=
  match v with JUndefined => NaN | JNullish | JEmpty => nzero | JNumber n => n end.

(** [a ?? b] *)
Definition nullish (a b : jsnum) : jsnum :=
  match a with JUndefined | JNullish => b | _ => a end.

(** The integer of [Math.floor(x)] for a finite [x]. *)
Definition to_Z_floor (x : num) : Z :=
  match x with S754_finite s m e => floor_Z s m e | _ => 0 end.

Definition clamp_Z (lo hi z : Z) : Z := Z.max lo (Z.min hi z).

Lemma clamp_Z_bounds lo hi z : lo ≤ hi → lo ≤ clamp_Z lo hi z ≤ hi.
Proof. unfold clamp_Z. lia. Qed.

Lemma isFinite_not_nan x : isFinite x = true → isNaN x = false.
Proof. by destruct x. Qed.

Lemma nonneg_max_zero x : isNaN x = false → nonneg (nmax nzero x) = true.
Proof. intros H. apply nonneg_le. by destruct (nmax_cases nzero x eq_refl H) as (_ & ? & _). Qed.

Lemma finite_max_zero x : isFinite x = true → isFinite (nmax nzero x) = true.
Proof. unfold nmax. destruct x as [[]|[]| |[]]; try done. Qed.

#[export] Hint Resolve isFinite_not_nan nonneg_max_zero : js.
