(* ===== verification/Sorting.v ===== *)
(** [Array.prototype.sort]: a stable sort by a comparator, and what its first
    element is. *)

From Stdlib Require Import Sorted.
From S2P Require Import Prelude.

Section Sort.
Context {A : Type} (before : A → A → bool).

(** [xs.sort(cmp)], where [before x y] is [cmp(x, y) < 0]: stable insertion. *)
Fixpoint insert_sorted (x : A) (l : list A) : list A :=
  match l with
  | [] => [x]
  | y :: l' => if before x y then x :: l else y :: insert_sorted x l'
  end.
Definition js_sort (l : list A) : list A := foldl (λ acc x, insert_sorted x acc) [] l.

Lemma insert_sorted_perm x l : insert_sorted x l ≡ₚ x :: l.
Proof. induction l as [|y l IH]; simpl; [done|]. destruct (before x y); [done|]. rewrite IH. apply perm_swap. Qed.

Lemma js_sort_perm l : js_sort l ≡ₚ l.
Proof.
  unfold js_sort. assert (∀ acc, foldl (λ acc x, insert_sorted x acc) acc l ≡ₚ acc ++ l) as H; [|apply (H [])].
  induction l as [|x l IH]; intros acc; simpl; [by rewrite app_nil_r|].
  rewrite IH, insert_sorted_perm. by rewrite <-Permutation_middle.
Qed.

Lemma elem_of_js_sort x l : x ∈ js_sort l ↔ x ∈ l.
Proof. by rewrite js_sort_perm. Qed.

(** The first element: nothing comes before it, for a strict weak order. *)
Context (Hirr : ∀ x, before x x = false)
  (Htrans : ∀ x y z, before x y = true → before y z = true → before x z = true)
  (Hcotrans : ∀ x y z, before x y = false → before y z = false → before x z = false).

Definition head_least (l : list A) : Prop := match l with [] => True | x :: l => ∀ y, y ∈ l → before y x = false end.

Lemma insert_head x l : head_least l → head_least (insert_sorted x l).
Proof.
  destruct l as [|y l]; simpl; [by intros _ z ?%not_elem_of_nil|]. intros H. destruct (before x y) eqn:E; simpl.
  - intros z [-> |Hz]%elem_of_cons.
    + destruct (before y x) eqn:E'; [|done]. pose proof (Hirr x). pose proof (Htrans _ _ _ E E'). congruence.
    + apply (Hcotrans z y x); [by apply H|]. destruct (before y x) eqn:E'; [|done].
      pose proof (Hirr x). pose proof (Htrans _ _ _ E E'). congruence.
  - intros z. rewrite insert_sorted_perm. intros [-> |Hz]%elem_of_cons; [done|by apply H].
Qed.

Lemma js_sort_head l : head_least (js_sort l).
Proof.
  unfold js_sort. assert (∀ acc, head_least acc → head_least (foldl (λ acc x, insert_sorted x acc) acc l)) as H; [|by apply H].
  induction l as [|x l IH]; intros acc Hacc; simpl; [done|]. by apply IH, insert_head.
Qed.
End Sort.

(** Nothing comes before an earlier element, for a strict weak order. *)
Section Sorted.
Context {A : Type} (before : A → A → bool).
Context (Hirr : ∀ x, before x x = false)
  (Htrans : ∀ x y z, before x y = true → before y z = true → before x z = true)
  (Hcotrans : ∀ x y z, before x y = false → before y z = false → before x z = false).

Definition in_order (x y : A) : Prop := before y x = false.

Lemma before_asym x y : before x y = true → before y x = false.
Proof. intros H. destruct (before y x) eqn:E; [|done]. pose proof (Hirr x). pose proof (Htrans _ _ _ H E). congruence. Qed.

Lemma insert_sorted_sorted x l : StronglySorted in_order l → StronglySorted in_order (insert_sorted before x l).
Proof.
  induction 1 as [|y l Hl IH Hy]; simpl; [by repeat constructor|]. destruct (before x y) eqn:E.
  - repeat constructor; auto; [by apply before_asym|].
    eapply Forall_impl; [exact Hy|]. intros z Hz. apply (Hcotrans z y x); [done|by apply before_asym].
  - constructor; [done|]. rewrite insert_sorted_perm. by constructor.
Qed.

Lemma js_sort_sorted l : StronglySorted in_order (js_sort before l).
Proof.
  unfold js_sort. assert (∀ acc, StronglySorted in_order acc →
    StronglySorted in_order (foldl (λ acc x, insert_sorted before x acc) acc l)) as H; [|apply H; constructor].
  induction l as [|x l IH]; intros acc Hacc; simpl; [done|]. by apply IH, insert_sorted_sorted.
Qed.

Lemma js_sort_lookup l i j x y :
  js_sort before l !! i = Some x → js_sort before l !! j = Some y → (i ≤ j)%nat → before y x = false.
Proof.
  pose proof (js_sort_sorted l) as H. revert i j. induction H as [|z k Hk IH Hz]; intros i j Hi Hj Hij; [done|].
  destruct i as [|i], j as [|j]; simpl in *; [|..].
  - simplify_eq. apply Hirr.
  - simplify_eq. rewrite Forall_lookup in Hz. by apply (Hz j).
  - lia.
  - apply (IH i j); [done..|lia].
Qed.
End Sorted.

(** Comparators that agree on the elements sort alike. *)
Lemma js_sort_ext {A} (before before' : A → A → bool) (P : A → Prop) l :
  (∀ x y, P x → P y → before x y = before' x y) → Forall P l → js_sort before l = js_sort before' l.
Proof.
  intros Hb Hl. assert (∀ x k, P x → Forall P k → insert_sorted before x k = insert_sorted before' x k) as Hi.
  { intros x k Hx. induction 1 as [|y k Hy _ IH]; simpl; [done|]. by rewrite Hb, IH. }
  unfold js_sort. assert (∀ acc, Forall P acc → foldl (λ acc x, insert_sorted before x acc) acc l
    = foldl (λ acc x, insert_sorted before' x acc) acc l) as H; [|by apply H].
  induction Hl as [|x l Hx Hl IH]; intros acc Hacc; simpl; [done|]. rewrite Hi by done. apply IH.
  rewrite insert_sorted_perm. by constructor.
Qed.

(** ** Strict weak orders, composed *)

Class WeakOrder {A} (before : A → A → bool) : Prop := {
  wo_irr x : before x x = false;
  wo_trans x y z : before x y = true → before y z = true → before x z = true;
  wo_cotrans x y z : before x y = false → before y z = false → before x z = false;
}.

(** [cmp1(a, b) || cmp2(a, b)] *)
Definition lex {A} (b1 b2 : A → A → bool) (x y : A) : bool := b1 x y || (negb (b1 y x) && b2 x y).

Lemma lex_true {A} (b1 b2 : A → A → bool) x y : lex b1 b2 x y = true ↔ b1 x y = true ∨ b1 y x = false ∧ b2 x y = true.
Proof. unfold lex. destruct (b1 x y), (b1 y x), (b2 x y); simpl; naive_solver. Qed.
Lemma lex_false {A} (b1 b2 : A → A → bool) x y : lex b1 b2 x y = false ↔ b1 x y = false ∧ (b1 y x = true ∨ b2 x y = false).
Proof. unfold lex. destruct (b1 x y), (b1 y x), (b2 x y); simpl; naive_solver. Qed.

Lemma lex_weak {A} (b1 b2 : A → A → bool) : WeakOrder b1 → WeakOrder b2 → WeakOrder (lex b1 b2).
Proof.
  intros H1 H2. split.
  - intros x. unfold lex. by rewrite wo_irr, (wo_irr (before := b2)).
  - intros x y z. rewrite !lex_true. intros [Hxy|[Hyx Hxy]] [Hyz|[Hzy Hyz]].
    + left. by apply (wo_trans x y z).
    + left. apply not_false_iff_true. intros Hxz. by rewrite (wo_cotrans x z y Hxz Hzy) in Hxy.
    + left. apply not_false_iff_true. intros Hxz. by rewrite (wo_cotrans y x z Hyx Hxz) in Hyz.
    + right. split; [by apply (wo_cotrans z y x)|by apply (wo_trans x y z)].
  - intros x y z. rewrite !lex_false. intros [Hxy Hx] [Hyz Hy]. split; [by apply (wo_cotrans x y z)|].
    destruct (b1 z x) eqn:Hzx; [by left|right].
    destruct Hx as [Hx|Hx]; [by rewrite (wo_cotrans y z x Hyz Hzx) in Hx|].
    destruct Hy as [Hy|Hy]; [by rewrite (wo_cotrans z x y Hzx Hxy) in Hy|].
    by apply (wo_cotrans x y z).
Qed.

Lemma on_weak {A B} (f : A → B) (b : B → B → bool) : WeakOrder b → WeakOrder (λ x y, b (f x) (f y)).
Proof. intros [H1 H2 H3]. split; eauto. Qed.

Lemma flip_weak {A} (b : A → A → bool) : WeakOrder b → WeakOrder (λ x y, b y x).
Proof. intros [H1 H2 H3]. split; eauto. Qed.

(** The first element of a sorted array is one nothing comes before. *)
Lemma js_sort_least {A} (before : A → A → bool) `{!WeakOrder before} l x k :
  js_sort before l = x :: k → x ∈ l ∧ ∀ y, y ∈ l → before y x = false.
Proof.
  intros E. pose proof (js_sort_head before wo_irr wo_trans wo_cotrans l) as H. rewrite E in H. simpl in H.
  assert (∀ y, y ∈ l ↔ y ∈ x :: k) as Hin by (intros y; by rewrite <-E, elem_of_js_sort).
  split; [apply Hin; by left|]. intros y [-> |Hy]%Hin%elem_of_cons; [apply wo_irr|by apply H].
Qed.
