(* ===== verification/NumberOrder.v ===== *)
(** The sign of a difference: for binary64 values, [x - y] is negative exactly
    when [x] is below [y], and zero exactly when they are equal. Comparators
    written [a.v - b.v || ...] order by the value, because subtraction never
    underflows to zero. *)

From Stdlib Require Import SpecFloat.
From S2P Require Import Prelude Number Sorting.

Local Open Scope Z_scope.

(** The values of the type: a canonical mantissa and exponent. *)
Definition valid (x : num) : bool := valid_binary prec emax x.

Lemma digits_log2 m : Zpos (digits2_pos m) = Z.log2 (Zpos m) + 1.
Proof.
  induction m as [m IH|m IH|]; simpl digits2_pos; [| |done].
  - rewrite Pos2Z.inj_succ, IH, Pos2Z.inj_xI, Z.log2_succ_double by lia. lia.
  - rewrite Pos2Z.inj_succ, IH, Pos2Z.inj_xO, Z.log2_double by lia. lia.
Qed.

Lemma fexp_spec d : fexp prec emax d = Z.max (d - 53) (-1074).
Proof. reflexivity. Qed.

(** A shift right by one keeps the quotient. *)
Lemma shr_1_m r : 0 ≤ shr_m r → shr_m (shr_1 r) = shr_m r / 2.
Proof.
  destruct r as [m g s]. intros H. destruct m as [|[p|p|]|p]; simpl in *; try done; try lia.
  - rewrite Pos2Z.inj_xI. apply (Z.div_unique _ _ _ 1); lia.
  - rewrite Pos2Z.inj_xO. apply (Z.div_unique _ _ _ 0); lia.
Qed.

Lemma iter_shr_m p : ∀ r, 0 ≤ shr_m r → shr_m (SpecFloat.iter_pos shr_1 p r) = shr_m r / 2 ^ Zpos p.
Proof.
  assert (∀ r, 0 ≤ shr_m r → 0 ≤ shr_m (shr_1 r)) as Hs by apply shr_1_nonneg.
  induction p as [p IH|p IH|]; intros r H; simpl SpecFloat.iter_pos.
  - rewrite IH, IH, shr_1_m by (repeat apply iter_shr_nonneg; auto).
    rewrite !Z.div_div by (try apply Z.pow_pos_nonneg; lia). f_equal.
    rewrite (Pos2Z.inj_xI p). replace (2 * Zpos p + 1) with (1 + Zpos p + Zpos p) by lia.
    rewrite !Z.pow_add_r by lia. ring.
  - rewrite IH, IH by (repeat apply iter_shr_nonneg; auto).
    rewrite Z.div_div by (try apply Z.pow_pos_nonneg; lia). f_equal.
    rewrite (Pos2Z.inj_xO p). replace (2 * Zpos p) with (Zpos p + Zpos p) by lia. by rewrite Z.pow_add_r by lia.
  - by rewrite shr_1_m.
Qed.

(** Rounding a mantissa that is not zero, at an exponent the format has, does
    not give zero. *)
Lemma shr_fexp_pos m e l : 1 ≤ m → -1074 ≤ e →
  1 ≤ shr_m (shr_fexp prec emax m e l).1 ∧ -1074 ≤ (shr_fexp prec emax m e l).2.
Proof.
  intros Hm He. unfold shr_fexp, shr. destruct m as [|m|m]; [lia| |lia].
  simpl Zdigits2. rewrite fexp_spec, digits_log2.
  remember (Z.max (Z.log2 (Zpos m) + 1 + e - 53) (-1074) - e) as n eqn:En. assert (shr_m (shr_record_of_loc (Zpos m) l) = Zpos m) as El by by destruct l as [|[]].
  destruct n as [|n|n]; cbn [fst snd]; [lia| |lia].
  rewrite iter_shr_m, El by (rewrite El; lia).
  pose proof (Z.log2_spec (Zpos m) ltac:(lia)) as [H1 _]. pose proof (Z.log2_nonneg (Zpos m)).
  split; [|lia]. apply Z.div_le_lower_bound; [apply Z.pow_pos_nonneg; lia|].
  rewrite Z.mul_1_r. etransitivity; [|exact H1]. apply Z.pow_le_mono_r; lia.
Qed.

Lemma round_even_ge m l : m ≤ round_nearest_even m l.
Proof. destruct l as [|[]]; simpl; repeat case_match; lia. Qed.

Lemma round_aux_pos s m e l : 1 ≤ m → -1074 ≤ e →
  (∃ m' e', binary_round_aux prec emax s m e l = S754_finite s m' e')
  ∨ binary_round_aux prec emax s m e l = S754_infinity s.
Proof.
  intros Hm He. unfold binary_round_aux.
  destruct (shr_fexp_pos m e l Hm He) as [H1 H2]. destruct (shr_fexp prec emax m e l) as [r e']. simpl in H1, H2.
  pose proof (round_even_ge (shr_m r) (loc_of_shr_record r)) as H3.
  destruct (shr_fexp_pos (round_nearest_even (shr_m r) (loc_of_shr_record r)) e' loc_Exact) as [H4 H5]; [lia|done|].
  destruct (shr_fexp prec emax _ e' loc_Exact) as [r' e'']. simpl in H4, H5.
  destruct (shr_m r') as [|m'|]; [lia| |lia]. case_match; eauto.
Qed.

(** The magnitude of a finite value at a common exponent. *)
Lemma align_spec m e z : z ≤ e → Zpos (shl_align m e z).1 = Zpos m * 2 ^ (e - z).
Proof.
  intros H. unfold shl_align. destruct (z - e) as [|p|p] eqn:E; simpl; [|lia|].
  - replace (e - z) with 0 by lia. lia.
  - replace (e - z) with (Zpos p) by lia. clear. induction p as [|p IH] using Pos.peano_ind; simpl Pos.iter.
    + rewrite Pos2Z.inj_xO. change (2 ^ 1) with 2. lia.
    + rewrite Pos.iter_succ, Pos2Z.inj_xO, IH, Pos2Z.inj_succ, Z.pow_succ_r by lia. ring.
Qed.

Lemma align_snd m e z : (shl_align m e z).2 = Z.min e z ∨ e ≤ z.
Proof. unfold shl_align. destruct (z - e) eqn:E; simpl; lia. Qed.

Lemma round_pos s m e : -1074 ≤ e →
  (∃ m' e', binary_round prec emax s m e = S754_finite s m' e')
  ∨ binary_round prec emax s m e = S754_infinity s.
Proof.
  intros He. unfold binary_round.
  assert (-1074 ≤ (shl_align m e (fexp prec emax (Zpos (digits2_pos m) + e))).2) as Hz.
  { rewrite fexp_spec. unfold shl_align. case_match; simpl; lia. }
  destruct (shl_align m e _) as [mz ez]. by apply round_aux_pos; [lia|].
Qed.

Lemma normalize_sign d e : -1074 ≤ e →
  nlt (binary_normalize prec emax d e false) nzero = (d <? 0) ∧
  truthy_num (binary_normalize prec emax d e false) = negb (d =? 0).
Proof.
  intros He. destruct d as [|d|d]; [done|..]; simpl;
    [destruct (round_pos false d e He) as [(m' & e' & ->)| ->]|destruct (round_pos true d e He) as [(m' & e' & ->)| ->]]; done.
Qed.

Lemma bounded_spec m e : bounded prec emax m e = true → e = Z.max (Z.log2 (Zpos m) - 52 + e) (-1074).
Proof.
  unfold bounded, canonical_mantissa. rewrite andb_true_iff, Z.eqb_eq, fexp_spec, digits_log2. lia.
Qed.

(** Canonical values compare as their magnitudes. *)
Lemma magnitude_compare m e m' e' : bounded prec emax m e = true → bounded prec emax m' e' = true →
  let z := Z.min e e' in
  (Zpos m * 2 ^ (e - z) ?= Zpos m' * 2 ^ (e' - z)) = match e ?= e' with Eq => (Zpos m ?= Zpos m') | c => c end.
Proof.
  assert (∀ m e m' e', bounded prec emax m e = true → bounded prec emax m' e' = true → e < e' →
    Zpos m < Zpos m' * 2 ^ (e' - e)) as Hlt.
  { clear. intros m e m' e' H%bounded_spec H'%bounded_spec Hlt.
    pose proof (Z.log2_spec (Zpos m) ltac:(lia)) as [_ H1].
    pose proof (Z.log2_spec (Zpos m') ltac:(lia)) as [H2 _].
    assert (2 ^ 53 ≤ 2 ^ Z.log2 (Zpos m') * 2 ^ (e' - e)) as H3.
    { rewrite <-Z.pow_add_r by lia. apply Z.pow_le_mono_r; lia. }
    assert (2 ^ Z.succ (Z.log2 (Zpos m)) ≤ 2 ^ 53) by (apply Z.pow_le_mono_r; lia).
    assert (0 < 2 ^ (e' - e)) by (apply Z.pow_pos_nonneg; lia). nia. }
  intros H H' z. destruct (Z.compare_spec e e') as [->|E|E]; subst z.
  - rewrite Z.min_id, Z.sub_diag, !Z.mul_1_r. done.
  - rewrite Z.min_l, Z.sub_diag, Z.mul_1_r by lia. apply Z.compare_lt_iff. by apply Hlt.
  - rewrite Z.min_r, Z.sub_diag, Z.mul_1_r by lia. apply Z.compare_gt_iff. by apply Hlt.
Qed.

Lemma compare_cases a b c : (a ?= b) = c → match c with Lt => a < b | Eq => a = b | Gt => b < a end.
Proof. intros <-. by destruct (Z.compare_spec a b). Qed.

(** The difference of two values has the sign of their comparison. *)
Theorem nsub_sign x y : valid x = true → valid y = true →
  nlt (nsub x y) nzero = nlt x y ∧
  truthy_num (nsub x y) = (nlt x y || nlt y x).
Proof.
  destruct x as [s|s| |s m e], y as [t|t| |t m' e']; intros Hx Hy;
    try (by split); try (destruct s, t; by split); try (destruct s; by split); try (destruct t; by split).
  unfold valid in *. simpl in Hx, Hy.
  unfold nsub, SFsub. set (z := Z.min e e').
  assert (-1074 ≤ z) as Hz by (pose proof (bounded_spec _ _ Hx); pose proof (bounded_spec _ _ Hy); lia).
  destruct (normalize_sign (cond_Zopp s (Zpos (shl_align m e z).1) - cond_Zopp t (Zpos (shl_align m' e' z).1)) z Hz) as [-> ->].
  rewrite !align_spec by lia. pose proof (magnitude_compare m e m' e' Hx Hy) as Hc. cbv zeta in Hc. fold z in Hc.
  assert (0 < Zpos m * 2 ^ (e - z)) by (apply Z.mul_pos_pos, Z.pow_pos_nonneg; lia).
  assert (0 < Zpos m' * 2 ^ (e' - z)) by (apply Z.mul_pos_pos, Z.pow_pos_nonneg; lia).
  revert Hc. generalize dependent (Zpos m * 2 ^ (e - z)). generalize dependent (Zpos m' * 2 ^ (e' - z)).
  intros b Hb a Ha Hc. unfold nlt, SFltb, SFcompare, cond_Zopp.
  change (Pos.compare_cont Eq m m') with (m ?= m')%positive.
  change (Pos.compare_cont Eq m' m) with (m' ?= m)%positive.
  rewrite (Z.compare_antisym e e'), (Pos.compare_antisym m m').
  change (Zpos m ?= Zpos m') with (m ?= m')%positive in Hc.
  destruct s, t; [|split; lia..|]; destruct (e ?= e'); cbn [CompOpp];
    try (destruct (m ?= m')%positive; cbn [CompOpp]); apply compare_cases in Hc; simpl in Hc; split; lia.
Qed.

(** ** The order as a total one

    [key_lt] is [<] on numbers, extended to a strict weak order on all values
    (NaN with zero), as the sorting lemmas ask. *)
#[export] Instance lex_le_dec a b : Decision (lex_le a b).
Proof. unfold lex_le. apply _. Defined.

Definition key_lt (x y : num) : bool := bool_decide (¬ lex_le (key y) (key x)).

Lemma nlt_key_lt x y : isNaN x = false → isNaN y = false → nlt x y = key_lt x y.
Proof.
  intros Hx Hy. unfold key_lt. destruct (nlt x y) eqn:E; symmetry; [rewrite bool_decide_eq_true|rewrite bool_decide_eq_false].
  - apply nlt_key in E. tauto.
  - intros H. assert (nlt x y = true) by (apply nlt_key; tauto). congruence.
Qed.

Lemma key_lt_irr x : key_lt x x = false.
Proof. unfold key_lt. rewrite bool_decide_eq_false. unfold lex_le. lia. Qed.
Lemma key_lt_trans x y z : key_lt x y = true → key_lt y z = true → key_lt x z = true.
Proof. unfold key_lt. rewrite !bool_decide_eq_true. unfold lex_le. lia. Qed.
Lemma key_lt_cotrans x y z : key_lt x y = false → key_lt y z = false → key_lt x z = false.
Proof. unfold key_lt. rewrite !bool_decide_eq_false. unfold lex_le. lia. Qed.

(** A value that is a number: canonical and not NaN. *)
Definition number (x : num) : Prop := valid x = true ∧ isNaN x = false.
#[export] Instance number_dec x : Decision (number x).
Proof. unfold number. apply _. Defined.

(** [(x, y) => x - y] orders numbers by [<]. *)
Lemma difference_before x y : number x → number y → nlt (nsub x y) nzero = key_lt x y.
Proof. intros [Hx ?] [Hy ?]. rewrite (proj1 (nsub_sign x y Hx Hy)). by apply nlt_key_lt. Qed.

(** [x - y || rest]: lexicographic. *)
Lemma difference_or x y rest : number x → number y →
  (let d := nsub x y in if truthy_num d then nlt d nzero else rest)
  = (key_lt x y || (negb (key_lt y x) && rest)).
Proof.
  intros [Hx Nx] [Hy Ny]. destruct (nsub_sign x y Hx Hy) as [H1 H2]. cbv zeta. rewrite H1, H2.
  rewrite !nlt_key_lt by done. destruct (key_lt x y), (key_lt y x); by destruct rest.
Qed.

#[export] Instance key_lt_weak : WeakOrder key_lt.
Proof. split; [exact key_lt_irr|exact key_lt_trans|exact key_lt_cotrans]. Qed.
