(* ===== verification/RuntimeState.v ===== *)
(** The runtime state of a run: backend/src/state/runtime-state.js.

    One module per class. Times are the [now()] the code reads, passed in;
    token counts, steps and milliseconds are integers; money, ratios, progress
    and health are binary64 numbers. The values other components only pass
    through (task metadata, step results, cost metadata) are left out. The
    serialisers [toJSON]/[toSnapshot] are modelled where a component reads them
    back (Checkpoint). [runtime_op] collects the operations other components
    call, and [runtime_wf] is what every one of them preserves. *)

From S2P Require Import Prelude JsMap JsValue Text Types Number.

Local Open Scope Z_scope.
Local Open Scope js_scope.

Definition one : num := of_Z 1.

(** [Math.max(0, Math.min(1, x))] *)
Definition unit_clamp (x : num) : num := nmax nzero (nmin one x).
Definition in_unit (x : num) : Prop := nle nzero x = true ∧ nle x one = true.

Lemma unit_clamp_in x : isNaN x = false → in_unit (unit_clamp x).
Proof. intros H. by destruct (nclamp_bounds nzero one x eq_refl H) as (? & ? & _). Qed.

Module TaskState.
(* [src/backend/src/state/runtime-state.js:13-26] TaskState *)
Record t := Mk {
  objective : string;
  taskType : string;
  complexity : string;
  priority : string;
  status : TaskStatus.t;
  progress : num;
  updatedAt : Z;
}.
#[global] Instance task_eta : Eta t := λ s,
  Mk (objective s) (taskType s) (complexity s) (priority s) (status s) (progress s) (updatedAt s).

(* [src/backend/src/state/runtime-state.js:14-26] constructor *)
Definition create (now : Z) (obj : string) (type prio compl : option string) : t :=
  Mk obj (default "general" type) (default "medium" compl) (default "normal" prio)
    TaskStatus.CREATED nzero now.

(* [src/backend/src/state/runtime-state.js:28-31] updateStatus *)
Definition updateStatus (now : Z) (st : TaskStatus.t) (s : t) : t :=
  s <| status := st |> <| updatedAt := now |>.

(* [src/backend/src/state/runtime-state.js:33-36] updateProgress *)
Definition updateProgress (now : Z) (p : num) (s : t) : t :=
  s <| progress := unit_clamp p |> <| updatedAt := now |>.
End TaskState.

Module ModelState.
(** A model's price, as [setPricing] stores it. *)
Record pricing := Pricing { inputPer1k : num; outputPer1k : num; cachedPer1k : num }.

(* [src/backend/src/state/runtime-state.js:43-58] ModelState *)
Record t := Mk {
  currentModel : option string;
  currentProvider : option string;
  candidateModels : list string;
  modelContextLimit : Z;
  modelPricingSnapshot : list (string * pricing);
  modelHealth : ModelStatus.t;
  modelLatency : Z;
  modelReliability : num;
  modelSelectionReason : string;
  lastModelChange : option Z;
  modelSwitchCount : nat;
}.
#[global] Instance model_eta : Eta t := λ s,
  Mk (currentModel s) (currentProvider s) (candidateModels s) (modelContextLimit s)
    (modelPricingSnapshot s) (modelHealth s) (modelLatency s) (modelReliability s)
    (modelSelectionReason s) (lastModelChange s) (modelSwitchCount s).

(* [src/backend/src/state/runtime-state.js:44-58] constructor *)
Definition create : t :=
  Mk None None [] 0 [] ModelStatus.HEALTHY 0 one "" None 0.

(* [src/backend/src/state/runtime-state.js:60-71] setCurrentModel *)
Definition setCurrentModel (now : Z) (modelId : string) (provider : option string) (reason : string)
    (s : t) : t :=
  s <| currentModel := Some modelId |> <| currentProvider := provider |>
    <| modelSelectionReason := reason |> <| lastModelChange := Some now |>
    <| modelSwitchCount ::= λ n,
         match currentModel s with
         | Some prev => if decide (prev = modelId) then n else S n
         | None => n
         end |>.

(* [src/backend/src/state/runtime-state.js:73-75] updateHealth *)
Definition updateHealth (h : ModelStatus.t) (s : t) : t := s <| modelHealth := h |>.

(* [src/backend/src/state/runtime-state.js:77-79] updateLatency *)
Definition updateLatency (ms : Z) (s : t) : t := s <| modelLatency := ms |>.

(* [src/backend/src/state/runtime-state.js:81-83] updateReliability *)
Definition updateReliability (r : num) (s : t) : t := s <| modelReliability := unit_clamp r |>.

(* [src/backend/src/state/runtime-state.js:94-96] setPricing *)
Definition setPricing (modelId : string) (p : pricing) (s : t) : t :=
  s <| modelPricingSnapshot ::= λ m, mset m modelId p |>.

(* [src/backend/src/state/runtime-state.js:98-100] getPricing *)
Definition getPricing (modelId : string) (s : t) : option pricing :=
  mget (modelPricingSnapshot s) modelId.

(** How often the model changed along the list of the models selected. *)
Fixpoint changes (l : list string) : nat :=
  match l with
  | x :: (y :: _) as l' => (if decide (x = y) then 0 else 1) + changes l'
  | _ => 0
  end%nat.

Lemma changes_cons x y l :
  changes (x :: y :: l) = ((if decide (x = y) then 0 else 1) + changes (y :: l))%nat.
Proof. done. Qed.

Lemma changes_snoc l x : changes (l ++ [x]) =
  (changes l + match last l with Some y => if decide (y = x) then 0 else 1 | None => 0 end)%nat.
Proof.
  induction l as [|y [|z l] IH]; [done|simpl; lia|].
  change ((y :: z :: l) ++ [x]) with (y :: z :: (l ++ [x])).
  change ((z :: l) ++ [x]) with (z :: (l ++ [x])) in IH.
  rewrite !changes_cons, last_cons_cons, IH. lia.
Qed.

(** A run of selections from a fresh state: the last one is current, and the
    switch count is exact. *)
Definition select_all (sels : list (Z * string)) : t :=
  foldl (λ s '(now, m), setCurrentModel now m None "" s) create sels.

Lemma switch_count_exact sels :
  currentModel (select_all sels) = last sels.*2 ∧
  modelSwitchCount (select_all sels) = changes sels.*2.
Proof.
  unfold select_all. induction sels as [|[now m] l [IH1 IH2]] using rev_ind; [done|].
  rewrite foldl_app, fmap_app. cbn [foldl fmap list_fmap snd]. set (s := foldl _ create l) in *.
  rewrite last_snoc, changes_snoc, <-IH1, <-IH2. split; [done|].
  change (match currentModel s with Some prev => if decide (prev = m) then modelSwitchCount s else S (modelSwitchCount s)
    | None => modelSwitchCount s end = modelSwitchCount s +
    match currentModel s with Some y => if decide (y = m) then 0 else 1 | None => 0 end)%nat.
  destruct (currentModel s); [case_decide|]; lia.
Qed.
End ModelState.

Module ContextState.
(* [src/backend/src/state/runtime-state.js:119-130] ContextItem *)
Record item := Item {
  i_id : string;
  i_kind : string;
  i_title : string;
  i_source : string;
  i_tokens : Z;
  i_relevance : num;
  i_status : string;
}.
#[global] Instance item_eta : Eta item := λ i,
  Item (i_id i) (i_kind i) (i_title i) (i_source i) (i_tokens i) (i_relevance i) (i_status i).

(* [src/backend/src/state/runtime-state.js:132-144] ContextState *)
Record t := Mk {
  currentTokens : Z;
  maximumTokens : Z;
  tokenBudget : Z;
  contextItems : list item;
  compressedItems : list (item * Z);
  discardedItems : list item;
  contextVersion : nat;
  cacheablePrefixTokens : Z;
  cacheState : string;
}.
#[global] Instance context_eta : Eta t := λ s,
  Mk (currentTokens s) (maximumTokens s) (tokenBudget s) (contextItems s) (compressedItems s)
    (discardedItems s) (contextVersion s) (cacheablePrefixTokens s) (cacheState s).

(* [src/backend/src/state/runtime-state.js:133-144] constructor *)
Definition create (maxTokens : option Z) : t :=
  let m := default 128000 maxTokens in Mk 0 m m [] [] [] 0 0 "COLD".

(* [src/backend/src/state/runtime-state.js:146-150] addItem *)
Definition addItem (i : item) (s : t) : t :=
  s <| contextItems ::= λ l, l ++ [i] |> <| currentTokens ::= λ n, n + i_tokens i |>
    <| contextVersion ::= S |>.

(** [items.findIndex(i => i.id === itemId)] *)
Definition find_item (itemId : string) (l : list item) : option (nat * item) :=
  list_find (λ i, i_id i = itemId) l.

(* [src/backend/src/state/runtime-state.js:152-162] removeItem *)
Definition removeItem (itemId : string) (s : t) : option item * t :=
  match find_item itemId (contextItems s) with
  | Some (idx, i) =>
      (Some i, s <| contextItems ::= delete idx |> <| currentTokens ::= λ n, n - i_tokens i |>
                 <| discardedItems ::= λ l, l ++ [i] |> <| contextVersion ::= S |>)
  | None => (None, s)
  end.

(* [src/backend/src/state/runtime-state.js:164-177] compressItem *)
Definition compressItem (itemId : string) (compressedTokens : Z) (s : t) : Z * t :=
  match find_item itemId (contextItems s) with
  | Some (idx, i) =>
      let reclaimed := i_tokens i - compressedTokens in
      let i' := i <| i_tokens := compressedTokens |> <| i_status := "COMPRESSED" |> in
      (reclaimed, s <| contextItems ::= <[idx := i']> |> <| currentTokens ::= λ n, n - reclaimed |>
                    <| compressedItems ::= λ l, l ++ [(i', reclaimed)] |> <| contextVersion ::= S |>)
  | None => (0, s)
  end.

(* [src/backend/src/state/runtime-state.js:183-185] setCacheablePrefix *)
Definition setCacheablePrefix (tokens : Z) (s : t) : t := s <| cacheablePrefixTokens := tokens |>.

(* [src/backend/src/state/runtime-state.js:187-189] getUtilization *)
Definition getUtilization (s : t) : num :=
  if 0 <? maximumTokens s then ndiv (of_Z (currentTokens s)) (of_Z (maximumTokens s)) else nzero.

(* [src/backend/src/state/runtime-state.js:191-193] isNearLimit *)
Definition isNearLimit (threshold : num) (s : t) : bool := nle threshold (getUtilization s).

(** The counter is the sum over the items. *)
Definition sum_tokens (l : list item) : Z := foldr (λ i n, i_tokens i + n) 0 l.
Definition tokens_exact (s : t) : Prop := currentTokens s = sum_tokens (contextItems s).

Lemma sum_app l k : sum_tokens (l ++ k) = sum_tokens l + sum_tokens k.
Proof. induction l as [|x l IH]; [done|]. simpl. rewrite IH. lia. Qed.

Lemma sum_split l idx i : l !! idx = Some i →
  sum_tokens l = sum_tokens (take idx l) + i_tokens i + sum_tokens (drop (S idx) l).
Proof.
  intros H. rewrite <-(take_drop_middle _ _ _ H) at 1. rewrite sum_app.
  change (sum_tokens (i :: drop (S idx) l)) with (i_tokens i + sum_tokens (drop (S idx) l)). lia.
Qed.

Lemma find_item_lookup k l idx i : find_item k l = Some (idx, i) → l !! idx = Some i.
Proof. unfold find_item. rewrite list_find_Some. tauto. Qed.

(** What the counter holds beyond its items: nothing as long as only items are
    added, removed and compressed. *)
Definition drift (s : t) : Z := currentTokens s - sum_tokens (contextItems s).

Lemma tokens_exact_drift s : tokens_exact s ↔ drift s = 0.
Proof. unfold tokens_exact, drift. lia. Qed.

Lemma drift_kept s :
  (∀ i, drift (addItem i s) = drift s) ∧
  (∀ k, drift (removeItem k s).2 = drift s) ∧
  (∀ k n, drift (compressItem k n s).2 = drift s).
Proof.
  unfold drift. split_and!.
  - intros i. change (currentTokens s + i_tokens i - sum_tokens (contextItems s ++ [i]) =
      currentTokens s - sum_tokens (contextItems s)).
    rewrite sum_app. simpl. lia.
  - intros k. unfold removeItem. destruct (find_item _ _) as [[idx i]|] eqn:E; [|done].
    apply find_item_lookup in E.
    change (currentTokens s - i_tokens i - sum_tokens (delete idx (contextItems s)) =
      currentTokens s - sum_tokens (contextItems s)).
    rewrite delete_take_drop, sum_app, (sum_split _ _ _ E). lia.
  - intros k n. unfold compressItem. destruct (find_item _ _) as [[idx i]|] eqn:E; [|done].
    apply find_item_lookup in E. cbv zeta.
    set (i' := i <| i_tokens := n |> <| i_status := "COMPRESSED" |>).
    change (currentTokens s - (i_tokens i - n) - sum_tokens (<[idx := i']> (contextItems s)) =
      currentTokens s - sum_tokens (contextItems s)).
    rewrite insert_take_drop by (by eapply lookup_lt_Some). rewrite sum_app, (sum_split _ _ _ E).
    change (sum_tokens (i' :: drop (S idx) (contextItems s)))
      with (n + sum_tokens (drop (S idx) (contextItems s))). lia.
Qed.
End ContextState.

Module ToolState.
(** A tool's entry: what the run and the prompt read of the configuration. *)
Record config := Config { c_description : string; c_parameters : jsval }.
Record tool := Tool { t_name : string; t_config : config; t_status : string }.

(** [recordCall]'s [result], as the orchestrator and the executor read it. *)
Record call_result := CallResult {
  r_success : bool;
  r_latencyMs : Z;
  r_cost : num;
}.
Record call := Call { c_name : string; c_result : call_result; c_timestamp : Z }.

(* [src/backend/src/state/runtime-state.js:244-253] ToolState *)
Record t := Mk {
  availableTools : list (string * tool);
  activeTools : gset string;
  recentToolCalls : list call;
  toolHealth : list (string * num);
  toolFailures : list (string * nat);
  toolLatency : list (string * Z);
  toolCosts : list (string * num);
}.
#[global] Instance tools_eta : Eta t := λ s,
  Mk (availableTools s) (activeTools s) (recentToolCalls s) (toolHealth s) (toolFailures s)
    (toolLatency s) (toolCosts s).

Definition create : t := Mk [] ∅ [] [] [] [] [].

(* [src/backend/src/state/runtime-state.js:255-261] registerTool *)
Definition registerTool (name : string) (c : config) (s : t) : t :=
  s <| availableTools ::= λ m, mset m name (Tool name c "enabled") |>
    <| toolHealth ::= λ m, mset m name one |> <| toolFailures ::= λ m, mset m name 0%nat |>
    <| toolLatency ::= λ m, mset m name 0 |> <| toolCosts ::= λ m, mset m name nzero |>.

Definition set_status (st : string) (t : tool) : tool := Tool (t_name t) (t_config t) st.

(* [src/backend/src/state/runtime-state.js:263-269] enableTool *)
Definition enableTool (name : string) (s : t) : t :=
  if mhas (availableTools s) name then
    s <| availableTools ::= λ m, malter (set_status "enabled") m name |> <| activeTools ::= λ a, {[name]} ∪ a |>
  else s.

(* [src/backend/src/state/runtime-state.js:271-277] disableTool *)
Definition disableTool (name : string) (s : t) : t :=
  if mhas (availableTools s) name then
    s <| availableTools ::= λ m, malter (set_status "disabled") m name |> <| activeTools ::= λ a, a ∖ {[name]} |>
  else s.

(** [Math.max(0, (health || 1) - 0.1)] and [Math.min(1, (health || 0.9) + 0.01)] *)
(* [src/backend/src/state/runtime-state.js:290-295] health after a call *)
Definition next_health (success : bool) (h : option num) : num :=
  let h := default NaN h in
  if success then nmin one (nadd (or_num h (ratio 9 10)) (ratio 1 100))
  else nmax nzero (nsub (or_num h one) (ratio 1 10)).

(* [src/backend/src/state/runtime-state.js:279-296] recordCall *)
Definition recordCall (now : Z) (name : string) (r : call_result) (s : t) : t :=
  let s := s <| recentToolCalls ::= λ l, push_shift 100 l (Call name r now) |> in
  let s := if r_latencyMs r =? 0 then s else s <| toolLatency ::= λ m, mset m name (r_latencyMs r) |> in
  let s := if truthy_num (r_cost r)
           then s <| toolCosts ::= λ m, mset m name (nadd (or_num (default nzero (mget m name)) nzero) (r_cost r)) |>
           else s in
  let s := if r_success r then s
           else s <| toolFailures ::= λ m, mset m name (S (default 0%nat (mget m name))) |> in
  s <| toolHealth ::= λ m, mset m name (next_health (r_success r) (mget m name)) |>.

(** The health recorded after a run of outcomes of one tool. *)
Definition health_after (outcomes : list bool) : num :=
  foldl (λ h ok, next_health ok (Some h)) one outcomes.

(** A tool that fails twelve times in a row is rated 0, 0 and then 0.9: a
    health of 0 is falsy, so the next failure starts again from 1. *)
Example failing_tool_recovers_health :
  health_after (replicate 11 false) = nzero ∧
  health_after (replicate 12 false) = ratio 9 10.
Proof. split; vm_compute; reflexivity. Qed.

Definition health_ok (h : num) : Prop := isFinite h = true ∧ nonneg h = true.
End ToolState.

Module BudgetState.
(* [src/backend/src/state/runtime-state.js:315-324] BudgetState *)
Record t := Mk {
  maximumCost : num;
  currentSpend : num;
  estimatedRemainingCost : num;
  maximumLatency : Z;
  elapsedLatency : Z;
  costBreakdown : list (string * num);
  costHistory : list (string * num * Z);
}.
#[global] Instance budget_eta : Eta t := λ s,
  Mk (maximumCost s) (currentSpend s) (estimatedRemainingCost s) (maximumLatency s)
    (elapsedLatency s) (costBreakdown s) (costHistory s).

(* [src/backend/src/state/runtime-state.js:316-324] constructor *)
Definition create (maxCost : option num) (maxLatencyMs : option Z) : t :=
  Mk (default (ratio 1 10) maxCost) nzero nzero (default 300000 maxLatencyMs) 0 [] [].

(* [src/backend/src/state/runtime-state.js:326-330] addCost *)
Definition addCost (now : Z) (category : string) (amount : num) (s : t) : t :=
  s <| currentSpend ::= λ n, nadd n amount |>
    <| costBreakdown ::= λ m, mset m category (nadd (or_num (default nzero (mget m category)) nzero) amount) |>
    <| costHistory ::= λ l, l ++ [(category, amount, now)] |>.

(* [src/backend/src/state/runtime-state.js:332-334] getRemainingBudget *)
Definition getRemainingBudget (s : t) : num := nmax nzero (nsub (maximumCost s) (currentSpend s)).

(* [src/backend/src/state/runtime-state.js:336-338] getProjectedTotal *)
Definition getProjectedTotal (s : t) : num := nadd (currentSpend s) (estimatedRemainingCost s).

(* [src/backend/src/state/runtime-state.js:340-342] isBudgetExceeded *)
Definition isBudgetExceeded (s : t) : bool := nle (maximumCost s) (currentSpend s).

(* [src/backend/src/state/runtime-state.js:344-346] isBudgetWarning *)
Definition isBudgetWarning (threshold : num) (s : t) : bool :=
  nle (nmul (maximumCost s) threshold) (currentSpend s).

(* [src/backend/src/state/runtime-state.js:348-350] addLatency *)
Definition addLatency (ms : Z) (s : t) : t := s <| elapsedLatency ::= λ n, n + ms |>.

(* [src/backend/src/state/runtime-state.js:352-354] isLatencyExceeded *)
Definition isLatencyExceeded (s : t) : bool := maximumLatency s <=? elapsedLatency s.

(** The remaining budget is never negative, and zero when the budget is used up. *)
Lemma remaining_nonneg s : isNaN (nsub (maximumCost s) (currentSpend s)) = false →
  nonneg (getRemainingBudget s) = true.
Proof.
  intros H. apply nonneg_le. by destruct (nmax_cases nzero _ eq_refl H) as (_ & ? & _).
Qed.

(** A spend that is not a number never exceeds any budget. *)
Lemma nan_spend_unbounded s : isNaN (currentSpend s) = true →
  isBudgetExceeded s = false ∧ ∀ now c a, isBudgetExceeded (addCost now c a s) = false.
Proof.
  unfold isBudgetExceeded. intros H.
  assert (∀ x y, isNaN y = true → nle x y = false) as Hn by (intros [] []; done).
  split; [by apply Hn|]. intros now c a. apply Hn.
  change (isNaN (nadd (currentSpend s) a) = true). by destruct (currentSpend s).
Qed.
End BudgetState.

Module ExecutionState.
(* [src/backend/src/state/runtime-state.js:382-385] history entry *)
Record step := Step {
  s_step : nat;
  s_startedAt : Z;
  s_status : string;
  s_completedAt : option Z;
  s_error : option string;
}.

(* [src/backend/src/state/runtime-state.js:370-380] ExecutionState *)
Record t := Mk {
  currentStep : nat;
  totalSteps : nat;
  stepHistory : list step;
  retries : nat;
  failures : nat;
}.
#[global] Instance execution_eta : Eta t := λ s,
  Mk (currentStep s) (totalSteps s) (stepHistory s) (retries s) (failures s).

Definition create : t := Mk 0 0 [] 0 0.

(* [src/backend/src/state/runtime-state.js:382-385] startStep *)
Definition startStep (now : Z) (s : t) : t :=
  let s := s <| currentStep ::= S |> in
  s <| stepHistory ::= λ l, l ++ [Step (currentStep s) now "running" None None] |>.

(** [const step = history[history.length - 1]; if (step) ...] *)
Definition alter_last (f : step → step) (l : list step) : list step := alter f (length l - 1)%nat l.

(* [src/backend/src/state/runtime-state.js:387-394] completeStep *)
Definition completeStep (now : Z) (s : t) : t :=
  s <| stepHistory ::= alter_last (λ x, Step (s_step x) (s_startedAt x) "completed" (Some now) (s_error x)) |>.

(* [src/backend/src/state/runtime-state.js:396-404] failStep *)
Definition failStep (now : Z) (error : string) (s : t) : t :=
  s <| stepHistory ::= alter_last (λ x, Step (s_step x) (s_startedAt x) "failed" (Some now) (Some error)) |>
    <| failures ::= S |>.

(* [src/backend/src/state/runtime-state.js:406-408] recordRetry *)
Definition recordRetry (s : t) : t := s <| retries ::= S |>.

(** Every step of the history carries its position; the counter is its length. *)
Definition history_numbered (s : t) : Prop :=
  length (stepHistory s) = currentStep s ∧
  ∀ i x, stepHistory s !! i = Some x → s_step x = S i.

Lemma alter_last_numbered f (l : list step) n :
  (∀ x, s_step (f x) = s_step x) →
  (length l = n ∧ ∀ i x, l !! i = Some x → s_step x = S i) →
  length (alter_last f l) = n ∧ ∀ i x, alter_last f l !! i = Some x → s_step x = S i.
Proof.
  unfold alter_last. intros Hf [Hl H]. rewrite length_alter. split; [done|]. intros i x.
  destruct (decide (i = length l - 1)%nat) as [->|Hne].
  - rewrite list_lookup_alter_eq. intros (y & Hy & ->)%fmap_Some. rewrite Hf. by apply H.
  - rewrite list_lookup_alter_ne by done. apply H.
Qed.

Lemma history_numbered_ops s : history_numbered s →
  (∀ now, history_numbered (startStep now s)) ∧
  (∀ now, history_numbered (completeStep now s)) ∧
  (∀ now e, history_numbered (failStep now e s)) ∧
  history_numbered (recordRetry s).
Proof.
  intros Hs. pose proof Hs as [Hl H]. split_and!; [|intros; by apply alter_last_numbered..|done].
  intros now. split.
  - change (length (stepHistory s ++ [Step (S (currentStep s)) now "running" None None]) = S (currentStep s)).
    rewrite length_app, Hl. simpl. lia.
  - intros i x.
    change (((stepHistory s ++ [Step (S (currentStep s)) now "running" None None]) !! i) = Some x → s_step x = S i).
    rewrite lookup_app_Some. intros [?|[Hge Hx]]; [by apply H|].
    apply list_lookup_singleton_Some in Hx as [Hi <-]. simpl. lia.
Qed.
End ExecutionState.

Module PolicyState.
(* [src/backend/src/state/runtime-state.js:433-450] PolicyState *)
Record t := Mk {
  allowedProviders : list string;
  allowedModels : list string;
  allowedTools : list string;
  blockedProviders : list string;
  blockedModels : list string;
  blockedTools : list string;
  modelStickinessThreshold : num;
  modelSwitchingThreshold : num;
  allowSwitching : option bool;
  allowCompaction : option bool;
}.
#[global] Instance policy_eta : Eta t := λ s,
  Mk (allowedProviders s) (allowedModels s) (allowedTools s) (blockedProviders s) (blockedModels s)
    (blockedTools s) (modelStickinessThreshold s) (modelSwitchingThreshold s) (allowSwitching s)
    (allowCompaction s).

(* [src/backend/src/state/runtime-state.js:434-450] constructor *)
Definition create : t := Mk [] [] [] [] [] [] (ratio 7 10) (ratio 15 100) None None.

(** The shape the three tests share. *)
Definition permits (allowed blocked : list string) (x : string) : bool :=
  if decide (x ∈ blocked) then false
  else if bool_decide (0 < length allowed)%nat && bool_decide (x ∉ allowed) then false
  else true.

(* [src/backend/src/state/runtime-state.js:452-456] isProviderAllowed *)
Definition isProviderAllowed (s : t) : string → bool := permits (allowedProviders s) (blockedProviders s).

(* [src/backend/src/state/runtime-state.js:458-462] isModelAllowed *)
Definition isModelAllowed (s : t) : string → bool := permits (allowedModels s) (blockedModels s).

(* [src/backend/src/state/runtime-state.js:464-468] isToolAllowed *)
Definition isToolAllowed (s : t) : string → bool := permits (allowedTools s) (blockedTools s).

(** Blocking wins over allowing; an empty allow list allows everything else. *)
Lemma permits_spec allowed blocked x :
  permits allowed blocked x = true ↔ ¬ (x ∈ blocked) ∧ (allowed = [] ∨ x ∈ allowed).
Proof.
  unfold permits. destruct (decide (x ∈ blocked)) as [Hb|Hb]; [by split; [|intros [[] _]]|].
  destruct allowed as [|y l]; [by split; auto|].
  destruct (decide (x ∈ y :: l)) as [Hx|Hx].
  - rewrite (bool_decide_eq_false_2 (x ∉ _)) by (by intros []). by split; auto.
  - rewrite (bool_decide_eq_true_2 (x ∉ _)) by done. by split; [|intros [_ [|]]].
Qed.
End PolicyState.

(** * The run *)

(* [src/backend/src/state/runtime-state.js:491-523] RuntimeState *)
Record RuntimeState := MkRuntime {
  runId : string;
  task : TaskState.t;
  model : ModelState.t;
  context : ContextState.t;
  tools : ToolState.t;
  budget : BudgetState.t;
  execution : ExecutionState.t;
  policy : PolicyState.t;
  status : TaskStatus.t;
  createdAt : Z;
  updatedAt : Z;
  ownerId : option string;
  orgId : option string;
  projectId : option string;
  privacyMode : string;
  executionMode : string;
  modelCalls : list jsval;
  eventSeq : nat;
}.
#[export] Instance runtime_eta : Eta RuntimeState := λ r,
  MkRuntime (runId r) (task r) (model r) (context r) (tools r) (budget r) (execution r) (policy r)
    (status r) (createdAt r) (updatedAt r) (ownerId r) (orgId r) (projectId r) (privacyMode r)
    (executionMode r) (modelCalls r) (eventSeq r).

(** The constructor's [config], the fields it reads. *)
(* [src/backend/src/state/runtime-state.js:492-515] constructor config *)
Record run_config := RunConfig {
  cf_taskType : option string;
  cf_priority : option string;
  cf_complexity : option string;
  cf_maxContextTokens : option Z;
  cf_maxCost : option num;
  cf_maxLatencyMs : option Z;
  cf_ownerId : option string;
  cf_orgId : option string;
  cf_projectId : option string;
  cf_privacyMode : option string;
  cf_mode : option string;
}.

(* [src/backend/src/state/runtime-state.js:492-523] constructor *)
Definition create (now : Z) (newId : string) (objective : string) (c : run_config) : RuntimeState :=
  MkRuntime newId
    (TaskState.create now objective (cf_taskType c) (cf_priority c) (cf_complexity c))
    ModelState.create (ContextState.create (cf_maxContextTokens c)) ToolState.create
    (BudgetState.create (cf_maxCost c) (cf_maxLatencyMs c)) ExecutionState.create PolicyState.create
    TaskStatus.CREATED now now
    (slice0 128 <$> cf_ownerId c) (slice0 128 <$> cf_orgId c) (slice0 128 <$> cf_projectId c)
    (match cf_privacyMode c with
     | Some m => if decide (m ∈ ["metadata_only"; "standard"; "zero_retention"]%string) then m else "standard"%string
     | None => "standard"%string
     end)
    (if decide (cf_mode c = Some "live"%string) then "live"%string else "demo"%string)
    [] 0.

(* [src/backend/src/state/runtime-state.js:525-531] addModelCall *)
Definition addModelCall (now : Z) (record : jsval) (r : RuntimeState) : RuntimeState :=
  match record with
  | JObj _ | JArr _ =>
      r <| modelCalls ::= λ l, push_shift 200 l record |> <| updatedAt := now |>
  | _ => r
  end.

(* [src/backend/src/state/runtime-state.js:533-535] getEventSeq *)
Definition getEventSeq (r : RuntimeState) : nat * RuntimeState :=
  (S (eventSeq r), r <| eventSeq ::= S |>).

(* [src/backend/src/state/runtime-state.js:537-541] updateStatus *)
Definition updateStatus (now : Z) (st : TaskStatus.t) (r : RuntimeState) : RuntimeState :=
  r <| status := st |> <| task ::= TaskState.updateStatus now st |> <| updatedAt := now |>.

(** ** What other components write to the fields themselves *)

(* [src/backend/src/core/orchestrator.js:516-520] the resolved configuration *)
Definition resolve_limits (budgetUsd : num) (maxContextTokens : option Z) (r : RuntimeState) : RuntimeState :=
  let r := r <| budget ::= λ b, b <| BudgetState.maximumCost := budgetUsd |> |> in
  match maxContextTokens with
  | Some n => if n =? 0 then r
              else r <| context ::= λ c, c <| ContextState.maximumTokens := n |> <| ContextState.tokenBudget := n |> |>
  | None => r
  end.

(* [src/backend/src/core/orchestrator.js:1111-1111] the selection plan's estimate *)
Definition raise_tokens (n : Z) (r : RuntimeState) : RuntimeState :=
  r <| context ::= λ c, c <| ContextState.currentTokens ::= λ k, Z.max k n |> |>.

(* [src/backend/src/core/orchestrator.js:1508-1509] the prompt about to be sent *)
Definition send_prompt (promptTokens : Z) (r : RuntimeState) : RuntimeState :=
  raise_tokens promptTokens r <| context ::= ContextState.setCacheablePrefix promptTokens |>.

(* [src/backend/src/core/orchestrator.js:1010-1010] the steps of the loop *)
Definition count_steps (steps : nat) (r : RuntimeState) : RuntimeState :=
  r <| execution ::= λ e, e <| ExecutionState.totalSteps ::= λ n, Nat.max n steps |> |>.

(* [src/backend/src/core/recovery-service.js:113-117] the recovery cursor *)
Definition move_cursor (cursor : nat) (r : RuntimeState) : RuntimeState :=
  r <| execution ::= λ e, e <| ExecutionState.currentStep := cursor |>
                            <| ExecutionState.totalSteps ::= λ n, Nat.max n cursor |> |>.

(* [src/backend/src/core/orchestrator.js:1121-1123] the router's candidates *)
Definition set_candidates (candidates : list string) (window : Z) (r : RuntimeState) : RuntimeState :=
  r <| model ::= λ m, m <| ModelState.candidateModels := candidates |> <| ModelState.modelContextLimit := window |> |>.

(* [src/backend/src/core/orchestrator.js:642-646] a forked or duplicated run *)
Definition derived (now : Z) (taskMode obj : string) (r : RuntimeState) : RuntimeState :=
  r <| task ::= λ t, t <| TaskState.taskType := taskMode |> <| TaskState.objective := obj |> |>
    <| status := TaskStatus.CREATED |> <| updatedAt := now |>.

(** [if (Number.isFinite(x)) field = x] *)
Definition finite_or (old x : num) : num := if isFinite x then x else old.

(** The restore of a checkpoint, on the fields this state has; [snap] is the state
    the snapshot was taken of, whose serialisers keep the last 20 steps, 50 costs
    and 200 model calls. (Checkpoint has the restore of an arbitrary document.) *)
(* [src/backend/src/checkpoint/checkpoint-manager.js:393-463] applySnapshotToRuntime *)
Definition restore (now : Z) (snap r : RuntimeState) : RuntimeState :=
  r <| status := status snap |>
    <| task ::= λ t, t <| TaskState.status := TaskState.status (task snap) |>
         <| TaskState.progress ::= λ p, finite_or p (TaskState.progress (task snap)) |> |>
    <| model ::= λ m, let s := model snap in
         m <| ModelState.currentModel := ModelState.currentModel s |>
           <| ModelState.currentProvider := ModelState.currentProvider s |>
           <| ModelState.candidateModels := ModelState.candidateModels s |>
           <| ModelState.modelContextLimit := ModelState.modelContextLimit s |>
           <| ModelState.modelHealth := ModelState.modelHealth s |>
           <| ModelState.modelLatency := ModelState.modelLatency s |>
           <| ModelState.modelReliability ::= λ x, finite_or x (ModelState.modelReliability s) |>
           <| ModelState.modelSelectionReason := ModelState.modelSelectionReason s |>
           <| ModelState.modelSwitchCount := ModelState.modelSwitchCount s |> |>
    <| context ::= λ c, let s := context snap in
         c <| ContextState.currentTokens := ContextState.currentTokens s |>
           <| ContextState.contextItems := ContextState.contextItems s |>
           <| ContextState.compressedItems := ContextState.compressedItems s |>
           <| ContextState.discardedItems := slice_last 50 (ContextState.discardedItems s) |>
           <| ContextState.contextVersion := ContextState.contextVersion s |>
           <| ContextState.cacheState ::= λ x,
                if decide (ContextState.cacheState s = "") then x else ContextState.cacheState s |> |>
    <| budget ::= λ b, let s := budget snap in
         b <| BudgetState.currentSpend ::= λ x, finite_or x (BudgetState.currentSpend s) |>
           <| BudgetState.maximumCost ::= λ x, finite_or x (BudgetState.maximumCost s) |>
           <| BudgetState.elapsedLatency := BudgetState.elapsedLatency s |>
           <| BudgetState.maximumLatency := BudgetState.maximumLatency s |>
           <| BudgetState.costBreakdown := BudgetState.costBreakdown s |>
           <| BudgetState.costHistory := slice_last 50 (BudgetState.costHistory s) |> |>
    <| execution ::= λ e, let s := execution snap in
         e <| ExecutionState.currentStep := ExecutionState.currentStep s |>
           <| ExecutionState.totalSteps := ExecutionState.totalSteps s |>
           <| ExecutionState.stepHistory := slice_last 20 (ExecutionState.stepHistory s) |>
           <| ExecutionState.retries := ExecutionState.retries s |>
           <| ExecutionState.failures := ExecutionState.failures s |> |>
    <| modelCalls := slice_last 200 (modelCalls snap) |>
    <| updatedAt := now |>.

(** The operations the other components call on a run's state, and their direct
    writes. *)
Inductive runtime_op :=
| OpStatus (st : TaskStatus.t)
| OpProgress (p : num)
| OpSelect (m : string) (provider : option string) (reason : string)
| OpModelHealth (h : ModelStatus.t)
| OpModelLatency (ms : Z)
| OpReliability (x : num)
| OpPricing (m : string) (p : ModelState.pricing)
| OpCandidates (candidates : list string) (window : Z)
| OpAddItem (i : ContextState.item)
| OpRemoveItem (k : string)
| OpCompressItem (k : string) (n : Z)
| OpTokenBudget (n : Z)
| OpLimits (budgetUsd : num) (maxContextTokens : option Z)
| OpPlanTokens (n : Z)
| OpSendPrompt (n : Z)
| OpRegisterTool (name : string) (c : ToolState.config)
| OpEnableTool (name : string)
| OpDisableTool (name : string)
| OpToolCall (name : string) (c : ToolState.call_result)
| OpCost (category : string) (amount : num)
| OpLatency (ms : Z)
| OpStartStep
| OpCompleteStep
| OpFailStep (e : string)
| OpRetry
| OpSteps (steps : nat)
| OpCursor (cursor : nat)
| OpRestore (snap : RuntimeState)
| OpModelCall (record : jsval)
| OpEventSeq.

Definition runtime_step (r : RuntimeState) (x : Z * runtime_op) : RuntimeState :=
  let now := x.1 in
  match x.2 with
  | OpStatus st => updateStatus now st r
  | OpProgress p => r <| task ::= TaskState.updateProgress now p |>
  | OpSelect m pr why => r <| model ::= ModelState.setCurrentModel now m pr why |>
  | OpModelHealth h => r <| model ::= ModelState.updateHealth h |>
  | OpModelLatency ms => r <| model ::= ModelState.updateLatency ms |>
  | OpReliability x => r <| model ::= ModelState.updateReliability x |>
  | OpPricing m p => r <| model ::= ModelState.setPricing m p |>
  | OpCandidates c w => set_candidates c w r
  | OpAddItem i => r <| context ::= ContextState.addItem i |>
  | OpRemoveItem k => r <| context ::= λ c, (ContextState.removeItem k c).2 |>
  | OpCompressItem k n => r <| context ::= λ c, (ContextState.compressItem k n c).2 |>
  | OpTokenBudget n => r <| context ::= λ c, c <| ContextState.tokenBudget := n |> |>
  | OpLimits b n => resolve_limits b n r
  | OpPlanTokens n => raise_tokens n r
  | OpSendPrompt n => send_prompt n r
  | OpRegisterTool n c => r <| tools ::= ToolState.registerTool n c |>
  | OpEnableTool n => r <| tools ::= ToolState.enableTool n |>
  | OpDisableTool n => r <| tools ::= ToolState.disableTool n |>
  | OpToolCall n c => r <| tools ::= ToolState.recordCall now n c |>
  | OpCost c a => r <| budget ::= BudgetState.addCost now c a |>
  | OpLatency ms => r <| budget ::= BudgetState.addLatency ms |>
  | OpStartStep => r <| execution ::= ExecutionState.startStep now |>
  | OpCompleteStep => r <| execution ::= ExecutionState.completeStep now |>
  | OpFailStep e => r <| execution ::= ExecutionState.failStep now e |>
  | OpRetry => r <| execution ::= ExecutionState.recordRetry |>
  | OpSteps n => count_steps n r
  | OpCursor n => move_cursor n r
  | OpRestore snap => restore now snap r
  | OpModelCall c => addModelCall now c r
  | OpEventSeq => (getEventSeq r).2
  end.

(** Well-formed runtime states. *)
Record runtime_wf (r : RuntimeState) : Prop := {
  wf_status : TaskState.status (task r) = status r;
  wf_progress : in_unit (TaskState.progress (task r));
  wf_reliability : in_unit (ModelState.modelReliability (model r));
  wf_tokens : 0 ≤ ContextState.drift (context r);
  wf_calls : (length (ToolState.recentToolCalls (tools r)) ≤ 100)%nat;
  wf_health : Forall (λ x, nonneg x.2 = true) (ToolState.toolHealth (tools r));
  wf_spend : nonneg (BudgetState.currentSpend (budget r)) = true;
  wf_modelCalls : (length (modelCalls r) ≤ 200)%nat;
  wf_privacy : privacyMode r ∈ ["metadata_only"; "standard"; "zero_retention"]%string;
}.

(** Inputs that are numbers: what the callers pass is never NaN, and costs are
    not negative. A checkpoint that is restored was taken of a well-formed state. *)
Definition op_numeric (x : Z * runtime_op) : Prop :=
  match x.2 with
  | OpProgress p => isNaN p = false
  | OpReliability x => isNaN x = false
  | OpCost _ a => nonneg a = true
  | OpRestore snap => runtime_wf snap
  | _ => True
  end.

(** Operations other than the writes that part the counters from what they count. *)
Definition keeps_tokens (x : Z * runtime_op) : bool :=
  match x.2 with OpPlanTokens _ | OpSendPrompt _ | OpRestore _ => false | _ => true end.
Definition keeps_steps (x : Z * runtime_op) : bool :=
  match x.2 with OpCursor _ | OpRestore _ => false | _ => true end.

Lemma mset_Forall {V} (P : string * V → Prop) m k v :
  Forall P m → P (k, v) → Forall P (mset m k v).
Proof.
  induction 1 as [|[k' v'] m Hx Hm IH]; intros Hv; simpl; [by constructor|].
  case_decide; [by constructor|]. constructor; auto.
Qed.

Lemma mget_Forall {V} (P : V → Prop) m k v :
  Forall (λ x : string * V, P x.2) m → mget m k = Some v → P v.
Proof. intros H Hg%mget_elem. rewrite Forall_forall in H. exact (H _ Hg). Qed.

Lemma or_num_nonneg h d : (h = NaN ∨ nonneg h = true) → nonneg d = true → nonneg (or_num h d) = true.
Proof. unfold or_num. intros [->|Hh] Hd; [done|]. by case_match. Qed.

Lemma next_health_nonneg ok h : (∀ x, h = Some x → nonneg x = true) →
  nonneg (ToolState.next_health ok h) = true.
Proof.
  intros Hh. unfold ToolState.next_health. cbv zeta.
  assert (default NaN h = NaN ∨ nonneg (default NaN h) = true) as H.
  { destruct h as [x|]; [right; by apply Hh|by left]. }
  destruct ok; apply nonneg_le.
  - assert (nonneg (nadd (or_num (default NaN h) (ratio 9 10)) (ratio 1 100)) = true) as Ha
      by (apply nonneg_add; [by apply or_num_nonneg|done]).
    unfold nmin. rewrite (nonneg_not_nan _ Ha). cbn [isNaN one of_Z].
    case_match; [done|]. case_match; [by apply nonneg_le|done].
  - assert (isNaN (nsub (or_num (default NaN h) one) (ratio 1 10)) = false) as Hs
      by (apply nsub_not_nan; [by apply nonneg_not_nan, or_num_nonneg|done]).
    by destruct (nmax_cases nzero _ eq_refl Hs) as (_ & ? & _).
Qed.

Lemma recordCall_fields now n c (s : ToolState.t) :
  ToolState.recentToolCalls (ToolState.recordCall now n c s) =
    push_shift 100 (ToolState.recentToolCalls s) (ToolState.Call n c now) ∧
  ToolState.toolHealth (ToolState.recordCall now n c s) =
    mset (ToolState.toolHealth s) n
      (ToolState.next_health (ToolState.r_success c) (mget (ToolState.toolHealth s) n)).
Proof. unfold ToolState.recordCall. cbv zeta. repeat case_match; done. Qed.

Lemma toggle_fields n (s : ToolState.t) b :
  let s' := if b : bool then ToolState.enableTool n s else ToolState.disableTool n s in
  ToolState.recentToolCalls s' = ToolState.recentToolCalls s ∧ ToolState.toolHealth s' = ToolState.toolHealth s.
Proof. unfold ToolState.enableTool, ToolState.disableTool. by repeat case_match. Qed.

Lemma addModelCall_fields now c r :
  context (addModelCall now c r) = context r ∧ execution (addModelCall now c r) = execution r.
Proof. by destruct c. Qed.

Lemma addModelCall_wf now c r : runtime_wf r → runtime_wf (addModelCall now c r).
Proof.
  intros [H1 H2 H3 H4 H5 H6 H7 H8 H9].
  destruct c; (constructor; try done); by apply push_shift_length.
Qed.

(** A run begins as the constructor leaves it, or as a fork or a duplicate. *)
Inductive begins : RuntimeState → Prop :=
| begins_created now i o c : begins (create now i o c)
| begins_derived now i o c now' taskMode obj : begins (derived now' taskMode obj (create now i o c)).

Lemma begins_wf r : begins r → runtime_wf r.
Proof.
  intros H. assert (∀ c, privacyMode (create 0 "" "" c) ∈ ["metadata_only"; "standard"; "zero_retention"]%string) as Hp.
  { intros c. cbn. destruct (cf_privacyMode c); [case_decide as E; [exact E|]|]; by do 2 constructor. }
  destruct H; (constructor; try done; try (simpl; lia); exact (Hp c)).
Qed.

Lemma finite_or_case (P : num → Prop) old x : P old → P x → P (finite_or old x).
Proof. unfold finite_or. by case_match. Qed.

Lemma restore_wf now snap r : runtime_wf snap → runtime_wf r → runtime_wf (restore now snap r).
Proof.
  intros [S1 S2 S3 S4 S5 S6 S7 S8 S9] [H1 H2 H3 H4 H5 H6 H7 H8 H9].
  constructor; cbn -[slice_last]; try done; try by apply finite_or_case.
  apply slice_last_length. lia.
Qed.

Lemma raise_tokens_drift n r : ContextState.drift (context r) ≤ ContextState.drift (context (raise_tokens n r)).
Proof.
  change (ContextState.currentTokens (context r) - ContextState.sum_tokens (ContextState.contextItems (context r)) ≤
    Z.max (ContextState.currentTokens (context r)) n - ContextState.sum_tokens (ContextState.contextItems (context r))). lia.
Qed.

Lemma resolve_limits_fields b n r :
  ContextState.drift (context (resolve_limits b n r)) = ContextState.drift (context r) ∧
  task (resolve_limits b n r) = task r ∧ status (resolve_limits b n r) = status r ∧
  model (resolve_limits b n r) = model r ∧ tools (resolve_limits b n r) = tools r ∧
  BudgetState.currentSpend (budget (resolve_limits b n r)) = BudgetState.currentSpend (budget r) ∧
  modelCalls (resolve_limits b n r) = modelCalls r ∧ privacyMode (resolve_limits b n r) = privacyMode r ∧
  execution (resolve_limits b n r) = execution r.
Proof. unfold resolve_limits. cbv zeta. by destruct n; [case_match|]. Qed.

Lemma runtime_step_drift r x :
  ContextState.drift (context r) ≤ ContextState.drift (context (runtime_step r x)) ∨ ∃ snap, x.2 = OpRestore snap.
Proof.
  destruct x as [now o]. destruct (ContextState.drift_kept (context r)) as (C1 & C2 & C3).
  destruct o; unfold runtime_step; cbn [fst snd]; try (left; reflexivity); try (left; apply raise_tokens_drift).
  - left. change (ContextState.drift (context r) ≤ ContextState.drift (ContextState.addItem i (context r))). by rewrite C1.
  - left. change (ContextState.drift (context r) ≤ ContextState.drift (ContextState.removeItem k (context r)).2). by rewrite C2.
  - left. change (ContextState.drift (context r) ≤ ContextState.drift (ContextState.compressItem k n (context r)).2). by rewrite C3.
  - left. by rewrite (proj1 (resolve_limits_fields _ _ _)).
  - left. exact (raise_tokens_drift n r).
  - right. by exists snap.
  - left. by rewrite (proj1 (addModelCall_fields _ _ _)).
Qed.

Lemma runtime_step_wf r x : runtime_wf r → op_numeric x → runtime_wf (runtime_step r x).
Proof.
  intros Hr Hn. pose proof Hr as [H1 H2 H3 H4 H5 H6 H7 H8 H9].
  destruct (runtime_step_drift r x) as [Hd|[snap Hx]].
  2: { destruct x as [now o]. cbn in Hx. subst o. by apply restore_wf. }
  assert (0 ≤ ContextState.drift (context (runtime_step r x))) as Hd' by lia. clear Hd.
  destruct x as [now o]. destruct o; try (by apply addModelCall_wf); try by apply restore_wf.
  all: try (destruct (resolve_limits_fields budgetUsd maxContextTokens r) as (_ & R1 & R2 & R3 & R4 & R5 & R6 & R7 & _);
    constructor; cbn [runtime_step fst snd]; rewrite ?R1, ?R2, ?R3, ?R4, ?R5, ?R6, ?R7; done).
  all: constructor; [| | |exact Hd'|..]; clear Hd'; cbn -[push_shift unit_clamp nadd ToolState.registerTool ToolState.enableTool
    ToolState.disableTool ToolState.recordCall ContextState.removeItem ContextState.compressItem mset]; try done.
  all: try by apply unit_clamp_in.
  all: try (rewrite (proj1 (recordCall_fields _ _ _ _)); by apply push_shift_length).
  all: try (rewrite (proj2 (recordCall_fields _ _ _ _)); apply mset_Forall; [done|];
    apply next_health_nonneg; intros; by eapply (mget_Forall (λ x, nonneg x = true))).
  all: try (by rewrite (proj1 (toggle_fields _ _ true))).
  all: try (by rewrite (proj2 (toggle_fields _ _ true))).
  all: try (by rewrite (proj1 (toggle_fields _ _ false))).
  all: try (by rewrite (proj2 (toggle_fields _ _ false))).
  - by apply mset_Forall.
  - by apply nonneg_add.
Qed.

Lemma runtime_step_tokens r x : ContextState.tokens_exact (context r) → keeps_tokens x = true →
  ContextState.tokens_exact (context (runtime_step r x)).
Proof.
  rewrite !ContextState.tokens_exact_drift. destruct (ContextState.drift_kept (context r)) as (C1 & C2 & C3).
  destruct x as [now o]. intros H Hk. destruct o; try done; cbn [runtime_step fst snd].
  - etransitivity; [apply C1|done].
  - etransitivity; [apply C2|done].
  - etransitivity; [apply C3|done].
  - by rewrite (proj1 (resolve_limits_fields _ _ _)).
  - by rewrite (proj1 (addModelCall_fields _ _ _)).
Qed.

Lemma runtime_step_steps r x : ExecutionState.history_numbered (execution r) → keeps_steps x = true →
  ExecutionState.history_numbered (execution (runtime_step r x)).
Proof.
  intros H Hk. destruct (ExecutionState.history_numbered_ops _ H) as (E1 & E2 & E3 & E4).
  destruct x as [now o]. destruct o; try done; cbn [runtime_step fst snd].
  - destruct (resolve_limits_fields budgetUsd maxContextTokens r) as (_ & _ & _ & _ & _ & _ & _ & _ & R). by rewrite R.
  - exact (E1 now).
  - exact (E2 now).
  - exact (E3 now e).
  - by rewrite (proj2 (addModelCall_fields _ _ _)).
Qed.

(** C40: a run's state stays well formed under the operations of its classes and
    the other components' direct writes to it. Take a run as created, forked or
    duplicated, and any sequence of: status changes, model selections, health,
    latency and reliability, context edits, limits, tool calls, costs, steps and
    model calls, the prompt's tokens (orchestrator.js:1111, 1508), the recovery
    cursor (recovery-service.js:115), and restores of checkpoints taken of
    well-formed states - progress and reliability not NaN, costs not negative.
    Then: the task's status is the run's; progress and reliability lie in [0, 1];
    the token counter is at least the sum over the context items, and is that sum
    as long as no prompt was accounted and nothing restored; tool health and spend
    are non-negative numbers; the call logs keep their bounds of 100 and 200; the
    privacy mode is one of the three; and until a recovery the step history is
    numbered without gaps up to the step counter ([recovered_history_gap]). *)
Theorem runtime_state_wf r0 ops :
  begins r0 → Forall op_numeric ops →
  let r := run runtime_step r0 ops in
  runtime_wf r ∧
  (forallb keeps_tokens ops = true → ContextState.tokens_exact (context r)) ∧
  (forallb keeps_steps ops = true → ExecutionState.history_numbered (execution r)).
Proof.
  intros H0 Hn r. split_and!.
  - apply (run_invariant runtime_step runtime_wf op_numeric); auto using runtime_step_wf, begins_wf.
  - intros Hk. apply (run_invariant runtime_step (λ r, ContextState.tokens_exact (context r)) (λ x, keeps_tokens x = true));
      [auto using runtime_step_tokens|by destruct H0|by apply forallb_Forall].
  - intros Hk. apply (run_invariant runtime_step (λ r, ExecutionState.history_numbered (execution r)) (λ x, keeps_steps x = true));
      [auto using runtime_step_steps|by destruct H0|by apply forallb_Forall].
Qed.

(** A run that selects a model twice, fails a tool call and pays for it. *)
Definition sample_config : run_config :=
  RunConfig None None None (Some 1000) (Some (ratio 5 10)) None (Some "u1"%string) None None
    (Some "secret"%string) (Some "live"%string).
Definition sample_ops : list (Z * runtime_op) :=
  [(1, OpRegisterTool "run_tests" (ToolState.Config "" (JObj [])));
   (2, OpSelect "m1" None ""); (3, OpSelect "m2" None ""); (4, OpStartStep);
   (5, OpToolCall "run_tests" (ToolState.CallResult false 30 nzero));
   (6, OpCost "input_tokens" (ratio 1 100)); (7, OpProgress (of_Z 7)); (8, OpStatus TaskStatus.FAILED)].

Lemma runtime_state_wf_witness :
  let r := run runtime_step (create 0 "run-1" "t" sample_config) (sample_ops ++ [(9, OpSendPrompt 500); (10, OpCursor 0)]) in
  runtime_wf r ∧ ModelState.modelSwitchCount (model r) = 1%nat ∧ ContextState.currentTokens (context r) = 500 ∧
  ExecutionState.history_numbered (execution (run runtime_step (create 0 "run-1" "t" sample_config) sample_ops)).
Proof.
  intros r. split; [|split; [vm_compute; reflexivity|split; [vm_compute; reflexivity|]]].
  - apply (runtime_state_wf (create 0 "run-1" "t" sample_config)); [constructor|].
    repeat constructor; vm_compute; reflexivity.
  - apply (runtime_state_wf (create 0 "run-1" "t" sample_config) sample_ops); [constructor| |reflexivity].
    repeat constructor; vm_compute; reflexivity.
Defined.

(** A run restored from the checkpoint of its first step, and put back to its
    cursor: the third step is recorded after the first one. *)
Example recovered_history_gap :
  let r := run runtime_step (create 0 "run-1" "t" sample_config) [(1, OpStartStep); (2, OpCompleteStep)] in
  let r' := run runtime_step r [(3, OpRestore r); (4, OpCursor 2); (5, OpStartStep)] in
  ExecutionState.s_step <$> ExecutionState.stepHistory (execution r') = [1; 3]%nat ∧
  ExecutionState.currentStep (execution r') = 3%nat.
Proof. vm_compute. split; reflexivity. Qed.
