(* ===== verification/RunConfig.v ===== *)
(** The resolved configuration of a run (backend/src/run-config.js) and the
    process-wide resource limits (backend/src/limits.js).

    Every setting is clamped where it is resolved, so the bounds the rest of the
    program relies on hold whatever the environment, the persisted defaults and
    the request body contain. Integer settings are integers, the budget is a
    binary64 number. *)

From S2P Require Import Prelude JsMap JsValue Number.

Local Open Scope Z_scope.
Local Open Scope js_scope.

(* [src/backend/src/run-config.js:21-26] clampInt *)
Definition clampInt (v : jsnum) (fallback lo hi : Z) : Z :=
  match v with
  | JUndefined | JNullish | JEmpty => fallback
  | JNumber n => if isFinite n then clamp_Z lo hi (to_Z_floor n) else fallback
  end.

(* [src/backend/src/run-config.js:28-32] clampFloat *)
Definition clampFloat (v : jsnum) (fallback lo hi : num) : num :=
  let n := to_number v in if isFinite n then nmax lo (nmin hi n) else fallback.

(** The three layers, with the settings each of them may carry. *)
(* [src/backend/src/run-config.js:34-65] processDefaults, runtimeDefaults, overrides *)
Record layer := Layer {
  ly_maxSteps : jsnum;
  ly_budget : jsnum;
  ly_maxCost : jsnum;
  ly_defaultBudgetUsd : jsnum;
  ly_runTimeoutMs : jsnum;
  ly_maxToolCalls : jsnum;
  ly_maxRetries : jsnum;
  ly_maxLatencyMs : jsnum;
  ly_maxContextTokens : jsnum;
  ly_defaultMaxContextTokens : jsnum;
  ly_provider : option string;
}.
Definition empty_layer : layer :=
  Layer JUndefined JUndefined JUndefined JUndefined JUndefined JUndefined JUndefined JUndefined
    JUndefined JUndefined None.

(* [src/backend/src/run-config.js:67-76] ResolvedRunConfig *)
Record resolved := Resolved {
  maxSteps : Z;
  budgetUsd : num;
  timeoutMs : Z;
  maxToolCalls : Z;
  maxRetries : Z;
  maxLatencyMs : Z;
  maxContextTokens : Z;
  provider : string;
}.
#[export] Instance resolved_eta : Eta resolved := λ r,
  Resolved (maxSteps r) (budgetUsd r) (timeoutMs r) (maxToolCalls r) (maxRetries r) (maxLatencyMs r)
    (maxContextTokens r) (provider r).

Definition lit (z : Z) : jsnum := JNumber (of_Z z).
Definition half : num := ratio 5 10.

(* [src/backend/src/run-config.js:34-77] resolveRunConfig *)
Definition resolveRunConfig (processDefaults runtimeDefaults overrides : layer) : resolved :=
  let '(p, r, o) := (processDefaults, runtimeDefaults, overrides) in
  Resolved
    (clampInt (nullish (ly_maxSteps o) (nullish (ly_maxSteps r) (nullish (ly_maxSteps p) (lit 12)))) 12 1 50)
    (clampFloat (nullish (ly_budget o) (nullish (ly_maxCost o) (nullish (ly_defaultBudgetUsd r)
       (nullish (ly_defaultBudgetUsd p) (JNumber half))))) half (of_Z 0) (of_Z 1000))
    (clampInt (nullish (ly_runTimeoutMs o) (nullish (ly_runTimeoutMs p) (lit 300000))) 300000 1000 3600000)
    (clampInt (nullish (ly_maxToolCalls o) (nullish (ly_maxToolCalls p) (lit 20))) 20 1 100)
    (clampInt (nullish (ly_maxRetries o) (nullish (ly_maxRetries p) (lit 2))) 2 0 10)
    (clampInt (nullish (ly_maxLatencyMs o) (nullish (ly_runTimeoutMs p) (lit 300000))) 300000 1000 3600000)
    (clampInt (nullish (ly_maxContextTokens o) (nullish (ly_defaultMaxContextTokens p) (lit 64000)))
       64000 500 1000000)
    (if truthy (ly_provider o) then slice0 64 (default "" (ly_provider o))
     else if truthy (ly_provider p) then default "" (ly_provider p) else "openrouter"%string).

(** The two fields of a control record this file reads and writes. *)
(* [src/backend/src/run-config.js:81-85] ctrl.runConfig, ctrl.maxSteps *)
Record ctrl_config := CtrlConfig { cc_runConfig : option resolved; cc_maxSteps : option Z }.
#[export] Instance ctrl_config_eta : Eta ctrl_config := λ c, CtrlConfig (cc_runConfig c) (cc_maxSteps c).

(* [src/backend/src/run-config.js:81-85] attachRunConfig *)
Definition attachRunConfig (c : ctrl_config) (r : resolved) : ctrl_config :=
  c <| cc_runConfig := Some r |> <| cc_maxSteps := Some (maxSteps r) |>.

(** [globalConfig]: the settings of the orchestrator's own configuration, which
    always has all of them (orchestrator.js:104-115). *)
(* [src/backend/src/run-config.js:87-102] runConfigFor *)
Definition runConfigFor (ctrl : option ctrl_config) (providerId : option string) (global : resolved)
    : resolved :=
  match ctrl ≫= cc_runConfig with
  | Some r => r
  | None =>
      let fallbackMax := default (maxSteps global) (ctrl ≫= cc_maxSteps) in
      global <| maxSteps := clamp_Z 1 50 fallbackMax |>
             <| maxLatencyMs := timeoutMs global |>
             <| provider := if truthy providerId then default "" providerId else provider global |>
  end.

(* [src/backend/src/run-config.js:105-111] syncLegacyMaxSteps *)
Definition syncLegacyMaxSteps (c : ctrl_config) : ctrl_config :=
  match cc_runConfig c, cc_maxSteps c with
  | Some r, Some n => c <| cc_runConfig := Some (r <| maxSteps := clamp_Z 1 50 n |>) |>
  | _, _ => c
  end.

(** What a resolved configuration guarantees. *)
Record resolved_ok (r : resolved) : Prop := {
  ok_steps : 1 ≤ maxSteps r ≤ 50;
  ok_budget : nle (of_Z 0) (budgetUsd r) = true ∧ nle (budgetUsd r) (of_Z 1000) = true;
  ok_timeout : 1000 ≤ timeoutMs r ≤ 3600000;
  ok_toolCalls : 1 ≤ maxToolCalls r ≤ 100;
  ok_retries : 0 ≤ maxRetries r ≤ 10;
  ok_latency : 1000 ≤ maxLatencyMs r ≤ 3600000;
  ok_context : 500 ≤ maxContextTokens r ≤ 1000000;
}.

Lemma clampInt_bounds v f lo hi : lo ≤ f ≤ hi → lo ≤ clampInt v f lo hi ≤ hi.
Proof. intros. unfold clampInt, clamp_Z. repeat case_match; lia. Qed.

Lemma clampFloat_bounds v f lo hi :
  nle lo hi = true → nle lo f = true → nle f hi = true →
  nle lo (clampFloat v f lo hi) = true ∧ nle (clampFloat v f lo hi) hi = true.
Proof.
  intros Hlh Hl Hh. unfold clampFloat. cbv zeta. destruct (isFinite (to_number v)) eqn:E; [|done].
  destruct (nclamp_bounds lo hi (to_number v) Hlh (isFinite_not_nan _ E)) as (? & ? & _). done.
Qed.

(** Whatever the process defaults, the persisted runtime defaults and the
    request contain - numbers out of range, fractions, NaN, infinities, empty
    strings, nothing at all - the resolved configuration of a run is inside its
    bounds (1 to 50 steps, a budget of 0 to 1000, 1 to 100 tool calls, 0 to 10
    retries, a timeout of a second to an hour), attaching it keeps it, and the
    legacy [maxSteps] field can only move the step budget inside 1 to 50. *)
Theorem run_config_bounded p r o c n :
  let res := resolveRunConfig p r o in
  resolved_ok res ∧
  (∀ pid g, runConfigFor (Some (attachRunConfig c res)) pid g = res) ∧
  (∀ pid g, resolved_ok
     (runConfigFor (Some (syncLegacyMaxSteps ((attachRunConfig c res) <| cc_maxSteps := n |>))) pid g)).
Proof.
  cbv zeta.
  assert (resolved_ok (resolveRunConfig p r o)) as [H1 H2 H3 H4 H5 H6 H7].
  { constructor; try (apply clampInt_bounds; lia).
    by apply clampFloat_bounds; vm_compute. }
  split; [by constructor|]. split; [done|]. intros pid g. destruct n as [n|]; [|by constructor].
  constructor; try done. cbn. apply clamp_Z_bounds. lia.
Qed.

(** * Resource limits *)

(* [src/backend/src/limits.js:9-13] num *)
Definition limit (v : jsnum) (fallback lo hi : Z) : num :=
  let n := to_number v in if isFinite n then nmax (of_Z lo) (nmin (of_Z hi) n) else of_Z fallback.

(** Name of the limit, name of the variable, fallback, least and greatest value. *)
(* [src/backend/src/limits.js:15-34] loadLimits, table *)
Definition LIMITS : list (string * string * (Z * Z * Z)) :=
  [("maxBodyBytes", "LIMIT_MAX_BODY_BYTES", (262144, 1024, 10485760));
   ("maxMessageChars", "LIMIT_MAX_MESSAGE_CHARS", (4000, 100, 20000));
   ("maxTitleChars", "LIMIT_MAX_TITLE_CHARS", (200, 10, 1000));
   ("maxToolsPerRun", "LIMIT_MAX_TOOLS_PER_RUN", (20, 1, 50));
   ("maxMemoryItems", "LIMIT_MAX_MEMORY_ITEMS", (50, 1, 200));
   ("maxEventsPerRun", "LIMIT_MAX_EVENTS_PER_RUN", (500, 50, 2000));
   ("maxRunsRetained", "LIMIT_MAX_RUNS_RETAINED", (200, 10, 1000));
   ("maxEvalsRetained", "LIMIT_MAX_EVALS_RETAINED", (200, 10, 1000));
   ("maxFileBytes", "LIMIT_MAX_FILE_BYTES", (100000, 1000, 1000000));
   ("maxToolResultChars", "LIMIT_MAX_TOOL_RESULT_CHARS", (2000, 500, 20000));
   ("maxConcurrentRuns", "LIMIT_MAX_CONCURRENT_RUNS", (20, 1, 100));
   ("requestsPerMinute", "LIMIT_REQUESTS_PER_MINUTE", (300, 30, 5000));
   ("authRequestsPerMinute", "LIMIT_AUTH_REQUESTS_PER_MINUTE", (12, 3, 120));
   ("maxSseSubscribersPerRun", "LIMIT_MAX_SSE_SUBSCRIBERS", (50, 1, 500));
   ("ssePingMs", "LIMIT_SSE_PING_MS", (15000, 5000, 60000));
   ("persistBytesMax", "LIMIT_PERSIST_BYTES_MAX", (5000000, 100000, 50000000))]%string.

(* [src/backend/src/limits.js:15-34] loadLimits *)
Definition loadLimits (env : string → jsnum) : list (string * num) :=
  (λ '(name, var, (fallback, lo, hi)), (name, limit (env var) fallback lo hi)) <$> LIMITS.

Lemma limit_bounds v f lo hi :
  nle (of_Z lo) (of_Z hi) = true → nle (of_Z lo) (of_Z f) = true → nle (of_Z f) (of_Z hi) = true →
  nle (of_Z lo) (limit v f lo hi) = true ∧ nle (limit v f lo hi) (of_Z hi) = true.
Proof.
  intros Hlh Hl Hh. unfold limit. cbv zeta. destruct (isFinite (to_number v)) eqn:E; [|done].
  destruct (nclamp_bounds _ _ (to_number v) Hlh (isFinite_not_nan _ E)) as (? & ? & _). done.
Qed.

(** Every limit lies between its least and its greatest value. *)
Lemma limits_bounded env name x : (name, x) ∈ loadLimits env →
  ∃ var f lo hi, (name, var, (f, lo, hi)) ∈ LIMITS ∧
    nle (of_Z lo) x = true ∧ nle x (of_Z hi) = true.
Proof.
  unfold loadLimits. intros ([[n var] [[f lo] hi]] & [= -> ->] & Hin)%list_elem_of_fmap.
  exists var, f, lo, hi. split; [done|].
  assert (Forall (λ '(_, _, (f, lo, hi)), nle (of_Z lo) (of_Z hi) = true ∧
    nle (of_Z lo) (of_Z f) = true ∧ nle (of_Z f) (of_Z hi) = true) LIMITS) as HF
    by (repeat constructor; vm_compute; reflexivity).
  rewrite Forall_forall in HF. destruct (HF _ Hin) as (? & ? & ?). by apply limit_bounds.
Qed.

(** A variable that is set but empty is not absent: it selects the least value. *)
Example empty_variable_is_the_minimum :
  mget (loadLimits (λ _, JEmpty)) "maxConcurrentRuns"%string = Some (of_Z 1) ∧
  mget (loadLimits (λ _, JUndefined)) "maxConcurrentRuns"%string = Some (of_Z 20).
Proof. split; vm_compute; reflexivity. Qed.
