(* ===== verification/Switching.v ===== *)
(** Switching models: the cost of a switch and the stickiness of a run
    (backend/src/decisions/switching-cost.js).

    Costs are binary64 dollars. [Date.now()] is passed in; the instants the code
    reads are positive, so [lastSwitch || 0] only replaces an absent entry. *)

From S2P Require Import Prelude JsMap JsValue Number RuntimeState.

Local Open Scope Z_scope.
Local Open Scope js_scope.

(** ** The cost of a switch *)

(* [src/backend/src/decisions/switching-cost.js:6-15] SwitchingCostCalculator *)
Record calculator := Calculator {
  baseContextReconstructionCost : num;
  cacheLossCostPerToken : num;
  tokenResendCostPerToken : num;
  providerOverheadCost : num;
  stateTranslationCost : num;
  restartRetryCost : num;
  riskPenaltyMultiplier : num;
}.

(* [src/backend/src/decisions/switching-cost.js:6-15] default options *)
Definition default_calculator : calculator :=
  Calculator (ratio 5 1000) (ratio 1 1000000) (ratio 5 10000000) (ratio 1 1000) (ratio 5 10000)
    (ratio 2 1000) (ratio 12 10).

Record switch_options := SwitchOptions {
  so_toProvider : option string;
  so_toModelLatency : option Z;
  so_requiresRestart : bool;
}.

(** The entries of [costs.breakdown] in insertion order, before the risk. *)
(* [src/backend/src/decisions/switching-cost.js:31-67] breakdown *)
Definition breakdown (k : calculator) (c : ContextState.t) (m : ModelState.t) (o : switch_options)
    : list (string * num) :=
  [("contextReconstruction"%string,
    nmul (baseContextReconstructionCost k) (nadd one (ContextState.getUtilization c)))]
  ++ (let cached := ContextState.cacheablePrefixTokens c in
      if 0 <? cached then [("cacheLoss"%string, nmul (of_Z cached) (cacheLossCostPerToken k))] else [])
  ++ (let total := ContextState.currentTokens c in
      if 0 <? total then [("tokenResend"%string, nmul (of_Z total) (tokenResendCostPerToken k))] else [])
  ++ (if truthy (ModelState.currentProvider m) && truthy (so_toProvider o) &&
         negb (bool_decide (ModelState.currentProvider m = so_toProvider o))
      then [("providerOverhead"%string, providerOverheadCost k)] else [])
  ++ (let increase := default 0 (so_toModelLatency o) - ModelState.modelLatency m in
      if 0 <? increase
      then [("latencyPenalty"%string, nmul (ndiv (of_Z increase) (of_Z 1000)) (ratio 1 10000))] else [])
  ++ [("stateTranslation"%string, stateTranslationCost k)]
  ++ (if so_requiresRestart o then [("restartRetry"%string, restartRetryCost k)] else []).

(** The total and the breakdown with the risk penalty. *)
(* [src/backend/src/decisions/switching-cost.js:17-81] calculate *)
Definition calculate (k : calculator) (c : ContextState.t) (m : ModelState.t) (o : switch_options)
    : num * list (string * num) :=
  let b := breakdown k c m o in
  let baseTotal := foldl (λ a x, nadd a x.2) nzero b in
  let riskPenalty := nmul baseTotal (nsub (riskPenaltyMultiplier k) one) in
  let sum := nadd baseTotal riskPenalty in
  (if isFinite sum then nmax (of_Z 0) sum else of_Z 0,
   b ++ [("riskPenalty"%string, riskPenalty)]).

(** The arguments are numbers, or values that convert to NaN. *)
(* [src/backend/src/decisions/switching-cost.js:96-103] calculateNetBenefit *)
Definition calculateNetBenefit (qualityGain costSavingUsd latencyGainMs switchingCostUsd : num) : num :=
  let q := if isFinite qualityGain then qualityGain else of_Z 0 in
  let c := if isFinite costSavingUsd then ndiv costSavingUsd (ratio 1 100) else of_Z 0 in
  let l := if isFinite latencyGainMs then ndiv latencyGainMs (of_Z 5000) else of_Z 0 in
  let s := if isFinite switchingCostUsd then ndiv switchingCostUsd (ratio 1 100) else of_Z 0 in
  let net := nsub (nadd (nadd q (nmul (ratio 2 10) c)) (nmul (ratio 15 100) l)) (nmul (ratio 2 10) s) in
  if isFinite net then nmax (of_Z (-10)) (nmin (of_Z 10) net) else of_Z 0.

(* [src/backend/src/decisions/switching-cost.js:105-108] shouldSwitch *)
Definition shouldSwitch (netBenefit threshold : num) : bool :=
  isFinite netBenefit && isFinite threshold && nlt threshold netBenefit.

(** The total is a finite amount of dollars, never negative, whatever the
    options of the calculator, the context and the model are. *)
Lemma switching_cost_total k c m o :
  isFinite (calculate k c m o).1 = true ∧ nonneg (calculate k c m o).1 = true.
Proof.
  unfold calculate. cbv zeta. cbn [fst]. change (of_Z 0) with nzero. generalize (nadd
    (foldl (λ a x, nadd a x.2) nzero (breakdown k c m o)) (nmul (foldl (λ a x, nadd a x.2) nzero
    (breakdown k c m o)) (nsub (riskPenaltyMultiplier k) one))). intros sum.
  destruct (isFinite sum) eqn:E; [|by split].
  split; [by apply finite_max_zero|by apply nonneg_max_zero, isFinite_not_nan].
Qed.

Lemma net_benefit_bounds q c l s :
  nle (of_Z (-10)) (calculateNetBenefit q c l s) = true ∧ nle (calculateNetBenefit q c l s) (of_Z 10) = true.
Proof.
  unfold calculateNetBenefit. cbv zeta. case_match eqn:E; [|by split].
  destruct (nclamp_bounds (of_Z (-10)) (of_Z 10) _ eq_refl (isFinite_not_nan _ E)) as (? & ? & _). done.
Qed.

(** ** Stickiness *)

(* [src/backend/src/decisions/switching-cost.js:111-120] ModelStickinessManager *)
Record manager := Manager {
  cooldownPeriodMs : Z;
  maxSwitchesPerTask : nat;
  hysteresisFactor : num;
  lastSwitchTime : list (string * Z);
  switchCounts : list (string * nat);
}.
#[export] Instance manager_eta : Eta manager := λ m,
  Manager (cooldownPeriodMs m) (maxSwitchesPerTask m) (hysteresisFactor m) (lastSwitchTime m)
    (switchCounts m).

(* [src/backend/src/decisions/switching-cost.js:112-120] constructor *)
Definition default_manager : manager := Manager 60000 5 (ratio 15 10) [] [].

Inductive verdict :=
| Allowed
| MaxSwitchesExceeded
| CooldownActive (remainingMs : Z)
| InsufficientBenefit (requiredBenefit netBenefit : num).

(** [benefit] after [Number(netBenefit)]; [cost] after unwrapping [.total]. *)
(* [src/backend/src/decisions/switching-cost.js:122-154] canSwitch *)
Definition canSwitch (m : manager) (now : Z) (runId : string) (netBenefit cost : num) : verdict :=
  let lastSwitch := default 0 (mget (lastSwitchTime m) runId) in
  let timeSinceLastSwitch := now - lastSwitch in
  let switchCount := default 0%nat (mget (switchCounts m) runId) in
  let benefit := if decide (netBenefit = Infinity) then Infinity
                 else if isFinite netBenefit then netBenefit else of_Z 0 in
  let costNum := if isFinite cost then nmax (of_Z 0) cost else of_Z 0 in
  if decide (maxSwitchesPerTask m ≤ switchCount)%nat then MaxSwitchesExceeded
  else if timeSinceLastSwitch <? cooldownPeriodMs m then
    CooldownActive (cooldownPeriodMs m - timeSinceLastSwitch)
  else
    let requiredBenefit := nmul costNum (hysteresisFactor m) in
    if nlt benefit requiredBenefit then InsufficientBenefit requiredBenefit benefit else Allowed.

(* [src/backend/src/decisions/switching-cost.js:156-159] recordSwitch *)
Definition recordSwitch (m : manager) (now : Z) (runId : string) : manager :=
  m <| lastSwitchTime ::= λ t, mset t runId now |>
    <| switchCounts ::= λ t, mset t runId (S (default 0%nat (mget t runId))) |>.

(* [src/backend/src/decisions/switching-cost.js:161-163] getSwitchCount *)
Definition getSwitchCount (m : manager) (runId : string) : nat := default 0%nat (mget (switchCounts m) runId).

(** [None] for the code's [Infinity]. *)
(* [src/backend/src/decisions/switching-cost.js:165-168] getTimeSinceLastSwitch *)
Definition getTimeSinceLastSwitch (m : manager) (now : Z) (runId : string) : option Z :=
  (λ t, now - t) <$> mget (lastSwitchTime m) runId.

(* [src/backend/src/decisions/switching-cost.js:170-173] reset *)
Definition reset_run (m : manager) (runId : string) : manager :=
  m <| lastSwitchTime ::= λ t, mdelete t runId |> <| switchCounts ::= λ t, mdelete t runId |>.

(** The caller's protocol (orchestrator.js _applyModelSwitch): an optional switch
    asks first, a forced one does not; both are recorded. The state carries the
    instants of the optional switches made for [runId], latest first. *)
Record attempt := Attempt { at_now : Z; at_run : string; at_benefit : num; at_cost : num; at_force : bool }.

Definition try_switch (runId : string) (s : manager * list Z) (a : attempt) : manager * list Z :=
  let '(m, log) := s in
  if at_force a then (recordSwitch m (at_now a) (at_run a), log)
  else match canSwitch m (at_now a) (at_run a) (at_benefit a) (at_cost a) with
  | Allowed => (recordSwitch m (at_now a) (at_run a),
                if decide (at_run a = runId) then at_now a :: log else log)
  | _ => s
  end.

(** Instants of an array, latest first, at least [gap] apart. *)
Fixpoint spaced (gap : Z) (l : list Z) : Prop :=
  match l with
  | x :: (y :: _) as l' => gap ≤ x - y ∧ spaced gap l'
  | _ => True
  end.

Lemma canSwitch_allowed m now r b c : canSwitch m now r b c = Allowed →
  (getSwitchCount m r < maxSwitchesPerTask m)%nat ∧
  cooldownPeriodMs m ≤ now - default 0 (mget (lastSwitchTime m) r).
Proof.
  unfold canSwitch, getSwitchCount. cbv zeta. case_decide; [done|].
  case_match eqn:E; [done|]. case_match; [done|]. intros _. lia.
Qed.

(** What holds along a run of attempts whose clock does not go backwards. *)
Record switch_inv (m0 : manager) (runId : string) (bound : Z) (s : manager * list Z) : Prop := {
  si_config : cooldownPeriodMs s.1 = cooldownPeriodMs m0 ∧ maxSwitchesPerTask s.1 = maxSwitchesPerTask m0;
  si_count : (length s.2 ≤ getSwitchCount s.1 runId)%nat;
  si_max : (length s.2 ≤ maxSwitchesPerTask m0)%nat;
  si_last : ∀ t, head s.2 = Some t → ∃ t', mget (lastSwitchTime s.1) runId = Some t' ∧ t ≤ t';
  si_spaced : spaced (cooldownPeriodMs m0) s.2;
  si_bound : ∀ r t, mget (lastSwitchTime s.1) r = Some t → t ≤ bound;
}.

Lemma recordSwitch_fields m now r :
  lastSwitchTime (recordSwitch m now r) = mset (lastSwitchTime m) r now ∧
  (∀ r', getSwitchCount (recordSwitch m now r) r' =
     if decide (r = r') then S (getSwitchCount m r) else getSwitchCount m r').
Proof.
  split; [done|]. intros r'. unfold getSwitchCount, recordSwitch. cbn. rewrite mget_set.
  by case_decide; subst.
Qed.

Lemma try_switch_inv m0 runId bound s a :
  switch_inv m0 runId bound s → bound ≤ at_now a →
  switch_inv m0 runId (at_now a) (try_switch runId s a).
Proof.
  destruct s as [m log]. intros [[C1 C2] Hc Hm Hl Hs Hb] Hnow. simpl in *.
  assert (∀ r t, mget (lastSwitchTime (recordSwitch m (at_now a) (at_run a))) r = Some t → t ≤ at_now a) as Hb'.
  { intros r t. rewrite (proj1 (recordSwitch_fields _ _ _)), mget_set.
    case_decide; [intros [= ->]; lia|intros ?%Hb; lia]. }
  assert (∀ t, head log = Some t → ∃ t', mget (lastSwitchTime (recordSwitch m (at_now a) (at_run a))) runId = Some t' ∧ t ≤ t') as Hl'.
  { intros t Ht. destruct (Hl t Ht) as (t' & Ht' & Hle).
    rewrite (proj1 (recordSwitch_fields _ _ _)), mget_set. case_decide; [|by eauto].
    exists (at_now a). split; [done|]. specialize (Hb _ _ Ht'). lia. }
  assert ((length log ≤ getSwitchCount (recordSwitch m (at_now a) (at_run a)) runId)%nat) as Hc'.
  { rewrite (proj2 (recordSwitch_fields _ _ _)). case_decide as E; [rewrite E; lia|done]. }
  unfold try_switch. destruct (at_force a); [by constructor|].
  destruct (canSwitch m (at_now a) (at_run a) (at_benefit a) (at_cost a)) eqn:E;
    [|constructor; simpl; auto; intros r t Ht; specialize (Hb r t Ht); lia..].
  apply canSwitch_allowed in E as [E1 E2]. case_decide as Hr; [|by constructor]. subst runId.
  constructor; simpl; auto.
  - rewrite (proj2 (recordSwitch_fields _ _ _)), decide_True by done. lia.
  - lia.
  - intros t [= <-]. exists (at_now a). rewrite mget_set_eq. split; [done|lia].
  - destruct log as [|t log]; [done|]. split; [|done].
    destruct (Hl t eq_refl) as (t' & Ht' & ?). rewrite Ht' in E2. simpl in E2. lia.
Qed.

(** The attempts' clock never goes backwards. *)
Definition ordered_attempts (l : list attempt) : Prop := adjacent (λ a b, at_now a ≤ at_now b) l.

(** A run cannot thrash between models. However the attempts of all runs
    interleave, with forced failovers among them, whatever benefit and cost each
    attempt claims: the switches that are not forced number at most
    [maxSwitchesPerTask] (five by default), and any two of them are at least
    [cooldownPeriodMs] (a minute by default) apart. The cost each of them is
    charged is a finite number of dollars that is not negative, and the net
    benefit lies in [-10, 10]. *)
Theorem switching_bounded m runId l :
  lastSwitchTime m = [] → ordered_attempts l →
  let log := (foldl (try_switch runId) (m, []) l).2 in
  (length log ≤ maxSwitchesPerTask m)%nat ∧ spaced (cooldownPeriodMs m) log ∧
  (∀ k c md o, isFinite (calculate k c md o).1 = true ∧ nonneg (calculate k c md o).1 = true) ∧
  (∀ q c lt s, nle (of_Z (-10)) (calculateNetBenefit q c lt s) = true ∧
     nle (calculateNetBenefit q c lt s) (of_Z 10) = true).
Proof.
  intros Hm Hl log.
  assert (∃ b, switch_inv m runId b (foldl (try_switch runId) (m, []) l) ∧
    ∀ a, last l = Some a → b ≤ at_now a) as (b & [_ _ H1 _ H2 _] & _).
  { clear log. induction l as [|a l IH] using rev_ind.
    - exists 0. split; [|done]. constructor; simpl; try done; try lia. by rewrite Hm.
    - rewrite foldl_app. destruct IH as (b & Hb & Hlast).
      { intros i x y Hx Hy. apply (Hl i); rewrite lookup_app_l; try done; by eapply lookup_lt_Some. }
      exists (at_now a). split; [|rewrite last_snoc; by intros ? [= <-]].
      apply (try_switch_inv _ _ (b `min` at_now a)); [|lia].
      destruct Hb as [Hb1 Hb2 Hb3 Hb4 Hb5 Hb6]. constructor; try done.
      intros r t Ht. specialize (Hb6 r t Ht).
      destruct (last l) as [a'|] eqn:El.
      + specialize (Hlast a' eq_refl). apply last_Some in El as [k ->].
        assert (at_now a' ≤ at_now a).
        { apply (Hl (length k)).
          - by rewrite <-app_assoc, lookup_app_r, Nat.sub_diag by lia.
          - rewrite <-app_assoc, lookup_app_r by lia.
            by replace (S (length k) - length k)%nat with 1%nat by lia. }
        lia.
      + apply last_None in El. subst l. simpl in Ht. rewrite Hm in Ht. done. }
  split_and!; [done|done|apply switching_cost_total|apply net_benefit_bounds].
Qed.

(** Ten eager attempts in ten minutes: five go through. *)
Definition eager : list attempt :=
  (λ i, Attempt (1000000 + 60000 * Z.of_nat i) "r" Infinity (ratio 1 100) false) <$> seq 0 10.

Lemma switching_bounded_witness :
  (foldl (try_switch "r") (default_manager, []) eager).2
    = [1240000; 1180000; 1120000; 1060000; 1000000] ∧
  (length (foldl (try_switch "r") (default_manager, []) eager).2 ≤ 5)%nat.
Proof.
  split; [vm_compute; reflexivity|].
  refine (proj1 (switching_bounded default_manager "r" eager eq_refl _)).
  intros i x y Hx Hy. unfold eager in *. rewrite list_lookup_fmap in Hx, Hy.
  destruct (seq 0 10 !! i) as [n|] eqn:E1; [|done]. destruct (seq 0 10 !! S i) as [n'|] eqn:E2; [|done].
  apply lookup_seq in E1 as [-> _]. apply lookup_seq in E2 as [-> _].
  injection Hx as <-. injection Hy as <-. simpl. lia.
Defined.
