(* ===== verification/PolicyEngine.v ===== *)
(** The per-run policy engine (backend/src/policies/policy-engine.js) and the
    routing presets (backend/src/policies/presets.js).

    The engine reads the run's budget, context and model states and reports
    warnings, critical conditions and optimisation triggers; the orchestrator
    acts on the critical triggers. *)

From S2P Require Import Prelude JsMap JsValue Types Number RuntimeState.

Local Open Scope Z_scope.
Local Open Scope js_scope.

(** [options]: [None] for an absent key. The defaults are computed with [||],
    but [...options] is spread over them: a key that is present wins, 0
    included. *)
(* [src/backend/src/policies/policy-engine.js:6-18] options *)
Record options := Options {
  op_budgetWarningThreshold : option num;
  op_budgetCriticalThreshold : option num;
  op_latencyWarningThreshold : option num;
  op_contextWarningThreshold : option num;
  op_maxRetries : option Z;
  op_retryBackoffMs : option Z;
}.

(* [src/backend/src/policies/policy-engine.js:8-18] config *)
Record config := Config {
  budgetWarningThreshold : num;
  budgetCriticalThreshold : num;
  latencyWarningThreshold : num;
  contextWarningThreshold : num;
  maxRetries : Z;
  retryBackoffMs : Z;
}.

(* [src/backend/src/policies/policy-engine.js:6-19] constructor *)
Definition create (o : options) : config :=
  Config (default (ratio 8 10) (op_budgetWarningThreshold o))
    (default (ratio 95 100) (op_budgetCriticalThreshold o))
    (default (ratio 8 10) (op_latencyWarningThreshold o))
    (default (ratio 8 10) (op_contextWarningThreshold o))
    (default 3 (op_maxRetries o)) (default 1000 (op_retryBackoffMs o)).

(* [src/backend/src/policies/policy-engine.js:27-34] budget evaluation *)
Record budget_eval := BudgetEval {
  b_isExceeded : bool; b_isWarning : bool; b_isCritical : bool;
  b_remaining : num; b_ratio : num; b_canContinue : bool;
}.

(* [src/backend/src/policies/policy-engine.js:21-35] evaluateBudget *)
Definition evaluateBudget (c : config) (b : BudgetState.t) : budget_eval :=
  let spent := BudgetState.currentSpend b in
  let max := BudgetState.maximumCost b in
  let r := if nlt (of_Z 0) max then ndiv spent max else of_Z 0 in
  BudgetEval (BudgetState.isBudgetExceeded b) (BudgetState.isBudgetWarning (budgetWarningThreshold c) b)
    (nle (budgetCriticalThreshold c) r) (BudgetState.getRemainingBudget b) r
    (negb (BudgetState.isBudgetExceeded b)).

(* [src/backend/src/policies/policy-engine.js:42-48] latency evaluation *)
Record latency_eval := LatencyEval {
  l_isExceeded : bool; l_isWarning : bool; l_elapsed : Z; l_ratio : num; l_canContinue : bool;
}.

(* [src/backend/src/policies/policy-engine.js:37-49] evaluateLatency *)
Definition evaluateLatency (c : config) (b : BudgetState.t) : latency_eval :=
  let elapsed := BudgetState.elapsedLatency b in
  let max := BudgetState.maximumLatency b in
  let r := if 0 <? max then ndiv (of_Z elapsed) (of_Z max) else of_Z 0 in
  LatencyEval (BudgetState.isLatencyExceeded b) (nle (latencyWarningThreshold c) r) elapsed r
    (negb (BudgetState.isLatencyExceeded b)).

(* [src/backend/src/policies/policy-engine.js:55-62] context evaluation *)
Record context_eval := ContextEval {
  c_utilization : num; c_isNearLimit : bool; c_isCritical : bool;
  c_currentTokens : Z; c_maxTokens : Z; c_canContinue : bool;
}.

(* [src/backend/src/policies/policy-engine.js:51-63] evaluateContext *)
Definition evaluateContext (c : config) (s : ContextState.t) : context_eval :=
  let u := ContextState.getUtilization s in
  ContextEval u (ContextState.isNearLimit (contextWarningThreshold c) s) (nle (ratio 95 100) u)
    (ContextState.currentTokens s) (ContextState.maximumTokens s) (nlt u one).

(* [src/backend/src/policies/policy-engine.js:66-73] model evaluation *)
Record model_eval := ModelEval {
  m_isHealthy : bool; m_isDegraded : bool; m_isUnavailable : bool;
  m_latency : Z; m_reliability : num; m_canContinue : bool;
}.

(* [src/backend/src/policies/policy-engine.js:65-74] evaluateModelHealth *)
Definition evaluateModelHealth (m : ModelState.t) : model_eval :=
  let h := ModelState.modelHealth m in
  ModelEval (bool_decide (h = ModelStatus.HEALTHY)) (bool_decide (h = ModelStatus.DEGRADED))
    (bool_decide (h = ModelStatus.UNAVAILABLE)) (ModelState.modelLatency m)
    (ModelState.modelReliability m) (negb (bool_decide (h = ModelStatus.UNAVAILABLE))).

(* [src/backend/src/policies/policy-engine.js:112-119] evaluateCapabilities *)
Definition evaluateCapabilities (required available : list string) : bool * list string :=
  let missing := filter (λ c, ¬ (c ∈ available)) required in
  (bool_decide (length missing = 0)%nat, missing).

(** [shouldRetry] and [backoffMs]. *)
(* [src/backend/src/policies/policy-engine.js:121-132] evaluateRetry *)
Definition evaluateRetry (c : config) (e : ExecutionState.t) : bool * Z :=
  let r := Z.of_nat (ExecutionState.retries e) in
  (r <? maxRetries c, retryBackoffMs c * 2 ^ r).

(* [src/backend/src/policies/policy-engine.js:134-152] evaluateTermination *)
Definition evaluateTermination (b : budget_eval) (l : latency_eval) (c : context_eval) (m : model_eval)
    : bool * list string :=
  (b_isExceeded b || l_isExceeded l || c_isCritical c || m_isUnavailable m,
   (if b_isExceeded b then ["budget_exceeded"%string] else [])
   ++ (if l_isExceeded l then ["latency_exceeded"%string] else [])
   ++ (if c_isCritical c then ["context_critical"%string] else [])
   ++ (if m_isUnavailable m then ["model_unavailable"%string] else [])).

(* [src/backend/src/policies/policy-engine.js:157-163] a trigger *)
Record trigger := Trigger { t_type : string; t_severity : string }.
#[export] Instance trigger_eq_dec : EqDecision trigger.
Proof. solve_decision. Defined.

(* [src/backend/src/policies/policy-engine.js:154-166] getOptimizationTriggers *)
Definition getOptimizationTriggers (b : budget_eval) (l : latency_eval) (c : context_eval) (m : model_eval)
    : list trigger :=
  (if b_isWarning b then [Trigger "budget_warning" "warning"] else [])
  ++ (if b_isCritical b then [Trigger "budget_critical" "critical"] else [])
  ++ (if l_isWarning l then [Trigger "latency_warning" "warning"] else [])
  ++ (if c_isNearLimit c then [Trigger "context_limit" "warning"] else [])
  ++ (if c_isCritical c then [Trigger "context_critical" "critical"] else [])
  ++ (if m_isDegraded m then [Trigger "model_degraded" "warning"] else [])
  ++ (if m_isUnavailable m then [Trigger "model_unavailable" "critical"] else []).

(** The run must stop exactly when there is a reason, and every reason is named. *)
Lemma termination_reasons b l c m :
  (evaluateTermination b l c m).1 = true ↔ (evaluateTermination b l c m).2 ≠ [].
Proof.
  unfold evaluateTermination. cbn [fst snd].
  destruct (b_isExceeded b), (l_isExceeded l), (c_isCritical c), (m_isUnavailable m); by split.
Qed.

(** The critical triggers are exactly the critical conditions; a degraded model
    is a warning, which the orchestrator does not act on. *)
Lemma critical_triggers b l c m x :
  x ∈ getOptimizationTriggers b l c m → t_severity x = "critical"%string →
  (t_type x = "budget_critical"%string ∧ b_isCritical b = true) ∨
  (t_type x = "context_critical"%string ∧ c_isCritical c = true) ∨
  (t_type x = "model_unavailable"%string ∧ m_isUnavailable m = true).
Proof.
  unfold getOptimizationTriggers. rewrite !elem_of_app.
  intros [H|[H|[H|[H|[H|[H|H]]]]]]; case_match; try (by apply not_elem_of_nil in H);
    apply list_elem_of_singleton in H as ->; try done; auto.
Qed.

(** Backoff doubles with every retry, and a run never retries more than allowed. *)
Lemma retry_backoff c e : (evaluateRetry c e).1 = true →
  Z.of_nat (ExecutionState.retries e) < maxRetries c ∧
  (evaluateRetry c (ExecutionState.recordRetry e)).2 = 2 * (evaluateRetry c e).2.
Proof.
  unfold evaluateRetry. cbn [fst snd]. intros H. split; [lia|].
  change (ExecutionState.retries (ExecutionState.recordRetry e)) with (S (ExecutionState.retries e)).
  rewrite Nat2Z.inj_succ, Z.pow_succ_r by lia. lia.
Qed.

(** ** Presets *)

Module Presets.
(* [src/backend/src/policies/presets.js:9-50] weights *)
Record weights := Weights {
  qualityWeight : num; costWeight : num; latencyWeight : num;
  reliabilityWeight : num; contextFitWeight : num;
}.

(* [src/backend/src/policies/presets.js:8-49] PRESETS, weights *)
Definition PRESETS : list (string * weights) :=
  [("balanced"%string, Weights (ratio 4 10) (ratio 2 10) (ratio 15 100) (ratio 15 100) (ratio 1 10));
   ("fast"%string, Weights (ratio 25 100) (ratio 1 10) (ratio 4 10) (ratio 15 100) (ratio 1 10));
   ("economical"%string, Weights (ratio 3 10) (ratio 4 10) (ratio 1 10) (ratio 1 10) (ratio 1 10));
   ("reasoning"%string, Weights (ratio 6 10) (ratio 8 100) (ratio 7 100) (ratio 15 100) (ratio 1 10));
   ("longcontext"%string, Weights (ratio 25 100) (ratio 1 10) (ratio 1 10) (ratio 15 100) (ratio 4 10))].

(* [src/backend/src/policies/presets.js:51-53] validPreset *)
Definition validPreset (id : option string) : bool := mhas PRESETS (to_lower (default ""%string id)).

(** [PRESETS[key] || PRESETS.balanced] *)
(* [src/backend/src/policies/presets.js:55-58] getPreset *)
Definition getPreset (id : option string) : weights :=
  let key := to_lower (if truthy id then default ""%string id else "balanced"%string) in
  match mget PRESETS key with Some w => w | None => default (Weights one one one one one) (mget PRESETS "balanced"%string) end.

Definition weight_sum (w : weights) : num :=
  nadd (nadd (nadd (nadd (qualityWeight w) (costWeight w)) (latencyWeight w)) (reliabilityWeight w))
    (contextFitWeight w).

(** The weights of a preset are never negative and add up to one, up to a
    billionth: a preset redistributes the score and does not scale it. *)
Lemma presets_normalised id :
  let w := getPreset id in
  nonneg (qualityWeight w) = true ∧ nonneg (costWeight w) = true ∧ nonneg (latencyWeight w) = true ∧
  nonneg (reliabilityWeight w) = true ∧ nonneg (contextFitWeight w) = true ∧
  nle (nabs (nsub (weight_sum w) one)) (ratio 1 1000000000) = true.
Proof.
  cbv zeta. assert (∃ k, (k, getPreset id) ∈ PRESETS) as [k Hk].
  { unfold getPreset. cbv zeta. set (key := to_lower _).
    destruct (mget PRESETS key) as [w|] eqn:E; [exists key; by apply mget_elem|].
    exists "balanced"%string. apply mget_elem. reflexivity. }
  generalize (getPreset id) k Hk. clear. intros w k Hk.
  assert (Forall (λ x, nonneg (qualityWeight x.2) = true ∧ nonneg (costWeight x.2) = true ∧
    nonneg (latencyWeight x.2) = true ∧ nonneg (reliabilityWeight x.2) = true ∧
    nonneg (contextFitWeight x.2) = true ∧
    nle (nabs (nsub (weight_sum x.2) one)) (ratio 1 1000000000) = true) PRESETS) as H
    by (repeat constructor; vm_compute; reflexivity).
  rewrite Forall_forall in H. exact (H _ Hk).
Qed.
End Presets.
