(* ===== verification/Orchestrator.v ===== *)
(** The life of a run in the orchestrator (backend/src/core/orchestrator.js):
    start, completion, failure, cancellation, the deadline, and the state the
    step loop of OrchestratorLoop works on.

    A run's runtime state and control record are two objects shared by the maps
    that mention the run and by the loop executing it, so they are one record
    here, [run], with the place where it is registered: live ([activeRuns] and
    [runControl]), retired ([terminalRuns]) or forgotten (cleaned up). The maps
    themselves, with several runs, are in Registry. Events are logged with the
    part of their payload that decides something. *)

From S2P Require Import Prelude JsMap JsValue Types Number RuntimeState RunConfig StateMachine Recovery.

Import TaskStatus.
Local Open Scope Z_scope.
Local Open Scope js_scope.

(** A record of the model registry, as the loop reads it. *)
Record model_def := ModelDef {
  md_id : string;
  md_provider : option string;
  md_nativeId : option string;
  md_contextWindow : Z;
  md_outputPer1k : option num;
  md_pricing : ModelState.pricing;
  md_avgLatencyMs : option Z;
  md_status : string;
}.

Inductive role := User | Assistant | Tool.
#[export] Instance role_eq_dec : EqDecision role.
Proof. solve_decision. Defined.

(** [ctrl.messages] and [ctrl.history] entries. *)
Record message := Message { m_role : role; m_content : string }.

Inductive place := Live | Retired | Forgotten.
#[export] Instance place_eq_dec : EqDecision place.
Proof. solve_decision. Defined.

(* [src/backend/src/core/orchestrator.js:526-560] control record *)
Record ctrl := Ctrl {
  machine : @machine unit;
  abort : bool;
  signal_aborted : bool;
  running : bool;
  deadline : option Z;
  mode : string;
  providerId : option string;
  providerModel : option model_def;
  messages : list message;
  turns : list message;
  lastUserMessage : string;
  heuristicToolUsed : bool;
  toolCalls : nat;
  retries : nat;
  triedModels : list string;
  lastToolEffect : option tool_effect;
  toolRiskCache : list (string * (bool * bool * string));
  recoveryInProgress : bool;
  runConfig : ctrl_config;
}.
#[export] Instance ctrl_eta : Eta ctrl := λ c,
  Ctrl (machine c) (abort c) (signal_aborted c) (running c) (deadline c) (mode c) (providerId c)
    (providerModel c) (messages c) (turns c) (lastUserMessage c) (heuristicToolUsed c) (toolCalls c)
    (retries c) (triedModels c) (lastToolEffect c) (toolRiskCache c) (recoveryInProgress c) (runConfig c).

Record event := Event { e_type : EventType.t; e_detail : string }.
#[export] Instance event_eq_dec : EqDecision event.
Proof. solve_decision. Defined.

Record run := Run { rt : RuntimeState; ct : ctrl; registered : place; events : list event }.
#[export] Instance run_eta : Eta run := λ r, Run (rt r) (ct r) (registered r) (events r).

(* [src/backend/src/core/orchestrator.js:526-560] a fresh control record *)
Definition new_ctrl (now : Z) (m : string) (provider : option string) (cfg : resolved) : ctrl :=
  Ctrl (StateMachine.create CREATED now) false false false None m provider None [] [] "" false 0 0 []
    None [] false (attachRunConfig (CtrlConfig None None) cfg).

(* [src/backend/src/core/orchestrator.js:44-44] TERMINAL *)
Definition TERMINAL (s : TaskStatus.t) : bool := bool_decide (s ∈ [COMPLETED; FAILED; CANCELLED]).

Definition terminal (r : run) : bool := TERMINAL (status (rt r)).

(* [src/backend/src/core/orchestrator.js:50-60] frontendStatus *)
Definition frontendStatus (s : TaskStatus.t) : string :=
  match s with
  | CREATED => "idle" | PLANNING => "planning" | WAITING_FOR_TOOL => "waiting"
  | COMPLETED => "completed" | FAILED => "failed" | CANCELLED => "cancelled" | _ => "running"
  end.

(** ** Events *)

(* [src/backend/src/core/orchestrator.js:263-270] _emit *)
Definition emit (t : EventType.t) (detail : string) (r : run) : run :=
  r <| events ::= λ l, l ++ [Event t detail] |>.

(* [src/backend/src/core/orchestrator.js:307-311] _traceStatus *)
Definition traceStatus (t : EventType.t) : string :=
  if decide (t = EventType.RUN_FAILED ∨ t = EventType.TOOL_FAILED ∨ t = EventType.BUDGET_EXCEEDED) then "error"
  else if decide (t = EventType.TOOL_STARTED ∨ t = EventType.PLANNING) then "running" else "done".

(** ** Transitions *)

Definition no_control (r : run) : js_error :=
  JsError None ("No control record for run " ++ runId (rt r)).

(** [this.transition(runtimeState, to)]: [StateMachine.orch_transition] on the
    run's machine, with the runtime state written when the machine moved. *)
(* [src/backend/src/core/orchestrator.js:195-209] transition *)
Definition transition (now : Z) (to : TaskStatus.t) (r : run) : res run :=
  if decide (registered r = Forgotten) then Throw (no_control r)
  else if decide (getState (machine (ct r)) = to) then Ok r
  else
    rs ← orch_transition tt (RunStatus (machine (ct r)) (status (rt r)) (TaskState.status (task (rt r)))) to now;
    Ok (r <| ct ::= λ c, c <| machine := rs_machine rs |> |> <| rt ::= RuntimeState.updateStatus now to |>).

(* [src/backend/src/core/orchestrator.js:213-219] toObserving *)
Definition toObserving (now : Z) (r : run) : res run :=
  r ← (if decide (registered r ≠ Forgotten ∧ getState (machine (ct r)) = WAITING_FOR_TOOL)
       then transition now EXECUTING r else Ok r);
  transition now OBSERVING r.

(** A transition that was rejected: the terminal state is written past the
    table ([updateStatus], [machine.currentState = to]). *)
(* [src/backend/src/core/orchestrator.js:2214-2222] forced FAILED *)
Definition force (now : Z) (to : TaskStatus.t) (r : run) : run :=
  r <| rt ::= RuntimeState.updateStatus now to |>
    <| ct ::= λ c, c <| machine ::= λ m,
         Machine to (history m) (maxHistory m) |> |>.

(** ** The end of a run *)

(** [_retireRun], for the run itself: out of the live maps, into the history. *)
(* [src/backend/src/core/orchestrator.js:2119-2131] _retireRun, the run *)
Definition retire (r : run) : run :=
  if decide (registered r = Live) then
    r <| ct ::= λ c, c <| deadline := None |> <| running := false |> |> <| registered := Retired |>
  else r.

(* [src/backend/src/core/orchestrator.js:2149-2179] _completeRun *)
Definition completeRun (now : Z) (summary : string) (r : run) : res run :=
  if terminal r then Ok r
  else if negb (bool_decide (registered r = Live)) then Ok r
  else
    r ← (if decide (status (rt r) = OBSERVING ∨ status (rt r) = WAITING_FOR_TOOL)
         then transition now EXECUTING r else Ok r);
    r ← transition now COMPLETED r;
    let r := r <| rt ::= λ s, s <| task ::= TaskState.updateProgress now (of_Z 1) |> |> in
    Ok (retire (emit EventType.RUN_COMPLETED (slice0 500 summary) r)).

(* [src/backend/src/core/orchestrator.js:2240-2255] _cancelledRun *)
Definition cancelledRun (now : Z) (reason : string) (r : run) : run :=
  if terminal r then r
  else if negb (bool_decide (registered r = Live)) then r
  else
    let r := match transition now CANCELLED r with Ok r' => r' | Throw _ => force now CANCELLED r end in
    retire (emit EventType.RUN_CANCELLED reason r).

(** [this.eventBus] is never assigned by the constructor, so the log searched
    for an earlier [budget.exceeded] is always empty. *)
(* [src/backend/src/core/orchestrator.js:2198-2211] budget event of a failure *)
Definition budget_event (code : string) (r : run) : run :=
  if decide (code = "budget_exceeded"%string ∨ code = "budget_constraint"%string)
  then emit EventType.BUDGET_EXCEEDED "" r else r.

(* [src/backend/src/core/orchestrator.js:2181-2238] _failRun *)
Definition failRun (now : Z) (e : js_error) (r : run) : run :=
  if terminal r then r
  else if negb (bool_decide (registered r = Live)) then r
  else if abort (ct r) then cancelledRun now "cancel requested" r
  else
    let code := default "unknown"%string (err_code e) in
    let r := budget_event code r in
    let r := match transition now FAILED r with Ok r' => r' | Throw _ => force now FAILED r end in
    retire (emit EventType.RUN_FAILED code r).

(** ** The deadline and cancellation *)

Definition disarm (r : run) : run := r <| ct ::= λ c, c <| deadline := None |> |>.

(* [src/backend/src/core/orchestrator.js:936-949] _armDeadline *)
Definition armDeadline (now : Z) (global : resolved) (r : run) : run :=
  let r := disarm r in
  let ms := timeoutMs (runConfigFor (Some (runConfig (ct r))) (providerId (ct r)) global) in
  if 0 <? ms then r <| ct ::= λ c, c <| deadline := Some (now + ms) |> |> else r.

Definition timeout_error (ms : Z) : js_error :=
  JsError (Some "timeout"%string) ("Run timed out after " ++ string_of_Z ms ++ "ms").

(** The timer's callback. *)
(* [src/backend/src/core/orchestrator.js:942-946] deadline callback *)
Definition deadline_fires (now ms : Z) (r : run) : run :=
  failRun now (timeout_error ms)
    (r <| ct ::= λ c, c <| abort := true |> <| signal_aborted := true |> |>).

(** [cancelRun] before its 25 ms wait, when the run is live and not terminal. *)
(* [src/backend/src/core/orchestrator.js:2257-2268] cancelRun, request *)
Definition cancel_request (r : run) : bool * run :=
  if negb (bool_decide (registered r = Live)) || terminal r then (false, r)
  else (true, disarm (r <| ct ::= λ c, c <| abort := true |> <| signal_aborted := true |> |>)).

(** [cancelRun] after the wait. *)
(* [src/backend/src/core/orchestrator.js:2269-2278] cancelRun, force *)
Definition cancel_force (now : Z) (reason : string) (r : run) : run :=
  (cancelledRun now reason r) <| ct ::= λ c, c <| running := false |> |>.

(** ** Pausing

    The moves the execution controller makes on a live run's machine. A
    transition the machine rejects is swallowed. *)

Definition try_transition (now : Z) (to : TaskStatus.t) (r : run) : run :=
  match transition now to r with Ok r' => r' | Throw _ => r end.

(* [src/backend/src/execution/controller.js:661-664] pauseRun, lifecycle *)
Definition pause_move (now : Z) (r : run) : run :=
  if decide (registered r = Live) then emit EventType.EXECUTION_PAUSED "pausing" (try_transition now PAUSING r) else r.

(* [src/backend/src/execution/controller.js:349-358] _holdForPause, lifecycle *)
Definition hold_move (now : Z) (r : run) : run :=
  if decide (registered r = Live) then emit EventType.EXECUTION_PAUSED "" (try_transition now PAUSED r) else r.

(* [src/backend/src/execution/controller.js:672-684] resumeRun, lifecycle *)
Definition resume_move (now : Z) (r : run) : run :=
  if decide (registered r = Live) then
    let state (r : run) := getState (machine (ct r)) in
    let r := if decide (state r = PAUSED) then try_transition now RESUMING r
             else if decide (state r = PAUSING) then try_transition now PAUSED r else r in
    let r := if decide (state r = RESUMING ∨ state r = PAUSED) then try_transition now EXECUTING r else r in
    emit EventType.EXECUTION_RESUMED "" r
  else r.

(** ** Starting *)

Definition coded (code msg : string) : js_error := JsError (Some code) msg.

(* [src/backend/src/core/orchestrator.js:845-890] startRun, up to the loop *)
Definition startRun (now : Z) (global : resolved) (userMessage : string) (r : run) : res run :=
  if decide (registered r = Retired) then
    Throw (coded "terminal" ("Run is " ++ value (status (rt r)) ++ "; use retry to resume a failed run"))
  else if decide (registered r = Forgotten) then
    Throw (coded "not_found" ("Run " ++ runId (rt r) ++ " not found"))
  else if terminal r then
    Throw (coded "terminal" ("Run is " ++ value (status (rt r)) ++ "; use retry to resume a failed run"))
  else if running (ct r) then Throw (coded "busy" "Run is already executing")
  else
    let text := or_str userMessage (or_str (lastUserMessage (ct r)) (TaskState.objective (task (rt r)))) in
    let fresh := bool_decide (getState (machine (ct r)) = CREATED) in
    Ok (armDeadline now global (r <| ct ::= λ c,
      (if fresh then c <| triedModels := [] |> <| retries := 0%nat |> else c)
        <| running := true |> <| abort := false |> <| signal_aborted := false |>
        <| lastUserMessage := text |>
        <| messages ::= λ l, l ++ [Message User text] |>
        <| turns ::= λ l, l ++ [Message User text] |> |>)).

(** [finally] of the loop's promise. *)
(* [src/backend/src/core/orchestrator.js:895-898] finally *)
Definition settle (r : run) : run :=
  disarm (r <| ct ::= λ c, c <| running := false |> |>).

(** * What the life of a run guarantees *)

(** Machine, runtime status and task status agree, and a run that has left the
    live maps is terminal. *)
Record run_ok (r : run) : Prop := {
  ro_sync : currentState (machine (ct r)) = status (rt r);
  ro_task : TaskState.status (task (rt r)) = status (rt r);
  ro_retired : registered r = Retired → terminal r = true;
}.

(** The events that end an attempt. *)
Definition is_end (e : event) : bool :=
  bool_decide (e_type e = EventType.RUN_COMPLETED ∨ e_type e = EventType.RUN_FAILED ∨
               e_type e = EventType.RUN_CANCELLED).
Definition ends (r : run) : nat := length (filter (λ e, is_end e = true) (events r)).

Lemma run_transition_ok now to r r' :
  transition now to r = Ok r' → run_ok r → registered r = Live →
  run_ok r' ∧ status (rt r') = to ∧ registered r' = registered r ∧ events r' = events r ∧
  (to = status (rt r) ∨ to ∈ STATE_TRANSITIONS (status (rt r))) ∧
  r' = r <| ct ::= λ c, c <| machine := machine (ct r') |> |>
         <| rt := rt r' |> ∧
  (rt r' = rt r ∨ rt r' = RuntimeState.updateStatus now to (rt r)).
Proof.
  unfold transition. intros H [H1 H2 H3] Hp. rewrite decide_False in H by congruence.
  unfold getState in *. case_decide as E.
  - injection H as <-. split_and!; try done; try (left; congruence); try congruence.
    by destruct r as [? [] ? ?].
  - unfold orch_transition in H. cbn [rs_machine] in H. unfold getState in H.
    rewrite decide_False in H by done.
    destruct (canTransition (machine (ct r)) to) eqn:Ec; [|done].
    unfold StateMachine.transition in H. rewrite Ec in H. cbn in H. injection H as <-.
    unfold canTransition in Ec. apply bool_decide_eq_true in Ec.
    split_and!; try done.
    + constructor; try done. cbn. congruence.
    + right. congruence.
    + by right.
Qed.

Lemma transition_throws now to r e :
  transition now to r = Throw e → run_ok r → registered r = Live →
  to ≠ status (rt r) ∧ ¬ (to ∈ STATE_TRANSITIONS (status (rt r))) ∧ err_code e = Some "invalid_transition"%string.
Proof.
  unfold transition. intros H [H1 H2 H3] Hp. rewrite decide_False in H by congruence.
  unfold getState in *. case_decide as E; [done|].
  unfold orch_transition in H. cbn [rs_machine] in H. unfold getState in H.
  rewrite decide_False in H by done.
  destruct (canTransition (machine (ct r)) to) eqn:Ec.
  - unfold StateMachine.transition in H. by rewrite Ec in H.
  - unfold canTransition in Ec. apply bool_decide_eq_false in Ec. cbn in H. injection H as <-.
    rewrite <-H1. split_and!; [congruence|done|done].
Qed.

(** A legal transition of a live run goes through. *)
Lemma transition_legal now to r : run_ok r → registered r = Live →
  to ∈ STATE_TRANSITIONS (status (rt r)) →
  ∃ r', transition now to r = Ok r'.
Proof.
  intros Hr Hp Hto. destruct (transition now to r) as [r'|e] eqn:E; [by exists r'|].
  exfalso. by destruct (transition_throws _ _ _ _ E Hr Hp) as (_ & ? & _).
Qed.

(** Every active state has an edge to CANCELLED, and every one but CREATED,
    PAUSED, PAUSING and RESUMING has one to FAILED. *)
Lemma cancel_edge s : s ≠ COMPLETED → s ≠ CANCELLED → CANCELLED ∈ STATE_TRANSITIONS s.
Proof. destruct s; try done; intros _ _; simpl; set_solver. Qed.

Lemma completed_edge s : COMPLETED ∈ STATE_TRANSITIONS s → s ∈ [EXECUTING; OBSERVING; WAITING_FOR_TOOL].
Proof.
  intros H%(bool_decide_pack _). destruct s; try done; apply (bool_decide_unpack _); vm_compute; exact I.
Qed.

Lemma terminal_spec s : TERMINAL s = true ↔ s = COMPLETED ∨ s = FAILED ∨ s = CANCELLED.
Proof. unfold TERMINAL. rewrite bool_decide_eq_true. set_solver. Qed.

Lemma not_terminal s : TERMINAL s = false → s ≠ COMPLETED ∧ s ≠ FAILED ∧ s ≠ CANCELLED.
Proof. intros H. by split_and!; intros ->. Qed.

(** [retire] after an end event: the run is in the history, one more ending. *)
Lemma ends_emit t d r : ends (emit t d r) =
  (ends r + if is_end (Event t d) then 1 else 0)%nat.
Proof.
  unfold ends, emit. cbn [events]. change (events (r <| events ::= λ l, l ++ [Event t d] |>))
    with (events r ++ [Event t d]). rewrite filter_app, length_app. f_equal.
  destruct (is_end (Event t d)) eqn:E.
  - by rewrite filter_cons_True.
  - rewrite filter_cons_False; [done|]. by rewrite E.
Qed.

Lemma retire_live r : registered r = Live →
  registered (retire r) = Retired ∧ status (rt (retire r)) = status (rt r) ∧
  events (retire r) = events r ∧ machine (ct (retire r)) = machine (ct r) ∧ rt (retire r) = rt r ∧
  running (ct (retire r)) = false ∧ deadline (ct (retire r)) = None.
Proof. intros H. unfold retire. by rewrite decide_True. Qed.

Lemma force_ok now to r : registered r = Live → TERMINAL to = true → run_ok (force now to r).
Proof. intros H Ht. by constructor. Qed.

Lemma end_ok t d r : run_ok r → registered r = Live → terminal r = true →
  is_end (Event t d) = true →
  let r' := retire (emit t d r) in
  run_ok r' ∧ registered r' = Retired ∧ status (rt r') = status (rt r) ∧ terminal r' = true ∧
  ends r' = S (ends r) ∧ running (ct r') = false.
Proof.
  intros [H1 H2 H3] Hp Ht He. cbv zeta.
  destruct (retire_live (emit t d r) Hp) as (E1 & E2 & E3 & E4 & E5 & E6 & E7).
  assert (terminal (retire (emit t d r)) = true) as Ht' by (unfold terminal in *; by rewrite E2).
  split_and!; try done.
  - constructor; [rewrite E4, E2|rewrite E5|]; done.
  - unfold ends. rewrite E3. pose proof (ends_emit t d r) as Hn. rewrite He in Hn. unfold ends in Hn.
    rewrite Hn. lia.
Qed.

(** What ending a live run does, whatever state it was in. *)
Record ended (st : TaskStatus.t) (r r' : run) : Prop := {
  en_ok : run_ok r';
  en_place : registered r' = Retired;
  en_status : status (rt r') = st;
  en_ends : ends r' = S (ends r);
  en_running : running (ct r') = false;
}.

Lemma cancelledRun_live now why r : run_ok r → registered r = Live → terminal r = false →
  ended CANCELLED r (cancelledRun now why r).
Proof.
  intros Hr Hp Ht. unfold cancelledRun. rewrite Ht, bool_decide_true by done. cbn [negb].
  destruct (not_terminal _ Ht) as (N1 & N2 & N3).
  destruct (transition_legal now CANCELLED r Hr Hp (cancel_edge _ N1 N3)) as [r1 E]. rewrite E.
  destruct (run_transition_ok _ _ _ _ E Hr Hp) as (Hr1 & Hs & Hp1 & He & _).
  destruct (end_ok EventType.RUN_CANCELLED why r1 Hr1 ltac:(congruence)
    ltac:(unfold terminal; by rewrite Hs) eq_refl) as (A & B & C & D & F & G).
  constructor; [done|done|congruence| |done]. rewrite F. unfold ends. by rewrite He.
Qed.

Lemma budget_event_fields code r :
  rt (budget_event code r) = rt r ∧ ct (budget_event code r) = ct r ∧
  registered (budget_event code r) = registered r ∧ ends (budget_event code r) = ends r.
Proof.
  unfold budget_event. case_decide; [|done]. split_and!; try done. rewrite ends_emit. simpl. lia.
Qed.

Lemma failRun_live now e r : run_ok r → registered r = Live → terminal r = false →
  ended (if abort (ct r) then CANCELLED else FAILED) r (failRun now e r).
Proof.
  intros Hr Hp Ht. unfold failRun. rewrite Ht, bool_decide_true by done. cbn [negb].
  destruct (abort (ct r)) eqn:Ea; [by apply cancelledRun_live|].
  set (code := default "unknown"%string (err_code e)). set (r0 := budget_event code r).
  destruct (budget_event_fields code r) as (B1 & B2 & B3 & B4). fold r0 in B1, B2, B3, B4.
  assert (run_ok r0) as Hr0.
  { destruct Hr as [? ? ?]. constructor; rewrite ?B1, ?B2; try done. by rewrite B3, Hp. }
  assert (registered r0 = Live) as Hp0 by congruence.
  assert (∃ r1, (match transition now FAILED r0 with Ok r' => r' | Throw _ => force now FAILED r0 end) = r1 ∧
    run_ok r1 ∧ registered r1 = Live ∧ status (rt r1) = FAILED ∧ events r1 = events r0) as (r1 & -> & H1 & H2 & H3 & H4).
  { destruct (transition now FAILED r0) as [r1|] eqn:E.
    - destruct (run_transition_ok _ _ _ _ E Hr0 Hp0) as (? & ? & ? & ? & _). exists r1.
      split; [done|]. split; [done|]. split; [congruence|done].
    - exists (force now FAILED r0). split; [done|]. split; [by apply force_ok|done]. }
  destruct (end_ok EventType.RUN_FAILED code r1 H1 H2 ltac:(unfold terminal; by rewrite H3) eq_refl)
    as (A & B & C & D & F & G).
  constructor; [done|done|congruence| |done]. rewrite F, <-B4. unfold ends. by rewrite H4.
Qed.

(** [_completeRun] completes from the states a step can finish in, and rejects
    every other one without touching the run. *)
Lemma completeRun_live now sum r : run_ok r → registered r = Live → terminal r = false →
  (status (rt r) ∈ [EXECUTING; OBSERVING; WAITING_FOR_TOOL] →
     ∃ r', completeRun now sum r = Ok r' ∧ ended COMPLETED r r') ∧
  (¬ (status (rt r) ∈ [EXECUTING; OBSERVING; WAITING_FOR_TOOL]) →
     ∃ e, completeRun now sum r = Throw e ∧ err_code e = Some "invalid_transition"%string).
Proof.
  intros Hr Hp Ht. unfold completeRun. rewrite Ht, bool_decide_true by done. cbn [negb].
  assert (∀ r1, run_ok r1 → registered r1 = Live → events r1 = events r → status (rt r1) = EXECUTING →
    ∃ r', (r2 ← transition now COMPLETED r1;
      Ok (retire (emit EventType.RUN_COMPLETED (slice0 500 sum)
        (r2 <| rt ::= λ s, s <| task ::= TaskState.updateProgress now (of_Z 1) |> |>)))) = Ok r' ∧
      ended COMPLETED r r') as Hend.
  { intros r1 H1 H2 H3 H4.
    destruct (transition_legal now COMPLETED r1 H1 H2 ltac:(rewrite H4; simpl; set_solver)) as [r2 E].
    rewrite E. cbn [mbind res_bind]. eexists. split; [done|].
    destruct (run_transition_ok _ _ _ _ E H1 H2) as ([C1 C2 C3] & Hs2 & ? & He & _).
    set (r3 := r2 <| rt ::= λ s, s <| task ::= TaskState.updateProgress now (of_Z 1) |> |>).
    destruct (end_ok EventType.RUN_COMPLETED (slice0 500 sum) r3) as (A & B & C & D & F & G).
    - by constructor.
    - change (registered r2 = Live). congruence.
    - unfold terminal. change (TERMINAL (status (rt r2)) = true). by rewrite Hs2.
    - done.
    - assert (ends r3 = ends r) as Hn by (unfold ends; change (events r3) with (events r2); congruence).
      constructor; [exact A|exact B|exact (eq_trans C Hs2)|rewrite <-Hn; exact F|exact G]. }
  split.
  - intros Hs. case_decide as Hd.
    + assert (EXECUTING ∈ STATE_TRANSITIONS (status (rt r))) as Hex
        by (destruct Hd as [->| ->]; simpl; set_solver).
      destruct (transition_legal now EXECUTING r Hr Hp Hex) as [r1 E]. rewrite E. cbn [mbind res_bind].
      destruct (run_transition_ok _ _ _ _ E Hr Hp) as (? & ? & ? & ? & _). apply Hend; congruence || done.
    + cbn [mbind res_bind]. apply Hend; try done. set_solver.
  - intros Hs. rewrite decide_False by set_solver. cbn [mbind res_bind].
    destruct (transition now COMPLETED r) as [r2|e] eqn:E.
    + exfalso. destruct (run_transition_ok _ _ _ _ E Hr Hp) as (_ & _ & _ & _ & [H|H] & _).
      * unfold terminal in Ht. by rewrite <-H in Ht.
      * by apply Hs, completed_edge.
    + eexists. split; [done|]. by destruct (transition_throws _ _ _ _ E Hr Hp) as (_ & _ & ?).
Qed.

(** ** Everything that can happen to a run while it executes *)

(** Writes that leave the status and the registration alone: steps, budget,
    context, messages, tool records, events that do not end the run. *)
Record quiet (r r' : run) : Prop := {
  q_machine : machine (ct r') = machine (ct r);
  q_status : status (rt r') = status (rt r);
  q_task : TaskState.status (task (rt r')) = TaskState.status (task (rt r));
  q_place : registered r' = registered r;
  q_ends : ends r' = ends r;
}.

(** One step of the run's life: the loop's transitions between active states,
    the completion, failure and cancellation it ends with, the deadline, the two
    halves of a cancellation request, the loop's [finally], a start, and any
    other write. *)
Inductive life (r : run) : run → Prop :=
| life_start now g msg r' : startRun now g msg r = Ok r' → life r r'
| life_trans now to r' : TERMINAL to = false → to ≠ RETRYING →
    transition now to r = Ok r' → life r r'
| life_complete now sum r' : completeRun now sum r = Ok r' → life r r'
| life_fail now e : life r (failRun now e r)
| life_cancelled now why : life r (cancelledRun now why r)
| life_deadline now ms : life r (deadline_fires now ms r)
| life_request : life r (cancel_request r).2
| life_force now why : life r (cancel_force now why r)
| life_settle : life r (settle r)
| life_quiet r' : quiet r r' → life r r'.

(** A run whose ending and registration agree, with [n] earlier attempts behind
    it: a retried run keeps the ending events of the attempts before. *)
Record life_from (n : nat) (r : run) : Prop := {
  lo_run : run_ok r;
  lo_known : registered r ≠ Forgotten;
  lo_live : registered r = Live ↔ terminal r = false;
  lo_ends : ends r = (n + if terminal r then 1 else 0)%nat;
}.

(** A run in its first attempt. *)
Notation life_ok := (life_from 0).

Lemma quiet_ok n r r' : quiet r r' → life_from n r → life_from n r'.
Proof.
  intros [Q1 Q2 Q3 Q4 Q5] [[H1 H2 H3] H4 H5 H6]. unfold terminal in *.
  constructor; unfold terminal; rewrite ?Q1, ?Q2, ?Q3, ?Q4, ?Q5; try done.
  constructor; unfold terminal; rewrite ?Q1, ?Q2, ?Q3, ?Q4; done.
Qed.

Lemma armDeadline_quiet now g r : quiet r (armDeadline now g r).
Proof. unfold armDeadline. cbv zeta. destruct (0 <? _); by constructor. Qed.

Lemma ended_ok n st r r' : ended st r r' → TERMINAL st = true → life_from n r → terminal r = false → life_from n r'.
Proof.
  intros [E1 E2 E3 E4 E5] Ht [_ _ _ H] Hf. rewrite Hf in H.
  assert (terminal r' = true) as Hr' by (unfold terminal; by rewrite E3).
  constructor; rewrite ?Hr', ?E2; try done. rewrite E4, H. lia.
Qed.

Lemma live_or_retired n r : life_from n r →
  (registered r = Live ∧ terminal r = false) ∨ (registered r = Retired ∧ terminal r = true).
Proof.
  intros [_ H1 H2 _]. destruct (registered r) eqn:E; [|right|done].
  - left. split; [done|]. by apply H2.
  - split; [done|]. destruct (terminal r); [done|]. destruct H2 as [_ H2]. by specialize (H2 eq_refl).
Qed.

Lemma ending_noop now e why sum r : terminal r = true →
  failRun now e r = r ∧ cancelledRun now why r = r ∧ completeRun now sum r = Ok r.
Proof. intros H. unfold failRun, cancelledRun, completeRun. by rewrite H. Qed.

(** What a step does to a run that has ended, and to one that has not: nothing
    that matters, or it goes on, or it ends. *)
Record unmoved (r r' : run) : Prop := {
  um_ok : run_ok r';
  um_place : registered r' = registered r;
  um_terminal : terminal r' = terminal r;
  um_ends : ends r' = ends r;
}.
Definition outcome (r r' : run) : Prop :=
  if terminal r then unmoved r r' ∧ status (rt r') = status (rt r)
  else unmoved r r' ∨ ∃ st, TERMINAL st = true ∧ ended st r r'.

Lemma quiet_unmoved r r' : run_ok r → quiet r r' → unmoved r r'.
Proof.
  intros [H1 H2 H3] [Q1 Q2 Q3 Q4 Q5]. unfold terminal in *.
  constructor; unfold terminal; rewrite ?Q1, ?Q2, ?Q3, ?Q4; try done.
  constructor; unfold terminal; rewrite ?Q1, ?Q2, ?Q3, ?Q4; done.
Qed.

Lemma quiet_outcome r r' : run_ok r → quiet r r' → outcome r r'.
Proof.
  intros Hr Q. pose proof (quiet_unmoved _ _ Hr Q). unfold outcome.
  destruct (terminal r); [|by left]. split; [done|]. by destruct Q.
Qed.

Lemma ctl_quiet r c : machine c = machine (ct r) → quiet r (r <| ct := c |>).
Proof. by constructor. Qed.

Lemma place_live r : run_ok r → registered r ≠ Forgotten → terminal r = false → registered r = Live.
Proof. intros [_ _ H] Hk Ht. destruct (registered r); [done|by rewrite H in Ht|done]. Qed.

Lemma request_outcome r : run_ok r → outcome r (cancel_request r).2.
Proof.
  intros Hr. unfold cancel_request. destruct (negb _ || _); by apply quiet_outcome.
Qed.

Lemma start_outcome now g msg r r' : run_ok r → startRun now g msg r = Ok r' → outcome r r'.
Proof.
  intros Hr H. unfold startRun in H. do 2 (case_decide; [done|]).
  destruct (terminal r); [done|]. destruct (running (ct r)); [done|]. injection H as <-.
  apply quiet_outcome; [done|]. unfold armDeadline. cbv zeta.
  destruct (bool_decide (getState (machine (ct r)) = CREATED)), (0 <? _); by constructor.
Qed.

Lemma trans_outcome now to r r' : run_ok r → registered r ≠ Forgotten →
  TERMINAL to = false → to ≠ RETRYING → transition now to r = Ok r' → outcome r r'.
Proof.
  intros Hr Hk H1 H2 H3. pose proof Hr as [S1 S2 S3]. unfold outcome. destruct (terminal r) eqn:Ht.
  - exfalso. unfold transition in H3. rewrite decide_False in H3 by done.
    unfold getState in H3. case_decide as Hd.
    { unfold terminal in Ht. rewrite <-S1, Hd, H1 in Ht. done. }
    unfold orch_transition, getState in H3. cbn [rs_machine] in H3. rewrite decide_False in H3 by done.
    destruct (canTransition _ to) eqn:Ec; [|done]. clear H3.
    unfold canTransition in Ec. apply bool_decide_eq_true in Ec. rewrite S1 in Ec.
    apply terminal_spec in Ht.
    assert (to = RETRYING ∨ to = CANCELLED) as [->| ->]; [|done|done].
    destruct Ht as [Ht|[Ht|Ht]]; rewrite Ht in Ec; simpl in Ec; set_solver.
  - destruct (run_transition_ok _ _ _ _ H3 Hr (place_live _ Hr Hk Ht)) as (T1 & T2 & T3 & T4 & _).
    left. constructor; [done|done| |by unfold ends; rewrite T4].
    rewrite Ht. unfold terminal. by rewrite T2.
Qed.

Lemma ended_force now why r : run_ok r → registered r = Live → terminal r = false →
  ended CANCELLED r (cancel_force now why r).
Proof.
  intros Hr Hp Ht. destruct (cancelledRun_live now why r Hr Hp Ht) as [E1 E2 E3 E4 E5].
  unfold cancel_force. constructor; try done. by destruct E1; constructor.
Qed.

(** One step of a registered run. *)
Lemma life_shape r r' : life r r' → run_ok r → registered r ≠ Forgotten → outcome r r'.
Proof.
  intros Hl Hr Hk.
  destruct Hl as [now g msg r' H|now to r' H1 H2 H3|now sum r' H|now e|now why|now ms| |now why| |r' H].
  - by eapply start_outcome.
  - by eapply trans_outcome.
  - unfold outcome. destruct (terminal r) eqn:Ht.
    + unfold completeRun in H. rewrite Ht in H. injection H as <-. split; [|done]. by constructor.
    + right. destruct (completeRun_live now sum r Hr (place_live _ Hr Hk Ht) Ht) as [C1 C2].
      destruct (decide (status (rt r) ∈ [EXECUTING; OBSERVING; WAITING_FOR_TOOL])) as [Hs|Hs].
      * destruct (C1 Hs) as (r1 & E & He1). rewrite H in E. injection E as <-. by exists COMPLETED.
      * destruct (C2 Hs) as (e & E & _). by rewrite H in E.
  - unfold outcome. destruct (terminal r) eqn:Ht.
    + unfold failRun. rewrite Ht. split; [|done]. by constructor.
    + right. eexists. split; [|by apply failRun_live; [..|exact Ht]; [|apply place_live]]. by destruct (abort _).
  - unfold outcome. destruct (terminal r) eqn:Ht.
    + unfold cancelledRun. rewrite Ht. split; [|done]. by constructor.
    + right. exists CANCELLED. split; [done|]. apply cancelledRun_live; [done|by apply place_live|done].
  - set (c := (ct r) <| abort := true |> <| signal_aborted := true |>).
    change (deadline_fires now ms r) with (failRun now (timeout_error ms) (r <| ct := c |>)).
    assert (run_ok (r <| ct := c |>)) as Hr' by (by destruct Hr; constructor).
    unfold outcome. destruct (terminal r) eqn:Ht.
    + unfold failRun. change (terminal (r <| ct := c |>)) with (terminal r). rewrite Ht.
      split; [|done]. by constructor.
    + right. exists CANCELLED. split; [done|].
      destruct (failRun_live now (timeout_error ms) (r <| ct := c |>) Hr' (place_live _ Hr Hk Ht) Ht).
      by constructor.
  - by apply request_outcome.
  - unfold outcome. destruct (terminal r) eqn:Ht.
    + unfold cancel_force, cancelledRun. rewrite Ht. split; [|done]. by apply quiet_unmoved; [|apply ctl_quiet].
    + right. exists CANCELLED. split; [done|]. apply ended_force; [done|by apply place_live|done].
  - by apply quiet_outcome; [|constructor].
  - by apply quiet_outcome.
Qed.

(** One step: the invariant is kept, and a run that has ended stays as it ended. *)
Lemma life_step n r r' : life r r' → life_from n r →
  life_from n r' ∧ (terminal r = true → status (rt r') = status (rt r) ∧ ends r' = ends r).
Proof.
  intros Hl Hok. pose proof Hok as [Hr Hk Hp He].
  pose proof (life_shape r r' Hl Hr Hk) as Ho. unfold outcome in Ho.
  assert (unmoved r r' → life_from n r') as Hu.
  { intros [U1 U2 U3 U4]. constructor; rewrite ?U2, ?U3, ?U4; done. }
  destruct (terminal r) eqn:Ht.
  - destruct Ho as [U Hs]. split; [by apply Hu|]. intros _. split; [done|apply U].
  - split; [|done]. destruct Ho as [U|(st & Hst & U)]; [by apply Hu|]. by eapply ended_ok.
Qed.

(** The pause moves are steps of the run's life. *)
Lemma try_life now to r : TERMINAL to = false → to ≠ RETRYING → rtc life r (try_transition now to r).
Proof.
  intros H1 H2. unfold try_transition. destruct (transition now to r) eqn:E; [|apply rtc_refl].
  by eapply rtc_once, life_trans.
Qed.

Lemma emit_life t d r : is_end (Event t d) = false → life r (emit t d r).
Proof. intros H. apply life_quiet. constructor; try done. rewrite ends_emit, H. lia. Qed.

Lemma pause_life now r : rtc life r (pause_move now r).
Proof.
  unfold pause_move. case_decide; [|apply rtc_refl]. eapply rtc_r; [by apply (try_life now PAUSING)|by apply emit_life].
Qed.

Lemma hold_life now r : rtc life r (hold_move now r).
Proof.
  unfold hold_move. case_decide; [|apply rtc_refl]. eapply rtc_r; [by apply (try_life now PAUSED)|by apply emit_life].
Qed.

Lemma resume_life now r : rtc life r (resume_move now r).
Proof.
  unfold resume_move. case_decide; [|apply rtc_refl]. cbv zeta.
  eapply rtc_r; [|by apply emit_life].
  assert (∀ r1, rtc life r r1 → rtc life r (if decide (getState (machine (ct r1)) = RESUMING ∨
    getState (machine (ct r1)) = PAUSED) then try_transition now EXECUTING r1 else r1)) as H1.
  { intros r1 Hr1. case_decide; [|done]. etrans; [exact Hr1|by apply try_life]. }
  apply H1. repeat case_decide; [by apply try_life|by apply try_life|apply rtc_refl].
Qed.

(** A run as [createRun] registers it. *)
Definition fresh_run (now : Z) (rt : RuntimeState) (m : string) (provider : option string) (cfg : resolved) : run :=
  Run (RuntimeState.updateStatus now CREATED rt) (new_ctrl now m provider cfg) Live [].

Lemma fresh_ok now s m p cfg : life_ok (fresh_run now s m p cfg).
Proof. by repeat constructor. Qed.

Lemma life_trace n r r' : rtc life r r' → life_from n r →
  life_from n r' ∧ (terminal r = true → status (rt r') = status (rt r) ∧ ends r' = ends r).
Proof.
  induction 1 as [r|r r1 r' H _ IH]; intros Hok; [done|].
  destruct (life_step n r r1 H Hok) as [Hok1 H1]. destruct (IH Hok1) as [Hok' H2]. split; [done|].
  intros Ht. destruct (H1 Ht) as [E1 E2]. rewrite <-E1, <-E2. apply H2.
  unfold terminal in *. by rewrite E1.
Qed.

(** The first attempt of a run ends exactly once. However its transitions,
    completions, failures, cancellations, deadline and cancellation requests
    interleave after its creation: the state machine, the run's status and the
    task's status agree; the run has left the live maps exactly when it is
    terminal; it has emitted one ending event if it is terminal and none
    otherwise; and no later step changes the status it ended with or emits a
    second ending. Reopenings are in RegistryInvariant. *)
Theorem first_attempt_ends_once now s m p cfg r r' :
  rtc life (fresh_run now s m p cfg) r → rtc life r r' →
  life_ok r ∧
  (registered r = Retired ↔ terminal r = true) ∧
  ends r = (if terminal r then 1%nat else 0%nat) ∧
  (terminal r = true → terminal r' = true ∧ status (rt r') = status (rt r) ∧ ends r' = 1%nat).
Proof.
  intros H H'. destruct (life_trace _ _ _ H (fresh_ok now s m p cfg)) as [Hok _].
  destruct (life_trace _ _ _ H' Hok) as [_ Hfin].
  split; [done|]. split; [|split; [apply Hok|]].
  - destruct (live_or_retired _ r Hok) as [[-> ->]|[-> ->]]; done.
  - intros Ht. destruct (Hfin Ht) as [E1 E2]. unfold terminal in *. rewrite E1, E2.
    split_and!; [done|done|]. destruct Hok as [_ _ _ He]. unfold terminal in He. by rewrite Ht in He.
Qed.

(** The deadline sets [abort] before it fails the run, and [_failRun] reports an
    aborted run as cancelled: a timeout never shows as a failure. *)
Definition is_event (t : EventType.t) (e : event) : bool := bool_decide (e_type e = t).

(** A run that exceeds its deadline is always recorded as cancelled, never
    as failed with code [timeout]: on every live run, whatever state it is in,
    the timer's callback leaves it CANCELLED, with exactly one more ending
    event, a [run.cancelled] with reason "cancel requested", so that the retry
    of failed runs is refused for it. *)
Theorem timeout_reported_as_cancelled n now ms r :
  life_from n r → registered r = Live →
  let r' := deadline_fires now ms r in
  status (rt r') = CANCELLED ∧ registered r' = Retired ∧ ends r' = S (ends r) ∧
  last (events r') = Some (Event EventType.RUN_CANCELLED "cancel requested") ∧
  (∀ d, Event EventType.RUN_FAILED d ∈ events r' → Event EventType.RUN_FAILED d ∈ events r).
Proof.
  intros Hok Hp r'. pose proof Hok as [Hr _ Hl _].
  assert (terminal r = false) as Ht by (by apply Hl).
  set (c := (ct r) <| abort := true |> <| signal_aborted := true |>).
  assert (run_ok (r <| ct := c |>)) as Hr' by (by destruct Hr; constructor).
  destruct (failRun_live now (timeout_error ms) (r <| ct := c |>) Hr' Hp Ht) as [E1 E2 E3 E4 _].
  split; [exact E3|]. split; [exact E2|]. split; [exact E4|].
  assert (events r' = events r ++ [Event EventType.RUN_CANCELLED "cancel requested"]) as He.
  { unfold r'. change (deadline_fires now ms r) with (failRun now (timeout_error ms) (r <| ct := c |>)).
    unfold failRun. change (terminal (r <| ct := c |>)) with (terminal r).
    rewrite Ht, bool_decide_true by exact Hp. cbn [negb]. change (abort (ct (r <| ct := c |>))) with true. cbn iota.
    unfold cancelledRun. change (terminal (r <| ct := c |>)) with (terminal r).
    rewrite Ht, bool_decide_true by exact Hp. cbn [negb].
    destruct (not_terminal _ Ht) as (N1 & _ & N3).
    destruct (transition_legal now CANCELLED (r <| ct := c |>) Hr' Hp (cancel_edge _ N1 N3)) as [r1 E]. rewrite E.
    destruct (run_transition_ok _ _ _ _ E Hr' Hp) as (_ & _ & Hp1 & He1 & _).
    destruct (retire_live (emit EventType.RUN_CANCELLED "cancel requested" r1) ltac:(exact (eq_trans Hp1 Hp)))
      as (_ & _ & Hev & _). rewrite Hev.
    change (events r1 ++ [Event EventType.RUN_CANCELLED "cancel requested"] = events r ++ [Event EventType.RUN_CANCELLED "cancel requested"]).
    by rewrite He1. }
  rewrite He. split; [apply last_snoc|]. intros d. rewrite elem_of_app.
  intros [?|Hx]; [done|]. by apply list_elem_of_singleton in Hx.
Qed.

(** A run that is started, plans, and reaches its deadline. *)
Definition no_config : run_config :=
  RuntimeState.RunConfig None None None None None None None None None None None.
Definition demo_run : run :=
  fresh_run 1 (RuntimeState.create 0 "run-1" "fix the tests" no_config) "demo" None
    (resolveRunConfig empty_layer empty_layer empty_layer).
Definition demo_started : run :=
  match startRun 2 (resolveRunConfig empty_layer empty_layer empty_layer) "go" demo_run with
  | Ok r => match transition 3 PLANNING r with Ok r => r | Throw _ => r end
  | Throw _ => demo_run
  end.

Lemma demo_life : rtc life demo_run demo_started.
Proof.
  eapply rtc_l; [apply (life_start demo_run 2 (resolveRunConfig empty_layer empty_layer empty_layer) "go"); vm_compute; reflexivity|].
  eapply rtc_l; [|apply rtc_refl]. by apply (life_trans _ 3 PLANNING).
Qed.

Lemma first_attempt_ends_once_witness :
  let r := deadline_fires 300003 300000 demo_started in
  let r' := failRun 300004 (JsError None "late") r in
  terminal r' = true ∧ status (rt r') = CANCELLED ∧ ends r' = 1%nat.
Proof.
  intros r r'.
  assert (rtc life demo_run r) as H1
    by (eapply rtc_r; [exact demo_life|apply life_deadline]).
  assert (rtc life r r') as H2 by (apply rtc_once, life_fail).
  destruct (first_attempt_ends_once 1 _ _ _ _ r r' H1 H2) as (_ & _ & _ & H).
  destruct (H ltac:(vm_compute; reflexivity)) as (Ht & Hs & He).
  split; [exact Ht|]. split; [|exact He]. rewrite Hs. vm_compute. reflexivity.
Defined.

Lemma timeout_reported_as_cancelled_witness :
  status (rt demo_started) = PLANNING ∧
  status (rt (deadline_fires 300003 300000 demo_started)) = CANCELLED.
Proof.
  split; [vm_compute; reflexivity|].
  assert (life_ok demo_started) as H by exact (proj1 (life_trace _ _ _ demo_life (fresh_ok _ _ _ _ _))).
  exact (proj1 (timeout_reported_as_cancelled 0 300003 300000 demo_started H ltac:(vm_compute; reflexivity))).
Defined.

Lemma try_legal now to r : run_ok r → registered r = Live → to ∈ STATE_TRANSITIONS (status (rt r)) →
  let r' := try_transition now to r in run_ok r' ∧ registered r' = Live ∧ status (rt r') = to.
Proof.
  intros Hr Hp Hto. destruct (transition_legal now to r Hr Hp Hto) as [r' E]. unfold try_transition. rewrite E.
  destruct (run_transition_ok _ _ _ _ E Hr Hp) as (? & ? & ? & _). split; [done|]. split; [congruence|done].
Qed.

(** A resume takes a PAUSING or PAUSED run back to EXECUTING. *)
Lemma resume_pausing now r : run_ok r → registered r = Live → status (rt r) = PAUSING ∨ status (rt r) = PAUSED →
  status (rt (resume_move now r)) = EXECUTING.
Proof.
  intros Hr Hp Hs. unfold resume_move. rewrite decide_True by done. cbv zeta. unfold getState.
  pose proof (ro_sync _ Hr) as Hm. destruct Hs as [Hs|Hs]; rewrite Hs in Hm.
  - rewrite (decide_False (P := currentState (machine (ct r)) = PAUSED)), (decide_True (P := _ = PAUSING))
      by (rewrite ?Hm; done).
    destruct (try_legal now PAUSED r Hr Hp ltac:(rewrite Hs; simpl; set_solver)) as (H1 & H2 & H3).
    generalize dependent (try_transition now PAUSED r). intros r1 H1 H2 H3.
    rewrite decide_True by (right; by rewrite (ro_sync _ H1)).
    by destruct (try_legal now EXECUTING r1 H1 H2 ltac:(rewrite H3; simpl; set_solver)) as (_ & _ & ?).
  - rewrite (decide_True (P := currentState (machine (ct r)) = PAUSED)) by done.
    destruct (try_legal now RESUMING r Hr Hp ltac:(rewrite Hs; simpl; set_solver)) as (H1 & H2 & H3).
    generalize dependent (try_transition now RESUMING r). intros r1 H1 H2 H3.
    rewrite decide_True by (left; by rewrite (ro_sync _ H1)).
    by destruct (try_legal now EXECUTING r1 H1 H2 ltac:(rewrite H3; simpl; set_solver)) as (_ & _ & ?).
Qed.

(** The transitions the step loop makes. *)
Definition loop_targets : list TaskStatus.t := [WAITING_FOR_TOOL; OBSERVING; REOPTIMIZING; EXECUTING; COMPLETED].

(** Pausing a run that executes fails it. [pauseRun] moves a live run in
    EXECUTING, OBSERVING or WAITING_FOR_TOOL to PAUSING at once, whatever the
    loop is waiting for. From there every transition the step loop makes is
    rejected with [invalid_transition], so is the completion, and the failure
    the rejection leads to cannot be entered either: it is forced, and the run
    is retired as FAILED with one ending event. Only a pause that the tool
    boundary settles, or a resume that arrives before the loop's next
    transition, leaves the run executing. *)
Theorem pause_fails_running_run n now now' r e sum :
  life_from n r → registered r = Live → abort (ct r) = false →
  status (rt r) ∈ [EXECUTING; OBSERVING; WAITING_FOR_TOOL] →
  let r' := pause_move now r in
  registered r' = Live ∧ status (rt r') = PAUSING ∧
  (∀ to, to ∈ loop_targets → ∃ x, transition now' to r' = Throw x ∧ err_code x = Some "invalid_transition"%string) ∧
  (∃ x, completeRun now' sum r' = Throw x ∧ err_code x = Some "invalid_transition"%string) ∧
  ended FAILED r' (failRun now' e r') ∧
  status (rt (resume_move now' r')) = EXECUTING.
Proof.
  intros [Hr _ _ _] Hp Ha Hs r'.
  assert (PAUSING ∈ STATE_TRANSITIONS (status (rt r))) as Hedge
    by (repeat (apply elem_of_cons in Hs as [->|Hs]; [simpl; set_solver|]); by apply not_elem_of_nil in Hs).
  destruct (transition_legal now PAUSING r Hr Hp Hedge) as [r1 E].
  destruct (run_transition_ok _ _ _ _ E Hr Hp) as (Hr1 & Hs1 & Hp1 & He1 & _ & Hc1 & _).
  assert (r' = emit EventType.EXECUTION_PAUSED "pausing" r1) as Er
    by (unfold r', pause_move, try_transition; by rewrite decide_True, E).
  assert (run_ok r') as Hr' by (rewrite Er; by destruct Hr1; constructor).
  assert (registered r' = Live) as Hp' by (rewrite Er; by rewrite <-Hp).
  assert (status (rt r') = PAUSING) as Hs' by (by rewrite Er).
  assert (abort (ct r') = false) as Ha' by (by rewrite Er, Hc1).
  assert (terminal r' = false) as Ht' by (unfold terminal; by rewrite Hs').
  assert (∀ to, to ∈ loop_targets → ∃ x, transition now' to r' = Throw x ∧ err_code x = Some "invalid_transition"%string) as Hto.
  { intros to Hin. destruct (transition now' to r') as [r2|x] eqn:E2.
    - exfalso. destruct (run_transition_ok _ _ _ _ E2 Hr' Hp') as (_ & _ & _ & _ & Hd & _). rewrite Hs' in Hd.
      repeat (apply elem_of_cons in Hin as [->|Hin]; [destruct Hd as [?|Hd]; [done|simpl in Hd; set_solver]|]).
      by apply not_elem_of_nil in Hin.
    - exists x. split; [done|]. by destruct (transition_throws _ _ _ _ E2 Hr' Hp') as (_ & _ & ?). }
  clearbody r'. split_and!; try done.
  - apply (completeRun_live now' sum r' Hr' Hp' Ht'). rewrite Hs'. set_solver.
  - pose proof (failRun_live now' e r' Hr' Hp' Ht') as H. by rewrite Ha' in H.
  - apply resume_pausing; [done|done|by left].
Qed.

(** The started run, executing. *)
Definition demo_executing : run :=
  foldl (λ r to, try_transition 4 to r) demo_started [CONTEXT_BUILD; MODEL_SELECT; EXECUTING].

Lemma demo_executing_ok : life_ok demo_executing.
Proof.
  assert (rtc life demo_run demo_executing) as H.
  { etrans; [exact demo_life|]. unfold demo_executing. cbn [foldl].
    do 3 (etrans; [|by apply try_life]). apply rtc_refl. }
  exact (proj1 (life_trace _ _ _ H (fresh_ok _ _ _ _ _))).
Qed.

Lemma pause_fails_running_run_witness :
  status (rt demo_executing) = EXECUTING ∧
  status (rt (failRun 6 (JsError None "x") (pause_move 5 demo_executing))) = FAILED.
Proof.
  split; [vm_compute; reflexivity|].
  destruct (pause_fails_running_run 0 5 6 demo_executing (JsError None "x") "" demo_executing_ok
    ltac:(vm_compute; reflexivity) ltac:(vm_compute; reflexivity)
    ltac:(replace (status (rt demo_executing)) with EXECUTING by (vm_compute; reflexivity); left))
    as (_ & _ & _ & _ & [_ _ H _ _] & _).
  exact H.
Defined.
