(* ===== verification/OrchestratorLoop.v ===== *)
(** The step loop of the orchestrator (backend/src/core/orchestrator.js,
    [_executeRun] and everything it calls).

    The loop awaits services: the context and memory managers, the model
    registry and router, the caches, the provider adapter, the tool executor. A
    value of [env] is one behaviour of all of them: the answer the k-th await of
    the run gets, whether it throws, what time it is, and what else happens to
    the run while the loop is suspended there (a cancellation request, its
    enforcement, the deadline, a pause, a resume). Theorems hold for every [env].

    Programs are written in [L], a monad of state and exceptions over the run,
    the stickiness manager, the await counter and a log of what the loop asks of
    the outside: provider requests, tool dispatches, steps. *)

From S2P Require Import Prelude JsMap JsValue Text Types Number RuntimeState RunConfig Switching StateMachine Recovery PolicyEngine Orchestrator.

Import TaskStatus.
Local Open Scope Z_scope.
Local Open Scope js_scope.

(** ** Requests, answers, exceptions *)

(** A thrown error; [x_provider] says that it is a [ProviderError]. *)
Record exn := Exn { x_error : js_error; x_provider : bool; x_retryable : bool }.
Definition plain (e : js_error) : exn := Exn e false false.
Definition code_of (x : exn) : string := default "" (err_code (x_error x)).

Record call := Call { tc_id : string; tc_name : string; tc_args : jsval }.
Record model_result := ModelResult { mr_text : string; mr_calls : list call }.

(** A provider response: the text and tool calls, the amounts the cost estimator
    and the reconciliation charge for it, its latency. *)
Record response := Response {
  rs_text : string;
  rs_calls : list call;
  rs_costs : list (string * num);
  rs_latencyMs : Z;
  rs_cached : bool;
}.

(** What the tool executor returns, and what it records in the run's state. *)
Record tool_outcome := ToolOutcome {
  to_success : bool;
  to_code : option string;
  to_evidence : string;
  to_record : option (ToolState.call_result);
}.

Record routed := Routed { ro_selected : string; ro_reason : string; ro_candidates : list string; ro_fallback : bool }.

(** What can happen to the run while the loop is suspended. *)
Inductive ext := ExtCancel | ExtCancelForce (why : string) | ExtDeadline (ms : Z)
| ExtPause | ExtHold | ExtResume.

Record env := Env {
  now_at : nat → Z;
  ext_at : nat → list ext;
  fails_at : nat → option exn;
  context_at : nat → ContextState.t → ContextState.t;
  reclaimed_at : nat → Z;
  memory_at : nat → bool;
  models_at : nat → list model_def;
  model_at : nat → option model_def;
  route_at : nat → list model_def → routed;
  plan_at : nat → Z;
  cache_at : nat → option model_result;
  semantic_at : nat → option model_result;
  provider_at : nat → response;
  tool_at : nat → tool_outcome;
  risk_at : nat → option risk_view;
  key_for : string → string → jsval → nat → string;
  adapter : option exn;
  adapter_default : option string;
  globals : resolved;
  policy_config : PolicyEngine.config;
}.

(** What the loop asks of the outside. *)
Inductive obs :=
| OStep (n : nat)
| OProvider (model native : option string) (live : bool) (def : model_def) (aborted : bool)
| OTool (tool : string) (key : option string) (effect : option tool_effect) (aborted : bool).

Record St := MkSt { the_run : run; sticky : manager; clock : nat; log : list obs }.
#[export] Instance St_eta : Eta St := λ s, MkSt (the_run s) (sticky s) (clock s) (log s).

Definition L (A : Type) : Type := St → St * (A + exn).

#[export] Instance L_ret : MRet L := λ A a s, (s, inl a).
#[export] Instance L_bind : MBind L := λ A B f m s,
  match m s with (s', inl a) => f a s' | (s', inr x) => (s', inr x) end.

Definition throw {A} (x : exn) : L A := λ s, (s, inr x).
Definition get {A} (f : St → A) : L A := λ s, (s, inl (f s)).
Definition upd (f : run → run) : L unit := λ s, (s <| the_run ::= f |>, inl tt).
Definition observe (o : St → obs) : L unit := λ s, (s <| log ::= λ l, l ++ [o s] |>, inl tt).
Definition when (b : bool) (m : L unit) : L unit := if b then m else mret tt.

(** [try { m } catch { h }] *)
Definition catch {A} (m : L A) (h : exn → L A) : L A := λ s,
  match m s with (s', inl a) => (s', inl a) | (s', inr x) => h x s' end.

Definition apply_ext (now : Z) (r : run) (x : ext) : run :=
  match x with
  | ExtCancel => (cancel_request r).2
  | ExtCancelForce why => cancel_force now why r
  | ExtDeadline ms => match deadline (ct r) with Some _ => deadline_fires now ms r | None => r end
  | ExtPause => pause_move now r
  | ExtHold => hold_move now r
  | ExtResume => resume_move now r
  end.

(** ** Text tests *)

Definition has_word (ws : list string) (text : string) : bool :=
  existsb (λ w, contains w (to_lower text)) ws.

Definition path_char (c : ascii) : bool := is_word c || one_of "-./" c.

Fixpoint span_chars (f : ascii → bool) (s : string) : nat :=
  match s with String c s' => if f c then S (span_chars f s') else O | EmptyString => O end.

Definition file_exts : list string := ["ts"; "tsx"; "js"; "jsx"; "json"; "md"; "py"; "go"; "rs"]%string.

(** The expression at a position: the greedy run of path characters gives
    characters back until a dot and one of the extensions, tried in order,
    follow. *)
Fixpoint path_backtrack (n : nat) (s : string) : option string :=
  match n with
  | O => None
  | S n' =>
      match string_drop n s with
      | String "." rest =>
          match find (λ e, starts_with e rest) file_exts with
          | Some e => Some (slice0 (n + 1 + String.length e) s)
          | None => path_backtrack n' s
          end
      | _ => path_backtrack n' s
      end
  end.

(* [src/backend/src/core/orchestrator.js:1377-1377] path expression *)
Fixpoint file_in (s : string) : option string :=
  match path_backtrack (span_chars path_char s) s with
  | Some p => Some p
  | None => match s with String _ s' => file_in s' | EmptyString => None end
  end.

(* [src/backend/src/core/orchestrator.js:1374-1381] _heuristicToolCall *)
Definition heuristicToolCall (userMessage : string) : option (string * jsval) :=
  let text := userMessage in
  if has_word ["test"; "fail"; "bug"; "spec"; "broken"]%string text
  then Some ("run_tests"%string, JObj [("suite"%string, JStr "session")])
  else match file_in text with
  | Some p =>
      if has_word ["read"; "file"; "inspect"; "open"; "look at"]%string text
      then Some ("read_file"%string, JObj [("path"%string, JStr p)])
      else if has_word ["search"; "find"; "where"; "locate"; "grep"]%string text
      then Some ("search_code"%string, JObj [("query"%string, JStr (slice0 120 text))]) else None
  | None =>
      if has_word ["search"; "find"; "where"; "locate"; "grep"]%string text
      then Some ("search_code"%string, JObj [("query"%string, JStr (slice0 120 text))]) else None
  end.

(** The extensions are tried in order and nothing follows the expression, so the
    shorter of two extensions wins: the assist reads another file. *)
Example assist_reads_another_file :
  heuristicToolCall "read src/config.json" =
    Some ("read_file"%string, JObj [("path"%string, JStr "src/config.js")]) ∧
  file_in "open App.tsx please" = Some "App.ts"%string.
Proof. split; vm_compute; reflexivity. Qed.

(* [src/backend/src/core/orchestrator.js:1358-1358] durable fact expression *)
Definition durable_fact (text : string) : bool :=
  any_suffix (λ s, existsb (λ w, starts_with w s &&
      starts_with ":" (drop_spaces is_space (string_drop (String.length w) s)))
    ["remember"; "preference"; "always"; "never"; "convention"]%string) (to_lower text).

Inductive completion := Complete (summary : string) | Incomplete (reason : string).

(* [src/backend/src/core/orchestrator.js:1383-1406] _evaluateCompletion *)
Definition evaluateCompletion (calls : list ToolState.call) (m : model_result) : completion :=
  let failedTools := filter (λ c, ToolState.r_success (ToolState.c_result c) = false) calls in
  let unresolved := bool_decide (0 < length failedTools)%nat &&
    negb (has_word ["complete"; "done"; "no further"; "finished"]%string (mr_text m)) in
  if unresolved then Incomplete "tool failures unresolved"
  else match mr_calls m with
  | _ :: _ => Incomplete "pending tool calls"
  | [] => if negb (truthy_str (trim (mr_text m))) then Incomplete "empty model response"
          else Complete (mr_text m)
  end.

(** Stable insertion sort, for [sort((a, b) => f(a) - f(b))]. *)
Fixpoint insert_by {A} (lt : A → A → bool) (x : A) (l : list A) : list A :=
  match l with [] => [x] | y :: l' => if lt x y then x :: l else y :: insert_by lt x l' end.
Definition sort_by {A} (lt : A → A → bool) (l : list A) : list A :=
  foldl (λ acc x, insert_by lt x acc) [] l.

Definition truthy_native (m : model_def) : bool := truthy (md_nativeId m).

(* [src/backend/src/core/orchestrator.js:46-48] contentRetentionAllowed *)
Definition contentRetentionAllowed (r : RuntimeState) : bool := bool_decide (privacyMode r = "standard"%string).

(* [src/backend/src/core/orchestrator.js:1765-1775] _nativeModelId *)
Definition nativeModelId (def : model_def) (adapterDefault : option string) (demo : bool) : option string :=
  if truthy_native def then md_nativeId def
  else if negb demo && truthy adapterDefault then adapterDefault
  else Some (md_id def).

Section Loop.
Context (E : env).

(** [await service()]: while the loop is suspended, other things happen to the
    run; then the answer arrives, or the exception. *)
Definition await {A} (answer : nat → A) : L A := λ s,
  let k := clock s in
  let s' := s <| clock := S k |> <| the_run ::= λ r, foldl (apply_ext (now_at E k)) r (ext_at E k) |> in
  match fails_at E k with Some x => (s', inr x) | None => (s', inl (answer k)) end.

Definition tick : L Z := get (λ s, now_at E (clock s)).
Definition emitL (t : EventType.t) (d : string) : L unit := upd (emit t d).
Definition get_run : L run := get the_run.
Definition ask {A} (f : run → A) : L A := get (λ s, f (the_run s)).

Definition transitionL (to : TaskStatus.t) : L unit := λ s,
  match transition (now_at E (clock s)) to (the_run s) with
  | Ok r => (s <| the_run := r |>, inl tt)
  | Throw e => (s, inr (plain e))
  end.
Definition toObservingL : L unit := λ s,
  match toObserving (now_at E (clock s)) (the_run s) with
  | Ok r => (s <| the_run := r |>, inl tt)
  | Throw e => (s, inr (plain e))
  end.

Definition set_rt (f : RuntimeState → RuntimeState) : L unit := upd (λ r, r <| rt ::= f |>).
Definition set_ct (f : ctrl → ctrl) : L unit := upd (λ r, r <| ct ::= f |>).

Definition config_of (r : run) : resolved :=
  runConfigFor (Some (runConfig (ct r))) (providerId (ct r)) (globals E).
Definition live_mode (r : run) : bool := bool_decide (mode (ct r) = "live"%string).
Definition over_budget (r : run) : bool :=
  BudgetState.isBudgetExceeded (budget (rt r)) || BudgetState.isLatencyExceeded (budget (rt r)).
Definition coded_exn (code msg : string) : exn := plain (coded code msg).

(** A call of the context manager: it rewrites the run's context state. *)
Definition contextCall : L unit :=
  k ← await id; set_rt (λ s, s <| context ::= context_at E k |>).

(** [searchMemory] inside its [try]: whether anything was found. *)
Definition searchMemory : L bool :=
  b ← ask (λ r, contentRetentionAllowed (rt r));
  if b : bool then await (memory_at E) else mret false.

(* [src/backend/src/core/orchestrator.js:1044-1075] _buildContext *)
Definition buildContext : L unit :=
  contextCall ;;                              (* buildContext *)
  await (λ _, tt) ;;                          (* estimateTokens *)
  contextCall ;;                              (* addContext, the user's task *)
  found ← searchMemory;
  when found contextCall ;;
  emitL EventType.CONTEXT_BUILT "".

(** [_buildPrompt]: the tokens of the compiled plan. *)
(* [src/backend/src/core/orchestrator.js:1793-1805] _buildPrompt *)
Definition buildPrompt : L Z :=
  catch (searchMemory ;; mret tt) (λ _, mret tt) ;;
  await (plan_at E).

Definition choose_model (now : Z) (m : routed) (why : string) (def : option model_def) : L unit :=
  set_rt (λ s, s <| model ::= ModelState.setCurrentModel now (ro_selected m) (def ≫= md_provider) why |>).

Definition adopt (def : option model_def) : L unit :=
  match def with
  | Some d =>
      set_rt (λ s, s <| model ::= ModelState.setPricing (md_id d) (md_pricing d) |>) ;;
      set_ct (λ c, c <| providerModel := Some d |>)
  | None => mret tt
  end.

Definition selectable (r : run) (m : model_def) : bool :=
  PolicyState.isModelAllowed (policy (rt r)) (md_id m) &&
  negb (bool_decide (md_status m = "unavailable"%string)) && (negb (live_mode r) || truthy_native m).

(* [src/backend/src/core/orchestrator.js:1077-1157] _selectModel *)
Definition selectModel : L unit :=
  models ← await (models_at E);
  r ← get_run;
  let allowedModels := filter (λ m, selectable r m = true) models in
  match allowedModels with
  | [] => throw (coded_exn "no_models" "No available models")
  | _ =>
      catch (t ← buildPrompt;
             set_rt (λ s, s <| context ::= λ c, c <| ContextState.currentTokens ::= λ n, Z.max n t |> |>))
        (λ _, mret tt) ;;
      m ← await (λ k, route_at E k allowedModels);
      let def := find (λ d, String.eqb (md_id d) (ro_selected m)) allowedModels in
      now ← tick;
      choose_model now m (ro_reason m) def ;;
      set_rt (λ s, s <| model ::= λ x, x <| ModelState.candidateModels := ro_candidates m |>
        <| ModelState.modelContextLimit ::= λ n, match def with Some d => md_contextWindow d | None => n end |> |>) ;;
      adopt def ;;
      emitL EventType.MODEL_SELECTED (ro_selected m) ;;
      emitL EventType.ROUTING_EVALUATED (ro_reason m)
  end.

(* [src/backend/src/core/orchestrator.js:1995-2045] _applyModelSwitch *)
Definition applyModelSwitch (m : routed) (candidates : list model_def) (reason : string) (forced : bool) : L bool :=
  def ← (match find (λ d, String.eqb (md_id d) (ro_selected m)) candidates with
         | Some d => mret (Some d)
         | None => await (model_at E)
         end);
  r ← get_run;
  let provider := def ≫= md_provider in
  let cost := (calculate default_calculator (context (rt r)) (model (rt r))
    (SwitchOptions provider (def ≫= md_avgLatencyMs) false)).1 in
  now ← tick;
  verdict ← get (λ s, canSwitch (sticky s) now (runId (rt r)) Infinity cost);
  let allowed := match verdict with Allowed => true | _ => false end in
  if negb forced && negb allowed && negb (ro_fallback m) then
    emitL EventType.MODEL_SWITCH_REJECTED (ro_selected m) ;; mret false
  else
    await (λ _, tt) ;;                        (* invalidatePrefix *)
    now ← tick;
    set_rt (λ s, s <| budget ::= BudgetState.addCost now (CostCategory.value CostCategory.SWITCHING) cost |>) ;;
    choose_model now m reason def ;;
    adopt def ;;
    (λ s, (s <| sticky ::= λ x, recordSwitch x now (runId (rt r)) |>, inl tt)) ;;
    emitL EventType.MODEL_SWITCHED (ro_selected m) ;;
    emitL EventType.COST_UPDATED "" ;;
    mret true.

Definition healthy (r : run) (m : model_def) : bool :=
  bool_decide (md_status m = "healthy"%string) && PolicyState.isModelAllowed (policy (rt r)) (md_id m).
Definition out_price (m : model_def) : num := default Infinity (md_outputPer1k m).
Definition is_current (r : run) (m : model_def) : bool :=
  bool_decide (ModelState.currentModel (model (rt r)) = Some (md_id m)).

(* [src/backend/src/core/orchestrator.js:2047-2066] _handleBudgetExceeded *)
Definition handleBudgetExceeded : L bool :=
  emitL EventType.BUDGET_EXCEEDED "" ;;
  models ← await (models_at E);
  current ← await (model_at E);
  r ← get_run;
  let currentOut := default Infinity (current ≫= md_outputPer1k) in
  let cheaper := sort_by (λ a b, nlt (default nzero (md_outputPer1k a)) (default nzero (md_outputPer1k b)))
    (filter (λ m, healthy r m && negb (is_current r m) && nlt (out_price m) currentOut = true) models) in
  match cheaper with
  | [] => mret false
  | _ =>
      m ← await (λ k, route_at E k (take 3 cheaper));
      applyModelSwitch m cheaper "Budget optimization" false
  end.

(* [src/backend/src/core/orchestrator.js:1929-1947] _failover *)
Definition failover (reason : string) (exclude : list string) : L bool :=
  r0 ← get_run;
  let excluded := exclude ++ option_list (ModelState.currentModel (model (rt r0))) in
  models ← await (models_at E);
  r ← get_run;
  let candidates := filter (λ m, healthy r m && negb (bool_decide (md_id m ∈ excluded)) &&
    (negb (live_mode r) || truthy_native m) = true) models in
  match candidates with
  | [] => mret false
  | _ =>
      m ← await (λ k, route_at E k candidates);
      applyModelSwitch m candidates ("Failover: " ++ reason) true ;;
      mret true
  end.

(** [a || b || 0] on token counts. *)
Definition or_Z (a b : Z) : Z := if a =? 0 then b else a.

(* [src/backend/src/core/orchestrator.js:1973-1988] _failoverLargerContext *)
Definition failoverLargerContext : L bool :=
  current ← await (model_at E);
  r0 ← get_run;
  let currentWindow := or_Z (default 0 (md_contextWindow <$> current)) (ContextState.maximumTokens (context (rt r0))) in
  models ← await (models_at E);
  r ← get_run;
  let bigger := sort_by (λ a b, md_contextWindow a <? md_contextWindow b)
    (filter (λ m, healthy r m && negb (is_current r m) && (currentWindow <? md_contextWindow m) = true) models) in
  match bigger with
  | [] => mret false
  | _ =>
      m ← await (λ k, route_at E k (take 3 bigger));
      applyModelSwitch m bigger "Context overflow: larger window" true
  end.

(** [_markModelUnavailable]: two registry calls in a [try]. *)
(* [src/backend/src/core/orchestrator.js:1954-1971] _markModelUnavailable *)
Definition markModelUnavailable : L unit :=
  catch (m ← await (model_at E);
         match m with
         | Some d => when (negb (bool_decide (md_status d = "unavailable"%string))) (await (λ _, tt))
         | None => mret tt
         end) (λ _, mret tt).

(** ** One model call *)

Definition compress : L Z :=
  k ← await id;
  set_rt (λ s, s <| context ::= context_at E k |>) ;;
  mret (reclaimed_at E k).

Definition overflow (window t : Z) : bool := (0 <? window) && (window <? t).

(** The prompt, compressed once when it does not fit the model's window. *)
(* [src/backend/src/core/orchestrator.js:1451-1482] _callModel, prompt and context guard *)
Definition fit_prompt (def : model_def) : L Z :=
  t ← buildPrompt;
  r ← get_run;
  let window := or_Z (md_contextWindow def) (ContextState.maximumTokens (context (rt r))) in
  if overflow window t then
    reclaimed ← catch compress (λ _, mret 0);
    t' ← buildPrompt;
    if window <? t' then throw (coded_exn "context_exhausted" "Prompt exceeds the context window")
    else when (0 <? reclaimed) (emitL EventType.CONTEXT_COMPRESSED "") ;; mret t'
  else mret t.

(** The definition a model call uses: the resolved one, or the registry's. *)
Definition resolve_def : L model_def :=
  pm ← ask (λ r, providerModel (ct r));
  d ← (match pm with Some d => mret (Some d) | None => await (model_at E) end);
  match d with
  | Some d => mret d
  | None => throw (coded_exn "no_models" "Model not found in registry")
  end.

(** The budget guard before a provider call: one cheaper model, or failure. *)
(* [src/backend/src/core/orchestrator.js:1488-1505] _callModel, budget guard *)
Definition budget_guard (def : model_def) (t : Z) : L model_def :=
  over ← ask over_budget;
  if over : bool then
    switched ← handleBudgetExceeded;
    if negb switched then throw (coded_exn "budget_exceeded" "Budget exceeded before provider call")
    else
      def' ← resolve_def;
      if overflow (md_contextWindow def') t
      then throw (coded_exn "context_exhausted" "Prompt exceeds the context window after budget failover")
      else mret def'
  else mret def.

Definition use_prompt (t : Z) : L unit :=
  set_rt (λ s, s <| context ::= λ c, ContextState.setCacheablePrefix t
    (c <| ContextState.currentTokens ::= λ n, Z.max n t |>) |>).

(** Charging a response: each category of the estimate, then the latency. *)
(* [src/backend/src/core/orchestrator.js:1665-1682] _callModel, accounting *)
Definition charge (now : Z) (rs : response) : L unit :=
  set_rt (λ s, s <| budget ::= λ b, BudgetState.addLatency (rs_latencyMs rs)
    (foldl (λ b '(c, a), BudgetState.addCost now c a b) b (rs_costs rs)) |>).

Definition record_call (now : Z) : L unit := set_rt (addModelCall now (JObj [])).

(** A hit of the response cache or of the semantic cache: no provider call. *)
(* [src/backend/src/core/orchestrator.js:1519-1538] _callModel, response cache *)
Definition cached_answer (now : Z) (m : model_result) : L model_result :=
  record_call now ;;
  emitL EventType.CACHE_HIT "" ;;
  set_rt (λ s, s <| budget ::=
    BudgetState.addCost now (CostCategory.value CostCategory.CACHED_INPUT_TOKENS) (of_Z 0) |>) ;;
  emitL EventType.COST_UPDATED "" ;;
  mret m.

(* [src/backend/src/core/orchestrator.js:1600-1619] _callModel, provider request *)
Definition provider_call (def : model_def) : L response :=
  r ← get_run;
  observe (λ s, OProvider (ModelState.currentModel (model (rt (the_run s))))
    (nativeModelId def (adapter_default E) (negb (live_mode r))) (live_mode r) def
    (signal_aborted (ct (the_run s)))) ;;
  await (provider_at E).

(* [src/backend/src/core/orchestrator.js:1620-1762] _callModel, after the response *)
Definition after_response (rs : response) (continuation : bool) : L model_result :=
  now ← tick;
  record_call now ;;
  charge now rs ;;
  emitL EventType.MODEL_CALL_COMPLETED "" ;;
  emitL (if rs_cached rs then EventType.CACHE_HIT else EventType.CACHE_MISS) "" ;;
  emitL EventType.COST_UPDATED "" ;;
  keep ← ask (λ r, contentRetentionAllowed (rt r));
  when keep (await (λ _, tt)) ;;              (* cacheManager.set *)
  keep ← ask (λ r, contentRetentionAllowed (rt r));
  when (keep && negb continuation && truthy_str (rs_text rs) && bool_decide (rs_calls rs = []))
    (catch (await (λ _, tt)) (λ _, mret tt)) ;;       (* storeSemantic *)
  set_rt (λ s, s <| model ::= ModelState.updateLatency (rs_latencyMs rs) |>) ;;
  mret (ModelResult (rs_text rs) (rs_calls rs)).

(** The semantic lookup, on fresh steps only. *)
(* [src/backend/src/core/orchestrator.js:1555-1597] _callModel, semantic reuse *)
Definition semantic_lookup (continuation : bool) : L (option model_result) :=
  keep ← ask (λ r, contentRetentionAllowed (rt r));
  if keep && negb continuation then catch (await (semantic_at E)) (λ _, mret None) else mret None.

(* [src/backend/src/core/orchestrator.js:1428-1763] _callModel *)
Definition callModel (continuation : bool) : L model_result :=
  r ← get_run;
  if abort (ct r) then throw (coded_exn "cancelled" "cancelled")
  else
    def ← resolve_def;
    if negb (truthy_native def) && live_mode r then
      throw (coded_exn "model_resolution" "no provider-native mapping")
    else
      t ← fit_prompt def;
      def ← budget_guard def t;
      use_prompt t ;;
      keep ← ask (λ r, contentRetentionAllowed (rt r));
      cached ← (if keep : bool then await (cache_at E) else mret None);
      now ← tick;
      match (m ← cached; guard (truthy_str (mr_text m) = true);; Some m) with
      | Some m => cached_answer now m
      | None =>
          match adapter E with
          | Some x => throw x
          | None =>
              await (λ _, tt) ;;                  (* _providerTools *)
              sem ← semantic_lookup continuation;
              now ← tick;
              match sem with
              | Some m => record_call now ;; emitL EventType.CACHE_HIT "" ;; mret m
              | None => rs ← provider_call def; after_response rs continuation
              end
          end
      end.

(** ** Tools *)

Definition mark (tool : string) (key : option string) (cls : bool * bool * string) : tool_effect :=
  ToolEffect (SideEffectState.value SideEffectState.IN_FLIGHT) (Some tool) key cls.1.1 cls.1.2 true.

(** The classification is cached per run. *)
(* [src/backend/src/core/orchestrator.js:225-251] _markToolInFlight *)
Definition markInFlight (tool : string) (key : option string) : L unit :=
  cache ← ask (λ r, toolRiskCache (ct r));
  cls ← (match mget cache tool with
         | Some c => mret c
         | None =>
             def ← catch (await (risk_at E)) (λ _, mret None);
             let cls := classifySideEffect (Some (default (RiskView (Some tool) (Some "medium"%string)) def)) in
             set_ct (λ c, c <| toolRiskCache ::= λ m,
               mset (if decide (100 < length m)%nat then [] else m) tool cls |>) ;;
             mret cls
         end);
  set_ct (λ c, c <| lastToolEffect := Some (mark tool key cls) |>).

(* [src/backend/src/core/orchestrator.js:253-261] _markToolSettled *)
Definition markSettled (o : tool_outcome) : L unit :=
  set_ct (λ c, c <| lastToolEffect ::= fmap (λ e, markToolSettled e (to_success o)
    (if to_success o then None else to_code o)) |>).

(** The dispatch: what the executor is asked, with the abort signal it gets, and
    what it records in the run's state (impl/tool-executor.js:816-851). *)
(* [src/backend/src/impl/tool-executor.js:816-817] execute, what it records *)
Definition execute_tool (tool : string) (key : option string) : L tool_outcome :=
  observe (λ s, OTool tool key (lastToolEffect (ct (the_run s))) (signal_aborted (ct (the_run s)))) ;;
  o ← await (tool_at E);
  now ← tick;
  match to_record o with
  | Some c =>
      set_rt (λ s, s <| tools ::= ToolState.recordCall now tool c |>) ;;
      when (to_success o) (set_rt (λ s, s <| budget ::=
        BudgetState.addCost now (CostCategory.value CostCategory.TOOL_EXECUTION) (ToolState.r_cost c) |>))
  | None => mret tt
  end ;;
  mret o.

Definition say (who : role) (text : string) : L unit := set_ct (λ c, c <| turns ::= λ l, l ++ [Message who text] |>).

(** One call of a batch: mark, execute, settle, and feed the result back. *)
(* [src/backend/src/core/orchestrator.js:1254-1286] _executeStep, one tool call *)
Definition dispatch (step : nat) (c : call) : L unit :=
  set_ct (λ x, x <| toolCalls ::= S |>) ;;
  id ← ask (λ r, runId (rt r));
  let key := Some (key_for E id (tc_name c) (tc_args c) step) in
  markInFlight (tc_name c) key ;;
  o ← execute_tool (tc_name c) key;
  markSettled o ;;
  say Tool (to_evidence o) ;;
  contextCall ;;
  keep ← ask (λ r, contentRetentionAllowed (rt r));
  when (keep && to_success o) (await (λ _, tt)).  (* writeWorkingMemory *)

Fixpoint each {A} (f : A → L unit) (l : list A) : L unit :=
  match l with [] => mret tt | x :: l' => f x ;; each f l' end.

(** The tool rounds of a step: at most four batches of at most three calls.
    [None]: the run was aborted. *)
(* [src/backend/src/core/orchestrator.js:1233-1292] _executeStep, tool loop *)
Fixpoint tool_rounds (guard : nat) (step : nat) (m : model_result) : L (option model_result) :=
  match guard, mr_calls m with
  | O, _ | _, [] => mret (Some m)
  | S guard', _ :: _ =>
      r ← get_run;
      if abort (ct r) then mret None
      else if maxToolCalls (config_of r) <=? Z.of_nat (toolCalls (ct r)) then
        throw (coded_exn "tool_budget" "Tool call budget exhausted")
      else
        let calls := take 3 (mr_calls m) in
        say Assistant (mr_text m) ;;
        transitionL WAITING_FOR_TOOL ;;
        each (λ c, emitL EventType.TOOL_SELECTED (tc_name c)) calls ;;
        each (dispatch step) calls ;;
        toObservingL ;;
        emitL EventType.EXECUTION_STEP_COMPLETED "" ;;
        transitionL EXECUTING ;;
        m' ← callModel true;
        tool_rounds guard' step m'
  end.

(** The single heuristic assist of a run. *)
(* [src/backend/src/core/orchestrator.js:1301-1328] _executeStep, heuristic assist *)
Definition assist (userMessage : string) (step : nat) (m : model_result) : L model_result :=
  r ← get_run;
  match mr_calls m, heuristicToolCall userMessage with
  | [], Some (tool, params) =>
      if negb (heuristicToolUsed (ct r)) && (step <=? 2)%nat then
        set_ct (λ c, c <| heuristicToolUsed := true |>) ;;
        transitionL WAITING_FOR_TOOL ;;
        emitL EventType.TOOL_SELECTED tool ;;
        set_ct (λ c, c <| toolCalls ::= S |>) ;;
        say Assistant (mr_text m) ;;
        markInFlight tool None ;;
        o ← execute_tool tool None;
        markSettled o ;;
        say Tool (to_evidence o) ;;
        contextCall ;;
        toObservingL ;;
        transitionL EXECUTING ;;
        callModel true
      else mret m
  | _, _ => mret m
  end.

(** ** One step *)

Definition completeL (summary : string) : L unit := λ s,
  match completeRun (now_at E (clock s)) summary (the_run s) with
  | Ok r => (s <| the_run := r |>, inl tt)
  | Throw e => (s, inr (plain e))
  end.

(** After the last model answer of a step. *)
(* [src/backend/src/core/orchestrator.js:1330-1371] _executeStep, conclusion *)
Definition conclude (step : nat) (m : model_result) : L bool :=
  toObservingL ;;
  now ← tick;
  set_rt (λ s, s <| execution ::= ExecutionState.completeStep now |>) ;;
  set_ct (λ c, c <| messages ::= λ l, l ++ [Message Assistant (mr_text m)] |>) ;;
  say Assistant (mr_text m) ;;
  emitL EventType.RESPONSE_DONE (mr_text m) ;;
  done ← ask (λ r, evaluateCompletion (ToolState.recentToolCalls (tools (rt r))) m);
  catch (await (λ _, tt)) (λ _, mret tt) ;;            (* persistHook *)
  keep ← ask (λ r, contentRetentionAllowed (rt r));
  when (keep && truthy_str (mr_text m) && durable_fact (mr_text m)) (await (λ _, tt)) ;;
  match done with
  | Complete summary => completeL summary ;; mret false
  | Incomplete _ => transitionL EXECUTING ;; mret true
  end.

Definition recordRetry : L unit := set_rt (λ s, s <| execution ::= ExecutionState.recordRetry |>).

Definition aborted : L bool := ask (λ r, abort (ct r)).

(** A model call of the step failed: fail over, back off, or give up. *)
(* [src/backend/src/core/orchestrator.js:1170-1231] _executeStep, model error *)
Definition model_error (x : exn) : L bool :=
  now ← tick;
  set_rt (λ s, s <| execution ::= ExecutionState.failStep now (err_msg (x_error x)) |>) ;;
  stop ← aborted;
  if stop : bool then mret false
  else if String.eqb (code_of x) "context_exhausted" then
    fb ← failoverLargerContext;
    if fb : bool then recordRetry ;; emitL EventType.EXECUTION_RETRY "larger-context-failover" ;; mret true
    else throw x
  else if x_provider x && (x_retryable x || String.eqb (code_of x) "model_unavailable"
                           || String.eqb (code_of x) "model_resolution") then
    failedModel ← ask (λ r, default "" (ModelState.currentModel (model (rt r))));
    set_ct (λ c, c <| triedModels ::= λ l, if decide (failedModel ∈ l) then l else l ++ [failedModel] |>) ;;
    emitL EventType.MODEL_UNAVAILABLE failedModel ;;
    when (String.eqb (code_of x) "model_unavailable") markModelUnavailable ;;
    tried ← ask (λ r, triedModels (ct r));
    fb ← failover (code_of x ++ " on " ++ failedModel) tried;
    if fb : bool then recordRetry ;; emitL EventType.EXECUTION_RETRY "failover" ;; mret true
    else if String.eqb (code_of x) "model_unavailable" then
      throw (coded_exn "model_unavailable" "no viable alternative models remain")
    else
      r ← get_run;
      if Z.of_nat (retries (ct r)) <? RunConfig.maxRetries (config_of r) then
        set_ct (λ c, c <| retries ::= S |>) ;;
        emitL EventType.EXECUTION_RETRY "backoff" ;;
        await (λ _, tt) ;;
        stop ← aborted;
        if stop : bool then mret false else recordRetry ;; mret true
      else throw x
  else throw x.

(* [src/backend/src/core/orchestrator.js:1160-1372] _executeStep *)
Definition executeStep (userMessage : string) (step : nat) : L bool :=
  now ← tick;
  set_rt (λ s, s <| execution ::= ExecutionState.startStep now |>) ;;
  emitL EventType.EXECUTION_STEP_STARTED "" ;;
  observe (λ _, OStep step) ;;
  first ← catch (m ← callModel false; mret (inl m)) (λ x, b ← model_error x; mret (inr b));
  match first with
  | inr b => mret b
  | inl m =>
      rounds ← tool_rounds 4 step m;
      match rounds with
      | None => mret false
      | Some m =>
          stop ← aborted;
          if stop : bool then
            now ← tick;
            set_rt (λ s, s <| execution ::= ExecutionState.completeStep now |>) ;; mret false
          else m ← assist userMessage step m; conclude step m
      end
  end.

(** ** Optimisation triggers *)

(* [src/backend/src/core/orchestrator.js:1908-1927] _handleOptimization *)
Definition handleOptimization (t : trigger) : L unit :=
  if String.eqb (t_type t) "model_unavailable" || String.eqb (t_type t) "model_degraded" then
    failover (t_type t) [] ;; mret tt
  else if String.eqb (t_type t) "context_critical" then
    reclaimed ← compress;
    u ← ask (λ r, ContextState.getUtilization (context (rt r)));
    if (reclaimed <=? 0) && nle one u
    then throw (coded_exn "context_exhausted" "Context budget exhausted and nothing left to compress")
    else mret tt
  else if String.eqb (t_type t) "budget_critical" then handleBudgetExceeded ;; mret tt
  else mret tt.

(* [src/backend/src/core/orchestrator.js:1864-1906] _checkOptimizationTriggers *)
Definition checkOptimizationTriggers : L unit :=
  r ← get_run;
  let b := evaluateBudget (policy_config E) (budget (rt r)) in
  let l := evaluateLatency (policy_config E) (budget (rt r)) in
  let c := evaluateContext (policy_config E) (context (rt r)) in
  let m := evaluateModelHealth (model (rt r)) in
  each (λ t, when (String.eqb (t_severity t) "critical")
      (emitL EventType.OPTIMIZATION_TRIGGERED (t_type t) ;; handleOptimization t ;;
       emitL EventType.OPTIMIZATION_COMPLETED (t_type t)))
    (getOptimizationTriggers b l c m) ;;
  when (b_isWarning b && negb (b_isExceeded b)) (emitL EventType.BUDGET_WARNING "") ;;
  when (c_isNearLimit c)
    (emitL EventType.CONTEXT_LIMIT_WARNING "" ;;
     p ← ask (λ r, PolicyState.allowCompaction (policy (rt r)));
     if decide (p = Some false) then emitL EventType.OPTIMIZATION_TRIGGERED "context_compaction_skipped"
     else contextCall).

(** ** The run *)

Definition cancelledL (why : string) : L unit := λ s,
  (s <| the_run ::= cancelledRun (now_at E (clock s)) why |>, inl tt).

Definition ended_or_aborted : L bool := ask (λ r, abort (ct r) || terminal r).

Inductive exit := Returned | Exhausted.

Definition bump_total (n : nat) : L unit :=
  set_rt (λ s, s <| execution ::= λ e, e <| ExecutionState.totalSteps ::= Nat.max n |> |>).

(** The [while (steps < maxSteps)] loop; [fuel] is [maxSteps - steps]. The steps
    taken and whether the code after the loop runs. *)
(* [src/backend/src/core/orchestrator.js:1007-1027] _executeRun, loop *)
Fixpoint step_loop (fuel : nat) (userMessage : string) (steps : nat) : L (nat * exit) :=
  match fuel with
  | O => mret (steps, Exhausted)
  | S fuel' =>
      stop ← aborted;
      if stop : bool then cancelledL "cancelled during execution" ;; mret (steps, Returned)
      else
        r ← get_run;
        if terminal r then mret (steps, Returned)
        else
          go ← (if over_budget r then
                  switched ← handleBudgetExceeded;
                  if negb switched
                  then throw (coded_exn "budget_exceeded" "Budget exceeded and no cheaper model available")
                  else stop ← ended_or_aborted; mret (negb stop)
                else mret true);
          if negb go then mret (steps, Returned)
          else
            bump_total (S steps) ;;
            continue ← executeStep userMessage (S steps);
            checkOptimizationTriggers ;;
            if negb continue then mret (S steps, Exhausted)
            else
              stop ← aborted;
              if stop : bool then cancelledL "cancelled during execution" ;; mret (S steps, Returned)
              else
                r ← get_run;
                if terminal r then mret (S steps, Returned) else step_loop fuel' userMessage (S steps)
  end.

Definition last_assistant (l : list message) : option message :=
  last (filter (λ m, m_role m = Assistant) l).

(** After the loop. *)
(* [src/backend/src/core/orchestrator.js:1029-1038] _executeRun, after the loop *)
Definition finish (steps maxS : nat) : L unit :=
  r ← get_run;
  if negb (terminal r) && negb (abort (ct r)) then
    if (maxS <=? steps)%nat then
      match last_assistant (messages (ct r)) with
      | Some m => completeL (m_content m)
      | None => throw (coded_exn "step_limit" "Step limit reached without a model response")
      end
    else completeL ""
  else mret tt.

(* [src/backend/src/core/orchestrator.js:971-986] _executeRun, entry *)
Definition enter (resume : bool) : L unit :=
  if resume then
    emitL EventType.PLANNING "Resuming from preserved state..." ;; transitionL EXECUTING
  else
    transitionL PLANNING ;; emitL EventType.TASK_STARTED "" ;; emitL EventType.PLANNING "Planning execution...".

(* [src/backend/src/core/orchestrator.js:961-1042] _executeRun *)
Definition executeRun (userMessage : string) (resume : bool) (startStep : nat) : L unit :=
  r ← get_run;
  let resume := resume && bool_decide (is_Some (ModelState.currentModel (model (rt r)))) in
  enter resume ;;
  spent ← ask (λ r, BudgetState.isBudgetExceeded (budget (rt r)));
  if spent : bool then throw (coded_exn "budget_exceeded" "Budget already exhausted")
  else
    when (negb resume)
      (transitionL CONTEXT_BUILD ;; buildContext ;;
       transitionL MODEL_SELECT ;; selectModel ;;
       transitionL EXECUTING) ;;
    set_ct (λ c, c <| runConfig ::= syncLegacyMaxSteps |>) ;;
    cfg ← ask config_of;
    let maxS := Z.to_nat (maxSteps cfg) in
    bump_total startStep ;;
    out ← step_loop (maxS - startStep) userMessage startStep;
    match out with
    | (steps, Exhausted) => finish steps maxS
    | (_, Returned) => mret tt
    end.

(** The promise of a started run: a failure fails the run, and [finally]. *)
(* [src/backend/src/core/orchestrator.js:893-898] startRun, completion *)
Definition attempt (userMessage : string) (resume : bool) (startStep : nat) (s : St) : St :=
  let '(s', out) := executeRun userMessage resume startStep s in
  let s' := match out with
            | inl _ => s'
            | inr x => s' <| the_run ::= failRun (now_at E (clock s')) (x_error x) |>
            end in
  s' <| the_run ::= settle |>.
End Loop.

(** * Reasoning about programs of the loop

    [spec R X m]: whatever state it starts in, [m] reaches a state related to it
    by [R], and throws only exceptions of [X]. With [R] a preorder the rules
    follow the structure of programs, so that one proof per program serves every
    [R] that its primitive steps respect. *)

(** A write that leaves alone what the loop steers by. *)
Record inner (r r' : run) : Prop := {
  in_quiet : quiet r r';
  in_abort : abort (ct r') = abort (ct r);
  in_config : runConfig (ct r') = runConfig (ct r);
  in_provider : providerId (ct r') = providerId (ct r);
  in_calls : toolCalls (ct r') = toolCalls (ct r);
  in_assist : heuristicToolUsed (ct r') = heuristicToolUsed (ct r);
}.

Section Spec.
Context (R : St → St → Prop) (X : exn → Prop).

Definition spec {A} (m : L A) : Prop := ∀ s, R s (m s).1 ∧ ∀ x, (m s).2 = inr x → X x.

Class Respects : Prop := {
  R_refl s : R s s;
  R_trans s1 s2 s3 : R s1 s2 → R s2 s3 → R s1 s3;
  R_upd s f : (∀ r, inner r (f r)) → R s (s <| the_run ::= f |>);
  R_sticky s m : R s (s <| sticky ::= m |>);
  X_coded c m : c ≠ "invalid_transition"%string → X (coded_exn c m);
}.

(** What the services do must be covered too. *)
Class Covers (E : env) : Prop := {
  R_await s : R s (s <| clock ::= S |>
    <| the_run ::= λ r, foldl (apply_ext (now_at E (clock s))) r (ext_at E (clock s)) |>);
  X_env k x : fails_at E k = Some x → X x;
  X_adapter x : adapter E = Some x → X x;
}.
Context `{!Respects}.

Lemma spec_ret {A} (a : A) : spec (mret a).
Proof. intros s. split; [apply R_refl|done]. Qed.

Lemma spec_bind {A B} (m : L A) (f : A → L B) : spec m → (∀ a, spec (f a)) → spec (m ≫= f).
Proof.
  intros Hm Hf s. destruct (Hm s) as [H1 H2]. unfold mbind, L_bind.
  destruct (m s) as [s1 [a|x]]; [|split; [done|]; intros ? [= <-]; by apply H2].
  destruct (Hf a s1) as [H3 H4]. split; [by eapply R_trans|done].
Qed.

Lemma spec_get {A} (f : St → A) : spec (get f).
Proof. intros s. split; [apply R_refl|done]. Qed.

Lemma spec_throw {A} x : X x → spec (A := A) (throw x).
Proof. intros Hx s. split; [apply R_refl|]. by intros ? [= <-]. Qed.

Lemma spec_coded {A} c m : c ≠ "invalid_transition"%string → spec (A := A) (throw (coded_exn c m)).
Proof. intros. by apply spec_throw, X_coded. Qed.

Lemma spec_upd f : (∀ r, inner r (f r)) → spec (upd f).
Proof. intros Hf s. split; [by apply R_upd|done]. Qed.

Lemma spec_set_ct f :
  (∀ c, machine (f c) = machine c ∧ abort (f c) = abort c ∧ runConfig (f c) = runConfig c ∧
        providerId (f c) = providerId c ∧ toolCalls (f c) = toolCalls c ∧
        heuristicToolUsed (f c) = heuristicToolUsed c) →
  spec (set_ct f).
Proof.
  intros Hf. apply spec_upd. intros r. destruct (Hf (ct r)) as (? & ? & ? & ? & ? & ?).
  by repeat constructor.
Qed.

Lemma spec_set_rt f :
  (∀ s, status (f s) = status s ∧ TaskState.status (task (f s)) = TaskState.status (task s)) →
  spec (set_rt f).
Proof. intros Hf. apply spec_upd. intros r. destruct (Hf (rt r)) as (? & ?). by repeat constructor. Qed.

Lemma spec_emit t d : is_end (Event t d) = false → spec (emitL t d).
Proof.
  intros Ht. apply spec_upd. intros r. do 2 (constructor; try done). rewrite ends_emit, Ht. lia.
Qed.

Lemma spec_await E `{!Covers E} {A} (f : nat → A) : spec (await E f).
Proof.
  intros s. unfold await. cbv zeta.
  pose proof (R_await (E := E) s) as Hr.
  change (s <| clock := S (clock s) |>) with (s <| clock ::= S |>).
  destruct (fails_at E (clock s)) as [x|] eqn:Hx; (split; [exact Hr|]); [|done].
  intros ? [= <-]. by eapply X_env.
Qed.

Lemma spec_catch {A} (m : L A) h : spec m → (∀ x, X x → spec (h x)) → spec (catch m h).
Proof.
  intros Hm Hh s. destruct (Hm s) as [H1 H2]. unfold catch.
  destruct (m s) as [s1 [a|x]]; [by split|].
  destruct (Hh x (H2 x eq_refl) s1) as [H3 H4]. split; [by eapply R_trans|done].
Qed.

Lemma spec_each {A} (f : A → L unit) l : (∀ x, spec (f x)) → spec (each f l).
Proof. intros Hf. induction l; simpl; [apply spec_ret|by apply spec_bind]. Qed.

Lemma spec_record_switch (m : manager → manager) :
  spec (λ s, (s <| sticky ::= m |>, inl tt) : St * (unit + exn)).
Proof. intros s. split; [apply R_sticky|done]. Qed.
End Spec.
#[export] Hint Mode Respects ! ! : typeclass_instances.
#[export] Hint Mode Covers ! ! ! : typeclass_instances.

(** One rule per construct; named programs by their lemmas. *)
Ltac rule l := apply l;
  lazymatch goal with |- Respects _ _ => apply _ | |- Covers _ _ _ => apply _ | _ => idtac end.
Ltac spec_step :=
  match goal with
  | |- spec _ _ (mret _) => rule spec_ret
  | |- spec _ _ (_ ≫= _) => rule spec_bind; [|intros ?]
  | |- spec _ _ (throw (coded_exn _ _)) => rule spec_coded; done
  | |- spec _ _ (throw _) => rule spec_throw
  | |- spec _ _ (get _) => rule spec_get
  | |- spec _ _ (ask _) => rule spec_get
  | |- spec _ _ get_run => rule spec_get
  | |- spec _ _ aborted => rule spec_get
  | |- spec _ _ ended_or_aborted => rule spec_get
  | |- spec _ _ (tick _) => rule spec_get
  | |- spec _ _ (set_ct _) => assumption || (rule spec_set_ct; try done)
  | |- spec _ _ (set_rt _) => rule spec_set_rt; try done
  | |- spec _ _ (emitL _ _) => rule spec_emit; try done
  | |- spec _ _ (await _ _) => rule spec_await
  | |- spec _ _ (catch _ _) => rule spec_catch; [|intros ? ?]
  | |- spec _ _ (each _ _) => rule spec_each; intros ?
  | |- spec _ _ (λ s, (assign sticky _ _, inl tt)) => rule spec_record_switch
  | |- spec _ _ (when ?b _) => unfold when
  | |- spec _ _ (let _ := _ in _) => cbv zeta
  | |- spec _ _ (if ?b then _ else _) => destruct b
  | |- spec _ _ (match ?x with _ => _ end) => destruct x eqn:?
  end.
Ltac spec_tac := repeat (spec_step || solve [auto with spec nocore]).
Create HintDb spec.
#[export] Hint Extern 0 (Respects _ _) => apply _ : spec.
#[export] Hint Extern 0 (Covers _ _ _) => apply _ : spec.

Section Programs.
Context (E : env) (R : St → St → Prop) (X : exn → Prop) {H : Respects R X} {HC : Covers R X E}.

Lemma spec_contextCall : spec R X (contextCall E).
Proof using H HC. unfold contextCall. spec_tac. Qed.
Lemma spec_searchMemory : spec R X (searchMemory E).
Proof using H HC. unfold searchMemory. spec_tac. Qed.
#[local] Hint Resolve spec_contextCall spec_searchMemory : spec.

Lemma spec_buildContext : spec R X (buildContext E).
Proof using H HC. unfold buildContext. spec_tac. Qed.
Lemma spec_buildPrompt : spec R X (buildPrompt E).
Proof using H HC. unfold buildPrompt. spec_tac. Qed.
Lemma spec_choose_model now m why def : spec R X (choose_model now m why def).
Proof using H. unfold choose_model. spec_tac. Qed.
Lemma spec_adopt def : spec R X (adopt def).
Proof using H. unfold adopt. spec_tac. Qed.
#[local] Hint Resolve spec_buildContext spec_buildPrompt spec_choose_model spec_adopt : spec.

Lemma spec_selectModel : spec R X (selectModel E).
Proof using H HC. unfold selectModel. spec_tac. Qed.
Lemma spec_applyModelSwitch m c why f : spec R X (applyModelSwitch E m c why f).
Proof using H HC. unfold applyModelSwitch. spec_tac. Qed.
#[local] Hint Resolve spec_selectModel spec_applyModelSwitch : spec.

Lemma spec_handleBudgetExceeded : spec R X (handleBudgetExceeded E).
Proof using H HC. unfold handleBudgetExceeded. spec_tac. Qed.
Lemma spec_failover why ex : spec R X (failover E why ex).
Proof using H HC. unfold failover. spec_tac. Qed.
Lemma spec_failoverLargerContext : spec R X (failoverLargerContext E).
Proof using H HC. unfold failoverLargerContext. spec_tac. Qed.
Lemma spec_markModelUnavailable : spec R X (markModelUnavailable E).
Proof using H HC. unfold markModelUnavailable. spec_tac. Qed.
Lemma spec_compress : spec R X (compress E).
Proof using H HC. unfold compress. spec_tac. Qed.
Lemma spec_resolve_def : spec R X (resolve_def E).
Proof using H HC. unfold resolve_def. spec_tac. Qed.
#[local] Hint Resolve spec_handleBudgetExceeded spec_failover spec_failoverLargerContext
  spec_markModelUnavailable spec_compress spec_resolve_def : spec.

Lemma spec_fit_prompt def : spec R X (fit_prompt E def).
Proof using H HC. unfold fit_prompt. spec_tac. Qed.
Lemma spec_budget_guard def t : spec R X (budget_guard E def t).
Proof using H HC. unfold budget_guard. spec_tac. Qed.
Lemma spec_record_call now : spec R X (record_call now).
Proof using H. unfold record_call. spec_tac. Qed.
#[local] Hint Resolve spec_fit_prompt spec_budget_guard spec_record_call : spec.

Lemma spec_cached_answer now m : spec R X (cached_answer now m).
Proof using H. unfold cached_answer. spec_tac. Qed.
Lemma spec_semantic_lookup c : spec R X (semantic_lookup E c).
Proof using H HC. unfold semantic_lookup. spec_tac. Qed.
Lemma spec_after_response rs c : spec R X (after_response E rs c).
Proof using H HC. unfold after_response, charge. spec_tac. by destruct (rs_cached rs). Qed.
Lemma spec_markInFlight t k : spec R X (markInFlight E t k).
Proof using H HC. unfold markInFlight. spec_tac. Qed.
Lemma spec_markSettled o : spec R X (markSettled o).
Proof using H. unfold markSettled. spec_tac. Qed.
Lemma spec_say w t : spec R X (say w t).
Proof using H. unfold say. spec_tac. Qed.
Lemma spec_bump n : spec R X (bump_total n).
Proof using H. unfold bump_total. spec_tac. Qed.
Lemma spec_recordRetry : spec R X recordRetry.
Proof using H. unfold recordRetry. spec_tac. Qed.
#[local] Hint Resolve spec_recordRetry : spec.

Lemma spec_model_error x : X x → spec R X (model_error E x).
Proof using H HC. intros Hx. unfold model_error. spec_tac; try done. Qed.
Lemma spec_handleOptimization t : spec R X (handleOptimization E t).
Proof using H HC. unfold handleOptimization. spec_tac. Qed.
#[local] Hint Resolve spec_handleOptimization : spec.
Lemma spec_checkOptimizationTriggers : spec R X (checkOptimizationTriggers E).
Proof using H HC. unfold checkOptimizationTriggers. spec_tac. Qed.
End Programs.

Lemma spec_assoc R X `{!Respects R X} {A B} (m1 : L unit) (m2 : L A) (f : A → L B) :
  spec R X (m1 ;; m2) → (∀ a, spec R X (f a)) → spec R X (m1 ;; x ← m2; f x).
Proof.
  intros H1 H2. pose proof (spec_bind R X _ f H1 H2) as H3. intros s. specialize (H3 s).
  revert H3. unfold mbind, L_bind. by destruct (m1 s) as [? [|]].
Qed.

#[export] Hint Resolve spec_contextCall spec_buildContext spec_selectModel spec_resolve_def spec_fit_prompt
  spec_budget_guard spec_semantic_lookup spec_after_response spec_markInFlight spec_model_error
  spec_checkOptimizationTriggers spec_record_call spec_cached_answer spec_markSettled spec_say
  spec_bump : spec.

(** Programs that ask the provider, or the tools, for something. *)
Section Asking.
Context (E : env) (R : St → St → Prop) (X : exn → Prop) {H : Respects R X} {HC : Covers R X E}.
Context (D_provider : ∀ def, spec R X (provider_call E def)).

Lemma spec_callModel c : spec R X (callModel E c).
Proof using H HC D_provider. unfold callModel, use_prompt. spec_tac; try done. by eapply (X_adapter R). Qed.

Context (D_tool : ∀ t k, spec R X (markInFlight E t k ;; execute_tool E t k)).
Context (D_count : spec R X (set_ct (λ c, c <| toolCalls ::= S |>))).

Lemma spec_dispatch step c : spec R X (dispatch E step c).
Proof using H HC D_tool D_count.
  unfold dispatch. apply (spec_bind R X); [done|intros _]. spec_step; [spec_tac|].
  cbv zeta. rule spec_assoc; [apply D_tool|intros ?]. spec_tac.
Qed.

Context (D_assist : spec R X (set_ct (λ c, c <| heuristicToolUsed := true |>))).
Context (D_trans : ∀ to, TERMINAL to = false → to ≠ RETRYING → spec R X (transitionL E to)).
Context (D_observing : spec R X (toObservingL E)).
#[local] Hint Resolve spec_callModel spec_dispatch : spec.
#[local] Hint Extern 0 (spec _ _ (transitionL _ _)) => apply D_trans; done : spec.

Lemma spec_tool_rounds g step m : spec R X (tool_rounds E g step m).
Proof using H HC D_provider D_tool D_count D_trans D_observing.
  revert m. induction g; intros m; simpl; spec_tac.
Qed.

Lemma spec_assist u step m : spec R X (assist E u step m).
Proof using H HC D_provider D_tool D_count D_assist D_trans D_observing.
  unfold assist. destruct (mr_calls m), (heuristicToolCall u) as [[tool params]|]; try (spec_tac; fail).
  spec_step; [spec_tac|]. spec_step; [|spec_tac].
  do 5 (spec_step; [by spec_tac|]).
  rule spec_assoc; [apply D_tool|intros ?]. spec_tac.
Qed.

Context (D_step : ∀ n, spec R X (observe (λ _, OStep n))).
Context (D_complete : ∀ sum, spec R X (completeL E sum)).
Context (D_cancelled : ∀ why, spec R X (cancelledL E why)).
Context (D_sync : spec R X (set_ct (λ c, c <| runConfig ::= syncLegacyMaxSteps |>))).
#[local] Hint Resolve spec_tool_rounds spec_assist spec_handleBudgetExceeded : spec.

Lemma spec_conclude step m : spec R X (conclude E step m).
Proof using H HC D_trans D_observing D_complete. unfold conclude. spec_tac. Qed.
#[local] Hint Resolve spec_conclude : spec.

Lemma spec_executeStep u step : spec R X (executeStep E u step).
Proof using H HC D_provider D_tool D_count D_assist D_trans D_observing D_step D_complete.
  unfold executeStep. spec_tac.
Qed.
#[local] Hint Resolve spec_executeStep : spec.

Lemma spec_step_loop fuel u n : spec R X (step_loop E fuel u n).
Proof using H HC D_provider D_tool D_count D_assist D_trans D_observing D_step D_complete D_cancelled.
  revert n. induction fuel; intros n; simpl; spec_tac.
Qed.

Lemma spec_finish n m : spec R X (finish E n m).
Proof using H HC D_complete. unfold finish. spec_tac. Qed.
#[local] Hint Resolve spec_step_loop spec_finish : spec.

Lemma spec_executeRun u resume n : spec R X (executeRun E u resume n).
Proof using H HC D_provider D_tool D_count D_assist D_trans D_observing D_step D_complete D_cancelled D_sync.
  unfold executeRun, enter. spec_tac.
Qed.
End Asking.

(** * The loop lives by the rules of the run's life *)
Definition lives (s s' : St) : Prop := rtc life (the_run s) (the_run s').
Definition any_exn (x : exn) : Prop := True.

Lemma ext_lives now l r : rtc life r (foldl (apply_ext now) r l).
Proof.
  revert r. induction l as [|x l IH]; intros r; [apply rtc_refl|]. simpl.
  etrans; [|apply IH].
  destruct x; simpl; [apply rtc_once, life_request|apply rtc_once, life_force| |
    apply pause_life|apply hold_life|apply resume_life].
  destruct (deadline (ct r)); [apply rtc_once, life_deadline|apply rtc_refl].
Qed.

#[export] Instance lives_respects : Respects lives any_exn.
Proof.
  constructor; try done.
  - intros s. apply rtc_refl.
  - intros s1 s2 s3. unfold lives. apply transitivity.
  - intros s f Hf. apply rtc_once, life_quiet. by destruct (Hf (the_run s)).
  - intros s m. apply rtc_refl.
Qed.
#[export] Instance lives_covers E : Covers lives any_exn E.
Proof. constructor; try done. intros s. apply ext_lives. Qed.

Lemma lives_transition E to : TERMINAL to = false → to ≠ RETRYING → spec lives any_exn (transitionL E to).
Proof.
  intros H1 H2 s. unfold transitionL. destruct (transition _ to _) as [r|e] eqn:Ht; (split; [|done]).
  - by apply rtc_once, (life_trans _ (now_at E (clock s)) to).
  - apply rtc_refl.
Qed.

Lemma lives_observing E : spec lives any_exn (toObservingL E).
Proof.
  intros s. unfold toObservingL. destruct (toObserving _ _) as [r|e] eqn:Ht; (split; [|done]); [|apply rtc_refl].
  unfold toObserving in Ht. unfold lives. cbn [the_run].
  change (the_run ((s <| the_run := r |>, @inl unit exn tt).1)) with r.
  case_decide as Hd.
  - destruct (transition (now_at E (clock s)) EXECUTING (the_run s)) as [r1|e] eqn:E1; [|done].
    eapply rtc_l; [by apply (life_trans _ (now_at E (clock s)) EXECUTING)|].
    by apply rtc_once, (life_trans _ (now_at E (clock s)) OBSERVING).
  - by apply rtc_once, (life_trans _ (now_at E (clock s)) OBSERVING).
Qed.

Lemma lives_complete E sum : spec lives any_exn (completeL E sum).
Proof.
  intros s. unfold completeL. destruct (completeRun _ sum _) as [r|e] eqn:Ht; (split; [|done]); [|apply rtc_refl].
  by apply rtc_once, (life_complete _ (now_at E (clock s)) sum).
Qed.

Lemma lives_quiet f : (∀ r, quiet r (f r)) → spec lives any_exn (upd f).
Proof. intros Hf s. split; [|done]. apply rtc_once, life_quiet, Hf. Qed.

Lemma lives_observe o : spec lives any_exn (observe o).
Proof. intros s. split; [apply rtc_refl|done]. Qed.

Lemma lives_execute_tool E t k : spec lives any_exn (execute_tool E t k).
Proof.
  unfold execute_tool. rule spec_bind; [apply lives_observe|intros _]. spec_tac.
Qed.

(** Every program of the loop is a sequence of life steps. *)
Lemma executeRun_lives E u resume n : spec lives any_exn (executeRun E u resume n).
Proof.
  apply (spec_executeRun E lives any_exn).
  - intros def. unfold provider_call. spec_step; [spec_tac|].
    rule spec_bind; [apply lives_observe|intros _]. spec_tac.
  - intros t k. rule spec_bind; [rule spec_markInFlight|intros _; apply lives_execute_tool].
  - by apply lives_quiet.
  - by apply lives_quiet.
  - apply lives_transition.
  - apply lives_observing.
  - intros k. apply lives_observe.
  - apply lives_complete.
  - intros why s. split; [|done]. apply rtc_once, life_cancelled.
  - by apply lives_quiet.
Qed.
