(* ===== verification/LoopSafety.v ===== *)
(** What every execution of the step loop guarantees, whatever the services
    answer and whatever happens to the run meanwhile: it settles (a run is never
    left active by a loop that has returned), it is bounded, and a tool is only
    dispatched with its effect recorded as in flight. *)

From S2P Require Import Prelude JsMap JsValue Text Types Number RuntimeState RunConfig Switching StateMachine Recovery PolicyEngine Orchestrator OrchestratorLoop.

Import TaskStatus.
Local Open Scope Z_scope.
Local Open Scope js_scope.

(** ** Weakest preconditions over the loop monad *)

Definition wp {A} (m : L A) (Q : A → St → Prop) (QX : exn → St → Prop) (s : St) : Prop :=
  match m s with (s', inl a) => Q a s' | (s', inr x) => QX x s' end.

Lemma wp_ret {A} (a : A) Q QX s : Q a s → wp (mret a) Q QX s.
Proof. done. Qed.

Lemma wp_bind {A B} (m : L A) (f : A → L B) Q QX s :
  wp m (λ a s', wp (f a) Q QX s') QX s → wp (m ≫= f) Q QX s.
Proof. unfold wp, mbind, L_bind. by destruct (m s) as [s' [a|x]]. Qed.

Lemma wp_get {A} (f : St → A) Q QX s : Q (f s) s → wp (get f) Q QX s.
Proof. done. Qed.

Lemma wp_throw {A} x (Q : A → St → Prop) QX s : QX x s → wp (throw x) Q QX s.
Proof. done. Qed.

Lemma wp_catch {A} (m : L A) h Q QX s :
  wp m Q (λ x s', wp (h x) Q QX s') s → wp (catch m h) Q QX s.
Proof. unfold wp, catch. by destruct (m s) as [s' [a|x]]. Qed.

Lemma wp_mono {A} (m : L A) (Q Q' : A → St → Prop) (QX QX' : exn → St → Prop) s :
  wp m Q QX s → (∀ a s', Q a s' → Q' a s') → (∀ x s', QX x s' → QX' x s') → wp m Q' QX' s.
Proof. unfold wp. destruct (m s) as [s' [a|x]]; auto. Qed.

(** A program described by a relation. *)
Lemma wp_spec {A} R X (m : L A) Q QX s : spec R X m →
  (∀ a s', R s s' → Q a s') → (∀ x s', R s s' → X x → QX x s') → wp m Q QX s.
Proof.
  intros Hm H1 H2. destruct (Hm s) as [H3 H4]. unfold wp. destruct (m s) as [s' [a|x]]; simpl in *; auto.
Qed.

(** ** The loop settles the run *)

(** [n] attempts of the run ended before this one. *)
Section Settling.
Context (before : nat).

Definition ok (s : St) : Prop := life_from before (the_run s).
Definition settled (s : St) : Prop := terminal (the_run s) = true ∨ abort (ct (the_run s)) = true.

Lemma lives_ok s s' : lives s s' → ok s → ok s'.
Proof. intros H1 H2. exact (proj1 (life_trace _ _ _ H1 H2)). Qed.

Lemma wp_lives {A} (m : L A) s : spec lives any_exn m → ok s → wp m (λ _, ok) (λ _, ok) s.
Proof. intros Hm Hs. apply (wp_spec lives any_exn); [done|..]; intros; by eapply lives_ok. Qed.

Lemma ok_cases s : ok s →
  (registered (the_run s) = Live ∧ terminal (the_run s) = false) ∨
  (registered (the_run s) = Retired ∧ terminal (the_run s) = true).
Proof. apply live_or_retired. Qed.

Lemma failRun_ends now e r : life_from before r → terminal (failRun now e r) = true.
Proof.
  intros Hr. destruct (live_or_retired _ r Hr) as [[Hp Ht]|[Hp Ht]].
  - destruct (failRun_live now e r (lo_run _ _ Hr) Hp Ht) as [_ _ E _ _]. unfold terminal. rewrite E.
    by destruct (abort _).
  - destruct (ending_noop now e "" "" r Ht) as (-> & _). done.
Qed.

Lemma cancelledRun_ends now why r : life_from before r → terminal (cancelledRun now why r) = true.
Proof.
  intros Hr. destruct (live_or_retired _ r Hr) as [[Hp Ht]|[Hp Ht]].
  - destruct (cancelledRun_live now why r (lo_run _ _ Hr) Hp Ht) as [_ _ E _ _]. unfold terminal. by rewrite E.
  - destruct (ending_noop now (JsError None "") why "" r Ht) as (_ & -> & _). done.
Qed.

Lemma completeRun_ends now sum r r' : life_from before r → completeRun now sum r = Ok r' → terminal r' = true.
Proof.
  intros Hr Hc. destruct (live_or_retired _ r Hr) as [[Hp Ht]|[Hp Ht]].
  - destruct (completeRun_live now sum r (lo_run _ _ Hr) Hp Ht) as [C1 C2].
    destruct (decide (status (rt r) ∈ [EXECUTING; OBSERVING; WAITING_FOR_TOOL])) as [Hs|Hs].
    + destruct (C1 Hs) as (r1 & E & [_ _ E3 _ _]). rewrite Hc in E. injection E as <-.
      unfold terminal. by rewrite E3.
    + destruct (C2 Hs) as (e & E & _). by rewrite Hc in E.
  - destruct (ending_noop now (JsError None "") "" sum r Ht) as (_ & _ & E). rewrite Hc in E. by injection E as ->.
Qed.

Section Settles.
Context (E : env).

Lemma wp_complete sum s : ok s →
  wp (completeL E sum) (λ _ s', ok s' ∧ settled s') (λ _, ok) s.
Proof.
  intros Hs. pose proof (wp_lives (completeL E sum) s (lives_complete E sum) Hs) as H. revert H.
  unfold wp, completeL. destruct (completeRun _ sum _) as [r|e] eqn:Hc; [|done].
  intros H. split; [done|]. left. exact (completeRun_ends _ _ _ _ Hs Hc).
Qed.

Lemma wp_cancelled why s : ok s →
  wp (cancelledL E why) (λ _ s', ok s' ∧ settled s') (λ _ _, False) s.
Proof.
  intros Hs. unfold wp, cancelledL. split; [|left; exact (cancelledRun_ends _ _ _ Hs)].
  refine (lives_ok s _ _ Hs). apply rtc_once, life_cancelled.
Qed.

(** The programs of the loop that make no promise of their own. *)
Lemma lives_handleBudgetExceeded : spec lives any_exn (handleBudgetExceeded E).
Proof. rule spec_handleBudgetExceeded. Qed.
Lemma lives_bump n : spec lives any_exn (bump_total n).
Proof. rule spec_bump. Qed.
Lemma lives_triggers : spec lives any_exn (checkOptimizationTriggers E).
Proof. rule spec_checkOptimizationTriggers. Qed.

Lemma lives_provider_call def : spec lives any_exn (provider_call E def).
Proof.
  unfold provider_call. spec_step; [spec_tac|]. rule spec_bind; [apply lives_observe|intros _]. spec_tac.
Qed.
Lemma lives_tool t k : spec lives any_exn (markInFlight E t k ;; execute_tool E t k).
Proof. rule spec_bind; [rule spec_markInFlight|intros _; apply lives_execute_tool]. Qed.
Lemma lives_executeStep u n : spec lives any_exn (executeStep E u n).
Proof.
  rule spec_executeStep; [apply lives_provider_call|apply lives_tool|by apply lives_quiet|by apply lives_quiet|
    apply lives_transition|apply lives_observing|intros; apply lives_observe|apply lives_complete].
Qed.

Definition loop_post (out : nat * exit) (s : St) : Prop := ok s ∧ (out.2 = Returned → settled s).

(** Reading the run does not change it. *)
Lemma wp_read {A B} (f : St → A) (k : A → L B) Q QX s :
  wp (k (f s)) Q QX s → wp (x ← get f; k x) Q QX s.
Proof. intros H. by apply wp_bind, wp_get. Qed.

Lemma wp_step {A B} (m : L A) (k : A → L B) Q s : spec lives any_exn m → ok s →
  (∀ a s', ok s' → wp (k a) Q (λ _, ok) s') → wp (x ← m; k x) Q (λ _, ok) s.
Proof.
  intros Hm Hs Hk. apply wp_bind. eapply wp_mono; [by apply wp_lives|exact Hk|done].
Qed.

Lemma wp_abort_exit n s : ok s →
  wp (cancelledL E "cancelled during execution" ;; mret (n, Returned)) loop_post (λ _, ok) s.
Proof.
  intros Hs. apply wp_bind. eapply wp_mono; [by apply wp_cancelled|intros _ s' [? ?]; by split|done].
Qed.

Lemma wp_over_budget s : ok s →
  wp (if over_budget (the_run s) then
        switched ← handleBudgetExceeded E;
        if negb switched
        then throw (coded_exn "budget_exceeded" "Budget exceeded and no cheaper model available")
        else stop ← ended_or_aborted; mret (negb stop)
      else mret true) (λ go s', ok s' ∧ (go = false → settled s')) (λ _, ok) s.
Proof.
  intros Hs. destruct (over_budget _); [|by apply wp_ret].
  apply wp_step; [apply lives_handleBudgetExceeded|done|]. intros [|] s1 Hs1; [|by apply wp_throw].
  cbn [negb]. apply wp_read. apply wp_ret. split; [done|]. unfold settled.
  destruct (abort _), (terminal _); auto.
Qed.

Lemma wp_step_loop u fuel : ∀ n s, ok s → wp (step_loop E fuel u n) loop_post (λ _, ok) s.
Proof.
  induction fuel as [|fuel IH]; intros n s Hs; [by apply wp_ret|]. simpl.
  apply wp_read. destruct (abort _) eqn:Ha; [by apply wp_abort_exit|].
  apply wp_read. destruct (terminal _) eqn:Ht; [apply wp_ret; split; [done|by left]|].
  apply wp_bind. eapply wp_mono; [by apply wp_over_budget|intros [] s1 [Hs1 Hgo]|done]; simpl;
    [|apply wp_ret; split; auto].
  apply wp_step; [apply lives_bump|done|]. intros _ s2 Hs2.
  apply wp_step; [apply lives_executeStep|done|]. intros continue s3 Hs3.
  apply wp_step; [apply lives_triggers|done|]. intros _ s4 Hs4.
  destruct continue; simpl; [|by apply wp_ret].
  apply wp_read. destruct (abort (ct (the_run s4))) eqn:Ha4; [by apply wp_abort_exit|].
  apply wp_read. destruct (terminal (the_run s4)) eqn:Ht4; [apply wp_ret; split; [done|by left]|by apply IH].
Qed.

Lemma wp_finish n m s : ok s → wp (finish E n m) (λ _ s', ok s' ∧ settled s') (λ _, ok) s.
Proof.
  intros Hs. unfold finish. apply wp_read.
  destruct (terminal (the_run s)) eqn:Ht; cbn [negb andb]; [apply wp_ret; split; [done|by left]|].
  destruct (abort (ct (the_run s))) eqn:Ha; cbn [negb andb]; [apply wp_ret; split; [done|by right]|].
  destruct (m <=? n)%nat; [|by apply wp_complete].
  destruct (last_assistant _); [by apply wp_complete|by apply wp_throw].
Qed.

Lemma lives_enter resume : spec lives any_exn (enter E resume).
Proof. unfold enter. destruct resume; spec_tac; by apply lives_transition. Qed.
Lemma lives_prepare :
  spec lives any_exn (transitionL E CONTEXT_BUILD ;; buildContext E ;;
    transitionL E MODEL_SELECT ;; selectModel E ;; transitionL E EXECUTING).
Proof. spec_tac; by apply lives_transition. Qed.

Lemma wp_executeRun u resume n s : ok s →
  wp (executeRun E u resume n) (λ _ s', ok s' ∧ settled s') (λ _, ok) s.
Proof.
  intros Hs. unfold executeRun. apply wp_read. cbv zeta.
  apply wp_step; [apply lives_enter|done|]. intros _ s1 Hs1.
  apply wp_read. destruct (BudgetState.isBudgetExceeded _); [by apply wp_throw|].
  apply wp_step; [unfold when; destruct (negb _); [apply lives_prepare|rule spec_ret]|done|]. intros _ s2 Hs2.
  apply wp_step; [by apply lives_quiet|done|]. intros _ s3 Hs3.
  apply wp_read. apply wp_step; [apply lives_bump|done|]. intros _ s4 Hs4.
  apply wp_bind. eapply wp_mono; [by apply wp_step_loop|intros [steps []] s5 [Hs5 Hr]|done].
  - apply wp_ret. auto.
  - by apply wp_finish.
Qed.
End Settles.
End Settling.

(** C5: a loop that returns leaves no active run. Take a run that is registered,
    consistent (machine, status and task agree; live exactly when not terminal)
    and carries the ending events of its [before] earlier attempts: a new run
    ([before = 0]) or one reopened by a retry or a continuation. For every
    behaviour of the services (answers, errors, delays) and every interleaving of
    cancellation requests and of the deadline with the awaits of the loop, an
    attempt - from the start or resumed at any step - leaves it consistent and
    either terminal (completed, failed or cancelled, in the history, with exactly
    one ending event more) or aborted, with no ending event of its own yet and
    its enforcement ([cancelRun]'s second half) still to come, which cancels it;
    no timer is left armed and the run is not marked as running. *)
Theorem attempt_settles E u resume n before s :
  life_from before (the_run s) →
  let r := the_run (attempt E u resume n s) in
  life_from before r ∧ rtc life (the_run s) r ∧ running (ct r) = false ∧ deadline (ct r) = None ∧
  (terminal r = true ∧ registered r = Retired ∧ ends r = S before ∨
   terminal r = false ∧ abort (ct r) = true ∧ ends r = before ∧
   ∀ now why, status (rt (cancel_force now why r)) = CANCELLED ∧ ends (cancel_force now why r) = S before).
Proof.
  intros Hs r.
  assert (life_from before r ∧ rtc life (the_run s) r ∧ (terminal r = true ∨ abort (ct r) = true)) as (Hr & Hl & Hend).
  { pose proof (wp_executeRun before E u resume n s Hs) as H.
    destruct (executeRun_lives E u resume n s) as [Hl _].
    subst r. unfold attempt. unfold wp in H.
    destruct (executeRun E u resume n s) as [s' [a|x]] eqn:He; cbn [fst] in Hl.
    - destruct H as [H1 H2]. set (r1 := the_run s').
      change (the_run (s' <| the_run ::= settle |>)) with (settle r1).
      assert (life r1 (settle r1)) as Hst by apply life_settle.
      split; [exact (proj1 (life_step _ _ _ Hst H1))|]. split; [by eapply rtc_r|]. exact H2.
    - set (r1 := failRun (now_at E (clock s')) (x_error x) (the_run s')).
      match goal with |- life_from _ ?a ∧ _ => change a with (settle r1) end.
      assert (life (the_run s') r1) as Hf by apply life_fail.
      assert (life r1 (settle r1)) as Hst by apply life_settle.
      pose proof (proj1 (life_step _ _ _ Hf H)) as H1.
      split; [exact (proj1 (life_step _ _ _ Hst H1))|]. split; [eapply rtc_r; [by eapply rtc_r|done]|].
      left. by apply (failRun_ends before (now_at E (clock s')) (x_error x)). }
  split; [done|]. split; [done|].
  assert (running (ct r) = false ∧ deadline (ct r) = None) as [-> ->].
  { subst r. unfold attempt. by destruct (executeRun E u resume n s) as [s' [a|x]]. }
  split; [done|]. split; [done|].
  destruct (live_or_retired _ r Hr) as [[Hp Ht]|[Hp Ht]].
  - right. destruct Hend as [?|Ha]; [congruence|]. split; [done|]. split; [done|].
    assert (ends r = before) as He by (rewrite (lo_ends _ _ Hr), Ht; lia).
    split; [done|]. intros now why.
    destruct (ended_force now why r (lo_run _ _ Hr) Hp Ht) as [_ _ E3 E4 _]. by rewrite E4, He.
  - left. split; [done|]. split; [done|]. rewrite (lo_ends _ _ Hr), Ht. lia.
Qed.

(** ** Bounds: what a loop can ask for *)

(** A price for each thing the loop asks of the outside. *)
Record prices := Prices { p_step : nat; p_provider : nat; p_tool : nat }.
Definition price (w : prices) (o : obs) : nat :=
  match o with OStep _ => p_step w | OProvider _ _ _ _ _ => p_provider w | OTool _ _ _ _ => p_tool w end.
Definition total (w : prices) (l : list obs) : nat := sum_list_with (price w) l.

Lemma total_app w l1 l2 : total w (l1 ++ l2) = (total w l1 + total w l2)%nat.
Proof. apply sum_list_with_app. Qed.

Section Costs.
Context (E : env) (w : prices).

Definition free (s s' : St) : Prop := total w (log s') = total w (log s).

#[export] Instance free_respects : Respects free any_exn.
Proof. constructor; unfold free; try done. intros. congruence. Qed.
#[export] Instance free_covers : Covers free any_exn E.
Proof. by constructor. Qed.

(** [m] asks for at most [n]. *)
Definition cost {A} (m : L A) (n : nat) : Prop := ∀ s, (total w (log (m s).1) <= total w (log s) + n)%nat.

Lemma cost_free {A} (m : L A) n : spec free any_exn m → cost m n.
Proof. intros H s. destruct (H s) as [H1 _]. unfold free in H1. lia. Qed.

Lemma cost_mono {A} (m : L A) n n' : cost m n → (n <= n')%nat → cost m n'.
Proof. intros H ? s. specialize (H s). lia. Qed.

Lemma cost_bind {A B} (m : L A) (f : A → L B) n1 n2 :
  cost m n1 → (∀ a, cost (f a) n2) → cost (m ≫= f) (n1 + n2).
Proof.
  intros H1 H2 s. specialize (H1 s). unfold mbind, L_bind. destruct (m s) as [s1 [a|x]]; simpl in *; [|lia].
  specialize (H2 a s1). lia.
Qed.

Lemma cost_after {A B} (m : L A) (f : A → L B) n :
  spec free any_exn m → (∀ a, cost (f a) n) → cost (m ≫= f) n.
Proof. intros H1 H2. apply (cost_bind m f 0 n); [by apply cost_free|done]. Qed.

Lemma cost_then {A B} (m : L A) (f : A → L B) n :
  cost m n → (∀ a, spec free any_exn (f a)) → cost (m ≫= f) n.
Proof. intros H1 H2. rewrite <-(Nat.add_0_r n). apply cost_bind; [done|]. intros a. by apply cost_free. Qed.

Lemma cost_catch {A} (m : L A) h n1 n2 : cost m n1 → (∀ x, cost (h x) n2) → cost (catch m h) (n1 + n2).
Proof.
  intros H1 H2 s. specialize (H1 s). unfold catch. destruct (m s) as [s1 [a|x]]; simpl in *; [lia|].
  specialize (H2 x s1). lia.
Qed.

Lemma cost_observe o n : (∀ s, price w (o s) = n) → cost (observe o) n.
Proof.
  intros Ho s. simpl. change (log (s <| log ::= λ l, l ++ [o s] |>)) with (log s ++ [o s]).
  rewrite total_app. simpl. rewrite Ho. lia.
Qed.

Lemma cost_each {A} (f : A → L unit) n l : (∀ x, cost (f x) n) → cost (each f l) (length l * n).
Proof. intros Hf. induction l; simpl; [apply cost_free; rule spec_ret|by apply cost_bind]. Qed.

Lemma free_transition to : spec free any_exn (transitionL E to).
Proof. intros s. unfold transitionL. by destruct (transition _ _ _). Qed.
Lemma free_observing : spec free any_exn (toObservingL E).
Proof. intros s. unfold toObservingL. by destruct (toObserving _ _). Qed.
Lemma free_complete sum : spec free any_exn (completeL E sum).
Proof. intros s. unfold completeL. by destruct (completeRun _ _ _). Qed.
Lemma free_cancelled why : spec free any_exn (cancelledL E why).
Proof. done. Qed.
Lemma free_upd f : spec free any_exn (upd f).
Proof. done. Qed.
#[local] Hint Resolve free_transition free_observing free_complete free_cancelled : spec.

#[local] Ltac cost_step :=
  match goal with
  | |- cost (_ ≫= _) _ => apply cost_after; [solve [spec_tac]|intros ?]
  | |- cost (let _ := _ in _) _ => cbv zeta
  | |- cost (if ?b then _ else _) _ => destruct b
  | |- cost (match ?x with _ => _ end) _ => destruct x
  | |- cost _ _ => apply cost_free; solve [spec_tac]
  end.

Lemma cost_provider_call def : cost (provider_call E def) (p_provider w).
Proof. unfold provider_call. cost_step. apply cost_then; [by apply cost_observe|intros ?]. spec_tac. Qed.

Lemma cost_callModel c : cost (callModel E c) (p_provider w).
Proof.
  unfold callModel, use_prompt. repeat cost_step.
  - apply cost_free. by rule spec_throw.
  - apply cost_then; [apply cost_provider_call|intros ?]. spec_tac.
Qed.

Lemma cost_execute_tool t k : cost (execute_tool E t k) (p_tool w).
Proof. unfold execute_tool. apply cost_then; [by apply cost_observe|intros ?]. spec_tac. Qed.

Lemma free_count : spec free any_exn (set_ct (λ c, c <| toolCalls ::= S |>)).
Proof. done. Qed.
#[local] Hint Resolve free_count : spec.

Lemma cost_dispatch step c : cost (dispatch E step c) (p_tool w).
Proof.
  unfold dispatch. apply cost_after; [exact free_count|intros _].
  repeat cost_step. apply cost_then; [apply cost_execute_tool|intros ?]. spec_tac.
Qed.

Lemma cost_tool_rounds step g : ∀ m,
  cost (tool_rounds E g step m) (g * (3 * p_tool w + p_provider w)).
Proof.
  induction g as [|g IH]; intros m; simpl; [repeat cost_step|].
  destruct (mr_calls m) as [|c0 l]; [apply cost_free; rule spec_ret|].
  repeat cost_step.
  rewrite <-Nat.add_assoc. apply cost_bind.
  { eapply cost_mono; [apply cost_each, cost_dispatch|]. rewrite length_take. nia. }
  intros _. repeat cost_step. by apply cost_bind; [apply cost_callModel|].
Qed.

Lemma cost_assist u step m : cost (assist E u step m) (p_tool w + p_provider w).
Proof.
  unfold assist. destruct (mr_calls m), (heuristicToolCall u) as [[tool params]|]; try (apply cost_free; rule spec_ret).
  cost_step. cost_step; [|apply cost_free; rule spec_ret].
  apply cost_after; [done|intros _]. do 2 cost_step.
  apply cost_after; [exact free_count|intros _]. do 2 cost_step.
  apply cost_bind; [apply cost_execute_tool|intros ?].
  repeat cost_step. apply cost_callModel.
Qed.

Lemma free_conclude step m : spec free any_exn (conclude E step m).
Proof. rule spec_conclude; [intros; apply free_transition|apply free_observing|apply free_complete]. Qed.

Definition step_price : nat := p_step w + (6 * p_provider w + 13 * p_tool w).

Lemma cost_executeStep u step : cost (executeStep E u step) step_price.
Proof.
  unfold executeStep, step_price. do 3 cost_step.
  apply cost_bind; [by apply cost_observe|intros _].
  apply (cost_mono _ (p_provider w + (4 * (3 * p_tool w + p_provider w) + (p_tool w + p_provider w)))); [|lia].
  apply cost_bind.
  { rewrite <-(Nat.add_0_r (p_provider w)). apply cost_catch.
    - apply cost_then; [apply cost_callModel|intros ?]. rule spec_ret.
    - intros x. apply cost_free. spec_step; [by rule spec_model_error|spec_tac]. }
  intros [m|b]; [|apply cost_free; rule spec_ret].
  apply cost_bind; [apply cost_tool_rounds|]. intros [m'|]; [|apply cost_free; rule spec_ret].
  cost_step. cost_step; [apply cost_free; spec_tac|].
  apply cost_then; [apply cost_assist|intros ?]. apply free_conclude.
Qed.

Lemma free_handleBudgetExceeded : spec free any_exn (handleBudgetExceeded E).
Proof. rule spec_handleBudgetExceeded. Qed.
#[local] Hint Resolve free_handleBudgetExceeded : spec.

Lemma cost_step_loop u fuel : ∀ n, cost (step_loop E fuel u n) (fuel * step_price).
Proof.
  induction fuel as [|fuel IH]; intros n; simpl; [apply cost_free; rule spec_ret|].
  do 2 cost_step; [apply cost_free; spec_tac|]. do 2 cost_step; [apply cost_free; spec_tac|].
  do 2 cost_step; [apply cost_free; spec_tac|]. cost_step.
  apply cost_bind; [apply cost_executeStep|intros continue].
  cost_step. cost_step; [apply cost_free; spec_tac|]. do 2 cost_step; [apply cost_free; spec_tac|].
  do 2 cost_step; [apply cost_free; spec_tac|]. apply IH.
Qed.
End Costs.

(** ** What the loop steers by is only changed where the loop says so *)
Record steered (r r' : run) : Prop := {
  st_config : runConfig (ct r') = runConfig (ct r);
  st_provider : providerId (ct r') = providerId (ct r);
  st_calls : toolCalls (ct r') = toolCalls (ct r);
  st_assist : heuristicToolUsed (ct r') = heuristicToolUsed (ct r);
}.
#[export] Instance steered_preorder : PreOrder steered.
Proof. split; [done|]. intros r1 r2 r3 [A1 A2 A3 A4] [B1 B2 B3 B4]. constructor; congruence. Qed.

Lemma steered_transition now to r r' : transition now to r = Ok r' → steered r r'.
Proof.
  unfold transition. case_decide; [done|]. case_decide; [by intros [= <-]|].
  destruct (orch_transition _ _ _ _); [|done]. by intros [= <-].
Qed.
Lemma steered_observing now r r' : toObserving now r = Ok r' → steered r r'.
Proof.
  unfold toObserving. case_decide.
  - destruct (transition now EXECUTING r) as [r1|] eqn:E1; [|done]. intros E2.
    etrans; by eapply steered_transition.
  - apply steered_transition.
Qed.
Lemma steered_retire r : steered r (retire r).
Proof. unfold retire. by case_decide. Qed.
Lemma steered_ends now r to t d :
  steered r (retire (emit t d (match transition now to r with Ok r' => r' | Throw _ => force now to r end))).
Proof.
  etrans; [|apply steered_retire]. destruct (transition now to r) as [r'|] eqn:E; [|done].
  pose proof (steered_transition _ _ _ _ E) as [A1 A2 A3 A4]. by constructor.
Qed.
Lemma steered_cancelled now why r : steered r (cancelledRun now why r).
Proof.
  unfold cancelledRun. destruct (terminal r); [done|]. destruct (negb _); [done|]. apply steered_ends.
Qed.
Lemma steered_fail now e r : steered r (failRun now e r).
Proof.
  unfold failRun. destruct (terminal r); [done|]. destruct (negb _); [done|].
  destruct (abort _); [apply steered_cancelled|]. cbv zeta.
  trans (budget_event (default "unknown" (err_code e)) r); [|apply steered_ends].
  unfold budget_event. by case_decide.
Qed.
Lemma steered_complete now sum r r' : completeRun now sum r = Ok r' → steered r r'.
Proof.
  unfold completeRun. destruct (terminal r); [by intros [= <-]|]. destruct (negb _); [by intros [= <-]|].
  intros H. assert (∀ r1, steered r r1 → transition now COMPLETED r1 ≫= (λ r,
      Ok (retire (emit EventType.RUN_COMPLETED (slice0 500 sum)
        (r <| rt ::= λ s, s <| task ::= TaskState.updateProgress now (of_Z 1) |> |>)))) = Ok r' → steered r r') as Hk.
  { intros r1 H1 H2. destruct (transition now COMPLETED r1) as [r2|] eqn:E; [|done].
    injection H2 as <-. etrans; [exact H1|]. etrans; [by eapply steered_transition|].
    etrans; [|apply steered_retire]. done. }
  case_decide.
  - destruct (transition now EXECUTING r) as [r1|] eqn:E1; [|done].
    apply (Hk r1); [by eapply steered_transition|exact H].
  - by apply (Hk r).
Qed.
Lemma steered_try now to r : steered r (try_transition now to r).
Proof.
  unfold try_transition. destruct (transition now to r) eqn:E; [by eapply steered_transition|done].
Qed.
Lemma steered_emit t d r r' : steered r r' → steered r (emit t d r').
Proof. intros []. by constructor. Qed.
Lemma steered_resume now r : steered r (resume_move now r).
Proof.
  unfold resume_move. case_decide; [|done]. cbv zeta. apply steered_emit.
  assert (∀ r1, steered r r1 → steered r (if decide (getState (machine (ct r1)) = RESUMING ∨
    getState (machine (ct r1)) = PAUSED) then try_transition now EXECUTING r1 else r1)) as H1.
  { intros r1 Hr1. case_decide; [|done]. etrans; [exact Hr1|apply steered_try]. }
  apply H1. repeat case_decide; [apply steered_try|apply steered_try|done].
Qed.
Lemma steered_ext now r x : steered r (apply_ext now r x).
Proof.
  destruct x; simpl.
  - unfold cancel_request. by destruct (_ || _).
  - unfold cancel_force. etrans; [apply steered_cancelled|done].
  - destruct (deadline _); [|done]. unfold deadline_fires. etrans; [|apply steered_fail]. done.
  - unfold pause_move. case_decide; [apply steered_emit, steered_try|done].
  - unfold hold_move. case_decide; [apply steered_emit, steered_try|done].
  - apply steered_resume.
Qed.
Lemma steered_exts now l r : steered r (foldl (apply_ext now) r l).
Proof. revert r. induction l; intros r; [done|]. simpl. etrans; [apply steered_ext|done]. Qed.

Definition tools_only : prices := Prices 0 0 1.

Section Kept.
Context (E : env) (w : prices).

(** Nothing of what the loop steers by has changed, and nothing was asked for. *)
Definition kept (s s' : St) : Prop := steered (the_run s) (the_run s') ∧ free w s s'.

#[export] Instance kept_respects : Respects kept any_exn.
Proof.
  constructor; unfold kept, free; try done.
  - intros s1 s2 s3 [A1 A2] [B1 B2]. split; [by etrans|congruence].
  - intros s f Hf. split; [|done]. by destruct (Hf (the_run s)).
Qed.
#[export] Instance kept_covers : Covers kept any_exn E.
Proof. constructor; try done. intros s. split; [|done]. apply steered_exts. Qed.

Lemma kept_transition to : spec kept any_exn (transitionL E to).
Proof.
  intros s. unfold transitionL. destruct (transition _ _ _) as [r|] eqn:H; (split; [|done]); [|done].
  split; [|done]. by eapply steered_transition.
Qed.
Lemma kept_observing : spec kept any_exn (toObservingL E).
Proof.
  intros s. unfold toObservingL. destruct (toObserving _ _) as [r|] eqn:H; (split; [|done]); [|done].
  split; [|done]. by eapply steered_observing.
Qed.
Lemma kept_complete sum : spec kept any_exn (completeL E sum).
Proof.
  intros s. unfold completeL. destruct (completeRun _ _ _) as [r|] eqn:H; (split; [|done]); [|done].
  split; [|done]. by eapply steered_complete.
Qed.
Lemma kept_cancelled why : spec kept any_exn (cancelledL E why).
Proof. intros s. split; [|done]. split; [|done]. apply steered_cancelled. Qed.
End Kept.

Section Budget.
Context (E : env).

Lemma kept_observe o : (∀ s, price tools_only (o s) = 0%nat) → spec (kept tools_only) any_exn (observe o).
Proof.
  intros Ho s. split; [|done]. split; [done|]. unfold free. simpl.
  change (log (s <| log ::= λ l, l ++ [o s] |>)) with (log s ++ [o s]).
  rewrite total_app. simpl. rewrite Ho. lia.
Qed.
Lemma kept_provider def : spec (kept tools_only) any_exn (provider_call E def).
Proof. unfold provider_call. spec_step; [spec_tac|]. rule spec_bind; [by apply kept_observe|intros _]. spec_tac. Qed.
Lemma kept_callModel c : spec (kept tools_only) any_exn (callModel E c).
Proof. rule spec_callModel. apply kept_provider. Qed.
Lemma kept_conclude step m : spec (kept tools_only) any_exn (conclude E step m).
Proof. rule spec_conclude; [intros; apply kept_transition|apply kept_observing|apply kept_complete]. Qed.
#[local] Hint Resolve kept_transition kept_observing kept_complete kept_cancelled kept_callModel
  kept_conclude : spec.

Context (M : Z) (c0 : nat).
Definition unused (r : run) : nat := if heuristicToolUsed (ct r) then 0 else 1.

(** [k] bounds the calls made, with the assist kept in reserve. *)
Definition used (k : nat) (s : St) : Prop :=
  maxToolCalls (config_of E (the_run s)) = M ∧
  (total tools_only (log s) + c0 <= toolCalls (ct (the_run s)))%nat ∧
  (toolCalls (ct (the_run s)) + unused (the_run s) <= k)%nat.

Lemma used_kept k s s' : kept tools_only s s' → used k s → used k s'.
Proof.
  unfold used, free, unused, config_of. intros [[A1 A2 A3 A4] B] (C1 & C2 & C3).
  unfold free in B. rewrite A1, A2, A3, A4, B. done.
Qed.
Lemma used_le k k' s : used k s → (k <= k')%nat → used k' s.
Proof. intros (? & ? & ?) ?. repeat split; [done..|lia]. Qed.

Lemma wp_kept {A B} (m : L A) (f : A → L B) k k' Q s : spec (kept tools_only) any_exn m → used k s → (k <= k')%nat →
  (∀ a s', used k s' → wp (f a) Q (λ _, used k') s') → wp (x ← m; f x) Q (λ _, used k') s.
Proof.
  intros Hm Hs Hk Hf. apply wp_bind. apply (wp_spec (kept tools_only) any_exn); [done|..].
  - intros a s' Hr. by apply Hf, (used_kept k s).
  - intros x s' Hr _. by apply (used_le k); [apply (used_kept k s)|].
Qed.
Lemma wp_kept' {A} (m : L A) k k' s : spec (kept tools_only) any_exn m → used k s → (k <= k')%nat →
  wp m (λ _, used k) (λ _, used k') s.
Proof.
  intros Hm Hs Hk. apply (wp_spec (kept tools_only) any_exn); [done|..].
  - intros a s' Hr. by apply (used_kept k s).
  - intros x s' Hr _. by apply (used_le k); [apply (used_kept k s)|].
Qed.

(** Counting a call, then making it. *)
Definition counted (k : nat) (s : St) : Prop :=
  maxToolCalls (config_of E (the_run s)) = M ∧
  (total tools_only (log s) + c0 + 1 <= toolCalls (ct (the_run s)))%nat ∧
  (toolCalls (ct (the_run s)) + unused (the_run s) <= k)%nat.

Lemma counted_used k s : counted k s → used k s.
Proof. intros (? & ? & ?). repeat split; [done|lia..]. Qed.

Lemma counted_kept k s s' : kept tools_only s s' → counted k s → counted k s'.
Proof.
  unfold counted, unused, config_of. intros [[A1 A2 A3 A4] B] (C1 & C2 & C3).
  unfold free in B. rewrite A1, A2, A3, A4, B. done.
Qed.

Lemma wp_count k s : used k s →
  wp (set_ct (λ c, c <| toolCalls ::= S |>)) (λ _, counted (S k)) (λ _ _, False) s.
Proof.
  intros (H1 & H2 & H3). split; [exact H1|].
  change (total tools_only (log s) + c0 + 1 <= S (toolCalls (ct (the_run s))) ∧
    S (toolCalls (ct (the_run s))) + unused (the_run s) <= S k)%nat. lia.
Qed.

Lemma wp_use_assist k s : heuristicToolUsed (ct (the_run s)) = false → used (S k) s →
  wp (set_ct (λ c, c <| heuristicToolUsed := true |>)) (λ _, used k) (λ _ _, False) s.
Proof.
  intros Hh (H1 & H2 & H3). unfold unused in H3. rewrite Hh in H3. split; [exact H1|].
  change (total tools_only (log s) + c0 <= toolCalls (ct (the_run s)) ∧
    toolCalls (ct (the_run s)) + 0 <= k)%nat. lia.
Qed.

Lemma wp_call {A} k t key (f : tool_outcome → L A) Q s : counted k s →
  (∀ o s', used k s' → wp (f o) Q (λ _, used k) s') →
  wp (markInFlight E t key ;; o ← execute_tool E t key; f o) Q (λ _, used k) s.
Proof.
  intros Hs Hf. apply wp_bind. apply (wp_spec (kept tools_only) any_exn); [rule spec_markInFlight|..].
  2: { intros x s' Hr _. by apply counted_used, (counted_kept k s). }
  intros _ s1 Hr. pose proof (counted_kept k s s1 Hr Hs) as (H1 & H2 & H3). apply wp_bind.
  unfold execute_tool. apply wp_bind. unfold wp at 1, observe.
  set (s2 := s1 <| log ::= _ |>).
  assert (used k s2) as Hs2.
  { split; [exact H1|].
    change (the_run s2) with (the_run s1). split; [|exact H3].
    change (log s2) with (log s1 ++ [OTool t key (lastToolEffect (ct (the_run s1))) (signal_aborted (ct (the_run s1)))]).
    rewrite total_app. simpl. lia. }
  eapply wp_mono; [apply (wp_kept' _ k k); [spec_tac|exact Hs2|lia]|intros o s'; apply Hf|done].
Qed.

Lemma counted_kept_bind {A B} k (m : L A) (f : A → L B) Q s : spec (kept tools_only) any_exn m → counted k s →
  (∀ a s', counted k s' → wp (f a) Q (λ _, used k) s') → wp (x ← m; f x) Q (λ _, used k) s.
Proof.
  intros Hm Hs Hf. apply wp_bind. apply (wp_spec (kept tools_only) any_exn); [done|..].
  - intros a s' Hr. by apply Hf, (counted_kept k s).
  - intros x s' Hr _. by apply counted_used, (counted_kept k s).
Qed.

Lemma wp_dispatch k step c s : used k s →
  wp (dispatch E step c) (λ _, used (S k)) (λ _, used (S k)) s.
Proof.
  intros Hs. unfold dispatch. apply wp_bind. eapply wp_mono; [by apply (wp_count k)|intros [] s1 Hs1|done].
  apply wp_read. cbv zeta. apply wp_call; [done|intros o s2 Hs2].
  apply wp_kept'; [spec_tac|done|lia].
Qed.

Lemma wp_each step l : ∀ k s, used k s →
  wp (each (dispatch E step) l) (λ _, used (k + length l)) (λ _, used (k + length l)) s.
Proof.
  induction l as [|c l IH]; intros k s Hs; simpl; [apply wp_ret; by rewrite Nat.add_0_r|].
  rewrite <-Nat.add_succ_comm. apply wp_bind. eapply wp_mono; [by apply (wp_dispatch k)|intros [] s1; apply IH|].
  intros x s1 Hs1. apply (used_le (S k)); [done|lia].
Qed.

#[local] Ltac go_on k :=
  apply (wp_kept _ _ k); [spec_tac|done|lia|];
  let s := fresh "s" in let H := fresh "Hs" in intros ? s H.

(** The budget check precedes each batch of at most three. *)
Context (K : nat) (HK : (Z.to_nat M + 3 <= K)%nat).

Lemma wp_tool_rounds step g : ∀ m s, used K s → wp (tool_rounds E g step m) (λ _, used K) (λ _, used K) s.
Proof using HK.
  induction g as [|g IH]; intros m s Hs; simpl; [by apply wp_ret|].
  destruct (mr_calls m) as [|x l] eqn:Hm; [by apply wp_ret|]. rewrite <-Hm. clear x l Hm.
  apply wp_read. destruct (abort _); [by apply wp_ret|].
  pose proof Hs as (H1 & H2 & H3). destruct (_ <=? _) eqn:Hb; [by apply wp_throw|].
  apply Z.leb_gt in Hb. rewrite H1 in Hb.
  set (n := (toolCalls (ct (the_run s)) + unused (the_run s))%nat).
  assert (used n s) as Hn by (repeat split; [done..|lia]).
  assert (n + 3 <= K)%nat as Hk by (unfold n, unused; destruct (heuristicToolUsed _); lia).
  cbv zeta. clearbody n. clear Hs H1 H2 H3 Hb.
  do 3 go_on n.
  assert (n + length (take 3 (mr_calls m)) <= K)%nat as Hk' by (rewrite length_take; lia).
  apply wp_bind. eapply wp_mono; [by apply wp_each|intros [] s4 H4|].
  2: { intros x s4 H4. by apply (used_le _ K) in H4. }
  apply (used_le _ K) in H4; [|done].
  do 4 go_on K.
  by apply IH.
Qed.

Lemma wp_assist u step m s : used K s → wp (assist E u step m) (λ _, used K) (λ _, used K) s.
Proof using HK.
  intros Hs. unfold assist. apply wp_read.
  destruct (mr_calls m), (heuristicToolCall u) as [[tool params]|]; try by apply wp_ret.
  destruct (heuristicToolUsed _) eqn:Hh; [by apply wp_ret|]. destruct (step <=? 2)%nat; [|by apply wp_ret].
  cbn [negb andb]. destruct K as [|K']; [lia|].
  apply wp_bind. eapply wp_mono; [by apply (wp_use_assist K')|intros [] s1 H1|done].
  do 2 go_on K'.
  apply wp_bind. eapply wp_mono; [by apply (wp_count K')|intros [] s4 H4|done].
  apply counted_kept_bind; [spec_tac|done|]. intros _ s5 H5.
  apply wp_call; [done|intros o s6 H6]. do 5 go_on (S K').
  apply wp_kept'; [spec_tac|done|lia].
Qed.

Lemma wp_used_step {A B} (m : L A) (f : A → L B) Q s :
  wp m (λ _, used K) (λ _, used K) s → (∀ a s', used K s' → wp (f a) Q (λ _, used K) s') →
  wp (x ← m; f x) Q (λ _, used K) s.
Proof. intros Hm Hf. apply wp_bind. by eapply wp_mono; [exact Hm|exact Hf|]. Qed.

Lemma wp_executeStep_used u step s : used K s →
  wp (executeStep E u step) (λ _, used K) (λ _, used K) s.
Proof using HK.
  intros Hs. unfold executeStep. do 3 go_on K.
  apply (wp_kept _ _ K); [by apply kept_observe|done|lia|]. intros _ s4 H4.
  apply wp_used_step.
  { apply wp_kept'; [|done|lia]. apply spec_catch; [apply _|spec_tac|intros x _]. 
    spec_step; [by rule spec_model_error|spec_tac]. }
  intros [m|b] s5 H5; [|by apply wp_ret].
  apply wp_used_step; [by apply wp_tool_rounds|]. intros [m'|] s6 H6; [|by apply wp_ret].
  apply wp_read. destruct (abort _).
  - do 2 go_on K. by apply wp_ret.
  - apply wp_used_step; [by apply wp_assist|]. intros m2 s7 H7. apply wp_kept'; [spec_tac|done|lia].
Qed.

Lemma wp_step_loop_used u fuel : ∀ n s, used K s →
  wp (step_loop E fuel u n) (λ _, used K) (λ _, used K) s.
Proof using HK.
  induction fuel as [|fuel IH]; intros n s Hs; [by apply wp_ret|]. simpl.
  apply wp_read. destruct (abort _); [apply wp_kept'; [spec_tac|done|lia]|].
  apply wp_read. destruct (terminal _); [by apply wp_ret|].
  apply (wp_kept _ _ K); [spec_tac; rule spec_handleBudgetExceeded|done|lia|]. intros go s1 H1.
  destruct go; [|by apply wp_ret]. cbn [negb]. go_on K.
  apply wp_used_step; [by apply wp_executeStep_used|]. intros continue s2 H2. go_on K.
  destruct continue; [|by apply wp_ret]. cbn [negb]. apply wp_read.
  destruct (abort _); [apply wp_kept'; [spec_tac|done|lia]|].
  apply wp_read. destruct (terminal _); [by apply wp_ret|by apply IH].
Qed.
End Budget.

(** ** The run as a whole *)

(** The configuration an attempt works under. *)
Definition run_config (E : env) (r : run) : resolved :=
  config_of E (r <| ct ::= λ c, c <| runConfig ::= syncLegacyMaxSteps |> |>).

Lemma sync_maxToolCalls c p g :
  maxToolCalls (runConfigFor (Some (syncLegacyMaxSteps c)) p g) = maxToolCalls (runConfigFor (Some c) p g).
Proof. destruct c as [[r|] [n|]]; done. Qed.

Lemma run_config_steered E r r' : steered r r' → run_config E r' = run_config E r.
Proof.
  intros [A1 A2 _ _]. unfold run_config, config_of.
  change (runConfigFor (Some (syncLegacyMaxSteps (runConfig (ct r')))) (providerId (ct r')) (globals E) =
    runConfigFor (Some (syncLegacyMaxSteps (runConfig (ct r)))) (providerId (ct r)) (globals E)).
  by rewrite A1, A2.
Qed.

Section Run.
Context (E : env).
#[local] Hint Resolve kept_transition kept_complete kept_cancelled free_complete : spec.

Definition syncL : L unit := set_ct (λ c, c <| runConfig ::= syncLegacyMaxSteps |>).

Lemma kept_trans w s1 s2 s3 : kept w s1 s2 → kept w s2 s3 → kept w s1 s3.
Proof. apply (R_trans (kept w) any_exn). Qed.

(** Up to the loop nothing is asked of the outside; the loop runs under
    [run_config]. *)
Lemma executeRun_split w u resume n (Q : unit → St → Prop) P s :
  (∀ s', kept w s s' → P s') →
  (∀ s2, kept w s s2 →
     let m := Z.to_nat (maxSteps (run_config E (the_run s))) in
     wp (syncL ;; bump_total n ;; out ← step_loop E (m - n) u n;
         match out with (steps, Exhausted) => finish E steps m | (_, Returned) => mret tt end) Q (λ _, P) s2) →
  wp (executeRun E u resume n) Q (λ _, P) s.
Proof.
  intros HP HQ. unfold executeRun. apply wp_read. cbv zeta. apply wp_bind.
  apply (wp_spec (kept w) any_exn); [unfold enter; destruct (_ && _); spec_tac|..].
  2: { intros x s' Hk _. by apply HP. }
  intros _ s1 H1. apply wp_read. destruct (BudgetState.isBudgetExceeded _); [apply wp_throw; by apply HP|].
  apply wp_bind. apply (wp_spec (kept w) any_exn); [unfold when; destruct (_ && _); spec_tac|..].
  2: { intros x s' Hk _. apply HP. by eapply (kept_trans w). }
  intros _ s2 H2. assert (kept w s s2) as Hk by (by eapply (kept_trans w)).
  specialize (HQ s2 Hk). cbv zeta in HQ.
  rewrite <-(run_config_steered E _ _ (proj1 Hk)) in HQ. exact HQ.
Qed.

Lemma cost_wp {A} w (m : L A) k s : cost w m k →
  wp m (λ _ s', total w (log s') <= total w (log s) + k)%nat (λ _ s', total w (log s') <= total w (log s) + k)%nat s.
Proof. intros H. specialize (H s). unfold wp. by destruct (m s) as [s' [a|x]]. Qed.

Lemma executeRun_cost w u resume n s :
  let k := ((Z.to_nat (maxSteps (run_config E (the_run s))) - n) * step_price w)%nat in
  wp (executeRun E u resume n) (λ _ s', total w (log s') <= total w (log s) + k)%nat
     (λ _ s', total w (log s') <= total w (log s) + k)%nat s.
Proof.
  intros k. apply (executeRun_split w).
  - intros s' [_ H]. unfold free in H. lia.
  - intros s2 [_ H]. unfold free in H. cbv zeta. rewrite <-H. apply cost_wp.
    apply cost_after; [by intros ?|intros _]. apply cost_after; [rule spec_bump|intros _].
    apply cost_then; [apply cost_step_loop|]. intros [steps []].
    + rule spec_ret.
    + unfold finish. spec_tac.
Qed.

Lemma wp_executeRun_used u resume n s :
  let K := Nat.max (S (toolCalls (ct (the_run s)))) (Z.to_nat (maxToolCalls (run_config E (the_run s))) + 3) in
  let I := used E (maxToolCalls (run_config E (the_run s))) (toolCalls (ct (the_run s))) K in
  total tools_only (log s) = 0%nat →
  wp (executeRun E u resume n) (λ _, I) (λ _, I) s.
Proof.
  intros K I Hlog.
  assert (used E (maxToolCalls (run_config E (the_run s))) (toolCalls (ct (the_run s))) K s) as Hs.
  { split; [|split].
    - unfold run_config, config_of. symmetry. apply sync_maxToolCalls.
    - lia.
    - unfold unused, K. destruct (heuristicToolUsed _); lia. }
  apply (executeRun_split tools_only).
  - intros s' Hk. by eapply used_kept.
  - intros s2 Hk. cbv zeta. pose proof (used_kept _ _ _ _ _ _ Hk Hs) as Hs2.
    apply wp_bind. unfold wp at 1, syncL, set_ct, upd. set (s3 := s2 <| the_run ::= _ |>).
    assert (used E (maxToolCalls (run_config E (the_run s))) (toolCalls (ct (the_run s))) K s3) as Hs3.
    { destruct Hs2 as (A1 & A2 & A3). split; [|by split]. rewrite <-A1. apply sync_maxToolCalls. }
    eapply wp_kept; [rule spec_bump|exact Hs3|lia|]. intros _ s4 Hs4.
    apply wp_used_step; [apply wp_step_loop_used; [lia|exact Hs4]|]. intros [steps []] s5 Hs5; [by apply wp_ret|].
    eapply wp_kept'; [unfold finish; spec_tac|exact Hs5|lia].
Qed.
End Run.

(** What [attempt] adds to the loop's log: nothing. *)
Lemma attempt_log E u resume n s : log (attempt E u resume n s) = log (executeRun E u resume n s).1.
Proof. unfold attempt. by destruct (executeRun E u resume n s) as [s' [a|x]]. Qed.

Lemma attempt_wp E u resume n (P : St → Prop) s :
  wp (executeRun E u resume n) (λ _, P) (λ _, P) s → P (executeRun E u resume n s).1.
Proof. unfold wp. by destruct (executeRun E u resume n s) as [s' [a|x]]. Qed.

(** C6: a run is bounded whatever its model and its services answer. An attempt
    that starts at step [n] takes at most [maxSteps - n] steps; each step makes
    at most six provider requests (one, four continuations, one after the
    heuristic assist) and thirteen tool dispatches; and over the whole attempt
    the tool calls, those of earlier attempts included, stay within
    [maxToolCalls + 3] unless the earlier attempts had already passed it: the
    budget is checked before each batch of three, so it can be exceeded by two,
    and the heuristic assist is one more that is never checked. *)
Theorem loop_bounded E u resume n s :
  log s = [] →
  let cfg := run_config E (the_run s) in
  let steps := (Z.to_nat (maxSteps cfg) - n)%nat in
  let l := log (attempt E u resume n s) in
  let c0 := toolCalls (ct (the_run s)) in
  (total (Prices 1 0 0) l <= steps)%nat ∧
  (total (Prices 0 1 0) l <= 6 * steps)%nat ∧
  (total (Prices 0 0 1) l <= 13 * steps)%nat ∧
  (c0 + total (Prices 0 0 1) l <= Nat.max (S c0) (Z.to_nat (maxToolCalls cfg) + 3))%nat.
Proof.
  intros Hl cfg steps l c0. subst l. rewrite attempt_log.
  assert (∀ w, total w (log (executeRun E u resume n s).1) <= steps * step_price w)%nat as H.
  { intros w. pose proof (attempt_wp _ _ _ _ _ _ (executeRun_cost E w u resume n s)) as H. simpl in H.
    rewrite Hl in H. exact H. }
  split; [|split; [|split]].
  - specialize (H (Prices 1 0 0)). unfold step_price in H. simpl in H. lia.
  - specialize (H (Prices 0 1 0)). unfold step_price in H. simpl in H. lia.
  - specialize (H (Prices 0 0 1)). unfold step_price in H. simpl in H. lia.
  - assert (total tools_only (log s) = 0%nat) as H0 by (by rewrite Hl).
    destruct (attempt_wp _ _ _ _ _ _ (wp_executeRun_used E u resume n s H0)) as (_ & H2 & H3).
    change tools_only with (Prices 0 0 1) in *. unfold c0, cfg. lia.
Qed.

(** ** A crash during a tool call *)

(** The run's record names the tool, its key, and says in flight. *)
Definition recorded (o : obs) : Prop :=
  match o with
  | OTool t k e _ => ∃ x, e = Some x ∧ te_tool x = Some t ∧ te_idempotencyKey x = k ∧
      te_state x = SideEffectState.value SideEffectState.IN_FLIGHT
  | _ => True
  end.

Definition records (s s' : St) : Prop := ∃ l, log s' = log s ++ l ∧ Forall recorded l.

#[export] Instance records_respects : Respects records any_exn.
Proof.
  constructor; try done.
  - intros s. exists []. by rewrite app_nil_r.
  - intros s1 s2 s3 (l1 & E1 & H1) (l2 & E2 & H2). exists (l1 ++ l2). split; [|by apply Forall_app].
    by rewrite E2, E1, app_assoc.
  - intros s f _. exists []. by rewrite app_nil_r.
  - intros s m. exists []. by rewrite app_nil_r.
Qed.
#[export] Instance records_covers E : Covers records any_exn E.
Proof. constructor; try done. intros s. exists []. by rewrite app_nil_r. Qed.

Lemma records_same {A} (m : L A) : (∀ s, log (m s).1 = log s) → spec records any_exn m.
Proof. intros H s. split; [|done]. exists []. rewrite app_nil_r. split; [apply H|constructor]. Qed.
Lemma records_observe o : (∀ s, recorded (o s)) → spec records any_exn (observe o).
Proof. intros H s. split; [|done]. exists [o s]. split; [done|]. by constructor. Qed.

Lemma markInFlight_marks E t k s s1 : markInFlight E t k s = (s1, inl tt) →
  ∃ cls, lastToolEffect (ct (the_run s1)) = Some (mark t k cls).
Proof.
  unfold markInFlight, mbind, L_bind. destruct (ask _ s) as [s0 [c|x]]; [|done].
  lazymatch goal with |- match ?m with _ => _ end = _ → _ => destruct m as [s2 [cls|x]] end; [|done].
  intros [= <-]. by exists cls.
Qed.

Lemma records_tool E t k : spec records any_exn (markInFlight E t k ;; execute_tool E t k).
Proof.
  intros s. assert (spec records any_exn (markInFlight E t k)) as Hm by rule spec_markInFlight.
  destruct (Hm s) as [H1 _]. unfold mbind, L_bind.
  destruct (markInFlight E t k s) as [s1 [[]|x]] eqn:Em; [|by split].
  destruct (markInFlight_marks E t k s s1 Em) as [cls Hc].
  split; [|done]. eapply (R_trans records any_exn); [exact H1|]. unfold execute_tool.
  set (rest := λ _ : unit, _).
  assert (∀ a, spec records any_exn (rest a)) as Hr by (intros a; subst rest; cbv beta; spec_tac).
  clearbody rest. unfold mbind, L_bind, observe. set (s2 := s1 <| log ::= _ |>).
  eapply (R_trans records any_exn); [|apply (Hr tt)].
  eexists [_]. split; [reflexivity|]. constructor; [|constructor]. simpl. eexists. split; [exact Hc|done].
Qed.

Lemma executeRun_records E u resume n : spec records any_exn (executeRun E u resume n).
Proof.
  apply (spec_executeRun E records any_exn).
  - intros def. unfold provider_call. spec_step; [spec_tac|]. rule spec_bind; [by apply records_observe|intros _].
    spec_tac.
  - apply records_tool.
  - by apply records_same.
  - by apply records_same.
  - intros. apply records_same. intros s. unfold transitionL. by destruct (transition _ _ _).
  - apply records_same. intros s. unfold toObservingL. by destruct (toObserving _ _).
  - intros. by apply records_observe.
  - intros. apply records_same. intros s. unfold completeL. by destruct (completeRun _ _ _).
  - intros. by apply records_same.
  - by apply records_same.
Qed.

(** C7: no tool runs behind the recovery's back. For every behaviour of the
    services and of the model, each time the loop hands a call to the tool
    executor, the run's control record already holds the effect of exactly that
    call (its tool, its idempotency key) as in flight; so a crash at that moment
    is never resolved as "nothing was running": without a proof of completion the
    recovery decides to retry exactly when the record carries the flags
    idempotent and not destructive and the workspace is not known to have
    changed, and marks the effect unknown otherwise. (The theorem is about the
    recorded flags, not about what the tool does: the code that records them
    classifies every tool of the registry as idempotent and not destructive.) *)
Theorem dispatch_recorded E u resume n s t k e a :
  log s = [] → OTool t k e a ∈ log (attempt E u resume n s) →
  ∃ x, e = Some x ∧ te_tool x = Some t ∧ te_idempotencyKey x = k ∧
    te_state x = SideEffectState.value SideEffectState.IN_FLIGHT ∧
    ∀ h h', (decideRecovery e false h h').1 =
      if negb (te_destructive x) && te_idempotent x && negb (both_differ h h')
      then RecoveryDecision.RETRY else RecoveryDecision.MARK_UNKNOWN.
Proof.
  rewrite attempt_log. intros Hl Hin.
  destruct (executeRun_records E u resume n s) as [(l & El & Hf) _].
  rewrite El, Hl in Hin. simpl in Hin.
  rewrite Forall_forall in Hf. destruct (Hf _ Hin) as (x & -> & Ht & Hk & Hs).
  exists x. repeat split; [done..|]. intros h h'. rewrite decideRecovery_in_doubt; [done|by left].
Qed.

(** ** A concrete run *)

Definition demo_model : model_def :=
  ModelDef "m1" (Some "p"%string) (Some "native-m1"%string) 64000 None (ModelState.Pricing nzero nzero nzero)
    None "healthy".

(** A model that asks for five tools in its first answer and then answers; it is
    called after the services of a live run answered. *)
Definition demo_env (max_tools : Z) : env :=
  Env (λ k, Z.of_nat k + 10) (λ _, []) (λ _, None) (λ _ c, c) (λ _, 0) (λ _, false)
    (λ _, [demo_model]) (λ _, Some demo_model) (λ _ _, Routed "m1" "only" ["m1"%string] false) (λ _, 100)
    (λ _, None) (λ _, None)
    (λ k, Response (if decide (k < 15)%nat then "looking" else "all done")
            (if decide (k < 15)%nat
             then [Call "1" "read_file" JNull; Call "2" "read_file" JNull; Call "3" "read_file" JNull; Call "4" "read_file" JNull]
             else []) [] 5 false)
    (λ _, ToolOutcome true None "ok" None) (λ _, Some (RiskView (Some "read_file"%string) (Some "low"%string)))
    (λ r t _ n, r ++ t)%string None None
    ((resolveRunConfig empty_layer empty_layer empty_layer) <| maxToolCalls := max_tools |>)
    (PolicyEngine.create (PolicyEngine.Options None None None None None None)).

(** A run whose configuration is the global one. *)
Definition demo_state : St :=
  MkSt (match startRun 2 (resolveRunConfig empty_layer empty_layer empty_layer) "look around" 
          (demo_run <| ct ::= λ c, c <| runConfig := CtrlConfig None None |> |>) with
        | Ok r => r | Throw _ => demo_run end) default_manager 0 [].
Definition demo_attempt (max_tools : Z) : St := attempt (demo_env max_tools) "look around" false 0 demo_state.

(** The check of the budget precedes a batch of three calls: a run that may call
    one tool calls three. *)
Example tool_budget_overrun :
  total (Prices 0 0 1) (log (demo_attempt 1)) = 3%nat ∧ toolCalls (ct (the_run (demo_attempt 1))) = 3%nat ∧
  maxToolCalls (run_config (demo_env 1) (the_run demo_state)) = 1 ∧ status (rt (the_run (demo_attempt 1))) = COMPLETED.
Proof. repeat split; vm_compute; reflexivity. Qed.

Lemma demo_state_ok : life_ok (the_run demo_state).
Proof.
  assert (life_ok (demo_run <| ct ::= λ c, c <| runConfig := CtrlConfig None None |> |>)) as H
    by (apply (quiet_ok 0 demo_run); [by constructor|apply fresh_ok]).
  refine (proj1 (life_step _ _ _ (life_start _ 2 (resolveRunConfig empty_layer empty_layer empty_layer) "look around" _ _) H)).
  vm_compute. reflexivity.
Qed.

(** The demo run failed, taken back to the live maps and reopened, as a retry
    does it. *)
Definition reopened_run : run :=
  match transition 5 RETRYING ((failRun 4 (JsError None "boom") (the_run demo_state)) <| registered := Live |>) with
  | Ok r => r <| ct ::= λ c, c <| running := true |> |>
  | Throw _ => demo_run
  end.
Definition reopened_state : St := MkSt reopened_run default_manager 0 [].

Lemma reopened_run_ok : life_from 1 reopened_run.
Proof. constructor; [by constructor|done|done|vm_compute; reflexivity]. Qed.

(** The first attempt, and the resumed attempt of a run that failed before. *)
Lemma attempt_settles_witness :
  running (ct (the_run (demo_attempt 1))) = false ∧
  ends (the_run (attempt (demo_env 1) "look around" true 1 reopened_state)) = 2%nat.
Proof.
  destruct (attempt_settles (demo_env 1) "look around" false 0 0 demo_state demo_state_ok) as (_ & _ & H2 & _).
  split; [exact H2|].
  destruct (attempt_settles (demo_env 1) "look around" true 1 1 reopened_state reopened_run_ok)
    as (_ & _ & _ & _ & [(_ & _ & H)|(H & _)]); [exact H|].
  exfalso. revert H. vm_compute. discriminate.
Defined.

Lemma loop_bounded_witness :
  log demo_state = [] ∧ (total (Prices 0 0 1) (log (demo_attempt 1)) <= 4)%nat.
Proof.
  split; [reflexivity|].
  destruct (loop_bounded (demo_env 1) "look around" false 0 demo_state eq_refl) as (_ & _ & _ & H).
  vm_compute in H |- *. exact H.
Defined.

Definition demo_effect : tool_effect :=
  ToolEffect "in_flight" (Some "read_file"%string) (Some "run-1read_file"%string) false true true.

Lemma dispatch_recorded_witness :
  ∃ x, Some demo_effect = Some x ∧ te_tool x = Some "read_file"%string.
Proof.
  destruct (dispatch_recorded (demo_env 1) "look around" false 0 demo_state "read_file"
    (Some "run-1read_file"%string) (Some demo_effect) false eq_refl) as (x & H1 & H2 & _).
  - vm_compute. do 2 right. left.
  - exists x. split; [exact H1|exact H2].
Defined.

(** A pause that arrives at the [k]-th await of the demo run, with what else
    happens there. *)
Definition paused_env (k : nat) (l : list ext) : env :=
  let E := demo_env 20 in
  Env (now_at E) (λ j, if decide (j = k) then l else []) (fails_at E) (context_at E) (reclaimed_at E) (memory_at E)
    (models_at E) (model_at E) (route_at E) (plan_at E) (cache_at E) (semantic_at E) (provider_at E) (tool_at E)
    (risk_at E) (key_for E) (adapter E) (adapter_default E) (globals E) (policy_config E).
Definition paused_attempt (k : nat) (l : list ext) : St := attempt (paused_env k l) "look around" false 0 demo_state.

(** A pause while the first provider call is awaited fails the run; one that a
    tool boundary settles and a resume ends there does not. *)
Example pause_during_provider_call_fails :
  status (rt (the_run (paused_attempt 12 [ExtPause]))) = FAILED ∧
  last (events (the_run (paused_attempt 12 [ExtPause]))) = Some (Event EventType.RUN_FAILED "invalid_transition") ∧
  status (rt (the_run (paused_attempt 18 [ExtPause; ExtHold; ExtResume]))) = COMPLETED.
Proof. repeat split; vm_compute; reflexivity. Qed.
