(* ===== verification/Registry.v ===== *)
(** The orchestrator's maps (backend/src/core/orchestrator.js): which runs are
    live, which are kept as history, and the operations that move a run between
    the two - registration, retirement with its bounded history, the two halves
    of a retry around the recovery evaluation, continuation and cleanup.

    The runtime state and the control record of a run are the [run] of
    Orchestrator, kept here in [objects] under the run's id; the maps hold ids.
    Where a run is registered is read off the maps ([place_of]), so what
    Orchestrator proves of one run is lifted to all of them by [view] and
    [commit]. *)

From S2P Require Import Prelude JsMap JsValue Types Number RuntimeState RunConfig StateMachine Recovery Orchestrator.

Import TaskStatus.
Local Open Scope Z_scope.
Local Open Scope js_scope.

(** [terminalRuns]'s values, less the two objects they point to. *)
(* [src/backend/src/core/orchestrator.js:2130-2130] terminal entry *)
Record retired_entry := Entry { endedAt : Z; endStatus : TaskStatus.t }.

(* [src/backend/src/core/orchestrator.js:141-150] activeRuns, runControl, terminalRuns, terminalOrder *)
Record registry := Registry {
  objects : gmap string run;
  activeRuns : list string;
  runControl : list string;
  terminalRuns : list (string * retired_entry);
  terminalOrder : list string;
  maxTerminalRetained : nat;
  maxConcurrentRuns : nat;
}.
#[export] Instance registry_eta : Eta registry := λ g,
  Registry (objects g) (activeRuns g) (runControl g) (terminalRuns g) (terminalOrder g)
    (maxTerminalRetained g) (maxConcurrentRuns g).

Definition empty_registry (retained concurrent : nat) : registry :=
  Registry ∅ [] [] [] [] retained concurrent.

(** A [Map]'s keys under [set] and [delete]. *)
Definition key_set (l : list string) (k : string) : list string :=
  if decide (k ∈ l) then l else l ++ [k].
Definition key_delete (l : list string) (k : string) : list string := filter (λ j, j ≠ k) l.

(** ** Readers *)

(* [src/backend/src/core/orchestrator.js:178-180] isActiveRun *)
Definition isActiveRun (g : registry) (id : string) : bool := bool_decide (id ∈ activeRuns g).

(* [src/backend/src/core/orchestrator.js:182-184] isTerminalRun *)
Definition isTerminalRun (g : registry) (id : string) : bool := mhas (terminalRuns g) id.

Definition place_of (g : registry) (id : string) : place :=
  if isActiveRun g id then Live else if isTerminalRun g id then Retired else Forgotten.

(** The run with the place where the maps have it. *)
Definition view (g : registry) (id : string) : option run :=
  (λ r, Run (rt r) (ct r) (place_of g id) (events r)) <$> objects g !! id.

(* [src/backend/src/core/orchestrator.js:164-176] control, liveControl, getRun *)
Definition getRun (g : registry) (id : string) : option run :=
  if decide (place_of g id = Forgotten) then None else view g id.

(* [src/backend/src/core/orchestrator.js:2430-2447] getActiveRuns *)
Definition getActiveRuns (g : registry) : list (string * string) :=
  omap (λ id, r ← objects g !! id; Some (id, frontendStatus (status (rt r)))) (activeRuns g).

(* [src/backend/src/core/orchestrator.js:2449-2456] getTerminalRuns *)
Definition getTerminalRuns (g : registry) : list (string * string * Z) :=
  (λ '(id, e), (id, frontendStatus (endStatus e), endedAt e)) <$> terminalRuns g.

(** ** Moving runs *)

(** The loop that bounds the history. *)
(* [src/backend/src/core/orchestrator.js:2133-2144] _retireRun, eviction *)
Fixpoint evict (max : nat) (id : string) (order : list string) (m : list (string * retired_entry))
    : list string * list (string * retired_entry) :=
  match order with
  | [] => ([], m)
  | oldest :: rest =>
      if decide (max < length order)%nat then
        evict max id rest
          (if mhas m oldest && negb (bool_decide (oldest = id)) then mdelete m oldest else m)
      else (order, m)
  end.

(* [src/backend/src/core/orchestrator.js:2119-2147] _retireRun *)
Definition retireRun (now : Z) (id : string) (g : registry) : registry :=
  match objects g !! id with
  | Some r =>
      if decide (id ∈ activeRuns g ∧ id ∈ runControl g) then
        let m := mset (terminalRuns g) id (Entry now (status (rt r))) in
        let '(order, m) := evict (maxTerminalRetained g) id (terminalOrder g ++ [id]) m in
        g <| objects ::= <[id := r <| ct ::= λ c, c <| deadline := None |> <| running := false |> |>]> |>
          <| activeRuns ::= λ l, key_delete l id |> <| runControl ::= λ l, key_delete l id |>
          <| terminalRuns := m |> <| terminalOrder := order |>
      else g
  | None => g
  end.

(** A write to the run's objects, and the retirement the operation ended with. *)
Definition commit (now : Z) (id : string) (r r' : run) (g : registry) : registry :=
  let g := g <| objects ::= <[id := r']> |> in
  if decide (registered r = Live ∧ registered r' = Retired) then retireRun now id g else g.

(** [createRun] up to its first [await]: the concurrency guard. *)
(* [src/backend/src/core/orchestrator.js:429-437] createRun, guard *)
Definition create_guard (g : registry) : res unit :=
  if decide (maxConcurrentRuns g <= length (activeRuns g))%nat then
    Throw (coded "busy" ("Too many concurrent runs (" ++ string_of_Z (Z.of_nat (length (activeRuns g))) ++ "/"
      ++ string_of_Z (Z.of_nat (maxConcurrentRuns g)) ++ ")"))
  else Ok tt.

(** The rest of [createRun], after the [await] for the tool catalogue. *)
(* [src/backend/src/core/orchestrator.js:522-563] createRun, registration *)
Definition create_register (now : Z) (id : string) (s : RuntimeState) (m : string) (provider : option string)
    (cfg : resolved) (g : registry) : registry :=
  g <| objects ::= <[id := emit EventType.TASK_CREATED "" (fresh_run now s m provider cfg)]> |>
    <| activeRuns ::= λ l, key_set l id |> <| runControl ::= λ l, key_set l id |>.

(* [src/backend/src/core/orchestrator.js:2458-2470] cleanupRun *)
Definition cleanupRun (id : string) (g : registry) : registry :=
  g <| objects ::= alter disarm id |>
    <| activeRuns ::= λ l, key_delete l id |> <| runControl ::= λ l, key_delete l id |>
    <| terminalRuns ::= λ m, mdelete m id |> <| terminalOrder ::= λ l, key_delete l id |>.

(** ** Retry *)

Definition with_ctrl (id : string) (f : ctrl → ctrl) (g : registry) : registry :=
  g <| objects ::= alter (λ r, r <| ct ::= f |>) id |>.

(** Back from the history to the live maps. *)
(* [src/backend/src/core/orchestrator.js:2311-2314] _retryRunInner, resurrect *)
Definition resurrect (id : string) (g : registry) : registry :=
  g <| terminalRuns ::= λ m, mdelete m id |> <| terminalOrder ::= λ l, key_delete l id |>
    <| activeRuns ::= λ l, key_set l id |> <| runControl ::= λ l, key_set l id |>.

Definition over_budget (r : run) : bool := BudgetState.isBudgetExceeded (budget (rt r)).

(** The guards of a live run's retry; [true] when recovery is to be evaluated. *)
(* [src/backend/src/core/orchestrator.js:2316-2328] _retryRunInner, guards *)
Definition retry_guards (id : string) (g : registry) : registry * bool :=
  match objects g !! id with
  | Some r =>
      if negb (isActiveRun g id) then (g, false)
      else if negb (bool_decide (id ∈ runControl g)) || negb (bool_decide (status (rt r) = FAILED)) then (g, false)
      else if running (ct r) then (g, false)
      else if over_budget r then
        (g <| objects ::= alter (emit EventType.RUN_FAILED "budget_exceeded") id |>, false)
      else (g <| objects ::= alter (emit EventType.EXECUTION_RECOVERY_STARTED "") id |>, true)
  | None => (g, false)
  end.

(** [_retryRunInner] up to its [await]. *)
(* [src/backend/src/core/orchestrator.js:2302-2328] _retryRunInner, up to recover *)
Definition retry_inner (id : string) (g : registry) : registry * bool :=
  match mget (terminalRuns g) id, objects g !! id with
  | Some e, Some r =>
      if negb (bool_decide (endStatus e = FAILED)) then (g, false)
      else if over_budget r then (g, false)
      else retry_guards id (resurrect id g)
  | _, _ => retry_guards id g
  end.

(** [finally]: the flag is cleared where the run can still be found. *)
(* [src/backend/src/core/orchestrator.js:2294-2299] retryRun, finally *)
Definition retry_finally (id : string) (g : registry) : registry :=
  if decide (place_of g id = Forgotten) then g
  else with_ctrl id (λ c, c <| recoveryInProgress := false |>) g.

(* [src/backend/src/core/orchestrator.js:2286-2300] retryRun *)
Definition retry_begin (id : string) (g : registry) : registry * bool :=
  match getRun g id with
  | Some r =>
      if recoveryInProgress (ct r) then (g, false)
      else
        let '(g', pending) := retry_inner id (with_ctrl id (λ c, c <| recoveryInProgress := true |>) g) in
        if pending then (g', true) else (retry_finally id g', false)
  | None => (g, false)
  end.

(** What [recoveryService.recover] comes back with. *)
Inductive evaluation := Threw | Plan (action : string) (cursor : option nat).

(* [src/backend/src/core/orchestrator.js:2354-2354] blocked actions *)
Definition blocks (e : evaluation) : bool :=
  match e with
  | Threw => true
  | Plan a _ => bool_decide (a ∈ ["ask_user"; "mark_unknown"; "unrecoverable"])%string
  end.

Definition supersede (e : tool_effect) : tool_effect :=
  if is_state e SideEffectState.IN_FLIGHT
  then ToolEffect (SideEffectState.value SideEffectState.UNKNOWN) (te_tool e) (te_idempotencyKey e)
         (te_destructive e) (te_idempotent e) (te_retryable e)
  else e.

(** The run, resumed. *)
(* [src/backend/src/core/orchestrator.js:2372-2406] _retryRunInner, resume *)
Definition resume_run (now : Z) (global : resolved) (action : string) (r : run) : run :=
  let r := match transition now RETRYING r with
           | Ok r' => r'
           | Throw _ => r <| rt ::= RuntimeState.updateStatus now RETRYING |>
           end in
  let r := r <| ct ::= λ c, c <| abort := false |> <| signal_aborted := false |> <| retries := 0%nat |>
               <| lastToolEffect ::= fmap supersede |> |> in
  let r := emit EventType.EXECUTION_RETRY action (emit EventType.EXECUTION_RECOVERED action r) in
  armDeadline now global (r <| ct ::= λ c, c <| running := true |> |>).

(** The loop the retry starts: user message, resume, first step. *)
(* [src/backend/src/core/orchestrator.js:2366-2408] _retryRunInner, launch *)
Definition launch_of (cursor : option nat) (r : run) : string * bool * nat :=
  let cursor := default (ExecutionState.currentStep (execution (rt r))) cursor in
  let hasModel := truthy (ModelState.currentModel (model (rt r))) in
  (or_str (lastUserMessage (ct r)) (TaskState.objective (task (rt r))), hasModel,
   if hasModel then cursor else 0%nat).

(* [src/backend/src/core/orchestrator.js:2340-2412] _retryRunInner, after recover *)
Definition retry_end (now : Z) (global : resolved) (id : string) (o : evaluation) (g : registry)
    : registry * option (string * bool * nat) :=
  match view g id with
  | None => (g, None)
  | Some r =>
      match o with
      | Plan a cursor =>
          if blocks o then
            (retry_finally id (g <| objects ::= alter (emit EventType.EXECUTION_RECOVERY_BLOCKED a) id |>), None)
          else
            let r' := resume_run now global a r in
            (retry_finally id (g <| objects ::= <[id := r']> |>), Some (launch_of cursor r))
      | Threw =>
          (retry_finally id (g <| objects ::= alter (emit EventType.EXECUTION_RECOVERY_BLOCKED "") id |>), None)
      end
  end.

(** ** Continuing a run

    The execution controller continues a run of any end as a new episode; this
    is its part that moves and reopens the run, the episodes are in Session. *)

(** A terminal run is reopened; the machine is reset when RETRYING is refused. *)
(* [src/backend/src/execution/controller.js:611-616] continueRun, reopen *)
Definition reopen (now : Z) (r : run) : run :=
  if terminal r then
    match Orchestrator.transition now RETRYING r with
    | Ok r' => r'
    | Throw _ => r <| rt ::= RuntimeState.updateStatus now RETRYING |>
                   <| ct ::= λ c, c <| machine ::= λ m, StateMachine.reset m RETRYING now |> |>
    end
  else r.

(** Back from the history, abort state re-armed; [None]: busy. *)
(* [src/backend/src/execution/controller.js:581-595] continueRun, resurrect *)
Definition bring_back (id : string) (g : registry) : option registry :=
  if negb (isActiveRun g id) && isTerminalRun g id then
    match objects g !! id with
    | Some r =>
        if running (ct r) then None
        else Some (with_ctrl id (λ c, c <| abort := false |> <| signal_aborted := false |> <| running := false |>)
               (resurrect id g))
    | None => Some g
    end
  else Some g.

(** [newId] is the id of the new episode. A terminal run is brought back and
    reopened, then started with the message; a running one is left alone. *)
(* [src/backend/src/execution/controller.js:581-620] continueRun, the registry *)
Definition continue_registry (now : Z) (global : resolved) (newId msg id : string) (g : registry) : registry :=
  match bring_back id g with
  | None => g
  | Some g =>
      match getRun g id with
      | None => g
      | Some r =>
          if running (ct r) then g
          else
            let r := reopen now (emit EventType.EPISODE_STARTED newId r) in
            g <| objects ::= <[id := match startRun now global msg r with Ok r' => r' | Throw _ => r end]> |>
      end
  end.

(** * What can happen to the registry *)

(** Only the retry writes [recoveryInProgress]; [create_register] takes a fresh
    random id. A continuation of a run whose recovery is being evaluated is not a
    step: the code does not exclude it, and what it does then is the example
    [continued_under_evaluation] of RegistryInvariant. *)
Inductive act :=
| ACreate (id : string)
| ALife (id : string)
| ARetryBegin (id : string)
| ARetryEnd (id : string) (o : evaluation)
| ACleanup (id : string)
| AContinue (id : string).

Inductive step (global : resolved) : act → registry → registry → Prop :=
| st_create now id s m p cfg g : objects g !! id = None →
    step global (ACreate id) g (create_register now id s m p cfg g)
| st_life now id r r' g : view g id = Some r → registered r ≠ Forgotten → life r r' →
    recoveryInProgress (ct r') = recoveryInProgress (ct r) →
    step global (ALife id) g (commit now id r r' g)
| st_retry_begin id g : step global (ARetryBegin id) g (retry_begin id g).1
| st_retry_end now id o r g : view g id = Some r → recoveryInProgress (ct r) = true →
    step global (ARetryEnd id o) g (retry_end now global id o g).1
| st_cleanup id g : step global (ACleanup id) g (cleanupRun id g)
| st_continue now newId msg id g : (∀ r, objects g !! id = Some r → recoveryInProgress (ct r) = false) →
    step global (AContinue id) g (continue_registry now global newId msg id g).

Inductive trace (global : resolved) : list act → registry → registry → Prop :=
| tr_nil g : trace global [] g g
| tr_cons a l g g1 g2 : step global a g g1 → trace global l g1 g2 → trace global (a :: l) g g2.
