(* ===== verification/RegistryInvariant.v ===== *)
(** What the orchestrator's maps guarantee (the operations are in Registry):
    the invariant of the maps and of the runs they mention, kept by every step;
    what a retry can do, and the run a blocked retry leaves behind. *)

From S2P Require Import Prelude JsMap JsValue Types Number RuntimeState RunConfig StateMachine Recovery Orchestrator Registry.

Import TaskStatus.
Local Open Scope Z_scope.
Local Open Scope js_scope.

(** ** The invariant of the maps *)

(** What the maps hold of each run they mention. *)
Definition synced (r : run) : Prop :=
  currentState (machine (ct r)) = status (rt r) ∧ TaskState.status (task (rt r)) = status (rt r).
Definition live_ok (r : run) : Prop := synced r ∧ (terminal r = true → status (rt r) = FAILED).
Definition retired_ok (e : retired_entry) (r : run) : Prop :=
  synced r ∧ terminal r = true ∧ endStatus e = status (rt r).

Record maps_ok (g : registry) : Prop := {
  mo_control : runControl g = activeRuns g;
  mo_nodup : NoDup (activeRuns g);
  mo_wf : mwf (terminalRuns g);
  mo_order : terminalOrder g = mkeys (terminalRuns g);
  mo_apart : ∀ id, id ∈ activeRuns g → id ∉ mkeys (terminalRuns g);
  mo_bound : (length (terminalOrder g) <= maxTerminalRetained g)%nat;
  mo_cap : (0 < maxTerminalRetained g)%nat;
}.

Record reg_ok (g : registry) : Prop := {
  ro_maps : maps_ok g;
  ro_live : ∀ id, id ∈ activeRuns g → ∃ r, objects g !! id = Some r ∧ live_ok r;
  ro_past : ∀ id e, mget (terminalRuns g) id = Some e → ∃ r, objects g !! id = Some r ∧ retired_ok e r;
}.

Lemma elem_key_set l k j : j ∈ key_set l k ↔ j = k ∨ j ∈ l.
Proof.
  unfold key_set. case_decide; [split; [by right|intros [->|?]; done]|].
  rewrite elem_of_app, list_elem_of_singleton. tauto.
Qed.
Lemma elem_key_delete l k j : j ∈ key_delete l k ↔ j ≠ k ∧ j ∈ l.
Proof. unfold key_delete. by rewrite list_elem_of_filter. Qed.
Lemma NoDup_key_set l k : NoDup l → NoDup (key_set l k).
Proof.
  intros H. unfold key_set. case_decide; [done|].
  apply NoDup_app. split_and!; [done| |apply NoDup_singleton]. by intros x Hx ->%list_elem_of_singleton.
Qed.
Lemma NoDup_key_delete l k : NoDup l → NoDup (key_delete l k).
Proof. apply NoDup_filter. Qed.

Lemma key_delete_absent l k : k ∉ l → key_delete l k = l.
Proof.
  unfold key_delete. induction l as [|j l IH]; [done|]. intros [Hj Hl]%not_elem_of_cons.
  rewrite filter_cons, decide_True by done. by rewrite IH.
Qed.

Lemma history_evict_spec max id m l :
  mwf m → mkeys m = l ++ [id] → (0 < max)%nat →
  let '(order, m') := evict max id (l ++ [id]) m in
  mwf m' ∧ mkeys m' = order ∧ order = drop (length (l ++ [id]) - max) (l ++ [id]) ∧
  (∀ k, k ∈ order → mget m' k = mget m k).
Proof.
  intros Hw. revert m Hw. induction l as [|x l IH]; intros m Hw Hk Hm.
  - simpl. case_decide; [lia|]. split_and!; try done. by destruct max; [lia|].
  - change ((x :: l) ++ [id]) with (x :: (l ++ [id])) in *. cbn [evict].
    case_decide as Hlen.
    + assert (mkeys m = x :: (l ++ [id])) as Hk' by done.
      assert (x ≠ id ∧ x ∉ l ++ [id]) as [Hx Hx'].
      { unfold mwf in Hw. rewrite Hk' in Hw. apply NoDup_cons in Hw as [Hw _]. set_solver. }
      assert (mhas m x = true) as Eh by (apply bool_decide_eq_true, mget_Some_keys; rewrite Hk'; left).
      rewrite Eh, (bool_decide_false (x = id)) by done. cbn [andb negb].
      assert (mkeys (mdelete m x) = l ++ [id]) as Hd.
      { rewrite mkeys_delete, Hk', filter_cons, decide_False by naive_solver. by apply key_delete_absent. }
      specialize (IH (mdelete m x) (mwf_delete _ _ Hw) Hd Hm).
      destruct (evict max id (l ++ [id]) (mdelete m x)) as [order m'].
      destruct IH as (I1 & I2 & I3 & I4). split_and!; try done.
      * rewrite I3. simpl length. replace (S (length (l ++ [id])) - max)%nat with (S (length (l ++ [id]) - max)) by
          (simpl in Hlen; lia). done.
      * intros k Hin. rewrite I4 by done. apply mget_delete_ne. intros ->.
        rewrite I3 in Hin. apply Hx'. rewrite <-(take_drop (length (l ++ [id]) - max) (l ++ [id])).
        apply elem_of_app. by right.
    + split_and!; try done. simpl length in *. by replace (S (length (l ++ [id])) - max)%nat with 0%nat by lia.
Qed.

(** ** Every operation keeps the maps in order *)

Lemma retireRun_spec now id g r :
  maps_ok g → objects g !! id = Some r → id ∈ activeRuns g →
  let g' := retireRun now id g in
  maps_ok g' ∧ activeRuns g' = key_delete (activeRuns g) id ∧
  mget (terminalRuns g') id = Some (Entry now (status (rt r))) ∧
  (∀ k e, k ≠ id → mget (terminalRuns g') k = Some e → mget (terminalRuns g) k = Some e) ∧
  terminalOrder g' = drop (S (length (terminalOrder g)) - maxTerminalRetained g) (terminalOrder g ++ [id]) ∧
  objects g' = <[id := r <| ct ::= λ c, c <| deadline := None |> <| running := false |> |>]> (objects g).
Proof.
  intros [M1 M2 M3 M4 M5 M6 M7] Hr Ha. unfold retireRun. rewrite Hr, decide_True by (by rewrite M1).
  set (m := mset (terminalRuns g) id (Entry now (status (rt r)))).
  assert (mget (terminalRuns g) id = None) as Hn by (apply mget_None_keys; auto).
  assert (mkeys m = terminalOrder g ++ [id]) as Hk.
  { unfold m. rewrite mkeys_set, decide_False by auto. by rewrite M4. }
  assert (mwf m) as Hm by (by apply mwf_set).
  pose proof (history_evict_spec (maxTerminalRetained g) id m (terminalOrder g) Hm Hk M7) as He.
  destruct (evict _ _ _ _) as [order m']. destruct He as (E1 & E2 & E3 & E4).
  assert (id ∈ order) as Hin.
  { rewrite E3, length_app, drop_app_le by (simpl; lia). apply elem_of_app. right. by left. }
  assert (∀ k e, k ≠ id → mget m' k = Some e → mget (terminalRuns g) k = Some e) as Hold.
  { intros k e Hne Hg. assert (k ∈ order) as Hko by (rewrite <-E2; apply mget_Some_keys; eauto).
    rewrite (E4 k Hko) in Hg. unfold m in Hg. by rewrite mget_set_ne in Hg. }
  cbv zeta. split_and!; cbn; try done.
  - constructor; cbn; try done.
    + by rewrite M1.
    + by apply NoDup_key_delete.
    + intros k [Hne Hk']%elem_key_delete Hkm. apply (M5 k Hk').
      apply mget_Some_keys in Hkm as [e Hg]. apply mget_Some_keys. eauto.
    + rewrite E3, length_drop, length_app. simpl. lia.
  - rewrite E4 by done. unfold m. by rewrite mget_set_eq.
  - rewrite E3, length_app. simpl. by rewrite Nat.add_1_r.
Qed.

Lemma maps_objects f g : maps_ok g → maps_ok (g <| objects ::= f |>).
Proof. by intros []; constructor. Qed.

Lemma maps_register id g : maps_ok g → id ∉ mkeys (terminalRuns g) →
  maps_ok (g <| activeRuns ::= λ l, key_set l id |> <| runControl ::= λ l, key_set l id |>).
Proof.
  intros [M1 M2 M3 M4 M5 M6 M7] Hid. constructor; cbn; try done.
  - by rewrite M1.
  - by apply NoDup_key_set.
  - intros k [->|Hk]%elem_key_set; [done|auto].
Qed.

Lemma maps_forget id g : maps_ok g →
  maps_ok (g <| terminalRuns ::= λ m, mdelete m id |> <| terminalOrder ::= λ l, key_delete l id |>) ∧
  id ∉ mkeys (mdelete (terminalRuns g) id).
Proof.
  intros [M1 M2 M3 M4 M5 M6 M7]. split.
  - constructor; cbn; try done.
    + by apply mwf_delete.
    + rewrite M4. symmetry. by apply mkeys_delete.
    + intros k Hk Hin. apply (M5 k Hk). change (k ∈ mkeys (mdelete (terminalRuns g) id)) in Hin.
      rewrite mkeys_delete in Hin by done. by apply list_elem_of_filter in Hin as [_ ?].
    + unfold key_delete. etrans; [apply length_filter|]. done.
  - rewrite mkeys_delete by done. by intros [? _]%list_elem_of_filter.
Qed.

Lemma maps_drop id g : maps_ok g →
  maps_ok (g <| activeRuns ::= λ l, key_delete l id |> <| runControl ::= λ l, key_delete l id |>).
Proof.
  intros [M1 M2 M3 M4 M5 M6 M7]. constructor; cbn; try done.
  - by rewrite M1.
  - by apply NoDup_key_delete.
  - intros k [_ Hk]%elem_key_delete. auto.
Qed.

Lemma place_live_iff g id : place_of g id = Live ↔ id ∈ activeRuns g.
Proof.
  unfold place_of, isActiveRun. destruct (bool_decide (id ∈ _)) eqn:E.
  - by apply bool_decide_eq_true in E.
  - apply bool_decide_eq_false in E. by destruct (isTerminalRun g id).
Qed.

Lemma place_retired_iff g id : maps_ok g → place_of g id = Retired ↔ id ∈ mkeys (terminalRuns g).
Proof.
  intros Hm. unfold place_of, isActiveRun, isTerminalRun. rewrite <-mget_Some_keys.
  destruct (bool_decide (id ∈ activeRuns g)) eqn:E.
  - apply bool_decide_eq_true in E. split; [done|]. intros H%mget_Some_keys. by destruct (mo_apart g Hm id E).
  - unfold mhas. destruct (bool_decide (is_Some _)) eqn:E'.
    + by apply bool_decide_eq_true in E'.
    + apply bool_decide_eq_false in E'. done.
Qed.

Lemma view_ok g id r : reg_ok g → view g id = Some r → registered r ≠ Forgotten →
  run_ok r ∧ (registered r = Live → terminal r = true → status (rt r) = FAILED).
Proof.
  intros [Hm Hl Hp] Hv Hk. unfold view in Hv. apply fmap_Some in Hv as (r0 & Hr0 & ->). cbn in Hk.
  destruct (place_of g id) eqn:Hpl; [| |done].
  - apply place_live_iff in Hpl. destruct (Hl id Hpl) as (r1 & Hr1 & [S1 S2] & Hf).
    rewrite Hr0 in Hr1. injection Hr1 as <-. split; [by constructor|done].
  - apply place_retired_iff, mget_Some_keys in Hpl as [e He]; [|done].
    destruct (Hp id e He) as (r1 & Hr1 & [S1 S2] & Ht & _).
    rewrite Hr0 in Hr1. injection Hr1 as <-. split; [by constructor|done].
Qed.

(** ** Every operation keeps what the maps say of the runs *)

Lemma reg_write id r' g : reg_ok g →
  (id ∈ activeRuns g → live_ok r') → (∀ e, mget (terminalRuns g) id = Some e → retired_ok e r') →
  reg_ok (g <| objects ::= <[id := r']> |>).
Proof.
  intros [Hm Hl Hp] H1 H2. constructor; [by apply maps_objects| |]; cbn.
  - intros k Hk. destruct (decide (k = id)) as [->|Hne]; [rewrite lookup_insert_eq; eauto|].
    rewrite lookup_insert_ne by done. auto.
  - intros k e Hk. destruct (decide (k = id)) as [->|Hne]; [rewrite lookup_insert_eq; eauto|].
    rewrite lookup_insert_ne by done. auto.
Qed.

(** Writes that leave the runtime status and the machine alone. *)
Definition keeps (f : run → run) : Prop := ∀ r, rt (f r) = rt r ∧ machine (ct (f r)) = machine (ct r).

Lemma keeps_ok f r e : keeps f → (live_ok r → live_ok (f r)) ∧ (retired_ok e r → retired_ok e (f r)).
Proof.
  intros H. destruct (H r) as [H1 H2].
  unfold live_ok, retired_ok, synced, terminal. by rewrite H1, H2.
Qed.

Lemma reg_alter id f g : keeps f → reg_ok g → reg_ok (g <| objects ::= alter f id |>).
Proof.
  intros Hf [Hm Hl Hp]. constructor; [by apply maps_objects| |]; cbn.
  - intros k Hk. destruct (Hl k Hk) as (r & Hr & H).
    destruct (decide (k = id)) as [->|Hne]; [|rewrite lookup_alter_ne by done; eauto].
    exists (f r). rewrite lookup_alter_eq, Hr. split; [done|]. by apply (keeps_ok f r (Entry 0 FAILED)).
  - intros k e Hk. destruct (Hp k e Hk) as (r & Hr & H).
    destruct (decide (k = id)) as [->|Hne]; [|rewrite lookup_alter_ne by done; eauto].
    exists (f r). rewrite lookup_alter_eq, Hr. split; [done|]. by apply (keeps_ok f r).
Qed.

Lemma keeps_emit t d : keeps (emit t d).
Proof. done. Qed.

Lemma run_synced r : run_ok r → synced r.
Proof. by intros []. Qed.

Lemma reg_retire now id r g : maps_ok g → objects g !! id = Some r → id ∈ activeRuns g →
  synced r → terminal r = true →
  (∀ k, k ∈ activeRuns g → k ≠ id → ∃ r, objects g !! k = Some r ∧ live_ok r) →
  (∀ k e, mget (terminalRuns g) k = Some e → k ≠ id → ∃ r, objects g !! k = Some r ∧ retired_ok e r) →
  reg_ok (retireRun now id g).
Proof.
  intros Hm Hr Ha Hs Ht Hl Hp.
  destruct (retireRun_spec now id g r Hm Hr Ha) as (R1 & R2 & R3 & R4 & _ & R6).
  constructor; [done| |]; rewrite ?R2, R6.
  - intros k [Hne Hk]%elem_key_delete. rewrite lookup_insert_ne by done. auto.
  - intros k e Hk. destruct (decide (k = id)) as [->|Hne].
    + rewrite R3 in Hk. injection Hk as <-. rewrite lookup_insert_eq. eexists. split; [done|].
      split; [exact Hs|]. by split.
    + rewrite lookup_insert_ne by done. eauto.
Qed.

Lemma reg_commit now id r r' g : reg_ok g → view g id = Some r → registered r ≠ Forgotten →
  life r r' → reg_ok (commit now id r r' g).
Proof.
  intros Hg Hv Hk Hl. destruct (view_ok g id r Hg Hv Hk) as [Hr Hf].
  pose proof (life_shape r r' Hl Hr Hk) as Ho. unfold outcome in Ho.
  pose proof Hv as Hv'. unfold view in Hv'. apply fmap_Some in Hv' as (r0 & Hr0 & Er).
  assert (registered r = place_of g id) as Hpl by (by rewrite Er).
  destruct (terminal r) eqn:Ht.
  - destruct Ho as [[U1 U2 U3 U4] Hs]. unfold commit. rewrite decide_False by (rewrite U2; intros [-> ?]; done).
    apply reg_write; [done| |].
    + intros Ha%place_live_iff. split; [by apply run_synced|]. intros _. rewrite Hs. apply Hf; [congruence|done].
    + intros e He. destruct (ro_past g Hg id e He) as (r1 & Hr1 & _ & _ & E). rewrite Hr0 in Hr1. injection Hr1 as <-.
      split; [by apply run_synced|]. split; [by rewrite U3|]. by rewrite Hs, E, Er.
  - assert (registered r = Live) as Hlive by (by apply place_live).
    assert (id ∈ activeRuns g) as Ha by (by apply place_live_iff; rewrite <-Hpl).
    destruct Ho as [[U1 U2 U3 U4]|(st & Hst & [E1 E2 E3 E4 E5])].
    + unfold commit. rewrite decide_False by (rewrite U2; intros [? ?]; congruence).
      apply reg_write; [done| |].
      * intros _. split; [by apply run_synced|]. by rewrite U3, Ht.
      * intros e He. destruct (mo_apart g (ro_maps g Hg) id Ha). apply mget_Some_keys. eauto.
    + unfold commit. rewrite decide_True by done.
      apply (reg_retire _ _ r'); cbn.
      * apply maps_objects. by destruct Hg.
      * by rewrite lookup_insert_eq.
      * done.
      * by apply run_synced.
      * unfold terminal. by rewrite E3.
      * intros k Hk' Hne. rewrite lookup_insert_ne by done. by apply Hg.
      * intros k e Hk' Hne. rewrite lookup_insert_ne by done. by apply (ro_past g Hg).
Qed.

Lemma reg_create now id s m p cfg g : reg_ok g → objects g !! id = None →
  reg_ok (create_register now id s m p cfg g).
Proof.
  intros Hg Hn.
  assert (id ∉ activeRuns g) as Ha by (intros (r & Hr & _)%(ro_live g Hg); congruence).
  assert (id ∉ mkeys (terminalRuns g)) as Ht.
  { intros [e He]%mget_Some_keys. destruct (ro_past g Hg id e He) as (r & Hr & _). congruence. }
  set (r := emit EventType.TASK_CREATED "" (fresh_run now s m p cfg)).
  assert (live_ok r) as Hr by done.
  constructor.
  - apply (maps_register id (g <| objects ::= <[id := r]> |>)); [|done]. apply maps_objects. by destruct Hg.
  - cbn. intros k [->|Hk]%elem_key_set; [rewrite lookup_insert_eq; eauto|].
    rewrite lookup_insert_ne by (intros <-; done). by apply Hg.
  - cbn. intros k e Hk. rewrite lookup_insert_ne; [by apply (ro_past g Hg)|].
    intros <-. apply Ht, mget_Some_keys. eauto.
Qed.

Lemma reg_cleanup id g : reg_ok g → reg_ok (cleanupRun id g).
Proof.
  intros Hg. destruct (reg_alter id disarm g ltac:(done) Hg) as [Hm Hl Hp].
  constructor.
  - apply (maps_forget id _), (maps_drop id _), Hm.
  - cbn. intros k [_ Hk]%elem_key_delete. by apply Hl.
  - cbn. intros k e Hk. apply Hp. destruct Hm as [_ _ Hw _ _ _ _].
    cbn in Hw. rewrite mget_delete in Hk by done. by case_decide.
Qed.

(** ** Retries *)

Lemma resurrect_ok id e g : reg_ok g → mget (terminalRuns g) id = Some e → endStatus e = FAILED →
  reg_ok (resurrect id g).
Proof.
  intros [Hm Hl Hp] He Hf. destruct (maps_forget id g Hm) as [Hm' Hid]. constructor.
  - by apply (maps_register id _ Hm').
  - cbn. intros k [->|Hk]%elem_key_set; [|by apply Hl].
    destruct (Hp id e He) as (r & Hr & Hs & Ht & E). exists r. split; [done|]. split; [done|]. congruence.
  - cbn. intros k e' Hk. destruct Hm as [_ _ Hw _ _ _ _]. rewrite mget_delete in Hk by done. case_decide; [done|]. by apply Hp.
Qed.

Lemma guards_ok id g : reg_ok g →
  reg_ok (retry_guards id g).1 ∧
  ((retry_guards id g).2 = true → ∃ r, objects g !! id = Some r ∧ status (rt r) = FAILED ∧ id ∈ activeRuns g ∧
     objects (retry_guards id g).1 !! id = Some (emit EventType.EXECUTION_RECOVERY_STARTED "" r) ∧
     activeRuns (retry_guards id g).1 = activeRuns g).
Proof.
  intros Hg. unfold retry_guards, isActiveRun. destruct (objects g !! id) as [r|] eqn:Hr; [|done].
  destruct (bool_decide (id ∈ activeRuns g)) eqn:Ea; [|done]. apply bool_decide_eq_true in Ea. cbn [negb].
  destruct (bool_decide (status (rt r) = FAILED)) eqn:Es; [|by rewrite orb_true_r].
  apply bool_decide_eq_true in Es.
  destruct (negb _ || _); [done|]. destruct (running (ct r)); [done|].
  destruct (over_budget r); cbn; (split; [by apply reg_alter|]); [done|].
  intros _. exists r. rewrite lookup_alter_eq, Hr. done.
Qed.

Lemma finally_ok id g : reg_ok g → reg_ok (retry_finally id g).
Proof. intros Hg. unfold retry_finally. case_decide; [done|]. by apply reg_alter. Qed.

Lemma inner_ok id g : reg_ok g →
  reg_ok (retry_inner id g).1 ∧
  ((retry_inner id g).2 = true → ∃ r, objects g !! id = Some r ∧ status (rt r) = FAILED ∧
     objects (retry_inner id g).1 !! id = Some (emit EventType.EXECUTION_RECOVERY_STARTED "" r) ∧
     id ∈ activeRuns (retry_inner id g).1).
Proof.
  intros Hg. unfold retry_inner.
  assert (∀ g', reg_ok g' → objects g' = objects g →
    reg_ok (retry_guards id g').1 ∧
    ((retry_guards id g').2 = true → ∃ r, objects g !! id = Some r ∧ status (rt r) = FAILED ∧
       objects (retry_guards id g').1 !! id = Some (emit EventType.EXECUTION_RECOVERY_STARTED "" r) ∧
       id ∈ activeRuns (retry_guards id g').1)) as H.
  { intros g' Hg' Eo. destruct (guards_ok id g' Hg') as [G1 G2]. split; [done|].
    intros (r & R1 & R2 & R3 & R4 & R5)%G2. exists r. rewrite R5. by rewrite <-Eo. }
  destruct (mget (terminalRuns g) id) as [e|] eqn:He; [|by apply H].
  destruct (objects g !! id) as [r|] eqn:Hr; [|by apply H].
  destruct (bool_decide (endStatus e = FAILED)) eqn:Ef; [|done]. apply bool_decide_eq_true in Ef. cbn [negb].
  destruct (over_budget r); [done|]. apply H; [by eapply resurrect_ok|done].
Qed.

Lemma begin_ok id g : reg_ok g →
  reg_ok (retry_begin id g).1 ∧
  ((retry_begin id g).2 = true → ∃ r, objects (retry_begin id g).1 !! id = Some r ∧
     status (rt r) = FAILED ∧ recoveryInProgress (ct r) = true ∧ id ∈ activeRuns (retry_begin id g).1).
Proof.
  intros Hg. unfold retry_begin. destruct (getRun g id) as [r|]; [|done].
  destruct (recoveryInProgress (ct r)); [done|].
  set (f := λ c : ctrl, c <| recoveryInProgress := true |>).
  assert (reg_ok (with_ctrl id f g)) as Hf by (by apply reg_alter).
  destruct (inner_ok id _ Hf) as [I1 I2].
  destruct (retry_inner id (with_ctrl id f g)) as [g' pending]. cbn in I1, I2. destruct pending; cbn.
  - split; [done|]. intros _. destruct (I2 eq_refl) as (r1 & R1 & R2 & R3 & R4).
    eexists. split; [exact R3|]. split; [exact R2|]. split; [|exact R4].
    cbn in R1. rewrite lookup_alter_eq in R1. apply fmap_Some in R1 as (r0 & _ & ->). done.
  - split; [by apply finally_ok|done].
Qed.

(** A FAILED run of the live maps is resumed: RETRYING, and executing again. *)
Lemma resume_run_live now gl a r : run_ok r → registered r = Live → status (rt r) = FAILED →
  let r' := resume_run now gl a r in
  run_ok r' ∧ registered r' = Live ∧ status (rt r') = RETRYING ∧ running (ct r') = true ∧ abort (ct r') = false.
Proof.
  intros Hr Hp Hs. cbv zeta. unfold resume_run.
  destruct (transition_legal now RETRYING r Hr Hp ltac:(rewrite Hs; simpl; set_solver)) as [r1 E]. rewrite E.
  destruct (run_transition_ok _ _ _ _ E Hr Hp) as ([T1 T2 T3] & T4 & T5 & _).
  unfold armDeadline. destruct (0 <? _); cbn;
    (split; [constructor; cbn; try done; by rewrite T5, Hp|]); (split; [by rewrite T5|done]).
Qed.

(** ** Recovery in progress *)

(** A run whose recovery is being evaluated is live and FAILED. *)
Definition flags_ok (g : registry) : Prop := ∀ id r, objects g !! id = Some r →
  recoveryInProgress (ct r) = true → id ∈ activeRuns g ∨ id ∈ mkeys (terminalRuns g) →
  id ∈ activeRuns g ∧ terminal r = true.

(** Other runs keep their objects, and are at most evicted. *)
Record touches (id : string) (g g' : registry) : Prop := {
  to_objects : ∀ k, k ≠ id → objects g' !! k = objects g !! k;
  to_active : ∀ k, k ≠ id → k ∈ activeRuns g' ↔ k ∈ activeRuns g;
  to_past : ∀ k, k ≠ id → k ∈ mkeys (terminalRuns g') → k ∈ mkeys (terminalRuns g);
}.

#[export] Instance touches_preorder id : PreOrder (touches id).
Proof.
  constructor; [done|]. intros g1 g2 g3 [A1 A2 A3] [B1 B2 B3].
  constructor; intros k Hk; [rewrite B1, A1|rewrite B2, A2|]; auto.
Qed.

Lemma touches_alter id f g : touches id g (g <| objects ::= alter f id |>).
Proof. constructor; try done. intros k Hk. cbn. by apply lookup_alter_ne. Qed.

Lemma touches_insert id r g : touches id g (g <| objects ::= <[id := r]> |>).
Proof. constructor; try done. intros k Hk. cbn. by apply lookup_insert_ne. Qed.

Lemma touches_retire now id g : maps_ok g → touches id g (retireRun now id g).
Proof.
  intros Hm. destruct (objects g !! id) as [r|] eqn:Hr; [|by unfold retireRun; rewrite Hr].
  destruct (decide (id ∈ activeRuns g)) as [Ha|Ha].
  - destruct (retireRun_spec now id g r Hm Hr Ha) as (R1 & R2 & R3 & R4 & _ & R6).
    constructor; intros k Hk; rewrite ?R6, ?R2.
    + by apply lookup_insert_ne.
    + rewrite elem_key_delete. tauto.
    + intros [e He]%mget_Some_keys. apply mget_Some_keys. eauto.
  - unfold retireRun. rewrite Hr, decide_False by tauto. done.
Qed.

Lemma touches_commit now id r r' g : maps_ok g → touches id g (commit now id r r' g).
Proof.
  intros Hm. etrans; [apply (touches_insert id r')|]. unfold commit.
  case_decide; [by apply touches_retire, maps_objects|done].
Qed.

Lemma touches_register now id s m p cfg g : touches id g (create_register now id s m p cfg g).
Proof.
  constructor; intros k Hk; cbn; [by apply lookup_insert_ne| |done]. rewrite elem_key_set. tauto.
Qed.

Lemma touches_resurrect id g : maps_ok g → touches id g (resurrect id g).
Proof.
  intros [_ _ Hw _ _ _ _]. constructor; intros k Hk; cbn; [done|rewrite elem_key_set; tauto|].
  intros Hin. change (k ∈ mkeys (mdelete (terminalRuns g) id)) in Hin.
  rewrite mkeys_delete in Hin by done. by apply list_elem_of_filter in Hin as [_ ?].
Qed.

Lemma touches_cleanup id g : maps_ok g → touches id g (cleanupRun id g).
Proof.
  intros [_ _ Hw _ _ _ _]. constructor; intros k Hk; cbn.
  - by apply lookup_alter_ne.
  - change (k ∈ key_delete (activeRuns g) id ↔ k ∈ activeRuns g). rewrite elem_key_delete. tauto.
  - intros Hin. change (k ∈ mkeys (mdelete (terminalRuns g) id)) in Hin.
    rewrite mkeys_delete in Hin by done. by apply list_elem_of_filter in Hin as [_ ?].
Qed.

Lemma touches_guards id g : touches id g (retry_guards id g).1.
Proof. unfold retry_guards. repeat case_match; try done; apply touches_alter. Qed.

Lemma touches_inner id g : maps_ok g → touches id g (retry_inner id g).1.
Proof.
  intros Hm. unfold retry_inner. repeat case_match; try done; try apply touches_guards.
  etrans; [by apply touches_resurrect|apply touches_guards].
Qed.

Lemma touches_finally id g : touches id g (retry_finally id g).
Proof. unfold retry_finally. case_decide; [done|apply touches_alter]. Qed.

Lemma touches_begin id g : maps_ok g → touches id g (retry_begin id g).1.
Proof.
  intros Hm. unfold retry_begin. destruct (getRun g id) as [r|]; [|done].
  destruct (recoveryInProgress (ct r)); [done|].
  set (g0 := with_ctrl id _ g).
  assert (touches id g (retry_inner id g0).1) as H.
  { etrans; [|by apply touches_inner, maps_objects]. apply touches_alter. }
  destruct (retry_inner id g0) as [g' []]; [done|]. etrans; [exact H|apply touches_finally].
Qed.

Lemma touches_end now gl id o g : touches id g (retry_end now gl id o g).1.
Proof.
  unfold retry_end. destruct (view g id); [|done].
  destruct o as [|a c]; [|destruct (blocks _)]; cbn;
    (etrans; [|apply touches_finally]); (apply touches_alter || apply touches_insert).
Qed.

Lemma flags_touch id g g' : touches id g g' → flags_ok g →
  (∀ r, objects g' !! id = Some r → recoveryInProgress (ct r) = true →
     id ∈ activeRuns g' ∨ id ∈ mkeys (terminalRuns g') → id ∈ activeRuns g' ∧ terminal r = true) →
  flags_ok g'.
Proof.
  intros [T1 T2 T3] Hg H k r. destruct (decide (k = id)) as [->|Hne]; [apply H|].
  rewrite (T1 k Hne), (T2 k Hne). intros Hr Hf Hk. apply (Hg k r Hr Hf).
  destruct Hk as [|Hk]; [by left|right; by apply T3].
Qed.

Lemma finally_flag id g r : maps_ok g → objects (retry_finally id g) !! id = Some r →
  recoveryInProgress (ct r) = true →
  id ∈ activeRuns (retry_finally id g) ∨ id ∈ mkeys (terminalRuns (retry_finally id g)) → False.
Proof.
  intros Hm. unfold retry_finally. case_decide as Hd; cbn.
  - intros _ _ [H|H]; [apply place_live_iff in H; congruence|].
    apply place_retired_iff in H; [congruence|done].
  - rewrite lookup_alter_eq. intros (r0 & _ & ->)%fmap_Some. done.
Qed.

(** * The registry's invariant *)
Record registry_ok (g : registry) : Prop := { rk_reg : reg_ok g; rk_flags : flags_ok g }.

Lemma empty_ok n m : (0 < n)%nat → registry_ok (empty_registry n m).
Proof.
  intros Hn. split; [|by intros id r Hr; change ((∅ : gmap string run) !! id = Some r) in Hr; rewrite lookup_empty in Hr].
  constructor.
  - by constructor; cbn; try apply NoDup_nil_2; try apply mwf_nil; try lia; set_solver.
  - by intros id ?%not_elem_of_nil.
  - done.
Qed.

Lemma commit_flag now id r r' g : reg_ok g → flags_ok g → view g id = Some r → registered r ≠ Forgotten →
  life r r' → recoveryInProgress (ct r') = recoveryInProgress (ct r) →
  flags_ok (commit now id r r' g).
Proof.
  intros Hg Hf Hv Hk Hl He.
  apply (flags_touch id g); [by apply touches_commit; destruct Hg|done|].
  destruct (view_ok g id r Hg Hv Hk) as [Hr Hfail].
  pose proof (life_shape r r' Hl Hr Hk) as Ho. unfold outcome in Ho.
  pose proof Hv as Hv'. unfold view in Hv'. apply fmap_Some in Hv' as (r0 & Hr0 & Er).
  assert (registered r = place_of g id) as Hpl by (by rewrite Er).
  assert (id ∈ activeRuns g ∨ id ∈ mkeys (terminalRuns g)) as Hin.
  { destruct (place_of g id) eqn:E; [left|right|congruence].
    - by apply place_live_iff.
    - apply place_retired_iff; [by destruct Hg|done]. }
  assert (recoveryInProgress (ct r) = true → id ∈ activeRuns g ∧ terminal r = true) as Hflag.
  { intros H. apply (Hf id r0 Hr0) in Hin; [|by rewrite Er in H]. rewrite Er. exact Hin. }
  unfold commit. case_decide as Hd.
  - destruct Hd as [D1 D2]. destruct (terminal r) eqn:Ht.
    { destruct Ho as [[_ U2 _ _] _]. rewrite U2, D1 in D2. done. }
    intros r1 H1 H2. exfalso.
    destruct (retireRun_spec now id (g <| objects ::= <[id := r']> |>) r') as (_ & _ & _ & _ & _ & R6).
    { apply maps_objects. by destruct Hg. } { apply lookup_insert_eq. }
    { change (id ∈ activeRuns g). apply place_live_iff. by rewrite <-Hpl. }
    rewrite R6, lookup_insert_eq in H1. injection H1 as <-. cbn in H2. rewrite He in H2. by apply Hflag in H2 as [_ ?].
  - intros r1 H1 H2 _. cbn in *. rewrite lookup_insert_eq in H1. injection H1 as <-. rewrite He in H2.
    destruct (Hflag H2) as [F1 F2]. split; [done|]. rewrite F2 in Ho. by destruct Ho as [[_ _ -> _] _].
Qed.

(** ** Continuations *)

Definition at_place (p : place) (r : run) : run := Run (rt r) (ct r) p (events r).

Lemma view_insert g id r : view (g <| objects ::= <[id := r]> |>) id = Some (at_place (place_of g id) r).
Proof. unfold view. cbn. by rewrite lookup_insert_eq. Qed.

Lemma getRun_insert g id r : place_of g id = Live →
  getRun (g <| objects ::= <[id := r]> |>) id = Some (at_place Live r).
Proof.
  intros Hp. unfold getRun. rewrite view_insert. change (place_of _ id) with (place_of g id). rewrite Hp.
  by rewrite decide_False.
Qed.

Lemma reopen_ok now r : run_ok r → registered r = Live → terminal r = true →
  let r' := reopen now r in
  run_ok r' ∧ registered r' = Live ∧ status (rt r') = RETRYING ∧ abort (ct r') = abort (ct r) ∧
  running (ct r') = running (ct r) ∧ recoveryInProgress (ct r') = recoveryInProgress (ct r) ∧
  events r' = events r.
Proof.
  intros Hr Hp Ht. unfold reopen. rewrite Ht. destruct (transition now RETRYING r) as [r'|x] eqn:E.
  - destruct (run_transition_ok _ _ _ _ E Hr Hp) as (H1 & H2 & H3 & He & _ & H4 & _).
    split; [done|]. split; [congruence|]. split; [done|]. rewrite He, H4. done.
  - by split_and!; [constructor; cbn; try done; by rewrite Hp| | | | | |].
Qed.

Lemma start_live now gl msg r : run_ok r → registered r = Live → terminal r = false → running (ct r) = false →
  ∃ r', startRun now gl msg r = Ok r' ∧ run_ok r' ∧ registered r' = Live ∧ rt r' = rt r ∧
    running (ct r') = true ∧ abort (ct r') = false ∧ signal_aborted (ct r') = false ∧
    recoveryInProgress (ct r') = recoveryInProgress (ct r) ∧ machine (ct r') = machine (ct r) ∧ events r' = events r.
Proof.
  intros [R1 R2 R3] Hp Ht Hrun. unfold startRun. rewrite !decide_False by congruence. rewrite Ht, Hrun.
  eexists. split; [reflexivity|]. unfold armDeadline. cbv zeta.
  destruct (bool_decide (getState (machine (ct r)) = CREATED)), (0 <? _)%Z; cbn;
    (split; [constructor; cbn; try done; by rewrite Hp|]); by split_and!.
Qed.

Lemma bring_back_retired id e r g : reg_ok g → objects g !! id = Some r → mget (terminalRuns g) id = Some e →
  running (ct r) = false →
  bring_back id g = Some (with_ctrl id (λ c, c <| abort := false |> <| signal_aborted := false |> <| running := false |>)
    (resurrect id g)).
Proof.
  intros Hg Hr He Hrun. unfold bring_back.
  assert (isActiveRun g id = false) as ->.
  { apply bool_decide_eq_false. intros Ha. apply (mo_apart g (ro_maps g Hg) id Ha), mget_Some_keys. eauto. }
  assert (isTerminalRun g id = true) as -> by (apply bool_decide_eq_true; eauto). cbn [negb andb].
  by rewrite Hr, Hrun.
Qed.

Lemma place_resurrect id g f : place_of (with_ctrl id f (resurrect id g)) id = Live.
Proof. apply place_live_iff. cbn. apply elem_key_set. by left. Qed.

Lemma reopened_ok id r3 g g' : reg_ok g → flags_ok g → maps_ok g' →
  activeRuns g' = key_set (activeRuns g) id → terminalRuns g' = mdelete (terminalRuns g) id →
  objects g' !! id = Some r3 → (∀ k, k ≠ id → objects g' !! k = objects g !! k) →
  live_ok r3 → recoveryInProgress (ct r3) = false → reg_ok g' ∧ flags_ok g'.
Proof.
  intros Hg Hf Hm Ha Ht Hr Hk Hl Hfl. pose proof (mo_wf g (ro_maps g Hg)) as Hw.
  assert (∀ k e, mget (terminalRuns g') k = Some e → k ≠ id ∧ mget (terminalRuns g) k = Some e) as Hpast.
  { intros k e. rewrite Ht, mget_delete by done. case_decide; [done|]. intros ->. split; congruence. }
  split; [constructor; [done| |]|].
  - intros k. rewrite Ha. intros Hin. apply elem_key_set in Hin. destruct (decide (k = id)) as [->|Hne]; [eauto|].
    destruct Hin as [|Hin]; [done|]. rewrite Hk by done. by apply Hg.
  - intros k e He. destruct (Hpast k e He) as [Hne He']. rewrite Hk by done. by apply (ro_past g Hg).
  - intros k r Hkr Hkf Hin. destruct (decide (k = id)) as [->|Hne]; [congruence|].
    rewrite Hk in Hkr by done. rewrite Ha, elem_key_set. destruct (Hf k r Hkr Hkf) as [? ?]; [|tauto].
    destruct Hin as [Hin|[e He]%mget_Some_keys].
    + rewrite Ha, elem_key_set in Hin. by destruct Hin as [|?]; [|left].
    + right. apply mget_Some_keys. destruct (Hpast k e He) as [_ ?]. eauto.
Qed.

Lemma resurrect_maps id f g : maps_ok g → maps_ok (with_ctrl id f (resurrect id g)).
Proof. intros Hm. destruct (maps_forget id g Hm) as [Hm' Hid]. by apply maps_objects, (maps_register id _ Hm'). Qed.

(** A run brought back or live that is not running is reopened and started. *)
Lemma continue_write now gl newId msg id g g1 r : reg_ok g → flags_ok g → maps_ok g1 →
  activeRuns g1 = key_set (activeRuns g) id → terminalRuns g1 = mdelete (terminalRuns g) id →
  (∀ k, k ≠ id → objects g1 !! k = objects g !! k) →
  run_ok r → registered r = Live → running (ct r) = false → recoveryInProgress (ct r) = false →
  let r2 := reopen now (emit EventType.EPISODE_STARTED newId r) in
  let r3 := match startRun now gl msg r2 with Ok r' => r' | Throw _ => r2 end in
  let g' := g1 <| objects ::= <[id := r3]> |> in
  reg_ok g' ∧ flags_ok g' ∧ terminal r3 = false ∧ ends r3 = ends r.
Proof.
  intros Hg Hf Hm Ha Ht Hk Hr Hp Hrun Hfl. cbv zeta.
  set (r1 := emit EventType.EPISODE_STARTED newId r).
  assert (run_ok r1) as Hr1 by (by destruct Hr; constructor).
  assert (ends r1 = ends r) as He1 by (unfold r1; rewrite ends_emit; simpl; lia).
  set (r2 := reopen now r1).
  assert (run_ok r2 ∧ registered r2 = Live ∧ terminal r2 = false ∧ running (ct r2) = false ∧
    recoveryInProgress (ct r2) = false ∧ events r2 = events r1) as (O1 & O2 & O3 & O4 & O5 & O6).
  { unfold r2. destruct (terminal r1) eqn:E.
    - destruct (reopen_ok now r1 Hr1 Hp E) as (A & B & C & _ & D & F & G).
      split_and!; try done; [unfold terminal; by rewrite C|by rewrite D|by rewrite F].
    - unfold reopen. rewrite E. done. }
  destruct (start_live now gl msg r2 O1 O2 O3 O4) as (r3 & E & S1 & S2 & S3 & _ & _ & _ & S7 & _ & S9). rewrite E.
  assert (terminal r3 = false) as Ht3 by (unfold terminal in *; by rewrite S3).
  destruct (reopened_ok id r3 g (g1 <| objects ::= <[id := r3]> |>) Hg Hf) as [Hg' Hf'].
  { by apply maps_objects. } { done. } { done. } { apply lookup_insert_eq. }
  { intros k Hne. cbn. rewrite lookup_insert_ne by done. auto. }
  { split; [by apply run_synced|]. by rewrite Ht3. } { by rewrite S7. }
  split; [done|]. split; [done|]. split; [done|]. rewrite <-He1. unfold ends. by rewrite S9, O6.
Qed.

(** A continuation leaves the registry alone, or reopens the run. *)
Lemma continue_ok now gl newId msg id g : reg_ok g → flags_ok g →
  (∀ r, objects g !! id = Some r → recoveryInProgress (ct r) = false) →
  let g' := continue_registry now gl newId msg id g in
  reg_ok g' ∧ flags_ok g' ∧ touches id g g' ∧
  (g' = g ∨ ∃ r r', objects g !! id = Some r ∧ objects g' !! id = Some r' ∧ terminal r' = false ∧ ends r' = ends r).
Proof.
  intros Hg Hf Hfl. cbv zeta. pose proof (ro_maps g Hg) as Hm.
  set (P := λ g', reg_ok g' ∧ flags_ok g' ∧ touches id g g' ∧ (g' = g ∨ ∃ r r', objects g !! id = Some r ∧
    objects g' !! id = Some r' ∧ terminal r' = false ∧ ends r' = ends r)).
  assert (P g) as Hsame by (split; [done|]; split; [done|]; split; [done|by left]).
  change (P (continue_registry now gl newId msg id g)).
  unfold continue_registry, bring_back. destruct (negb (isActiveRun g id) && isTerminalRun g id) eqn:Hc.
  - apply andb_true_iff in Hc as [_ Hc%bool_decide_eq_true]. destruct Hc as [e He].
    destruct (ro_past g Hg id e He) as (r & Hr & Hs & _). rewrite Hr.
    destruct (running (ct r)) eqn:Hrun; [done|].
    set (f := λ c : ctrl, c <| abort := false |> <| signal_aborted := false |> <| running := false |>).
    set (g1 := with_ctrl id f (resurrect id g)).
    assert (getRun g1 id = Some (at_place Live (r <| ct ::= f |>))) as ->.
    { unfold getRun, view, g1. rewrite place_resurrect, decide_False by done. cbn. by rewrite lookup_alter_eq, Hr. }
    change (running _) with false. cbn iota.
    assert (∀ k, k ≠ id → objects g1 !! k = objects g !! k) as Hk1 by (intros k Hk; cbn; by apply lookup_alter_ne).
    destruct (continue_write now gl newId msg id g g1 (at_place Live (r <| ct ::= f |>)) Hg Hf
      ltac:(by apply resurrect_maps) eq_refl eq_refl Hk1 ltac:(by destruct Hs; constructor) eq_refl eq_refl (Hfl r Hr))
      as (W1 & W2 & W3 & W4).
    split; [exact W1|]. split; [exact W2|]. split.
    + etrans; [by apply (touches_resurrect id g)|]. etrans; [apply (touches_alter id)|apply touches_insert].
    + right. eexists r, _. split; [done|]. split; [apply lookup_insert_eq|]. split; [exact W3|exact W4].
  - destruct (getRun g id) as [r|] eqn:Hget; [|done]. destruct (running (ct r)) eqn:Hrun; [done|].
    assert (∃ r0, objects g !! id = Some r0 ∧ r = at_place (place_of g id) r0 ∧ place_of g id = Live) as (r0 & Hr0 & Er & Hpl).
    { unfold getRun in Hget. case_decide as Hp; [done|]. unfold view in Hget.
      apply fmap_Some in Hget as (r0 & ? & ->). exists r0. split; [done|]. split; [done|].
      revert Hp Hc. unfold place_of. by destruct (isActiveRun g id), (isTerminalRun g id). }
    apply place_live_iff in Hpl as Ha.
    assert (view g id = Some r) as Hv by (by unfold view; rewrite Hr0, Er).
    destruct (view_ok g id r Hg Hv ltac:(by rewrite Er, Hpl)) as [Hr _].
    assert (id ∉ mkeys (terminalRuns g)) as Hn by by apply (mo_apart g Hm).
    destruct (continue_write now gl newId msg id g g r Hg Hf Hm) as (W1 & W2 & W3 & W4); try done.
    + unfold key_set. by rewrite decide_True.
    + symmetry. by apply mdelete_absent, mget_None_keys.
    + by rewrite Er, Hpl.
    + rewrite Er. exact (Hfl r0 Hr0).
    + split; [exact W1|]. split; [exact W2|]. split; [apply touches_insert|].
      right. eexists r0, _. split; [done|]. split; [apply lookup_insert_eq|]. split; [exact W3|]. rewrite W4, Er. done.
Qed.

Lemma registry_step_ok global a g g' : step global a g g' → registry_ok g → registry_ok g'.
Proof.
  intros Hs [Hg Hf]. pose proof (ro_maps g Hg) as Hm.
  destruct Hs as [now id s m p cfg g Hn|now id r r' g Hv Hk Hl He|id g|now id o r g Hv Hflag|id g|now newId msg id g Hfl].
  - split; [by apply reg_create|]. apply (flags_touch id g); [apply touches_register|done|].
    cbn. intros r. rewrite lookup_insert_eq. by intros [= <-].
  - split; [by eapply reg_commit|by eapply commit_flag].
  - destruct (begin_ok id g Hg) as [B1 B2]. split; [done|].
    apply (flags_touch id g); [by apply touches_begin|done|]. intros r Hr Hfl Hin.
    destruct ((retry_begin id g).2) eqn:E.
    + destruct (B2 eq_refl) as (r1 & R1 & R2 & R3 & R4). rewrite Hr in R1. injection R1 as <-.
      split; [done|]. unfold terminal. by rewrite R2.
    + revert Hr Hin E. unfold retry_begin. destruct (getRun g id) as [r0|] eqn:Hgr.
      2: { intros Hr Hin _. by apply (Hf id r). }
      destruct (recoveryInProgress (ct r0)) eqn:E0; [intros Hr Hin _; by apply (Hf id r)|].
      set (f := λ c : ctrl, c <| recoveryInProgress := true |>).
      destruct (inner_ok id (with_ctrl id f g) ltac:(by apply reg_alter)) as [I1 _].
      destruct (retry_inner id (with_ctrl id f g)) as [g' pending]. cbn in I1. destruct pending; [done|].
      cbn. intros Hr Hin _. exfalso. exact (finally_flag id g' r (ro_maps _ I1) Hr Hfl Hin).
  - pose proof Hv as Hv'. unfold view in Hv'. apply fmap_Some in Hv' as (r0 & Hr0 & Er).
    assert (∀ k e, mget (terminalRuns g) k = Some e → k ∈ mkeys (terminalRuns g)) as Hkey
      by (intros k e He; apply mget_Some_keys; eauto).
    assert (∀ g1, reg_ok g1 → (retry_end now global id o g).1 = retry_finally id g1 →
      registry_ok (retry_end now global id o g).1) as Hdone.
    { intros g1 H1 E. split; [rewrite E; by apply finally_ok|].
      apply (flags_touch id g); [apply touches_end|done|]. rewrite E. intros r1 A B C. exfalso.
      exact (finally_flag id g1 r1 (ro_maps _ H1) A B C). }
    unfold retry_end in *. rewrite Hv in *. destruct o as [|a c].
    + eapply Hdone; [|done]. by apply reg_alter.
    + destruct (blocks (Plan a c)); [eapply Hdone; [|done]; by apply reg_alter|].
      eapply Hdone; [|done]. apply reg_write; [done| |].
      * intros Ha. destruct (view_ok g id r Hg Hv) as [Hr Hfail].
        { rewrite Er. cbn. apply place_live_iff in Ha. by rewrite Ha. }
        assert (registered r = Live) as Hp by (rewrite Er; cbn; by apply place_live_iff).
        destruct (Hf id r0 Hr0) as [_ Ht]; [by rewrite Er in Hflag|by left|].
        destruct (resume_run_live now global a r Hr Hp) as (L1 & L2 & L3 & _).
        { apply Hfail; [done|]. by rewrite Er. }
        split; [by apply run_synced|]. unfold terminal. by rewrite L3.
      * intros e He. exfalso. destruct (Hf id r0 Hr0) as [Ha _]; [by rewrite Er in Hflag|right; eauto|].
        apply (mo_apart g Hm id Ha). eauto.
  - split; [by apply reg_cleanup|]. apply (flags_touch id g); [by apply touches_cleanup|done|].
    intros r _ _ [[? _]%elem_key_delete|Hin]; [done|]. exfalso.
    by destruct (maps_forget id g Hm) as [_ []].
  - by destruct (continue_ok now global newId msg id g Hg Hf Hfl) as (? & ? & _).
Qed.

Lemma trace_ok global l g g' : trace global l g g' → registry_ok g → registry_ok g'.
Proof. induction 1; eauto using registry_step_ok. Qed.

(** ** A run left FAILED in the live maps *)
Definition stuck (id : string) (g : registry) : Prop :=
  id ∈ activeRuns g ∧ ∃ r, objects g !! id = Some r ∧ status (rt r) = FAILED.

(** What takes such a run out again: a cleanup, a retry that is not blocked, or a
    continuation. *)
Definition releases (id : string) (a : act) : Prop :=
  match a with
  | ACleanup k => k = id
  | ARetryEnd k o => k = id ∧ blocks o = false
  | AContinue k => k = id
  | _ => False
  end.

Lemma stuck_touch k id g g' : touches k g g' → k ≠ id → stuck id g → stuck id g'.
Proof.
  intros [T1 T2 _] Hne [Ha (r & Hr & Hs)]. split; [by apply T2|]. exists r. by rewrite T1.
Qed.

Lemma stuck_alter id k f g : keeps f → stuck id g → stuck id (g <| objects ::= alter f k |>).
Proof.
  intros Hf [Ha (r & Hr & Hs)]. split; [done|]. destruct (decide (id = k)) as [->|Hne].
  - exists (f r). cbn. rewrite lookup_alter_eq, Hr. split; [done|]. destruct (Hf r) as [-> _]. done.
  - exists r. cbn. by rewrite lookup_alter_ne.
Qed.

Lemma stuck_finally id k g : stuck id g → stuck id (retry_finally k g).
Proof. intros H. unfold retry_finally. case_decide; [done|]. by apply stuck_alter. Qed.

Lemma stuck_begin id g : reg_ok g → stuck id g → stuck id (retry_begin id g).1.
Proof.
  intros Hg Hs. unfold retry_begin. destruct (getRun g id) as [r0|]; [|done].
  destruct (recoveryInProgress (ct r0)); [done|].
  set (g0 := with_ctrl id _ g). assert (stuck id g0) as H0 by (by apply stuck_alter).
  assert (stuck id (retry_inner id g0).1) as H1.
  { unfold retry_inner. destruct (mget (terminalRuns g0) id) as [e|] eqn:E.
    - exfalso. apply (mo_apart g (ro_maps g Hg) id (proj1 Hs)). apply mget_Some_keys. eauto.
    - unfold retry_guards. repeat case_match; try done; by apply stuck_alter. }
  destruct (retry_inner id g0) as [g' []]; [done|]. by apply stuck_finally.
Qed.

Lemma stuck_commit now id r r' g : reg_ok g → view g id = Some r → registered r ≠ Forgotten → life r r' →
  stuck id g → stuck id (commit now id r r' g).
Proof.
  intros Hg Hv Hk Hl [Ha (r0 & Hr0 & Hs)].
  destruct (view_ok g id r Hg Hv Hk) as [Hr _].
  pose proof (life_shape r r' Hl Hr Hk) as Ho. unfold outcome in Ho.
  assert (status (rt r) = FAILED) as Es.
  { unfold view in Hv. rewrite Hr0 in Hv. by injection Hv as <-. }
  assert (terminal r = true) as Ht by (unfold terminal; by rewrite Es).
  rewrite Ht in Ho. destruct Ho as [[_ U2 _ _] Hst].
  unfold commit. rewrite decide_False by (rewrite U2; intros [-> ?]; done).
  split; [done|]. exists r'. cbn. rewrite lookup_insert_eq. split; [done|]. by rewrite Hst.
Qed.

Lemma stuck_end now gl id o g : blocks o = true → stuck id g → stuck id (retry_end now gl id o g).1.
Proof.
  intros Hb Hs. unfold retry_end. destruct (view g id); [|done].
  destruct o as [|a c]; [|rewrite Hb]; cbn; by apply stuck_finally, stuck_alter.
Qed.

Lemma stuck_step global a g g' id : step global a g g' → registry_ok g → ¬ releases id a →
  stuck id g → stuck id g'.
Proof.
  intros Hs [Hg Hf] Hrel Hst. pose proof (ro_maps g Hg) as Hm.
  destruct Hs as [now k s m p cfg g Hn|now k r r' g Hv Hk Hl He|k g|now k o r g Hv Hflag|k g|now newId msg k g Hfl];
    (destruct (decide (k = id)) as [->|Hne]).
  - destruct Hst as [_ (r & Hr & _)]. congruence.
  - eapply stuck_touch; [apply touches_register|done|done].
  - by apply stuck_commit.
  - eapply stuck_touch; [by apply touches_commit|done|done].
  - by apply stuck_begin.
  - eapply stuck_touch; [by apply touches_begin|done|done].
  - apply stuck_end; [|done]. destruct (blocks o) eqn:E; [done|]. destruct Hrel. by split.
  - eapply stuck_touch; [apply touches_end|done|done].
  - by destruct Hrel.
  - eapply stuck_touch; [by apply touches_cleanup|done|done].
  - by destruct Hrel.
  - eapply stuck_touch; [by apply (continue_ok now global newId msg k g Hg Hf Hfl)|done|done].
Qed.

Lemma stuck_trace global id l g g' : trace global l g g' → registry_ok g → (∀ a, a ∈ l → ¬ releases id a) →
  stuck id g → registry_ok g' ∧ stuck id g'.
Proof.
  induction 1 as [g|a l g g1 g2 Hst _ IH]; intros Hok Hrel Hs; [done|].
  apply IH; [by eapply registry_step_ok| |eapply stuck_step; eauto; by apply Hrel; left].
  intros b Hb. apply Hrel. by right.
Qed.

(** ** A run whose retry is being evaluated *)
Definition evaluating (id : string) (g : registry) : Prop :=
  id ∈ activeRuns g ∧ ∃ r, objects g !! id = Some r ∧ status (rt r) = FAILED ∧ recoveryInProgress (ct r) = true.

(** What ends the evaluation: its answer, or the cleanup of the run. *)
Definition ends_evaluation (id : string) (a : act) : Prop :=
  match a with
  | ACleanup k | ARetryEnd k _ => k = id
  | _ => False
  end.

Lemma begin_refused id g r : place_of g id = Live → objects g !! id = Some r → recoveryInProgress (ct r) = true →
  retry_begin id g = (g, false).
Proof. intros Hp Hr Hf. unfold retry_begin, getRun, view. rewrite Hp, decide_False, Hr by done. cbn. by rewrite Hf. Qed.

Lemma evaluating_refused id g : evaluating id g → retry_begin id g = (g, false).
Proof. intros (Ha & r & Hr & _ & Hf). eapply begin_refused; [by apply place_live_iff|done|done]. Qed.

Lemma evaluating_touch k id g g' : touches k g g' → k ≠ id → evaluating id g → evaluating id g'.
Proof. intros [T1 T2 _] Hne (Ha & r & Hr & Hs). split; [by apply T2|]. exists r. by rewrite T1. Qed.

Lemma evaluating_step global a g g' id : step global a g g' → registry_ok g → ¬ ends_evaluation id a →
  evaluating id g → evaluating id g'.
Proof.
  intros Hs [Hg Hf] Hend He. pose proof (ro_maps g Hg) as Hm. pose proof He as (Ha & r0 & Hr0 & Hst & Hfl).
  destruct Hs as [now k s m p cfg g Hn|now k r r' g Hv Hk Hl Heq|k g|now k o r g Hv Hflag|k g|now newId msg k g Hno];
    (destruct (decide (k = id)) as [->|Hne]).
  - congruence.
  - eapply evaluating_touch; [apply touches_register|done|done].
  - assert (stuck id g) as Hstuck by (split; [done|by exists r0]).
    assert (recoveryInProgress (ct r') = true) as Hr'.
    { rewrite Heq. unfold view in Hv. rewrite Hr0 in Hv. by injection Hv as <-. }
    destruct (view_ok g id r Hg Hv Hk) as [Hr _].
    pose proof (life_shape r r' Hl Hr Hk) as Ho. unfold outcome in Ho.
    assert (status (rt r) = FAILED) as Es by (unfold view in Hv; rewrite Hr0 in Hv; by injection Hv as <-).
    unfold terminal in Ho. rewrite Es in Ho. destruct Ho as [[_ U2 _ _] Hst'].
    unfold commit. rewrite decide_False by (rewrite U2; intros [-> ?]; done).
    split; [done|]. exists r'. cbn. rewrite lookup_insert_eq. by rewrite Hst'.
  - eapply evaluating_touch; [by apply touches_commit|done|done].
  - by rewrite evaluating_refused.
  - eapply evaluating_touch; [by apply touches_begin|done|done].
  - by destruct Hend.
  - eapply evaluating_touch; [apply touches_end|done|done].
  - by destruct Hend.
  - eapply evaluating_touch; [by apply touches_cleanup|done|done].
  - rewrite (Hno r0 Hr0) in Hfl. done.
  - eapply evaluating_touch; [by apply (continue_ok now global newId msg k g Hg Hf Hno)|done|done].
Qed.

Lemma evaluating_trace global id l g g' : trace global l g g' → registry_ok g →
  (∀ a, a ∈ l → ¬ ends_evaluation id a) → evaluating id g → registry_ok g' ∧ evaluating id g'.
Proof.
  induction 1 as [g|a l g g1 g2 Hst _ IH]; intros Hok Hend He; [done|].
  apply IH; [by eapply registry_step_ok| |eapply evaluating_step; eauto; by apply Hend; left].
  intros b Hb. apply Hend. by right.
Qed.

(** ** Counting endings *)

(** The run was terminal and is active again. *)
Definition reopened (id : string) (g g' : registry) : nat :=
  match objects g !! id, objects g' !! id with
  | Some r, Some r' => if terminal r && negb (terminal r') then 1 else 0
  | _, _ => 0
  end.

(** A retry of a run left FAILED in the live maps is refused for its budget:
    the refusal is reported as one more [run.failed]. *)
Definition refused_for_budget (id : string) (a : act) (g : registry) : nat :=
  match a, getRun g id with
  | ARetryBegin k, Some r =>
      if bool_decide (k = id) && bool_decide (registered r = Live) && bool_decide (status (rt r) = FAILED) &&
         negb (recoveryInProgress (ct r)) && negb (running (ct r)) && over_budget r then 1 else 0
  | _, _ => 0
  end.

(** A trace that counts, for run [id], its reopenings and those refusals. *)
Inductive counted (global : resolved) (id : string) : list act → nat → nat → registry → registry → Prop :=
| ct_nil g : counted global id [] 0 0 g g
| ct_cons a l n k g g1 g2 : counted global id l n k g g1 → step global a g1 g2 →
    counted global id (l ++ [a]) (n + reopened id g1 g2) (k + refused_for_budget id a g1) g g2.

(** What a step does to a run: an active run ends with one event, or does not
    end; one that ended keeps its status, or is reopened by a retry or a
    continuation. *)
Definition accounted (id : string) (a : act) (g : registry) (r r' : run) : Prop :=
  if terminal r then
    status (rt r') = status (rt r) ∧ ends r' = (ends r + refused_for_budget id a g)%nat ∨
    terminal r' = false ∧ ends r' = ends r ∧ refused_for_budget id a g = 0%nat ∧
      (a = AContinue id ∨ ∃ o, a = ARetryEnd id o ∧ blocks o = false)
  else refused_for_budget id a g = 0%nat ∧ ends r' = (ends r + if terminal r' then 1 else 0)%nat.

Lemma account_same id a g r r' : rt r' = rt r → ends r' = ends r → refused_for_budget id a g = 0%nat →
  accounted id a g r r'.
Proof.
  intros H1 H2 H3. unfold accounted, terminal. rewrite H1, H2, H3, Nat.add_0_r.
  destruct (TERMINAL _); [by left|done].
Qed.

Lemma account_other id a g r : (∀ k, a = ARetryBegin k → k ≠ id) → accounted id a g r r.
Proof.
  intros H. apply account_same; [done..|]. unfold refused_for_budget. destruct a; try done.
  destruct (getRun g id); [|done]. rewrite bool_decide_false; [done|]. by apply H.
Qed.

Lemma commit_object now id r r' g :
  ∃ r2, objects (commit now id r r' g) !! id = Some r2 ∧ rt r2 = rt r' ∧ events r2 = events r'.
Proof.
  unfold commit. case_decide; cbn.
  - unfold retireRun. cbn. rewrite lookup_insert_eq. case_decide; cbn; [|by rewrite lookup_insert_eq; eauto].
    destruct (evict _ _ _ _). cbn. rewrite lookup_insert_eq. eauto.
  - rewrite lookup_insert_eq. eauto.
Qed.

Lemma finally_object id g r : objects g !! id = Some r →
  ∃ r', objects (retry_finally id g) !! id = Some r' ∧ rt r' = rt r ∧ events r' = events r.
Proof.
  intros H. unfold retry_finally. case_decide; [by eauto|]. cbn. rewrite lookup_alter_eq, H. cbn. eauto.
Qed.

(** The counts of a step that leaves the run's state alone. *)
Lemma account_rt id a g r r' : rt r' = rt r → ends r' = (ends r + refused_for_budget id a g)%nat →
  (refused_for_budget id a g ≠ 0%nat → terminal r = true) → accounted id a g r r'.
Proof.
  intros H1 H2 H3. unfold accounted, terminal in *. rewrite H1. destruct (TERMINAL _) eqn:Ht; [by left|].
  destruct (refused_for_budget id a g) as [|k] eqn:E; [|by specialize (H3 ltac:(done))].
  split; [done|]. by rewrite H2, Nat.add_0_r.
Qed.

Lemma begin_account id g r : reg_ok g → objects g !! id = Some r →
  ∃ r', objects (retry_begin id g).1 !! id = Some r' ∧ accounted id (ARetryBegin id) g r r'.
Proof.
  intros Hg Hr.
  cut (∃ r', objects (retry_begin id g).1 !! id = Some r' ∧ rt r' = rt r ∧
    ends r' = (ends r + refused_for_budget id (ARetryBegin id) g)%nat ∧
    (refused_for_budget id (ARetryBegin id) g ≠ 0%nat → terminal r = true)).
  { intros (r' & ? & ? & ? & ?). exists r'. split; [done|]. by apply account_rt. }
  unfold retry_begin, refused_for_budget. rewrite (bool_decide_true (id = id)) by done.
  destruct (getRun g id) as [rv|] eqn:Hget.
  2: { exists r. split; [done|]. by rewrite Nat.add_0_r. }
  assert (rv = at_place (place_of g id) r ∧ place_of g id ≠ Forgotten) as [-> Hpl].
  { unfold getRun, view in Hget. case_decide; [done|]. rewrite Hr in Hget. by injection Hget as <-. }
  cbn [at_place ct rt registered]. change (over_budget (at_place (place_of g id) r)) with (over_budget r).
  destruct (recoveryInProgress (ct r)) eqn:Hfl; cbn [negb andb].
  { rewrite !andb_false_r. exists r. split; [done|]. by rewrite Nat.add_0_r. }
  set (f := λ c : ctrl, c <| recoveryInProgress := true |>). set (g0 := with_ctrl id f g).
  set (r0 := r <| ct ::= f |>).
  assert (objects g0 !! id = Some r0) as H0 by (unfold g0; cbn; by rewrite lookup_alter_eq, Hr).
  set (cnt := if bool_decide (place_of g id = Live) && bool_decide (status (rt r) = FAILED) && true &&
    negb (running (ct r)) && over_budget r then 1%nat else 0%nat).
  (* the objects after the guards *)
  assert (∃ r1, objects (retry_inner id g0).1 !! id = Some r1 ∧ rt r1 = rt r ∧ ends r1 = (ends r + cnt)%nat ∧
    (cnt ≠ 0%nat → terminal r = true)) as (r1 & H1 & E1 & E2 & E3).
  { unfold retry_inner. rewrite H0. destruct (mget (terminalRuns g0) id) as [e|] eqn:He.
    - assert (place_of g id = Retired) as Hp
        by (apply place_retired_iff; [by destruct Hg|apply mget_Some_keys; by exists e]).
      assert (cnt = 0%nat) as -> by (unfold cnt; by rewrite Hp).
      rewrite Nat.add_0_r. destruct (negb _); [by exists r0|]. destruct (over_budget r0) eqn:Hb; [by exists r0|].
      unfold retry_guards. change (objects (resurrect id g0)) with (objects g0). rewrite H0.
      destruct (negb _); [by exists r0|]. destruct (_ || _); [by exists r0|]. destruct (running _); [by exists r0|].
      rewrite Hb. cbn [fst]. cbn. rewrite lookup_alter_eq, lookup_alter_eq, Hr. cbn. eexists. split; [done|].
      split; [done|]. split; [|done]. etrans; [exact (ends_emit EventType.EXECUTION_RECOVERY_STARTED "" r0)|apply Nat.add_0_r].
    - assert (place_of g id = Live) as Hp.
      { destruct (place_of g id) eqn:E; [done| |done]. apply place_retired_iff, mget_Some_keys in E as [e E]; [|by destruct Hg].
        change (mget (terminalRuns g) id = None) in He. congruence. }
      apply place_live_iff in Hp as Ha. unfold retry_guards. rewrite H0.
      assert (isActiveRun g0 id = true) as -> by (by apply bool_decide_eq_true).
      assert (bool_decide (id ∈ runControl g0) = true) as ->
        by (apply bool_decide_eq_true; change (id ∈ runControl g); by rewrite (mo_control g (ro_maps g Hg))).
      unfold cnt. rewrite Hp, (bool_decide_true (Live = Live)) by done. cbn [negb orb andb].
      change (rt r0) with (rt r). change (running (ct r0)) with (running (ct r)).
      change (over_budget r0) with (over_budget r).
      destruct (bool_decide (status (rt r) = FAILED)) eqn:Es; cbn [negb andb];
        [|exists r0; split; [done|]; split; [done|]; split; [by rewrite Nat.add_0_r|done]].
      apply bool_decide_eq_true in Es.
      destruct (running (ct r)); cbn [negb andb];
        [exists r0; split; [done|]; split; [done|]; split; [by rewrite Nat.add_0_r|done]|].
      destruct (over_budget r); cbn [fst]; cbn; rewrite lookup_alter_eq, lookup_alter_eq, Hr; cbn; eexists;
        (split; [done|]); (split; [done|]); (split; [first [exact (ends_emit EventType.RUN_FAILED "budget_exceeded" r0)|
          exact (ends_emit EventType.EXECUTION_RECOVERY_STARTED "" r0)]|]);
        intros _; unfold terminal; by rewrite Es. }
  assert (∃ r', objects (let '(g', pending) := retry_inner id g0 in
      if pending then (g', true) else (retry_finally id g', false)).1 !! id = Some r' ∧
    rt r' = rt r ∧ ends r' = (ends r + cnt)%nat) as (r' & H' & F1 & F2).
  { destruct (retry_inner id g0) as [g' []]; [by eauto|]. destruct (finally_object id g' r1 H1) as (r' & ? & A & B).
    exists r'. split; [done|]. split; [congruence|]. unfold ends in *. by rewrite B. }
  by exists r'.
Qed.

Lemma resume_ends now gl a r : ends (resume_run now gl a r) = ends r.
Proof.
  unfold resume_run.
  assert (∀ r1, events r1 = events r → ends (emit EventType.EXECUTION_RETRY a (emit EventType.EXECUTION_RECOVERED a
    (r1 <| ct ::= λ c, c <| abort := false |> <| signal_aborted := false |> <| retries := 0%nat |>
             <| lastToolEffect ::= fmap supersede |> |>))) = ends r) as H.
  { intros r1 E. rewrite !ends_emit. unfold ends. cbn [events]. 
    change (events (r1 <| ct ::= _ |>)) with (events r1). rewrite E. simpl. lia. }
  destruct (transition now RETRYING r) as [r1|] eqn:E.
  - assert (events r1 = events r) as He.
    { unfold transition in E. case_decide; [done|]. case_decide; [by injection E as <-|].
      destruct (orch_transition _ _ _ _); [|done]. by injection E as <-. }
    specialize (H r1 He).
    unfold armDeadline. destruct (0 <? _)%Z; exact H.
  - specialize (H (r <| rt ::= RuntimeState.updateStatus now RETRYING |>) eq_refl).
    unfold armDeadline. destruct (0 <? _)%Z; exact H.
Qed.

(** The answer of an evaluation, for the run it is about. *)
Lemma end_account now gl id o r0 g : reg_ok g → flags_ok g → objects g !! id = Some r0 →
  (∃ r, view g id = Some r ∧ recoveryInProgress (ct r) = true) →
  ∃ r', objects (retry_end now gl id o g).1 !! id = Some r' ∧ accounted id (ARetryEnd id o) g r0 r'.
Proof.
  intros Hg Hf Hr0 (r & Hv & Hfl).
  assert (r = at_place (place_of g id) r0) as -> by (unfold view in Hv; rewrite Hr0 in Hv; by injection Hv as <-).
  assert (∀ t d, is_end (Event t d) = false → ∃ r', objects (retry_finally id (g <| objects ::= alter (emit t d) id |>)) !! id = Some r' ∧
    accounted id (ARetryEnd id o) g r0 r') as Hemit.
  { intros t d Ht. destruct (finally_object id (g <| objects ::= alter (emit t d) id |>) (emit t d r0)) as (r' & H & A & B).
    { cbn. by rewrite lookup_alter_eq, Hr0. }
    exists r'. split; [done|]. apply account_same; [done| |done].
    etrans; [|etrans; [exact (ends_emit t d r0)|rewrite Ht; apply Nat.add_0_r]]. unfold ends. by rewrite B. }
  unfold retry_end. rewrite Hv. destruct o as [|a c]; [by apply Hemit|].
  destruct (blocks (Plan a c)) eqn:Hb; [by apply Hemit|]. cbn [fst].
  set (rv := at_place (place_of g id) r0) in *.
  destruct (finally_object id (g <| objects ::= <[id := resume_run now gl a rv]> |>) (resume_run now gl a rv))
    as (r' & H & A & B); [apply lookup_insert_eq|].
  exists r'. split; [done|].
  destruct (place_of g id) eqn:Hp.
  - apply place_live_iff in Hp as Ha. destruct (ro_live g Hg id Ha) as (r1 & Hr1 & _ & Hfail).
    rewrite Hr0 in Hr1. injection Hr1 as <-. destruct (Hf id r0 Hr0 Hfl ltac:(by left)) as [_ Ht].
    destruct (view_ok g id rv Hg Hv ltac:(done)) as [Hrv _].
    destruct (resume_run_live now gl a rv Hrv eq_refl (Hfail Ht)) as (_ & _ & L3 & _).
    unfold accounted. rewrite Ht. right. unfold terminal. rewrite A, L3. split; [done|]. split.
    + etrans; [|exact (resume_ends now gl a rv)]. unfold ends. by rewrite B.
    + split; [done|]. right. by exists (Plan a c).
  - exfalso. apply place_retired_iff in Hp; [|by destruct Hg].
    destruct (Hf id r0 Hr0 Hfl ltac:(by right)) as [Ha _]. by apply (mo_apart g (ro_maps g Hg) id Ha).
  - assert (terminal r' = false) as Ht'.
    { unfold terminal. rewrite A. unfold resume_run, transition. rewrite decide_True by done.
      unfold armDeadline. by destruct (0 <? _)%Z. }
    assert (ends r' = ends r0) as He
      by (etrans; [|exact (resume_ends now gl a rv)]; unfold ends; by rewrite B).
    unfold accounted. destruct (terminal r0).
    + right. split; [done|]. split; [done|]. split; [done|]. right. by exists (Plan a c).
    + rewrite Ht', He. split; [done|lia].
Qed.


Lemma step_account global id a g g' r : step global a g g' → registry_ok g → objects g !! id = Some r →
  ∃ r', objects g' !! id = Some r' ∧ accounted id a g r r'.
Proof.
  intros Hs [Hg Hf] Hr. pose proof (ro_maps g Hg) as Hm.
  assert (∀ k g1, touches k g g1 → k ≠ id → (∀ j, a = ARetryBegin j → j ≠ id) →
    ∃ r', objects g1 !! id = Some r' ∧ accounted id a g r r') as Hother.
  { intros k g1 [T1 _ _] Hne Ha. exists r. rewrite T1 by done. split; [done|]. by apply account_other. }
  destruct Hs as [now k s m p cfg g Hn|now k rv r' g Hv Hk Hl Heq|k g|now k o rv g Hv Hflag|k g|now newId msg k g Hno];
    (destruct (decide (k = id)) as [->|Hne]).
  - congruence.
  - eapply Hother; [apply touches_register|done|by intros j [=]].
  - destruct (commit_object now id rv r' g) as (r2 & H2 & A & B). exists r2. split; [done|].
    assert (rv = at_place (place_of g id) r) as Erv by (unfold view in Hv; rewrite Hr in Hv; by injection Hv as <-).
    destruct (view_ok g id rv Hg Hv Hk) as [Hrv _].
    pose proof (life_shape rv r' Hl Hrv Hk) as Ho. unfold outcome in Ho.
    assert (terminal rv = terminal r ∧ ends rv = ends r ∧ status (rt rv) = status (rt r)) as (F1 & F2 & F3) by (by rewrite Erv).
    assert (terminal r2 = terminal r' ∧ ends r2 = ends r') as [G1 G2] by (unfold terminal, ends; by rewrite A, B).
    unfold accounted. rewrite F1 in Ho. destruct (terminal r) eqn:Ht.
    + left. destruct Ho as [[_ _ _ U4] Hst]. rewrite A, Hst, F3, G2, U4, F2. split; [done|]. symmetry. apply Nat.add_0_r.
    + split; [done|]. rewrite G1, G2. destruct Ho as [[_ _ U3 U4]|(st & Hst & [_ _ E3 E4 _])].
      * rewrite U3, U4, F1, F2. lia.
      * unfold terminal. rewrite E3, Hst, E4, F2. lia.
  - eapply Hother; [by apply touches_commit|done|by intros j [=]].
  - by apply begin_account.
  - eapply Hother; [by apply touches_begin|done|by intros j [= <-]].
  - apply end_account; try done. by exists rv.
  - eapply Hother; [apply touches_end|done|by intros j [=]].
  - exists (disarm r). split; [cbn; by rewrite lookup_alter_eq, Hr|]. by apply account_same.
  - eapply Hother; [by apply touches_cleanup|done|by intros j [=]].
  - destruct (continue_ok now global newId msg id g Hg Hf Hno) as (_ & _ & _ & [->|(r1 & r' & H1 & H2 & H3 & H4)]).
    + exists r. split; [done|]. by apply account_same.
    + rewrite Hr in H1. injection H1 as <-. exists r'. split; [done|]. unfold accounted. destruct (terminal r).
      * right. split; [done|]. split; [done|]. split; [done|]. by left.
      * rewrite H3, H4. split; [done|lia].
  - eapply Hother; [by apply (continue_ok now global newId msg k g Hg Hf Hno)|done|by intros j [=]].
Qed.

Lemma counted_trace global id l n k g g' : counted global id l n k g g' → registry_ok g → registry_ok g'.
Proof. induction 1; eauto using registry_step_ok. Qed.

(** Every trace can be counted. *)
Lemma trace_counted global id l g g' : trace global l g g' →
  ∃ n k, counted global id l n k g g'.
Proof.
  intros H. assert (∀ l0 n k g0, counted global id l0 n k g0 g → ∃ n' k', counted global id (l0 ++ l) n' k' g0 g') as Hg.
  { induction H as [g|a l g g1 g2 Hs _ IH]; intros l0 n k g0 Hc.
    - rewrite app_nil_r. by exists n, k.
    - assert (counted global id (l0 ++ [a]) (n + reopened id g g1) (k + refused_for_budget id a g) g0 g1) as Hc1
        by by eapply ct_cons.
      destruct (IH _ _ _ _ Hc1) as (n' & k' & H'). rewrite <-app_assoc in H'. by exists n', k'. }
  exact (Hg [] 0%nat 0%nat g (ct_nil _ _ _)).
Qed.

(** A run appears when it is created, with nothing ended. *)
Lemma step_appears global id a g g' : step global a g g' → registry_ok g → objects g !! id = None →
  refused_for_budget id a g = 0%nat ∧
  (∀ r, objects g' !! id = Some r → terminal r = false ∧ ends r = 0%nat).
Proof.
  intros Hs [Hg Hf] Hn. pose proof (ro_maps g Hg) as Hm.
  assert (view g id = None) as Hv by (unfold view; by rewrite Hn).
  assert (getRun g id = None) as Hget by (unfold getRun; by case_decide).
  split; [unfold refused_for_budget; by destruct a; rewrite ?Hget|]. intros r Hr.
  assert (∀ k g1, touches k g g1 → k ≠ id → objects g1 !! id ≠ Some r) as Hother.
  { intros k g1 [T1 _ _] Hne. by rewrite T1, Hn. }
  destruct Hs as [now k s m p cfg g _|now k rv r' g Hv' Hk Hl Heq|k g|now k o rv g Hv' Hflag|k g|now newId msg k g Hno];
    (destruct (decide (k = id)) as [->|Hne]); try congruence.
  - cbn in Hr. rewrite lookup_insert_eq in Hr. by injection Hr as <-.
  - destruct (Hother k (create_register now k s m p cfg g)); [apply touches_register|done|done].
  - destruct (Hother k (commit now k rv r' g)); [by apply touches_commit|done|done].
  - unfold retry_begin in Hr. rewrite Hget in Hr. cbn in Hr. congruence.
  - destruct (Hother k (retry_begin k g).1); [by apply touches_begin|done|done].
  - destruct (Hother k (retry_end now global k o g).1); [apply touches_end|done|done].
  - cbn in Hr. by rewrite lookup_alter_eq, Hn in Hr.
  - destruct (Hother k (cleanupRun k g)); [by apply touches_cleanup|done|done].
  - destruct (continue_ok now global newId msg id g Hg Hf Hno) as (_ & _ & _ & [E|(r1 & r' & H1 & _)]); [|congruence].
    rewrite E in Hr. congruence.
  - destruct (Hother k (continue_registry now global newId msg k g));
      [by apply (continue_ok now global newId msg k g Hg Hf Hno)|done|done].
Qed.

(** A run's endings are its reopenings, the refusals, and the one it is in. *)
Lemma counted_ends global id l n k g g' : counted global id l n k g g' → registry_ok g → objects g !! id = None →
  match objects g' !! id with
  | Some r => ends r = (n + k + if terminal r then 1 else 0)%nat
  | None => n = 0%nat ∧ k = 0%nat
  end.
Proof.
  induction 1 as [g|a l n k g g1 g2 Hc IH Hs]; intros Hok Hn; [by rewrite Hn|]. specialize (IH Hok Hn).
  pose proof (counted_trace _ _ _ _ _ _ _ Hc Hok) as Hok1.
  destruct (objects g1 !! id) as [r|] eqn:Hr.
  - destruct (step_account _ id _ _ _ _ Hs Hok1 Hr) as (r' & Hr' & Ha). rewrite Hr'.
    unfold accounted in Ha. unfold reopened. rewrite Hr, Hr'. destruct (terminal r) eqn:Ht; cbn [andb].
    + destruct Ha as [[H1 H2]|(H1 & H2 & H3 & _)].
      * unfold terminal in *. rewrite H1, Ht, H2, IH. cbn [negb]. lia.
      * rewrite H1, H2, H3, IH. cbn [negb]. lia.
    + destruct Ha as [H1 H2]. rewrite H1, H2, IH. lia.
  - destruct IH as [-> ->]. unfold reopened. rewrite Hr.
    destruct (step_appears _ id _ _ _ Hs Hok1 Hr) as [-> H2].
    destruct (objects g2 !! id) as [r'|]; [|done]. by destruct (H2 r' eq_refl) as [-> ->].
Qed.

(** * Theorems *)

(** C8: every attempt of a run ends exactly once. However creations, the steps
    of the runs' lives (transitions, completions, failures, cancellations,
    deadlines), retries, evaluations, continuations and cleanups of any number of
    runs interleave, a run has emitted one ending event (completed, failed or
    cancelled) for each time it was reopened, one more if it is terminal now, and
    one more [run.failed] for each refused retry of a run left FAILED in the live
    maps over its budget - and none else. An active run gets an ending event
    exactly when it becomes terminal; a terminal one keeps the status it ended
    with until an evaluated retry that is not blocked or a continuation of this
    very run reopens it, whatever else happens. (A continuation during the
    evaluation of a retry is not among the steps.) *)
Theorem run_ends_once global cap m id l n k g : (0 < cap)%nat →
  counted global id l n k (empty_registry cap m) g →
  (∀ r, objects g !! id = Some r → ends r = (n + k + if terminal r then 1 else 0)%nat) ∧
  (∀ a g' r, step global a g g' → objects g !! id = Some r → ∃ r', objects g' !! id = Some r' ∧
     (terminal r = false → ends r' = (ends r + if terminal r' then 1 else 0)%nat) ∧
     (terminal r = true →
        status (rt r') = status (rt r) ∧ ends r' = (ends r + refused_for_budget id a g)%nat ∨
        terminal r' = false ∧ ends r' = ends r ∧
          (a = AContinue id ∨ ∃ o, a = ARetryEnd id o ∧ blocks o = false))).
Proof.
  intros Hcap Hc. pose proof (empty_ok cap m Hcap) as H0.
  pose proof (counted_ends _ _ _ _ _ _ _ Hc H0 eq_refl) as He.
  pose proof (counted_trace _ _ _ _ _ _ _ Hc H0) as Hok. split.
  - intros r Hr. by rewrite Hr in He.
  - intros a g' r Hs Hr. destruct (step_account _ id _ _ _ _ Hs Hok Hr) as (r' & Hr' & Ha). exists r'.
    split; [done|]. unfold accounted in Ha.
    destruct (terminal r); (split; [|]); try done; intros _; [|by destruct Ha].
    destruct Ha as [?|(? & ? & _ & ?)]; [by left|by right].
Qed.

(** C9: the orchestrator's maps never disagree. However creations, the steps of
    the runs' lives, retries, evaluations, continuations (of runs that no retry
    is evaluating) and cleanups of any number of runs interleave: a run is live or in the history, never both; [activeRuns] and
    [runControl] hold the same runs; the history keeps at most
    [maxTerminalRetained] runs, in the order they ended; every run of the
    history is terminal and listed with the status it has; and a live run that
    is terminal is FAILED. *)
Theorem registry_sound global n m l g : (0 < n)%nat → trace global l (empty_registry n m) g →
  runControl g = activeRuns g ∧ NoDup (activeRuns g) ∧
  (∀ id, ¬ (isActiveRun g id = true ∧ isTerminalRun g id = true)) ∧
  terminalOrder g = mkeys (terminalRuns g) ∧ (length (terminalRuns g) <= maxTerminalRetained g)%nat ∧
  (∀ id e, mget (terminalRuns g) id = Some e → ∃ r, getRun g id = Some r ∧
     registered r = Retired ∧ terminal r = true ∧ status (rt r) = endStatus e) ∧
  (∀ id, id ∈ activeRuns g → ∃ r, getRun g id = Some r ∧ registered r = Live ∧
     currentState (machine (ct r)) = status (rt r) ∧ (terminal r = true → status (rt r) = FAILED)).
Proof.
  intros Hn Ht. destruct (trace_ok _ _ _ _ Ht (empty_ok n m Hn)) as [Hg _].
  pose proof (ro_maps g Hg) as Hm. pose proof Hm as [M1 M2 M3 M4 M5 M6 _].
  split_and!; try done.
  - intros id [Ha%bool_decide_eq_true Hb%bool_decide_eq_true%mget_Some_keys]. by apply (M5 id).
  - rewrite M4 in M6. unfold mkeys in M6. by rewrite length_fmap in M6.
  - intros id e He. destruct (ro_past g Hg id e He) as (r & Hr & _ & Hte & E).
    assert (place_of g id = Retired) as Hp by (apply place_retired_iff, mget_Some_keys; eauto).
    unfold getRun, view. rewrite Hp, decide_False, Hr by done. eexists. split; [done|]. by split_and!.
  - intros id Ha. destruct (ro_live g Hg id Ha) as (r & Hr & [S1 S2] & Hf).
    apply place_live_iff in Ha as Hp. unfold getRun, view. rewrite Hp, decide_False, Hr by done.
    eexists. split; [done|]. by split_and!.
Qed.

(** C11: a retry whose recovery is blocked leaks the run. The retry has already
    moved the FAILED run from the history back to the live maps; when the
    evaluation throws, or its plan asks the user, marks the side effect unknown
    or gives up, the run stays there FAILED, and no later step of any run -
    cancellations, deadlines, further blocked retries, whatever happens to other
    runs - takes it out again: it counts against [maxConcurrentRuns] until it is
    cleaned up, a retry resumes it, or it is continued. *)
Theorem blocked_retry_leaks global n m l g now id o r l' g' : (0 < n)%nat →
  trace global l (empty_registry n m) g →
  view g id = Some r → registered r ≠ Forgotten → recoveryInProgress (ct r) = true → blocks o = true →
  trace global l' (retry_end now global id o g).1 g' →
  (∀ a, a ∈ l' → ¬ releases id a) →
  isActiveRun g' id = true ∧ isTerminalRun g' id = false ∧
  (∃ r', getRun g' id = Some r' ∧ status (rt r') = FAILED).
Proof.
  intros Hn Ht Hv Hk Hfl Hb Ht' Hrel. pose proof (trace_ok _ _ _ _ Ht (empty_ok n m Hn)) as Hok.
  pose proof Hv as Hv'. unfold view in Hv'. apply fmap_Some in Hv' as (r0 & Hr0 & Er).
  assert (stuck id g) as Hs.
  { destruct Hok as [Hg Hf]. destruct (Hf id r0 Hr0) as [Ha Htm]; [by rewrite Er in Hfl| |].
    - destruct (place_of g id) eqn:Hp; [left; by apply place_live_iff|right|by rewrite Er in Hk].
      apply place_retired_iff; [by destruct Hg|done].
    - split; [done|]. exists r0. split; [done|].
      destruct (ro_live g Hg id Ha) as (r1 & Hr1 & _ & Hf1). rewrite Hr0 in Hr1. injection Hr1 as <-. auto. }
  assert (registry_ok (retry_end now global id o g).1) as Hok1 by 
    by exact (registry_step_ok global _ _ _ (st_retry_end global now id o r g Hv Hfl) Hok).
  apply (stuck_end now global id o g Hb) in Hs.
  destruct (stuck_trace _ _ _ _ _ Ht' Hok1 Hrel Hs) as [Hok' [Ha (r1 & Hr1 & Hst)]].
  apply place_live_iff in Ha as Hp. split_and!.
  - by apply bool_decide_eq_true.
  - apply bool_decide_eq_false. intros H%mget_Some_keys. by apply (mo_apart g' (ro_maps g' (rk_reg g' Hok')) id).
  - unfold getRun, view. rewrite Hp, decide_False, Hr1 by done. by eexists.
Qed.

(** What a retry that is evaluated started from. *)
Lemma guards_from id g : (retry_guards id g).2 = true →
  ∃ r, objects g !! id = Some r ∧ id ∈ activeRuns g ∧ status (rt r) = FAILED ∧ over_budget r = false.
Proof.
  unfold retry_guards, isActiveRun. destruct (objects g !! id) as [r|]; [|done].
  destruct (bool_decide (id ∈ _)) eqn:Ea; [|done]. destruct (bool_decide (status _ = _)) eqn:Es; [|by rewrite orb_true_r].
  apply bool_decide_eq_true in Ea, Es. cbn [negb].
  destruct (negb _ || _); [done|]. destruct (running _); [done|].
  destruct (over_budget r) eqn:Eb; [done|]. intros _. by exists r.
Qed.

Lemma begin_from id g : (retry_begin id g).2 = true →
  ∃ r, getRun g id = Some r ∧ status (rt r) = FAILED ∧ over_budget r = false ∧ recoveryInProgress (ct r) = false.
Proof.
  unfold retry_begin. destruct (getRun g id) as [r|] eqn:Hget; [|done].
  destruct (recoveryInProgress (ct r)) eqn:Ef; [done|].
  assert (∃ r0, objects g !! id = Some r0 ∧ r = Run (rt r0) (ct r0) (place_of g id) (events r0)) as (r0 & Hr0 & Er).
  { unfold getRun, view in Hget. case_decide; [done|]. apply fmap_Some in Hget as (r0 & ? & ->). eauto. }
  set (f := λ c : ctrl, c <| recoveryInProgress := true |>).
  set (g0 := with_ctrl id f g).
  assert (objects g0 !! id = Some (r0 <| ct ::= f |>)) as H0 by (unfold g0; cbn; by rewrite lookup_alter_eq, Hr0).
  assert (∀ g', objects g' = objects g0 → (retry_guards id g').2 = true →
    status (rt r) = FAILED ∧ over_budget r = false) as H.
  { intros g' Eo (r2 & A & _ & B & C)%guards_from. rewrite Eo, H0 in A. injection A as <-.
    rewrite Er. by split. }
  destruct (retry_inner id g0) as [g' p] eqn:Ei. destruct p; [|done]. intros _. exists r. split; [done|].
  assert (status (rt r) = FAILED ∧ over_budget r = false) as [? ?]; [|done].
  assert ((retry_inner id g0).2 = true) as E2 by (by rewrite Ei). revert E2. unfold retry_inner. rewrite H0.
  destruct (mget (terminalRuns g0) id) as [e|]; [|by apply H].
  destruct (negb _); [by intros|]. destruct (over_budget (r0 <| ct ::= f |>)); [by intros|]. by apply H.
Qed.

Lemma end_result now gl id a c g r : view g id = Some r → blocks (Plan a c) = false →
  retry_end now gl id (Plan a c) g =
    (retry_finally id (g <| objects ::= <[id := resume_run now gl a r]> |>), Some (launch_of c r)).
Proof. intros Hv Hb. unfold retry_end. by rewrite Hv, Hb. Qed.

Lemma finally_view id g r : place_of g id = Live → objects g !! id = Some r →
  getRun (retry_finally id g) id =
    Some (at_place Live (r <| ct ::= λ c, c <| recoveryInProgress := false |> |>)).
Proof.
  intros Hp Hr. unfold retry_finally. rewrite Hp, decide_False by done.
  assert (place_of (with_ctrl id (λ c, c <| recoveryInProgress := false |>) g) id = Live) as Hp' by exact Hp.
  unfold getRun, view. rewrite Hp', decide_False by done. cbn. by rewrite lookup_alter_eq, Hr.
Qed.

Lemma end_resumes now gl id a c g r : view g id = Some r → run_ok r → registered r = Live →
  status (rt r) = FAILED → blocks (Plan a c) = false →
  ∃ r', getRun (retry_end now gl id (Plan a c) g).1 id = Some r' ∧ registered r' = Live ∧
    status (rt r') = RETRYING ∧ currentState (machine (ct r')) = RETRYING ∧ running (ct r') = true ∧
    abort (ct r') = false ∧ recoveryInProgress (ct r') = false.
Proof.
  intros Hv Hr Hp Hs Hb. rewrite (end_result _ _ _ _ _ _ _ Hv Hb). cbn [fst].
  destruct (resume_run_live now gl a r Hr Hp Hs) as ([S1 S2 _] & L2 & L3 & L4 & L5).
  generalize dependent (resume_run now gl a r). intros r' S1 S2 L2 L3 L4 L5.
  assert (place_of g id = Live) as Hpl.
  { unfold view in Hv. apply fmap_Some in Hv as (r0 & _ & E). by rewrite E in Hp. }
  rewrite (finally_view id (g <| objects ::= <[id := r']> |>) r'); [|exact Hpl|apply lookup_insert_eq].
  eexists. split; [reflexivity|]. cbn. by rewrite S1.
Qed.

(** C10: only a FAILED run is retried, and only once at a time. When a retry
    gets as far as the recovery evaluation, the run - live or in the history -
    was FAILED, inside its budget and not being recovered. Until the evaluation
    answers (or the run is cleaned up), whatever else happens to this run and to
    the others - creations, steps of their lives, other retries, continuations of
    runs not under evaluation -, the run is in the live maps, FAILED and marked
    as being recovered, and a second retry of it is refused and changes nothing.
    When the plan then lets it resume, the run is live, RETRYING and executing
    with its abort flag cleared, from the plan's cursor (or the step it stopped
    at) if it still has a model and from the beginning otherwise. *)
Theorem retry_sound global n m l g l' g2 now id a c : (0 < n)%nat →
  trace global l (empty_registry n m) g →
  (retry_begin id g).2 = true →
  trace global l' (retry_begin id g).1 g2 → (∀ b, b ∈ l' → ¬ ends_evaluation id b) →
  blocks (Plan a c) = false →
  let g3 := (retry_end now global id (Plan a c) g2).1 in
  (∃ r, getRun g id = Some r ∧ status (rt r) = FAILED ∧ over_budget r = false ∧ recoveryInProgress (ct r) = false) ∧
  (∃ r, getRun g2 id = Some r ∧ registered r = Live ∧ status (rt r) = FAILED ∧ recoveryInProgress (ct r) = true ∧
     (retry_end now global id (Plan a c) g2).2 =
       Some (or_str (lastUserMessage (ct r)) (TaskState.objective (task (rt r))),
         truthy (ModelState.currentModel (model (rt r))),
         if truthy (ModelState.currentModel (model (rt r)))
         then default (ExecutionState.currentStep (execution (rt r))) c else 0%nat)) ∧
  retry_begin id g2 = (g2, false) ∧
  (∃ r, getRun g3 id = Some r ∧ registered r = Live ∧ status (rt r) = RETRYING ∧ currentState (machine (ct r)) = RETRYING ∧
     running (ct r) = true ∧ abort (ct r) = false ∧ recoveryInProgress (ct r) = false).
Proof.
  intros Hn Ht Hb Ht' Hl Hp. pose proof (trace_ok _ _ _ _ Ht (empty_ok n m Hn)) as Hok. cbv zeta.
  split; [exact (begin_from id g Hb)|].
  assert (registry_ok (retry_begin id g).1) as Hok1 by exact (registry_step_ok global _ _ _ (st_retry_begin global id g) Hok).
  assert (evaluating id (retry_begin id g).1) as He1.
  { destruct (begin_ok id g (rk_reg g Hok)) as [_ B2]. destruct (B2 Hb) as (r1 & R1 & R2 & R3 & R4). split; eauto. }
  destruct (evaluating_trace _ _ _ _ _ Ht' Hok1 Hl He1) as [[Hg2 _] He2].
  pose proof (evaluating_refused _ _ He2) as Href. destruct He2 as (Ha & r2 & R1 & R2 & R3).
  apply place_live_iff in Ha.
  assert (view g2 id = Some (at_place Live r2)) as Hv by (unfold view; by rewrite Ha, R1).
  split; [|split; [exact Href|]].
  - exists (at_place Live r2). split; [by unfold getRun; rewrite Ha, decide_False, Hv|].
    split; [done|]. split; [done|]. split; [done|]. rewrite (end_result now global id a c g2 _ Hv Hp). reflexivity.
  - destruct (view_ok g2 id _ Hg2 Hv ltac:(done)) as [Hr _].
    exact (end_resumes now global id a c g2 _ Hv Hr eq_refl R2 Hp).
Qed.

(** ** A run that fails, in a registry of one *)
Definition default_cfg : resolved := resolveRunConfig empty_layer empty_layer empty_layer.
Definition boom : js_error := JsError (Some "provider_error"%string) "boom".
Definition reg0 : registry := empty_registry 1 1.
Definition reg1 : registry :=
  create_register 1 "a" (RuntimeState.create 0 "a" "fix the tests" no_config) "demo" None default_cfg reg0.
Definition run1 : run := default demo_run (view reg1 "a").
Definition reg2 : registry := commit 2 "a" run1 (failRun 2 boom run1) reg1.
Definition reg3 : registry := (retry_begin "a" reg2).1.
Definition run3 : run := default demo_run (view reg3 "a").
Definition unclear : evaluation := Plan "mark_unknown" None.
Definition reg4 : registry := (retry_end 5 default_cfg "a" unclear reg3).1.
Definition run4 : run := default demo_run (view reg4 "a").
Definition reg5 : registry := commit 6 "a" run4 (cancelledRun 6 "User cancelled" run4) reg4.

Lemma trace_reg2 : trace default_cfg [ACreate "a"; ALife "a"] reg0 reg2.
Proof.
  eapply tr_cons; [apply (st_create default_cfg 1 "a"); vm_compute; reflexivity|].
  eapply tr_cons; [apply (st_life default_cfg 2 "a" run1 (failRun 2 boom run1) reg1)|apply tr_nil];
    [vm_compute; reflexivity|by vm_compute|apply life_fail|vm_compute; reflexivity].
Qed.

Lemma trace_reg3 : trace default_cfg [ACreate "a"; ALife "a"; ARetryBegin "a"] reg0 reg3.
Proof.
  eapply tr_cons; [apply (st_create default_cfg 1 "a"); vm_compute; reflexivity|].
  eapply tr_cons; [apply (st_life default_cfg 2 "a" run1 (failRun 2 boom run1) reg1)|
    eapply tr_cons; [apply st_retry_begin|apply tr_nil]];
    [vm_compute; reflexivity|by vm_compute|apply life_fail|vm_compute; reflexivity].
Qed.

Lemma trace_reg5 : trace default_cfg [ALife "a"] reg4 reg5.
Proof.
  eapply tr_cons; [apply (st_life default_cfg 6 "a" run4 (cancelledRun 6 "User cancelled" run4) reg4)|apply tr_nil];
    [vm_compute; reflexivity|by vm_compute|apply life_cancelled|vm_compute; reflexivity].
Qed.

(** The run is retried, resumed, and fails again. *)
Definition reg6 : registry := (retry_end 5 default_cfg "a" (Plan "resume" None) reg3).1.
Definition run6 : run := default demo_run (view reg6 "a").
Definition reg7 : registry := commit 7 "a" run6 (failRun 7 boom run6) reg6.

Lemma trace_reg7 :
  trace default_cfg [ACreate "a"; ALife "a"; ARetryBegin "a"; ARetryEnd "a" (Plan "resume" None); ALife "a"] reg0 reg7.
Proof.
  eapply tr_cons; [apply (st_create default_cfg 1 "a"); vm_compute; reflexivity|].
  eapply tr_cons; [apply (st_life default_cfg 2 "a" run1 (failRun 2 boom run1) reg1);
    [vm_compute; reflexivity|by vm_compute|apply life_fail|vm_compute; reflexivity]|].
  eapply tr_cons; [apply st_retry_begin|].
  eapply tr_cons; [apply (st_retry_end default_cfg 5 "a" (Plan "resume" None) run3 reg3); vm_compute; reflexivity|].
  eapply tr_cons; [apply (st_life default_cfg 7 "a" run6 (failRun 7 boom run6) reg6);
    [vm_compute; reflexivity|by vm_compute|apply life_fail|vm_compute; reflexivity]|apply tr_nil].
Qed.

Lemma run_ends_once_witness : ∃ n k r, objects reg7 !! "a"%string = Some r ∧ ends r = 2%nat ∧ (n + k = 1)%nat ∧
  counted default_cfg "a" [ACreate "a"; ALife "a"; ARetryBegin "a"; ARetryEnd "a" (Plan "resume" None); ALife "a"]
    n k reg0 reg7.
Proof.
  destruct (trace_counted default_cfg "a" _ _ _ trace_reg7) as (n & k & Hc).
  destruct (objects reg7 !! "a"%string) as [r|] eqn:Hr; [|vm_compute in Hr; discriminate].
  destruct (run_ends_once default_cfg 1 1 "a" _ n k reg7 ltac:(lia) Hc) as [He _]. specialize (He r Hr).
  assert (ends r = 2%nat ∧ terminal r = true) as [H2 H3]
    by (vm_compute in Hr; injection Hr as <-; vm_compute; done).
  exists n, k, r. split; [done|]. split; [done|]. split; [|done]. rewrite H2, H3 in He. lia.
Defined.

(** A continuation does not look at [recoveryInProgress]. One that arrives while
    the retry of the same run is evaluated starts the run; once the run is
    planning, the answer of the evaluation resumes it a second time while it is
    executing - two loops on one run - and leaves its status RETRYING with its
    machine in PLANNING. *)
Example continued_under_evaluation :
  let g := continue_registry 4 default_cfg "ep2" "go on" "a" reg3 in
  let r := default demo_run (view g "a") in
  let g1 := match transition 5 PLANNING r with Ok r' => commit 5 "a" r r' g | Throw _ => g end in
  let '(g2, launched) := retry_end 6 default_cfg "a" (Plan "resume" None) g1 in
  running (ct r) = true ∧ is_Some launched ∧
  ∃ r2, getRun g2 "a" = Some r2 ∧ status (rt r2) = RETRYING ∧ currentState (machine (ct r2)) = PLANNING.
Proof. vm_compute. split; [done|]. split; [by eexists|]. by eexists. Qed.

Lemma registry_sound_witness : getTerminalRuns reg2 = [("a", "failed", 2)]%string ∧
  ∃ r, getRun reg2 "a" = Some r ∧ registered r = Retired ∧ terminal r = true ∧ status (rt r) = FAILED.
Proof.
  split; [vm_compute; reflexivity|].
  destruct (registry_sound default_cfg 1 1 _ reg2 ltac:(lia) trace_reg2) as (_ & _ & _ & _ & _ & H & _).
  exact (H "a"%string (Entry 2 FAILED) ltac:(vm_compute; reflexivity)).
Defined.

Lemma blocked_retry_leaks_witness : isActiveRun reg5 "a" = true ∧ isTerminalRun reg5 "a" = false ∧
  (∃ r', getRun reg5 "a" = Some r' ∧ status (rt r') = FAILED).
Proof.
  apply (blocked_retry_leaks default_cfg 1 1 _ reg3 5 "a" unclear run3 [ALife "a"] reg5 ltac:(lia) trace_reg3);
    [vm_compute; reflexivity|by vm_compute|vm_compute; reflexivity|vm_compute; reflexivity|exact trace_reg5|].
  intros a Ha. apply list_elem_of_singleton in Ha as ->. intros [].
Defined.

(** The retry of the demo run, with a second retry during the evaluation. *)
Lemma retry_sound_witness :
  retry_begin "a" reg3 = (reg3, false) ∧
  (∃ r, getRun (retry_end 5 default_cfg "a" (Plan "resume" None) reg3).1 "a" = Some r ∧ status (rt r) = RETRYING).
Proof.
  assert (trace default_cfg [ARetryBegin "a"] (retry_begin "a" reg2).1 (retry_begin "a" reg3).1) as Ht
    by (eapply tr_cons; [apply st_retry_begin|apply tr_nil]).
  replace (retry_begin "a" reg3).1 with reg3 in Ht by (vm_compute; reflexivity).
  destruct (retry_sound default_cfg 1 1 _ reg2 _ reg3 5 "a" "resume" None ltac:(lia) trace_reg2
    ltac:(vm_compute; reflexivity) Ht) as (_ & _ & H1 & (r & Hr & _ & Hs & _)).
  - intros b Hb. apply list_elem_of_singleton in Hb as ->. intros [].
  - vm_compute. reflexivity.
  - split; [exact H1|]. exists r. split; [exact Hr|exact Hs].
Defined.

(** After one blocked retry the registry of one admits no run at all: the
    FAILED run occupies the only place, and cancelling it does nothing. *)
Example leaked_run_blocks_creation :
  create_guard reg2 = Ok tt ∧ create_guard reg5 = Throw (coded "busy" "Too many concurrent runs (1/1)") ∧
  (cancel_request run4).1 = false.
Proof. vm_compute. done. Qed.

(** [createRun] checks the number of live runs before its first [await] and
    registers after it: two creations that pass the check together exceed it.
    A retry never checks. *)
Example concurrent_creations_exceed :
  let other := RuntimeState.create 0 "b" "other" no_config in
  create_guard reg0 = Ok tt ∧
  length (activeRuns (create_register 2 "b" other "demo" None default_cfg reg1)) = 2%nat ∧
  length (activeRuns (retry_end 5 default_cfg "a" (Plan "resume" None)
    (retry_begin "a" (create_register 3 "b" other "demo" None default_cfg reg2)).1).1) = 2%nat.
Proof. vm_compute. done. Qed.

(** The history keeps the newest [maxTerminalRetained] runs. *)
Example oldest_run_evicted :
  let g := create_register 3 "b" (RuntimeState.create 0 "b" "other" no_config) "demo" None default_cfg reg2 in
  let r := default demo_run (view g "b") in
  let g' := commit 4 "b" r (cancelledRun 4 "stop" r) g in
  terminalOrder g' = ["b"]%string ∧ getRun g' "a" = None.
Proof. vm_compute. done. Qed.
