(* ===== verification/Auth.v ===== *)
(** Authentication and ownership (backend/src/auth.js): roles, configured
    tokens, the session cookie, and who may access which run.

    Environment variables and headers are maps from names to strings; a header
    or variable that is not set is [None]. *)

From S2P Require Import Prelude JsMap JsValue Text.

Local Open Scope string_scope.
Local Open Scope js_scope.

(** ** Roles *)

(* [src/backend/src/auth.js:22-22] ROLES *)
Definition ROLES : list string := ["viewer"; "operator"; "admin"].

(* [src/backend/src/auth.js:23-23] ROLE_RANK *)
Definition ROLE_RANK (role : string) : nat :=
  if String.eqb role "viewer" then 1 else if String.eqb role "operator" then 2
  else if String.eqb role "admin" then 3 else 0.

(* [src/backend/src/auth.js:61-63] roleRank *)
Definition roleRank (role : string) : nat := ROLE_RANK (to_lower role).

(** Who a request comes from; [p_source]: [env], [env-list], [session],
    [dev-mode]. *)
(* [src/backend/src/auth.js:98-98] principal *)
Record principal := Principal {
  p_id : string;
  p_role : string;
  p_orgId : option string;
  p_source : string;
}.
#[export] Instance principal_eq_dec : EqDecision principal.
Proof. solve_decision. Defined.

(** ** Configuration *)

(* [src/backend/src/auth.js:70-78] auth configuration *)
Record auth_config := AuthConfig {
  enabled : bool;
  adminToken : string;
  operatorToken : string;
  viewerToken : string;
  extraTokens : string;
}.

(** [a || b || ''] on variables. *)
Definition env_or (env : jsmap string string) (names : list string) : string :=
  foldr (λ n rest, or_str (default "" (mget env n)) rest) "" names.

(* [src/backend/src/auth.js:68-69] auth enabled *)
Definition auth_enabled (env : jsmap string string) : bool :=
  bool_decide (to_lower (env_or env ["AUTH_ENABLED"]) ∈ ["1"; "true"; "yes"; "on"]) ||
  String.eqb (to_lower (env_or env ["NODE_ENV"])) "production".

(* [src/backend/src/auth.js:65-78] loadAuthConfig *)
Definition loadAuthConfig (env : jsmap string string) : auth_config :=
  AuthConfig (auth_enabled env) (env_or env ["API_TOKEN"; "AUTH_TOKEN"]) (env_or env ["OPERATOR_TOKEN"])
    (env_or env ["READ_TOKEN"; "VIEWER_TOKEN"]) (env_or env ["AUTH_TOKENS"]).

Record extra_token := ExtraToken { x_id : string; x_role : string; x_secret : string }.

(* [src/backend/src/auth.js:84-90] parseExtraTokens, one part *)
Definition parse_token (part : string) : option extra_token :=
  match split_on ":"%char part with
  | id :: rest =>
      let role := default "" (head rest) in
      let secret := js_join ":" (tail rest) in
      let r := to_lower (or_str role "viewer") in
      if negb (truthy_str id) || negb (truthy_str secret) then None
      else if bool_decide (r ∈ ROLES) then Some (ExtraToken id r secret) else None
  | [] => None
  end.

(* [src/backend/src/auth.js:81-92] parseExtraTokens *)
Definition parseExtraTokens (raw : string) : list extra_token :=
  omap parse_token (filter (λ s, s ≠ "") (List.map trim (split_on ","%char raw))).

(** [crypto.timingSafeEqual] on buffers of equal length is equality. *)
(* [src/backend/src/auth.js:112-121] timingSafeEqual *)
Definition timingSafeEqual (a b : string) : bool :=
  Nat.eqb (String.length a) (String.length b) && String.eqb a b.

Definition env_principal (role : string) : principal := Principal role role None "env".

(* [src/backend/src/auth.js:94-110] principalForToken *)
Definition principalForToken (c : auth_config) (token : string) : option principal :=
  if negb (truthy_str token) then None
  else if truthy_str (adminToken c) && timingSafeEqual token (adminToken c) then Some (env_principal "admin")
  else if truthy_str (operatorToken c) && timingSafeEqual token (operatorToken c) then Some (env_principal "operator")
  else if truthy_str (viewerToken c) && timingSafeEqual token (viewerToken c) then Some (env_principal "viewer")
  else e ← find (λ e, timingSafeEqual token (x_secret e)) (parseExtraTokens (extraTokens c));
       Some (Principal (x_id e) (x_role e) None "env-list").

(** ** Headers *)

(** The expression: [Bearer], white space, then at least one character. *)
(* [src/backend/src/auth.js:123-127] bearerFromHeaders *)
Definition bearerFromHeaders (headers : jsmap string string) : string :=
  let raw := env_or headers ["authorization"; "Authorization"] in
  if starts_with "bearer" (to_lower raw) && single_line raw then
    match string_drop 6 raw with
    | String c rest => if is_space c then trim rest else ""
    | EmptyString => ""
    end
  else "".

(** *** [encodeURIComponent] and [decodeURIComponent], on bytes *)

Definition unreserved (c : ascii) : bool := is_word c || one_of "-.!~*'()" c.

Definition hex_upper (n : nat) : ascii :=
  match String.get n "0123456789ABCDEF" with Some c => c | None => "0"%char end.

Fixpoint encode_component (s : string) : string :=
  match s with
  | EmptyString => ""
  | String c s' =>
      if unreserved c then String c (encode_component s')
      else let n := nat_of_ascii c in
        String "%" (String (hex_upper (n / 16)) (String (hex_upper (n mod 16)) (encode_component s')))
  end.

Definition hex_digit_value (c : ascii) : option nat :=
  let n := nat_of_ascii c in
  if decide (48 ≤ n ≤ 57)%nat then Some (n - 48)%nat
  else if decide (65 ≤ n ≤ 70)%nat then Some (n - 55)%nat
  else if decide (97 ≤ n ≤ 102)%nat then Some (n - 87)%nat else None.

(** An escaped byte at the front. *)
Definition escaped_byte (s : string) : option (nat * string) :=
  match s with
  | String "%" (String a (String b rest)) =>
      x ← hex_digit_value a; y ← hex_digit_value b; Some (16 * x + y, rest)%nat
  | _ => None
  end.

(** [URIError] is [None]: an escape that is not two hexadecimal digits, or
    escaped bytes that do not form a character of UTF-8. [n] continuation bytes
    are expected; [lo] and [hi] bound the next one. *)
Fixpoint decode_bytes (fuel : nat) (n lo hi : nat) (s : string) : option string :=
  match fuel with
  | O => None
  | S fuel' =>
      match n with
      | S n' =>
          '(b, rest) ← escaped_byte s;
          if decide (lo ≤ b ≤ hi)%nat then String (ascii_of_nat b) <$> decode_bytes fuel' n' 128 191 rest else None
      | O =>
          match s with
          | EmptyString => Some ""
          | String "%" _ =>
              '(b, rest) ← escaped_byte s;
              if decide (b < 128)%nat then String (ascii_of_nat b) <$> decode_bytes fuel' 0 0 0 rest
              else if decide (194 ≤ b ≤ 223)%nat then String (ascii_of_nat b) <$> decode_bytes fuel' 1 128 191 rest
              else if decide (b = 224)%nat then String (ascii_of_nat b) <$> decode_bytes fuel' 2 160 191 rest
              else if decide (b = 237)%nat then String (ascii_of_nat b) <$> decode_bytes fuel' 2 128 159 rest
              else if decide (225 ≤ b ≤ 239)%nat then String (ascii_of_nat b) <$> decode_bytes fuel' 2 128 191 rest
              else if decide (b = 240)%nat then String (ascii_of_nat b) <$> decode_bytes fuel' 3 144 191 rest
              else if decide (241 ≤ b ≤ 243)%nat then String (ascii_of_nat b) <$> decode_bytes fuel' 3 128 191 rest
              else if decide (b = 244)%nat then String (ascii_of_nat b) <$> decode_bytes fuel' 3 128 143 rest
              else None
          | String c rest => String c <$> decode_bytes fuel' 0 0 0 rest
          end
      end
  end.
Definition decode_component (s : string) : option string := decode_bytes (S (String.length s)) 0 0 0 s.

(* [src/backend/src/auth.js:29-29] SESSION_COOKIE_NAME *)
Definition SESSION_COOKIE_NAME : string := "oa_session".
(* [src/backend/src/auth.js:30-30] SESSION_TTL_MS *)
Definition SESSION_TTL_MS : Z := 1000 * 60 * 60 * 24 * 30.

(* [src/backend/src/auth.js:34-43] readSessionCookie *)
Definition readSessionCookie (headers : jsmap string string) : string :=
  let raw := env_or headers ["cookie"; "Cookie"] in
  match find (starts_with (SESSION_COOKIE_NAME ++ "=")) (List.map trim (split_on ";"%char raw)) with
  | None => ""
  | Some part => default "" (decode_component (string_drop (S (String.length SESSION_COOKIE_NAME)) part))
  end.

(* [src/backend/src/auth.js:51-54] buildSessionCookie *)
Definition buildSessionCookie (token : string) (secure : bool) : string :=
  SESSION_COOKIE_NAME ++ "=" ++ encode_component token ++ "; " ++
  ("HttpOnly; SameSite=Lax; Path=/" ++ if secure then "; Secure" else "").

(* [src/backend/src/auth.js:57-59] clearSessionCookie *)
Definition clearSessionCookie : string :=
  SESSION_COOKIE_NAME ++ "=; HttpOnly; SameSite=Lax; Path=/; Max-Age=0".

(** What a browser sends back: the part of a Set-Cookie value before its
    attributes. *)
Definition cookie_pair (set_cookie : string) : string := default "" (head (split_on ";"%char set_cookie)).

(** ** Authorisation *)

(* [src/backend/src/auth.js:154-157] requireRole *)
Definition requireRole (p : option principal) (minRole : string) : bool :=
  match p with None => false | Some p => roleRank minRole <=? roleRank (p_role p) end%nat.

(* [src/backend/src/auth.js:162-164] isGlobalAdmin *)
Definition isGlobalAdmin (p : option principal) : bool :=
  match p with
  | None => false
  | Some p => String.eqb (p_role p) "admin" && negb (String.eqb (p_source p) "session")
  end.

(** The ownership fields of a run summary or snapshot: [orgId],
    [ownership.orgId]; [ownerId], [owner], [ownership.ownerId]. *)
Record ownership := Ownership {
  o_orgId : option string;
  o_ownership_orgId : option string;
  o_ownerId : option string;
  o_owner : option string;
  o_ownership_ownerId : option string;
}.

(** The first truthy of several. *)
Definition first_truthy (l : list (option string)) : option string :=
  foldr (λ s rest, if truthy s then s else rest) None l.

(* [src/backend/src/auth.js:168-177] canAccessRun *)
Definition canAccessRun (p : option principal) (r : option ownership) : bool :=
  match p with
  | None => false
  | Some q =>
      if isGlobalAdmin p then true
      else match r with
      | None => false
      | Some r =>
          let orgId := first_truthy [o_orgId r; o_ownership_orgId r] in
          if truthy orgId && truthy (p_orgId q) && bool_decide (orgId = p_orgId q) then true
          else
            let owner := first_truthy [o_ownerId r; o_owner r; o_ownership_ownerId r] in
            match owner with None => false | Some o => String.eqb o (p_id q) end
      end
  end.
