(* ===== verification/Tenants.v ===== *)
(** Users, sessions and projects (backend/src/tenant-store.js): the file-backed
    [TenantStore].

    The three arrays are the store's state, next to the files they are written
    to after each change. Hash functions, random values and the clock are
    inputs; a write may fail, which the code ignores. The Postgres variant of
    each method has the same contract over a parameter database and is not
    modelled. *)

From S2P Require Import Prelude JsMap JsValue Text Auth.

Local Open Scope string_scope.
Local Open Scope js_scope.

(* [src/backend/src/tenant-store.js:119-119] user *)
Record user := User {
  u_id : string;
  u_email : string;
  u_name : string;
  u_passwordHash : string;
  u_passwordSalt : string;
  u_orgId : string;
  u_role : string;
  u_createdAt : Z;
}.

(* [src/backend/src/tenant-store.js:167-167] session *)
Record session := Session { s_hash : string; s_userId : string; s_createdAt : Z; s_expiresAt : Z }.

(* [src/backend/src/tenant-store.js:203-212] project *)
Record project := Project {
  j_id : string;
  j_orgId : option string;
  j_ownerId : string;
  j_name : string;
  j_referenceModelId : option string;
  j_policy : string;
  j_privacyMode : string;
  j_createdAt : Z;
  j_updatedAt : option Z;
}.
#[export] Instance project_eta : Eta project := λ p,
  Project (j_id p) (j_orgId p) (j_ownerId p) (j_name p) (j_referenceModelId p) (j_policy p)
    (j_privacyMode p) (j_createdAt p) (j_updatedAt p).

(** A file of the store. *)
Inductive file (A : Type) := Missing | Unreadable | Corrupt | Rows (rows : list A).
Arguments Missing {A}.
Arguments Unreadable {A}.
Arguments Corrupt {A}.
Arguments Rows {A} rows.

Record disk := Disk { usersFile : file user; sessionsFile : file session; projectsFile : file project }.
#[export] Instance disk_eta : Eta disk := λ d, Disk (usersFile d) (sessionsFile d) (projectsFile d).

Record store := Store {
  users : list user;
  sessions : list session;
  projects : list project;
  files : disk;
}.
#[export] Instance store_eta : Eta store := λ s, Store (users s) (sessions s) (projects s) (files s).

(** ** Opening *)

Definition corrupt_error (label why : string) : js_error :=
  JsError (Some "tenant_store_corrupt") ("tenant store corrupt (" ++ label ++ "): " ++ why).

(** The rows, and the file after quarantine. *)
(* [src/backend/src/tenant-store.js:55-84] readStrict *)
Definition readStrict {A} (f : file A) (label : string) : res (list A) * file A :=
  match f with
  | Missing => (Ok [], Missing)
  | Unreadable =>
      (Throw (JsError (Some "tenant_store_unavailable") ("tenant store unreadable (" ++ label ++ ")")), Unreadable)
  | Corrupt => (Throw (corrupt_error label "quarantined to *.corrupt-*"), Missing)
  | Rows l => (Ok l, Rows l)
  end.

(* [src/backend/src/tenant-store.js:34-53] constructor *)
Definition open_store (d : disk) : res store * disk :=
  let (us, uf) := readStrict (usersFile d) "users" in
  let d := d <| usersFile := uf |> in
  match us with
  | Throw e => (Throw e, d)
  | Ok us =>
      let (ss, sf) := readStrict (sessionsFile d) "sessions" in
      let d := d <| sessionsFile := sf |> in
      match ss with
      | Throw e => (Throw e, d)
      | Ok ss =>
          let (ps, pf) := readStrict (projectsFile d) "projects" in
          let d := d <| projectsFile := pf |> in
          match ps with Throw e => (Throw e, d) | Ok ps => (Ok (Store us ss ps d), d) end
      end
  end.

(** [persist]: the file is replaced when the write succeeds. *)
(* [src/backend/src/tenant-store.js:91-93] persist *)
Definition persist {A} (ok : bool) (l : list A) (f : file A) : file A := if ok then Rows l else f.

Definition save_users (ok : bool) (s : store) : store := s <| files ::= λ d, d <| usersFile ::= persist ok (users s) |> |>.
Definition save_sessions (ok : bool) (s : store) : store :=
  s <| files ::= λ d, d <| sessionsFile ::= persist ok (sessions s) |> |>.
Definition save_projects (ok : bool) (s : store) : store :=
  s <| files ::= λ d, d <| projectsFile ::= persist ok (projects s) |> |>.

(** ** Validation *)

(** [/^[^\s@]+@[^\s@]+\.[^\s@]+$/]: one [@], no white space, and a dot inside
    the part after it. *)
(* [src/backend/src/tenant-store.js:14-14] EMAIL_RE *)
Definition EMAIL_RE (s : string) : bool :=
  negb (any_char is_space s) &&
  match split_on "@"%char s with
  | [l; String _ d] => truthy_str l && any_suffix (λ t, match t with String "." (String _ _) => true | _ => false end) d
  | _ => false
  end.

Definition POLICIES : list string := ["quality_first"; "balanced"; "maximum_savings"; "lowest_latency"; "custom"].
Definition PRIVACY_MODES : list string := ["metadata_only"; "standard"; "zero_retention"].

(** [list.includes(v) ? v : fallback] *)
Definition one_of_values (l : list string) (v : jsval) (fallback : string) : string :=
  match v with JStr s => if bool_decide (s ∈ l) then s else fallback | _ => fallback end.

(** [v ? String(v).slice(0, n) : null] *)
Definition text_or_null (n : nat) (v : jsval) : option string :=
  if truthy_val v then Some (slice0 n (to_string v)) else None.

(** [String(v || fallback)] *)
Definition text_or (v : jsval) (fallback : string) : string := if truthy_val v then to_string v else fallback.

(* [src/backend/src/tenant-store.js:100-100] normalized email *)
Definition normalize_email (email : jsval) : string := to_lower (trim (text_or email "")).

Definition bad_request (msg : string) : js_error := JsError (Some "bad_request") msg.
Definition invalid_login : js_error := JsError (Some "unauthenticated") "invalid email or password".

(** The user without its password. *)
(* [src/backend/src/tenant-store.js:135-138] publicUser *)
Record public_user := PublicUser {
  pu_id : string; pu_email : string; pu_name : string; pu_orgId : option string; pu_role : string; pu_createdAt : Z;
}.
Definition publicUser (u : user) : public_user :=
  PublicUser (u_id u) (u_email u) (u_name u) (Some (u_orgId u)) (u_role u) (u_createdAt u).

(** The principal a session stands for (auth.js [authenticate]). *)
(* [src/backend/src/auth.js:148-148] session principal *)
Definition session_principal (u : public_user) : principal :=
  Principal (pu_id u) (pu_role u) (pu_orgId u) "session".

(** ** Operations *)

Section Store.
Context (sha256 : string → string) (scrypt : string → string → string).

(** What a user or principal is to [createProject]. *)
Record owner := Owner { w_id : string; w_orgId : option string }.

Record project_fields := Fields { f_name : jsval; f_referenceModelId : jsval; f_policy : jsval; f_privacyMode : jsval }.

(* [src/backend/src/tenant-store.js:202-219] createProject *)
Definition createProject (newId : string) (now : Z) (ok : bool) (w : owner) (f : project_fields) (s : store)
    : store * project :=
  let p := Project ("prj-" ++ newId) (w_orgId w) (w_id w) (slice0 100 (text_or (f_name f) "Untitled project"))
    (text_or_null 200 (f_referenceModelId f)) (one_of_values POLICIES (f_policy f) "balanced")
    (one_of_values PRIVACY_MODES (f_privacyMode f) "standard") now None in
  (save_projects ok (s <| projects ::= λ l, l ++ [p] |>)%list, p).

Record fresh := Fresh { fr_user : string; fr_org : string; fr_salt : string; fr_project : string; fr_token : string }.

(** [oks]: whether the two writes succeed. *)
(* [src/backend/src/tenant-store.js:99-133] signup *)
Definition signup (r : fresh) (now : Z) (oks : bool * bool) (email password name : jsval) (s : store)
    : res (store * (public_user * project)) :=
  let normalized := normalize_email email in
  if negb (EMAIL_RE normalized) then Throw (bad_request "valid email required")
  else match password with
  | JStr pw =>
      if (String.length pw <? 12)%nat || (256 <? String.length pw)%nat then
        Throw (bad_request "password must be 12 to 256 characters")
      else if existsb (λ u, String.eqb (u_email u) normalized) (users s) then
        Throw (JsError (Some "conflict") "email already registered")
      else
        let displayName := slice0 80 (text_or name (default "" (head (split_on "@"%char normalized)))) in
        let u := User ("usr-" ++ fr_user r) normalized displayName (scrypt pw (fr_salt r)) (fr_salt r)
                   ("org-" ++ fr_org r) "admin" now in
        let s := save_users oks.1 (s <| users ::= λ l, l ++ [u] |>)%list in
        let (s, p) := createProject (fr_project r) now oks.2 (Owner (u_id u) (Some (u_orgId u)))
                        (Fields (JStr "My first project") JUndef JUndef JUndef) s in
        Ok (s, (publicUser u, p))
  | _ => Throw (bad_request "password must be 12 to 256 characters")
  end.

(* [src/backend/src/tenant-store.js:140-146] findUser *)
Definition findUser (email : jsval) (s : store) : option user :=
  find (λ u, String.eqb (u_email u) (normalize_email email)) (users s).

(** The raw token and the user. *)
(* [src/backend/src/tenant-store.js:156-170] _finishLogin *)
Definition finishLogin (u : option user) (token : string) (now : Z) (ok : bool) (password : jsval) (s : store)
    : res (store * (string * public_user)) :=
  match u, password with
  | Some u, JStr pw =>
      if negb (timingSafeEqual (scrypt pw (u_passwordSalt u)) (u_passwordHash u)) then Throw invalid_login
      else
        let x := Session (sha256 token) (u_id u) now (now + SESSION_TTL_MS) in
        Ok (save_sessions ok (s <| sessions ::= λ l, l ++ [x] |>)%list, (token, publicUser u))
  | _, _ => Throw invalid_login
  end.

(* [src/backend/src/tenant-store.js:148-154] login *)
Definition login (token : string) (now : Z) (ok : bool) (email password : jsval) (s : store)
    : res (store * (string * public_user)) :=
  finishLogin (findUser email s) token now ok password s.

(* [src/backend/src/tenant-store.js:183-190] userForSession, files *)
Definition userForSession (token : string) (now : Z) (ok : bool) (s : store) : store * option public_user :=
  if negb (truthy_str token) then (s, None)
  else
    let kept := filter (λ x, now < s_expiresAt x)%Z (sessions s) in
    let s' := s <| sessions := kept |> in
    let s := if decide (length kept = length (sessions s)) then s' else save_sessions ok s' in
    match find (λ x, timingSafeEqual (s_hash x) (sha256 token) && bool_decide (now < s_expiresAt x)%Z) (sessions s) with
    | None => (s, None)
    | Some x => (s, publicUser <$> find (λ u, String.eqb (u_id u) (s_userId x)) (users s))
    end.

(* [src/backend/src/tenant-store.js:197-199] revoke, files *)
Definition revoke (token : string) (ok : bool) (s : store) : store :=
  let kept := filter (λ x, timingSafeEqual (s_hash x) (sha256 token) = false) (sessions s) in
  let s' := s <| sessions := kept |> in
  if decide (length kept = length (sessions s)) then s' else save_sessions ok s'.
End Store.

(** ** Ownership of projects *)

(* [src/backend/src/tenant-store.js:280-286] ownsProject *)
Definition ownsProject (p : option principal) (j : option project) : bool :=
  match p, j with
  | Some q, Some j =>
      isGlobalAdmin p ||
      truthy (j_orgId j) && truthy (p_orgId q) && bool_decide (j_orgId j = p_orgId q) ||
      truthy_str (j_ownerId j) && truthy_str (p_id q) && String.eqb (j_ownerId j) (p_id q)
  | _, _ => false
  end.

(* [src/backend/src/tenant-store.js:288-300] requireProjectAccess *)
Definition requireProjectAccess (p : option principal) (j : option project) : res project :=
  match p, j with
  | None, _ => Throw (JsError (Some "unauthenticated") "authentication required")
  | Some _, Some j' => if ownsProject p j then Ok j' else Throw (JsError (Some "forbidden") "project is not accessible")
  | Some _, None => Throw (JsError (Some "forbidden") "project is not accessible")
  end.

(** [p.orgId === principal.orgId] also holds of two that are undefined. *)
(* [src/backend/src/tenant-store.js:221-231] listProjects *)
Definition listProjects (p : option principal) (s : store) : list project :=
  match p with
  | None => []
  | Some q => filter (λ j, isGlobalAdmin p = true ∨ j_orgId j = p_orgId q ∨ j_ownerId j = p_id q) (projects s)
  end.

(* [src/backend/src/tenant-store.js:233-239] getProject *)
Definition getProject (id : string) (p : option principal) (s : store) : option project :=
  find (λ j, String.eqb (j_id j) id) (listProjects p s).

(** The assignments of a patch. *)
(* [src/backend/src/tenant-store.js:261-265] updateProject, assignments *)
Definition patch_project (now : Z) (f : project_fields) (j : project) : project :=
  let j := match f_name f with JUndef => j | v => j <| j_name := slice0 100 (text_or v (j_name j)) |> end in
  let j := match f_referenceModelId f with JUndef => j | v => j <| j_referenceModelId := text_or_null 200 v |> end in
  let j := j <| j_policy := one_of_values POLICIES (f_policy f) (j_policy j) |> in
  let j := j <| j_privacyMode := one_of_values PRIVACY_MODES (f_privacyMode f) (j_privacyMode j) |> in
  j <| j_updatedAt := Some now |>.

(** The array's element is updated in place: the first with this id. *)
Fixpoint update_first {A} (t : A → bool) (f : A → A) (l : list A) : list A :=
  match l with [] => [] | x :: l' => if t x then f x :: l' else x :: update_first t f l' end.

(* [src/backend/src/tenant-store.js:241-268] updateProject *)
Definition updateProject (id : string) (p : option principal) (now : Z) (ok : bool) (f : project_fields) (s : store)
    : store * option project :=
  let j := find (λ j, String.eqb (j_id j) id) (projects s) in
  if negb (ownsProject p j) then (s, None)
  else
    let s := s <| projects ::= update_first (λ j, String.eqb (j_id j) id) (patch_project now f) |> in
    (save_projects ok s, patch_project now f <$> j).

(** ** Authenticating a request *)

(* [src/backend/src/auth.js:135-152] authenticate *)
Definition authenticate (sha256 : string → string) (c : auth_config) (headers : jsmap string string) (now : Z)
    (ok : bool) (s : store) : store * option principal :=
  if negb (enabled c) then (s, Some (Principal "dev" "admin" (Some "dev-org") "dev-mode"))
  else match principalForToken c (bearerFromHeaders headers) with
  | Some p => (s, Some p)
  | None =>
      let token := readSessionCookie headers in
      if truthy_str token then
        let (s, u) := userForSession sha256 token now ok s in (s, session_principal <$> u)
      else (s, None)
  end.

(** * Properties *)

(** ** The cookie carries the token *)

Lemma hex_upper_value n : (n < 16)%nat → hex_digit_value (hex_upper n) = Some n.
Proof. intros H. do 16 (destruct n as [|n]; [reflexivity|]). lia. Qed.

Lemma escaped_byte_encode c rest :
  let n := nat_of_ascii c in
  escaped_byte (String "%" (String (hex_upper (n / 16)) (String (hex_upper (n mod 16)) rest))) = Some (n, rest).
Proof.
  intros n. assert (n < 256)%nat by (apply nat_ascii_bounded). unfold escaped_byte.
  rewrite (hex_upper_value (n / 16)) by (apply Nat.Div0.div_lt_upper_bound; lia).
  rewrite (hex_upper_value (n mod 16)) by (by apply Nat.mod_upper_bound).
  cbn [mbind option_bind]. by rewrite <-Nat.div_mod_eq.
Qed.

(** Characters below 128, as the tokens of a session are. *)
Definition plain_text (s : string) : Prop := any_char (λ c, bool_decide (128 ≤ nat_of_ascii c)%nat) s = false.

Lemma decode_encode fuel s : plain_text s → (String.length (encode_component s) < fuel)%nat →
  decode_bytes fuel 0 0 0 (encode_component s) = Some s.
Proof.
  revert fuel. induction s as [|c s IH]; intros [|fuel] Hp Hf; try (cbn in Hf; lia); [done|].
  unfold plain_text in Hp. simpl in Hp. apply orb_false_iff in Hp as [Hc Hp]. apply bool_decide_eq_false in Hc.
  cbn [encode_component] in *. destruct (unreserved c) eqn:Hu; cbv zeta in *; cbn [String.length] in Hf.
  - assert (c ≠ "%"%char) as Hne by (intros ->; done).
    assert (decode_bytes (S fuel) 0 0 0 (String c (encode_component s)) =
      String c <$> decode_bytes fuel 0 0 0 (encode_component s)) as ->
      by (destruct c as [[] [] [] [] [] [] [] []]; done).
    by rewrite IH by (done || lia).
  - pose proof (escaped_byte_encode c (encode_component s)) as He. cbv zeta in He.
    cbn [decode_bytes]. rewrite He. cbn [mbind option_bind].
    rewrite decide_True by lia. rewrite IH by (done || lia). cbn [fmap option_fmap option_map].
    by rewrite ascii_nat_embedding.
Qed.

Lemma decode_component_encode s : plain_text s → decode_component (encode_component s) = Some s.
Proof. intros. apply decode_encode; [done|lia]. Qed.

(** *** Separators *)

Lemma trim_space s : trim (String " " s) = trim s.
Proof. done. Qed.

Definition semicolon (c : ascii) : bool := Ascii.eqb c ";"%char.

Lemma split_semi a b : any_char semicolon a = false →
  split_on ";"%char (a ++ String ";" b) = a :: split_on ";"%char b.
Proof.
  induction a as [|c a IH]; simpl; [done|]. intros [Hc Ha]%orb_false_iff.
  rewrite decide_False by (by intros ->). by rewrite IH.
Qed.
Lemma split_last a : any_char semicolon a = false → split_on ";"%char a = [a].
Proof.
  induction a as [|c a IH]; simpl; [done|]. intros [Hc Ha]%orb_false_iff.
  rewrite decide_False by (by intros ->). by rewrite IH.
Qed.

Lemma split_semi_join x l : Forall (λ o, any_char semicolon o = false) (x :: l) →
  split_on ";"%char (js_join "; " (x :: l)) = x :: List.map (String " ") l.
Proof.
  revert x. induction l as [|y l IH]; intros x H; apply Forall_cons in H as [Hx Hl].
  - by apply split_last.
  - change (js_join "; " (x :: y :: l)) with (x ++ String ";" (String " " (js_join "; " (y :: l)))).
    rewrite split_semi by done. cbn [List.map]. f_equal.
    cbn [split_on]. rewrite decide_False by done. by rewrite (IH y Hl).
Qed.

Lemma encode_chars f s : (∀ c, unreserved c = true → f c = false) → (∀ n, f (hex_upper n) = false) →
  f "%"%char = false → any_char f (encode_component s) = false.
Proof.
  intros H1 H2 H3. induction s as [|c s IH]; cbn [encode_component]; [done|].
  destruct (unreserved c) eqn:Hu; cbv zeta; cbn [any_char]; rewrite ?IH, ?H2, ?H3, ?orb_false_r; auto.
Qed.

Lemma unreserved_not_space c : unreserved c = true → is_space c = false.
Proof. destruct c as [[] [] [] [] [] [] [] []]; vm_compute; done. Qed.
Lemma unreserved_not_semi c : unreserved c = true → semicolon c = false.
Proof. destruct c as [[] [] [] [] [] [] [] []]; vm_compute; done. Qed.
Lemma hex_upper_cases n : (n < 16)%nat ∨ hex_upper n = "0"%char.
Proof. do 16 (destruct n as [|n]; [left; lia|]). by right. Qed.
Lemma hex_upper_plain n : is_space (hex_upper n) = false ∧ semicolon (hex_upper n) = false.
Proof.
  destruct (hex_upper_cases n) as [Hn| ->]; [|done]. do 16 (destruct n as [|n]; [done|]). lia.
Qed.

Lemma prefix_and_rest p s : starts_with p (p ++ s) = true ∧ string_drop (String.length p) (p ++ s) = s.
Proof.
  induction p as [|c p [IH1 IH2]]; [by destruct s|]. unfold starts_with in *. split; [|exact IH2].
  change (String.prefix (String c p) (String c (p ++ s)) = true). simpl.
  by destruct (ascii_dec c c).
Qed.

Lemma trim_split_join x l : Forall (λ o, any_char semicolon o = false) (x :: l) →
  List.map trim (split_on ";"%char (js_join "; " (x :: l))) = List.map trim (x :: l).
Proof. intros H. rewrite split_semi_join by done. cbn [List.map]. f_equal. by rewrite List.map_map. Qed.

Lemma find_skip {A} (f : A → bool) l x l' : Forall (λ y, f y = false) l → f x = true →
  List.find f (l ++ x :: l') = Some x.
Proof. induction 1 as [|y l Hy Hl IH]; simpl; intros Hx; [by rewrite Hx|]. rewrite Hy. by apply IH. Qed.

(** C39: the session cookie carries the token. For every token (plain text, as
    the issued ones are) and whatever other cookies the browser sends along, the
    value that [buildSessionCookie] sets is read back by [readSessionCookie] as
    exactly that token: escaping, attributes and the other cookies never change
    or hide it; and after [clearSessionCookie] nothing is read. *)
Theorem cookie_roundtrip before after token secure :
  plain_text token →
  Forall (λ o, any_char semicolon o = false) (before ++ after) →
  Forall (λ o, starts_with "oa_session=" (trim o) = false) before →
  readSessionCookie [("cookie", js_join "; " (before ++ cookie_pair (buildSessionCookie token secure) :: after))] = token ∧
  readSessionCookie [("cookie", js_join "; " (before ++ cookie_pair clearSessionCookie :: after))] = "".
Proof.
  intros Ht Hs Hb. apply Forall_app in Hs as [Hsb Hsa].
  assert (∀ v, any_char semicolon v = false → any_char is_space v = false → ∀ r,
    readSessionCookie [("cookie", js_join "; " (before ++ cookie_pair ("oa_session=" ++ v ++ "; " ++ r) :: after))] =
    default "" (decode_component v)) as H.
  { intros v Hv1 Hv2 r.
    assert (cookie_pair ("oa_session=" ++ v ++ "; " ++ r) = "oa_session=" ++ v) as ->.
    { unfold cookie_pair. rewrite <-string_app_assoc.
      change ("; " ++ r) with (String ";" (String " " r)). rewrite split_semi; [done|].
      by rewrite any_char_app, Hv1. }
    set (part := "oa_session=" ++ v).
    assert (any_char is_space part = false) as Hp by (unfold part; rewrite any_char_app, Hv2; reflexivity).
    unfold readSessionCookie. 
    assert (env_or [("cookie", js_join "; " (before ++ part :: after))] ["cookie"; "Cookie"] =
      js_join "; " (before ++ part :: after)) as ->.
    { unfold env_or. simpl. unfold or_str. by destruct (truthy_str _) eqn:E; [|destruct (js_join _ _)]. }
    assert (string_drop (S (String.length SESSION_COOKIE_NAME)) part = v) as Hd
      by exact (proj2 (prefix_and_rest "oa_session=" v)).
    assert (∀ L, List.find (starts_with "oa_session=") (List.map trim (before ++ part :: L)) = Some part) as Hf.
    { intros L. rewrite List.map_app. cbn [List.map]. rewrite (trim_id part) by done.
      apply find_skip; [|apply prefix_and_rest]. by apply Forall_map. }
    change (SESSION_COOKIE_NAME ++ "=") with "oa_session=".
    assert (List.map trim (split_on ";"%char (js_join "; " (before ++ part :: after))) =
      List.map trim (before ++ part :: after)) as ->; [|by rewrite Hf, Hd].
    assert (Forall (λ o, any_char semicolon o = false) (before ++ part :: after)) as Hall.
    { apply Forall_app. split; [done|]. constructor; [|done]. unfold part. by rewrite any_char_app, Hv1. }
    destruct (before ++ part :: after)%list as [|x l] eqn:E; [by destruct before|]. by apply trim_split_join. }
  split.
  - change (buildSessionCookie token secure) with ("oa_session=" ++ encode_component token ++ "; " ++
      ("HttpOnly; SameSite=Lax; Path=/" ++ if secure then "; Secure" else "")).
    rewrite H.
    + by rewrite decode_component_encode.
    + apply encode_chars; [apply unreserved_not_semi|intros n; apply hex_upper_plain|done].
    + apply encode_chars; [apply unreserved_not_space|intros n; apply hex_upper_plain|done].
  - exact (H "" eq_refl eq_refl "HttpOnly; SameSite=Lax; Path=/; Max-Age=0").
Qed.

Lemma cookie_roundtrip_witness :
  readSessionCookie [("cookie", "theme=dark; oa_session=a%2Fb-1; lang=en")] = "a/b-1".
Proof.
  refine (proj1 (cookie_roundtrip ["theme=dark"] ["lang=en"] "a/b-1" true _ _ _)).
  - vm_compute. reflexivity.
  - repeat constructor.
  - repeat constructor.
Defined.

(** ** Sessions *)

(** A login: its token, the user and the password it was made with, its time. *)
Record login_record := Login { l_token : string; l_user : user; l_password : string; l_at : Z }.

(** The logins made and not revoked: those in force, and those a restart brings
    back, which are the ones in force at the last write that succeeded. *)
Record logins := Logins { v_live : list login_record; v_saved : list login_record }.
Definition put (written : bool) (l : list login_record) (v : logins) : logins :=
  Logins l (if written then l else v_saved v).

Definition rows {A} (f : file A) : list A := match f with Rows l => l | _ => [] end.

(** Every user the store has, finds on disk, or had when it logged in. *)
Definition known (s : store) (v : logins) : list user :=
  (users s ++ rows (usersFile (files s)) ++ (l_user <$> v_live v ++ v_saved v))%list.

#[local] Arguments known : simpl never.

(** What a look-up at [now] or a revocation leaves of the sessions; the file is
    written when that is fewer. *)
Definition unexpired (now : Z) (s : store) : list session := filter (λ x, now < s_expiresAt x)%Z (sessions s).
Definition unrevoked (sha256 : string → string) (token : string) (s : store) : list session :=
  filter (λ x, timingSafeEqual (s_hash x) (sha256 token) = false) (sessions s).
Definition fewer (kept : list session) (s : store) : bool := bool_decide (length kept ≠ length (sessions s)).

Section Sessions.
Context (sha256 : string → string) (scrypt : string → string → string).

(** Everything that can happen to a store, next to the logins; [ok] says whether
    a write succeeds, which no caller is told. *)
Inductive tstep : store * logins → store * logins → Prop :=
| step_signup s v r now oks email pw name s' x :
    signup scrypt r now oks email pw name s = Ok (s', x) →
    "usr-" ++ fr_user r ∉ u_id <$> known s v → tstep (s, v) (s', v)
| step_login s v token now ok email pw s' x u :
    login sha256 scrypt token now ok email (JStr pw) s = Ok (s', x) → findUser email s = Some u →
    tstep (s, v) (s', put ok (v_live v ++ [Login token u pw now])%list v)
| step_lookup s v token now ok :
    tstep (s, v) ((userForSession sha256 token now ok s).1,
      put (truthy_str token && fewer (unexpired now s) s && ok) (v_live v) v)
| step_revoke s v token ok :
    tstep (s, v) (revoke sha256 token ok s,
      put (fewer (unrevoked sha256 token s) s && ok) (filter (λ l, l_token l ≠ token) (v_live v)) v)
| step_create s v id now ok w f : tstep (s, v) ((createProject id now ok w f s).1, v)
| step_update s v id p now ok f : tstep (s, v) ((updateProject id p now ok f s).1, v)
| step_restart s v s' d : open_store (files s) = (Ok s', d) → tstep (s, v) (s', Logins (v_saved v) (v_saved v)).

Definition no_store : store := Store [] [] [] (Disk Missing Missing Missing).
Definition no_logins : logins := Logins [] [].
Definition treachable (sv : store * logins) : Prop := rtc tstep (no_store, no_logins) sv.

(** The file can be read. *)
Definition readable {A} (f : file A) : Prop := f = Missing ∨ ∃ l, f = Rows l.

Definition backed (v : list login_record) (x : session) : Prop :=
  ∃ l, l ∈ v ∧ s_hash x = sha256 (l_token l) ∧ s_userId x = u_id (l_user l) ∧ s_expiresAt x = (l_at l + SESSION_TTL_MS)%Z.
Definition right_password (l : login_record) : Prop :=
  scrypt (l_password l) (u_passwordSalt (l_user l)) = u_passwordHash (l_user l).
(** One user per id. *)
Definition same_ids (us : list user) : Prop := ∀ x y, x ∈ us → y ∈ us → u_id x = u_id y → x = y.

Record tenant_inv (sv : store * logins) : Prop := {
  ti_live : ∀ x, x ∈ sessions sv.1 → backed (v_live sv.2) x;
  ti_saved : ∀ x, x ∈ rows (sessionsFile (files sv.1)) → backed (v_saved sv.2) x;
  ti_passwords : ∀ l, l ∈ v_live sv.2 ∨ l ∈ v_saved sv.2 → right_password l;
  ti_known : same_ids (known sv.1 sv.2);
  ti_files : readable (usersFile (files sv.1)) ∧ readable (sessionsFile (files sv.1)) ∧ readable (projectsFile (files sv.1));
}.

Lemma rows_persist {A} ok (l : list A) f : rows (persist ok l f) = if ok then l else rows f.
Proof. by destruct ok. Qed.
Lemma readable_persist {A} ok (l : list A) f : readable f → readable (persist ok l f).
Proof. destruct ok; [by right; eexists|done]. Qed.

Lemma same_ids_sub us us' : same_ids us → (∀ x, x ∈ us' → x ∈ us) → same_ids us'.
Proof. intros H Hs x y Hx Hy. apply H; auto. Qed.

Lemma elem_known_rows s v x : x ∈ known s v ↔
  x ∈ users s ∨ x ∈ rows (usersFile (files s)) ∨ (∃ l, (l ∈ v_live v ∨ l ∈ v_saved v) ∧ x = l_user l).
Proof. unfold known. rewrite !elem_of_app, list_elem_of_fmap. setoid_rewrite elem_of_app. naive_solver. Qed.

Lemma filter_same_length {A} (P : A → Prop) `{∀ x, Decision (P x)} l :
  length (filter P l) = length l → filter P l = l.
Proof.
  induction l as [|x l IH]; [done|]. rewrite filter_cons. case_decide; simpl; intros E.
  - f_equal. apply IH. lia.
  - pose proof (length_filter P l). lia.
Qed.

(** Fewer sessions, each still backed, whether they are written or not. *)
Lemma inv_keep (s : store) v kept l written ok :
  tenant_inv (s, v) → (∀ x, x ∈ kept → backed l x) → (∀ x, x ∈ l → x ∈ v_live v) →
  tenant_inv (s <| sessions := kept |> <| files ::= λ d, d <| sessionsFile ::= persist (written && ok) kept |> |>,
    put (written && ok) l v).
Proof.
  intros [H1 H2 H3 H4 (H5 & H6 & H7)] Hk Hl. constructor; cbn.
  - done.
  - rewrite rows_persist. destruct (written && ok); [done|by apply H2].
  - intros x [Hx|Hx]; apply H3; [left; auto|]. destruct (written && ok); [left; auto|by right].
  - eapply same_ids_sub; [exact H4|]. intros x. rewrite !elem_known_rows. cbn.
    intros [?|[?|(y & Hy & ->)]]; [by left|by right; left|]. right; right. exists y. split; [|done].
    destruct Hy as [?|Hy]; [left; auto|]. destruct (written && ok); [left; auto|by right].
  - split; [done|]. split; [by apply readable_persist|done].
Qed.

Lemma open_readable s s' d : readable (usersFile (files s)) → readable (sessionsFile (files s)) →
  readable (projectsFile (files s)) → open_store (files s) = (Ok s', d) →
  users s' = rows (usersFile (files s)) ∧ sessions s' = rows (sessionsFile (files s)) ∧ files s' = files s.
Proof.
  intros H1 H2 H3. destruct s as [us ss ps [uf sf pf]]. cbn in *. unfold open_store. cbn [usersFile].
  destruct H1 as [->|[l1 ->]], H2 as [->|[l2 ->]], H3 as [->|[l3 ->]]; cbn; intros [= <- <-]; done.
Qed.

Lemma find_Some_in {A} (f : A → bool) l x : List.find f l = Some x → x ∈ l ∧ f x = true.
Proof. intros H. destruct (List.find_some _ _ H) as [H1 H2]. split; [by apply list_elem_of_In|done]. Qed.

Lemma equal_texts a b : timingSafeEqual a b = true ↔ a = b.
Proof.
  unfold timingSafeEqual. split; [by intros [_ H%String.eqb_eq]%andb_true_iff|].
  intros ->. by rewrite Nat.eqb_refl, String.eqb_refl.
Qed.

Lemma login_spec token now ok email pw s s' t u :
  login sha256 scrypt token now ok email pw s = Ok (s', (t, u)) →
  t = token ∧ ∃ x p, x ∈ users s ∧ u = publicUser x ∧ pw = JStr p ∧ u_email x = normalize_email email ∧
    scrypt p (u_passwordSalt x) = u_passwordHash x ∧
    s' = save_sessions ok (s <| sessions ::= λ l, l ++ [Session (sha256 token) (u_id x) now (now + SESSION_TTL_MS)] |>)%list.
Proof.
  unfold login, finishLogin, findUser. destruct (List.find _ _) as [x|] eqn:Ef; [|done].
  apply find_Some_in in Ef as [Hx He]. apply String.eqb_eq in He.
  destruct pw as [| | | |p| |]; try done. destruct (negb _) eqn:Ep; [done|]. intros [= <- <- <-].
  apply negb_false_iff, equal_texts in Ep. split; [done|]. by exists x, p.
Qed.

Lemma inv_login s v token now ok email pw s' x u : tenant_inv (s, v) →
  login sha256 scrypt token now ok email (JStr pw) s = Ok (s', x) → findUser email s = Some u →
  tenant_inv (s', put ok (v_live v ++ [Login token u pw now])%list v).
Proof.
  intros [H1 H2 H3 H4 (H5 & H6 & H7)] Hlog Hu. unfold login, finishLogin in Hlog. rewrite Hu in Hlog.
  destruct (negb _) eqn:Ep; [done|]. apply negb_false_iff, equal_texts in Ep. injection Hlog as <- _.
  unfold findUser in Hu. apply find_Some_in in Hu as [Hu _].
  set (l := Login token u pw now).
  assert (∀ y, y ∈ (sessions s ++ [Session (sha256 token) (u_id u) now (now + SESSION_TTL_MS)])%list →
    backed (v_live v ++ [l])%list y) as Hb.
  { intros y [Hy|Hy%list_elem_of_singleton]%elem_of_app.
    - destruct (H1 y Hy) as (l' & Hl & ?). exists l'. split; [apply elem_of_app; by left|done].
    - subst y. exists l. split; [apply elem_of_app; right; by left|done]. }
  constructor; cbn; unfold put; cbn.
  - exact Hb.
  - rewrite rows_persist. destruct ok; [exact Hb|by apply H2].
  - intros y. rewrite elem_of_app, list_elem_of_singleton. intros [[Hy| ->]|Hy].
    + apply H3. by left.
    + exact Ep.
    + destruct ok; [|by apply H3; right]. rewrite elem_of_app, list_elem_of_singleton in Hy.
      destruct Hy as [Hy| ->]; [apply H3; by left|exact Ep].
  - eapply same_ids_sub; [exact H4|]. intros y. rewrite !elem_known_rows. cbn.
    assert (∀ z, z ∈ (v_live v ++ [l])%list → l_user z ∈ users s ∨ z ∈ v_live v) as Hin.
    { intros z [?|Hz%list_elem_of_singleton]%elem_of_app; [by right|]. left. by subst z. }
    intros [?|[?|(z & Hz & ->)]]; [by left|by right; left|].
    assert (l_user z ∈ users s ∨ z ∈ v_live v ∨ z ∈ v_saved v) as [?|?]; [|by left|right; right; by exists z].
    destruct Hz as [Hz|Hz]; [destruct (Hin z Hz); auto|]. destruct ok; [destruct (Hin z Hz)|]; auto.
  - split; [done|]. split; [by apply readable_persist|done].
Qed.

Lemma signup_spec r now oks email pw name s s' x :
  signup scrypt r now oks email pw name s = Ok (s', x) →
  ∃ u j, u_id u = "usr-" ++ fr_user r ∧ u_email u = normalize_email email ∧
    (∀ y, y ∈ users s → u_email y ≠ u_email u) ∧ x = (publicUser u, j) ∧
    s' = save_projects oks.2 (save_users oks.1 (s <| users ::= λ l, l ++ [u] |>) <| projects ::= λ l, l ++ [j] |>)%list.
Proof.
  unfold signup. destruct (negb _); [done|]. destruct pw as [| | | |p| |]; try done.
  destruct (_ || _); [done|]. destruct (existsb _ _) eqn:Ee; [done|].
  set (u := User _ _ _ _ _ _ _ _). intros [= <- <-]. exists u. eexists. split; [done|]. split; [done|].
  split; [|done]. intros y Hy Heq. apply not_true_iff_false in Ee. apply Ee, existsb_exists. exists y.
  split; [by apply list_elem_of_In|]. by apply String.eqb_eq.
Qed.

Lemma inv_signup s v r now oks email pw name s' x : tenant_inv (s, v) →
  signup scrypt r now oks email pw name s = Ok (s', x) →
  "usr-" ++ fr_user r ∉ u_id <$> known s v → tenant_inv (s', v).
Proof.
  intros [H1 H2 H3 H4 (H5 & H6 & H7)] (u & j & Hid & Hem & Hne & _ & ->)%signup_spec Hnew.
  assert (∀ y, y ∈ known s v → u_id y ≠ u_id u) as Hfresh.
  { intros y Hy E. apply Hnew. rewrite <-Hid, <-E. by apply list_elem_of_fmap_2. }
  constructor; cbn; try done.
  - intros y z. rewrite !elem_known_rows. cbn. rewrite rows_persist.
    assert (∀ w, (w ∈ (users s ++ [u])%list ∨ w ∈ (if oks.1 then (users s ++ [u])%list else rows (usersFile (files s))) ∨
      ∃ l, (l ∈ v_live v ∨ l ∈ v_saved v) ∧ w = l_user l) → w = u ∨ w ∈ known s v) as Hin.
    { intros w. rewrite elem_known_rows. destruct oks.1; rewrite ?elem_of_app, ?list_elem_of_singleton; tauto. }
    intros [->|Hy]%Hin [->|Hz]%Hin E; [done| | |by apply H4].
    + by destruct (Hfresh z Hz).
    + by destruct (Hfresh y Hy).
  - split; [by apply readable_persist|]. split; [done|by apply readable_persist].
Qed.

Lemma lookup_state token now ok s :
  (userForSession sha256 token now ok s).1 =
  (if negb (truthy_str token) then s
   else let kept := filter (λ x, now < s_expiresAt x)%Z (sessions s) in
        if decide (length kept = length (sessions s)) then s else save_sessions ok (s <| sessions := kept |>)).
Proof.
  unfold userForSession. destruct (negb _); [done|]. cbv zeta.
  assert (length (filter (λ x, now < s_expiresAt x)%Z (sessions s)) = length (sessions s) →
    s <| sessions := filter (λ x, now < s_expiresAt x)%Z (sessions s) |> = s) as Hs.
  { intros H%filter_same_length. destruct s. simpl in *. by rewrite H. }
  case_decide as Hd; [rewrite (Hs Hd)|]; by destruct (List.find _ _).
Qed.

Lemma lookup_result token now ok s : truthy_str token = true →
  (userForSession sha256 token now ok s).2 =
  match List.find (λ x, timingSafeEqual (s_hash x) (sha256 token) && bool_decide (now < s_expiresAt x)%Z)
          (filter (λ x, now < s_expiresAt x)%Z (sessions s)) with
  | None => None
  | Some x => publicUser <$> List.find (λ u, String.eqb (u_id u) (s_userId x)) (users s)
  end.
Proof. intros Ht. unfold userForSession. rewrite Ht. cbn [negb]. case_decide; by destruct (List.find _ _). Qed.

Lemma find_by_id us u : same_ids us → u ∈ us → List.find (λ y, String.eqb (u_id y) (u_id u)) us = Some u.
Proof.
  intros Hs Hu. destruct (List.find _ us) as [y|] eqn:E.
  - apply find_Some_in in E as [Hy E%String.eqb_eq]. f_equal. by apply Hs.
  - apply list_elem_of_In in Hu. pose proof (List.find_none _ _ E u Hu) as H. cbn in H. by rewrite String.eqb_refl in H.
Qed.

Lemma same_store (s : store) v : tenant_inv (s, v) → tenant_inv (s, put false (v_live v) v).
Proof. by destruct v. Qed.

Lemma inv_lookup s v token now ok : tenant_inv (s, v) →
  tenant_inv ((userForSession sha256 token now ok s).1, put (truthy_str token && fewer (unexpired now s) s && ok) (v_live v) v).
Proof.
  intros Hi. rewrite lookup_state. destruct (truthy_str token); [|by apply same_store]. cbn [negb andb]. cbv zeta.
  unfold fewer, unexpired. case_decide as Hd; [rewrite bool_decide_false by tauto; by apply same_store|].
  rewrite bool_decide_true by done.
  apply (inv_keep s v _ (v_live v) true ok); [done| |done]. intros x [_ Hx]%list_elem_of_filter. by apply Hi.
Qed.

Lemma inv_revoke s v token ok : tenant_inv (s, v) →
  tenant_inv (revoke sha256 token ok s, put (fewer (unrevoked sha256 token s) s && ok) (filter (λ l, l_token l ≠ token) (v_live v)) v).
Proof.
  intros Hi. unfold revoke, fewer, unrevoked. set (kept := filter _ (sessions s)).
  assert (∀ x, x ∈ kept → backed (filter (λ l, l_token l ≠ token) (v_live v)) x) as Hk.
  { intros x [Hne Hx]%list_elem_of_filter. destruct (ti_live _ Hi x Hx) as (l & Hl & Hh & ?).
    exists l. split; [|done]. apply list_elem_of_filter. split; [|done]. intros Heq.
    apply not_true_iff_false in Hne. apply Hne, equal_texts. by rewrite Hh, Heq. }
  assert (∀ x, x ∈ filter (λ l, l_token l ≠ token) (v_live v) → x ∈ v_live v) as Hl
    by (by intros x [_ ?]%list_elem_of_filter).
  case_decide as Hd.
  - rewrite bool_decide_false by tauto.
    pose proof (inv_keep s v kept _ false ok Hi Hk Hl) as H. destruct s as [us ss ps [uf sf pf]]. exact H.
  - rewrite bool_decide_true by done. exact (inv_keep s v kept _ true ok Hi Hk Hl).
Qed.

Lemma inv_projects s v ok l : tenant_inv (s, v) →
  tenant_inv (s <| projects := l |> <| files ::= λ d, d <| projectsFile ::= persist ok l |> |>, v).
Proof.
  intros [H1 H2 H3 H4 (H5 & H6 & H7)]. constructor; try done. cbn. split; [done|]. split; [done|by apply readable_persist].
Qed.

Lemma inv_restart s v s' d : tenant_inv (s, v) → open_store (files s) = (Ok s', d) →
  tenant_inv (s', Logins (v_saved v) (v_saved v)).
Proof.
  intros [H1 H2 H3 H4 (H5 & H6 & H7)] Ho. cbn in *. destruct (open_readable s s' d H5 H6 H7 Ho) as (E1 & E2 & E3).
  constructor; cbn; rewrite ?E1, ?E2, ?E3; try done.
  - intros l [?|?]; apply H3; by right.
  - eapply same_ids_sub; [exact H4|]. intros x. rewrite !elem_known_rows. cbn. rewrite E1, E3. naive_solver.
Qed.

Lemma tenant_reachable sv : treachable sv → tenant_inv sv.
Proof.
  assert (∀ a b, tstep a b → tenant_inv a → tenant_inv b) as Hstep.
  { intros a b Hs Hi. destruct Hs.
    - by eapply inv_signup.
    - by eapply inv_login.
    - by apply inv_lookup.
    - by apply inv_revoke.
    - by apply (inv_projects s).
    - unfold updateProject. destruct (negb _); [done|]. by apply (inv_projects s).
    - by eapply inv_restart. }
  intros H. apply (rtc_ind_r (λ b, tenant_inv b) (no_store, no_logins)) in H; [done| |].
  - constructor; cbn; try (by intros x ?%not_elem_of_nil); [by intros l [?%not_elem_of_nil|?%not_elem_of_nil]|
      by intros x y ?%not_elem_of_nil|by split_and!; left].
  - intros a b _ Hs Hi. by eapply Hstep.
Qed.
End Sessions.

(** C16: a session stands for a login that was made and not revoked. In every
    state the store can reach by sign-ups, logins, look-ups, revocations, project
    changes and restarts, whichever of its writes fail: a token for which a user
    is found is the token of a login in force, made by that very user, a
    registered one, with a password that matches its hash, less than thirty days
    ago; a revoked token finds nobody; and a fresh login is found again until it
    expires. In force are the logins made and not revoked since; a restart goes
    back to those of the last write of the sessions that succeeded, so that a
    revocation whose write failed is undone by it. *)
Theorem session_sound sha256 scrypt `{!Inj (=) (=) sha256} s v token now ok :
  treachable sha256 scrypt (s, v) →
  (∀ pu, (userForSession sha256 token now ok s).2 = Some pu →
    ∃ l, l ∈ v_live v ∧ l_token l = token ∧ pu = publicUser (l_user l) ∧ l_user l ∈ users s ∧
      scrypt (l_password l) (u_passwordSalt (l_user l)) = u_passwordHash (l_user l) ∧
      (now < l_at l + SESSION_TTL_MS)%Z) ∧
  (∀ ok', (userForSession sha256 token now ok (revoke sha256 token ok' s)).2 = None) ∧
  (∀ email pw at_ s' pu,
    login sha256 scrypt token at_ ok email pw s = Ok (s', (token, pu)) → truthy_str token = true →
    (∀ x, x ∈ sessions s → s_hash x ≠ sha256 token) → (now < at_ + SESSION_TTL_MS)%Z →
    (userForSession sha256 token now ok s').2 = Some pu).
Proof.
  intros Hr. pose proof (tenant_reachable _ _ _ Hr) as Hi. split; [|split].
  - intros pu. destruct (truthy_str token) eqn:Ht; [|by unfold userForSession; rewrite Ht].
    rewrite lookup_result by done. destruct (List.find _ _) as [x|] eqn:Ef; [|done].
    apply find_Some_in in Ef as [[_ Hx]%list_elem_of_filter [Hh He%bool_decide_eq_true]%andb_true_iff].
    apply equal_texts in Hh. destruct (ti_live _ _ _ Hi x Hx) as (l & Hl & Hh' & Hu & Hexp).
    rewrite Hh in Hh'. apply (inj sha256) in Hh'.
    destruct (List.find _ _) as [u|] eqn:Eu; [|done]. intros [= <-].
    apply find_Some_in in Eu as [Hin Hid%String.eqb_eq].
    assert (u = l_user l) as ->.
    { apply (ti_known _ _ _ Hi); [apply elem_known_rows; by left|apply elem_known_rows; right; right; exists l; auto|congruence]. }
    exists l. split; [done|]. split; [done|]. split; [done|]. split; [done|].
    split; [by apply (ti_passwords _ _ _ Hi); left|by rewrite <-Hexp].
  - intros ok'. destruct (truthy_str token) eqn:Ht; [|by unfold userForSession; rewrite Ht].
    rewrite lookup_result by done. destruct (List.find _ _) as [x|] eqn:Ef; [|done]. exfalso.
    apply find_Some_in in Ef as [[_ Hx]%list_elem_of_filter [Hh _]%andb_true_iff].
    unfold revoke in Hx. case_decide; apply list_elem_of_filter in Hx as [Hx _]; congruence.
  - intros email pw at_ s' pu Hlog Ht Hfresh Hnow. apply login_spec in Hlog as (_ & u & p & Hu & -> & _ & _ & _ & ->).
    rewrite lookup_result by done. set (x := Session _ _ _ _).
    set (s1 := save_sessions _ _). assert (sessions s1 = (sessions s ++ [x])%list) as -> by done.
    assert (users s1 = users s) as -> by done.
    rewrite filter_app. rewrite (filter_cons_True _ x []) by exact Hnow. rewrite filter_nil.
    rewrite (find_skip _ _ x []).
    + simpl. rewrite (find_by_id (users s) u); [done| |done].
      eapply same_ids_sub; [exact (ti_known _ _ _ Hi)|]. intros y Hy. apply elem_known_rows. by left.
    + apply Forall_forall. intros y [_ Hy]%list_elem_of_filter. apply andb_false_iff. left.
      apply not_true_iff_false. rewrite equal_texts. by apply Hfresh.
    + apply andb_true_iff. split; [by apply equal_texts|by apply bool_decide_eq_true].
Qed.

(** A hash for the examples. *)
Definition demo_hash (s : string) : string := "h" ++ s.
#[export] Instance demo_hash_inj : Inj (=) (=) demo_hash.
Proof. by intros a b [=]. Qed.
Definition demo_scrypt (p s : string) : string := p ++ "/" ++ s.
Definition demo_signup : store :=
  match signup demo_scrypt (Fresh "1" "1" "salt" "1" "") 0 (true, true) (JStr " Ann@X.io ") (JStr "a long password") JUndef no_store with
  | Ok (s, _) => s | Throw _ => no_store end.
Definition demo_login (s : store) : store * option public_user :=
  match login demo_hash demo_scrypt "tok" 5 true (JStr "ann@x.io") (JStr "a long password") s with
  | Ok (s, (_, u)) => (s, Some u) | Throw _ => (s, None) end.

Definition ann_user : user :=
  User "usr-1" "ann@x.io" "ann" (demo_scrypt "a long password" "salt") "salt" "org-1" "admin" 0.
Definition ann_login : login_record := Login "tok" ann_user "a long password" 5.
Definition ann_logins : logins := Logins [ann_login] [ann_login].

Lemma demo_reachable : treachable demo_hash demo_scrypt ((demo_login demo_signup).1, ann_logins).
Proof.
  eapply rtc_l; [eapply (step_signup _ _ no_store no_logins (Fresh "1" "1" "salt" "1" "") 0 (true, true) (JStr " Ann@X.io ")
    (JStr "a long password") JUndef); [vm_compute; reflexivity|apply not_elem_of_nil]|].
  eapply rtc_l; [|apply rtc_refl].
  refine (step_login _ _ demo_signup no_logins "tok" 5 true (JStr "ann@x.io") "a long password"
    (demo_login demo_signup).1 _ ann_user _ _); vm_compute; reflexivity.
Qed.

Lemma session_sound_witness :
  ∃ l, l ∈ v_live ann_logins ∧ l_token l = "tok" ∧ l_password l = "a long password".
Proof.
  destruct (proj1 (session_sound demo_hash demo_scrypt _ _ "tok" 7 true demo_reachable)
    (PublicUser "usr-1" "ann@x.io" "ann" (Some "org-1") "admin" 0)) as (l & H1 & H2 & _).
  - vm_compute. reflexivity.
  - exists l. split; [exact H1|]. split; [exact H2|]. apply list_elem_of_singleton in H1 as ->. reflexivity.
Defined.

(** A revocation whose write fails ends with the process: after a restart the
    session is back. *)
Example failed_revocation_undone :
  let s := revoke demo_hash "tok" false (demo_login demo_signup).1 in
  (userForSession demo_hash "tok" 7 true s).2 = None ∧
  match open_store (files s) with
  | (Ok s', _) => pu_id <$> (userForSession demo_hash "tok" 7 true s').2 = Some "usr-1"
  | _ => False
  end.
Proof. vm_compute. done. Qed.

(** ** Projects *)

Lemma owns_spec p j : ownsProject (Some p) (Some j) = true ↔
  isGlobalAdmin (Some p) = true ∨ truthy (p_orgId p) = true ∧ j_orgId j = p_orgId p ∨
  truthy_str (p_id p) = true ∧ j_ownerId j = p_id p.
Proof.
  unfold ownsProject. rewrite !orb_true_iff, !andb_true_iff, bool_decide_eq_true, String.eqb_eq.
  split.
  - intros [[?|[[? ?] ?]]|[[? ?] ?]]; auto.
  - intros [?|[[? E]|[? E]]]; [auto|left; right; rewrite E; auto|right; rewrite E; auto].
Qed.

Lemma update_first_spec {A} (t : A → bool) f l x :
  x ∈ update_first t f l → x ∈ l ∨ ∃ y, List.find t l = Some y ∧ x = f y.
Proof.
  induction l as [|y l IH]; simpl; [auto|]. destruct (t y) eqn:E; rewrite !elem_of_cons.
  - intros [->|?]; eauto.
  - intros [->|H]; [auto|]. destruct (IH H) as [?|(z & ? & ?)]; eauto.
Qed.

(** A principal only reaches projects it owns. For a principal with an
    organisation (every session has one): the projects it lists, and the one it
    gets by id, are the ones it owns (its organisation, itself, or it is an
    installation administrator); an update changes nothing unless it owns the
    project, and then changes only that project, never its organisation or its
    owner. *)
Theorem project_isolation p s id now ok f :
  truthy (p_orgId p) = true → truthy_str (p_id p) = true →
  (∀ j, j ∈ listProjects (Some p) s ↔ j ∈ projects s ∧ ownsProject (Some p) (Some j) = true) ∧
  (∀ j, getProject id (Some p) s = Some j → j_id j = id ∧ j ∈ projects s ∧ ownsProject (Some p) (Some j) = true) ∧
  (let '(s', r) := updateProject id (Some p) now ok f s in
   (r = None → projects s' = projects s) ∧
   (∀ j', j' ∈ projects s' → j' ∈ projects s ∨
      ∃ j, j ∈ projects s ∧ j_id j = id ∧ ownsProject (Some p) (Some j) = true ∧ j' = patch_project now f j ∧
        j_orgId j' = j_orgId j ∧ j_ownerId j' = j_ownerId j)).
Proof.
  intros Ho Hi.
  assert (∀ j, j ∈ listProjects (Some p) s ↔ j ∈ projects s ∧ ownsProject (Some p) (Some j) = true) as Hl.
  { intros j. unfold listProjects. rewrite list_elem_of_filter, owns_spec. naive_solver. }
  split; [done|]. split.
  - intros j [Hin E%String.eqb_eq]%find_Some_in. split; [done|]. by apply Hl.
  - unfold updateProject. destruct (List.find _ _) as [j0|] eqn:Ef; [|split; auto].
    destruct (ownsProject (Some p) (Some j0)) eqn:Eo; cbn [negb]; [|split; auto].
    split; [done|]. intros j' Hj'. apply update_first_spec in Hj' as [?|(j & Hj & ->)]; [auto|].
    right. rewrite Hj in Ef. injection Ef as ->. apply find_Some_in in Hj as [Hin E%String.eqb_eq].
    exists j0. repeat split; try done.
    + unfold patch_project. by destruct (f_name f), (f_referenceModelId f).
    + unfold patch_project. by destruct (f_name f), (f_referenceModelId f).
Qed.

Definition ann : principal := Principal "usr-1" "admin" (Some "org-1") "session".
Lemma project_isolation_witness :
  projects (updateProject "prj-1" (Some (Principal "usr-2" "admin" (Some "org-2") "session")) 1 true
    (Fields (JStr "taken over") JUndef JUndef JUndef) demo_signup).1 = projects demo_signup ∧
  length (projects demo_signup) = 1%nat.
Proof.
  pose proof (proj2 (proj2 (project_isolation (Principal "usr-2" "admin" (Some "org-2") "session") demo_signup "prj-1" 1 true
    (Fields (JStr "taken over") JUndef JUndef JUndef) eq_refl eq_refl))) as H.
  split; [exact (proj1 H eq_refl)|reflexivity].
Defined.

(** Without an organisation the comparison of [listProjects] equates two
    undefined fields: a project made with one configured token is listed for the
    holder of any other, who does not own it. *)
Example tokens_share_projects :
  let op := Principal "operator" "operator" None "env" in
  let viewer := Principal "viewer" "viewer" None "env" in
  let (s, j) := createProject "9" 0 true (Owner (p_id op) (p_orgId op)) (Fields (JStr "secret") JUndef JUndef JUndef) no_store in
  getProject "prj-9" (Some viewer) s = Some j ∧ ownsProject (Some viewer) (Some j) = false.
Proof. split; reflexivity. Qed.

(** A damaged store is refused once. Opening a store whose files are
    readable or missing succeeds with exactly their rows; a file that cannot be
    read, or is damaged, makes it fail with code [tenant_store_unavailable] or
    [tenant_store_corrupt], so that no tenant set is served; but the damaged
    file has been moved away, so the next start finds it missing and opens an
    empty store: the users are gone without an error. *)
Theorem corrupt_store_refused_once d :
  (∀ s d', open_store d = (Ok s, d') →
    d' = d ∧ usersFile d ≠ Corrupt ∧ usersFile d ≠ Unreadable ∧ files s = d ∧
    users s = (match usersFile d with Rows l => l | _ => [] end) ∧
    sessions s = (match sessionsFile d with Rows l => l | _ => [] end) ∧
    projects s = (match projectsFile d with Rows l => l | _ => [] end)) ∧
  (∀ e d', open_store d = (Throw e, d') →
    err_code e = Some "tenant_store_corrupt" ∨ err_code e = Some "tenant_store_unavailable") ∧
  (usersFile d = Corrupt →
    ∃ e d', open_store d = (Throw e, d') ∧ err_code e = Some "tenant_store_corrupt" ∧
      usersFile d' = Missing ∧
      (∀ l1 l2, sessionsFile d = Rows l1 → projectsFile d = Rows l2 →
        open_store d' = (Ok (Store [] l1 l2 d'), d'))).
Proof.
  destruct d as [uf sf pf]. split; [|split].
  - intros s d'. unfold open_store. destruct uf, sf, pf; intros [= <- <-]; repeat split; done.
  - intros e d'. unfold open_store. destruct uf, sf, pf; intros [= <- <-]; simpl; auto.
  - intros Hu. simpl in Hu. subst uf. eexists. eexists. split; [reflexivity|]. repeat split.
    simpl. intros l1 l2 -> ->. reflexivity.
Qed.

Lemma corrupt_store_refused_once_witness :
  ∃ e d', open_store (Disk Corrupt Missing Missing) = (Throw e, d') ∧ err_code e = Some "tenant_store_corrupt".
Proof.
  destruct (proj2 (proj2 (corrupt_store_refused_once (Disk Corrupt Missing Missing))) eq_refl) as (e & d' & H1 & H2 & _).
  exists e, d'. split; [exact H1|exact H2].
Defined.
