(* ===== verification/HttpGuards.v ===== *)
(** Requests, guards and validation of the HTTP API (backend/server.js,
    backend/src/security/http-headers.js).

    What the handlers read of the rest of the program is a record [world]: the
    run states in memory, the persisted index and snapshots, the credentials,
    the tenant store. A read that fails (a data store that throws) is [None]. *)

From S2P Require Import Prelude JsMap JsValue Number Text PolicyEngine Auth Tenants.

Local Open Scope string_scope.
Local Open Scope js_scope.

(** * What the handlers see *)

(** [runtimeState.orgId], [runtimeState.ownerId]. *)
Record run_state := RunState { rs_orgId : option string; rs_ownerId : option string }.

(** A summary, of the persisted index or of an active run. *)
Record entry := Entry { e_id : string; e_own : ownership }.

(** A memory item or an evaluation, as far as its visibility is concerned:
    [orgId], and [runId || sourceRunId]. *)
Record item := Item { i_id : string; i_orgId : option string; i_runId : option string; i_scope : string; i_text : string }.

(** The runtime defaults the server keeps (runtime-settings.js). *)
(* [src/backend/src/runtime-settings.js:11-21] DEFAULTS *)
Record settings := Settings {
  d_preset : string;
  d_budget : num;
  d_maxSteps : Z;
  d_allowSwitching : bool;
  d_allowCompaction : bool;
  d_toolPolicy : string;
  d_qualityFloor : option num;
  d_latencyTargetMs : option Z;
  d_hardBudget : bool;
}.

Record world := World {
  authOn : bool;                                    (* authConfig.enabled *)
  draining : bool;                                  (* isDraining() *)
  now : Z;
  tenants : store;
  activeRuns : string → option run_state;
  terminalRuns : string → option run_state;
  liveRuns : list entry;                            (* getActiveRuns() *)
  loadIndex : option string → option (list entry);  (* runStore.loadRunIndex({ orgId }) *)
  loadSnapshot : string → option (option ownership);
  memoryItems : list item;                          (* working, then long-term *)
  listEvaluations : option string → Z → list item;  (* evaluations.list({ runId, limit }) *)
  listOutcomes : option string → Z → list item;     (* intelligence.listOutcomes({ runId, limit }) *)
  outcomeKept : string → bool;                      (* intelligence.outcomeForRun(id) *)
  routingKept : string → bool;                      (* control(id).routing, or a snapshot's *)
  decisionsKept : string → bool;                    (* control(id).decisions, or a snapshot's *)
  comparable : string → string → bool;              (* compareRuns finds both runs *)
  knownModel : string → bool;                       (* modelRegistry.getModel(id) *)
  knownBenchmark : string → bool;                   (* intelligence.benchmarks.getCase(id) *)
  runSettings : settings;                           (* runtimeSettings.load() *)
  maxTitleChars : nat;
  maxMessageChars : nat;
  defaultMaxContextTokens : Z;
  explicitMode : string;                            (* RUNTIME_MODE, lower case *)
  defaultProvider : string;                         (* config.provider *)
  disabledProviders : list string;
  hasCredentials : string → string → option bool;   (* adapter of a provider in a scope *)
  getKey : string → string → string;                (* credentials.getKey *)
  storedConfigured : string → string → bool;        (* credentials.metaFor(id, scope).configured *)
  hasAnyStored : string → bool;
  envKeys : string → string;
  effectiveKey : string → string;
  webhookConfigured : bool;                         (* config.stripeWebhookSecret *)
  frontendOrigin : string;
  consoleFile : string → bool;                      (* the console has a file for the path *)
}.

(* [src/backend/src/core/orchestrator.js:174-176] getRun *)
Definition getRun (w : world) (id : string) : option run_state :=
  match activeRuns w id with Some rs => Some rs | None => terminalRuns w id end.
(* [src/backend/src/core/orchestrator.js:178-180] isActiveRun *)
Definition activeRun (w : world) (id : string) : bool := bool_decide (is_Some (activeRuns w id)).

Record request := Request {
  r_method : string;
  r_path : string;
  r_origin : option string;
  r_json : jsval;
  r_query : string → option string;
  r_limit : option Z;                               (* the limit parameter, when it is a number *)
  r_signature : option string;                      (* the error code of verifyStripeSignature *)
  r_cookie : string;                                (* readSessionCookie *)
  r_principal : option principal;
}.
#[export] Instance request_eta : Eta request := λ r,
  Request (r_method r) (r_path r) (r_origin r) (r_json r) (r_query r) (r_limit r) (r_signature r) (r_cookie r)
    (r_principal r).

(** * Paths *)

(** What follows a prefix of the path, in segments. *)
Definition below (base path : string) : option (list string) :=
  if starts_with base path then Some (split_on "/"%char (string_drop (String.length base) path)) else None.

(** [[^/]+] as the only group after [base]. *)
Definition one_segment (base path : string) : option string :=
  match below base path with Some [s] => if truthy_str s then Some s else None | _ => None end.

Definition is_alnum (c : ascii) : bool := is_word c && negb (Ascii.eqb c "_"%char).

(** [/^[A-Za-z0-9][A-Za-z0-9_-]{0,127}$/] *)
(* [src/backend/server.js:1247-1247] ID_RE *)
Definition ID_RE (s : string) : bool :=
  match s with
  | String c rest =>
      is_alnum c && negb (any_char (λ c, negb (is_word c || Ascii.eqb c "-"%char)) rest) && (String.length rest <=? 127)%nat
  | EmptyString => false
  end.

(* [src/backend/server.js:1263-1265] validRunId *)
Definition validRunId (id : string) : bool := ID_RE id.

(** * Origins *)

(** [/^http:\/\/(localhost|127\.0\.0\.1)(:\d+)?$/] *)
Definition is_digit (c : ascii) : bool := bool_decide (48 ≤ nat_of_ascii c ≤ 57)%nat.
Definition loopback_origin (o : string) : bool :=
  existsb (λ base,
    starts_with base o &&
    match string_drop (String.length base) o with
    | EmptyString => true
    | String ":" (String c rest) => negb (any_char (λ c, negb (is_digit c)) (String c rest))
    | _ => false
    end) ["http://localhost"; "http://127.0.0.1"].

(** The origin that is allowed, if any. *)
(* [src/backend/src/security/http-headers.js:13-24] resolveCorsOrigin *)
Definition resolveCorsOrigin (origin : option string) (frontend : string) (isLive : bool) : option string :=
  match origin with
  | None | Some EmptyString => None
  | Some o =>
      let configured := filter (λ s, s ≠ "") (List.map trim (split_on ","%char frontend)) in
      if bool_decide (o ∈ configured) then Some o
      else if negb isLive && loopback_origin o then Some o else None
  end.

(** * Modes and credentials *)

Section Modes.
Context (w : world).

(* [src/backend/server.js:137-140] credentialScope *)
Definition credentialScope (p : option principal) : string :=
  if negb (authOn w) || isGlobalAdmin p then "default"
  else match p with
       | None => "default"
       | Some q => or_str (default "" (p_orgId q)) (or_str (p_id q) "default")
       end.

(** Deployment credentials are for installation operators only. *)
Definition deployment (p : option principal) : bool :=
  negb (authOn w) || negb (bool_decide (is_Some p)) || isGlobalAdmin p.

(* [src/backend/server.js:142-160] modeForProvider *)
Definition modeForProvider (providerId : option string) (p : option principal) : string :=
  let id := to_lower (or_str (default "" providerId) (defaultProvider w)) in
  let ready := default false (hasCredentials w id (credentialScope p)) in
  let tenantHasKey := negb (deployment p) && truthy_str (getKey w id (credentialScope p)) in
  if tenantHasKey || ready && deployment p then "live"
  else if String.eqb (explicitMode w) "live" then "live"
  else if String.eqb (explicitMode w) "demo" then "demo"
  else if ready then "live" else "demo".

(* [src/backend/server.js:168-173] currentMode *)
Definition currentMode : string :=
  if String.eqb (explicitMode w) "demo" then "demo"
  else if String.eqb (explicitMode w) "live" then "live"
  else if truthy_str (effectiveKey w (defaultProvider w)) || hasAnyStored w (defaultProvider w) then "live" else "demo".

Inductive mode_state := BLOCKED | DEMO | LIVE_READY | LIVE_UNCONFIGURED.
#[export] Instance mode_state_eq_dec : EqDecision mode_state.
Proof. solve_decision. Defined.

(** Without an explicit [options.configured]. *)
(* [src/backend/server.js:228-249] modeStateForProvider *)
Definition modeStateForProvider (providerId : string) (p : option principal) : mode_state :=
  let id := to_lower providerId in
  if bool_decide (id ∈ disabledProviders w) then BLOCKED
  else if String.eqb (modeForProvider (Some id) p) "demo" then DEMO
  else
    let configured :=
      (if authOn w && bool_decide (is_Some p) then storedConfigured w id (credentialScope p) else hasAnyStored w id)
      || deployment p && truthy_str (envKeys w id) in
    let configured := configured || default false (hasCredentials w id (credentialScope p)) in
    if configured then LIVE_READY else LIVE_UNCONFIGURED.

(* [src/backend/server.js:1098-1103] corsHeaders *)
Definition corsHeaders (origin : option string) : option string :=
  resolveCorsOrigin origin (frontendOrigin w) (String.eqb currentMode "live").

(** * Ownership *)

(** [a && b && a === b] on identifiers. *)
Definition same_org (a b : option string) : bool := truthy a && truthy b && bool_decide (a = b).

(* [src/backend/server.js:1164-1175] ownedByOtherWithIndex *)
Definition ownedByOtherWithIndex (runId : option string) (p : option principal) (index : list entry) : bool :=
  match p with
  | None => false
  | Some q =>
      if negb (truthy runId) || isGlobalAdmin p then false
      else
        let id := default "" runId in
        let rs := getRun w id in
        if same_org (rs ≫= rs_orgId) (p_orgId q) then false
        else match first_truthy [rs ≫= rs_ownerId] with
        | Some o => negb (String.eqb o (p_id q))
        | None =>
            let idx := e_own <$> find (λ e, String.eqb (e_id e) id) index in
            if same_org (idx ≫= o_orgId) (p_orgId q) then false
            else match first_truthy [idx ≫= o_ownerId; idx ≫= o_owner] with
            | Some o => negb (String.eqb o (p_id q))
            | None => true
            end
        end
  end.

(** A failing look-up counts as someone else's run. *)
(* [src/backend/server.js:1176-1190] ownedByOther *)
Definition ownedByOther (id : string) (p : option principal) : bool :=
  match p with
  | None => false
  | Some q =>
      if negb (truthy_str id) || isGlobalAdmin p then false
      else
        let rs := getRun w id in
        if same_org (rs ≫= rs_orgId) (p_orgId q) then false
        else match first_truthy [rs ≫= rs_ownerId] with
        | Some o => negb (String.eqb o (p_id q))
        | None => match loadIndex w None with
                  | None => true
                  | Some index => ownedByOtherWithIndex (Some id) p index
                  end
        end
  end.

(* [src/backend/server.js:1202-1208] memoryVisibleToPrincipal *)
Definition memoryVisibleToPrincipal (m : item) (p : option principal) (index : list entry) : bool :=
  match p with
  | None => false
  | Some q =>
      if isGlobalAdmin p then true
      else if truthy (i_orgId m) then truthy (p_orgId q) && bool_decide (i_orgId m = p_orgId q)
      else negb (ownedByOtherWithIndex (i_runId m) p index)
  end.

(** Entries of the index in their order, replaced by the live one of the same
    id; then the live runs that are not indexed. *)
(* [src/backend/server.js:769-778] mergeIndex *)
Definition mergeIndex (persisted live : list entry) : list entry :=
  let set (m : jsmap string entry) e := if truthy_str (e_id e) then mset m (e_id e) e else m in
  mvalues (fold_left set live (fold_left set persisted [])).

(** The filter of the listing. *)
Definition listed_for (q : principal) (e : entry) : bool :=
  match first_truthy [o_ownerId (e_own e); o_owner (e_own e)] with
  | None => false
  | Some o => String.eqb o (p_id q) || same_org (o_orgId (e_own e)) (p_orgId q)
  end.

(** An index that cannot be read is [None]. *)
(* [src/backend/server.js:876-885] visibleRunIndex *)
Definition visibleRunIndex (p : option principal) : option (list entry) :=
  let restricted := authOn w && bool_decide (is_Some p) && negb (isGlobalAdmin p) in
  all ← (λ l, mergeIndex l (liveRuns w)) <$> loadIndex w (if restricted then p ≫= p_orgId else None);
  Some (match p with
  | Some q =>
      if restricted then
        filter (λ e, listed_for q e = true) all
      else all
  | None => all
  end).

(** [persistedSummary]: the index entry; the outer [None] when the index cannot
    be read. *)
(* [src/backend/server.js:821-824] persistedSummary *)
Definition persistedSummary (id : string) : option (option entry) :=
  (λ l, find (λ e, String.eqb (e_id e) id) l) <$> loadIndex w None.
End Modes.

(** * Validation of a new run *)

(* [src/backend/server.js:1245-1245] TASK_MODES *)
Definition TASK_MODES : list string := ["auto"; "code"; "debug"; "research"; "general"].
Definition AUTONOMY_MODES : list string := ["read_only"; "assisted"; "autonomous"; "restricted_autonomous"].
Definition APPROVAL_MODES : list string := ["AUTO_APPROVE_LOW"; "APPROVE_WRITES"; "APPROVE_DANGEROUS"; "APPROVE_ALL"].

Definition present (v : jsval) : bool := match v with JUndef => false | _ => true end.
Definition one_of_strings (l : list string) (v : jsval) : bool := match v with JStr s => bool_decide (s ∈ l) | _ => false end.
(** [Number.isFinite(v) && v >= lo && v <= hi] *)
Definition num_within (lo hi : Z) (v : jsval) : bool := match v with JNum n => (lo <=? n) && (n <=? hi) | _ => false end%Z.
Definition short_array (n : nat) (v : jsval) : bool := match v with JArr l => (length l <=? n)%nat | _ => false end.
Definition is_bool (v : jsval) : bool := match v with JBool _ => true | _ => false end.
Definition is_object (v : jsval) : bool := match v with JObj _ | JArr _ => true | _ => false end.

(** A field that is there must pass its test. *)
Definition field (v : jsval) (ok : bool) (msg : string) : list string := if present v && negb ok then [msg] else [].

(* [src/backend/server.js:1267-1323] validateCreateRun *)
Definition validateCreateRun (body : jsval) : list string :=
  let b := prop body in
  let pol := if truthy_val (b "policy") then prop (b "policy") else λ _, JUndef in
  (field (b "title") (is_string (b "title")) "title must be a string" ++
   field (b "projectId") (match b "projectId" with JStr s => ID_RE s | _ => false end) "projectId is invalid" ++
   field (b "taskMode") (one_of_strings TASK_MODES (b "taskMode")) "taskMode must be one of auto|code|debug|research|general" ++
   field (b "mode") (one_of_strings ["demo"; "live"] (b "mode")) "mode must be demo or live" ++
   field (b "budget") (num_within 0 1000 (b "budget")) "budget must be a number between 0 and 1000" ++
   field (b "maxLatencyMs") (num_within 1000 3600000 (b "maxLatencyMs")) "maxLatencyMs must be between 1000 and 3600000" ++
   field (b "maxContextTokens") (num_within 500 1000000 (b "maxContextTokens"))
     "maxContextTokens must be between 500 and 1000000" ++
   field (b "tools") (short_array 20 (b "tools")) "tools must be an array of at most 20 entries" ++
   field (b "policy") (is_object (b "policy")) "policy must be an object" ++
   field (b "preset") (Presets.validPreset (Some (text_or (b "preset") "")))
     "preset must be one of balanced|fast|economical|reasoning|longcontext" ++
   field (b "preferredModel") (match b "preferredModel" with JStr s => (String.length s <=? 200)%nat | _ => false end)
     "preferredModel must be a string of at most 200 characters" ++
   field (b "allowSwitching") (is_bool (b "allowSwitching")) "allowSwitching must be a boolean" ++
   field (b "allowCompaction") (is_bool (b "allowCompaction")) "allowCompaction must be a boolean" ++
   field (pol "qualityFloor") (num_within 0 1 (pol "qualityFloor")) "policy.qualityFloor must be between 0 and 1" ++
   field (pol "latencyTargetMs") (num_within 1000 3600000 (pol "latencyTargetMs"))
     "policy.latencyTargetMs must be between 1000 and 3600000" ++
   field (pol "hardBudget") (is_bool (pol "hardBudget")) "policy.hardBudget must be a boolean" ++
   field (b "toolPolicy") (one_of_strings ["auto"; "readonly"] (b "toolPolicy")) "toolPolicy must be auto or readonly" ++
   field (b "autonomyMode") (one_of_strings AUTONOMY_MODES (b "autonomyMode"))
     "autonomyMode must be one of read_only|assisted|autonomous|restricted_autonomous" ++
   field (b "approvalMode") (one_of_strings APPROVAL_MODES (b "approvalMode"))
     "approvalMode must be one of AUTO_APPROVE_LOW|APPROVE_WRITES|APPROVE_DANGEROUS|APPROVE_ALL" ++
   field (b "networkAccess") (one_of_strings ["disabled"; "allowlist"; "enabled"] (b "networkAccess"))
     "networkAccess must be one of disabled|allowlist|enabled" ++
   field (b "maxSteps") (num_within 1 50 (b "maxSteps")) "maxSteps must be between 1 and 50" ++
   match b "memory" with
   | JUndef => []
   | m => if negb (is_object m) then ["memory must be an object"]
          else field (prop m "working") (short_array 50 (prop m "working")) "memory.working must be an array of at most 50 items" ++
               field (prop m "longterm") (short_array 50 (prop m "longterm")) "memory.longterm must be an array of at most 50 items"
   end)%list.
