(* ===== verification/HttpApi.v ===== *)
(** The HTTP API (backend/server.js): which requests reach which operation.

    A handler either refuses with a status and a code or goes on to an
    [action], the call it makes into the rest of the program with the arguments
    it passes. The routes are in the order of the source, and each one tests
    the method and the path as its [if] does. *)

From S2P Require Import Prelude JsMap JsValue Number Text PolicyEngine Auth Tenants HttpGuards.

Local Open Scope string_scope.
Local Open Scope js_scope.

(** * Actions *)

(** The calls of the execution routes. *)
Inductive exec_call :=
| ViewExecution | ViewResult | ContinueRun (content : string) | PauseRun | ResumeRun | Command (text : string)
| ListApprovals | RequestApproval (actionType : string) | DecideApproval (approval verb : string)
| ViewPlan | CreatePlan (descriptions : list jsval) | AdaptPlan (adapt : jsval) | SetStep (step status : string)
| ListChangesets | ProposeChangeset (files : jsval) | ApplyChangeset (cs : string) (approval : jsval)
| RollbackChangeset (cs : string) | VerifyChangeset (cs : jsval) | ListEpisodes | ViewEnvironment
| GitOp (op : string) | ViewPolicy | SetPolicy (patch : list (string * jsval)).

(** The configuration [createRun] gets. *)
(* [src/backend/server.js:2263-2300] runConfig *)
Record run_config := RunConfig {
  c_title : string;
  c_taskType : string;
  c_priority : string;
  c_complexity : string;
  c_maxCost : num;
  c_maxLatencyMs : Z;
  c_maxContextTokens : Z;
  c_maxSteps : Z;
  c_provider : string;
  c_mode : string;
  c_ownerId : option string;
  c_orgId : option string;
  c_projectId : option string;
  c_referenceModelId : option string;
  c_privacyMode : string;
  c_qualityFloor : option num;
  c_latencyTargetMs : option Z;
  c_hardBudget : bool;
  c_preset : string;
  c_routerWeights : Presets.weights;
  c_preferredModel : option string;
  c_allowSwitching : bool;
  c_allowCompaction : bool;
  c_policyRest : list (string * jsval);
  c_toolPolicy : string;
  c_tools : jsval;
  c_memory : jsval;
  c_autonomyMode : option string;
  c_approvalMode : option string;
  c_networkAccess : option string;
  c_networkAllowlist : option (list jsval);
}.

Inductive action :=
| Preflight | Console | StripeWebhook
| SignUp (email password name : jsval) | LogIn (email password : jsval) | LogOut (token : string) | WhoAmI (authenticated : bool)
| ListProjects (l : list project) | CreateProject (w : owner) (f : project_fields) | ShowProject (j : project)
| UpdateProject (s : store) (j : project) (purge : bool)
| Liveness | HealthDetails | Readiness | ShowConfig
| ListProviders | ShowProvider (pid : string) | TestProvider (pid key : string)
| ConnectProvider (pid key scope : string) | DisconnectProvider (pid scope : string)
| ListPresets | ShowSettings | SaveSettings (patch : jsval)
| ListModels | RefreshModels (pid : option string) (scope : string) | ListModelChanges | ListTools | Browse (body : jsval)
| ListMemory (l : list item) | ListEvaluations (run : option string) (l : list item) | GoldenEvals
| ModelProfiles | ModelPerformance (id : string) | ShowRouting (id : string) | ShowPromptPlan (id : string)
| SearchMemory (l : list item) | MemoryConflicts (id : string)
| ListOutcomes (run : option string) (l : list item) | ShowOutcome (id : string) | ShowDecisions (id : string)
| ListBenchmarks | CreateBenchmark | RecordAttempt (id : string) | ShowBenchmark (id : string)
| Feedback (id signal : string)
| Aggregate (l : list entry)
| ListRuns (l : list entry) | CreateRun (c : run_config) | CompareRuns (a b : string)
| ShowRun (id : string) | ShowState (id : string) | StreamEvents (id : string) | Telemetry (id : string)
| ShowSavings (id : string) | Message (id content : string) | CancelRun (id : string) | RetryRun (id : string)
| ForkRun (id : string) | DuplicateRun (id : string)
| Execution (id : string) (c : exec_call).

(** What a handler does. [Unhandled]: the client has its error answer, the
    handler goes on (to a call, if there is one), and its second answer throws
    [ERR_HTTP_HEADERS_SENT] outside every [catch]. *)
Inductive reply :=
| Reject (status : nat) (code : string)
| Serve (a : action)
| Unhandled (status : nat) (code : string) (a : option action).

(** * Guards *)

Definition stop (b : bool) (status : nat) (code : string) (k : reply) : reply := if b then Reject status code else k.

(* [src/backend/server.js:1150-1154] needAuth *)
Definition needAuth (p : option principal) (k : reply) : reply :=
  match p with Some _ => k | None => Reject 401 "unauthenticated" end.

(* [src/backend/server.js:1155-1159] needRole *)
Definition needRole (p : option principal) (minRole : string) (k : reply) : reply :=
  stop (negb (requireRole p minRole)) 403 "forbidden" k.

(** [if (authConfig.enabled && needAuth(res, principal)) return;] *)
Definition authed (w : world) (p : option principal) (k : reply) : reply := if authOn w then needAuth p k else k.

(* [src/backend/server.js:1191-1199] guardRunRead *)
Definition guardRunRead (w : world) (p : option principal) (id : string) (k : reply) : reply :=
  if negb (authOn w) then k else needAuth p $ stop (ownedByOther w id p) 403 "forbidden" k.

(** A read of the data store; a failure ends in the handler's [catch]. *)
Definition reading {A} (x : option A) (f : A → reply) : reply :=
  match x with Some a => f a | None => Reject 500 "internal" end.

Definition badRequest : reply := Reject 400 "bad_request".
Definition notFound : reply := Reject 404 "not_found".

Definition route := option reply.
Definition on (b : bool) (k : reply) : route := if b then Some k else None.
Definition first_reply (l : list route) : route := foldr (λ x rest, match x with Some _ => x | None => rest end) None l.

(** Non-admin principals of an enabled installation see less. *)
Definition restricted (w : world) (p : option principal) : bool :=
  authOn w && bool_decide (is_Some p) && negb (isGlobalAdmin p).

(* [src/backend/server.js:1254-1261] clampInt *)
Definition clampLimit (n : option Z) (fallback lo hi : Z) : Z :=
  match n with None => fallback | Some n => Z.max lo (Z.min hi n) end.

Section Routes.
Context (w : world) (r : request).

Let p := r_principal r.
Let json := prop (r_json r).
Let meth m := String.eqb (r_method r) m.
Let at_ path := String.eqb (r_path r) path.
Let seen (n : Z) {A} (l : list A) := take (Z.to_nat n) l.

(** ** Webhook, accounts, projects *)

(* [src/backend/server.js:1451-1482] webhook, accounts and projects *)
Definition accountRoutes : list route :=
  [ on (meth "POST" && at_ "/api/webhooks/stripe")
      (if negb (webhookConfigured w) then Reject 503 "not_configured"
       else match r_signature r with
       | Some code => Reject 400 code
       | None => if negb (is_string (json "id")) || negb (is_string (json "type")) then badRequest else Serve StripeWebhook
       end);
    on (meth "POST" && at_ "/api/auth/signup") (Serve (SignUp (json "email") (json "password") (json "name")));
    on (meth "POST" && at_ "/api/auth/login") (Serve (LogIn (json "email") (json "password")));
    on (meth "POST" && at_ "/api/auth/logout") (Serve (LogOut (r_cookie r)));
    on (meth "GET" && at_ "/api/auth/me")
      (Serve (WhoAmI (match p with Some q => negb (String.eqb (p_id q) "dev") | None => false end)));
    on (meth "GET" && at_ "/api/projects") (needAuth p $ Serve (ListProjects (listProjects p (tenants w))));
    on (meth "POST" && at_ "/api/projects")
      (needAuth p $ needRole p "operator" $
       Serve (CreateProject (Owner (default "" (p_id <$> p)) (p ≫= p_orgId))
         (Fields (json "name") (json "referenceModelId") (json "policy") (json "privacyMode"))));
    match one_segment "/api/projects/" (r_path r) with
    | None => None
    | Some s =>
        if meth "GET" then
          Some (needAuth p $ reading (decode_component s) $ λ id,
            match getProject id p (tenants w) with Some j => Serve (ShowProject j) | None => notFound end)
        else if meth "PUT" || meth "PATCH" then
          Some (needAuth p $ needRole p "operator" $ reading (decode_component s) $ λ id,
            match getProject id p (tenants w) with
            | None => notFound
            | Some before =>
                match updateProject id p (now w) true
                        (Fields (json "name") (json "referenceModelId") (json "policy") (json "privacyMode")) (tenants w) with
                | (_, None) => Reject 403 "forbidden"
                | (s', Some j) =>
                    Serve (UpdateProject s' j (truthy_val (json "privacyMode") &&
                      negb (bool_decide (json "privacyMode" = JStr (j_privacyMode before)))))
                end
            end)
        else None
    end ].

(** ** Health, configuration, providers *)

(* [src/backend/server.js:1483-1492] health, readiness and configuration *)
Definition statusRoutes : list route :=
  [ on (meth "GET" && at_ "/api/health") (Serve Liveness);
    on (meth "GET" && (at_ "/api/health/details" || at_ "/api/health/detailed"))
      (needAuth p $ needRole p "operator" $ Serve HealthDetails);
    on (meth "GET" && (at_ "/api/ready" || at_ "/api/readiness")) (Serve Readiness);
    on (meth "GET" && at_ "/api/config") (authed w p $ Serve ShowConfig);
    on (meth "GET" && at_ "/api/providers") (authed w p $ Serve ListProviders) ].

Definition SUPPORTED_PROVIDERS : list string := ["openrouter"; "openai"; "anthropic"].

(** [json.apiKey || stored key || deployment key]. *)
(* [src/backend/server.js:1647-1648] candidate *)
Definition candidate (pid : string) : string :=
  or_str (match json "apiKey" with JStr s => s | _ => "" end)
    (or_str (getKey w pid (credentialScope w p)) (if deployment w p then effectiveKey w pid else "")).

(* [src/backend/server.js:1629-1655] provider endpoints *)
Definition providerRoute (s : string) (sub : option string) : reply :=
  let pid := to_lower s in
  if negb (bool_decide (pid ∈ SUPPORTED_PROVIDERS)) then notFound
  else if meth "GET" && (bool_decide (sub = None) || bool_decide (sub = Some "status")) then
    authed w p $ Serve (ShowProvider pid)
  else if meth "POST" && (bool_decide (sub = Some "test") || bool_decide (sub = Some "connect")) then
    let connect := bool_decide (sub = Some "connect") in
    needAuth p $ needRole p (if connect then "admin" else "operator") $
    if negb (truthy_str (candidate pid)) then badRequest
    else if connect &&
      negb (match json "apiKey" with JStr k => (8 <=? String.length k)%nat && (String.length k <=? 500)%nat | _ => false end)
    then badRequest
    else if connect then Serve (ConnectProvider pid (candidate pid) (credentialScope w p))
    else Serve (TestProvider pid (candidate pid))
  else if meth "DELETE" && bool_decide (sub = None) then
    needAuth p $ needRole p "admin" $ Serve (DisconnectProvider pid (credentialScope w p))
  else Reject 405 "method_not_allowed".

Definition providerRoutes : list route :=
  [ match below "/api/providers/" (r_path r) with
    | Some [s] => if truthy_str s then Some (providerRoute s None) else None
    | Some [s; sub] =>
        if truthy_str s && bool_decide (sub ∈ ["status"; "connect"; "test"]) then Some (providerRoute s (Some sub)) else None
    | _ => None
    end ].

(* [src/backend/server.js:1704-1715] settings, models and tools *)
Definition catalogRoutes : list route :=
  [ on (meth "GET" && at_ "/api/runtime/presets") (Serve ListPresets);
    on (meth "GET" && at_ "/api/runtime/settings") (authed w p $ Serve ShowSettings);
    on ((meth "PUT" || meth "POST") && at_ "/api/runtime/settings")
      (needAuth p $ needRole p "admin" $ Serve (SaveSettings (r_json r)));
    on (meth "GET" && at_ "/api/models") (authed w p $ Serve ListModels);
    on (meth "POST" && at_ "/api/models/refresh")
      (needAuth p $ needRole p "operator" $
       Serve (RefreshModels (match json "provider" with
                             | JStr s => if bool_decide (to_lower s ∈ SUPPORTED_PROVIDERS) then Some (to_lower s) else None
                             | _ => None
                             end) (credentialScope w p)));
    on (meth "GET" && at_ "/api/models/changes") (authed w p $ Serve ListModelChanges);
    on (meth "GET" && at_ "/api/tools") (authed w p $ Serve ListTools);
    on (meth "POST" && at_ "/api/browse") (authed w p $ Serve (Browse (r_json r))) ].

(** ** Memory, evaluations, intelligence *)

(** The items a principal may see. *)
Definition visible_items (l : list item) (k : list item → reply) : reply :=
  if restricted w p then
    reading (loadIndex w None) $ λ index, k (filter (λ m, memoryVisibleToPrincipal w m p index = true) l)
  else k l.

(* [src/backend/server.js:1794-1816] GET /api/memory *)
Definition memoryRoute : reply :=
  let scope := r_query r "scope" in
  let q := to_lower (slice0 200 (default "" (r_query r "q"))) in
  stop (truthy scope && negb (bool_decide (scope = Some "working" ∨ scope = Some "longterm"))) 400 "bad_request" $
  authed w p $ visible_items (memoryItems w) $ λ items,
    let items := if truthy scope then filter (λ m, Some (i_scope m) = scope) items else items in
    let items := if truthy_str q then filter (λ m, contains q (to_lower (i_text m)) = true) items else items in
    Serve (ListMemory (seen (clampLimit (r_limit r) 100 1 500) items)).

(** The records of one run, or all those of the principal's runs. *)
(* [src/backend/server.js:1817-1831] GET /api/evaluations *)
Definition recordsRoute (records : option string → Z → list item) (act : option string → list item → action) : reply :=
  let runId := r_query r "runId" in
  let limit := clampLimit (r_limit r) 50 1 200 in
  if truthy runId then
    let id := default "" runId in
    stop (negb (validRunId id)) 400 "bad_request" $ guardRunRead w p id $ Serve (act runId (records runId limit))
  else if authOn w then
    needAuth p $
    if isGlobalAdmin p then Serve (act None (records runId limit))
    else reading (loadIndex w None) $ λ index,
      Serve (act None (seen limit (filter (λ e, ownedByOtherWithIndex w (i_runId e) p index = false) (records None 500%Z))))
  else Serve (act None (records runId limit)).

(* [src/backend/server.js:1920-1935] GET /api/memory/search, selection *)
Definition searchRoute : reply :=
  let q := slice0 500 (default "" (r_query r "q")) in
  let runId := r_query r "runId" in
  let scopes := filter (λ s, s ≠ "") (List.map trim (split_on ","%char
                  (if truthy (r_query r "scope") then default "" (r_query r "scope") else "working,longterm"))) in
  let pool := filter (λ m, scopes = [] ∨ i_scope m ∈ scopes) (memoryItems w) in
  stop (negb (truthy_str q)) 400 "bad_request" $
  stop (truthy runId && negb (validRunId (default "" runId))) 400 "bad_request" $
  (if truthy runId then guardRunRead w p (default "" runId) else authed w p) $
  visible_items pool $ λ l, Serve (SearchMemory l).

(** A route on one run: the id is checked, then its owner. *)
Definition run_view (base tail_ : string) (k : string → reply) : route :=
  let s := if String.eqb tail_ "" then one_segment base (r_path r)
           else match below base (r_path r) with
                | Some [s; t] => if truthy_str s && String.eqb t tail_ then Some s else None
                | _ => None
                end in
  match s with
  | None => None
  | Some id =>
      on (meth "GET") (stop (negb (validRunId id)) 400 "bad_request" $ guardRunRead w p id $ k id)
  end.
Definition when_ (b : bool) (a : action) : reply := if b then Serve a else notFound.

(* [src/backend/server.js:1977-2008] memory, evaluations and intelligence *)
Definition insightRoutes : list route :=
  [ on (meth "GET" && at_ "/api/memory") memoryRoute;
    on (meth "GET" && at_ "/api/evaluations") (recordsRoute (listEvaluations w) ListEvaluations);
    on (meth "GET" && at_ "/api/evals/golden") (authed w p $ Serve GoldenEvals);
    on (meth "GET" && at_ "/api/models/intelligence") (authed w p $ Serve ModelProfiles);
    match below "/api/models/" (r_path r) with
    | Some [s; t] =>
        on (truthy_str s && String.eqb t "performance" && meth "GET")
          (authed w p $ reading (decode_component s) $ λ id, when_ (knownModel w id) (ModelPerformance id))
    | _ => None
    end;
    run_view "/api/routing/" "" (λ id, when_ (routingKept w id) (ShowRouting id));
    run_view "/api/context/" "plan" (λ id, when_ (activeRun w id) (ShowPromptPlan id));
    on (meth "GET" && at_ "/api/memory/search") searchRoute;
    on (meth "GET" && at_ "/api/memory/conflicts")
      (let id := default "" (r_query r "runId") in
       stop (negb (validRunId id)) 400 "bad_request" $ guardRunRead w p id $ when_ (activeRun w id) (MemoryConflicts id));
    on (meth "GET" && at_ "/api/outcomes") (recordsRoute (listOutcomes w) ListOutcomes);
    run_view "/api/outcomes/" "" (λ id, when_ (outcomeKept w id) (ShowOutcome id));
    run_view "/api/decisions/" "" (λ id, when_ (decisionsKept w id) (ShowDecisions id));
    on (meth "GET" && at_ "/api/benchmarks") (authed w p $ Serve ListBenchmarks);
    on (meth "POST" && at_ "/api/benchmarks") (needAuth p $ needRole p "operator" $ Serve CreateBenchmark);
    match below "/api/benchmarks/" (r_path r) with
    | Some (s :: rest) =>
        if negb (truthy_str s) || negb (meth "GET" || meth "POST") then None
        else match rest with
        | [t] =>
            if negb (String.eqb t "attempts") then None
            else match decode_component s with
            | None => Some (Reject 500 "internal")
            | Some id =>
                on (meth "POST") (needAuth p $ needRole p "operator" $ when_ (knownBenchmark w id) (RecordAttempt id))
            end
        | [] =>
            match decode_component s with
            | None => Some (Reject 500 "internal")
            | Some id => on (meth "GET") (authed w p $ when_ (knownBenchmark w id) (ShowBenchmark id))
            end
        | _ => None
        end
    | _ => None
    end;
    match below "/api/runs/" (r_path r) with
    | Some [id; t] =>
        on (truthy_str id && String.eqb t "feedback" && meth "POST")
          (stop (negb (validRunId id)) 400 "bad_request" $ needAuth p $ guardRunRead w p id $
           let signal := match json "signal", json "value" with
                         | JStr s, _ => slice0 32 s
                         | _, JStr s => slice0 32 s
                         | _, _ => ""
                         end in
           stop (negb (truthy_str signal)) 400 "bad_request" $ Serve (Feedback id signal))
    | _ => None
    end ].

(** ** Run collections *)

(** The views over the runs of a principal: sessions, cache, alerts, analytics,
    savings and billing. *)
Definition INTELLIGENCE_SECTIONS : list string :=
  List.map (String.append "/api/analytics/")
    ["intelligence"; "models"; "leaderboard"; "tasks"; "cost"; "market-share"; "benchmarks"; "latency"; "context"; "tools";
     "workloads"; "languages"; "images"; "execution-flow"].

(* [src/backend/server.js:2105-2122] views over the visible runs *)
Definition aggregateRoutes : list route :=
  [ on (meth "GET" && bool_decide (r_path r ∈
          ["/api/sessions"; "/api/cache"; "/api/alerts"] ++ INTELLIGENCE_SECTIONS ++
          ["/api/savings"; "/api/analytics/overview"; "/api/billing"])%list)
      (authed w p $ reading (visibleRunIndex w p) $ λ l, Serve (Aggregate l)) ].

(** *** The configuration of a new run *)

Definition string_or (n : nat) (v : jsval) (d : string) : string := match v with JStr s => slice0 n s | _ => d end.
Definition string_of (v : jsval) : option string := match v with JStr s => Some s | _ => None end.
Definition int_or (v : jsval) (d : Z) : Z := match v with JNum n => n | _ => d end.

(** The keys of the policy the handler sets or the run reads. *)
Definition POLICY_KEYS : list string :=
  ["qualityFloor"; "latencyTargetMs"; "hardBudget"; "preset"; "routerWeights"; "minReliability"; "preferredModel";
   "allowSwitching"; "allowCompaction"].

(* [src/backend/server.js:2251-2300] new run: title, preset, runConfig *)
Definition newRunConfig (project : option project) : run_config :=
  let d := runSettings w in
  let pol := if is_object (json "policy") then prop (json "policy") else λ _, JUndef in
  let wanted := match json "preset" with
                | JStr s => if Presets.validPreset (Some s) then s else d_preset d
                | _ => d_preset d
                end in
  let preset := to_lower (or_str wanted "balanced") in
  RunConfig
    (slice0 (maxTitleChars w) (text_or (json "title") "New Task"))
    (text_or (json "taskMode") "general")
    (string_or 32 (json "priority") "normal")
    (string_or 32 (json "complexity") "medium")
    (match json "budget" with JNum n => of_Z n | _ => d_budget d end)
    (int_or (json "maxLatencyMs") 300000)
    (int_or (json "maxContextTokens") (defaultMaxContextTokens w))
    (match json "maxSteps" with JNum n => Z.max 1 (Z.min 50 n) | _ => d_maxSteps d end)
    (string_or 64 (json "provider") (defaultProvider w))
    (if one_of_strings ["demo"; "live"] (json "mode") then to_string (json "mode")
     else modeForProvider w (match json "provider" with JStr s => Some s | _ => Some (defaultProvider w) end) p)
    (p_id <$> p) (let o := p ≫= p_orgId in if truthy o then o else None) (j_id <$> project)
    (let m := project ≫= j_referenceModelId in
     if truthy m then m else match json "referenceModelId" with JStr s => Some (slice0 200 s) | _ => None end)
    (let m := default "" (j_privacyMode <$> project) in or_str m "standard")
    (match pol "qualityFloor" with JNum n => Some (of_Z n) | _ => d_qualityFloor d end)
    (match pol "latencyTargetMs" with JNum n => Some n | _ => d_latencyTargetMs d end)
    (match pol "hardBudget" with JBool b => b | _ => d_hardBudget d end)
    (if mhas Presets.PRESETS preset then preset else "balanced")
    (Presets.getPreset (Some wanted))
    (match json "preferredModel" with JStr s => if truthy_str s then Some (slice0 200 s) else None | _ => None end)
    (match json "allowSwitching" with JBool b => b | _ => d_allowSwitching d end)
    (match json "allowCompaction" with JBool b => b | _ => d_allowCompaction d end)
    (match json "policy" with JObj fs => filter (λ f, f.1 ∉ POLICY_KEYS) fs | _ => [] end)
    (if one_of_strings ["auto"; "readonly"] (json "toolPolicy") then to_string (json "toolPolicy") else d_toolPolicy d)
    (json "tools") (json "memory")
    (string_of (json "autonomyMode")) (string_of (json "approvalMode")) (string_of (json "networkAccess"))
    (match json "networkAllowlist" with JArr l => Some (take 20 l) | _ => None end).

(** The orchestrator's provider registry is the server's. *)
(* [src/backend/server.js:2301-2318] live runs need a credential *)
Definition live_refused (c : run_config) : bool :=
  String.eqb (c_mode c) "live" && negb (bool_decide (modeStateForProvider w (c_provider c) p = LIVE_READY)).

(* [src/backend/server.js:2246-2256] POST /api/runs *)
Definition createRoute : reply :=
  stop (draining w) 503 "draining" $ needAuth p $ needRole p "operator" $
  stop (negb (bool_decide (validateCreateRun (r_json r) = []))) 400 "bad_request" $
  let wanted := truthy_val (json "projectId") in
  let project := if wanted then getProject (to_string (json "projectId")) p (tenants w) else None in
  stop (wanted && bool_decide (project = None)) 403 "forbidden" $
  let c := newRunConfig project in
  stop (live_refused c) 409 "provider_unconfigured" $ Serve (CreateRun c).

(* [src/backend/server.js:2336-2345] run collection *)
Definition runCollection : list route :=
  [ on (meth "GET" && at_ "/api/runs") (authed w p $ reading (visibleRunIndex w p) $ λ l, Serve (ListRuns l));
    on (meth "POST" && at_ "/api/runs") createRoute;
    match below "/api/runs/" (r_path r) with
    | Some [a; c; b] =>
        on (truthy_str a && String.eqb c "compare" && truthy_str b && meth "GET")
          (stop (negb (validRunId a) || negb (validRunId b)) 400 "bad_request" $ authed w p $
           guardRunRead w p a $ guardRunRead w p b $ when_ (comparable w a b) (CompareRuns a b))
    | _ => None
    end ].

(** ** One run *)

Definition RUN_SUBS : list string := ["state"; "events"; "messages"; "cancel"; "retry"; "telemetry"; "savings"].

(* [src/backend/server.js:2356-2364] ownsRun *)
Definition ownsRun (rs : option run_state) : bool :=
  match p with
  | None => negb (authOn w)
  | Some q =>
      isGlobalAdmin p ||
      match rs with
      | None => false
      | Some rs =>
          same_org (rs_orgId rs) (p_orgId q) ||
          match first_truthy [rs_ownerId rs] with Some o => String.eqb o (p_id q) | None => false end
      end
  end.

(** [if (authConfig.enabled && !ownsRun()) return 403] *)
Definition owned (rs : option run_state) (k : reply) : reply := stop (authOn w && negb (ownsRun rs)) 403 "forbidden" k.

(** A run in memory, or else its persisted record. *)
Definition live_or_kept (id : string) (kept : option (option ownership)) (a : action) : reply :=
  match getRun w id with
  | Some rs => owned (Some rs) $ Serve a
  | None => reading kept $ λ o,
      match o with
      | None => notFound
      | Some o => stop (authOn w && negb (canAccessRun p (Some o))) 403 "forbidden" $ Serve a
      end
  end.

(** Changes to a run need an operator who owns the run. *)
Definition run_change (id : string) (k : reply) : reply :=
  needAuth p $ needRole p "operator" $
  match getRun w id with None => notFound | Some rs => owned (Some rs) k end.

(** The handlers behind [m]. The savings handler assigns to the [const]
    [runtimeState] when the run is not in memory but has a snapshot, which
    throws. *)
(* [src/backend/server.js:2347-2397] handlers of one run *)
Definition runRoute (id : string) (sub : option string) : route :=
  let get s := meth "GET" && bool_decide (sub = s) in
  let post s := meth "POST" && bool_decide (sub = Some s) in
  if negb (validRunId id) then Some badRequest
  else if authOn w && bool_decide (p = None) then Some (Reject 401 "unauthenticated")
  else first_reply
  [ on (get None) (live_or_kept id ((λ e : option entry, e_own <$> e) <$> persistedSummary w id) (ShowRun id));
    on (get (Some "state")) (live_or_kept id (loadSnapshot w id) (ShowState id));
    on (get (Some "events")) (guardRunRead w p id $ Serve (StreamEvents id));
    on (get (Some "telemetry"))
      (match getRun w id with None => notFound | Some rs => owned (Some rs) $ Serve (Telemetry id) end);
    on (get (Some "savings"))
      (match getRun w id with
       | None => reading (loadSnapshot w id) $ λ sn, match sn with None => notFound | Some _ => Reject 500 "internal" end
       | Some rs => owned (Some rs) $ Serve (ShowSavings id)
       end);
    on (post "messages")
      (run_change id $
       match json "content" with
       | JStr s => stop (negb (truthy_str (trim s))) 400 "bad_request" $ Serve (Message id (slice0 (maxMessageChars w) s))
       | _ => badRequest
       end);
    on (post "cancel") (run_change id $ Serve (CancelRun id));
    on (post "retry") (run_change id $ Serve (RetryRun id));
    on (post "fork") (run_change id $ Serve (ForkRun id));
    on (post "duplicate") (run_change id $ Serve (DuplicateRun id)) ].

(* [src/backend/server.js:2347-2352] m *)
Definition runRoutes : list route :=
  [ match below "/api/runs/" (r_path r) with
    | Some [id] => if truthy_str id then runRoute id None else None
    | Some [id; sub] => if truthy_str id && bool_decide (sub ∈ RUN_SUBS) then runRoute id (Some sub) else None
    | _ => None
    end ].

(** ** Execution *)

Definition RESOURCES : list string :=
  ["execution"; "continue"; "pause"; "resume"; "approvals"; "plan"; "changesets"; "verify"; "episodes"; "commands";
   "environment"; "git"; "policy"; "result"].
Definition VERBS : list string := ["approve"; "deny"; "cancel"; "apply"; "rollback"].

(** [json.k], as [needBody([k])] finds it. *)
Definition missing (k : string) : bool := negb (present (json k)).

(** [needBody] returns what [sendError] returns, which is [undefined]: the
    caller's [if (err) return err;] never stops the handler, so with a missing
    field the rest of the handler runs after the 400 has been sent. [k] is that
    rest; whatever it answers throws. *)
(* [src/backend/server.js:2628-2633] needBody *)
Definition needBody (f : string) (k : reply) : reply :=
  if missing f then
    Unhandled 400 "bad_request" (match k with Serve a => Some a | Unhandled _ _ a => a | Reject _ _ => None end)
  else k.

(* [src/backend/server.js:2773-2775] policy patch *)
Definition POLICY_PATCH : list string :=
  ["autonomyMode"; "approvalMode"; "allowedTools"; "deniedTools"; "allowedCommands"; "deniedCommands"; "networkAccess";
   "networkAllowlist"; "writeAccess"; "maxSteps"; "maxToolCalls"].
Definition policy_patch : list (string * jsval) :=
  omap (λ k, if present (json k) then Some (k, json k) else None) POLICY_PATCH.

(* [src/backend/server.js:2670-2697] approvals *)
Definition approvalsRoute (call : exec_call → reply) (extra verb : option string) : reply :=
  if meth "GET" && bool_decide (extra = None) then call ListApprovals
  else if meth "POST" && bool_decide (extra = None) then
    call (RequestApproval (slice0 64 (text_or (json "actionType") "apply_patch")))
  else match extra, verb with
  | Some x, Some v =>
      if meth "POST" && bool_decide (v ∈ ["approve"; "deny"; "cancel"]) then call (DecideApproval x v)
      else Reject 405 "method_not_allowed"
  | _, _ => Reject 405 "method_not_allowed"
  end.

(* [src/backend/server.js:2698-2713] plan *)
Definition planRoute (call : exec_call → reply) : reply :=
  if meth "GET" then call ViewPlan
  else match meth "POST", json "descriptions" with
  | true, JArr l => call (CreatePlan (take 30 l))
  | _, _ =>
      if (meth "POST" || meth "PATCH") && truthy_val (json "adapt") then call (AdaptPlan (json "adapt"))
      else if (meth "POST" || meth "PATCH") && truthy_val (json "stepId") && truthy_val (json "status") then
        call (SetStep (to_string (json "stepId")) (to_string (json "status")))
      else badRequest
  end.

(* [src/backend/server.js:2714-2749] changesets *)
Definition changesetsRoute (call : exec_call → reply) (extra verb : option string) : reply :=
  if meth "GET" && bool_decide (extra = None) then call ListChangesets
  else if meth "POST" && bool_decide (extra = Some "propose") then
    needBody "files" $ call (ProposeChangeset (json "files"))
  else match extra with
  | Some x =>
      if meth "POST" && bool_decide (verb = Some "apply") then
        call (ApplyChangeset x (if truthy_val (json "approvalId") then json "approvalId" else JNull))
      else if meth "POST" && bool_decide (verb = Some "rollback") then call (RollbackChangeset x)
      else Reject 405 "method_not_allowed"
  | None => Reject 405 "method_not_allowed"
  end.

(* [src/backend/server.js:2770-2785] policy *)
Definition policyRoute (call : exec_call → reply) : reply :=
  if meth "GET" then call ViewPolicy
  else if meth "PUT" || meth "POST" then
    stop (present (json "autonomyMode") && truthy_val (json "autonomyMode") &&
          negb (one_of_strings AUTONOMY_MODES (json "autonomyMode"))) 400 "bad_request" $
    stop (present (json "approvalMode") && truthy_val (json "approvalMode") &&
          negb (one_of_strings APPROVAL_MODES (json "approvalMode"))) 400 "bad_request" $
    call (SetPolicy policy_patch)
  else Reject 405 "method_not_allowed".

(** The handlers, the run being there and its user allowed. *)
(* [src/backend/server.js:2634-2669] execution handlers *)
Definition execHandlers (resource : string) (extra verb : option string) (call : exec_call → reply) : reply :=
  let is_ s := String.eqb resource s in
  if meth "GET" && is_ "execution" then call ViewExecution
  else if meth "GET" && is_ "result" then call ViewResult
  else if meth "POST" && is_ "continue" then
    needBody "content" $
    match json "content" with
    | JStr s => stop (negb (truthy_str (trim s))) 400 "bad_request" $ call (ContinueRun (slice0 4000 s))
    | _ => badRequest
    end
  else if meth "POST" && is_ "pause" then call PauseRun
  else if meth "POST" && is_ "resume" then call ResumeRun
  else if meth "POST" && is_ "commands" then needBody "text" $ call (Command (slice0 2000 (to_string (json "text"))))
  else if is_ "approvals" then approvalsRoute call extra verb
  else if is_ "plan" then planRoute call
  else if is_ "changesets" then changesetsRoute call extra verb
  else if meth "POST" && is_ "verify" then
    call (VerifyChangeset (if truthy_val (json "changesetId") then json "changesetId" else JNull))
  else if meth "GET" && is_ "episodes" then call ListEpisodes
  else if meth "GET" && is_ "environment" then call ViewEnvironment
  else if meth "POST" && is_ "git" then needBody "op" $ call (GitOp (to_string (json "op")))
  else if is_ "policy" then policyRoute call
  else notFound.

(** History is not enough for the execution calls. *)
(* [src/backend/server.js:2611-2627] liveness *)
Definition execLive (id resource : string) (k : reply) : reply :=
  let liveOnly := negb (meth "POST" && String.eqb resource "continue" ||
                        meth "GET" && bool_decide (resource ∈ ["execution"; "result"; "episodes"])) in
  let gone := reading (persistedSummary w id) $ λ e, match e with None => notFound | Some _ => Reject 410 "gone" end in
  if liveOnly && negb (activeRun w id) then gone
  else if negb liveOnly && negb (bool_decide (is_Some (getRun w id))) then gone
  else k.

(* [src/backend/server.js:2594-2609] execution routes: authorisation *)
Definition execRoute (id resource : string) (extra verb : option string) : reply :=
  stop (negb (validRunId id)) 400 "bad_request" $
  (λ k, if negb (authOn w) then k
        else needAuth p $ stop (negb (meth "GET") && negb (requireRole p "operator")) 403 "forbidden" $
             stop (bool_decide (is_Some (getRun w id)) && negb (isGlobalAdmin p) && ownedByOther w id p) 403 "forbidden" k) $
  execLive id resource $ execHandlers resource extra verb (λ c, Serve (Execution id c)).

(* [src/backend/server.js:2588-2593] s3 *)
Definition execRoutes : list route :=
  [ match below "/api/runs/" (r_path r) with
    | Some (id :: resource :: rest) =>
        if negb (truthy_str id && bool_decide (resource ∈ RESOURCES)) then None
        else match rest with
        | [] => Some (execRoute id resource None None)
        | [x] => if truthy_str x then Some (execRoute id resource (Some x) None) else None
        | [x; v] =>
            if truthy_str x && bool_decide (v ∈ VERBS) then Some (execRoute id resource (Some x) (Some v)) else None
        | _ => None
        end
    | _ => None
    end ].

(** ** The whole handler *)

(** The console serves no API path. *)
(* [src/backend/src/services/static-console.js:49-51] serveConsole *)
Definition consoleRoutes : list route :=
  [ on ((meth "GET" || meth "HEAD") && negb (starts_with "/api/" (r_path r)) && consoleFile w (r_path r)) (Serve Console) ].

Definition routes : list route :=
  (accountRoutes ++ statusRoutes ++ providerRoutes ++ catalogRoutes ++ insightRoutes ++ aggregateRoutes ++
   runCollection ++ runRoutes ++ execRoutes ++ consoleRoutes)%list.

(* [src/backend/server.js:2786-2796] request handler, routes in order *)
Definition handle : reply := default notFound (first_reply routes).
End Routes.

(** A request as it arrives, with what the checks before the routes find. *)
Record arrival := Arrival {
  a_urlOk : bool;
  a_allowed : bool;                                 (* allowRequest *)
  a_tooLarge : bool;
  a_malformed : bool;
  a_distAllowed : bool;                             (* allowRequestDistributed *)
  a_request : request;
}.

(** [res._cors] allows the origin. *)
(* [src/backend/server.js:1325-1394] request handler, before the routes *)
Definition serve (w : world) (a : arrival) : reply :=
  let r := a_request a in
  let m := r_method r in
  stop (negb (a_urlOk a)) 400 "bad_request" $
  stop (negb (a_allowed a)) 429 "rate_limited" $
  if String.eqb m "OPTIONS" then Serve Preflight
  else
    stop (a_tooLarge a) 413 "payload_too_large" $
    stop (a_malformed a && bool_decide (m ∈ ["POST"; "PUT"; "PATCH"])) 400 "invalid_json" $
    stop (negb (a_distAllowed a)) 429 "rate_limited" $
    stop (bool_decide ((p_source <$> r_principal r) = Some "session") && negb (bool_decide (m ∈ ["GET"; "HEAD"; "OPTIONS"])) &&
          truthy (r_origin r) && negb (bool_decide (is_Some (corsHeaders w (r_origin r))))) 403 "csrf_origin_denied" $
    handle w r.

(** * Properties *)

(** ** What an action may require *)

Definition runs_of (a : action) : list string :=
  match a with
  | ListEvaluations (Some id) _ | ListOutcomes (Some id) _ => [id]
  | ShowRouting id | ShowPromptPlan id | MemoryConflicts id | ShowOutcome id | ShowDecisions id | Feedback id _ => [id]
  | CompareRuns a b => [a; b]
  | ShowRun id | ShowState id | StreamEvents id | Telemetry id | ShowSavings id | Message id _ | CancelRun id
  | RetryRun id | ForkRun id | DuplicateRun id | Execution id _ => [id]
  | _ => []
  end.

Definition entries_of (a : action) : list entry := match a with Aggregate l | ListRuns l => l | _ => [] end.
Definition items_of (a : action) : list item :=
  match a with
  | ListMemory l | SearchMemory l | ListEvaluations None l | ListOutcomes None l => l
  | _ => []
  end.

(** Calls that only read. *)
Definition views (c : exec_call) : bool :=
  match c with
  | ViewExecution | ViewResult | ListApprovals | ViewPlan | ListChangesets | ListEpisodes | ViewEnvironment | ViewPolicy => true
  | _ => false
  end.

Definition required_role (a : action) : option string :=
  match a with
  | CreateProject _ _ | UpdateProject _ _ _ | HealthDetails | TestProvider _ _ | RefreshModels _ _ | CreateBenchmark
  | RecordAttempt _ | CreateRun _ | Message _ _ | CancelRun _ | RetryRun _ | ForkRun _ | DuplicateRun _ => Some "operator"
  | ConnectProvider _ _ _ | DisconnectProvider _ _ | SaveSettings _ => Some "admin"
  | Execution _ c => if views c then None else Some "operator"
  | _ => None
  end.

Definition public (a : action) : bool :=
  match a with
  | Preflight | Console | StripeWebhook | SignUp _ _ _ | LogIn _ _ | LogOut _ | WhoAmI _ | Liveness | Readiness
  | ListPresets => true
  | _ => false
  end.

(** The principal is an installation operator, or shares the organisation or
    the ownership of the run in memory, of its index entry or of its snapshot. *)
Definition may_access (w : world) (q : principal) (id : string) : Prop :=
  isGlobalAdmin (Some q) = true ∨
  (∃ rs, getRun w id = Some rs ∧ (same_org (rs_orgId rs) (p_orgId q) = true ∨ rs_ownerId rs = Some (p_id q))) ∨
  (∃ l e, loadIndex w None = Some l ∧ e ∈ l ∧ e_id e = id ∧ canAccessRun (Some q) (Some (e_own e)) = true) ∨
  (∃ sn, loadSnapshot w id = Some (Some sn) ∧ canAccessRun (Some q) (Some sn) = true).

(** An item of the principal's organisation, of a run it may access, or (what
    the code lets through) of no run and no organisation. *)
Definition may_see (w : world) (q : principal) (m : item) : Prop :=
  isGlobalAdmin (Some q) = true ∨ same_org (i_orgId m) (p_orgId q) = true ∨
  match i_runId m with Some (String c s) => may_access w q (String c s) | _ => True end.

(** The key of a provider call: the caller's own, or the deployment's for an
    installation operator. *)
Definition key_of (a : action) : option (string * string) :=
  match a with TestProvider pid key | ConnectProvider pid key _ => Some (pid, key) | _ => None end.
Definition own_key (w : world) (r : request) (q : principal) (pid key : string) : Prop :=
  prop (r_json r) "apiKey" = JStr key ∨ getKey w pid (credentialScope w (Some q)) = key ∨
  isGlobalAdmin (Some q) = true ∧ effectiveKey w pid = key.

Record allowed (w : world) (r : request) (q : principal) (a : action) : Prop := {
  al_role : ∀ role, required_role a = Some role → requireRole (Some q) role = true;
  al_runs : ∀ id, id ∈ runs_of a → may_access w q id;
  al_entries : ∀ e, e ∈ entries_of a → canAccessRun (Some q) (Some (e_own e)) = true;
  al_items : ∀ m, m ∈ items_of a → may_see w q m;
  al_key : ∀ pid key, key_of a = Some (pid, key) → own_key w r q pid key;
}.

Definition permitted (w : world) (r : request) (a : action) : Prop :=
  public a = true ∨ ∃ q, r_principal r = Some q ∧ allowed w r q a.

Definition reply_action (x : reply) : option action :=
  match x with Reject _ _ => None | Serve a => Some a | Unhandled _ _ a => a end.

(** ** Ownership *)

Lemma first_truthy_in l x : first_truthy l = Some x → Some x ∈ l ∧ truthy (Some x) = true.
Proof.
  induction l as [|y l IH]; simpl; [done|]. destruct (truthy y) eqn:E.
  - intros ->. split; [by left|done].
  - intros H. destruct (IH H). split; [by right|done].
Qed.

Lemma find_entry (l : list entry) id e : List.find (λ e, String.eqb (e_id e) id) l = Some e → e ∈ l ∧ e_id e = id.
Proof. intros [H1%list_elem_of_In H2%String.eqb_eq]%List.find_some. done. Qed.

Lemma same_org_eq a b : same_org a b = true ↔ truthy a = true ∧ a = b.
Proof.
  unfold same_org. rewrite !andb_true_iff, bool_decide_eq_true. split; [tauto|]. intros [? ->]. tauto.
Qed.

(** An entry's organisation or owner is enough for [canAccessRun]. *)
Lemma access_org q o : same_org (o_orgId o) (p_orgId q) = true → canAccessRun (Some q) (Some o) = true.
Proof.
  intros [H1 H2]%same_org_eq. unfold canAccessRun. destruct (isGlobalAdmin _); [done|].
  unfold first_truthy at 1. simpl. rewrite H1, <-H2, H1. simpl. by rewrite bool_decide_true.
Qed.
Lemma access_owner q o : first_truthy [o_ownerId o; o_owner o] = Some (p_id q) → canAccessRun (Some q) (Some o) = true.
Proof.
  intros H. unfold canAccessRun. destruct (isGlobalAdmin _); [done|]. destruct (_ && _); [done|].
  assert (first_truthy [o_ownerId o; o_owner o; o_ownership_ownerId o] = Some (p_id q)) as ->;
    [|apply String.eqb_refl].
  revert H. unfold first_truthy. simpl. destruct (truthy (o_ownerId o)); [done|].
  by destruct (truthy (o_owner o)).
Qed.

(** A run state's organisation or owner is enough for [may_access]. *)
Lemma run_org w id q : same_org (getRun w id ≫= rs_orgId) (p_orgId q) = true → may_access w q id.
Proof. unfold may_access. destruct (getRun w id) as [rs|]; [|done]. intros. right. left. by exists rs; auto. Qed.
Lemma run_owner w id q : first_truthy [getRun w id ≫= rs_ownerId] = Some (p_id q) → may_access w q id.
Proof.
  unfold may_access. intros [[H|H%not_elem_of_nil]%elem_of_cons _]%first_truthy_in; [|done].
  destruct (getRun w id) as [rs|]; [|done]. right. left. exists rs. auto.
Qed.

Lemma not_owned_index w id q index :
  truthy_str id = true → ownedByOtherWithIndex w (Some id) (Some q) index = false →
  (∀ l, loadIndex w None = Some l → index = l) → is_Some (loadIndex w None) → may_access w q id.
Proof.
  intros Hid H Hi [l Hl]. specialize (Hi _ Hl) as ->. unfold ownedByOtherWithIndex in H.
  assert (truthy (Some id) = true) as Ht by (by destruct id). rewrite Ht in H. cbn [negb orb] in H.
  destruct (isGlobalAdmin (Some q)) eqn:Eg; [by left|]. cbn [default] in H. cbv zeta in H.
  destruct (same_org _ _) eqn:Eo in H; [by apply run_org|].
  destruct (first_truthy _) as [o|] eqn:Ef in H.
  { apply negb_false_iff, String.eqb_eq in H. subst o. by apply run_owner. }
  right. right. left. destruct (List.find _ l) as [e|] eqn:En; [|done]. cbn [fmap option_fmap option_map mbind option_bind] in H.
  apply find_entry in En as [? ?]. exists l, e. do 3 (split; [done|]).
  destruct (same_org _ _) eqn:Eo' in H; [by apply access_org|].
  destruct (first_truthy _) as [o|] eqn:Ef' in H; [|done].
  apply negb_false_iff, String.eqb_eq in H. subst o. by apply access_owner.
Qed.

Lemma not_owned w id q : truthy_str id = true → ownedByOther w id (Some q) = false → may_access w q id.
Proof.
  intros Hid H. destruct (loadIndex w None) as [l|] eqn:El.
  - apply (not_owned_index w id q l); [done| |by intros ? [= ->]%(eq_trans (eq_sym El))|by exists l].
    revert H. unfold ownedByOther, ownedByOtherWithIndex. assert (truthy (Some id) = true) as -> by (by destruct id).
    rewrite Hid. cbn [negb orb default]. rewrite El. destruct (isGlobalAdmin _); [done|]. cbv zeta.
    destruct (same_org _ _); [done|]. by destruct (first_truthy _).
  - unfold ownedByOther in H. rewrite Hid, El in H. cbn [negb orb] in H.
    destruct (isGlobalAdmin (Some q)) eqn:Eg; [by left|]. cbv zeta in H.
    destruct (same_org _ _) eqn:Eo in H; [by apply run_org|].
    destruct (first_truthy _) as [o|] eqn:Ef in H; [|done].
    apply negb_false_iff, String.eqb_eq in H. subst o. by apply run_owner.
Qed.

Lemma valid_nonempty id : validRunId id = true → truthy_str id = true.
Proof. by destruct id. Qed.

(** ** Guards protect what follows them *)

(** Every action of a reply, or of a route, satisfies [P]. *)
Definition ok (P : action → Prop) (x : reply) : Prop := ∀ a, reply_action x = Some a → P a.
Definition route_ok (P : action → Prop) (x : route) : Prop := ∀ y, x = Some y → ok P y.

Section Replies.
Context (P : action → Prop).

Lemma ok_reject st code : ok P (Reject st code).
Proof. done. Qed.
Lemma ok_stop b st code k : (b = false → ok P k) → ok P (stop b st code k).
Proof. unfold stop. destruct b; [intros _; apply ok_reject|auto]. Qed.
Lemma ok_reading {A} (x : option A) f : (∀ a, x = Some a → ok P (f a)) → ok P (reading x f).
Proof. destruct x; [eauto|intros _; apply ok_reject]. Qed.
Lemma ok_when b a : (b = true → ok P (Serve a)) → ok P (when_ b a).
Proof. unfold when_. destruct b; [eauto|intros _; apply ok_reject]. Qed.
Lemma ok_if (b : bool) x y : (b = true → ok P x) → (b = false → ok P y) → ok P (if b then x else y).
Proof. destruct b; auto. Qed.
Lemma route_on b k : (b = true → ok P k) → route_ok P (on b k).
Proof. intros H y. unfold on. destruct b; [intros [= <-]; auto|done]. Qed.
Lemma route_some k : ok P k → route_ok P (Some k).
Proof. intros H y [= <-]. done. Qed.
Lemma route_none : route_ok P None.
Proof. done. Qed.
Lemma route_if (b : bool) x y : (b = true → route_ok P x) → (b = false → route_ok P y) → route_ok P (if b then x else y).
Proof. destruct b; auto. Qed.
Lemma route_first l : Forall (route_ok P) l → route_ok P (first_reply l).
Proof. induction 1 as [|x l Hx Hl IH]; [apply route_none|]. simpl. destruct x; [exact Hx|exact IH]. Qed.
Lemma ok_needBody r f k : ok P k → ok P (needBody r f k).
Proof.
  intros H a. unfold needBody. destruct (missing _ _); [|apply H]. cbn [reply_action].
  destruct k; cbn; try done; apply H.
Qed.
End Replies.

Section Isolation.
Context (w : world) (r : request) (Hon : authOn w = true).

Lemma ok_auth P k : (∀ q, r_principal r = Some q → ok P k) → ok P (needAuth (r_principal r) k).
Proof. unfold needAuth. destruct (r_principal r); [eauto|intros _; apply ok_reject]. Qed.
Lemma ok_role P role k : (requireRole (r_principal r) role = true → ok P k) → ok P (needRole (r_principal r) role k).
Proof. intros H. apply ok_stop. intros E. apply H. by apply negb_false_iff. Qed.
Lemma ok_authed P k : (∀ q, r_principal r = Some q → ok P k) → ok P (authed w (r_principal r) k).
Proof. unfold authed. rewrite Hon. apply ok_auth. Qed.
Lemma ok_guard P id k : truthy_str id = true →
  (∀ q, r_principal r = Some q → may_access w q id → ok P k) → ok P (guardRunRead w (r_principal r) id k).
Proof.
  intros Hid H. unfold guardRunRead. rewrite Hon. cbn [negb]. apply ok_auth. intros q Hq. apply ok_stop. intros Ho.
  apply (H q Hq). apply not_owned; [done|]. by rewrite <-Hq.
Qed.
Lemma ok_public a : public a = true → ok (permitted w r) (Serve a).
Proof. intros H b [= <-]. by left. Qed.
Lemma ok_serve q a : r_principal r = Some q → allowed w r q a → ok (permitted w r) (Serve a).
Proof. intros Hq Ha b [= <-]. right. eauto. Qed.

(** An action that shows no run, entry, item or key. *)
Lemma allowed_plain q a : runs_of a = [] → entries_of a = [] → items_of a = [] → key_of a = None →
  (∀ role, required_role a = Some role → requireRole (Some q) role = true) → allowed w r q a.
Proof. 
  intros H1 H2 H3 H4 H5. constructor; rewrite ?H1, ?H2, ?H3, ?H4; try done; by intros ? ?%not_elem_of_nil.
Qed.

Lemma allowed_key q a pid key : runs_of a = [] → entries_of a = [] → items_of a = [] → key_of a = Some (pid, key) →
  (∀ role, required_role a = Some role → requireRole (Some q) role = true) → own_key w r q pid key → allowed w r q a.
Proof.
  intros H1 H2 H3 H4 H5 H6. constructor; rewrite ?H1, ?H2, ?H3, ?H4; try done; try by intros ? ?%not_elem_of_nil.
  by intros pid' key' [= <- <-].
Qed.

Lemma allowed_run q a id : runs_of a = [id] → entries_of a = [] → items_of a = [] → key_of a = None →
  (∀ role, required_role a = Some role → requireRole (Some q) role = true) → may_access w q id → allowed w r q a.
Proof.
  intros H1 H2 H3 H4 H5 H6. constructor; rewrite ?H1, ?H2, ?H3, ?H4; try done.
  - by intros i ->%list_elem_of_singleton.
  - by intros ? ?%not_elem_of_nil.
  - by intros ? ?%not_elem_of_nil.
Qed.
End Isolation.

(** Discharges the guards in front of an action, in their order. *)
Ltac guard_step :=
  match goal with
  | |- Forall _ [] => apply Forall_nil; exact I
  | |- Forall _ (_ :: _) => apply Forall_cons; split
  | |- route_ok _ (on _ _) => apply route_on; intros ?
  | |- route_ok _ None => apply route_none
  | |- route_ok _ (Some _) => apply route_some
  | |- route_ok _ (if _ then _ else _) => apply route_if; intros ?
  | |- route_ok _ (match ?x with _ => _ end) => destruct x eqn:?
  | |- ok _ (Reject _ _) => apply ok_reject
  | |- ok _ badRequest => apply ok_reject
  | |- ok _ notFound => apply ok_reject
  | |- ok _ (stop _ _ _ _) => apply ok_stop; intros ?
  | |- ok _ (needAuth _ _) => apply ok_auth; intros ? ?
  | |- ok _ (needRole _ _ _) => apply ok_role; intros ?
  | |- ok _ (authed _ _ _) => apply ok_authed; [assumption|intros ? ?]
  | |- ok _ (guardRunRead _ _ _ _) => apply ok_guard; [assumption|solve [apply valid_nonempty, negb_false_iff; assumption]|intros ? ? ?]
  | |- ok _ (reading _ _) => apply ok_reading; intros ? ?
  | |- ok _ (when_ _ _) => apply ok_when; intros ?
  | |- ok _ (if _ then _ else _) => apply ok_if; intros ?
  | |- ok _ (match ?x with _ => _ end) => destruct x eqn:?
  | |- ok _ (let _ := _ in _) => cbv zeta
  | |- ok _ (Serve _) => first
      [ apply ok_public; reflexivity
      | eapply ok_serve; [eassumption|apply allowed_plain; try reflexivity; intros ? [=]; subst; congruence]
      | eapply ok_serve; [eassumption|eapply allowed_run; [reflexivity..|intros ? [=]; subst; congruence|assumption]] ]
  end.
Ltac guards := cbv beta zeta; repeat (guard_step; cbv beta zeta).

Section Groups.
Context (w : world) (r : request) (Hon : authOn w = true).

Lemma account_ok : Forall (route_ok (permitted w r)) (accountRoutes w r).
Proof. unfold accountRoutes. guards. Qed.

Lemma status_ok : Forall (route_ok (permitted w r)) (statusRoutes w r).
Proof. unfold statusRoutes. guards. Qed.

Lemma catalog_ok : Forall (route_ok (permitted w r)) (catalogRoutes w r).
Proof. unfold catalogRoutes. guards. Qed.
End Groups.

Section Items.
Context (w : world) (r : request) (Hon : authOn w = true).

Lemma own_candidate q pid : r_principal r = Some q → truthy_str (candidate w r pid) = true →
  own_key w r q pid (candidate w r pid).
Proof.
  intros Hq. unfold candidate, own_key, or_str, deployment. rewrite Hq, Hon. cbn [negb orb bool_decide].
  destruct (truthy_str (match _ with JStr s => s | _ => "" end)) eqn:E1.
  { destruct (prop (r_json r) "apiKey"); try done. by left. }
  destruct (truthy_str (getKey _ _ _)) eqn:E2; [by auto|].
  destruct (isGlobalAdmin (Some q)); simpl; [by auto|done].
Qed.

Lemma provider_ok : Forall (route_ok (permitted w r)) (providerRoutes w r).
Proof.
  unfold providerRoutes, providerRoute. guards.
  all: match goal with H : negb (truthy_str (candidate _ _ _)) = false |- _ => apply negb_false_iff in H end.
  all: match goal with
       | H : bool_decide (_ = Some "connect") = _, H' : requireRole _ _ = true, E : r_principal r = Some _ |- _ =>
           rewrite H, E in H'
       end.
  all: eapply ok_serve; [eassumption|eapply allowed_key; [reflexivity..|by intros role [= <-]|by apply own_candidate]].
Qed.

Lemma visible_may_see q m index : loadIndex w None = Some index →
  memoryVisibleToPrincipal w m (Some q) index = true → may_see w q m.
Proof.
  intros Hi. unfold memoryVisibleToPrincipal, may_see. destruct (isGlobalAdmin (Some q)); [by left|].
  intros H. right. destruct (truthy (i_orgId m)) eqn:Et.
  - apply andb_true_iff in H as [Hq E%bool_decide_eq_true]. left. by apply same_org_eq.
  - apply negb_true_iff in H. right. destruct (i_runId m) as [[|c s]|]; [done| |done].
    apply (not_owned_index w _ q index); [done|done|congruence|by exists index].
Qed.

Lemma not_owned_may_see q m index : loadIndex w None = Some index →
  ownedByOtherWithIndex w (i_runId m) (Some q) index = false → may_see w q m.
Proof.
  intros Hi H. right. right. destruct (i_runId m) as [[|c s]|]; [done| |done].
  apply (not_owned_index w _ q index); [done|done|congruence|by exists index].
Qed.

Lemma ok_visible q l k : r_principal r = Some q →
  (∀ l', (∀ m, m ∈ l' → may_see w q m) → ok (permitted w r) (k l')) → ok (permitted w r) (visible_items w r l k).
Proof.
  intros Hq H. unfold visible_items, restricted. rewrite Hon, Hq. cbn [andb].
  rewrite bool_decide_true by done. cbn [andb]. destruct (isGlobalAdmin (Some q)) eqn:Eg; cbn [negb].
  - apply H. intros m _. by left.
  - apply ok_reading. intros index Hi. apply H. intros m [Hm _]%list_elem_of_filter. by eapply visible_may_see.
Qed.

Lemma ok_items q a : r_principal r = Some q → runs_of a = [] → entries_of a = [] → key_of a = None →
  required_role a = None → (∀ m, m ∈ items_of a → may_see w q m) → ok (permitted w r) (Serve a).
Proof.
  intros Hq H1 H2 H3 H4 H5. eapply ok_serve; [done|]. constructor; rewrite ?H1, ?H2, ?H3, ?H4; try done;
    by intros ? ?%not_elem_of_nil.
Qed.

Lemma memory_ok : ok (permitted w r) (memoryRoute w r).
Proof.
  unfold memoryRoute. guards. eapply ok_visible; [done|]. intros l Hl. eapply ok_items; [done..|].
  cbn [items_of]. intros m Hm%elem_of_take. destruct Hm as (i & Hm%list_elem_of_lookup_2 & _). apply Hl.
  repeat case_match; repeat (apply list_elem_of_filter in Hm as [_ Hm]); done.
Qed.

Lemma search_ok : ok (permitted w r) (searchRoute w r).
Proof.
  unfold searchRoute. apply ok_stop; intros _. apply ok_stop; intros Hv.
  assert (∀ q, r_principal r = Some q → ok (permitted w r) (visible_items w r
    (filter (λ m, filter (λ s, s ≠ "") (List.map trim (split_on ","%char
       (if truthy (r_query r "scope") then default "" (r_query r "scope") else "working,longterm"))) = [] ∨
       i_scope m ∈ filter (λ s, s ≠ "") (List.map trim (split_on ","%char
       (if truthy (r_query r "scope") then default "" (r_query r "scope") else "working,longterm")))) (memoryItems w))
    (λ l, Serve (SearchMemory l)))) as H.
  { intros q Hq. eapply ok_visible; [done|]. intros l Hl. by eapply ok_items. }
  destruct (truthy (r_query r "runId")) eqn:Et.
  - apply ok_guard; [done| |by intros q Hq _; apply (H q)].
    by destruct (r_query r "runId") as [[]|].
  - apply ok_authed; [done|]. exact H.
Qed.

(** The listing of evaluations and of outcomes. *)
Lemma records_ok f act : 
  (∀ l, items_of (act None l) = l ∧ runs_of (act None l) = []) →
  (∀ id l, runs_of (act (Some id) l) = [id] ∧ items_of (act (Some id) l) = []) →
  (∀ x l, entries_of (act x l) = [] ∧ key_of (act x l) = None ∧ required_role (act x l) = None) →
  ok (permitted w r) (recordsRoute w r f act).
Proof.
  intros H1 H2 H3. unfold recordsRoute. cbv zeta. destruct (truthy (r_query r "runId")) eqn:Et.
  - destruct (r_query r "runId") as [s|]; [|done]. cbn [default]. guards.
    eapply ok_serve; [eassumption|]. destruct (H3 (Some s) (f (Some s) (clampLimit (r_limit r) 50 1 200))) as (E1 & E2 & E3).
    eapply allowed_run; [apply H2|done|apply H2|done| |done]. by rewrite E3.
  - rewrite Hon. apply ok_auth. intros q Hq. apply ok_if; [intros Hg|intros _].
    + eapply ok_items; [done|apply H1|apply H3|apply H3|apply H3|]. intros m _. left. by rewrite <-Hq.
    + apply ok_reading. intros index Hi. eapply ok_items; [done|apply H1|apply H3|apply H3|apply H3|].
      rewrite (proj1 (H1 _)). intros m Hm%elem_of_take. destruct Hm as (i & Hm%list_elem_of_lookup_2 & _).
      apply list_elem_of_filter in Hm as [Hm _]. eapply not_owned_may_see; [done|]. by rewrite <-Hq.
Qed.

Lemma run_view_ok base t k : (∀ id, validRunId id = true → ∀ q, r_principal r = Some q → may_access w q id → ok (permitted w r) (k id)) →
  route_ok (permitted w r) (run_view w r base t k).
Proof.
  intros H. unfold run_view. cbv zeta. destruct (if String.eqb t "" then _ else _) as [id|]; [|apply route_none].
  apply route_on. intros _. apply ok_stop. intros Hv%negb_false_iff. apply ok_guard; [done|by apply valid_nonempty|].
  intros q Hq Ha. by apply (H id Hv q).
Qed.

Lemma insight_ok : Forall (route_ok (permitted w r)) (insightRoutes w r).
Proof.
  unfold insightRoutes. repeat first [apply Forall_nil; exact I|apply Forall_cons; split].
  all: try (apply run_view_ok; intros; guards).
  all: try (apply route_on; intros _; first [exact memory_ok|exact search_ok|apply records_ok; done]).
  all: try solve [guards].
Qed.
End Items.

Section Runs.
Context (w : world) (r : request) (Hon : authOn w = true).

Lemma listed_access q e : listed_for q e = true → canAccessRun (Some q) (Some (e_own e)) = true.
Proof.
  unfold listed_for. destruct (first_truthy _) as [o|] eqn:Ef; [|done].
  intros [->%String.eqb_eq|H]%orb_true_iff; [by apply access_owner|by apply access_org].
Qed.

Lemma visible_entries q l e : visibleRunIndex w (Some q) = Some l → e ∈ l →
  canAccessRun (Some q) (Some (e_own e)) = true.
Proof.
  unfold visibleRunIndex. rewrite Hon. cbn [andb]. rewrite bool_decide_true by done. cbn [andb].
  destruct (isGlobalAdmin (Some q)) eqn:Eg; cbn [negb].
  - intros _ _. unfold canAccessRun. by rewrite Eg.
  - destruct (loadIndex _ _); [|done]. intros [= <-] [H _]%list_elem_of_filter. by apply listed_access.
Qed.

Lemma ok_entries q a l : r_principal r = Some q → visibleRunIndex w (Some q) = Some l → entries_of a = l →
  runs_of a = [] → items_of a = [] → key_of a = None → required_role a = None → ok (permitted w r) (Serve a).
Proof.
  intros Hq Hl H1 H2 H3 H4 H5. eapply ok_serve; [done|]. constructor; rewrite ?H1, ?H2, ?H3, ?H4, ?H5; try done;
    try (by intros ? ?%not_elem_of_nil). intros e. by apply visible_entries.
Qed.

Lemma aggregate_ok : Forall (route_ok (permitted w r)) (aggregateRoutes w r).
Proof.
  unfold aggregateRoutes. apply Forall_cons. split; [|by apply Forall_nil]. apply route_on. intros _.
  apply ok_authed; [done|]. intros q Hq. rewrite Hq. apply ok_reading. intros l Hl. by eapply ok_entries.
Qed.

Lemma create_route_ok : ok (permitted w r) (createRoute w r).
Proof. unfold createRoute. guards. Qed.

Lemma collection_ok : Forall (route_ok (permitted w r)) (runCollection w r).
Proof.
  unfold runCollection. apply Forall_cons; split; [|apply Forall_cons; split].
  - apply route_on. intros _. apply ok_authed; [done|]. intros q Hq. rewrite Hq. apply ok_reading. intros l Hl.
    by eapply ok_entries.
  - apply route_on. intros _. apply create_route_ok.
  - apply Forall_cons. split; [|by apply Forall_nil].
    destruct (below _ _) as [[|a [|c [|b []]]]|]; try apply route_none. apply route_on.
    intros [[[Ha Hc]%andb_true_iff Hb]%andb_true_iff _]%andb_true_iff.
    apply ok_stop. intros _. apply ok_authed; [done|]. intros q Hq.
    apply ok_guard; [done..|]. intros q1 Hq1 Ha1. apply ok_guard; [done..|]. intros q2 Hq2 Hb1. apply ok_when. intros _.
    eapply ok_serve; [done|]. constructor; cbn [required_role runs_of entries_of items_of key_of]; try done;
      try (by intros ? ?%not_elem_of_nil).
    assert (q1 = q ∧ q2 = q) as [-> ->] by (split; congruence).
    by intros id [->|[->|?%not_elem_of_nil]%elem_of_cons]%elem_of_cons.
Qed.

(** *** One run *)

Lemma owned_access q id rs : r_principal r = Some q → getRun w id = Some rs → ownsRun w r (Some rs) = true →
  may_access w q id.
Proof.
  intros Hq Hr. unfold ownsRun. rewrite Hq. destruct (isGlobalAdmin (Some q)) eqn:Eg; [by left|]. cbn [orb].
  intros [H|H]%orb_true_iff.
  - apply run_org. by rewrite Hr.
  - apply run_owner. rewrite Hr. cbn [mbind option_bind].
    destruct (first_truthy _) as [o|]; [|done]. by apply String.eqb_eq in H as ->.
Qed.

Lemma ok_owned id rs k : is_Some (r_principal r) → getRun w id = Some rs →
  (∀ q, r_principal r = Some q → may_access w q id → ok (permitted w r) k) → ok (permitted w r) (owned w r (Some rs) k).
Proof.
  intros [q Hq] Hr H. apply ok_stop. rewrite Hon. intros Ho%negb_false_iff. apply (H q Hq). by eapply owned_access.
Qed.

Lemma ok_change id k : (∀ q, r_principal r = Some q → may_access w q id → requireRole (Some q) "operator" = true →
  ok (permitted w r) k) → ok (permitted w r) (run_change w r id k).
Proof.
  intros H. apply ok_auth. intros q Hq. apply ok_role. rewrite Hq. intros Hrole.
  destruct (getRun w id) as [rs|] eqn:Er; [|apply ok_reject].
  apply (ok_owned id); [by exists q|done|]. intros q' Hq' Ha. assert (q' = q) as -> by congruence. by apply (H q).
Qed.

(** The persisted record is the index entry or the snapshot. *)
Definition kept_record (id : string) (kept : option (option ownership)) : Prop :=
  kept = ((λ e : option entry, e_own <$> e) <$> persistedSummary w id) ∨ kept = loadSnapshot w id.

Lemma kept_access q id kept o : kept_record id kept → kept = Some (Some o) → canAccessRun (Some q) (Some o) = true →
  may_access w q id.
Proof.
  intros Hk H Ha. destruct Hk as [-> | ->]; [|by right; right; right; exists o].
  right. right. left. unfold persistedSummary in H. destruct (loadIndex w None) as [l|]; [|done].
  cbn in H. destruct (List.find _ l) as [e|] eqn:Ef; [|done]. apply find_entry in Ef as [? ?].
  exists l, e. injection H as <-. done.
Qed.

Lemma ok_live_or_kept id kept a : is_Some (r_principal r) → kept_record id kept →
  (∀ q, r_principal r = Some q → may_access w q id → ok (permitted w r) (Serve a)) → ok (permitted w r) (live_or_kept w r id kept a).
Proof.
  intros [q Hq] Hk H. unfold live_or_kept. destruct (getRun w id) as [rs|] eqn:Er.
  - apply (ok_owned id); [by exists q|done|done].
  - apply ok_reading. intros [o|] Ho; [|apply ok_reject]. apply ok_stop. rewrite Hon, Hq. intros Ha%negb_false_iff.
    apply (H q Hq). by eapply kept_access.
Qed.

Ltac run_leaf :=
  eapply ok_serve; [eassumption|eapply allowed_run; [reflexivity..|intros ? [=]; subst; assumption|assumption]].

Lemma run_route_ok id sub : route_ok (permitted w r) (runRoute w r id sub).
Proof.
  unfold runRoute. cbv zeta. apply route_if; intros Hv; [apply route_some, ok_reject|].
  apply negb_false_iff in Hv. rewrite Hon. cbn [andb].
  apply route_if; intros Hp; [apply route_some, ok_reject|]. apply bool_decide_eq_false in Hp.
  assert (is_Some (r_principal r)) as Hsome by (by destruct (r_principal r)).
  assert (∀ a, required_role a = None → runs_of a = [id] → entries_of a = [] → items_of a = [] → key_of a = None →
    ∀ q, r_principal r = Some q → may_access w q id → ok (permitted w r) (Serve a)) as Hleaf.
  { intros a H0 H1 H2 H3 H4 q Hq Ha. eapply ok_serve; [done|]. eapply allowed_run; try done. by rewrite H0. }
  apply route_first. repeat (apply Forall_cons; split); [..|by apply Forall_nil]; apply route_on; intros _.
  - apply ok_live_or_kept; [done|by left|]. by apply Hleaf.
  - apply ok_live_or_kept; [done|by right|]. by apply Hleaf.
  - apply ok_guard; [done|by apply valid_nonempty|]. by apply Hleaf.
  - destruct (getRun w id) eqn:Er; [|apply ok_reject]. apply (ok_owned id); [done|done|]. by apply Hleaf.
  - destruct (getRun w id) eqn:Er; [apply (ok_owned id); [done|done|]; by apply Hleaf|].
    apply ok_reading. intros [] _; apply ok_reject.
  - apply ok_change. intros q Hq Ha Hr. destruct (prop _ _); try apply ok_reject. apply ok_stop. intros _. run_leaf.
  - apply ok_change. intros q Hq Ha Hr. run_leaf.
  - apply ok_change. intros q Hq Ha Hr. run_leaf.
  - apply ok_change. intros q Hq Ha Hr. run_leaf.
  - apply ok_change. intros q Hq Ha Hr. run_leaf.
Qed.

Lemma run_handlers_ok : Forall (route_ok (permitted w r)) (runRoutes w r).
Proof.
  unfold runRoutes. apply Forall_cons. split; [|by apply Forall_nil].
  destruct (below _ _) as [[|id [|sub []]]|]; try apply route_none; apply route_if; intros _;
    try apply route_none; apply run_route_ok.
Qed.

(** *** Execution *)

(** A call that changes something is not made for a GET. *)
Definition reads_only (c : exec_call) : Prop := views c = false → String.eqb (r_method r) "GET" = false.

Ltac not_get :=
  intros _; let E := fresh in destruct (String.eqb (r_method r) "GET") eqn:E; [|reflexivity];
  apply String.eqb_eq in E; rewrite ?E in *; simpl in *; congruence.
Ltac exec_leaf Hcall := apply Hcall; first [by intros [=]|not_get].

Context (call : exec_call → reply) (Hcall : ∀ c, reads_only c → ok (permitted w r) (call c)).

Lemma approvals_ok extra verb : ok (permitted w r) (approvalsRoute r call extra verb).
Proof.
  unfold approvalsRoute. apply ok_if; intros ?; [exec_leaf Hcall|]. apply ok_if; intros ?; [exec_leaf Hcall|].
  destruct extra, verb; try apply ok_reject. apply ok_if; intros ?; [exec_leaf Hcall|apply ok_reject].
Qed.

Lemma plan_ok : ok (permitted w r) (planRoute r call).
Proof.
  unfold planRoute. apply ok_if; intros Hg; [exec_leaf Hcall|].
  destruct (String.eqb (r_method r) "POST" || String.eqb (r_method r) "PATCH") eqn:Em; cbn [andb].
  - destruct (String.eqb (r_method r) "POST"), (prop (r_json r) "descriptions"); guards; exec_leaf Hcall.
  - destruct (String.eqb (r_method r) "POST"), (prop (r_json r) "descriptions"); guards; exec_leaf Hcall.
Qed.

Lemma changesets_ok extra verb : ok (permitted w r) (changesetsRoute r call extra verb).
Proof.
  unfold changesetsRoute. apply ok_if; intros ?; [exec_leaf Hcall|].
  apply ok_if; intros ?; [apply ok_needBody; exec_leaf Hcall|].
  destruct extra; [|apply ok_reject]. apply ok_if; intros ?; [exec_leaf Hcall|].
  apply ok_if; intros ?; [exec_leaf Hcall|apply ok_reject].
Qed.

Lemma policy_ok : ok (permitted w r) (policyRoute r call).
Proof.
  unfold policyRoute. apply ok_if; intros ?; [exec_leaf Hcall|]. apply ok_if; intros ?; [|apply ok_reject].
  apply ok_stop; intros _. apply ok_stop; intros _. exec_leaf Hcall.
Qed.

Lemma handlers_ok resource extra verb : ok (permitted w r) (execHandlers r resource extra verb call).
Proof.
  unfold execHandlers. cbv zeta.
  repeat match goal with |- ok _ (if _ then _ else _) => apply ok_if; intros ? end.
  all: try apply ok_reject; try apply ok_needBody.
  all: try apply approvals_ok; try apply plan_ok; try apply changesets_ok; try apply policy_ok.
  all: try solve [exec_leaf Hcall].
  destruct (prop _ _); try apply ok_reject. apply ok_stop; intros _. exec_leaf Hcall.
Qed.
End Runs.

Section Whole.
Context (w : world) (r : request) (Hon : authOn w = true).

Lemma exec_route_ok id resource extra verb : ok (permitted w r) (execRoute w r id resource extra verb).
Proof.
  unfold execRoute. cbv beta. apply ok_stop. intros Hv%negb_false_iff. rewrite Hon. cbn [negb].
  apply ok_auth. intros q Hq. apply ok_stop. intros Hm. apply ok_stop. intros Ho.
  assert (is_Some (getRun w id) → may_access w q id) as Ha.
  { intros Hr. rewrite bool_decide_true in Ho by done. cbn [andb] in Ho. rewrite Hq in Ho.
    destruct (isGlobalAdmin (Some q)) eqn:Eg; [by left|]. cbn [negb andb] in Ho.
    by apply not_owned; [apply valid_nonempty|]. }
  unfold execLive. cbv zeta. apply ok_if; intros Hl; [guards|]. apply ok_if; intros Hl'; [guards|].
  assert (may_access w q id) as Hacc.
  { apply Ha. destruct (negb (_ || _)) eqn:En in Hl, Hl'; cbn [andb negb] in Hl, Hl'.
    - apply negb_false_iff, bool_decide_eq_true in Hl as [rs Hrs]. unfold getRun. rewrite Hrs. by eexists.
    - by apply negb_false_iff, bool_decide_eq_true in Hl'. }
  apply handlers_ok. intros c Hc. eapply ok_serve; [done|]. eapply allowed_run; [reflexivity..| |done].
  intros role. cbn [required_role]. destruct (views c) eqn:Ev; [done|]. intros [= <-].
  rewrite (Hc Ev) in Hm. cbn [negb andb] in Hm. apply negb_false_iff in Hm. by rewrite <-Hq.
Qed.

Lemma exec_ok : Forall (route_ok (permitted w r)) (execRoutes w r).
Proof.
  unfold execRoutes. apply Forall_cons. split; [|by apply Forall_nil].
  destruct (below _ _) as [[|id [|resource rest]]|]; try apply route_none. apply route_if; intros _; [apply route_none|].
  destruct rest as [|x [|v []]]; try apply route_none.
  - apply route_some, exec_route_ok.
  - apply route_if; intros _; [apply route_some, exec_route_ok|apply route_none].
  - apply route_if; intros _; [apply route_some, exec_route_ok|apply route_none].
Qed.

Lemma routes_ok : Forall (route_ok (permitted w r)) (routes w r).
Proof.
  unfold routes. rewrite !Forall_app. js_split.
  - by apply account_ok.
  - by apply status_ok.
  - by apply provider_ok.
  - by apply catalog_ok.
  - by apply insight_ok.
  - by apply aggregate_ok.
  - by apply collection_ok.
  - by apply run_handlers_ok.
  - apply exec_ok.
  - unfold consoleRoutes. guards.
Qed.

Lemma handle_ok : ok (permitted w r) (handle w r).
Proof.
  unfold handle. pose proof (route_first _ _ routes_ok) as H.
  destruct (first_reply _) as [x|] eqn:E; [by apply H|apply ok_reject].
Qed.
End Whole.

(** ** The API as a whole *)

(** C15: isolation of the API. In an installation with authentication, whatever
    request arrives, whatever is answered and whatever the handler goes on to do
    after an answer: an action that is not a public one is only taken for an
    authenticated principal; it touches only runs this principal may access
    (installation operator, same organisation or owner, by the run in memory, the
    index or the snapshot); it lists only run records the principal may access
    and only items of its organisation or of its runs, or of no run at all; a
    change of a run, project or benchmark needs the operator role, a change of
    credentials or settings the admin role; and a provider call uses the caller's
    own key unless the caller is an installation operator. *)
Theorem api_isolation w a act : authOn w = true →
  reply_action (serve w a) = Some act → permitted w (a_request a) act.
Proof.
  intros Hon. assert (ok (permitted w (a_request a)) (serve w a)) as H; [|apply H].
  unfold serve. cbv zeta. do 2 (apply ok_stop; intros _). apply ok_if; intros _; [by apply ok_public|].
  do 4 (apply ok_stop; intros _). by apply handle_ok.
Qed.

(** *** A small installation: a run of Ann's organisation and one of Bob's *)

Definition own (org owner_ : string) : ownership := Ownership (Some org) None (Some owner_) None None.
Definition demo_world : world := {|
  authOn := true; draining := false; HttpGuards.now := 0; tenants := demo_signup;
  activeRuns := λ id, if String.eqb id "r1" then Some (RunState (Some "org-1") (Some "usr-1"))
                      else if String.eqb id "r2" then Some (RunState (Some "org-2") (Some "usr-2")) else None;
  terminalRuns := λ _, None;
  liveRuns := [Entry "r1" (own "org-1" "usr-1"); Entry "r2" (own "org-2" "usr-2")];
  loadIndex := λ _, Some [Entry "r3" (own "org-1" "usr-1")];
  loadSnapshot := λ id, Some (if String.eqb id "r3" then Some (own "org-1" "usr-1") else None);
  memoryItems := [Item "m1" (Some "org-2") (Some "r2") "longterm" "secret"; Item "m2" None None "working" "note"];
  listEvaluations := λ _ _, []; listOutcomes := λ _ _, []; outcomeKept := λ _, false; routingKept := λ _, false;
  decisionsKept := λ _, false; comparable := λ _ _, true; knownModel := λ _, true; knownBenchmark := λ _, false;
  runSettings := Settings "balanced" (ratio 1 2) 12 true true "auto" None None false;
  maxTitleChars := 200; maxMessageChars := 500; defaultMaxContextTokens := 64000; explicitMode := "demo";
  defaultProvider := "openrouter"; disabledProviders := []; hasCredentials := λ _ _, Some false; getKey := λ _ _, "";
  storedConfigured := λ _ _, false; hasAnyStored := λ _, false; envKeys := λ _, ""; effectiveKey := λ _, "deployment-key";
  webhookConfigured := false; frontendOrigin := "https://app.example"; consoleFile := λ _, false |}.

Definition ann : principal := Principal "usr-1" "admin" (Some "org-1") "session".
Definition ask (p : option principal) (m path : string) (json : jsval) : arrival :=
  Arrival true true false false true (Request m path None json (λ _, None) None None "" p).

Example own_run : serve demo_world (ask (Some ann) "GET" "/api/runs/r1" JUndef) = Serve (ShowRun "r1").
Proof. vm_compute. reflexivity. Qed.
Example own_history : serve demo_world (ask (Some ann) "GET" "/api/runs/r3/state" JUndef) = Serve (ShowState "r3").
Proof. vm_compute. reflexivity. Qed.
Example others_run : serve demo_world (ask (Some ann) "POST" "/api/runs/r2/cancel" JUndef) = Reject 403 "forbidden".
Proof. vm_compute. reflexivity. Qed.
Example others_execution :
  serve demo_world (ask (Some ann) "POST" "/api/runs/r2/git" (JObj [("op", JStr "push")])) = Reject 403 "forbidden".
Proof. vm_compute. reflexivity. Qed.
Example run_list : serve demo_world (ask (Some ann) "GET" "/api/runs" JUndef) =
  Serve (ListRuns [Entry "r3" (own "org-1" "usr-1"); Entry "r1" (own "org-1" "usr-1")]).
Proof. vm_compute. reflexivity. Qed.

(** An item of no run and no organisation is shown to everyone. *)
Example ownerless_item_shown :
  serve demo_world (ask (Some ann) "GET" "/api/memory" JUndef) =
  Serve (ListMemory [Item "m2" None None "working" "note"]).
Proof. vm_compute. reflexivity. Qed.

(** Signing up makes the admin of one's own organisation, and that role is
    enough for the settings of the installation. *)
Example tenant_changes_settings :
  serve demo_world (ask (Some ann) "PUT" "/api/runtime/settings" (JObj [("maxSteps", JNum 50)])) =
  Serve (SaveSettings (JObj [("maxSteps", JNum 50)])).
Proof. vm_compute. reflexivity. Qed.

(** The savings of a run that is no longer in memory end in an internal error. *)
Example kept_savings_fail : serve demo_world (ask (Some ann) "GET" "/api/runs/r3/savings" JUndef) = Reject 500 "internal".
Proof. vm_compute. reflexivity. Qed.

Lemma api_isolation_witness :
  permitted demo_world (a_request (ask (Some ann) "POST" "/api/runs/r1/cancel" JUndef)) (CancelRun "r1").
Proof. apply (api_isolation demo_world (ask (Some ann) "POST" "/api/runs/r1/cancel" JUndef)); vm_compute; reflexivity. Defined.

(** No cross-site request changes anything. For a principal authenticated
    by its session cookie, a request with a method that may change state and an
    Origin header reaches a handler only if that origin is one of the configured
    front ends or, outside live mode, a loopback origin. *)
Theorem csrf_protected w a act q o :
  reply_action (serve w a) = Some act → r_principal (a_request a) = Some q → p_source q = "session" →
  r_method (a_request a) ∉ ["GET"; "HEAD"; "OPTIONS"] → r_origin (a_request a) = Some o → truthy_str o = true →
  o ∈ List.map trim (split_on ","%char (frontendOrigin w)) ∨ currentMode w ≠ "live" ∧ loopback_origin o = true.
Proof.
  intros Hact Hq Hs Hm Ho Hto. unfold serve in Hact. cbv zeta in Hact. unfold stop in Hact.
  destruct (negb (a_urlOk a)); [done|]. destruct (negb (a_allowed a)); [done|].
  destruct (String.eqb (r_method (a_request a)) "OPTIONS") eqn:Eopt.
  { apply String.eqb_eq in Eopt. rewrite Eopt in Hm. exfalso. apply Hm. do 2 right. by left. }
  destruct (a_tooLarge a); [done|]. destruct (a_malformed a && _); [done|]. destruct (negb (a_distAllowed a)); [done|].
  rewrite Hq, Ho in Hact. cbn [fmap option_fmap option_map] in Hact. rewrite Hs in Hact.
  rewrite (bool_decide_true (Some "session" = Some "session")) in Hact by done.
  rewrite (bool_decide_false _ Hm) in Hact. cbn [andb negb] in Hact.
  assert (truthy (Some o) = true) as Et by (by destruct o). rewrite Et in Hact. cbn [andb] in Hact.
  unfold corsHeaders, resolveCorsOrigin in Hact. destruct o as [|c o]; [done|].
  destruct (bool_decide (String c o ∈ filter _ _)) eqn:Ec.
  - apply bool_decide_eq_true in Ec. apply list_elem_of_filter in Ec as [_ Ec]. by left.
  - destruct (String.eqb (currentMode w) "live") eqn:El; cbn [negb andb] in Hact.
    + rewrite bool_decide_false in Hact by (by intros []). done.
    + destruct (loopback_origin (String c o)) eqn:Eb; [|rewrite bool_decide_false in Hact by (by intros []); done].
      right. split; [|done]. by apply String.eqb_neq.
Qed.

Lemma csrf_protected_witness :
  "https://app.example" ∈ ["https://app.example"] ∨ currentMode demo_world ≠ "live" ∧ loopback_origin "https://app.example" = true.
Proof.
  refine (csrf_protected demo_world
    (Arrival true true false false true (Request "POST" "/api/runs/r1/cancel" (Some "https://app.example") JUndef
       (λ _, None) None None "" (Some ann)))
    (CancelRun "r1") ann "https://app.example" _ _ _ _ _ _); try (vm_compute; reflexivity).
  change ("POST" ∉ ["GET"; "HEAD"; "OPTIONS"]). apply (bool_decide_unpack _). vm_compute. exact I.
Defined.

(** ** Creating a run *)

(** What every route but the creation of a run leaves alone. *)
Definition ordinary (a : action) : Prop := match a with CreateRun _ | ForkRun _ | DuplicateRun _ => False | _ => True end.

Section Ordinary.
Context (w : world) (r : request) (P : action → Prop) (HP : ∀ a, ordinary a → P a).

Lemma ok_any_auth p k : ok P k → ok P (needAuth p k).
Proof. unfold needAuth. destruct p; [done|intros _; apply ok_reject]. Qed.
Lemma ok_any_authed p k : ok P k → ok P (authed w p k).
Proof. unfold authed. destruct (authOn w); [apply ok_any_auth|done]. Qed.
Lemma ok_any_guard p id k : ok P k → ok P (guardRunRead w p id k).
Proof. intros H. unfold guardRunRead. apply ok_if; intros _; [done|]. by apply ok_any_auth, ok_stop. Qed.
Lemma ok_any_items l k : (∀ l', ok P (k l')) → ok P (visible_items w r l k).
Proof. intros H. unfold visible_items. apply ok_if; intros _; [|done]. by apply ok_reading. Qed.
Lemma ok_ordinary a : ordinary a → ok P (Serve a).
Proof. intros H b [= <-]. by apply HP. Qed.
Lemma ok_any_owned rs k : ok P k → ok P (owned w r rs k).
Proof. intros H. by apply ok_stop. Qed.
Lemma ok_any_change id k : ok P k → ok P (run_change w r id k).
Proof.
  intros H. unfold run_change. apply ok_any_auth, ok_stop. intros _. destruct (getRun w id); [|apply ok_reject].
  by apply ok_any_owned.
Qed.
Lemma ok_any_kept id kept a : ordinary a → ok P (live_or_kept w r id kept a).
Proof.
  intros H. unfold live_or_kept. destruct (getRun w id); [by apply ok_any_owned, ok_ordinary|].
  apply ok_reading. intros [] _; [|apply ok_reject]. apply ok_stop. intros _. by apply ok_ordinary.
Qed.
End Ordinary.

Ltac any_step :=
  match goal with
  | |- Forall _ [] => apply Forall_nil; exact I
  | |- Forall _ (_ :: _) => apply Forall_cons; split
  | |- route_ok _ (on _ _) => apply route_on; intros _
  | |- route_ok _ None => apply route_none
  | |- route_ok _ (Some _) => apply route_some
  | |- route_ok _ (if _ then _ else _) => apply route_if; intros _
  | |- route_ok _ (match ?x with _ => _ end) => destruct x
  | |- ok _ (Reject _ _) => apply ok_reject
  | |- ok _ badRequest => apply ok_reject
  | |- ok _ notFound => apply ok_reject
  | |- ok _ (stop _ _ _ _) => apply ok_stop; intros _
  | |- ok _ (needAuth _ _) => apply ok_any_auth
  | |- ok _ (needRole _ _ _) => apply ok_stop; intros _
  | |- ok _ (authed _ _ _) => apply ok_any_authed
  | |- ok _ (guardRunRead _ _ _ _) => apply ok_any_guard
  | |- ok _ (visible_items _ _ _ _) => apply ok_any_items; intros ?
  | |- ok _ (needBody _ _ _) => apply ok_needBody
  | |- ok _ (run_change _ _ _ _) => apply ok_any_change
  | |- ok _ (owned _ _ _ _) => apply ok_any_owned
  | |- ok _ (live_or_kept _ _ _ _ _) => apply ok_any_kept; [assumption|exact I]
  | |- ok _ (reading _ _) => apply ok_reading; intros ? _
  | |- ok _ (when_ _ _) => apply ok_when; intros _
  | |- ok _ (Serve _) => apply ok_ordinary; [assumption|exact I]
  | |- ok _ (if _ then _ else _) => apply ok_if; intros _
  | |- ok _ (match ?x with _ => _ end) => destruct x
  end.
Ltac any_guards := cbv beta zeta; repeat (any_step; cbv beta zeta).

Section OrdinaryRoutes.
Context (w : world) (r : request) (P : action → Prop) (HP : ∀ a, ordinary a → P a).

Lemma records_any f act : (∀ x l, ordinary (act x l)) → ok P (recordsRoute w r f act).
Proof. intros H. unfold recordsRoute. any_guards; by apply ok_ordinary. Qed.

Lemma insight_any : Forall (route_ok P) (insightRoutes w r).
Proof.
  unfold insightRoutes, memoryRoute, searchRoute, run_view.
  repeat first [apply Forall_nil; exact I|apply Forall_cons; split].
  all: any_guards.
  all: try (by apply records_any).
  all: case_match; any_guards.
Qed.

Lemma exec_route_any id resource extra verb : ok P (execRoute w r id resource extra verb).
Proof.
  unfold execRoute, execLive, execHandlers, approvalsRoute, planRoute, changesetsRoute, policyRoute. any_guards.
Qed.

Lemma exec_any : Forall (route_ok P) (execRoutes w r).
Proof. unfold execRoutes. any_guards; apply exec_route_any. Qed.

(** The paths of one run: only the names of [m] lead to a handler. *)
Lemma run_any : Forall (route_ok P) (runRoutes w r).
Proof.
  unfold runRoutes. apply Forall_cons. split; [|by apply Forall_nil].
  assert (∀ id sub, sub ≠ Some "fork" → sub ≠ Some "duplicate" → route_ok P (runRoute w r id sub)) as H.
  { intros id sub Hf Hd. unfold runRoute. cbv zeta.
    rewrite (bool_decide_false (sub = Some "fork")), (bool_decide_false (sub = Some "duplicate")) by done.
    rewrite !andb_false_r. apply route_if; intros _; [any_guards|]. apply route_if; intros _; [any_guards|].
    apply route_first. unfold on at 9 10. any_guards. }
  destruct (below _ _) as [[|id [|sub []]]|]; try apply route_none; apply route_if; intros Hs; try apply route_none.
  - by apply H.
  - apply andb_true_iff in Hs as [_ Hs%bool_decide_eq_true]. apply H; intros [= ->]; revert Hs;
      apply (bool_decide_unpack _); vm_compute; exact I.
Qed.

Lemma routes_any : ok P (createRoute w r) → Forall (route_ok P) (routes w r).
Proof.
  intros Hc. unfold routes. rewrite !Forall_app. js_split.
  - unfold accountRoutes. any_guards.
  - unfold statusRoutes. any_guards.
  - unfold providerRoutes, providerRoute. any_guards.
  - unfold catalogRoutes. any_guards.
  - apply insight_any.
  - unfold aggregateRoutes. any_guards.
  - unfold runCollection. any_guards. done.
  - apply run_any.
  - apply exec_any.
  - unfold consoleRoutes. any_guards.
Qed.

End OrdinaryRoutes.

Lemma serve_any w a (P : action → Prop) : (∀ x, ordinary x → P x) → ok P (createRoute w (a_request a)) → ok P (serve w a).
Proof.
  intros HP Hc. unfold serve. cbv zeta. do 2 (apply ok_stop; intros _). apply ok_if; intros _; [by apply ok_ordinary|].
  do 4 (apply ok_stop; intros _). unfold handle. pose proof (route_first _ _ (routes_any _ _ _ HP Hc)) as H.
  destruct (first_reply _) as [x|] eqn:E; [by apply H|apply ok_reject].
Qed.

(** Forking and duplicating a run cannot be reached. Although their handlers
    are there, no request at all makes the server fork or duplicate a run: the
    paths ending in /fork and /duplicate are not matched. *)
Theorem fork_unreachable w a id :
  ¬ (reply_action (serve w a) = Some (ForkRun id) ∨ reply_action (serve w a) = Some (DuplicateRun id)).
Proof.
  assert (ok (λ x, match x with ForkRun _ | DuplicateRun _ => False | _ => True end) (serve w a)) as H.
  { eapply serve_any; [by intros []|]. unfold createRoute. any_guards. by intros b [= <-]. }
  by intros [E|E]; specialize (H _ E).
Qed.

(** *** What is created *)

Lemma field_ok v b msg : field v b msg = [] → present v = true → b = true.
Proof. unfold field. intros H Hp. rewrite Hp in H. by destruct b. Qed.

Lemma num_within_spec lo hi v : num_within lo hi v = true → ∃ n, v = JNum n ∧ (lo ≤ n ≤ hi)%Z.
Proof. destruct v; try done. intros [? ?]%andb_true_iff. eexists. split; [done|lia]. Qed.

(** A validated number is in its range. *)
Lemma field_number lo hi v msg : field v (num_within lo hi v) msg = [] → ∀ n, v = JNum n → (lo ≤ n ≤ hi)%Z.
Proof. intros H n ->. by apply field_ok, num_within_spec in H as (? & [= <-] & ?). Qed.

Lemma mode_cases w prov p : modeForProvider w prov p = "demo" ∨ modeForProvider w prov p = "live".
Proof.
  unfold modeForProvider. cbv zeta.
  repeat match goal with |- context [if ?b then _ else _] => destruct b; [by auto|] end. by left.
Qed.

(** The run a principal [q] may create. *)
Record sound_run (w : world) (q : principal) (c : run_config) : Prop := {
  sr_owner : c_ownerId c = Some (p_id q);
  sr_org : c_orgId c = if truthy (p_orgId q) then p_orgId q else None;
  sr_project : ∀ pid, c_projectId c = Some pid → ∃ j, j ∈ listProjects (Some q) (tenants w) ∧ j_id j = pid ∧
    c_privacyMode c = or_str (j_privacyMode j) "standard";
  sr_steps : (1 ≤ d_maxSteps (runSettings w) ≤ 50)%Z → (1 ≤ c_maxSteps c ≤ 50)%Z;
  sr_latency : (1000 ≤ c_maxLatencyMs c ≤ 3600000)%Z;
  sr_context : (500 ≤ defaultMaxContextTokens w ≤ 1000000)%Z → (500 ≤ c_maxContextTokens c ≤ 1000000)%Z;
  sr_budget : c_maxCost c = d_budget (runSettings w) ∨ ∃ n, (0 ≤ n ≤ 1000)%Z ∧ c_maxCost c = of_Z n;
  sr_mode : c_mode c = "demo" ∨ c_mode c = "live" ∧ modeStateForProvider w (c_provider c) (Some q) = LIVE_READY;
}.

Lemma new_run_sound w r q project : r_principal r = Some q → validateCreateRun (r_json r) = [] →
  (∀ j, project = Some j → j ∈ listProjects (Some q) (tenants w)) →
  live_refused w r (newRunConfig w r project) = false → sound_run w q (newRunConfig w r project).
Proof.
  intros Hq Hv Hj Hl. unfold validateCreateRun in Hv. cbv zeta in Hv.
  repeat match goal with H : (_ ++ _)%list = [] |- _ => apply app_eq_nil in H as [? H] end.
  assert (∀ n, prop (r_json r) "maxLatencyMs" = JNum n → (1000 ≤ n ≤ 3600000)%Z) as Hlat by (eapply field_number; eassumption).
  assert (∀ n, prop (r_json r) "maxContextTokens" = JNum n → (500 ≤ n ≤ 1000000)%Z) as Hctx by (eapply field_number; eassumption).
  assert (∀ n, prop (r_json r) "budget" = JNum n → (0 ≤ n ≤ 1000)%Z) as Hbud by (eapply field_number; eassumption).
  constructor; cbn [newRunConfig c_ownerId c_orgId c_projectId c_privacyMode c_maxSteps c_maxLatencyMs
    c_maxContextTokens c_maxCost]; rewrite ?Hq; try done.
  - intros pid. destruct project as [j|]; [|done]. intros [= <-]. exists j. auto.
  - intros Hd. destruct (prop (r_json r) "maxSteps"); lia.
  - unfold int_or. destruct (prop (r_json r) "maxLatencyMs") eqn:E; try lia. by apply Hlat.
  - intros Hd. unfold int_or. destruct (prop (r_json r) "maxContextTokens") eqn:E; try lia. by apply Hctx.
  - destruct (prop (r_json r) "budget") eqn:E; auto. right. eexists. split; [by apply Hbud|done].
  - unfold live_refused in Hl. rewrite Hq in Hl.
    assert (c_mode (newRunConfig w r project) = "demo" ∨ c_mode (newRunConfig w r project) = "live") as [?|Hm]; [|by left|].
    { cbn [newRunConfig c_mode]. destruct (one_of_strings ["demo"; "live"] _) eqn:Eo; [|apply mode_cases].
      destruct (prop (r_json r) "mode"); try done. apply bool_decide_eq_true in Eo.
      apply elem_of_cons in Eo as [->|[->|?%not_elem_of_nil]%elem_of_cons]; [by left|by right|done]. }
    right. split; [done|]. rewrite Hm in Hl. cbn [String.eqb andb] in Hl.
    apply andb_false_iff in Hl as [Hl|Hl]; [done|]. by apply negb_false_iff, bool_decide_eq_true in Hl.
Qed.

(** What a created run may be. When authentication is on and a request
    makes the server create a run, the server is not draining, the caller is an
    authenticated operator, and the configuration handed on names the caller as
    owner and its organisation, at most a project the caller may list (with that
    project's privacy mode, whatever the body says), a step limit in 1..50, a
    latency limit in 1 s..1 h, a context limit in 500..1000000 tokens and a
    budget from the settings or in 0..1000; a live run is only created with a
    verified credential of the caller's scope. *)
Theorem created_run_sound w a c : authOn w = true → reply_action (serve w a) = Some (CreateRun c) →
  draining w = false ∧ ∃ q, r_principal (a_request a) = Some q ∧ requireRole (Some q) "operator" = true ∧ sound_run w q c.
Proof.
  intros Hon. set (P x := match x with CreateRun c => draining w = false ∧ ∃ q, r_principal (a_request a) = Some q ∧
    requireRole (Some q) "operator" = true ∧ sound_run w q c | _ => True end).
  assert (ok P (serve w a)) as H; [|intros E; exact (H _ E)].
  apply serve_any; [by intros []|]. unfold createRoute. cbv zeta. apply ok_stop. intros Hd. apply ok_auth. intros q Hq.
  apply ok_role. intros Hr. apply ok_stop. intros Hv%negb_false_iff%bool_decide_eq_true.
  apply ok_stop. intros Hp. apply ok_stop. intros Hl b [= <-]. split; [done|]. exists q. rewrite <-Hq at 2. split; [done|].
  split; [done|]. apply new_run_sound; try done. intros j Hj.
  destruct (truthy_val _); [|done]. unfold getProject in Hj. rewrite Hq in Hj.
  apply List.find_some in Hj as [Hj _]. by apply list_elem_of_In.
Qed.

Definition demo_project : jsval := JObj [("title", JStr "t"); ("projectId", JStr "prj-1"); ("maxSteps", JNum 9)].
Lemma created_run_sound_witness :
  ∃ q, r_principal (a_request (ask (Some ann) "POST" "/api/runs" demo_project)) = Some q ∧
    requireRole (Some q) "operator" = true ∧
    sound_run demo_world q (newRunConfig demo_world (a_request (ask (Some ann) "POST" "/api/runs" demo_project))
      (getProject "prj-1" (Some ann) demo_signup)).
Proof.
  apply (proj2 (created_run_sound demo_world (ask (Some ann) "POST" "/api/runs" demo_project)
    (newRunConfig demo_world (a_request (ask (Some ann) "POST" "/api/runs" demo_project))
      (getProject "prj-1" (Some ann) demo_signup)) eq_refl ltac:(vm_compute; reflexivity))).
Defined.

(** ** A missing field does not stop the handler *)

(** A missing field is not refused. On the routes that test for a required
    field with [needBody], a request for a live run by an operator who may use it
    is answered 400 when the field is missing and is carried out all the same: a
    command is run with the text "undefined", a git operation is attempted under
    that name, a changeset is proposed from nothing. The handler's second answer
    then throws where nothing catches it. *)
Theorem missing_field_not_refused w r id q resource extra f c :
  validRunId id = true → r_principal r = Some q → requireRole (Some q) "operator" = true →
  is_Some (activeRuns w id) → ownedByOther w id (Some q) = false → r_method r = "POST" → missing r f = true →
  (resource, extra, f, c) ∈ [("commands", None, "text", Command "undefined"); ("git", None, "op", GitOp "undefined");
                             ("changesets", Some "propose", "files", ProposeChangeset JUndef)] →
  execRoute w r id resource extra None = Unhandled 400 "bad_request" (Some (Execution id c)).
Proof.
  intros Hv Hq Hrole Hact Ho Hm Hf H.
  assert (execHandlers r resource extra None (λ c, Serve (Execution id c)) =
    Unhandled 400 "bad_request" (Some (Execution id c))) as Hh.
  { unfold missing, present in Hf.
    repeat (apply elem_of_cons in H as [[= -> -> -> ->]|H]); [..|by apply not_elem_of_nil in H];
      unfold execHandlers, changesetsRoute, needBody, missing, present; rewrite Hm; cbn;
      by destruct (prop (r_json r) _). }
  unfold execRoute, execLive, activeRun, getRun. rewrite Hv, Hq, Hm, Hrole, Ho, Hh.
  destruct Hact as [rs ->]. cbn [negb stop needAuth]. rewrite !andb_false_r.
  by destruct (authOn w).
Qed.

Lemma missing_field_not_refused_witness :
  serve demo_world (ask (Some ann) "POST" "/api/runs/r1/git" (JObj [])) =
  Unhandled 400 "bad_request" (Some (Execution "r1" (GitOp "undefined"))).
Proof.
  etransitivity; [|apply (missing_field_not_refused demo_world (a_request (ask (Some ann) "POST" "/api/runs/r1/git" (JObj [])))
    "r1" ann "git" None "op" (GitOp "undefined")); try (vm_compute; reflexivity)].
  - vm_compute. reflexivity.
  - by eexists.
  - do 1 right. left.
Defined.
