(* ===== verification/Economics.v ===== *)
(** The economics of model calls (backend/src/economics/canonical-record.js,
    economic-states.js, backend/src/cost/breakdown.js,
    backend/src/cost/cost-estimator.js).

    Amounts and token counts are binary64 numbers; [None] is [null], an amount
    that is not known. The hash that names a pricing snapshot is an argument. *)

From S2P Require Import Prelude JsMap JsValue Number Types.

Local Open Scope string_scope.
Local Open Scope js_scope.

(** * Rounding to a millionth *)

Definition million : num := of_Z 1000000.
Definition thousand : num := of_Z 1000.

(* [src/backend/src/cost/breakdown.js:19-21] round6 *)
Definition round6 (n : num) : num := ndiv (nround (nmul (or_num n nzero) million)) million.

(** * The cost of a call by category *)

(** Rates per thousand tokens. *)
(* [src/backend/src/savings/savings-engine.js:68-75] pricing *)
Record pricing := Pricing {
  inputPer1k : option num;
  outputPer1k : option num;
  cachedPer1k : option num;
  pr_source : string;
  pr_version : option string;
  pr_updatedAt : option Z;
}.
#[export] Instance pricing_eta : Eta pricing := λ p,
  Pricing (inputPer1k p) (outputPer1k p) (cachedPer1k p) (pr_source p) (pr_version p) (pr_updatedAt p).

(** [Number(v) || 0] on a rate. *)
Definition rate_or_zero (v : option num) : num := or_num (default nzero v) nzero.

Record amount := Amount { a_tokens : num; a_costUsd : num }.

(* [src/backend/src/cost/breakdown.js:36-48] CostBreakdown *)
Record breakdown := Breakdown {
  b_input : amount;
  b_cached : amount;
  b_output : amount;
  b_reasoning : amount;
  b_tools : num;
  b_total : num;
}.

Definition per1k (tokens rate : num) : num := nmul (ndiv tokens thousand) rate.

(** The cached rate is the input rate when the pricing has none. *)
(* [src/backend/src/cost/breakdown.js:24-49] normalizeModelCost *)
Definition normalizeModelCost (inputTokens cachedTokens outputTokens reasoningTokens toolCosts : num) (p : pricing)
    : breakdown :=
  let inRate := rate_or_zero (inputPer1k p) in
  let cachedRate := match cachedPer1k p with Some c => or_num c nzero | None => inRate end in
  let outRate := rate_or_zero (outputPer1k p) in
  let uncached := nmax nzero (nsub inputTokens cachedTokens) in
  let inputCost := per1k uncached inRate in
  let cachedCost := per1k cachedTokens cachedRate in
  let outputCost := per1k outputTokens outRate in
  let reasoningCost := per1k reasoningTokens outRate in
  let tools := or_num toolCosts nzero in
  Breakdown (Amount uncached (round6 inputCost)) (Amount cachedTokens (round6 cachedCost))
    (Amount outputTokens (round6 outputCost)) (Amount reasoningTokens (round6 reasoningCost)) (round6 tools)
    (round6 (nadd (nadd (nadd (nadd inputCost cachedCost) outputCost) reasoningCost) tools)).

(* [src/backend/src/cost/breakdown.js:53-62] toLegacyCategories *)
Definition toLegacyCategories (b : breakdown) : list (string * num) :=
  ([("input_tokens", a_costUsd (b_input b)); ("cached_input_tokens", a_costUsd (b_cached b));
    ("output_tokens", a_costUsd (b_output b))] ++
   (if nlt nzero (a_tokens (b_reasoning b)) then [("reasoning_tokens", a_costUsd (b_reasoning b))] else []) ++
   (if nlt nzero (b_tools b) then [("tool_execution", b_tools b)] else []) ++
   [("total", b_total b)])%list.

(** * The record of a call *)

(* [src/backend/src/economics/canonical-record.js:6-6] RECORD_VERSION *)
Definition RECORD_VERSION : string := "model-call-economic-v1".

(* [src/backend/src/economics/canonical-record.js:8-11] finiteNonNegative *)
Definition finiteNonNegative (v : jsnum) : num :=
  let n := to_number v in if isFinite n && nle nzero n then n else nzero.

(** Absent and empty values are unknown, not zero. *)
(* [src/backend/src/economics/canonical-record.js:13-17] nullableNonNegative *)
Definition nullableNonNegative (v : jsnum) : option num :=
  match v with
  | JNumber n => if isFinite n && nle nzero n then Some n else None
  | JUndefined | JNullish | JEmpty => None
  end.

(* [src/backend/src/economics/canonical-record.js:64-69] usage *)
Record usage := Usage { inputTokens : option num; outputTokens : option num; cachedTokens : option num; reasoningTokens : option num }.

(* [src/backend/src/economics/canonical-record.js:19-26] usageSourceFor *)
Definition usageSourceFor (given cacheType : option string) (providerCall : bool) (u : usage) : string :=
  if truthy given then default "" given
  else if negb providerCall && truthy cacheType then "cache_hit"
  else match inputTokens u, outputTokens u with
  | Some _, Some _ => "provider_reported"
  | None, None => "unknown"
  | _, _ => "provider_reported_partial"
  end.

(* [src/backend/src/economics/canonical-record.js:29-38] snapshot *)
Record snapshot := Snapshot {
  sn_modelId : option string;
  sn_inputPer1k : option num;
  sn_outputPer1k : option num;
  sn_cachedPer1k : option num;
  sn_source : string;
  sn_updatedAt : option Z;
  sn_capturedAt : Z;
  sn_version : option string;
}.
#[export] Instance snapshot_eta : Eta snapshot := λ s,
  Snapshot (sn_modelId s) (sn_inputPer1k s) (sn_outputPer1k s) (sn_cachedPer1k s) (sn_source s) (sn_updatedAt s)
    (sn_capturedAt s) (sn_version s).

(** The version is a digest of the snapshot's JSON when none was given. *)
(* [src/backend/src/economics/canonical-record.js:28-43] pricingSnapshot *)
Definition pricingSnapshot (digest : snapshot → string) (modelId : option string) (p : pricing) (capturedAt : Z) : snapshot :=
  let some_if v := if truthy v then v else None in
  let s := Snapshot (some_if modelId) (inputPer1k p) (outputPer1k p) (cachedPer1k p) (or_str (pr_source p) "unknown")
             (pr_updatedAt p) capturedAt (some_if (pr_version p)) in
  match sn_version s with Some _ => s | None => s <| sn_version := Some (slice0 16 (digest s)) |> end.

(** The tokens of a prompt plan by part. *)
(* [src/backend/src/economics/canonical-record.js:45-56] plan *)
Record prompt_plan := PromptPlan {
  pp_items : list (string * jsnum);
  pp_system : jsnum; pp_task : jsnum; pp_history : jsnum; pp_memory : jsnum; pp_tools : jsnum; pp_context : jsnum;
  pp_total : jsnum;
}.
(* [src/backend/src/economics/canonical-record.js:50-61] composition *)
Record composition := Composition {
  co_system : num; co_task : num; co_history : num; co_memory : num; co_tools : num; co_evidence : num; co_other : num;
  co_total : num;
}.
Definition evidenceKinds : list string := ["tool_result"; "search"; "test"; "file"; "logs"; "evidence"].

(* [src/backend/src/economics/canonical-record.js:45-61] promptComposition *)
Definition promptComposition (p : prompt_plan) : composition :=
  let evidence := fold_left (λ n i, nadd n (finiteNonNegative i.2)) (filter (λ i, i.1 ∈ evidenceKinds) (pp_items p)) nzero in
  let contextTotal := finiteNonNegative (pp_context p) in
  Composition (finiteNonNegative (pp_system p)) (finiteNonNegative (pp_task p)) (finiteNonNegative (pp_history p))
    (finiteNonNegative (pp_memory p)) (finiteNonNegative (pp_tools p)) evidence
    (nmax nzero (nsub contextTotal evidence)) (finiteNonNegative (pp_total p)).

(** What a record is made of; the plan and the metadata are passed through. *)
Record call_input := CallInput {
  ci_provider : option string;
  ci_model : option string;
  ci_step : jsnum;
  ci_providerCall : bool;                           (* input.providerCall !== false *)
  ci_cacheType : option string;
  ci_inputTokens : jsnum; ci_outputTokens : jsnum; ci_cachedTokens : jsnum; ci_reasoningTokens : jsnum;
  ci_calculatedCostUsd : jsnum;
  ci_providerCostUsd : jsnum;
  ci_costSource : option string;
  ci_usageSource : option string;
  ci_modelId : option string;
  ci_pricing : pricing;
  ci_plan : prompt_plan;
}.

(* [src/backend/src/economics/canonical-record.js:83-105] record *)
Record model_call := ModelCall {
  mc_step : option num;
  mc_provider : option string;
  mc_model : option string;
  mc_providerCall : bool;
  mc_cacheType : option string;
  mc_usage : usage;
  mc_usageSource : string;
  mc_composition : composition;
  mc_snapshot : snapshot;
  mc_providerCostUsd : option num;
  mc_calculatedCostUsd : option num;
  mc_canonicalCostUsd : option num;
  mc_costSource : string;
}.

(** An amount whose price is not known. *)
Definition unknown_source (s : string) : bool := String.eqb s "unknown" || String.eqb s "unknown_estimate".

(* [src/backend/src/economics/canonical-record.js:76-82] costSource, canonicalCostUsd *)
Definition cost_source (i : call_input) (provider calculated : option num) : string :=
  if ci_providerCall i then
    if truthy (ci_costSource i) then default "" (ci_costSource i)
    else match provider, calculated with
    | Some _, _ => "provider_reported"
    | None, Some _ => "pricing_snapshot"
    | None, None => "unknown"
    end
  else if truthy (ci_cacheType i) then default "" (ci_cacheType i) ++ "_cache_hit" else "no_provider_call".

(* [src/backend/src/economics/canonical-record.js:63-106] createModelCallRecord *)
Definition createModelCallRecord (digest : snapshot → string) (now : Z) (i : call_input) : model_call :=
  let u := Usage (nullableNonNegative (ci_inputTokens i)) (nullableNonNegative (ci_outputTokens i))
             (nullableNonNegative (ci_cachedTokens i)) (nullableNonNegative (ci_reasoningTokens i)) in
  let calculated := round6 <$> nullableNonNegative (ci_calculatedCostUsd i) in
  let provider := round6 <$> nullableNonNegative (ci_providerCostUsd i) in
  let source := cost_source i provider calculated in
  let canonical :=
    if ci_providerCall i then
      match provider with Some p => Some p | None => if unknown_source source then None else calculated end
    else Some nzero in
  ModelCall (let n := to_number (ci_step i) in if isFinite n then Some n else None) (ci_provider i) (ci_model i) (ci_providerCall i)
    (ci_cacheType i) u (usageSourceFor (ci_usageSource i) (ci_cacheType i) (ci_providerCall i) u)
    (promptComposition (ci_plan i)) (pricingSnapshot digest (ci_modelId i) (ci_pricing i) now) provider calculated canonical source.

(** * Labels of amounts *)

(* [src/backend/src/economics/economic-states.js:21-28] ECONOMIC_KINDS *)
Inductive economic_kind := Estimated | Observed | ModeledBaseline | ModeledSavings | VerifiedSavings | InvoiceReconciled.
#[export] Instance economic_kind_eq_dec : EqDecision economic_kind.
Proof. solve_decision. Defined.

(* [src/backend/src/economics/economic-states.js:21-28] ECONOMIC_KINDS *)
Definition kind_value (k : economic_kind) : string :=
  match k with
  | Estimated => "estimated" | Observed => "observed" | ModeledBaseline => "modeled_baseline"
  | ModeledSavings => "modeled_savings" | VerifiedSavings => "verified_savings" | InvoiceReconciled => "invoice_reconciled"
  end.
Definition ECONOMIC_KINDS : list economic_kind :=
  [Estimated; Observed; ModeledBaseline; ModeledSavings; VerifiedSavings; InvoiceReconciled].

(* [src/backend/src/economics/economic-states.js:34-38] envelope *)
Record envelope := Envelope { en_kind : string; en_amountUsd : option num; en_basis : option string }.

(* [src/backend/src/economics/economic-states.js:30-39] label *)
Definition label (kind : string) (v : jsnum) (basis : option string) : res envelope :=
  if bool_decide (kind ∈ List.map kind_value ECONOMIC_KINDS) then
    let amount := match v with JNumber n => if isFinite n then Some (round6 n) else None | _ => None end in
    Ok (Envelope kind amount (if truthy basis then basis else None))
  else Throw (JsError None ("unknown economic kind: " ++ kind)).

(** The value of reused tokens: the input rate less the cached one. *)
(* [src/backend/src/economics/economic-states.js:44-54] cacheValueUsd *)
Definition cacheValueUsd (reused : num) (p : option pricing) : num * num * string :=
  let tokens := nmax nzero (nfloor (or_num reused nzero)) in
  let inRate := match p with Some p => default nzero (inputPer1k p) | None => NaN end in
  let cachedRate := match p with Some p => default nzero (cachedPer1k p) | None => NaN end in
  if negb (isFinite inRate) || nlt inRate nzero then (nzero, tokens, "unpriced (no input pricing)")
  else
    let cached := if isFinite cachedRate && nle nzero cachedRate then cachedRate else inRate in
    (round6 (nmax nzero (ndiv (nmul (nsub inRate cached) tokens) thousand)), tokens, "pricing snapshot (input minus cached rate)").

(** * Properties *)

Lemma nonneg_round x : nonneg x = true → nonneg (nround x) = true.
Proof.
  destruct x as [[]|[]| |[] m e]; try done. intros _. unfold nround, of_Z_signed.
  destruct (round_Z false m e =? 0)%Z; [done|]. apply nonneg_of_Z. unfold round_Z, signed.
  destruct (0 <=? e)%Z.
  - apply Z.shiftl_nonneg. lia.
  - apply Z.shiftr_nonneg. assert (0 ≤ Z.shiftl 1 (- e - 1))%Z by (apply Z.shiftl_nonneg; lia). lia.
Qed.

Lemma nonneg_div_million x : nonneg x = true → nonneg (ndiv x million) = true.
Proof.
  intros H. destruct (isFinite x) eqn:E; [by apply nonneg_div|]. by destruct x as [|[]| |].
Qed.

Lemma nonneg_round6 x : isFinite x = true → nonneg x = true → nonneg (round6 x) = true.
Proof.
  intros Hf Hn. unfold round6. apply nonneg_div_million, nonneg_round.
  assert (isFinite (or_num x nzero) = true ∧ nonneg (or_num x nzero) = true) as [? ?]
    by (unfold or_num; by destruct (truthy_num x)).
  by apply nonneg_mul.
Qed.

(** The canonical cost of a call, on every branch. Whatever the provider and
    the caller report: a call that went to no provider costs 0; a usable
    provider charge wins over everything else; without one, an amount whose
    source is unknown stays unknown, and otherwise the calculated amount is taken,
    unknown if there is none. A missing or empty value never becomes a charge of
    0, and no recorded cost or token count is negative or NaN. *)
Theorem canonical_cost_exact digest now i :
  let c := createModelCallRecord digest now i in
  (ci_providerCall i = false → mc_canonicalCostUsd c = Some nzero) ∧
  (ci_providerCall i = true →
    mc_canonicalCostUsd c =
      match nullableNonNegative (ci_providerCostUsd i) with
      | Some p => Some (round6 p)
      | None => if unknown_source (mc_costSource c) then None else round6 <$> nullableNonNegative (ci_calculatedCostUsd i)
      end ∧
    (mc_canonicalCostUsd c = Some nzero →
      ∃ n, ci_providerCostUsd i = JNumber n ∨ ci_calculatedCostUsd i = JNumber n) ∧
    (truthy (ci_costSource i) = false → (mc_canonicalCostUsd c = None ↔ mc_costSource c = "unknown"))) ∧
  (∀ n, mc_canonicalCostUsd c = Some n → nonneg n = true) ∧
  (∀ n, Some n ∈ [inputTokens (mc_usage c); outputTokens (mc_usage c); cachedTokens (mc_usage c); reasoningTokens (mc_usage c)] →
    isFinite n = true ∧ nonneg n = true).
Proof.
  cbv zeta. unfold createModelCallRecord. cbv zeta. cbn [mc_canonicalCostUsd mc_costSource mc_usage].
  assert (∀ v n, nullableNonNegative v = Some n → v = JNumber n ∧ isFinite n = true ∧ nonneg n = true) as Hn.
  { intros v n. destruct v as [| | |m]; try done. simpl. destruct (isFinite m && nle nzero m) eqn:E; [|done].
    intros [= <-]. apply andb_true_iff in E as [? ?]. split; [done|]. split; [done|]. by apply nonneg_le. }
  split; [by intros ->|]. split; [|split].
  - intros Hc. rewrite !Hc. split; [by destruct (nullableNonNegative (ci_providerCostUsd i))|]. split.
    + destruct (nullableNonNegative (ci_providerCostUsd i)) as [p|] eqn:Ep.
      { intros _. exists p. left. by apply Hn. }
      cbn [fmap option_fmap option_map]. destruct (unknown_source _); [done|].
      destruct (nullableNonNegative (ci_calculatedCostUsd i)) as [q|] eqn:Eq; [|done].
      intros _. exists q. right. by apply Hn.
    + intros Hs. unfold cost_source. rewrite Hs, Hc.
      destruct (nullableNonNegative (ci_providerCostUsd i)), (nullableNonNegative (ci_calculatedCostUsd i)); by simpl.
  - intros n. destruct (ci_providerCall i); [|by intros [= <-]].
    destruct (nullableNonNegative (ci_providerCostUsd i)) as [p|] eqn:Ep; cbn [fmap option_fmap option_map].
    + intros [= <-]. apply Hn in Ep as (_ & ? & ?). by apply nonneg_round6.
    + destruct (unknown_source _); [done|]. destruct (nullableNonNegative (ci_calculatedCostUsd i)) as [q|] eqn:Eq; [|done].
      intros [= <-]. apply Hn in Eq as (_ & ? & ?). by apply nonneg_round6.
  - cbn [inputTokens outputTokens cachedTokens reasoningTokens].
    intros n H. repeat (apply elem_of_cons in H as [H|H]; [symmetry in H; by apply Hn in H as (_ & ? & ?)|]).
    by apply not_elem_of_nil in H.
Qed.

(** A missing cached rate that is [null] is read as 0, so the whole input rate
    counts as saved; [normalizeModelCost] charges such tokens at the input rate. *)
Example unknown_cached_rate :
  let p := Pricing (Some (of_Z 2)) (Some (of_Z 2)) None "seed" None None in
  (cacheValueUsd (of_Z 1000) (Some p)).1.1 = of_Z 2 ∧
  a_costUsd (b_cached (normalizeModelCost (of_Z 1000) (of_Z 1000) nzero nzero nzero p)) = of_Z 2.
Proof. vm_compute. split; reflexivity. Qed.
