(* ===== verification/CostEstimator.v ===== *)
(** Cost estimates and their accuracy (backend/src/cost/cost-estimator.js).

    The registry's price list is an argument: the rates of a model, a rate being
    [None] when it is not known, or nothing when the look-up gives none. *)

From S2P Require Import Prelude JsMap JsValue Number Types Economics.

Local Open Scope string_scope.
Local Open Scope js_scope.

Abbreviation category := CostCategory.t.

(** An estimate: its categories and its total. *)
Record estimate := Estimate { es_categories : list (category * num); es_reasoning : option num; es_total : num }.
#[export] Instance category_eq_dec : EqDecision category.
Proof. solve_decision. Defined.

(* [src/backend/src/cost/cost-estimator.js:10-20] defaultPricing *)
Definition default_rates : num * num * num := (ratio 1 1000, ratio 3 1000, ratio 2 10000).
Definition n_one : num := of_Z 1.
Definition toolBaseCost : num := ratio 1 1000.
Definition retrievalBaseCost : num := ratio 5 10000.
Definition switchingBaseCost : num := ratio 5 1000.
Definition retryBaseCost : num := ratio 2 1000.
Definition evaluationBaseCost : num := ratio 1 1000.
Definition orchestrationOverheadPerStep : num := ratio 1 10000.

Section Estimator.
(** [modelRegistry.getPricing(id)]; [None]: no registry, no model, or a throw. *)
Context (getPricing : string → option pricing).

(** Input, output and cached rate. *)
(* [src/backend/src/cost/cost-estimator.js:36-51] resolveModelPricing *)
Definition resolveModelPricing (modelId : string) : num * num * num * string :=
  let '(di, do_, dc) := default_rates in
  match getPricing modelId with
  | Some p =>
      match inputPer1k p, outputPer1k p with
      | None, None => (di, do_, dc, "default")
      | i, o => (default di i, default do_ o, default dc (cachedPer1k p), "registry")
      end
  | None => (di, do_, dc, "default")
  end.

(** The estimate, and the normalised breakdown whose input tokens are the
    uncached ones. *)
(* [src/backend/src/cost/cost-estimator.js:60-102] estimateModelCost *)
Definition estimateModelCost (modelId : string) (input output cached reasoning : num) : estimate * breakdown :=
  let '(inRate, outRate, cachedRate, source) := resolveModelPricing modelId in
  let reasoning := or_num reasoning nzero in
  let uncached := nmax nzero (nsub input cached) in
  let inputCost := per1k uncached inRate in
  let cachedCost := per1k cached cachedRate in
  let outputCost := per1k output outRate in
  let reasoningCost := per1k reasoning outRate in
  let total := nadd (nadd (nadd inputCost cachedCost) outputCost) reasoningCost in
  (Estimate [(CostCategory.INPUT_TOKENS, inputCost); (CostCategory.CACHED_INPUT_TOKENS, cachedCost);
             (CostCategory.UNCACHED_INPUT_TOKENS, inputCost); (CostCategory.OUTPUT_TOKENS, outputCost)]
     (if nlt nzero reasoning then Some reasoningCost else None) total,
   Breakdown (Amount (nsub input cached) (round6 inputCost)) (Amount cached (round6 cachedCost))
     (Amount output (round6 outputCost)) (Amount reasoning (round6 reasoningCost)) nzero (round6 total)).

(** A rate that is known. *)
(* [src/backend/src/cost/cost-estimator.js:113-113] known *)
Definition known (v : option num) : bool := match v with Some n => isFinite n && nle nzero n | None => false end.

(* [src/backend/src/cost/cost-estimator.js:108-122] estimateModelCostStrict *)
Definition estimateModelCostStrict (modelId : string) (input output cached : num) : option num :=
  p ← getPricing modelId;
  if negb (known (inputPer1k p)) || negb (known (outputPer1k p)) then None
  else
    let cached := nmax nzero (nmin (or_num input nzero) (or_num cached nzero)) in
    if nlt nzero cached && negb (known (cachedPer1k p)) then None
    else
      let uncached := nmax nzero (nsub (or_num input nzero) cached) in
      let total := nadd (nadd (per1k uncached (default nzero (inputPer1k p))) (per1k cached (default nzero (cachedPer1k p))))
                     (per1k (nmax nzero (or_num output nzero)) (default nzero (outputPer1k p))) in
      if isFinite total then Some (nmax nzero (ndiv (nround (nmul total million)) million)) else None.
End Estimator.

(** [multipliers[x] || 1] *)
Definition multiplier (l : list (string * num)) (x : string) : num := or_num (default nzero (mget l x)) n_one.

(* [src/backend/src/cost/cost-estimator.js:124-134] estimateToolCost *)
Definition estimateToolCost (calls : num) (complexity : string) : estimate :=
  let c := nmul (nmul toolBaseCost calls) (multiplier [("low", ratio 1 2); ("medium", n_one); ("high", of_Z 2)] complexity) in
  Estimate [(CostCategory.TOOL_EXECUTION, c)] None c.

(* [src/backend/src/cost/cost-estimator.js:136-144] estimateRetrievalCost *)
Definition estimateRetrievalCost (queries results : num) : estimate :=
  let c := nmul (nmul retrievalBaseCost queries) (ndiv results (of_Z 10)) in
  Estimate [(CostCategory.RETRIEVAL, c)] None c.

(* [src/backend/src/cost/cost-estimator.js:146-156] estimateSwitchingCost *)
Definition estimateSwitchingCost (contextTokens cachedTokens : num) : estimate :=
  let c := nadd (nadd switchingBaseCost (per1k contextTokens (ratio 1 1000))) (per1k cachedTokens (ratio 5 10000)) in
  Estimate [(CostCategory.SWITCHING, c)] None c.

(* [src/backend/src/cost/cost-estimator.js:158-166] estimateRetryCost *)
Definition estimateRetryCost (previous retries : num) : estimate :=
  let c := nadd (nmul retryBaseCost retries) (nmul previous (ratio 1 2)) in
  Estimate [(CostCategory.RETRY, c)] None c.

(* [src/backend/src/cost/cost-estimator.js:168-177] estimateEvaluationCost *)
Definition estimateEvaluationCost (type : string) : estimate :=
  let c := nmul evaluationBaseCost (multiplier [("basic", n_one); ("detailed", of_Z 2); ("comprehensive", of_Z 5)] type) in
  Estimate [(CostCategory.EVALUATION, c)] None c.

(* [src/backend/src/cost/cost-estimator.js:179-187] estimateOrchestrationOverhead *)
Definition estimateOrchestrationOverhead (steps : num) : estimate :=
  let c := nmul orchestrationOverheadPerStep steps in
  Estimate [(CostCategory.ORCHESTRATION_OVERHEAD, c)] None c.

Definition category_of (e : estimate) (c : category) : option num :=
  snd <$> List.find (λ x, bool_decide (x.1 = c)) (es_categories e).

(** Every category of every estimate is added, so a category that repeats
    another one counts twice. *)
(* [src/backend/src/cost/cost-estimator.js:189-207] estimateTotalCost *)
Definition estimateTotalCost (l : list estimate) : num :=
  fold_left (λ total e, fold_left (λ t c, match category_of e c with Some v => nadd t v | None => t end) CostCategory.all total)
    l nzero.

(** ** Recorded costs *)

Record cost_record := CostRecord {
  cr_runId : string; cr_category : category; cr_estimated : num; cr_actual : num; cr_variance : num; cr_variancePct : num;
  cr_at : Z;
}.

(** The history is bounded; the default bound is 1000. *)
(* [src/backend/src/cost/cost-estimator.js:209-227] recordActualCost *)
Definition recordActualCost (maxHistory : nat) (now : Z) (runId : string) (c : category) (estimated actual : num)
    (history : list cost_record) : list cost_record * cost_record :=
  let variance := nsub actual estimated in
  let pct := if nlt nzero estimated then nmul (ndiv variance estimated) (of_Z 100) else nzero in
  let r := CostRecord runId c estimated actual variance pct now in
  (push_shift maxHistory history r, r).

(* [src/backend/src/cost/cost-estimator.js:229-246] getCostAccuracy *)
Definition getCostAccuracy (c : option category) (history : list cost_record) : option (nat * num * num * list cost_record) :=
  let l := match c with Some c => List.filter (λ r, bool_decide (cr_category r = c)) history | None => history end in
  match l with
  | [] => None
  | _ =>
      let avg f := ndiv (fold_left (λ s r, nadd s (nabs (f r))) l nzero) (of_Z (Z.of_nat (length l))) in
      Some (length l, avg cr_variancePct, avg cr_variance, slice_last 10 l)
  end.

(* [src/backend/src/cost/cost-estimator.js:248-250] getHistory *)
Definition getHistory (limit : nat) (history : list cost_record) : list cost_record := slice_last limit history.

(** * Properties *)

(** A commercial estimate is only given for known rates, and is never below 0. *)
Lemma strict_estimate getPricing m i o c x : estimateModelCostStrict getPricing m i o c = Some x →
  ∃ p, getPricing m = Some p ∧ known (inputPer1k p) = true ∧ known (outputPer1k p) = true ∧ nlt x nzero = false.
Proof.
  unfold estimateModelCostStrict. destruct (getPricing m) as [p|]; [|done]. cbn [mbind option_bind].
  destruct (known (inputPer1k p)) eqn:Ei; [|done]. destruct (known (outputPer1k p)) eqn:Eo; [|done]. cbn [negb orb]. cbv zeta.
  destruct (_ && _); [done|]. set (total := nadd _ _). destruct (isFinite total); [|done]. intros [= <-].
  exists p. do 3 (split; [done|]). generalize (ndiv (nround (nmul total million)) million).
  by intros [[]|[]| |[]].
Qed.

(** The categories of a model estimate name the input cost twice, so the total
    over estimates counts it twice. *)
Example total_counts_input_twice :
  let e := (estimateModelCost (λ _, None) "m" (of_Z 1000) nzero nzero nzero).1 in
  es_total e = ratio 1 1000 ∧ estimateTotalCost [e] = ratio 2 1000.
Proof. vm_compute. split; reflexivity. Qed.

(** The history never outgrows its bound. *)
Lemma history_bounded (n : nat) now run c e a (h : list cost_record) :
  (length h <= n)%nat → (length (recordActualCost n now run c e a h).1 <= n)%nat.
Proof. apply push_shift_length. Qed.
