(* ===== verification/Savings.v ===== *)
(** Savings and billing (backend/src/savings/savings-engine.js,
    backend/src/billing.js, backend/src/billing-webhooks.js).

    The engine re-prices the provider calls of a completed run at the rates of
    an explicit reference model and takes the difference to what they cost.
    Amounts are binary64 numbers, [None] is [null]. The registry's models are a
    map; the HMAC of the webhook signature is an argument. *)

From Stdlib Require Import SpecFloat.
From S2P Require Import Prelude JsMap JsValue Number Text Auth Economics.

Local Open Scope string_scope.
Local Open Scope js_scope.

(** * Savings *)

(* [src/backend/src/savings/savings-engine.js:6-12] SavingsStatus *)
Inductive savings_status := VERIFIED_MODELED | NO_SAVINGS | COST_INCREASE | INSUFFICIENT_PRICING_DATA | INCOMPLETE_RUN.
#[export] Instance savings_status_eq_dec : EqDecision savings_status.
Proof. solve_decision. Defined.

(* [src/backend/src/savings/savings-engine.js:14-14] DEFAULT_PLATFORM_FEE_PCT *)
Definition DEFAULT_PLATFORM_FEE_PCT : num := ratio 1 4.

(* [src/backend/src/savings/savings-engine.js:16-19] normalizeFeePct *)
Definition normalizeFeePct (v : jsnum) : num :=
  let n := to_number v in
  if isFinite n then nmax nzero (nmin (of_Z 1) n) else DEFAULT_PLATFORM_FEE_PCT.

(** What a calculation returns before the billing fields are added. *)
Record step_line := StepLine { sl_step : option num; sl_provider : option string; sl_model : option string; sl_actual : num; sl_baseline : num; sl_delta : num }.

(** The reference a result names: none, its id alone (when the calculation
    fails), or its id with the provider the registry has for it now; the source
    is always ["explicit"]. *)
Inductive reference_view := NoReference | ReferenceId (id : string) | Reference (id : string) (provider : option string).

(** The prices behind an amount, of the reference or of the call itself. *)
Inductive line_type := ReferenceLine | ActualLine.
(* [src/backend/src/savings/savings-engine.js:444-458] pricing snapshots *)
Record price_line := PriceLine {
  pl_type : line_type;
  pl_step : option num;
  pl_provider : option string;
  pl_model : option string;
  pl_inputPer1k : option num;
  pl_outputPer1k : option num;
  pl_cachedPer1k : option num;
  pl_timestamp : option Z;
  pl_source : string;
  pl_version : option string;
}.
#[export] Instance price_line_eta : Eta price_line := λ l,
  PriceLine (pl_type l) (pl_step l) (pl_provider l) (pl_model l) (pl_inputPer1k l) (pl_outputPer1k l) (pl_cachedPer1k l)
    (pl_timestamp l) (pl_source l) (pl_version l).

(* [src/backend/src/savings/savings-engine.js:477-502] result *)
Record result := Result {
  r_status : savings_status;
  r_referenceModel : reference_view;
  r_baselineCost : option num;
  r_actualCost : option num;
  r_savings : option num;
  r_savingsRate : option num;
  r_usage : option (num * num * num * num);
  r_steps : list step_line;
  r_pricingSnapshot : list price_line;
  r_error : bool;
}.
#[export] Instance result_eta : Eta result := λ r,
  Result (r_status r) (r_referenceModel r) (r_baselineCost r) (r_actualCost r) (r_savings r) (r_savingsRate r) (r_usage r)
    (r_steps r) (r_pricingSnapshot r) (r_error r).

(* [src/backend/src/savings/savings-engine.js:37-51] billing fields *)
Record billed := Billed {
  l_result : result;
  l_baselineCost : option num;
  l_actualCost : option num;
  l_savings : option num;
  l_calculationStatus : string;
  l_economicOutcome : option string;
  l_feePct : num;
  l_eligible : num;
  l_platformFee : num;
  l_finalCost : option num;
  l_netSavings : option num;
  l_economicsStatus : string;
}.

(** [Number.isFinite(Number(value)) ? Number(value) : null]: as [Number(null)]
    is 0, an unknown amount becomes the amount 0. *)
(* [src/backend/src/savings/savings-engine.js:25-25] amount *)
Definition amount_of (v : option num) : option num :=
  match v with None => Some nzero | Some n => if isFinite n then Some n else None end.

(* [src/backend/src/savings/savings-engine.js:23-52] addBillingFields *)
Definition addBillingFields (r : result) (platformFeePct : jsnum) : billed :=
  let feePct := normalizeFeePct platformFeePct in
  let baseline := amount_of (r_baselineCost r) in
  let actual := amount_of (r_actualCost r) in
  let savings := amount_of (r_savings r) in
  let verified := bool_decide (r_status r = VERIFIED_MODELED) in
  let eligible := match savings with Some s => if verified then nmax nzero s else nzero | None => nzero end in
  let platformFee := round6 (nmul eligible feePct) in
  let calculationStatus := match r_status r with
    | INCOMPLETE_RUN => "incomplete" | INSUFFICIENT_PRICING_DATA => "insufficient_data" | _ => "verified_modeled" end in
  let economicOutcome :=
    if negb (String.eqb calculationStatus "verified_modeled") then None
    else s ← savings;
         Some (if nlt nzero eligible then "saved" else if neqb s nzero then "unchanged" else "cost_increase") in
  Billed r baseline actual savings calculationStatus economicOutcome feePct (round6 eligible) platformFee
    ((λ a, round6 (nadd a platformFee)) <$> actual)
    (b ← baseline; a ← actual; Some (round6 (nsub (nsub b a) platformFee)))
    (if verified then "verified_modeled" else "not_eligible").

(** A model of the registry, as far as prices go. *)
Record model := Model { m_provider : option string; m_pricing : pricing }.

(* [src/backend/src/savings/savings-engine.js:54-63] getReferenceModel *)
Definition getReferenceModel (runReference explicit : option string) (registry : string → option model)
    : option (string * option string) :=
  let requested := if truthy explicit then explicit else if truthy runReference then runReference else None in
  (λ id, (id, registry id ≫= m_provider)) <$> requested.

(* [src/backend/src/savings/savings-engine.js:65-76] getPricingForModel *)
Definition getPricingForModel (registry : string → option model) (id : option string) : option pricing :=
  i ← id; m_pricing <$> registry i.

(** The components of a pricing that are missing. *)
(* [src/backend/src/savings/savings-engine.js:78-86] validatePricing *)
Definition validatePricing (p : pricing) : list string :=
  let miss (v : option num) k := if match v with Some n => isFinite n | None => false end then [] else [k] in
  (miss (inputPer1k p) "inputPer1k" ++ miss (outputPer1k p) "outputPer1k")%list.

(** A token count: unknown, invalid ([NaN]), or a number. *)
Inductive token_count := TUnknown | TInvalid | TCount (n : num).
#[export] Instance token_count_eq_dec : EqDecision token_count.
Proof. solve_decision. Defined.

(* [src/backend/src/savings/savings-engine.js:88-92] tokenValue *)
Definition tokenValue (required : bool) (v : option num) : token_count :=
  match v with
  | None => if required then TUnknown else TCount nzero
  | Some n => if isFinite n && nle nzero n then TCount n else TInvalid
  end.

(** A provider call as the engine reads it from a canonical record. *)
(* [src/backend/src/savings/savings-engine.js:294-310] step *)
Record step := Step {
  st_step : option num;
  st_provider : option string;
  st_model : option string;
  st_usage : usage;
  st_providerCostUsd : option num;
  st_canonicalCostUsd : option num;
  st_costSource : string;
  st_snapshot : option snapshot;
}.

(* [src/backend/src/savings/savings-engine.js:284-311] extractStepsFromRun *)
Definition extractSteps (calls : list model_call) : list step :=
  List.map (λ c, Step (mc_step c) (mc_provider c) (mc_model c) (mc_usage c) (mc_providerCostUsd c) (mc_canonicalCostUsd c)
                   (mc_costSource c) (Some (mc_snapshot c)))
    (List.filter mc_providerCall calls).

(** Why a step has no cost. *)
Inductive step_error := NegativeTokens | InsufficientUsage | InsufficientPricing.

(** The four token counts of a step. *)
(* [src/backend/src/savings/savings-engine.js:109-119] token checks *)
Definition stepTokens (u : usage) : step_error + num * num * num * num :=
  match tokenValue true (inputTokens u), tokenValue true (outputTokens u), tokenValue false (cachedTokens u),
        tokenValue false (reasoningTokens u) with
  | TInvalid, _, _, _ | _, TInvalid, _, _ | _, _, TInvalid, _ | _, _, _, TInvalid => inl NegativeTokens
  | TCount i, TCount o, TCount c, TCount t => inr (i, o, c, t)
  | _, _, _, _ => inl InsufficientUsage
  end.

Definition modelCost (t : num * num * num * num) (p : pricing) : num :=
  let '(i, o, c, s) := t in b_total (normalizeModelCost i c o s nzero p).

(* [src/backend/src/savings/savings-engine.js:108-155] calculateStepBaselineCost *)
Definition stepBaseline (s : step) (reference : pricing) : step_error + num :=
  match stepTokens (st_usage s) with
  | inl e => inl e
  | inr t => match validatePricing reference with [] => inr (modelCost t reference) | _ => inl InsufficientPricing end
  end.

Definition finite_charge (v : option num) : option num :=
  n ← v; if isFinite n && nle nzero n then Some n else None.

(** The canonical amount when there is a snapshot for it; else what the provider
    charged; else the registry's rates, which [normalizeModelCost] applies when
    both are there; else the amount without a snapshot. *)
(* [src/backend/src/savings/savings-engine.js:157-282] calculateStepActualCost *)
Definition stepActual (s : step) (registry : string → option model) : step_error + num :=
  match stepTokens (st_usage s) with
  | inl e => inl e
  | inr t =>
      if unknown_source (st_costSource s) then inl InsufficientPricing
      else
        match finite_charge (st_canonicalCostUsd s), st_snapshot s with
        | Some c, Some _ => inr c
        | canonical, _ =>
            match finite_charge (st_providerCostUsd s) with
            | Some c => inr c
            | None =>
                match getPricingForModel registry (st_model s) with
                | Some p =>
                    match inputPer1k p, outputPer1k p, canonical with
                    | Some _, Some _, _ => inr (modelCost t p)
                    | _, _, Some c => inr c
                    | _, _, None => inl InsufficientPricing
                    end
                | None => match canonical with Some c => inr c | None => inl InsufficientPricing end
                end
            end
        end
  end.

(* [src/backend/src/savings/savings-engine.js:313-324] determineSavingsStatus *)
Definition determineSavingsStatus (baseline savings : num) : savings_status :=
  if nle baseline nzero then NO_SAVINGS
  else if nlt nzero savings then VERIFIED_MODELED
  else if neqb savings nzero then VERIFIED_MODELED
  else COST_INCREASE.

(** [v || null] on a text. *)
Definition text_or_none (v : option string) : option string := if truthy v then v else None.

(** Prices as the engine reports them; one without a date is dated [now]. *)
Definition price_line_of (ty : line_type) (s : step) (m : option string) (p : pricing) (now : Z) : price_line :=
  PriceLine ty (st_step s) (st_provider s) m (inputPer1k p) (outputPer1k p) (cachedPer1k p)
    (Some (default now (pr_updatedAt p))) (pr_source p) (text_or_none (pr_version p)).

(* [src/backend/src/savings/savings-engine.js:94-106] normalizeHistoricalPricingSnapshot *)
Definition historical_line (s : step) (sn : snapshot) : price_line :=
  PriceLine ActualLine (st_step s) (st_provider s) (if truthy (sn_modelId sn) then sn_modelId sn else st_model s)
    (sn_inputPer1k sn) (sn_outputPer1k sn) (sn_cachedPer1k sn)
    (Some (default (sn_capturedAt sn) (sn_updatedAt sn))) (or_str (sn_source sn) "unknown") (text_or_none (sn_version sn)).

(** The prices of the cost that [stepActual] takes, branch by branch. *)
(* [src/backend/src/savings/savings-engine.js:192-264] calculateStepActualCost, pricing snapshot *)
Definition actualLine (s : step) (registry : string → option model) (now : Z) : price_line :=
  let pricing := getPricingForModel registry (st_model s) in
  let bare source := PriceLine ActualLine (st_step s) (st_provider s) (st_model s) None None None (Some now) source None in
  match finite_charge (st_canonicalCostUsd s), st_snapshot s with
  | Some _, Some sn => historical_line s sn
  | _, _ =>
      match finite_charge (st_providerCostUsd s), pricing with
      | Some _, Some p => (price_line_of ActualLine s (st_model s) p now) <| pl_source := "provider_reported" |>
      | Some _, None => bare "provider_reported"
      | None, Some p =>
          match inputPer1k p, outputPer1k p with
          | Some _, Some _ => price_line_of ActualLine s (st_model s) p now
          | _, _ => bare "fallback_actual_cost"
          end
      | None, None => bare "fallback_actual_cost"
      end
  end.

(** No amounts. *)
Definition no_result (st : savings_status) (reference : reference_view) : result :=
  Result st reference None None None None None [] [] true.

(** The totals while the steps are gone through. *)
Record totals := Totals { t_baseline : num; t_actual : num; t_usage : num * num * num * num; t_lines : list step_line;
  t_prices : list price_line }.
Definition zero_totals : totals := Totals nzero nzero (nzero, nzero, nzero, nzero) [] [].

Definition add_usage (t : num * num * num * num) (u : usage) : num * num * num * num :=
  let '(i, o, c, s) := t in
  let add n v := nadd n (or_num (default nzero v) nzero) in
  (add i (inputTokens u), add o (outputTokens u), add c (cachedTokens u), add s (reasoningTokens u)).

(** A step without a model or a provider is passed over; the first step without
    a cost ends the calculation. *)
(* [src/backend/src/savings/savings-engine.js:389-471] loop over the steps *)
Fixpoint sumSteps (now : Z) (registry : string → option model) (id : string) (reference : pricing) (l : list step) (t : totals)
    : option totals :=
  match l with
  | [] => Some t
  | s :: l' =>
      if negb (truthy (st_model s)) || negb (truthy (st_provider s)) then sumSteps now registry id reference l' t
      else match stepBaseline s reference, stepActual s registry with
      | inr b, inr a =>
          sumSteps now registry id reference l'
            (Totals (nadd (t_baseline t) b) (nadd (t_actual t) a) (add_usage (t_usage t) (st_usage s))
               (t_lines t ++ [StepLine (st_step s) (st_provider s) (st_model s) (round6 a) (round6 b) (round6 (nsub b a))])%list
               (t_prices t ++ [price_line_of ReferenceLine s (Some id) reference now; actualLine s registry now])%list)
      | _, _ => None
      end
  end.

(* [src/backend/src/savings/savings-engine.js:326-504] calculateSavings *)
Definition calculateSavings (now : Z) (reference : option (string * option string)) (steps : list step)
    (registry : string → option model) (referenceSnapshot : option pricing) (fee : jsnum) : billed :=
  match reference with
  | None => addBillingFields (no_result INSUFFICIENT_PRICING_DATA NoReference) fee
  | Some (id, provider) =>
      let failed := addBillingFields (no_result INSUFFICIENT_PRICING_DATA (ReferenceId id)) fee in
      match (match referenceSnapshot with Some p => Some p | None => getPricingForModel registry (Some id) end) with
      | None => failed
      | Some p =>
          match validatePricing p with
          | _ :: _ => failed
          | [] =>
              match sumSteps now registry id p steps zero_totals with
              | None => failed
              | Some t =>
                  let savings := nsub (t_baseline t) (t_actual t) in
                  let rate := if nlt nzero (t_baseline t) then round6 (ndiv savings (t_baseline t)) else nzero in
                  addBillingFields
                    (Result (determineSavingsStatus (t_baseline t) savings) (Reference id provider) (Some (round6 (t_baseline t)))
                       (Some (round6 (t_actual t))) (Some (round6 savings)) (Some rate) (Some (t_usage t)) (t_lines t) (t_prices t) false)
                    fee
              end
          end
      end
  end.

(** What the engine reads of a run. *)
Record run_view := RunView { rv_status : string; rv_referenceModelId : option string; rv_calls : list model_call; rv_pricing : option pricing }.

(* [src/backend/src/savings/savings-engine.js:506-567] calculateSavingsForRun *)
Definition calculateSavingsForRun (now : Z) (run : option run_view) (registry : string → option model) (explicit : option string)
    (fee : jsnum) : billed :=
  match run with
  | None => addBillingFields (no_result INCOMPLETE_RUN NoReference) fee
  | Some run =>
      if negb (String.eqb (rv_status run) "completed") then addBillingFields (no_result INCOMPLETE_RUN NoReference) fee
      else
        let reference := getReferenceModel (rv_referenceModelId run)
                           (if truthy explicit then explicit else rv_referenceModelId run) registry in
        let steps := extractSteps (rv_calls run) in
        match reference, steps with
        | None, _ => calculateSavings now None steps registry (rv_pricing run) fee
        | Some (id, provider), [] => addBillingFields (no_result INCOMPLETE_RUN (Reference id provider)) fee
        | _, _ => calculateSavings now reference steps registry (rv_pricing run) fee
        end
  end.

(** * Billing *)

(* [src/backend/src/billing.js:29-49] row *)
Record row := Row {
  w_calculationStatus : string;
  w_economicOutcome : option string;
  w_economicsStatus : string;
  w_baselineCost : option num;
  w_actualCost : option num;
  w_eligible : option num;
  w_savings : option num;
  w_platformFee : option num;
  w_finalCost : option num;
  w_netSavings : option num;
}.

(** Of a result of the engine, whose fields are all there. *)
(* [src/backend/src/billing.js:14-50] fromSavings *)
Definition fromSavings (b : billed) : row :=
  let fee := Some (l_platformFee b) ≫= λ n, if isFinite n then Some n else None in
  let actual := amount_of (l_actualCost b) in
  let final := amount_of (l_finalCost b) in
  let final := match final with
               | Some f => Some f
               | None => a ← actual; f ← fee; Some (nadd a f)
               end in
  let outcome := match l_economicOutcome b with
    | Some o => Some o
    | None =>
        if String.eqb (l_calculationStatus b) "verified_modeled" then
          s ← amount_of (l_savings b);
          Some (if nlt nzero s then "saved" else if nlt s nzero then "cost_increase" else "unchanged")
        else None
    end in
  Row (l_calculationStatus b) outcome (l_economicsStatus b) (amount_of (l_baselineCost b)) actual
    (if isFinite (l_eligible b) then Some (l_eligible b) else None) (amount_of (l_savings b)) fee
    (round6 <$> final)
    (match amount_of (l_netSavings b) with
     | Some n => Some n
     | None => b' ← amount_of (l_baselineCost b); f ← final; Some (round6 (nsub b' f))
     end).

(** [rows.map((row) => Number(row[key])).filter(Number.isFinite)] *)
(* [src/backend/src/billing.js:57-60] sum *)
Definition sum_of (f : row → option num) (l : list row) : option num :=
  match List.filter isFinite (List.map (λ r, default nzero (f r)) l) with
  | [] => None
  | vs => Some (round6 (fold_left nadd vs nzero))
  end.

(* [src/backend/src/billing.js:61-61] count *)
Definition count (status : string) (l : list row) : nat :=
  length (List.filter (λ r, String.eqb (w_calculationStatus r) status) l).

(* [src/backend/src/billing.js:65-90] aggregate result *)
Record billing := Billing {
  g_runCount : nat;
  g_baselineCost : option num;
  g_providerCost : option num;
  g_eligible : option num;
  g_platformFee : option num;
  g_finalCost : option num;
  g_netSavings : option num;
  g_savingsRate : option num;
  g_verifiedCount : nat;
  g_insufficientCount : nat;
  g_incompleteCount : nat;
  g_noSavingsCount : nat;
  g_costIncreaseCount : nat;
  g_coverageRate : num;
  g_positive : num;
  g_negative : num;
}.

(* [src/backend/src/billing.js:52-91] aggregate *)
Definition aggregate (entries : list billed) : billing :=
  let rows := List.map fromSavings entries in
  let outcomes o := length (List.filter (λ r, bool_decide (w_economicOutcome r = Some o)) rows) in
  let total f := round6 (fold_left (λ n r, nadd n (f nzero (or_num (default nzero (w_savings r)) nzero))) rows nzero) in
  let base := sum_of w_baselineCost rows in
  let elig := sum_of w_eligible rows in
  Billing (length rows) base (sum_of w_actualCost rows) elig (sum_of w_platformFee rows) (sum_of w_finalCost rows)
    (sum_of w_netSavings rows)
    (b ← base; e ← elig; if nlt nzero b then Some (round6 (ndiv e b)) else None)
    (count "verified_modeled" rows) (count "insufficient_pricing_data" rows) (count "incomplete_run" rows)
    (outcomes "unchanged") (outcomes "cost_increase")
    (match rows with
     | [] => nzero
     | _ => round6 (ndiv (of_Z (Z.of_nat (count "verified_modeled" rows))) (of_Z (Z.of_nat (length rows))))
     end)
    (total nmax) (total nmin).

(** * The billing webhook *)

Section Webhook.
(** [hmac secret text] is the hexadecimal HMAC-SHA256; [number_of] is
    [Number(text)] for integers, [None] when it is not finite. *)
Context (hmac : string → string → string) (number_of : string → option Z).

Definition signature_parts (header : string) : list string := List.map trim (split_on ","%char header).
Definition header_time (header : string) : option Z :=
  number_of (string_drop 2 (default "" (List.find (starts_with "t=") (signature_parts header)))).
Definition header_signatures (header : string) : list string :=
  List.filter truthy_str (List.map (string_drop 3) (List.filter (starts_with "v1=") (signature_parts header))).

(** The time stamp, or the code of the refusal. *)
(* [src/backend/src/billing-webhooks.js:8-25] verifyStripeSignature *)
Definition verifyStripeSignature (payload : string) (header : option string) (secret : string) (now tolerance : Z)
    : string + Z :=
  if negb (truthy_str secret) then inl "not_configured"
  else match header with
  | None => inl "invalid_signature"
  | Some h =>
      match header_time h, header_signatures h with
      | Some t, _ :: _ =>
          let tolerance := Z.max 0 tolerance in
          if (0 <? tolerance)%Z && (tolerance <? Z.abs (now - t))%Z then inl "stale_signature"
          else
            let expected := hmac secret (string_of_Z t ++ "." ++ payload) in
            if existsb (λ c, timingSafeEqual c expected) (header_signatures h) then inr t else inl "invalid_signature"
      | _, _ => inl "invalid_signature"
      end
  end.

(* [src/backend/src/billing-webhooks.js:28-35] metadata *)
Record event_metadata := EventMetadata {
  e_eventId : option string; e_type : option string; e_livemode : bool; e_apiVersion : option string; e_receivedAt : Z;
}.

(* [src/backend/src/billing-webhooks.js:27-36] eventMetadata *)
Definition eventMetadata (event : jsval) (receivedAt : Z) : event_metadata :=
  let text n k := match prop event k with JStr s => Some (slice0 n s) | _ => None end in
  EventMetadata (text 200 "id") (text 200 "type") (bool_decide (prop event "livemode" = JBool true)) (text 80 "api_version") receivedAt.
End Webhook.

(** * Properties *)

(** ** The registry does not change the past *)

(** A call that is either priced or explicitly unknown, as the records of
    [createModelCallRecord] without a stated source are (up to overflow). *)
Definition self_sufficient (c : model_call) : Prop :=
  unknown_source (mc_costSource c) = true ∨ ∃ n, mc_canonicalCostUsd c = Some n ∧ isFinite n = true ∧ nonneg n = true.

Lemma actual_stable s reg1 reg2 : (∃ sn, st_snapshot s = Some sn) →
  unknown_source (st_costSource s) = true ∨
    (∃ n, st_canonicalCostUsd s = Some n ∧ isFinite n = true ∧ nonneg n = true) →
  stepActual s reg1 = stepActual s reg2.
Proof.
  intros [sn Hs] H. unfold stepActual. destruct (stepTokens _); [done|].
  destruct H as [->|(n & Hn & Hf & Hz)]; [done|]. destruct (unknown_source _); [done|].
  rewrite Hn, Hs. unfold finite_charge. cbn [mbind option_bind]. apply nonneg_le in Hz. by rewrite Hf, Hz.
Qed.

(** What a call with its own price reports does not come from the registry. *)
Lemma line_stable s reg now a : (∃ sn, st_snapshot s = Some sn) →
  unknown_source (st_costSource s) = true ∨
    (∃ n, st_canonicalCostUsd s = Some n ∧ isFinite n = true ∧ nonneg n = true) →
  stepActual s reg = inr a → ∃ sn, st_snapshot s = Some sn ∧ actualLine s reg now = historical_line s sn.
Proof.
  intros [sn Hs] H Ha. exists sn. split; [done|]. unfold stepActual in Ha. destruct (stepTokens _); [done|].
  destruct H as [H|(n & Hn & Hf & Hz)]; [by rewrite H in Ha|].
  unfold actualLine, finite_charge. rewrite Hn, Hs. cbn [mbind option_bind]. apply nonneg_le in Hz. by rewrite Hf, Hz.
Qed.

(** A result without what still comes from the registry or the clock: the
    provider now listed for the reference model, and the date of reference prices
    that were frozen without one. *)
Definition undated (l : price_line) : price_line :=
  match pl_type l with ReferenceLine => l <| pl_timestamp := None |> | ActualLine => l end.
Definition frozen_result (r : result) : result :=
  r <| r_referenceModel ::= λ v, match v with Reference id _ => Reference id None | v => v end |>
    <| r_pricingSnapshot ::= List.map undated |>.
Definition frozen (b : billed) : billed :=
  Billed (frozen_result (l_result b)) (l_baselineCost b) (l_actualCost b) (l_savings b) (l_calculationStatus b)
    (l_economicOutcome b) (l_feePct b) (l_eligible b) (l_platformFee b) (l_finalCost b) (l_netSavings b) (l_economicsStatus b).

(** The totals of two walks agree up to those dates, and on them when the
    prices are dated. *)
Definition same_totals (dated : bool) (t1 t2 : totals) : Prop :=
  t_baseline t1 = t_baseline t2 ∧ t_actual t1 = t_actual t2 ∧ t_usage t1 = t_usage t2 ∧ t_lines t1 = t_lines t2 ∧
  List.map undated (t_prices t1) = List.map undated (t_prices t2) ∧ (dated = true → t_prices t1 = t_prices t2).

Definition priced (s : step) : Prop :=
  (∃ sn, st_snapshot s = Some sn) ∧
  (unknown_source (st_costSource s) = true ∨
    (∃ n, st_canonicalCostUsd s = Some n ∧ isFinite n = true ∧ nonneg n = true)).

Lemma sum_stable now1 now2 reg1 reg2 id p l : Forall priced l → ∀ t1 t2,
  same_totals (bool_decide (is_Some (pr_updatedAt p))) t1 t2 →
  match sumSteps now1 reg1 id p l t1, sumSteps now2 reg2 id p l t2 with
  | Some u1, Some u2 => same_totals (bool_decide (is_Some (pr_updatedAt p))) u1 u2
  | None, None => True
  | _, _ => False
  end.
Proof.
  induction 1 as [|s l [Hs Hc] Hl IH]; intros t1 t2 Ht; [done|]. cbn [sumSteps].
  destruct (_ || _); [by apply IH|]. destruct (stepBaseline s p) as [|b]; [done|].
  rewrite (actual_stable s reg1 reg2) by done.
  destruct (stepActual s reg2) as [|a] eqn:Ea; [done|]. apply IH.
  destruct (line_stable s reg2 now2 a Hs Hc Ea) as (sn & Hsn & E2).
  destruct (line_stable s reg1 now1 a Hs Hc ltac:(by rewrite (actual_stable s reg1 reg2))) as (sn' & Hsn' & E1).
  rewrite Hsn in Hsn'. injection Hsn' as <-. destruct Ht as (H1 & H2 & H3 & H4 & H5 & H6).
  unfold same_totals. cbn [t_baseline t_actual t_usage t_lines t_prices]. rewrite H1, H2, H3, H4, E1, E2, !List.map_app, H5.
  split_and!; try done. intros Hd. rewrite (H6 Hd). apply bool_decide_eq_true in Hd as [d Hd].
  unfold price_line_of. by rewrite Hd.
Qed.

(** C19: historical economics are stable. Take a run whose provider calls carry
    their canonical cost, or are explicitly of unknown cost, and which froze the
    reference prices. Under every two registries and at every two moments, every
    amount of the result is the same - costs, savings, rate, fee, final cost,
    status, usage, the lines of the steps and the prices reported for them - and
    so are the reference id and the outcome, whatever reference model and fee are
    asked for: no later change of the catalogue (prices, removed models) re-prices
    a finished run. Only the provider named for the reference model is the one
    the registry has at the time, and reference prices frozen without a date are
    dated at the time; dated ones are reported identically. *)
Theorem historical_savings_stable run reg1 reg2 now1 now2 explicit fee p :
  rv_pricing run = Some p →
  Forall (λ c, mc_providerCall c = true → self_sufficient c) (rv_calls run) →
  let b1 := calculateSavingsForRun now1 (Some run) reg1 explicit fee in
  let b2 := calculateSavingsForRun now2 (Some run) reg2 explicit fee in
  frozen b1 = frozen b2 ∧
  (is_Some (pr_updatedAt p) → r_pricingSnapshot (l_result b1) = r_pricingSnapshot (l_result b2)).
Proof.
  intros Hp Hc. cbv zeta. unfold calculateSavingsForRun. destruct (negb _); [done|]. cbv zeta.
  assert (Forall priced (extractSteps (rv_calls run))) as Hs.
  { unfold extractSteps. apply Forall_forall. intros s Hs.
    apply list_elem_of_fmap in Hs as (c & -> & Hin). apply list_elem_of_In, List.filter_In in Hin as [Hin Hcall].
    rewrite Forall_forall in Hc. split; [by exists (mc_snapshot c)|].
    exact (Hc c (proj2 (list_elem_of_In _ _) Hin) Hcall). }
  unfold getReferenceModel. generalize dependent (extractSteps (rv_calls run)). intros steps Hs.
  destruct (if truthy (if truthy explicit then explicit else rv_referenceModelId run) then _ else _) as [id|]; [|done].
  cbn [fmap option_fmap option_map]. destruct steps as [|s steps]; [done|].
  unfold calculateSavings. rewrite Hp. destruct (validatePricing p); [|done].
  pose proof (sum_stable now1 now2 reg1 reg2 id p _ Hs zero_totals zero_totals ltac:(done)) as Ht.
  destruct (sumSteps now1 reg1 id p _ _) as [t1|], (sumSteps now2 reg2 id p _ _) as [t2|]; try done.
  destruct Ht as (H1 & H2 & H3 & H4 & H5 & H6). rewrite H1, H2, H3, H4. split.
  - unfold frozen, frozen_result, addBillingFields. cbn. by rewrite H5.
  - intros Hd. cbn. apply H6. by apply bool_decide_eq_true.
Qed.

(** ** A fee needs evidence *)

Lemma sum_evidence now reg id p l t t' : sumSteps now reg id p l t = Some t' →
  Forall (λ s, truthy (st_model s) = true → truthy (st_provider s) = true →
    (∃ u, stepTokens (st_usage s) = inr u) ∧ unknown_source (st_costSource s) = false ∧ ∃ a, stepActual s reg = inr a) l.
Proof.
  revert t. induction l as [|s l IH]; intros t; [constructor|]. simpl. intros H. constructor.
  - intros Hm Hpr. rewrite Hm, Hpr in H. cbn [negb orb] in H. destruct (stepBaseline s p) as [|b]; [done|].
    destruct (stepActual s reg) as [|a] eqn:Ea; [done|]. split; [|split; [|by exists a]]; unfold stepActual in Ea.
    + destruct (stepTokens _) as [|u]; [done|]. by exists u.
    + destruct (stepTokens _); [done|]. by destruct (unknown_source _).
  - destruct (_ || _); [by eapply IH|]. destruct (stepBaseline s p); [done|]. destruct (stepActual s reg); [done|].
    by eapply IH.
Qed.

Lemma no_fee r fee : r_status r ≠ VERIFIED_MODELED → nlt nzero (l_platformFee (addBillingFields r fee)) = false.
Proof.
  intros H. unfold addBillingFields. cbn [l_platformFee]. rewrite bool_decide_false by done.
  assert (match amount_of (r_savings r) with Some _ | None => nzero end = nzero) as Hz by (by destruct (amount_of _)).
  assert ((match amount_of (r_savings r) with Some s => if false then nmax nzero s else nzero | None => nzero end) = nzero) as ->
    by (by destruct (amount_of _)).
  assert (∃ s, nmul nzero (normalizeFeePct fee) = S754_zero s) as [s ->].
  { unfold normalizeFeePct. destruct (isFinite (to_number fee)) eqn:Ef; [|by eexists].
    destruct (to_number fee) as [[]|[]| |[] m e]; try done; try (by eexists).
    unfold nmin. simpl. destruct (nlt _ _); by eexists. }
  by destruct s.
Qed.

Lemma zero_fee f : nlt nzero (round6 (nmul nzero (normalizeFeePct f))) = false.
Proof.
  pose proof (no_fee (no_result INCOMPLETE_RUN NoReference) f ltac:(done)) as H. exact H.
Qed.

Lemma fee_bounds f : nle nzero (normalizeFeePct f) = true ∧ nle (normalizeFeePct f) (of_Z 1) = true.
Proof.
  unfold normalizeFeePct. destruct (isFinite (to_number f)) eqn:E; [|by split; vm_compute].
  by destruct (nclamp_bounds nzero (of_Z 1) (to_number f) eq_refl (isFinite_not_nan _ E)) as (? & ? & _).
Qed.

(** The billing fields of a positive fee. *)
Lemma billed_fee r f : nlt nzero (l_platformFee (addBillingFields r f)) = true →
  r_status r = VERIFIED_MODELED ∧ l_economicsStatus (addBillingFields r f) = "verified_modeled" ∧
  ∃ s, l_savings (addBillingFields r f) = Some s ∧ nlt nzero s = true ∧
    l_platformFee (addBillingFields r f) = round6 (nmul s (l_feePct (addBillingFields r f))).
Proof.
  intros H. destruct (decide (r_status r = VERIFIED_MODELED)) as [E|E]; [|by rewrite no_fee in H].
  split; [done|]. unfold addBillingFields in *. cbn [l_platformFee l_economicsStatus l_savings l_feePct] in *.
  rewrite bool_decide_true in * by done. split; [done|].
  destruct (amount_of (r_savings r)) as [s|] eqn:Es; [|by rewrite zero_fee in H].
  exists s. split; [done|].
  assert (isNaN s = false) as Hs.
  { unfold amount_of in Es. destruct (r_savings r) as [n|]; [|by injection Es as <-].
    destruct (isFinite n) eqn:Ef; [|done]. injection Es as <-. by apply isFinite_not_nan. }
  destruct (nlt nzero s) eqn:Els.
  - assert (nmax nzero s = s) as -> by (unfold nmax; rewrite Hs; cbn [isNaN orb]; by rewrite Els). done.
  - assert (nmax nzero s = nzero) as Hm by (unfold nmax; rewrite Hs; cbn [isNaN orb]; by rewrite Els).
    rewrite Hm, zero_fee in H. done.
Qed.

Lemma calculated_evidence now reference steps registry sn f :
  r_status (l_result (calculateSavings now reference steps registry sn f)) = VERIFIED_MODELED →
  is_Some reference ∧ ∃ id p t, validatePricing p = [] ∧ sumSteps now registry id p steps zero_totals = Some t.
Proof.
  unfold calculateSavings. destruct reference as [[id pr]|]; [|done]. cbv zeta.
  destruct (match sn with Some _ => _ | None => _ end) as [p|]; [|done]. destruct (validatePricing p) eqn:Ev; [|done].
  destruct (sumSteps _ _ _ _) as [t|] eqn:Et; [|done]. intros _. split; [by eexists|]. by exists id, p, t.
Qed.

(** What a fee is based on. *)
Record fee_basis (b : billed) (rv : run_view) (explicit : option string) : Prop := {
  fb_completed : rv_status rv = "completed";
  fb_reference : ∃ id, explicit = Some id ∨ rv_referenceModelId rv = Some id;
  fb_verified : l_economicsStatus b = "verified_modeled";
  fb_calls : Forall (λ c, mc_providerCall c = true → truthy (mc_model c) = true → truthy (mc_provider c) = true →
    (∃ u, stepTokens (mc_usage c) = inr u) ∧ unknown_source (mc_costSource c) = false) (rv_calls rv);
  fb_amount : ∃ s, l_savings b = Some s ∧ nlt nzero s = true ∧ l_platformFee b = round6 (nmul s (l_feePct b)) ∧
    nle nzero (l_feePct b) = true ∧ nle (l_feePct b) (of_Z 1) = true;
}.

Lemma calls_evidence now registry id p calls t t' : sumSteps now registry id p (extractSteps calls) t = Some t' →
  Forall (λ c, mc_providerCall c = true → truthy (mc_model c) = true → truthy (mc_provider c) = true →
    (∃ u, stepTokens (mc_usage c) = inr u) ∧ unknown_source (mc_costSource c) = false) calls.
Proof.
  intros Hsum%sum_evidence. unfold extractSteps in Hsum. apply Forall_fmap in Hsum. rewrite Forall_forall in Hsum.
  apply Forall_forall. intros c Hc Hcall Hm Hp.
  destruct (Hsum c) as (? & ? & _); [|done..]. apply list_elem_of_In, List.filter_In. split; [by apply list_elem_of_In|done].
Qed.

Lemma calculated_shape now reference steps registry sn f :
  ∃ r, calculateSavings now reference steps registry sn f = addBillingFields r f.
Proof. unfold calculateSavings. cbv zeta. repeat case_match; by eexists. Qed.

Lemma reference_named run explicit registry id :
  getReferenceModel run (if truthy explicit then explicit else run) registry = Some id →
  explicit = Some id.1 ∨ run = Some id.1.
Proof.
  unfold getReferenceModel. destruct (truthy explicit) eqn:Ee; rewrite ?Ee.
  - destruct explicit; [|done]. intros [= <-]. by left.
  - destruct (truthy run) eqn:Er; rewrite ?Er; [|done]. destruct run; [|done]. intros [= <-]. by right.
Qed.

Lemma calculated_fee now rv explicit registry f :
  let reference := getReferenceModel (rv_referenceModelId rv)
                     (if truthy explicit then explicit else rv_referenceModelId rv) registry in
  let b := calculateSavings now reference (extractSteps (rv_calls rv)) registry (rv_pricing rv) f in
  rv_status rv = "completed" → nlt nzero (l_platformFee b) = true → fee_basis b rv explicit.
Proof.
  cbv zeta. set (reference := getReferenceModel _ _ _). intros Hc H.
  destruct (calculated_shape now reference (extractSteps (rv_calls rv)) registry (rv_pricing rv) f) as [r Hr].
  pose proof (calculated_evidence now reference (extractSteps (rv_calls rv)) registry (rv_pricing rv) f) as Hev.
  rewrite Hr in Hev, H |- *. destruct (billed_fee r f H) as (Hst & He & s & Hs & Hpos & Hfee).
  destruct (Hev Hst) as ([id Href] & id' & p & t & _ & Hsum). constructor; [done| |done|by eapply calls_evidence|].
  - exists id.1. by eapply reference_named.
  - exists s. do 3 (split; [done|]). apply fee_bounds.
Qed.

(** A platform fee needs evidence. Whenever the fee of a run is positive:
    the run is completed; a reference model was named explicitly, by the caller
    or by the run; the economics are marked verified; every provider call of a
    known model and provider has valid token counts and a known price (one call
    of unknown cost is enough to charge nothing); the modelled savings are
    positive; and the fee is their share by a percentage between 0 and 1. *)
Theorem fee_needs_evidence now run registry explicit f :
  let b := calculateSavingsForRun now run registry explicit f in
  nlt nzero (l_platformFee b) = true → ∃ rv, run = Some rv ∧ fee_basis b rv explicit.
Proof.
  cbv zeta. unfold calculateSavingsForRun. destruct run as [rv|]; [|by rewrite no_fee].
  destruct (negb (String.eqb (rv_status rv) "completed")) eqn:Ec; [by rewrite no_fee|].
  apply negb_false_iff, String.eqb_eq in Ec. cbv zeta. pose proof (calculated_fee now rv explicit registry f Ec) as H.
  cbv zeta in H. destruct (getReferenceModel _ _ registry) as [[id pr]|]; [|intros Hfee; exists rv; auto].
  destruct (extractSteps (rv_calls rv)); [by rewrite no_fee|]. intros Hfee. exists rv. auto.
Qed.

(** *** A run of one call, at half the price of the reference *)

Definition demo_pricing (rate : Z) : pricing := Pricing (Some (of_Z rate)) (Some (of_Z rate)) None "seed" None None.
Definition demo_registry (id : string) : option model :=
  if String.eqb id "strong" then Some (Model (Some "p") (demo_pricing 4)) else None.
Definition demo_input : call_input :=
  CallInput (Some "p") (Some "cheap") (JNumber (of_Z 1)) true None (JNumber (of_Z 1000)) (JNumber (of_Z 1000)) JUndefined
    JNullish (JNumber (of_Z 4)) JNullish None None (Some "cheap") (demo_pricing 2)
    (PromptPlan [] JUndefined JUndefined JUndefined JUndefined JUndefined JUndefined JUndefined).
Definition demo_run (i : call_input) : run_view :=
  RunView "completed" (Some "strong") [createModelCallRecord (λ _, "d") 0 i] (Some (demo_pricing 4)).

Lemma fee_needs_evidence_witness :
  ∃ rv, Some (demo_run demo_input) = Some rv ∧
    fee_basis (calculateSavingsForRun 0 (Some (demo_run demo_input)) demo_registry None JUndefined) rv None.
Proof. apply (fee_needs_evidence 0 (Some (demo_run demo_input)) demo_registry None JUndefined). vm_compute. reflexivity. Defined.

Lemma historical_savings_stable_witness :
  frozen (calculateSavingsForRun 7 (Some (demo_run demo_input)) demo_registry None JUndefined) =
  frozen (calculateSavingsForRun 9 (Some (demo_run demo_input)) (λ _, None) None JUndefined).
Proof.
  apply (historical_savings_stable (demo_run demo_input) demo_registry (λ _, None) 7 9 None JUndefined (demo_pricing 4)).
  - reflexivity.
  - constructor; [|constructor]. intros _. right. eexists. split; [vm_compute; reflexivity|split; reflexivity].
Defined.

(** The provider of the reference is looked up again each time. *)
Example reference_provider_follows_registry :
  let result registry := r_referenceModel (l_result (calculateSavingsForRun 7 (Some (demo_run demo_input)) registry None JUndefined)) in
  result demo_registry = Reference "strong" (Some "p") ∧ result (λ _, None) = Reference "strong" None.
Proof. vm_compute. done. Qed.

(** ** What is not known *)

(** Unknown amounts are reported and billed as zero. For every run that is
    not completed the engine returns costs, savings and final cost of 0 (the
    field is [null] before [addBillingFields]), and in an aggregate of any
    entries the counts of insufficient and of incomplete runs are always 0,
    however many of them there are. *)
Theorem unknown_reported_as_zero now run registry explicit f entries :
  let b := calculateSavingsForRun now run registry explicit f in
  (match run with Some rv => rv_status rv ≠ "completed" | None => True end →
   r_actualCost (l_result b) = None ∧ l_actualCost b = Some nzero ∧ l_baselineCost b = Some nzero ∧ l_savings b = Some nzero) ∧
  g_insufficientCount (aggregate (List.map (λ e, calculateSavingsForRun now e registry explicit f) entries)) = 0%nat ∧
  g_incompleteCount (aggregate (List.map (λ e, calculateSavingsForRun now e registry explicit f) entries)) = 0%nat.
Proof.
  cbv zeta. split.
  - unfold calculateSavingsForRun. destruct run as [rv|]; [|done]. intros H%String.eqb_neq. by rewrite H.
  - assert (∀ e st, (st = "insufficient_pricing_data" ∨ st = "incomplete_run") →
      String.eqb (w_calculationStatus (fromSavings (calculateSavingsForRun now e registry explicit f))) st = false) as H.
    { intros e st Hst. assert (∃ r, calculateSavingsForRun now e registry explicit f = addBillingFields r f) as [r ->].
      { unfold calculateSavingsForRun. destruct e as [rv|]; [|by eexists]. destruct (negb _); [by eexists|]. cbv zeta.
        destruct (getReferenceModel _ _ _) as [[]|], (extractSteps _); try apply calculated_shape; by eexists. }
      cbn. by destruct (r_status r), Hst as [-> | ->]. }
    unfold aggregate. cbv zeta. cbn [g_insufficientCount g_incompleteCount]. unfold count.
    split; induction entries as [|e l IH]; try done; simpl in *; rewrite H; auto.
Qed.

(** ** The webhook signature *)

(** A webhook is accepted exactly when it is signed and fresh. With a
    configured secret, [verifyStripeSignature] accepts a body with a time stamp
    if and only if the header carries that time stamp and, among its signatures,
    the HMAC of the time stamp and the whole body under the secret, and (for a
    positive tolerance) the stamp is within the tolerance of the clock, in the
    past or in the future. *)
Theorem webhook_verified_exactly hmac number_of payload header secret now tolerance t :
  verifyStripeSignature hmac number_of payload header secret now tolerance = inr t ↔
  truthy_str secret = true ∧ ∃ h, header = Some h ∧ header_time number_of h = Some t ∧
    hmac secret (string_of_Z t ++ "." ++ payload) ∈ header_signatures h ∧
    (0 < tolerance → Z.abs (now - t) ≤ tolerance)%Z.
Proof.
  unfold verifyStripeSignature. destruct (truthy_str secret); cbn [negb]; [|by split; [|intros []]].
  destruct header as [h|]; [|split; [done|by intros (_ & ? & ? & _)]].
  assert (∀ x l, existsb (λ c, timingSafeEqual c x) l = true ↔ x ∈ l) as Hex.
  { intros x l. rewrite existsb_exists. setoid_rewrite <-list_elem_of_In. split.
    - intros (c & Hc & [_ ->%String.eqb_eq]%andb_true_iff). done.
    - intros Hx. exists x. split; [done|]. unfold timingSafeEqual. by rewrite Nat.eqb_refl, String.eqb_refl. }
  assert (∀ P : string → Prop, (∃ h', Some h = Some h' ∧ P h') ↔ P h) as Hsome
    by (intros P; split; [by intros (? & [= <-] & ?)|intros; by exists h]).
  rewrite Hsome. destruct (header_time number_of h) as [t'|]; [|split; [done|by intros (_ & ? & _)]].
  destruct (header_signatures h) as [|s l] eqn:Es; [split; [done|by intros (_ & _ & ?%not_elem_of_nil & _)]|].
  destruct ((0 <? Z.max 0 tolerance)%Z && (Z.max 0 tolerance <? Z.abs (now - t'))%Z) eqn:Est.
  - apply andb_true_iff in Est as [?%Z.ltb_lt ?%Z.ltb_lt]. split; [done|]. intros (_ & [= <-] & _ & ?). lia.
  - apply andb_false_iff in Est. rewrite !Z.ltb_ge in Est. destruct (existsb _ _) eqn:Ee.
    + apply Hex in Ee. split; [intros [= <-]|by intros (_ & [= <-] & _)]. do 3 (split; [done|]). lia.
    + split; [done|]. intros (_ & [= <-] & Hin & _). apply Hex in Hin. congruence.
Qed.
