(* ===== verification/SemanticCache.v ===== *)
(** The semantic cache (backend/src/intelligence/semantic-cache.js) and the
    lexical overlap it measures similarity with
    (backend/src/intelligence/context-engine.js).

    SHA-256 is an argument. Dates are the instants they parse to, [None] when
    they do not parse; similarities and ratios are binary64 numbers. *)

From S2P Require Import Prelude JsMap JsValue Number Text.

Local Open Scope string_scope.
Local Open Scope js_scope.

(** * Lexical overlap *)

(** [[a-z0-9_./-]] *)
Definition token_char (c : ascii) : bool :=
  let n := nat_of_ascii c in
  bool_decide ((97 ≤ n ∧ n ≤ 122) ∨ (48 ≤ n ∧ n ≤ 57) ∨ n = 95 ∨ n = 46 ∨ n = 47 ∨ n = 45)%nat.

(* [src/backend/src/intelligence/context-engine.js:39-41] tokenize *)
Definition tokenize (s : string) : list string :=
  List.filter (λ w, 1 <? String.length w)%nat (words (λ c, negb (token_char c)) (to_lower s)).

(** The Jaccard index of the two sets of tokens. *)
(* [src/backend/src/intelligence/context-engine.js:45-52] lexicalOverlap *)
Definition lexicalOverlap (query itemText : string) : num :=
  let q := remove_dups (tokenize query) in
  let d := remove_dups (tokenize itemText) in
  let size (l : list string) : Z := Z.of_nat (length l) in
  if bool_decide (q = []) || bool_decide (d = []) then nzero
  else
    let inter := size (List.filter (λ w, bool_decide (w ∈ d)) q) in
    ndiv (of_Z inter) (of_Z (size q + size d - inter)).

(** [Math.round(x * 1000) / 1000] *)
Definition round3 (x : num) : num := ndiv (nround (nmul x (of_Z 1000))) (of_Z 1000).

(** * The index *)

(** A row of the index. Rows loaded from disk may lack any field but the text. *)
(* [src/backend/src/intelligence/semantic-cache.js:35-52] entry *)
Record row := Row {
  e_key : string;
  e_taskText : string;
  e_taskHash : option string;
  e_fingerprint : option string;
  e_modelId : option string;
  e_tools : option (list string);
  e_result : jsval;
  e_createdAt : option Z;
  e_workspaceRev : option string;
  e_tenantId : option string;
  e_projectId : option string;
  e_runId : option string;
  e_pureAnswer : bool;
  e_compatibleModels : option (list string);
  e_maxAgeMs : option Z;
}.

(* [src/backend/src/intelligence/semantic-cache.js:25-32] SemanticCacheIndex *)
Record index := Index {
  entries : list row;
  max_entries : nat;
  similarityThreshold : num;
  maxAgeMs : Z;
}.
#[export] Instance index_eta : Eta index := λ i,
  Index (entries i) (max_entries i) (similarityThreshold i) (maxAgeMs i).

(* [src/backend/src/intelligence/semantic-cache.js:25-32] constructor *)
Definition new_index (max : option nat) (threshold : option num) (age : option Z) : index :=
  let m := default 0%nat max in
  Index [] (if decide (m = 0%nat) then 200%nat else m)
    (match threshold with Some t => if isFinite t then t else ratio 82 100 | None => ratio 82 100 end)
    (default (1000 * 60 * 60 * 24)%Z age).

(** What is stored: the fields of [entry] before they are normalised; a date
    that is given may not parse. *)
Record store_request := StoreRequest {
  sr_key : option string; sr_taskText : string; sr_fingerprint : option string; sr_modelId : option string;
  sr_tools : list string; sr_result : jsval; sr_createdAt : option (option Z); sr_workspaceRev : option string;
  sr_tenantId : option string; sr_projectId : option string; sr_runId : option string; sr_pureAnswer : bool;
  sr_compatibleModels : option (list string); sr_maxAgeMs : option Z;
}.

(** [v || null] *)
Definition or_null (v : option string) : option string := if truthy v then v else None.

Record query := Query {
  q_taskText : string;
  q_tenantId : option string;
  q_projectId : option string;
  q_fingerprint : option string;
  q_workspaceRev : option string;
  q_tools : option (list string);
}.

Inductive reason :=
| EmptyIndex
| BelowThreshold (similarity threshold : num)
| StaleEntry (ageMs maxAge : Z)
| ContextDrift
| WorkspaceChanged
| ToolsDiffer.

Record hit := Hit {
  h_similarity : num;
  h_freshness : num;
  h_sourceTask : string;
  h_modelUsed : option string;
  h_runId : option string;
  h_toolDependencies : option (list string);
  h_contextFingerprint : option string;
  h_createdAt : option Z;
  h_result : jsval;
  h_pureAnswer : bool;
  h_compatibleModels : option (list string);
}.

Inductive answer := Found (h : hit) | Missed (r : reason) (similarity freshness : option num).

Section Index.
Context (sha256 : string → string).

(* [src/backend/src/intelligence/semantic-cache.js:20-22] hashTask *)
Definition hashTask (taskText : string) : string := sha256 taskText.

(** [now]: the date given to an entry without one. *)
(* [src/backend/src/intelligence/semantic-cache.js:34-56] store *)
Definition store (r : store_request) (now : Z) (i : index) : index * row :=
  let e := Row
    (if truthy (sr_key r) then default "" (sr_key r) else "sem-" ++ slice0 12 (hashTask (sr_taskText r)))
    (slice0 4000 (sr_taskText r)) (Some (hashTask (sr_taskText r)))
    (or_null (sr_fingerprint r)) (or_null (sr_modelId r)) (Some (take 20 (sr_tools r)))
    (match sr_result r with JUndef => JNull | v => v end)
    (default (Some now) (sr_createdAt r)) (or_null (sr_workspaceRev r))
    (or_null (sr_tenantId r)) (or_null (sr_projectId r)) (or_null (sr_runId r))
    (sr_pureAnswer r) (take 20 <$> sr_compatibleModels r)
    (match sr_maxAgeMs r with Some a => if (0 <? a)%Z then Some a else None | None => None end) in
  (i <| entries ::= λ l, let l := (l ++ [e])%list in drop (length l - max_entries i) l |>, e).

(** An entry of another tenant or project is not looked at. *)
(* [src/backend/src/intelligence/semantic-cache.js:69-70] scope of a lookup *)
Definition in_scope (q : query) (e : row) : bool :=
  (negb (truthy (q_tenantId q)) || bool_decide (e_tenantId e = q_tenantId q)) &&
  (negb (truthy (q_projectId q)) || bool_decide (e_projectId e = q_projectId q)).

(* [src/backend/src/intelligence/semantic-cache.js:71-71] similarity of an entry *)
Definition similarity (q : query) (e : row) : num :=
  if decide (e_taskHash e = Some (hashTask (q_taskText q))) then of_Z 1 else lexicalOverlap (q_taskText q) (e_taskText e).

(* [src/backend/src/intelligence/semantic-cache.js:63-73] loop over the entries *)
Fixpoint best_of (q : query) (l : list row) (best : option row) (bestSim : num) : option row * num :=
  match l with
  | [] => (best, bestSim)
  | e :: l' =>
      if in_scope q e then
        let sim := similarity q e in
        if nlt bestSim sim then best_of q l' (Some e) sim else best_of q l' best bestSim
      else best_of q l' best bestSim
  end.

(* [src/backend/src/intelligence/semantic-cache.js:79-80] age of an entry *)
Definition age (e : row) (now : Z) : Z :=
  now - match e_createdAt e with Some t => if (t =? 0)%Z then now else t | None => now end.
Definition entryMaxAge (i : index) (e : row) : Z :=
  match e_maxAgeMs e with Some a => if (0 <? a)%Z then a else maxAgeMs i | None => maxAgeMs i end.

(* [src/backend/src/intelligence/semantic-cache.js:88-88] freshness *)
Definition freshness (ageMs maxAge : Z) : num :=
  round3 (nmax nzero (nsub (of_Z 1) (ndiv (of_Z ageMs) (of_Z maxAge)))).

(** [a.size === b.size && [...a].every((t) => b.has(t))] *)
(* [src/backend/src/intelligence/semantic-cache.js:97-99] tool sets *)
Definition same_tools (a b : list string) : bool :=
  (length (remove_dups a) =? length (remove_dups b))%nat && forallb (λ t, bool_decide (t ∈ b)) (remove_dups a).

(** Both sides name one, and they differ. *)
Definition changed (a b : option string) : bool := truthy a && truthy b && negb (bool_decide (a = b)).

(* [src/backend/src/intelligence/semantic-cache.js:58-119] lookup *)
Definition lookup (q : query) (now : Z) (i : index) : res answer :=
  match best_of q (entries i) None nzero with
  | (None, _) => Ok (Missed EmptyIndex None None)
  | (Some best, bestSim) =>
      let sim := round3 bestSim in
      if nlt sim (similarityThreshold i) then Ok (Missed (BelowThreshold sim (similarityThreshold i)) (Some sim) None)
      else
        let ageMs := age best now in
        let maxAge := entryMaxAge i best in
        if (maxAge <? ageMs)%Z then Ok (Missed (StaleEntry ageMs maxAge) (Some sim) (Some nzero))
        else if changed (q_fingerprint q) (e_fingerprint best) then
          Ok (Missed ContextDrift (Some sim) (Some (freshness ageMs maxAge)))
        else
          workspace ← (if changed (q_workspaceRev q) (e_workspaceRev best) then
              match e_tools best with
              | Some ts => Ok (bool_decide (ts ≠ []))
              | None => Throw (JsError None "Cannot read properties of undefined (reading 'length')")
              end
            else Ok false);
          if workspace : bool then Ok (Missed WorkspaceChanged (Some sim) None)
          else if match q_tools q with Some ts => negb (same_tools ts (default [] (e_tools best))) | None => false end then
            Ok (Missed ToolsDiffer (Some sim) None)
          else
            Ok (Found (Hit sim (freshness ageMs maxAge) (slice0 200 (e_taskText best)) (e_modelId best)
              (or_null (e_runId best)) (e_tools best) (e_fingerprint best) (e_createdAt best) (e_result best)
              (e_pureAnswer best) (e_compatibleModels best)))
  end.
End Index.

(* [src/backend/src/intelligence/semantic-cache.js:121-125] invalidateByWorkspace *)
Definition invalidateByWorkspace (rev : option string) (i : index) : index * nat :=
  let kept := filter (λ e, e_workspaceRev e ≠ rev) (entries i) in
  (i <| entries := kept |>, length (entries i) - length kept).

(* [src/backend/src/intelligence/semantic-cache.js:127-127] clear *)
Definition clear (i : index) : index := i <| entries := [] |>.

(* [src/backend/src/intelligence/semantic-cache.js:129-137] clearScope *)
Definition clearScope (tenantId projectId : option string) (i : index) : index * nat :=
  let keep e := (truthy tenantId && negb (bool_decide (e_tenantId e = tenantId))) ||
                (truthy projectId && negb (bool_decide (e_projectId e = projectId))) in
  let kept := List.filter keep (entries i) in
  (i <| entries := kept |>, length (entries i) - length kept).

(* [src/backend/src/intelligence/semantic-cache.js:139-139] dump *)
Definition dump (i : index) : list row := slice_last (max_entries i) (entries i).

(* [src/backend/src/intelligence/semantic-cache.js:141-145] load *)
Definition load (items : option (list row)) (i : index) : index * nat :=
  match items with
  | None => (i, 0%nat)
  | Some l =>
      let l := slice_last (max_entries i) (List.filter (λ e, truthy_str (e_taskText e)) l) in
      (i <| entries := l |>, length l)
  end.

(** * Properties *)

Lemma same_tools_spec a b : same_tools a b = true ↔ ∀ t, t ∈ a ↔ t ∈ b.
Proof.
  unfold same_tools. rewrite andb_true_iff, Nat.eqb_eq, forallb_forall. split.
  - intros [Hl Hs] t. rewrite <-(elem_of_remove_dups a), <-(elem_of_remove_dups b).
    assert (remove_dups a ⊆+ remove_dups b) as Hsub.
    { apply NoDup_submseteq; [apply NoDup_remove_dups|]. intros x Hx. apply elem_of_remove_dups.
      apply (bool_decide_unpack (x ∈ b)). specialize (Hs x (proj1 (list_elem_of_In _ _) Hx)). by rewrite Hs. }
    apply submseteq_length_Permutation in Hsub; [by rewrite Hsub|lia].
  - intros H. split.
    + apply Permutation_length, NoDup_Permutation; [apply NoDup_remove_dups..|].
      intros x. by rewrite !elem_of_remove_dups.
    + intros x Hx. apply bool_decide_eq_true, H. by apply elem_of_remove_dups, list_elem_of_In.
Qed.

Section Lookup.
Context (sha256 : string → string).
Implicit Types (q : query) (l : list row) (e : row).

(** The scan keeps the first entry in scope whose similarity no later one
    exceeds. *)
Lemma best_of_spec q l b s b' s' : isNaN s = false → best_of sha256 q l b s = (b', s') →
  nle s s' = true ∧
  (b' = b ∧ s' = s ∨ ∃ e, e ∈ l ∧ b' = Some e ∧ in_scope q e = true ∧ s' = similarity sha256 q e) ∧
  ∀ e, e ∈ l → in_scope q e = true → nlt s' (similarity sha256 q e) = false.
Proof.
  revert b s. induction l as [|e l IH]; intros b s Hs; simpl.
  { intros [= <- <-]. split; [by apply nle_refl|]. split; [by left|]. by intros e ?%not_elem_of_nil. }
  destruct (in_scope q e) eqn:Esc.
  - destruct (nlt s (similarity sha256 q e)) eqn:Elt; intros H.
    + assert (isNaN (similarity sha256 q e) = false) as Hn by (apply nlt_nle, nle_not_nan in Elt; tauto).
      destruct (IH _ _ Hn H) as (Hle & Hcase & Hmax). split; [by eapply nle_trans; [apply nlt_nle|]|].
      split.
      * right. destruct Hcase as [[-> ->]|(x & ? & ?)]; [|exists x; repeat split; try apply elem_of_cons; tauto]. exists e. repeat split; [by left|done].
      * intros x [->|Hx]%elem_of_cons ?; [num_order|by apply Hmax].
    + destruct (IH _ _ Hs H) as (Hle & Hcase & Hmax). split; [done|]. split.
      * destruct Hcase as [?|(x & ? & ?)]; [by left|right; exists x; repeat split; try apply elem_of_cons; tauto].
      * intros x [->|Hx]%elem_of_cons ?; [num_order|by apply Hmax].
  - intros H. destruct (IH _ _ Hs H) as (Hle & Hcase & Hmax). split; [done|]. split.
    + destruct Hcase as [?|(x & ? & ?)]; [by left|right; exists x; repeat split; try apply elem_of_cons; tauto].
    + intros x [->|Hx]%elem_of_cons ?; [congruence|by apply Hmax].
Qed.

(** What an entry must satisfy to be reused. *)
Definition reusable (i : index) q (now : Z) e : Prop :=
  in_scope q e = true ∧
  nlt (round3 (similarity sha256 q e)) (similarityThreshold i) = false ∧
  (age e now ≤ entryMaxAge i e)%Z ∧
  changed (q_fingerprint q) (e_fingerprint e) = false ∧
  (changed (q_workspaceRev q) (e_workspaceRev e) = true → e_tools e = Some []) ∧
  (∀ ts, q_tools q = Some ts → ∀ t, t ∈ ts ↔ t ∈ default [] (e_tools e)).

Lemma lookup_found q now i h : lookup sha256 q now i = Ok (Found h) →
  ∃ e, e ∈ entries i ∧ reusable i q now e ∧
    (∀ e', e' ∈ entries i → in_scope q e' = true → nlt (similarity sha256 q e) (similarity sha256 q e') = false) ∧
    h = Hit (round3 (similarity sha256 q e)) (freshness (age e now) (entryMaxAge i e)) (slice0 200 (e_taskText e))
      (e_modelId e) (or_null (e_runId e)) (e_tools e) (e_fingerprint e) (e_createdAt e) (e_result e) (e_pureAnswer e)
      (e_compatibleModels e).
Proof.
  unfold lookup. destruct (best_of sha256 q (entries i) None nzero) as [b s] eqn:Eb.
  destruct (best_of_spec q _ None nzero b s eq_refl Eb) as (_ & Hcase & Hmax).
  destruct Hcase as [[-> _]|(e & Hin & -> & Hsc & ->)]; [done|].
  destruct (nlt _ (similarityThreshold i)) eqn:Et; [done|].
  destruct (entryMaxAge i e <? age e now)%Z eqn:Ea; [done|].
  destruct (changed (q_fingerprint q) _) eqn:Ef; [done|]. intros H. apply res_bind_ok in H as (w & Hw & H).
  destruct w; [done|]. destruct (match q_tools q with Some _ => _ | None => _ end) eqn:Eq; [done|].
  injection H as <-. exists e. split; [done|]. split; [|done]. split; [done|]. split; [done|].
  split; [by apply Z.ltb_ge in Ea|]. split; [done|]. split.
  - intros Hc. rewrite Hc in Hw. destruct (e_tools e) as [ts|]; [|done]. injection Hw as Hw.
    apply bool_decide_eq_false, dec_stable in Hw. by subst.
  - intros ts Hts t. rewrite Hts in Eq. apply negb_false_iff in Eq. by apply same_tools_spec.
Qed.
End Lookup.

(** ** The index *)

Lemma scoped q e : in_scope q e = true →
  (truthy (q_tenantId q) = true → e_tenantId e = q_tenantId q) ∧
  (truthy (q_projectId q) = true → e_projectId e = q_projectId q).
Proof.
  unfold in_scope. intros [H1 H2]%andb_true_iff.
  split; intros Ht; [rewrite Ht in H1; by apply bool_decide_eq_true in H1|rewrite Ht in H2; by apply bool_decide_eq_true in H2].
Qed.

(** What changes the index. *)
Inductive index_op :=
| Store (r : store_request) (now : Z)
| InvalidateByWorkspace (rev : option string)
| Clear
| ClearScope (tenantId projectId : option string)
| Load (items : option (list row)).

Definition apply_op (sha256 : string → string) (i : index) (o : index_op) : index :=
  match o with
  | Store r now => (store sha256 r now i).1
  | InvalidateByWorkspace rev => (invalidateByWorkspace rev i).1
  | Clear => clear i
  | ClearScope t p => (clearScope t p i).1
  | Load l => (load l i).1
  end.

(** The index never holds more than its maximum. *)
Definition index_ok (i : index) : Prop := (0 < max_entries i)%nat ∧ (length (entries i) ≤ max_entries i)%nat.

Lemma filter_bound {A} (f : A → bool) l n : (length l ≤ n)%nat → (length (List.filter f l) ≤ n)%nat.
Proof. intros H. pose proof (filter_length_le (λ x, Is_true (f x)) id l). pose proof (List.filter_length_le f l). lia. Qed.

Lemma index_op_ok sha256 i o : index_ok i → index_ok (apply_op sha256 i o).
Proof.
  intros [Hm Hl]. unfold index_ok. destruct o as [r now|rev| |t p|[l|]]; simpl.
  - split; [done|]. rewrite length_drop. lia.
  - split; [done|]. pose proof (length_filter (λ e, e_workspaceRev e ≠ rev) (entries i)). lia.
  - split; [done|lia].
  - split; [done|]. by apply filter_bound.
  - split; [done|]. by apply slice_last_length.
  - done.
Qed.

(** ** Reuse *)

(** A semantic answer is only reused through every gate. Whatever was
    stored, loaded or cleared before, when a look-up hits, the answer is the
    recorded result of an entry of the index that is of the asking tenant and of
    the asking project (if the query names one), clears the similarity
    threshold, is no older than its allowed age, was produced for the same
    context fingerprint when both are known, for the same workspace revision
    unless it used no tools, and with the same set of tools when the query names
    its tools; no entry in scope is more similar; and the index stays within its
    maximum. *)
Theorem lookup_gated sha256 i0 ops q now h :
  index_ok i0 → let i := run (apply_op sha256) i0 ops in
  lookup sha256 q now i = Ok (Found h) →
  (length (entries i) ≤ max_entries i)%nat ∧
  ∃ e, e ∈ entries i ∧ h_result h = e_result e ∧ h_pureAnswer h = e_pureAnswer e ∧ h_modelUsed h = e_modelId e ∧
    (truthy (q_tenantId q) = true → e_tenantId e = q_tenantId q) ∧
    (truthy (q_projectId q) = true → e_projectId e = q_projectId q) ∧
    nlt (h_similarity h) (similarityThreshold i) = false ∧
    (age e now ≤ entryMaxAge i e)%Z ∧
    changed (q_fingerprint q) (e_fingerprint e) = false ∧
    (changed (q_workspaceRev q) (e_workspaceRev e) = true → e_tools e = Some []) ∧
    (∀ ts, q_tools q = Some ts → ∀ t, t ∈ ts ↔ t ∈ default [] (e_tools e)) ∧
    (∀ e', e' ∈ entries i → in_scope q e' = true → nlt (similarity sha256 q e) (similarity sha256 q e') = false).
Proof.
  intros H0 i Hl.
  assert (index_ok i) as [_ Hi] by (apply (run_invariant_all _ index_ok); [intros s o; apply index_op_ok|done]).
  split; [done|]. apply lookup_found in Hl as (e & Hin & (Hsc & Hsim & Hage & Hfp & Hws & Hts) & Hmax & ->).
  apply scoped in Hsc as [Ht Hp]. exists e. js_split; done.
Qed.

Definition demo_request (text : string) (tenant : string) (at_ : Z) : store_request :=
  StoreRequest None text None (Some "m1") [] (JStr ("answer to " ++ text)) (Some (Some at_)) None (Some tenant) None None true None None.
Definition demo_query (text tenant : string) : query := Query text (Some tenant) None None None (Some []).
Definition demo_sha (s : string) : string := "h" ++ s.

Lemma lookup_gated_witness :
  let ops := [Store (demo_request "sort the list" "a" 1000) 0; Store (demo_request "sort the list" "b" 1000) 0] in
  let i := run (apply_op demo_sha) (new_index None None None) ops in
  let h := Hit (of_Z 1) (of_Z 1) "sort the list" (Some "m1") None (Some []) None (Some 1000%Z) (JStr "answer to sort the list") true None in
  lookup demo_sha (demo_query "sort the list" "b") 1000 i = Ok (Found h) ∧
  ∃ e, e ∈ entries i ∧ h_result h = e_result e ∧ e_tenantId e = Some "b".
Proof.
  intros ops i h. assert (lookup demo_sha (demo_query "sort the list" "b") 1000 i = Ok (Found h)) as H by (vm_compute; reflexivity).
  split; [exact H|]. assert (index_ok (new_index None None None)) as H0 by (split; simpl; lia).
  destruct (lookup_gated demo_sha (new_index None None None) ops _ _ h H0 H) as (_ & e & Hin & Hr & _ & _ & Ht & _).
  exists e. split; [exact Hin|]. split; [exact Hr|]. exact (Ht eq_refl).
Defined.

(** Of two entries as similar, the older one is chosen, before its age is
    looked at: an answer stored again after the first one went stale is not
    found. *)
Example stale_entry_shadows_fresh :
  let day := (1000 * 60 * 60 * 24)%Z in
  let i := run (apply_op demo_sha) (new_index None None None)
    [Store (demo_request "sort the list" "a" 1000) 0; Store (demo_request "sort the list" "a" (2 * day)) 0] in
  lookup demo_sha (demo_query "sort the list" "a") (2 * day + 1000) i =
    Ok (Missed (StaleEntry (2 * day) day) (Some (of_Z 1)) (Some nzero)).
Proof. vm_compute. reflexivity. Qed.

(** An entry whose date does not parse never grows old. *)
Lemma undated_entry_is_fresh e now : e_createdAt e = None → age e now = 0%Z.
Proof. unfold age. intros ->. lia. Qed.
