(* ===== verification/CacheManager.v ===== *)
(** The cache manager (backend/src/impl/cache-manager.js): exact entries under
    keys, statistics per run, and the reuse hierarchy over them and the semantic
    index.

    An operation has no await before its end, so one reading [now] of the clock
    stands for all it makes. Events are kept in a log. *)

From S2P Require Import Prelude JsMap JsValue Number Text Economics SemanticCache.

Local Open Scope string_scope.
Local Open Scope js_scope.

(** * State *)

(* [src/backend/src/impl/cache-manager.js:125-132] cache entry *)
Record entry := Entry {
  c_value : jsval;
  c_cachedAt : Z;
  c_expiresAt : option Z;
  c_lastAccessed : Z;
  c_accessCount : nat;
  c_runId : option string;
}.
#[export] Instance entry_eta : Eta entry := λ e,
  Entry (c_value e) (c_cachedAt e) (c_expiresAt e) (c_lastAccessed e) (c_accessCount e) (c_runId e).

(* [src/backend/src/impl/cache-manager.js:17-17] stats *)
Record stats := Stats { hits : nat; misses : nat; sets : nat; invalidations : nat }.
#[export] Instance stats_eta : Eta stats := λ s, Stats (hits s) (misses s) (sets s) (invalidations s).
Definition no_stats : stats := Stats 0 0 0 0.

Record recent_event := Recent { rc_type : string; rc_ts : Z; rc_detail : string }.

(* [src/backend/src/impl/cache-manager.js:80-82] run statistics *)
Record run_stats := RunStats { r_stats : stats; r_recent : list recent_event }.
#[export] Instance run_stats_eta : Eta run_stats := λ r, RunStats (r_stats r) (r_recent r).

Record invalidation := Invalidation { in_run : string; in_key : string; in_pattern : string; in_count : nat }.

(* [src/backend/src/impl/cache-manager.js:12-446] InMemoryCacheManager *)
Record manager := Manager {
  cache : list (string * entry);
  global : stats;
  runStats : list (string * run_stats);
  defaultTtl : Z;
  maxSize : nat;
  hasBus : bool;
  semantic : index;
  emitted : list invalidation;
}.
#[export] Instance manager_eta : Eta manager := λ m,
  Manager (cache m) (global m) (runStats m) (defaultTtl m) (maxSize m) (hasBus m) (semantic m) (emitted m).

(** * Statistics *)

(* [src/backend/src/impl/cache-manager.js:74-76] scopedKey *)
Definition scopedKey (runId : option string) (key : string) : string :=
  match runId with Some r => if truthy_str r then r ++ ":" ++ key else key | None => key end.

(** [const rs = this._runStats(runId); if (rs) …] *)
(* [src/backend/src/impl/cache-manager.js:78-84] _runStats *)
Definition with_run (runId : option string) (f : run_stats → run_stats) (m : manager) : manager :=
  match runId with
  | Some r =>
      if truthy_str r then
        m <| runStats ::= λ s, mset s r (f (default (RunStats no_stats []) (mget s r))) |>
      else m
  | None => m
  end.

Definition count_hit (runId : option string) (m : manager) : manager :=
  with_run runId (λ r, r <| r_stats ::= λ s, s <| hits ::= S |> |>) (m <| global ::= λ s, s <| hits ::= S |> |>).
Definition count_miss (runId : option string) (m : manager) : manager :=
  with_run runId (λ r, r <| r_stats ::= λ s, s <| misses ::= S |> |>) (m <| global ::= λ s, s <| misses ::= S |> |>).

(* [src/backend/src/impl/cache-manager.js:86-91] _recordRecent *)
Definition recordRecent (runId : option string) (type detail : string) (now : Z) (m : manager) : manager :=
  with_run runId (λ r, r <| r_recent ::= λ l, take 20 (Recent type now detail :: l) |>) m.

(** * Exact entries *)

(** [entry.expiresAt && Date.now() > entry.expiresAt] *)
Definition expired (e : entry) (now : Z) : bool :=
  match c_expiresAt e with Some t => negb (t =? 0)%Z && (t <? now)%Z | None => false end.

Definition touch (now : Z) (e : entry) : entry := e <| c_lastAccessed := now |> <| c_accessCount ::= S |>.

(* [src/backend/src/impl/cache-manager.js:94-117] get *)
Definition get (key : string) (runId : option string) (now : Z) (m : manager) : manager * option jsval :=
  let m := with_run runId id m in
  match mget (cache m) key with
  | None => (count_miss runId m, None)
  | Some e =>
      if expired e now then (count_miss runId (m <| cache ::= λ c, mdelete c key |>), None)
      else ((count_hit runId m) <| cache ::= λ c, mset c key (touch now e) |>, Some (c_value e))
  end.

(** The first of the entries with the least [lastAccessed]. *)
(* [src/backend/src/impl/cache-manager.js:428-433] loop over the entries *)
Fixpoint oldest (l : list (string * entry)) (best : option (string * entry)) : option (string * entry) :=
  match l with
  | [] => best
  | p :: l' =>
      match best with
      | None => oldest l' (Some p)
      | Some b => if (c_lastAccessed p.2 <? c_lastAccessed b.2)%Z then oldest l' (Some p) else oldest l' best
      end
  end.

(* [src/backend/src/impl/cache-manager.js:424-438] _evictOldest *)
Definition evictOldest (m : manager) : manager :=
  match oldest (cache m) None with
  | Some (k, _) => if truthy_str k then m <| cache ::= λ c, mdelete c k |> else m
  | None => m
  end.

(* [src/backend/src/impl/cache-manager.js:119-139] set *)
Definition set (key : string) (value : jsval) (ttl : option Z) (runId : option string) (now : Z) (m : manager) : manager :=
  let ttl := default (defaultTtl m) ttl in
  let m := if decide (maxSize m ≤ msize (cache m))%nat then evictOldest m else m in
  let m := m <| cache ::= λ c, mset c key
    (Entry value now (if (0 <? ttl)%Z then Some (now + ttl)%Z else None) now 0 (if truthy runId then runId else None)) |> in
  with_run runId (λ r, r <| r_stats ::= λ s, s <| sets ::= S |> |>) (m <| global ::= λ s, s <| sets ::= S |> |>).

Definition emit_invalidation (runId : option string) (key pattern : string) (count : nat) (m : manager) : manager :=
  if hasBus m then
    m <| emitted ::= λ l, (l ++ [Invalidation (if truthy runId then default "" runId else "system") key pattern count])%list |>
  else m.

(* [src/backend/src/impl/cache-manager.js:141-158] invalidate *)
Definition invalidate (key : string) (runId : option string) (now : Z) (m : manager) : manager * bool :=
  if mhas (cache m) key then
    let m := m <| cache ::= λ c, mdelete c key |> <| global ::= λ s, s <| invalidations ::= S |> |> in
    let m := with_run runId (λ r, r <| r_stats ::= λ s, s <| invalidations ::= S |> |>) m in
    let m := recordRecent runId "cache.invalidated" ("Invalidated " ++ key) now m in
    (emit_invalidation runId key "exact" 1 m, true)
  else (m, false).

(** The entries whose key starts with the prefix go; how many there were. *)
Definition drop_prefix (prefix : string) (c : list (string * entry)) : list (string * entry) :=
  filter (λ p, starts_with prefix p.1 = false) c.

(* [src/backend/src/impl/cache-manager.js:160-182] invalidatePrefix *)
Definition invalidatePrefix (prefix : string) (runId : option string) (now : Z) (m : manager) : manager * nat :=
  let kept := drop_prefix prefix (cache m) in
  let count := (msize (cache m) - msize kept)%nat in
  let m := m <| cache := kept |> <| global ::= λ s, s <| invalidations ::= Nat.add count |> |> in
  let m := with_run runId (λ r, r <| r_stats ::= λ s, s <| invalidations ::= Nat.add count |> |>) m in
  let m := if (0 <? count)%nat then
      emit_invalidation runId prefix "prefix" count
        (recordRecent runId "cache.invalidated"
          ("Invalidated " ++ string_of_Z (Z.of_nat count) ++ " keys under " ++ prefix) now m)
    else m in
  (m, count).

Record warm_item := WarmItem { w_key : option string; w_id : string; w_value : jsval; w_ttl : option Z }.

(* [src/backend/src/impl/cache-manager.js:210-227] warmCache *)
Definition warmCache (runId : string) (items : list warm_item) (now : Z) (m : manager) : manager * nat :=
  (foldl (λ m i, set (scopedKey (Some runId) (if truthy (w_key i) then default "" (w_key i) else "ctx:" ++ w_id i))
     (w_value i) (w_ttl i) (Some runId) now m) m items, length items).

(* [src/backend/src/impl/cache-manager.js:259-265] clearRun *)
Definition clearRun (runId : string) (m : manager) : manager :=
  m <| runStats ::= λ s, mdelete s runId |> <| cache ::= drop_prefix (runId ++ ":") |>.

(* [src/backend/src/impl/cache-manager.js:442-445] clear *)
Definition clear (m : manager) : manager := m <| cache := [] |> <| global := no_stats |>.

(** * Reports *)

(* [src/backend/src/impl/cache-manager.js:448-454] estimateTokensOf *)
Definition estimateTokensOf (v : jsval) : nat :=
  let quarter n := ((n + 3) / 4)%nat in
  match v with
  | JStr s => quarter (String.length s)
  | JArr _ | JObj _ => match json_stringify v with Some s => quarter (String.length s) | None => 0%nat end
  | _ => 0%nat
  end.

Definition sum_nat (l : list nat) : nat := foldr Nat.add 0%nat l.

Definition hit_rate (s : stats) : num :=
  let total := (hits s + misses s)%nat in
  if (0 <? total)%nat then ndiv (of_Z (Z.of_nat (hits s))) (of_Z (Z.of_nat total)) else nzero.

(* [src/backend/src/impl/cache-manager.js:404-422] getStatsSync *)
Definition getStatsSync (m : manager) : num * nat * string :=
  let rate := hit_rate (global m) in
  (rate, sum_nat ((λ p : string * entry, estimateTokensOf (c_value p.2)) <$> cache m),
   if nlt (ratio 7 10) rate then "WARM" else if nlt (ratio 3 10) rate then "COOLING" else "COLD").

(* [src/backend/src/impl/cache-manager.js:230-242] statsFor *)
Definition statsFor (runId : option string) (m : manager) : stats * num * list recent_event :=
  match (if truthy runId then runId ≫= mget (runStats m) else None) with
  | Some r => (r_stats r, hit_rate (r_stats r), r_recent r)
  | None => (global m, hit_rate (global m), [])
  end.

(* [src/backend/src/impl/cache-manager.js:244-256] cachedTokensFor *)
Definition cachedTokensFor (runId : option string) (m : manager) : nat :=
  let mine (p : string * entry) := match runId with
    | Some r => if truthy_str r then starts_with (r ++ ":") p.1 else true
    | None => true
    end in
  sum_nat ((λ p : string * entry, estimateTokensOf (c_value p.2)) <$> List.filter mine (cache m)).

Record description := Description {
  ds_hit : bool; ds_tokensReused : nat; ds_freshness : option Z; ds_cachedAt : option Z; ds_accessCount : nat;
  ds_runId : option string;
}.

(* [src/backend/src/impl/cache-manager.js:269-285] describeEntry *)
Definition describeEntry (key : string) (now : Z) (m : manager) : option description :=
  e ← mget (cache m) key;
  let gone := expired e now in
  Some (Description (negb gone) (if gone then 0%nat else estimateTokensOf (c_value e))
    ((λ t, Z.max 0 (t - now)) <$> c_expiresAt e) (Some (c_cachedAt e)) (c_accessCount e) (c_runId e)).

Record cache_state := CacheState {
  cs_hitRate : num; cs_cachedTokens : nat; cs_uncachedTokens : nat; cs_savedUsd : num; cs_basis : string;
  cs_state : string; cs_recent : list recent_event;
}.

(* [src/backend/src/impl/cache-manager.js:380-402] getCacheState *)
Definition getCacheState (runId : option string) (currentTokens : nat) (p : option pricing) (m : manager) : cache_state :=
  let '(rate, tokens, state) := getStatsSync m in
  let '(value, _, basis) := cacheValueUsd (of_Z (Z.of_nat tokens)) p in
  CacheState rate tokens (currentTokens - tokens) value basis state
    (match (if truthy runId then runId ≫= mget (runStats m) else None) with Some r => r_recent r | None => [] end).

(** * Reuse *)

Inductive layer := LocalExact | ScopedExact | SemanticProject.

Inductive refusal := NoSource | SemanticMiss (r : reason) | ModelIncompatible | NotPure.

Inductive resolution := Reused (l : layer) (value : jsval) | NotReused (why : refusal).

Record reuse_query := ReuseQuery {
  rq_key : option string;
  rq_runId : option string;
  rq_modelId : option string;
  rq_requireSameModel : bool;
  rq_requiresPureAnswer : bool;
  rq_query : query;
}.

Definition alive (key : string) (now : Z) (m : manager) : option entry :=
  match mget (cache m) key with Some e => if expired e now then None else Some e | None => None end.

Definition take_exact (q : reuse_query) (l : layer) (key : string) (e : entry) (now : Z) (m : manager) : manager * resolution :=
  ((count_hit (rq_runId q) m) <| cache ::= λ c, mset c key (touch now e) |>, Reused l (c_value e)).

(** The key under the run, then under the project. *)
(* [src/backend/src/impl/cache-manager.js:313-314] scoped keys *)
Definition scoped_keys (q : reuse_query) (key : string) : list string :=
  let under o := if truthy o then [default "" o ++ ":" ++ key] else [] in
  (under (rq_runId q) ++ under (q_projectId (rq_query q)))%list.

(** The first of the keys with a live entry. *)
Fixpoint first_alive (ks : list string) (now : Z) (m : manager) : option (string * entry) :=
  match ks with
  | [] => None
  | k :: ks' => match alive k now m with Some e => Some (k, e) | None => first_alive ks' now m end
  end.

Section Resolve.
Context (sha256 : string → string).

(* [src/backend/src/impl/cache-manager.js:330-368] semantic layer of resolveReuse *)
Definition resolve_semantic (q : reuse_query) (now : Z) (m : manager) : res (manager * resolution) :=
  a ← lookup sha256 (rq_query q) now (semantic m);
  Ok match a with
  | Missed r _ _ => (count_miss (rq_runId q) m, NotReused (SemanticMiss r))
  | Found h =>
      if rq_requireSameModel q && truthy (rq_modelId q) && truthy (h_modelUsed h) &&
         negb (bool_decide (h_modelUsed h = rq_modelId q)) then
        (count_miss (rq_runId q) m, NotReused ModelIncompatible)
      else if rq_requiresPureAnswer q && negb (h_pureAnswer h) then
        (count_miss (rq_runId q) m, NotReused NotPure)
      else (count_hit (rq_runId q) m, Reused SemanticProject (h_result h))
  end.

(* [src/backend/src/impl/cache-manager.js:296-372] resolveReuse *)
Definition resolveReuse (q : reuse_query) (now : Z) (m : manager) : res (manager * resolution) :=
  let semantic_or_none :=
    if truthy_str (q_taskText (rq_query q)) then resolve_semantic q now m
    else Ok (count_miss (rq_runId q) m, NotReused NoSource) in
  if truthy (rq_key q) then
    let key := default "" (rq_key q) in
    match alive key now m with
    | Some e => Ok (take_exact q LocalExact key e now m)
    | None =>
        match first_alive (scoped_keys q key) now m with
        | Some (k, e) => Ok (take_exact q ScopedExact k e now m)
        | None => semantic_or_none
        end
    end
  else semantic_or_none.

(* [src/backend/src/impl/cache-manager.js:43-60] storeSemantic *)
Definition storeSemantic (r : store_request) (now : Z) (m : manager) : manager :=
  m <| semantic ::= λ i, (store sha256 r now i).1 |>.

(* [src/backend/src/impl/cache-manager.js:62-71] lookupSemantic *)
Definition lookupSemantic (q : query) (runId : option string) (detail : answer → string) (now : Z) (m : manager)
    : res (manager * answer) :=
  a ← lookup sha256 q now (semantic m);
  Ok (if hasBus m && truthy runId then
        recordRecent runId (match a with Found _ => "cache.hit" | Missed _ _ _ => "cache.miss" end) (detail a) now m
      else m, a).
End Resolve.

(** * Properties *)

(** ** What the cache remembers *)

Inductive cache_op :=
| Get (key : string) (runId : option string) (now : Z)
| SetKey (key : string) (value : jsval) (ttl : option Z) (runId : option string) (now : Z)
| Invalidate (key : string) (runId : option string) (now : Z)
| InvalidatePrefix (prefix : string) (runId : option string) (now : Z)
| WarmCache (runId : string) (items : list warm_item) (now : Z)
| ClearRun (runId : string)
| ClearAll
| ResolveReuse (q : reuse_query) (now : Z)
| StoreSemantic (r : store_request) (now : Z).

Definition apply_op (sha256 : string → string) (m : manager) (o : cache_op) : manager :=
  match o with
  | Get k r now => (get k r now m).1
  | SetKey k v ttl r now => set k v ttl r now m
  | Invalidate k r now => (invalidate k r now m).1
  | InvalidatePrefix p r now => (invalidatePrefix p r now m).1
  | WarmCache r items now => (warmCache r items now m).1
  | ClearRun r => clearRun r m
  | ClearAll => clear m
  | ResolveReuse q now => match resolveReuse sha256 q now m with Ok (m', _) => m' | Throw _ => m end
  | StoreSemantic r now => storeSemantic sha256 r now m
  end.

(** The specification: under each key, the value written last and when it ends,
    unless it was invalidated since. *)
Abbreviation writes := (gmap string (jsval * option Z)).

Definition end_of (d : Z) (ttl : option Z) (now : Z) : option Z :=
  let ttl := default d ttl in if (0 <? ttl)%Z then Some (now + ttl)%Z else None.
Definition without_prefix (p : string) (w : writes) : writes := filter (λ x, starts_with p x.1 = false) w.

Definition spec_op (d : Z) (w : writes) (o : cache_op) : writes :=
  match o with
  | SetKey k v ttl _ now => <[k := (v, end_of d ttl now)]> w
  | Invalidate k _ _ => delete k w
  | InvalidatePrefix p _ _ => without_prefix p w
  | WarmCache r items now =>
      foldl (λ w i, <[scopedKey (Some r) (if truthy (w_key i) then default "" (w_key i) else "ctx:" ++ w_id i) :=
        (w_value i, end_of d (w_ttl i) now)]> w) w items
  | ClearRun r => without_prefix (r ++ ":") w
  | ClearAll => ∅
  | Get _ _ _ | ResolveReuse _ _ | StoreSemantic _ _ => w
  end.

(** The cache holds nothing else than the specification, possibly less of it. *)
Record simulates (m : manager) (w : writes) : Prop := {
  sim_wf : mwf (cache m);
  sim_sub : ∀ k e, mget (cache m) k = Some e → w !! k = Some (c_value e, c_expiresAt e);
}.

Definition config (m : manager) : Z * nat := (defaultTtl m, maxSize m).

Lemma config_entries f m : config (m <| cache ::= f |>) = config m.
Proof. done. Qed.
Lemma entries_assign f m : cache (m <| cache ::= f |>) = f (cache m).
Proof. done. Qed.

Lemma with_run_kept r f m : cache (with_run r f m) = cache m ∧ config (with_run r f m) = config m.
Proof. destruct r as [r|]; [|done]. simpl. by destruct (truthy_str r). Qed.
Lemma count_hit_kept r m : cache (count_hit r m) = cache m ∧ config (count_hit r m) = config m.
Proof. unfold count_hit. by edestruct with_run_kept as [-> ->]. Qed.
Lemma count_miss_kept r m : cache (count_miss r m) = cache m ∧ config (count_miss r m) = config m.
Proof. unfold count_miss. by edestruct with_run_kept as [-> ->]. Qed.
Lemma emit_kept r k p n m : cache (emit_invalidation r k p n m) = cache m ∧ config (emit_invalidation r k p n m) = config m.
Proof. unfold emit_invalidation. by destruct (hasBus m). Qed.

(** What a read does to the entries: it forgets an expired one or notes a use. *)
Inductive read_step (now : Z) (c : list (string * entry)) : list (string * entry) → Prop :=
| rs_same : read_step now c c
| rs_expired k : read_step now c (mdelete c k)
| rs_touch k e : mget c k = Some e → read_step now c (mset c k (touch now e)).

Lemma get_reads k r now m : read_step now (cache m) (cache (get k r now m).1) ∧ config (get k r now m).1 = config m.
Proof.
  destruct (with_run_kept r id m) as [E1 E2]. unfold get. rewrite E1.
  destruct (mget (cache m) k) as [e|] eqn:Ek.
  - destruct (expired e now); cbn [fst].
    + edestruct count_miss_kept as [-> ->]. rewrite config_entries, entries_assign, E1. split; [by apply rs_expired|done].
    + rewrite config_entries, entries_assign. edestruct count_hit_kept as [-> ->]. rewrite E1. split; [by apply rs_touch|done].
  - cbn [fst]. edestruct count_miss_kept as [-> ->]. rewrite E1. split; [apply rs_same|done].
Qed.

Lemma first_alive_in ks now m k e : first_alive ks now m = Some (k, e) → k ∈ ks ∧ alive k now m = Some e.
Proof.
  induction ks as [|k' ks IH]; [done|]. simpl. destruct (alive k' now m) eqn:Ea.
  - intros [= -> ->]. split; [by left|done].
  - intros [? ?]%IH. split; [by right|done].
Qed.

Lemma alive_spec k now m e : alive k now m = Some e ↔ mget (cache m) k = Some e ∧ expired e now = false.
Proof.
  unfold alive. destruct (mget (cache m) k) as [x|]; [|by split; [|intros [? _]]].
  destruct (expired x now) eqn:Ex; split; try done.
  - intros [[= ->] ?]. congruence.
  - by intros [= ->].
  - by intros [[= ->] _].
Qed.

Lemma take_exact_reads q l k e now m : mget (cache m) k = Some e →
  read_step now (cache m) (cache (take_exact q l k e now m).1) ∧ config (take_exact q l k e now m).1 = config m.
Proof.
  intros H. cbn [take_exact fst]. rewrite config_entries, entries_assign. edestruct count_hit_kept as [-> ->].
  split; [by apply rs_touch|done].
Qed.

Lemma resolve_reads sha256 q now m m' a : resolveReuse sha256 q now m = Ok (m', a) →
  read_step now (cache m) (cache m') ∧ config m' = config m.
Proof.
  assert (∀ m' a, (if truthy_str (q_taskText (rq_query q)) then resolve_semantic sha256 q now m
    else Ok (count_miss (rq_runId q) m, NotReused NoSource)) = Ok (m', a) →
    read_step now (cache m) (cache m') ∧ config m' = config m) as Hsem.
  { intros m1 a1. destruct (truthy_str _).
    - unfold resolve_semantic. intros (b & _ & [= H])%res_bind_ok.
      destruct b; repeat case_match; injection H as <- _;
        (edestruct count_hit_kept as [-> ->] || edestruct count_miss_kept as [-> ->]); (split; [apply rs_same|done]).
    - intros [= <- _]. edestruct count_miss_kept as [-> ->]. split; [apply rs_same|done]. }
  unfold resolveReuse. destruct (truthy (rq_key q)); [|apply Hsem].
  destruct (alive _ now m) as [e|] eqn:Ea.
  - intros H. apply (f_equal (λ r, match r with Ok p => Some p.1 | Throw _ => None end)) in H. injection H as <-.
    apply (take_exact_reads q LocalExact). by apply alive_spec in Ea as [? _].
  - destruct (first_alive _ now m) as [[k e]|] eqn:Ef; [|apply Hsem].
    intros H. apply (f_equal (λ r, match r with Ok p => Some p.1 | Throw _ => None end)) in H. injection H as <-.
    apply first_alive_in in Ef as [_ Ef]. apply (take_exact_reads q ScopedExact). by apply alive_spec in Ef as [? _].
Qed.

Lemma read_simulates now m m' w : read_step now (cache m) (cache m') → simulates m w → simulates m' w.
Proof.
  intros H [Hwf Hsub]. split; [destruct H; auto using mwf_delete, mwf_set|]. intros j e. destruct H as [|k|k x Hx]; [by apply Hsub| |].
  - rewrite mget_delete by done. case_decide; [done|]. apply Hsub.
  - rewrite mget_set. case_decide; [|apply Hsub]. intros [= <-]. subst. exact (Hsub j x Hx).
Qed.

Lemma read_size now c c' : read_step now c c' → (msize c' ≤ msize c)%nat.
Proof.
  intros []; [done| |].
  - destruct (mget c k) as [e|] eqn:Ek.
    + pose proof (msize_delete c k ltac:(eauto)). lia.
    + by rewrite mdelete_absent.
  - rewrite msize_set_old; [done|]. by eexists.
Qed.

Lemma delete_simulates m w k : simulates m w → simulates (m <| cache ::= λ c, mdelete c k |>) w.
Proof. by apply (read_simulates 0), rs_expired. Qed.

Lemma oldest_in l b p : oldest l b = Some p → p ∈ l ∨ b = Some p.
Proof.
  revert b. induction l as [|x l IH]; intros b; simpl; [by right|].
  assert (∀ b', b' = Some x ∨ b' = b → oldest l b' = Some p → p ∈ x :: l ∨ b = Some p) as H.
  { intros b' Hb [?|Hp]%IH; [left; by right|]. destruct Hb as [-> | ->]; [|by right]. injection Hp as ->. left. by left. }
  destruct b as [b|]; [destruct (_ <? _)%Z|]; apply H; tauto.
Qed.

Lemma oldest_some l b : is_Some b ∨ l ≠ [] → is_Some (oldest l b).
Proof.
  revert b. induction l as [|x l IH]; intros b [H|H]; simpl; try done.
  - destruct b; [destruct (_ <? _)%Z|]; apply IH; left; by eauto.
  - destruct b; [destruct (_ <? _)%Z|]; apply IH; left; by eauto.
Qed.

Definition named (m : manager) : Prop := ∀ k, k ∈ mkeys (cache m) → truthy_str k = true.

Lemma evict_spec m : named m → mwf (cache m) →
  cache (evictOldest m) = cache m ∧ cache m = [] ∨
  ∃ k, is_Some (mget (cache m) k) ∧ evictOldest m = m <| cache ::= λ c, mdelete c k |>.
Proof.
  intros Hn Hwf. unfold evictOldest. destruct (cache m) as [|p l] eqn:E; [by left|]. right.
  destruct (oldest_some (p :: l) None) as [[k e] Ho]; [by right|]. rewrite Ho.
  apply oldest_in in Ho as [Ho|]; [|done].
  assert (k ∈ mkeys (cache m)) as Hk by (rewrite E; apply list_elem_of_fmap; by exists (k, e)).
  exists k. rewrite (Hn k Hk). split; [|done]. rewrite <-E. by apply mget_Some_keys.
Qed.

Lemma set_entries k v ttl r now m : ∃ m0, (m0 = m ∨ m0 = evictOldest m) ∧
  (¬ (maxSize m ≤ msize (cache m))%nat → m0 = m) ∧ ((maxSize m ≤ msize (cache m))%nat → m0 = evictOldest m) ∧
  config (set k v ttl r now m) = config m ∧
  cache (set k v ttl r now m) =
    mset (cache m0) k (Entry v now (end_of (defaultTtl m) ttl now) now 0 (if truthy r then r else None)).
Proof.
  assert (config (evictOldest m) = config m) as He.
  { unfold evictOldest. destruct (oldest _ _) as [[j e]|]; [|done]. by destruct (truthy_str j). }
  unfold set. cbv zeta. edestruct with_run_kept as [-> ->].
  destruct (decide _); eexists; (split; [|split; [|split; [|split; [|reflexivity]]]]); try done; try tauto.
Qed.

(** ** The invariant of every history *)

Record cache_inv (m : manager) (w : writes) : Prop := {
  ci_sim : simulates m w;
  ci_named : named m;
  ci_size : (msize (cache m) ≤ maxSize m)%nat;
}.

(** Keys are not empty (an entry under the empty key is never evicted). *)
Definition op_named (o : cache_op) : Prop :=
  match o with
  | SetKey k _ _ _ _ => truthy_str k = true
  | WarmCache r items _ => Forall (λ i, truthy_str (scopedKey (Some r)
      (if truthy (w_key i) then default "" (w_key i) else "ctx:" ++ w_id i)) = true) items
  | _ => True
  end.

Lemma read_keys now c c' k : mwf c → read_step now c c' → k ∈ mkeys c' → k ∈ mkeys c.
Proof.
  intros Hwf [|j|j e Hj]; [done| |].
  - rewrite mkeys_delete by done. by intros [_ ?]%list_elem_of_filter.
  - rewrite elem_mkeys_set. intros [-> |?]; [|done]. apply mget_Some_keys. by eexists.
Qed.

Lemma inv_read now m m' w : read_step now (cache m) (cache m') → config m' = config m → cache_inv m w → cache_inv m' w.
Proof.
  intros H [= _ Hm] [Hs Hn Hsz]. split.
  - by eapply read_simulates.
  - intros k Hk. apply Hn. by apply (read_keys _ _ _ _ (sim_wf _ _ Hs) H).
  - rewrite Hm. pose proof (read_size now _ _ H). lia.
Qed.

Lemma inv_evict m w : (0 < maxSize m)%nat → cache_inv m w →
  cache_inv (evictOldest m) w ∧ (S (msize (cache (evictOldest m))) ≤ maxSize m)%nat ∧ config (evictOldest m) = config m.
Proof.
  intros Hm Hi. pose proof Hi as [Hs Hn Hsz]. destruct (evict_spec m Hn (sim_wf _ _ Hs)) as [[He Hc]|(k & Hk & He)].
  - assert (evictOldest m = m) as -> by (unfold evictOldest; by rewrite Hc). split; [done|]. rewrite Hc. simpl. split; [lia|done].
  - rewrite He. split; [|split; [|done]].
    + apply (inv_read 0 m); [|done|done]. rewrite entries_assign. apply rs_expired.
    + rewrite entries_assign. pose proof (msize_delete _ _ Hk). lia.
Qed.

Lemma inv_set k v ttl r now m w : (0 < maxSize m)%nat → truthy_str k = true → cache_inv m w →
  cache_inv (set k v ttl r now m) (<[k := (v, end_of (defaultTtl m) ttl now)]> w) ∧ config (set k v ttl r now m) = config m.
Proof.
  intros Hm Hk Hi. destruct (set_entries k v ttl r now m) as (m0 & Hm0 & Hroom & Hfull & Hconf & Hc). split; [|done].
  assert (cache_inv m0 w ∧ (S (msize (cache m0)) ≤ maxSize m)%nat) as [[[Hwf Hsub] Hn _] Hsz].
  { destruct (decide (maxSize m ≤ msize (cache m))%nat) as [H|H].
    - rewrite (Hfull H). destruct (inv_evict m w Hm Hi) as (? & ? & _). done.
    - rewrite (Hroom H). split; [done|]. lia. }
  pose proof Hconf as Hconf'. injection Hconf' as _ Hmax. split; [split|..].
  - rewrite Hc. by apply mwf_set.
  - intros j e. rewrite Hc, mget_set. destruct (decide (k = j)) as [->|Hne].
    + intros [= <-]. by rewrite lookup_insert_eq.
    + rewrite lookup_insert_ne by done. apply Hsub.
  - intros j Hj. rewrite Hc, elem_mkeys_set in Hj. destruct Hj as [-> |Hj]; [done|by apply Hn].
  - rewrite Hc, Hmax. etransitivity; [apply msize_set_le|done].
Qed.

Lemma inv_drop_prefix p m m' w : cache m' = drop_prefix p (cache m) → config m' = config m →
  cache_inv m w → cache_inv m' (without_prefix p w).
Proof.
  intros Hc [= _ Hmax] [[Hwf Hsub] Hn Hsz]. split; [split|..].
  - rewrite Hc. by apply mwf_filter.
  - intros k e. rewrite Hc. unfold drop_prefix. rewrite mget_filter by done.
    destruct (mget (cache m) k) as [x|] eqn:E; [|done]. simpl. case_decide as Hp; [|done]. intros [= <-].
    apply map_lookup_filter_Some. split; [by apply Hsub|done].
  - intros k. rewrite Hc. intros Hk. apply Hn. unfold drop_prefix, mkeys in *.
    apply list_elem_of_fmap in Hk as (x & -> & [_ Hx]%list_elem_of_filter). apply list_elem_of_fmap. by exists x.
  - rewrite Hc, Hmax. pose proof (length_filter (λ x, starts_with p x.1 = false) (cache m)).
    unfold drop_prefix, msize in *. lia.
Qed.

Lemma inv_delete k m m' w : cache m' = mdelete (cache m) k → config m' = config m →
  cache_inv m w → cache_inv m' (delete k w).
Proof.
  intros Hc Hconf Hi. assert (cache_inv m' w) as [[Hwf Hsub] Hn Hsz].
  { apply (inv_read 0 m); [|done|done]. rewrite Hc. apply rs_expired. }
  split; [split|..]; try done. intros j e Hj. destruct (decide (k = j)) as [->|Hne].
  - rewrite Hc, mget_delete_eq in Hj; [done|]. by destruct Hi as [[]].
  - rewrite lookup_delete_ne by done. by apply Hsub.
Qed.

Lemma inv_sets (key : warm_item → string) r now items m w d max : config m = (d, max) → (0 < max)%nat →
  Forall (λ i, truthy_str (key i) = true) items → cache_inv m w →
  cache_inv (foldl (λ m i, set (key i) (w_value i) (w_ttl i) r now m) m items)
    (foldl (λ w i, <[key i := (w_value i, end_of d (w_ttl i) now)]> w) w items) ∧
  config (foldl (λ m i, set (key i) (w_value i) (w_ttl i) r now m) m items) = (d, max).
Proof.
  intros Hc Hmax Hf. revert m w Hc. induction Hf as [|i items Hi' Hf IH]; intros m w Hc Hi; [done|]. cbn [foldl].
  pose proof Hc as [= <- <-]. destruct (inv_set _ (w_value i) (w_ttl i) r now m w Hmax Hi' Hi) as [Hi2 Hc2].
  by apply IH.
Qed.

Lemma inv_op sha256 m w o d max : config m = (d, max) → (0 < max)%nat → op_named o → cache_inv m w →
  cache_inv (apply_op sha256 m o) (spec_op d w o) ∧ config (apply_op sha256 m o) = (d, max).
Proof.
  intros Hconf Hmax Hn Hi. pose proof Hconf as [= <- <-].
  assert (∀ m', read_step 0 (cache m) (cache m') ∨ (∃ now, read_step now (cache m) (cache m')) → config m' = config m →
    cache_inv m' w ∧ config m' = config m) as Hread.
  { intros m' [H|[now H]] Hc; split; [by eapply inv_read|done|by eapply inv_read|done]. }
  destruct o as [k r now|k v ttl r now|k r now|p r now|r items now|r| |q now|r now]; cbn [apply_op spec_op].
  - destruct (get_reads k r now m) as [H1 H2]. apply Hread; [right; by exists now|done].
  - by apply inv_set.
  - unfold invalidate. destruct (mhas (cache m) k) eqn:Ek.
    + cbn [fst]. set (m1 := m <| cache ::= _ |> <| global ::= _ |>).
      assert (∀ x, cache x = cache m1 ∧ config x = config m1 → cache_inv x (delete k w) ∧ config x = config m) as H.
      { intros x [H1 H2]. split; [|by rewrite H2]. apply (inv_delete k m); [by rewrite H1|by rewrite H2|done]. }
      apply H. edestruct emit_kept as [-> ->]. unfold recordRecent. by do 2 edestruct with_run_kept as [-> ->].
    + split; [|done]. destruct Hi as [[Hwf Hsub] ? ?]. split; [split|..]; try done. intros j e Hj.
      destruct (decide (k = j)) as [->|]; [|rewrite lookup_delete_ne by done; by apply Hsub].
      apply bool_decide_eq_false in Ek. destruct Ek. by eexists.
  - assert (∀ x, cache x = drop_prefix p (cache m) ∧ config x = config m →
      cache_inv x (without_prefix p w) ∧ config x = config m) as H.
    { intros x [H1 H2]. split; [|done]. by apply (inv_drop_prefix p m). }
    apply H. unfold invalidatePrefix. cbn [fst]. destruct (_ <? _)%nat.
    + edestruct emit_kept as [-> ->]. unfold recordRecent. by do 2 edestruct with_run_kept as [-> ->].
    + by edestruct with_run_kept as [-> ->].
  - by apply inv_sets.
  - split; [|done]. by apply (inv_drop_prefix (r ++ ":") m).
  - split; [|done]. split; [split|..]; [constructor|done|by intros k ?%not_elem_of_nil|simpl; lia].
  - destruct (resolveReuse sha256 q now m) as [[m' a]|] eqn:E; [|done].
    apply resolve_reads in E as [H1 H2]. apply Hread; [right; by exists now|done].
  - split; [|done]. destruct Hi as [[? ?] ? ?]. by split; [split|..].
Qed.

Lemma inv_history sha256 m0 w0 ops d max : config m0 = (d, max) → (0 < max)%nat → Forall op_named ops →
  cache_inv m0 w0 →
  cache_inv (run (apply_op sha256) m0 ops) (run (spec_op d) w0 ops) ∧ config (run (apply_op sha256) m0 ops) = (d, max).
Proof.
  intros Hc Hm Hn. revert m0 w0 Hc. induction Hn as [|o ops Ho Hn IH]; intros m w Hc Hi; [done|].
  destruct (inv_op sha256 m w o d max Hc Hm Ho Hi) as [Hi' Hc']. exact (IH _ _ Hc' Hi').
Qed.

(** ** The semantic layer *)

Lemma semantic_only sha256 q now m m' l v :
  (if truthy_str (q_taskText (rq_query q)) then resolve_semantic sha256 q now m
   else Ok (count_miss (rq_runId q) m, NotReused NoSource)) = Ok (m', Reused l v) →
  l = SemanticProject ∧ ∃ h, lookup sha256 (rq_query q) now (semantic m) = Ok (Found h) ∧ v = h_result h ∧
    (rq_requireSameModel q = true → truthy (rq_modelId q) = true → truthy (h_modelUsed h) = true → h_modelUsed h = rq_modelId q) ∧
    (rq_requiresPureAnswer q = true → h_pureAnswer h = true).
Proof.
  destruct (truthy_str _); [|done]. unfold resolve_semantic. intros (a & Ha & [= H])%res_bind_ok.
  destruct a as [h|]; [|done]. destruct (_ && _) eqn:Em; [done|]. destruct (rq_requiresPureAnswer q && _) eqn:Ep; [done|].
  injection H as _ <- <-. split; [done|]. exists h. split; [done|]. split; [done|]. split.
  - intros H1 H2 H3. rewrite H1, H2, H3 in Em. by apply negb_false_iff, bool_decide_eq_true in Em.
  - intros H1. rewrite H1 in Ep. by apply negb_false_iff in Ep.
Qed.

(** ** Exact entries *)

(** An expiry that has not passed; a date of 0 is falsy. *)
Definition in_time (t : option Z) (now : Z) : Prop := match t with Some t => t = 0%Z ∨ (now ≤ t)%Z | None => True end.

Lemma not_expired e now : expired e now = false ↔ in_time (c_expiresAt e) now.
Proof.
  unfold expired, in_time. destruct (c_expiresAt e) as [t|]; [|done].
  rewrite andb_false_iff, negb_false_iff, Z.eqb_eq, Z.ltb_ge. done.
Qed.

Lemma hit_spec k r now m v : (get k r now m).2 = Some v ↔ ∃ e, mget (cache m) k = Some e ∧ expired e now = false ∧ v = c_value e.
Proof.
  unfold get. destruct (with_run_kept r id m) as [-> _]. destruct (mget (cache m) k) as [e|]; [|by split; [|intros (? & ? & _)]].
  destruct (expired e now) eqn:E; simpl; split; try done.
  - intros (x & [= ->] & ? & _). congruence.
  - intros [= <-]. by exists e.
  - by intros (x & [= ->] & _ & ->).
Qed.

(** C24: the cache forgets but never lies. Started empty and whatever is then
    read, written, warmed, invalidated or cleared, under non-empty keys, the
    cache holds at most its maximum of entries and implements the map of the
    last writes: a hit returns the value written last under that key, which has
    neither been invalidated since nor outlived its time to live; an exact hit of
    the reuse hierarchy is such a hit under the key itself or under the key of
    the run or the project; and a value just written is found until its time is
    over. *)
Theorem cache_refines_writes sha256 m0 ops :
  cache m0 = [] → (0 < maxSize m0)%nat → Forall op_named ops →
  let m := run (apply_op sha256) m0 ops in
  let w := run (spec_op (defaultTtl m0)) (∅ : writes) ops in
  (msize (cache m) ≤ maxSize m0)%nat ∧
  (∀ k r now v, (get k r now m).2 = Some v → ∃ t, w !! k = Some (v, t) ∧ in_time t now) ∧
  (∀ q now m' l v, resolveReuse sha256 q now m = Ok (m', Reused l v) → l ≠ SemanticProject →
    ∃ k t, k ∈ default "" (rq_key q) :: scoped_keys q (default "" (rq_key q)) ∧ w !! k = Some (v, t) ∧ in_time t now) ∧
  (∀ k v ttl r r' now now', in_time (end_of (defaultTtl m0) ttl now) now' → (get k r' now' (set k v ttl r now m)).2 = Some v).
Proof.
  intros H0 Hm Hn m w.
  assert (cache_inv m0 (∅ : writes)) as Hi0.
  { split; [split|..]; rewrite ?H0; [constructor|done| |simpl; lia]. intros k. rewrite H0. by intros ?%not_elem_of_nil. }
  destruct (inv_history sha256 m0 ∅ ops _ _ eq_refl Hm Hn Hi0) as [[[Hwf Hsub] Hnm Hsz] Hc].
  fold m in Hwf, Hsub, Hsz, Hc. fold w in Hsub. injection Hc as Hd Hmax. split; [by rewrite <-Hmax|].
  assert (∀ k now e, mget (cache m) k = Some e → expired e now = false → ∃ t, w !! k = Some (c_value e, t) ∧ in_time t now) as Hhit.
  { intros k now e He Hx. exists (c_expiresAt e). split; [by apply Hsub|by apply not_expired]. }
  split; [|split].
  - intros k r now v (e & He & Hx & ->)%hit_spec. by apply Hhit.
  - intros q now m' l v H Hl. unfold resolveReuse in H. destruct (truthy (rq_key q)) eqn:Ek.
    + destruct (alive _ now m) as [e|] eqn:Ea.
      { injection H as _ <- <-. apply alive_spec in Ea as [He Hx]. destruct (Hhit _ now e He Hx) as (t & ? & ?).
        eexists _, t. split; [by left|done]. }
      destruct (first_alive _ now m) as [[k e]|] eqn:Ef; [|by destruct (semantic_only sha256 q now m m' l v H)].
      injection H as _ <- <-. apply first_alive_in in Ef as [Hk [He Hx]%alive_spec].
      destruct (Hhit _ now e He Hx) as (t & ? & ?). exists k, t. split; [by right|done].
    + by destruct (semantic_only sha256 q now m m' l v H).
  - intros k v ttl r r' now now' Ht. apply hit_spec. destruct (set_entries k v ttl r now m) as (mx & _ & _ & _ & _ & E).
    rewrite E, mget_set_eq, Hd. eexists. split; [done|]. split; [by apply not_expired|done].
Qed.

Definition new_manager (ttl : Z) (size : nat) : manager := Manager [] no_stats [] ttl size true (new_index None None None) [].
Definition id_hash (s : string) : string := s.

Definition demo_ops : list cache_op :=
  [SetKey "k1" (JStr "one") None None 10; SetKey "k2" (JStr "two") None (Some "r1") 11; Get "k1" None 12; SetKey "k3" (JStr "three") None None 13].

Lemma cache_refines_writes_witness :
  (msize (cache (run (apply_op id_hash) (new_manager 1000 2) demo_ops)) ≤ 2)%nat ∧
  ∃ t, run (spec_op 1000) (∅ : writes) demo_ops !! "k1" = Some (JStr "one", t) ∧ in_time t 20.
Proof.
  destruct (cache_refines_writes id_hash (new_manager 1000 2) demo_ops eq_refl ltac:(simpl; lia)
    ltac:(repeat constructor)) as (H1 & H2 & _).
  split; [exact H1|]. apply (H2 "k1" None 20%Z (JStr "one")). vm_compute. reflexivity.
Defined.

(** An entry under the empty key is never evicted, and while it is the least
    recently used nothing is: the cache outgrows its maximum. *)
Example empty_key_outgrows :
  let m := foldl (λ m k, set k (JNum 0) None None (Z.of_nat (String.length k)) m) (new_manager 1000 2) [""; "a"; "aa"; "aaa"; "aaaa"] in
  msize (cache m) = 5%nat.
Proof. vm_compute. reflexivity. Qed.

Lemma with_run_global r f m : semantic (with_run r f m) = semantic m ∧ global (with_run r f m) = global m.
Proof. destruct r as [r|]; [|done]. simpl. by destruct (truthy_str r). Qed.
Lemma count_hit_global r m : semantic (count_hit r m) = semantic m ∧ hits (global (count_hit r m)) = S (hits (global m)).
Proof. unfold count_hit. by edestruct with_run_global as [-> ->]. Qed.
Lemma count_miss_global r m : semantic (count_miss r m) = semantic m ∧ misses (global (count_miss r m)) = S (misses (global m)).
Proof. unfold count_miss. by edestruct with_run_global as [-> ->]. Qed.

Lemma first_alive_none ks now m : first_alive ks now m = None → ∀ k, k ∈ ks → alive k now m = None.
Proof.
  induction ks as [|k' ks IH]; simpl; [by intros _ k ?%not_elem_of_nil|]. destruct (alive k' now m) eqn:E; [done|].
  intros H k [-> |?]%elem_of_cons; [done|by apply IH].
Qed.

(** What a semantic answer or a miss does to the counters. *)
Lemma semantic_counts sha256 q now m m' a :
  (if truthy_str (q_taskText (rq_query q)) then resolve_semantic sha256 q now m
   else Ok (count_miss (rq_runId q) m, NotReused NoSource)) = Ok (m', a) →
  semantic m' = semantic m ∧
  match a with
  | Reused _ _ => hits (global m') = S (hits (global m))
  | NotReused _ => misses (global m') = S (misses (global m)) ∧ cache m' = cache m
  end.
Proof.
  pose proof (count_hit_global (rq_runId q) m) as [Hh1 Hh2]. pose proof (count_miss_global (rq_runId q) m) as [Hm1 Hm2].
  pose proof (count_miss_kept (rq_runId q) m) as [Hm3 _].
  destruct (truthy_str _); [|by intros [= <- <-]]. unfold resolve_semantic. intros (b & _ & [= H])%res_bind_ok.
  destruct b as [h|]; [destruct (_ && _) in H; [|destruct (_ && _) in H]|]; by injection H as <- <-.
Qed.

Lemma take_exact_counts q l k e now m : semantic (take_exact q l k e now m).1 = semantic m ∧
  hits (global (take_exact q l k e now m).1) = S (hits (global m)).
Proof. apply (count_hit_global (rq_runId q) m). Qed.

(** What the reuse hierarchy hands out. A semantic answer is only reused
    when neither the key nor its scoped forms have a live exact entry; it passed
    every gate of the index for the tenant and project of the query, the model
    that produced it is the required one when the query insists and both are
    known, and it was recorded as a pure answer when the query needs one. A
    reuse counts one hit, a refusal one miss, and neither changes the index. *)
Theorem reuse_gated sha256 q now m m' a :
  resolveReuse sha256 q now m = Ok (m', a) →
  semantic m' = semantic m ∧
  match a with
  | Reused SemanticProject v =>
      (truthy (rq_key q) = true →
        ∀ k, k ∈ default "" (rq_key q) :: scoped_keys q (default "" (rq_key q)) → alive k now m = None) ∧
      hits (global m') = S (hits (global m)) ∧
      ∃ h e, lookup sha256 (rq_query q) now (semantic m) = Ok (Found h) ∧ v = h_result h ∧
        e ∈ entries (semantic m) ∧ h_result h = e_result e ∧ reusable sha256 (semantic m) (rq_query q) now e ∧
        (rq_requireSameModel q = true → truthy (rq_modelId q) = true → truthy (e_modelId e) = true → e_modelId e = rq_modelId q) ∧
        (rq_requiresPureAnswer q = true → e_pureAnswer e = true)
  | Reused _ _ => hits (global m') = S (hits (global m))
  | NotReused _ => misses (global m') = S (misses (global m)) ∧ cache m' = cache m
  end.
Proof.
  set (rest := if truthy_str (q_taskText (rq_query q)) then resolve_semantic sha256 q now m
    else Ok (count_miss (rq_runId q) m, NotReused NoSource)).
  assert (resolveReuse sha256 q now m = Ok (m', a) →
    (∃ l k e, l ≠ SemanticProject ∧ take_exact q l k e now m = (m', a)) ∨
    rest = Ok (m', a) ∧ (truthy (rq_key q) = true →
      ∀ k, k ∈ default "" (rq_key q) :: scoped_keys q (default "" (rq_key q)) → alive k now m = None)) as Hcase.
  { unfold resolveReuse. fold rest. destruct (truthy (rq_key q)); [|by right].
    destruct (alive _ now m) as [e|] eqn:Ea; [intros H; left; exists LocalExact, (default "" (rq_key q)), e; split; [done|congruence]|].
    destruct (first_alive _ now m) as [[k e]|] eqn:Ef; [intros H; left; exists ScopedExact, k, e; split; [done|congruence]|].
    right. split; [done|]. intros _ k [-> |Hk]%elem_of_cons; [done|]. by eapply first_alive_none. }
  intros [(l & k & e & Hl & H)|[H Hk]]%Hcase.
  - destruct (take_exact_counts q l k e now m) as [E1 E2]. rewrite H in E1, E2. split; [done|].
    apply (f_equal snd) in H. cbn in H. subst a. by destruct l.
  - destruct (semantic_counts _ _ _ _ _ _ H) as [E1 E2]. split; [done|]. destruct a as [l v|]; [|done].
    destruct (semantic_only _ _ _ _ _ _ _ H) as (-> & h & Hh & -> & Hmod & Hpure). split; [done|]. split; [done|].
    destruct (lookup_found _ _ _ _ _ Hh) as (e & He & Hr & _ & Eh). exists h, e.
    split; [done|]. split; [done|]. split; [done|]. split; [by rewrite Eh|]. split; [done|]. rewrite Eh in Hmod, Hpure. by split.
Qed.

Definition demo_reuse (tenant : string) (key : option string) : reuse_query :=
  ReuseQuery key None (Some "m1") true true (demo_query "sort the list" tenant).
Definition demo_stored : manager := storeSemantic id_hash (demo_request "sort the list" "a" 1000) 0 (new_manager 1000 2).

Lemma reuse_gated_witness : ∃ e, e ∈ entries (semantic demo_stored) ∧ JStr "answer to sort the list" = e_result e ∧
  e_pureAnswer e = true.
Proof.
  destruct (reuse_gated id_hash (demo_reuse "a" None) 2000 demo_stored
    (count_hit None demo_stored) (Reused SemanticProject (JStr "answer to sort the list")) ltac:(vm_compute; reflexivity))
    as (_ & _ & _ & h & e & _ & H1 & H2 & H3 & _ & _ & H4).
  exists e. split; [exact H2|]. split; [rewrite H1; exact H3|exact (H4 eq_refl)].
Defined.

(** The exact layers have no notion of tenant: a query of tenant b is answered
    with what was stored under the same key while serving tenant a, although the
    comment promises the tenant gate at every layer. *)
Example exact_hit_ignores_tenant :
  let m := set "prompt" (JStr "secret of a") None None 10 (new_manager 1000 2) in
  snd <$> (match resolveReuse id_hash (demo_reuse "b" (Some "prompt")) 20 m with Ok p => Some p | Throw _ => None end) =
    Some (Reused LocalExact (JStr "secret of a")).
Proof. vm_compute. reflexivity. Qed.
