(* ===== verification/Regex.v ===== *)
(** JavaScript regular expressions, as far as the program uses them: a
    backtracking matcher with greedy and lazy quantifiers, captures and word
    boundaries, on ASCII strings.

    [m r] follows the matcher of ECMAScript: a continuation receives the end of
    the match and the captures, and failure makes the matcher try the next
    alternative. An iteration of a quantifier that consumes nothing fails, so the
    loops are bounded by the length of the text. *)

From S2P Require Import Prelude JsMap JsValue Text.

Local Open Scope string_scope.

(** * Regular expressions *)

Inductive re :=
| Chr (f : ascii → bool)
| Eps
| Seq (a b : re)
| Alt (a b : re)
| Star (a : re)
| LazyStar (a : re)
| Group (n : nat) (a : re)
| WordB
| Start
| Finish.

Definition Opt (a : re) : re := Alt a Eps.
Fixpoint Times (n : nat) (a : re) : re := match n with O => Eps | S n => Seq a (Times n a) end.
Fixpoint UpTo (n : nat) (a : re) : re := match n with O => Eps | S n => Opt (Seq a (UpTo n a)) end.

(** Character classes. *)
Definition between (a b : ascii) (c : ascii) : bool :=
  bool_decide (nat_of_ascii a ≤ nat_of_ascii c ≤ nat_of_ascii b)%nat.
Definition lower (c : ascii) : bool := between "a" "z" c.
Definition upper (c : ascii) : bool := between "A" "Z" c.
Definition digit (c : ascii) : bool := between "0" "9" c.
Definition not_newline (c : ascii) : bool := negb (one_of (String "010" (String "013" "")) c).

(** The flag [i]. *)
Definition upper_char (c : ascii) : ascii :=
  if lower c then ascii_of_nat (nat_of_ascii c - 32) else c.
Fixpoint ignore_case (r : re) : re :=
  match r with
  | Chr f => Chr (λ c, f (lower_char c) || f (upper_char c))
  | Seq a b => Seq (ignore_case a) (ignore_case b)
  | Alt a b => Alt (ignore_case a) (ignore_case b)
  | Star a => Star (ignore_case a)
  | LazyStar a => LazyStar (ignore_case a)
  | Group n a => Group n (ignore_case a)
  | Eps | WordB | Start | Finish => r
  end.

(** * Literals

    [parse s] reads the source of a literal as ECMAScript does, for the syntax
    the program uses: alternatives, groups [(...)] (numbered) and [(?:...)],
    classes, escapes, [^], [$], the quantifiers star, plus, question mark and
    [{n,m}], greedy or lazy. *)

Definition backslash_c : ascii := "092"%char.
Definition not (f : ascii → bool) (c : ascii) : bool := negb (f c).

Definition escape (c : ascii) : ascii → bool :=
  if Ascii.eqb c "d" then digit else if Ascii.eqb c "w" then is_word else if Ascii.eqb c "s" then is_space
  else if Ascii.eqb c "S" then not is_space else if Ascii.eqb c "W" then not is_word
  else if Ascii.eqb c "n" then Ascii.eqb "010" else Ascii.eqb c.

(** The items of a class up to its closing bracket. *)
Fixpoint p_class (n : nat) (s : string) : option ((ascii → bool) * string) :=
  match n with
  | O => None
  | S n =>
      match s with
      | EmptyString => None
      | String c s =>
          if Ascii.eqb c "]" then Some (λ _, false, s)
          else
            let '(f, plain, s) :=
              if Ascii.eqb c backslash_c then match s with String d s => (escape d, None, s) | _ => (Ascii.eqb c, None, s) end
              else (Ascii.eqb c, Some c, s) in
            match plain, s with
            | Some a, String "-" (String b s') =>
                if Ascii.eqb b "]" || Ascii.eqb b backslash_c then '(g, r) ← p_class n s; Some (λ x, f x || g x, r)
                else '(g, r) ← p_class n s'; Some (λ x, between a b x || g x, r)
            | _, _ => '(g, r) ← p_class n s; Some (λ x, f x || g x, r)
            end
      end
  end.

Fixpoint p_digits (acc : nat) (s : string) : nat * string :=
  match s with
  | String c s' => if digit c then p_digits (10 * acc + (nat_of_ascii c - 48)) s' else (acc, s)
  | EmptyString => (acc, s)
  end.

(** A quantifier after [a]. *)
Definition p_quant (a : re) (s : string) : option (re * string) :=
  let star s := match s with String "?" s => (LazyStar a, s) | _ => (Star a, s) end in
  match s with
  | String "*" s => Some (star s)
  | String "+" s => let (r, s) := star s in Some (Seq a r, s)
  | String "?" s => Some (Opt a, s)
  | String "{" s =>
      let (lo, s) := p_digits 0 s in
      match s with
      | String "}" s => Some (Times lo a, s)
      | String "," (String "}" s) => Some (Seq (Times lo a) (Star a), s)
      | String "," s =>
          let (hi, s) := p_digits 0 s in
          match s with String "}" s => Some (Seq (Times lo a) (UpTo (hi - lo) a), s) | _ => None end
      | _ => None
      end
  | _ => Some (a, s)
  end.

Inductive level := LAlt | LSeq | LAtom.

Fixpoint p_re (n : nat) (l : level) (g : nat) (s : string) : option (re * nat * string) :=
  match n with
  | O => None
  | S n =>
      match l with
      | LAlt =>
          '(a, g, s) ← p_re n LSeq g s;
          match s with
          | String "|" s => '(b, g, s) ← p_re n LAlt g s; Some (Alt a b, g, s)
          | _ => Some (a, g, s)
          end
      | LSeq =>
          match s with
          | EmptyString | String "|" _ | String ")" _ => Some (Eps, g, s)
          | _ =>
              '(a, g, s) ← p_re n LAtom g s;
              '(a, s) ← p_quant a s;
              '(b, g, s) ← p_re n LSeq g s;
              Some (Seq a b, g, s)
          end
      | LAtom =>
          match s with
          | String "(" (String "?" (String ":" s)) =>
              '(a, g, s) ← p_re n LAlt g s;
              match s with String ")" s => Some (a, g, s) | _ => None end
          | String "(" s =>
              '(a, g', s) ← p_re n LAlt (S g) s;
              match s with String ")" s => Some (Group g a, g', s) | _ => None end
          | String "[" (String "^" s) => '(f, s) ← p_class (String.length s) s; Some (Chr (not f), g, s)
          | String "[" s => '(f, s) ← p_class (String.length s) s; Some (Chr f, g, s)
          | String "^" s => Some (Start, g, s)
          | String "$" s => Some (Finish, g, s)
          | String "." s => Some (Chr not_newline, g, s)
          | String c s =>
              if Ascii.eqb c backslash_c then
                match s with
                | String "b" s => Some (WordB, g, s)
                | String d s => Some (Chr (escape d), g, s)
                | EmptyString => None
                end
              else Some (Chr (Ascii.eqb c), g, s)
          | EmptyString => None
          end
      end
  end.

Definition parse_re (s : string) : option re :=
  match p_re (4 * String.length s + 4) LAlt 1 s with Some (r, _, EmptyString) => Some r | _ => None end.

(** The literal [/s/], and [/s/i]. *)
Definition parse (s : string) : re := default (Chr (λ _, false)) (parse_re s).
Definition parse_i (s : string) : re := ignore_case (parse s).
Definition well_formed (s : string) : bool := match parse_re s with Some _ => true | None => false end.

(** * Matching *)

(** The captures: a group and the ends of what it matched last. *)
Definition captures : Type := list (nat * (nat * nat)).

Section Match.
Context (text : string).

Definition char_at (i : nat) : option ascii := String.get i text.
Definition word_at (i : nat) : bool := match char_at i with Some c => is_word c | None => false end.
Definition boundary (i : nat) : bool :=
  negb (Bool.eqb (match i with O => false | S j => word_at j end) (word_at i)).

Fixpoint m (r : re) (i : nat) (caps : captures) (k : nat → captures → option (nat * captures)) {struct r}
    : option (nat * captures) :=
  match r with
  | Chr f => match char_at i with Some c => if f c then k (S i) caps else None | None => None end
  | Eps => k i caps
  | Seq a b => m a i caps (λ j caps, m b j caps k)
  | Alt a b => match m a i caps k with Some x => Some x | None => m b i caps k end
  | Star a =>
      (fix loop (n : nat) (i : nat) (caps : captures) {struct n} :=
         match n with
         | O => k i caps
         | S n =>
             match m a i caps (λ j caps, if (j <=? i)%nat then None else loop n j caps) with
             | Some x => Some x
             | None => k i caps
             end
         end) (S (String.length text)) i caps
  | LazyStar a =>
      (fix loop (n : nat) (i : nat) (caps : captures) {struct n} :=
         match k i caps with
         | Some x => Some x
         | None =>
             match n with
             | O => None
             | S n => m a i caps (λ j caps, if (j <=? i)%nat then None else loop n j caps)
             end
         end) (S (String.length text)) i caps
  | Group n a => m a i caps (λ j caps, k j ((n, (i, j)) :: caps))
  | WordB => if boundary i then k i caps else None
  | Start => match i with O => k i caps | S _ => None end
  | Finish => if (String.length text <=? i)%nat then k i caps else None
  end.

(** The match of [r] at position [i]. *)
Definition match_at (r : re) (i : nat) : option (nat * captures) := m r i [] (λ j caps, Some (j, caps)).

(** The leftmost match from position [i]; [n] positions are tried. *)
Fixpoint search (r : re) (n i : nat) : option (nat * (nat * captures)) :=
  match match_at r i with
  | Some x => Some (i, x)
  | None => match n with O => None | S n => search r n (S i) end
  end.

Definition slice (i j : nat) : string := String.substring i (j - i) text.
Definition group (n : nat) (caps : captures) : option string :=
  p ← snd <$> List.find (λ p, (p.1 =? n)%nat) caps; Some (slice p.1 p.2).

(** [text.replace(r, f)] with the flag [g]: [f] gets the match and its
    captures. *)
Fixpoint replace_from (r : re) (f : string → captures → string) (n i : nat) : string :=
  match n with
  | O => slice i (String.length text)
  | S n =>
      match search r (String.length text - i) i with
      | None => slice i (String.length text)
      | Some (a, (b, caps)) =>
          if (b <=? a)%nat then
            slice i a ++ f "" caps ++ slice a (S a) ++ replace_from r f n (S a)
          else slice i a ++ f (slice a b) caps ++ replace_from r f n b
      end
  end.
End Match.

(** [r.test(text)] *)
Definition test (r : re) (text : string) : bool := bool_decide (is_Some (search text r (String.length text) 0)).
(** [text.match(r)] *)
Definition exec (r : re) (text : string) : option captures := (λ x, x.2.2) <$> search text r (String.length text) 0.
Definition replace_all (r : re) (f : string → captures → string) (text : string) : string :=
  replace_from text r f (S (String.length text)) 0.

Example lazy_and_greedy : exec (parse "a(.*?)b(.*)b") "xa1b2b3b" = Some [(2, (4, 7)); (1, (2, 3))]%nat.
Proof. vm_compute. reflexivity. Qed.
Example counted : exec (parse "([^=:\n]{0,4}[=:])\s*([a-z0-9_./-]+)$") "abcdef = x/1" = Some [(2, (9, 12)); (1, (3, 8))]%nat.
Proof. vm_compute. reflexivity. Qed.
Example replace_words : replace_all (parse_i "\b(?:ab|cd)\b") (λ s _, "<" ++ s ++ ">") "AB abc cd" = "<AB> abc <cd>".
Proof. vm_compute. reflexivity. Qed.
