(* ===== verification/TaskClassifier.v ===== *)
(** The task classifier (backend/src/intelligence/task-classifier.js): rules,
    scores, the category and the profile of a task text.

    The patterns are the literals of the source. Only the confidence is a
    binary64 number; scores are natural numbers. *)

From S2P Require Import Prelude JsMap JsValue Number Text Regex.

Local Open Scope string_scope.
Local Open Scope js_scope.

(* [src/backend/src/intelligence/task-classifier.js:14-16] CATEGORIES *)
Inductive category := general | code | debug | research | analysis | writing | extraction | planning.
#[export] Instance category_eq_dec : EqDecision category.
Proof. solve_decision. Defined.

Definition CATEGORIES : list category := [general; code; debug; research; analysis; writing; extraction; planning].

Definition category_name (c : category) : string :=
  match c with
  | general => "general" | code => "code" | debug => "debug" | research => "research" | analysis => "analysis"
  | writing => "writing" | extraction => "extraction" | planning => "planning"
  end.

Record rule := Rule { r_category : category; r_weight : nat; r_signal : string; r_pattern : string }.

(* [src/backend/src/intelligence/task-classifier.js:22-44] RULES *)
Definition RULES : list rule :=
  [Rule debug 3 "error/exception language"
     "(error|exception|traceback|stack ?trace|failed|failing|failure|bug|crash|broken|regression|stack ?overflow)\b";
   Rule debug 2 "asks to identify/fix failure"
     "\b(fix|debug|diagnose|repro(duce)?|root ?cause|why (does|is|doesn|isn)|not working|doesn'?t work)\b";
   Rule debug 1 "code/file references"
     "[\w\-./]+\.(ts|tsx|js|jsx|json|md|py|go|rs|java|rb|php|css|html)|line \d+|assertion|test.+fail|fail.+test";
   Rule code 3 "implement/build intent"
     "\b(implement|build|create (a |an )?(function|component|class|module|api|endpoint|script)|write (code|a function|a script)|refactor)\b";
   Rule code 2 "code artifact mention"
     "\b(function|class|module|api|endpoint|component|pull request|commit|branch|deploy)\b";
   Rule code 1 "file/path references" "[\w\-./]+\.(ts|tsx|js|jsx|py|go|rs)|src\/|lib\/|test\.|spec\.";
   Rule research 3 "research/investigate language"
     "\b(research|investigate|survey|compare .*(approach|framework|library|tool)|what (is|are) the (latest|best|current)|literature)\b";
   Rule research 2 "external source request"
     "\b(search (the )?web|find (docs|documentation|examples)|cite|sources?|according to)\b";
   Rule research 1 "freshness language"
     "\b(latest|recent|current|as of 202\d|up[- ]to[- ]date|new (release|version))\b";
   Rule analysis 3 "analysis request"
     "\b(analy[sz]e|analysis|evaluate|assess|review (this|the)|summarise|summarize|explain (this|the|why))\b";
   Rule analysis 1 "data/evidence mention" "\b(data|metrics?|results?|logs?|report|dataset|telemetry)\b";
   Rule writing 3 "writing/generation intent"
     "\b(write|draft|compose|blog|essay|email|readme|document(ation)?|announcement|release notes)\b";
   Rule extraction 3 "extraction intent"
     "\b(extract|parse|list (all|the)|pull out|as json|structured|table of|key[- ]value)\b";
   Rule planning 3 "planning language"
     "\b(plan|roadmap|steps|break down|breakdown|milestones?|task list|strategy|design (the )?(plan|approach))\b"].

(* [src/backend/src/intelligence/task-classifier.js:49-49] TOOL_STRONG *)
Definition TOOL_STRONG : string :=
  "\b(run|execute|invoke|call|apply|search|read|open|inspect|test|check|build|deploy|use|using)\b[^.\n]{0,40}\b(tests?|suite|spec|file|code|tool|search|docs?|service|endpoint|repo|database|server)\b".
(* [src/backend/src/intelligence/task-classifier.js:51-57] LONG_CONTEXT_HINTS *)
Definition LONG_CONTEXT_HINTS : list string :=
  ["whole (repo|codebase|project)"; "all files"; "large|huge|entire"; "compare .* files?"; "migrat"].
(* [src/backend/src/intelligence/task-classifier.js:59-62] REASONING_HINTS *)
Definition REASONING_HINTS : list string :=
  ["why|prove|trade-?off|compare|decide|design|architect|algorithm|complexity|proof"; "step[- ]by[- ]step|think through"].
(* [src/backend/src/intelligence/task-classifier.js:64-67] FRESH_INFO_HINTS *)
Definition FRESH_INFO_HINTS : list string :=
  ["latest|recent|current|as of|today|news|release|version \d|docs|documentation"; "search the web|up[- ]to[- ]date"].
(* [src/backend/src/intelligence/task-classifier.js:131-131] risk pattern *)
Definition RISK : string :=
  "\b(delete|drop|production|prod|deploy|migrat|schema|payment|billing|auth|secret|password|rm -rf|force push)\b".

Inductive complexity := trivial | simple | medium | complex.
#[export] Instance complexity_eq_dec : EqDecision complexity.
Proof. solve_decision. Defined.

Inductive risk := low_risk | medium_risk | high_risk.
Inductive output_type := structured | code_output | prose | plan_output | report | text_output.

Record profile := Profile {
  p_category : category;
  p_complexity : complexity;
  p_requiresTools : bool;
  p_requiresLongContext : bool;
  p_requiresReasoning : bool;
  p_requiresFreshInformation : bool;
  p_expectedOutputType : output_type;
  p_riskLevel : risk;
  p_estimatedSteps : nat;
  p_confidence : num;
  p_signals : list string;
  p_scores : category → nat;
}.

Definition hits (t : string) : list rule := List.filter (λ r, test (parse (r_pattern r)) t) RULES.
Definition sum_nat (l : list nat) : nat := foldr Nat.add 0%nat l.

(* [src/backend/src/intelligence/task-classifier.js:75-85] scores *)
Definition score (h : list rule) (c : category) : nat :=
  sum_nat (r_weight <$> List.filter (λ r, bool_decide (r_category r = c)) h).

(** The first category with the highest score. *)
(* [src/backend/src/intelligence/task-classifier.js:87-92] best category *)
Definition first_best (s : category → nat) : category * nat :=
  foldl (λ '(w, best) c, if bool_decide (c ≠ general) && (best <? s c)%nat then (c, s c) else (w, best))
    (general, 0%nat) CATEGORIES.

(* [src/backend/src/intelligence/task-classifier.js:94-94] priority *)
Definition priority : list category := [debug; code; extraction; planning; research; analysis; writing].

(** [priority.indexOf(c)] *)
Definition rank (c : category) : Z :=
  match list_find (eq c) priority with Some (i, _) => Z.of_nat i | None => -1 end.

(* [src/backend/src/intelligence/task-classifier.js:95-101] tie break *)
Definition tie_break (s : category → nat) (w : category) (best : nat) : category :=
  foldl (λ w c, if bool_decide (c ≠ w) && (s c =? best)%nat && (0 <? best)%nat && (rank c <? rank w)%Z then c else w) w priority.

Definition hints (l : list string) (text : string) : bool := existsb (λ p, test (parse_i p) text) l.

(* [src/backend/src/intelligence/task-classifier.js:69-161] classifyTask *)
Definition classifyTask (text : string) : profile :=
  let t := to_lower text in
  let n := length (words is_space t) in
  let h := hits t in
  let s := score h in
  let '(w, best) := first_best s in
  let category := tie_break s w best in
  let total := sum_nat (s <$> CATEGORIES) in
  let confidence :=
    if (best =? 0)%nat then ratio 35 100
    else ndiv (nround (nmul (nmin (ratio 95 100)
      (nadd (ratio 5 10) (nmul (ndiv (of_Z (Z.of_nat best)) (of_Z (Z.of_nat (max total 1)))) (ratio 45 100))))
      (of_Z 100))) (of_Z 100) in
  let signals := if (best =? 0)%nat then ["no strong category signals; defaulted to general"]
    else r_signal <$> List.filter (λ r, bool_decide (r_category r = category)) h in
  let among l := bool_decide (category ∈ l) in
  let requiresTools := test (parse_i TOOL_STRONG) text || among [debug; code; extraction] in
  let distinct := length (List.filter (λ c, bool_decide (c ≠ general) && (0 <? s c)%nat) CATEGORIES) in
  let sum := ((if (200 <? n)%nat then 2 else if (60 <? n)%nat then 1 else 0) +
              (if (3 <=? distinct)%nat then 2 else if (distinct =? 2)%nat then 1 else 0) +
              (if among [debug; planning] then 1 else 0))%nat in
  let complexity := if (4 <=? sum)%nat then complex else if (2 <=? sum)%nat then medium
    else if (n <=? 8)%nat && (distinct <=? 1)%nat then trivial else simple in
  Profile category complexity requiresTools
    (hints LONG_CONTEXT_HINTS text || among [planning] || (400 <? n)%nat)
    (hints REASONING_HINTS text || among [debug; planning; analysis])
    (hints FRESH_INFO_HINTS text || among [research])
    (match category with
     | extraction => structured | code | debug => code_output | writing => prose | planning => plan_output
     | research | analysis => report | general => text_output end)
    (if test (parse RISK) t then high_risk
     else if requiresTools || bool_decide (complexity = complex) then medium_risk else low_risk)
    (match complexity with trivial => 1 | simple => 2 | medium => 4 | complex => 7 end)%nat
    confidence signals s.

(** * Properties *)

(** Every literal is read. *)
Example literals_parse :
  forallb well_formed ((r_pattern <$> RULES) ++ LONG_CONTEXT_HINTS ++ REASONING_HINTS ++ FRESH_INFO_HINTS ++ [TOOL_STRONG; RISK])%list = true.
Proof. vm_compute. reflexivity. Qed.

Lemma best_is_max (s : category → nat) l w best : (w = general ∧ best = 0%nat ∨ w ≠ general ∧ s w = best ∧ (0 < best)%nat) →
  let '(w', best') := foldl (λ '(w, best) c, if bool_decide (c ≠ general) && (best <? s c)%nat then (c, s c) else (w, best))
    (w, best) l in
  (best ≤ best')%nat ∧ (∀ c, c ∈ l → c ≠ general → (s c ≤ best')%nat) ∧
  (w' = general ∧ best' = 0%nat ∨ w' ≠ general ∧ s w' = best' ∧ (0 < best')%nat).
Proof.
  revert w best. induction l as [|c l IH]; intros w best H; simpl.
  { split; [done|]. split; [by intros c ?%not_elem_of_nil|done]. }
  destruct (bool_decide (c ≠ general) && (best <? s c)%nat) eqn:E.
  - apply andb_true_iff in E as [Hc%bool_decide_eq_true Hb%Nat.ltb_lt].
    specialize (IH c (s c)). destruct (foldl _ _ l) as [w' best']. destruct IH as (Hle & Hall & Hw); [right; split; [done|lia]|].
    split; [lia|]. split; [|done]. intros d [-> |Hd]%elem_of_cons ?; [done|by apply Hall].
  - specialize (IH w best H). destruct (foldl _ _ l) as [w' best']. destruct IH as (Hle & Hall & Hw). split; [done|].
    split; [|done]. intros d [-> |Hd]%elem_of_cons Hne; [|by apply Hall].
    apply andb_false_iff in E as [E%bool_decide_eq_false|E%Nat.ltb_ge]; [by destruct E|lia].
Qed.

Lemma tie_break_fold (s : category → nat) best l w : s w = best → (0 < best)%nat →
  let w' := foldl (λ w c, if bool_decide (c ≠ w) && (s c =? best)%nat && (0 <? best)%nat && (rank c <? rank w)%Z then c else w) w l in
  (s w' = best ∧ w' ∈ w :: l) ∧ (rank w' ≤ rank w)%Z ∧ ∀ c, c ∈ l → s c = best → (rank w' ≤ rank c)%Z.
Proof.
  intros Hw Hb. revert w Hw. induction l as [|c l IH]; intros w Hw; simpl; [split; [split; [done|by left]|]; split; [lia|by intros c ?%not_elem_of_nil]|].
  destruct (_ && _) eqn:E.
  - apply andb_true_iff in E as [[[_ Hc%Nat.eqb_eq]%andb_true_iff _]%andb_true_iff Hr%Z.ltb_lt].
    destruct (IH c Hc) as ([H0 H1] & H2 & H3). split; [split; [done|by right]|]. split; [lia|]. intros d [-> |Hd]%elem_of_cons ?; [done|by apply H3].
  - destruct (IH w Hw) as ([H0 H1] & H2 & H3).
    split; [split; [done|apply elem_of_cons; apply elem_of_cons in H1 as [?|?]; [by left|by right; right]]|]. split; [done|]. intros d [-> |Hd]%elem_of_cons Hs; [|by apply H3].
    rewrite Hs, Nat.eqb_refl in E. destruct (Nat.ltb_spec 0 best); [|lia]. rewrite !andb_true_r in E.
    apply andb_false_iff in E as [E%bool_decide_eq_false|E%Z.ltb_ge]; [|lia]. apply dec_stable in E. by subst.
Qed.

Lemma tie_break_spec s w best : s w = best → (0 < best)%nat →
  (s (tie_break s w best) = best ∧ tie_break s w best ∈ w :: priority) ∧
  ∀ c, c ∈ priority → s c = best → (rank (tie_break s w best) ≤ rank c)%Z.
Proof. intros H1 H2. destruct (tie_break_fold s best priority w H1 H2) as (H & _ & H'). exact (conj H H'). Qed.

Lemma all_categories c : c ∈ CATEGORIES.
Proof. destruct c; unfold CATEGORIES; set_solver. Qed.
Lemma all_ranked c : c ≠ general → c ∈ priority.
Proof. destruct c; intros ?; unfold priority; try done; set_solver. Qed.

Lemma general_unranked : general ∉ priority.
Proof. unfold priority. rewrite !not_elem_of_cons. repeat split; try done. apply not_elem_of_nil. Qed.

(** The category is the one the rules say. When no rule fires the text is
    general, with the low confidence of 0.35; otherwise the category is not
    general, no other category scores higher, and of those that score as high it
    is the first in the order of priority. A text classified as debugging, code
    or extraction needs tools, and a dangerous word makes it high risk, whatever
    the category. *)
Theorem classification_exact text :
  let p := classifyTask text in
  p_scores p = score (hits (to_lower text)) ∧
  ((∀ c, c ≠ general → p_scores p c = 0%nat) → p_category p = general ∧ p_confidence p = ratio 35 100) ∧
  ((∃ c, c ≠ general ∧ (0 < p_scores p c)%nat) →
    p_category p ≠ general ∧
    (∀ c, c ≠ general → (p_scores p c ≤ p_scores p (p_category p))%nat) ∧
    (∀ c, c ≠ general → p_scores p c = p_scores p (p_category p) → (rank (p_category p) ≤ rank c)%Z)) ∧
  (p_category p ∈ [debug; code; extraction] → p_requiresTools p = true) ∧
  (test (parse RISK) (to_lower text) = true → p_riskLevel p = high_risk).
Proof.
  cbv zeta. unfold classifyTask. cbv zeta. generalize (hits (to_lower text)). intros h. generalize (score h). intros s. pose proof (best_is_max s CATEGORIES general 0%nat ltac:(by left)) as Hbest.
  change (foldl _ _ CATEGORIES) with (first_best s) in Hbest. destruct (first_best s) as [w best].
  destruct Hbest as (_ & Hall & Hw).
  cbn [p_scores p_category p_confidence p_requiresTools p_riskLevel]. split; [done|]. split; [|split; [|split]].
  - intros H. destruct Hw as [[-> ->]|(Hne & Hs & Hpos)]; [|rewrite (H w Hne) in Hs; lia].
    split; [|done]. unfold tie_break. induction priority as [|c l IH]; [done|]. cbn [foldl].
    change (0 <? 0)%nat with false. by rewrite !andb_false_r.
  - intros (c & Hc & Hpos). destruct Hw as [[-> ->]|(Hne & Hs & Hb)].
    { pose proof (Hall c (all_categories c) Hc). lia. }
    destruct (tie_break_spec s w best Hs Hb) as ([H1 Hin] & H3).
    assert (tie_break s w best ≠ general) as Hg.
    { intros E. rewrite E in Hin. apply elem_of_cons in Hin as [Hin|Hin]; [by symmetry in Hin|]. by apply general_unranked in Hin. }
    split; [done|]. rewrite H1. split; [intros d Hd; apply (Hall d (all_categories d) Hd)|].
    intros d Hd E. apply H3; [by apply all_ranked|done].
  - intros H. by rewrite (bool_decide_eq_true_2 _ H), orb_true_r.
  - by intros ->.
Qed.

Example classify_debug :
  let p := classifyTask "Fix the crash in src/app.js, the test fails" in
  p_category p = debug ∧ p_complexity p = medium ∧ p_riskLevel p = medium_risk ∧ p_scores p debug = 6%nat.
Proof. vm_compute. repeat split. Qed.
