(* ===== verification/MemoryIntel.v ===== *)
(** Memory records: creation, secrets, classification of candidates, retrieval
    scores, duplicates and conflicts
    (backend/src/intelligence/memory-intelligence.js).

    Dates are instants; a date that is not given is [None]. Scores, importance
    and confidence are binary64 numbers. [localeCompare] is an argument (the
    order of the host's locale), as are the clock and generated ids. The hook
    for embedding scores has no caller and is left out, and so are the texts of
    explanations. *)

From S2P Require Import Prelude JsMap JsValue Number Sorting Text Regex SemanticCache.

Local Open Scope string_scope.
Local Open Scope js_scope.

(* [src/backend/src/intelligence/memory-intelligence.js:19-22] MEMORY_TYPES *)
Definition MEMORY_TYPES : list string :=
  ["preference"; "fact"; "project_context"; "technical_decision"; "lesson"; "prior_solution"; "constraint"; "working_memory"].

(** * Records *)

Record conflict := Conflict { cf_ids : string * string; cf_preferredId : string }.

(** A record of memory. [orgId], [userId] and [ownerId] exist only on seeded
    items: [createMemoryRecord] does not carry them over. [m_retrievalScore] is
    [_retrievalScore], which a ranking leaves on the record. *)
(* [src/backend/src/intelligence/memory-intelligence.js:59-84] memory record *)
Record memory := Memory {
  m_id : string;
  m_scope : string;
  m_type : string;
  m_title : string;
  m_snippet : string;
  m_content : option string;
  m_source : string;
  m_sourceRunId : option string;
  m_runId : option string;
  m_projectId : option string;
  m_importance : num;
  m_confidence : num;
  m_createdAt : option Z;
  m_updatedAt : option Z;
  m_lastUsedAt : option Z;
  m_lastValidatedAt : option Z;
  m_expiresAt : option Z;
  m_tags : list string;
  m_status : string;
  m_mergedFrom : list string;
  m_orgId : option string;
  m_userId : option string;
  m_ownerId : option string;
  m_quarantined : bool;
  m_candidateKind : option string;
  m_conflictWith : option string;
  m_conflict : option conflict;
  m_retrievalScore : option num;
}.
#[export] Instance memory_eta : Eta memory := λ r,
  Memory (m_id r) (m_scope r) (m_type r) (m_title r) (m_snippet r) (m_content r) (m_source r) (m_sourceRunId r)
    (m_runId r) (m_projectId r) (m_importance r) (m_confidence r) (m_createdAt r) (m_updatedAt r) (m_lastUsedAt r)
    (m_lastValidatedAt r) (m_expiresAt r) (m_tags r) (m_status r) (m_mergedFrom r) (m_orgId r) (m_userId r)
    (m_ownerId r) (m_quarantined r) (m_candidateKind r) (m_conflictWith r) (m_conflict r)
    (m_retrievalScore r).

(** What a caller offers to remember; [None] is a field that is not given. *)
Record candidate := Candidate {
  i_id : option string; i_scope : option string; i_type : option string; i_title : option string;
  i_snippet : option string; i_content : option string; i_source : option string; i_sourceRunId : option string;
  i_runId : option string; i_projectId : option string; i_orgId : option string; i_importance : jsnum;
  i_confidence : jsnum; i_expiresAt : option Z; i_tags : list string; i_status : option string;
  i_durable : bool; i_approved : bool;
}.
#[export] Instance candidate_eta : Eta candidate := λ r,
  Candidate (i_id r) (i_scope r) (i_type r) (i_title r) (i_snippet r) (i_content r) (i_source r) (i_sourceRunId r)
    (i_runId r) (i_projectId r) (i_orgId r) (i_importance r) (i_confidence r) (i_expiresAt r) (i_tags r) (i_status r)
    (i_durable r) (i_approved r).

(** [Number.isFinite(Number(v)) ? Math.max(0, Math.min(1, Number(v))) : d] *)
Definition unit_or (v : jsnum) (d : num) : num :=
  let n := to_number v in if isFinite n then nmax nzero (nmin (of_Z 1) n) else d.

Definition half : num := ratio 5 10.

(** [a || b] *)
Definition first_of (a b : option string) : option string := if truthy a then a else b.

(* [src/backend/src/intelligence/memory-intelligence.js:58-85] createMemoryRecord *)
Definition createMemoryRecord (i : candidate) (fresh : string) (now : Z) : memory :=
  Memory
    (if truthy (i_id i) then default "" (i_id i) else "mem-" ++ fresh)
    (if decide (i_scope i = Some "longterm") then "longterm" else "working")
    (match i_type i with Some t => if decide (t ∈ MEMORY_TYPES) then t else "working_memory" | None => "working_memory" end)
    (slice0 300 (default "" (i_title i)))
    (slice0 2000 (default "" (first_of (i_snippet i) (i_content i))))
    (slice0 4000 <$> i_content i)
    (slice0 200 (if truthy (i_source i) then default "" (i_source i) else "runtime"))
    (or_null (first_of (i_sourceRunId i) (i_runId i)))
    None
    (or_null (i_projectId i))
    (unit_or (i_importance i) half) (unit_or (i_confidence i) half)
    (Some now) (Some now) (Some now) None (i_expiresAt i)
    (take 20 (i_tags i))
    (if truthy (i_status i) then default "" (i_status i) else "active")
    [] None None None false None None None None.

(** * Secrets *)

(** The patterns, with the flag [i]. *)
(* [src/backend/src/intelligence/memory-intelligence.js:150-165] SECRET_PATTERNS *)
Definition SECRET_PATTERNS : list (string * bool) :=
  [("sk-[A-Za-z0-9-_]{8,}", false);
   ("xox[bpas]-[A-Za-z0-9-]+", false);
   ("ghp_[A-Za-z0-9]{8,}", false);
   ("gho_[A-Za-z0-9]{8,}", false);
   ("AKIA[0-9A-Z]{16}", false);
   ("-----BEGIN (?:RSA )?PRIVATE KEY-----[\s\S]*?-----END (?:RSA )?PRIVATE KEY-----", false);
   ("(password\s*[:=]\s*)\S+", true);
   ("(passwd\s*[:=]\s*)\S+", true);
   ("(api[_-]?key\s*[:=]\s*)\S+", true);
   ("(secret\s*[:=]\s*)\S+", true);
   ("((?:auth|access|refresh)[_-]?token\s*[:=]\s*)\S+", true);
   ("(bearer\s+)[A-Za-z0-9-_.~+/=]+", true);
   ("mongodb(\+srv)?:\/\/\S+", true);
   ("postgres(?:ql)?:\/\/\S+", true)].

Definition pattern (p : string * bool) : re := if p.2 then parse_i p.1 else parse p.1.

(* [src/backend/src/intelligence/memory-intelligence.js:167-171] findSecrets *)
Definition findSecrets (text : string) : bool := existsb (λ p, test (pattern p) text) SECRET_PATTERNS.

(** The replacement keeps a prefix that ends like an assignment. *)
(* [src/backend/src/intelligence/memory-intelligence.js:178-178] replacement *)
Definition redaction (text _m : string) (caps : captures) : string :=
  match group text 1 caps with
  | Some prefix => if test (parse "[:=]\s*$|\s$") prefix then prefix ++ "[REDACTED]" else "[REDACTED]"
  | None => "[REDACTED]"
  end.

(* [src/backend/src/intelligence/memory-intelligence.js:173-181] redactSecrets *)
Definition redactSecrets (text : string) : string :=
  foldl (λ s p, replace_all (pattern p) (redaction s) s) text SECRET_PATTERNS.

(** * Candidates *)

Inductive kind := secret_or_unsafe | explicit_fact | unvetted_model_output | tool_observation | user_fact | working_note.
#[export] Instance kind_eq_dec : EqDecision kind.
Proof. solve_decision. Defined.

Definition kind_name (k : kind) : string :=
  match k with
  | secret_or_unsafe => "secret_or_unsafe" | explicit_fact => "explicit_fact" | unvetted_model_output => "unvetted_model_output"
  | tool_observation => "tool_observation" | user_fact => "user_fact" | working_note => "working_note"
  end.

Record classification := Classification { k_kind : kind; k_confidence : num; k_durableEligible : bool }.

(* [src/backend/src/intelligence/memory-intelligence.js:183-183] KEYWORD_LIKE *)
Definition KEYWORD_LIKE : string := "(remember|preference|always|never|convention)\s*:".

(* [src/backend/src/intelligence/memory-intelligence.js:186-228] classifyMemoryCandidate *)
Definition classifyMemoryCandidate (i : candidate) (explicit : bool) : classification :=
  let source := default "" (i_source i) in
  let text := default "" (i_title i) ++ String "010" (default "" (first_of (i_snippet i) (i_content i))) in
  let explicit := explicit || i_durable i || i_approved i in
  let given := if isFinite (to_number (i_confidence i)) then Some (unit_or (i_confidence i) half) else None in
  if findSecrets text then Classification secret_or_unsafe (ratio 9 10) false
  else if explicit then Classification explicit_fact (nmax (ratio 85 100) (default (ratio 85 100) given)) true
  else if test (parse_i "^model:") source && test (parse_i KEYWORD_LIKE) text then
    Classification unvetted_model_output (ratio 45 100) false
  else if test (parse_i "^tool:") source then Classification tool_observation (ratio 7 10) false
  else if test (parse_i "^(user|api):") source then
    Classification user_fact (nmax (ratio 8 10) (default (ratio 8 10) given)) true
  else Classification working_note (default half given) false.

(** * Retrieval *)

Record weights := Weights { w_semantic : num; w_lexical : num; w_task : num; w_confidence : num; w_importance : num; w_recency : num }.

(* [src/backend/src/intelligence/memory-intelligence.js:24-31] DEFAULT_RETRIEVAL_WEIGHTS *)
Definition DEFAULT_RETRIEVAL_WEIGHTS : weights :=
  Weights (ratio 35 100) (ratio 20 100) (ratio 15 100) (ratio 10 100) (ratio 10 100) (ratio 10 100).

(* [src/backend/src/intelligence/memory-intelligence.js:37-47] recencyScore *)
Definition recencyScore (lastUsedAt : option Z) (now : Z) : num :=
  match lastUsedAt with
  | None => half
  | Some t =>
      let age := Z.max 0 (now - t) in
      let within minutes := (age <=? minutes * 60000)%Z in
      if within 30%Z then of_Z 1 else if within 180%Z then ratio 8 10 else if within 1440%Z then ratio 6 10
      else if within 10080%Z then ratio 4 10 else ratio 2 10
  end.

Definition text_of (m : memory) : string := m_title m ++ " " ++ m_snippet m.

(* [src/backend/src/intelligence/memory-intelligence.js:49-56] taskAffinity *)
Definition taskAffinity (m : memory) (taskCategory : option string) : num :=
  if negb (truthy taskCategory) then half
  else
    let c := to_lower (default "" taskCategory) in
    if bool_decide (c ∈ to_lower <$> (m_tags m ++ [m_type m])%list) then ratio 9 10
    else if contains c (to_lower (text_of m)) then ratio 7 10 else half.

(** [memory.expiresAt && Date.parse(memory.expiresAt) < nowMs] *)
Definition past (m : memory) (now : Z) : bool := match m_expiresAt m with Some t => (t <? now)%Z | None => false end.

(* [src/backend/src/intelligence/memory-intelligence.js:87-127] scoreMemory *)
Definition scoreMemory (w : weights) (taskCategory : option string) (query : string) (now : Z) (m : memory) : num :=
  let lexical := if truthy_str query then lexicalOverlap query (text_of m) else ratio 3 10 in
  let semantic := nmul lexical (ratio 6 10) in
  let or_half x := if isFinite x then x else half in
  let recency := recencyScore (match m_lastUsedAt m with Some t => Some t | None => m_createdAt m end) now in
  if past m now then nzero
  else round3 (nadd (nadd (nadd (nadd (nadd (nmul semantic (w_semantic w)) (nmul lexical (w_lexical w)))
    (nmul (taskAffinity m taskCategory) (w_task w))) (nmul (or_half (m_confidence m)) (w_confidence w)))
    (nmul (or_half (m_importance m)) (w_importance w))) (nmul recency (w_recency w))).

Definition active (m : memory) : bool := String.eqb (m_status m) "active".

Section Rank.
Context (locale_before : string → string → bool).

(** [b - a || a.id.localeCompare(b.id)] *)
Definition before_by (sa sb : num) (ida idb : string) : bool :=
  let d := nsub sb sa in if truthy_num d then nlt d nzero else locale_before ida idb.

(* [src/backend/src/intelligence/memory-intelligence.js:129-137] rankMemories *)
Definition rankMemories (l : list memory) (query : string) (w : weights) (taskCategory : option string) (limit : nat) (now : Z)
    : list (memory * num) :=
  let scored := (λ m, (m, scoreMemory w taskCategory query now m)) <$> List.filter active l in
  let sorted := js_sort (λ a b, before_by a.2 b.2 (m_id a.1) (m_id b.1)) scored in
  let n := if decide (limit = 0%nat) then (if decide (scored = []) then 10%nat else length scored) else limit in
  take (max 1 (min 100 n)) sorted.
End Rank.

(** * Duplicates and conflicts *)

(* [src/backend/src/intelligence/memory-intelligence.js:230-234] similarity *)
Definition similarity (a b : memory) : num := lexicalOverlap (text_of a) (text_of b).

(** The key and the value of a preference. *)
(* [src/backend/src/intelligence/memory-intelligence.js:274-277] keyOf *)
Definition keyOf (t : string) : option (option string * option string) :=
  c ← exec (parse "(prefer\w*|package manager|theme|ui|mode|default|owner)\b[^=:\n]{0,40}[=:]\s*([a-z0-9_./-]+)") t;
  Some (group t 1 c, group t 2 c).

(* [src/backend/src/intelligence/memory-intelligence.js:265-267] CONTRADICTION_PAIRS *)
Definition CONTRADICTION_PAIRS : list (string * string) :=
  [("\b(dark|light)\b.*\b(mode|theme|ui)\b", "\b(light|dark)\b.*\b(mode|theme|ui)\b")].

(* [src/backend/src/intelligence/memory-intelligence.js:269-294] isContradiction *)
Definition isContradiction (a b : memory) : bool :=
  let ta := to_lower (text_of a) in
  let tb := to_lower (text_of b) in
  let other_value := match keyOf ta, keyOf tb with
    | Some (ka, va), Some (kb, vb) => bool_decide (ka = kb) && negb (bool_decide (va = vb))
    | _, _ => false
    end in
  let neg t := test (parse "\b(not|never|don't|doesn't|disabled|off)\b") t in
  let shade t := c ← exec (parse "(dark|light)") t; group t 1 c in
  other_value ||
  (nlt (ratio 6 10) (similarity a b) && negb (Bool.eqb (neg ta) (neg tb))) ||
  existsb (λ p, test (parse p.1) ta && test (parse p.2) tb && truthy (shade ta) && truthy (shade tb) &&
    negb (bool_decide (shade ta = shade tb))) CONTRADICTION_PAIRS.

Inductive consolidation :=
| CreateNew
| ConflictWith (target : memory)
| MergeInto (target merged : memory).

(** The active record most similar to the candidate, with its similarity. *)
(* [src/backend/src/intelligence/memory-intelligence.js:241-247] most similar record *)
Fixpoint most_similar (c : memory) (l : list memory) (best : option memory) (bestSim : num) : option memory * num :=
  match l with
  | [] => (best, bestSim)
  | e :: l' =>
      if active e && nlt bestSim (similarity c e) then most_similar c l' (Some e) (similarity c e)
      else most_similar c l' best bestSim
  end.

(* [src/backend/src/intelligence/memory-intelligence.js:252-261] merged *)
Definition merge (c best : memory) (now : Z) : memory :=
  best <| m_snippet := (if (String.length (m_snippet c) <=? String.length (m_snippet best))%nat then m_snippet best else m_snippet c) |>
       <| m_importance := nmax (or_num (m_importance best) nzero) (or_num (m_importance c) nzero) |>
       <| m_confidence := round3 (nmin (ratio 95 100)
            (nadd (nmax (or_num (m_confidence best) nzero) (or_num (m_confidence c) nzero)) (ratio 5 100))) |>
       <| m_updatedAt := Some now |> <| m_lastValidatedAt := Some now |>
       <| m_tags := take 20 (rev (remove_dups (rev (m_tags best ++ m_tags c)%list))) |>
       <| m_mergedFrom := slice_last 10 (m_mergedFrom best ++ [m_id c])%list |>.

(* [src/backend/src/intelligence/memory-intelligence.js:239-263] consolidateCandidate *)
Definition consolidateCandidate (threshold : num) (c : memory) (existing : list memory) (now : Z) : consolidation :=
  match most_similar c existing None nzero with
  | (Some best, sim) =>
      if nlt sim threshold then CreateNew
      else if isContradiction c best then ConflictWith best
      else MergeInto best (merge c best now)
  | (None, _) => CreateNew
  end.

(* [src/backend/src/intelligence/memory-intelligence.js:298-309] describeConflict *)
Definition describeConflict (a b : memory) : conflict :=
  let at_ m := default 0%Z (match m_updatedAt m with Some t => Some t | None => m_createdAt m end) in
  Conflict (m_id a, m_id b) (if (at_ a <=? at_ b)%Z then m_id b else m_id a).

(** * The literals and what they match *)

Example memory_literals_parse :
  forallb (λ p, well_formed p.1) SECRET_PATTERNS && well_formed KEYWORD_LIKE && forallb (λ p, well_formed p.1 && well_formed p.2) CONTRADICTION_PAIRS = true.
Proof. vm_compute. reflexivity. Qed.

Example redacts :
  redactSecrets "key sk-abcdefgh12 and password: hunter2, postgres://u:p@h/db" = "key [REDACTED] and password: [REDACTED] [REDACTED]".
Proof. vm_compute. reflexivity. Qed.

(** Redacting an API key leaves nothing that looks like a secret; an assignment
    still does. *)
Example redaction_hides_keys :
  findSecrets (redactSecrets "use sk-abcdefgh12") = false ∧ findSecrets (redactSecrets "password: hunter2") = true.
Proof. vm_compute. split; reflexivity. Qed.
