(* ===== verification/MemoryManager.v ===== *)
(** The memory manager (backend/src/impl/memory-manager.js): working and
    long-term memory of all runs, what a run sees of it, and the gate in front of
    long-term memory.

    Records are mutated in place through the two maps, so an update of a record
    is an update of its map. Generated ids and the clock are inputs. *)

From S2P Require Import Prelude JsMap JsValue Number Sorting Text Regex SemanticCache TaskClassifier MemoryIntel.

Local Open Scope string_scope.
Local Open Scope js_scope.

(** * State *)

Inductive scope := working | longterm.
#[export] Instance scope_eq_dec : EqDecision scope.
Proof. solve_decision. Defined.
Definition scope_name (s : scope) : string := match s with working => "working" | longterm => "longterm" end.

(** What the manager reads of a runtime. *)
(* [src/backend/src/impl/memory-manager.js:42-46] runtime *)
Record runtime := Runtime {
  rt_runId : string; rt_orgId : option string; rt_projectId : option string; rt_userId : option string;
  rt_ownerId : option string; rt_objective : string; rt_allowDurableMemory : option bool;
}.

Inductive event :=
| MemoryRead (run : string) (s : scope) (count : nat)
| MemoryWritten (run : string) (s : scope) (id : string) (quarantined : bool)
| MemoryEvicted (run : string) (s : scope) (id : string).

(* [src/backend/src/impl/memory-manager.js:13-29] InMemoryMemoryManager *)
Record manager := Manager {
  workingMemory : list (string * memory);
  longTermMemory : list (string * memory);
  maxWorkingItems : nat;
  maxLongTermItems : nat;
  retrievalWeights : option weights;
  duplicateThreshold : num;
  events : list event;
}.
#[export] Instance manager_eta : Eta manager := λ m,
  Manager (workingMemory m) (longTermMemory m) (maxWorkingItems m) (maxLongTermItems m) (retrievalWeights m)
    (duplicateThreshold m) (events m).

Definition store_of (s : scope) (m : manager) : list (string * memory) :=
  match s with working => workingMemory m | longterm => longTermMemory m end.
Definition on_store (s : scope) (f : list (string * memory) → list (string * memory)) (m : manager) : manager :=
  match s with working => m <| workingMemory ::= f |> | longterm => m <| longTermMemory ::= f |> end.
Definition emit (e : event) (m : manager) : manager := m <| events ::= λ l, (l ++ [e])%list |>.

(** * Who sees what *)

(* [src/backend/src/impl/memory-manager.js:48-54] visibility of an item *)
Definition visible (r : runtime) (i : memory) : bool :=
  let orgId := or_null (rt_orgId r) in
  let projectId := or_null (rt_projectId r) in
  let userId := or_null (first_of (rt_userId r) (rt_ownerId r)) in
  let owner := or_null (first_of (m_userId i) (m_ownerId i)) in
  if truthy owner && truthy userId && negb (bool_decide (owner = userId)) then false
  else if bool_decide (m_runId i = Some (rt_runId r)) then true
  else if truthy (m_runId i) && negb (bool_decide (m_runId i = Some "shared")) then
    (** [i.orgId === orgId]: a field that is not there is not [null]. *)
    match m_orgId i, orgId with Some a, Some b => bool_decide (a = b) | _, _ => false end &&
    (negb (truthy projectId) || negb (truthy (m_projectId i)) || bool_decide (m_projectId i = projectId))
  else negb (truthy (m_orgId i)) || negb (truthy orgId) || bool_decide (m_orgId i = orgId).

Definition weight_of (i : memory) : num := nmul (m_importance i) (m_confidence i).

(* [src/backend/src/impl/memory-manager.js:41-61] _visibleItems *)
Definition visibleItems (store : list (string * memory)) (r : runtime) : list memory :=
  let own (i : memory) := bool_decide (m_runId i = Some (rt_runId r)) in
  js_sort (λ a b, if Bool.eqb (own a) (own b) then nlt (nsub (weight_of b) (weight_of a)) nzero else own a)
    (List.filter (visible r) (List.filter active (mvalues store))).

Section Manager.
Context (locale_before : string → string → bool).

Definition conflicted (i : memory) : bool := truthy (m_conflictWith i) || bool_decide (is_Some (m_conflict i)).

(** The ranking leaves its score on each record it keeps. The task category is
    always known, as the text contains the query. *)
(* [src/backend/src/impl/memory-manager.js:63-98] _rankByQuery *)
Definition rankByQuery (m : manager) (r : runtime) (query : string) (now : Z) (items : list memory) : list memory :=
  if negb (truthy_str query) then items
  else
    let w := default DEFAULT_RETRIEVAL_WEIGHTS (retrievalWeights m) in
    let category := category_name (p_category (classifyTask (trim (rt_objective r ++ " " ++ query)))) in
    let limit := if decide (items = []) then 10%nat else length items in
    let found := rankMemories locale_before items query w (Some category) limit now in
    let score_of (i : memory) : option num := snd <$> List.find (λ p, String.eqb (m_id p.1) (m_id i)) (rev found) in
    let scored := omap (λ i, s ← score_of i;
      if nlt nzero s then
        Some (i <| m_retrievalScore := Some (if conflicted i then round3 (nmul s (ratio 7 10)) else s) |>)
      else None) items in
    let own (i : memory) : Z := if decide (m_runId i = Some (rt_runId r)) then 1%Z else 0%Z in
    js_sort (λ a b,
      let d := nsub (default nzero (m_retrievalScore b)) (default nzero (m_retrievalScore a)) in
      if truthy_num d then nlt d nzero
      else if (own a =? own b)%Z then locale_before (m_id a) (m_id b) else (own b <? own a)%Z) scored.

(** The scores are written to the records of the map. *)
(* [src/backend/src/impl/memory-manager.js:108-142] readWorkingMemory, and [readLongTermMemory] *)
Definition read (s : scope) (r : runtime) (query : string) (limit : nat) (now : Z) (m : manager) : manager * list memory :=
  let items := rankByQuery m r query now (visibleItems (store_of s m) r) in
  let m := on_store s (λ l, foldl (λ l i, malter (λ x, x <| m_retrievalScore := m_retrievalScore i |>) l (m_id i)) l items) m in
  let result := take limit items in
  (emit (MemoryRead (rt_runId r) s (length result)) m, result).

(* [src/backend/src/impl/memory-manager.js:322-344] searchMemory *)
Definition searchMemory (r : runtime) (query : string) (scopes : list scope) (limit : nat) (now : Z) (m : manager)
    : manager * list (scope * memory) :=
  let step s (acc : manager * list (scope * memory)) :=
    if decide (s ∈ scopes) then let '(m, l) := read s r query limit now acc.1 in (m, (acc.2 ++ ((s,.) <$> l))%list) else acc in
  let '(m, l) := step longterm (step working (m, [])) in
  let score (x : scope * memory) :=
    match m_retrievalScore x.2 with Some v => if isFinite v then v else weight_of x.2 | None => weight_of x.2 end in
  (m, take limit (js_sort (λ a b,
    let d := nsub (score b) (score a) in
    if truthy_num d then nlt d nzero else nlt (nsub (weight_of b.2) (weight_of a.2)) nzero) l)).

(** * Writing *)

(* [src/backend/src/impl/memory-manager.js:231-237] _sanitizeInput *)
Definition sanitizeInput (i : candidate) : candidate :=
  let clean n s := slice0 n (redactSecrets s) in
  i <| i_title ::= fmap (clean 300%nat) |> <| i_snippet ::= fmap (clean 2000%nat) |> <| i_content ::= fmap (clean 4000%nat) |>.

(* [src/backend/src/impl/memory-manager.js:146-156] _toRecord *)
Definition toRecord (i : candidate) (s : scope) (r : runtime) (fresh : string) (now : Z) : memory :=
  (createMemoryRecord (i <| i_scope := Some (scope_name s) |> <| i_sourceRunId := Some (rt_runId r) |>
      <| i_runId := Some (rt_runId r) |> <| i_projectId := first_of (rt_projectId r) (i_projectId i) |>) fresh now)
    <| m_runId := first_of (i_runId i) (Some (rt_runId r)) |>.

(** The oldest active record gets the status [st]; it stays in the map. *)
(* [src/backend/src/impl/memory-manager.js:424-446] _evictOldestWorking and _evictOldestLongTerm *)
Definition oldest_active (l : list (string * memory)) : option (string * memory) :=
  foldl (λ best p, if active p.2 then
      match best with
      | None => Some p
      | Some b => if (default 0 (m_lastUsedAt p.2) <? default 0 (m_lastUsedAt b.2))%Z then Some p else best
      end else best) None l.
Definition retire (st : string) (l : list (string * memory)) : list (string * memory) :=
  match oldest_active l with Some (k, _) => malter (λ i, i <| m_status := st |>) l k | None => l end.

Definition insert_capped (st : string) (max : nat) (i : memory) (l : list (string * memory)) : list (string * memory) :=
  let l := mset l (m_id i) i in if (max <? msize l)%nat then retire st l else l.

(** [clean.confidence ?? classification.confidence] *)
Definition with_confidence (i : candidate) (c : num) : candidate := i <| i_confidence := nullish (i_confidence i) (JNumber c) |>.

(** The title and the snippet as they were offered. *)
Definition labelled (i : candidate) (c : classification) (m : memory) : memory :=
  m <| m_title := default "" (i_title i) |> <| m_snippet := default "" (i_snippet i) |>
    <| m_candidateKind := Some (kind_name (k_kind c)) |>.

(* [src/backend/src/impl/memory-manager.js:158-186] writeWorkingMemory *)
Definition writeWorkingMemory (r : runtime) (i : candidate) (fresh : string) (now : Z) (m : manager) : manager * memory :=
  let clean := sanitizeInput i in
  let c := classifyMemoryCandidate clean false in
  let item := labelled clean c (toRecord (with_confidence clean (k_confidence c)) working r fresh now) in
  (emit (MemoryWritten (rt_runId r) working (m_id item) false)
     (m <| workingMemory ::= insert_capped "evicted" (maxWorkingItems m) item |>), item).

Inductive proposal := Reject | Quarantine (c : classification) (clean : candidate) | Persist (s : scope) (c : classification) (clean : candidate).

(* [src/backend/src/impl/memory-manager.js:192-222] proposeMemory *)
Definition proposeMemory (r : runtime) (i : candidate) (target : scope) (explicit : bool) : proposal :=
  let clean := sanitizeInput i in
  if negb (truthy (i_title clean)) && negb (truthy (i_snippet clean)) then Reject
  else
    let explicit := explicit || i_durable i || i_approved i in
    let c := classifyMemoryCandidate clean explicit in
    if bool_decide (target = longterm) && negb explicit &&
       (bool_decide (rt_allowDurableMemory r = Some false) || bool_decide (k_kind c = secret_or_unsafe) ||
        bool_decide (k_kind c = unvetted_model_output)) then Quarantine c clean
    else Persist target c clean.

(* [src/backend/src/impl/memory-manager.js:239-298] writeLongTermMemory *)
Definition writeLongTermMemory (r : runtime) (i : candidate) (explicit : bool) (fresh : string) (now : Z) (m : manager)
    : res (manager * memory) :=
  match proposeMemory r i longterm explicit with
  | Reject => Throw (JsError (Some "empty_memory") "memory candidate rejected: empty title and snippet")
  | Quarantine c clean =>
      let conf := nmin (to_number (nullish (i_confidence i) (JNumber half))) (k_confidence c) in
      let item := (labelled clean c (toRecord (clean <| i_confidence := JNumber conf |>) working r fresh now))
        <| m_quarantined := true |> in
      Ok (emit (MemoryWritten (rt_runId r) working (m_id item) true)
            (m <| workingMemory ::= λ l, mset l (m_id item) item |>), item)
  | Persist _ c clean =>
      let item := labelled clean c (toRecord (with_confidence clean (k_confidence c)) longterm r fresh now) in
      Ok (emit (MemoryWritten (rt_runId r) longterm (m_id item) false)
            (m <| longTermMemory ::= insert_capped "archived" (maxLongTermItems m) item |>), item)
  end.

(* [src/backend/src/impl/memory-manager.js:226-229] approveMemoryCandidate *)
Definition approveMemoryCandidate (r : runtime) (i : candidate) (fresh : string) (now : Z) (m : manager) : res (manager * memory) :=
  writeLongTermMemory r (i <| i_approved := true |>) true fresh now m.

(* [src/backend/src/impl/memory-manager.js:300-320] evictMemory *)
Definition evictMemory (r : runtime) (id : string) (s : scope) (now : Z) (m : manager) : manager * bool :=
  match mget (store_of s m) id with
  | Some i =>
      (emit (MemoryEvicted (rt_runId r) s id)
        (on_store s (λ l, mset l id (i <| m_status := "evicted" |> <| m_lastUsedAt := Some now |>)) m), true)
  | None => (m, false)
  end.

Inductive write_action := Merged | Conflicted | Created.

(** A duplicate is merged into the record it resembles, whoever wrote it; the
    gate of [writeLongTermMemory] is not on that path. *)
(* [src/backend/src/impl/memory-manager.js:359-379] writeLongTermConsolidated *)
Definition writeLongTermConsolidated (r : runtime) (i : candidate) (fresh fresh' : string) (now : Z) (m : manager)
    : res (manager * (write_action * memory)) :=
  let c := createMemoryRecord (i <| i_scope := Some "longterm" |>) fresh now in
  match consolidateCandidate (duplicateThreshold m) c (visibleItems (longTermMemory m) r) now with
  | MergeInto target merged =>
      let merged := merged <| m_lastUsedAt := Some now |> in
      Ok (emit (MemoryWritten (rt_runId r) longterm (m_id target) false)
            (m <| longTermMemory ::= λ l, malter (λ _, merged) l (m_id target) |>), (Merged, merged))
  | ConflictWith target =>
      p ← writeLongTermMemory r i false fresh' now m;
      let '(m, w) := p in
      let w' := w <| m_conflictWith := Some (m_id target) |> <| m_conflict := Some (describeConflict w target) |> in
      Ok (on_store (if m_quarantined w then working else longterm) (λ l, malter (λ _, w') l (m_id w)) m, (Conflicted, w'))
  | CreateNew =>
      p ← writeLongTermMemory r i false fresh' now m; Ok (p.1, (Created, p.2))
  end.

(** * Reports *)

Fixpoint pairs {A} (l : list A) : list (A * A) := match l with [] => [] | x :: l => ((x,.) <$> l) ++ pairs l end%list.

(* [src/backend/src/impl/memory-manager.js:382-396] listConflicts *)
Definition listConflicts (r : runtime) (m : manager) : list conflict :=
  (λ p, describeConflict p.1 p.2) <$>
    List.filter (λ p, nle (ratio 35 100) (similarity p.1 p.2) && isContradiction p.1 p.2)
      (pairs (visibleItems (workingMemory m) r ++ visibleItems (longTermMemory m) r)%list).

(* [src/backend/src/impl/memory-manager.js:399-415] explainRetrieval *)
Definition explainRetrieval (r : runtime) (query : string) (scopes : list scope) (limit : nat) (now : Z) (m : manager)
    : list (memory * num) :=
  let part s := if decide (s ∈ scopes) then visibleItems (store_of s m) r else [] in
  rankMemories locale_before (part working ++ part longterm)%list query (default DEFAULT_RETRIEVAL_WEIGHTS (retrievalWeights m))
    (Some (category_name (p_category (classifyTask (rt_objective r))))) limit now.

(* [src/backend/src/impl/memory-manager.js:417-422] getMemoryState *)
Definition getMemoryState (r : runtime) (m : manager) : list memory * list memory :=
  (visibleItems (workingMemory m) r, visibleItems (longTermMemory m) r).

(* [src/backend/src/impl/memory-manager.js:456-468] purgeRun *)
Definition purgeRun (runId : string) (m : manager) : manager * nat :=
  if negb (truthy_str runId) then (m, 0%nat)
  else
    let keep (p : string * memory) := negb (bool_decide (m_runId p.2 = Some runId) || bool_decide (m_sourceRunId p.2 = Some runId)) in
    let w := List.filter keep (workingMemory m) in
    let l := List.filter keep (longTermMemory m) in
    (m <| workingMemory := w |> <| longTermMemory := l |>,
     (length (workingMemory m) - length w) + (length (longTermMemory m) - length l))%nat.

Definition seed_into (s : scope) (l : list (string * memory)) (i : memory) : list (string * memory) :=
  mset l (m_id i) (i <| m_scope := scope_name s |> <| m_status := "active" |> <| m_runId ::= λ x, first_of x (Some "shared") |>).
(* [src/backend/src/impl/memory-manager.js:472-479] seedMemory *)
Definition seedMemory (ws ls : list memory) (m : manager) : manager :=
  m <| workingMemory ::= λ l, foldl (seed_into working) l ws |> <| longTermMemory ::= λ l, foldl (seed_into longterm) l ls |>.
End Manager.

(** * Properties *)

(** ** Isolation *)

Inductive memory_op :=
| WriteWorking (r : runtime) (i : candidate) (fresh : string) (now : Z)
| WriteLongTerm (r : runtime) (i : candidate) (explicit : bool) (fresh : string) (now : Z)
| Approve (r : runtime) (i : candidate) (fresh : string) (now : Z)
| WriteConsolidated (r : runtime) (i : candidate) (fresh fresh' : string) (now : Z)
| Evict (r : runtime) (id : string) (s : scope) (now : Z)
| Search (r : runtime) (query : string) (scopes : list scope) (limit : nat) (now : Z)
| Purge (runId : string).

Definition ok_or {A} (m : manager) (x : res (manager * A)) : manager := match x with Ok p => p.1 | Throw _ => m end.

Definition apply_op (locale_before : string → string → bool) (m : manager) (o : memory_op) : manager :=
  match o with
  | WriteWorking r i f now => (writeWorkingMemory r i f now m).1
  | WriteLongTerm r i e f now => ok_or m (writeLongTermMemory r i e f now m)
  | Approve r i f now => ok_or m (approveMemoryCandidate r i f now m)
  | WriteConsolidated r i f f' now => ok_or m (writeLongTermConsolidated r i f f' now m)
  | Evict r id s now => (evictMemory r id s now m).1
  | Search r q ss n now => (searchMemory locale_before r q ss n now m).1
  | Purge run => (purgeRun run m).1
  end.

(** Run ids are proper and candidates do not name a run themselves. *)
Definition op_ok (o : memory_op) : Prop :=
  let run_ok r := truthy_str (rt_runId r) = true ∧ rt_runId r ≠ "shared" in
  match o with
  | WriteWorking r i _ _ | WriteLongTerm r i _ _ _ | Approve r i _ _ | WriteConsolidated r i _ _ _ => run_ok r ∧ truthy (i_runId i) = false
  | Evict _ _ _ _ | Search _ _ _ _ _ | Purge _ => True
  end.

(** Where a record comes from: a run wrote it, or it was seeded; a seeded record
    keeps its text unless candidates were merged into it, which it records. *)
Definition written (i : memory) : Prop :=
  m_orgId i = None ∧ truthy (m_runId i) = true ∧ m_runId i ≠ Some "shared".
Definition seeded (seeds : list memory) (i : memory) : Prop :=
  ∃ s, s ∈ seeds ∧ m_title i = m_title s ∧ (m_snippet i = m_snippet s ∨ m_mergedFrom i ≠ []) ∧
    m_runId i = first_of (m_runId s) (Some "shared").
Definition origin (seeds : list memory) (i : memory) : Prop := written i ∨ seeded seeds i.
Definition all_from (seeds : list memory) (l : list (string * memory)) : Prop := ∀ p, p ∈ l → origin seeds p.2.
Definition origins (seeds : list memory) (m : manager) : Prop := ∀ s, all_from seeds (store_of s m).

(** What keeps the origin: the title, the text, the run, the organisation and the
    list of what was merged. *)
Definition same_origin (i j : memory) : Prop :=
  m_orgId i = m_orgId j ∧ m_runId i = m_runId j ∧ m_title i = m_title j ∧ m_snippet i = m_snippet j ∧
  m_mergedFrom i = m_mergedFrom j.
Lemma origin_same seeds i j : same_origin i j → origin seeds i → origin seeds j.
Proof.
  intros (H1 & H2 & H3 & H4 & H5) [(Ho & Ht & Hn)|(s & Hs & Hti & Hsn & Hr)]; [left|right].
  - unfold written. by rewrite <-H1, <-H2.
  - exists s. by rewrite <-H2, <-H3, <-H4, <-H5.
Qed.

Lemma same_quarantined i : same_origin i (i <| m_quarantined := true |>).
Proof. by split. Qed.

Lemma store_on s s' f m : store_of s (on_store s' f m) = if decide (s = s') then f (store_of s m) else store_of s m.
Proof. by destruct s, s'. Qed.
Lemma store_emit s e m : store_of s (emit e m) = store_of s m.
Proof. by destruct s. Qed.

Implicit Types (l : list (string * memory)).

Lemma elem_set l k x p : p ∈ mset l k x → p = (k, x) ∨ p ∈ l.
Proof.
  induction l as [|[k' y] l IH]; simpl.
  { intros [->|Hp]%elem_of_cons; [by left|by apply not_elem_of_nil in Hp]. }
  destruct (decide (k = k')); intros [->|Hp]%elem_of_cons; [by left|right; by right|right; by left|].
  apply IH in Hp as [?|?]; [by left|right; by right].
Qed.

Lemma set_origin seeds l k x : origin seeds x → all_from seeds l → all_from seeds (mset l k x).
Proof. intros Hx Hl p [->|Hp]%elem_set; [done|by apply Hl]. Qed.

Lemma malter_origin seeds f l k : (∀ i, same_origin i (f i)) → all_from seeds l → all_from seeds (malter f l k).
Proof.
  intros Hf Hl. unfold malter. destruct (mget l k) as [x|] eqn:E; [|done]. apply set_origin; [|done].
  eapply origin_same; [apply Hf|]. by apply mget_elem, Hl in E.
Qed.

Lemma retire_origin seeds st l : all_from seeds l → all_from seeds (retire st l).
Proof.
  intros Hl. unfold retire. destruct (oldest_active l) as [[k0 e]|]; [|done]. apply malter_origin; [|done]. by split.
Qed.

Lemma insert_origin seeds st max x l : origin seeds x → all_from seeds l → all_from seeds (insert_capped st max x l).
Proof.
  intros Hx Hl. unfold insert_capped. destruct (_ <? _)%nat; [apply retire_origin|]; by apply set_origin.
Qed.

(** A record a run writes is its own. *)
Lemma record_run j s r f now : truthy (i_runId j) = false → m_runId (toRecord j s r f now) = Some (rt_runId r).
Proof. intros H. unfold toRecord. cbn. unfold first_of. by rewrite H. Qed.

Lemma record_origin seeds i j s r f now c : truthy_str (rt_runId r) = true → rt_runId r ≠ "shared" →
  truthy (i_runId j) = false → origin seeds (labelled i c (toRecord j s r f now)).
Proof.
  intros H1 H2 H3. left. pose proof (record_run j s r f now H3) as Hr.
  assert (m_runId (labelled i c (toRecord j s r f now)) = Some (rt_runId r)) as E by exact Hr.
  split; [done|]. rewrite E. split; [by destruct (rt_runId r)|]. intros [= ?]. done.
Qed.

Lemma origins_on seeds s f m : origins seeds m → (∀ l, all_from seeds l → all_from seeds (f l)) →
  origins seeds (on_store s f m).
Proof. intros Hm Hf s'. rewrite store_on. case_decide; [apply Hf, Hm|apply Hm]. Qed.

Lemma origins_emit seeds e m : origins seeds m → origins seeds (emit e m).
Proof. intros H s. rewrite store_emit. apply H. Qed.

(** The three outcomes of a long-term write. *)
Lemma long_cases r i explicit f now m :
  match proposeMemory r i longterm explicit with
  | Reject => ∃ e, writeLongTermMemory r i explicit f now m = Throw e
  | Quarantine c clean =>
      ∃ n, let x := (labelled clean c (toRecord (clean <| i_confidence := JNumber n |>) working r f now)) <| m_quarantined := true |> in
      writeLongTermMemory r i explicit f now m =
        Ok (emit (MemoryWritten (rt_runId r) working (m_id x) true) (on_store working (λ l, mset l (m_id x) x) m), x)
  | Persist s c clean =>
      let x := labelled clean c (toRecord (with_confidence clean (k_confidence c)) longterm r f now) in
      s = longterm ∧ writeLongTermMemory r i explicit f now m =
        Ok (emit (MemoryWritten (rt_runId r) longterm (m_id x) false)
              (on_store longterm (insert_capped "archived" (maxLongTermItems m) x) m), x)
  end.
Proof.
  unfold writeLongTermMemory. destruct (proposeMemory r i longterm explicit) as [|c clean|s c clean] eqn:E; [by eexists| |].
  - by eexists.
  - split; [|reflexivity]. unfold proposeMemory in E. destruct (_ && _); [done|]. destruct (_ && _); [done|]. by injection E.
Qed.

Lemma proposed r i s explicit : match proposeMemory r i s explicit with
  | Reject => True | Quarantine c clean | Persist _ c clean => clean = sanitizeInput i end.
Proof. unfold proposeMemory. destruct (_ && _); [done|]. by destruct (_ && _). Qed.

Lemma origins_long seeds m r i explicit f now :
  origins seeds m → truthy_str (rt_runId r) = true → rt_runId r ≠ "shared" → truthy (i_runId i) = false →
  origins seeds (ok_or m (writeLongTermMemory r i explicit f now m)).
Proof.
  intros Hm H1 H2 H3. pose proof (long_cases r i explicit f now m) as Hc. pose proof (proposed r i longterm explicit) as Hp.
  destruct (proposeMemory r i longterm explicit) as [|c clean|s c clean].
  - destruct Hc as [e ->]. done.
  - destruct Hc as [n ->]. cbn [ok_or fst]. subst clean. apply origins_emit, origins_on; [done|]. intros l Hl.
    apply set_origin; [|exact Hl].
    eapply origin_same; [apply same_quarantined|].
    apply record_origin; [exact H1|exact H2|exact H3].
  - destruct Hc as [-> ->]. cbn [ok_or fst]. subst clean. apply origins_emit, origins_on; [done|]. intros l Hl.
    apply insert_origin; [|exact Hl]. apply record_origin; [exact H1|exact H2|exact H3].
Qed.

Lemma slice_last_some {A} n (l : list A) x : n ≠ 0%nat → slice_last n (l ++ [x])%list ≠ [].
Proof.
  intros Hn E. apply (f_equal length) in E. unfold slice_last in E. destruct n; [done|].
  rewrite length_drop, length_app in E. cbn in E. lia.
Qed.

(** A candidate is merged into what the run sees: the record stays of its origin. *)
Lemma merged_origin seeds c best now : origin seeds best → origin seeds ((merge c best now) <| m_lastUsedAt := Some now |>).
Proof.
  intros [(Ho & Ht & Hn)|(s & Hs & Hti & _ & Hr)]; [by left|right]. exists s. split; [done|]. split; [exact Hti|].
  split; [|exact Hr]. right. by apply (slice_last_some 10).
Qed.

Lemma most_similar_in c (l : list memory) : ∀ best sim b, (most_similar c l best sim).1 = Some b → b ∈ l ∨ best = Some b.
Proof.
  induction l as [|e l IH]; intros best sim b; simpl; [by right|].
  destruct (_ && _); intros H; apply IH in H as [H|H]; auto.
  - left. by right.
  - injection H as ->. left. by left.
  - left. by right.
Qed.

Lemma origins_read seeds lb s r q n now m : origins seeds m → origins seeds (read lb s r q n now m).1.
Proof.
  intros Hm. unfold read. cbn [fst]. apply origins_emit, origins_on; [done|]. intros l Hl.
  generalize (rankByQuery lb m r q now (visibleItems (store_of s m) r)) as items. intros items. revert l Hl.
  induction items as [|x items IH]; intros l Hl; simpl; [done|]. apply IH. apply malter_origin; [by split|done].
Qed.

(** One half of a search. *)
Definition search_step lb (r : runtime) q (ss : list scope) n now s (acc : manager * list (scope * memory)) :=
  if decide (s ∈ ss) then let '(m, l) := read lb s r q n now acc.1 in (m, (acc.2 ++ ((s,.) <$> l))%list) else acc.

Lemma origins_half seeds lb r q ss n now s acc : origins seeds acc.1 → origins seeds (search_step lb r q ss n now s acc).1.
Proof.
  intros H. unfold search_step. destruct (decide (s ∈ ss)); [|done]. pose proof (origins_read seeds lb s r q n now acc.1 H) as H'.
  by destruct (read lb s r q n now acc.1).
Qed.

Lemma search_halves lb r q ss n now m :
  (searchMemory lb r q ss n now m).1 = (search_step lb r q ss n now longterm (search_step lb r q ss n now working (m, []))).1 ∧
  ∀ x, x ∈ (searchMemory lb r q ss n now m).2 →
    x ∈ (search_step lb r q ss n now longterm (search_step lb r q ss n now working (m, []))).2.
Proof.
  unfold searchMemory. fold (search_step lb r q ss n now working (m, [])).
  fold (search_step lb r q ss n now longterm (search_step lb r q ss n now working (m, []))).
  destruct (search_step lb r q ss n now longterm _) as [m' l]. split; [done|].
  intros x Hx. cbn [snd] in *. apply elem_of_take in Hx as (k & Hx & _). apply list_elem_of_lookup_2 in Hx.
  by apply elem_of_js_sort in Hx.
Qed.

Lemma elem_visible st r i : i ∈ visibleItems st r → active i = true ∧ visible r i = true ∧ ∃ k, (k, i) ∈ st.
Proof.
  unfold visibleItems. rewrite elem_of_js_sort. intros [[Hi Ha]%List.filter_In Hv]%list_elem_of_In%List.filter_In.
  split; [done|]. split; [done|]. apply list_elem_of_In, list_elem_of_fmap in Hi as ([k x] & -> & Hi). by exists k.
Qed.

Lemma all_set seeds l k x : all_from seeds l →
  origin seeds x → all_from seeds (malter (λ _, x) l k).
Proof. intros Hl Hx. unfold malter. destruct (mget l k); [by apply set_origin|done]. Qed.

Lemma long_result seeds m r i explicit f now m' w :
  truthy_str (rt_runId r) = true → rt_runId r ≠ "shared" → truthy (i_runId i) = false →
  writeLongTermMemory r i explicit f now m = Ok (m', w) → origin seeds w.
Proof.
  intros H1 H2 H3 Hw. pose proof (long_cases r i explicit f now m) as Hc. pose proof (proposed r i longterm explicit) as Hp.
  destruct (proposeMemory r i longterm explicit) as [|c clean|s c clean].
  - destruct Hc as [e E]. congruence.
  - destruct Hc as [n E]. rewrite E in Hw. apply (f_equal (λ x, match x with Ok p => p.2 | Throw _ => w end)) in Hw. cbn beta iota in Hw.
    change ((m', w).2) with w in Hw. rewrite <-Hw. subst clean. eapply origin_same; [apply same_quarantined|]. apply record_origin; [exact H1|exact H2|exact H3].
  - destruct Hc as [-> E]. rewrite E in Hw. apply (f_equal (λ x, match x with Ok p => p.2 | Throw _ => w end)) in Hw.
    cbn beta iota in Hw. change ((m', w).2) with w in Hw. rewrite <-Hw. subst clean. apply record_origin; [exact H1|exact H2|exact H3].
Qed.

Lemma origins_consolidated seeds m r i f f' now :
  origins seeds m → truthy_str (rt_runId r) = true → rt_runId r ≠ "shared" → truthy (i_runId i) = false →
  origins seeds (ok_or m (writeLongTermConsolidated r i f f' now m)).
Proof.
  intros Hm H1 H2 H3. pose proof (origins_long seeds m r i false f' now Hm H1 H2 H3) as Hl.
  unfold writeLongTermConsolidated. destruct (consolidateCandidate _ _ _ _) as [|t|t mg] eqn:Ec.
  - destruct (writeLongTermMemory r i false f' now m) as [[m' w]|e] eqn:Ew; [exact Hl|done].
  - destruct (writeLongTermMemory r i false f' now m) as [[m' w]|e] eqn:Ew; [|done]. cbn [mbind res_bind ok_or fst] in *.
    apply origins_on; [exact Hl|]. intros l Hl'. apply all_set; [done|].
    eapply origin_same; [|by eapply long_result]. by split.
  - cbn [ok_or fst]. apply origins_emit, (origins_on seeds longterm); [done|]. intros l Hl'.
    apply all_set; [done|]. unfold consolidateCandidate in Ec.
    set (c := createMemoryRecord _ _ _) in Ec.
    pose proof (most_similar_in c (visibleItems (longTermMemory m) r) None nzero) as Hin.
    destruct (most_similar c _ None nzero) as [[best|] sim]; [|done]. destruct (nlt sim _); [done|].
    destruct (isContradiction _ _); [done|]. injection Ec as <- <-. apply merged_origin.
    destruct (Hin best eq_refl) as [Hb|]; [|done]. apply elem_visible in Hb as (_ & _ & k & Hb).
    exact (Hm longterm _ Hb).
Qed.

Lemma origins_op seeds lb m o : op_ok o → origins seeds m → origins seeds (apply_op lb m o).
Proof.
  destruct o as [r i f now|r i e f now|r i f now|r i f f' now|r id s now|r q ss n now|run]; cbn [op_ok apply_op]; intros Ho Hm.
  - destruct Ho as [[H1 H2] H3]. unfold writeWorkingMemory. cbn [fst]. apply origins_emit.
    apply (origins_on seeds working); [done|]. intros l Hl.
    apply insert_origin; [|exact Hl]. apply record_origin; [exact H1|exact H2|exact H3].
  - destruct Ho as [[H1 H2] H3]. apply origins_long; [exact Hm|exact H1|exact H2|exact H3].
  - destruct Ho as [[H1 H2] H3]. apply origins_long; [exact Hm|exact H1|exact H2|exact H3].
  - destruct Ho as [[H1 H2] H3]. by apply origins_consolidated.
  - unfold evictMemory. destruct (mget (store_of s m) id) as [x|] eqn:E; [|done]. cbn [fst]. apply origins_emit, origins_on; [done|].
    intros l Hl. apply set_origin; [|done]. apply mget_elem, Hm in E. eapply origin_same; [|exact E]. by split.
  - destruct (search_halves lb r q ss n now m) as [-> _]. by do 2 apply origins_half.
  - unfold purgeRun. destruct (truthy_str run); [|done]. cbn [negb fst].
    intros s p Hp. destruct s; apply list_elem_of_In, List.filter_In in Hp as [Hp _];
      [apply (Hm working)|apply (Hm longterm)]; by apply list_elem_of_In.
Qed.

(** What is visible of the records of other runs: nothing. *)
Lemma visible_written r i : written i → visible r i = true → m_runId i = Some (rt_runId r).
Proof.
  intros (Ho & Ht & Hs). unfold visible. cbv zeta. destruct (_ && _); [done|].
  destruct (bool_decide (m_runId i = Some (rt_runId r))) eqn:E; [by apply bool_decide_eq_true in E|].
  rewrite Ht, (bool_decide_eq_false_2 (m_runId i = Some "shared")) by done. cbn [andb negb]. by rewrite Ho.
Qed.

Lemma elem_ranked lb m r q now items i : i ∈ rankByQuery lb m r q now items →
  ∃ j, j ∈ items ∧ (i = j ∨ ∃ v, i = j <| m_retrievalScore := v |>).
Proof.
  unfold rankByQuery. destruct (negb _); [intros H; exists i; split; [done|by left]|]. cbv zeta. rewrite elem_of_js_sort.
  intros (j & Hj & H)%list_elem_of_omap. exists j. split; [done|]. apply bind_Some in H as (v & _ & H).
  destruct (nlt nzero v); [|done]. injection H as <-. right. by eexists.
Qed.

Definition own_or_seed (seeds : list memory) (r : runtime) (i : memory) : Prop :=
  active i = true ∧ (m_runId i = Some (rt_runId r) ∨ seeded seeds i).

Lemma visible_own seeds m r s i : origins seeds m → i ∈ visibleItems (store_of s m) r → own_or_seed seeds r i.
Proof.
  intros Hm (Ha & Hv & k & Hk)%elem_visible. split; [done|].
  destruct (Hm s _ Hk) as [Hw|Hs]; [left; by apply visible_written|by right].
Qed.

Lemma read_own seeds lb s r q n now m i : origins seeds m → i ∈ (read lb s r q n now m).2 → own_or_seed seeds r i.
Proof.
  intros Hm. unfold read. cbn [snd]. intros (k & Hi & _)%elem_of_take. apply list_elem_of_lookup_2, elem_ranked in Hi as (j & Hj & Hi).
  destruct (visible_own seeds m r s j Hm Hj) as [Ha Ho]. destruct Hi as [-> |[v ->]]; [by split|].
  split; [exact Ha|]. destruct Ho as [Ho|(x & Hx & H)]; [by left|right; by exists x].
Qed.

Lemma half_own seeds lb r q ss n now s acc x : origins seeds acc.1 →
  (∀ x, x ∈ acc.2 → own_or_seed seeds r x.2) → x ∈ (search_step lb r q ss n now s acc).2 → own_or_seed seeds r x.2.
Proof.
  intros Hm Hacc. unfold search_step. destruct (decide (s ∈ ss)); [|apply Hacc].
  pose proof (read_own seeds lb s r q n now acc.1) as Hr. destruct (read lb s r q n now acc.1) as [m' l]. cbn [snd] in *.
  intros [Hx|Hx]%elem_of_app; [by apply Hacc|]. apply list_elem_of_fmap in Hx as (i & -> & Hi). by apply Hr.
Qed.

Lemma seed_origin sc l ws seeds : all_from seeds l → (∀ w, w ∈ ws → w ∈ seeds) →
  all_from seeds (foldl (seed_into sc) l ws).
Proof.
  revert l. induction ws as [|w ws IH]; intros l Hl Hw; simpl; [done|]. apply IH; [|intros x Hx; apply Hw; by right].
  apply set_origin; [|done]. right. exists w. split; [apply Hw; by left|]. split; [done|]. split; [by left|done].
Qed.

(** C18: memory is isolated by run. Start from an empty manager, seed it with any
    records, and let any runs write to working or long-term memory, approve,
    consolidate, evict, search and purge, as long as run ids are proper and no
    candidate names a run itself: whatever a run is then shown of working or
    long-term memory, by listing or by searching, is active and either carries the
    id of that very run (its own record) or is a seeded record, with its title
    and its run id; a seeded record also has the text it was seeded with, unless
    it lists candidates merged into it: consolidation merges a run's text into a
    seeded record it resembles, which other runs then see. Apart from that no run
    sees what another wrote, be it durable and of the same organisation: records
    do not carry the organisation. *)
Theorem memory_isolation lb m0 ws ls ops r :
  workingMemory m0 = [] → longTermMemory m0 = [] → Forall op_ok ops →
  let m := run (apply_op lb) (seedMemory ws ls m0) ops in
  (∀ i, i ∈ (getMemoryState r m).1 ∨ i ∈ (getMemoryState r m).2 → own_or_seed (ws ++ ls) r i) ∧
  (∀ q ss n now x, x ∈ (searchMemory lb r q ss n now m).2 → own_or_seed (ws ++ ls) r x.2).
Proof.
  intros Hw Hl Ho m.
  assert (origins (ws ++ ls) m) as Hm.
  { apply (run_invariant _ (origins (ws ++ ls)) op_ok); [intros s o Hs Hop; by apply origins_op| |done].
    intros s. assert (∀ l, l = [] → all_from (ws ++ ls) l) as Hnil by (intros l ->; by intros p ?%not_elem_of_nil).
    destruct s; (apply seed_origin; [by apply Hnil|intros x Hx; apply elem_of_app; tauto]). }
  split.
  - intros i [Hi|Hi]; [by apply (visible_own _ m r working)|by apply (visible_own _ m r longterm)].
  - intros q ss n now x Hx. destruct (search_halves lb r q ss n now m) as [_ H]. apply H in Hx.
    eapply half_own; [|intros y; apply half_own|exact Hx]; [by apply origins_half|done|by intros z ?%not_elem_of_nil].
Qed.

Definition no_order (a b : string) : bool := false.
Definition new_manager : manager := Manager [] [] 2 2 None (ratio 55 100) [].
Definition rt (run org : string) : runtime := Runtime run (Some org) None None None "build the parser" None.
Definition note (title snippet source : string) : candidate :=
  Candidate None None None (Some title) (Some snippet) None (Some source) None None None None JUndefined JUndefined None [] None false false.

Definition demo_history : list memory_op :=
  [WriteLongTerm (rt "r1" "acme") (note "style" "the parser uses tabs" "user:ann") false "1" 10;
   WriteWorking (rt "r2" "acme") (note "seen" "the parser has tests" "tool:grep") "2" 11].
Definition seed_fact : memory := createMemoryRecord (note "license" "the parser is MIT" "seed") "s" 0.

(** Run r2 of the same organisation does not see what r1 made durable. *)
Lemma memory_isolation_witness :
  let m := run (apply_op no_order) (seedMemory [] [seed_fact] new_manager) demo_history in
  length (longTermMemory m) = 2%nat ∧
  m_title <$> (getMemoryState (rt "r2" "acme") m).2 = ["license"] ∧
  ∀ i, i ∈ (getMemoryState (rt "r2" "acme") m).2 → own_or_seed [seed_fact] (rt "r2" "acme") i.
Proof.
  split; [vm_compute; reflexivity|]. split; [vm_compute; reflexivity|].
  intros i Hi. apply (proj1 (memory_isolation no_order new_manager [] [seed_fact] demo_history (rt "r2" "acme") eq_refl eq_refl
    ltac:(repeat constructor; discriminate))). right. exact Hi.
Defined.

(** ** The gate of long-term memory *)

(** Something says that the candidate is meant to last. *)
Definition signalled (i : candidate) (explicit : bool) : bool := explicit || i_durable i || i_approved i.
Definition refused_kind (r : runtime) (c : classification) : Prop :=
  rt_allowDurableMemory r = Some false ∨ k_kind c = secret_or_unsafe ∨ k_kind c = unvetted_model_output.

Lemma proposal_cases r i explicit :
  let clean := sanitizeInput i in
  let c := classifyMemoryCandidate clean (signalled i explicit) in
  match proposeMemory r i longterm explicit with
  | Reject => truthy (i_title clean) = false ∧ truthy (i_snippet clean) = false
  | Quarantine c' clean' => c' = c ∧ clean' = clean ∧ signalled i explicit = false ∧ refused_kind r c
  | Persist s c' clean' => s = longterm ∧ c' = c ∧ clean' = clean ∧ (signalled i explicit = true ∨ ¬ refused_kind r c)
  end.
Proof.
  cbv zeta. unfold proposeMemory. fold (signalled i explicit). destruct (_ && _) eqn:E0.
  { by apply andb_true_iff in E0 as [?%negb_true_iff ?%negb_true_iff]. }
  generalize (classifyMemoryCandidate (sanitizeInput i) (signalled i explicit)) (sanitizeInput i) (signalled i explicit).
  clear. intros c clean sig. unfold refused_kind. destruct (_ && _) eqn:E.
  - apply andb_true_iff in E as [[_ ?%negb_true_iff]%andb_true_iff E]. split; [done|]. split; [done|]. split; [done|].
    apply orb_true_iff in E as [[?%bool_decide_eq_true|?%bool_decide_eq_true]%orb_true_iff|?%bool_decide_eq_true]; tauto.
  - split; [done|]. split; [done|]. split; [done|]. cbn [andb] in E. destruct sig; [by left|right]. cbn [negb andb] in E.
    apply orb_false_iff in E as [[?%bool_decide_eq_false ?%bool_decide_eq_false]%orb_false_iff ?%bool_decide_eq_false]. tauto.
Qed.

Definition same_text (i j : memory) : Prop := m_title i = m_title j ∧ m_snippet i = m_snippet j.

Lemma insert_found st max x l : ∃ y, mget (insert_capped st max x l) (m_id x) = Some y ∧ same_text x y.
Proof.
  unfold insert_capped. destruct (_ <? _)%nat; [|exists x; by rewrite mget_set_eq].
  unfold retire. destruct (oldest_active _) as [[k e]|]; [|exists x; by rewrite mget_set_eq].
  rewrite mget_malter. case_decide as H; [subst k|]; rewrite mget_set_eq; (eexists; split; [reflexivity|by split]).
Qed.

(** What may become durable. A long-term write is refused, with code
    [empty_memory], exactly when the candidate has neither title nor snippet; a
    candidate that nothing says is meant to last goes to working memory instead,
    flagged, and long-term memory is left alone, when the policy of the run
    forbids durable writes, when it is classified as secret, or as unvetted model
    output; every other candidate is stored in long-term memory, unflagged, and
    working memory is left alone. Whatever is stored is the redacted text. *)
Theorem durable_gate r i explicit f now m :
  let clean := sanitizeInput i in
  let c := classifyMemoryCandidate clean (signalled i explicit) in
  let held := signalled i explicit = false ∧ refused_kind r c in
  match writeLongTermMemory r i explicit f now m with
  | Throw e => err_code e = Some "empty_memory" ∧ truthy (i_title clean) = false ∧ truthy (i_snippet clean) = false
  | Ok (m', x) =>
      (truthy (i_title clean) = true ∨ truthy (i_snippet clean) = true) ∧
      m_title x = default "" (i_title clean) ∧ m_snippet x = default "" (i_snippet clean) ∧
      (held → longTermMemory m' = longTermMemory m ∧ m_quarantined x = true ∧ mget (workingMemory m') (m_id x) = Some x) ∧
      (¬ held → workingMemory m' = workingMemory m ∧ m_quarantined x = false ∧
        ∃ y, mget (longTermMemory m') (m_id x) = Some y ∧ same_text x y)
  end.
Proof.
  cbv zeta. pose proof (proposal_cases r i explicit) as Hp. cbv zeta in Hp. pose proof (long_cases r i explicit f now m) as Hc.
  destruct (proposeMemory r i longterm explicit) as [|c clean|s c clean] eqn:Ep.
  - unfold writeLongTermMemory. rewrite Ep. done.
  - destruct Hc as [n ->]. destruct Hp as (-> & -> & Hs & Hk).
    assert (truthy (i_title (sanitizeInput i)) = true ∨ truthy (i_snippet (sanitizeInput i)) = true) as Ht.
    { unfold proposeMemory in Ep. destruct (_ && _) eqn:E in Ep; [done|].
      apply andb_false_iff in E as [?%negb_false_iff|?%negb_false_iff]; tauto. }
    split; [exact Ht|]. split; [reflexivity|]. split; [reflexivity|]. split.
    + intros _. split; [reflexivity|]. split; [reflexivity|]. apply mget_set_eq.
    + intros H. destruct H. by split.
  - destruct Hc as [-> ->]. destruct Hp as (_ & -> & -> & Hk).
    assert (truthy (i_title (sanitizeInput i)) = true ∨ truthy (i_snippet (sanitizeInput i)) = true) as Ht.
    { unfold proposeMemory in Ep. destruct (_ && _) eqn:E in Ep; [done|].
      apply andb_false_iff in E as [?%negb_false_iff|?%negb_false_iff]; tauto. }
    split; [exact Ht|]. split; [reflexivity|]. split; [reflexivity|]. split.
    + intros [Hs Hr]. destruct Hk as [Hk|Hk]; [congruence|by destruct Hk].
    + intros _. split; [reflexivity|]. split; [reflexivity|]. apply insert_found.
Qed.

(** A candidate with an API key is not recognised as secret once it is redacted,
    and goes to long-term memory although the comment says it is quarantined. *)
Example key_is_not_quarantined :
  match writeLongTermMemory (rt "r1" "acme") (note "token" "use sk-abcdefgh12" "model:m1") false "1" 10 new_manager with
  | Ok (m, x) => m_quarantined x = false ∧ m_snippet x = "use [REDACTED]" ∧ msize (longTermMemory m) = 1%nat
  | Throw _ => False
  end.
Proof. vm_compute. split; [|split]; reflexivity. Qed.

(** Consolidation merges before the gate: unvetted model output ends up in a
    durable record, here in one shared by every organisation. *)
Example consolidation_bypasses_gate :
  let m0 := seedMemory [] [seed_fact] new_manager in
  match writeLongTermConsolidated (rt "r1" "acme") (note "license" "remember: the parser is MIT licensed" "model:m1") "1" "2" 10 m0 with
  | Ok (m, (a, x)) => a = Merged ∧ m_snippet <$> (getMemoryState (rt "r9" "other") m).2 = ["remember: the parser is MIT licensed"]
  | Throw _ => False
  end.
Proof. vm_compute. split; reflexivity. Qed.

(** Eviction changes the status of a record and never removes it. *)
Example evicted_records_stay :
  let m := foldl (λ m n, (writeWorkingMemory (rt "r1" "acme") (note "t" "s" "tool:x") n 10 m).1) new_manager ["1"; "2"; "3"; "4"; "5"] in
  msize (workingMemory m) = 5%nat ∧ length (List.filter active (mvalues (workingMemory m))) = 2%nat.
Proof. vm_compute. split; reflexivity. Qed.
