(* ===== verification/Session.v ===== *)
(** The execution controller around the orchestrator
    (backend/src/execution/controller.js): what [attachExecution] adds to a run
    beyond the gate of Controller - its workspace, its continuation after it
    ended, pausing, the runtime commands in user messages, the changeset API,
    verification records and the reported result.

    A [session] is the state these methods share: the orchestrator's maps
    (Registry), the gate's state (Controller), the episodes and pauses (Plans),
    the changeset store with the files it writes (Changesets), and the
    verification records. Running tests and git are outside: their outcomes are
    inputs. *)

From S2P Require Import Prelude StateM JsMap JsValue Text Paths Types Number ToolSystem Policy Approvals Plans Privacy Controller Changesets Recovery RuntimeState RunConfig StateMachine Orchestrator Registry RegistryInvariant.

Import TaskStatus.
Local Open Scope string_scope.
Local Open Scope js_scope.

(* [src/backend/src/execution/controller.js:42-63] controller state *)
Record session := Session {
  s_reg : registry;
  s_gate : controller;
  s_episodes : EpisodeManager.episodes;
  s_pause : PauseController.PauseController;
  s_sys : Changesets.sys;
  s_verifications : jsmap string (list verification);
}.
#[export] Instance session_eta : Eta session := λ s,
  Session (s_reg s) (s_gate s) (s_episodes s) (s_pause s) (s_sys s) (s_verifications s).

(** [this.orch._emit(runId, type, ...)] *)
Definition emit_to (id : string) (t : EventType.t) (d : string) (s : session) : session :=
  s <| s_reg ::= λ g, g <| objects ::= alter (emit t d) id |> |>.

(** ** The workspace of a run *)

(* [src/backend/src/execution/controller.js:236-236] replaced characters *)
Definition safe_char (c : ascii) : bool := is_word c || Ascii.eqb c "-"%char.

Fixpoint map_chars (f : ascii → ascii) (s : string) : string :=
  match s with EmptyString => EmptyString | String c s' => String (f c) (map_chars f s') end.

(* [src/backend/src/execution/controller.js:236-236] safe *)
Definition safe (value : option string) (fallback : string) : string :=
  slice0 100 (map_chars (λ c, if safe_char c then c else "_"%char) (or_str (default "" value) fallback)).

(** [path.join(base, ...names)] for an absolute [base]. *)
Definition path_join (base : string) (names : list string) : string :=
  render_path (foldl push_segment (segments base) names).

(* [src/backend/src/execution/controller.js:234-240] workspaceFor *)
Definition workspaceFor (productionSafeToolsOnly : bool) (workspace : string)
    (orgId projectId runId : option string) : string :=
  if negb productionSafeToolsOnly then workspace
  else path_join workspace
    [safe orgId "unassigned-org"; safe projectId "unassigned-project"; safe runId "run"].

(** ** Continuing a run *)

Inductive continued := Continued (episodeId : string) | NotContinued (error : string) | ContinueThrew (e : js_error).

(** [newId] is the id of the new episode; [reopen] and [bring_back] are the
    registry's part. *)
(* [src/backend/src/execution/controller.js:575-625] continueRun *)
Definition continueRun (now : Z) (global : resolved) (newId id msg : string) (s : session) : session * continued :=
  match bring_back id (s_reg s) with
  | None => (s, NotContinued "run is already executing")
  | Some g =>
      let s := s <| s_reg := g |> in
      match getRun g id with
      | None => (s, NotContinued "run not found")
      | Some r =>
          if running (ct r) then (s, NotContinued "run is already executing")
          else
            let s := s <| s_episodes ::= λ m, EpisodeManager.on_continueRun m now newId id msg
                            (bool_decide (RuntimeState.status (rt r) = FAILED)) |> in
            let r := reopen now (emit EventType.EPISODE_STARTED newId r) in
            match startRun now global msg r with
            | Ok r' => (s <| s_reg ::= λ g, g <| objects ::= <[id := r']> |> |>, Continued newId)
            | Throw e => (s <| s_reg ::= λ g, g <| objects ::= <[id := r]> |> |>, ContinueThrew e)
            end
      end
  end.

(** ** Pausing *)

(** A move of a live run. *)
Definition move (id : string) (f : run → run) (s : session) : session :=
  match view (s_reg s) id with
  | Some r => s <| s_reg ::= λ g, g <| objects ::= <[id := f r]> |> |>
  | None => s
  end.

(* [src/backend/src/execution/controller.js:655-666] pauseRun *)
Definition pauseRun (now : Z) (id : string) (s : session) : session * PauseState.t :=
  let '(p, st) := PauseController.requestPause (s_pause s) id in
  let s' := s <| s_pause := p |> in
  (if decide (st = PauseState.PAUSING) then move id (pause_move now) s' else s', st).

(* [src/backend/src/execution/controller.js:668-688] resumeRun *)
Definition resumeRun (now : Z) (id : string) (s : session) : session * PauseState.t :=
  let '(p, st) := PauseController.requestResume (s_pause s) id in
  let s' := s <| s_pause := p |> in
  if isActiveRun (s_reg s) id && bool_decide (st = PauseState.RESUMING) then
    let '(p, settled) := PauseController.settleResume (s_pause s') id in
    (move id (resume_move now) (s' <| s_pause := p |>), settled)
  else (s', st).

(** The tool boundary, before the wait ([PauseController.hold_loop]). *)
(* [src/backend/src/execution/controller.js:346-358] _holdForPause, settle *)
Definition holdForPause (now : Z) (id : string) (s : session) : session :=
  let '(p, st) := PauseController.settlePause (s_pause s) id in
  let s' := s <| s_pause := p |> in
  if decide (st = PauseState.PAUSED) then move id (hold_move now) s' else s'.

(** ** User messages *)

Definition command_name (c : ConstraintStore.command) : string :=
  match c with
  | ConstraintStore.STOP => "stop" | ConstraintStore.PAUSE => "pause" | ConstraintStore.RESUME => "resume"
  | ConstraintStore.CONSTRAIN_PATHS _ => "constrain_paths" | ConstraintStore.FORBID_PATHS _ => "forbid_paths"
  | ConstraintStore.USE_BRANCH _ => "use_branch" | ConstraintStore.ADD_NOTE _ => "note"
  end.

(** STOP is [cancelRun] up to its 25 ms wait. *)
(* [src/backend/src/execution/controller.js:629-651] userMessage *)
Definition userMessage (now : Z) (id text : string) (s : session) : session * string :=
  let cmd := ConstraintStore.parseRuntimeCommand text in
  (match cmd with
   | ConstraintStore.STOP => move id (λ r, (cancel_request r).2) s
   | ConstraintStore.PAUSE => (pauseRun now id s).1
   | ConstraintStore.RESUME => (resumeRun now id s).1
   | ConstraintStore.ADD_NOTE _ => s
   | _ => s <| s_gate ::= λ c, c <| k_constraints ::= λ m, ConstraintStore.applyCommand m id cmd |> |>
   end, command_name cmd).

(** ** Changesets *)

Section Api.
Context (sha256 : string → string) (h : host) (pid : Z) (e : gate_env).

(** [{ name: 'apply_patch', requiresApproval: true }] *)
Definition apply_definition : definition := (normalizeDefinition (named "apply_patch")) <| d_requiresApproval := true |>.

(** The action a changeset approval is bound to. *)
Definition apply_params (changesetId : string) : jsval := JObj [("changesetId", JStr changesetId)].

(** What the approver is shown: the files with their hashes and edits, and the
    lines that change. *)
(* [src/backend/src/execution/controller.js:481-487] applyChangeset, the request *)
Definition apply_description (cs : changeset) : string :=
  "Files: " ++ js_join ", " (e_path <$> _entries cs) ++ " (+" ++ string_of_Z (Z.of_nat (additions cs)) ++ "/-" ++
  string_of_Z (Z.of_nat (deletions cs)) ++ ")".
Definition file_view (f : string * string * string * nat) : jsval :=
  let '(path, before, after, edits) := f in
  JObj [("path", JStr path); ("beforeHash", JStr before); ("afterHash", JStr after); ("edits", JNum (Z.of_nat edits))].
Definition proposed_changes (changesetId : string) (cs : changeset) : jsval :=
  JObj [("changesetId", JStr changesetId); ("files", JArr (file_view <$> files_summary cs))].
Definition estimated_changes (cs : changeset) : jsval :=
  JObj [("additions", JNum (Z.of_nat (additions cs))); ("deletions", JNum (Z.of_nat (deletions cs)))].

Inductive applied_result :=
| ApplyOk (r : changeset)
| ApplyNeedsApproval (approvalId : string)
| ApplyRejected (error : string)
| ApplyOutcome (r : apply_result).

(* [src/backend/src/execution/controller.js:494-508] applyChangeset, apply *)
Definition performApply (id changesetId : string) (s : session) : session * applied_result :=
  let '(sys, r) := Changesets.apply h sha256 pid changesetId (Some (e_workspaceFor e id)) (s_sys s) in
  let s := s <| s_sys := sys |> in
  match r with
  | Applied r => (emit_to id EventType.CHANGESET_APPLIED changesetId s, ApplyOk r)
  | _ => (s, ApplyOutcome r)
  end.

(** Clock readings: the request, the sweep, the explicit expiry check. *)
(* [src/backend/src/execution/controller.js:472-509] applyChangeset *)
Definition applyChangeset (t_req t0 t1 : Z) (newId id changesetId : string) (approvalId : option string)
    (s : session) : session * applied_result :=
  match mget (changesets (s_sys s)) changesetId with
  | None => (s, ApplyRejected "changeset not found for run")
  | Some cs =>
      if negb (String.eqb (cs_runId cs) id) then (s, ApplyRejected "changeset not found for run")
      else
        let '(c, pol) := policyFor e (s_gate s) id in
        let s := s <| s_gate := c |> in
        if (needsApproval (Some pol) (Some apply_definition) (Some (riskLevel cs))).1 then
          if negb (truthy approvalId) then
            let q := RequestArgs (Some id) (Some "apply_patch") (Some ("Apply changeset " ++ changesetId))
              (Some (apply_description cs)) (Some (riskLevel cs)) (apply_params changesetId)
              (proposed_changes changesetId cs) (Some (e_path <$> _entries cs)) (Some (estimated_changes cs)) None None in
            let '(st, r) := request sha256 (k_approvals c) t_req newId q in
            let s := s <| s_gate ::= λ c, c <| k_approvals := st |> |> in
            match r with
            | inl a => (emit_to id EventType.CHANGESET_APPROVAL_REQUIRED changesetId s, ApplyNeedsApproval (a_id a))
            | inr err => (s, ApplyRejected err)
            end
          else
            let '(st, r) := checkAndConsume sha256 (k_approvals c) t0 t1
              (GateArgs id "apply_patch" (apply_params changesetId) JUndef) (default "" approvalId) in
            let s := s <| s_gate ::= λ c, c <| k_approvals := st |> |> in
            match r with
            | inl _ => performApply id changesetId s
            | inr err => (s, ApplyRejected err)
            end
        else performApply id changesetId s
  end.

(** The changeset is looked up by its id alone. *)
(* [src/backend/src/execution/controller.js:511-517] rollbackChangeset *)
Definition rollbackChangeset (id changesetId : string) (s : session) : session * res rollback_result :=
  let '(sys, r) := Changesets.rollback h sha256 pid changesetId (Some (e_workspaceFor e id)) (s_sys s) in
  let s := s <| s_sys := sys |> in
  (match r with Ok (RolledBack _ _) => emit_to id EventType.CHANGESET_ROLLED_BACK changesetId s | _ => s end, r).
End Api.

(** ** Verification and the reported result *)

(** [diff]: additions and deletions, or why there is no diff; [tests]: the
    command's verdict with its report, or the exception. *)
(* [src/backend/src/execution/controller.js:521-571] verifyChangeset *)
Definition verifyChangeset (now : Z) (id : string) (diff : (nat * nat) + string)
    (tests : (bool * string * string) + string) (s : session) : session * (bool * list verification) :=
  let s := emit_to id EventType.VERIFICATION_STARTED "" s in
  let records := default [] (mget (s_verifications s) id) in
  let d := match diff with
           | inl (a, d) => verificationRecord now VerificationKind.DIFF_INSPECTION true
               (string_of_Z (Z.of_nat a) ++ " additions, " ++ string_of_Z (Z.of_nat d) ++ " deletions") [] 0
           | inr err => verificationRecord now VerificationKind.DIFF_INSPECTION false ("diff unavailable: " ++ slice0 200 err) [] 0
           end in
  let t := match tests with
           | inl (true, _, ref) => verificationRecord now VerificationKind.TESTS true "tests passed" [ref] 0
           | inl (false, err, ref) => verificationRecord now VerificationKind.TESTS false ("tests failed: " ++ slice0 300 err) [ref] 0
           | inr err => verificationRecord now VerificationKind.TESTS false ("verification error: " ++ slice0 300 err) [] 0
           end in
  let records := (records ++ [d; t])%list in
  let failed := filter (λ v, vr_passed v = false) (slice_last 2 records) in
  let s := s <| s_verifications ::= λ m, mset m id (slice_last 50 records) |> in
  (emit_to id (if decide (failed = []) then EventType.VERIFICATION_PASSED else EventType.VERIFICATION_FAILED) "" s,
   (bool_decide (failed = []), slice_last 2 records)).

Definition applied_changesets (s : session) (id : string) : nat :=
  length (filter (λ c, cs_runId c = id ∧ Changesets.status c = ChangesetStatus.APPLIED) (mvalues (changesets (s_sys s)))).

Definition last_assistant (r : run) : option string :=
  m_content <$> last (filter (λ m, m_role m = Assistant) (messages (ct r))).

(** The result is built from the live run; its control record, and with it the
    last answer, is found in the history too. *)
(* [src/backend/src/execution/controller.js:792-824] buildResult *)
Definition reportResult (id : string) (s : session) : agent_result :=
  let live := if isActiveRun (s_reg s) id then view (s_reg s) id else None in
  let answer := getRun (s_reg s) id ≫= last_assistant in
  Recovery.buildResult ((λ r, RuntimeState.status (rt r)) <$> live)
    (applied_changesets s id) (bool_decide (is_Some answer))
    (default "" ((λ r, TaskState.objective (task (rt r))) <$> live)) (slice0 2000 (default "" answer))
    (default [] (mget (s_verifications s) id)).

(** * Properties *)

(** ** Workspaces *)

Fixpoint every (f : ascii → bool) (s : string) : bool :=
  match s with EmptyString => true | String c s' => f c && every f s' end.

Lemma every_safe s : every safe_char (map_chars (λ c, if safe_char c then c else "_"%char) s) = true.
Proof. induction s as [|c s IH]; [done|]. simpl. rewrite IH, andb_true_r. by destruct (safe_char c) eqn:E. Qed.

Lemma every_slice f n s : every f s = true → every f (slice0 n s) = true.
Proof.
  unfold slice0. revert s. induction n as [|n IH]; intros s; [by destruct s|].
  destruct s as [|c s]; [done|]. simpl. intros [-> H]%andb_true_iff. simpl. by apply IH.
Qed.

Lemma map_chars_id f s : every (λ c, bool_decide (f c = c)) s = true → map_chars f s = s.
Proof. induction s as [|c s IH]; [done|]. simpl. intros [->%bool_decide_eq_true H]%andb_true_iff. by rewrite IH. Qed.

Lemma every_plain s : s ≠ "" → every safe_char s = true → plain s.
Proof.
  intros Hn He. split; [done|]. split; [by intros ->|]. split; [by intros ->|]. clear Hn.
  induction s as [|c s IH]; [done|]. simpl in He. apply andb_true_iff in He as [Hc He].
  change (String.prefix "/" (String c s) || contains "/" s = false). rewrite (IH He), orb_false_r.
  cbn [String.prefix]. destruct (ascii_dec "/" c) as [<-|]; [by vm_compute in Hc|done].
Qed.

Lemma safe_plain v fallback : truthy_str fallback = true → plain (safe v fallback).
Proof.
  intros Hf. apply every_plain; [|apply every_slice, every_safe].
  unfold safe. assert (or_str (default "" v) fallback ≠ "") as Hn.
  { unfold or_str. destruct (truthy_str (default "" v)) eqn:E; intros H; by rewrite H in *. }
  by destruct (or_str (default "" v) fallback).
Qed.

(** In production every run has a directory of its own below the base
    workspace: whatever the organisation, project and run ids contain - slashes,
    dots, nothing at all - [workspaceFor] appends exactly three plain names to
    the base, so it never leaves it, and two runs whose ids consist of the
    accepted characters share a directory only if the ids are equal. *)
Theorem workspaces_isolated base org proj run :
  segments base ≠ [] → render_path (segments base) = base →
  let ws := workspaceFor true base org proj run in
  inside_root base ws = true ∧ ws ≠ base ∧
  (∃ o p r, plain o ∧ plain p ∧ plain r ∧ segments ws = (segments base ++ [o; p; r])%list) ∧
  (∀ org' proj' run' a b, run = Some a → run' = Some b → truthy_str a = true → truthy_str b = true →
     every safe_char a = true → every safe_char b = true → (String.length a ≤ 100)%nat → (String.length b ≤ 100)%nat →
     workspaceFor true base org' proj' run' = ws → a = b).
Proof.
  intros Hs Hbase ws.
  set (names := λ o p r, [safe o "unassigned-org"; safe p "unassigned-project"; safe r "run"]).
  assert (∀ o p r, Forall plain (names o p r)) as Hpl.
  { intros o p r. repeat constructor; by apply safe_plain. }
  assert (∀ o p r, segments (workspaceFor true base o p r) = (segments base ++ names o p r)%list) as Hseg.
  { intros o p r. unfold workspaceFor, path_join. cbn [negb].
    change (segments (render_path (foldl push_segment (segments base) (names o p r))) = (segments base ++ names o p r)%list).
    rewrite (fold_plain _ _ (Hpl o p r)), segments_render; [done|].
    apply Forall_app. split; [apply segments_plain|apply Hpl]. }
  assert (∀ o p r, workspaceFor true base o p r = render_path (segments base ++ names o p r)) as Hws.
  { intros o p r. unfold workspaceFor, path_join. cbn [negb]. f_equal. apply (fold_plain _ _ (Hpl o p r)). }
  split_and!.
  - unfold ws. rewrite Hws, <-Hbase at 1. apply inside_root_spec; [apply segments_plain| |].
    + apply Forall_app. split; [apply segments_plain|apply Hpl].
    + right. split; [done|]. by eexists.
  - intros E. assert (segments ws = segments base) as E' by (by rewrite E). unfold ws in E'. rewrite Hseg in E'.
    apply (f_equal length) in E'. rewrite length_app in E'. simpl in E'. lia.
  - do 3 eexists. split_and!; [| | |exact (Hseg org proj run)]; by apply safe_plain.
  - intros org' proj' run' a b -> -> Ha Hb' Sa Sb La Lb E.
    assert (segments (workspaceFor true base org' proj' (Some b)) = segments ws) as E' by (by rewrite E).
    unfold ws in E'. rewrite !Hseg in E'. apply app_inv_head in E'. injection E' as _ _ E'.
    assert (∀ x, truthy_str x = true → every safe_char x = true → (String.length x ≤ 100)%nat → safe (Some x) "run" = x) as Hid.
    { intros x Hx Sx Lx. unfold safe. assert (or_str (default "" (Some x)) "run" = x) as -> by (unfold or_str; simpl; by rewrite Hx).
      rewrite map_chars_id; [by apply slice0_all|].
      clear -Sx. induction x as [|c x IH]; [done|]. simpl in *. apply andb_true_iff in Sx as [Hc Sx].
      rewrite Hc, (IH Sx), andb_true_r. by apply bool_decide_eq_true. }
    by rewrite (Hid a), (Hid b) in E'.
Qed.

(** ** Changesets *)

Section Apply.
Context (sha256 : string → string) (h : host) (pid : Z) (e : gate_env).

(** The approval that lets [run] apply changeset [cid] at [t]. *)
Definition authorises (run cid : string) (t : Z) (a : approval) : Prop :=
  a_runId a = run ∧ a_actionType a = "apply_patch" ∧ a_status a = ApprovalStatus.APPROVED ∧
  a_consumed a = false ∧ (t < a_expiresAt a)%Z ∧
  binds sha256 (GateArgs run "apply_patch" (apply_params cid) JUndef) a.

Lemma consumed_refused s t0 t1 g id a : mget (approvals s) id = Some a → a_consumed a = true →
  ∃ err, (checkAndConsume sha256 s t0 t1 g id).2 = inr err.
Proof.
  intros Ha Hc. destruct (checkAndConsume sha256 s t0 t1 g id) as [s' [r|err]] eqn:E; [|by eexists].
  exfalso. apply checkAndConsume_ok in E as (r0 & Hr0 & _ & _ & _ & _ & _ & Hf & _).
  unfold sweepExpired in Hr0. change (mget (mmap (expire t0) (approvals s)) id = Some r0) in Hr0.
  rewrite mget_mmap, Ha in Hr0. injection Hr0 as <-. 
  assert (a_consumed (expire t0 a) = a_consumed a) as E by (unfold expire; by case_decide). congruence.
Qed.

Lemma checkAndConsume_stores s t0 t1 g id s' r : checkAndConsume sha256 s t0 t1 g id = (s', inl r) →
  mget (approvals s') id = Some r ∧ a_consumed r = true.
Proof.
  unfold checkAndConsume. destruct (mget (approvals (sweepExpired s t0)) id) as [r0|]; [|done].
  repeat (case_match; try done). intros [= <- <-]. split; [|done].
  apply mget_set_eq.
Qed.

(** C2: the changeset API cannot be used to write around the approval gate. If
    [applyChangeset] touches the files or the changeset store at all, the
    changeset was proposed by this run and either the run's policy lets
    [apply_patch] at the changeset's risk through unasked, which it never does
    at HIGH or CRITICAL risk, or the call presented an approval of this run for
    exactly this changeset that was approved, unexpired and unused - and that
    approval is used up: presenting it again, for any action at any later time,
    is refused. *)
Theorem changeset_apply_gated t_req t0 t1 newId id cid ap s s' res :
  applyChangeset sha256 h pid e t_req t0 t1 newId id cid ap s = (s', res) →
  s_sys s' = s_sys s ∨
  (∃ cs, mget (changesets (s_sys s)) cid = Some cs ∧ cs_runId cs = id ∧
     s_sys s' = (Changesets.apply h sha256 pid cid (Some (e_workspaceFor e id)) (s_sys s)).1 ∧
     ((needsApproval (Some (policyFor e (s_gate s) id).2) (Some apply_definition) (Some (riskLevel cs))).1 = false ∧
        (compareRisk (riskLevel cs) RiskLevel.HIGH < 0)%Z ∨
      ∃ apId a, ap = Some apId ∧
        mget (approvals (sweepExpired (k_approvals (policyFor e (s_gate s) id).1) t0)) apId = Some a ∧
        authorises id cid t1 a ∧
        ∀ t0' t1' g, ∃ err, (checkAndConsume sha256 (k_approvals (s_gate s')) t0' t1' g apId).2 = inr err)).
Proof.
  unfold applyChangeset. destruct (mget (changesets (s_sys s)) cid) as [cs|] eqn:Hcs; [|intros [= <- _]; by left].
  destruct (String.eqb_spec (cs_runId cs) id) as [Hrun|]; [|intros [= <- _]; by left].
  cbn [negb]. destruct (policyFor e (s_gate s) id) as [c pol] eqn:Hpol. cbn [fst snd].
  set (s0 := s <| s_gate := c |>). set (perform := performApply sha256 h pid e id cid).
  assert (∀ s1, s_sys s1 = s_sys s → s_sys (perform s1).1 = (Changesets.apply h sha256 pid cid (Some (e_workspaceFor e id)) (s_sys s)).1
    ∧ s_gate (perform s1).1 = s_gate s1) as Hperf.
  { intros s1 E. unfold perform, performApply. rewrite E. by destruct (Changesets.apply _ _ _ _ _ _) as [sys []]. }
  clearbody perform. destruct ((needsApproval (Some pol) (Some apply_definition) (Some (riskLevel cs))).1) eqn:Hneed.
  - destruct (truthy ap) eqn:Hap; cbn [negb].
    2: { destruct (request _ _ _ _ _) as [st [a|err]]; intros [= <- _]; by left. }
    destruct (checkAndConsume _ _ _ _ _ _) as [st [r|err]] eqn:Hc; [|intros [= <- _]; by left].
    intros E. right. exists cs. split; [done|]. split; [done|].
    match type of E with perform ?x = _ => destruct (Hperf x eq_refl) as [H1 H2] end.
    rewrite E in H1, H2. cbn [fst] in H1, H2. split; [exact H1|]. right.
    destruct ap as [apId|]; [|done]. cbn [default] in Hc. exists apId.
    pose proof (checkAndConsume_stores _ _ _ _ _ _ _ Hc) as [Hst Hcons].
    apply checkAndConsume_ok in Hc as (a & A1 & -> & A3 & A4 & A5 & A6 & A7 & A8).
    exists a. split; [done|]. split; [exact A1|]. split; [by split_and!|].
    intros t0' t1' g. rewrite H2. exact (consumed_refused _ t0' t1' g apId _ Hst Hcons).
  - intros E. right. exists cs. split; [done|]. split; [done|].
    destruct (Hperf s0 eq_refl) as [H1 H2]. rewrite E in H1. split; [exact H1|]. left. split; [done|].
    destruct (decide (0 ≤ compareRisk (riskLevel cs) RiskLevel.HIGH)%Z) as [Hr|]; [|lia].
    by rewrite (needsApproval_dangerous (Some pol) (Some apply_definition) (riskLevel cs) Hr) in Hneed.
Qed.
End Apply.

(** ** Continuing *)

Lemma continued_episode m now newId run msg failed :
  ∃ ep, EpisodeManager.current (EpisodeManager.on_continueRun m now newId run msg failed) run = Some ep ∧
    EpisodeManager.episodeId ep = newId ∧
    EpisodeManager.parentEpisodeId ep = (EpisodeManager.episodeId <$> EpisodeManager.current m run).
Proof.
  unfold EpisodeManager.on_continueRun. cbv zeta.
  set (m1 := match EpisodeManager.current m run with Some _ => _ | None => m end). clearbody m1.
  unfold EpisodeManager.start, EpisodeManager.current at 1, EpisodeManager.list_ at 1. cbn [fst].
  rewrite mget_set_eq. cbn [from_option]. unfold id. rewrite last_snoc. by eexists.
Qed.

(** What a continuation does to the registry is [continue_registry]. *)
Lemma continueRun_registry now gl newId id msg s :
  s_reg (continueRun now gl newId id msg s).1 = continue_registry now gl newId msg id (s_reg s).
Proof.
  unfold continueRun, continue_registry. destruct (bring_back id (s_reg s)) as [g|]; [|done].
  change (s_reg (s <| s_reg := g |>)) with g.
  destruct (getRun g id) as [r|]; [|done]. destruct (running (ct r)); [done|]. by destruct (startRun _ _ _ _).
Qed.

(** A finished run continues as the same run. Whatever it ended as -
    completed, failed or cancelled - continuing a run of the history succeeds:
    the run leaves the history for the live maps under the same id, its status
    and machine are RETRYING (the machine is reset where the table has no edge,
    after a cancellation), it is executing with its abort flags cleared, its
    episodes are the old ones with the last one closed and a new one after it
    that names it as its parent, and the maps keep their invariant. *)
Theorem continue_reopens now gl newId id msg s e r :
  reg_ok (s_reg s) → flags_ok (s_reg s) →
  mget (terminalRuns (s_reg s)) id = Some e → getRun (s_reg s) id = Some r → running (ct r) = false →
  let '(s', out) := continueRun now gl newId id msg s in
  out = Continued newId ∧ isActiveRun (s_reg s') id = true ∧ isTerminalRun (s_reg s') id = false ∧
  (∃ r', getRun (s_reg s') id = Some r' ∧ RuntimeState.status (rt r') = RETRYING ∧ currentState (machine (ct r')) = RETRYING ∧
     running (ct r') = true ∧ abort (ct r') = false ∧ signal_aborted (ct r') = false) ∧
  (∃ ep, EpisodeManager.current (s_episodes s') id = Some ep ∧ EpisodeManager.episodeId ep = newId ∧
     EpisodeManager.parentEpisodeId ep =
       (EpisodeManager.episodeId <$> EpisodeManager.current (s_episodes s) id)) ∧
  reg_ok (s_reg s') ∧ flags_ok (s_reg s').
Proof.
  intros Hg Hf He Hget Hrun.
  set (g := s_reg s) in *.
  assert (∃ r0, objects g !! id = Some r0 ∧ rt r0 = rt r ∧ ct r0 = ct r) as (r0 & Hr0 & Ert & Ect).
  { unfold getRun, view in Hget. case_decide; [done|]. apply fmap_Some in Hget as (r0 & ? & ->). eauto. }
  destruct (ro_past g Hg id e He) as (r1 & Hr1 & Hs & Ht & Hst). rewrite Hr0 in Hr1. injection Hr1 as <-.
  set (f := λ c : ctrl, c <| abort := false |> <| signal_aborted := false |> <| running := false |>).
  set (g1 := with_ctrl id f (resurrect id g)).
  assert (bring_back id g = Some g1) as Hb by (eapply bring_back_retired; try done; by rewrite Ect).
  set (r1 := at_place Live (r0 <| ct ::= f |>)).
  assert (getRun g1 id = Some r1) as Hg1.
  { unfold getRun, view, g1. rewrite place_resurrect, decide_False by done. cbn. by rewrite lookup_alter_eq, Hr0. }
  assert (run_ok r1) as Hr1 by (by destruct Hs; constructor).
  set (r2 := emit EventType.EPISODE_STARTED newId r1).
  assert (run_ok r2) as Hr2 by (by destruct Hr1; constructor).
  destruct (reopen_ok now r2 Hr2 eq_refl Ht) as (O1 & O2 & O3 & O4 & O5 & O6 & _).
  destruct (start_live now gl msg (reopen now r2) O1 O2 ltac:(unfold terminal; by rewrite O3) ltac:(by rewrite O5))
    as (r3 & E3 & S1 & S2 & S3 & S4 & S5 & S6 & S7 & S8 & _).
  unfold continueRun. fold g. rewrite Hb. cbn [s_reg]. change (s_reg (s <| s_reg := g1 |>)) with g1. rewrite Hg1.
  change (running (ct r1)) with false. cbn iota. fold r2. rewrite E3. cbn [s_reg s_episodes].
  assert (place_of g1 id = Live) as Hp1 by apply place_resurrect.
  assert (maps_ok g1) as Hm1 by (apply resurrect_maps; by destruct Hg).
  assert (∀ k, k ≠ id → objects g1 !! k = objects g !! k) as Hk1 by (intros k Hk; cbn; by apply lookup_alter_ne).
  assert (activeRuns g1 = key_set (activeRuns g) id) as Ha1 by done.
  assert (terminalRuns g1 = mdelete (terminalRuns g) id) as Ht1 by done.
  assert (recoveryInProgress (ct r3) = false) as Hfl.
  { rewrite S7, O6. destruct (recoveryInProgress (ct r0)) eqn:E; [|exact E]. exfalso.
    destruct (Hf id r0 Hr0 E) as [Ha _]; [right; apply mget_Some_keys; eauto|].
    apply (mo_apart g (ro_maps g Hg) id Ha), mget_Some_keys. eauto. }
  assert (RuntimeState.status (rt r3) = RETRYING) as Hst3 by (by rewrite S3).
  clearbody g1 r1 r2. clear Hg1 Hr1 Hr2 O1 O2 O3 O4 O5 O6 E3 S3 S7 S8 Hb.
  destruct (reopened_ok id r3 g (g1 <| objects ::= <[id := r3]> |>) Hg Hf) as [Hg' Hf'].
  { by apply maps_objects. } { done. } { done. } { apply lookup_insert_eq. }
  { intros k Hk. cbn. rewrite lookup_insert_ne by done. auto. }
  { split; [by apply run_synced|]. unfold terminal. by rewrite Hst3. } { done. }
  split; [done|]. split; [by apply bool_decide_eq_true, place_live_iff|].
  split; [apply bool_decide_eq_false; intros H%mget_Some_keys; eapply (mo_apart g1 Hm1 id); [by apply place_live_iff|exact H]|].
  split; [|split; [apply continued_episode|by split]].
  exists (at_place Live r3). split; [by apply getRun_insert|]. split; [exact Hst3|]. split; [|done].
  cbn. rewrite (ro_sync _ S1). exact Hst3.
Qed.

(** ** Pausing *)

Definition run_status (s : session) (id : string) : option TaskStatus.t :=
  (λ r, RuntimeState.status (rt r)) <$> getRun (s_reg s) id.

Lemma at_place_same r : at_place (registered r) r = r.
Proof. by destruct r. Qed.

Lemma move_live id f s r : getRun (s_reg s) id = Some r → registered r = Live → registered (f r) = Live →
  getRun (s_reg (move id f s)) id = Some (f r) ∧ s_pause (move id f s) = s_pause s ∧
  activeRuns (s_reg (move id f s)) = activeRuns (s_reg s).
Proof.
  intros Hget Hp Hfp. assert (view (s_reg s) id = Some r ∧ place_of (s_reg s) id = Live) as [Hv Hpl].
  { unfold getRun in Hget. case_decide; [done|]. split; [done|]. unfold view in Hget.
    apply fmap_Some in Hget as (r0 & _ & ->). exact Hp. }
  unfold move. rewrite Hv. split; [|done]. etrans; [by apply (getRun_insert (s_reg s) id (f r))|].
  by rewrite <-Hfp, at_place_same.
Qed.

Lemma pausable s : s ∈ [EXECUTING; OBSERVING; WAITING_FOR_TOOL] → PAUSING ∈ STATE_TRANSITIONS s.
Proof. intros H. repeat (apply elem_of_cons in H as [->|H]; [by apply (bool_decide_unpack _); vm_compute|]). by apply not_elem_of_nil in H. Qed.

Lemma pause_move_live now r : run_ok r → registered r = Live → RuntimeState.status (rt r) ∈ [EXECUTING; OBSERVING; WAITING_FOR_TOOL] →
  let r' := pause_move now r in run_ok r' ∧ registered r' = Live ∧ RuntimeState.status (rt r') = PAUSING.
Proof.
  intros Hr Hp Hs. unfold pause_move. rewrite decide_True by done.
  destruct (try_legal now PAUSING r Hr Hp (pausable _ Hs)) as ([H1 H2 H3] & Hp' & Hs').
  split; [by constructor|done].
Qed.

Lemma hold_move_live now r : run_ok r → registered r = Live → RuntimeState.status (rt r) = PAUSING →
  let r' := hold_move now r in run_ok r' ∧ registered r' = Live ∧ RuntimeState.status (rt r') = PAUSED.
Proof.
  intros Hr Hp Hs. unfold hold_move. rewrite decide_True by done.
  destruct (try_legal now PAUSED r Hr Hp ltac:(rewrite Hs; left)) as ([H1 H2 H3] & Hp' & Hs').
  split; [by constructor|done].
Qed.

Lemma resume_move_place now r : registered r = Live → run_ok r →
  RuntimeState.status (rt r) = PAUSED → registered (resume_move now r) = Live.
Proof.
  intros Hp Hr Hs. unfold resume_move. rewrite decide_True by done. cbv zeta. unfold getState.
  rewrite (decide_True (P := currentState (machine (ct r)) = PAUSED)) by (by rewrite (ro_sync _ Hr)).
  destruct (try_legal now RESUMING r Hr Hp ltac:(rewrite Hs; right; left)) as (H1 & H2 & H3).
  rewrite decide_True by (left; by rewrite (ro_sync _ H1)).
  destruct (try_legal now EXECUTING _ H1 H2 ltac:(rewrite H3; left)) as (_ & ? & _). done.
Qed.

Lemma pauseRun_from now id s : PauseController.state (s_pause s) id = PauseState.RUNNING →
  ∃ p, (pauseRun now id s).1 = move id (pause_move now) (s <| s_pause := p |>) ∧
    mget (PauseController.states p) id = Some PauseState.PAUSING.
Proof.
  intros H. unfold pauseRun, PauseController.requestPause. rewrite H.
  rewrite (decide_False (P := PauseState.RUNNING ≠ PauseState.RUNNING)) by (intros Hn; by apply Hn).
  rewrite (decide_True (P := PauseState.PAUSING = PauseState.PAUSING)) by reflexivity.
  eexists. split; [reflexivity|]. apply mget_set_eq.
Qed.

Lemma hold_from now id s : mget (PauseController.states (s_pause s)) id = Some PauseState.PAUSING →
  ∃ p, holdForPause now id s = move id (hold_move now) (s <| s_pause := p |>) ∧
    mget (PauseController.states p) id = Some PauseState.PAUSED.
Proof.
  intros H. unfold holdForPause, PauseController.settlePause. rewrite (decide_True (P := _ = Some PauseState.PAUSING)) by exact H.
  rewrite (decide_True (P := PauseState.PAUSED = PauseState.PAUSED)) by reflexivity.
  eexists. split; [reflexivity|]. apply mget_set_eq.
Qed.

Lemma resume_from now id s : mget (PauseController.states (s_pause s)) id = Some PauseState.PAUSED →
  isActiveRun (s_reg s) id = true →
  ∃ p q, (resumeRun now id s).1 = move id (resume_move now) (s <| s_pause := p |> <| s_pause := q |>) ∧
    mget (PauseController.states q) id = Some PauseState.RUNNING.
Proof.
  intros H Ha. unfold resumeRun, PauseController.requestResume.
  assert (PauseController.state (s_pause s) id = PauseState.PAUSED) as Hs by (unfold PauseController.state; by rewrite H).
  rewrite Hs, decide_False by (intros [Hn _]; by apply Hn). cbn [fst snd]. rewrite Ha, bool_decide_true by reflexivity.
  cbn [andb]. set (p := (PauseController.set_state (s_pause s) id PauseState.RESUMING) <| PauseController.requested ::= λ r, r ∖ {[id]} |>).
  assert (mget (PauseController.states p) id = Some PauseState.RESUMING) as Hp by apply mget_set_eq.
  unfold PauseController.settleResume. change (s_pause (s <| s_pause := p |>)) with p.
  rewrite (decide_True (P := _ = Some PauseState.RESUMING)) by exact Hp.
  exists p. eexists. split; [reflexivity|]. apply mget_set_eq.
Qed.

Lemma reg_pause s p : s_reg (s <| s_pause := p |>) = s_reg s.
Proof. reflexivity. Qed.

(** The pause protocol and the life of the run move together. Pausing a live
    run that executes takes both the pause controller and the run to PAUSING;
    the next tool boundary takes both to PAUSED, where the tool call is held; a
    resume takes the controller back to RUNNING and the run to EXECUTING, from
    whichever of the three executing states it was paused in. *)
Theorem pause_cycle t1 t2 t3 id s r :
  reg_ok (s_reg s) → getRun (s_reg s) id = Some r → registered r = Live →
  RuntimeState.status (rt r) ∈ [EXECUTING; OBSERVING; WAITING_FOR_TOOL] →
  PauseController.state (s_pause s) id = PauseState.RUNNING →
  let s1 := (pauseRun t1 id s).1 in
  let s2 := holdForPause t2 id s1 in
  let s3 := (resumeRun t3 id s2).1 in
  (PauseController.state (s_pause s1) id = PauseState.PAUSING ∧ run_status s1 id = Some PAUSING) ∧
  (PauseController.isPaused (s_pause s2) id = true ∧ run_status s2 id = Some PAUSED) ∧
  (PauseController.state (s_pause s3) id = PauseState.RUNNING ∧ run_status s3 id = Some EXECUTING).
Proof.
  intros Hg Hget Hp Hs Hst.
  assert (view (s_reg s) id = Some r) as Hv by (unfold getRun in Hget; by case_decide).
  destruct (view_ok _ id r Hg Hv ltac:(congruence)) as [Hr _].
  destruct (pause_move_live t1 r Hr Hp Hs) as (P1 & P2 & P3).
  destruct (hold_move_live t2 _ P1 P2 P3) as (H1 & H2 & H3).
  pose proof (resume_move_place t3 _ H2 H1 H3) as R2.
  pose proof (resume_pausing t3 _ H1 H2 ltac:(by right)) as R3.
  cbv zeta.
  destruct (pauseRun_from t1 id s Hst) as (p1 & -> & Hp1).
  destruct (move_live id (pause_move t1) (s <| s_pause := p1 |>) r ltac:(rewrite reg_pause; exact Hget) Hp P2) as (G1 & Q1 & A1).
  generalize dependent (move id (pause_move t1) (s <| s_pause := p1 |>)). intros s1 G1 Q1 A1.
  change (s_pause (s <| s_pause := p1 |>)) with p1 in Q1.
  destruct (hold_from t2 id s1 ltac:(by rewrite Q1)) as (p2 & -> & Hp2).
  destruct (move_live id (hold_move t2) (s1 <| s_pause := p2 |>) _ ltac:(rewrite reg_pause; exact G1) P2 H2) as (G2 & Q2 & A2).
  generalize dependent (move id (hold_move t2) (s1 <| s_pause := p2 |>)). intros s2 G2 Q2 A2.
  change (s_pause (s1 <| s_pause := p2 |>)) with p2 in Q2.
  assert (isActiveRun (s_reg s2) id = true) as Ha2.
  { apply bool_decide_eq_true. rewrite A2. rewrite reg_pause, A1, reg_pause. apply place_live_iff.
    unfold view in Hv. apply fmap_Some in Hv as (? & _ & ->). exact Hp. }
  destruct (resume_from t3 id s2 ltac:(by rewrite Q2) Ha2) as (p3 & p4 & -> & Hp4).
  destruct (move_live id (resume_move t3) (s2 <| s_pause := p3 |> <| s_pause := p4 |>) _ ltac:(rewrite !reg_pause; exact G2) H2 R2) as (G3 & Q3 & _).
  generalize dependent (move id (resume_move t3) (s2 <| s_pause := p3 |> <| s_pause := p4 |>)). intros s3 G3 Q3.
  change (s_pause (s2 <| s_pause := p3 |> <| s_pause := p4 |>)) with p4 in Q3.
  unfold run_status, PauseController.isPaused, PauseController.state.
  rewrite Q1, G1, Q2, G2, Q3, G3, Hp1, Hp2, Hp4. cbn [fmap option_fmap option_map from_option]. rewrite P3, H3, R3.
  split_and!; reflexivity.
Qed.

(** ** The reported result *)

(** The result API never reports a finished task. A run that completes
    leaves the live maps in the same step, and [buildResult] reads the status of
    live runs only: in every reachable state of the maps the reported status is
    FAILED, MODEL_STOPPED or UNKNOWN, and for a run that has COMPLETED it is
    MODEL_STOPPED if the model ever answered and UNKNOWN otherwise - never
    TASK_COMPLETED, whatever was verified. *)
Theorem completion_never_reported global n m l s id : (0 < n)%nat →
  trace global l (empty_registry n m) (s_reg s) →
  ar_status (reportResult id s) ∈ ["FAILED"; "MODEL_STOPPED"; "UNKNOWN"] ∧
  (∀ r, getRun (s_reg s) id = Some r → RuntimeState.status (rt r) = COMPLETED →
     ar_status (reportResult id s) = if last_assistant r is Some _ then "MODEL_STOPPED" else "UNKNOWN").
Proof.
  intros Hn Ht. destruct (trace_ok _ _ _ _ Ht (empty_ok n m Hn)) as [Hg _].
  assert (∀ r, isActiveRun (s_reg s) id = true → view (s_reg s) id = Some r →
    RuntimeState.status (rt r) ≠ COMPLETED ∧ RuntimeState.status (rt r) ≠ CANCELLED) as Hlive.
  { intros r Ha%bool_decide_eq_true%place_live_iff Hv.
    assert (registered r = Live) as Hp by (unfold view in Hv; apply fmap_Some in Hv as (? & _ & ->); exact Ha).
    destruct (view_ok _ _ _ Hg Hv ltac:(by rewrite Hp)) as [_ Hf].
    split; intros E; specialize (Hf Hp ltac:(unfold terminal; by rewrite E)); congruence. }
  unfold reportResult, Recovery.buildResult, agentResult. cbn [ar_status].
  destruct (isActiveRun (s_reg s) id) eqn:Ha.
  - destruct (view (s_reg s) id) as [r|] eqn:Hv; cbn [fmap option_fmap option_map].
    + destruct (Hlive r eq_refl eq_refl) as [H1 H2].
      rewrite !(decide_False (P := Some (RuntimeState.status (rt r)) = Some COMPLETED)) by congruence.
      rewrite (decide_False (P := Some (RuntimeState.status (rt r)) = Some CANCELLED)) by congruence.
      split.
      * case_decide; [by left|]. case_bool_decide; [right; by left|right; right; by left].
      * intros r' Hr' Hc. exfalso. unfold getRun in Hr'. case_decide; [done|]. rewrite Hv in Hr'.
        injection Hr' as <-. done.
    + split; [repeat case_decide; try done; case_bool_decide; [right; by left|right; right; by left]|].
      intros r Hr. unfold getRun in Hr. rewrite Hv in Hr. by case_decide.
  - cbn [fmap option_fmap option_map]. rewrite !decide_False by done. split.
    + case_bool_decide; [right; by left|right; right; by left].
    + intros r Hr _. rewrite Hr. cbn [mbind option_bind]. destruct (last_assistant r).
      * by rewrite bool_decide_true by eauto.
      * by rewrite bool_decide_false by (by intros [??]).
Qed.

(** ** Concrete sessions *)

Definition session_of (g : registry) : session :=
  Session g (Controller (new_store None None) [] []) [] PauseController.empty (Sys [] ∅ []) [].
Definition plain_env : gate_env := GateEnv false None (λ _, "/w") (λ _ _, true).

Lemma workspaces_isolated_witness :
  inside_root "/srv/ws" (workspaceFor true "/srv/ws" (Some "../..") (Some "a/b") (Some "run-1")) = true ∧
  (workspaceFor true "/srv/ws" None None (Some "run-1") = workspaceFor true "/srv/ws" (Some "../..") (Some "a/b") (Some "run-1") →
   "run-1" = "run-1").
Proof.
  destruct (workspaces_isolated "/srv/ws" (Some "../..") (Some "a/b") (Some "run-1")
    ltac:(vm_compute; discriminate) ltac:(vm_compute; reflexivity)) as (H & _ & _ & Hr).
  split; [exact H|].
  apply (Hr None None (Some "run-1") "run-1" "run-1"); vm_compute; first [reflexivity|lia|auto 200].
Defined.

Lemma continue_reopens_witness :
  (continueRun 7 default_cfg "ep-1" "a" "go on" (session_of reg2)).2 = Continued "ep-1".
Proof.
  destruct (trace_ok _ _ _ _ trace_reg2 (empty_ok 1 1 ltac:(lia))) as [Hg Hf].
  pose proof (continue_reopens 7 default_cfg "ep-1" "a" "go on" (session_of reg2) (Entry 2 FAILED)
    (default demo_run (getRun reg2 "a")) Hg Hf ltac:(vm_compute; reflexivity) ltac:(vm_compute; reflexivity)
    ltac:(vm_compute; reflexivity)) as H.
  destruct (continueRun 7 default_cfg "ep-1" "a" "go on" (session_of reg2)) as [s' out].
  exact (proj1 H).
Defined.

Lemma completion_never_reported_witness :
  ar_status (reportResult "a" (session_of reg2)) ∈ ["FAILED"; "MODEL_STOPPED"; "UNKNOWN"] ∧
  ar_status (reportResult "a" (session_of reg2)) = "UNKNOWN".
Proof.
  split; [|vm_compute; reflexivity].
  exact (proj1 (completion_never_reported default_cfg 1 1 _ (session_of reg2) "a" ltac:(lia) trace_reg2)).
Defined.

(** A registry whose only run executes. *)
Definition executing_reg : registry := reg1 <| objects ::= <["a" := demo_executing]> |>.

Lemma trace_reg1 : trace default_cfg [ACreate "a"] reg0 reg1.
Proof. eapply tr_cons; [apply (st_create default_cfg 1 "a"); vm_compute; reflexivity|apply tr_nil]. Qed.

Lemma executing_reg_ok : reg_ok executing_reg.
Proof.
  destruct (trace_ok _ _ _ _ trace_reg1 (empty_ok 1 1 ltac:(lia))) as [Hg _].
  apply reg_write; [exact Hg| |].
  - intros _. destruct demo_executing_ok as [[H1 H2 _] _ _ _]. split; [by split|].
    assert (terminal demo_executing = false) as -> by (vm_compute; reflexivity). done.
  - intros e He. assert (mget (terminalRuns reg1) "a" = None) as E by (vm_compute; reflexivity).
    by rewrite E in He.
Qed.

Lemma pause_cycle_witness :
  let s1 := (pauseRun 5 "a" (session_of executing_reg)).1 in
  run_status (resumeRun 7 "a" (holdForPause 6 "a" s1)).1 "a" = Some EXECUTING.
Proof.
  destruct (pause_cycle 5 6 7 "a" (session_of executing_reg) (default demo_run (getRun executing_reg "a"))
    executing_reg_ok ltac:(vm_compute; reflexivity) ltac:(vm_compute; reflexivity)
    ltac:(apply (bool_decide_unpack _); vm_compute; exact I) ltac:(vm_compute; reflexivity)) as (_ & _ & _ & H).
  exact H.
Defined.

(** Resuming a run that has ended leaves its pause state RESUMING for good: when
    the run is continued, it can no longer be paused. *)
Definition ended_while_pausing : session :=
  let s := (pauseRun 5 "a" (session_of executing_reg)).1 in
  let r := default demo_run (view (s_reg s) "a") in
  s <| s_reg := commit 6 "a" r (failRun 6 boom r) (s_reg s) |>.

Example resume_after_end_disables_pause :
  let s := (resumeRun 7 "a" ended_while_pausing).1 in
  let s := (continueRun 8 default_cfg "ep-1" "a" "go on" s).1 in
  run_status s "a" = Some RETRYING ∧ (pauseRun 9 "a" s).2 = PauseState.RESUMING ∧
  run_status (pauseRun 9 "a" s).1 "a" = Some RETRYING.
Proof. vm_compute. done. Qed.

(** Cancelling a run clears [running] after 25 ms whether or not its loop has
    returned; the run can then be continued, which starts a second loop with the
    abort flag cleared while the first one is still suspended. *)
Example continue_starts_second_loop :
  let r := match startRun 5 default_cfg "go" (demo_executing <| ct ::= λ c, c <| running := false |> |>) with
           | Ok r => r | Throw _ => demo_run end in
  let g := executing_reg <| objects ::= <["a" := r]> |> in
  let r' := (cancel_request r).2 in
  let g := commit 30 "a" r' (cancel_force 30 "User cancelled" r') g in
  let '(s, out) := continueRun 31 default_cfg "ep-1" "a" "again" (session_of g) in
  running (ct r) = true ∧ isTerminalRun g "a" = true ∧ out = Continued "ep-1" ∧ run_status s "a" = Some RETRYING.
Proof. vm_compute. done. Qed.

(** A changeset is rolled back on behalf of any run. *)
Example rollback_of_another_run :
  let s := (session_of reg1) <| s_sys := applied |> in
  (∃ r, (rollbackChangeset id sample_host 7 plain_env "other-run" "cs-1" s).2 = Ok (RolledBack ["x"] r) ∧
     cs_runId r ≠ "other-run").
Proof. eexists. vm_compute. split; [reflexivity|discriminate]. Qed.

(** A changeset proposed, asked about, approved and applied. *)
Definition proposed_session : session := (session_of reg1) <| s_sys := proposed |>.
Definition asked_session : session :=
  (applyChangeset id sample_host 7 plain_env 1 1 1 "ap-1" "run-1" "cs-1" None proposed_session).1.
Definition approved_session : session :=
  asked_session <| s_gate ::= λ c, (decideApproval c 2 2 "run-1" "ap-1" "approve").1 |>.
Definition applied_session : session * applied_result :=
  applyChangeset id sample_host 7 plain_env 3 3 3 "ap-2" "run-1" "cs-1" (Some "ap-1") approved_session.

Lemma changeset_apply_gated_witness :
  (∃ r, applied_session.2 = ApplyOk r) ∧
  (∃ err, (checkAndConsume id (k_approvals (s_gate applied_session.1)) 4 4
     (GateArgs "run-1" "apply_patch" (apply_params "cs-1") JUndef) "ap-1").2 = inr err).
Proof.
  split; [eexists; vm_compute; reflexivity|].
  destruct (changeset_apply_gated id sample_host 7 plain_env 3 3 3 "ap-2" "run-1" "cs-1" (Some "ap-1") approved_session
    applied_session.1 applied_session.2 ltac:(vm_compute; reflexivity))
    as [E|(cs & _ & _ & _ & [[E _]|(apId & a & [= <-] & _ & _ & H)])].
  - exfalso. apply (f_equal (λ s, Changesets.status <$> mget (changesets s) "cs-1")) in E. vm_compute in E. discriminate.
  - exfalso. vm_compute in E. discriminate.
  - exact (H 4%Z 4%Z (GateArgs "run-1" "apply_patch" (apply_params "cs-1") JUndef)).
Defined.
