(* ===== verification/Performance.v ===== *)
(** Empirical performance of models (backend/src/intelligence/performance-store.js):
    what has been observed of a model on a category of tasks, per organization,
    and the history of routing decisions.

    [Math.round], rates and latencies are binary64; attempts and successes are
    integers. The instants [new Date().toISOString()] reads are passed in. *)

From S2P Require Import Prelude JsMap JsValue Number Sorting NumberOrder Text.

Local Open Scope string_scope.
Local Open Scope js_scope.

(* [src/backend/src/intelligence/performance-store.js:22-27] constants *)
Definition MIN_SAMPLES_FOR_OBSERVED : Z := 3.
Definition DEFAULT_PRIOR_SUCCESS : num := ratio 7 10.
Definition DEFAULT_PRIOR_SAMPLES : num := of_Z 4.
Definition DEFAULT_ALPHA : num := ratio 2 10.
Definition MAX_LATENCY_SAMPLES : nat := 40.
Definition MAX_HISTORY : nat := 300.

(** [Math.round(x * 1000) / 1000] *)
Definition round3 (x : num) : num := ndiv (nround (nmul x (of_Z 1000))) (of_Z 1000).

(** [Number.isFinite(Number(v))] *)
Definition finite_val (v : jsnum) : bool := isFinite (to_number v).

(** Finite and not negative. *)
Definition amount (x : num) : bool := isFinite x && nle nzero x.

(* [src/backend/src/intelligence/performance-store.js:29-32] clamp01 *)
Definition clamp01 (x : num) : num := if isFinite x then nmax nzero (nmin (of_Z 1) x) else nzero.

(** ** Latencies *)

(** The index into [n] sorted samples. *)
(* [src/backend/src/intelligence/performance-store.js:34-38] percentile *)
Definition percentile_index (n : nat) (p : Z) : nat :=
  Z.to_nat (Z.min (Z.of_nat n - 1)
    (Z.max 0 (to_Z_floor (nceil (nmul (ndiv (of_Z p) (of_Z 100)) (of_Z (Z.of_nat n)))) - 1))).
Definition percentile (sorted : list num) (p : Z) : option num := sorted !! percentile_index (length sorted) p.

Record stats := Stats { s_count : nat; s_p50 : option num; s_p75 : option num; s_p95 : option num; s_mean : option num }.

(** [a - b] as a comparator. *)
Definition ascending (a b : num) : bool := nlt (nsub a b) nzero.

(* [src/backend/src/intelligence/performance-store.js:40-51] latencyStats *)
Definition latencyStats (samples : list num) : stats :=
  let nums := js_sort ascending (List.filter amount samples) in
  match nums with
  | [] => Stats 0 None None None None
  | _ =>
      let mean := nround (ndiv (foldl nadd nzero nums) (of_Z (Z.of_nat (length nums)))) in
      Stats (length nums) (percentile nums 50) (percentile nums 75) (percentile nums 95) (Some mean)
  end.

(* [src/backend/src/intelligence/performance-store.js:53-58] confidenceFor *)
Inductive confidence := c_high | c_medium | c_low | c_none.
#[export] Instance confidence_eq_dec : EqDecision confidence.
Proof. solve_decision. Defined.
Definition confidenceFor (n : Z) : confidence :=
  if (100 <=? n)%Z then c_high else if (20 <=? n)%Z then c_medium
  else if (MIN_SAMPLES_FOR_OBSERVED <=? n)%Z then c_low else c_none.

(** ** Workloads *)

(* [src/backend/src/intelligence/performance-store.js:65-71] contextBucket *)
Definition contextBucket (contextTokens : jsnum) : option string :=
  let n := to_number contextTokens in
  if negb (isFinite n) || nlt n nzero then None
  else if nle n (of_Z 2000) then Some "s"
  else if nle n (of_Z 16000) then Some "m" else Some "l".

(** A list of tool names, or a text; [NoTools] for the absent values. *)
Inductive tool_profile := NoTools | ToolNames (l : list string) | ToolText (s : string).

(* [src/backend/src/intelligence/performance-store.js:73-80] toolProfileKey *)
Definition toolProfileKey (t : tool_profile) : option string :=
  match t with
  | NoTools | ToolText "" => None
  | ToolNames l =>
      match js_sort String.ltb (List.filter truthy_str l) with
      | [] => Some "tools:none"
      | names => Some ("tools:" ++ js_join "," names)
      end
  | ToolText s => Some ("tools:" ++ slice0 120 s)
  end.

(* [src/backend/src/intelligence/performance-store.js:82-87] workloadKey *)
Definition workloadKey (contextTokens : jsnum) (tools : tool_profile) : option string :=
  match contextBucket contextTokens, toolProfileKey tools with
  | None, None => None
  | c, t => Some (default "ctx:?" c ++ "|" ++ default "tools:?" t)
  end.

(** ** The store *)

(** Attempts and successes. *)
Record tally := Tally { t_attempts : Z; t_successes : Z }.
#[export] Instance tally_eta : Eta tally := λ t, Tally (t_attempts t) (t_successes t).
Definition no_tally : tally := Tally 0 0.
Definition count_in (success : bool) (t : tally) : tally :=
  Tally (t_attempts t + 1) (t_successes t + if success then 1 else 0).

(* [src/backend/src/intelligence/performance-store.js:130-139] record *)
Record perf := Perf {
  r_modelId : string;
  r_category : string;
  r_tenantId : option string;
  r_tally : tally;
  r_qualityEwma : option num;
  r_latencySamples : list num;
  r_lastUpdated : option Z;
  r_workloads : jsmap string tally;
}.
#[export] Instance perf_eta : Eta perf := λ r,
  Perf (r_modelId r) (r_category r) (r_tenantId r) (r_tally r) (r_qualityEwma r) (r_latencySamples r)
    (r_lastUpdated r) (r_workloads r).

(* [src/backend/src/intelligence/performance-store.js:188-188] rel *)
Record rel := Rel {
  l_modelId : string;
  l_tenantId : option string;
  l_samples : Z;
  l_failures : Z;
  l_byError : jsmap string Z;
}.

(* [src/backend/src/intelligence/performance-store.js:102-114] ModelPerformanceStore *)
Record store := Store {
  priorSuccess : num;
  priorSamples : num;
  alpha : num;
  records : jsmap string perf;
  reliability : jsmap string rel;
}.
#[export] Instance store_eta : Eta store := λ s,
  Store (priorSuccess s) (priorSamples s) (alpha s) (records s) (reliability s).

(* [src/backend/src/intelligence/performance-store.js:103-114] constructor *)
Definition new_store (success samples a : option num) : store :=
  let pick d (v : option num) := match v with Some n => if isFinite n then n else d | None => d end in
  Store (pick DEFAULT_PRIOR_SUCCESS success) (pick DEFAULT_PRIOR_SAMPLES samples) (pick DEFAULT_ALPHA a) [] [].

(* [src/backend/src/intelligence/performance-store.js:116-120] _tenant *)
Definition tenant_of (t : option string) : string := slice0 128 (default "" t).

(** [category || 'general'] *)
Definition category_of (c : option string) : string := or_str (default "" c) "general".

(* [src/backend/src/intelligence/performance-store.js:122-124] _key *)
Definition key_of (modelId : string) (category tenant : option string) : string :=
  modelId ++ "::" ++ tenant_of tenant ++ "::" ++ category_of category.
Definition rel_key (modelId : string) (tenant : option string) : string :=
  modelId ++ "::" ++ tenant_of tenant.

(** [s || null] *)
Definition or_null (s : string) : option string := if truthy_str s then Some s else None.

(* [src/backend/src/intelligence/performance-store.js:126-144] _record *)
Definition record_of (s : store) (modelId : string) (category tenant : option string) : perf :=
  default (Perf modelId (category_of category) (or_null (tenant_of tenant)) no_tally None [] None [])
    (mget (records s) (key_of modelId category tenant)).

(** [success] is [None] when there is no evidence of the outcome. *)
Record outcome := Outcome {
  o_success : option bool;
  o_qualityScore : jsnum;
  o_latencyMs : jsnum;
  o_errorCode : option string;
  o_contextTokens : jsnum;
  o_toolProfile : tool_profile;
  o_tenantId : option string;
  o_orgId : option string;
}.

Definition tenant_in (o : outcome) : option string :=
  match o_tenantId o with Some t => Some t | None => or_null (default "" (o_orgId o)) end.

Definition count_outcome (o : outcome) (r : perf) : perf :=
  match o_success o with
  | None => r
  | Some b =>
      let r := r <| r_tally ::= count_in b |> in
      match workloadKey (o_contextTokens o) (o_toolProfile o) with
      | Some k => r <| r_workloads ::= λ w, mset w k (count_in b (default no_tally (mget w k))) |>
      | None => r
      end
  end.

Definition quality_in (a : num) (o : outcome) (r : perf) : perf :=
  if finite_val (o_qualityScore o) then
    let q := clamp01 (to_number (o_qualityScore o)) in
    r <| r_qualityEwma ::= λ e, Some (round3 (match e with
         | None => q
         | Some e => nadd (nmul a q) (nmul (nsub (of_Z 1) a) e) end)) |>
  else r.

Definition latency_in (o : outcome) (r : perf) : perf :=
  if amount (to_number (o_latencyMs o)) then
    r <| r_latencySamples ::= λ l,
      slice_last MAX_LATENCY_SAMPLES (l ++ [nround (to_number (o_latencyMs o))])%list |>
  else r.

(* [src/backend/src/intelligence/performance-store.js:184-195] _recordReliability *)
Definition recordReliability (modelId : string) (o : outcome) (tenant : option string) (s : store) : store :=
  let k := rel_key modelId tenant in
  let r := default (Rel modelId (or_null (tenant_of tenant)) 0 0 []) (mget (reliability s) k) in
  let r := match o_success o with
    | Some false =>
        let code := slice0 64 (or_str (default "" (o_errorCode o)) "unknown") in
        Rel (l_modelId r) (l_tenantId r) (l_samples r + 1) (l_failures r + 1)
          (mset (l_byError r) code (default 0%Z (mget (l_byError r) code) + 1)%Z)
    | _ => Rel (l_modelId r) (l_tenantId r) (l_samples r + 1) (l_failures r) (l_byError r)
    end in
  s <| reliability ::= λ m, mset m k r |>.

(* [src/backend/src/intelligence/performance-store.js:150-182] recordOutcome *)
Definition recordOutcome (now : Z) (modelId : string) (category : option string) (o : outcome) (s : store) : store :=
  if negb (truthy_str modelId) then s
  else
    let tenant := tenant_in o in
    let r := record_of s modelId category tenant in
    let r := (latency_in o (quality_in (alpha s) o (count_outcome o r))) <| r_lastUpdated := Some now |> in
    let s := s <| records ::= λ m, mset m (key_of modelId category tenant) r |> in
    if truthy (o_errorCode o) then recordReliability modelId o tenant s else s.

(** ** Estimates *)

(* [src/backend/src/intelligence/performance-store.js:197-201] rawRate *)
Definition rawRate (s : store) (modelId : string) (category tenant : option string) : option num :=
  r ← mget (records s) (key_of modelId category tenant);
  if (t_attempts (r_tally r) <? MIN_SAMPLES_FOR_OBSERVED)%Z then None
  else Some (ndiv (of_Z (t_successes (r_tally r))) (of_Z (t_attempts (r_tally r)))).

Record prediction := Prediction {
  d_predicted : num;
  d_observed : option num;
  d_tally : tally;
  d_confidence : confidence;
  d_workload : option (string * tally);
}.

(** [(successes + prior * weight) / (attempts + weight)] *)
Definition smooth (t : tally) (prior weight : num) : num :=
  ndiv (nadd (of_Z (t_successes t)) (nmul prior weight)) (nadd (of_Z (t_attempts t)) weight).

(* [src/backend/src/intelligence/performance-store.js:212-243] predictedSuccess *)
Definition predictedSuccess (s : store) (modelId : string) (category : option string)
    (workload : option (jsnum * tool_profile)) (tenant : option string) : prediction :=
  let r := mget (records s) (key_of modelId category tenant) in
  let t := from_option r_tally no_tally r in
  let smoothed := smooth t (priorSuccess s) (priorSamples s) in
  let observed := if (MIN_SAMPLES_FOR_OBSERVED <=? t_attempts t)%Z
    then Some (round3 (ndiv (of_Z (t_successes t)) (of_Z (t_attempts t)))) else None in
  let out p w := Prediction p observed t (confidenceFor (t_attempts t)) w in
  match w ← workload; workloadKey w.1 w.2 with
  | None => out (round3 smoothed) None
  | Some k =>
      let slice := r ← r; mget (r_workloads r) k in
      match slice with
      | Some c =>
          if (2 <=? t_attempts c)%Z then out (round3 (smooth c smoothed (of_Z 2))) (Some (k, c))
          else out (round3 smoothed) (Some (k, c))
      | None => out (round3 smoothed) (Some (k, no_tally))
      end
  end.

(* [src/backend/src/intelligence/performance-store.js:245-249] latency *)
Definition latency (s : store) (modelId : string) (category tenant : option string) : stats :=
  latencyStats (from_option r_latencySamples [] (mget (records s) (key_of modelId category tenant))).

(** Samples, rate of failure and failures by code. *)
(* [src/backend/src/intelligence/performance-store.js:251-260] reliabilityFor *)
Definition reliabilityFor (s : store) (modelId : string) (tenant : option string) : option (Z * num * jsmap string Z) :=
  r ← mget (reliability s) (rel_key modelId tenant);
  if (l_samples r <? MIN_SAMPLES_FOR_OBSERVED)%Z then None
  else Some (l_samples r, round3 (ndiv (of_Z (l_failures r)) (of_Z (l_samples r))), l_byError r).

Record description := Description {
  e_prediction : prediction;
  e_qualityEwma : option num;
  e_latency : stats;
  e_reliability : option (Z * num * jsmap string Z);
  e_lastUpdated : option Z;
}.

(* [src/backend/src/intelligence/performance-store.js:262-273] describe *)
Definition describe (s : store) (modelId : string) (category tenant : option string) : description :=
  let r := mget (records s) (key_of modelId category tenant) in
  Description (predictedSuccess s modelId category None tenant) (r ≫= r_qualityEwma)
    (latency s modelId category tenant) (reliabilityFor s modelId tenant) (r ≫= r_lastUpdated).

(* [src/backend/src/intelligence/performance-store.js:278-287] forModel *)
Definition forModel (s : store) (modelId : string) (tenant : option string) : jsmap string description :=
  foldl (λ out (e : string * perf),
      if decide (r_modelId e.2 = modelId) then
        if decide (tenant_of (r_tenantId e.2) = tenant_of tenant) then
          mset out (r_category e.2) (describe s modelId (Some (r_category e.2)) tenant)
        else out
      else out) [] (records s).

(* [src/backend/src/intelligence/performance-store.js:289-295] topCategories *)
Definition topCategories (s : store) (limit : nat) : list (string * Z) :=
  take limit (js_sort (λ a b, (b.2 - a.2 <? 0)%Z)
    (foldl (λ m (e : string * perf),
       mset m (r_category e.2) (default 0 (mget m (r_category e.2)) + t_attempts (r_tally e.2))%Z) [] (records s))).

(** ** Persistence *)

(** A stored record as it comes back: any field may be missing or not a
    number. *)
Record raw_tally := RawTally { w_attempts : jsnum; w_successes : jsnum }.
Record raw_perf := RawPerf {
  w_modelId : option string;
  w_category : option string;
  w_tenantId : option string;
  w_tally : raw_tally;
  w_qualityEwma : jsnum;
  w_latencySamples : option (list jsnum);
  w_lastUpdated : option Z;
  w_workloads : list (string * option raw_tally);
}.
Record raw_rel := RawRel {
  w_rel_modelId : option string;
  w_rel_tenantId : option string;
  w_samples : jsnum;
  w_failures : jsnum;
  w_byError : jsmap string Z;
}.
Record dumped := Dumped {
  w_priorSuccess : jsnum;
  w_priorSamples : jsnum;
  w_alpha : jsnum;
  w_records : list (option raw_perf);
  w_reliability : list (option raw_rel);
}.

(** [Math.max(0, Math.floor(Number(v) || 0))] *)
Definition count_from (v : jsnum) : Z := Z.max 0 (to_Z_floor (or_num (to_number v) nzero)).
Definition tally_from (t : raw_tally) : tally := Tally (count_from (w_attempts t)) (count_from (w_successes t)).

(* [src/backend/src/intelligence/performance-store.js:89-100] sanitizeWorkloads *)
Definition sanitizeWorkloads (raw : list (string * option raw_tally)) : jsmap string tally :=
  foldl (λ out e, match e.2 with
    | Some w => mset out (slice0 160 e.1) (tally_from w)
    | None => out
    end) [] (take 50 raw).

Definition raw_of_tally (t : tally) : raw_tally := RawTally (JNumber (of_Z (t_attempts t))) (JNumber (of_Z (t_successes t))).
Definition raw_of_option (o : option num) : jsnum := match o with Some n => JNumber n | None => JNullish end.

Definition dump_record (r : perf) : raw_perf :=
  RawPerf (Some (r_modelId r)) (Some (r_category r)) (r_tenantId r) (raw_of_tally (r_tally r))
    (raw_of_option (r_qualityEwma r)) (Some (JNumber <$> slice_last MAX_LATENCY_SAMPLES (r_latencySamples r)))
    (r_lastUpdated r) ((λ e, (e.1, Some (raw_of_tally e.2))) <$> r_workloads r).
Definition dump_rel (r : rel) : raw_rel :=
  RawRel (Some (l_modelId r)) (l_tenantId r) (JNumber (of_Z (l_samples r))) (JNumber (of_Z (l_failures r))) (l_byError r).

(* [src/backend/src/intelligence/performance-store.js:297-306] dump *)
Definition dump (s : store) : dumped :=
  Dumped (JNumber (priorSuccess s)) (JNumber (priorSamples s)) (JNumber (alpha s))
    (Some ∘ dump_record <$> mvalues (records s)) (Some ∘ dump_rel <$> mvalues (reliability s)).

(** [Number.isFinite(v)]: only of numbers. *)
Definition finite_number (v : jsnum) : option num :=
  match v with JNumber n => if isFinite n then Some n else None | _ => None end.

Definition load_record (m : jsmap string perf) (raw : option raw_perf) : jsmap string perf :=
  match raw with
  | Some r =>
      if truthy (w_modelId r) then
        let id := default "" (w_modelId r) in
        mset m (key_of id (w_category r) (w_tenantId r))
          (Perf id (category_of (w_category r)) (or_null (default "" (w_tenantId r))) (tally_from (w_tally r))
             (if finite_val (w_qualityEwma r) then Some (clamp01 (to_number (w_qualityEwma r))) else None)
             (slice_last MAX_LATENCY_SAMPLES (omap finite_number (default [] (w_latencySamples r))))
             (w_lastUpdated r) (sanitizeWorkloads (w_workloads r)))
      else m
  | None => m
  end.
Definition load_rel (m : jsmap string rel) (raw : option raw_rel) : jsmap string rel :=
  match raw with
  | Some r =>
      if truthy (w_rel_modelId r) then
        let id := default "" (w_rel_modelId r) in
        mset m (rel_key id (w_rel_tenantId r))
          (Rel id (or_null (tenant_of (w_rel_tenantId r))) (count_from (w_samples r)) (count_from (w_failures r)) (w_byError r))
      else m
  | None => m
  end.

(* [src/backend/src/intelligence/performance-store.js:308-344] load *)
Definition load (d : dumped) (s : store) : store :=
  let pick v d := default d (finite_number v) in
  Store (pick (w_priorSuccess d) (priorSuccess s)) (pick (w_priorSamples d) (priorSamples s))
    (pick (w_alpha d) (alpha s)) (foldl load_record [] (w_records d)) (foldl load_rel [] (w_reliability d)).

(** ** The history of routing decisions *)

Record entry := Entry {
  h_id : string;
  h_ts : Z;
  h_runId : option string;
  h_tenantId : option string;
  h_taskCategory : string;
  h_selectedModel : option string;
  h_candidates : list string;
  h_predictedSuccess : option num;
  h_expectedCostUsd : option num;
  h_outcome : option (option bool);
}.
#[export] Instance entry_eta : Eta entry := λ e,
  Entry (h_id e) (h_ts e) (h_runId e) (h_tenantId e) (h_taskCategory e) (h_selectedModel e) (h_candidates e)
    (h_predictedSuccess e) (h_expectedCostUsd e) (h_outcome e).

(* [src/backend/src/intelligence/performance-store.js:347-351] RoutingHistoryStore *)
Record history := History { h_max : nat; h_entries : list entry }.
(* [src/backend/src/intelligence/performance-store.js:348-351] constructor *)
Definition new_history (max : option nat) : history :=
  History (match max with Some (S n) => S n | _ => MAX_HISTORY end) [].

(** [Number.isFinite(Number(v)) ? Number(v) : null] *)
Definition finite_or_null (v : jsnum) : option num := if finite_val v then Some (to_number v) else None.

(** The id and the instant are given; the candidates are kept by id. *)
(* [src/backend/src/intelligence/performance-store.js:353-373] record *)
Definition record (id : string) (ts : Z) (runId tenantId category selected : option string)
    (candidates : list string) (predicted cost : jsnum) (h : history) : history :=
  let e := Entry id ts runId tenantId (category_of category) selected (take 12 candidates)
    (finite_or_null predicted) (finite_or_null cost) None in
  History (h_max h) (slice_last (h_max h) (h_entries h ++ [e])%list).

(** The number of decisions that got their outcome. *)
(* [src/backend/src/intelligence/performance-store.js:375-384] attachOutcome *)
Definition attachOutcome (runId : string) (o : option bool) (h : history) : nat * history :=
  let hit e := bool_decide (h_runId e = Some runId) && bool_decide (h_outcome e = None) in
  (length (List.filter hit (h_entries h)),
   History (h_max h) ((λ e, if hit e then e <| h_outcome := Some o |> else e) <$> h_entries h)).

(* [src/backend/src/intelligence/performance-store.js:386-388] forRun *)
Definition forRun (runId : string) (h : history) : list entry :=
  List.filter (λ e, bool_decide (h_runId e = Some runId)) (h_entries h).

(* [src/backend/src/intelligence/performance-store.js:390-392] recent *)
Definition recent (limit : Z) (h : history) : list entry :=
  rev (slice_last (Z.to_nat (Z.max 1 (Z.min (Z.of_nat (h_max h)) limit))) (h_entries h)).

(* [src/backend/src/intelligence/performance-store.js:394-394] dump *)
Definition dump_history (h : history) : list entry := slice_last (h_max h) (h_entries h).

(* [src/backend/src/intelligence/performance-store.js:396-400] load *)
Definition load_history (items : list (option entry)) (h : history) : history :=
  History (h_max h) (slice_last (h_max h) (omap id items)).

(** ** Keys *)

Definition no_colon (s : string) : Prop := any_char (Ascii.eqb ":") s = false.
#[export] Instance no_colon_dec s : Decision (no_colon s).
Proof. unfold no_colon. apply _. Defined.

Lemma last_part_inj x x' c c' : no_colon c → no_colon c' →
  x ++ ":" ++ c = x' ++ ":" ++ c' → x = x' ∧ c = c'.
Proof.
  unfold no_colon. intros Hc Hc'. revert x'. induction x as [|h x IH]; intros [|h' x'] E; simpl in E.
  - injection E as E. by split.
  - injection E as <- E. change ("" ++ c) with c in E. rewrite E, any_char_app in Hc. by destruct (any_char _ x').
  - injection E as -> E. change ("" ++ c') with c' in E. rewrite <-E, any_char_app in Hc'. by destruct (any_char _ x).
  - injection E as -> E. by destruct (IH _ E) as [-> ->].
Qed.

Lemma rel_key_inj m m' t t' : no_colon (tenant_of t) → no_colon (tenant_of t') →
  rel_key m t = rel_key m' t' → m = m' ∧ tenant_of t = tenant_of t'.
Proof.
  unfold rel_key. intros H H' E.
  destruct (last_part_inj (m ++ ":") (m' ++ ":") _ _ H H') as [E1 E2]; [by rewrite !string_app_assoc|].
  split; [|done]. apply (last_part_inj m m' "" ""); [done..|]. exact E1.
Qed.

Lemma key_of_inj m m' c c' t t' :
  no_colon (tenant_of t) → no_colon (tenant_of t') → no_colon (category_of c) → no_colon (category_of c') →
  key_of m c t = key_of m' c' t' → m = m' ∧ category_of c = category_of c' ∧ tenant_of t = tenant_of t'.
Proof.
  intros Ht Ht' Hc Hc' E.
  destruct (last_part_inj (rel_key m t ++ ":") (rel_key m' t' ++ ":") _ _ Hc Hc') as [E1 E2].
  { unfold key_of in E. unfold rel_key. rewrite !string_app_assoc. exact E. }
  assert (rel_key m t = rel_key m' t') as E3 by (apply (last_part_inj _ _ "" ""); [done..|exact E1]).
  apply rel_key_inj in E3 as [-> E3]; done.
Qed.

(** What one outcome does to the two maps. *)
Definition updated (now : Z) (modelId : string) (category : option string) (o : outcome) (s : store) : perf :=
  (latency_in o (quality_in (alpha s) o (count_outcome o (record_of s modelId category (tenant_in o)))))
    <| r_lastUpdated := Some now |>.

Lemma recordOutcome_records now m c o s : truthy_str m = true →
  records (recordOutcome now m c o s) = mset (records s) (key_of m c (tenant_in o)) (updated now m c o s).
Proof. intros H. unfold recordOutcome. rewrite H. cbn [negb]. by destruct (truthy (o_errorCode o)). Qed.

Lemma recordOutcome_config now m c o s :
  priorSuccess (recordOutcome now m c o s) = priorSuccess s ∧ priorSamples (recordOutcome now m c o s) = priorSamples s
  ∧ alpha (recordOutcome now m c o s) = alpha s.
Proof. unfold recordOutcome. by destruct (truthy_str m), (truthy (o_errorCode o)). Qed.

Lemma recordOutcome_reliability now m c o s k : truthy_str m = true → k ≠ rel_key m (tenant_in o) →
  mget (reliability (recordOutcome now m c o s)) k = mget (reliability s) k.
Proof.
  intros H Hk. unfold recordOutcome. rewrite H. cbn [negb]. destruct (truthy (o_errorCode o)); [|done].
  unfold recordReliability. cbn. by rewrite mget_set_ne.
Qed.

(** An organization's estimates are its own. Recording an outcome under one
    organization leaves everything another organization is told about any model
    and category - predictions, observed rates, latencies, reliability - exactly
    as it was. Keys are joined with colons: the theorem asks that organization
    ids and categories contain none, which is what the ids the tenant store
    mints and the classifier's categories satisfy; a model id may contain any. *)
Theorem estimates_isolated now m c o s m' c' t' :
  no_colon (tenant_of (tenant_in o)) → no_colon (tenant_of t') →
  no_colon (category_of c) → no_colon (category_of c') →
  tenant_of (tenant_in o) ≠ tenant_of t' →
  describe (recordOutcome now m c o s) m' c' t' = describe s m' c' t' ∧
  rawRate (recordOutcome now m c o s) m' c' t' = rawRate s m' c' t' ∧
  ∀ w, predictedSuccess (recordOutcome now m c o s) m' c' w t' = predictedSuccess s m' c' w t'.
Proof.
  intros Ht Ht' Hc Hc' Hne. destruct (truthy_str m) eqn:Em; [|unfold recordOutcome; by rewrite Em].
  assert (mget (records (recordOutcome now m c o s)) (key_of m' c' t') = mget (records s) (key_of m' c' t')) as E1.
  { rewrite recordOutcome_records by done. apply mget_set_ne. intros E. apply key_of_inj in E as (_ & _ & E); congruence. }
  assert (mget (reliability (recordOutcome now m c o s)) (rel_key m' t') = mget (reliability s) (rel_key m' t')) as E2.
  { apply recordOutcome_reliability; [done|]. intros E. apply rel_key_inj in E as [_ E]; congruence. }
  destruct (recordOutcome_config now m c o s) as (E3 & E4 & _).
  assert (∀ w, predictedSuccess (recordOutcome now m c o s) m' c' w t' = predictedSuccess s m' c' w t') as Hp.
  { intros w. unfold predictedSuccess. by rewrite E1, E3, E4. }
  split_and!; [|unfold rawRate; by rewrite E1|done].
  unfold describe, latency, reliabilityFor. by rewrite Hp, E1, E2.
Qed.

Definition sample_outcome (b : option bool) (latency : Z) (tenant : string) : outcome :=
  Outcome b (JNumber (ratio 8 10)) (JNumber (of_Z latency)) (if b is Some false then Some "task_failed" else None)
    (JNumber (of_Z 1000)) NoTools (Some tenant) None.

Lemma estimates_isolated_witness :
  no_colon (tenant_of (Some "org_b")) ∧
  describe (recordOutcome 5 "m:free" (Some "code") (sample_outcome (Some true) 900 "org_a") (new_store None None None))
    "m:free" (Some "code") (Some "org_b") = describe (new_store None None None) "m:free" (Some "code") (Some "org_b").
Proof.
  split; [vm_compute; reflexivity|].
  apply (estimates_isolated 5 "m:free" (Some "code") (sample_outcome (Some true) 900 "org_a") (new_store None None None)
    "m:free" (Some "code") (Some "org_b")); try (vm_compute; reflexivity). vm_compute. discriminate.
Defined.

(** ** The counters are the counts *)

(** An outcome as it was reported. *)
Record event := Event { ev_now : Z; ev_model : string; ev_category : option string; ev_outcome : outcome }.
Definition report (s : store) (e : event) : store :=
  recordOutcome (ev_now e) (ev_model e) (ev_category e) (ev_outcome e) s.
Definition key_of_event (e : event) : string := key_of (ev_model e) (ev_category e) (tenant_in (ev_outcome e)).

(** The reports that reach a record. *)
Definition reports_of (k : string) (l : list event) : list outcome :=
  ev_outcome <$> List.filter (λ e, truthy_str (ev_model e) && bool_decide (key_of_event e = k)) l.

Definition counted (l : list outcome) (P : option bool → bool) : Z :=
  Z.of_nat (length (List.filter (λ o, P (o_success o)) l)).
Definition decided (o : option bool) : bool := bool_decide (is_Some o).
Definition succeeded (o : option bool) : bool := bool_decide (o = Some true).
Definition accepted_latency (o : outcome) : option num :=
  let l := to_number (o_latencyMs o) in if amount l then Some (nround l) else None.

(** What a record holds after the reports [l]. *)
Definition tallied (l : list outcome) : tally := Tally (counted l decided) (counted l succeeded).
Definition sampled (l : list outcome) : list num := slice_last MAX_LATENCY_SAMPLES (omap accepted_latency l).

Lemma slice_last_snoc {A} n (l : list A) x : (0 < n)%nat →
  slice_last n (slice_last n l ++ [x]) = slice_last n (l ++ [x]).
Proof.
  intros Hn. destruct n as [|n]; [lia|]. unfold slice_last. rewrite !length_app, length_drop. simpl.
  rewrite !drop_app, length_drop, drop_drop. f_equal; [|f_equal]; [f_equal|]; lia.
Qed.

Lemma counted_snoc l o P : counted (l ++ [o]) P = (counted l P + if P (o_success o) then 1 else 0)%Z.
Proof. unfold counted. rewrite List.filter_app, length_app. simpl. destruct (P (o_success o)); simpl; lia. Qed.

Lemma counted_le l : (counted l succeeded ≤ counted l decided)%Z.
Proof.
  unfold counted. apply inj_le. induction l as [|o l IH]; simpl; [done|].
  destruct (succeeded (o_success o)) eqn:E.
  - replace (decided (o_success o)) with true; [simpl; lia|].
    unfold succeeded, decided in *. apply bool_decide_eq_true in E. by rewrite E.
  - destruct (decided (o_success o)); simpl; lia.
Qed.

Lemma count_outcome_tally o r :
  r_tally (count_outcome o r) = match o_success o with Some b => count_in b (r_tally r) | None => r_tally r end.
Proof. unfold count_outcome. destruct (o_success o); [|done]. by destruct (workloadKey _ _). Qed.

Lemma count_outcome_latency o r : r_latencySamples (count_outcome o r) = r_latencySamples r.
Proof. unfold count_outcome. destruct (o_success o); [|done]. by destruct (workloadKey _ _). Qed.

Lemma updated_fields now m c o s (r := record_of s m c (tenant_in o)) :
  r_tally (updated now m c o s) = match o_success o with Some b => count_in b (r_tally r) | None => r_tally r end ∧
  r_latencySamples (updated now m c o s) =
    match accepted_latency o with
    | Some x => slice_last MAX_LATENCY_SAMPLES (r_latencySamples r ++ [x])%list
    | None => r_latencySamples r
    end.
Proof.
  unfold updated, accepted_latency. fold r. rewrite <-count_outcome_tally, <-(count_outcome_latency o r).
  generalize (count_outcome o r). intros r'. cbn. unfold latency_in, quality_in.
  destruct (amount _), (finite_val _); by split.
Qed.

Lemma tallied_snoc l o :
  tallied (l ++ [o]) = match o_success o with Some b => count_in b (tallied l) | None => tallied l end.
Proof.
  unfold tallied. rewrite !counted_snoc. destruct (o_success o) as [[]|]; unfold count_in; simpl; f_equal; lia.
Qed.

Lemma sampled_snoc l o :
  sampled (l ++ [o]) = match accepted_latency o with
    | Some x => slice_last MAX_LATENCY_SAMPLES (sampled l ++ [x])%list | None => sampled l end.
Proof.
  unfold sampled. rewrite omap_app.
  change (omap accepted_latency [o]) with (match accepted_latency o with Some x => [x] | None => [] end).
  destruct (accepted_latency o).
  - symmetry. apply slice_last_snoc. unfold MAX_LATENCY_SAMPLES. lia.
  - by rewrite app_nil_r.
Qed.

(** What the store says of a model is what was reported of it. After any
    reports, for every model, category and organization: attempts are the
    reports that carried an outcome, successes those that said success - a report
    with no outcome ([success: null]) moves neither - and the latency samples are
    the last forty acceptable ones, rounded; the observed rate is their quotient
    and is withheld below three attempts. *)
Theorem estimates_exact a b c l m cat t :
  let s := foldl report (new_store a b c) l in
  let reports := reports_of (key_of m cat t) l in
  from_option r_tally no_tally (mget (records s) (key_of m cat t)) = tallied reports ∧
  from_option r_latencySamples [] (mget (records s) (key_of m cat t)) = sampled reports ∧
  (0 ≤ t_successes (tallied reports) ≤ t_attempts (tallied reports))%Z ∧
  (length (sampled reports) ≤ MAX_LATENCY_SAMPLES)%nat ∧
  rawRate s m cat t =
    if (t_attempts (tallied reports) <? MIN_SAMPLES_FOR_OBSERVED)%Z then None
    else Some (ndiv (of_Z (t_successes (tallied reports))) (of_Z (t_attempts (tallied reports)))).
Proof.
  intros s reports.
  assert (from_option r_tally no_tally (mget (records s) (key_of m cat t)) = tallied reports ∧
    from_option r_latencySamples [] (mget (records s) (key_of m cat t)) = sampled reports) as [Ht Hs].
  { subst s reports. induction l as [|e l IH] using rev_ind; [done|].
    rewrite foldl_app. unfold reports_of. rewrite List.filter_app, fmap_app. simpl. unfold report at 1 3.
    destruct (truthy_str (ev_model e)) eqn:Em; simpl.
    - rewrite recordOutcome_records by done. fold (key_of_event e). case_bool_decide as Ek.
      + rewrite Ek, mget_set_eq. cbn [from_option fmap list_fmap]. fold (reports_of (key_of m cat t) l).
        destruct (updated_fields (ev_now e) (ev_model e) (ev_category e) (ev_outcome e)
          (foldl report (new_store a b c) l)) as [-> ->].
        unfold record_of. fold (key_of_event e). rewrite Ek, tallied_snoc, sampled_snoc.
        destruct IH as [<- <-]. by destruct (mget _ (key_of m cat t)).
      + rewrite mget_set_ne by done. simpl. by rewrite app_nil_r.
    - unfold recordOutcome. rewrite Em. simpl. by rewrite app_nil_r. }
  split_and!; [done|done|..].
  - apply Nat2Z.is_nonneg.
  - apply counted_le.
  - apply slice_last_length. unfold MAX_LATENCY_SAMPLES. lia.
  - unfold rawRate. rewrite <-Ht. by destruct (mget (records s) _).
Qed.

(** ** Percentiles *)

Lemma indices_ordered : forallb (λ n, (percentile_index n 50 <=? percentile_index n 75)%nat
  && (percentile_index n 75 <=? percentile_index n 95)%nat && (percentile_index n 95 <? n)%nat) (seq 1 MAX_LATENCY_SAMPLES) = true.
Proof. vm_compute. reflexivity. Qed.

Lemma ascending_sorted l i j x y : Forall number l →
  js_sort ascending l !! i = Some x → js_sort ascending l !! j = Some y → (i ≤ j)%nat → nlt y x = false.
Proof.
  intros Hl. rewrite (js_sort_ext ascending key_lt number l); [|by apply difference_before|done].
  intros Hx Hy Hij. assert (number x ∧ number y) as [[_ Nx] [_ Ny]].
  { rewrite Forall_forall in Hl. split; apply Hl, (elem_of_js_sort key_lt); by eapply list_elem_of_lookup_2. }
  rewrite nlt_key_lt by done.
  apply (js_sort_lookup key_lt key_lt_irr key_lt_trans key_lt_cotrans l i j); done.
Qed.

(** The percentiles of the latencies that were kept are samples, and in order. *)
Theorem percentiles_ordered l :
  (length l ≤ MAX_LATENCY_SAMPLES)%nat → Forall number l → Exists (λ x, amount x = true) l →
  ∃ p50 p75 p95, s_p50 (latencyStats l) = Some p50 ∧ s_p75 (latencyStats l) = Some p75 ∧
    s_p95 (latencyStats l) = Some p95 ∧ p50 ∈ l ∧ p95 ∈ l ∧ nle p50 p75 = true ∧ nle p75 p95 = true.
Proof.
  intros Hlen Hl Hex. unfold latencyStats. cbv zeta.
  set (k := List.filter amount l). assert (Forall number k) as Hk.
  { rewrite Forall_forall in *. intros x [Hx _]%list_elem_of_In%List.filter_In. apply Hl. by apply list_elem_of_In. }
  assert (k ≠ []) as Hne.
  { apply Exists_exists in Hex as (x & Hx & Ha). intros E. apply (not_elem_of_nil x). rewrite <-E.
    apply list_elem_of_In, List.filter_In. by rewrite <-list_elem_of_In. }
  assert (length k ≤ MAX_LATENCY_SAMPLES)%nat as Hlk by (etransitivity; [apply List.filter_length_le|done]).
  pose proof (js_sort_perm ascending k) as Hp. pose proof (λ i j x y, ascending_sorted k i j x y Hk) as Hs.
  assert (∀ x, x ∈ js_sort ascending k → x ∈ l) as Hin.
  { intros x Hx. rewrite elem_of_js_sort in Hx. apply list_elem_of_In, List.filter_In in Hx as [Hx _]. by apply list_elem_of_In. }
  assert (∀ i j, i ≤ j → j < length k → ∃ x y, js_sort ascending k !! i = Some x ∧ js_sort ascending k !! j = Some y ∧ nle x y = true)%nat as Hord.
  { intros i j Hij Hj. apply Permutation_length in Hp.
    destruct (lookup_lt_is_Some_2 (js_sort ascending k) i) as [x Hx]; [lia|].
    destruct (lookup_lt_is_Some_2 (js_sort ascending k) j) as [y Hy]; [lia|].
    exists x, y. split_and!; [done..|]. rewrite Forall_forall in Hk.
    apply nlt_false; [..|by apply (Hs i j)]; apply Hk, (elem_of_js_sort ascending); by eapply list_elem_of_lookup_2. }
  apply Permutation_length in Hp.
  pose proof indices_ordered as Hi. rewrite forallb_forall in Hi. specialize (Hi (length k)).
  rewrite !andb_true_iff, !Nat.leb_le, Nat.ltb_lt in Hi. destruct Hi as [[H1 H2] H3].
  { apply List.in_seq. destruct k; [done|simpl in *; lia]. }
  destruct (Hord _ _ H1) as (p50 & p75 & E1 & E2 & L1); [lia|].
  destruct (Hord _ _ H2) as (q75 & p95 & E2' & E3 & L2); [lia|].
  assert (q75 = p75) as -> by congruence.
  destruct (js_sort ascending k) as [|z zs] eqn:Ez; [simpl in *; by destruct k|]. rewrite <-Ez in *.
  cbn [s_p50 s_p75 s_p95]. unfold percentile. rewrite Hp.
  exists p50, p75, p95. split_and!; auto; apply Hin; by eapply list_elem_of_lookup_2.
Qed.
