(* ===== verification/Evaluator.v ===== *)
(** The evaluation of outcomes (backend/src/intelligence/outcome-evaluator.js):
    did the task succeed, as opposed to did the run complete.

    Scores are binary64 and absent when their evidence is; the texts of the
    reasons, the ids and the instants are left out. *)

From S2P Require Import Prelude JsValue Number Text Regex Performance.

Local Open Scope string_scope.

(** The score the module clamps, absent when it is not a number. *)
(* [src/backend/src/intelligence/outcome-evaluator.js:31-34] clamp01 *)
Definition clamp01_opt (v : jsnum) : option num :=
  if finite_val v then Some (nmax nzero (nmin (of_Z 1) (to_number v))) else None.

(** ** Criteria and evidence *)

(* [src/backend/src/intelligence/outcome-evaluator.js:38-39] CRITERION_TYPES, CRITERION_STATUS *)
Definition CRITERION_TYPES : list string :=
  ["test"; "file_change"; "text_requirement"; "numeric_threshold"; "tool_result"; "manual_confirmation"].
Definition CRITERION_STATUS : list string := ["pending"; "passed"; "failed"; "unknown"].
(* [src/backend/src/intelligence/outcome-evaluator.js:80-80] EVIDENCE_TYPES *)
Definition EVIDENCE_TYPES : list string :=
  ["file"; "test"; "tool_result"; "provider_response"; "web_source"; "diff"; "metric"; "user_confirmation"].

Record criterion := Criterion { c_description : string; c_type : string; c_method : string; c_required : bool; c_status : string }.

(** [xs.includes(v) ? v : d] *)
Definition among (l : list string) (d : string) (v : option string) : string :=
  match v with Some s => if decide (s ∈ l) then s else d | None => d end.

(* [src/backend/src/intelligence/outcome-evaluator.js:41-51] createCriterion *)
Definition createCriterion (description type method : option string) (required : option bool) (status : option string) : criterion :=
  Criterion (slice0 500 (default "" description)) (among CRITERION_TYPES "text_requirement" type)
    (slice0 300 (default "" method)) (negb (bool_decide (required = Some false))) (among CRITERION_STATUS "pending" status).

Record evidence := Evidence {
  e_type : string;
  e_source : string;
  e_location : string;
  e_contentReference : string;
  e_claim : string;
  e_confidence : num;
  e_toolSuccess : option bool;
}.

(* [src/backend/src/intelligence/outcome-evaluator.js:82-97] createEvidence *)
Definition createEvidence (type source location content claim : option string) (confidence : jsnum)
    (toolSuccess : option bool) : evidence :=
  Evidence (among EVIDENCE_TYPES "metric" type) (slice0 200 (or_str (default "" source) "runtime"))
    (slice0 500 (default "" location)) (slice0 1000 (or_str (default "" content) (default "" claim)))
    (slice0 500 (default "" claim)) (default (ratio 5 10) (clamp01_opt confidence)) toolSuccess.

(** What a user said of the result. *)
Record feedback := Feedback { f_signal : option string; f_value : option string; f_rating : jsnum; f_confidence : jsnum }.
Inductive signal := positive | negative | unknown_signal.
#[export] Instance signal_eq_dec : EqDecision signal.
Proof. solve_decision. Defined.

(* [src/backend/src/intelligence/outcome-evaluator.js:281-289] normalizeUserSignal *)
Definition normalizeUserSignal (fb : feedback) : signal :=
  let raw := to_lower (or_str (default "" (f_signal fb)) (default "" (f_value fb))) in
  if decide (raw ∈ ["positive"; "success"; "up"; "good"; "thumbs_up"; "thumbs-up"; "pass"]) then positive
  else if decide (raw ∈ ["negative"; "failure"; "down"; "bad"; "thumbs_down"; "thumbs-down"; "fail"]) then negative
  else
    let n := to_number (f_rating fb) in
    if isFinite n then (if nle (ratio 35 10) n then positive else negative) else unknown_signal.

(** The signals of a run. *)
Record signals := Signals {
  s_completed : option bool;
  s_hasAssistantMessage : bool;
  s_toolFailures : num;
  s_withinBudget : option bool;
  s_criteria : list criterion;
  s_evidence : list evidence;
  s_testSummary : option (jsnum * jsnum);
  s_strictTests : option bool;
  s_userFeedback : option feedback;
  s_selfReport : option string;
}.

(** [byType[t]]: the evidence of a type. *)
Definition of_type (s : signals) (t : string) : list evidence :=
  List.filter (λ e, bool_decide (or_str (e_type e) "metric" = t)) (s_evidence s).

(** [evidenceByType[c.type] || evidenceByType.all || []] *)
Definition pool_of (s : signals) (t : string) : list evidence :=
  match of_type s t with [] => of_type s "all" | l => l end.

Definition newline : string := String "010" "".

(** The literals [/0 failed|all .*pass|pass.*0 fail/], [/pass/] and [/fail/]. *)
Definition clean_tests : re := parse "0 failed|all .*pass|pass.*0 fail".
Definition says_pass : re := parse "pass".
Definition says_fail : re := parse "fail".

(* [src/backend/src/intelligence/outcome-evaluator.js:55-76] evaluateCriterion *)
Definition criterion_status (s : signals) (type : string) : string :=
  let pool := pool_of s type in
  if decide (type = "test") then
    let texts := js_join newline ((λ e, to_lower (e_claim e ++ " " ++ e_contentReference e)) <$> pool) in
    if test clean_tests texts && test says_pass texts then "passed"
    else if test says_fail texts then "failed" else "unknown"
  else if decide (type = "tool_result") then
    if existsb (λ e, bool_decide (e_toolSuccess e = Some true)) pool then "passed"
    else if existsb (λ e, bool_decide (e_toolSuccess e = Some false)) pool then "failed" else "unknown"
  else if decide (type = "manual_confirmation") then
    match normalizeUserSignal <$> s_userFeedback s with
    | Some positive => "passed" | Some negative => "failed" | _ => "unknown"
    end
  else "unknown".
Definition evaluateCriterion (s : signals) (c : criterion) : criterion :=
  Criterion (c_description c) (c_type c) (c_method c) (c_required c) (criterion_status s (c_type c)).

(** ** Scores *)

Definition num_len {A} (l : list A) : num := of_Z (Z.of_nat (length l)).
Definition has_status (st : string) (c : criterion) : bool := bool_decide (c_status c = st).

(** The test counts, when both are numbers. *)
Definition tests_of (s : signals) : option (num * num) :=
  '(p, f) ← s_testSummary s;
  if finite_val p && finite_val f then Some (to_number p, to_number f) else None.

(** Correctness, from tests and tools only. *)
(* [src/backend/src/intelligence/outcome-evaluator.js:128-139] correctnessScore *)
Definition correctness (s : signals) : option num :=
  match tests_of s with
  | Some (p, f) => if nlt nzero (nadd p f) then Some (round3 (ndiv p (nadd p f))) else None
  | None =>
      if nlt nzero (s_toolFailures s) || existsb (λ e, bool_decide (e_toolSuccess e = Some false)) (of_type s "tool_result")
      then Some (ratio 4 10)
      else if s_hasAssistantMessage s && existsb (λ e, bool_decide (e_toolSuccess e = Some true)) (of_type s "tool_result")
      then Some (ratio 75 100) else None
  end.

(* [src/backend/src/intelligence/outcome-evaluator.js:142-150] completenessScore *)
Definition completeness (required : list criterion) : option num :=
  match required with
  | [] => None
  | _ =>
      let passed := List.filter (has_status "passed") required in
      let failed := List.filter (has_status "failed") required in
      let unknown := nsub (nsub (num_len required) (num_len passed)) (num_len failed) in
      Some (round3 (ndiv (nadd (num_len passed) (nmul unknown (ratio 4 10))) (num_len required)))
  end.

Definition unsafe_text : re := parse_i "secret|credential|production|destructive|exfiltrat".

(* [src/backend/src/intelligence/outcome-evaluator.js:153-156] safetyScore *)
Definition safety (s : signals) : option num :=
  if existsb (λ e, test unsafe_text (e_claim e ++ " " ++ e_contentReference e)) (s_evidence s) then Some (ratio 2 10)
  else match s_evidence s with
       | [] => if s_hasAssistantMessage s then Some (ratio 9 10) else None
       | _ => Some (ratio 9 10)
       end.

(* [src/backend/src/intelligence/outcome-evaluator.js:159-165] userSignal *)
Definition user_signal (s : signals) : option (signal * num) :=
  fb ← s_userFeedback s; Some (normalizeUserSignal fb, default (ratio 4 10) (clamp01_opt (f_confidence fb))).

(* [src/backend/src/intelligence/outcome-evaluator.js:175-176] operational *)
Definition operational (s : signals) : num :=
  nadd (nadd (nadd (if bool_decide (s_completed s = Some true) then ratio 6 10 else nzero)
                   (if s_hasAssistantMessage s then ratio 2 10 else nzero))
             (if nlt nzero (s_toolFailures s) then nzero else ratio 1 10))
       (if bool_decide (s_withinBudget s = Some false) then nzero else ratio 1 10).

Definition weighted (o : option num) (w : num) : list (num * num) := match o with Some v => [(v, w)] | None => [] end.

(* [src/backend/src/intelligence/outcome-evaluator.js:170-177] parts *)
Definition parts (s : signals) (required : list criterion) : list (num * num) :=
  weighted (correctness s) (ratio 4 10) ++ weighted (completeness required) (ratio 35 100)
  ++ weighted (safety s) (ratio 15 100) ++ weighted (clamp01_opt (JNumber (operational s))) (ratio 1 10).

(** The blend of the parts there are; what the model says of itself only caps a
    thin one. *)
(* [src/backend/src/intelligence/outcome-evaluator.js:178-185] overall *)
Definition overall (s : signals) (required : list criterion) : num :=
  let ps := parts s required in
  let wsum := foldl (λ a p, nadd a p.2) nzero ps in
  let o := round3 (ndiv (foldl (λ a p, nadd a (nmul p.1 p.2)) nzero ps) wsum) in
  if bool_decide (s_selfReport s = Some "success") && (length ps <=? 2)%nat
  then round3 (nmin o (ratio 65 100)) else o.

(** ** The verdict *)

(* [src/backend/src/intelligence/outcome-evaluator.js:201-209] objective *)
Definition objective (s : signals) (evaluated : list criterion) : option bool :=
  let required := List.filter c_required evaluated in
  let requiredFailed := existsb (has_status "failed") required in
  let requiredPassed := match required with [] => false | _ => forallb (has_status "passed") required end in
  let tests := tests_of s in
  if requiredFailed ||
     (match tests with Some (_, f) => nlt nzero f && negb (bool_decide (s_strictTests s = Some false)) | None => false end)
  then Some false
  else if requiredPassed || (match tests with Some (p, f) => neqb f nzero && nlt nzero p | None => false end)
  then Some true else None.

(** The verdict and whether the evidence is in conflict. *)
(* [src/backend/src/intelligence/outcome-evaluator.js:199-225] taskSuccess *)
Definition verdict (s : signals) (evaluated : list criterion) : option bool * bool :=
  let conf := match user_signal s with Some (_, c) => c | None => nzero end in
  let says x := bool_decide (fst <$> user_signal s = Some x) in
  match objective s evaluated with
  | Some false => if says positive && nle (ratio 8 10) conf then (None, true) else (Some false, false)
  | Some true => if says negative && nle (ratio 7 10) conf then (None, true) else (Some true, false)
  | None =>
      if says negative && nle (ratio 3 10) conf then (Some false, false)
      else if bool_decide (s_completed s = Some false) then (Some false, false)
      else (None, false)
  end.

Inductive status := succeeded_st | failed_st | conflicted_st | verification_required | unknown_st.
#[export] Instance status_eq_dec : EqDecision status.
Proof. solve_decision. Defined.

(* [src/backend/src/intelligence/outcome-evaluator.js:230-236] status *)
Definition status_of (s : signals) (evaluated : list criterion) : status :=
  match verdict s evaluated with
  | (Some true, _) => succeeded_st
  | (Some false, _) => failed_st
  | (None, true) => conflicted_st
  | (None, false) =>
      let pending := existsb (λ c, c_required c && negb (has_status "passed" c) && negb (has_status "failed" c)) evaluated in
      if pending || (bool_decide (s_completed s = Some true) && bool_decide (tests_of s = None)
                     && bool_decide (length (of_type s "tool_result") = 0%nat) && bool_decide (user_signal s = None))
      then verification_required else unknown_st
  end.

(* [src/backend/src/intelligence/outcome-evaluator.js:247-249] evidenceBreadth *)
Definition confidence_in (s : signals) (evaluated : list criterion) : num :=
  let b (x : bool) := if x then 1%nat else 0%nat in
  match (b (bool_decide (is_Some (tests_of s))) + b (bool_decide (evaluated ≠ []))
         + b (bool_decide (of_type s "tool_result" ≠ [])) + b (bool_decide (is_Some (user_signal s))))%nat with
  | 0%nat => ratio 25 100 | 1%nat => ratio 45 100 | 2%nat => ratio 65 100 | _ => ratio 85 100
  end.

Record evaluation := Evaluation {
  v_runId : option string;
  v_modelId : option string;
  v_taskCategory : string;
  v_orgId : option string;
  v_taskSuccess : option bool;
  v_status : status;
  v_executionCompleted : bool;
  v_conflicted : bool;
  v_correctness : option num;
  v_completeness : option num;
  v_evidenceScore : option num;
  v_safety : option num;
  v_userSignal : option (signal * num);
  v_overall : num;
  v_confidence : num;
  v_criteria : list criterion;
}.

#[export] Instance criterion_eq_dec : EqDecision criterion.
Proof. solve_decision. Defined.
#[export] Instance evidence_eq_dec : EqDecision evidence.
Proof. solve_decision. Defined.

(* [src/backend/src/intelligence/outcome-evaluator.js:111-279] evaluateOutcome *)
Definition evaluateOutcome (runId modelId category orgId : option string) (s : signals) : evaluation :=
  let evaluated := evaluateCriterion s <$> s_criteria s in
  let required := List.filter c_required evaluated in
  let '(success, conflicted) := verdict s evaluated in
  Evaluation runId modelId (category_of category) orgId success (status_of s evaluated)
    (bool_decide (s_completed s = Some true)) conflicted (correctness s) (completeness required)
    (match s_evidence s with [] => None | l => Some (nmin (of_Z 1) (ndiv (num_len l) (of_Z 5))) end)
    (safety s) (user_signal s) (overall s required) (confidence_in s evaluated) evaluated.

(** What may be learned from an evaluation: an outcome with a score, or a
    latency only. *)
Inductive learning := Trusted (success : bool) (qualityScore : num) | LatencyOnly.

(* [src/backend/src/intelligence/outcome-evaluator.js:293-306] outcomeToLearningUpdate *)
Definition outcomeToLearningUpdate (v : evaluation) : option learning :=
  match v_taskSuccess v with
  | Some b => Some (Trusted b (v_overall v))
  | None => if nle (ratio 45 100) (v_confidence v) then Some LatencyOnly else None
  end.

(** ** Properties *)

(** Objective evidence that the task succeeded: every required criterion passed
    and there is one, or tests passed and none failed. *)
Definition proven (s : signals) (evaluated : list criterion) : Prop :=
  (∃ c, c ∈ evaluated ∧ c_required c = true) ∧ (∀ c, c ∈ evaluated → c_required c = true → c_status c = "passed")
  ∨ ∃ p f, tests_of s = Some (p, f) ∧ neqb f nzero = true ∧ nlt nzero p = true.

(** Objective evidence against it. *)
Definition refuted (s : signals) (evaluated : list criterion) : Prop :=
  (∃ c, c ∈ evaluated ∧ c_required c = true ∧ c_status c = "failed")
  ∨ s_strictTests s ≠ Some false ∧ ∃ p f, tests_of s = Some (p, f) ∧ nlt nzero f = true.

Lemma required_elem evaluated c : c ∈ List.filter c_required evaluated ↔ c ∈ evaluated ∧ c_required c = true.
Proof. rewrite !list_elem_of_In. apply List.filter_In. Qed.

Lemma existsb_elem {A} (f : A → bool) l : existsb f l = true ↔ ∃ x, x ∈ l ∧ f x = true.
Proof. rewrite existsb_exists. by setoid_rewrite list_elem_of_In. Qed.

Lemma required_failed evaluated : existsb (has_status "failed") (List.filter c_required evaluated) = true ↔
  ∃ c, c ∈ evaluated ∧ c_required c = true ∧ c_status c = "failed".
Proof.
  rewrite existsb_elem. unfold has_status. setoid_rewrite bool_decide_eq_true. setoid_rewrite required_elem. naive_solver.
Qed.

Lemma required_passed evaluated :
  match List.filter c_required evaluated with [] => false | _ => forallb (has_status "passed") (List.filter c_required evaluated) end = true ↔
  (∃ c, c ∈ evaluated ∧ c_required c = true) ∧ (∀ c, c ∈ evaluated → c_required c = true → c_status c = "passed").
Proof.
  setoid_rewrite <-required_elem. assert (∀ l : list criterion, match l with [] => false | _ => forallb (has_status "passed") l end = true
    ↔ (∃ c, c ∈ l) ∧ ∀ c, c ∈ l → c_status c = "passed") as H.
  { intros l. assert (forallb (has_status "passed") l = true ↔ ∀ c, c ∈ l → c_status c = "passed") as Hf.
    { rewrite forallb_forall. unfold has_status. setoid_rewrite bool_decide_eq_true. by setoid_rewrite list_elem_of_In. }
    destruct l as [|c l]; [split; [done|intros [[c Hc] _]; by apply not_elem_of_nil in Hc]|].
    rewrite Hf. split; [|tauto]. intros H. split; [exists c; by left|done]. }
  rewrite H. split; intros [H1 H2]; (split; [done|]); intros c; [intros; apply H2, required_elem|rewrite required_elem]; naive_solver.
Qed.

Lemma objective_spec s evaluated :
  (objective s evaluated = Some false ↔ refuted s evaluated) ∧
  (objective s evaluated = Some true ↔ ¬ refuted s evaluated ∧ proven s evaluated).
Proof.
  unfold objective. cbv zeta.
  pose proof (required_failed evaluated) as Hf. pose proof (required_passed evaluated) as Hp.
  set (rf := existsb _ _) in *. set (rp := match _ with [] => _ | _ => _ end) in *.
  set (tf := match tests_of s with Some _ => _ | None => _ end).
  set (tp := match tests_of s with Some (p, f) => neqb f nzero && nlt nzero p | None => false end).
  assert (tf = true ↔ s_strictTests s ≠ Some false ∧ ∃ p f, tests_of s = Some (p, f) ∧ nlt nzero f = true) as Ht.
  { subst tf. destruct (tests_of s) as [[p f]|]; [|naive_solver].
    rewrite andb_true_iff, negb_true_iff, bool_decide_eq_false. naive_solver. }
  assert (tp = true ↔ ∃ p f, tests_of s = Some (p, f) ∧ neqb f nzero = true ∧ nlt nzero p = true) as Ht'.
  { subst tp. destruct (tests_of s) as [[p f]|]; [|naive_solver]. rewrite andb_true_iff. naive_solver. }
  clearbody rf rp tf tp. unfold refuted, proven. rewrite <-Hf, <-Hp, <-Ht, <-Ht'. destruct rf, rp, tf, tp; simpl; naive_solver.
Qed.

Lemma objects_spec s :
  bool_decide (fst <$> user_signal s = Some negative) &&
    nle (ratio 7 10) (match user_signal s with Some (_, c) => c | None => nzero end) = true ↔
  ∃ c, user_signal s = Some (negative, c) ∧ nle (ratio 7 10) c = true.
Proof.
  rewrite andb_true_iff, bool_decide_eq_true. generalize (ratio 7 10). intros b.
  destruct (user_signal s) as [[sg c]|]; cbn; split.
  - intros [[= ->] H]. eauto.
  - intros (c' & [= -> ->] & H). done.
  - by intros [? _].
  - by intros (? & ? & _).
Qed.

(** The same signals with another self-report. *)
Definition with_self_report (r : option string) (s : signals) : signals :=
  Signals (s_completed s) (s_hasAssistantMessage s) (s_toolFailures s) (s_withinBudget s) (s_criteria s)
    (s_evidence s) (s_testSummary s) (s_strictTests s) (s_userFeedback s) r.

(** A task succeeded only if something other than an opinion says so. The
    verdict is success exactly when required criteria all passed, or tests passed
    with no failure, nothing required failed and no strict test failed, and the
    user does not object with confidence 0.7 or more. So neither the run's
    completion, nor positive feedback, nor the model's own claim ever makes a
    success: the claim changes neither the verdict, nor the status, nor the
    confidence. And failing evidence is never a success whatever the user says. *)
Theorem success_needs_evidence run model cat org s (v := evaluateOutcome run model cat org s) :
  (v_taskSuccess v = Some true ↔
     ¬ refuted s (v_criteria v) ∧ proven s (v_criteria v) ∧
     ¬ ∃ c, user_signal s = Some (negative, c) ∧ nle (ratio 7 10) c = true) ∧
  (∀ r, let v' := evaluateOutcome run model cat org (with_self_report r s) in
     v_taskSuccess v' = v_taskSuccess v ∧ v_status v' = v_status v ∧ v_confidence v' = v_confidence v) ∧
  (v_status v = succeeded_st ↔ v_taskSuccess v = Some true).
Proof.
  subst v. split_and!.
  - unfold evaluateOutcome. set (ev := evaluateCriterion s <$> s_criteria s).
    destruct (verdict s ev) as [w k] eqn:E. cbn [v_taskSuccess v_criteria].
    destruct (objective_spec s ev) as [_ Ho]. set (N := ¬ ∃ c, _).
    transitivity (objective s ev = Some true ∧ N); [|tauto]. subst N. clear Ho. unfold verdict in E.
    pose proof (objects_spec s) as Hn. destruct (objective s ev) as [[]|].
    + destruct (bool_decide (fst <$> user_signal s = Some negative) && _); injection E as <- <-; split; try done.
      * intros [_ []]. by apply Hn.
      * intros _. split; [done|]. intros H. by apply Hn in H.
    + split; [|by intros [? _]]. destruct (_ && _) in E; by injection E as <- <-.
    + split; [|by intros [? _]]. destruct (_ && _) in E; [by injection E as <- <-|].
      destruct (bool_decide _) in E; by injection E as <- <-.
  - intros r v'. subst v'. unfold evaluateOutcome.
    assert (evaluateCriterion (with_self_report r s) = evaluateCriterion s) as -> by reflexivity.
    assert (s_criteria (with_self_report r s) = s_criteria s) as -> by reflexivity.
    set (ev := evaluateCriterion s <$> s_criteria s).
    assert (verdict (with_self_report r s) ev = verdict s ev) as E by reflexivity.
    assert (status_of (with_self_report r s) ev = status_of s ev) as -> by reflexivity.
    assert (confidence_in (with_self_report r s) ev = confidence_in s ev) as -> by reflexivity.
    rewrite E. by destruct (verdict s ev).
  - unfold evaluateOutcome, status_of. destruct (verdict s _) as [[[]|] []]; cbn; repeat case_match; split; done.
Qed.

(** Feedback nobody can read is read as a complaint. A signal that is none of
    the known words, with no rating, is negative when it comes through
    [recordFeedback], which stores the missing rating as [null]: [Number(null)] is
    0, and 0 is below 3.5. Left undefined, the same feedback is unknown. *)
Theorem unreadable_feedback_is_negative fb :
  to_lower (or_str (default "" (f_signal fb)) (default "" (f_value fb))) ∉
    ["positive"; "success"; "up"; "good"; "thumbs_up"; "thumbs-up"; "pass";
     "negative"; "failure"; "down"; "bad"; "thumbs_down"; "thumbs-down"; "fail"] →
  (f_rating fb = JNullish → normalizeUserSignal fb = negative) ∧
  (f_rating fb = JUndefined → normalizeUserSignal fb = unknown_signal).
Proof.
  intros H. unfold normalizeUserSignal. cbv zeta. set (raw := to_lower _) in *.
  rewrite decide_False by set_solver. rewrite decide_False by set_solver.
  split; intros ->; reflexivity.
Qed.

Lemma unreadable_feedback_is_negative_witness :
  normalizeUserSignal (Feedback (Some "ok") None JNullish JUndefined) = negative.
Proof.
  apply (unreadable_feedback_is_negative (Feedback (Some "ok") None JNullish JUndefined)); [|reflexivity].
  apply (bool_decide_eq_true_1 _). vm_compute. reflexivity.
Defined.

(** The pattern for a clean run also matches a count that ends in zero: ten
    failures pass the criterion. *)
Example ten_failures_pass : criterion_status
  (Signals (Some true) true nzero None [] [Evidence "test" "runtime" "" "" "2 passed, 10 failed" (ratio 1 2) None] None None None None)
  "test" = "passed".
Proof. vm_compute. reflexivity. Qed.
