(* ===== verification/Learning.v ===== *)
(** Learning from the outcomes of runs (backend/src/intelligence/intelligence-store.js):
    a finished run is evaluated, and what the evaluation lets through is recorded
    in the performance store and in the routing history.

    The benchmark store and the semantic cache the class also holds are touched by
    none of these operations. *)

From S2P Require Import Prelude JsMap JsValue Number Sorting Performance TaskClassifier Evaluator.

Local Open Scope string_scope.
Local Open Scope js_scope.

(* [src/backend/src/intelligence/intelligence-store.js:16-25] IntelligenceStore *)
Record intelligence := Intelligence {
  performance : store;
  routingHistory : history;
  outcomeEvals : list evaluation;
  maxOutcomeEvals : nat;
  userFeedback : jsmap string feedback;
}.
#[export] Instance intelligence_eta : Eta intelligence := λ i,
  Intelligence (performance i) (routingHistory i) (outcomeEvals i) (maxOutcomeEvals i) (userFeedback i).

Definition new_intelligence (max : option nat) : intelligence :=
  Intelligence (new_store None None None) (new_history None) [] (match max with Some (S n) => S n | _ => 200 end) [].

(** What the server reports of a run that has ended. *)
Record run_outcome := RunOutcome {
  i_runId : option string;
  i_modelId : option string;
  i_taskCategory : option string;
  i_taskText : string;
  i_orgId : option string;
  i_tenantId : option string;
  i_signals : signals;
  i_latencyMs : jsnum;
  i_contextTokens : jsnum;
  i_toolProfile : option tool_profile;
  i_toolObservations : list string;
  i_errorCode : option string;
}.

Definition tenant_of_run (i : run_outcome) : option string :=
  if truthy (i_orgId i) then i_orgId i else if truthy (i_tenantId i) then i_tenantId i else None.

(** The run's own feedback, or the feedback kept for it. *)
Definition signals_of (f : jsmap string feedback) (i : run_outcome) : signals :=
  let s := i_signals i in
  let fb := match s_userFeedback s with Some fb => Some fb | None => r ← i_runId i; mget f r end in
  Signals (s_completed s) (s_hasAssistantMessage s) (s_toolFailures s) (s_withinBudget s) (s_criteria s)
    (s_evidence s) (s_testSummary s) None fb (s_selfReport s).

(** The category of the run, from its text when it has none. *)
Definition category_in (i : run_outcome) : string :=
  or_str (default "" (i_taskCategory i)) (category_name (p_category (classifyTask (i_taskText i)))).

Definition tools_in (i : run_outcome) : tool_profile :=
  match i_toolProfile i with
  | Some t => t
  | None =>
      match i_toolObservations i with
      | [] => NoTools
      | l => ToolText (js_join "," (js_sort String.ltb (List.filter truthy_str l)))
      end
  end.

(** What is handed to [recordOutcome]. *)
Definition learned (i : run_outcome) (u : learning) : outcome :=
  let ctx := match finite_or_null (i_contextTokens i) with Some n => JNumber n | None => JNullish end in
  match u with
  | LatencyOnly => Outcome None JNullish (i_latencyMs i) None ctx (tools_in i) (tenant_of_run i) None
  | Trusted b q =>
      Outcome (Some b) (if isFinite q then JNumber q else JNullish) (i_latencyMs i)
        (if b then None else Some (or_str (default "" (i_errorCode i)) "task_failed"))
        ctx (tools_in i) (tenant_of_run i) None
  end.

Definition evaluate_run (s : intelligence) (i : run_outcome) : evaluation :=
  evaluateOutcome (i_runId i) (i_modelId i) (Some (category_in i)) (tenant_of_run i) (signals_of (userFeedback s) i).

(** The update the evaluation allows; a latency is always allowed. *)
Definition update_of (i : run_outcome) (v : evaluation) : option learning :=
  match outcomeToLearningUpdate v with
  | Some u => Some u
  | None => if finite_val (i_latencyMs i) then Some LatencyOnly else None
  end.

(* [src/backend/src/intelligence/intelligence-store.js:30-94] ingestRunOutcome *)
Definition ingestRunOutcome (now : Z) (i : run_outcome) (s : intelligence) : evaluation * intelligence :=
  let v := evaluate_run s i in
  let s := s <| outcomeEvals ::= λ l, slice_last (maxOutcomeEvals s) (l ++ [v])%list |> in
  let s := match (if truthy (i_modelId i) then update_of i v else None) with
    | Some u => s <| performance ::= recordOutcome now (default "" (i_modelId i)) (Some (category_in i)) (learned i u) |>
    | None => s
    end in
  let s := if truthy (i_runId i)
    then s <| routingHistory ::= λ h, (attachOutcome (default "" (i_runId i)) (v_taskSuccess v) h).2 |> else s in
  (v, s).

(** A rating and a confidence that are missing are stored as [null] and 0.4. *)
(* [src/backend/src/intelligence/intelligence-store.js:96-101] recordFeedback *)
Definition recordFeedback (runId : string) (f : feedback) (s : intelligence) : option feedback * intelligence :=
  if negb (truthy_str runId) then (None, s)
  else
    let sig := or_str (default "" (f_signal f)) (default "" (f_value f)) in
    let fb := Feedback (or_null sig) None (nullish (f_rating f) JNullish) (nullish (f_confidence f) (JNumber (ratio 4 10))) in
    (Some fb, s <| userFeedback ::= λ m, mset m runId fb |>).

(* [src/backend/src/intelligence/intelligence-store.js:103-106] outcomeForRun *)
Definition outcomeForRun (runId : string) (s : intelligence) : option evaluation :=
  last (List.filter (λ v, bool_decide (v_runId v = Some runId)) (outcomeEvals s)).

(* [src/backend/src/intelligence/intelligence-store.js:108-112] listOutcomes *)
Definition listOutcomes (runId : option string) (limit : Z) (s : intelligence) : list evaluation :=
  let n := Z.to_nat (Z.max 1 (Z.min (Z.of_nat (maxOutcomeEvals s)) (if (limit =? 0)%Z then 50 else limit))) in
  let l := if truthy runId then List.filter (λ v, bool_decide (v_runId v = runId)) (outcomeEvals s) else outcomeEvals s in
  rev (slice_last n l).

(** ** Properties *)

Definition ingest (s : intelligence) (e : Z * run_outcome) : intelligence := (ingestRunOutcome e.1 e.2 s).2.

Lemma ingest_performance s e :
  performance (ingest s e) =
    match (if truthy (i_modelId e.2) then update_of e.2 (evaluate_run s e.2) else None) with
    | Some u => recordOutcome e.1 (default "" (i_modelId e.2)) (Some (category_in e.2)) (learned e.2 u) (performance s)
    | None => performance s
    end.
Proof.
  destruct e as [t i]. unfold ingest, ingestRunOutcome. cbn [fst snd].
  generalize (evaluate_run s i). intros v.
  destruct (if truthy (i_modelId i) then _ else None); destruct (truthy (i_runId i)); reflexivity.
Qed.

(** Every report of an error is a failure. *)
Definition failures_only (s : store) : Prop := ∀ k r, mget (reliability s) k = Some r → l_failures r = l_samples r.

Lemma learned_failure i u : truthy (o_errorCode (learned i u)) = true → o_success (learned i u) = Some false.
Proof. destruct u as [[] q|]; simpl; done. Qed.

Lemma failures_only_record now m c o s :
  (truthy (o_errorCode o) = true → o_success o = Some false) → failures_only s →
  failures_only (recordOutcome now m c o s).
Proof.
  intros Ho Hs. unfold recordOutcome. destruct (truthy_str m); cbn [negb]; [|done].
  destruct (truthy (o_errorCode o)); [|exact Hs].
  intros k r. unfold recordReliability. rewrite Ho by done. cbn. rewrite mget_set. case_decide as E; [|apply Hs].
  intros [= <-]. subst k. cbn. destruct (mget (reliability s) _) as [r0|] eqn:Er; [|done]. cbn. f_equal. exact (Hs _ _ Er).
Qed.

Lemma failures_only_ingest s l : failures_only (performance s) → failures_only (performance (foldl ingest s l)).
Proof.
  revert s. induction l as [|e l IH]; intros s Hs; simpl; [done|]. apply IH.
  rewrite ingest_performance. case_match; [|done]. apply failures_only_record; [apply learned_failure|done].
Qed.

(** A model that ever failed three times is wholly unreliable. The only caller
    reports an error code only with a failure, and only reports with an error code
    reach the reliability counters: whatever runs are ingested, of every model and
    organization the failures equal the samples, so the rate of failure the router
    subtracts from one is n/n, however many successes there were in between. *)
Theorem reliability_counts_failures_only max l m t n rate codes :
  reliabilityFor (performance (foldl ingest (new_intelligence max) l)) m t = Some (n, rate, codes) →
  rate = round3 (ndiv (of_Z n) (of_Z n)) ∧ (MIN_SAMPLES_FOR_OBSERVED ≤ n)%Z.
Proof.
  assert (failures_only (performance (foldl ingest (new_intelligence max) l))) as H
    by (apply failures_only_ingest; intros k r Hk; discriminate Hk).
  unfold reliabilityFor. set (s := performance _) in *. intros E.
  destruct (mget (reliability s) (rel_key m t)) as [r|] eqn:Er; [|done]. simpl in E.
  destruct (l_samples r <? MIN_SAMPLES_FOR_OBSERVED)%Z eqn:El; [done|]. injection E as <- <- _.
  rewrite (H _ _ Er). split; [done|lia].
Qed.

Definition demo_signals (failed : bool) : signals :=
  Signals (Some true) true nzero None [] [] (Some (if failed then (JNumber nzero, JNumber (of_Z 1)) else (JNumber (of_Z 9), JNumber nzero)))
    None None None.
Definition demo_run (failed : bool) : run_outcome :=
  RunOutcome (Some "r") (Some "m") (Some "code") "" (Some "org") None (demo_signals failed) (JNumber (of_Z 800)) JUndefined None [] None.

(** Nine successes and three failures: a failure rate of one. *)
Definition twelve_runs : list (Z * run_outcome) :=
  (λ b, (1%Z, demo_run b)) <$> [false; false; false; true; false; false; false; true; false; false; false; true].

Lemma reliability_counts_failures_only_witness :
  of_Z 1 = round3 (ndiv (of_Z 3) (of_Z 3)) ∧ (MIN_SAMPLES_FOR_OBSERVED ≤ 3)%Z.
Proof.
  apply (reliability_counts_failures_only None twelve_runs "m" (Some "org") 3 (of_Z 1) [("task_failed", 3%Z)]).
  vm_compute. reflexivity.
Defined.

(** The same model succeeded in three runs of four. *)
Example three_in_four :
  rawRate (performance (foldl ingest (new_intelligence None) twelve_runs)) "m" (Some "code") (Some "org") = Some (ratio 3 4).
Proof. vm_compute. reflexivity. Qed.

Lemma updated_quality now m c o s : r_qualityEwma (updated now m c o s) =
  r_qualityEwma (quality_in (alpha s) o (record_of s m c (tenant_in o))).
Proof.
  unfold updated, latency_in. set (q := quality_in _ _ (count_outcome _ _)).
  assert (r_qualityEwma q = r_qualityEwma (quality_in (alpha s) o (record_of s m c (tenant_in o)))) as <-.
  { subst q. unfold quality_in. assert (∀ r, r_qualityEwma (count_outcome o r) = r_qualityEwma r) as H.
    { intros r. unfold count_outcome. destruct (o_success o); [|done]. by destruct (workloadKey _ _). }
    destruct (finite_val _); [|apply H]. cbn. by rewrite H. }
  by destruct (amount _).
Qed.

(** A run nobody verified is learned as one of quality zero. When the
    evaluation reaches no verdict, the run is to contribute its latency only. Its
    quality is passed as [null], which [Number] makes 0: the moving average is
    pulled toward zero by each such run (by a fifth of its value, with the default
    weight), while the counters of attempts and successes stay. *)
Theorem unverified_run_lowers_quality now i s m (v := evaluate_run s i) (k := key_of m (Some (category_in i)) (tenant_of_run i)) :
  i_modelId i = Some m → truthy_str m = true → v_taskSuccess v = None → finite_val (i_latencyMs i) = true →
  let old := mget (records (performance s)) k in
  ∃ r, mget (records (performance (ingestRunOutcome now i s).2)) k = Some r ∧
    r_tally r = from_option r_tally no_tally old ∧
    r_qualityEwma r = Some (round3 (match old ≫= r_qualityEwma with
      | Some e => nadd (nmul (alpha (performance s)) nzero) (nmul (nsub (of_Z 1) (alpha (performance s))) e)
      | None => nzero end)).
Proof.
  intros Hm Ht Hv Hl old. subst v.
  pose proof (ingest_performance s (now, i)) as E. unfold ingest in E. cbn [fst snd] in E. rewrite E, Hm.
  change (truthy (Some m)) with (truthy_str m). rewrite Ht. clear E.
  assert (update_of i (evaluate_run s i) = Some LatencyOnly) as ->.
  { unfold update_of, outcomeToLearningUpdate. rewrite Hv, Hl. by destruct (nle _ _). }
  change (default "" (Some m)) with m. rewrite recordOutcome_records by done.
  assert (tenant_in (learned i LatencyOnly) = tenant_of_run i) as Et.
  { unfold tenant_in, learned, tenant_of_run. cbn. repeat case_match; done. }
  rewrite Et. fold k. rewrite mget_set_eq. eexists. split; [done|].
  destruct (updated_fields now m (Some (category_in i)) (learned i LatencyOnly) (performance s)) as [Eq _].
  cbn zeta in Eq. rewrite Et in Eq. unfold record_of in Eq. fold k in Eq. fold old in Eq.
  split; [etransitivity; [exact Eq|]; cbn; by destruct old|].
  rewrite updated_quality, Et. unfold record_of, quality_in. fold k.
  assert (clamp01 (to_number (o_qualityScore (learned i LatencyOnly))) = nzero) as -> by reflexivity.
  assert (finite_val (o_qualityScore (learned i LatencyOnly)) = true) as -> by reflexivity.
  subst old. by destruct (mget (records (performance s)) k).
Qed.

(** A run that only answered, with a latency, after one that was verified. *)
Definition unverified_run : run_outcome :=
  RunOutcome (Some "r2") (Some "m") (Some "code") "" (Some "org") None
    (Signals (Some true) true nzero None [] [] None None None None) (JNumber (of_Z 800)) JUndefined None [] None.

Lemma unverified_run_lowers_quality_witness :
  let s := foldl ingest (new_intelligence None) (take 1 twelve_runs) in
  ∃ r, mget (records (performance (ingestRunOutcome 2 unverified_run s).2)) (key_of "m" (Some "code") (Some "org")) = Some r
    ∧ r_tally r = Tally 1 1 ∧ r_qualityEwma r = Some (ratio 782 1000).
Proof.
  intros s.
  destruct (unverified_run_lowers_quality 2 unverified_run s "m" eq_refl eq_refl ltac:(vm_compute; reflexivity) ltac:(vm_compute; reflexivity))
    as (r & H1 & H2 & H3).
  exists r. split; [exact H1|]. split; [rewrite H2; vm_compute; reflexivity|rewrite H3; vm_compute; reflexivity].
Defined.
