(* ===== verification/ModelRegistry.v ===== *)
(** The model registry (backend/src/impl/model-registry.js): the models a run may
    be routed to, their prices and their observed health.

    Prices, quality and reliability are values that may be missing ([jsnum]);
    [now()] and generated ids are passed in. The registry is single-threaded: its
    [async] methods do not wait. Handlers of [on] are called with the events and
    cannot fail the operation, so the events are recorded in order. *)

From S2P Require Import Prelude JsMap JsValue Number Types.

Local Open Scope string_scope.
Local Open Scope js_scope.

Record model := Model {
  md_id : string;
  md_name : string;
  md_provider : option string;
  md_status : ModelStatus.t;
  md_inputPer1k : jsnum;
  md_outputPer1k : jsnum;
  md_cachedPer1k : jsnum;
  md_contextWindow : Z;
  md_quality : jsnum;
  md_reliability : jsnum;
  md_avgLatencyMs : jsnum;
  md_capabilities : option (list string);
  md_degradedByObserver : bool;
  md_pricingSource : option string;
  md_pricingVersion : nat;
  md_pricingUpdatedAt : option Z;
  md_updatedAt : option Z;
  md_lastObservedAt : option Z;
}.
#[export] Instance model_eta : Eta model := λ m,
  Model (md_id m) (md_name m) (md_provider m) (md_status m) (md_inputPer1k m) (md_outputPer1k m) (md_cachedPer1k m)
    (md_contextWindow m) (md_quality m) (md_reliability m) (md_avgLatencyMs m) (md_capabilities m)
    (md_degradedByObserver m) (md_pricingSource m) (md_pricingVersion m) (md_pricingUpdatedAt m) (md_updatedAt m)
    (md_lastObservedAt m).

(* [src/backend/src/impl/model-registry.js:80-80] o *)
Record observed := Observed {
  ob_successes : nat;
  ob_failures : nat;
  ob_consecutiveFailures : nat;
  ob_latencySamples : list num;
  ob_lastObservedAt : option Z;
  ob_lastErrorCode : option string;
}.
#[export] Instance observed_eta : Eta observed := λ o,
  Observed (ob_successes o) (ob_failures o) (ob_consecutiveFailures o) (ob_latencySamples o) (ob_lastObservedAt o)
    (ob_lastErrorCode o).
Definition fresh_observed : observed := Observed 0 0 0 [] None None.

(** The prices of a model, as [getPricing] gives them. *)
Record price := Price {
  p_inputPer1k : jsnum;
  p_outputPer1k : jsnum;
  p_cachedPer1k : jsnum;
  p_updatedAt : option Z;
  p_source : string;
  p_version : nat;
}.

Inductive registry_event :=
| Registered (id : string)
| Updated (id : string)
| Unregistered (id : string)
| HealthChanged (id : string) (old new : ModelStatus.t)
| PriceChanged (id : string) (prev next : price).

(* [src/backend/src/impl/model-registry.js:7-18] InMemoryModelRegistry *)
Record registry := Registry {
  models : jsmap string model;
  observations : jsmap string observed;
  pricingHistory : jsmap string (list (price * price));
  events : list registry_event;
}.
#[export] Instance registry_eta : Eta registry := λ r,
  Registry (models r) (observations r) (pricingHistory r) (events r).

(** A status is given or absent; [pricingVersion || 1]. *)
(* [src/backend/src/impl/model-registry.js:8-18] constructor *)
Definition new_registry (l : list model) : registry :=
  Registry (foldl (λ m x, mset m (md_id x) (x <| md_pricingVersion ::= λ v, Nat.max 1 v |>)) [] l) [] [] [].

(* [src/backend/src/impl/model-registry.js:192-204] _emit *)
Definition emit (e : registry_event) (r : registry) : registry := r <| events ::= λ l, (l ++ [e])%list |>.

(* [src/backend/src/impl/model-registry.js:20-22] getModels *)
Definition getModels (r : registry) : list model := mvalues (models r).
(* [src/backend/src/impl/model-registry.js:24-26] getModel *)
Definition getModel (id : string) (r : registry) : option model := mget (models r) id.

(* [src/backend/src/impl/model-registry.js:28-33] registerModel *)
Definition registerModel (gen : string) (m : model) (r : registry) : model * registry :=
  let m := m <| md_id := or_str (md_id m) gen |> in
  (m, emit (Registered (md_id m)) (r <| models ::= λ l, mset l (md_id m) m |>)).

(** [{ ...model, ...updates }] as a function of the model. *)
(* [src/backend/src/impl/model-registry.js:35-42] updateModel *)
Definition updateModel (now : Z) (id : string) (updates : model → model) (r : registry) : option model * registry :=
  match mget (models r) id with
  | None => (None, r)
  | Some m =>
      let m := (updates m) <| md_updatedAt := Some now |> in
      (Some m, emit (Updated id) (r <| models ::= λ l, mset l id m |>))
  end.

(* [src/backend/src/impl/model-registry.js:44-50] unregisterModel *)
Definition unregisterModel (id : string) (r : registry) : bool * registry :=
  match mget (models r) id with
  | None => (false, r)
  | Some _ => (true, emit (Unregistered id) (r <| models ::= λ l, mdelete l id |>))
  end.

(* [src/backend/src/impl/model-registry.js:52-54] getModelsByCapability *)
Definition getModelsByCapability (c : string) (r : registry) : list model :=
  List.filter (λ m, match md_capabilities m with Some l => bool_decide (c ∈ l) | None => false end) (getModels r).
(* [src/backend/src/impl/model-registry.js:56-58] getModelsByProvider *)
Definition getModelsByProvider (p : string) (r : registry) : list model :=
  List.filter (λ m, bool_decide (md_provider m = Some p)) (getModels r).

(* [src/backend/src/impl/model-registry.js:60-64] healthCheck *)
Definition healthCheck (id : string) (r : registry) : ModelStatus.t * bool :=
  match mget (models r) id with
  | None => (ModelStatus.UNAVAILABLE, false)
  | Some m => (md_status m, bool_decide (md_status m = ModelStatus.HEALTHY))
  end.

(** ** Observed health *)

(** An observation of a provider call; the latency counts when it is a positive
    number. *)
Record observation := Observation { x_success : bool; x_cached : bool; x_latencyMs : jsnum; x_code : option string }.

Definition positive_latency (x : observation) : option num :=
  match x_latencyMs x with
  | JNumber n => if negb (x_cached x) && isFinite n && nlt nzero n then Some n else None
  | _ => None
  end.

(** [Math.round(sum / length)] *)
Definition average (l : list num) : num := nround (ndiv (foldl nadd nzero l) (of_Z (Z.of_nat (length l)))).

(** [Math.min(0.999, Math.max(0.05, successes / total))] *)
Definition observed_reliability (o : observed) : num :=
  nmin (ratio 999 1000) (nmax (ratio 5 100)
    (ndiv (of_Z (Z.of_nat (ob_successes o))) (of_Z (Z.of_nat (ob_successes o + ob_failures o))))).

(** The model after a success: its latency, its reliability, its recovery. *)
Definition observe_success (now : Z) (o : observed) (sampled : bool) (m : model) : model * list registry_event :=
  let m := if sampled then m <| md_avgLatencyMs := JNumber (average (ob_latencySamples o)) |> else m in
  let m := m <| md_reliability := JNumber (observed_reliability o) |> in
  if bool_decide (md_status m = ModelStatus.DEGRADED) && md_degradedByObserver m
  then (m <| md_status := ModelStatus.HEALTHY |> <| md_degradedByObserver := false |> <| md_updatedAt := Some now |>,
        [HealthChanged (md_id m) ModelStatus.DEGRADED ModelStatus.HEALTHY])
  else (m, []).

Definition observe_failure (now : Z) (o : observed) (m : model) : model * list registry_event :=
  let m := m <| md_reliability := JNumber (observed_reliability o) |> in
  if (5 <=? ob_consecutiveFailures o)%nat && bool_decide (md_status m = ModelStatus.HEALTHY)
  then (m <| md_status := ModelStatus.DEGRADED |> <| md_degradedByObserver := true |> <| md_updatedAt := Some now |>,
        [HealthChanged (md_id m) ModelStatus.HEALTHY ModelStatus.DEGRADED])
  else (m, []).

(** The counters after an observation, and whether its latency was sampled. *)
Definition count_observation (now : Z) (x : observation) (o : observed) : observed * bool :=
  let o := o <| ob_lastObservedAt := Some now |> in
  if x_success x then
    let o := o <| ob_successes ::= S |> <| ob_consecutiveFailures := 0%nat |> in
    match positive_latency x with
    | Some n => (o <| ob_latencySamples ::= λ l, push_shift 20 l n |>, true)
    | None => (o, false)
    end
  else (o <| ob_failures ::= S |> <| ob_consecutiveFailures ::= S |>
          <| ob_lastErrorCode := Some (or_str (default "" (x_code x)) "unknown") |>, false).

(* [src/backend/src/impl/model-registry.js:73-116] recordObservation *)
Definition recordObservation (now : Z) (id : string) (x : observation) (r : registry) : registry :=
  match mget (models r) id with
  | None => r
  | Some m =>
      let '(o, sampled) := count_observation now x (default fresh_observed (mget (observations r) id)) in
      let '(m, evs) := if x_success x then observe_success now o sampled m else observe_failure now o m in
      Registry (mset (models r) id (m <| md_lastObservedAt := Some now |>)) (mset (observations r) id o) (pricingHistory r)
        (events r ++ evs)
  end.

(** Successes, failures, failures in a row, mean latency, last code. *)
(* [src/backend/src/impl/model-registry.js:118-132] getObserved *)
Definition getObserved (id : string) (r : registry) : option (nat * nat * nat * option num * option string) :=
  o ← mget (observations r) id;
  Some (ob_successes o, ob_failures o, ob_consecutiveFailures o,
        match ob_latencySamples o with [] => None | l => Some (average l) end, ob_lastErrorCode o).

(** ** Prices *)

(** [v ?? null] *)
Definition or_nullish (v : jsnum) : jsnum := nullish v JNullish.

Definition price_of (m : model) : price :=
  Price (or_nullish (md_inputPer1k m)) (or_nullish (md_outputPer1k m)) (or_nullish (md_cachedPer1k m))
    (match md_pricingUpdatedAt m with Some t => Some t | None => md_updatedAt m end)
    (or_str (default "" (md_pricingSource m)) "seed") (Nat.max 1 (md_pricingVersion m)).

(* [src/backend/src/impl/model-registry.js:137-149] getPricing *)
Definition getPricing (id : string) (r : registry) : option price := price_of <$> mget (models r) id.

(* [src/backend/src/impl/model-registry.js:151-153] getPricingHistory *)
Definition getPricingHistory (id : string) (r : registry) : list (price * price) :=
  default [] (mget (pricingHistory r) id).

(** A rate that is [undefined] is not changed; [null] clears it. *)
Definition changed (v old : jsnum) : jsnum := match v with JUndefined => old | _ => v end.

(* [src/backend/src/impl/model-registry.js:158-178] updatePrice *)
Definition updatePrice (now : Z) (id : string) (i o c : jsnum) (source : string) (r : registry)
    : option (price * price) * registry :=
  match mget (models r) id with
  | None => (None, r)
  | Some m =>
      let prev := price_of m in
      let m := m <| md_inputPer1k ::= changed i |> <| md_outputPer1k ::= changed o |> <| md_cachedPer1k ::= changed c |>
                 <| md_pricingSource := Some source |> <| md_pricingVersion := S (p_version prev) |>
                 <| md_pricingUpdatedAt := Some now |> <| md_updatedAt := Some now |> in
      let next := price_of m in
      (Some (prev, next),
       emit (PriceChanged id prev next)
         (Registry (mset (models r) id m) (observations r)
            (mset (pricingHistory r) id (getPricingHistory id r ++ [(prev, next)])%list) (events r)))
  end.

(* [src/backend/src/impl/model-registry.js:211-220] simulateHealthChange *)
Definition simulateHealthChange (now : Z) (id : string) (status : ModelStatus.t) (r : registry) : registry :=
  match mget (models r) id with
  | None => r
  | Some m =>
      emit (HealthChanged id (md_status m) status)
        (r <| models ::= λ l, mset l id (m <| md_status := status |> <| md_degradedByObserver := false |>
                                           <| md_updatedAt := Some now |>) |>)
  end.

(** ** Properties *)

(** The failures since the last success. *)
Fixpoint streak (l : list observation) (n : nat) : nat :=
  match l with
  | [] => n
  | x :: l => streak l (if x_success x then 0 else S n)
  end.

Lemma streak_app l x n : streak (l ++ [x]) n = if x_success x then 0%nat else S (streak l n).
Proof. revert n. induction l as [|y l IH]; intros n; simpl; [done|apply IH]. Qed.

Definition observe (id : string) (r : registry) (x : Z * observation) : registry := recordObservation x.1 id x.2 r.

Lemma reliability_bounds o :
  isNaN (ndiv (of_Z (Z.of_nat (ob_successes o))) (of_Z (Z.of_nat (ob_successes o + ob_failures o)))) = false →
  nle (ratio 5 100) (observed_reliability o) = true ∧ nle (observed_reliability o) (ratio 999 1000) = true.
Proof. intros H. destruct (nclamp_bounds' (ratio 5 100) (ratio 999 1000) _ eq_refl H) as (? & ? & _). done. Qed.

(** The status and the observer's mark of a model, after the calls of which the
    last [n] failed, from [st]. *)
Definition health_after (st : ModelStatus.t) (n : nat) (m : model) : Prop :=
  (st = ModelStatus.HEALTHY →
     md_status m = (if (5 <=? n)%nat then ModelStatus.DEGRADED else ModelStatus.HEALTHY) ∧
     md_degradedByObserver m = (5 <=? n)%nat) ∧
  (st ≠ ModelStatus.HEALTHY → md_status m = st ∧ md_degradedByObserver m = false).

Lemma observe_success_health st n now o b m :
  health_after st n m → health_after st 0 (observe_success now o b m).1.
Proof.
  intros [H1 H2]. unfold observe_success. set (m2 := (if b then _ else m) <| md_reliability := _ |>).
  assert (md_status m2 = md_status m ∧ md_degradedByObserver m2 = md_degradedByObserver m) as [Es Ef] by (by destruct b).
  rewrite Es, Ef. clearbody m2. destruct (bool_decide _ && _) eqn:Eb; split; intros Hst.
  - done.
  - destruct (H2 Hst) as [_ Hf]. rewrite Hf, andb_false_r in Eb. done.
  - destruct (H1 Hst) as [Hs Hf]. cbn [fst]. rewrite Es, Ef, Hs, Hf in *.
    destruct (5 <=? n)%nat; [|done]. by rewrite bool_decide_true in Eb.
  - cbn [fst]. rewrite Es, Ef. by apply H2.
Qed.

Lemma observe_failure_health st n now o m :
  ob_consecutiveFailures o = S n → health_after st n m → health_after st (S n) (observe_failure now o m).1.
Proof.
  intros Eo [H1 H2]. unfold observe_failure. rewrite Eo.
  set (m2 := m <| md_reliability := _ |>).
  assert (md_status m2 = md_status m ∧ md_degradedByObserver m2 = md_degradedByObserver m) as [Es Ef] by done.
  rewrite Es. clearbody m2. destruct ((5 <=? S n)%nat && _) eqn:Eb; split; intros Hst; cbn [fst].
  - apply andb_true_iff in Eb as [-> _]. done.
  - destruct (H2 Hst) as [Hs _]. apply andb_true_iff in Eb as [_ Eb]. apply bool_decide_eq_true in Eb. congruence.
  - rewrite Es, Ef. destruct (H1 Hst) as [-> ->]. destruct (5 <=? n)%nat eqn:E5.
    + by replace (5 <=? S n)%nat with true by (symmetry; apply Nat.leb_le; apply Nat.leb_le in E5; lia).
    + destruct (5 <=? S n)%nat; [|done]. rewrite bool_decide_true in Eb; [done|]. by apply H1 in Hst as [-> _].
  - rewrite Es, Ef. by apply H2.
Qed.

Lemma count_observation_failures now x o :
  ob_consecutiveFailures (count_observation now x o).1 = if x_success x then 0%nat else S (ob_consecutiveFailures o).
Proof. unfold count_observation. destruct (x_success x); [|done]. by destruct (positive_latency x). Qed.

Lemma recordObservation_health st n now id x r m :
  mget (models r) id = Some m → ob_consecutiveFailures (default fresh_observed (mget (observations r) id)) = n →
  health_after st n m →
  let n' := if x_success x then 0%nat else S n in
  ∃ m', mget (models (recordObservation now id x r)) id = Some m' ∧
    ob_consecutiveFailures (default fresh_observed (mget (observations (recordObservation now id x r)) id)) = n' ∧
    health_after st n' m'.
Proof.
  intros E1 Ec H. unfold recordObservation. rewrite E1.
  set (o := default fresh_observed _) in *. pose proof (count_observation_failures now x o) as Ek. rewrite Ec in Ek.
  destruct (count_observation now x o) as [o' b]. cbn [fst] in Ek.
  destruct (x_success x).
  - pose proof (observe_success_health st n now o' b m H) as H'. destruct (observe_success now o' b m) as [m' evs].
    cbn. rewrite !mget_set_eq. by eexists.
  - pose proof (observe_failure_health st n now o' m Ek H) as H'. destruct (observe_failure now o' m) as [m' evs].
    cbn. rewrite !mget_set_eq. by eexists.
Qed.

(** Health follows the last five calls. From a healthy model with no
    observations, after any provider calls, cached or not: the model is degraded
    exactly when at least five calls in a row, up to the last one, failed; one
    success makes it healthy again; nothing the observer does makes it
    unavailable; and a status set by an administrator meanwhile - degraded or
    unavailable - is left as it is by every later observation. *)
Theorem health_is_the_streak id r m l :
  mget (models r) id = Some m → mget (observations r) id = None →
  md_degradedByObserver m = false →
  let r' := foldl (observe id) r l in
  ∃ m', mget (models r') id = Some m' ∧
    (md_status m = ModelStatus.HEALTHY →
       md_status m' = (if (5 <=? streak l.*2 0)%nat then ModelStatus.DEGRADED else ModelStatus.HEALTHY)) ∧
    (md_status m ≠ ModelStatus.HEALTHY → md_status m' = md_status m).
Proof.
  intros Hm Ho Hd r'.
  assert (∃ m', mget (models r') id = Some m' ∧
    ob_consecutiveFailures (default fresh_observed (mget (observations r') id)) = streak l.*2 0 ∧
    health_after (md_status m) (streak l.*2 0) m') as (m' & ? & _ & H1 & H2).
  { subst r'. induction l as [|[t x] l IH] using rev_ind.
    - exists m. simpl. rewrite Ho. split_and!; [done|done|by split].
    - rewrite foldl_app, fmap_app. cbn [foldl fmap list_fmap snd]. rewrite streak_app.
      destruct IH as (m1 & E1 & Ec & H). by apply (recordObservation_health (md_status m) _ t id x _ m1). }
  exists m'. split; [done|]. split; intros Hst; [by apply H1|by apply H2].
Qed.

Definition demo_model : model :=
  Model "m" "M" (Some "p") ModelStatus.HEALTHY (JNumber (ratio 1 1000)) (JNumber (ratio 3 1000)) JNullish 128000
    (JNumber (ratio 8 10)) (JNumber (ratio 9 10)) (JNumber (of_Z 900)) (Some ["tools"]) false None 1 None None None.
Definition failing : observation := Observation false false JUndefined (Some "timeout").

Lemma health_is_the_streak_witness :
  (5 <=? streak (replicate 5 failing) 0)%nat = true ∧
  ∃ m', mget (models (foldl (observe "m") (new_registry [demo_model]) ((1%Z,.) <$> replicate 5 failing))) "m" = Some m' ∧
    md_status m' = ModelStatus.DEGRADED.
Proof.
  split; [reflexivity|].
  destruct (health_is_the_streak "m" (new_registry [demo_model]) demo_model ((1%Z,.) <$> replicate 5 failing)
    eq_refl eq_refl eq_refl) as (m' & H & H1 & _).
  exists m'. split; [exact H|]. rewrite (H1 eq_refl). reflexivity.
Defined.
