(* ===== verification/RoutingObjective.v ===== *)
(** The routing objective (backend/src/decisions/routing-objective.js): the money
    a run is expected to spend per success if a candidate is selected, and the
    candidate that minimises it.

    Amounts are binary64 dollars; an unknown amount is [None]. [Math.pow], whose
    result the language leaves to the host, and [localeCompare] are arguments. *)

From S2P Require Import Prelude JsMap JsValue Number Sorting NumberOrder ModelRegistry.

Local Open Scope string_scope.

(* [src/backend/src/decisions/routing-objective.js:28-28] SUCCESS_FLOOR *)
Definition SUCCESS_FLOOR : num := ratio 5 100.

(** [Math.round(x * 1e6) / 1e6] *)
Definition million : num := of_Z 1000000.
Definition round6 (x : num) : num := ndiv (nround (nmul x million)) million.

(** A value that is present: not undefined, null or the empty string. *)
Definition present (v : jsnum) : bool := match v with JNumber _ => true | _ => false end.

(* [src/backend/src/decisions/routing-objective.js:30-32] isKnownRate *)
Definition isKnownRate (v : jsnum) : bool := present v && isFinite (to_number v) && nle nzero (to_number v).
Definition known_rate (v : jsnum) : option num := if isKnownRate v then Some (to_number v) else None.

(** [Number(v) || 0] *)
Definition num_or_zero (x : num) : num := or_num x nzero.

(** Tokens at a price per thousand. *)
Definition per_1k (tokens rate : num) : num := nmul (ndiv tokens (of_Z 1000)) rate.

(* [src/backend/src/decisions/routing-objective.js:36-49] estimateProviderCostUsd *)
Definition estimateProviderCostUsd (m : model) (inputTokens outputTokens cachedTokens : num) : option num :=
  let cached := nmax nzero (nmin (num_or_zero inputTokens) (num_or_zero cachedTokens)) in
  match known_rate (md_inputPer1k m), known_rate (md_outputPer1k m) with
  | Some inputRate, Some outputRate =>
      if nlt nzero cached && negb (isKnownRate (md_cachedPer1k m)) then None
      else
        let uncached := nmax nzero (nsub (num_or_zero inputTokens) cached) in
        let total := nadd (nadd (per_1k uncached inputRate)
                                (per_1k cached (default nzero (known_rate (md_cachedPer1k m)))))
                          (per_1k (nmax nzero (num_or_zero outputTokens)) outputRate) in
        if isFinite total then Some (nmax nzero (round6 total)) else None
  | _, _ => None
  end.

Section Pow.
Context (pow : num → nat → num).

(** [Math.max(0, Math.min(5, Math.floor(Number(maxRetries) || 0)))] *)
Definition bounded_retries (maxRetries : num) : nat :=
  Z.to_nat (to_Z_floor (nmax nzero (nmin (of_Z 5) (nfloor (num_or_zero maxRetries))))).

(* [src/backend/src/decisions/routing-objective.js:54-63] estimateRetryCostUsd *)
Definition estimateRetryCostUsd (providerCostUsd : option num) (reliability : jsnum) (maxRetries : num) : option num :=
  cost ← providerCostUsd;
  let r := to_number reliability in
  if negb (isFinite r) || nlt r nzero || nlt (of_Z 1) r then None
  else
    let expectedAttempts :=
      foldl (λ a k, nadd a (pow (nsub (of_Z 1) r) k)) nzero (seq 0 (S (bounded_retries maxRetries))) in
    Some (round6 (nmax nzero (nmul cost (nsub expectedAttempts (of_Z 1))))).
End Pow.

(** The prices a run's policy sets. *)
Record pricing_policy := PricingPolicy {
  pp_expectedContinuationCostUsd : jsnum;
  pp_expectedToolCalls : jsnum;
  pp_toolCostPerCall : jsnum;
  pp_latencyCostPerMsUsd : jsnum;
}.

Inductive tool_basis := by_continuation | by_tool_calls | no_tool_input.

(* [src/backend/src/decisions/routing-objective.js:69-79] estimateToolContinuationCostUsd *)
Definition estimateToolContinuationCostUsd (p : pricing_policy) : num * tool_basis :=
  let c := to_number (pp_expectedContinuationCostUsd p) in
  if isFinite c && nle nzero c then (c, by_continuation)
  else
    let calls := to_number (pp_expectedToolCalls p) in
    let perCall := to_number (pp_toolCostPerCall p) in
    if isFinite calls && nlt nzero calls && isFinite perCall && nle nzero perCall
    then (round6 (nmul calls perCall), by_tool_calls) else (nzero, no_tool_input).

(* [src/backend/src/decisions/routing-objective.js:84-91] estimateLatencyPenaltyUsd *)
Definition estimateLatencyPenaltyUsd (expectedLatencyMs : jsnum) (p : pricing_policy) : num * bool :=
  let rate := to_number (pp_latencyCostPerMsUsd p) in
  let lat := to_number expectedLatencyMs in
  if isFinite rate && nlt nzero rate && isFinite lat && nlt nzero lat
  then (round6 (nmul lat rate), true) else (nzero, false).

(** ** Candidates *)

Inductive success_basis := predicted_success | task_fit | registry_quality | success_unknown.

Record objective := Objective {
  ob_expectedTotalCostUsd : option num;
  ob_costPerSuccessUsd : option num;
  ob_objectiveValue : option num;
  ob_successBasis : success_basis;
  ob_successUsed : option num;
}.

(** A scored model, as [evaluateCandidates] builds it. *)
Record candidate := Candidate {
  k_modelId : string;
  k_provider : option string;
  k_score : num;
  k_quality : num;
  k_switchCost : num;
  k_avgLatencyMs : jsnum;
  k_outputPer1k : jsnum;
  k_estimatedCost : option num;
  k_predictedSuccess : option num;
  k_taskFitScore : option num;
  k_expectedCostUsd : option num;
  k_breakdown_provider : option num;
  k_breakdown_retry : option num;
  k_breakdown_switching : option num;
  k_expectedLatencyMs : option num;
  k_excluded : option string;
  k_objective : option objective;
}.
#[export] Instance candidate_eta : Eta candidate := λ k,
  Candidate (k_modelId k) (k_provider k) (k_score k) (k_quality k) (k_switchCost k) (k_avgLatencyMs k)
    (k_outputPer1k k) (k_estimatedCost k) (k_predictedSuccess k) (k_taskFitScore k) (k_expectedCostUsd k)
    (k_breakdown_provider k) (k_breakdown_retry k) (k_breakdown_switching k) (k_expectedLatencyMs k)
    (k_excluded k) (k_objective k).

(** [null] for an absent number. *)
Definition nullable_num (o : option num) : jsnum := match o with Some n => JNumber n | None => JNullish end.

(** A finite number, when the value is present and is one. *)
Definition pick (o : option num) : option num := n ← o; if isFinite n then Some n else None.
Definition clamp_success (n : num) : num := nmax SUCCESS_FLOOR (nmin (of_Z 1) n).

(* [src/backend/src/decisions/routing-objective.js:93-102] successForObjective *)
Definition successForObjective (k : candidate) : option num * success_basis :=
  match pick (k_predictedSuccess k), pick (k_taskFitScore k), pick (Some (k_quality k)) with
  | Some p, _, _ => (Some (clamp_success p), predicted_success)
  | None, Some t, _ => (Some (clamp_success t), task_fit)
  | None, None, Some q => (Some (clamp_success q), registry_quality)
  | None, None, None => (None, success_unknown)
  end.

(** [Number.isFinite(Number(x)) ? Math.max(0, Number(x)) : ...] *)
Definition switching_usd (switchCosts : jsmap string num) (k : candidate) : num :=
  let fallback := if isFinite (k_switchCost k) then nmax nzero (k_switchCost k) else nzero in
  match mget switchCosts (k_modelId k) with
  | Some c => if isFinite c then nmax nzero c else fallback
  | None => fallback
  end.

(** A missing provider cost is [null], which [Number] makes 0. *)
Definition provider_part (k : candidate) : option num :=
  let p := to_number (nullable_num (k_breakdown_provider k)) in if isFinite p then Some p else None.

(* [src/backend/src/decisions/routing-objective.js:105-145] computeObjective *)
Definition computeObjective (switchCosts : jsmap string num) (policy : pricing_policy) (k : candidate) : objective :=
  let provider := provider_part k in
  let retry := pick (k_breakdown_retry k) in
  let tool := (estimateToolContinuationCostUsd policy).1 in
  let lat := (estimateLatencyPenaltyUsd (match k_expectedLatencyMs k with Some l => JNumber l | None => k_avgLatencyMs k end) policy).1 in
  let total := p ← provider; r ← retry;
    Some (round6 (nadd (nadd (nadd (nadd p r) (switching_usd switchCosts k)) tool) lat)) in
  let success := successForObjective k in
  let perSuccess := t ← total; s ← success.1; Some (round6 (ndiv t s)) in
  Objective total perSuccess (match perSuccess with Some v => Some v | None => total end) success.2 success.1.

(* [src/backend/src/decisions/routing-objective.js:149-151] attachObjectives *)
Definition attachObjectives (switchCosts : jsmap string num) (policy : pricing_policy) (l : list candidate) : list candidate :=
  (λ k, (k <| k_objective := Some (computeObjective switchCosts policy k) |>)%js) <$> l.

(** ** The winner *)

Section Select.
Context (locale_before : string → string → bool).

(** The value that is minimised; an unknown one is infinite. *)
Definition objective_val (k : candidate) : num := default Infinity (o ← k_objective k; ob_objectiveValue o).

Definition is_excluded (k : candidate) : bool := truthy (k_excluded k).

(** [val(a) - val(b) || b.score - a.score || a.modelId.localeCompare(b.modelId)] *)
Definition objective_before (a b : candidate) : bool :=
  let d := nsub (objective_val a) (objective_val b) in
  if truthy_num d then nlt d nzero
  else
    let d' := nsub (num_or_zero (k_score b)) (num_or_zero (k_score a)) in
    if truthy_num d' then nlt d' nzero else locale_before (k_modelId a) (k_modelId b).

Definition selection_pool (l : list candidate) : list candidate :=
  match List.filter (λ k, negb (is_excluded k)) l with [] => l | eligible => eligible end.

(* [src/backend/src/decisions/routing-objective.js:155-166] selectByObjective *)
Definition selectByObjective (l : list candidate) : option candidate :=
  head (js_sort objective_before (selection_pool l)).

(** ** Properties *)

(** A candidate whose value and score are numbers. *)
Definition measured (k : candidate) : Prop := number (objective_val k) ∧ number (num_or_zero (k_score k)).

#[export] Instance measured_dec k : Decision (measured k).
Proof. unfold measured. apply _. Defined.

(** The order of the comparator, spelled out. *)
Definition cheaper : candidate → candidate → bool :=
  lex (λ a b, key_lt (objective_val a) (objective_val b))
    (lex (λ a b, key_lt (num_or_zero (k_score b)) (num_or_zero (k_score a)))
       (λ a b, locale_before (k_modelId a) (k_modelId b))).

Lemma objective_before_cheaper a b : measured a → measured b → objective_before a b = cheaper a b.
Proof.
  intros [Ha Sa] [Hb Sb]. unfold objective_before, cheaper, lex. cbv zeta.
  rewrite (difference_or _ _ _ Ha Hb), (difference_or _ _ _ Sb Sa). done.
Qed.

#[local] Instance cheaper_weak : WeakOrder locale_before → WeakOrder cheaper.
Proof.
  intros Hl. apply lex_weak; [by apply (on_weak objective_val), key_lt_weak|].
  apply lex_weak; [|by apply (on_weak k_modelId)].
  apply (flip_weak (λ a b, key_lt (num_or_zero (k_score a)) (num_or_zero (k_score b)))).
  apply (on_weak (λ k, num_or_zero (k_score k)) key_lt), key_lt_weak.
Qed.

Lemma selection_pool_in l k : k ∈ selection_pool l → k ∈ l.
Proof.
  unfold selection_pool. destruct (List.filter _ l) as [|x f] eqn:E; [done|]. rewrite <-E.
  rewrite !list_elem_of_In. by intros [? _]%List.filter_In.
Qed.

Lemma selection_pool_eligible l k : (∃ c, c ∈ l ∧ is_excluded c = false) →
  k ∈ selection_pool l ↔ k ∈ l ∧ is_excluded k = false.
Proof.
  intros (c & Hc & Ec). unfold selection_pool.
  assert (∀ k, k ∈ List.filter (λ k, negb (is_excluded k)) l ↔ k ∈ l ∧ is_excluded k = false) as H.
  { intros k'. by rewrite !list_elem_of_In, List.filter_In, negb_true_iff. }
  destruct (List.filter _ l) as [|x f] eqn:E; [|by rewrite <-H].
  exfalso. apply (not_elem_of_nil c). by apply H.
Qed.

Lemma selection_total l : l ≠ [] → is_Some (selectByObjective l).
Proof.
  intros Hl. unfold selectByObjective. assert (selection_pool l ≠ []) as Hne.
  { unfold selection_pool. by destruct (List.filter _ l). }
  pose proof (js_sort_perm objective_before (selection_pool l)) as Hp.
  destruct (js_sort _ _); [|by eexists]. by apply Permutation_nil_l in Hp.
Qed.

(** A candidate that may win: one that is not excluded, or any when all are. *)
Definition may_win (l : list candidate) (c : candidate) : Prop :=
  c ∈ l ∧ (is_excluded c = false ∨ ∀ c', c' ∈ l → is_excluded c' = true).

Lemma selection_pool_may_win l c : c ∈ selection_pool l ↔ may_win l c.
Proof.
  unfold may_win. destruct (existsb (λ k, negb (is_excluded k)) l) eqn:E.
  - apply existsb_exists in E as (x & Hx & Ex). apply list_elem_of_In in Hx. apply negb_true_iff in Ex.
    rewrite selection_pool_eligible by eauto. split; [tauto|]. intros [Hc [H|H]]; [done|].
    specialize (H x Hx). congruence.
  - assert (∀ k, k ∈ l → is_excluded k = true) as Hall.
    { intros k Hk. destruct (is_excluded k) eqn:Ek; [done|]. enough (existsb (λ k, negb (is_excluded k)) l = true) by congruence.
      apply existsb_exists. exists k. split; [by apply list_elem_of_In|by rewrite Ek]. }
    split; [intros Hc; split; [by apply selection_pool_in|by right]|]. intros [Hc _]. unfold selection_pool.
    assert (List.filter (λ k, negb (is_excluded k)) l = []) as ->; [|done].
    clear Hc E. induction l as [|k l IH]; [done|]. cbn. rewrite (Hall k) by left. apply IH. intros k' Hk'. apply Hall. by right.
Qed.

(** C34: The cheapest candidate wins. Of candidates whose objective values and
    scores are numbers, and of which there is at least one, there is a winner; it is
    one of them and is not excluded unless all are; of those that may win in this
    sense none has a lower objective value, and one of the same value has no higher
    score; and when one of them has a finite value, so does the winner. The objective
    value is the one the candidate carries; none counts as infinite. It is the
    expected cost per success that [computeObjective] gives it, in which a missing
    provider cost is 0 ([missing_cost_is_free]). *)
Theorem cheapest_wins l : WeakOrder locale_before → Forall measured l → l ≠ [] →
  ∃ w, selectByObjective l = Some w ∧ may_win l w ∧
  (∀ c, may_win l c →
     nlt (objective_val c) (objective_val w) = false ∧
     (nlt (objective_val w) (objective_val c) = false → nlt (num_or_zero (k_score w)) (num_or_zero (k_score c)) = false) ∧
     (isFinite (objective_val c) = true → objective_val w ≠ Infinity)).
Proof.
  intros Hloc Hm Hne. destruct (selection_total l Hne) as [w Ew]. exists w. split; [done|]. revert Ew. unfold selectByObjective.
  assert (Forall measured (selection_pool l)) as Hp.
  { rewrite Forall_forall in *. intros k Hk. by apply Hm, selection_pool_in. }
  rewrite (js_sort_ext objective_before cheaper measured) by (done || apply objective_before_cheaper).
  destruct (js_sort cheaper (selection_pool l)) as [|x k] eqn:E; [done|]. intros [= ->].
  destruct (js_sort_least cheaper _ _ _ E) as [Hw Hleast]. split; [by apply selection_pool_may_win|].
  intros c Hc%selection_pool_may_win.
  rewrite Forall_forall in Hp. destruct (Hp c Hc) as [[_ V1] [_ S1]], (Hp w Hw) as [[_ V2] [_ S2]].
  pose proof (Hleast c Hc) as Hl. apply lex_false in Hl as [H1 H2].
  assert (nlt (objective_val c) (objective_val w) = false) as Hlt by (by rewrite nlt_key_lt).
  split; [done|]. split.
  - rewrite !nlt_key_lt by done. intros H3. destruct H2 as [H2|H2]; [congruence|]. by apply lex_false in H2 as [? _].
  - intros Hf Ei. rewrite Ei in Hlt. destruct (objective_val c) as [[]|[]| |[] ? ?]; done.
Qed.
End Select.

(** What is not priced has no objective: the retry cost is unknown with it. *)
Lemma unpriced_no_objective switchCosts policy k :
  k_breakdown_retry k = None → ob_objectiveValue (computeObjective switchCosts policy k) = None.
Proof. intros H. unfold computeObjective. rewrite H. simpl. by destruct (provider_part k). Qed.

Lemma pick_finite o n : pick o = Some n → isFinite n = true.
Proof. destruct o as [x|]; [|done]. cbn. destruct (isFinite x) eqn:E; [|done]. by intros [= <-]. Qed.

Lemma clamp_success_bounds n : isFinite n = true →
  nle SUCCESS_FLOOR (clamp_success n) = true ∧ nle (clamp_success n) (of_Z 1) = true.
Proof.
  intros Hn. destruct (nclamp_bounds SUCCESS_FLOOR (of_Z 1) n eq_refl (isFinite_not_nan _ Hn)) as (H1 & H2 & _).
  exact (conj H1 H2).
Qed.

(** The success an objective divides by lies in [0.05, 1]. *)
Lemma success_used_bounds k s : (successForObjective k).1 = Some s → nle SUCCESS_FLOOR s = true ∧ nle s (of_Z 1) = true.
Proof.
  unfold successForObjective.
  destruct (pick (k_predictedSuccess k)) eqn:E1; [intros [= <-]; eauto using clamp_success_bounds, pick_finite|].
  destruct (pick (k_taskFitScore k)) eqn:E2; [intros [= <-]; eauto using clamp_success_bounds, pick_finite|].
  destruct (pick (Some (k_quality k))) eqn:E3; [intros [= <-]; eauto using clamp_success_bounds, pick_finite|discriminate].
Qed.

Definition demo_candidate (id : string) (cost : option num) (score : num) (excluded : option string) : candidate :=
  Candidate id None score (ratio 8 10) nzero JNullish JNullish cost None None cost cost ((λ _, nzero) <$> cost) None None excluded
    (Some (Objective cost None cost success_unknown None)).
Definition demo_candidates : list candidate :=
  [demo_candidate "a" (Some (ratio 1 1000)) (ratio 9 10) (Some "budget"); demo_candidate "b" None (ratio 9 10) None;
   demo_candidate "c" (Some (ratio 2 1000)) (ratio 5 10) None; demo_candidate "d" (Some (ratio 2 1000)) (ratio 6 10) None].

Lemma ltb_weak : WeakOrder (λ a b : string, false).
Proof. by split. Defined.

Lemma cheapest_wins_witness :
  selectByObjective (λ _ _, false) demo_candidates = Some (demo_candidate "d" (Some (ratio 2 1000)) (ratio 6 10) None) ∧
  ∃ w, selectByObjective (λ _ _, false) demo_candidates = Some w ∧ may_win demo_candidates w.
Proof.
  split; [vm_compute; reflexivity|].
  destruct (cheapest_wins (λ _ _, false) demo_candidates ltb_weak) as (w & H1 & H2 & _).
  - apply (bool_decide_eq_true_1 _). vm_compute. reflexivity.
  - done.
  - exists w. by split.
Defined.

(** A candidate whose provider cost is missing, with a retry cost that is known, has
    the objective value 0. *)
Example missing_cost_is_free :
  ob_objectiveValue (computeObjective [] (PricingPolicy JUndefined JUndefined JUndefined JUndefined)
    (let c := demo_candidate "x" None nzero None in c <| k_breakdown_retry := Some nzero |>)%js) = Some nzero.
Proof. vm_compute. reflexivity. Qed.
