(* ===== verification/RouterIntel.v ===== *)
(** The intelligence overlay of the router (backend/src/intelligence/router-intelligence.js):
    the scores of a model for a task from declared facts and from what was
    observed, expected utility, ranking, the switching policy and the
    counterfactuals.

    A metric that is not known is [None] and stays so. Of a reason, the factor,
    the direction and the contribution are kept. *)

From S2P Require Import Prelude JsMap JsValue Number Sorting NumberOrder Performance TaskClassifier ModelRegistry RoutingObjective.

Local Open Scope string_scope.

(* [src/backend/src/intelligence/router-intelligence.js:31-37] UTILITY_DEFAULTS *)
Record utility := Utility {
  u_valuePerSuccess : num;
  u_costPerDollar : num;
  u_latencyPerSecond : num;
  u_riskWeight : num;
  u_unknownPenalty : num;
}.
(* [src/backend/src/intelligence/router-intelligence.js:31-37] UTILITY_DEFAULTS *)
Definition UTILITY_DEFAULTS : utility := Utility (of_Z 1) (ratio 8 10) (ratio 2 100) (ratio 15 100) (ratio 2 100).

(* [src/backend/src/intelligence/router-intelligence.js:39-41] isKnown *)
Definition isKnown (v : jsnum) : bool := present v && isFinite (to_number v).
Definition known_num (v : jsnum) : option num := if isKnown v then Some (to_number v) else None.

(* [src/backend/src/intelligence/router-intelligence.js:43-46] clamp01 *)
Definition clamp_known (v : jsnum) : option num := n ← known_num v; Some (nmax nzero (nmin (of_Z 1) n)).

(* [src/backend/src/intelligence/router-intelligence.js:48-50] round4 *)
Definition round4 (x : num) : num := ndiv (nround (nmul x (of_Z 10000))) (of_Z 10000).

Definition has_cap (c : string) (m : model) : bool := bool_decide (c ∈ default [] (md_capabilities m)).

(* [src/backend/src/intelligence/router-intelligence.js:58-66] toolCapabilityScore *)
Definition toolCapabilityScore (m : model) (p : profile) : option num :=
  if negb (p_requiresTools p) then (if has_cap "tools" m then Some (ratio 8 10) else None)
  else if has_cap "tools" m then Some (ratio 9 10)
  else if has_cap "structured" m then Some (ratio 5 10) else Some (ratio 2 10).

(** The score, and whether the context does not fit. *)
(* [src/backend/src/intelligence/router-intelligence.js:69-78] contextFitScore *)
Definition contextFitScore (m : model) (needTokens : num) : option num * bool :=
  let window := num_or_zero (of_Z (md_contextWindow m)) in
  let need := nmax nzero (num_or_zero needTokens) in
  if negb (nlt nzero window) then (None, false)
  else if nle need nzero then (Some (ratio 8 10), false)
  else if nlt window need then (Some nzero, true)
  else
    let util := ndiv need window in
    let fit := if nle util (nsub (of_Z 1) (ratio 15 100)) then nsub (of_Z 1) (nmul util (ratio 3 10))
               else nmax (ratio 1 10) (nsub (of_Z 1) util) in
    (Some (round3 fit), false).

(* [src/backend/src/intelligence/router-intelligence.js:80-83] normalizeCost *)
Definition normalizeCost (c : option num) : option num :=
  n ← c; if isFinite n && nle nzero n then Some (round3 (nmax nzero (nsub (of_Z 1) (nmul n (of_Z 5))))) else None.

(* [src/backend/src/intelligence/router-intelligence.js:85-88] normalizeLatency *)
Definition normalizeLatency (l : option num) : option num :=
  n ← l; if isFinite n && nle nzero n then Some (round3 (nmax nzero (nsub (of_Z 1) (ndiv n (of_Z 8000))))) else None.

(** The cached tokens are not bounded by the input here: the caller bounds them. *)
(* [src/backend/src/intelligence/router-intelligence.js:90-102] estimateCostUsd *)
Definition estimateCostUsd (m : model) (inputTokens outputTokens cachedTokens : num) : option num :=
  inputRate ← known_rate (md_inputPer1k m); outputRate ← known_rate (md_outputPer1k m);
  if nlt nzero cachedTokens && negb (isKnownRate (md_cachedPer1k m)) then None
  else
    let uncached := nmax nzero (nsub (num_or_zero inputTokens) (num_or_zero cachedTokens)) in
    Some (round4 (nadd (nadd (per_1k uncached inputRate)
                             (per_1k (nmax nzero (num_or_zero cachedTokens)) (default nzero (known_rate (md_cachedPer1k m)))))
                       (per_1k outputTokens outputRate))).

(* [src/backend/src/intelligence/router-intelligence.js:104-109] expectedLatencyMs *)
Definition expectedLatencyMs (m : model) (perf : option stats) : option num :=
  let observed := p ← perf;
    if (3 <=? s_count p)%nat then
      match pick (s_p50 p) with Some x => Some x | None => pick (s_mean p) end
    else None in
  match observed with Some x => Some x | None => known_num (md_avgLatencyMs m) end.

(** ** Scoring a candidate *)

Record score_context := ScoreContext {
  sc_profile : profile;
  sc_store : option store;
  sc_tenantId : option string;
  sc_needTokens : num;
  sc_cachedTokens : num;
  sc_remainingBudget : jsnum;
  sc_hardBudget : bool;
  sc_utility : utility;
}.

Inductive direction := for_ | against | neutral.
Record reason := Reason { rs_factor : string; rs_direction : direction; rs_contribution : num }.

Record scored := Scored {
  sd_modelId : string;
  sd_predictedSuccess : option num;
  sd_attempts : Z;
  sd_confidence : confidence;
  sd_qualityScore : option num;
  sd_taskFitScore : option num;
  sd_reliabilityScore : option num;
  sd_contextFitScore : option num;
  sd_costScore : option num;
  sd_latencyScore : option num;
  sd_toolCapabilityScore : option num;
  sd_expectedCostUsd : option num;
  sd_expectedLatencyMs : option num;
  sd_finalScore : num;
  sd_excluded : option string;
  sd_reasons : list reason;
}.

(** The store's method is asked for its [length], which counts the parameters
    before the first default: two. The estimate is never narrowed to a workload. *)
Definition prediction_of (m : model) (c : score_context) : option prediction :=
  s ← sc_store c; Some (predictedSuccess s (md_id m) (Some (category_name (p_category (sc_profile c)))) None (sc_tenantId c)).
Definition latency_of (m : model) (c : score_context) : option stats :=
  s ← sc_store c; Some (latency s (md_id m) (Some (category_name (p_category (sc_profile c)))) (sc_tenantId c)).

(* [src/backend/src/intelligence/router-intelligence.js:139-141] taskFitScore *)
Definition task_fit_of (predicted quality : option num) (p : profile) : option num :=
  match predicted with
  | Some x => Some (round3 x)
  | None => q ← quality; if nle (ratio 5 10) (p_confidence p) then Some (round3 (nadd (ratio 5 10) (nmul q (ratio 3 10)))) else None
  end.

(* [src/backend/src/intelligence/router-intelligence.js:142-159] reliabilityScore *)
Definition reliability_of (m : model) (c : score_context) : option num :=
  match s ← sc_store c; reliabilityFor s (md_id m) (sc_tenantId c) with
  | Some (n, rate, _) => if (3 <=? n)%Z then Some (round3 (nsub (of_Z 1) rate)) else clamp_known (md_reliability m)
  | None => clamp_known (md_reliability m)
  end.

(** Excluded by the budget, and the penalty of a soft one. *)
(* [src/backend/src/intelligence/router-intelligence.js:169-185] budget *)
Definition budget_of (c : score_context) (expCost : option num) : bool * num :=
  match known_num (sc_remainingBudget c), expCost with
  | Some remaining, Some cost =>
      if nlt remaining cost then
        if sc_hardBudget c || nle remaining (ratio 1 100) then (true, nzero)
        else (false, nmin (ratio 4 10) (nmul (nsub cost remaining) (of_Z 5)))
      else (false, nzero)
  | _, _ => (false, nzero)
  end.

Definition absent (l : list (option num)) : nat := length (List.filter (λ o, bool_decide (o = None)) l).

(* [src/backend/src/intelligence/router-intelligence.js:191-202] utilityValue *)
Definition utility_value (u : utility) (pSuccess cost latency reliability : option num) (unknowns : nat) (penalty : num) : option num :=
  p ← pSuccess;
  Some (round4 (nsub (nsub (nsub (nsub (nsub (nmul p (u_valuePerSuccess u))
    (match cost with Some x => nmul x (u_costPerDollar u) | None => ratio 5 100 end))
    (match latency with Some x => nmul (ndiv x (of_Z 1000)) (u_latencyPerSecond u) | None => ratio 2 100 end))
    (nmul (nsub (of_Z 1) (default (ratio 7 10) reliability)) (u_riskWeight u)))
    (nmul (of_Z (Z.of_nat unknowns)) (u_unknownPenalty u))) penalty)).

Definition neutral_or (o : option num) : num := default (ratio 5 10) o.

(** The weights the router passes. *)
(* [src/backend/src/intelligence/router-intelligence.js:207-222] finalScore *)
Definition final_score (utilityValue quality cost latency reliability contextFit : option num) (excluded : bool) : num :=
  if excluded then nzero
  else match utilityValue with
  | Some v => round3 (nmax nzero (nmin (of_Z 1) (nadd (ratio 5 10) (nmul v (ratio 6 10)))))
  | None =>
      round3 (nadd (nadd (nadd (nadd (nmul (neutral_or quality) (ratio 4 10)) (nmul (neutral_or cost) (ratio 2 10)))
        (nmul (neutral_or latency) (ratio 15 100))) (nmul (neutral_or reliability) (ratio 15 100)))
        (nmul (neutral_or contextFit) (ratio 1 10)))
  end.

Definition by_level (x hi lo : num) : direction := if nle hi x then for_ else if nle x lo then against else neutral.

(* [src/backend/src/intelligence/router-intelligence.js:224-239] reasons *)
Definition reasons_of (u : utility) (taskFit quality cost latency reliability tool : option num) (fit : option num * bool)
    (over : bool * num) (near : bool) (predicted : option num) (conf : confidence) (unknowns : nat) : list reason :=
  [match taskFit with
   | Some x => Reason "task_fit" (by_level x (ratio 7 10) (ratio 4 10)) (round3 (nsub x (ratio 5 10)))
   | None => Reason "task_fit" neutral nzero end;
   match quality with
   | Some x => Reason "quality" (by_level x (ratio 8 10) (ratio 5 10)) (round3 (nmul (nsub x (ratio 5 10)) (ratio 4 10)))
   | None => Reason "quality" neutral nzero end;
   match cost with
   | Some x => Reason "cost" neutral (round3 (nmul (nneg x) (u_costPerDollar u)))
   | None => Reason "cost" neutral nzero end;
   match latency with
   | Some x => Reason "latency" (if nle x (of_Z 2000) then for_ else if nle (of_Z 5000) x then against else neutral)
       (round3 (nmul (nneg (ndiv x (of_Z 1000))) (u_latencyPerSecond u)))
   | None => Reason "latency" neutral nzero end;
   match reliability with
   | Some x => Reason "reliability" (by_level x (ratio 95 100) (ratio 8 10)) (round3 (nmul (nsub x (ratio 8 10)) (ratio 3 10)))
   | None => Reason "reliability" neutral nzero end]
  ++ match fit.1 with
     | Some x => [if fit.2 then Reason "context_fit" against (ratio (-5) 10)
                  else Reason "context_fit" (if nle (ratio 7 10) x then for_ else neutral) (round3 (nmul (nsub x (ratio 5 10)) (ratio 2 10)))]
     | None => [] end
  ++ match tool with
     | Some x => [Reason "tool_support" (by_level x (ratio 8 10) (ratio 3 10)) (round3 (nmul (nsub x (ratio 5 10)) (ratio 15 100)))]
     | None => [] end
  ++ (if near then [if over.1 then Reason "budget" against (of_Z (-1)) else Reason "budget" neutral (round3 (nneg over.2))] else [])
  ++ (if bool_decide (is_Some predicted) && bool_decide (conf = c_none)
      then [Reason "risk" neutral (round3 (nmul (nneg (u_unknownPenalty u)) (of_Z (Z.of_nat unknowns))))] else []).

(** The budget is named among the reasons when the cost exceeds it. *)
Definition over_budget (c : score_context) (expCost : option num) : bool :=
  match known_num (sc_remainingBudget c), expCost with Some r, Some cost => nlt r cost | _, _ => false end.

(* [src/backend/src/intelligence/router-intelligence.js:113-273] scoreCandidate *)
Definition scoreCandidate (m : model) (c : score_context) : scored :=
  let pr := prediction_of m c in
  let predicted := d_predicted <$> pr in
  let conf := from_option d_confidence c_none pr in
  let quality := clamp_known (md_quality m) in
  let taskFit := task_fit_of predicted quality (sc_profile c) in
  let reliability := reliability_of m c in
  let fit := contextFitScore m (sc_needTokens c) in
  let tool := toolCapabilityScore m (sc_profile c) in
  let need := num_or_zero (sc_needTokens c) in
  let expCost := estimateCostUsd m need (of_Z 1000) (nmin need (num_or_zero (sc_cachedTokens c))) in
  let expLat := expectedLatencyMs m (latency_of m c) in
  let costScore := normalizeCost expCost in
  let latencyScore := normalizeLatency expLat in
  let over := budget_of c expCost in
  let pSuccess := match taskFit with Some x => Some x | None => predicted end in
  let unknowns := absent [quality; taskFit; reliability; fit.1; costScore; latencyScore; tool] in
  let u := utility_value (sc_utility c) pSuccess expCost expLat reliability unknowns over.2 in
  Scored (md_id m) pSuccess (from_option (t_attempts ∘ d_tally) 0%Z pr) conf quality taskFit reliability fit.1 costScore
    latencyScore tool expCost expLat
    (final_score u quality costScore latencyScore reliability fit.1 (fit.2 || over.1))
    (if fit.2 then Some "context_window" else if over.1 then Some "budget" else None)
    (reasons_of (sc_utility c) taskFit quality expCost expLat reliability tool fit over (over_budget c expCost) pSuccess conf unknowns).

Section Rank.
Context (locale_before : string → string → bool).

(* [src/backend/src/intelligence/router-intelligence.js:275-283] rankCandidates *)
Definition rank_before (a b : scored) : bool :=
  match sd_excluded a, sd_excluded b with
  | Some _, None => false
  | None, Some _ => true
  | _, _ =>
      let d := nsub (sd_finalScore b) (sd_finalScore a) in
      if truthy_num d then nlt d nzero else locale_before (sd_modelId a) (sd_modelId b)
  end.
Definition rankCandidates (l : list model) (c : score_context) : list scored :=
  js_sort rank_before ((λ m, scoreCandidate m c) <$> l).
End Rank.

(** ** The switching policy *)

(* [src/backend/src/intelligence/router-intelligence.js:302-306] SWITCH_TRIGGERS *)
Definition SWITCH_TRIGGERS : list string :=
  ["provider_failure"; "context_overflow"; "tool_compatibility_failure"; "repeated_unsuccessful_trajectory";
   "quality_prediction_collapse"; "budget_constraint"; "latency_threshold"].
Definition FORCED_TRIGGERS : list string := ["provider_failure"; "context_overflow"; "tool_compatibility_failure"].

Inductive switch_verdict :=
| UnknownTrigger
| InitialSelection
| SameModel
| ForcedSwitch
| NotWorthIt
| WorthIt (expectedBenefit : num).

Definition switches (v : switch_verdict) : bool :=
  match v with InitialSelection | ForcedSwitch | WorthIt _ => true | _ => false end.

(* [src/backend/src/intelligence/router-intelligence.js:308-337] decideSwitch *)
Definition decideSwitch (fromModel : option string) (toModel trigger : string)
    (incumbentScore challengerScore switchingCostUsd minGain : jsnum) : switch_verdict :=
  if negb (bool_decide (trigger ∈ SWITCH_TRIGGERS)) && negb (bool_decide (trigger = "manual"))
     && negb (bool_decide (trigger = "initial")) then UnknownTrigger
  else if negb (truthy fromModel) then InitialSelection
  else if bool_decide (fromModel = Some toModel) then SameModel
  else if bool_decide (trigger ∈ FORCED_TRIGGERS) then ForcedSwitch
  else
    let gain := nsub (to_number challengerScore) (to_number incumbentScore) in
    let costUnits := nmul (ratio 2 10) (ndiv (num_or_zero (to_number switchingCostUsd)) (ratio 1 100)) in
    let net := nsub gain costUnits in
    let minimum := or_num (to_number minGain) (ratio 3 100) in
    if negb (isFinite gain) || nle net nzero || nlt gain minimum then NotWorthIt else WorthIt (round4 gain).

(** ** Counterfactuals *)

Definition clamp_limit (n : Z) : nat := Z.to_nat (Z.max 1 (Z.min 5 (if (n =? 0)%Z then 2 else n))).

(** Model, estimated success, cost and latency of the candidates not chosen. *)
(* [src/backend/src/intelligence/router-intelligence.js:341-355] counterfactuals *)
Definition counterfactuals (selected : string) (ranked : list candidate) (limit : Z)
    : list (string * option num * option num * option num) :=
  (λ k, (k_modelId k, k_predictedSuccess k, k_expectedCostUsd k, k_expectedLatencyMs k)) <$>
  take (clamp_limit limit) (List.filter (λ k, negb (bool_decide (k_modelId k = selected))) ranked).

(** The alternative, with the differences that are known. *)
(* [src/backend/src/intelligence/router-intelligence.js:357-378] explainSelection *)
Definition explainSelection (selected : candidate) (ranked : list candidate) : option (string * option num * option num) :=
  let other k := negb (bool_decide (k_modelId k = k_modelId selected)) in
  let alt := match List.find (λ k, other k && negb (is_excluded k)) ranked with
    | Some k => Some k | None => List.find other ranked end in
  k ← alt;
  Some (k_modelId k,
    (a ← k_predictedSuccess selected; b ← k_predictedSuccess k; Some (round3 (nsub a b))),
    (a ← k_expectedCostUsd selected; b ← k_expectedCostUsd k; Some (round4 (nsub a b)))).

(** ** Properties *)

(** A model with no record is scored without one: in particular, its static
    quality is what its predicted success is made of. *)
Lemma unobserved_success_is_quality m c q :
  sc_store c = None → clamp_known (md_quality m) = Some q → nle (ratio 5 10) (p_confidence (sc_profile c)) = true →
  sd_predictedSuccess (scoreCandidate m c) = Some (round3 (nadd (ratio 5 10) (nmul q (ratio 3 10)))).
Proof. intros Hs Hq Hc. unfold scoreCandidate, prediction_of, task_fit_of. rewrite Hs, Hq. cbn. by rewrite Hc. Qed.

(** Excluded candidates score nothing, and rank after the others. *)
Lemma excluded_scores_zero m c : is_Some (sd_excluded (scoreCandidate m c)) → sd_finalScore (scoreCandidate m c) = nzero.
Proof.
  unfold scoreCandidate. cbv zeta. cbn [sd_excluded sd_finalScore]. unfold final_score.
  destruct (contextFitScore m (sc_needTokens c)) as [f []]; [done|]. cbn [snd orb].
  destruct (budget_of c _) as [[] p]; [done|]. by intros [? ?].
Qed.

(** A switch that is not forced pays: its gain is at least the minimum and covers
    the cost in the units of the score. *)
Theorem optional_switch_pays from to trigger i ch cost g : trigger ∉ FORCED_TRIGGERS →
  from ≠ None → from ≠ Some "" → switches (decideSwitch from to trigger i ch cost g) = true →
  let gain := nsub (to_number ch) (to_number i) in
  from ≠ Some to ∧ isFinite gain = true ∧
  nle (nsub gain (nmul (ratio 2 10) (ndiv (num_or_zero (to_number cost)) (ratio 1 100)))) nzero = false ∧
  nlt gain (or_num (to_number g) (ratio 3 100)) = false.
Proof.
  intros Hf Hn He Hs gain. unfold decideSwitch in Hs. fold gain in Hs.
  assert (truthy from = true) as Ht by (destruct from as [[]|]; naive_solver). rewrite Ht in Hs.
  rewrite (bool_decide_false (trigger ∈ FORCED_TRIGGERS)) in Hs by done.
  destruct (negb (bool_decide (trigger ∈ SWITCH_TRIGGERS)) && _ && _); [done|]. cbn [negb] in Hs.
  case_bool_decide; [done|].
  destruct (isFinite gain); [|done]. destruct (nle _ nzero); [done|]. by destruct (nlt gain _).
Qed.
