(* ===== verification/Eligibility.v ===== *)
(** The eligibility pipeline of the router ([runEligibility] of
    backend/src/impl/model-router.js): availability, provider, pricing, capability
    and context, quality, latency, reliability, budget, in that order, each on what
    the previous one left.

    Of the log, the ids are kept. The code marks an excluded model with [_excl]
    while the pass runs; the marks only feed the log's reasons and the test of the
    context stage, which looks at the marks it has just set. *)

From S2P Require Import Prelude JsMap JsValue Number Types RuntimeState ModelRegistry RoutingObjective RouterIntel.

Local Open Scope string_scope.

(** What a run asks of its models; an absent setting is [JUndefined] or [None]. *)
Record run_policy := RunPolicy {
  rp_requireKnownProvider : bool;
  rp_allowUnknownPricing : bool;
  rp_requiredCapabilities : list string;
  rp_qualityFloor : jsnum;
  rp_latencyTargetMs : jsnum;
  rp_minReliability : jsnum;
  rp_preferredModel : option string;
  rp_hardBudget : bool;
  rp_budgetEnforcement : option string;
  rp_allowSwitching : option bool;
  rp_maxRetries : jsnum;
  rp_prices : pricing_policy;
  rp_weights : option (jsnum * jsnum * jsnum * jsnum * jsnum);
  rp_utility : utility;
}.
Definition no_prices : pricing_policy := PricingPolicy JUndefined JUndefined JUndefined JUndefined.
Definition default_policy : run_policy :=
  RunPolicy false false [] JUndefined JUndefined JUndefined None false None None JUndefined no_prices None UTILITY_DEFAULTS.

Record stage_log := StageLog { sl_stage : string; sl_survivors : list string; sl_excluded : list string }.

(** A step of the pipeline: the pool and the log, or the code of the error. *)
Definition pipeline := (list model * list stage_log)%type.
Inductive eligibility := Ineligible (code : string) (log : list stage_log) | Eligible (pool : list model) (log : list stage_log).

Definition ids (l : list model) : list string := md_id <$> l.
Definition kept (f : model → bool) (l : list model) : list model := List.filter f l.
Definition dropped (f : model → bool) (l : list model) : list model := List.filter (λ m, negb (f m)) l.

(* [src/backend/src/impl/model-router.js:64-67] stage *)
Definition stage (name : string) (pool excluded : list model) (log : list stage_log) : pipeline :=
  (pool, (log ++ [StageLog name (ids pool) (ids excluded)])%list).
Definition filter_stage (name : string) (f : model → bool) (s : pipeline) : pipeline :=
  stage name (kept f s.1) (dropped f s.1) s.2.

(** ** The tests *)

Section Tests.
Context (p : run_policy) (context : ContextState.t) (remaining : jsnum).

(* [src/backend/src/impl/model-router.js:70-78] availability *)
Definition available (m : model) : bool := negb (bool_decide (md_status m = ModelStatus.UNAVAILABLE)).

(** A provider of blanks only is no provider. *)
Definition blank (s : string) : bool := negb (Text.any_char (λ c, negb (Text.is_space c)) s).

(* [src/backend/src/impl/model-router.js:90-100] provider *)
Definition has_provider (m : model) : bool :=
  negb (rp_requireKnownProvider p) || negb (blank (default "" (md_provider m))).

Definition cached_for_routing : num := nmax nzero (of_Z (ContextState.cacheablePrefixTokens context)).

(* [src/backend/src/impl/model-router.js:102-108] hasOptimizerPricing *)
Definition hasOptimizerPricing (m : model) : bool :=
  isKnownRate (md_inputPer1k m) && isKnownRate (md_outputPer1k m)
  && (nle cached_for_routing nzero || isKnownRate (md_cachedPer1k m)).

(* [src/backend/src/impl/model-router.js:109-118] pricing *)
Definition priced (m : model) : bool := rp_allowUnknownPricing p || hasOptimizerPricing m.

(* [src/backend/src/impl/model-router.js:132-136] context window *)
Definition fits (m : model) : bool :=
  let need := ContextState.currentTokens context in
  negb ((0 <? md_contextWindow m)%Z && (0 <? need)%Z && (md_contextWindow m <? need)%Z).

(* [src/backend/src/impl/model-router.js:131-139] missing capabilities *)
Definition capable (m : model) : bool :=
  forallb (λ c, match md_capabilities m with Some l => bool_decide (c ∈ l) | None => false end) (rp_requiredCapabilities p).

(** [Number.isFinite(x) && x > 0] *)
Definition positive_setting (v : jsnum) : option num :=
  let n := to_number v in if isFinite n && nlt nzero n then Some n else None.

(* [src/backend/src/impl/model-router.js:154-160] quality *)
Definition quality_ok (floor : num) (m : model) : bool :=
  isFinite (to_number (md_quality m)) && nle floor (to_number (md_quality m)).
(* [src/backend/src/impl/model-router.js:171-177] latency *)
Definition latency_ok (target : num) (m : model) : bool :=
  isFinite (to_number (md_avgLatencyMs m)) && nle (to_number (md_avgLatencyMs m)) target.
(* [src/backend/src/impl/model-router.js:188-196] reliability *)
Definition reliability_ok (floor : num) (m : model) : bool :=
  nle floor (to_number (md_reliability m)) || bool_decide (rp_preferredModel p = Some (md_id m)).

Definition input_tokens : num := nmax nzero (of_Z (ContextState.currentTokens context)).
Definition cached_tokens : num := nmax nzero (nmin input_tokens (num_or_zero (of_Z (ContextState.cacheablePrefixTokens context)))).

(** The estimate of one call. *)
Definition call_estimate (m : model) : option num := estimateProviderCostUsd m input_tokens (of_Z 1000) cached_tokens.

(* [src/backend/src/impl/model-router.js:205-209] hard *)
Definition hard_budget : option num :=
  rem ← known_num remaining;
  if rp_hardBudget p || bool_decide (rp_budgetEnforcement p = Some "hard") || nle rem (ratio 1 100) then Some rem else None.

(* [src/backend/src/impl/model-router.js:212-220] budget *)
Definition affordable (m : model) : bool :=
  match hard_budget, call_estimate m with Some rem, Some est => negb (nlt rem est) | _, _ => true end.

(** ** The stages *)

(** Nothing fits, and nothing was excluded for a capability: the pool before. *)
Definition nothing_fits (pool : list model) : bool :=
  negb (bool_decide (pool = [])) && forallb (λ m, negb (fits m)) pool.

(* [src/backend/src/impl/model-router.js:127-151] capability_context *)
Definition context_stage (s : pipeline) : pipeline :=
  if nothing_fits s.1 then stage "capability_context" s.1 [] s.2
  else filter_stage "capability_context" (λ m, fits m && capable m) s.

(** A constraint that leaves nothing is an error when a setting asks for it. *)
Definition constraint_stage (name code : string) (setting : option num) (f : num → model → bool) (s : pipeline)
    : string + pipeline :=
  match setting with
  | Some x => match kept (f x) s.1 with [] => inl code | _ => inr (filter_stage name (f x) s) end
  | None => inr (stage name s.1 [] s.2)
  end.

(* [src/backend/src/impl/model-router.js:186-201] reliability *)
Definition reliability_stage (s : pipeline) : pipeline :=
  match positive_setting (rp_minReliability p) with
  | Some floor =>
      match kept (reliability_ok floor) s.1 with
      | [] => stage "reliability" s.1 [] s.2
      | _ => filter_stage "reliability" (reliability_ok floor) s
      end
  | None => stage "reliability" s.1 [] s.2
  end.

(* [src/backend/src/impl/model-router.js:204-227] budget *)
Definition budget_stage (s : pipeline) : string + pipeline :=
  match kept affordable s.1 with
  | [] => match s.1 with [] => inr (filter_stage "budget" affordable s) | _ => inl "budget_constraint" end
  | _ => inr (filter_stage "budget" affordable s)
  end.

(* [src/backend/src/impl/model-router.js:62-230] runEligibility *)
Definition runEligibility (l : list model) : eligibility :=
  let s := filter_stage "availability" available (l, []) in
  match s.1 with
  | [] => Ineligible "no_models" s.2
  | _ =>
      let s := filter_stage "pricing" priced (filter_stage "provider" has_provider s) in
      match s.1 with
      | [] => Ineligible "insufficient_pricing" s.2
      | _ =>
          let s := context_stage s in
          match constraint_stage "quality" "quality_constraint" (positive_setting (rp_qualityFloor p)) quality_ok s with
          | inl c => Ineligible c s.2
          | inr s =>
              match constraint_stage "latency" "latency_constraint" (positive_setting (rp_latencyTargetMs p)) latency_ok s with
              | inl c => Ineligible c s.2
              | inr s =>
                  let s := reliability_stage s in
                  match budget_stage s with
                  | inl c => Ineligible c s.2
                  | inr (pool, log) => Eligible pool log
                  end
              end
          end
      end
  end.

(** ** Properties *)

Definition met (setting : option num) (f : num → model → bool) (m : model) : Prop :=
  match setting with Some x => f x m = true | None => True end.

(** The constraints without exception. *)
Record satisfies (m : model) : Prop := {
  sat_available : available m = true;
  sat_provider : has_provider m = true;
  sat_priced : priced m = true;
  sat_quality : met (positive_setting (rp_qualityFloor p)) quality_ok m;
  sat_latency : met (positive_setting (rp_latencyTargetMs p)) latency_ok m;
  sat_affordable : affordable m = true;
}.

Lemma elem_kept f l m : m ∈ kept f l ↔ m ∈ l ∧ f m = true.
Proof. unfold kept. rewrite !list_elem_of_In. apply List.filter_In. Qed.

Lemma kept_sublist f l : kept f l `sublist_of` l.
Proof.
  unfold kept. induction l as [|m l IH]; simpl; [constructor|].
  destruct (f m); [by apply sublist_skip|by apply sublist_cons].
Qed.

Lemma kept_nil f l m : kept f l = [] → m ∈ l → f m = false.
Proof. intros E Hm. destruct (f m) eqn:Ef; [|done]. exfalso. apply (not_elem_of_nil m). rewrite <-E. by apply elem_kept. Qed.

Lemma constraint_stage_spec name code setting f s s' : constraint_stage name code setting f s = inr s' →
  s'.1 `sublist_of` s.1 ∧ ∀ m, m ∈ s'.1 ↔ m ∈ s.1 ∧ met setting f m.
Proof.
  unfold constraint_stage, met. destruct setting as [x|].
  - destruct (kept (f x) s.1) as [|m0 k] eqn:E; [done|]. intros [= <-]. cbn. split; [apply kept_sublist|]. intros m. by rewrite elem_kept.
  - intros [= <-]. split; [done|]. cbn. tauto.
Qed.

Lemma constraint_stage_error name code setting f s c : constraint_stage name code setting f s = inl c →
  c = code ∧ ∃ x, setting = Some x ∧ ∀ m, m ∈ s.1 → f x m = false.
Proof.
  unfold constraint_stage. destruct setting as [x|]; [|done]. destruct (kept (f x) s.1) as [|m0 k] eqn:E; [|done].
  intros [= <-]. split; [done|]. exists x. split; [done|]. intros m. by apply kept_nil.
Qed.

(** The pool the context stage leaves: those that fit and are capable, or, when
    nothing of it fits, all of it. *)
Lemma context_stage_spec s m : m ∈ (context_stage s).1 ↔
  m ∈ s.1 ∧ (fits m = true ∧ capable m = true ∨ ∀ m', m' ∈ s.1 → fits m' = false).
Proof.
  unfold context_stage, nothing_fits. destruct (negb _ && _) eqn:E.
  - apply andb_true_iff in E as [_ E]. rewrite forallb_forall in E. cbn.
    split; [|tauto]. intros Hm. split; [done|]. right. intros m' Hm'%list_elem_of_In. by apply negb_true_iff, E.
  - cbn. rewrite elem_kept, andb_true_iff. split; [tauto|]. intros [Hm [H|H]]; [done|].
    exfalso. rewrite bool_decide_false in E by (intros E'; rewrite E' in Hm; by apply not_elem_of_nil in Hm). cbn in E.
    assert (forallb (λ m, negb (fits m)) s.1 = true) as E'; [|congruence].
    rewrite forallb_forall. intros m' Hm'%list_elem_of_In. by rewrite H.
Qed.

Lemma context_stage_sublist s : (context_stage s).1 `sublist_of` s.1.
Proof. unfold context_stage. destruct (nothing_fits s.1); [done|apply kept_sublist]. Qed.

(** Reliability excludes, unless that leaves nothing. *)
Lemma reliability_stage_spec s m : m ∈ (reliability_stage s).1 ↔
  m ∈ s.1 ∧ (met (positive_setting (rp_minReliability p)) reliability_ok m ∨
    ∃ x, positive_setting (rp_minReliability p) = Some x ∧ ∀ m', m' ∈ s.1 → reliability_ok x m' = false).
Proof.
  unfold reliability_stage, met. destruct (positive_setting (rp_minReliability p)) as [x|]; [|cbn; tauto].
  destruct (kept (reliability_ok x) s.1) as [|m0 k] eqn:E; cbn.
  - split; [|tauto]. intros Hm. split; [done|]. right. exists x. split; [done|]. intros m'. by apply kept_nil.
  - rewrite elem_kept. split; [tauto|]. intros [Hm [H|(x' & [= <-] & H)]]; [done|].
    exfalso. assert (m0 ∈ kept (reliability_ok x) s.1) as Hm0 by (rewrite E; by left).
    apply elem_kept in Hm0 as [Hm0 E0]. by rewrite H in E0.
Qed.

Lemma reliability_stage_sublist s : (reliability_stage s).1 `sublist_of` s.1.
Proof.
  unfold reliability_stage. destruct (positive_setting _); [|done].
  destruct (kept _ _); [done|apply kept_sublist].
Qed.

Lemma budget_stage_spec s s' : budget_stage s = inr s' →
  s'.1 `sublist_of` s.1 ∧ ∀ m, m ∈ s'.1 ↔ m ∈ s.1 ∧ affordable m = true.
Proof.
  intros E. assert (filter_stage "budget" affordable s = s') as <-.
  { revert E. unfold budget_stage. destruct (kept _ _); [destruct s.1|]; congruence. }
  split; [apply kept_sublist|]. intros m. apply elem_kept.
Qed.

(** The pool the context and reliability stages start from. *)
Definition admitted (m : model) : Prop := available m = true ∧ has_provider m = true ∧ priced m = true.

Lemma runEligibility_inv l pool log : runEligibility l = Eligible pool log →
  ∃ s0 s2 s3, (∀ m, m ∈ s0.1 ↔ m ∈ l ∧ admitted m) ∧ s0.1 `sublist_of` l ∧
    constraint_stage "quality" "quality_constraint" (positive_setting (rp_qualityFloor p)) quality_ok (context_stage s0) = inr s2 ∧
    constraint_stage "latency" "latency_constraint" (positive_setting (rp_latencyTargetMs p)) latency_ok s2 = inr s3 ∧
    budget_stage (reliability_stage s3) = inr (pool, log).
Proof.
  unfold runEligibility. set (s := filter_stage "availability" _ _).
  destruct s.1 as [|m0 k0]; [done|]. set (s0 := filter_stage "pricing" _ _). destruct s0.1 as [|m1 k1]; [done|].
  destruct (constraint_stage "quality" _ _ _ _) as [|s2] eqn:E3; [done|].
  destruct (constraint_stage "latency" _ _ _ _) as [|s3] eqn:E4; [done|].
  destruct (budget_stage _) as [|[pool' log']] eqn:E5; [done|]. intros [= -> ->].
  exists s0, s2, s3. split_and!; [| |done..].
  - intros m. subst s0 s. cbn. rewrite !elem_kept. unfold admitted. tauto.
  - subst s0 s. cbn. by rewrite !kept_sublist.
Qed.

Lemma eligible_sublist l pool log : runEligibility l = Eligible pool log → pool `sublist_of` l.
Proof.
  intros (s0 & s2 & s3 & _ & S0 & E2 & E3 & E4)%runEligibility_inv.
  apply constraint_stage_spec in E2 as [S2 _]. apply constraint_stage_spec in E3 as [S3 _]. apply budget_stage_spec in E4 as [S4 _].
  etransitivity; [exact S4|]. etransitivity; [apply reliability_stage_sublist|].
  etransitivity; [exact S3|]. etransitivity; [exact S2|]. etransitivity; [apply context_stage_sublist|exact S0].
Qed.

(** ** What a run asks of a model *)

(** A setting that asks for [x]: a positive number. *)
Definition asks (setting : jsnum) (x : num) : Prop :=
  to_number setting = x ∧ isFinite x = true ∧ nlt nzero x = true.

(** A price that is a number, zero or more. *)
Definition known_price (v : jsnum) : Prop := ∃ n, v = JNumber n ∧ isFinite n = true ∧ nle nzero n = true.

(** A number of [v], between the bounds. *)
Definition at_least (lo : num) (v : jsnum) : Prop := isFinite (to_number v) = true ∧ nle lo (to_number v) = true.
Definition at_most (hi : num) (v : jsnum) : Prop := isFinite (to_number v) = true ∧ nle (to_number v) hi = true.

(** The budget is hard when the policy says so, in either way, or a cent or less
    remains. *)
Definition is_hard (rem : num) : Prop :=
  rp_hardBudget p = true ∨ rp_budgetEnforcement p = Some "hard" ∨ nle rem (ratio 1 100) = true.

(** What admits a model to the pool at all. *)
Record routable (m : model) : Prop := {
  ro_available : md_status m ≠ ModelStatus.UNAVAILABLE;
  ro_provider : rp_requireKnownProvider p = true →
    ∃ s, md_provider m = Some s ∧ Text.any_char (λ c, negb (Text.is_space c)) s = true;
  ro_priced : rp_allowUnknownPricing p = false →
    known_price (md_inputPer1k m) ∧ known_price (md_outputPer1k m) ∧
    (nlt nzero (of_Z (ContextState.cacheablePrefixTokens context)) = true → known_price (md_cachedPer1k m));
}.

(** The constraints that are never given up. A model whose estimate is unknown is
    within any budget. *)
Record meets (m : model) : Prop := {
  me_routable : routable m;
  me_quality : ∀ floor, asks (rp_qualityFloor p) floor → at_least floor (md_quality m);
  me_latency : ∀ target, asks (rp_latencyTargetMs p) target → at_most target (md_avgLatencyMs m);
  me_budget : ∀ rem est, remaining = JNumber rem → isFinite rem = true → is_hard rem →
    call_estimate m = Some est → nlt rem est = false;
}.

(** Those that are given up when no model meets them: the context of the run is
    within the window, when both are known, ... *)
Definition has_room (m : model) : Prop :=
  (0 < md_contextWindow m → 0 < ContextState.currentTokens context →
   ContextState.currentTokens context ≤ md_contextWindow m)%Z.
(** ... the model has the capabilities required, ... *)
Definition has_capabilities (m : model) : Prop :=
  ∀ c, c ∈ rp_requiredCapabilities p → ∃ l, md_capabilities m = Some l ∧ c ∈ l.
(** ... and it is as reliable as [floor], or the preferred model. *)
Definition reliable (floor : num) (m : model) : Prop :=
  nle floor (to_number (md_reliability m)) = true ∨ rp_preferredModel p = Some (md_id m).

Lemma positive_asks setting x : positive_setting setting = Some x ↔ asks setting x.
Proof.
  unfold positive_setting, asks. cbv zeta. destruct (isFinite _ && nlt _ _) eqn:E.
  - apply andb_true_iff in E as [? ?]. split; [by intros [= <-]|]. by intros (<- & _).
  - split; [done|]. intros (<- & H1 & H2). by rewrite H1, H2 in E.
Qed.

Lemma met_asks setting f m : met setting f m ↔ ∀ x, setting = Some x → f x m = true.
Proof. unfold met. destruct setting; naive_solver. Qed.

Lemma known_price_rate v : isKnownRate v = true ↔ known_price v.
Proof.
  unfold isKnownRate, known_price. rewrite !andb_true_iff. destruct v; simpl; naive_solver.
Qed.

Lemma of_Z_number z : isNaN (of_Z z) = false.
Proof.
  destruct z as [|m|m]; [done|..]; unfold of_Z, SpecFloat.binary_normalize, SpecFloat.binary_round; destruct (SpecFloat.shl_align m _ _) as [mz ez];
    by apply round_aux_sign.
Qed.

Lemma max_zero_positive x : isNaN x = false → nle (nmax nzero x) nzero = true ↔ nlt nzero x = false.
Proof.
  intros Hx. unfold nmax. rewrite Hx. cbn [isNaN nzero orb]. destruct (nlt nzero x) eqn:E.
  - split; [|done]. intros H. apply nle_false in E; [congruence|done..].
  - done.
Qed.

Lemma admitted_routable m : admitted m ↔ routable m.
Proof.
  unfold admitted, available, has_provider, priced, blank. rewrite !orb_true_iff, !negb_true_iff, negb_false_iff.
  rewrite bool_decide_eq_false. unfold hasOptimizerPricing. rewrite !andb_true_iff, orb_true_iff, !known_price_rate.
  unfold cached_for_routing. rewrite max_zero_positive by apply of_Z_number. split.
  - intros (H1 & H2 & H3). split; [done| |].
    + intros Hk. destruct H2 as [H2|H2]; [congruence|]. destruct (md_provider m) as [s|]; [by exists s|done].
    + intros Ha. destruct H3 as [H3|[[? ?] H3]]; [congruence|]. split_and!; [done..|]. intros. by destruct H3 as [H3|H3]; [congruence|].
  - intros [H1 H2 H3]. split_and!; [done| |].
    + destruct (rp_requireKnownProvider p); [right|by left]. destruct H2 as (s & -> & ?); done.
    + destruct (rp_allowUnknownPricing p); [by left|right]. destruct (H3 eq_refl) as (? & ? & H). split; [done|].
      destruct (nlt nzero _); auto.
Qed.

Lemma quality_at_least floor m : quality_ok floor m = true ↔ at_least floor (md_quality m).
Proof. apply andb_true_iff. Qed.
Lemma latency_at_most target m : latency_ok target m = true ↔ at_most target (md_avgLatencyMs m).
Proof. apply andb_true_iff. Qed.
Lemma reliability_reliable floor m : reliability_ok floor m = true ↔ reliable floor m.
Proof. unfold reliability_ok, reliable. by rewrite orb_true_iff, bool_decide_eq_true. Qed.
Lemma fits_room m : fits m = true ↔ has_room m.
Proof.
  unfold fits, has_room. cbv zeta. rewrite negb_true_iff, !andb_false_iff, !Z.ltb_ge. lia.
Qed.
Lemma capable_capabilities m : capable m = true ↔ has_capabilities m.
Proof.
  unfold capable, has_capabilities. rewrite forallb_forall. setoid_rewrite <-list_elem_of_In.
  apply forall_proper. intros c. destruct (md_capabilities m) as [l|]; [rewrite bool_decide_eq_true|]; naive_solver.
Qed.

Lemma affordable_budget m : affordable m = true ↔
  ∀ rem est, remaining = JNumber rem → isFinite rem = true → is_hard rem → call_estimate m = Some est → nlt rem est = false.
Proof.
  assert (∀ rem, is_hard rem ↔ rp_hardBudget p || bool_decide (rp_budgetEnforcement p = Some "hard") || nle rem (ratio 1 100) = true) as Hh.
  { intros rem. unfold is_hard. rewrite !orb_true_iff, bool_decide_eq_true. tauto. }
  unfold affordable, hard_budget, known_num, isKnown. destruct remaining as [| | |rem]; cbn; try (split; [by intros|done]).
  destruct (isFinite rem) eqn:Ef; cbn; [|split; [intros _ r e [= <-]; congruence|done]].
  specialize (Hh rem). destruct (rp_hardBudget p || _ || _).
  - destruct (call_estimate m) as [est|]; [|split; [by intros|done]].
    rewrite negb_true_iff. split; [intros ? ? ? [= <-] _ _ [= <-]; done|]. intros H. by apply (H rem est); [| |apply Hh|].
  - split; [|done]. intros _ r e [= <-] _ Hr%Hh. done.
Qed.

Lemma satisfies_meets m : satisfies m ↔ meets m.
Proof.
  split.
  - intros [H1 H2 H3 H4 H5 H6]. split; [by apply admitted_routable| | |by apply affordable_budget].
    + intros floor Hf%positive_asks. apply quality_at_least. rewrite met_asks in H4. by apply H4.
    + intros t Hf%positive_asks. apply latency_at_most. rewrite met_asks in H5. by apply H5.
  - intros [H1%admitted_routable H4 H5 H6]. destruct H1 as (H1 & H2 & H3). split; [done..| | |by apply affordable_budget].
    + apply met_asks. intros x Hx%positive_asks. by apply quality_at_least, H4.
    + apply met_asks. intros x Hx%positive_asks. by apply latency_at_most, H5.
Qed.


(** What an error says: every candidate is unavailable, or none of the available
    ones has the provider and the prices asked for, or a setting leaves none. *)
Theorem ineligible_reasons l c log : runEligibility l = Ineligible c log →
  (c = "no_models" ∧ ∀ m, m ∈ l → available m = false) ∨
  (c = "insufficient_pricing" ∧ ∀ m, m ∈ l → ¬ admitted m) ∨
  (c = "quality_constraint" ∧ ∃ x, positive_setting (rp_qualityFloor p) = Some x) ∨
  (c = "latency_constraint" ∧ ∃ x, positive_setting (rp_latencyTargetMs p) = Some x) ∨
  (c = "budget_constraint" ∧ ∃ rem, hard_budget = Some rem).
Proof.
  unfold runEligibility. set (s := filter_stage "availability" _ _).
  destruct s.1 as [|m0 k0] eqn:E1.
  { intros [= <- _]. left. split; [done|]. intros m Hm. by apply (kept_nil available l). }
  clear E1. set (s0 := filter_stage "pricing" _ _). destruct s0.1 as [|m1 k1] eqn:E2.
  { intros [= <- _]. right. left. split; [done|]. intros m Hm (A1 & A2 & A3). apply (not_elem_of_nil m). rewrite <-E2.
    subst s0 s. cbn. by rewrite !elem_kept. }
  clear E2. destruct (constraint_stage "quality" _ _ _ _) as [c1|s2] eqn:E3.
  { intros [= <- _]. apply constraint_stage_error in E3 as [-> (x & Hx & _)]. do 2 right. left. eauto. }
  destruct (constraint_stage "latency" _ _ _ _) as [c2|s3] eqn:E4.
  { intros [= <- _]. apply constraint_stage_error in E4 as [-> (x & Hx & _)]. do 3 right. left. eauto. }
  destruct (budget_stage _) as [c3|[pool' log']] eqn:E5; [|done]. intros [= <- _]. do 4 right.
  unfold budget_stage in E5. destruct (kept _ _) as [|? ?] eqn:Ek; [|done].
  destruct (reliability_stage s3).1 as [|m2 k2] eqn:Er; [done|]. injection E5 as <-. split; [done|].
  pose proof (kept_nil affordable _ m2 Ek ltac:(left)) as Ha. unfold affordable in Ha.
  destruct hard_budget as [rem|]; [by exists rem|done].
Qed.
End Tests.

Definition strict_policy : run_policy :=
  RunPolicy false false [] (JNumber (ratio 5 10)) JUndefined JUndefined None true None None JUndefined no_prices None UTILITY_DEFAULTS.
Definition cheap_model : model := demo_model.
Definition dear_model : model :=
  (demo_model <| md_id := "dear" |> <| md_outputPer1k := JNumber (of_Z 9) |>)%js.
Definition unpriced_model : model := (demo_model <| md_id := "u" |> <| md_inputPer1k := JNullish |>)%js.
Definition demo_context : ContextState.t := ContextState.create None.

