(* ===== verification/Decisions.v ===== *)
(** Decisions (backend/src/decisions/decision-engine.js): the record of one routing
    decision and the bounded history of them.

    Of a factor, the key and the status are kept; labels and details are texts. *)

From S2P Require Import Prelude JsValue Number Types RoutingObjective.

Local Open Scope string_scope.
Local Open Scope js_scope.

Inductive factor_status := pass | warn | fail_.

(* [src/backend/src/decisions/decision-engine.js:6-13] DecisionFactor *)
Record factor := Factor { fa_key : string; fa_status : factor_status }.

(* [src/backend/src/decisions/decision-engine.js:15-23] DecisionAlternative *)
Record alternative := Alternative { al_id : string; al_deltaCost : num; al_deltaLatency : num; al_score : num }.

(** What was weighed: a scored candidate, or an alternative added later. *)
Inductive considered := Considered (k : candidate) | Added (a : alternative).

Inductive decision_result := NoResult | Result (v : jsval) | Rejected (reason : string) | FailedWith (error : string).

(* [src/backend/src/decisions/decision-engine.js:25-106] Decision *)
Record decision := Decision {
  de_id : string;
  de_timestamp : Z;
  de_type : DecisionType.t;
  de_decision : string;
  de_stateRef : string;
  de_candidates : list considered;
  de_selected : option string;
  de_score : num;
  de_factors : list factor;
  de_expectedCost : num;
  de_expectedLatency : num;
  de_expectedQuality : num;
  de_switchingCost : num;
  de_confidence : num;
  de_status : DecisionStatus.t;
  de_executedAt : option Z;
  de_result : decision_result;
  de_selectionReason : option string;
  de_optimizationBypassed : bool;
}.
#[export] Instance decision_eta : Eta decision := λ d,
  Decision (de_id d) (de_timestamp d) (de_type d) (de_decision d) (de_stateRef d) (de_candidates d) (de_selected d)
    (de_score d) (de_factors d) (de_expectedCost d) (de_expectedLatency d) (de_expectedQuality d) (de_switchingCost d)
    (de_confidence d) (de_status d) (de_executedAt d) (de_result d) (de_selectionReason d) (de_optimizationBypassed d).

(** The options of a decision; an amount may be missing. *)
Record decision_options := DecisionOptions {
  do_candidates : list candidate;
  do_selected : option string;
  do_score : jsnum;
  do_factors : list factor;
  do_expectedCost : jsnum;
  do_expectedLatency : jsnum;
  do_expectedQuality : jsnum;
  do_switchingCost : jsnum;
  do_confidence : jsnum;
}.

(** [x || d] *)
Definition or_default_num (v : jsnum) (d : num) : num := match v with JNumber n => or_num n d | _ => d end.

(** A missing amount becomes 0, a missing confidence one half. *)
(* [src/backend/src/decisions/decision-engine.js:26-47] constructor *)
Definition new_decision (id : string) (now : Z) (ty : DecisionType.t) (text stateRef : string) (o : decision_options) : decision :=
  Decision id now ty text stateRef (Considered <$> do_candidates o) (do_selected o) (or_default_num (do_score o) nzero)
    (do_factors o) (or_default_num (do_expectedCost o) nzero) (or_default_num (do_expectedLatency o) nzero)
    (or_default_num (do_expectedQuality o) nzero) (or_default_num (do_switchingCost o) nzero)
    (or_default_num (do_confidence o) (ratio 5 10)) DecisionStatus.PENDING None NoResult None false.

(* [src/backend/src/decisions/decision-engine.js:49-51] addFactor *)
Definition addFactor (key : string) (status : factor_status) (d : decision) : decision :=
  d <| de_factors ::= λ l, (l ++ [Factor key status])%list |>.
(* [src/backend/src/decisions/decision-engine.js:53-55] addAlternative *)
Definition addAlternative (id : string) (deltaCost deltaLatency score : num) (d : decision) : decision :=
  d <| de_candidates ::= λ l, (l ++ [Added (Alternative id deltaCost deltaLatency score)])%list |>.
(* [src/backend/src/decisions/decision-engine.js:57-61] markExecuted *)
Definition markExecuted (now : Z) (v : jsval) (d : decision) : decision :=
  d <| de_status := DecisionStatus.EXECUTED |> <| de_executedAt := Some now |> <| de_result := Result v |>.
(* [src/backend/src/decisions/decision-engine.js:63-67] markRejected *)
Definition markRejected (now : Z) (reason : string) (d : decision) : decision :=
  d <| de_status := DecisionStatus.REJECTED |> <| de_executedAt := Some now |> <| de_result := Rejected reason |>.
(* [src/backend/src/decisions/decision-engine.js:69-73] markFailed *)
Definition markFailed (now : Z) (error : string) (d : decision) : decision :=
  d <| de_status := DecisionStatus.FAILED |> <| de_executedAt := Some now |> <| de_result := FailedWith error |>.

(* [src/backend/src/decisions/decision-engine.js:75-80] getNetBenefit *)
Definition getNetBenefit (d : decision) : num :=
  nsub (nadd (nadd (de_expectedQuality d) (nneg (de_expectedCost d))) (ndiv (nneg (de_expectedLatency d)) (of_Z 1000)))
    (de_switchingCost d).

(** ** The history *)

(* [src/backend/src/decisions/decision-engine.js:108-148] DecisionEngine *)
Record engine := Engine { en_history : list decision; en_max : nat }.
(* [src/backend/src/decisions/decision-engine.js:109-112] constructor *)
Definition new_engine (max : option nat) : engine := Engine [] (match max with Some (S n) => S n | _ => 100 end).

(* [src/backend/src/decisions/decision-engine.js:123-128] recordDecision *)
Definition recordDecision (d : decision) (e : engine) : engine := Engine (push_shift (en_max e) (en_history e) d) (en_max e).

(* [src/backend/src/decisions/decision-engine.js:114-121] createDecision *)
Definition createDecision (id : string) (now : Z) (ty : DecisionType.t) (text stateRef : string) (o : decision_options)
    (e : engine) : decision * engine :=
  let d := new_decision id now ty text stateRef o in (d, recordDecision d e).

(* [src/backend/src/decisions/decision-engine.js:130-132] getRecentDecisions *)
Definition getRecentDecisions (limit : nat) (e : engine) : list decision := slice_last limit (en_history e).
(* [src/backend/src/decisions/decision-engine.js:134-138] getDecisionsByType *)
Definition getDecisionsByType (ty : DecisionType.t) (limit : nat) (e : engine) : list decision :=
  slice_last limit (List.filter (λ d, bool_decide (de_type d = ty)) (en_history e)).
(* [src/backend/src/decisions/decision-engine.js:140-143] getLastDecision *)
Definition getLastDecision (ty : DecisionType.t) (e : engine) : option decision := head (getDecisionsByType ty 1 e).
(* [src/backend/src/decisions/decision-engine.js:145-147] clearHistory *)
Definition clearHistory (e : engine) : engine := Engine [] (en_max e).

(** ** Properties *)

(** The history is the last decisions, at most [max] of them, in order. *)
Lemma push_all_spec {A} max (l0 l : list A) : (0 < max)%nat → (length l0 ≤ max)%nat →
  foldl (push_shift max) l0 l = slice_last max (l0 ++ l).
Proof.
  intros Hmax. revert l0. induction l as [|x l IH]; intros l0 Hl; simpl; [by rewrite app_nil_r, slice_last_all|].
  rewrite IH by auto using push_shift_length. unfold push_shift. case_decide as Hd.
  - destruct l0 as [|y l0]; [simpl in *; lia|]. cbn [tail app]. rewrite <-app_assoc. simpl.
    destruct max as [|n]; [lia|]. unfold slice_last. rewrite length_app in Hd; simpl in *. rewrite !length_app. simpl.
    destruct (length l0 + S (length l) - n)%nat as [|k] eqn:Ek; [lia|]. simpl. f_equal. lia.
  - by rewrite <-app_assoc.
Qed.

(** The engine remembers exactly the last decisions it was given. *)
Theorem decision_history_exact max l :
  let e := foldl (λ e d, recordDecision d e) (new_engine max) l in
  en_history e = slice_last (en_max (new_engine max)) l ∧
  ∀ ty, getLastDecision ty e = last (List.filter (λ d, bool_decide (de_type d = ty)) (en_history e)).
Proof.
  intros e. split.
  - assert (∀ e0, foldl (λ e d, recordDecision d e) e0 l = Engine (foldl (push_shift (en_max e0)) (en_history e0) l) (en_max e0)) as H.
    { induction l as [|d l IH]; intros [h m]; [done|]. simpl. rewrite IH. done. }
    subst e. rewrite H. cbn [en_history en_max]. apply push_all_spec; [|by destruct max as [[]|]; simpl; lia].
    destruct max as [[]|]; simpl; lia.
  - intros ty. unfold getLastDecision, getDecisionsByType. generalize (List.filter (λ d, bool_decide (de_type d = ty)) (en_history e)).
    intros k. destruct k as [|x k _] using rev_ind; [done|]. unfold slice_last. rewrite last_snoc, length_app. simpl.
    rewrite Nat.add_sub, drop_app_length. done.
Qed.
