(* ===== verification/Router.v ===== *)
(** The model router (backend/src/impl/model-router.js): scores of the eligible
    models, their objectives, and the decision - selection, retention or switch.

    [Math.pow], [localeCompare], generated ids and the clock are arguments. The
    hash of the inputs and the texts of explanations are left out. A model's
    latency, a mean of rounded samples, enters the switching cost as an integer. *)

From S2P Require Import Prelude JsMap JsValue Number Sorting NumberOrder Types RuntimeState Switching TaskClassifier Performance ModelRegistry RoutingObjective RouterIntel Eligibility Decisions.

Local Open Scope string_scope.
Local Open Scope js_scope.

(** ** Configuration and state *)

Record weights := Weights { w_quality : num; w_cost : num; w_latency : num; w_reliability : num; w_contextFit : num }.
Definition default_weights : weights := Weights (ratio 4 10) (ratio 2 10) (ratio 15 100) (ratio 15 100) (ratio 1 10).

(* [src/backend/src/impl/model-router.js:17-36] InMemoryModelRouter *)
Record router := Router {
  ro_calculator : calculator;
  ro_stickiness : manager;
  ro_engine : engine;
  ro_weights : weights;
  ro_maxRetries : jsnum;
  ro_performance : option store;
  ro_history : option history;
}.
#[export] Instance router_eta : Eta router := λ r,
  Router (ro_calculator r) (ro_stickiness r) (ro_engine r) (ro_weights r) (ro_maxRetries r) (ro_performance r) (ro_history r).

(** The run a decision is for. *)
Record routed_run := RoutedRun {
  rr_runId : string;
  rr_orgId : option string;
  rr_task : string;
  rr_context : ContextState.t;
  rr_model : ModelState.t;
  rr_budget : BudgetState.t;
  rr_policy : run_policy;
}.
Definition remaining_of (x : routed_run) : jsnum := JNumber (BudgetState.getRemainingBudget (rr_budget x)).
Definition current_of (x : routed_run) : option string :=
  match ModelState.currentModel (rr_model x) with Some m => or_null m | None => None end.

(* [src/backend/src/impl/model-router.js:43-54] weightsFor *)
Definition weightsFor (r : router) (p : run_policy) : weights :=
  let take_num (v : jsnum) fb := let n := to_number v in if isFinite n && nle nzero n then n else fb in
  let c := ro_weights r in
  match rp_weights p with
  | None => c
  | Some (q, k, l, rel, f) =>
      Weights (take_num q (w_quality c)) (take_num k (w_cost c)) (take_num l (w_latency c))
        (take_num rel (w_reliability c)) (take_num f (w_contextFit c))
  end.

Definition latency_Z (v : jsnum) : option Z := match v with JNumber n => Some (to_Z_floor n) | _ => None end.

(** The cost of switching the run to a model. *)
Definition switch_total (r : router) (x : routed_run) (provider : option string) (avgLatencyMs : jsnum) : num :=
  (calculate (ro_calculator r) (rr_context x) (rr_model x) (SwitchOptions provider (latency_Z avgLatencyMs) false)).1.

(** ** Scores *)

(** [known(v) ? max(0, min(1, v)) : fallback] *)
Definition clamp_or (v : jsnum) (fallback : num) : num := default fallback (clamp_known v).

(** What a window says of a model under real pressure, over six tenths of it. *)
Definition window_delta (m : model) (need : num) : num :=
  let window := num_or_zero (of_Z (md_contextWindow m)) in
  if nlt nzero window && nlt (nmul window (ratio 6 10)) need then
    match contextFitScore m need with
    | (Some s, false) => nmul (nsub s (ratio 7 10)) (ratio 2 10)
    | _ => nzero
    end
  else nzero.

Record overlay := Overlay {
  ov_adjustment : num;
  ov_predictedSuccess : option num;
  ov_taskFitScore : option num;
  ov_toolCapabilityScore : option num;
  ov_expectedLatencyMs : option num;
  ov_reasons : list reason;
  ov_excluded : option string;
}.

(** [x += d] when there is something to add. *)
Definition add_if (b : bool) (d x : num) : num := if b then nadd x d else x.

(* [src/backend/src/impl/model-router.js:849-935] _intelligenceOverlay *)
Definition intelligenceOverlay (r : router) (x : routed_run) (m : model) : overlay :=
  let profile := classifyTask (or_str (rr_task x) "general task") in
  let need := of_Z (ContextState.currentTokens (rr_context x)) in
  let sc := scoreCandidate m (ScoreContext profile (ro_performance r) (rr_orgId x) need
    (of_Z (ContextState.cacheablePrefixTokens (rr_context x))) (remaining_of x) (rp_hardBudget (rr_policy x))
    (rp_utility (rr_policy x))) in
  let stored := bool_decide (is_Some (ro_performance r)) in
  let a := match sd_taskFitScore sc with
    | Some f => add_if (stored && (3 <=? sd_attempts sc)%Z) (nmul (nsub f (ratio 7 10)) (ratio 4 10)) nzero
    | None => nzero end in
  let a := nadd a (window_delta m need) in
  let a := match sd_toolCapabilityScore sc with
    | Some t => add_if (p_requiresTools profile) (nmul (nsub t (ratio 5 10)) (ratio 1 10)) a
    | None => a end in
  let a := match sd_expectedLatencyMs sc with
    | Some l => add_if (stored && negb (isKnown (md_avgLatencyMs m)))
        (nmul (nsub (ratio 5 10) (nmin (of_Z 1) (ndiv l (of_Z 8000)))) (ratio 5 100)) a
    | None => a end in
  let budget := bool_decide (sd_excluded sc = Some "budget") in
  Overlay (if budget then nzero else nmax (ratio (-3) 10) (nmin (ratio 3 10) (round3 a)))
    (sd_predictedSuccess sc) (sd_taskFitScore sc) (sd_toolCapabilityScore sc) (sd_expectedLatencyMs sc) (sd_reasons sc)
    (if budget then Some "budget" else None).

Record model_score := ModelScore {
  ms_total : num;
  ms_quality : num;
  ms_switchCost : num;
  ms_predictedSuccess : option num;
  ms_taskFitScore : option num;
  ms_expectedLatencyMs : option num;
  ms_reasons : list reason;
  ms_excluded : option string;
}.

(** The weighted score before the overlay. *)
(* [src/backend/src/impl/model-router.js:791-811] legacyTotal *)
Definition legacy_total (w : weights) (quality cost latency reliability contextFit switchCost : num) : num :=
  let raw := nmul (nadd (nadd (nadd (nadd (nmul quality (w_quality w)) (nmul cost (w_cost w))) (nmul latency (w_latency w)))
      (nmul reliability (w_reliability w))) (nmul contextFit (w_contextFit w)))
    (nsub (of_Z 1) (nmin (ratio 3 10) (nmul switchCost (of_Z 10)))) in
  if isFinite raw then nmax nzero (nmin (of_Z 1) raw) else nzero.

Definition cost_score (x : routed_run) (m : model) : num :=
  let cached := of_Z (ContextState.cacheablePrefixTokens (rr_context x)) in
  if isKnown (md_inputPer1k m) && isKnown (md_outputPer1k m) && (nle cached nzero || isKnown (md_cachedPer1k m))
     && nle nzero (to_number (md_outputPer1k m))
  then nmax nzero (nsub (of_Z 1) (ndiv (to_number (md_outputPer1k m)) (ratio 1 100))) else ratio 5 10.
Definition latency_score (m : model) : num :=
  if isKnown (md_avgLatencyMs m) && nle nzero (to_number (md_avgLatencyMs m))
  then nmax nzero (nsub (of_Z 1) (ndiv (to_number (md_avgLatencyMs m)) (of_Z 5000))) else ratio 5 10.

(* [src/backend/src/impl/model-router.js:753-845] scoreModel *)
Definition scoreModel (r : router) (x : routed_run) (m : model) : model_score :=
  if negb (fits (rr_context x) m) then ModelScore nzero nzero nzero None None None [] (Some "context_window")
  else
    let switchCost := if bool_decide (Some (md_id m) = current_of x) then nzero
      else nmax nzero (switch_total r x (md_provider m) (md_avgLatencyMs m)) in
    let quality := clamp_or (md_quality m) (ratio 5 10) in
    let util := ContextState.getUtilization (rr_context x) in
    let contextFit := if isFinite util then nmax nzero (nsub (of_Z 1) util) else ratio 5 10 in
    let legacy := legacy_total (weightsFor r (rr_policy x)) quality (cost_score x m) (latency_score m)
      (clamp_or (md_reliability m) (ratio 5 10)) contextFit switchCost in
    let o := intelligenceOverlay r x m in
    let total := match ov_excluded o with
      | Some _ => nzero
      | None => nmax nzero (nmin (of_Z 1) (nadd legacy (ov_adjustment o)))
      end in
    ModelScore total quality switchCost (ov_predictedSuccess o) (ov_taskFitScore o) (ov_expectedLatencyMs o)
      (ov_reasons o) (ov_excluded o).

(* [src/backend/src/impl/model-router.js:937-957] estimateModelCost *)
Definition estimateModelCost (x : routed_run) (m : model) : option num :=
  inputRate ← known_rate (md_inputPer1k m); outputRate ← known_rate (md_outputPer1k m);
  let input := input_tokens (rr_context x) in
  let cached := cached_tokens (rr_context x) in
  if nlt nzero cached && negb (isKnownRate (md_cachedPer1k m)) then None
  else
    let uncached := nmax nzero (nsub input cached) in
    let total := nadd (nadd (per_1k uncached inputRate) (per_1k cached (default nzero (known_rate (md_cachedPer1k m)))))
                      (per_1k (of_Z 1000) outputRate) in
    Some (if isFinite total then nmax nzero total else nzero).

Section Routing.
Context (pow : num → nat → num) (locale_before : string → string → bool).

(** [Math.max(0, Math.min(5, Number(policy.maxRetries ?? config.maxRetries ?? 2)))] *)
Definition max_retries (r : router) (p : run_policy) : num :=
  nmax nzero (nmin (of_Z 5) (to_number (nullish (rp_maxRetries p) (nullish (ro_maxRetries r) (JNumber (of_Z 2)))))).

(** The expected number of attempts: [Array.from({ length })] of a length that is
    not a number is empty. *)
Definition retry_multiplier (r : router) (p : run_policy) (reliability : jsnum) : option num :=
  let rel := to_number reliability in
  if isFinite rel && nle nzero rel && nle rel (of_Z 1) then
    let k := max_retries r p in
    let n := if isNaN k then 0%nat else S (Z.to_nat (to_Z_floor k)) in
    Some (foldl (λ s i, nadd s (pow (nsub (of_Z 1) rel) i)) nzero (seq 0 n))
  else None.

(** [Number.isFinite(v) ? v : fb] *)
Definition finite_or (v fb : num) : num := if isFinite v then v else fb.

(* [src/backend/src/impl/model-router.js:673-720] candidate *)
Definition candidate_of (r : router) (x : routed_run) (m : model) : candidate :=
  let s := scoreModel r x m in
  let est := estimateModelCost x m in
  let retry := e ← est; k ← retry_multiplier r (rr_policy x) (md_reliability m); Some (nmax nzero (nmul e (nsub k (of_Z 1)))) in
  let switching := if isFinite (ms_switchCost s) then Some (nmax nzero (ms_switchCost s)) else None in
  let total := e ← est; k ← retry; c ← switching; Some (nadd (nadd e k) c) in
  Candidate (md_id m) (md_provider m) (finite_or (ms_total s) nzero) (finite_or (ms_quality s) (ratio 5 10))
    (finite_or (ms_switchCost s) nzero) (or_nullish (md_avgLatencyMs m)) (or_nullish (md_outputPer1k m)) (pick est)
    (pick (ms_predictedSuccess s)) (pick (ms_taskFitScore s)) (pick total) (pick est) (pick retry) (pick switching)
    (match ms_expectedLatencyMs s with Some l => pick (Some l) | None => known_num (md_avgLatencyMs m) end)
    (ms_excluded s) None.

(** [b.score - a.score || a.modelId.localeCompare(b.modelId)] *)
Definition score_before (a b : candidate) : bool :=
  let d := nsub (k_score b) (k_score a) in
  if truthy_num d then nlt d nzero else locale_before (k_modelId a) (k_modelId b).

(** The ranked candidates, the score of the incumbent (0 when it is not scored),
    and the reasons by model. *)
Record evaluation := Evaluation {
  ev_candidates : list candidate;
  ev_currentScore : num;
  ev_reasons : jsmap string (list reason);
}.

(* [src/backend/src/impl/model-router.js:667-751] evaluateCandidates *)
Definition evaluateCandidates (r : router) (x : routed_run) (pool : list model) : evaluation :=
  Evaluation (js_sort score_before (candidate_of r x <$> pool))
    (foldl (λ s m, if bool_decide (Some (md_id m) = current_of x) then ms_total (scoreModel r x m) else s) nzero pool)
    (foldl (λ l m, mset l (md_id m) (ms_reasons (scoreModel r x m))) [] pool).

(** The switching costs the objective adds. *)
(* [src/backend/src/impl/model-router.js:292-303] switchCosts *)
Definition switch_costs (r : router) (x : routed_run) (l : list candidate) : jsmap string num :=
  foldl (λ m k, mset m (k_modelId k)
    (if bool_decide (Some (k_modelId k) = current_of x) then nzero
     else finite_or (nmax nzero (switch_total r x (k_provider k) (k_avgLatencyMs k))) nzero)) [] l.

(* [src/backend/src/impl/model-router.js:291-311] objective layer *)
Definition with_objectives (r : router) (x : routed_run) (e : evaluation) : evaluation :=
  Evaluation (attachObjectives (switch_costs r x (ev_candidates e)) (rp_prices (rr_policy x)) (ev_candidates e))
    (ev_currentScore e) (ev_reasons e).

(* [src/backend/src/impl/model-router.js:234-248] realExpectedCostFor *)
Definition realExpectedCostFor (r : router) (x : routed_run) (m : model) : option num :=
  provider ← call_estimate (rr_context x) m;
  let retry := default nzero (estimateRetryCostUsd pow (Some provider) (md_reliability m) (max_retries r (rr_policy x))) in
  let tool := (estimateToolContinuationCostUsd (rp_prices (rr_policy x))).1 in
  let total := nadd (nadd (nadd provider retry) nzero) tool in
  if isFinite total then Some (round6 (nmax nzero total)) else None.

(** ** The choice *)

Definition find_candidate (id : string) (l : list candidate) : option candidate :=
  List.find (λ k, bool_decide (k_modelId k = id)) l.
Definition find_model (id : string) (l : list model) : option model := List.find (λ m, bool_decide (md_id m = id)) l.

Inductive choice :=
| Pinned (m : model)
| CostRetained (current : string) (challenger : candidate)
| Direct (k : candidate)
| SwitchingDisabled (current : string) (incumbent : model)
| Sticky (current : string) (incumbent : option model) (challenger : candidate) (v : verdict) (netBenefit : num)
| Switched (current : string) (k : candidate) (unhealthy : bool) (netBenefit : num).

Definition chosen (c : choice) : string :=
  match c with
  | Pinned m => md_id m
  | CostRetained cur _ | SwitchingDisabled cur _ | Sticky cur _ _ _ _ => cur
  | Direct k | Switched _ k _ _ => k_modelId k
  end.

(** The pinned model, when it is eligible. *)
(* [src/backend/src/impl/model-router.js:262-270] preferred *)
Definition preferred_of (p : run_policy) (pool : list model) : option model :=
  if truthy (rp_preferredModel p) then
    List.find (λ m, bool_decide (Some (md_id m) = rp_preferredModel p) && available m) pool
  else None.

(** The model proposed, and whether the incumbent keeps on cost. *)
(* [src/backend/src/impl/model-router.js:366-390] bestCandidate *)
Definition propose (current : option string) (preferred : option model) (leader winner : candidate) (l : list candidate)
    : candidate * bool :=
  match preferred, current with
  | Some m, Some _ => (default leader (find_candidate (md_id m) l), false)
  | _, None => (winner, false)
  | None, Some cur =>
      if negb (bool_decide (k_modelId winner = cur)) then (winner, false)
      else if negb (bool_decide (k_modelId leader = cur)) then (leader, true)
      else (winner, false)
  end.

(** The net benefit of a switch, in units of score. *)
(* [src/backend/src/impl/model-router.js:525-530] netBenefit *)
Definition net_benefit (x : routed_run) (current : string) (k : candidate) (currentScore switchUsd : num) : num :=
  calculateNetBenefit (nsub (k_score k) currentScore)
    (nsub (match ModelState.getPricing current (rr_model x) with Some p => or_num (ModelState.outputPer1k p) nzero | None => nzero end)
          (or_default_num (k_outputPer1k k) nzero))
    (nsub (of_Z (ModelState.modelLatency (rr_model x))) (to_number (k_avgLatencyMs k)))
    switchUsd.

Definition healthy (m : model) : bool := bool_decide (md_status m = ModelStatus.HEALTHY).

(* [src/backend/src/impl/model-router.js:474-475] incumbentDef *)
Definition incumbent_of (current : string) (all pool : list model) : option model :=
  match find_model current pool with Some m => Some m | None => find_model current all end.
Definition unhealthy_incumbent (current : string) (all pool : list model) : bool :=
  match incumbent_of current all pool with Some m => negb (healthy m) | None => true end.

(** A challenger [k] faces the incumbent. *)
(* [src/backend/src/impl/model-router.js:472-578] challenge *)
Definition challenge (r : router) (now : Z) (x : routed_run) (all pool : list model) (e : evaluation) (current : string) (k : candidate) : choice :=
  let incumbent := incumbent_of current all pool in
  let unhealthy := unhealthy_incumbent current all pool in
  match incumbent, rp_allowSwitching (rr_policy x) with
  | Some m, Some false => if unhealthy then Switched current k true nzero else SwitchingDisabled current m
  | _, _ =>
      if unhealthy then Switched current k true nzero
      else
        let usd := switch_total r x (k_provider k) (k_avgLatencyMs k) in
        let net := net_benefit x current k (ev_currentScore e) usd in
        match canSwitch (ro_stickiness r) now (rr_runId x) net (nmul (ratio 2 10) (ndiv usd (ratio 1 100))) with
        | Allowed => Switched current k false net
        | v => Sticky current incumbent k v net
        end
  end.

(** [leader] heads the ranking. A preferred model that is not the incumbent is
    taken as it is; one that is holds its place. *)
(* [src/backend/src/impl/model-router.js:335-470] choice of the model *)
Definition choose (r : router) (now : Z) (x : routed_run) (all pool : list model) (e : evaluation) (leader : candidate) : choice :=
  let current := current_of x in
  let preferred := preferred_of (rr_policy x) pool in
  let winner := default leader (selectByObjective locale_before (ev_candidates e)) in
  let '(best, keeps) := propose current preferred leader winner (ev_candidates e) in
  match preferred, current with
  | Some m, None => Pinned m
  | _, None => Direct best
  | pref, Some cur =>
      match pref with
      | Some m => if bool_decide (cur = md_id m) then
          (if bool_decide (k_modelId best = cur) then Direct best else challenge r now x all pool e cur best)
          else Pinned m
      | None =>
          if keeps then CostRetained cur best
          else if bool_decide (k_modelId best = cur) then Direct best
          else challenge r now x all pool e cur best
      end
  end.

(** ** The decision *)

(* [src/backend/src/impl/model-router.js:314-322] eligibilityFactors *)
Definition eligibilityFactors (log : list stage_log) : list factor :=
  take 12 (s ← log; (λ _, Factor ("eligibility:" ++ sl_stage s) warn) <$> sl_excluded s).

Definition pass_if (o : option num) : factor_status := match o with Some _ => pass | None => warn end.

(* [src/backend/src/impl/model-router.js:323-332] objectiveFactors *)
Definition objectiveFactors (k : candidate) : list factor :=
  match k_objective k with
  | None => []
  | Some o =>
      ([Factor "objective" (pass_if (ob_expectedTotalCostUsd o)); Factor "objective_success" pass] ++
       match ob_costPerSuccessUsd o with Some _ => [Factor "objective_per_success" pass] | None => [] end)%list
  end.

Definition objective_total (k : candidate) : option num := o ← k_objective k; ob_expectedTotalCostUsd o.

(** The cost of a model that is kept: the objective's, or its own estimate. *)
Definition kept_cost (r : router) (x : routed_run) (e : evaluation) (current : string) (m : option model) : option num :=
  match k ← find_candidate current (ev_candidates e); objective_total k with
  | Some c => Some c
  | None => m' ← m; realExpectedCostFor r x m'
  end.

(** A preferred model that no longer takes part, and was excluded by a stage. *)
(* [src/backend/src/impl/model-router.js:269-271] preferredExcluded *)
Definition preferred_excluded (p : run_policy) (pool : list model) (log : list stage_log) : bool :=
  match rp_preferredModel p, preferred_of p pool with
  | Some id, None => negb (bool_decide (id = "")) && existsb (λ s, bool_decide (id ∈ sl_excluded s)) log
  | _, _ => false
  end.

Definition JN (n : num) : jsnum := JNumber n.
Definition options_for (e : evaluation) (selected : string) (score : num) (factors : list factor) (cost : option num)
    (latency : jsnum) (quality : jsnum) (switching : num) (confidence : num) : decision_options :=
  DecisionOptions (ev_candidates e) (Some selected) (JN score) factors (nullable_num cost) latency quality (JN switching) (JN confidence).

(** Type, text, options, reason of the selection, and whether the optimiser was
    passed over. *)
Definition draft := (DecisionType.t * string * decision_options * string * bool)%type.

(* [src/backend/src/impl/model-router.js:335-609] decisions *)
Definition draft_of (r : router) (x : routed_run) (all pool : list model) (log : list stage_log) (e : evaluation) (c : choice) : draft :=
  let own := JN (of_Z (ModelState.modelLatency (rr_model x))) in
  let cur_score := ev_currentScore e in
  let usd k := switch_total r x (k_provider k) (k_avgLatencyMs k) in
  match c with
  | Pinned m =>
      let k := find_candidate (md_id m) (ev_candidates e) in
      let cost := realExpectedCostFor r x m in
      (DecisionType.MODEL_SELECTION, "SELECT " ++ md_id m,
       options_for e (md_id m) (default nzero (k_score <$> k))
         ([Factor "user_preference" pass; Factor "optimization" warn; Factor "expected_cost" (pass_if cost)] ++
          match k with Some k => objectiveFactors k | None => [] end)%list
         cost (md_avgLatencyMs m) (md_quality m) nzero (of_Z 1), "user_preference", true)
  | CostRetained cur k =>
      let inc := find_candidate cur (ev_candidates e) in
      (DecisionType.MODEL_RETENTION, "KEEP " ++ cur,
       options_for e cur cur_score
         ([Factor "score_challenger" warn; Factor "objective" pass; Factor "switch_cost" pass] ++
          match inc with Some i => objectiveFactors i | None => [] end)%list
         (kept_cost r x e cur (incumbent_of cur all pool)) own (JN cur_score) (usd k) (ratio 85 100), "optimized", false)
  | Direct k =>
      (DecisionType.MODEL_SELECTION, "SELECT " ++ k_modelId k,
       options_for e (k_modelId k) (k_score k)
         ([Factor "quality" pass; Factor "cost" pass; Factor "latency" pass; Factor "objective" pass] ++
          (if preferred_excluded (rr_policy x) pool log then [Factor "pinned_ineligible" fail_] else []) ++
          take 4 (eligibilityFactors log) ++ objectiveFactors k)%list
         (match objective_total k with Some c => Some c | None => k_estimatedCost k end)
         (k_avgLatencyMs k) (JN (k_score k)) nzero (ratio 85 100), "optimized", false)
  | SwitchingDisabled cur m =>
      let cost := kept_cost r x e cur (Some m) in
      (DecisionType.MODEL_RETENTION, "KEEP " ++ cur,
       options_for e cur cur_score [Factor "user_preference" pass; Factor "expected_cost" (pass_if cost)]
         cost own (JN cur_score) nzero (of_Z 1), "user_preference", true)
  | Sticky cur m k v net =>
      let cost := kept_cost r x e cur m in
      (DecisionType.MODEL_RETENTION, "KEEP " ++ cur,
       options_for e cur cur_score
         ([Factor "stickiness" pass; Factor "switch_cost" warn; Factor "net_benefit" fail_; Factor "expected_cost" (pass_if cost)] ++
          objectiveFactors k)%list
         cost own (JN cur_score) (usd k) (ratio 9 10), "stickiness", false)
  | Switched cur k unhealthy net =>
      (DecisionType.MODEL_SWITCH, "SWITCH TO " ++ k_modelId k,
       options_for e (k_modelId k) (k_score k)
         ([Factor "quality_gain" pass; Factor "switch_cost" warn;
           (if unhealthy then Factor "incumbent" fail_ else Factor "net_benefit" pass);
           Factor "expected_cost" (pass_if (objective_total k))] ++ objectiveFactors k)%list
         (match objective_total k with Some c => Some c | None => Some (usd k) end)
         (k_avgLatencyMs k) (JN (k_score k)) (usd k) (ratio 8 10), "optimized", false)
  end.

Definition status_of_direction (d : direction) : factor_status :=
  match d with for_ => pass | against => fail_ | neutral => warn end.

(** The factors the intelligence adds: the first eight reasons of the selected
    candidate. *)
(* [src/backend/src/impl/model-router.js:636-644] intel factors *)
Definition intel_factors (e : evaluation) (selected : string) : list factor :=
  match find_candidate selected (ev_candidates e) with
  | Some _ => (λ rs, Factor ("intel:" ++ rs_factor rs) (status_of_direction (rs_direction rs)))
      <$> take 8 (default [] (mget (ev_reasons e) selected))
  | None => []
  end.

(** The history entry of a decision. *)
(* [src/backend/src/impl/model-router.js:645-662] routingHistory *)
Definition history_after (id : string) (now : Z) (x : routed_run) (e : evaluation) (selected : string) (h : history) : history :=
  let k := find_candidate selected (ev_candidates e) in
  Performance.record id now (Some (rr_runId x)) (rr_orgId x)
    (Some (category_name (p_category (classifyTask (or_str (rr_task x) "general task")))))
    (Some selected) (k_modelId <$> ev_candidates e)
    (nullable_num (k' ← k; k_predictedSuccess k'))
    (nullable_num (k' ← k; match k_expectedCostUsd k' with Some c => Some c | None => k_estimatedCost k' end)) h.

(** A draft as the decision it becomes. *)
Definition finished (newId : string) (now : Z) (x : routed_run) (e : evaluation) (d : draft) (selected : string) : decision :=
  let '(ty, text, o, reason, bypassed) := d in
  (new_decision newId now ty text ("run:" ++ rr_runId x) o)
    <| de_selectionReason := Some reason |> <| de_optimizationBypassed := bypassed |>
    <| de_factors ::= λ l, (l ++ intel_factors e selected)%list |>.

(** The decision is in the engine's history when it gets its reason and its
    factors: the history holds the finished one. *)
(* [src/backend/src/impl/model-router.js:615-665] _finalizeRouting *)
Definition finalizeRouting (newId historyId : string) (now : Z) (x : routed_run) (e : evaluation) (d : draft)
    (selected : string) (r : router) : decision * router :=
  let made := finished newId now x e d selected in
  (made, r <| ro_engine ::= recordDecision made |> <| ro_history ::= fmap (history_after historyId now x e selected) |>).

Inductive routing :=
| Refused (code : string) (log : list stage_log)
| Routed (selected : string) (c : choice) (made : decision) (e : evaluation) (log : list stage_log).

(* [src/backend/src/impl/model-router.js:250-610] route *)
Definition route (newId historyId : string) (now : Z) (x : routed_run) (all : list model) (r : router) : routing * router :=
  match all with
  | [] => (Refused "no_models" [], r)
  | _ =>
      match runEligibility (rr_policy x) (rr_context x) (remaining_of x) all with
      | Ineligible c log => (Refused c log, r)
      | Eligible pool log =>
          let e := with_objectives r x (evaluateCandidates r x pool) in
          match ev_candidates e with
          | [] => (Refused "no_models" log, r)
          | leader :: _ =>
              let c := choose r now x all pool e leader in
              let '(made, r') := finalizeRouting newId historyId now x e (draft_of r x all pool log e c) (chosen c) r in
              (Routed (chosen c) c made e log, r')
          end
      end
  end.

(** ** Properties *)

Lemma find_candidate_in id l : id ∈ (k_modelId <$> l) → ∃ k, find_candidate id l = Some k ∧ k_modelId k = id ∧ k ∈ l.
Proof.
  intros (k0 & -> & Hk0)%list_elem_of_fmap. unfold find_candidate.
  destruct (List.find _ l) as [k|] eqn:E.
  - apply List.find_some in E as [Hin Hid%bool_decide_eq_true]. exists k. by rewrite list_elem_of_In.
  - apply list_elem_of_In in Hk0. apply (List.find_none _ _ E) in Hk0. by rewrite bool_decide_true in Hk0.
Qed.

Lemma find_model_in id l m : find_model id l = Some m → m ∈ l ∧ md_id m = id.
Proof. intros [Hin Hid%bool_decide_eq_true]%List.find_some. by rewrite list_elem_of_In. Qed.

Lemma preferred_in p pool m : preferred_of p pool = Some m → m ∈ pool.
Proof.
  unfold preferred_of. destruct (truthy _); [|done]. intros [Hin _]%List.find_some. by rewrite list_elem_of_In.
Qed.

Lemma winner_in l w : selectByObjective locale_before l = Some w → w ∈ l.
Proof.
  unfold selectByObjective. intros H. apply selection_pool_in. rewrite <-(js_sort_perm (objective_before locale_before)).
  destruct (js_sort _ _) as [|y k]; [done|]. injection H as ->. left.
Qed.

(** Every eligible model is a candidate, and there is no other. *)
Lemma evaluated_ids r x pool : k_modelId <$> ev_candidates (with_objectives r x (evaluateCandidates r x pool)) ≡ₚ ids pool.
Proof.
  cbn [with_objectives ev_candidates]. unfold attachObjectives. rewrite <-list_fmap_compose. cbn [evaluateCandidates ev_candidates].
  rewrite js_sort_perm, <-list_fmap_compose. done.
Qed.

(** A switch from [cur] to the candidate [k] is worth it: the run has switches left
    and its last one is long enough ago, and the net benefit - the gain in score, the
    saving per thousand output tokens, the gain in latency, less the switching cost -
    is not below the switching cost, at a fifth of a point per cent, times the
    hysteresis. *)
Record worth_switching (r : router) (now : Z) (x : routed_run) (currentScore : num) (cur : string) (k : candidate) : Prop := {
  ws_count : (default 0 (mget (switchCounts (ro_stickiness r)) (rr_runId x)) < maxSwitchesPerTask (ro_stickiness r))%nat;
  ws_cooldown : (cooldownPeriodMs (ro_stickiness r) ≤ now - default 0 (mget (lastSwitchTime (ro_stickiness r)) (rr_runId x)))%Z;
  ws_benefit :
    let usd := switch_total r x (k_provider k) (k_avgLatencyMs k) in
    let paid := match ModelState.getPricing cur (rr_model x) with Some p => or_num (ModelState.outputPer1k p) nzero | None => nzero end in
    let net := calculateNetBenefit (nsub (k_score k) currentScore) (nsub paid (or_default_num (k_outputPer1k k) nzero))
                 (nsub (of_Z (ModelState.modelLatency (rr_model x))) (to_number (k_avgLatencyMs k))) usd in
    let cost := nmul (ratio 2 10) (ndiv usd (ratio 1 100)) in
    nlt net (nmul (if isFinite cost then nmax nzero cost else nzero) (hysteresisFactor (ro_stickiness r))) = false;
}.

Lemma benefit_finite q c l s : isFinite (calculateNetBenefit q c l s) = true.
Proof.
  destruct (net_benefit_bounds q c l s) as [H1 H2]. by destruct (calculateNetBenefit q c l s) as [|[]| |].
Qed.

Lemma allowed_worth r now x cur k score :
  let usd := switch_total r x (k_provider k) (k_avgLatencyMs k) in
  canSwitch (ro_stickiness r) now (rr_runId x) (net_benefit x cur k score usd) (nmul (ratio 2 10) (ndiv usd (ratio 1 100))) = Allowed →
  worth_switching r now x score cur k.
Proof.
  cbv zeta. intros H. destruct (canSwitch_allowed _ _ _ _ _ H) as [H1 H2]. split; [exact H1|exact H2|].
  revert H. unfold canSwitch, net_benefit. cbv zeta. rewrite benefit_finite. change (of_Z 0) with nzero.
  case_decide; [done|]. case_match; [done|]. destruct (decide (_ = Infinity)) as [E|_].
  { pose proof (benefit_finite (nsub (k_score k) score)
      (nsub (match ModelState.getPricing cur (rr_model x) with Some p => or_num (ModelState.outputPer1k p) nzero | None => nzero end)
         (or_default_num (k_outputPer1k k) nzero))
      (nsub (of_Z (ModelState.modelLatency (rr_model x))) (to_number (k_avgLatencyMs k)))
      (switch_total r x (k_provider k) (k_avgLatencyMs k))) as Hf. by rewrite E in Hf. }
  by destruct (nlt _ _).
Qed.

Lemma challenge_spec r now x all pool e cur k :
  (∃ u net, challenge r now x all pool e cur k = Switched cur k u net ∧
     (unhealthy_incumbent cur all pool = true ∨
      rp_allowSwitching (rr_policy x) ≠ Some false ∧ worth_switching r now x (ev_currentScore e) cur k)) ∨
  (unhealthy_incumbent cur all pool = false ∧
     ((∃ m, challenge r now x all pool e cur k = SwitchingDisabled cur m) ∨
      ∃ i v net, challenge r now x all pool e cur k = Sticky cur i k v net)).
Proof.
  unfold challenge. cbv zeta. destruct (unhealthy_incumbent cur all pool) eqn:Eu.
  - left. exists true, nzero. split; [|by left]. destruct (incumbent_of _ _ _); [|done]. by destruct (rp_allowSwitching _) as [[]|].
  - destruct (incumbent_of cur all pool) as [m|] eqn:Ei; [|by unfold unhealthy_incumbent in Eu; rewrite Ei in Eu].
    destruct (rp_allowSwitching (rr_policy x)) as [[]|] eqn:Ea; [|right; eauto|];
      (destruct (canSwitch _ _ _ _ _) eqn:Ec; [left|right; eauto 8..]);
      do 2 eexists; (split; [reflexivity|]); right; (split; [done|]); by apply allowed_worth.
Qed.

Lemma healthy_incumbent cur all pool : pool `sublist_of` all → unhealthy_incumbent cur all pool = false →
  ∃ m, m ∈ all ∧ md_id m = cur ∧ healthy m = true.
Proof.
  intros Hs. unfold unhealthy_incumbent, incumbent_of.
  destruct (find_model cur pool) as [m|] eqn:E1; [|destruct (find_model cur all) as [m|] eqn:E2; [|done]];
    intros Eh%negb_false_iff; exists m.
  - apply find_model_in in E1 as [H1 H2]. split_and!; [by eapply elem_of_submseteq, sublist_submseteq|done..].
  - by apply find_model_in in E2 as [].
Qed.

(** A choice as the code may make it: on the candidates [l] and their winner. *)
Definition winner (l : list candidate) : option candidate := selectByObjective locale_before l.

(** What is chosen, and why. *)
Lemma choose_spec r now x all pool e leader rest : ev_candidates e = leader :: rest →
  k_modelId <$> ev_candidates e ≡ₚ ids pool →
  let c := choose r now x all pool e leader in
  (∃ m, preferred_of (rr_policy x) pool = Some m ∧ chosen c = md_id m ∧
     ((∃ k, c = Direct k) ∨ c = Pinned m)) ∨
  preferred_of (rr_policy x) pool = None ∧ ∃ w, winner (ev_candidates e) = Some w ∧
    ((chosen c = k_modelId w ∧ (current_of x = None ∨ current_of x = Some (k_modelId w)) ∧
        ((∃ k, c = Direct k) ∨ is_Some (current_of x) ∧ ∃ k, c = CostRetained (k_modelId w) k)) ∨
     ∃ cur, current_of x = Some cur ∧ cur ≠ k_modelId w ∧ c = challenge r now x all pool e cur w).
Proof.
  intros El Hids. cbv zeta. unfold choose, winner. destruct (selection_total locale_before (ev_candidates e)) as [w Ew]; [by rewrite El|].
  rewrite Ew. change (default leader (Some w)) with w.
  destruct (preferred_of (rr_policy x) pool) as [m|] eqn:Epref; [left; exists m; split; [done|]|right; split; [done|]; exists w; split; [done|]].
  - destruct (current_of x) as [cur|]; cbn [propose]; [|by auto].
    destruct (find_candidate_in (md_id m) (ev_candidates e)) as (k & -> & Hk & _).
    { rewrite Hids. apply list_elem_of_fmap. eauto using preferred_in. }
    change (default leader (Some k)) with k. case_bool_decide; [|by auto]. subst cur. rewrite bool_decide_true by done. eauto.
  - destruct (current_of x) as [cur|]; cbn [propose]; [|left; eauto 6].
    destruct (decide (k_modelId w = cur)) as [<-|Hne].
    + left. rewrite (bool_decide_true (k_modelId w = _)) by done. cbn [negb].
      destruct (negb _); cbn; rewrite ?bool_decide_true by done; eauto 10.
    + right. exists cur. rewrite (bool_decide_false (k_modelId w = cur)) by done. cbn [negb].
      rewrite (bool_decide_false (k_modelId w = cur)) by done. auto.
Qed.

Lemma draft_selected r x all pool log e c : do_selected (draft_of r x all pool log e c).1.1.2 = Some (chosen c).
Proof. by destruct c. Qed.

Lemma route_inv newId historyId now x all r sel c d e log r' :
  route newId historyId now x all r = (Routed sel c d e log, r') →
  ∃ pool leader rest, runEligibility (rr_policy x) (rr_context x) (remaining_of x) all = Eligible pool log ∧
    e = with_objectives r x (evaluateCandidates r x pool) ∧ ev_candidates e = leader :: rest ∧
    c = choose r now x all pool e leader ∧ sel = chosen c ∧
    (d, r') = finalizeRouting newId historyId now x e (draft_of r x all pool log e c) sel r.
Proof.
  unfold route. destruct all as [|m0 k0]; [done|]. destruct (runEligibility _ _ _ _) as [|pool log'] eqn:Ee; [done|].
  cbv zeta. destruct (ev_candidates _) as [|leader rest] eqn:Ec; [done|].
  destruct (finalizeRouting _ _ _ _ _ _ _ _) as [d' r0] eqn:Ef. intros [= <- <- <- <- <- <-].
  exists pool, leader, rest. by rewrite Ef.
Qed.

Lemma finished_spec newId now x all pool log e c r :
  let d := finished newId now x e (draft_of r x all pool log e c) (chosen c) in
  de_selected d = Some (chosen c) ∧ de_type d = (draft_of r x all pool log e c).1.1.1.1.
Proof. by destruct c. Qed.

(** C32: Routing chooses well. When a decision comes out, the candidates are the
    eligible models; the model chosen is one of them, or the incumbent, healthy
    and known; a preferred model that is eligible is chosen; without one, and
    without an incumbent, the winner of the objective is. Without a preference the
    run leaves its incumbent only for that winner, and only if the incumbent is
    unknown or not healthy, or switching is not disabled and the switch is worth it:
    the run has switches left, the cooldown since its last one is over, and the net
    benefit in score, price and latency, less the switching cost, is not below that
    cost, in units of score, times the hysteresis. An incumbent that is not healthy
    stays only as the winner. The decision names the model, has the type of what was
    done, and is the last of the engine's history. *)
Theorem routed_soundly newId historyId now x all r sel c d e log r' :
  route newId historyId now x all r = (Routed sel c d e log, r') →
  ∃ pool w, runEligibility (rr_policy x) (rr_context x) (remaining_of x) all = Eligible pool log ∧
    k_modelId <$> ev_candidates e ≡ₚ ids pool ∧ winner (ev_candidates e) = Some w ∧ k_modelId w ∈ ids pool ∧
    (sel ∈ ids pool ∨ current_of x = Some sel ∧ ∃ m, m ∈ all ∧ md_id m = sel ∧ healthy m = true) ∧
    (∀ m, preferred_of (rr_policy x) pool = Some m → sel = md_id m) ∧
    (preferred_of (rr_policy x) pool = None →
       match current_of x with
       | None => sel = k_modelId w ∧ de_type d = DecisionType.MODEL_SELECTION
       | Some cur =>
           (sel = cur ∧ de_type d ≠ DecisionType.MODEL_SWITCH ∧ (unhealthy_incumbent cur all pool = true → cur = k_modelId w)) ∨
           (sel ≠ cur ∧ sel = k_modelId w ∧ de_type d = DecisionType.MODEL_SWITCH ∧
             (unhealthy_incumbent cur all pool = true ∨ rp_allowSwitching (rr_policy x) ≠ Some false ∧
              worth_switching r now x (ev_currentScore e) cur w))
       end) ∧
    de_selected d = Some sel ∧ ((0 < en_max (ro_engine r))%nat → last (en_history (ro_engine r')) = Some d).
Proof.
  intros (pool & leader & rest & Ee & He & El & -> & -> & Ed)%route_inv. unfold finalizeRouting in Ed. injection Ed as -> ->.
  destruct (finished_spec newId now x all pool log e (choose r now x all pool e leader) r) as [Hsel ->].
  pose proof (evaluated_ids r x pool) as Hids. rewrite <-He in Hids. clear He.
  pose proof (choose_spec r now x all pool e leader rest El Hids) as Hc. cbv zeta in Hc.
  destruct (selection_total locale_before (ev_candidates e)) as [w Ew]; [by rewrite El|]. fold (winner (ev_candidates e)) in Ew.
  assert (k_modelId w ∈ ids pool) as Hw by (rewrite <-Hids; apply list_elem_of_fmap; eauto using winner_in).
  exists pool, w. split_and!; [done..|clear Hsel|clear Hsel|clear Hsel|exact Hsel|by intros; apply push_shift_last].
  - destruct Hc as [(m & Hm & -> & _)|(_ & w' & [= <-]%(transitivity (eq_sym Ew)) & [(-> & _)|(cur & Hcur & _ & ->)])]; [|by left|].
    { left. apply list_elem_of_fmap. eauto using preferred_in. }
    destruct (challenge_spec r now x all pool e cur w) as [(u & net & -> & _)|[Hh Hk]]; [by left|right].
    assert (chosen (challenge r now x all pool e cur w) = cur) as -> by (destruct Hk as [[m ->]|(i & v & net & ->)]; done). split; [done|]. apply (healthy_incumbent cur all pool); eauto using eligible_sublist.
  - intros m Hm. destruct Hc as [(m' & Hm' & -> & _)|[Hm' _]]; congruence.
  - intros Hm. destruct Hc as [(m' & Hm' & _)|(_ & w' & [= <-]%(transitivity (eq_sym Ew)) & Hc)]; [congruence|].
    destruct Hc as [(Hch & Hcur & Hk)|(cur & -> & Hne & ->)].
    + rewrite Hch. destruct Hcur as [Hcur|Hcur]; rewrite Hcur in Hk |- *.
      * split; [done|]. destruct Hk as [[k ->]|[[? [=]] _]]; done.
      * left. split_and!; [done| |done]. destruct Hk as [[k ->]|[_ [k ->]]]; done.
    + destruct (challenge_spec r now x all pool e cur w) as [(u & net & -> & Hw')|[Hh Hk]].
      * right. cbn. split_and!; [done..|]. destruct Hw' as [?|[? ?]]; auto.
      * left. rewrite Hh. destruct Hk as [[m ->]|(i & v & net & ->)]; done.
Qed.
End Routing.

(** ** Examples *)

Definition power (b : num) (n : nat) : num := Nat.iter n (nmul b) (of_Z 1).
Definition demo_router : router :=
  Router default_calculator default_manager (new_engine None) default_weights JUndefined None (Some (new_history None)).
Definition demo_run (current : option string) (p : run_policy) : routed_run :=
  RoutedRun "r" (Some "org") "summarise the notes" demo_context
    (match current with Some m => ModelState.setCurrentModel 0 m (Some "p") "start" ModelState.create | None => ModelState.create end)
    (BudgetState.create (Some (ratio 1 10)) None) p.
Definition no_switching : run_policy := 
  RunPolicy false false [] JUndefined JUndefined JUndefined None true None (Some false) JUndefined no_prices None UTILITY_DEFAULTS.
Definition demo_models : list model := [dear_model; unpriced_model; cheap_model].
Definition route_demo (current : option string) (p : run_policy) : routing * router :=
  route power (λ _ _, false) "d1" "h1" 100000%Z (demo_run current p) demo_models demo_router.

Definition selected_of (x : routing) : option string := match x with Routed s _ _ _ _ => Some s | Refused _ _ => None end.
Definition gone_run : routed_run := demo_run (Some "gone") default_policy.

Lemma demo_selected : selected_of (route power (λ _ _, false) "d1" "h1" 100000%Z gone_run demo_models demo_router).1 = Some "m".
Proof. vm_compute. reflexivity. Qed.
Lemma demo_bound : (0 < en_max (ro_engine demo_router))%nat.
Proof. vm_compute. lia. Qed.

Lemma routed_soundly_witness :
  ∃ sel c d e log r', route power (λ _ _, false) "d1" "h1" 100000%Z gone_run demo_models demo_router = (Routed sel c d e log, r') ∧
    de_selected d = Some sel ∧ last (en_history (ro_engine r')) = Some d ∧ sel = "m".
Proof.
  pose proof demo_selected as Hs.
  destruct (route power (λ _ _, false) "d1" "h1" 100000%Z gone_run demo_models demo_router) as [[code log|sel c d e log] r'] eqn:E;
    [discriminate Hs|].
  exists sel, c, d, e, log, r'.
  destruct (routed_soundly power (λ _ _, false) "d1" "h1" 100000%Z gone_run demo_models demo_router sel c d e log r' E)
    as (pool & w & _ & _ & _ & _ & _ & _ & _ & H1 & H2).
  split; [reflexivity|]. split; [exact H1|]. split; [exact (H2 demo_bound)|]. by injection Hs.
Defined.

(** The budget excludes the incumbent, but with switching disabled it stays. *)
Example excluded_incumbent_stays :
  match route_demo (Some "dear") no_switching with
  | (Routed sel c _ e log, _) => sel = "dear" ∧ (∃ m, c = SwitchingDisabled "dear" m) ∧ (k_modelId <$> ev_candidates e) = ["m"]
  | _ => False
  end.
Proof. vm_compute. eauto. Qed.

(** Without observations the overlay still moves a score: the task needs tools. *)
Example overlay_without_observations :
  ov_adjustment (intelligenceOverlay demo_router (RoutedRun "r" None "debug the failing test" demo_context ModelState.create
    (BudgetState.create None None) default_policy) cheap_model) ≠ nzero.
Proof. vm_compute. discriminate. Qed.
