(* ===== verification/ContextEngine.v ===== *)
(** The context engine (backend/src/intelligence/context-engine.js): the score of
    a context item, its category, and the selection of items under a budget of
    tokens with the dependencies of what is selected.

    An item is the [ContextItem] of the state with the optional fields the code
    hangs on it. [localeCompare] and the clock are arguments; instants are those
    the dates parse to. Explanations are texts and are left out. *)

From S2P Require Import Prelude JsMap JsValue Number Sorting Text Regex RuntimeState TaskClassifier SemanticCache.

Local Open Scope string_scope.
Local Open Scope js_scope.

(** ** Items *)

(** The fields an item may have besides those of [ContextItem], the [m_] ones in
    its metadata. *)
Record extra := Extra {
  x_content : option string;
  x_importance : option num;
  x_dependencies : option (list string);
  x_createdAt : option Z;
  x_protected : bool;
  x_contextCategory : option string;
  m_text : option string;
  m_category : option string;
  m_kind : option string;
  m_protected : bool;
  m_neverCompress : bool;
  m_contextCategory : option string;
  m_dependsOn : option (list string);
  m_createdAt : option Z;
  m_compressedText : option string;
}.
#[export] Instance extra_eta : Eta extra := λ x,
  Extra (x_content x) (x_importance x) (x_dependencies x) (x_createdAt x) (x_protected x) (x_contextCategory x)
    (m_text x) (m_category x) (m_kind x) (m_protected x) (m_neverCompress x) (m_contextCategory x) (m_dependsOn x)
    (m_createdAt x) (m_compressedText x).
Definition no_extra : extra := Extra None None None None false None None None None false false None None None None.

Record citem := Citem { c_base : ContextState.item; c_extra : extra }.
Definition c_id (i : citem) : string := ContextState.i_id (c_base i).
Definition c_tokens (i : citem) : Z := ContextState.i_tokens (c_base i).
Definition c_status (i : citem) : string := ContextState.i_status (c_base i).

(** [!item.status || item.status === 'KEEP'] *)
Definition kept (i : citem) : bool := negb (truthy_str (c_status i)) || bool_decide (c_status i = "KEEP").
(** [item.dependencies || (item.metadata && item.metadata.dependsOn) || []] *)
Definition deps (i : citem) : list string :=
  match x_dependencies (c_extra i) with Some l => l | None => default [] (m_dependsOn (c_extra i)) end.
(** [(item.metadata && item.metadata.text) || item.content] *)
Definition own_text (i : citem) : option string :=
  if truthy (m_text (c_extra i)) then m_text (c_extra i)
  else if truthy (x_content (c_extra i)) then x_content (c_extra i) else None.

(** ** The score *)

(* [src/backend/src/intelligence/context-engine.js:18-26] DEFAULT_WEIGHTS *)
Record weights := Weights {
  w_relevance : num; w_dependency : num; w_recency : num; w_importance : num; w_taskRequirement : num;
  w_tokenCostPenalty : num; w_penaltyPerKTokens : num;
}.
Definition DEFAULT_WEIGHTS : weights :=
  Weights (ratio 35 100) (ratio 15 100) (ratio 12 100) (ratio 18 100) (ratio 20 100) (ratio 25 100) (ratio 2 100).

(* [src/backend/src/intelligence/context-engine.js:28-37] KIND_TASK_AFFINITY *)
Definition KIND_TASK_AFFINITY (c : category) : list (string * num) :=
  let row chat file logs memory search test tool_result :=
    [("chat", ratio chat 100); ("file", ratio file 100); ("logs", ratio logs 100); ("memory", ratio memory 100);
     ("search", ratio search 100); ("test", ratio test 100); ("tool_result", ratio tool_result 100)] in
  match c with
  | debug => row 70 90 95 60 60 90 85
  | code => row 70 90 50 55 70 70 80
  | research => row 65 50 30 70 95 30 50
  | analysis => row 65 80 60 75 60 50 75
  | extraction => row 60 85 40 50 70 40 80
  | planning => row 80 70 40 85 65 40 60
  | writing => row 80 60 30 75 60 30 40
  | general => row 80 60 50 65 60 50 60
  end%Z.

Definition unit_clamp (n : num) : num := nmax nzero (nmin (of_Z 1) n).
(** [Number.isFinite(x) ? clamp(x) : d] *)
Definition unit_or (o : option num) (d : num) : num :=
  match o with Some n => if isFinite n then unit_clamp n else d | None => d end.

(* [src/backend/src/intelligence/context-engine.js:54-64] recencyScore *)
Definition recencyScore (createdAt : option Z) (nowMs : Z) : num :=
  match createdAt with
  | None => ratio 5 10
  | Some t =>
      let age := Z.max 0 (nowMs - t) in
      if age <=? 15 * 60000 then of_Z 1
      else if age <=? 60 * 60000 then ratio 8 10
      else if age <=? 240 * 60000 then ratio 6 10
      else if age <=? 1440 * 60000 then ratio 4 10
      else ratio 2 10
  end%Z.

(** The context of a scoring; [hits] are the ids of the items at hand. *)
Record scoring := Scoring {
  sx_weights : weights;
  sx_query : string;
  sx_taskText : string;
  sx_category : category;
  sx_requiredKinds : list string;
  sx_nowMs : Z;
}.

Definition item_text (i : citem) : string :=
  ContextState.i_title (c_base i) ++ " " ++ ContextState.i_source (c_base i) ++ " " ++ default "" (own_text i).

(* [src/backend/src/intelligence/context-engine.js:72-75] relevance *)
Definition relevance_of (query : string) (i : citem) : num :=
  let base := unit_or (Some (ContextState.i_relevance (c_base i))) (ratio 5 10) in
  if truthy_str query
  then nadd (nmul (ratio 6 10) (lexicalOverlap query (item_text i))) (nmul (ratio 4 10) base)
  else base.

(* [src/backend/src/intelligence/context-engine.js:66-125] scoreContextItem *)
Definition scoreContextItem (s : scoring) (hits : list string) (i : citem) : num :=
  let w := sx_weights s in
  let query := or_str (sx_query s) (sx_taskText s) in
  let base := unit_or (Some (ContextState.i_relevance (c_base i))) (ratio 5 10) in
  let dependency :=
    match deps i with
    | [] => ratio 5 10
    | l => if existsb (λ d, bool_decide (d ∈ hits)) l then ratio 9 10 else ratio 4 10
    end in
  let created := match x_createdAt (c_extra i) with Some t => Some t | None => m_createdAt (c_extra i) end in
  let importance := unit_or (x_importance (c_extra i)) base in
  let kind := ContextState.i_kind (c_base i) in
  let requirement :=
    if bool_decide (kind ∈ sx_requiredKinds s) then of_Z 1
    else default (ratio 5 10) (mget (KIND_TASK_AFFINITY (sx_category s)) kind) in
  let penalty := nmin (ratio 5 10) (nmul (ndiv (of_Z (Z.max 0 (c_tokens i))) (of_Z 1000)) (or_num (w_penaltyPerKTokens w) nzero)) in
  let raw :=
    nsub (nadd (nadd (nadd (nadd (nmul (relevance_of query i) (w_relevance w)) (nmul dependency (w_dependency w)))
      (nmul (recencyScore created (sx_nowMs s)) (w_recency w))) (nmul importance (w_importance w)))
      (nmul requirement (w_taskRequirement w))) (nmul penalty (w_tokenCostPenalty w)) in
  round3 (unit_clamp raw).

(** ** Categories *)

Inductive ccategory := MUST_KEEP | SHOULD_KEEP | OPTIONAL | NEVER_COMPRESS.
#[export] Instance ccategory_eq_dec : EqDecision ccategory.
Proof. solve_decision. Defined.

Fixpoint to_upper (s : string) : string :=
  match s with EmptyString => "" | String c s' => String (upper_char c) (to_upper s') end.

(* [src/backend/src/intelligence/context-engine.js:145-145] CONTEXT_CATEGORIES *)
Definition parse_category (s : string) : option ccategory :=
  if bool_decide (s = "MUST_KEEP") then Some MUST_KEEP
  else if bool_decide (s = "SHOULD_KEEP") then Some SHOULD_KEEP
  else if bool_decide (s = "OPTIONAL") then Some OPTIONAL
  else if bool_decide (s = "NEVER_COMPRESS") then Some NEVER_COMPRESS
  else None.

Definition PROTECTED_CATEGORIES : list string :=
  ["user_task"; "constraint"; "constraints"; "success_criteria"; "criteria"; "criterion"; "system"].
Definition PROTECTED_KINDS : list string :=
  ["constraint"; "constraints"; "criterion"; "criteria"; "success_criteria"; "success-criteria"; "system"].

(** What the manager's test and the engine's have in common: the tests by
    category, source, title and kind. *)
(* [src/backend/src/intelligence/context-engine.js:154-164] isProtectedCategoryItem *)
Definition protected_by_kind (i : citem) : bool :=
  let x := c_extra i in
  let kind := to_lower (ContextState.i_kind (c_base i)) in
  let source := to_lower (ContextState.i_source (c_base i)) in
  let category := to_lower (or_str (default "" (m_category x)) (default "" (m_kind x))) in
  bool_decide (category ∈ PROTECTED_CATEGORIES) || bool_decide (source = "user")
  || (bool_decide (kind = "chat") && test (parse_i "user task") (ContextState.i_title (c_base i)))
  || bool_decide (kind ∈ PROTECTED_KINDS) || bool_decide (source = "system").

(* [src/backend/src/intelligence/context-engine.js:149-165] isProtectedCategoryItem *)
Definition isProtectedCategoryItem (i : citem) : bool :=
  if x_protected (c_extra i) then true
  else if m_protected (c_extra i) || m_neverCompress (c_extra i) then false
  else protected_by_kind i.

(* [src/backend/src/intelligence/context-engine.js:167-183] categorizeContextItem *)
Definition categorizeContextItem (i : citem) : ccategory :=
  let x := c_extra i in
  match parse_category (to_upper (or_str (default "" (m_contextCategory x)) (default "" (x_contextCategory x)))) with
  | Some c => if bool_decide (c = NEVER_COMPRESS) && isProtectedCategoryItem i then MUST_KEEP else c
  | None =>
      if m_protected x || m_neverCompress x || x_protected x then NEVER_COMPRESS
      else if isProtectedCategoryItem i then MUST_KEEP
      else
        let rel := ContextState.i_relevance (c_base i) in
        if isFinite rel && nle (ratio 7 10) rel then SHOULD_KEEP else OPTIONAL
  end.

(** ** Selection *)

Section Select.
Context (locale_before : string → string → bool).

(** [new Map(items.map((i) => [i.id, i])).get(id)]: the last item of that id. *)
Definition by_id (items : list citem) (id : string) : option citem :=
  List.find (λ i, bool_decide (c_id i = id)) (rev items).

(** A step of the search takes the least id of the queue. [n] bounds the steps. *)
Fixpoint closure_loop (items : list citem) (decided : list string) (n : nat)
    (queue seen : list string) (out : list citem) : option (list citem) :=
  match js_sort String.ltb queue with
  | [] => Some out
  | id :: queue =>
      match n with
      | O => None
      | S n =>
          if bool_decide (id ∈ seen) then closure_loop items decided n queue seen out
          else
            let seen := id :: seen in
            match by_id items id with
            | Some dep =>
                if bool_decide (id ∈ decided) || negb (kept dep) then closure_loop items decided n queue seen out
                else
                  let more := List.filter (λ d, negb (bool_decide (d ∈ seen))) (deps dep) in
                  closure_loop items decided n (queue ++ more)%list seen (out ++ [dep])%list
            | None => closure_loop items decided n queue seen out
            end
      end
  end.

(** The dependencies still to be followed from the items not seen. *)
Definition unseen_deps (items : list citem) (seen : list string) : nat :=
  sum_list_with (λ i, if bool_decide (c_id i ∈ seen) then 0 else length (deps i))%nat items.
Definition closure_bound (items : list citem) (i : citem) : nat :=
  (length (deps i) + unseen_deps items [c_id i])%nat.

(* [src/backend/src/intelligence/context-engine.js:207-225] closureOf *)
Definition closureOf (items : list citem) (decided : list string) (i : citem) : list citem :=
  default [] (closure_loop items decided (closure_bound items i) (deps i) [c_id i] []).

Inductive omission := NotKept | BelowThreshold | NoRoom.
Inductive label := Own (c : ccategory) | Closure (c : ccategory).

(** The set [decided] of the code: the ids of either list. *)
(* [src/backend/src/intelligence/context-engine.js:195-199] selected *)
Record selection := Selection {
  se_selected : list (citem * num * label);
  se_omitted : list (string * omission * num);
  se_used : Z;
  se_overBudget : bool;
}.
#[local] Instance selection_eta : Eta selection := λ s,
  Selection (se_selected s) (se_omitted s) (se_used s) (se_overBudget s).

Definition selected_items (s : selection) : list citem := (λ x, x.1.1) <$> se_selected s.
Definition selected_ids (s : selection) : list string := c_id <$> selected_items s.
Definition omitted_ids (s : selection) : list string := (λ x, x.1.1) <$> se_omitted s.
Definition decided (s : selection) : list string := (selected_ids s ++ omitted_ids s)%list.

(** [used + tokens <= budget]; no budget is [Infinity]. *)
(* [src/backend/src/intelligence/context-engine.js:201-201] fits *)
Definition fits (budget : option Z) (s : selection) (tokens : Z) : bool :=
  match budget with Some b => (se_used s + tokens <=? b)%Z | None => true end.

Definition sum_of (l : list citem) : Z := foldr (λ i n, c_tokens i + n)%Z 0%Z l.

Section Pass.
Context (items : list citem) (budget : option Z) (threshold : num) (score_of : citem → num).

Definition omit (i : citem) (sc : num) (why : omission) (s : selection) : selection :=
  s <| se_omitted ::= λ l, (l ++ [(c_id i, why, sc)])%list |>.
Definition take_item (i : citem) (sc : num) (l : label) (s : selection) : selection :=
  s <| se_selected ::= λ k, (k ++ [(i, sc, l)])%list |> <| se_used ::= λ n, (n + c_tokens i)%Z |>.

(** The dependencies that come with an item. *)
(* [src/backend/src/intelligence/context-engine.js:255-260] closure *)
Definition take_closure (label_of : citem → label) (closure : list citem) (s : selection) : selection :=
  foldl (λ s d, if bool_decide (c_id d ∈ decided s) then s else take_item d (score_of d) (label_of d) s) s closure.

(** One item: left out, or taken with its closure. The code has this twice, for
    the items that must be kept and, with other labels, for the others. *)
(* [src/backend/src/intelligence/context-engine.js:227-261] trySelect *)
Definition trySelect (mustKeep : bool) (own : citem → label) (close : citem → label) (e : citem * num) (s : selection) : selection :=
  let '(i, sc) := e in
  if bool_decide (c_id i ∈ decided s) then s
  else if negb (kept i) then omit i sc NotKept s
  else if negb mustKeep && nlt sc threshold then omit i sc BelowThreshold s
  else
    let closure := closureOf items (decided s) i in
    let need := (c_tokens i + sum_of closure)%Z in
    if negb mustKeep && negb (fits budget s need) then omit i sc NoRoom s
    else
      let s := if mustKeep && negb (fits budget s need) then s <| se_overBudget := true |> else s in
      take_closure close closure (take_item i sc (own i) s).

(* [src/backend/src/intelligence/context-engine.js:263-269] phase 1 *)
Definition must_step (e : citem * num) (s : selection) : selection :=
  trySelect true (λ _, Own MUST_KEEP) (λ _, Closure MUST_KEEP) e s.
(* [src/backend/src/intelligence/context-engine.js:275-305] phase 2 *)
Definition rest_step (e : citem * num) (s : selection) : selection :=
  trySelect false (λ i, Own (categorizeContextItem i)) (λ i, Closure (categorizeContextItem i)) e s.
End Pass.

(** Higher scores first, then fewer tokens, then by id. *)
Definition score_before (a b : citem * num) : bool :=
  let d := nsub b.2 a.2 in
  if truthy_num d then nlt d nzero
  else if negb (c_tokens a.1 =? c_tokens b.1)%Z then (c_tokens a.1 <? c_tokens b.1)%Z
  else locale_before (c_id a.1) (c_id b.1).

Definition rank (i : citem) : Z :=
  match categorizeContextItem i with SHOULD_KEEP => 0 | NEVER_COMPRESS => 1 | OPTIONAL | MUST_KEEP => 2 end%Z.
Definition rank_before (a b : citem * num) : bool :=
  if negb (rank a.1 =? rank b.1)%Z then (rank a.1 <? rank b.1)%Z else score_before a b.

Definition must_keep (i : citem) : bool := bool_decide (categorizeContextItem i = MUST_KEEP).

(** A budget of zero, or below, is no budget. *)
Definition budget_of (tokenBudget : option Z) : option Z :=
  b ← tokenBudget; if (0 <? b)%Z then Some b else None.

Definition empty_selection : selection := Selection [] [] 0 false.

(** The passes, on the entries in their order. *)
Definition run_must (items : list citem) (budget : option Z) (threshold : num) (score_of : citem → num)
    (l : list (citem * num)) (s : selection) : selection :=
  foldl (λ s e, must_step items budget threshold score_of e s) s l.
Definition run_rest (items : list citem) (budget : option Z) (threshold : num) (score_of : citem → num)
    (l : list (citem * num)) (s : selection) : selection :=
  foldl (λ s e, rest_step items budget threshold score_of e s) s l.

(* [src/backend/src/intelligence/context-engine.js:185-307] selectContext *)
Definition selectContext (x : scoring) (tokenBudget : option Z) (relevanceThreshold : num) (items : list citem) : selection :=
  let budget := budget_of tokenBudget in
  let threshold := if isFinite relevanceThreshold then relevanceThreshold else nzero in
  let hits := c_id <$> items in
  let scored := js_sort score_before ((λ i, (i, scoreContextItem x hits i)) <$> items) in
  let scores := foldl (λ m e, mset m (c_id e.1) e.2) ([] : jsmap string num) scored in
  let score_of d := default (scoreContextItem x hits d) (mget scores (c_id d)) in
  let must := List.filter (λ e, must_keep e.1) scored in
  let rest := js_sort rank_before (List.filter (λ e, negb (must_keep e.1)) scored) in
  run_rest items budget threshold score_of rest (run_must items budget threshold score_of must empty_selection).

(** ** The closure *)

Lemma by_id_some items id i : by_id items id = Some i → i ∈ items ∧ c_id i = id.
Proof.
  intros [Hin%in_rev Hid%bool_decide_eq_true]%List.find_some. by rewrite list_elem_of_In.
Qed.

Lemma by_id_in items i : NoDup (c_id <$> items) → i ∈ items → by_id items (c_id i) = Some i.
Proof.
  intros Hnd Hi. unfold by_id. destruct (List.find _ _) as [j|] eqn:E.
  - apply by_id_some in E as [Hj Hid]. f_equal.
    apply list_elem_of_lookup in Hi as [a Ha], Hj as [b Hb].
    assert (a = b) as ->; [|congruence]. apply (NoDup_lookup (c_id <$> items) a b (c_id i)); [done|..];
      rewrite list_lookup_fmap, ?Ha, ?Hb; simpl; congruence.
  - exfalso. apply (List.find_none _ _) with (x := i) in E; [by rewrite bool_decide_true in E|].
    by rewrite <-in_rev, <-list_elem_of_In.
Qed.

(** What is seen stops counting. *)
Lemma unseen_deps_cons items seen i : i ∈ items → c_id i ∉ seen →
  (length (deps i) + unseen_deps items (c_id i :: seen) ≤ unseen_deps items seen)%nat.
Proof.
  intros Hi Hn. unfold unseen_deps. induction items as [|j l IH]; [by apply not_elem_of_nil in Hi|]. cbn [sum_list_with].
  assert (∀ l, sum_list_with (λ i0, if bool_decide (c_id i0 ∈ c_id i :: seen) then 0 else length (deps i0)) l
     ≤ sum_list_with (λ i0, if bool_decide (c_id i0 ∈ seen) then 0 else length (deps i0)) l)%nat as Hmono.
  { clear. intros l. induction l as [|j l IH]; [done|]. cbn [sum_list_with].
    repeat case_bool_decide; try lia. exfalso. set_solver. }
  apply elem_of_cons in Hi as [<-|Hi].
  - rewrite (bool_decide_true (c_id i ∈ c_id i :: seen)) by left. rewrite (bool_decide_false (c_id i ∈ seen)) by done.
    specialize (Hmono l). lia.
  - specialize (IH Hi). repeat case_bool_decide; try lia. exfalso. set_solver.
Qed.

Lemma unseen_deps_mono items seen id : (unseen_deps items (id :: seen) ≤ unseen_deps items seen)%nat.
Proof.
  unfold unseen_deps. induction items as [|j l IH]; [done|]. cbn [sum_list_with].
  repeat case_bool_decide; try lia. exfalso. set_solver.
Qed.

(** What holds of a search that is under way. *)
Definition settled (items : list citem) (dec seen0 : list string) (out : list citem) (d : string) : Prop :=
  d ∈ seen0 ∨ ∀ y, by_id items d = Some y → kept y = true → d ∈ dec ∨ d ∈ (c_id <$> out).

Record search_inv (items : list citem) (dec seen0 : list string) (roots queue seen : list string) (out : list citem) : Prop := {
  sv_items : ∀ y, y ∈ out → by_id items (c_id y) = Some y ∧ kept y = true ∧ c_id y ∉ dec ∧ c_id y ∉ seen0 ∧ c_id y ∈ seen;
  sv_nodup : NoDup (c_id <$> out);
  sv_seen0 : seen0 ⊆ seen;
  sv_settled : ∀ d, d ∈ seen → settled items dec seen0 out d;
  sv_next : ∀ y d, y ∈ out → d ∈ deps y → d ∈ seen ∨ d ∈ queue;
  sv_roots : ∀ d, d ∈ roots → d ∈ seen ∨ d ∈ queue;
}.

Lemma settled_more items dec seen0 out y d : settled items dec seen0 out d → settled items dec seen0 (out ++ [y]) d.
Proof. intros [?|H]; [by left|right]. intros z Hz Hk. destruct (H z Hz Hk) as [?|?]; [by left|right]. rewrite fmap_app. set_solver. Qed.

Lemma search_again items dec seen0 roots id queue seen out : search_inv items dec seen0 roots (id :: queue) seen out →
  id ∈ seen → search_inv items dec seen0 roots queue seen out.
Proof.
  intros [H1 H2 H3 H4 H5 H6] Hid. split; [done..| |].
  - intros y d Hy Hd. destruct (H5 y d Hy Hd); set_solver.
  - intros d Hd. destruct (H6 d Hd); set_solver.
Qed.

Lemma search_skip items dec seen0 roots id queue seen out : search_inv items dec seen0 roots (id :: queue) seen out →
  (∀ y, by_id items id = Some y → kept y = true → id ∈ dec) →
  search_inv items dec seen0 roots queue (id :: seen) out.
Proof.
  intros [H1 H2 H3 H4 H5 H6] Hid. split; [|done|set_solver|..].
  - intros y Hy. destruct (H1 y Hy) as (? & ? & ? & ? & ?). set_solver.
  - intros d [->|Hd]%elem_of_cons; [|by apply H4].
    right. intros y Hy Hk. left. by apply (Hid y).
  - intros y d Hy Hd. destruct (H5 y d Hy Hd); set_solver.
  - intros d Hd. destruct (H6 d Hd); set_solver.
Qed.

Lemma search_take items dec seen0 roots id queue seen out y : search_inv items dec seen0 roots (id :: queue) seen out →
  id ∉ seen → by_id items id = Some y → kept y = true → id ∉ dec →
  search_inv items dec seen0 roots
    (queue ++ List.filter (λ d, negb (bool_decide (d ∈ id :: seen))) (deps y)) (id :: seen) (out ++ [y]).
Proof.
  intros [H1 H2 H3 H4 H5 H6] Hs Hy Hk Hd. pose proof (by_id_some _ _ _ Hy) as [_ Hid]. split.
  - intros z [Hz| ->%list_elem_of_singleton]%elem_of_app.
    + destruct (H1 z Hz) as (? & ? & ? & ? & ?). set_solver.
    + rewrite Hid. set_solver.
  - rewrite fmap_app. apply NoDup_app. split; [done|]. split; [|apply NoDup_singleton].
    intros d (z & -> & Hz)%list_elem_of_fmap. simpl. rewrite list_elem_of_singleton, Hid. intros <-.
    destruct (H1 z Hz) as (_ & _ & _ & _ & ?). done.
  - set_solver.
  - intros d [->|Hd']%elem_of_cons; [|by apply settled_more, H4]. right. intros z Hz _. right.
    rewrite fmap_app. rewrite <-Hid. set_solver.
  - intros z d [Hz| ->%list_elem_of_singleton]%elem_of_app Hdz.
    + destruct (H5 z d Hz Hdz); set_solver.
    + destruct (decide (d ∈ id :: seen)) as [?|Hn]; [by left|right]. apply elem_of_app. right.
      rewrite list_elem_of_In, List.filter_In, <-list_elem_of_In. by rewrite bool_decide_false.
  - intros d Hdr. destruct (H6 d Hdr); set_solver.
Qed.

Lemma search_sorted items dec seen0 roots queue queue' seen out : queue ≡ₚ queue' →
  search_inv items dec seen0 roots queue seen out → search_inv items dec seen0 roots queue' seen out.
Proof. intros Hp [H1 H2 H3 H4 H5 H6]. split; try done; setoid_rewrite <-Hp; done. Qed.

(** The search ends within its bound, with nothing left in the queue. *)
Lemma closure_loop_spec items dec seen0 roots n : ∀ queue seen out,
  (length queue + unseen_deps items seen ≤ n)%nat → search_inv items dec seen0 roots queue seen out →
  ∃ out' seen', closure_loop items dec n queue seen out = Some out' ∧ search_inv items dec seen0 roots [] seen' out'.
Proof.
  induction n as [|n IH]; intros queue seen out Hn Hinv;
    pose proof (js_sort_perm String.ltb queue) as Hp; apply (search_sorted _ _ _ _ _ (js_sort String.ltb queue)) in Hinv; try done;
    cbn [closure_loop]; destruct (js_sort String.ltb queue) as [|id q]; try by eauto.
  - apply Permutation_length in Hp. simpl in Hp. lia.
  - apply Permutation_length in Hp. simpl in Hp. pose proof (unseen_deps_mono items seen id).
    case_bool_decide as Hs; [apply IH; [lia|by eapply search_again]|].
    destruct (by_id items id) as [y|] eqn:Ey; [|apply IH; [lia|apply search_skip; [done|congruence]]].
    pose proof (by_id_some _ _ _ Ey) as [Hy Hid].
    destruct (bool_decide (id ∈ dec) || negb (kept y)) eqn:Eb.
    + apply IH; [lia|]. apply search_skip; [done|]. intros y' [= <-]%(transitivity (eq_sym Ey)) Hk.
      rewrite Hk, orb_false_r in Eb. by apply bool_decide_eq_true in Eb.
    + apply orb_false_iff in Eb as [Ed%bool_decide_eq_false Ek%negb_false_iff].
      apply IH; [|by apply search_take].
      rewrite length_app. pose proof (unseen_deps_cons items seen y Hy) as Hu. rewrite Hid in Hu. specialize (Hu Hs).
      pose proof (List.filter_length_le (λ d, negb (bool_decide (d ∈ id :: seen))) (deps y)). lia.
Qed.

(** The closure: the kept, undecided items the dependencies lead to, each once. *)
Lemma closureOf_spec items dec i : ∃ seen,
  closure_loop items dec (closure_bound items i) (deps i) [c_id i] [] = Some (closureOf items dec i) ∧
  search_inv items dec [c_id i] (deps i) [] seen (closureOf items dec i).
Proof.
  unfold closureOf. destruct (closure_loop_spec items dec [c_id i] (deps i) (closure_bound items i) (deps i) [c_id i] [])
    as (out & seen & E & Hinv); [done| |exists seen; rewrite E; by split].
  split; [by intros ? ?%not_elem_of_nil|constructor|done|by left|by intros ? ? ?%not_elem_of_nil|by right].
Qed.

(** Following dependencies ends. Whatever the items and their dependencies,
    cyclic ones included, the search for the closure of an item empties its queue
    within the bound the model gives it, so the result is never cut off. *)
Theorem closure_terminates items dec i :
  is_Some (closure_loop items dec (closure_bound items i) (deps i) [c_id i] []).
Proof. destruct (closureOf_spec items dec i) as (seen & E & _). by rewrite E. Qed.

(** ** One pass *)

Lemma sum_of_app l k : sum_of (l ++ k) = (sum_of l + sum_of k)%Z.
Proof. unfold sum_of. induction l as [|x l IH]; simpl; lia. Qed.

Lemma elem_decided s id : id ∈ decided s ↔ id ∈ selected_ids s ∨ id ∈ omitted_ids s.
Proof. unfold decided. by rewrite elem_of_app. Qed.

Section Steps.
Context (items : list citem) (budget : option Z) (threshold : num) (score_of : citem → num).
Context (Hnd : NoDup (c_id <$> items)).

Lemma take_closure_spec label_of closure : ∀ s, NoDup (c_id <$> closure) → (∀ d, d ∈ closure → c_id d ∉ decided s) →
  let s' := take_closure score_of label_of closure s in
  selected_items s' = (selected_items s ++ closure)%list ∧ se_omitted s' = se_omitted s ∧
  se_used s' = (se_used s + sum_of closure)%Z ∧ se_overBudget s' = se_overBudget s.
Proof.
  cbv zeta. induction closure as [|d k IH]; intros s Hk Hd.
  - cbn. rewrite app_nil_r. repeat split; lia.
  - cbn [take_closure foldl]. apply NoDup_cons in Hk as [Hdk Hk]. rewrite bool_decide_false by (apply Hd; left).
    destruct (IH (take_item d (score_of d) (label_of d) s) Hk) as (H1 & H2 & H3 & H4).
    + intros d' Hd'. rewrite elem_decided. unfold selected_ids, selected_items, omitted_ids. cbn [take_item].
      assert (se_selected (take_item d (score_of d) (label_of d) s) = (se_selected s ++ [(d, score_of d, label_of d)])%list) as -> by done.
      assert (se_omitted (take_item d (score_of d) (label_of d) s) = se_omitted s) as -> by done.
      rewrite !fmap_app, elem_of_app. cbn. rewrite list_elem_of_singleton.
      pose proof (Hd d' ltac:(by right)) as Hn. rewrite elem_decided in Hn. unfold selected_ids, selected_items, omitted_ids in Hn.
      intros [[?|Heq]|?]; [tauto| |tauto]. apply Hdk. rewrite <-Heq. apply list_elem_of_fmap. exists d'. by split.
    + fold (take_closure score_of label_of k (take_item d (score_of d) (label_of d) s)).
      rewrite H1, H2, H3, H4. unfold selected_items. cbn [take_item].
      assert (se_selected (take_item d (score_of d) (label_of d) s) = (se_selected s ++ [(d, score_of d, label_of d)])%list) as -> by done.
      assert (se_used (take_item d (score_of d) (label_of d) s) = (se_used s + c_tokens d)%Z) as -> by done.
      rewrite fmap_app. cbn. rewrite <-app_assoc. split_and!; [done..| |done]. unfold sum_of. simpl. lia.
Qed.

(** What one item does to the selection. *)
Inductive stepped (mustKeep : bool) (i : citem) (sc : num) (s s' : selection) : Prop :=
| already : c_id i ∈ decided s → s' = s → stepped mustKeep i sc s s'
| left_out why : c_id i ∉ decided s → s' = omit i sc why s →
    (kept i = false ∧ why = NotKept ∨ kept i = true ∧ mustKeep = false ∧
      (why = BelowThreshold ∧ nlt sc threshold = true ∨
       why = NoRoom ∧ fits budget s (c_tokens i + sum_of (closureOf items (decided s) i)) = false)) →
    stepped mustKeep i sc s s'
| taken : c_id i ∉ decided s → kept i = true →
    selected_items s' = (selected_items s ++ i :: closureOf items (decided s) i)%list → se_omitted s' = se_omitted s →
    se_used s' = (se_used s + c_tokens i + sum_of (closureOf items (decided s) i))%Z →
    (mustKeep = false → nlt sc threshold = false ∧ fits budget s (c_tokens i + sum_of (closureOf items (decided s) i)) = true) →
    (fits budget s (c_tokens i + sum_of (closureOf items (decided s) i)) = true → se_overBudget s' = se_overBudget s) →
    (fits budget s (c_tokens i + sum_of (closureOf items (decided s) i)) = false → se_overBudget s' = true) →
    stepped mustKeep i sc s s'.

Lemma trySelect_spec mustKeep own close i sc s :
  stepped mustKeep i sc s (trySelect items budget threshold score_of mustKeep own close (i, sc) s).
Proof.
  unfold trySelect. case_bool_decide as Hd; [by apply already|].
  destruct (kept i) eqn:Ek; [|apply (left_out _ _ _ _ _ NotKept); auto]. cbn [negb].
  destruct (negb mustKeep && nlt sc threshold) eqn:Et.
  { apply andb_true_iff in Et as [Em Et]. apply negb_true_iff in Em. apply (left_out _ _ _ _ _ BelowThreshold); auto 10. }
  set (closure := closureOf items (decided s) i). set (need := (c_tokens i + sum_of closure)%Z).
  destruct (negb mustKeep && negb (fits budget s need)) eqn:Ef.
  { apply andb_true_iff in Ef as [Em Ef]. apply negb_true_iff in Em, Ef. apply (left_out _ _ _ _ _ NoRoom); auto 10. }
  set (s1 := if mustKeep && negb (fits budget s need) then _ else s).
  assert (se_selected s1 = se_selected s ∧ se_omitted s1 = se_omitted s ∧ se_used s1 = se_used s) as (E1 & E2 & E3)
    by (subst s1; destruct (mustKeep && negb (fits budget s need)); repeat split; reflexivity).
  destruct (closureOf_spec items (decided s) i) as (seen & _ & [H1 H2 _ _ _ _]). fold closure in H1, H2.
  destruct (take_closure_spec close closure (take_item i sc (own i) s1)) as (T1 & T2 & T3 & T4); [done| |].
  - intros d Hcl. destruct (H1 d Hcl) as (_ & _ & Hn & Hne & _). rewrite elem_decided in Hn |- *.
    unfold selected_ids, selected_items, omitted_ids in *.
    change (se_selected (take_item i sc (own i) s1)) with (se_selected s1 ++ [(i, sc, own i)])%list.
    change (se_omitted (take_item i sc (own i) s1)) with (se_omitted s1). rewrite E1, E2, !fmap_app, elem_of_app.
    cbn. rewrite list_elem_of_singleton. apply not_elem_of_cons in Hne as [Hne _]. tauto.
  - apply taken; try done.
    + rewrite T1. unfold selected_items. change (se_selected (take_item i sc (own i) s1)) with (se_selected s1 ++ [(i, sc, own i)])%list.
      rewrite E1, fmap_app. cbn. by rewrite <-app_assoc.
    + rewrite T2. exact E2.
    + rewrite T3. change (se_used (take_item i sc (own i) s1)) with (se_used s1 + c_tokens i)%Z. rewrite E3. done.
    + intros ->. cbn in Et, Ef. split; [done|]. by apply negb_false_iff in Ef.
    + intros Hf. change (fits budget s need = true) in Hf. rewrite T4. change (se_overBudget s1 = se_overBudget s). subst s1. by rewrite Hf, andb_false_r.
    + intros Hf. change (fits budget s need = false) in Hf. rewrite T4. change (se_overBudget s1 = true). subst s1. rewrite Hf.
      rewrite Hf in Ef. destruct mustKeep; [done|]. done.
Qed.

Record selection_inv (s : selection) : Prop := {
  si_nodup : NoDup (decided s);
  si_selected : ∀ i, i ∈ selected_items s → i ∈ items ∧ kept i = true;
  si_omitted : ∀ id, id ∈ omitted_ids s → id ∈ (c_id <$> items);
  si_used : se_used s = sum_of (selected_items s);
  si_budget : se_overBudget s = false → ∀ b, budget = Some b → (se_used s ≤ b)%Z;
}.

Lemma closure_ids dec i d : d ∈ closureOf items dec i → d ∈ items ∧ kept d = true ∧ c_id d ∉ dec ∧ c_id d ≠ c_id i.
Proof.
  destruct (closureOf_spec items dec i) as (seen & _ & [H1 _ _ _ _ _]). intros Hd.
  destruct (H1 d Hd) as (Hb & Hk & Hn & Hne & _). apply by_id_some in Hb as [? _]. set_solver.
Qed.

Lemma closure_nodup dec i : NoDup (c_id <$> closureOf items dec i).
Proof. by destruct (closureOf_spec items dec i) as (seen & _ & []). Qed.

Lemma stepped_inv mustKeep i sc s s' : i ∈ items → selection_inv s → stepped mustKeep i sc s s' →
  selection_inv s' ∧ c_id i ∈ decided s' ∧ (∀ j, j ∈ selected_items s → j ∈ selected_items s') ∧
  (∀ id, id ∈ decided s → id ∈ decided s').
Proof.
  intros Hi [H1 H2 H3 H4 H5] [Hd ->|why Hd -> _|Hd Hk E1 E2 E3 _ Ef En].
  - split_and!; done.
  - assert (decided (omit i sc why s) = decided s ++ [c_id i])%list as Ed.
    { unfold decided, omitted_ids. change (se_omitted (omit i sc why s)) with (se_omitted s ++ [(c_id i, why, sc)])%list.
      rewrite fmap_app, app_assoc. done. }
    rewrite Ed. split_and!; [|set_solver|done|set_solver]. split; [|done| |done|done].
    + rewrite Ed. apply NoDup_app. split; [done|]. split; [|apply NoDup_singleton]. set_solver.
    + unfold omitted_ids. change (se_omitted (omit i sc why s)) with (se_omitted s ++ [(c_id i, why, sc)])%list.
      intros id. rewrite fmap_app, elem_of_app. cbn. rewrite list_elem_of_singleton. intros [?| ->]; [by apply H3|].
      apply list_elem_of_fmap. eauto.
  - set (closure := closureOf items (decided s) i) in *.
    assert (decided s' ≡ₚ c_id i :: (c_id <$> closure) ++ decided s) as Ep.
    { unfold decided, selected_ids, omitted_ids. rewrite E1, E2, fmap_app. cbn. solve_Permutation. }
    split_and!; [| |rewrite E1; set_solver|intros id; rewrite Ep; set_solver].
    + split.
      * rewrite Ep. apply NoDup_cons. split.
        -- rewrite elem_of_app, list_elem_of_fmap. intros [(d & Hid & Hcl)|?]; [|done].
           apply closure_ids in Hcl as (_ & _ & _ & Hne). done.
        -- apply NoDup_app. split; [apply closure_nodup|]. split; [|done].
           intros id (d & -> & Hcl)%list_elem_of_fmap. by apply closure_ids in Hcl as (_ & _ & ? & _).
      * intros j. rewrite E1, elem_of_app, elem_of_cons. intros [?|[->|Hcl]]; [by apply H2|done|].
        by apply closure_ids in Hcl as (? & ? & _).
      * unfold omitted_ids. by rewrite E2.
      * rewrite E3, E1, sum_of_app, H4. change (sum_of (i :: closure)) with (c_tokens i + sum_of closure)%Z. lia.
      * intros Eo b Hb. destruct (fits budget s (c_tokens i + sum_of closure)) eqn:Ew; [|by rewrite En in Eo].
        unfold fits in Ew. rewrite Hb in Ew. apply Z.leb_le in Ew. lia.
    + rewrite Ep. by left.
Qed.

(** After the items that must be kept: what is selected has its dependencies. *)
Record must_inv (s : selection) : Prop := {
  mi_inv : selection_inv s;
  mi_closed : ∀ i d y, i ∈ selected_items s → d ∈ deps i → by_id items d = Some y → kept y = true → d ∈ selected_ids s;
  mi_omitted : ∀ id y, id ∈ omitted_ids s → by_id items id = Some y → kept y = false;
}.

Lemma must_stepped i sc s s' : i ∈ items → must_inv s → stepped true i sc s s' → must_inv s'.
Proof.
  intros Hi [Hinv Hc Ho] Hs. pose proof (stepped_inv _ _ _ _ _ Hi Hinv Hs) as (Hinv' & _ & _ & _). split; [done|..].
  all: destruct Hs as [Hd ->|why Hd -> Hw|Hd Hk E1 E2 _ _ _ _]; [done|..].
  - exact Hc.
  - intros j d y Hj Hdj Hy Hky. unfold selected_ids. rewrite E1, fmap_app, elem_of_app. cbn [fmap list_fmap].
    destruct (closureOf_spec items (decided s) i) as (seen & _ & [_ _ _ S4 S5 S6]).
    assert (∀ d, d ∈ seen ∨ d ∈ [] → by_id items d = Some y → d ∈ selected_ids s ∨ d ∈ c_id i :: (c_id <$> closureOf items (decided s) i)) as Hset.
    { intros d' [Hs|Hn] Hy'; [|by apply not_elem_of_nil in Hn]. destruct (S4 d' Hs) as [Hself|Hset].
      - apply list_elem_of_singleton in Hself as ->. right. left.
      - destruct (Hset y Hy' Hky) as [[?|Hom]%elem_decided|?]; [by left| |right; by right].
        rewrite (Ho d' y Hom Hy') in Hky. done. }
    rewrite E1, elem_of_app, elem_of_cons in Hj. destruct Hj as [Hj|[->|Hj]].
    + left. exact (Hc j d y Hj Hdj Hy Hky).
    + by apply Hset; [apply S6|].
    + by apply Hset; [apply (S5 j)|].
  - destruct Hw as [[Hk _]|(_ & ? & _)]; [|done].
    intros id y. unfold omitted_ids. change (se_omitted (omit i sc why s)) with (se_omitted s ++ [(c_id i, why, sc)])%list.
    rewrite fmap_app, elem_of_app. cbn. rewrite list_elem_of_singleton. intros [Hid| ->] Hy; [by apply (Ho id)|].
    rewrite by_id_in in Hy by done. congruence.
  - unfold omitted_ids. by rewrite E2.
Qed.

Lemma run_must_inv l : ∀ s, Forall (λ e, e.1 ∈ items) l → must_inv s →
  let s' := run_must items budget threshold score_of l s in
  must_inv s' ∧ (∀ i, i ∈ selected_items s → i ∈ selected_items s') ∧ (∀ id, id ∈ decided s → id ∈ decided s') ∧
  (∀ e, e ∈ l → c_id e.1 ∈ decided s').
Proof.
  cbv zeta. induction l as [|[i sc] l IH]; intros s Hl Hs.
  - split_and!; [done..|]. by intros ? ?%not_elem_of_nil.
  - apply Forall_cons in Hl as [Hi Hl]. cbn [run_must foldl].
    pose proof (trySelect_spec true (λ _, Own MUST_KEEP) (λ _, Closure MUST_KEEP) i sc s) as Hst.
    destruct (stepped_inv _ _ _ _ _ Hi (mi_inv _ Hs) Hst) as (_ & Hd & Hsel & Hdec).
    destruct (IH _ Hl (must_stepped _ _ _ _ Hi Hs Hst)) as (H1 & H2 & H3 & H4). split_and!; [done|naive_solver|naive_solver|].
    intros e [->|He]%elem_of_cons; [by apply H3|by apply H4].
Qed.

Lemma run_rest_inv l : ∀ s, Forall (λ e, e.1 ∈ items) l → selection_inv s →
  let s' := run_rest items budget threshold score_of l s in
  selection_inv s' ∧ (∀ i, i ∈ selected_items s → i ∈ selected_items s') ∧ (∀ id, id ∈ decided s → id ∈ decided s') ∧
  (∀ e, e ∈ l → c_id e.1 ∈ decided s').
Proof.
  cbv zeta. induction l as [|[i sc] l IH]; intros s Hl Hs.
  - split_and!; [done..|]. by intros ? ?%not_elem_of_nil.
  - apply Forall_cons in Hl as [Hi Hl]. cbn [run_rest foldl].
    pose proof (trySelect_spec false (λ i, Own (categorizeContextItem i)) (λ i, Closure (categorizeContextItem i)) i sc s) as Hst.
    destruct (stepped_inv _ _ _ _ _ Hi Hs Hst) as (Hs' & Hd & Hsel & Hdec).
    destruct (IH _ Hl Hs') as (H1 & H2 & H3 & H4). split_and!; [done|naive_solver|naive_solver|].
    intros e [->|He]%elem_of_cons; [by apply H3|by apply H4].
Qed.

(** A step from an item to one it depends on that is to be kept. *)
Definition needs (i j : citem) : Prop := ∃ d, d ∈ deps i ∧ by_id items d = Some j ∧ kept j = true.

Lemma must_closed s i j : must_inv s → i ∈ selected_items s → rtc needs i j → j ∈ selected_items s.
Proof.
  intros [Hinv Hc _] Hi Hr. induction Hr as [|i k j (d & Hd & Hy & Hk) Hr IH]; [done|]. apply IH.
  destruct (proj1 (list_elem_of_fmap _ _ _) (Hc i d k Hi Hd Hy Hk)) as (z & -> & Hz).
  destruct (si_selected _ Hinv z Hz) as [Hzi _]. rewrite (by_id_in items z Hnd Hzi) in Hy. by injection Hy as <-.
Qed.
End Steps.

(** What the two passes leave: every item decided, and, after the first, those that
    must be kept decided and closed under their dependencies. *)
Lemma selectContext_inv x tokenBudget th items : NoDup (c_id <$> items) →
  let s := selectContext x tokenBudget th items in
  selection_inv items (budget_of tokenBudget) s ∧ (∀ i, i ∈ items → c_id i ∈ decided s) ∧
  ∃ s1, must_inv items (budget_of tokenBudget) s1 ∧ (∀ i, i ∈ selected_items s1 → i ∈ selected_items s) ∧
    ∀ i, i ∈ items → must_keep i = true → c_id i ∈ decided s1.
Proof.
  intros Hnd s. set (budget := budget_of tokenBudget) in *.
  set (hits := c_id <$> items). set (scored := js_sort score_before ((λ i, (i, scoreContextItem x hits i)) <$> items)).
  assert (∀ e, e ∈ scored → e.1 ∈ items) as Hsc.
  { intros e. subst scored. rewrite elem_of_js_sort. by intros (i & -> & Hi)%list_elem_of_fmap. }
  assert (∀ i, i ∈ items → ∃ sc, (i, sc) ∈ scored) as Hall.
  { intros i Hi. exists (scoreContextItem x hits i). subst scored. rewrite elem_of_js_sort. apply list_elem_of_fmap. eauto. }
  assert (∀ f e, e ∈ List.filter f scored ↔ e ∈ scored ∧ f e = true) as Hf by (intros; by rewrite !list_elem_of_In, List.filter_In).
  assert (must_inv items budget empty_selection) as H0.
  { split; [split|..]; cbn; try by intros ? ?%not_elem_of_nil. - constructor. - done.
    - intros _ b Hb. subst budget. unfold budget_of in Hb. destruct tokenBudget as [n|]; [|done]. cbn in Hb.
      destruct (0 <? n)%Z eqn:E; [|done]. injection Hb as <-. lia.
    - by intros ? ? ? ?%not_elem_of_nil. - by intros ? ? ?%not_elem_of_nil. }
  subst s. unfold selectContext. fold budget hits scored. cbv zeta.
  set (score_of := λ d, default _ _). set (threshold := if isFinite th then th else nzero).
  destruct (run_must_inv items budget threshold score_of Hnd (List.filter (λ e, must_keep e.1) scored) empty_selection)
    as (M1 & _ & _ & M4); [|done|].
  { apply Forall_forall. intros e [He _]%Hf. by apply Hsc. }
  set (s1 := run_must _ _ _ _ _ _) in *.
  destruct (run_rest_inv items budget threshold score_of Hnd (js_sort rank_before (List.filter (λ e, negb (must_keep e.1)) scored)) s1)
    as (R1 & R6 & R7 & R8); [|by apply mi_inv|].
  { apply Forall_forall. intros e. rewrite elem_of_js_sort. intros [He _]%Hf. by apply Hsc. }
  split; [exact R1|]. split.
  - intros i Hi. destruct (Hall i Hi) as [sc He]. destruct (must_keep i) eqn:Em.
    + apply R7, (M4 (i, sc)), Hf. by split.
    + apply (R8 (i, sc)). rewrite elem_of_js_sort. apply Hf. split; [done|]. cbn. by rewrite Em.
  - exists s1. split; [exact M1|]. split; [exact R6|].
    intros i Hi Hm. destruct (Hall i Hi) as [sc He]. apply (M4 (i, sc)), Hf. by split.
Qed.

(** What an item is by its category, source, kind or title: the user's task, a
    constraint, a success criterion or a system instruction. *)
Definition essential (i : citem) : Prop :=
  let x := c_extra i in
  let kind := to_lower (ContextState.i_kind (c_base i)) in
  let source := to_lower (ContextState.i_source (c_base i)) in
  to_lower (or_str (default "" (m_category x)) (default "" (m_kind x))) ∈
    ["user_task"; "constraint"; "constraints"; "success_criteria"; "criteria"; "criterion"; "system"] ∨
  source ∈ ["user"; "system"] ∨
  kind ∈ ["constraint"; "constraints"; "criterion"; "criteria"; "success_criteria"; "success-criteria"; "system"] ∨
  (kind = "chat" ∧ test (parse_i "user task") (ContextState.i_title (c_base i)) = true).

(** The category the item names, if it names one of the four. *)
Definition named_category (i : citem) : option ccategory :=
  parse_category (to_upper (or_str (default "" (m_contextCategory (c_extra i))) (default "" (x_contextCategory (c_extra i))))).

(** The items that must be selected: those that say so, and the essential ones
    that name no category and carry none of the flags that protect an item from
    compression. *)
Definition mandatory (i : citem) : Prop :=
  named_category i = Some MUST_KEEP ∨
  (named_category i = None ∧ essential i ∧
   m_protected (c_extra i) = false ∧ m_neverCompress (c_extra i) = false ∧ x_protected (c_extra i) = false).

Lemma kept_status i : kept i = true ↔ c_status i = "" ∨ c_status i = "KEEP".
Proof.
  unfold kept. rewrite orb_true_iff, negb_true_iff, bool_decide_eq_true. destruct (c_status i); naive_solver.
Qed.

Lemma essential_protected i : essential i → protected_by_kind i = true.
Proof.
  unfold essential, protected_by_kind. cbv zeta. rewrite !orb_true_iff, andb_true_iff, !bool_decide_eq_true.
  unfold PROTECTED_CATEGORIES, PROTECTED_KINDS.
  intros [H|[H|[H|[Hk Ht]]]]; [by do 4 left| |by left; right|by left; left; right].
  apply elem_of_cons in H as [H|[H|[]%not_elem_of_nil]%elem_of_cons]; [by do 3 left; right|by right].
Qed.

Lemma mandatory_must_keep i : mandatory i → must_keep i = true.
Proof.
  unfold must_keep, categorizeContextItem, isProtectedCategoryItem. rewrite bool_decide_eq_true.
  intros [E|(E & Hess & Ep & En & Ex)]; unfold named_category in E; cbv zeta; rewrite E; [done|].
  by rewrite Ep, En, Ex, (essential_protected i Hess).
Qed.

(** C30: The selection is sound. Every item is either selected or left out, once;
    only items whose status is empty or KEEP are selected; the tokens reported are
    those of the selected items, and they are within the budget unless the selection
    says it is over it. An item of such a status is selected, with everything it
    depends on, directly or not, that has such a status, when it names the category
    MUST_KEEP, or when it is the user's task, a constraint, a success criterion or a
    system instruction by its category, source, kind or title, names no category and
    is not flagged protected or neverCompress; a flagged one may be left out
    ([protected_task_left_out]). Items have distinct ids; a budget of zero or less is
    none. *)
Theorem selection_sound x tokenBudget th items : NoDup (c_id <$> items) →
  let s := selectContext x tokenBudget th items in
  selected_ids s ++ omitted_ids s ≡ₚ c_id <$> items ∧
  (∀ i, i ∈ selected_items s → i ∈ items ∧ (c_status i = "" ∨ c_status i = "KEEP")) ∧
  se_used s = sum_of (selected_items s) ∧
  (se_overBudget s = false → ∀ b, budget_of tokenBudget = Some b → (se_used s ≤ b)%Z) ∧
  (∀ i j, i ∈ items → c_status i = "" ∨ c_status i = "KEEP" → mandatory i →
     rtc (needs items) i j → j ∈ selected_items s).
Proof.
  intros Hnd s. destruct (selectContext_inv x tokenBudget th items Hnd) as ([R1 R2 R3 R4 R5] & Hall & s1 & M1 & R6 & M4).
  fold s in R1, R2, R3, R4, R5, R6, Hall. split_and!; [|by intros i [? ?%kept_status]%R2|exact R4|exact R5|].
  - apply NoDup_Permutation; [exact R1|done|]. intros id. change (id ∈ decided s ↔ id ∈ (c_id <$> items)). split.
    + rewrite elem_decided. intros [(i & -> & Hi)%list_elem_of_fmap|?]; [|by apply R3].
      apply list_elem_of_fmap. exists i. split; [done|]. by apply R2.
    + intros (i & -> & Hi)%list_elem_of_fmap. by apply Hall.
  - intros i j Hi Hk%kept_status Hm%mandatory_must_keep Hr. apply R6. eapply must_closed; [done|exact M1| |exact Hr].
    pose proof (M4 i Hi Hm) as Hd. apply elem_decided in Hd as [(z & Hid & Hz)%list_elem_of_fmap|Hom].
    + destruct (si_selected _ _ _ (mi_inv _ _ _ M1) z Hz) as [Hzi _].
      pose proof (by_id_in items i Hnd Hi) as E1. pose proof (by_id_in items z Hnd Hzi) as E2. congruence.
    + pose proof (mi_omitted _ _ _ M1 _ i Hom (by_id_in items i Hnd Hi)). congruence.
Qed.
End Select.

(** ** Examples *)

Definition demo_item (id kind source : string) (tokens : Z) (relevance : num) (x : extra) : citem :=
  Citem (ContextState.Item id kind id source tokens relevance "KEEP") x.
Definition needing (l : list string) : extra := no_extra <| x_dependencies := Some l |>.
Definition demo_scoring : scoring := Scoring DEFAULT_WEIGHTS "fix the login test" "" debug [] 1000000.
Definition task_item : citem := demo_item "task" "chat" "user" 40 (of_Z 1) (needing ["spec"]).
Definition spec_item : citem := demo_item "spec" "file" "repo" 30 (ratio 1 10) no_extra.
Definition log_item : citem := demo_item "log" "logs" "ci" 300 (ratio 9 10) no_extra.
Definition note_item : citem := demo_item "note" "memory" "memory" 10 (ratio 8 10) (needing ["log"]).

Lemma selection_sound_witness :
  let s := selectContext String.ltb demo_scoring (Some 100%Z) (ratio 3 10) [log_item; spec_item; task_item] in
  spec_item ∈ selected_items s ∧ (se_overBudget s = false → ∀ b, budget_of (Some 100%Z) = Some b → (se_used s ≤ b)%Z) ∧
  se_overBudget s = false ∧ omitted_ids s = ["log"].
Proof.
  intros s.
  destruct (selection_sound String.ltb demo_scoring (Some 100%Z) (ratio 3 10) [log_item; spec_item; task_item])
    as (_ & _ & _ & H1 & H2).
  { apply (bool_decide_eq_true_1 _). vm_compute. reflexivity. }
  split; [|split; [exact H1|split; vm_compute; reflexivity]].
  apply (H2 task_item spec_item); [right; right; left|by right| |].
  { right. split; [reflexivity|]. split; [|done]. right; left. left. }
  apply rtc_once. exists "spec". split; [left|]. split; vm_compute; reflexivity.
Defined.

(** Outside the items that must be kept, an item can be selected without its
    dependency: one that was left out before is not looked at again. *)
Example dependency_detached :
  let s := selectContext String.ltb demo_scoring (Some 100%Z) (ratio 3 10) [note_item; log_item] in
  selected_ids s = ["note"] ∧ deps note_item = ["log"] ∧ omitted_ids s = ["log"] ∧ kept log_item = true.
Proof. vm_compute. repeat split. Qed.

(** The flag that protects an item from compression takes the user's task out of
    the items that must be kept: it can be left out. *)
Example protected_task_left_out :
  let task := demo_item "task" "chat" "user" 120 (of_Z 1) (no_extra <| m_protected := true |>) in
  omitted_ids (selectContext String.ltb demo_scoring (Some 100%Z) (ratio 3 10) [task; note_item]) = ["task"].
Proof. vm_compute. reflexivity. Qed.
