(* ===== verification/ContextCompression.v ===== *)
(** Compression of the content of a context item (backend/src/intelligence/
    context-engine.js): the spans that are kept word for word, and the sentences
    that fill the room that is left. *)

From S2P Require Import Prelude JsMap JsValue Number Sorting Text Regex SemanticCache.

Local Open Scope string_scope.

(** Four characters a token. *)
(* [src/backend/src/intelligence/context-engine.js:311-313] estimateTokensFor *)
Definition estimateTokensFor (content : string) : nat := ((String.length content + 3) / 4)%nat.

(** ** What is preserved *)

(** The source of each pattern, and whether it has the flag [i]; all have [g]. *)
(* [src/backend/src/intelligence/context-engine.js:351-359] PRESERVE_PATTERNS *)
Definition PRESERVE_PATTERNS : list (string * bool) :=
  [("[A-Za-z0-9_./-]+\.(ts|tsx|js|jsx|json|md|py|go|rs|java|rb|php|css|html)(:\d+)?", false);
   ("\bline \d+\b", true);
   ("\b(function|class|const|let|var|def|fn) [A-Za-z_$][\w$]*", false);
   ("\b\d+\.\d+\.\d+\b", false);
   ("\b\d+ (passed|failed|errors?|warnings?)\b", true);
   ("error[:\s][^\n]{0,200}", true);
   ("do not [^\n.]{0,200}|never [^\n.]{0,200}|must not [^\n.]{0,200}|required[^\n.]{0,200}", true)].
Definition compiled (p : string * bool) : re := if p.2 then parse_i p.1 else parse p.1.

Lemma patterns_well_formed : forallb (λ p, well_formed p.1) PRESERVE_PATTERNS = true.
Proof. vm_compute. reflexivity. Qed.

(** The matches from position [i] on, at most [room] of them: [re.exec] in a loop.
    A match of nothing moves the position by one. *)
Fixpoint matches (text : string) (r : re) (n room i : nat) : list string :=
  match n, room with
  | S n, S room =>
      match search text r (String.length text - i) i with
      | Some (a, (b, _)) => slice text a b :: matches text r n room (if (b <=? a)%nat then S b else b)
      | None => []
      end
  | _, _ => []
  end.

(** [[...new Set(l)]]: the first of equal elements stays. *)
Definition distinct (l : list string) : list string :=
  foldl (λ acc s, if bool_decide (s ∈ acc) then acc else (acc ++ [s])%list) [] l.

(** Forty spans, over all patterns. *)
Definition collect (text : string) (l : list (string * bool)) : list string :=
  foldl (λ kept p,
    (kept ++ (trim <$> matches text (compiled p) (S (String.length text)) (40 - length kept) 0))%list) [] l.

(* [src/backend/src/intelligence/context-engine.js:361-373] extractPreserved *)
Definition extractPreserved (text : string) : list string := take 40 (distinct (collect text PRESERVE_PATTERNS)).

(** ** Sentences *)

(** The pieces between the blanks that follow a full stop, a mark of exclamation
    or of question; [cur] is the reverse of the piece read so far. *)
Fixpoint split_sentences (skip prev : bool) (cur s : string) : list string :=
  match s with
  | EmptyString => [rev_string "" cur]
  | String c s' =>
      if is_space c && skip then split_sentences true false cur s'
      else if is_space c && prev then rev_string "" cur :: split_sentences true false "" s'
      else split_sentences false (one_of ".!?" c) (String c cur) s'
  end.

(* [src/backend/src/intelligence/context-engine.js:375-377] sentencesOf *)
Definition sentencesOf (text : string) : list string :=
  List.filter truthy_str (trim <$> split_sentences false false "" text).

(** ** Compression *)

Inductive strategy := structured | truncate.
Inductive method := method_none | method_truncate | method_summary.

(** A result; what was preserved is a number of spans when nothing is done, and
    their list otherwise. *)
Record compressed := Compressed {
  cr_content : string;
  cr_originalTokens : nat;
  cr_tokens : nat;
  cr_ratio : num;
  cr_method : method;
  cr_confidence : num;
  cr_informationLossRisk : num;
  cr_preserved : nat + list string;
}.

Definition line (s : string) : string := s ++ String newline "".
Definition header_of (preserved : list string) : string :=
  match preserved with
  | [] => ""
  | _ => line "Key facts preserved verbatim:" ++ line (js_join (String newline "") ((λ p, "- " ++ p) <$> preserved)) ++ line ""
  end.

(** Greater overlap first, then the shorter sentence. *)
Definition closer (query : string) (a b : string) : bool :=
  let overlap s := if truthy_str query then lexicalOverlap query s else nzero in
  let d := nsub (overlap b) (overlap a) in
  if truthy_num d then nlt d nzero else (String.length a <? String.length b)%nat.

(** The sentences that fit, in the order given, with the room they leave. *)
Definition pick_sentences (budget : nat) (l : list string) : list string * nat :=
  foldl (λ '(picked, used) s,
    let t := estimateTokensFor s in
    if (budget <? used + t)%nat then (picked, used) else ((picked ++ [s])%list, (used + t)%nat)) ([], 0%nat) l.

Definition index_in (l : list string) (s : string) : nat :=
  match list_find (λ x, x = s) l with Some (n, _) => n | None => length l end.

(** The sentences chosen, back in the order of the text. *)
(* [src/backend/src/intelligence/context-engine.js:405-419] picked *)
Definition summary_body (query text : string) (budget : nat) : string :=
  let sentences := sentencesOf text in
  let picked := (pick_sentences budget (js_sort (closer query) sentences)).1 in
  let body := js_join " " (js_sort (λ a b, (index_in sentences a <? index_in sentences b)%nat) picked) in
  if truthy_str body then body else slice0 (max 64 (budget * 4)) text.

Definition target_of (targetTokens : nat) (originalTokens : nat) : nat :=
  max 16 (match targetTokens with O => Z.to_nat (to_Z_floor (nmul (of_Z (Z.of_nat originalTokens)) (ratio 4 10))) | S _ => targetTokens end).

(* [src/backend/src/intelligence/context-engine.js:382-435] compressContent *)
Definition compressContent (targetTokens : nat) (query : string) (st : strategy) (text : string) : compressed :=
  let original := estimateTokensFor text in
  let target := target_of targetTokens original in
  if (original <=? target)%nat then
    Compressed text original original (of_Z 1) method_none (of_Z 1) nzero (inl (length (extractPreserved text)))
  else
    let preserved := extractPreserved text in
    let header := header_of preserved in
    let budget := max 32 (target - estimateTokensFor header) in
    let body := match st with truncate => slice0 (max 64 (budget * 4)) text | structured => summary_body query text budget end in
    let content := slice0 (max 128 (target * 4 + 512)) (header ++ (match st with structured => line "Summary:" | truncate => "" end) ++ body) in
    let tokens := estimateTokensFor content in
    let r := if (0 <? original)%nat then round3 (ndiv (of_Z (Z.of_nat tokens)) (of_Z (Z.of_nat original))) else of_Z 1 in
    Compressed content original tokens r
      (match st with truncate => method_truncate | structured => method_summary end)
      (match preserved with [] => ratio 6 10 | _ => ratio 8 10 end)
      (if nlt (ratio 8 10) r then ratio 2 10 else if nlt (ratio 5 10) r then ratio 4 10 else ratio 6 10)
      (inr preserved).

(** ** Properties *)

Lemma prefix_app_l p b : String.prefix p (p ++ b) = true.
Proof. induction p as [|c p IH]; simpl; [by destruct b|]. by destruct (ascii_dec c c). Qed.

Lemma contains_unfold p s : contains p s =
  String.prefix p s || match s with EmptyString => false | String _ s' => contains p s' end.
Proof. by destruct s. Qed.

Lemma contains_app p a b : contains p (a ++ p ++ b) = true.
Proof.
  induction a as [|c a IH]; simpl; [|rewrite IH; apply orb_true_r].
  change ("" ++ p ++ b) with (p ++ b). rewrite contains_unfold, prefix_app_l. done.
Qed.

Lemma slice0_app n h r : (String.length h ≤ n)%nat → slice0 n (h ++ r) = h ++ slice0 (n - String.length h) r.
Proof.
  unfold slice0. revert n. induction h as [|c h IH]; intros n Hn; simpl in *; [by rewrite Nat.sub_0_r|].
  destruct n as [|n]; [lia|]. simpl. by rewrite IH by lia.
Qed.

Lemma js_join_infix sep l p : p ∈ l → ∃ a b, js_join sep l = a ++ p ++ b.
Proof.
  induction l as [|x l IH]; [by intros ?%not_elem_of_nil|]. intros [->|Hp]%elem_of_cons.
  - destruct l as [|y l]; [exists "", ""; simpl; by rewrite string_app_nil_r|]. by exists "", (sep ++ js_join sep (y :: l)).
  - destruct (IH Hp) as (a & b & E). destruct l as [|y l]; [by apply not_elem_of_nil in Hp|].
    exists (x ++ sep ++ a), b. change (js_join sep (x :: y :: l)) with (x ++ sep ++ js_join sep (y :: l)).
    rewrite E, !string_app_assoc. done.
Qed.

Lemma header_contains p l : p ∈ l → ∃ a b, header_of l = a ++ p ++ b.
Proof.
  intros Hp. destruct l as [|x l]; [by apply not_elem_of_nil in Hp|]. unfold header_of.
  destruct (js_join_infix (String newline "") ((λ p, "- " ++ p) <$> x :: l) ("- " ++ p)) as (a & b & ->).
  { apply list_elem_of_fmap. eauto. }
  exists (line "Key facts preserved verbatim:" ++ a ++ "- "), (b ++ String newline "" ++ line "").
  unfold line at 2. rewrite !string_app_assoc. done.
Qed.

Lemma estimate_bound s n : (String.length s ≤ 4 * n)%nat → (estimateTokensFor s ≤ n)%nat.
Proof. intros H. unfold estimateTokensFor. apply Nat.lt_succ_r, Nat.Div0.div_lt_upper_bound. lia. Qed.

(** Compression is bounded and keeps the facts. The tokens reported are those
    of the content returned; a content within its target is returned as it is, and
    any other comes back within 128 tokens of the target. The spans recognised as
    facts - paths, line numbers, identifiers, versions, test counts, errors,
    constraints - are in the content word for word, whenever their list fits. The
    content can be larger than the original, the code notwithstanding. *)
Theorem compression_bounded targetTokens query st text :
  let r := compressContent targetTokens query st text in
  let target := target_of targetTokens (estimateTokensFor text) in
  cr_tokens r = estimateTokensFor (cr_content r) ∧
  (cr_method r = method_none ↔ (estimateTokensFor text ≤ target)%nat) ∧
  (cr_method r = method_none → cr_content r = text) ∧
  (cr_tokens r ≤ target + 128)%nat ∧
  (cr_method r ≠ method_none → (String.length (header_of (extractPreserved text)) ≤ target * 4 + 512)%nat →
     ∀ p, p ∈ extractPreserved text → contains p (cr_content r) = true).
Proof.
  cbv zeta. unfold compressContent. destruct (_ <=? _)%nat eqn:E.
  - apply Nat.leb_le in E. cbn [cr_tokens cr_content cr_method]. split_and!; [done|done|done|lia|done].
  - apply Nat.leb_gt in E. set (target := target_of _ _) in *. assert (16 ≤ target)%nat as Ht by (unfold target, target_of; lia).
    cbn [cr_tokens cr_content cr_method]. assert (max 128 (target * 4 + 512) = target * 4 + 512)%nat as -> by lia.
    split_and!; [done|split; [by destruct st|lia]|by destruct st| |].
    + apply estimate_bound. etransitivity; [apply slice0_length|]. lia.
    + intros _ Hh p Hp. rewrite slice0_app by done. destruct (header_contains _ _ Hp) as (a & b & ->).
      rewrite !string_app_assoc. apply contains_app.
Qed.

(** The facts are listed above the sentences that contain them. *)
Definition paths_text : string := "src/a.js src/b.js src/c.js src/d.js src/e.js src/f.js src/g.js src/h.js".
Example compression_grows :
  let r := compressContent 16 "" structured paths_text in (cr_originalTokens r, cr_tokens r) = (18, 50)%nat.
Proof. vm_compute. reflexivity. Qed.
