(* ===== verification/ContextManager.v ===== *)
(** The context manager (backend/src/impl/context-manager.js): adding, removing
    and compressing the items of a run's context, and the prompt compiled from the
    items selected; with the prompt plan and the fingerprint of
    backend/src/intelligence/context-engine.js.

    The state of a run's context is its [ContextState] with the optional fields of
    each item in a list of the same length. Generated ids, the clock, SHA-256 and
    [localeCompare] are arguments. *)

From S2P Require Import Prelude JsMap JsValue Number Sorting Text Regex Types RuntimeState TaskClassifier ContextEngine ContextCompression.

Local Open Scope string_scope.
Local Open Scope js_scope.

(** ** The state *)

Record cstate := CState { cs_core : ContextState.t; cs_extras : list extra }.
#[export] Instance cstate_eta : Eta cstate := λ s, CState (cs_core s) (cs_extras s).

Definition items_of (s : cstate) : list citem := zip_with Citem (ContextState.contextItems (cs_core s)) (cs_extras s).
Definition in_step (s : cstate) : Prop := length (cs_extras s) = length (ContextState.contextItems (cs_core s)).
Definition new_context (maxTokens : option Z) : cstate := CState (ContextState.create maxTokens) [].

(** Events of the context, with the id of the item they name. *)
Definition cevent := (EventType.t * option string)%type.

(* [src/backend/src/impl/context-manager.js:13-26] InMemoryContextManager *)
Record cmanager := CManager { cm_compressionRatio : num; cm_relevanceThreshold : num }.
Definition default_cmanager : cmanager := CManager (ratio 3 10) (ratio 3 10).

(** ** Adding and removing *)

(** An item to add: a [ContextItem], or a plain object, whose relevance and status
    may be missing. *)
Record raw_item := RawItem {
  ri_id : option string;
  ri_kind : string;
  ri_title : string;
  ri_source : string;
  ri_tokens : Z;
  ri_relevance : option num;
  ri_status : option string;
  ri_extra : extra;
}.
Inductive new_item := Made (i : citem) | Plain (r : raw_item).

Definition pick_finite (o : option num) : option num := n ← o; if isFinite n then Some n else None.

(** Of a plain object, the content is cut, at most twenty dependencies are kept,
    the importance is that given or the relevance; its own flags [protected] and
    [contextCategory] are not copied. *)
(* [src/backend/src/impl/context-manager.js:68-92] addContext *)
Definition make_item (now : Z) (freshId : string) (n : new_item) : citem :=
  match n with
  | Made i =>
      Citem (c_base i)
        ((c_extra i) <| x_createdAt := Some (default now (x_createdAt (c_extra i))) |>
                   <| x_dependencies := Some (default [] (x_dependencies (c_extra i))) |>)
  | Plain r =>
      let x := ri_extra r in
      let base := ContextState.Item (or_str (default "" (ri_id r)) freshId) (ri_kind r) (ri_title r) (ri_source r) (ri_tokens r)
        (default (ratio 5 10) (ri_relevance r)) (default "KEEP" (ri_status r)) in
      let importance :=
        match pick_finite (x_importance x) with
        | Some n => Some (unit_clamp n)
        | None => unit_clamp <$> pick_finite (ri_relevance r)
        end in
      let dependencies := match x_dependencies x with Some l => Some (take 20 l) | None => take 20 <$> m_dependsOn x end in
      Citem base (x <| x_content := slice0 (Z.to_nat 8000) <$> x_content x |> <| x_importance := importance |>
        <| x_dependencies := dependencies |> <| x_createdAt := Some (default now (x_createdAt x)) |>
        <| x_protected := false |> <| x_contextCategory := None |>)
  end.

Definition push_item (i : citem) (s : cstate) : cstate :=
  CState (ContextState.addItem (c_base i) (cs_core s)) (cs_extras s ++ [c_extra i])%list.

Definition limit_warning (s : cstate) : list cevent :=
  if ContextState.isNearLimit (ratio 8 10) (cs_core s) then [(EventType.CONTEXT_LIMIT_WARNING, None)] else [].

(* [src/backend/src/impl/context-manager.js:64-116] addContext *)
Definition addContext (now : Z) (freshId : nat → string) (l : list new_item) (s : cstate) : list citem * list cevent * cstate :=
  let made := imap (λ k n, make_item now (freshId k) n) l in
  let s := foldl (λ s i, push_item i s) s made in
  (made, ((λ i, (EventType.CONTEXT_ADDED, Some (c_id i))) <$> made) ++ limit_warning s, s)%list.

(** [removeItem] of the state, which also drops the fields of the item. *)
Definition remove_one (id : string) (s : cstate) : option citem * cstate :=
  match ContextState.find_item id (ContextState.contextItems (cs_core s)) with
  | Some (k, _) => (items_of s !! k, CState (ContextState.removeItem id (cs_core s)).2 (delete k (cs_extras s)))
  | None => (None, s)
  end.

(* [src/backend/src/impl/context-manager.js:118-137] removeContext *)
Definition removeContext (l : list string) (s : cstate) : list citem * list cevent * cstate :=
  foldl (λ '(removed, events, s) id,
    match remove_one id s with
    | (Some i, s) => ((removed ++ [i])%list, (events ++ [(EventType.CONTEXT_REMOVED, Some (c_id i))])%list, s)
    | (None, s) => (removed, events, s)
    end) ([], [], s) l.

(** [_selectContextItems] answers no item. *)
(* [src/backend/src/impl/context-manager.js:33-55] buildContext *)
Definition buildContext (maxContextTokens : option Z) (s : cstate) : list cevent * cstate :=
  let budget := match maxContextTokens with Some n => if (n =? 0)%Z then ContextState.maximumTokens (cs_core s) else n
                | None => ContextState.maximumTokens (cs_core s) end in
  ([(EventType.CONTEXT_BUILT, None)], s <| cs_core ::= λ c, c <| ContextState.tokenBudget := budget |> |>).

(** ** Compression *)

(* [src/backend/src/impl/context-manager.js:441-459] isProtectedContextItem *)
Definition isProtectedContextItem (i : citem) : bool :=
  if x_protected (c_extra i) then true
  else if m_protected (c_extra i) || m_neverCompress (c_extra i) then true
  else protected_by_kind i.

(** What may be compressed, by the categories. *)
(* [src/backend/src/impl/context-manager.js:168-173] candidates *)
Definition compressible (i : citem) : bool :=
  bool_decide (c_status i = "KEEP") && negb (isProtectedContextItem i)
  && negb (bool_decide (categorizeContextItem i = NEVER_COMPRESS)).

(** Lowest scores first, then more tokens; an entry is an index and a score. *)
Definition worse (a b : nat * citem * num) : bool :=
  let d := nsub a.2 b.2 in
  if truthy_num d then nlt d nzero else (c_tokens b.1.2 <? c_tokens a.1.2)%Z.

(** The scoring for a task: its category is that of its text. *)
Definition task_scoring (now : Z) (taskText query : string) : scoring :=
  Scoring DEFAULT_WEIGHTS query taskText (p_category (classifyTask (or_str taskText "general task"))) [] now.

(* [src/backend/src/impl/context-manager.js:161-173] candidates *)
Definition compression_candidates (x : scoring) (s : cstate) : list nat :=
  let scored := imap (λ k i, (k, i, scoreContextItem x [] i)) (items_of s) in
  (λ e, e.1.1) <$> List.filter (λ e, compressible e.1.2)
    (js_sort worse (List.filter (λ e, bool_decide (c_status e.1.2 = "KEEP")) scored)).

(** The text that stands for an item. *)
Definition text_to_compress (i : citem) : string :=
  default (ContextState.i_title (c_base i) ++ " " ++ ContextState.i_source (c_base i)) (own_text i).

Definition scaled (r : num) (tokens : Z) : Z := to_Z_floor (nmul (of_Z tokens) r).

(** The new count of tokens and the compressed text; when the content is returned
    as it is and has facts, the code asks for a slice of their number, which
    throws, and the item's metadata is not written. *)
(* [src/backend/src/impl/context-manager.js:178-196] compressContent *)
Definition compress_item (m : cmanager) (query : string) (i : citem) : Z * option string :=
  let target := Z.to_nat (Z.max 16 (scaled (cm_compressionRatio m) (c_tokens i))) in
  let r := compressContent target query structured (text_to_compress i) in
  (Z.min (c_tokens i) (Z.of_nat (cr_tokens r)),
   match cr_preserved r with inl (S _) => None | _ => Some (slice0 (Z.to_nat 4000) (cr_content r)) end).

Record outcome := Outcome { o_reclaimed : Z; o_items : list (string * Z * Z); o_state : cstate }.

(** One candidate: an index into the items. *)
(* [src/backend/src/impl/context-manager.js:175-213] compressContext *)
Definition compress_step (m : cmanager) (query : string) (toReclaim : Z) (o : outcome) (k : nat) : outcome :=
  if (toReclaim <=? o_reclaimed o)%Z then o
  else
    match items_of (o_state o) !! k with
    | None => o
    | Some i =>
        let '(newTokens, compressed) := compress_item m query i in
        let s := match compressed with
          | Some t => (o_state o) <| cs_extras ::= alter (λ x, x <| m_compressedText := Some t |>) k |>
          | None => o_state o end in
        if (c_tokens i <=? newTokens)%Z then Outcome (o_reclaimed o) (o_items o) s
        else
          let '(reclaimed, core) := ContextState.compressItem (c_id i) newTokens (cs_core s) in
          let s := s <| cs_core := core |> in
          if (0 <? reclaimed)%Z
          then Outcome (o_reclaimed o + reclaimed) (o_items o ++ [(c_id i, reclaimed, newTokens)])%list s
          else Outcome (o_reclaimed o) (o_items o) s
    end.

(* [src/backend/src/impl/context-manager.js:139-216] compressContext *)
Definition compressContext (m : cmanager) (now : Z) (taskText : string) (targetTokens : Z) (s : cstate) : outcome :=
  let current := ContextState.currentTokens (cs_core s) in
  if (current <=? targetTokens)%Z then Outcome 0 [] s
  else foldl (compress_step m taskText (current - targetTokens)) (Outcome 0 [] s)
      (compression_candidates (task_scoring now taskText taskText) s).

(** ** Properties of compression *)

Lemma find_unique l k i : NoDup (ContextState.i_id <$> l) → l !! k = Some i →
  ContextState.find_item (ContextState.i_id i) l = Some (k, i).
Proof.
  intros Hnd Hk. apply list_find_Some. split; [done|]. split; [done|]. intros k' i' Hk' Hlt Hid.
  assert (k' = k); [|lia]. apply (NoDup_lookup (ContextState.i_id <$> l) k' k (ContextState.i_id i)); [done|..];
    rewrite list_lookup_fmap, ?Hk', ?Hk; simpl; congruence.
Qed.

Lemma items_lookup s k i : items_of s !! k = Some i ↔
  ContextState.contextItems (cs_core s) !! k = Some (c_base i) ∧ cs_extras s !! k = Some (c_extra i).
Proof.
  unfold items_of. rewrite lookup_zip_with. destruct i as [b' x']. cbn [c_base c_extra].
  destruct (ContextState.contextItems (cs_core s) !! k) as [b|]; [|split; [done|by intros [? _]]].
  destruct (cs_extras s !! k) as [x|]; [|split; [done|by intros [_ ?]]].
  cbn. split; [by intros [= -> ->]|by intros [[= ->] [= ->]]].
Qed.

Lemma items_ids s : in_step s → c_id <$> items_of s = ContextState.i_id <$> ContextState.contextItems (cs_core s).
Proof.
  unfold in_step, items_of. generalize (ContextState.contextItems (cs_core s)), (cs_extras s). intros l. induction l as [|b l IH];
    intros [|x k] Hl; try done. simpl in *. f_equal. apply IH. lia.
Qed.

(** Writing the text of the item at [k]. *)
Definition with_text (k : nat) (t : option string) (s : cstate) : cstate :=
  match t with Some t => s <| cs_extras ::= alter (λ x, x <| m_compressedText := Some t |>) k |> | None => s end.
Definition set_text (t : option string) (i : citem) : citem :=
  match t with Some t => Citem (c_base i) ((c_extra i) <| m_compressedText := Some t |>) | None => i end.

Lemma with_text_spec k t s : in_step s →
  in_step (with_text k t s) ∧ cs_core (with_text k t s) = cs_core s ∧ items_of (with_text k t s) = alter (set_text t) k (items_of s).
Proof.
  intros Hs. destruct t as [t|].
  - split; [by unfold in_step in *; cbn; rewrite length_alter|]. split; [done|].
    apply list_eq. intros n. destruct (decide (n = k)) as [->|Hne].
    + rewrite list_lookup_alter_eq. unfold items_of. cbn. rewrite !lookup_zip_with, list_lookup_alter_eq.
      destruct (ContextState.contextItems (cs_core s) !! k), (cs_extras s !! k); done.
    + rewrite list_lookup_alter_ne by done. unfold items_of. cbn. by rewrite !lookup_zip_with, list_lookup_alter_ne.
  - split; [done|]. split; [done|]. cbn. rewrite list_alter_id; [done|]. done.
Qed.

Definition shrink (n : Z) (b : ContextState.item) : ContextState.item :=
  b <| ContextState.i_tokens := n |> <| ContextState.i_status := "COMPRESSED" |>.

(** Compressing the item at [k] of distinct items. *)
Lemma compress_core k i n s : in_step s → NoDup (ContextState.i_id <$> ContextState.contextItems (cs_core s)) →
  items_of s !! k = Some i →
  let '(reclaimed, core) := ContextState.compressItem (c_id i) n (cs_core s) in
  let s' := s <| cs_core := core |> in
  reclaimed = (c_tokens i - n)%Z ∧ ContextState.currentTokens core = (ContextState.currentTokens (cs_core s) - reclaimed)%Z ∧
  in_step s' ∧ items_of s' = alter (λ i, Citem (shrink n (c_base i)) (c_extra i)) k (items_of s) ∧
  ContextState.i_id <$> ContextState.contextItems core = ContextState.i_id <$> ContextState.contextItems (cs_core s).
Proof.
  intros Hs Hnd [Hk Hx]%items_lookup. unfold ContextState.compressItem, c_id. rewrite (find_unique _ k _ Hnd Hk). cbv zeta.
  split; [done|]. split; [done|]. split; [|split].
  - unfold in_step in *. cbn. by rewrite length_insert.
  - apply list_eq. intros m. destruct (decide (m = k)) as [->|Hne].
    + rewrite list_lookup_alter_eq. unfold items_of. cbn. rewrite !lookup_zip_with, Hk, Hx.
      rewrite list_lookup_insert_eq by (by eapply lookup_lt_Some). done.
    + rewrite list_lookup_alter_ne by done. unfold items_of. cbn. by rewrite !lookup_zip_with, list_lookup_insert_ne.
  - apply list_eq. intros m. cbn. rewrite !list_lookup_fmap. destruct (decide (m = k)) as [->|Hne].
    + rewrite list_lookup_insert_eq by (by eapply lookup_lt_Some). by rewrite Hk.
    + by rewrite list_lookup_insert_ne.
Qed.

(** What compression may do to an item: nothing but write its text, or, when it is
    compressible, make it smaller and mark it. *)
Definition compressed_into (i j : citem) : Prop :=
  c_id j = c_id i ∧
  ((c_base j = c_base i ∧ (compressible i = false → j = i)) ∨
   (compressible i = true ∧ c_status j = "COMPRESSED" ∧ (c_tokens j < c_tokens i)%Z)).

Record compression_inv (s0 : cstate) (o : outcome) : Prop := {
  ci_step : in_step (o_state o);
  ci_ids : ContextState.i_id <$> ContextState.contextItems (cs_core (o_state o)) =
    ContextState.i_id <$> ContextState.contextItems (cs_core s0);
  ci_drift : ContextState.drift (cs_core (o_state o)) = ContextState.drift (cs_core s0);
  ci_tokens : ContextState.currentTokens (cs_core (o_state o)) = (ContextState.currentTokens (cs_core s0) - o_reclaimed o)%Z;
  ci_pos : (0 ≤ o_reclaimed o)%Z;
  ci_items : Forall2 compressed_into (items_of s0) (items_of (o_state o));
  ci_report : ∀ e, e ∈ o_items o → ∃ k j, items_of (o_state o) !! k = Some j ∧ c_id j = e.1.1 ∧ c_status j = "COMPRESSED";
}.

Lemma set_text_base t i : c_base (set_text t i) = c_base i.
Proof. by destruct t. Qed.

Section Compression.
Context (m : cmanager) (query : string) (toReclaim : Z) (s0 : cstate).
Context (Hnd : NoDup (ContextState.i_id <$> ContextState.contextItems (cs_core s0))).

Lemma report_alter (f : citem → citem) (k : nat) (l : list citem) (rep : list (string * Z * Z)) :
  (∀ i, c_id (f i) = c_id i ∧ (c_status i = "COMPRESSED" → c_status (f i) = "COMPRESSED")) →
  (∀ e, e ∈ rep → ∃ n j, l !! n = Some j ∧ c_id j = e.1.1 ∧ c_status j = "COMPRESSED") →
  ∀ e, e ∈ rep → ∃ n j, alter f k l !! n = Some j ∧ c_id j = e.1.1 ∧ c_status j = "COMPRESSED".
Proof.
  intros Hf H e He. destruct (H e He) as (n & j & Hj & Hid & Hst). destruct (Hf j) as [H1 H2].
  destruct (decide (n = k)) as [->|Hne].
  - exists k, (f j). rewrite list_lookup_alter_eq, Hj. split; [done|]. split; [congruence|auto].
  - exists n, j. by rewrite list_lookup_alter_ne.
Qed.

Lemma compress_step_inv o k : compression_inv s0 o →
  (∀ i, items_of s0 !! k = Some i → compressible i = true) →
  compression_inv s0 (compress_step m query toReclaim o k).
Proof.
  intros Hinv Hc. pose proof Hinv as [H1 H2 H3 H4 H5 H6 H7]. unfold compress_step. destruct (_ <=? _)%Z; [done|].
  destruct (items_of (o_state o) !! k) as [i|] eqn:Ei; [|done].
  destruct (compress_item m query i) as [newTokens t] eqn:Et.
  change (match t with Some t => (o_state o) <| cs_extras ::= alter (λ x, x <| m_compressedText := Some t |>) k |> | None => o_state o end)
    with (with_text k t (o_state o)).
  destruct (with_text_spec k t (o_state o) H1) as (W1 & W2 & W3). set (s := with_text k t (o_state o)) in *.
  assert (Forall2 compressed_into (items_of s0) (items_of s)) as W4.
  { rewrite W3. apply Forall2_alter_r; [done|]. intros x y Hx Hy [Hid [[Hb Hf]|Hf]]; split;
      unfold c_id, c_status, c_tokens in *; rewrite ?set_text_base; [done|left|done|by right].
    split; [done|]. intros Hn. specialize (Hc x Hx). congruence. }
  assert (∀ e, e ∈ o_items o → ∃ n j, items_of s !! n = Some j ∧ c_id j = e.1.1 ∧ c_status j = "COMPRESSED") as W5.
  { rewrite W3. apply report_alter; [|done]. intros j. unfold c_id, c_status. by rewrite set_text_base. }
  destruct (c_tokens i <=? newTokens)%Z eqn:En; [by split; cbn [o_state o_reclaimed o_items]; rewrite ?W2|]. apply Z.leb_gt in En.
  pose proof (compress_core k (set_text t i) newTokens s W1) as Hcore. rewrite W2, H2 in Hcore. specialize (Hcore Hnd).
  rewrite W3, list_lookup_alter_eq, Ei in Hcore. specialize (Hcore eq_refl).
  unfold c_id, c_tokens in Hcore. rewrite set_text_base in Hcore. fold (c_id i) (c_tokens i) in Hcore. rewrite W2.
  pose proof (proj2 (proj2 (ContextState.drift_kept (cs_core (o_state o)))) (c_id i) newTokens) as Hex. rewrite H3 in Hex.
  destruct (ContextState.compressItem (c_id i) newTokens (cs_core (o_state o))) as [reclaimed core].
  destruct Hcore as (R1 & R2 & R3 & R4 & R5). cbn [snd] in Hex.
  replace (0 <? reclaimed)%Z with true by (symmetry; apply Z.ltb_lt; lia).
  set (s' := s <| cs_core := core |>) in *.
  split; cbn [o_state o_reclaimed o_items]; [exact R3|exact R5|exact Hex|change (ContextState.currentTokens core = ContextState.currentTokens (cs_core s0) - (o_reclaimed o + reclaimed))%Z; lia|lia| |].
  - rewrite R4, <-W3. apply Forall2_alter_r; [done|]. intros x y Hx Hy [Hid Hf].
    assert (c_base y = c_base i) as Hy'.
    { rewrite W3, list_lookup_alter_eq, Ei in Hy. injection Hy as <-. apply set_text_base. }
    split; [done|]. right. split; [by apply Hc|]. split; [done|]. change (newTokens < c_tokens x)%Z.
    assert (c_tokens y = c_tokens i) as Hty by (unfold c_tokens; by rewrite Hy').
    destruct Hf as [[Hb _]|(_ & _ & Hlt)]; [|lia]. unfold c_tokens in *. rewrite <-Hb. lia.
  - intros e [He| ->%list_elem_of_singleton]%elem_of_app.
    + rewrite R4, <-W3. revert e He. apply report_alter; [|done]. intros j. by split.
    + exists k, (Citem (shrink newTokens (c_base i)) (c_extra (set_text t i))).
      rewrite R4, list_lookup_alter_eq, list_lookup_alter_eq, Ei. cbn. by rewrite set_text_base.
Qed.
End Compression.

Lemma candidates_compressible x s k i : k ∈ compression_candidates x s → items_of s !! k = Some i → compressible i = true.
Proof.
  unfold compression_candidates. intros (e & -> & He)%list_elem_of_fmap Hi.
  apply list_elem_of_In, List.filter_In in He as [He Hc]. apply list_elem_of_In, elem_of_js_sort in He.
  apply list_elem_of_In, List.filter_In in He as [He _].
  apply list_elem_of_In, list_elem_of_lookup in He as [n He]. rewrite list_lookup_imap in He.
  destruct (items_of s !! n) as [j|] eqn:Ej; [|done]. injection He as <-. cbn in *. congruence.
Qed.

Lemma compressContext_inv m now taskText target s : in_step s → NoDup (c_id <$> items_of s) →
  compression_inv s (compressContext m now taskText target s).
Proof.
  intros Hs Hnd. rewrite items_ids in Hnd by done.
  assert (compression_inv s (Outcome 0 [] s)) as H0.
  { split; cbn; try done; [lia| |by intros ? ?%not_elem_of_nil]. apply Forall_Forall2_diag, Forall_forall. intros i _. split; [done|]. by left. }
  unfold compressContext. cbv zeta. destruct (_ <=? _)%Z; [done|].
  assert (∀ l o, (∀ k i, k ∈ l → items_of s !! k = Some i → compressible i = true) → compression_inv s o →
    compression_inv s (foldl (compress_step m taskText (ContextState.currentTokens (cs_core s) - target)) o l)) as H.
  { induction l as [|k l IH]; intros o Hl Ho; [done|]. cbn [foldl]. apply IH.
    - intros k' i Hk'. apply Hl. by right.
    - apply compress_step_inv; [done|done|]. intros i. apply Hl. left. }
  apply H; [|done]. intros k i. apply candidates_compressible.
Qed.

(** C37: Compression spares what is protected, in a context whose items have
    distinct ids. Whatever the counter of tokens held before - sending a prompt
    raises it above the items' sum (orchestrator.js:1111, 1508) - [compressContext]
    lowers it by what it reports as reclaimed, never negative, and by as much as the
    items' sum falls; the items keep their ids and their order; an item that is
    protected - the user's task, constraints, criteria, system instructions, flagged
    items - or marked never to be compressed, or not marked to be kept, is as it
    was; any other has kept its tokens and status, or has fewer tokens and is marked
    compressed. A context within the target is left alone. The distinct ids are
    needed: [compressItem] takes the first item with the id, so a protected item
    loses its tokens for a later one of the same id ([protected_twin_compressed]). *)
Theorem compression_sound m now taskText target s :
  in_step s → NoDup (c_id <$> items_of s) →
  let o := compressContext m now taskText target s in
  ContextState.drift (cs_core (o_state o)) = ContextState.drift (cs_core s) ∧
  ContextState.currentTokens (cs_core (o_state o)) = (ContextState.currentTokens (cs_core s) - o_reclaimed o)%Z ∧
  (0 ≤ o_reclaimed o)%Z ∧
  c_id <$> items_of (o_state o) = c_id <$> items_of s ∧
  (∀ k i, items_of s !! k = Some i →
     isProtectedContextItem i = true ∨ categorizeContextItem i = NEVER_COMPRESS ∨ c_status i ≠ "KEEP" →
     items_of (o_state o) !! k = Some i) ∧
  (∀ k i j, items_of s !! k = Some i → items_of (o_state o) !! k = Some j →
     c_base j = c_base i ∨ c_status j = "COMPRESSED" ∧ (c_tokens j < c_tokens i)%Z) ∧
  ((ContextState.currentTokens (cs_core s) ≤ target)%Z → o = Outcome 0 [] s).
Proof.
  intros Hs Hnd o. destruct (compressContext_inv m now taskText target s Hs Hnd) as [H1 H2 H3 H4 H5 H6 _].
  fold o in H1, H2, H3, H4, H5, H6. split_and!; [done..| | | |].
  - by rewrite !items_ids, H2.
  - intros k i Hi Hp. destruct (Forall2_lookup_l _ _ _ _ _ H6 Hi) as (j & Hj & _ & Hf). rewrite Hj. f_equal.
    assert (compressible i = false) as Hc.
    { unfold compressible. destruct Hp as [-> |[->|Hst]]; rewrite ?andb_false_r; [done..|].
      by rewrite bool_decide_false. }
    destruct Hf as [[_ Hf]|[Hc' _]]; [by apply Hf|congruence].
  - intros k i j Hi Hj. destruct (Forall2_lookup_lr _ _ _ _ _ _ H6 Hi Hj) as [_ [[Hb _]|(_ & ? & ?)]]; [by left|by right].
  - intros Ht. subst o. unfold compressContext. cbv zeta. by rewrite (proj2 (Z.leb_le _ _) Ht).
Qed.

(** What is compressed leaves the prompt. An item that [compressContext] reports
    is marked compressed, and selection takes only items marked to be kept: no later
    selection contains it, whatever the query, the threshold and the budget. The
    compressed text is written to the item and read by nothing. *)
Theorem compressed_items_leave_the_prompt locale_before m now taskText target s e x budget th :
  in_step s → NoDup (c_id <$> items_of s) →
  e ∈ o_items (compressContext m now taskText target s) →
  e.1.1 ∉ selected_ids (selectContext locale_before x budget th (items_of (o_state (compressContext m now taskText target s)))).
Proof.
  intros Hs Hnd He. destruct (compressContext_inv m now taskText target s Hs Hnd) as [H1 H2 _ _ _ _ H7].
  set (o := compressContext m now taskText target s) in *. destruct (H7 e He) as (k & j & Hj & Hid & Hst).
  assert (NoDup (c_id <$> items_of (o_state o))) as Hnd' by (rewrite items_ids, H2, <-items_ids; done).
  destruct (selectContext_inv locale_before x budget th (items_of (o_state o)) Hnd') as ([_ Hsel _ _ _] & _).
  intros (z & Hz & Hin)%list_elem_of_fmap. destruct (Hsel z Hin) as [Hzi Hkz].
  assert (z = j) as ->.
  { pose proof (by_id_in _ z Hnd' Hzi) as E1. pose proof (by_id_in _ j Hnd' (list_elem_of_lookup_2 _ _ _ Hj)) as E2. congruence. }
  unfold kept in Hkz. by rewrite Hst in Hkz.
Qed.

(** ** Examples *)

Definition wordy : extra := no_extra <| x_content := Some "The cache was rebuilt. It now holds the new keys. Nothing else changed." |>.
Definition demo_context_items : list new_item :=
  [Plain (RawItem (Some "task") "chat" "User task" "user" 100 (Some (of_Z 1)) None wordy);
   Plain (RawItem (Some "note") "memory" "note" "memory" 400 (Some (ratio 2 10)) None wordy);
   Plain (RawItem (Some "rule") "memory" "rule" "memory" 400 (Some (ratio 1 10)) None (wordy <| m_contextCategory := Some "must_keep" |>))].
Definition demo_cstate : cstate := (addContext 1000 (λ _, "fresh") demo_context_items (new_context (Some 1000%Z))).2.

Lemma compression_sound_witness :
  let o := compressContext default_cmanager 1000 "rebuild the cache" 600 demo_cstate in
  ContextState.currentTokens (cs_core (o_state o)) = (900 - o_reclaimed o)%Z ∧ (o_reclaimed o = 382)%Z.
Proof.
  intros o. split; [|vm_compute; reflexivity].
  destruct (compression_sound default_cmanager 1000 "rebuild the cache" 600 demo_cstate) as (_ & H & _);
    [vm_compute; reflexivity|apply (bool_decide_eq_true_1 _); vm_compute; reflexivity|exact H].
Defined.

Lemma compressed_items_leave_the_prompt_witness :
  let o := compressContext default_cmanager 1000 "rebuild the cache" 600 demo_cstate in
  "rule" ∉ selected_ids (selectContext String.ltb (task_scoring 1000 "rebuild the cache" "rebuild the cache") None nzero (items_of (o_state o))).
Proof.
  intros o. 
  apply (compressed_items_leave_the_prompt String.ltb default_cmanager 1000 "rebuild the cache" 600 demo_cstate ("rule", 382%Z, 18%Z)
    (task_scoring 1000 "rebuild the cache" "rebuild the cache") None nzero);
    [vm_compute; reflexivity|apply (bool_decide_eq_true_1 _); vm_compute; reflexivity|].
  apply (bool_decide_eq_true_1 _). vm_compute. reflexivity.
Defined.

(** An item marked as one that must be kept is compressed all the same - here to
    its own text, whose tokens were overstated - and so left out from then on. *)
Example must_keep_is_compressed :
  let o := compressContext default_cmanager 1000 "rebuild the cache" 600 demo_cstate in
  o_items o = [("rule", 382, 18)]%Z ∧
  ((λ i, (c_id i, bool_decide (categorizeContextItem i = MUST_KEEP), bool_decide (m_compressedText (c_extra i) = x_content (c_extra i)))) <$>
     items_of (o_state o)) !! 2%nat = Some ("rule", true, true).
Proof. vm_compute. split; reflexivity. Qed.

(** Two items with one id, the first of them a constraint: compressing the second
    takes the tokens of the first, which is marked compressed. *)
Definition twin_items : list new_item :=
  [Plain (RawItem (Some "x") "constraint" "rule" "user" 300 (Some (of_Z 1)) None wordy);
   Plain (RawItem (Some "x") "memory" "note" "memory" 400 (Some (ratio 2 10)) None wordy)].
Definition twin_cstate : cstate := (addContext 1000 (λ _, "fresh") twin_items (new_context (Some 1000%Z))).2.
Example protected_twin_compressed :
  let o := compressContext default_cmanager 1000 "rebuild the cache" 400 twin_cstate in
  (isProtectedContextItem <$> items_of twin_cstate) = [true; false] ∧
  (λ i, (c_tokens i, c_status i)) <$> items_of (o_state o) = [(18%Z, "COMPRESSED"); (400%Z, "KEEP")].
Proof. vm_compute. split; reflexivity. Qed.
