(* ===== verification/PromptPlan.v ===== *)
(** The prompt of a model call: the plan of backend/src/intelligence/
    context-engine.js and the compilation of backend/src/impl/context-manager.js
    ([compilePrompt] and the read-only views of the context).

    A tool specification is its name, empty when it has none, and the text
    [JSON.stringify] makes of it. SHA-256 and [localeCompare] are arguments. *)

From stdpp Require Import sorting.
From S2P Require Import Prelude JsMap JsValue Number Sorting Text RuntimeState TaskClassifier ContextEngine ContextCompression ContextManager.

Local Open Scope string_scope.
Local Open Scope js_scope.

Record message := Message { mg_role : string; mg_content : string }.
Record memory_line := MemoryLine { ml_id : string; ml_scope : option string; ml_title : string; ml_snippet : string }.
Record tool_spec := ToolSpec { ts_name : string; ts_json : string }.
(** An item as the plan lists it. *)
Record plan_item := PlanItem { pi_id : string; pi_kind : string; pi_title : string; pi_tokens : Z; pi_status : option string }.

Definition nl : string := String newline "".

(** ** The fingerprint *)

Section Fingerprint.
Context (sha256 : string → string).

Definition item_key (i : plan_item) : string :=
  pi_kind i ++ ":" ++ pi_title i ++ ":" ++ string_of_Z (pi_tokens i) ++ ":" ++ or_str (default "" (pi_status i)) "KEEP".
Definition sorted_keys (l : list string) : string := js_join "|" (js_sort String.ltb l).

(* [src/backend/src/intelligence/context-engine.js:449-464] fingerprintContext *)
Definition fingerprintContext (taskText : string) (items : list plan_item) (memory : list memory_line) (tools : list tool_spec)
    (policy : option string) : string :=
  let field name v := json_quote name ++ ":" ++ json_quote v in
  let canon := "{" ++ js_join ","
    [field "task" (slice0 (Z.to_nat 2000) taskText); field "context" (sorted_keys (item_key <$> items));
     field "memory" (sorted_keys (ml_title <$> memory));
     field "tools" (sorted_keys ((λ t, or_str (ts_name t) "[object Object]") <$> tools));
     field "policy" (default "" (slice0 (Z.to_nat 1000) <$> policy))] ++ "}" in
  "ctxfp-" ++ slice0 16 (sha256 canon).

(** ** The plan *)

Record plan := Plan {
  pl_messages : list message;
  pl_items : list plan_item;
  pl_memory : list (string * string);
  pl_tools : list string;
  pl_systemTokens : nat;
  pl_taskTokens : nat;
  pl_historyTokens : nat;
  pl_memoryTokens : nat;
  pl_toolTokens : nat;
  pl_contextTokens : Z;
  pl_total : Z;
  pl_contextWindow : option Z;
  pl_remaining : option Z;
  pl_fits : option bool;
  pl_omitted : list (string * omission * num);
  pl_fingerprint : string;
}.

Definition contents (l : list message) : string := js_join nl (mg_content <$> l).
Definition with_role (role : string) (l : list message) : list message := List.filter (λ m, bool_decide (mg_role m = role)) l.

(* [src/backend/src/intelligence/context-engine.js:315-347] buildPromptPlan *)
Definition buildPromptPlan (messages : list message) (taskText : string) (items : list plan_item) (memory : list memory_line)
    (tools : list tool_spec) (history : list message) (system : string) (contextWindow : option Z)
    (omitted : list (string * omission * num)) (policy : option string) : plan :=
  let window := w ← contextWindow; if (0 <? w)%Z then Some w else None in
  let systemTokens := estimateTokensFor (or_str system (contents (with_role "system" messages))) in
  let taskTokens := estimateTokensFor (or_str taskText (contents (with_role "user" messages))) in
  let historyTokens := estimateTokensFor (contents history) in
  let memoryTokens := sum_list_with (λ m, estimateTokensFor (ml_title m ++ " " ++ ml_snippet m)) memory in
  let toolTokens := sum_list_with (λ t, estimateTokensFor (slice0 (Z.to_nat 2000) (ts_json t))) tools in
  let contextTokens := foldr (λ i n, pi_tokens i + n)%Z 0%Z items in
  let total := (Z.of_nat (systemTokens + taskTokens + historyTokens + memoryTokens + toolTokens) + contextTokens)%Z in
  let remaining := (λ w, Z.max 0 (w - total)) <$> window in
  Plan ((λ m, Message (mg_role m) (slice0 (Z.to_nat 8000) (mg_content m))) <$> messages) items
    ((λ m, (ml_id m, ml_title m)) <$> memory) ((λ t, or_str (ts_name t) "tool") <$> tools)
    systemTokens taskTokens historyTokens memoryTokens toolTokens contextTokens total window remaining
    ((λ n, 0 <? n)%Z <$> remaining) omitted (fingerprintContext taskText items memory tools policy).

(** ** Compilation *)

Section Compile.
Context (locale_before : string → string → bool).

Record prompt_options := PromptOptions {
  po_userMessage : option string;
  po_stepNumber : option Z;
  po_tokenBudget : option Z;
  po_query : option string;
  po_weights : option weights;
  po_memory : list memory_line;
  po_tools : list tool_spec;
  po_history : list message;
  po_systemExtra : option string;
  po_contextWindow : option Z;
  po_policy : option string;
}.

Definition blank_str (s : string) : bool := bool_decide (trim s = "").

(** [opts.tokenBudget], or the budget of the state, its maximum, 64000. *)
Definition budget_for (o : option Z) (s : cstate) : Z :=
  match o with
  | Some n => n
  | None =>
      let c := cs_core s in
      if negb (ContextState.tokenBudget c =? 0)%Z then ContextState.tokenBudget c
      else if negb (ContextState.maximumTokens c =? 0)%Z then ContextState.maximumTokens c else 64000
  end.

(** The items selected for a task. *)
Definition select_for (m : cmanager) (now : Z) (taskText : string) (query : option string) (w : option weights) (budget : Z) (s : cstate) : selection :=
  let x := task_scoring now taskText (or_str (default "" query) taskText) in
  selectContext locale_before (Scoring (default DEFAULT_WEIGHTS w) (sx_query x) (sx_taskText x) (sx_category x) [] now)
    (Some budget) (cm_relevanceThreshold m) (items_of s).

Definition plan_item_of (i : citem) : plan_item :=
  PlanItem (c_id i) (ContextState.i_kind (c_base i)) (ContextState.i_title (c_base i)) (c_tokens i) None.

(* [src/backend/src/impl/context-manager.js:316-319] lines *)
Definition context_line (i : citem) : string :=
  "- [" ++ ContextState.i_kind (c_base i) ++ "/" ++ c_status i ++ "] " ++ ContextState.i_title (c_base i) ++
  (match m_text (c_extra i) with Some t => if truthy_str t then ": " ++ slice0 800 t else "" | None => "" end).
(* [src/backend/src/impl/context-manager.js:320-321] memLines *)
Definition memory_text (m : memory_line) : string :=
  "- (" ++ or_str (default "" (ml_scope m)) "working" ++ ") " ++ ml_title m ++ ": " ++ slice0 300 (ml_snippet m).

(** Paragraphs, the empty ones left out. *)
Definition paragraphs (l : list string) : string := js_join (nl ++ nl) (List.filter truthy_str l).

(* [src/backend/src/impl/context-manager.js:327-332] system *)
Definition system_text (step : Z) (toolNames : list string) (systemExtra : option string) : string :=
  paragraphs
    ["You are the execution model for an adaptive agent runtime.";
     "Step " ++ string_of_Z step ++ ". Answer concisely. When finished with no further actions, say so explicitly.";
     match toolNames with
     | [] => "No tools available; answer directly."
     | _ => "Available tools: " ++ js_join ", " toolNames ++
            ". Use them via tool calls when they would help; otherwise answer directly."
     end;
     slice0 (Z.to_nat 2000) (default "" systemExtra)].

(* [src/backend/src/impl/context-manager.js:333-337] untrusted *)
Definition untrusted_text (taskText : string) (lines memLines : list string) : string :=
  paragraphs
    ["Task content (untrusted):" ++ nl ++ taskText;
     match lines with [] => "" | _ => "Selected context (untrusted):" ++ nl ++ js_join nl lines end;
     match memLines with [] => "" | _ => "Retrieved memory (untrusted):" ++ nl ++ js_join nl memLines end].

(** The turn that carries the task gets the untrusted text; without one, it is
    the last turn. *)
(* [src/backend/src/impl/context-manager.js:338-344] history *)
Definition turns (taskText untrusted : string) (history : list message) : list message :=
  let history := slice_last 10 history in
  match list_find (λ m, mg_role m = "user" ∧ mg_content m = taskText) history with
  | Some (k, m) => <[k := Message (mg_role m) untrusted]> history
  | None => if truthy_str untrusted then (history ++ [Message "user" untrusted])%list else history
  end.

Definition task_text_of (objective : string) (o : prompt_options) : string :=
  match po_userMessage o with
  | Some u => if blank_str u then objective else slice0 (Z.to_nat 8000) (trim u)
  | None => objective
  end.

Record compiled_prompt := CompiledPrompt {
  cp_messages : list message;
  cp_plan : plan;
  cp_selection : selection;
  cp_budget : Z;
  cp_protectedIds : list string;
}.

(* [src/backend/src/impl/context-manager.js:294-374] compilePrompt *)
Definition compilePrompt (m : cmanager) (now : Z) (objective : string) (o : prompt_options) (s : cstate) : compiled_prompt :=
  let taskText := task_text_of objective o in
  let budget := budget_for (po_tokenBudget o) s in
  let sel := select_for m now taskText (po_query o) (po_weights o) budget s in
  let lines := context_line <$> selected_items sel in
  let memLines := memory_text <$> po_memory o in
  let system := system_text (default 1%Z (po_stepNumber o)) (List.filter truthy_str (ts_name <$> po_tools o)) (po_systemExtra o) in
  let history := turns taskText (untrusted_text taskText lines memLines) (po_history o) in
  let messages := Message "system" system :: history in
  let window := match po_contextWindow o with Some w => if (w =? 0)%Z then Some (ContextState.maximumTokens (cs_core s)) else Some w
                | None => Some (ContextState.maximumTokens (cs_core s)) end in
  CompiledPrompt messages
    (buildPromptPlan messages taskText (plan_item_of <$> selected_items sel) (po_memory o) (po_tools o) history system window
       (se_omitted sel) (po_policy o))
    sel budget (c_id <$> List.filter isProtectedContextItem (selected_items sel)).

(* [src/backend/src/impl/context-manager.js:238-283] buildPromptPlan *)
Definition managerPlan (m : cmanager) (now : Z) (objective : string) (messages : list message) (system : string)
    (o : prompt_options) (s : cstate) : plan :=
  let sel := select_for m now objective (po_query o) (po_weights o) (budget_for (po_tokenBudget o) s) s in
  let window := match po_contextWindow o with Some w => if (w =? 0)%Z then Some (ContextState.maximumTokens (cs_core s)) else Some w
                | None => Some (ContextState.maximumTokens (cs_core s)) end in
  buildPromptPlan messages objective (plan_item_of <$> selected_items sel) (po_memory o) (po_tools o) (po_history o) system window
    (se_omitted sel) (po_policy o).

(** The items for a query, without a threshold. *)
(* [src/backend/src/impl/context-manager.js:218-233] getRelevantContext *)
Definition getRelevantContext (now : Z) (objective query : string) (maxTokens : option Z) (s : cstate) : list citem :=
  let text := trim (objective ++ " " ++ query) in
  selected_items (selectContext locale_before
    (Scoring DEFAULT_WEIGHTS (or_str query objective) (or_str objective query)
       (p_category (classifyTask (or_str text "general task"))) [] now) maxTokens nzero (items_of s)).

(* [src/backend/src/impl/context-manager.js:378-407] explainSelection *)
Definition explainSelection (m : cmanager) (now : Z) (objective : string) (query : option string) (tokenBudget : option Z) (s : cstate)
    : category * selection :=
  (p_category (classifyTask (or_str objective "general task")), select_for m now objective query None (budget_for tokenBudget s) s).

(* [src/backend/src/impl/context-manager.js:409-422] fingerprintFor *)
Definition fingerprintFor (objective : string) (memory : list memory_line) (tools : list tool_spec) (policy : option string) (s : cstate) : string :=
  fingerprintContext objective
    ((λ i, PlanItem (c_id i) (ContextState.i_kind (c_base i)) (ContextState.i_title (c_base i)) (c_tokens i) (Some (c_status i))) <$> items_of s)
    memory tools policy.

(** ** Properties *)

Lemma untrusted_prefix t l k : ∃ r, untrusted_text t l k = ("Task content (untrusted):" ++ nl ++ t) ++ r.
Proof.
  unfold untrusted_text, paragraphs. set (first := "Task content (untrusted):" ++ nl ++ t).
  assert (truthy_str first = true) as Hf by done. cbn [List.filter]. rewrite Hf.
  destruct (if truthy_str _ then _ else _) as [|x k'].
  - exists "". by rewrite string_app_nil_r.
  - by exists ((nl ++ nl) ++ js_join (nl ++ nl) (x :: k')).
Qed.

Lemma untrusted_truthy t l k : truthy_str (untrusted_text t l k) = true.
Proof. by destruct (untrusted_prefix t l k) as [r ->]. Qed.

(** A paragraph of lines holds each of its lines. *)
Lemma paragraph_contains head l x ps :
  x ∈ l → head ++ js_join nl l ∈ ps → truthy_str (head ++ js_join nl l) = true → contains x (paragraphs ps) = true.
Proof.
  intros Hx Hp Ht. destruct (js_join_infix nl l x Hx) as (a & b & E).
  destruct (js_join_infix (nl ++ nl) (List.filter truthy_str ps) (head ++ js_join nl l)) as (a' & b' & E').
  { apply list_elem_of_In, List.filter_In. split; [by apply list_elem_of_In|done]. }
  unfold paragraphs. rewrite E', E.
  replace (a' ++ (head ++ a ++ x ++ b) ++ b') with ((a' ++ head ++ a) ++ x ++ (b ++ b')) by (by rewrite !string_app_assoc).
  apply contains_app.
Qed.

Lemma untrusted_contains_line t l k x : x ∈ l ∨ x ∈ k → contains x (untrusted_text t l k) = true.
Proof.
  unfold untrusted_text. intros [Hx|Hx].
  - apply (paragraph_contains ("Selected context (untrusted):" ++ nl) l); [done| |done].
    destruct l as [|y l]; [by apply not_elem_of_nil in Hx|]. rewrite string_app_assoc. by do 2 constructor.
  - apply (paragraph_contains ("Retrieved memory (untrusted):" ++ nl) k); [done| |done].
    destruct k as [|y k]; [by apply not_elem_of_nil in Hx|]. rewrite string_app_assoc. by do 3 constructor.
Qed.

(** The turns are the last ten, one of which, a user's that was the task, is
    replaced by the untrusted text; or all of them and one more. *)
Lemma turns_spec t u history : truthy_str u = true →
  ∃ a b, turns t u history = (a ++ Message "user" u :: b)%list ∧
    (slice_last 10 history = (a ++ Message "user" t :: b)%list ∨ slice_last 10 history = a ∧ b = []).
Proof.
  intros Hu. unfold turns. set (l := slice_last 10 history) in *.
  destruct (list_find _ l) as [[k m]|] eqn:E.
  - apply list_find_Some in E as (Hk & [Hr Hc] & _). exists (take k l), (drop (S k) l). rewrite Hr.
    rewrite insert_take_drop by (by eapply lookup_lt_Some). split; [done|]. left.
    rewrite <-(take_drop_middle l k m Hk) at 1. by destruct m; cbn in *; subst.
  - rewrite Hu. exists l, []. split; [done|by right].
Qed.


Lemma contents_length l m : m ∈ l → (String.length (mg_content m) ≤ String.length (contents l))%nat.
Proof.
  intros Hm. destruct (js_join_infix nl (mg_content <$> l) (mg_content m)) as (a & b & E); [apply list_elem_of_fmap; eauto|].
  unfold contents. rewrite E, !length_append. lia.
Qed.

(** The plan counts the task twice: on its own and in the turn that carries it. *)
Theorem task_counted_twice m now objective o s : task_text_of objective o ≠ "" →
  let p := cp_plan (compilePrompt m now objective o s) in
  (Z.of_nat (pl_systemTokens p + 2 * estimateTokensFor (task_text_of objective o)) + pl_contextTokens p ≤ pl_total p)%Z.
Proof.
  intros Ht. cbv zeta.
  assert (estimateTokensFor (task_text_of objective o) ≤ pl_historyTokens (cp_plan (compilePrompt m now objective o s)))%nat as Hh.
  { cbn [compilePrompt cp_plan buildPromptPlan pl_historyTokens]. unfold estimateTokensFor. apply Nat.Div0.div_le_mono, Nat.add_le_mono_r.
    match goal with |- (_ ≤ String.length (contents (turns ?t ?u ?h)))%nat =>
      destruct (turns_spec t u h) as (a & b & -> & _); [apply untrusted_truthy|];
      etransitivity; [|apply (contents_length _ (Message "user" u)); apply elem_of_app; right; left] end.
    cbn [mg_content]. match goal with |- context [untrusted_text ?t ?l ?k] => destruct (untrusted_prefix t l k) as [r ->] end.
    rewrite !length_append. lia. }
  assert (pl_taskTokens (cp_plan (compilePrompt m now objective o s)) = estimateTokensFor (task_text_of objective o)) as Et.
  { cbn [compilePrompt cp_plan buildPromptPlan pl_taskTokens]. unfold or_str. destruct (task_text_of objective o); [done|done]. }
  change (pl_total (cp_plan (compilePrompt m now objective o s))) with
    (Z.of_nat (pl_systemTokens (cp_plan (compilePrompt m now objective o s)) + pl_taskTokens (cp_plan (compilePrompt m now objective o s))
      + pl_historyTokens (cp_plan (compilePrompt m now objective o s)) + pl_memoryTokens (cp_plan (compilePrompt m now objective o s))
      + pl_toolTokens (cp_plan (compilePrompt m now objective o s))) + pl_contextTokens (cp_plan (compilePrompt m now objective o s)))%Z.
  rewrite Et. lia.
Qed.
End Compile.

(** ** The order of strings *)

Lemma ltb_spec a b : String.ltb a b = true ↔ String.compare a b = Lt.
Proof. unfold String.ltb. destruct (String.compare a b); split; congruence. Qed.

Lemma ascii_compare_trans a b c r : Ascii.compare a b = r → Ascii.compare b c = r → Ascii.compare a c = r.
Proof.
  unfold Ascii.compare. destruct r.
  - rewrite !N.compare_eq_iff. congruence.
  - rewrite !N.compare_lt_iff. apply N.lt_trans.
  - rewrite !N.compare_gt_iff. intros. eapply N.lt_trans; eassumption.
Qed.

Lemma compare_refl a : String.compare a a = Eq.
Proof.
  induction a as [|c a IH]; [done|]. simpl. unfold Ascii.compare. by rewrite N.compare_refl.
Qed.

Lemma compare_lt_trans a b c : String.compare a b = Lt → String.compare b c = Lt → String.compare a c = Lt.
Proof.
  revert b c. induction a as [|x a IH]; intros [|y b] [|z c]; simpl; try done.
  destruct (Ascii.compare x y) eqn:E1; [| |done]; destruct (Ascii.compare y z) eqn:E2; try done.
  - rewrite (ascii_compare_trans _ _ _ _ E1 E2). apply IH.
  - apply Ascii.compare_eq_iff in E1 as ->. by rewrite E2.
  - apply Ascii.compare_eq_iff in E2 as <-. by rewrite E1.
  - by rewrite (ascii_compare_trans _ _ _ _ E1 E2).
Qed.

#[export] Instance ltb_weak_order : WeakOrder String.ltb.
Proof.
  split.
  - intros x. unfold String.ltb. by rewrite compare_refl.
  - intros x y z. rewrite !ltb_spec. apply compare_lt_trans.
  - intros x y z. rewrite <-!not_true_iff_false, !ltb_spec. intros H1 H2 H3.
    destruct (String.compare x y) eqn:E; [|done|].
    + apply String.compare_eq_iff in E as ->. done.
    + rewrite String.compare_antisym in E. apply H2. destruct (String.compare y x) eqn:E'; simpl in E; try done.
      by apply (compare_lt_trans y x z).
Qed.

(** Sorting strings forgets their order. *)
Lemma sorted_unique l k : l ≡ₚ k → js_sort String.ltb l = js_sort String.ltb k.
Proof.
  intros Hp. apply (StronglySorted_unique_strong (in_order String.ltb)).
  - intros x y _ _. unfold in_order. rewrite <-!not_true_iff_false, !ltb_spec. intros H1 H2.
    apply String.compare_eq_iff. destruct (String.compare x y) eqn:E; [done|done|].
    rewrite String.compare_antisym in E. destruct (String.compare y x) eqn:E'; simpl in E; done.
  - apply js_sort_sorted; [apply wo_irr|apply wo_trans|apply wo_cotrans].
  - apply js_sort_sorted; [apply wo_irr|apply wo_trans|apply wo_cotrans].
  - by rewrite !js_sort_perm.
Qed.

(** The fingerprint is of the logical prompt. It does not depend on the order
    of the items, memories and tools, nor on their ids, whatever the hash. *)
Theorem fingerprint_order_free t items items' memory memory' tools tools' policy :
  item_key <$> items ≡ₚ item_key <$> items' → ml_title <$> memory ≡ₚ ml_title <$> memory' →
  ts_name <$> tools ≡ₚ ts_name <$> tools' →
  fingerprintContext t items memory tools policy = fingerprintContext t items' memory' tools' policy.
Proof.
  intros H1 H2 H3. unfold fingerprintContext, sorted_keys.
  rewrite (sorted_unique _ _ H1), (sorted_unique _ _ H2).
  assert ((λ t, or_str (ts_name t) "[object Object]") <$> tools ≡ₚ (λ t, or_str (ts_name t) "[object Object]") <$> tools') as H4.
  { pose proof (fmap_Permutation (λ n, or_str n "[object Object]") _ _ H3) as H4. by rewrite <-!list_fmap_compose in H4. }
  by rewrite (sorted_unique _ _ H4).
Qed.
End Fingerprint.

(** ** Examples *)

Definition demo_options : prompt_options :=
  PromptOptions (Some "rebuild the cache") None None None None [MemoryLine "m1" None "keys" "the keys are new"]
    [ToolSpec "read_file" "{}"] [Message "assistant" "ready"; Message "user" "rebuild the cache"] None None None.

Lemma task_counted_twice_witness :
  let p := cp_plan (compilePrompt (λ s, s) String.ltb default_cmanager 1000 "" demo_options demo_cstate) in
  (Z.of_nat (pl_systemTokens p + 2 * estimateTokensFor "rebuild the cache") + pl_contextTokens p ≤ pl_total p)%Z.
Proof.
  intros p. refine (task_counted_twice (λ s, s) String.ltb default_cmanager 1000 "" demo_options demo_cstate _).
  vm_compute. discriminate.
Defined.

Lemma fingerprint_order_free_witness :
  let a := PlanItem "1" "file" "a" 3 None in let b := PlanItem "2" "file" "b" 4 None in
  fingerprintContext (λ s, s) "t" [a; b] [] [] None = fingerprintContext (λ s, s) "t" [b; a] [] [] None.
Proof. intros a b. apply (fingerprint_order_free (λ s, s)); [apply Permutation_swap|done|done]. Defined.

(** The content of an item is never in the prompt: only its title and the text of
    its metadata are. *)
Example content_not_in_prompt :
  let p := compilePrompt (λ s, s) String.ltb default_cmanager 1000 "" demo_options demo_cstate in
  "task" ∈ cp_protectedIds p ∧ existsb (λ m, contains "The cache was rebuilt" (mg_content m)) (cp_messages p) = false.
Proof. split; [apply (bool_decide_eq_true_1 _)|]; vm_compute; reflexivity. Qed.
