(* ===== verification/Credentials.v ===== *)
(** The store of provider credentials (backend/src/providers/credential-store.js),
    the redaction of error texts (backend/src/config.js), and the key a provider
    call uses (backend/server.js).

    AES-256-GCM, the decoding of hexadecimal and base64, the random bytes and the
    clock are arguments. The data directory is a key file and a document; a write
    of either succeeds or fails, a damaged document can be renamed. Bullets of
    a masked key are written as dots. A provider id that names a member of
    [Object.prototype] ([constructor], say) is not considered. *)

From S2P Require Import Prelude JsMap JsValue Text Regex.

Local Open Scope string_scope.
Local Open Scope js_scope.

(** ** Redaction *)

(* [src/backend/src/config.js:114-114] SECRET_KEYS *)
Definition SECRET_KEYS : list string := ["api_key"; "apikey"; "authorization"; "secret"; "token"; "bearer"].

Definition first_group (text _match : string) (caps : captures) : string := default "" (group text 1 caps) ++ "[REDACTED]".
Definition quote_class : string := String quote_char "'\s".

(** [(key[q:=]+)([^q,}]+)], where q stands for quotes and blanks. *)
Definition secret_pattern (k : string) : re :=
  parse_i ("(" ++ k ++ "[" ++ quote_class ++ ":=]+)([^" ++ quote_class ++ ",}]+)").
Definition labelled_pattern : re :=
  parse_i "((?:api[\s_-]*key|access[\s_-]*token|secret|password)[^:=]{0,32}[:=]\s*)([^\s,}]+)".
Definition prefixed_pattern : re := parse_i "\b(?:sk-(?:ant|or-v1|proj)-|sk-|LLM_|key[_-])[A-Za-z0-9*._~+\/=~-]{8,}".

(** The word [Bearer], blanks, and what follows up to a blank or a quote, unless
    it is the word [token]. *)
Definition bearer_pattern : re := parse_i ("(Bearer\s+)([^" ++ quote_class ++ "]+)").
Fixpoint redact_bearer (text : string) (n i : nat) : string :=
  match n with
  | O => slice text i (String.length text)
  | S n =>
      if (String.length text <=? i)%nat then ""
      else
        match match_at text bearer_pattern i with
        | Some (j, caps) =>
            if test (parse_i "^token\b") (default "" (group text 2 caps)) then slice text i (S i) ++ redact_bearer text n (S i)
            else default "" (group text 1 caps) ++ "[REDACTED]" ++ redact_bearer text n j
        | None => slice text i (S i) ++ redact_bearer text n (S i)
        end
  end.

(* [src/backend/src/config.js:116-131] redact *)
Definition redact (value : string) : string :=
  let out := foldl (λ s k, if String.eqb k "bearer" then s else replace_all (secret_pattern k) (first_group s) s) value SECRET_KEYS in
  let out := replace_all labelled_pattern (first_group out) out in
  let out := replace_all prefixed_pattern (λ _ _, "[REDACTED]") out in
  redact_bearer out (S (String.length out)) 0.

(** In a header the scheme is redacted and the secret stays: the rule for
    [authorization] takes the word [Bearer], which the last rule then looks for. *)
Example bearer_secret_survives :
  redact "401 for Authorization: Bearer s3cr3t-value" = "401 for Authorization: [REDACTED] s3cr3t-value".
Proof. vm_compute. reflexivity. Qed.

Example echoed_key_redacted :
  redact "Incorrect API key provided: sk-proj-abcdefgh12345" = "Incorrect API key provided: [REDACTED]".
Proof. vm_compute. reflexivity. Qed.

(** ** The store *)

(* [src/backend/src/providers/credential-store.js:23-23] SUPPORTED_PROVIDERS *)
Definition SUPPORTED_PROVIDERS : list string := ["openrouter"; "openai"; "anthropic"].

Section Store.
Context {sealed : Type} (encrypt : string → string → string → sealed) (decrypt : string → sealed → option string).
Context (from_hex from_base64 to_hex : string → string).

Record credential := Credential {
  cr_enc : option sealed;
  cr_suffix : string;
  cr_updatedAt : Z;
  cr_lastVerifiedAt : option Z;
  cr_lastCheckedAt : option Z;
  cr_lastStatus : option string;
  cr_lastError : option string;
  cr_lastLatencyMs : option Z;
  cr_modelCount : option Z;
}.
#[local] Instance credential_eta : Eta credential := λ c,
  Credential (cr_enc c) (cr_suffix c) (cr_updatedAt c) (cr_lastVerifiedAt c) (cr_lastCheckedAt c) (cr_lastStatus c) (cr_lastError c)
    (cr_lastLatencyMs c) (cr_modelCount c).

Abbreviation bucket := (list (string * credential)).
Record document := Doc { d_providers : bucket; d_scopes : list (string * bucket); d_corrupted : bool }.
Definition empty_doc : document := Doc [] [] false.

(** What the document file holds. *)
Inductive content := Missing | Damaged | Holds (d : document).

(* [src/backend/src/providers/credential-store.js:41-53] CredentialStore *)
Record store := Store {
  st_encryptionKey : string;
  st_require : bool;
  st_key : option string;
  st_cache : option document;
  st_keyFile : option string;
  st_file : content;
  st_quarantined : nat;
}.
#[local] Instance store_eta : Eta store := λ s,
  Store (st_encryptionKey s) (st_require s) (st_key s) (st_cache s) (st_keyFile s) (st_file s) (st_quarantined s).

Inductive outcome (A : Type) := Done (a : A) | Thrown (code : string).
Arguments Done {A} _.
Arguments Thrown {A} _.

Definition hex_digit (c : ascii) : bool := digit c || between "a" "f" c || between "A" "F" c.
(** [/^[0-9a-f]{64}$/i] *)
Definition is_hex64 (s : string) : bool := (String.length s =? 64)%nat && negb (any_char (λ c, negb (hex_digit c)) s).

(* [src/backend/src/providers/credential-store.js:25-33] parseEncryptionKey *)
Definition parseEncryptionKey (value : string) : option string :=
  let raw := trim value in
  if negb (truthy_str raw) then None
  else if is_hex64 raw then Some (from_hex raw)
  else let key := from_base64 raw in if (String.length key =? 32)%nat then Some key else None.

(** A store is refused in production without a usable key. *)
(* [src/backend/src/providers/credential-store.js:41-53] constructor *)
Definition new_store (encryptionKey : string) (require : bool) (keyFile : option string) (file : content) : outcome store :=
  match parseEncryptionKey encryptionKey with
  | None => if require then Thrown "config" else Done (Store encryptionKey require None None keyFile file 0)
  | Some _ => Done (Store encryptionKey require None None keyFile file 0)
  end.

(** [fresh] are the random bytes; [writable] says whether the key file can be
    written. *)
(* [src/backend/src/providers/credential-store.js:66-101] _installKey *)
Definition installKey (fresh : string) (writable : bool) (s : store) : outcome string * store :=
  let from_file s :=
    let regenerate :=
      (Done fresh, s <| st_keyFile := if writable then Some (to_hex fresh) else st_keyFile s |> <| st_key := Some fresh |>) in
    match st_keyFile s with
    | Some raw => if is_hex64 (trim raw) then (Done (from_hex (trim raw)), s <| st_key := Some (from_hex (trim raw)) |>) else regenerate
    | None => regenerate
    end in
  match st_key s with
  | Some k => (Done k, s)
  | None =>
      if truthy_str (st_encryptionKey s) then
        match parseEncryptionKey (st_encryptionKey s) with
        | Some k => if (String.length k =? 32)%nat then (Done k, s <| st_key := Some k |>)
                    else if st_require s then (Thrown "config", s) else from_file s
        | None => if st_require s then (Thrown "config", s) else from_file s
        end
      else if st_require s then (Thrown "config", s) else from_file s
  end.

(** A damaged document is renamed and the store starts empty, marked so. *)
(* [src/backend/src/providers/credential-store.js:118-143] _load *)
Definition load (s : store) : document * store :=
  match st_cache s with
  | Some d => (d, s)
  | None =>
      match st_file s with
      | Missing => (empty_doc, s <| st_cache := Some empty_doc |>)
      | Holds d => (d, s <| st_cache := Some d |>)
      | Damaged => let d := Doc [] [] true in
          (d, s <| st_cache := Some d |> <| st_file := Missing |> <| st_quarantined ::= S |>)
      end
  end.

(* [src/backend/src/providers/credential-store.js:145-148] _scopeKey *)
Definition scopeKey (scope : string) : string :=
  let value := trim (or_str scope "default") in
  if truthy_str value && (String.length value <=? 128)%nat then value else "default".

(** The bucket of a scope, empty when there is none. *)
(* [src/backend/src/providers/credential-store.js:150-167] _bucket *)
Definition bucket_of (d : document) (scope : string) : bucket :=
  let key := scopeKey scope in
  if String.eqb key "default" then d_providers d else default [] (mget (d_scopes d) key).
(** Writing the bucket of a scope; [create] makes it when it is missing. *)
(* [src/backend/src/providers/credential-store.js:150-167] _bucket *)
Definition set_bucket (create : bool) (scope : string) (b : bucket) (d : document) : document :=
  let key := scopeKey scope in
  if String.eqb key "default" then Doc b (d_scopes d) (d_corrupted d)
  else if create || mhas (d_scopes d) key then Doc (d_providers d) (mset (d_scopes d) key b) (d_corrupted d) else d.

(** The cache changes, and then the file is written or the write throws. *)
(* [src/backend/src/providers/credential-store.js:169-174] _save *)
Definition save (writable : bool) (d : document) (s : store) : store :=
  let s := s <| st_cache := Some d |> in if writable then s <| st_file := Holds d |> else s.

Definition validProvider (id : string) : bool := bool_decide (to_lower id ∈ SUPPORTED_PROVIDERS).

(** *** Reading *)

Definition dots : string := "....".
(** The last four characters of a text of at least four. *)
Definition last_four (s : string) : string := String.substring (String.length s - 4) 4 s.
(* [src/backend/src/providers/credential-store.js:35-38] maskKey *)
Definition maskKey (key : string) : string := if (String.length key <? 4)%nat then dots else dots ++ last_four key.

Record meta := Meta {
  me_id : string; me_configured : bool; me_keyMasked : option string; me_updatedAt : option Z; me_lastVerifiedAt : option Z;
  me_lastStatus : option string; me_lastError : option string; me_lastLatencyMs : option Z; me_modelCount : option Z;
}.

(* [src/backend/src/providers/credential-store.js:189-205] metaFor *)
Definition metaFor (providerId scope : string) (s : store) : meta * store :=
  let id := to_lower providerId in
  let '(d, s) := load s in
  (match mget (bucket_of d scope) id with
   | None => Meta id false None None None None None None None
   | Some r => Meta id true (Some (if truthy_str (cr_suffix r) then maskKey (cr_suffix r) else dots ++ dots)) (Some (cr_updatedAt r))
       (cr_lastVerifiedAt r) (cr_lastStatus r) (redact <$> cr_lastError r) (cr_lastLatencyMs r) (cr_modelCount r)
   end, s).

(* [src/backend/src/providers/credential-store.js:185-187] listMeta *)
Definition listMeta (scope : string) (s : store) : list meta * store :=
  foldl (λ '(l, s) id, let '(m, s) := metaFor id scope s in ((l ++ [m])%list, s)) ([], s) SUPPORTED_PROVIDERS.

(* [src/backend/src/providers/credential-store.js:212-215] hasStored *)
Definition hasStored (providerId scope : string) (s : store) : bool * store :=
  let '(d, s) := load s in (mhas (bucket_of d scope) (to_lower providerId), s).

(* [src/backend/src/providers/credential-store.js:217-222] hasAnyStored *)
Definition hasAnyStored (providerId : string) (s : store) : bool * store :=
  let id := to_lower providerId in
  let '(d, s) := load s in (mhas (d_providers d) id || existsb (λ b, mhas b.2 id) (d_scopes d), s).

(** A key that cannot be decrypted, or a store without a key, answers nothing. *)
(* [src/backend/src/providers/credential-store.js:224-234] getKey *)
Definition getKey (fresh : string) (writable : bool) (providerId scope : string) (s : store) : string * store :=
  let '(d, s) := load s in
  match r ← mget (bucket_of d scope) (to_lower providerId); cr_enc r with
  | None => ("", s)
  | Some e =>
      match installKey fresh writable s with
      | (Done k, s) => (default "" (decrypt k e), s)
      | (Thrown _, s) => ("", s)
      end
  end.

(** *** Writing *)

Definition nonzero (n : option Z) : option Z := match n with Some n => if (n =? 0)%Z then None else Some n | None => None end.

(* [src/backend/src/providers/credential-store.js:236-257] setKey *)
Definition setKey (fresh iv : string) (keyWritable writable : bool) (now : Z) (providerId apiKey scope : string) (s : store)
    : outcome meta * store :=
  let id := to_lower providerId in
  if negb (validProvider id) then (Thrown "bad_provider", s)
  else if (String.length apiKey <? 8)%nat || (Z.to_nat 500 <? String.length apiKey)%nat then (Thrown "bad_key", s)
  else
    let '(d, s) := load s in
    let b := bucket_of d scope in
    let previous := mget b id in
    match installKey fresh keyWritable s with
    | (Thrown c, s) => (Thrown c, s <| st_cache := Some (set_bucket true scope b d) |>)
    | (Done k, s) =>
        let r := Credential (Some (encrypt k iv apiKey)) (last_four apiKey) now (previous ≫= cr_lastVerifiedAt)
          None (previous ≫= cr_lastStatus) None (nonzero (previous ≫= cr_lastLatencyMs)) (nonzero (previous ≫= cr_modelCount)) in
        let s := save writable (set_bucket true scope (mset b id r) d) s in
        if writable then let '(m, s) := metaFor id scope s in (Done m, s) else (Thrown "io", s)
    end.

Record probe := Probe { pb_ok : bool; pb_error : string; pb_latencyMs : option Z; pb_modelCount : option Z }.

(* [src/backend/src/providers/credential-store.js:259-272] recordVerification *)
Definition recordVerification (writable : bool) (now : Z) (providerId : string) (p : probe) (scope : string) (s : store)
    : outcome (option meta) * store :=
  let id := to_lower providerId in
  let '(d, s) := load s in
  match mget (bucket_of d scope) id with
  | None => (Done None, s)
  | Some r =>
      let r := r <| cr_lastVerifiedAt := if pb_ok p then Some now else cr_lastVerifiedAt r |>
        <| cr_lastCheckedAt := Some now |>
        <| cr_lastStatus := Some (if pb_ok p then "connected" else "failed") |>
        <| cr_lastError := if pb_ok p then None else Some (slice0 300 (redact (pb_error p))) |>
        <| cr_lastLatencyMs := match pb_latencyMs p with Some l => Some l | None => cr_lastLatencyMs r end |>
        <| cr_modelCount := match pb_modelCount p with Some n => Some n | None => cr_modelCount r end |> in
      let s := save writable (set_bucket false scope (mset (bucket_of d scope) id r) d) s in
      if writable then let '(m, s) := metaFor id scope s in (Done (Some m), s) else (Thrown "io", s)
  end.

(* [src/backend/src/providers/credential-store.js:274-282] remove *)
Definition remove (writable : bool) (providerId scope : string) (s : store) : outcome bool * store :=
  let id := to_lower providerId in
  let '(d, s) := load s in
  let b := bucket_of d scope in
  let s := save writable (set_bucket false scope (mdelete b id) d) s in
  (if writable then Done (mhas b id) else Thrown "io", s).

(* [src/backend/src/providers/credential-store.js:284-286] wasCorrupted *)
Definition wasCorrupted (s : store) : bool * store := let '(d, s) := load s in (d_corrupted d, s).

(** A restart: what is in memory is gone. *)
Definition restart (s : store) : store := s <| st_key := None |> <| st_cache := None |>.

(** ** What the store promises *)

(** Operations, as a caller orders them; [w] says whether the document can be
    written, [kw] whether the key file can, and [fresh] are the random bytes an
    installation key would be made of. *)
Inductive op :=
| SetKey (fresh iv : string) (kw w : bool) (now : Z) (id key scope : string)
| Verify (w : bool) (now : Z) (id : string) (p : probe) (scope : string)
| Remove (w : bool) (id scope : string)
| GetKey (fresh : string) (kw : bool) (id scope : string)
| ListMeta (scope : string)
| Restart.

Definition step (s : store) (o : op) : store :=
  match o with
  | SetKey fresh iv kw w now id key scope => (setKey fresh iv kw w now id key scope s).2
  | Verify w now id p scope => (recordVerification w now id p scope s).2
  | Remove w id scope => (remove w id scope s).2
  | GetKey fresh kw id scope => (getKey fresh kw id scope s).2
  | ListMeta scope => (listMeta scope s).2
  | Restart => restart s
  end.

(** A vault: the keys in force, by scope and provider, and those that a restart
    finds. *)
Record vault := Vault { live : gmap (string * string) string; saved : gmap (string * string) string }.
Definition written (w : bool) (m : gmap (string * string) string) (v : vault) : vault := Vault m (if w then m else saved v).
Definition good_key (key : string) : bool := negb ((String.length key <? 8)%nat || (Z.to_nat 500 <? String.length key)%nat).

Definition vault_step (v : vault) (o : op) : vault :=
  match o with
  | SetKey _ _ _ w _ id key scope =>
      if validProvider id && good_key key then written w (<[(scopeKey scope, to_lower id) := key]> (live v)) v else v
  | Verify w _ id _ scope => if bool_decide (is_Some (live v !! (scopeKey scope, to_lower id))) then written w (live v) v else v
  | Remove w id scope => written w (delete (scopeKey scope, to_lower id) (live v)) v
  | GetKey _ _ _ _ | ListMeta _ => v
  | Restart => Vault (saved v) (saved v)
  end.

(** Random bytes whose text in the key file reads back. *)
Definition fresh_ok (fresh : string) : Prop :=
  is_hex64 (trim (to_hex fresh)) = true ∧ from_hex (trim (to_hex fresh)) = fresh.
(** An installation key this operation generates is saved. *)
Definition key_saved (o : op) : Prop :=
  match o with
  | SetKey fresh _ kw _ _ _ _ _ | GetKey fresh kw _ _ => kw = true ∧ fresh_ok fresh
  | _ => True
  end.

Context (decrypt_encrypt : ∀ k iv p, decrypt k (encrypt k iv p) = Some p).
Context (hex_32 : ∀ s, is_hex64 s = true → String.length (from_hex s) = 32%nat).

Definition bucket_at (d : document) (key : string) : bucket :=
  if String.eqb key "default" then d_providers d else default [] (mget (d_scopes d) key).

Record holds (k : string) (d : document) (m : gmap (string * string) string) : Prop := {
  ho_wf : ∀ key, mwf (bucket_at d key);
  ho_lookup : ∀ key id, m !! (key, id) = (mget (bucket_at d key) id ≫= cr_enc) ≫= decrypt k;
  ho_enc : ∀ key id r, mget (bucket_at d key) id = Some r → is_Some (cr_enc r ≫= decrypt k);
}.

Definition disk (s : store) : document := match st_file s with Holds d => d | _ => empty_doc end.
Definition mem (s : store) : document := default (disk s) (st_cache s).

(** The installation key is [k], now and after a restart. *)
Definition key_inv (k : string) (s : store) : Prop :=
  (∀ fresh, (installKey fresh true (s <| st_key := None |>)).1 = Done k) ∧ (st_key s = None ∨ st_key s = Some k).
Definition inv (k : string) (s : store) (v : vault) : Prop :=
  key_inv k s ∧ holds k (mem s) (live v) ∧ holds k (disk s) (saved v).

(** There is no installation key yet: the next one is made and saved. *)
Definition keyless (s : store) : Prop :=
  st_key s = None ∧ ∀ fresh, installKey fresh true s = (Done fresh, s <| st_keyFile := Some (to_hex fresh) |> <| st_key := Some fresh |>).
Definition blank (d : document) : Prop := ∀ key, bucket_at d key = [].

Definition installs (fresh k : string) (s : store) : Prop :=
  ∃ s', installKey fresh true s = (Done k, s') ∧ key_inv k s' ∧ st_cache s' = st_cache s ∧ st_file s' = st_file s.

Lemma bucket_of_at d scope : bucket_of d scope = bucket_at d (scopeKey scope).
Proof. done. Qed.

Lemma bucket_set create scope b d key : (create = false → bucket_of d scope = [] → b = []) →
  bucket_at (set_bucket create scope b d) key = if decide (key = scopeKey scope) then b else bucket_at d key.
Proof.
  intros H. unfold set_bucket. destruct (String.eqb_spec (scopeKey scope) "default") as [E|E].
  { unfold bucket_at. cbn. case_decide as Ek; [subst key; by rewrite E|].
    destruct (String.eqb_spec key "default"); [congruence|done]. }
  destruct (create || mhas (d_scopes d) (scopeKey scope)) eqn:Ec.
  - unfold bucket_at. cbn [d_providers d_scopes]. case_decide as Ek.
    + subst key. destruct (String.eqb_spec (scopeKey scope) "default"); [done|]. by rewrite mget_set_eq.
    + destruct (String.eqb_spec key "default"); [done|]. by rewrite mget_set_ne.
  - apply orb_false_iff in Ec as [-> Ec]. case_decide as Ek; [|done]. subst key.
    assert (Hb : bucket_at d (scopeKey scope) = []).
    { unfold bucket_at. destruct (String.eqb_spec (scopeKey scope) "default"); [done|]. unfold mhas in Ec.
      apply bool_decide_eq_false in Ec. destruct (mget _ _); [by destruct Ec|done]. }
    rewrite Hb. symmetry. by apply H.
Qed.

Lemma holds_ext k d d' m : (∀ key, bucket_at d' key = bucket_at d key) → holds k d m → holds k d' m.
Proof. intros E [H1 H2 H3]. split; [intros key|intros key id|intros key id r]; rewrite E; eauto. Qed.

(** Changing one bucket at one provider changes one key. *)
Lemma holds_update k create scope id (o : option credential) b d m :
  holds k d m → (create = false → bucket_of d scope = [] → b = []) → mwf b →
  (∀ j, mget b j = if decide (j = id) then o else mget (bucket_of d scope) j) →
  (∀ r, o = Some r → is_Some (cr_enc r ≫= decrypt k)) →
  holds k (set_bucket create scope b d) (partial_alter (λ _, (o ≫= cr_enc) ≫= decrypt k) (scopeKey scope, id) m).
Proof.
  intros [H1 H2 H3] Hc Hb Hg Ho. split; [intros key|intros key j|intros key j r]; rewrite (bucket_set _ _ _ _ key Hc).
  - case_decide; auto.
  - destruct (decide ((scopeKey scope, id) = (key, j))) as [E|E].
    + rewrite <-E, lookup_partial_alter_eq. injection E as -> ->. rewrite decide_True by done. by rewrite Hg, decide_True.
    + rewrite lookup_partial_alter_ne by done. case_decide as Ek; [|auto]. subst key. rewrite Hg.
      rewrite decide_False by congruence. rewrite bucket_of_at. auto.
  - case_decide as Ek; [|eauto]. subst key. rewrite Hg. case_decide as Ej; [eauto|]. rewrite bucket_of_at. eauto.
Qed.

Lemma install_key_spec fresh k s : key_inv k s → installs fresh k s.
Proof.
  intros [Hp Hk]. unfold installs.
  destruct Hk as [E|E]; [|exists s; unfold installKey; rewrite E; by split_and!; [|split; auto|..]].
  assert (Es : s <| st_key := None |> = s) by (destruct s; cbn in E |- *; by rewrite E).
  rewrite Es in Hp. unfold key_inv.
  assert (Hne : k ≠ String "x" k) by (intros Ek; apply (f_equal String.length) in Ek; cbn in Ek; lia).
  pose proof (Hp (String "x" k)) as Hx. specialize (Hp fresh).
  destruct s as [ek rq key c kf f q]. cbn in E. subst key. unfold installKey in *. cbn in *.
  repeat (case_match; cbn in *; try discriminate); simplify_eq; eexists; (split; [reflexivity|]); cbn;
    repeat match goal with H : ?x = _ |- context [?x] => rewrite H; cbn end; auto.
Qed.

Lemma install_new fresh s : fresh_ok fresh → keyless s → installs fresh fresh s.
Proof.
  intros [H1 H2] [Hs Hk]. eexists. split; [apply Hk|]. split; [|done].
  specialize (Hk fresh). split; [|by right]. intros fresh'.
  destruct s as [ek rq key c kf f q]. cbn in Hs. subst key. unfold installKey in *. cbn in *.
  repeat (case_match; cbn in *; try discriminate); simplify_eq; cbn; rewrite ?H1, ?H2; try done; congruence.
Qed.

(** The key depends on the configuration and the key file only. *)
Lemma key_frame k s s' : key_inv k s → st_encryptionKey s' = st_encryptionKey s → st_require s' = st_require s →
  st_keyFile s' = st_keyFile s → st_key s' = st_key s ∨ st_key s' = None → key_inv k s'.
Proof.
  intros [H1 H2] E1 E2 E3 E4. split; [|destruct E4 as [-> | ->]; auto].
  intros fresh. rewrite <-(H1 fresh). destruct s, s'. cbn in *. subst. unfold installKey. cbn. repeat (case_match; cbn; try done).
Qed.

(** Loading reads the documents and leaves the key alone. *)
Lemma load_docs k s m n : holds k (mem s) m → holds k (disk s) n →
  let '(d, s') := load s in
  holds k d m ∧ holds k (mem s') m ∧ holds k (disk s') n ∧ st_cache s' = Some d ∧
  st_encryptionKey s' = st_encryptionKey s ∧ st_require s' = st_require s ∧ st_keyFile s' = st_keyFile s ∧ st_key s' = st_key s.
Proof.
  intros Hm Hd. unfold load, mem, disk in *. destruct (st_cache s) as [d|] eqn:E; [by rewrite E|].
  cbn [default] in Hm. destruct (st_file s) as [| |d] eqn:Ef; cbn; rewrite ?E, ?Ef; split_and!; try done.
  all: revert Hm; by apply holds_ext.
Qed.

Lemma load_spec k s v : inv k s v → let '(d, s') := load s in
  holds k d (live v) ∧ inv k s' v ∧ st_cache s' = Some d.
Proof.
  intros (Hk & Hm & Hd). pose proof (load_docs k s _ _ Hm Hd) as Hl. destruct (load s) as [d s'].
  destruct Hl as (H1 & H2 & H3 & H4 & E1 & E2 & E3 & E4). split; [done|]. split; [|done]. split; [|done].
  eapply key_frame; eauto.
Qed.

Lemma save_spec k w d s m v : key_inv k s → holds k d m → holds k (disk s) (saved v) → inv k (save w d s) (written w m v).
Proof.
  intros Hk Hm Hd. unfold inv, save, mem, disk, written in *. destruct w; cbn; split_and!; try done; eapply key_frame; eauto.
Qed.

Lemma metaFor_spec k id scope s v : inv k s v →
  inv k (metaFor id scope s).2 v ∧
  me_configured (metaFor id scope s).1 = bool_decide (is_Some (live v !! (scopeKey scope, to_lower id))).
Proof.
  intros H. unfold metaFor. pose proof (load_spec _ _ _ H) as Hl. destruct (load s) as [d s'].
  destruct Hl as ([_ H2 H3] & Hi & _). split; [done|]. cbn [fst]. rewrite H2, bucket_of_at.
  destruct (mget (bucket_at d (scopeKey scope)) (to_lower id)) as [r|] eqn:E; [|done].
  destruct (H3 _ _ _ E) as [p Ep]. cbn. rewrite Ep. done.
Qed.

Lemma foldl_meta_inv k scope v l : ∀ acc s, inv k s v →
  inv k (foldl (λ '(l, s) id, let '(m, s) := metaFor id scope s in ((l ++ [m])%list, s)) (acc, s) l).2 v.
Proof.
  induction l as [|id l IH]; intros acc s H; [done|]. cbn [foldl]. destruct (metaFor_spec k id scope s v H) as [Hi _].
  destruct (metaFor id scope s) as [m s']. by apply IH.
Qed.

Lemma getKey_spec fresh k id scope s v : inv k s v →
  (getKey fresh true id scope s).1 = default "" (live v !! (scopeKey scope, to_lower id)) ∧ inv k (getKey fresh true id scope s).2 v.
Proof.
  intros H. unfold getKey. pose proof (load_spec _ _ _ H) as Hl. destruct (load s) as [d s'].
  destruct Hl as ([_ H2 H3] & Hi & _). rewrite H2, <-bucket_of_at.
  destruct (mget (bucket_of d scope) (to_lower id) ≫= cr_enc) as [e|] eqn:E; [|done].
  destruct Hi as (Hk & Hm & Hd). destruct (install_key_spec fresh k s' Hk) as (s'' & -> & Hk' & Ec & Ef). cbn [fst snd]. split; [done|].
  unfold inv, mem, disk in *. by rewrite Ec, Ef.
Qed.

Lemma lower_twice s : to_lower (to_lower s) = to_lower s.
Proof.
  induction s as [|c s IH]; [done|]. cbn [to_lower]. rewrite IH. f_equal. clear.
  by destruct c as [[] [] [] [] [] [] [] []].
Qed.

(** A key is set under the installation key, the one there is or a new one. *)
Lemma setKey_good fresh k iv w now id key scope s v : validProvider id && good_key key = true →
  installs fresh k (load s).2 → holds k (mem s) (live v) → holds k (disk s) (saved v) →
  inv k (setKey fresh iv true w now id key scope s).2 (vault_step v (SetKey fresh iv true w now id key scope)).
Proof.
  intros Hgood Hins Hm0 Hd0. cbn [vault_step]. rewrite Hgood. apply andb_true_iff in Hgood as [Hv Hg].
  unfold setKey. assert (Ev : validProvider (to_lower id) = validProvider id) by (unfold validProvider; by rewrite lower_twice).
  rewrite Ev, Hv. unfold good_key in Hg. apply negb_true_iff in Hg. rewrite Hg. cbn [negb].
  pose proof (load_docs k s _ _ Hm0 Hd0) as Hl. destruct (load s) as [d s']. destruct Hl as (Hh & Hm & Hd & _).
  cbn [snd] in Hins. destruct Hins as (s'' & -> & Hk' & Ec & Ef).
  set (r := Credential _ _ _ _ _ _ _ _ _). set (d' := set_bucket _ _ _ _).
  assert (Hi : inv k (save w d' s'') (written w (<[(scopeKey scope, to_lower id) := key]> (live v)) v)).
  { apply save_spec; [done| |unfold disk in *; by rewrite Ef]. unfold d'.
    pose proof (holds_update k true scope (to_lower id) (Some r) (mset (bucket_of d scope) (to_lower id) r) d (live v) Hh) as Hu.
    cbn [mbind option_bind cr_enc r] in Hu. rewrite decrypt_encrypt in Hu.
    change (insert (scopeKey scope, to_lower id) key (live v)) with (partial_alter (λ _, Some key) (scopeKey scope, to_lower id) (live v)).
    apply Hu; [done|apply mwf_set, Hh| |].
    - intros j. rewrite mget_set. by repeat case_decide; try congruence.
    - intros r' [= <-]. cbn. by rewrite decrypt_encrypt. }
  destruct w; [|done]. destruct (metaFor_spec k id scope _ _ Hi) as [Hj _].
  by destruct (metaFor _ _ _).
Qed.

Lemma setKey_bad fresh iv kw w now id key scope s : validProvider id && good_key key = false →
  (setKey fresh iv kw w now id key scope s).2 = s.
Proof.
  intros H. unfold setKey. assert (Ev : validProvider (to_lower id) = validProvider id) by (unfold validProvider; by rewrite lower_twice).
  rewrite Ev. unfold good_key in H. destruct (validProvider id); [|done]. cbn [andb negb] in *.
  apply negb_false_iff in H. by rewrite H.
Qed.

Lemma bucket_empty id scope d (r : credential) : mget (bucket_of d scope) id = Some r → bucket_of d scope ≠ [].
Proof. by destruct (bucket_of d scope). Qed.

Lemma verify_spec k w now id p scope s v : inv k s v →
  inv k (recordVerification w now id p scope s).2 (vault_step v (Verify w now id p scope)).
Proof.
  intros H. unfold recordVerification. cbn [vault_step].
  pose proof (load_spec _ _ _ H) as Hl. destruct (load s) as [d s']. destruct Hl as (Hh & (Hk & Hm & Hd) & _).
  pose proof Hh as [_ H2 H3]. rewrite H2, <-bucket_of_at.
  destruct (mget (bucket_of d scope) (to_lower id)) as [r|] eqn:E; [|done].
  destruct (H3 _ _ _ E) as [pl Ep]. cbn [mbind option_bind]. rewrite Ep. rewrite bool_decide_true by done.
  set (r' := r <| cr_lastVerifiedAt := _ |> <| cr_lastCheckedAt := _ |> <| cr_lastStatus := _ |> <| cr_lastError := _ |>
    <| cr_lastLatencyMs := _ |> <| cr_modelCount := _ |>).
  assert (Er : cr_enc r' = cr_enc r) by done. clearbody r'. set (d' := set_bucket _ _ _ _).
  assert (Hi : inv k (save w d' s') (written w (live v) v)).
  { apply save_spec; [done| |done]. unfold d'.
    pose proof (holds_update k false scope (to_lower id) (Some r') (mset (bucket_of d scope) (to_lower id) r') d (live v) Hh) as Hu.
    cbn [mbind option_bind] in Hu. rewrite Er, Ep in Hu.
    rewrite <-(insert_id (live v) (scopeKey scope, to_lower id) pl); [|rewrite H2, <-bucket_of_at, E; cbn; by rewrite Ep].
    apply Hu; [|apply mwf_set, Hh| |].
    - intros _ Hb. by apply (bucket_empty _ _ _ _ E) in Hb.
    - intros j. rewrite mget_set. by repeat case_decide; try congruence.
    - intros ? [= <-]. by rewrite Er, Ep. }
  destruct w; [|done]. destruct (metaFor_spec k id scope _ _ Hi) as [Hj _].
  by destruct (metaFor _ _ _).
Qed.

Lemma remove_spec k w id scope s v : inv k s v → inv k (remove w id scope s).2 (vault_step v (Remove w id scope)).
Proof.
  intros H. unfold remove. cbn [vault_step].
  pose proof (load_spec _ _ _ H) as Hl. destruct (load s) as [d s']. destruct Hl as (Hh & (Hk & Hm & Hd) & _). cbn [snd].
  apply save_spec; [done| |done].
  apply (holds_update k false scope (to_lower id) None (mdelete (bucket_of d scope) (to_lower id)) d (live v) Hh).
  - intros _ ->. done.
  - apply mwf_delete, Hh.
  - intros j. rewrite mget_delete by apply Hh. by repeat case_decide; try congruence.
  - done.
Qed.

Lemma step_inv k s v o : key_saved o → inv k s v → inv k (step s o) (vault_step v o).
Proof.
  destruct o as [fresh iv kw w now id key scope|w now id pr scope|w id scope|fresh kw id scope|scope|]; cbn [step]; intros Hs H.
  - destruct Hs as [-> _]. destruct (validProvider id && good_key key) eqn:Hg.
    + destruct H as (Hk & Hm & Hd). apply (setKey_good fresh k); try done.
      apply install_key_spec. pose proof (load_spec k s v ltac:(done)) as Hl. destruct (load s). apply Hl.
    + rewrite setKey_bad by done. cbn [vault_step]. by rewrite Hg.
  - by apply verify_spec.
  - by apply remove_spec.
  - destruct Hs as [-> _]. by apply getKey_spec.
  - by apply foldl_meta_inv.
  - destruct H as (Hk & _ & Hd). split_and!; [|done..]. eapply key_frame; eauto.
Qed.

(** *** Before the first key *)

Lemma holds_blank k d : blank d → holds k d ∅.
Proof. intros H. split; intros key *; rewrite H; try done. apply NoDup_nil_2. Qed.

Definition empty_vault : vault := Vault ∅ ∅.
Definition fresh_store (s : store) : Prop := keyless s ∧ blank (mem s) ∧ blank (disk s).

Lemma keyless_frame s s' : keyless s → st_encryptionKey s' = st_encryptionKey s → st_require s' = st_require s →
  st_keyFile s' = st_keyFile s → st_key s' = None → keyless s'.
Proof.
  intros [H1 H2] E1 E2 E3 E4. split; [done|]. intros fresh. specialize (H2 fresh). destruct s, s'. cbn in *. subst.
  unfold installKey in *. cbn in *. repeat (case_match; cbn in *; try done); congruence.
Qed.

Lemma fresh_load s : fresh_store s → blank (load s).1 ∧ fresh_store (load s).2.
Proof.
  intros (Hk & Hm & Hd). unfold load, fresh_store, mem, disk in *. destruct (st_cache s) as [d|] eqn:E; [rewrite ?E in Hm |- *; cbn in Hm |- *; rewrite ?E; cbn; by split_and!|].
  rewrite ?E in Hm; cbn [default] in Hm. assert (blank (Doc [] [] true)) as Hb by (intros key; unfold bucket_at; cbn; by destruct (String.eqb key "default")).
  pose proof Hk as [Hk0 _].
  destruct (st_file s) as [| |d] eqn:Ef; cbn; rewrite ?E, ?Ef; split_and!; try done; eapply keyless_frame; eauto.
Qed.

Lemma fresh_meta id scope s : fresh_store s → fresh_store (metaFor id scope s).2.
Proof. intros H. apply fresh_load in H as [_ H]. unfold metaFor. by destruct (load s). Qed.

Lemma fresh_listMeta scope l : ∀ acc s, fresh_store s →
  fresh_store (foldl (λ '(l, s) id, let '(m, s) := metaFor id scope s in ((l ++ [m])%list, s)) (acc, s) l).2.
Proof.
  induction l as [|id l IH]; intros acc s H; [done|]. cbn [foldl].
  pose proof (fresh_meta id scope s H) as Hf. destruct (metaFor id scope s) as [m s']. by apply IH.
Qed.

Lemma blank_bucket d scope : blank d → bucket_of d scope = [].
Proof. intros H. apply H. Qed.

(** Until a key is set nothing is kept; the key set first installs the key. *)
Lemma step_fresh s o : key_saved o → fresh_store s →
  (fresh_store (step s o) ∧ vault_step empty_vault o = empty_vault) ∨ ∃ k, inv k (step s o) (vault_step empty_vault o).
Proof.
  intros Hs H. pose proof (fresh_load s H) as [L1 L2]. pose proof H as (Hk & Hm & Hd).
  destruct o as [fresh iv kw w now id key scope|w now id pr scope|w id scope|fresh kw id scope|scope|]; cbn [step].
  - destruct Hs as [-> Hf]. destruct (validProvider id && good_key key) eqn:Hg.
    + right. exists fresh. apply setKey_good; [done| |by apply holds_blank..].
      apply install_new; [done|]. by destruct L2.
    + left. rewrite setKey_bad by done. cbn [vault_step]. by rewrite Hg.
  - left. unfold recordVerification. destruct (load s) as [d s']. rewrite blank_bucket by done. cbn. split; [done|].
    by rewrite lookup_empty.
  - left. unfold remove. destruct (load s) as [d s']. rewrite blank_bucket by done. cbn [fst snd mdelete] in *.
    assert (blank (set_bucket false scope [] d)) as Hb.
    { intros key. rewrite (bucket_set false scope [] d key) by done. case_decide; [done|]. apply L1. }
    split.
    + destruct L2 as (Hk' & Hm' & Hd'). pose proof Hk' as [Hn _]. unfold fresh_store, save, mem, disk in *.
      destruct w; cbn; (split; [by eapply (keyless_frame s')|]); by split.
    + cbn [vault_step]. unfold written, empty_vault. cbn. rewrite delete_empty. by destruct w.
  - left. unfold getKey. destruct (load s) as [d s']. rewrite blank_bucket by done. by split.
  - left. split; [|done]. by apply fresh_listMeta.
  - left. split; [|done]. pose proof Hk as [Hn _]. split; [by eapply (keyless_frame s)|]. by split.
Qed.

Definition keeps_vault (s : store) (v : vault) : Prop :=
  (∃ k, inv k s v) ∨ (fresh_store s ∧ v = empty_vault).

Lemma run_inv ops : ∀ s v, (∀ o, o ∈ ops → key_saved o) → keeps_vault s v →
  keeps_vault (foldl step s ops) (foldl vault_step v ops).
Proof.
  induction ops as [|o ops IH]; intros s v Ho H; [done|]. cbn [foldl].
  assert (key_saved o) as Hs by (apply Ho; by left).
  apply IH; [intros o' Hin; apply Ho; by right|].
  destruct H as [[k H]|[H ->]]; [left; exists k; by apply step_inv|].
  destruct (step_fresh s o Hs H) as [[? ->]|?]; [by right|by left].
Qed.

Lemma new_store_inv ek req kf file s : new_store ek req kf file = Done s → (∀ d, file ≠ Holds d) → keeps_vault s empty_vault.
Proof.
  intros H Hf.
  assert (Hb : ∀ d, mem s = d → disk s = d → blank d →
    st_key s = None → (keyless s ∨ ∃ k, ∀ fresh, (installKey fresh true s).1 = Done k) → keeps_vault s empty_vault).
  { intros d E1 E2 Hb Hn [Hk|[k Hk]].
    - right. split; [|done]. unfold fresh_store. by rewrite E1, E2.
    - left. exists k. unfold inv. rewrite E1, E2. split; [|split; by apply holds_blank]. split; [|by left].
      assert (s <| st_key := None |> = s) as -> by (destruct s; cbn in Hn |- *; by rewrite Hn). done. }
  assert (blank empty_doc) as He by (intros key; unfold bucket_at; cbn; by destruct (String.eqb key "default")).
  unfold new_store in H.
  assert (Hl : ∀ k, parseEncryptionKey ek = Some k → truthy_str ek = true ∧ String.length k = 32%nat).
  { intros k Ek. split; [by destruct ek|]. clear H. unfold parseEncryptionKey in Ek.
    repeat case_match; simplify_eq; [by apply hex_32|by apply Nat.eqb_eq]. }
  destruct (parseEncryptionKey ek) as [k|] eqn:Ek; [|destruct req; [done|]]; injection H as <-;
    (apply (Hb empty_doc); [destruct file; try done; by destruct (Hf d)..|done|done|]).
  - right. exists k. intros fresh. destruct (Hl k eq_refl) as [Ht Hn]. unfold installKey. cbn. by rewrite Ht, Ek, Hn.
  - unfold keyless, installKey. cbn. rewrite Ek. destruct kf as [raw|]; cbn.
    + destruct (is_hex64 (trim raw)) eqn:Er.
      * right. exists (from_hex (trim raw)). intros fresh. by destruct (truthy_str ek).
      * left. split; [done|]. intros fresh. by destruct (truthy_str ek).
    + left. split; [done|]. intros fresh. by destruct (truthy_str ek).
Qed.

(** Whether a new key could be saved shows after a restart only. *)
Lemma getKey_writable fresh kw id scope s : (getKey fresh kw id scope s).1 = (getKey fresh true id scope s).1.
Proof.
  unfold getKey. destruct (load s) as [d s']. destruct (mget _ _ ≫= cr_enc) as [e|]; [|done].
  assert ((installKey fresh kw s').1 = (installKey fresh true s').1) as H by (unfold installKey; by repeat case_match).
  destruct (installKey fresh kw s') as [o1 s1], (installKey fresh true s') as [o2 s2]. cbn in H. subst. by destruct o2.
Qed.

Lemma keeps_getKey fresh kw id scope s v : keeps_vault s v →
  (getKey fresh kw id scope s).1 = default "" (live v !! (scopeKey scope, to_lower id)).
Proof.
  rewrite getKey_writable. intros [[k H]|[H ->]]; [by apply (getKey_spec fresh k)|].
  apply fresh_load in H as [H _]. unfold getKey. destruct (load s) as [d s']. rewrite blank_bucket by done.
  cbn. by rewrite lookup_empty.
Qed.

Lemma keeps_stored id scope s v : keeps_vault s v →
  (hasStored id scope s).1 = bool_decide (is_Some (live v !! (scopeKey scope, to_lower id))) ∧
  me_configured (metaFor id scope s).1 = bool_decide (is_Some (live v !! (scopeKey scope, to_lower id))).
Proof.
  intros [[k H]|[H ->]].
  - split; [|by apply (metaFor_spec k)]. unfold hasStored.
    pose proof (load_spec _ _ _ H) as Hl. destruct (load s) as [d s']. destruct Hl as ([_ H2 H3] & _). cbn [fst].
    rewrite H2, <-bucket_of_at. unfold mhas. apply bool_decide_ext.
    destruct (mget (bucket_of d scope) (to_lower id)) as [r|] eqn:E; cbn; [|done].
    destruct (H3 _ _ _ E) as [p Ep]. rewrite Ep. done.
  - apply fresh_load in H as [H _]. unfold hasStored, metaFor. destruct (load s) as [d s'].
    rewrite !blank_bucket by done. cbn. by rewrite lookup_empty.
Qed.

(** C17: The credential store is a vault. Take a store that started without a
    readable document, and any sequence of operations and restarts on it,
    whichever writes of the document failed, in which an installation key that had
    to be generated was saved to the key file. Then the key read for a provider
    and a scope is the last one set there and not removed since, and nothing when
    there is none, and the store says one is configured exactly when there is; a
    restart returns to what was last written. Keys are kept by provider and scope
    key: scopes that are blank, "default" or longer than 128 characters share the
    scope of the deployment. (When the key file cannot be written, a restart
    loses every key while the store still says it is configured.) *)
Theorem store_refines_vault ek req kf file s0 ops fresh kw id scope :
  new_store ek req kf file = Done s0 → (∀ d, file ≠ Holds d) → (∀ o, o ∈ ops → key_saved o) →
  let s := foldl step s0 ops in
  let v := foldl vault_step empty_vault ops in
  (getKey fresh kw id scope s).1 = default "" (live v !! (scopeKey scope, to_lower id)) ∧
  (hasStored id scope s).1 = bool_decide (is_Some (live v !! (scopeKey scope, to_lower id))) ∧
  me_configured (metaFor id scope s).1 = bool_decide (is_Some (live v !! (scopeKey scope, to_lower id))).
Proof.
  intros H Hf Ho s v. pose proof (run_inv ops _ _ Ho (new_store_inv _ _ _ _ _ H Hf)) as Hk. fold s v in Hk.
  split; [by apply keeps_getKey|by apply keeps_stored].
Qed.

(** ** The key of a provider call *)

(** Random bytes for the installation key, and whether it can be saved. *)
Context (fresh : string) (kw : bool).

(** Keys of the environment, and [config.providers[id].apiKey] as it was left at
    boot; nothing assigns it afterwards. *)
Record boot := Boot { bt_env : list (string * string); bt_config : list (string * string) }.

(* [src/backend/server.js:119-127] applyStoredKeys *)
Definition applyStoredKeys (env : list (string * string)) (s : store) : boot * store :=
  let '(c, s) := foldl (λ '(c, s) id, let '(stored, s) := getKey fresh kw id "default" s in
                   (mset c id (or_str stored (or_str (default "" (mget env id)) "")), s)) ([], s) SUPPORTED_PROVIDERS in
  (Boot env c, s).

(* [src/backend/server.js:132-135] effectiveKey *)
Definition effectiveKey (b : boot) (providerId : string) : string := default "" (mget (bt_config b) (to_lower providerId)).

(** The stored key of the scope; in the deployment scope, and only there, the key
    of the environment and then the one applied at boot. *)
(* [src/backend/server.js:558-567] credentialResolver *)
Definition resolveKey (b : boot) (providerId scope : string) (s : store) : string * store :=
  let id := to_lower providerId in
  let '(scopedKey, s) := getKey fresh kw id scope s in
  (or_str scopedKey (if String.eqb scope "default" then or_str (default "" (mget (bt_env b) id)) (effectiveKey b id) else ""), s).

(** Connecting: the candidate is checked with the provider, then stored, and the
    outcome recorded; a candidate that fails is recorded against what is stored. *)
(* [src/backend/server.js:1655-1691] POST /api/providers/:id/connect *)
Definition connectProvider (iv : string) (w : bool) (now : Z) (pid candidate scope : string) (verified : probe) (s : store) : store :=
  if pb_ok verified then
    match setKey fresh iv kw w now pid candidate scope s with
    | (Done _, s) => (recordVerification w now pid verified scope s).2
    | (Thrown _, s) => (recordVerification w now pid (Probe false "verification failed" (pb_latencyMs verified) None) scope s).2
    end
  else (recordVerification w now pid verified scope s).2.

(* [src/backend/server.js:1692-1701] DELETE /api/providers/:id *)
Definition disconnectProvider (w : bool) (pid scope : string) (s : store) : outcome bool * store := remove w pid scope s.

(** A key in the vault was put there by an operation. *)
Definition kept_in (v : vault) (k : string * string) (key : string) : Prop := live v !! k = Some key ∨ saved v !! k = Some key.
Definition set_by (ops : list op) (k : string * string) (key : string) : Prop :=
  ∃ f iv kw0 w now pid sc, SetKey f iv kw0 w now pid key sc ∈ ops ∧ (scopeKey sc, to_lower pid) = k.

Lemma step_origin v o k key : kept_in (vault_step v o) k key → kept_in v k key ∨ set_by [o] k key.
Proof.
  unfold kept_in. destruct o as [f iv kw0 w now id nk sc|w now id p sc|w id sc|f kw0 id sc|sc|]; cbn [vault_step]; [| | |tauto|tauto|cbn; tauto].
  - assert (Hs : (scopeKey sc, to_lower id) = k → nk = key → set_by [SetKey f iv kw0 w now id nk sc] k key).
    { intros <- <-. exists f, iv, kw0, w, now, id, sc. split; [by left|done]. }
    destruct (_ && _); [|tauto]. unfold written. destruct w; cbn; rewrite !lookup_insert_Some; tauto.
  - case_bool_decide; [|tauto]. unfold written. destruct w; cbn; tauto.
  - unfold written. destruct w; cbn; rewrite !lookup_delete_Some; tauto.
Qed.

Lemma run_origin ops k key : ∀ v, kept_in (foldl vault_step v ops) k key → kept_in v k key ∨ set_by ops k key.
Proof.
  induction ops as [|o ops IH]; intros v H; [by left|]. destruct (IH _ H) as [H'|(f & iv & kw0 & w & now & pid & sc & Hi & E)].
  - destruct (step_origin _ _ _ _ H') as [?|(f & iv & kw0 & w & now & pid & sc & Hi & E)]; [by left|].
    right. exists f, iv, kw0, w, now, pid, sc. split; [|done]. set_solver.
  - right. exists f, iv, kw0, w, now, pid, sc. split; [|done]. by right.
Qed.

(** The key of a call of a tenant is the last one its scope stored and did not remove. *)
Lemma resolved_key ek req kf file s0 ops b id scope :
  new_store ek req kf file = Done s0 → (∀ d, file ≠ Holds d) → (∀ o, o ∈ ops → key_saved o) → scope ≠ "default" →
  let s := foldl step s0 ops in
  let v := foldl vault_step empty_vault ops in
  (resolveKey b id scope s).1 = default "" (live v !! (scopeKey scope, to_lower id)) ∧
  ((resolveKey b id scope s).1 ≠ "" →
   set_by ops (scopeKey scope, to_lower id) (resolveKey b id scope s).1).
Proof.
  intros H Hf Ho Hs s v. pose proof (run_inv ops _ _ Ho (new_store_inv _ _ _ _ _ H Hf)) as Hk. fold s v in Hk.
  assert (E : (resolveKey b id scope s).1 = default "" (live v !! (scopeKey scope, to_lower id))).
  { unfold resolveKey. pose proof (keeps_getKey fresh kw (to_lower id) scope s v Hk) as E. rewrite lower_twice in E.
    destruct (getKey fresh kw (to_lower id) scope s) as [key s']. cbn [fst] in *.
    destruct (String.eqb_spec scope "default"); [done|]. rewrite <-E. by destruct key. }
  split; [done|]. rewrite E. intros Hn. destruct (live v !! _) as [key|] eqn:El; [|done].
  destruct (run_origin ops (scopeKey scope, to_lower id) key empty_vault) as [[Hv|Hv]|Hv]; [by left|by cbn in Hv; rewrite lookup_empty in Hv..|done].
Qed.
End Store.
Arguments Done {A} _.
Arguments Thrown {A} _.

(** ** Checks on concrete values *)

Definition key32 : string := "0123456789abcdef0123456789abcdef".
Definition zeros : string := "0000000000000000000000000000000000000000000000000000000000000000".
Definition box : Type := string * string * string.
Definition seal (k iv p : string) : box := (k, iv, p).
Definition unseal (k : string) (e : box) : option string := if String.eqb k e.1.1 then Some e.2 else None.
Definition demo_run := foldl (step seal unseal (λ _, key32) (λ _, "") (λ _, zeros)).
Definition demo_store : store := Store (sealed := box) "" false None None None Missing 0.
Definition long_scope : string := Nat.iter 129 (String "x") "".

Lemma unseal_seal k iv p : unseal k (seal k iv p) = Some p.
Proof. unfold unseal, seal. cbn. by rewrite String.eqb_refl. Qed.

(** A scope longer than 128 characters shares the keys of the deployment. *)
Example long_scope_shares :
  (getKey unseal (λ _, key32) (λ _, "") (λ _, zeros) key32 true "openai" "default"
     (demo_run demo_store [SetKey key32 "i" true true 1 "OpenAI" "sk-tenant-key" long_scope])).1 = "sk-tenant-key".
Proof. vm_compute. reflexivity. Qed.

(** Removing the key of the deployment leaves the one applied at boot in use. *)
Example removed_key_still_used :
  let s := demo_run demo_store [SetKey key32 "i" true true 1 "openai" "sk-deploy-key" "default"; Restart] in
  let b := applyStoredKeys unseal (λ _, key32) (λ _, "") (λ _, zeros) key32 true [] s in
  let s := (disconnectProvider true "openai" "default" b.2).2 in
  (hasStored "openai" "default" s).1 = false ∧
  (resolveKey unseal (λ _, key32) (λ _, "") (λ _, zeros) key32 true b.1 "openai" "default" s).1 = "sk-deploy-key".
Proof. vm_compute. by split. Qed.

(** A key whose write failed, and which the caller was told was not stored, is used
    until the next restart. *)
Example failed_write_is_used :
  let s := demo_run demo_store [SetKey key32 "i" true false 1 "openai" "sk-unsaved-key" "default"] in
  let get s := (getKey unseal (λ _, key32) (λ _, "") (λ _, zeros) key32 true "openai" "default" s).1 in
  (setKey seal (λ _, key32) (λ _, "") (λ _, zeros) key32 "i" true false 1 "openai" "sk-unsaved-key" "default" demo_store).1 = (Thrown "io" : outcome meta) ∧
  get s = "sk-unsaved-key" ∧ get (restart s) = "".
Proof. vm_compute. done. Qed.

Definition demo_ops : list op :=
  [SetKey key32 "i" true true 1 "OpenAI" "sk-acme-key-1" "acme"; SetKey key32 "j" true true 2 "openai" "sk-umbrella-1" "umbrella";
   SetKey key32 "k" true true 3 "openai" "short" "acme"; Restart; Remove true "openai" "umbrella"].

Lemma demo_hex s : is_hex64 s = true → String.length ((λ _, key32) s) = 32%nat.
Proof. done. Qed.
Lemma demo_new : new_store (sealed := box) (λ _, key32) (λ _, "") "" false None Missing = Done demo_store.
Proof. done. Qed.
Lemma demo_vault : live (foldl vault_step empty_vault demo_ops) !! (scopeKey "acme", to_lower "openai") = Some "sk-acme-key-1".
Proof. vm_compute. reflexivity. Qed.

Lemma store_refines_vault_witness :
  let s := demo_run demo_store demo_ops in
  (getKey unseal (λ _, key32) (λ _, "") (λ _, zeros) key32 true "openai" "acme" s).1 =
    default "" (live (foldl vault_step empty_vault demo_ops) !! (scopeKey "acme", to_lower "openai")) ∧
  live (foldl vault_step empty_vault demo_ops) !! (scopeKey "acme", to_lower "openai") = Some "sk-acme-key-1".
Proof.
  split; [|exact demo_vault].
  apply (store_refines_vault seal unseal (λ _, key32) (λ _, "") (λ _, zeros) unseal_seal demo_hex
    "" false None Missing demo_store demo_ops key32 true "openai" "acme" demo_new).
  - intros d Hd. discriminate Hd.
  - intros o Ho. unfold demo_ops in Ho. repeat (apply elem_of_cons in Ho as [->|Ho]; [by vm_compute|]). by apply not_elem_of_nil in Ho.
Defined.

(** A key file that cannot be written: the key works until a restart; then new
    random bytes make another installation key, the stored one no longer opens,
    and the store still says the provider is configured. *)
Example lost_installation_key :
  let s := demo_run demo_store [SetKey key32 "i" false true 1 "openai" "sk-deploy-key" "default"] in
  let get rnd s := (getKey unseal (λ _, key32) (λ _, "") (λ _, zeros) rnd false "openai" "default" s).1 in
  get "other-bytes" s = "sk-deploy-key" ∧ get "other-bytes" (restart s) = "" ∧
  (hasStored "openai" "default" (restart s)).1 = true.
Proof. vm_compute. done. Qed.
