(* ===== verification/Sse.v ===== *)
(** Server-sent events of model providers (backend/src/providers/provider-adapter.js,
    [parseSseData]): a buffer of text is cut into frames at blank lines, the data
    of each frame is parsed, and what follows the last blank line is kept for the
    next piece of the network.

    [JSON.parse] is an argument; [None] is a [SyntaxError]. *)

From S2P Require Import Prelude JsMap JsValue Text.

Local Open Scope string_scope.
Local Open Scope js_scope.

Definition cr : ascii := "013"%char.

(** [s.replace(/\r\n/g, '\n')] *)
Fixpoint crlf_to_lf (s : string) : string :=
  match s with
  | String c (String d s' as t) =>
      if bool_decide (c = cr ∧ d = newline) then String newline (crlf_to_lf s') else String c (crlf_to_lf t)
  | _ => s
  end.

(** [s.replace(/\r/g, '\n')] *)
Fixpoint cr_to_lf (s : string) : string :=
  match s with EmptyString => "" | String c s' => String (if bool_decide (c = cr) then newline else c) (cr_to_lf s') end.

Definition normalize_lines (s : string) : string := cr_to_lf (crlf_to_lf s).

Definition cons_first (c : ascii) (l : list string) : list string :=
  match l with w :: l => String c w :: l | [] => [String c ""] end.

(** [s.split('\n\n')], from the left, without overlap. *)
Fixpoint split_blank (s : string) : list string :=
  match s with
  | String c (String d s' as t) =>
      if bool_decide (c = newline ∧ d = newline) then "" :: split_blank s' else cons_first c (split_blank t)
  | _ => [s]
  end.

(** [line.slice(5).replace(/^ /, '')] *)
Definition data_of (line : string) : string :=
  let rest := string_drop 5 line in
  match rest with String c r => if bool_decide (c = " "%char) then r else rest | EmptyString => "" end.

Section Parse.
Context (parse : string → option jsval).

(** The values of one frame: none when it has no data or its data is malformed. *)
(* [src/backend/src/providers/provider-adapter.js:101-112] frame *)
Definition frame_events (frame : string) : list jsval :=
  let dataLines :=
    data_of <$> List.filter (λ line, truthy_str line && negb (starts_with ":" line) && starts_with "data:" line)
                  (split_on newline frame) in
  match dataLines with
  | [] => []
  | _ =>
      let raw := trim (js_join (String newline "") dataLines) in
      if negb (truthy_str raw) then []
      else if String.eqb raw "[DONE]" then [JObj [("done", JBool true)]]
      else option_list (parse raw)
  end.

Definition remainder_of (normalized : string) : string := List.last (split_blank normalized) "".
Definition frames_of (normalized : string) : list string := removelast (split_blank normalized).

(* [src/backend/src/providers/provider-adapter.js:87-114] parseSseData *)
Definition parseSseData (flush : bool) (buffer : string) : list jsval * string :=
  let normalized := normalize_lines buffer in
  let hasDelimiter := contains (String newline (String newline "")) normalized in
  let frames := frames_of normalized in
  let remainder := remainder_of normalized in
  if flush && negb hasDelimiter && truthy_str (trim remainder)
  then (concat (frame_events <$> (frames ++ [remainder])%list), "")
  else (concat (frame_events <$> frames), remainder).

(** The loop over the pieces of a response: what is left of the buffer comes
    first in the next one. *)
(* [src/backend/src/providers/provider-adapter.js:424-428] OpenAICompatibleAdapter *)
Definition feed (st : list jsval * string) (chunk : string) : list jsval * string :=
  let '(events, buffer) := st in
  let '(fresh, rest) := parseSseData false (buffer ++ chunk) in ((events ++ fresh)%list, rest).
Definition feed_all (chunks : list string) : list jsval * string := foldl feed ([], "") chunks.
Definition joined (chunks : list string) : string := foldr String.append "" chunks.
End Parse.

(** ** Cutting commutes with appending *)

Lemma joined_app l k : joined (l ++ k) = joined l ++ joined k.
Proof. induction l as [|s l IH]; [done|]. cbn [joined foldr app]. unfold joined in IH. by rewrite IH, string_app_assoc. Qed.

Definition ends_with_cr (s : string) : Prop := ∃ p, s = p ++ String cr "".
Definition starts_with_lf (s : string) : Prop := ∃ q, s = String newline q.

(** Strings by two characters at a time. *)
Lemma string_ind2 (P : string → Prop) : P "" → (∀ c, P (String c "")) →
  (∀ c d s, P s → P (String d s) → P (String c (String d s))) → ∀ s, P s.
Proof.
  intros H0 H1 H2 s. assert (P s ∧ ∀ c, P (String c s)) as [? _]; [|done].
  induction s as [|d s [IH IH']]; [done|]. split; [done|]. intros c. by apply H2.
Qed.

Lemma crlf_two c d s : crlf_to_lf (String c (String d s)) =
  if bool_decide (c = cr ∧ d = newline) then String newline (crlf_to_lf s) else String c (crlf_to_lf (String d s)).
Proof. done. Qed.

Lemma crlf_cons c s : ¬ (c = cr ∧ starts_with_lf s) → crlf_to_lf (String c s) = String c (crlf_to_lf s).
Proof.
  intros H. destruct s as [|d s]; [done|]. rewrite crlf_two.
  rewrite bool_decide_false; [done|]. intros [-> ->]. apply H. split; [done|]. by exists s.
Qed.

Lemma crlf_app a b : ¬ (ends_with_cr a ∧ starts_with_lf b) → crlf_to_lf (a ++ b) = crlf_to_lf a ++ crlf_to_lf b.
Proof.
  revert a. apply (string_ind2 (λ a, ¬ (ends_with_cr a ∧ starts_with_lf b) → crlf_to_lf (a ++ b) = crlf_to_lf a ++ crlf_to_lf b)).
  - done.
  - intros c H. change (crlf_to_lf (String c b) = String c (crlf_to_lf b)). rewrite crlf_cons; [done|].
    intros [-> Hb]. apply H. split; [by exists ""|done].
  - intros c d s IH IH' H.
    assert (Hs : ∀ t, ends_with_cr s → ends_with_cr (t ++ s)) by (intros t [p ->]; exists (t ++ p); by rewrite string_app_assoc).
    change (String c (String d s) ++ b) with (String c (String d (s ++ b))).
    rewrite !crlf_two.
    case_bool_decide.
    + rewrite IH; [done|]. intros [He Hb]. apply H. split; [|done]. apply (Hs (String c (String d ""))), He.
    + change (String d (s ++ b)) with (String d s ++ b). rewrite IH'; [done|].
      intros [[p Hp] Hb]. apply H. split; [|done]. exists (String c p). by rewrite Hp.
Qed.

Lemma cr_app a b : cr_to_lf (a ++ b) = cr_to_lf a ++ cr_to_lf b.
Proof.
  induction a as [|c a IH]; [done|]. change (String c a ++ b) with (String c (a ++ b)). cbn [cr_to_lf]. by rewrite IH.
Qed.

Lemma normalize_app a b : ¬ (ends_with_cr a ∧ starts_with_lf b) → normalize_lines (a ++ b) = normalize_lines a ++ normalize_lines b.
Proof. intros H. unfold normalize_lines. by rewrite crlf_app, cr_app. Qed.

Fixpoint no_cr (s : string) : bool := match s with EmptyString => true | String c s' => negb (bool_decide (c = cr)) && no_cr s' end.

Lemma normalized_no_cr s : no_cr (normalize_lines s) = true.
Proof.
  unfold normalize_lines. generalize (crlf_to_lf s). clear s. intros s. induction s as [|c s IH]; [done|]. cbn.
  rewrite IH, andb_true_r. apply negb_true_iff, bool_decide_eq_false. case_bool_decide as E; [discriminate|done].
Qed.

Lemma normalize_id s : no_cr s = true → normalize_lines s = s.
Proof.
  intros H. unfold normalize_lines. assert (E : crlf_to_lf s = s).
  { induction s as [|c s IH]; [done|]. cbn [no_cr] in H. apply andb_true_iff in H as [Hc Hs].
    rewrite crlf_cons; [by rewrite IH|]. intros [-> _]. by rewrite bool_decide_true in Hc. }
  rewrite E. clear E. induction s as [|c s IH]; [done|]. cbn in *. apply andb_true_iff in H as [Hc Hs]. rewrite (IH Hs).
  by destruct (bool_decide (c = cr)).
Qed.

Lemma split_two c d s : split_blank (String c (String d s)) =
  if bool_decide (c = newline ∧ d = newline) then "" :: split_blank s else cons_first c (split_blank (String d s)).
Proof. done. Qed.

Lemma split_cons s : ∃ w l, split_blank s = w :: l.
Proof.
  destruct s as [|c [|d s]]; [by exists "", []..|by eexists _, []|]. rewrite split_two. case_bool_decide; [by eauto|].
  destruct (split_blank (String d s)); cbn; eauto.
Qed.

Lemma split_app a b : split_blank (a ++ b) = (frames_of a ++ split_blank (remainder_of a ++ b))%list.
Proof.
  unfold frames_of, remainder_of. revert a. apply string_ind2.
  - done.
  - done.
  - intros c d s IH IH'.
    change (String c (String d s) ++ b) with (String c (String d (s ++ b))). rewrite !split_two. case_bool_decide.
    + rewrite IH. destruct (split_cons s) as (w & l & ->). done.
    + change (String d (s ++ b)) with (String d s ++ b). rewrite IH'.
      destruct (split_cons (String d s)) as (w & [|v l] & E); rewrite E; [|done].
      cbn [cons_first removelast app List.last]. clear IH IH'.
      assert (Ew : w = String d s).
      { revert E. clear. generalize (String d s). intros t. revert w. revert t.
        apply (string_ind2 (λ t, ∀ w, split_blank t = [w] → w = t)).
        - by intros w [= <-].
        - by intros c w [= <-].
        - intros x y t IH IH' w. rewrite split_two. case_bool_decide.
          { destruct (split_cons t) as (? & ? & ->). discriminate. }
          destruct (split_cons (String y t)) as (w' & l' & E). rewrite E. cbn. intros [= <- ->]. by rewrite (IH' _ E). }
      subst w. change (String c (String d s) ++ b) with (String c (String d (s ++ b))). rewrite split_two.
      by rewrite bool_decide_false.
Qed.

Lemma last_append {A} (l : list A) x k d : List.last (l ++ x :: k) d = List.last (x :: k) d.
Proof. induction l as [|y l IH]; [done|]. cbn [app]. rewrite <-IH. by destruct (l ++ x :: k)%list eqn:E; [destruct l|]. Qed.

Lemma frames_app a b : frames_of (a ++ b) = (frames_of a ++ frames_of (remainder_of a ++ b))%list ∧
  remainder_of (a ++ b) = remainder_of (remainder_of a ++ b).
Proof.
  unfold frames_of, remainder_of. rewrite split_app. fold (remainder_of a). fold (frames_of a).
  destruct (split_cons (remainder_of a ++ b)) as (w & l & ->). split.
  - by rewrite removelast_app.
  - by apply last_append.
Qed.

Lemma no_cr_remainder s : no_cr s = true → no_cr (remainder_of s) = true.
Proof.
  unfold remainder_of. revert s. apply (string_ind2 (λ s, no_cr s = true → no_cr (List.last (split_blank s) "") = true)).
  - done.
  - by intros c.
  - intros c d s IH IH' H. rewrite split_two. cbn [no_cr] in H. apply andb_true_iff in H as [Hc H]. pose proof H as H'.
    apply andb_true_iff in H' as [Hd Hs]. specialize (IH Hs). specialize (IH' H). destruct (bool_decide (c = newline ∧ d = newline)).
    + destruct (split_cons s) as (w & l & E). rewrite E in IH |- *. done.
    + destruct (split_cons (String d s)) as (w & [|v l] & E); rewrite E in IH' |- *; [|done]. cbn in *. by rewrite Hc, IH'.
Qed.

(** No piece ends between a carriage return and its line feed. *)
Definition whole_line_ends (chunks : list string) : Prop :=
  ∀ l k, chunks = (l ++ k)%list → ¬ (ends_with_cr (joined l) ∧ starts_with_lf (joined k)).

Lemma joined_one s : joined [s] = s.
Proof. apply string_app_nil_r. Qed.

Lemma whole_line_ends_init chunks c : whole_line_ends (chunks ++ [c])%list → whole_line_ends chunks.
Proof.
  intros H l k -> [H1 [q Hq]]. apply (H l (k ++ [c])%list); [by rewrite app_assoc|]. split; [done|].
  rewrite joined_app, Hq. by exists (q ++ joined [c]).
Qed.

Lemma no_cr_app a b : no_cr (a ++ b) = no_cr a && no_cr b.
Proof. induction a as [|c a IH]; [done|]. change (String c a ++ b) with (String c (a ++ b)). cbn [no_cr]. by rewrite IH, andb_assoc. Qed.

Lemma no_cr_whole chunks : no_cr (joined chunks) = true → whole_line_ends chunks.
Proof.
  intros H l k -> [[p Hp] _]. rewrite joined_app, Hp, !no_cr_app in H. cbn in H. by rewrite andb_false_r in H.
Qed.

Section Chunks.
Context (parse : string → option jsval).

Lemma feed_all_whole chunks : whole_line_ends chunks →
  let n := normalize_lines (joined chunks) in
  feed_all parse chunks = (concat (frame_events parse <$> frames_of n), remainder_of n).
Proof.
  induction chunks as [|c chunks IH] using rev_ind; intros H; [done|]. cbn zeta. unfold feed_all.
  rewrite foldl_app. fold (feed_all parse chunks). rewrite (IH (whole_line_ends_init _ _ H)).
  set (n := normalize_lines (joined chunks)).
  assert (E : normalize_lines (joined (chunks ++ [c])) = n ++ normalize_lines c).
  { rewrite joined_app, joined_one. apply normalize_app. rewrite <-(joined_one c). by apply H. }
  cbn [foldl feed]. unfold parseSseData. cbn [andb].
  assert (Er : normalize_lines (remainder_of n ++ c) = remainder_of n ++ normalize_lines c).
  { assert (Hr : no_cr (remainder_of n) = true) by apply no_cr_remainder, normalized_no_cr.
    rewrite normalize_app; [by rewrite (normalize_id _ Hr)|]. intros [[p Ep] _].
    rewrite Ep, no_cr_app in Hr. by rewrite andb_false_r in Hr. }
  rewrite Er, E. destruct (frames_app n (normalize_lines c)) as [-> ->]. by rewrite fmap_app, concat_app.
Qed.

Lemma fed_whole chunks : whole_line_ends chunks → feed_all parse chunks = feed_all parse [joined chunks].
Proof.
  intros H. rewrite (feed_all_whole chunks H), (feed_all_whole [joined chunks]); [by rewrite joined_one|].
  intros l k E. destruct l as [|x l]; [by intros [[p Hp] _]; destruct p|].
  destruct l, k; try done. by intros [_ [q Hq]].
Qed.
End Chunks.

(** ** Checks on concrete values *)

Definition demo_parse (s : string) : option jsval :=
  if String.eqb s "1" then Some (JNum 1)
  else if String.eqb s ("{" ++ String newline "}") then Some (JObj [])
  else if String.eqb s "null" then Some JNull else None.
Definition lf : string := String newline "".
Definition crs : string := String cr "".

(** A carriage return at the end of a piece is taken for a line end, and the line
    feed that follows for another: a value over two lines is cut in two. *)
Example split_line_end :
  feed_all demo_parse ["data: {" ++ crs; lf ++ "data: }" ++ crs ++ lf ++ crs ++ lf] = ([], "") ∧
  feed_all demo_parse ["data: {" ++ crs ++ lf ++ "data: }" ++ crs ++ lf ++ crs ++ lf] = ([JObj []], "").
Proof. vm_compute. by split. Qed.

Example comments_and_done :
  feed_all demo_parse [": ping" ++ lf ++ lf ++ "data: 1" ++ lf; lf ++ "data: oops" ++ lf ++ lf ++ "data: [DO"; "NE]" ++ lf ++ lf ++ "dat"] =
  ([JNum 1; JObj [("done", JBool true)]], "dat").
Proof. vm_compute. reflexivity. Qed.
