(* ===== verification/Providers.v ===== *)
(** Clients of model providers (backend/src/providers/provider-adapter.js): the
    classification of failures, the check of requests, the normal form of a
    completion, the conversation as Anthropic expects it, and the registry that
    chooses the adapter of a run.

    The network is an argument: a call is answered by a status and a body, aborted,
    or fails. [JSON.parse] is an argument. Numbers of a payload are integers; a
    fractional one stands here as the string of its digits, which [Number] reads
    alike. Headers and base addresses are left out, except for the key. *)

From S2P Require Import Prelude JsMap JsValue Text Regex Number Credentials.

Local Open Scope string_scope.
Local Open Scope js_scope.

(** ** Numbers of a payload *)

(** [digits.digits] as a quotient of integers. *)
Definition decimal (s : string) : num :=
  match split_on "."%char s with
  | [a] => match Z_of_string a with Some n => of_Z n | None => NaN end
  | [a; b] => match Z_of_string (a ++ b) with
              | Some n => if any_char (λ c, negb (digit c)) b || negb (truthy_str b) then NaN
                          else ratio n (10 ^ Z.of_nat (String.length b))
              | None => NaN
              end
  | _ => NaN
  end.

(** [Number(v)]; exponents and arrays aside. *)
Definition to_num (v : jsval) : num :=
  match v with
  | JNull | JBool false => nzero
  | JBool true => of_Z 1
  | JNum n => of_Z n
  | JStr s => let s := trim s in if truthy_str s then decimal s else nzero
  | JUndef | JArr _ | JObj _ => NaN
  end.

Definition is_nullish (v : jsval) : bool := match v with JUndef | JNull => true | _ => false end.
(** [a ?? b] and [a || b] *)
Definition nullish_or (a b : jsval) : jsval := if is_nullish a then b else a.
Definition or_val (a b : jsval) : jsval := if truthy_val a then a else b.

(** ** Errors *)

(* [src/backend/src/providers/provider-adapter.js:42-50] ProviderError *)
Record perror := PError { pe_code : string; pe_retryable : bool; pe_status : option Z; pe_message : string }.

(** [s.split(p).join(r)] for a non-empty [p]. *)
Fixpoint replace_text (n : nat) (p r s : string) : string :=
  match n, s with
  | S n, String c s' =>
      if String.prefix p s then r ++ replace_text n p r (string_drop (String.length p) s) else String c (replace_text n p r s')
  | _, _ => s
  end.

(* [src/backend/src/providers/provider-adapter.js:31-35] safeProviderDetail *)
Definition safeProviderDetail (apiKey detail : string) : string :=
  slice0 (Z.to_nat 300)
    (redact (if truthy_str apiKey then replace_text (String.length detail) apiKey "[REDACTED]" detail else detail)).

(* [src/backend/src/providers/provider-adapter.js:57-66] classifyHttpStatus *)
Definition classifyHttpStatus (status : Z) : string * bool :=
  (if (status =? 401) || (status =? 403) then ("auth", false)
   else if status =? 429 then ("rate_limit", true)
   else if status =? 408 then ("timeout", true)
   else if status =? 409 then ("conflict", false)
   else if (status =? 400) || (status =? 422) then ("bad_request", false)
   else if status =? 404 then ("not_found", false)
   else if 500 <=? status then ("unavailable", true)
   else ("unknown", false))%Z.

Definition access_pattern : re :=
  parse_i "no endpoints found|unknown model|invalid model|model .*not (found|supported|available)|model .*unavailable".
Definition model_pattern : re := parse_i "model".

(* [src/backend/src/providers/provider-adapter.js:171-186] isModelAccessFailure *)
Definition isModelAccessFailure (status : Z) (detail : string) : bool :=
  if negb (truthy_str detail) then false
  else if (status =? 404)%Z then true
  else if ((status =? 400)%Z || (status =? 422)%Z) && test access_pattern detail then true
  else (status =? 403)%Z && test model_pattern detail.

(** How a request ends: answered, aborted (by the caller or by the timer), or lost. *)
Inductive reply := Reply (status : Z) (body : string) | Aborted (caller : bool) | Lost.

Section Adapter.
Context (parse : string → option jsval).
Context (pid apiKey : string).

Definition fail (code : string) (retryable : bool) (status : option Z) (msg : string) : perror :=
  PError code retryable status (pid ++ msg).

(** What a refusal says: the message, the code or the text of [data.error]. *)
Definition error_detail (status : Z) (data : jsval) : string :=
  let err := prop data "error" in
  if truthy_val err then
    safeProviderDetail apiKey
      (let m := or_val (prop err "message") (prop err "code") in
       if truthy_val m then to_string m else default "" (json_stringify err))
  else "HTTP " ++ string_of_Z status.

Definition refusal (status : Z) (data : jsval) : perror :=
  let detail := error_detail status data in
  let cls := if isModelAccessFailure status detail then ("model_unavailable", false) else classifyHttpStatus status in
  fail cls.1 cls.2 (Some status) (" request failed: " ++ detail).

Definition ok_status (status : Z) : bool := ((200 <=? status) && (status <? 300))%Z.

(** A lost or aborted request. *)
Definition transport_error (r : reply) : perror :=
  match r with
  | Aborted true => fail "cancelled" false None " request cancelled"
  | Aborted false => fail "timeout" true None " request timed out"
  | _ => fail "unavailable" true None " network error"
  end.

(* [src/backend/src/providers/provider-adapter.js:258-303] _fetchJson *)
Definition fetchJson (r : reply) : perror + jsval :=
  match r with
  | Reply status body =>
      let data := if truthy_str body then match parse body with Some d => d | None => JObj [("raw", JStr (slice0 (Z.to_nat 500) body))] end
                  else JNull in
      if ok_status status then inr data else inl (refusal status data)
  | _ => inl (transport_error r)
  end.

(** The response of a stream is open, or the request has failed as above. *)
(* [src/backend/src/providers/provider-adapter.js:308-346] _openStream *)
Definition openStream (r : reply) : perror + unit :=
  match r with
  | Reply status body =>
      if ok_status status then inr tt
      else inl (refusal status (if truthy_str body then default JNull (parse body) else JNull))
  | _ => inl (transport_error r)
  end.

(* [src/backend/src/providers/provider-adapter.js:242-249] healthCheck *)
Definition healthCheck (verify : perror + unit) : bool * option string :=
  match verify with inr _ => (true, None) | inl e => (false, Some (or_str (pe_code e) "unknown")) end.

(** ** Requests *)

Record request := Request {
  rq_model : option string; rq_messages : jsval; rq_temperature : option num; rq_maxTokens : jsval; rq_timeoutMs : jsval;
  rq_tools : list jsval; rq_jsonMode : bool;
}.

Definition bad_request (msg : string) : perror := PError "bad_request" false None msg.
Definition in_limit (limit : Z) (v : jsval) : bool :=
  match v with JUndef => true | JNum n => ((0 <? n) && (n <=? limit))%Z | _ => false end.
Definition shaped (m : jsval) : bool :=
  truthy_val m && is_string (prop m "role") && match prop m "content" with JUndef => false | _ => true end.

(* [src/backend/src/providers/provider-adapter.js:215-236] validateCompleteRequest *)
Definition validateCompleteRequest (q : request) : option perror :=
  match rq_messages q with
  | JArr ms =>
      if negb (forallb shaped ms) then Some (bad_request "each message requires { role, content }")
      else if negb (in_limit 128000 (rq_maxTokens q)) then Some (bad_request "maxTokens must be 1..128000")
      else if negb (in_limit 600000 (rq_timeoutMs q)) then Some (bad_request "timeoutMs must be 1..600000")
      else None
  | _ => Some (bad_request "complete() requires messages[]")
  end.

(** ** Completions *)

Record usage := Usage {
  us_input : option num; us_output : option num; us_cached : option num; us_reasoning : option num;
  us_cost : option num; us_cacheWrite : option num;
}.
Definition no_usage : usage := Usage None None None None None None.

Definition numberOrNull (v : jsval) : option num :=
  match v with
  | JUndef | JNull | JStr "" => None
  | _ => let n := to_num v in if isFinite n && nle nzero n then Some n else None
  end.

(* [src/backend/src/providers/provider-adapter.js:68-85] normalizedUsage *)
Definition normalizedUsage (u : jsval) : usage :=
  let promptDetails := or_val (prop u "prompt_tokens_details") (or_val (prop u "input_tokens_details") (JObj [])) in
  let outputDetails := or_val (prop u "completion_tokens_details") (or_val (prop u "output_tokens_details") (JObj [])) in
  let cost := to_num (nullish_or (prop u "cost") (nullish_or (prop u "cost_usd") (prop u "costUsd"))) in
  Usage (numberOrNull (nullish_or (prop u "prompt_tokens") (prop u "input_tokens")))
    (numberOrNull (nullish_or (prop u "completion_tokens") (prop u "output_tokens")))
    (numberOrNull (nullish_or (prop promptDetails "cached_tokens") (prop u "cached_tokens")))
    (numberOrNull (nullish_or (prop outputDetails "reasoning_tokens") (prop u "reasoning_tokens")))
    (if isFinite cost then Some cost else None)
    (numberOrNull (prop promptDetails "cache_write_tokens")).

Record tool_call := ToolCall { tc_id : string; tc_name : string; tc_arguments : jsval }.
Record completion := Completion {
  cp_text : string; cp_toolCalls : list tool_call; cp_usage : usage; cp_model : string; cp_stopReason : string;
  cp_requestId : jsval;
}.

(** [v[0]] *)
Definition first_of (v : jsval) : jsval :=
  match v with JArr (x :: _) => x | JObj _ => prop v "0" | JStr (String c _) => JStr (String c "") | _ => JUndef end.

Definition raw_arguments (s : string) : jsval := JObj [("_raw", JStr (slice0 (Z.to_nat 2000) s))].

(** The arguments of a call: text is parsed, and kept as it is when it cannot be. *)
Definition call_arguments (v : jsval) : jsval :=
  match v with
  | JStr s => match parse s with Some a => a | None => raw_arguments s end
  | _ => or_val v (JObj [])
  end.

Definition text_or (v : jsval) (d : string) : string := if truthy_val v then to_string v else d.

(** [freshId] is what [Math.random] gives a call without id. *)
Definition tool_call_of (freshId : string) (tc : jsval) : option tool_call :=
  if is_nullish tc then None
  else Some (ToolCall (text_or (prop tc "id") ("call-" ++ freshId)) (text_or (prop (prop tc "function") "name") "unknown")
               (call_arguments (prop (prop tc "function") "arguments"))).

(** The counts that are reported only when they are positive. *)
Definition positive_only (o : option num) : option num := match o with Some n => if truthy_num n then Some n else None | None => None end.

(** [None] stands for the [TypeError] of a payload with calls that are no objects. *)
(* [src/backend/src/providers/provider-adapter.js:482-512] _normalizeCompletion *)
Definition normalizeCompletion (freshId : string) (model : string) (data : jsval) : option completion :=
  let choice := or_val (first_of (prop data "choices")) (JObj []) in
  let msg := or_val (prop choice "message") (JObj []) in
  match match prop msg "tool_calls" with
        | JArr tcs => mapM (tool_call_of freshId) tcs
        | v => if truthy_val v then None else Some []
        end with
  | None => None
  | Some toolCalls =>
      let u := normalizedUsage (or_val (prop data "usage") (JObj [])) in
      let content := prop msg "content" in
      Some (Completion
        (match content with JStr s => s | v => if truthy_val v then default "" (json_stringify v) else "" end)
        toolCalls
        (Usage (us_input u) (us_output u) (us_cached u) (positive_only (us_reasoning u)) (us_cost u) (positive_only (us_cacheWrite u)))
        (text_or (prop data "model") model)
        (text_or (prop choice "finish_reason") (match toolCalls with [] => "stop" | _ => "tool_calls" end))
        (or_val (prop data "id") JNull))
  end.

(** What is sent. *)
Record chat_body := ChatBody {
  cb_model : string; cb_messages : jsval; cb_temperature : num; cb_maxTokens : Z; cb_tools : list jsval; cb_toolChoice : bool;
  cb_json : bool; cb_stream : bool;
}.
Definition max_tokens (q : request) : Z := match rq_maxTokens q with JNum n => if (n =? 0)%Z then 1024 else n | _ => 1024 end.
Definition chat_body_of (model : string) (stream : bool) (q : request) : chat_body :=
  ChatBody model (rq_messages q) (default (ratio 2 10) (rq_temperature q)) (max_tokens q) (rq_tools q)
    (match rq_tools q with [] => false | _ => true end) (rq_jsonMode q) stream.

Definition model_of (defaultModel : option string) (q : request) : option string :=
  match rq_model q with
  | Some m => if truthy_str m then Some m else match defaultModel with Some d => if truthy_str d then Some d else None | None => None end
  | None => match defaultModel with Some d => if truthy_str d then Some d else None | None => None end
  end.

(** The answer of the network to a body; the result of a call is an error, a
    [TypeError] ([None]) or a completion. *)
(* [src/backend/src/providers/provider-adapter.js:368-393] complete *)
Definition complete_openai (defaultModel : option string) (network : chat_body → reply) (freshId : string) (q : request)
    : perror + option completion :=
  match validateCompleteRequest q with
  | Some e => inl e
  | None =>
      match model_of defaultModel q with
      | None => inl (bad_request ("No model configured for " ++ pid))
      | Some model =>
          match fetchJson (network (chat_body_of model false q)) with
          | inl e => inl e
          | inr data => inr (normalizeCompletion freshId model data)
          end
      end
  end.
End Adapter.

(** ** The conversation as Anthropic expects it *)

(* [src/backend/src/providers/provider-adapter.js:121-125] anthropicContentText *)
Definition anthropicContentText (content : jsval) : string :=
  match content with
  | JStr s => s
  | JArr bs => js_join "" ((λ b, text_or (prop b "text") "") <$>
                           List.filter (λ b, truthy_val b && bool_decide (prop b "type" = JStr "text")) bs)
  | v => if is_nullish v then "" else default "" (json_stringify v)
  end.

(** A turn of the result: a role with blocks, or with a plain text. *)
Record turn := Turn { tu_role : string; tu_content : list jsval + string }.

Definition tool_result (m : jsval) : jsval :=
  JObj [("type", JStr "tool_result");
        ("tool_use_id", or_val (prop m "tool_call_id") (or_val (prop m "toolCallId") (or_val (prop m "id") JNull)));
        ("content", JStr (anthropicContentText (prop m "content")))].

(* [src/backend/src/providers/provider-adapter.js:129-133] appendToolResult *)
Definition appendToolResult (b : jsval) (ts : list turn) : list turn :=
  match last ts with
  | Some (Turn role (inl bs)) =>
      if String.eqb role "user" then (removelast ts ++ [Turn role (inl (bs ++ [b])%list)])%list
      else (ts ++ [Turn "user" (inl [b])])%list
  | _ => (ts ++ [Turn "user" (inl [b])])%list
  end.

Definition content_blocks (content : jsval) : list jsval :=
  match content with
  | JArr bs => bs
  | v => if negb (is_nullish v) && truthy_str (to_string v) then [JObj [("type", JStr "text"); ("text", JStr (to_string v))]] else []
  end.

Definition tool_use (n : nat) (call : jsval) : jsval :=
  JObj [("type", JStr "tool_use");
        ("id", or_val (prop call "id") (JStr ("call-" ++ string_of_Z (Z.of_nat n))));
        ("name", or_val (prop call "name") (or_val (prop (prop call "function") "name") (JStr "unknown")));
        ("input", or_val (prop call "arguments") (or_val (prop (prop call "function") "arguments") (JObj [])))].

Definition call_list (v : jsval) : list jsval := match v with JArr l => l | _ => [] end.
Definition message_blocks (m : jsval) : list jsval :=
  foldl (λ bs call, (bs ++ [tool_use (length bs) call])%list) (content_blocks (prop m "content")) (call_list (prop m "tool_calls")).

Definition role_is (r : string) (m : jsval) : bool := bool_decide (prop m "role" = JStr r).

Definition append_message (ts : list turn) (m : jsval) : list turn :=
  if negb (truthy_val m) || role_is "system" m then ts
  else if role_is "tool" m then appendToolResult (tool_result m) ts
  else
    let blocks := message_blocks m in
    (ts ++ [Turn (if role_is "assistant" m then "assistant" else "user")
              (match blocks with [] => inr (anthropicContentText (prop m "content")) | _ => inl blocks end)])%list.

(* [src/backend/src/providers/provider-adapter.js:127-162] normalizeAnthropicMessages *)
Definition normalizeAnthropicMessages (messages : list jsval) : list turn := foldl append_message [] messages.

(* [src/backend/src/providers/provider-adapter.js:611-612] system *)
Definition system_of (messages : list jsval) : string :=
  js_join (String newline "") (List.filter truthy_str ((λ m, anthropicContentText (prop m "content")) <$> List.filter (role_is "system") messages)).

(** ** The registry *)

Inductive adapter_kind := OpenRouterAdapter | OpenAIAdapter | AnthropicAdapter | DemoAdapter.
#[export] Instance adapter_kind_eq : EqDecision adapter_kind.
Proof. solve_decision. Defined.
Record adapter := Adapter { ad_kind : adapter_kind; ad_id : string; ad_key : string; ad_defaultModel : option string }.

(** What the configuration says of a provider. *)
Record provider_config := ProviderConfig { pc_key : string; pc_defaultModel : option string }.
Definition no_config : provider_config := ProviderConfig "" None.

(* [src/backend/src/providers/provider-adapter.js:794-801] ProviderRegistry *)
Record registry := ProviderRegistry {
  rg_provider : string;
  rg_providers : list (string * provider_config);
  rg_adapters : list (string * adapter);
}.

Definition demo_adapter : adapter := Adapter DemoAdapter "demo" "" (Some "demo-model").

(* [src/backend/src/providers/provider-adapter.js:812-826] _build *)
Definition build (id : string) (c : provider_config) : adapter :=
  if String.eqb id "openrouter" then Adapter OpenRouterAdapter "openrouter" (pc_key c) (pc_defaultModel c)
  else if String.eqb id "openai" then Adapter OpenAIAdapter "openai" (pc_key c) (pc_defaultModel c)
  else if String.eqb id "anthropic" then Adapter AnthropicAdapter "anthropic" (pc_key c) (pc_defaultModel c)
  else Adapter OpenAIAdapter id (pc_key c) (pc_defaultModel c).

Definition config_of (r : registry) (id : string) : provider_config := default no_config (mget (rg_providers r) id).
(** [(providerId || this.config.provider || 'openrouter').toLowerCase()] *)
Definition provider_id (r : registry) (providerId : string) : string := to_lower (or_str providerId (or_str (rg_provider r) "openrouter")).

(* [src/backend/src/providers/provider-adapter.js:805-810] buildFresh *)
Definition buildFresh (r : registry) (providerId : string) (keyOverride : option string) : adapter :=
  let id := to_lower providerId in
  let c := config_of r id in
  build id (match keyOverride with Some k => ProviderConfig k (pc_defaultModel c) | None => c end).

(* [src/backend/src/providers/provider-adapter.js:829-831] invalidate *)
Definition invalidate (providerId : string) (r : registry) : registry :=
  ProviderRegistry (rg_provider r) (rg_providers r) (mdelete (rg_adapters r) (to_lower providerId)).

(* [src/backend/src/providers/provider-adapter.js:833-840] getAdapter *)
Definition getAdapter (providerId : string) (r : registry) : adapter * registry :=
  let id := provider_id r providerId in
  match mget (rg_adapters r) id with
  | Some a => (a, r)
  | None => let a := build id (config_of r id) in (a, ProviderRegistry (rg_provider r) (rg_providers r) (mset (rg_adapters r) id a))
  end.

(** The key of the scope replaces the one of the configuration, also when it is
    empty. *)
(* [src/backend/src/providers/provider-adapter.js:845-850] getAdapterForScope *)
Definition getAdapterForScope (resolver : string → string → string) (r : registry) (providerId scope : string) : adapter :=
  let id := provider_id r providerId in
  build id (ProviderConfig (resolver id scope) (pc_defaultModel (config_of r id))).

Definition hasCredentials (a : adapter) : bool := bool_decide (ad_kind a = DemoAdapter) || truthy_str (ad_key a).

(* [src/backend/src/providers/provider-adapter.js:853-860] resolveForRun *)
Definition resolveForRun (resolver : option (string → string → string)) (mode providerId scope : string) (r : registry)
    : (perror + adapter) * registry :=
  if String.eqb mode "demo" then (inr demo_adapter, r)
  else
    let '(a, r) := match resolver with
                   | Some f => (getAdapterForScope f r providerId scope, r)
                   | None => getAdapter providerId r
                   end in
    (if hasCredentials a then inr a else inl (PError "auth" false None ("No API key configured for provider " ++ ad_id a)), r).

(** ** What holds of them *)

Definition transient (code : string) : bool := bool_decide (code ∈ ["rate_limit"; "timeout"; "unavailable"]).

Lemma classify_transient status : (classifyHttpStatus status).2 = transient (classifyHttpStatus status).1.
Proof. unfold classifyHttpStatus. repeat (case_match; [done|]). done. Qed.

Lemma refusal_cases pid apiKey status data :
  let e := refusal pid apiKey status data in
  pe_retryable e = transient (pe_code e) ∧ pe_status e = Some status ∧
  (pe_code e = "model_unavailable" ∨ pe_code e = (classifyHttpStatus status).1).
Proof.
  cbn zeta. unfold refusal. destruct (isModelAccessFailure _ _); cbn; [auto|]. rewrite classify_transient. auto.
Qed.

Lemma access_statuses status detail : isModelAccessFailure status detail = true → status ∈ [400; 403; 404; 422]%Z.
Proof.
  unfold isModelAccessFailure. destruct (negb _); [done|]. destruct (Z.eqb_spec status 404); [subst; set_solver|].
  destruct (_ && _) eqn:E; intros H.
  - apply andb_true_iff in E as [E _]. apply orb_true_iff in E as [E|E]; apply Z.eqb_eq in E; subst; set_solver.
  - apply andb_true_iff in H as [H _]. apply Z.eqb_eq in H. subst. set_solver.
Qed.

(** Failures of a provider are classified. A call yields the payload exactly
    when it is answered with a status of success; otherwise it yields an error that
    may be retried exactly when it is a rate limit, a timeout or an unavailable
    service. A cancellation is not retried, a timeout and a lost connection are;
    a status of 429, 408 or at least 500 may be retried whatever the body says. *)
Theorem provider_errors_sound parse pid apiKey r :
  match fetchJson parse pid apiKey r with
  | inr _ => ∃ status body, r = Reply status body ∧ (200 ≤ status < 300)%Z
  | inl e =>
      pe_retryable e = transient (pe_code e) ∧
      match r with
      | Reply status _ => ¬ (200 ≤ status < 300)%Z ∧ pe_status e = Some status ∧
          (status = 429 ∨ status = 408 ∨ 500 ≤ status → pe_retryable e = true)%Z ∧
          (status = 401 → pe_code e = "auth")%Z
      | Aborted true => pe_code e = "cancelled"
      | Aborted false => pe_code e = "timeout"
      | Lost => pe_code e = "unavailable"
      end
  end.
Proof.
  destruct r as [status body|[]|]; cbn [fetchJson transport_error]; try done.
  unfold ok_status. destruct ((200 <=? status) && (status <? 300))%Z eqn:E.
  { exists status, body. apply andb_true_iff in E as [?%Z.leb_le ?%Z.ltb_lt]. done. }
  set (data := if truthy_str body then _ else _).
  destruct (refusal_cases pid apiKey status data) as (H1 & H2 & H3). split; [done|].
  assert (Hn : ¬ (200 ≤ status < 300)%Z) by (intros [?%Z.leb_le ?%Z.ltb_lt]; by rewrite H, H0 in E).
  assert (Hc : status ∉ [400; 403; 404; 422]%Z → pe_code (refusal pid apiKey status data) = (classifyHttpStatus status).1).
  { intros Hs. unfold refusal. destruct (isModelAccessFailure _ _) eqn:Ea; [|done]. by apply access_statuses in Ea. }
  split_and!; [done|done| |].
  - intros Hs. rewrite H1, Hc by (intros Hi; set_unfold; lia). unfold classifyHttpStatus.
    repeat match goal with |- context [if ?b then _ else _] => destruct b eqn:? end; try done; exfalso;
      rewrite ?orb_true_iff, ?Z.eqb_eq, ?Z.eqb_neq, ?Z.leb_gt in *; lia.
  - intros ->. rewrite Hc by (intros Hi; set_unfold; lia). done.
Qed.

(** *** What a conversation says, and to whom *)

(** Blocks with the role of their turn. *)
Definition turn_blocks (t : turn) : list (string * jsval) :=
  match tu_content t with inl bs => (tu_role t,.) <$> bs | inr _ => [] end.
Definition all_blocks (ts : list turn) : list (string * jsval) := concat (turn_blocks <$> ts).
Definition well_formed_turn (t : turn) : Prop :=
  (tu_role t = "user" ∨ tu_role t = "assistant") ∧ (∀ s, tu_content t = inr s → s = "").

Fixpoint first_truthy (l : list jsval) (d : jsval) : jsval :=
  match l with [] => d | v :: l' => if truthy_val v then v else first_truthy l' d end.

(** The texts of the text blocks of a list, one after the other. *)
Inductive says_texts : list jsval → string → Prop :=
| texts_nil : says_texts [] ""
| texts_take b bs t : truthy_val b = true → prop b "type" = JStr "text" → says_texts bs t →
    says_texts (b :: bs) ((if truthy_val (prop b "text") then to_string (prop b "text") else "") ++ t)
| texts_skip b bs t : truthy_val b = false ∨ prop b "type" ≠ JStr "text" → says_texts bs t → says_texts (b :: bs) t.

(** The text of a tool's result. *)
Inductive result_text : jsval → string → Prop :=
| rt_string s : result_text (JStr s) s
| rt_blocks bs t : says_texts bs t → result_text (JArr bs) t
| rt_none v : v = JUndef ∨ v = JNull → result_text v ""
| rt_other v : (∀ s, v ≠ JStr s) → (∀ bs, v ≠ JArr bs) → v ≠ JUndef → v ≠ JNull →
    result_text v (default "" (json_stringify v)).

(** The blocks of a message's content: none, a text, or the blocks it is made of. *)
Inductive content_says : jsval → list jsval → Prop :=
| cs_none v : v = JUndef ∨ v = JNull ∨ v = JStr "" → content_says v []
| cs_blocks bs : content_says (JArr bs) bs
| cs_text v b : v ≠ JUndef → v ≠ JNull → v ≠ JStr "" → (∀ bs, v ≠ JArr bs) →
    prop b "type" = JStr "text" → prop b "text" = JStr (to_string v) → content_says v [b].

(** A call of a tool; [n] is its position among the blocks of the message. *)
Record call_says (n : nat) (call b : jsval) : Prop := {
  cl_type : prop b "type" = JStr "tool_use";
  cl_id : prop b "id" = first_truthy [prop call "id"] (JStr ("call-" ++ string_of_Z (Z.of_nat n)));
  cl_name : prop b "name" = first_truthy [prop call "name"; prop (prop call "function") "name"] (JStr "unknown");
  cl_input : prop b "input" = first_truthy [prop call "arguments"; prop (prop call "function") "arguments"] (JObj []);
}.

Inductive message_says (m : jsval) : list (string * jsval) → Prop :=
| ms_none : truthy_val m = false ∨ prop m "role" = JStr "system" → message_says m []
| ms_result b t : truthy_val m = true → prop m "role" = JStr "tool" →
    prop b "type" = JStr "tool_result" → prop b "content" = JStr t → result_text (prop m "content") t →
    prop b "tool_use_id" = first_truthy [prop m "tool_call_id"; prop m "toolCallId"; prop m "id"] JNull →
    message_says m [("user", b)]
| ms_turn role cs us : truthy_val m = true → prop m "role" ≠ JStr "system" → prop m "role" ≠ JStr "tool" →
    role = (if bool_decide (prop m "role" = JStr "assistant") then "assistant" else "user") →
    content_says (prop m "content") cs → length us = length (call_list (prop m "tool_calls")) →
    (∀ i call, call_list (prop m "tool_calls") !! i = Some call → ∃ b, us !! i = Some b ∧ call_says (length cs + i) call b) →
    message_says m ((role,.) <$> (cs ++ us)%list).

Lemma all_blocks_app l k : all_blocks (l ++ k) = (all_blocks l ++ all_blocks k)%list.
Proof. unfold all_blocks. by rewrite fmap_app, concat_app. Qed.

Lemma content_text_says v : result_text v (anthropicContentText v).
Proof.
  destruct v as [| |[]|n|s|bs|]; try (by constructor; auto); cbn [anthropicContentText]; try (by constructor).
  constructor. induction bs as [|b bs IH]; [constructor|]. cbn [List.filter].
  destruct (truthy_val b) eqn:Eb; cbn [andb]; [|by constructor; [left|]].
  case_bool_decide as Et; [|by constructor; [right|]].
  destruct (List.filter _ bs) as [|y l] eqn:Ef.
  - cbn in IH |- *. replace (text_or (prop b "text") "") with (text_or (prop b "text") "" ++ "") by apply string_app_nil_r.
    by constructor.
  - cbn [fmap list_fmap]. by constructor.
Qed.

Lemma string_of_Z_truthy n : truthy_str (string_of_Z n) = true.
Proof. destruct (string_of_Z n) eqn:E; [|done]. apply (f_equal Z_of_string) in E. by rewrite Z_of_string_of_Z in E. Qed.

Lemma content_blocks_say v : content_says v (content_blocks v).
Proof.
  destruct v as [| |b|n|s|bs|o]; cbn [content_blocks is_nullish negb to_string]; cbn [andb].
  - constructor; auto.
  - constructor; auto.
  - by destruct b; apply cs_text.
  - rewrite string_of_Z_truthy. by apply cs_text.
  - destruct s as [|c s]; [constructor; auto|]. cbn. by apply cs_text.
  - constructor.
  - by apply cs_text.
Qed.

Lemma or_val_first a b : or_val a b = first_truthy [a] b.
Proof. done. Qed.

Lemma tool_use_says n call : call_says n call (tool_use n call).
Proof. by constructor. Qed.

Lemma tool_uses_say calls : ∀ bs, ∃ us,
  foldl (λ bs call, (bs ++ [tool_use (length bs) call])%list) bs calls = (bs ++ us)%list ∧ length us = length calls ∧
  ∀ i call, calls !! i = Some call → ∃ b, us !! i = Some b ∧ call_says (length bs + i) call b.
Proof.
  induction calls as [|c calls IH]; intros bs.
  { exists []. rewrite app_nil_r. split; [done|]. split; [done|]. intros i call H. by rewrite lookup_nil in H. }
  destruct (IH (bs ++ [tool_use (length bs) c])%list) as (us & E & Hl & Hu). exists (tool_use (length bs) c :: us).
  cbn [foldl]. rewrite E, <-app_assoc. split; [done|]. split; [cbn; by rewrite Hl|]. intros [|i] call H; cbn in *.
  - injection H as <-. eexists. split; [done|]. rewrite Nat.add_0_r. apply tool_use_says.
  - destruct (Hu i call H) as (b & Hb & Hs). exists b. split; [done|]. rewrite length_app in Hs. cbn in Hs.
    by replace (length bs + S i)%nat with (length bs + 1 + i)%nat by lia.
Qed.

Lemma tool_uses_grow calls : ∀ bs, ∃ k, foldl (λ bs call, (bs ++ [tool_use (length bs) call])%list) bs calls = (bs ++ k)%list.
Proof.
  induction calls as [|c calls IH]; intros bs; [exists []; by rewrite app_nil_r|].
  destruct (IH (bs ++ [tool_use (length bs) c])%list) as [k E]. exists (tool_use (length bs) c :: k). cbn. by rewrite E, <-app_assoc.
Qed.

Lemma no_blocks_no_text m : message_blocks m = [] → anthropicContentText (prop m "content") = "".
Proof.
  unfold message_blocks. destruct (tool_uses_grow (call_list (prop m "tool_calls")) (content_blocks (prop m "content"))) as [k ->].
  intros [H _]%app_eq_nil. destruct (prop m "content") as [| |[]|n|s|[]|]; cbn in *; try done.
  - by rewrite string_of_Z_truthy in H.
  - by destruct s.
Qed.

Lemma append_tool_spec b ts : Forall well_formed_turn ts →
  all_blocks (appendToolResult b ts) = (all_blocks ts ++ [("user", b)])%list ∧ Forall well_formed_turn (appendToolResult b ts).
Proof.
  intros H. assert (Hd : all_blocks (ts ++ [Turn "user" (inl [b])]) = (all_blocks ts ++ [("user", b)])%list ∧
                         Forall well_formed_turn (ts ++ [Turn "user" (inl [b])])).
  { split; [by rewrite all_blocks_app|]. apply Forall_app. split; [done|]. apply Forall_singleton. split; [by left|done]. }
  unfold appendToolResult. destruct (last ts) as [[role [bs|c]]|] eqn:El; [|done..].
  destruct (String.eqb_spec role "user") as [->|Hr]; [|done]. apply last_Some in El as [l ->]. rewrite removelast_last.
  rewrite !all_blocks_app. apply Forall_app in H as [Hl _]. split.
  - unfold all_blocks at 2 4. cbn. by rewrite !app_nil_r, fmap_app, app_assoc.
  - apply Forall_app. split; [done|]. apply Forall_singleton. split; [by left|done].
Qed.

(** One message: its blocks are appended, whatever it is. *)
Lemma append_message_spec m ts : Forall well_formed_turn ts → ∃ bs, message_says m bs ∧
  all_blocks (append_message ts m) = (all_blocks ts ++ bs)%list ∧ Forall well_formed_turn (append_message ts m).
Proof.
  intros Hw. unfold append_message, role_is. destruct (truthy_val m) eqn:Hm; cbn [negb orb].
  2: { exists []. rewrite app_nil_r. split; [constructor; by left|done]. }
  case_bool_decide as Hs; [exists []; rewrite app_nil_r; split; [constructor; by right|done]|].
  case_bool_decide as Ht.
  - exists [("user", tool_result m)]. split; [|by apply append_tool_spec].
    by apply (ms_result m _ (anthropicContentText (prop m "content"))); try done; [apply content_text_says].
  - destruct (tool_uses_say (call_list (prop m "tool_calls")) (content_blocks (prop m "content"))) as (us & E & Hl & Hu).
    fold (message_blocks m) in E. set (role := if bool_decide (prop m "role" = JStr "assistant") then "assistant" else "user").
    exists ((role,.) <$> message_blocks m). split; [|split].
    + rewrite E. by apply ms_turn; [done..|apply content_blocks_say|done|].
    + rewrite all_blocks_app. f_equal. unfold all_blocks. by destruct (message_blocks m) eqn:Em; cbn; rewrite ?app_nil_r.
    + apply Forall_app. split; [done|]. apply Forall_singleton. split; cbn.
      * unfold role. case_bool_decide; auto.
      * intros s. destruct (message_blocks m) eqn:Em; [|done]. intros [= <-]. by apply no_blocks_no_text.
Qed.

(** C20: Nothing of the conversation is lost on the way to Anthropic. The blocks of
    the normalised turns, each with the role of its turn, are one by one those the
    messages stand for, in their order: of a tool message one [tool_result] of the
    user, with the call's id and the text of the result; of any other message, as
    the assistant's if it is the assistant's and else as the user's, its text or
    its own blocks, then one [tool_use] for each of its calls, with the call's id,
    name and arguments; of a system or missing message nothing. Every turn is the
    user's or the assistant's, and one without blocks has an empty text. *)
Theorem anthropic_blocks_preserved messages : ∃ bss,
  Forall2 message_says messages bss ∧
  all_blocks (normalizeAnthropicMessages messages) = concat bss ∧
  Forall well_formed_turn (normalizeAnthropicMessages messages).
Proof.
  unfold normalizeAnthropicMessages. induction messages as [|m ms IH] using rev_ind; [by exists []|].
  destruct IH as (bss & Hs & Hb & Hw). rewrite foldl_app. cbn [foldl].
  destruct (append_message_spec m _ Hw) as (bs & Hm & E & Hw'). exists (bss ++ [bs])%list.
  split; [by apply Forall2_app; [|constructor]|]. split; [|done]. rewrite E, Hb, concat_app. cbn. by rewrite app_nil_r.
Qed.

(** The adapter of a run with a resolver: the mock in demo mode, otherwise one with
    the key of the scope. *)
Lemma resolved_adapter f mode providerId scope r :
  mode ≠ "demo" → let id := provider_id r providerId in
  resolveForRun (Some f) mode providerId scope r =
    (if truthy_str (f id scope) then inr (getAdapterForScope f r providerId scope)
     else inl (PError "auth" false None ("No API key configured for provider " ++ ad_id (getAdapterForScope f r providerId scope))), r) ∧
  ad_key (getAdapterForScope f r providerId scope) = f id scope ∧
  ad_kind (getAdapterForScope f r providerId scope) ≠ DemoAdapter.
Proof.
  intros Hm id. unfold resolveForRun. destruct (String.eqb_spec mode "demo"); [done|].
  assert (H : ad_key (getAdapterForScope f r providerId scope) = f id scope ∧
              ad_kind (getAdapterForScope f r providerId scope) ≠ DemoAdapter).
  { unfold getAdapterForScope, build. fold id. by repeat case_match. }
  destruct H as [H1 H2]. split; [|done]. unfold hasCredentials. rewrite H1, bool_decide_false by done. done.
Qed.

Section Runs.
Context {sealed : Type} (encrypt : string → string → string → sealed) (decrypt : string → sealed → option string).
Context (from_hex from_base64 to_hex : string → string).
Context (decrypt_encrypt : ∀ k iv p, decrypt k (encrypt k iv p) = Some p).
Context (hex_32 : ∀ s, is_hex64 s = true → String.length (from_hex s) = 32%nat).

(** [fresh] and [kw]: the random bytes of the call and whether a new
    installation key could be saved. *)
Definition resolver (fresh : string) (kw : bool) (b : boot) (s : store) (id scope : string) : string :=
  (resolveKey decrypt from_hex from_base64 to_hex fresh kw b id scope s).1.

(** A scope with a name of its own: its scope key is its name. *)
Definition own_scope (scope : string) : Prop :=
  trim scope ≠ "" ∧ (String.length (trim scope) <= 128)%nat ∧ trim scope ≠ "default".

Lemma own_scope_key scope : own_scope scope → scope ≠ "default" ∧ scopeKey scope = trim scope.
Proof.
  intros (H1 & H2 & H3). assert (scope ≠ "") as Hne by (intros ->; by apply H1). split; [by intros ->|].
  unfold scopeKey. replace (or_str scope "default") with scope by (by destruct scope).
  apply Nat.leb_le in H2. rewrite H2. destruct (trim scope); [done|]. done.
Qed.

Lemma scope_key_name sc key : scopeKey sc = key → key ≠ "default" → trim sc = key.
Proof.
  unfold scopeKey. destruct sc as [|c sc]; [by intros <-|]. cbn [or_str].
  destruct (_ && _); [done|by intros <-].
Qed.

(** C12: A run uses the key of its tenant. Let a tenant's scope, trimmed, be
    neither empty nor "default" nor longer than 128 characters (such scopes share
    the deployment's keys). Whatever was stored, verified, removed or restarted
    before - an installation key that had to be generated being saved -, and
    whatever the environment and the deployment hold, a live run of the tenant
    gets an adapter with the key last stored for the provider under its scope and
    not removed: a key that some call stored for this provider under a scope of
    the same trimmed name, never another tenant's and never the deployment's.
    When there is none it fails as unauthenticated; it never gets the mock of the
    demo mode. The cache of adapters is left as it is. *)
Theorem run_key_isolation ek req kf file s0 ops fresh kw b r mode providerId scope :
  new_store from_hex from_base64 ek req kf file = Done s0 → (∀ d, file ≠ Holds d) →
  (∀ o, o ∈ ops → key_saved from_hex to_hex o) → own_scope scope → mode ≠ "demo" →
  let s := foldl (step encrypt decrypt from_hex from_base64 to_hex) s0 ops in
  let v := foldl vault_step empty_vault ops in
  let own := default "" (live v !! (trim scope, provider_id r providerId)) in
  match resolveForRun (Some (resolver fresh kw b s)) mode providerId scope r with
  | (inr a, r') => r' = r ∧ ad_key a = own ∧ own ≠ "" ∧ ad_kind a ≠ DemoAdapter ∧
      ∃ f iv kw w now pid sc, SetKey f iv kw w now pid (ad_key a) sc ∈ ops ∧
        trim sc = trim scope ∧ to_lower pid = provider_id r providerId
  | (inl e, r') => r' = r ∧ pe_code e = "auth" ∧ own = ""
  end.
Proof.
  intros Hn Hf Ho Hs Hm s v own. destruct (own_scope_key scope Hs) as [Hd Hk0]. destruct Hs as (_ & _ & Hs).
  destruct (resolved_adapter (resolver fresh kw b s) mode providerId scope r Hm) as (-> & Hk & Hdm).
  destruct (resolved_key encrypt decrypt from_hex from_base64 to_hex decrypt_encrypt hex_32 fresh kw
    ek req kf file s0 ops b (provider_id r providerId) scope Hn Hf Ho Hd) as [E Hset].
  fold s v in E, Hset. fold (resolver fresh kw b s (provider_id r providerId) scope) in E, Hset. rewrite Hk0 in E, Hset.
  unfold provider_id in E, Hset. rewrite lower_twice in E, Hset. fold (provider_id r providerId) in E, Hset. fold own in E.
  rewrite E in Hset, Hk |- *. destruct own as [|c w] eqn:Eo; cbn [truthy_str]; [done|]. rewrite Hk. split_and!; try done.
  destruct (Hset ltac:(done)) as (f & iv & kw0 & w0 & now & pid & sc & Hi & Ep). injection Ep as Esc Epid.
  exists f, iv, kw0, w0, now, pid, sc. split; [done|]. split; [|done]. by apply scope_key_name.
Qed.
End Runs.

(** ** Checks on concrete values *)

Definition null_parse (s : string) : option jsval :=
  if String.eqb s "E" then Some (JObj [("error", JObj [("message", JStr "Key sk-ant-1234567890 refused for model claude")])]) else None.

(** An answer of 404 always reads as a model that is not served, also that of a
    probe of a key at a wrong address. *)
Example probe_404 : (λ e, pe_code e) <$> (match fetchJson null_parse "openai" "key" (Reply 404 "") with inl e => Some e | inr _ => None end)
  = Some "model_unavailable".
Proof. vm_compute. reflexivity. Qed.

Example key_not_echoed :
  match fetchJson null_parse "anthropic" "sk-ant-1234567890" (Reply 403 "E") with
  | inl e => (pe_code e, pe_message e) = ("model_unavailable", "anthropic request failed: Key [REDACTED] refused for model claude")
  | inr _ => False
  end.
Proof. vm_compute. reflexivity. Qed.

(** A negative cost is taken as it comes, though a negative count is not. *)
Example negative_cost :
  let u := normalizedUsage (JObj [("prompt_tokens", JNum (-5)); ("cost", JNum (-5))]) in
  us_input u = None ∧ us_cost u = Some (of_Z (-5)).
Proof. vm_compute. by split. Qed.

Lemma demo_ops_saved o : o ∈ demo_ops → key_saved (λ _, key32) (λ _, zeros) o.
Proof. intros Ho. unfold demo_ops in Ho. repeat (apply elem_of_cons in Ho as [->|Ho]; [by vm_compute|]). by apply not_elem_of_nil in Ho. Qed.

Lemma run_key_isolation_witness :
  let s := demo_run demo_store demo_ops in
  let r := ProviderRegistry "openrouter" [("openai", ProviderConfig "sk-deployment" None)] [] in
  let own := default "" (live (foldl vault_step empty_vault demo_ops) !! (trim "acme", provider_id r "OpenAI")) in
  match resolveForRun (Some (resolver unseal (λ _, key32) (λ _, "") (λ _, zeros) key32 true (Boot [("openai", "sk-environment")] []) s))
          "live" "OpenAI" "acme" r with
  | (inr a, r') => r' = r ∧ ad_key a = own ∧ own ≠ "" ∧ ad_kind a ≠ DemoAdapter ∧
      ∃ f iv kw w now pid sc, SetKey f iv kw w now pid (ad_key a) sc ∈ demo_ops ∧
        trim sc = trim "acme" ∧ to_lower pid = provider_id r "OpenAI"
  | (inl e, r') => r' = r ∧ pe_code e = "auth" ∧ own = ""
  end.
Proof.
  apply (run_key_isolation seal unseal (λ _, key32) (λ _, "") (λ _, zeros) unseal_seal demo_hex
    "" false None Missing demo_store demo_ops key32 true (Boot [("openai", "sk-environment")] [])
    (ProviderRegistry "openrouter" [("openai", ProviderConfig "sk-deployment" None)] []) "live" "OpenAI" "acme" demo_new).
  - intros d Hd. discriminate Hd.
  - exact demo_ops_saved.
  - split; [discriminate|]. split; [vm_compute; lia|discriminate].
  - discriminate.
Defined.
