(* ===== verification/ProviderStream.v ===== *)
(** Streamed completions (backend/src/providers/provider-adapter.js, [stream] of the
    OpenAI-style and the Anthropic adapter) and the final result the orchestrator
    takes from them ([_callProvider]).

    A stream is the list of pieces the network delivers, and how it ends: complete,
    or with an error that the [for await] throws. Block and call indices are
    numbers. A call announced twice keeps its place in the order. *)

From S2P Require Import Prelude JsMap JsValue Text Number Sse Providers.

Local Open Scope string_scope.
Local Open Scope js_scope.

(** What [for await] over the response body gives; [WhileReading] is an abort or a
    reset after the response was opened, [BadFrame] a [TypeError] on a payload. *)
Inductive stream_error := Refused (e : perror) | WhileReading | BadFrame.

Record partial_call := PartialCall { pt_id : string; pt_name : string; pt_args : string }.

(** A result: the deltas yielded, and the last value or the error that ended it. *)
Record stream_result := StreamResult { sr_deltas : list string; sr_final : stream_error + completion }.

Section Streams.
Context (parse : string → option jsval).

Definition parsed_arguments (args : string) : jsval :=
  if truthy_str args then match parse args with Some a => a | None => raw_arguments args end else JObj [].

(** *** The loop over the pieces, the same in both adapters *)

Section Loop.
Context {S : Type} (event : S → jsval → S * bool).

(** The events of one piece, until one throws. An event that throws has done what
    comes before: a delta it yielded stays. *)
Fixpoint visit (s : S) (events : list jsval) : S * bool :=
  match events with
  | [] => (s, true)
  | d :: events => let '(s, ok) := event s d in if ok : bool then visit s events else (s, false)
  end.

(** The state, whether all events were taken, and the rest of the buffer. *)
(* [src/backend/src/providers/provider-adapter.js:424-447] OpenAICompatibleAdapter *)
Fixpoint visit_chunks (s : S) (buffer : string) (chunks : list string) : S * bool * string :=
  match chunks with
  | [] => (s, true, buffer)
  | c :: chunks =>
      let '(events, rest) := parseSseData parse false (buffer ++ c) in
      match visit s events with
      | (s, true) => visit_chunks s rest chunks
      | (s, false) => (s, false, rest)
      end
  end.

Lemma visit_app s l k : visit s (l ++ k) = let '(s', ok) := visit s l in if ok then visit s' k else (s', false).
Proof. revert s. induction l as [|d l IH]; intros s; [done|]. cbn. destruct (event s d) as [s' []]; [apply IH|done]. Qed.

(** A run over pieces is the run over their events; the rest of the buffer counts
    only when no event threw. *)
Lemma visit_chunks_events s0 chunks : ∀ s evs b, visit s0 evs = (s, true) →
  let '(all, rest) := foldl (feed parse) (evs, b) chunks in
  let '(s', ok, rest') := visit_chunks s b chunks in
  visit s0 all = (s', ok) ∧ (ok = true → rest' = rest).
Proof.
  induction chunks as [|c chunks IH]; intros s evs b H; [done|]. cbn [foldl visit_chunks feed].
  destruct (parseSseData parse false (b ++ c)) as [fresh rest] eqn:Ep.
  assert (E : visit s0 (evs ++ fresh) = visit s fresh) by (by rewrite visit_app, H).
  destruct (visit s fresh) as [s1 ok1] eqn:E1. destruct ok1; [by apply IH|].
  assert (Hs : ∀ l ev r, visit s0 ev = (s1, false) → visit s0 (foldl (feed parse) (ev, r) l).1 = (s1, false)).
  { induction l as [|x l IHl]; intros ev r He; [done|]. cbn [foldl feed]. destruct (parseSseData parse false (r ++ x)) as [f r'].
    apply IHl. by rewrite visit_app, He. }
  specialize (Hs chunks (evs ++ fresh)%list rest E). by destruct (foldl _ _ _).
Qed.

Lemma visit_whole s chunks : whole_line_ends chunks →
  let '(s1, ok1, r1) := visit_chunks s "" chunks in
  let '(s2, ok2, r2) := visit_chunks s "" [joined chunks] in
  s1 = s2 ∧ ok1 = ok2 ∧ (ok1 = true → r1 = r2).
Proof.
  intros H. pose proof (visit_chunks_events s chunks s [] "" eq_refl) as H1.
  pose proof (visit_chunks_events s [joined chunks] s [] "" eq_refl) as H2.
  fold (feed_all parse chunks) in H1. fold (feed_all parse [joined chunks]) in H2. rewrite <-(fed_whole parse chunks H) in H2.
  destruct (feed_all parse chunks) as [all rest]. destruct (visit_chunks s "" chunks) as [[s1 ok1] r1].
  destruct (visit_chunks s "" [joined chunks]) as [[s2 ok2] r2]. destruct H1 as [H1 H1'], H2 as [H2 H2'].
  rewrite H1 in H2. injection H2 as -> ->. split_and!; [done..|]. intros Ho. by rewrite H1', H2'.
Qed.
End Loop.

(** *** OpenAI-style *)

Record chat_state := ChatState {
  ch_deltas : list string; ch_text : string; ch_usage : usage; ch_finish : option string; ch_requestId : jsval;
  ch_tools : list (Z * partial_call);
}.
#[local] Instance chat_eta : Eta chat_state := λ c,
  ChatState (ch_deltas c) (ch_text c) (ch_usage c) (ch_finish c) (ch_requestId c) (ch_tools c).
Definition chat_start : chat_state := ChatState [] "" no_usage None JNull [].

(** [Number(v) || 0] for an index. *)
Definition index_of (v : jsval) : Z := match v with JNum n => n | JStr s => default 0%Z (Z_of_string (trim s)) | JBool true => 1%Z | _ => 0%Z end.

(* [src/backend/src/providers/provider-adapter.js:437-444] tool *)
Definition tool_delta (tools : list (Z * partial_call)) (t : jsval) : list (Z * partial_call) :=
  let i := index_of (prop t "index") in
  let e := default (PartialCall (text_or (prop t "id") ("call-" ++ string_of_Z i)) "" "") (mget tools i) in
  let f := prop t "function" in
  mset tools i (PartialCall (text_or (prop t "id") (pt_id e)) (text_or (prop f "name") (pt_name e))
                  (pt_args e ++ text_or (prop f "arguments") "")).

(** What a [for ... of] over [v || []] visits; [None] when it throws, at once or on
    an element that has no properties. *)
Definition iterate (v : jsval) : option (list jsval) :=
  match v with
  | JStr t => Some ((λ c, JStr (String c "")) <$> String.list_ascii_of_string t)
  | JArr l => if forallb (λ x, negb (is_nullish x)) l then Some l else None
  | _ => if truthy_val v then None else Some []
  end.

(* [src/backend/src/providers/provider-adapter.js:428-446] data *)
Definition chat_event (s : chat_state) (data : jsval) : chat_state * bool :=
  if is_nullish data then (s, false)
  else if truthy_val (prop data "done") then (s, true)
  else
    let s := if truthy_val (prop data "id") then s <| ch_requestId := prop data "id" |> else s in
    let choice := or_val (first_of (prop data "choices")) (JObj []) in
    let delta := or_val (prop choice "delta") (JObj []) in
    let content := match prop delta "content" with JStr c => c | _ => "" end in
    let s := if truthy_str content then s <| ch_text := ch_text s ++ content |> <| ch_deltas := (ch_deltas s ++ [content])%list |> else s in
    let s := if truthy_val (prop choice "finish_reason") then s <| ch_finish := Some (to_string (prop choice "finish_reason")) |> else s in
    match iterate (prop delta "tool_calls") with
    | None => (s, false)
    | Some ts =>
        let s := s <| ch_tools := foldl tool_delta (ch_tools s) ts |> in
        (if truthy_val (prop data "usage") then s <| ch_usage := normalizedUsage (prop data "usage") |> else s, true)
    end.

(** What an unterminated last frame still counts for: its usage. *)
(* [src/backend/src/providers/provider-adapter.js:448-451] flush *)
Definition chat_flush (s : chat_state) (buffer : string) : option chat_state :=
  if starts_with "data:" (trim buffer) then
    foldl (λ o d, s ← o; if is_nullish d then None
                          else Some (if truthy_val (prop d "usage") then s <| ch_usage := normalizedUsage (prop d "usage") |> else s))
      (Some s) (parseSseData parse true (buffer ++ String newline "")).1
  else Some s.

(* [src/backend/src/providers/provider-adapter.js:455-467] toolCalls *)
Definition chat_final (model : string) (s : chat_state) : completion :=
  let toolCalls := (λ e, ToolCall (pt_id e.2) (or_str (pt_name e.2) "unknown") (parsed_arguments (pt_args e.2))) <$> ch_tools s in
  Completion (ch_text s) toolCalls (ch_usage s) model
    (match ch_finish s with Some f => f | None => match toolCalls with [] => "stop" | _ => "tool_calls" end end) (ch_requestId s).

(* [src/backend/src/providers/provider-adapter.js:397-468] stream *)
Definition stream_openai (pid apiKey : string) (defaultModel : option string) (network : chat_body → reply * list string * bool)
    (q : request) : stream_result :=
  match validateCompleteRequest q with
  | Some e => StreamResult [] (inl (Refused e))
  | None =>
      match model_of defaultModel q with
      | None => StreamResult [] (inl (Refused (bad_request ("No model configured for " ++ pid))))
      | Some model =>
          let '(r, chunks, whole) := network (chat_body_of model true q) in
          match openStream parse pid apiKey r with
          | inl e => StreamResult [] (inl (Refused e))
          | inr _ =>
              let '(s, ok, buffer) := visit_chunks chat_event chat_start "" chunks in
              StreamResult (ch_deltas s)
                (if negb ok then inl BadFrame
                 else if negb whole then inl WhileReading
                 else match chat_flush s buffer with Some s => inr (chat_final model s) | None => inl BadFrame end)
          end
      end
  end.

(** *** Anthropic *)

Record block_state := BlockState {
  bk_deltas : list string; bk_text : string; bk_input : option num; bk_output : option num; bk_reasoning : option num;
  bk_requestId : jsval; bk_tools : list (Z * partial_call);
}.
#[local] Instance block_eta : Eta block_state := λ b,
  BlockState (bk_deltas b) (bk_text b) (bk_input b) (bk_output b) (bk_reasoning b) (bk_requestId b) (bk_tools b).
Definition block_start : block_state := BlockState [] "" None None None JNull [].

(** [data.index || 0] *)
Definition block_index (data : jsval) : Z := match prop data "index" with JNum n => n | _ => 0%Z end.
Definition count_or (v : jsval) (old : option num) : option num :=
  let n := to_num v in if isFinite n && nle nzero n then Some n else old.
Definition type_is (t : string) (v : jsval) : bool := bool_decide (prop v "type" = JStr t).

(** A call without an id or a name has the empty one. *)
(* [src/backend/src/providers/provider-adapter.js:671-693] data *)
Definition block_event (s : block_state) (data : jsval) : block_state * bool :=
  if is_nullish data then (s, false)
  else
    let message := prop data "message" in
    let delta := prop data "delta" in
    if type_is "message_start" data then
      (s <| bk_requestId := or_val (prop message "id") (bk_requestId s) |>
         <| bk_input := count_or (prop (prop message "usage") "input_tokens") (bk_input s) |>, true)
    else if type_is "content_block_start" data then
      let b := prop data "content_block" in
      (if type_is "tool_use" b
            then s <| bk_tools := mset (bk_tools s) (block_index data) (PartialCall (text_or (prop b "id") "") (text_or (prop b "name") "") "") |>
            else s, true)
    else if type_is "content_block_delta" data then
      (if type_is "text_delta" delta && truthy_val (prop delta "text") then
              let t := to_string (prop delta "text") in s <| bk_text := bk_text s ++ t |> <| bk_deltas := (bk_deltas s ++ [t])%list |>
            else if type_is "input_json_delta" delta then
              let i := block_index data in
              let e := default (PartialCall ("call-" ++ string_of_Z i) "unknown" "") (mget (bk_tools s) i) in
              s <| bk_tools := mset (bk_tools s) i (PartialCall (pt_id e) (pt_name e) (pt_args e ++ text_or (prop delta "partial_json") "")) |>
            else s, true)
    else if type_is "message_delta" data then
      let u := prop data "usage" in
      (s <| bk_output := count_or (prop u "output_tokens") (bk_output s) |>
              <| bk_reasoning := count_or (or_val (prop (prop u "output_tokens_details") "reasoning_tokens") (prop u "reasoning_tokens"))
                                   (bk_reasoning s) |>, true)
    else (s, true).

(* [src/backend/src/providers/provider-adapter.js:696-707] toolCalls *)
Definition block_final (model : string) (s : block_state) : completion :=
  let toolCalls := (λ e, ToolCall (pt_id e.2) (pt_name e.2) (parsed_arguments (pt_args e.2))) <$> bk_tools s in
  Completion (bk_text s) toolCalls (Usage (bk_input s) (bk_output s) None (bk_reasoning s) None None) model
    (match toolCalls with [] => "end_turn" | _ => "tool_use" end) (bk_requestId s).

(** What is sent: the system text apart, the turns, and the tools by name. *)
Record messages_body := MessagesBody {
  mb_model : string; mb_system : option string; mb_turns : list turn; mb_maxTokens : Z; mb_temperature : num;
  mb_tools : list jsval; mb_stream : bool;
}.
Definition anthropic_tool (t : jsval) : jsval :=
  let f := prop t "function" in
  JObj [("name", prop f "name"); ("description", or_val (prop f "description") (JStr ""));
        ("input_schema", or_val (prop f "parameters") (JObj [("type", JStr "object")]))].
(* [src/backend/src/providers/provider-adapter.js:611-617] body *)
Definition messages_body_of (model : string) (stream : bool) (q : request) : messages_body :=
  let ms := call_list (rq_messages q) in
  let system := system_of ms in
  MessagesBody model (if truthy_str system then Some system else None) (normalizeAnthropicMessages ms) (max_tokens q)
    (default (ratio 2 10) (rq_temperature q)) (anthropic_tool <$> rq_tools q) stream.

(* [src/backend/src/providers/provider-adapter.js:645-708] stream *)
Definition stream_anthropic (apiKey : string) (defaultModel : option string) (network : messages_body → reply * list string * bool)
    (q : request) : stream_result :=
  match validateCompleteRequest q with
  | Some e => StreamResult [] (inl (Refused e))
  | None =>
      match model_of defaultModel q with
      | None => StreamResult [] (inl (Refused (bad_request "No model configured for anthropic")))
      | Some model =>
          let '(r, chunks, whole) := network (messages_body_of model true q) in
          match openStream parse "anthropic" apiKey r with
          | inl e => StreamResult [] (inl (Refused e))
          | inr _ =>
              let '(s, ok, _) := visit_chunks block_event block_start "" chunks in
              StreamResult (bk_deltas s)
                (if negb ok then inl BadFrame else if negb whole then inl WhileReading else inr (block_final model s))
          end
      end
  end.

(** A block of the answer of [complete]. *)
Definition add_block (acc : string * list tool_call) (b : jsval) : string * list tool_call :=
  if type_is "text" b then (acc.1 ++ to_string (prop b "text"), acc.2)
  else if type_is "tool_use" b
  then (acc.1, (acc.2 ++ [ToolCall (text_or (prop b "id") "") (text_or (prop b "name") "") (or_val (prop b "input") (JObj []))])%list)
  else acc.
Definition given_count (v : jsval) : option num := if is_nullish v then None else Some (to_num v).

(* [src/backend/src/providers/provider-adapter.js:623-642] complete *)
Definition anthropic_completion (model : string) (data : jsval) : option completion :=
  match iterate (prop data "content") with
  | None => None
  | Some blocks =>
      let '(text, toolCalls) := foldl add_block ("", []) blocks in
      let u := prop data "usage" in
      let cost := to_num (prop u "cost") in
      Some (Completion text toolCalls
        (Usage (given_count (prop u "input_tokens")) (given_count (prop u "output_tokens")) (given_count (prop u "cache_read_input_tokens"))
           (given_count (nullish_or (prop (prop u "output_tokens_details") "reasoning_tokens") (prop u "reasoning_tokens")))
           (if isFinite cost then Some cost else None) None)
        (text_or (prop data "model") model)
        (text_or (prop data "stop_reason") (match toolCalls with [] => "end_turn" | _ => "tool_use" end))
        (or_val (prop data "id") JNull))
  end.

(* [src/backend/src/providers/provider-adapter.js:606-643] complete *)
Definition complete_anthropic (apiKey : string) (defaultModel : option string) (network : messages_body → reply) (q : request)
    : perror + option completion :=
  match validateCompleteRequest q with
  | Some e => inl e
  | None =>
      match model_of defaultModel q with
      | None => inl (bad_request "No model configured for anthropic")
      | Some model =>
          match fetchJson parse "anthropic" apiKey (network (messages_body_of model false q)) with
          | inl e => inl e
          | inr data => inr (anthropic_completion model data)
          end
      end
  end.

(** What the orchestrator makes of a call: the text events it emits and the result. *)
(* [src/backend/src/core/orchestrator.js:1410-1426] _callProvider *)
Definition callProvider (live : bool) (stream : stream_result) (complete : stream_error + completion)
    : list string * (stream_error + completion) :=
  if live then (sr_deltas stream, sr_final stream)
  else (match complete with inr c => if truthy_str (cp_text c) then [cp_text c] else [] | inl _ => [] end, complete).

(** ** What holds of them *)

(** C22: How the network cuts a streamed answer does not matter. For both kinds of
    adapter, when no piece ends between a carriage return and its line feed, the
    deltas yielded and the final result - or the error - are those of the answer
    delivered in one piece. *)
Theorem stream_chunking_irrelevant pid apiKey defaultModel q r chunks whole : whole_line_ends chunks →
  stream_openai pid apiKey defaultModel (λ _, (r, chunks, whole)) q = stream_openai pid apiKey defaultModel (λ _, (r, [joined chunks], whole)) q ∧
  stream_anthropic apiKey defaultModel (λ _, (r, chunks, whole)) q = stream_anthropic apiKey defaultModel (λ _, (r, [joined chunks], whole)) q.
Proof.
  intros H. split; [unfold stream_openai|unfold stream_anthropic];
    (destruct (validateCompleteRequest q); [done|]); (destruct (model_of defaultModel q); [|done]);
    (destruct (openStream parse _ apiKey r); [done|]).
  - pose proof (visit_whole chat_event chat_start chunks H) as Hw.
    destruct (visit_chunks chat_event chat_start "" chunks) as [[s1 ok1] r1].
    destruct (visit_chunks chat_event chat_start "" [joined chunks]) as [[s2 ok2] r2].
    destruct Hw as (-> & -> & Hr). destruct ok2; [|done]. by rewrite (Hr eq_refl).
  - pose proof (visit_whole block_event block_start chunks H) as Hw.
    destruct (visit_chunks block_event block_start "" chunks) as [[s1 ok1] r1].
    destruct (visit_chunks block_event block_start "" [joined chunks]) as [[s2 ok2] r2].
    by destruct Hw as (-> & -> & _).
Qed.

(** *** A streamed answer is the answer *)

(** The pieces of an answer: a text, or a part of the call of some number. *)
Inductive fragment := TextPart (d : string) | CallPart (i : nat) (id name args : string).
Definition empty_as_absent (s : string) : jsval := if truthy_str s then JStr s else JUndef.
Definition delta_of (d : list (string * jsval)) : jsval := JObj [("choices", JArr [JObj [("delta", JObj d)]])].
Definition call_payload (fields : list (string * jsval)) (id name : jsval) (args : string) : jsval :=
  JObj (fields ++ [("id", id); ("function", JObj [("name", name); ("arguments", JStr args)])])%list.
Definition event_of (f : fragment) : jsval :=
  match f with
  | TextPart d => delta_of [("content", JStr d)]
  | CallPart i id name args =>
      delta_of [("tool_calls", JArr [call_payload [("index", JNum (Z.of_nat i))] (empty_as_absent id) (empty_as_absent name) args])]
  end.

(** Fragments that make up a text and a list of calls, with their id, name and
    arguments: a call is opened with its id and name, and its arguments continue
    whenever they do. *)
Inductive makes_up : list fragment → string → list (string * string * string) → Prop :=
| no_fragment : makes_up [] "" []
| more_text ps t cs d : makes_up ps t cs → makes_up (ps ++ [TextPart d])%list (t ++ d) cs
| new_call ps t cs id name args : makes_up ps t cs → id ≠ "" → name ≠ "" →
    makes_up (ps ++ [CallPart (length cs) id name args])%list t (cs ++ [(id, name, args)])%list
| more_args ps t cs i id name args d : makes_up ps t cs → cs !! i = Some (id, name, args) →
    makes_up (ps ++ [CallPart i "" "" d])%list t (<[i := (id, name, args ++ d)]> cs).

(** The same answer in one payload. *)
Definition message_payload (t : string) (cs : list (string * string * string)) : jsval :=
  JObj [("choices", JArr [JObj [("message", JObj [("content", JStr t);
    ("tool_calls", JArr ((λ c, call_payload [] (JStr c.1.1) (JStr c.1.2) c.2) <$> cs))])]])].

Definition partial_of (c : string * string * string) : partial_call := PartialCall c.1.1 c.1.2 c.2.
Definition numbered (cs : list (string * string * string)) : list (Z * partial_call) := imap (λ i c, (Z.of_nat i, partial_of c)) cs.

Lemma numbered_get cs k : mget (numbered cs) (Z.of_nat k) = partial_of <$> cs !! k.
Proof.
  unfold numbered. assert (H : ∀ n, mget (imap (λ i c, (Z.of_nat (n + i), partial_of c)) cs) (Z.of_nat (n + k)) = partial_of <$> cs !! k);
    [|by apply (H 0)].
  revert k. induction cs as [|c cs IH]; intros k n; [done|]. rewrite imap_cons. cbn [mget]. case_decide as E.
  - assert (k = 0) as -> by lia. done.
  - destruct k as [|k]; [lia|]. change ((c :: cs) !! S k) with (cs !! k). rewrite <-(IH k (S n)).
    replace (S n + k) with (n + S k) by lia. f_equal. apply imap_ext. intros j x _. cbn. do 2 f_equal. lia.
Qed.

Lemma numbered_set cs k c : k < length cs → mset (numbered cs) (Z.of_nat k) (partial_of c) = numbered (<[k := c]> cs).
Proof.
  unfold numbered. assert (H : ∀ n, k < length cs → mset (imap (λ i c, (Z.of_nat (n + i), partial_of c)) cs) (Z.of_nat (n + k)) (partial_of c) =
    imap (λ i c, (Z.of_nat (n + i), partial_of c)) (<[k := c]> cs)); [|by apply (H 0)].
  revert k. induction cs as [|x cs IH]; intros k n Hk; [cbn in Hk; lia|]. rewrite imap_cons. cbn [mset]. case_decide as E.
  - assert (k = 0) as -> by lia. cbn. by rewrite Nat.add_0_r.
  - destruct k as [|k]; [lia|]. change (<[S k:=c]> (x :: cs)) with (x :: <[k:=c]> cs). rewrite imap_cons. f_equal. cbn in Hk.
    rewrite (imap_ext _ (λ i c, (Z.of_nat (S n + i), partial_of c)) cs) by (intros j y _; cbn; do 2 f_equal; lia).
    rewrite (imap_ext _ (λ i c, (Z.of_nat (S n + i), partial_of c)) (<[k:=c]> cs)) by (intros j y _; cbn; do 2 f_equal; lia).
    replace (n + S k) with (S n + k) by lia. apply IH. lia.
Qed.

Lemma numbered_new cs c : mset (numbered cs) (Z.of_nat (length cs)) (partial_of c) = numbered (cs ++ [c]).
Proof.
  rewrite mset_new; [|by rewrite numbered_get, lookup_ge_None_2]. unfold numbered. rewrite imap_app. cbn. by rewrite Nat.add_0_r.
Qed.

Lemma text_event s d : chat_event s (event_of (TextPart d)) =
  (if truthy_str d then s <| ch_text := ch_text s ++ d |> <| ch_deltas := (ch_deltas s ++ [d])%list |> else s, true).
Proof. destruct s. cbn. by destruct d. Qed.

Lemma part_event s i id name args : chat_event s (event_of (CallPart i id name args)) =
  (s <| ch_tools := tool_delta (ch_tools s) (call_payload [("index", JNum (Z.of_nat i))] (empty_as_absent id) (empty_as_absent name) args) |>, true).
Proof. destruct s. cbn. done. Qed.

Lemma part_delta tools i id name args :
  let e := default (PartialCall (or_str id ("call-" ++ string_of_Z (Z.of_nat i))) "" "") (mget tools (Z.of_nat i)) in
  tool_delta tools (call_payload [("index", JNum (Z.of_nat i))] (empty_as_absent id) (empty_as_absent name) args) =
  mset tools (Z.of_nat i) (PartialCall (or_str id (pt_id e)) (or_str name (pt_name e)) (pt_args e ++ args)).
Proof. by destruct id, name, args. Qed.

Record assembled (t : string) (cs : list (string * string * string)) (s : chat_state) : Prop := {
  as_text : ch_text s = t; as_deltas : joined (ch_deltas s) = t; as_tools : ch_tools s = numbered cs;
  as_rest : ch_usage s = no_usage ∧ ch_finish s = None ∧ ch_requestId s = JNull;
  as_named : Forall (λ c, c.1.1 ≠ "" ∧ c.1.2 ≠ "") cs;
}.

Lemma fragments_assemble ps t cs : makes_up ps t cs →
  ∃ s, visit chat_event chat_start (event_of <$> ps) = (s, true) ∧ assembled t cs s.
Proof.
  induction 1 as [|ps t cs d H (s & E & [Ht Hd Hc Hr Hn])|ps t cs id name args H (s & E & [Ht Hd Hc Hr Hn]) Hi Hm
                 |ps t cs i id name args d H (s & E & [Ht Hd Hc Hr Hn]) Hl].
  - exists chat_start. split; [done|]. by split.
  - rewrite fmap_app, visit_app, E. cbn [fmap list_fmap visit]. rewrite text_event.
    destruct d as [|c d]; cbn [truthy_str]; eexists; (split; [done|]); split; cbn; auto.
    + by rewrite string_app_nil_r.
    + by rewrite string_app_nil_r.
    + by rewrite Ht.
    + by rewrite joined_app, joined_one, Hd.
  - rewrite fmap_app, visit_app, E. cbn [fmap list_fmap visit]. rewrite part_event, part_delta.
    eexists. split; [done|]. split; [done|done| |done|apply Forall_app; by auto]. cbn. rewrite Hc, numbered_get, lookup_ge_None_2 by done.
    cbn [fmap option_fmap option_map default pt_id pt_name pt_args]. rewrite <-numbered_new. unfold partial_of. cbn.
    by destruct id, name.
  - rewrite fmap_app, visit_app, E. cbn [fmap list_fmap visit]. rewrite part_event, part_delta.
    eexists. split; [done|]. split; [done|done| |done|].
    + cbn. rewrite Hc, numbered_get, Hl. cbn. rewrite <-numbered_set by (by eapply lookup_lt_Some). done.
    + apply Forall_insert; [done|]. by apply (proj1 (Forall_lookup _ _) Hn _ _ Hl).
Qed.

Lemma whole_calls freshId cs : Forall (λ c, c.1.1 ≠ "" ∧ c.1.2 ≠ "") cs → Forall (λ c, c.2 ≠ "") cs →
  mapM (tool_call_of parse freshId) ((λ c, call_payload [] (JStr c.1.1) (JStr c.1.2) c.2) <$> cs) =
  Some ((λ e, ToolCall (pt_id e.2) (or_str (pt_name e.2) "unknown") (parsed_arguments (pt_args e.2))) <$> numbered cs).
Proof.
  intros H1 H2. unfold numbered. rewrite fmap_imap, (imap_ext _ (const (λ c, ToolCall c.1.1 (or_str c.1.2 "unknown") (parsed_arguments c.2)))) by done.
  rewrite imap_const. induction cs as [|[[id name] args] cs IH]; [done|].
  apply Forall_cons in H1 as [[Hi Hn] H1], H2 as [Ha H2]. cbn in Hi, Hn, Ha. rewrite !fmap_cons. cbn [mapM].
  rewrite (IH H1 H2). by destruct id, name, args.
Qed.

End Streams.

(** ** Checks on concrete values *)

Definition demo_events (s : string) : option jsval :=
  if String.eqb s "T" then Some (event_of (TextPart "Hello"))
  else if String.eqb s "U" then Some (JObj [("choices", JArr [JObj [("delta", JObj [("content", JStr " world")])]]); ("usage", JObj [("prompt_tokens", JNum 7)])])
  else if String.eqb s "E" then Some (JObj [("error", JObj [("code", JNum 502); ("message", JStr "upstream failed")])])
  else if String.eqb s "N" then Some JNull
  else if String.eqb s "M" then Some (JObj [("type", JStr "message_delta"); ("delta", JObj [("stop_reason", JStr "max_tokens")])])
  else if String.eqb s "O" then Some (JObj [("type", JStr "error"); ("error", JObj [("type", JStr "overloaded_error")])])
  else None.
Definition frame (s : string) : string := "data: " ++ s ++ lf ++ lf.
Definition demo_request : request :=
  Request (Some "m") (JArr [JObj [("role", JStr "user"); ("content", JStr "Hi")]]) None JUndef JUndef [] false.
Definition streamed (chunks : list string) (whole : bool) : stream_result :=
  stream_openai demo_events "openrouter" "key" None (λ _, (Reply 200 "", chunks, whole)) demo_request.
Definition final_text (r : stream_result) : option (string * string) :=
  match sr_final r with inr c => Some (cp_text c, cp_stopReason c) | inl _ => None end.

(** An error that arrives in the stream ends it as a success with what came before. *)
Example error_frame_is_success : final_text (streamed [frame "T"; frame "E"] true) = Some ("Hello", "stop").
Proof. vm_compute. reflexivity. Qed.

Example overloaded_is_success :
  sr_final (stream_anthropic demo_events "key" None (λ _, (Reply 200 "", [frame "O"], true)) demo_request) =
  inr (Completion "" [] no_usage "m" "end_turn" JNull).
Proof. vm_compute. reflexivity. Qed.

(** A last frame without its blank line counts for its usage but not for its text. *)
Example unterminated_text_lost :
  let r := streamed [frame "T"; "data: U"] true in
  final_text r = Some ("Hello", "stop") ∧
  (match sr_final r with inr c => us_input (cp_usage c) | inl _ => None end) = Some (of_Z 7).
Proof. vm_compute. by split. Qed.

(** A timeout after the response was opened is no [ProviderError]. *)
Example late_timeout : streamed [frame "T"] false = StreamResult ["Hello"] (inl WhileReading).
Proof. vm_compute. reflexivity. Qed.

(** An event that carries text and malformed calls: its text is yielded, then the
    stream ends with a [TypeError]. *)
Example text_before_bad_calls :
  let s := visit chat_event chat_start [delta_of [("content", JStr "Hi"); ("tool_calls", JNum 1)]; event_of (TextPart "there")] in
  (ch_deltas s.1, s.2) = (["Hi"], false).
Proof. vm_compute. reflexivity. Qed.

(** A frame that holds [null] ends the stream with a [TypeError]. *)
Example null_frame : streamed [frame "T"; frame "N"] true = StreamResult ["Hello"] (inl BadFrame).
Proof. vm_compute. reflexivity. Qed.

(** The stream of Anthropic does not read why it stopped; the plain call does. *)
Example stop_reason_lost :
  (match sr_final (stream_anthropic demo_events "key" None (λ _, (Reply 200 "", [frame "M"], true)) demo_request) with
   | inr c => cp_stopReason c | inl _ => "" end) = "end_turn" ∧
  cp_stopReason <$> anthropic_completion "m" (JObj [("stop_reason", JStr "max_tokens")]) = Some "max_tokens".
Proof. vm_compute. by split. Qed.

(** A call without arguments is parsed in one way when streamed and in another when not. *)
Example empty_arguments :
  tc_arguments <$> tool_call_of demo_events "r" (call_payload [] (JStr "c") (JStr "list_files") "") = Some (raw_arguments "") ∧
  parsed_arguments demo_events "" = JObj [].
Proof. vm_compute. by split. Qed.

Definition demo_chunks : list string := ["data: T" ++ lf; lf ++ "data:"; " U" ++ lf ++ lf].
Lemma stream_chunking_irrelevant_witness :
  streamed demo_chunks true = streamed [joined demo_chunks] true ∧ final_text (streamed demo_chunks true) = Some ("Hello world", "stop").
Proof.
  split; [|vm_compute; reflexivity].
  apply (stream_chunking_irrelevant demo_events "openrouter" "key" None demo_request (Reply 200 "") demo_chunks true).
  apply no_cr_whole. reflexivity.
Defined.

Definition demo_fragments : list fragment :=
  [TextPart "Look"; CallPart 0 "a" "read" "{"; CallPart 1 "b" "grep" "[]"; TextPart "ing"; CallPart 0 "" "" "}"].
Lemma demo_makes_up : makes_up demo_fragments "Looking" [("a", "read", "{}"); ("b", "grep", "[]")].
Proof.
  apply (more_args [TextPart "Look"; CallPart 0 "a" "read" "{"; CallPart 1 "b" "grep" "[]"; TextPart "ing"] "Looking"
    [("a", "read", "{"); ("b", "grep", "[]")] 0 "a" "read" "{" "}"); [|done].
  apply (more_text [TextPart "Look"; CallPart 0 "a" "read" "{"; CallPart 1 "b" "grep" "[]"] "Look" _ "ing").
  apply (new_call [TextPart "Look"; CallPart 0 "a" "read" "{"] "Look" [("a", "read", "{")] "b" "grep" "[]"); [|done..].
  apply (new_call [TextPart "Look"] "Look" [] "a" "read" "{"); [|done..].
  apply (more_text [] "" [] "Look"). constructor.
Qed.

