(* ===== verification/SandboxWorker.v ===== *)
(** The sandbox worker (sandbox-worker/server.js), which runs the commands of a run
    in a workspace made for the request: what it accepts, what it writes, runs,
    returns and removes.

    The operating system is an argument: what the command leaves behind, [lstat],
    [readFile]. The URL parser is an argument. Messages of errors are left out.
    Fields that should be numbers are numbers or absent. *)

From S2P Require Import Prelude JsMap JsValue Text Regex Paths CommandGuard Isolation.

Local Open Scope string_scope.

(** ** Bounds *)

(* [src/sandbox-worker/server.js:64-77] MAX_BODY_BYTES *)
Definition MAX_BODY_BYTES : Z := 12 * 1024 * 1024.
Definition WS_MAX_FILES : nat := 200.
Definition WS_MAX_FILE_BYTES : Z := 1024 * 1024.
Definition WS_MAX_TOTAL_BYTES : Z := 8 * 1024 * 1024.
Definition COLLECT_MAX : nat := 20.
Definition COLLECT_MAX_BYTES : Z := 2 * 1024 * 1024.
Definition MANIFEST_MAX_ENTRIES : nat := 100.
Definition DEFAULT_TIMEOUT_MS : Z := 30000.
Definition MAX_TIMEOUT_MS : Z := 180000.
Definition DEFAULT_MAX_OUTPUT : Z := 64 * 1024.
Definition HARD_MAX_OUTPUT : Z := 512 * 1024.

(* [src/sandbox-worker/server.js:90-90] ALLOWED_BINS *)
Definition ALLOWED_BINS : list string := ["node"; "npm"; "pytest"; "python"; "python3"; "cargo"; "go"; "git"].
(* [src/sandbox-worker/server.js:84-89] BLOCKED_BINS *)
Definition WORKER_BLOCKED_BINS : list string :=
  ["sh"; "bash"; "zsh"; "dash"; "fish"; "ksh"; "powershell"; "pwsh"; "cmd"; "cmd.exe";
   "curl"; "wget"; "nc"; "ncat"; "socat"; "ssh"; "scp"; "ftp"; "telnet";
   "ruby"; "perl"; "php"; "lua"; "env"; "export"; "source"; "eval"; "exec";
   "docker"; "podman"; "kubectl"; "sudo"; "su"; "chmod"; "chown"; "rm"].
(* [src/sandbox-worker/server.js:91-95] REDIRECT_FLAG_RES *)
Definition REDIRECT_FLAG_RES : list (string → bool) :=
  [re_flag "--prefix" word_end; re_flag "--workspace" word_end; re_flag "--node-options" eq_or_space;
   re_flag "--exec" word_end; re_flag "--rootdir" eq_or_space; re_flag "--cache" word_end;
   re_flag "--userconfig" eq_or_space; re_flag "--global" word_end].
(* [src/sandbox-worker/server.js:96-96] SECRET_KEY_RE *)
Definition SECRET_KEY_RE (k : string) : bool :=
  test (parse_i "(api[_-]?key|secret|token|password|passwd|bearer|authorization|private[_-]?key|client[_-]?secret|session|cookie|stripe)") k.

(** ** Requests *)

(** The thrown value: a status and a code. *)
Record refusal := Refusal { rf_status : Z; rf_code : string }.
Definition bad_params : refusal := Refusal 400 "bad_params".
Definition refused : refusal := Refusal 403 "denied".

(** A check that throws [e], then the rest. *)
Definition check {A} (b : bool) (e : refusal) (k : refusal + A) : refusal + A := if b then k else inl e.

(** [depth > 4] ends the search. *)
(* [src/sandbox-worker/server.js:105-112] findSecretKeys *)
Fixpoint worker_secret_keys (fuel : nat) (v : jsval) : list string :=
  match fuel with
  | O => []
  | S fuel =>
      match v with
      | JObj fs => mjoin ((λ f, (if SECRET_KEY_RE f.1 then [f.1] else []) ++ worker_secret_keys fuel f.2)%list <$> fs)
      | JArr xs => mjoin (worker_secret_keys fuel <$> xs)
      | _ => []
      end
  end.

(* [src/sandbox-worker/server.js:186-201] assertWorkspaceRelPath *)
Definition rel_path (p : jsval) : refusal + string :=
  match p with
  | JStr s =>
      check (truthy_str s && negb (bool_decide (500 < String.length s)%nat)) refused $
      check (negb (any_char (one_of CommandGuard.control_chars) s)) refused $
      let norm := backslash_to_slash s in
      check (negb (starts_with "/" norm || drive_prefix norm)) refused $
      check (negb (bool_decide (".." ∈ split_on "/"%char norm))) refused $ inr norm
  | _ => inl refused
  end.

Section Worker.
(** [Buffer.from(s, 'base64')] *)
Context (decode64 : string → string).

(** One file of the snapshot: the bytes so far and the files accepted. *)
(* [src/sandbox-worker/server.js:212-222] files *)
Definition snapshot_file (acc : Z * list (string * string)) (f : jsval) : refusal + (Z * list (string * string)) :=
  check (is_object f) bad_params $
  match rel_path (prop f "path") with
  | inl e => inl e
  | inr rel =>
      let b64 := string_or_empty (prop f "contentBase64") in
      check (is_base64_text b64) bad_params $
      let buf := decode64 b64 in
      let n := Z.of_nat (String.length buf) in
      check (negb (bool_decide (WS_MAX_FILE_BYTES < n)%Z)) refused $
      check (negb (bool_decide (WS_MAX_TOTAL_BYTES < acc.1 + n)%Z)) refused $
      inr ((acc.1 + n)%Z, (acc.2 ++ [(rel, buf)])%list)
  end.

Fixpoint fold_checked {A B} (f : A → B → refusal + A) (a : A) (l : list B) : refusal + A :=
  match l with [] => inr a | x :: l => match f a x with inr a' => fold_checked f a' l | inl e => inl e end end.

(* [src/sandbox-worker/server.js:203-224] validateWorkspaceSnapshot *)
Definition worker_snapshot (ws : jsval) : refusal + list (string * string) :=
  match ws, prop ws "files" with
  | JObj _, JArr fs =>
      check (negb (bool_decide (WS_MAX_FILES < length fs)%nat)) refused $
      match fold_checked snapshot_file (0%Z, []) fs with inr acc => inr acc.2 | inl e => inl e end
  | _, _ => inl bad_params
  end.

(* [src/sandbox-worker/server.js:128-142] args *)
Definition worker_arg (a : string) : bool :=
  truthy_str a && negb (bool_decide (500 < String.length a)%nat) && negb (SHELL_META_RE a) && negb (ENV_ASSIGN_RE a)
  && negb (any_char (one_of CommandGuard.control_chars) a) && negb (bool_decide (".." ∈ split_slashes a))
  && negb (isAbsolute a).

Definition bounded (v : jsval) (d lo hi : Z) : Z :=
  Z.min (Z.max (match v with JNum n => if (n =? 0)%Z then d else n | _ => d end) lo) hi.

Record job := Job {
  jb_command : string; jb_args : list string; jb_networkMode : string; jb_allowlist : list string;
  jb_files : list (string * string); jb_collect : list string; jb_timeoutMs : Z; jb_maxOutput : Z;
}.

Definition nonempty_text (v : jsval) : bool := is_string v && truthy_val v.
Definition strings_of (v : jsval) : list string := match v with JArr l => to_string <$> l | _ => [] end.
Definition inline_code (command first : string) : bool :=
  bool_decide (command ∈ ["python"; "python3"]) && bool_decide (first ∈ ["-c"; "--command"]).

(** Where the checks are made in the code. *)
(* [src/sandbox-worker/server.js:114-182] validateRequest *)
Definition validateRequest (body : jsval) : refusal + job :=
  check (is_object body) bad_params $
  check (nonempty_text (prop body "runId")) bad_params $
  check (nonempty_text (prop body "command")) bad_params $
  check (match worker_secret_keys 5 body with [] => true | _ => false end) (Refusal 400 "secret_refused") $
  let command := to_string (prop body "command") in
  check (bool_decide (command ∈ ALLOWED_BINS) && negb (bool_decide (command ∈ WORKER_BLOCKED_BINS))) refused $
  let args := strings_of (prop body "args") in
  check (negb (bool_decide (20 < length args)%nat)) refused $
  check (forallb worker_arg args) refused $
  check (negb (containsSubstitution (js_join " " (command :: args)))) refused $
  let first := default "" (head args) in
  check (negb (String.eqb command "node" && negb (truthy_str first))) bad_params $
  check (negb (String.eqb command "node" && starts_with "-" first)) refused $
  check (negb (inline_code command first)) refused $
  check (negb (existsb (λ re, re (" " ++ js_join " " args)) REDIRECT_FLAG_RES)) refused $
  let mode := if truthy_val (prop body "networkMode") then prop body "networkMode" else JStr "disabled" in
  match mode with
  | JStr mode =>
      check (bool_decide (mode ∈ ["disabled"; "allowlist"; "enabled"])) bad_params $
      check (negb (String.eqb mode "enabled")) refused $
      match (if is_nullish (prop body "workspace") then inr [] else worker_snapshot (prop body "workspace")) with
      | inl e => inl e
      | inr files =>
          match (if is_nullish (prop body "collect") then inr []
                 else match prop body "collect" with
                      | JArr ps => check (negb (bool_decide (COLLECT_MAX < length ps)%nat)) bad_params $
                                   fold_checked (λ acc p, match rel_path p with inr r => inr (acc ++ [r])%list | inl e => inl e end) [] ps
                      | _ => inl bad_params
                      end) with
          | inl e => inl e
          | inr collect =>
              inr (Job command args mode (take 50 (strings_of (prop body "networkAllowlist"))) files collect
                     (bounded (prop body "timeoutMs") DEFAULT_TIMEOUT_MS 1000 MAX_TIMEOUT_MS)
                     (bounded (prop body "maxOutputBytes") DEFAULT_MAX_OUTPUT 1024 HARD_MAX_OUTPUT))
          end
      end
  | _ => inl bad_params
  end.
End Worker.

(** ** Execution *)

(* [src/sandbox-worker/server.js:229-240] childEnv *)
Definition childEnv (sandboxPath : string) (networkMode : string) : list (string * string) :=
  ([("PATH", slice0 (Z.to_nat 2000) (or_str sandboxPath "/usr/local/bin:/usr/bin:/bin")); ("LANG", "C.UTF-8"); ("TERM", "dumb");
    ("SANDBOX_ISOLATED", "1")]
   ++ (if String.eqb networkMode "disabled" then [] else [("SANDBOX_NETWORK", networkMode)]))%list.

(** The last [n] bytes. *)
(* [src/sandbox-worker/server.js:242-246] capBytes *)
Definition capBytes (s : string) (n : nat) : string :=
  if (String.length s <=? n)%nat then s else String.substring (String.length s - n) n s.

(** What [execFile] reports: an error with its code, if finite, and whether the
    child was killed at the time limit. *)
Record child_error := ChildError { ce_code : option Z; ce_timedOut : bool }.
Record child := Child { ch_error : option child_error; ch_stdout : string; ch_stderr : string }.

(** What the operating system does: the file system after the command has run, as
    [lstat] and [readFile] show it, and the tree of the workspace. *)
Inductive stat := IsFile (size : Z) | IsOther.
Record aftermath := Aftermath { af_lstat : string → option stat; af_read : string → option string; af_tree : option (list (string * node)) }.

Record outcome := Outcome {
  oc_ok : bool; oc_exitCode : option Z; oc_stdout : string; oc_stderr : string; oc_timedOut : bool;
  oc_artifacts : list (string * string); oc_manifest : list (string * option Z);
}.

(** Paths are joined to the directory of the request. *)
Definition resolved (dir rel : string) : string := path_resolve dir rel.

(** The writes, in order; [None] when a path escapes the directory. *)
(* [src/sandbox-worker/server.js:255-263] workspaceFiles *)
Fixpoint materialize (dir : string) (files : list (string * string)) : option (list (string * string)) :=
  match files with
  | [] => Some []
  | (rel, content) :: files =>
      if inside_root dir (resolved dir rel) then cons (resolved dir rel, content) <$> materialize dir files else None
  end.

(** The files read and returned, with their resolved paths; the total is bounded. *)
(* [src/sandbox-worker/server.js:306-331] collectArtifacts *)
Fixpoint collectArtifacts (dir : string) (fs : aftermath) (total : Z) (collect : list string) : list (string * string * string) :=
  match collect with
  | [] => []
  | rel :: collect =>
      let path := resolved dir rel in
      if negb (inside_root dir path) then collectArtifacts dir fs total collect
      else
        match af_lstat fs path with
        | Some (IsFile size) =>
            if (WS_MAX_FILE_BYTES <? size)%Z then collectArtifacts dir fs total collect
            else
              match af_read fs path with
              | None => collectArtifacts dir fs total collect
              | Some buf =>
                  let n := Z.of_nat (String.length buf) in
                  if (WS_MAX_FILE_BYTES <? n)%Z then collectArtifacts dir fs total collect
                  else if (COLLECT_MAX_BYTES <? total + n)%Z then []
                  else (rel, path, buf) :: collectArtifacts dir fs (total + n) collect
              end
        | _ => collectArtifacts dir fs total collect
        end
  end.

Definition relative_to (rel name : string) : string := if truthy_str rel then rel ++ "/" ++ name else name.

(** The walk over the names of a directory; [out] is what is listed so far. *)
(* [src/sandbox-worker/server.js:335-363] manifestWorkspace *)
Fixpoint manifest_walk (rel : string) (n : node) (out : list (string * option Z)) : list (string * option Z) :=
  if (MANIFEST_MAX_ENTRIES <=? length out)%nat then out
  else
    match n with
    | NGone => out
    | NDir None => out
    | NDir (Some entries) =>
        (fix go es out := match es with
         | [] => out
         | (name, e) :: es => go es (manifest_walk (relative_to rel name) e out)
         end) entries out
    | NFile size _ => (out ++ [(rel, Some size)])%list
    | NLink | NOther => (out ++ [(rel, None)])%list
    end.

(** The command sees a child environment without network, its files and a limit of
    time. A failed write or a path outside is an exception, after which the
    directory is removed as well. *)
(* [src/sandbox-worker/server.js:248-302] executeInEphemeralWorkspace *)
Definition executeInEphemeralWorkspace (sandboxPath dir : string) (write_ok : list (string * string) → bool)
    (run : string → list string → list (string * string) → Z → list (string * string) → child * aftermath) (j : job)
    : option (list (string * string) * outcome) :=
  match materialize dir (jb_files j) with
  | None => None
  | Some writes =>
      if negb (write_ok writes) then None
      else
        let '(c, fs) := run (jb_command j) (jb_args j) (childEnv sandboxPath "disabled") (jb_timeoutMs j) writes in
        let stdout := capBytes (ch_stdout c) (Z.to_nat (jb_maxOutput j)) in
        let stderr := capBytes (ch_stderr c) (Z.to_nat (jb_maxOutput j / 2)) in
        let artifacts := (λ a, (a.1.1, a.2)) <$> collectArtifacts dir fs 0 (jb_collect j) in
        let manifest := manifest_walk "" (NDir (af_tree fs)) [] in
        Some (writes,
          match ch_error c with
          | Some e => Outcome false (if ce_timedOut e then None else Some (default 1%Z (ce_code e))) stdout stderr (ce_timedOut e) artifacts manifest
          | None => Outcome true (Some 0%Z) stdout stderr false artifacts manifest
          end)
  end.

(** ** Snapshots of pages *)

Record url := Url { u_protocol : string; u_username : string; u_password : string; u_hostname : string }.

(* [src/sandbox-worker/server.js:396-396] BROWSE_BLOCKED_HOST_RES *)
Definition BROWSE_BLOCKED_HOST_RES : list re :=
  parse_i <$> ["^localhost$"; "^metadata\."; "^instance-data"; "\.local$"; "\.internal$"; "\.lan$"; "\.localhost$"; "\.invalid$"; "\.test$"].
(* [src/sandbox-worker/server.js:397-397] BROWSE_BLOCKED_IP_RES *)
Definition BROWSE_BLOCKED_IP_RES : list re :=
  parse <$> ["^127\."; "^10\."; "^192\.168\."; "^172\.(1[6-9]|2\d|3[01])\."; "^169\.254\."; "^0\."; "^::1$"; "^\[::1\]$"].
Definition url_chars (c : ascii) : bool := one_of ";`$(){}!#~" c || one_of CommandGuard.control_chars c.

Inductive browse := BrowseDemo (url : string) | BrowseLive (url : string).

(* [src/sandbox-worker/server.js:411-438] validateBrowseRequest *)
Definition validateBrowseRequest (parse_url : string → option url) (body : jsval) : refusal + browse :=
  check (is_object body) bad_params $
  check (match worker_secret_keys 5 body with [] => true | _ => false end) (Refusal 400 "secret_refused") $
  let u := string_or_empty (prop body "url") in
  check (truthy_str u) bad_params $
  check (negb (bool_decide (Z.to_nat 2000 < String.length u)%nat)) bad_params $
  check (negb (any_char url_chars u)) refused $
  if test (parse_i "^demo:") u || test (parse_i "^about:demo") u then inr (BrowseDemo u)
  else
    match parse_url u with
    | None => inl bad_params
    | Some p =>
        check (bool_decide (u_protocol p ∈ ["http:"; "https:"])) refused $
        check (negb (truthy_str (u_username p) || truthy_str (u_password p))) refused $
        let host := to_lower (u_hostname p) in
        check (negb (existsb (λ r, test r host) BROWSE_BLOCKED_HOST_RES)) refused $
        check (negb (existsb (λ r, test r host) BROWSE_BLOCKED_IP_RES)) refused $
        check (bool_decide (prop body "networkMode" = JStr "allowlist")) refused $
        check (existsb (λ a, String.eqb host (to_lower a) || ends_with ("." ++ to_lower a) host) (strings_of (prop body "networkAllowlist"))) refused $
        inr (BrowseLive u)
    end.

(** ** The server *)

Record http_request := HttpRequest { hr_method : string; hr_url : string; hr_authorization : string; hr_body : option jsval; hr_bytes : Z }.
Inductive reply := Health | NotFound | Failed (r : refusal) | DemoPage (url : string) | LivePage (url : string)
                | Executed (writes : list (string * string)) (o : outcome).

(** [h.replace(/^Bearer\s+/i, '')] *)
Definition bearer_token (h : string) : string :=
  let rest := string_drop 6 h in
  if starts_with "bearer" (to_lower h) && match rest with String c _ => is_space c | EmptyString => false end
  then drop_spaces is_space rest else h.

Section Server.
Context (expected : option string) (parse_url : string → option url) (decode64 : string → string).
Context (sandboxPath dir : string) (write_ok : list (string * string) → bool).
Context (run : string → list string → list (string * string) → Z → list (string * string) → child * aftermath).

(** Without a configured token every request is accepted. *)
(* [src/sandbox-worker/server.js:499-505] checkAuth *)
Definition checkAuth (q : http_request) : bool :=
  match expected with
  | Some t => if truthy_str t then String.eqb (bearer_token (hr_authorization q)) t else true
  | None => true
  end.

(* [src/sandbox-worker/server.js:365-381] readBody *)
Definition readBody (q : http_request) : refusal + jsval :=
  if (MAX_BODY_BYTES <? hr_bytes q)%Z then inl (Refusal 413 "oversized")
  else match hr_body q with Some b => inr b | None => inl bad_params end.

(* [src/sandbox-worker/server.js:491-571] server *)
Definition worker_handle (q : http_request) : reply :=
  if String.eqb (hr_method q) "GET" && String.eqb (hr_url q) "/v1/health" then Health
  else if String.eqb (hr_method q) "POST" && String.eqb (hr_url q) "/v1/browse" then
    if negb (checkAuth q) then Failed (Refusal 401 "unauthorized")
    else
      match readBody q with
      | inl e => Failed e
      | inr body =>
          match validateBrowseRequest parse_url body with
          | inl e => Failed e
          | inr (BrowseDemo u) => DemoPage u
          | inr (BrowseLive u) => LivePage u
          end
      end
  else if negb (String.eqb (hr_method q) "POST" && String.eqb (hr_url q) "/v1/execute") then NotFound
  else if negb (checkAuth q) then Failed (Refusal 401 "unauthorized")
  else
    match readBody q with
    | inl e => Failed e
    | inr body =>
        match validateRequest decode64 body with
        | inl e => Failed e
        | inr j =>
            match executeInEphemeralWorkspace sandboxPath dir write_ok run j with
            | None => Failed (Refusal 500 "executor_failure")
            | Some (writes, o) => Executed writes o
            end
        end
    end.
End Server.

(** ** What holds of them *)

Lemma check_inr {A} b e (k : refusal + A) x : check b e k = inr x → b = true ∧ k = inr x.
Proof. by destruct b. Qed.

(** A relative path without a parent segment. *)
Definition confined_path (p : string) : Prop := isAbsolute p = false ∧ ".." ∉ split_on slash p.

Lemma rel_path_confined v p : rel_path v = inr p → confined_path p.
Proof.
  destruct v; try done. cbn [rel_path]. intros [_ H]%check_inr. apply check_inr in H as [_ H].
  apply check_inr in H as [Ha H]. apply check_inr in H as [Hd [= <-]]. split.
  - apply negb_true_iff, orb_false_iff in Ha as [Ha _]. done.
  - by apply negb_true_iff, bool_decide_eq_false in Hd.
Qed.

Lemma fold_checked_inv {A B} (P : A → Prop) (f : A → B → refusal + A) l :
  (∀ a x a', P a → f a x = inr a' → P a') → ∀ a a', P a → fold_checked f a l = inr a' → P a'.
Proof.
  intros Hf. induction l as [|x l IH]; intros a a' Ha; cbn; [by intros [= <-]|].
  destruct (f a x) as [e|a1] eqn:E; [done|]. by apply IH, (Hf a x).
Qed.

Section Accepted.
Context (decode64 : string → string).

Lemma snapshot_confined ws fs : worker_snapshot decode64 ws = inr fs →
  Forall (λ f, confined_path f.1 ∧ (Z.of_nat (String.length f.2) ≤ WS_MAX_FILE_BYTES)%Z) fs ∧
  (foldr Z.add 0 ((λ f, Z.of_nat (String.length f.2)) <$> fs) ≤ WS_MAX_TOTAL_BYTES)%Z.
Proof.
  unfold worker_snapshot. destruct ws; try done. destruct (prop _ "files"); try done. intros [_ H]%check_inr.
  destruct (fold_checked _ _ _) as [e|[total out]] eqn:E; [done|]. injection H as <-. cbn [snd].
  set (sum := λ l : list (string * string), foldr Z.add 0%Z ((λ f, Z.of_nat (String.length f.2)) <$> l)).
  assert (Hs : ∀ l f, sum (l ++ [f])%list = (sum l + Z.of_nat (String.length f.2))%Z).
  { intros l f. unfold sum. rewrite fmap_app. induction l as [|x l IH]; cbn in *; [lia|]. rewrite IH. lia. }
  change (Forall (λ f, confined_path f.1 ∧ (Z.of_nat (String.length f.2) ≤ WS_MAX_FILE_BYTES)%Z) out ∧ (sum out ≤ WS_MAX_TOTAL_BYTES)%Z).
  assert (Hp : let a := (total, out) in
    Forall (λ f, confined_path f.1 ∧ (Z.of_nat (String.length f.2) ≤ WS_MAX_FILE_BYTES)%Z) a.2 ∧ (sum a.2 = a.1 ∧ a.1 ≤ WS_MAX_TOTAL_BYTES)%Z).
  { revert E. apply (fold_checked_inv (λ a, Forall (λ f, confined_path f.1 ∧ (Z.of_nat (String.length f.2) ≤ WS_MAX_FILE_BYTES)%Z) a.2 ∧
                                         (sum a.2 = a.1 ∧ a.1 ≤ WS_MAX_TOTAL_BYTES)%Z)); [|by repeat split; try apply Forall_nil_2].
    intros [t l] x a' [Hl [Ht Hb]] [_ Hx]%check_inr. destruct (rel_path _) as [e|rel] eqn:Er; [done|].
    apply check_inr in Hx as [_ Hx]. apply check_inr in Hx as [H1 Hx]. apply check_inr in Hx as [H2 [= <-]]. cbn [fst snd] in *.
    apply negb_true_iff, bool_decide_eq_false in H1, H2. split_and!.
    - apply Forall_app. split; [done|]. apply Forall_singleton. split; [by eapply rel_path_confined|cbn; lia].
    - rewrite Hs. cbn. lia.
    - lia. }
  cbn [fst snd] in Hp. destruct Hp as (Hp1 & Hp2 & Hp3). split; [exact Hp1|]. rewrite Hp2. exact Hp3.
Qed.

(** An argument that is an option or a relative path, and no shell text. *)
Definition plain_arg (a : string) : Prop :=
  a ≠ "" ∧ (String.length a ≤ 500)%nat ∧ SHELL_META_RE a = false ∧ ENV_ASSIGN_RE a = false ∧ isAbsolute a = false ∧ ".." ∉ split_slashes a.

Lemma worker_arg_plain a : worker_arg a = true → plain_arg a.
Proof.
  unfold worker_arg. rewrite !andb_true_iff, !negb_true_iff, !bool_decide_eq_false. intros ((((((H1 & H2) & H3) & H4) & H5) & H6) & H7).
  repeat split; try done; [by destruct a|lia].
Qed.

Record accepted_job (j : job) : Prop := {
  aj_command : jb_command j ∈ ALLOWED_BINS;
  aj_args : Forall plain_arg (jb_args j) ∧ (length (jb_args j) ≤ 20)%nat;
  aj_mode : jb_networkMode j ∈ ["disabled"; "allowlist"];
  aj_files : Forall (λ f, confined_path f.1 ∧ (Z.of_nat (String.length f.2) ≤ WS_MAX_FILE_BYTES)%Z) (jb_files j);
  aj_total : (foldr Z.add 0 ((λ f, Z.of_nat (String.length f.2)) <$> jb_files j) ≤ WS_MAX_TOTAL_BYTES)%Z;
  aj_collect : Forall confined_path (jb_collect j) ∧ (length (jb_collect j) ≤ COLLECT_MAX)%nat;
  aj_time : (1000 ≤ jb_timeoutMs j ≤ MAX_TIMEOUT_MS)%Z;
  aj_output : (1024 ≤ jb_maxOutput j ≤ HARD_MAX_OUTPUT)%Z;
}.

Lemma collected_length ps : ∀ acc acc', fold_checked (λ acc p, match rel_path p with inr r => inr (acc ++ [r])%list | inl e => inl e end) acc ps = inr acc' →
  length acc' = (length acc + length ps)%nat.
Proof.
  induction ps as [|p ps IH]; intros acc acc'; cbn; [intros [= <-]; lia|]. destruct (rel_path p); [done|].
  intros E%IH. rewrite E, length_app. cbn. lia.
Qed.

Lemma bounded_range v d lo hi : (lo ≤ hi)%Z → (lo ≤ bounded v d lo hi ≤ hi)%Z.
Proof. unfold bounded. lia. Qed.

Lemma validateRequest_accepts body j : validateRequest decode64 body = inr j → accepted_job j.
Proof.
  unfold validateRequest. intros [_ H]%check_inr. do 3 apply check_inr in H as [_ H].
  apply check_inr in H as [Hc H]. apply check_inr in H as [Hl H]. apply check_inr in H as [Ha H]. do 5 apply check_inr in H as [_ H].
  destruct (if truthy_val _ then _ else _) as [| | | |mode| |]; try done.
  apply check_inr in H as [Hm H]. apply check_inr in H as [He H].
  destruct (if is_nullish (prop body "workspace") then _ else _) as [e|files] eqn:Ef; [done|].
  destruct (if is_nullish (prop body "collect") then _ else _) as [e|collect] eqn:Ec; [done|].
  injection H as <-. apply andb_true_iff in Hc as [Hc _]. apply bool_decide_eq_true in Hc, Hm.
  apply negb_true_iff in Hl, He. apply bool_decide_eq_false in Hl. apply String.eqb_neq in He.
  assert (Hf : Forall (λ f, confined_path f.1 ∧ (Z.of_nat (String.length f.2) ≤ WS_MAX_FILE_BYTES)%Z) files ∧
               (foldr Z.add 0 ((λ f, Z.of_nat (String.length f.2)) <$> files) ≤ WS_MAX_TOTAL_BYTES)%Z).
  { destruct (is_nullish (prop body "workspace")); [simplify_eq; split; [apply Forall_nil_2|done]|by apply (snapshot_confined _ _ Ef)]. }
  assert (Hk : Forall confined_path collect ∧ (length collect ≤ COLLECT_MAX)%nat).
  { destruct (is_nullish (prop body "collect")); [simplify_eq; split; [apply Forall_nil_2|cbn; lia]|].
    destruct (prop body "collect") as [| | | | |ps|]; try done. apply check_inr in Ec as [Hn Ec].
    apply negb_true_iff, bool_decide_eq_false in Hn. split.
    - revert Ec. apply (fold_checked_inv (Forall confined_path)); [|apply Forall_nil_2]. intros acc p acc' Hacc.
      destruct (rel_path p) eqn:Er; [done|]. intros [= <-]. apply Forall_app. split; [done|]. apply Forall_singleton. by eapply rel_path_confined.
    - apply collected_length in Ec. cbn in Ec. lia. }
  destruct Hf as [Hf1 Hf2]. split; cbn [jb_command jb_args jb_networkMode jb_files jb_collect jb_timeoutMs jb_maxOutput]; try done.
  - split; [|lia]. apply Forall_forall. intros a Hin. apply worker_arg_plain. rewrite forallb_forall in Ha. apply Ha, list_elem_of_In, Hin.
  - set_solver.
  - by apply bounded_range.
  - by apply bounded_range.
Qed.
End Accepted.

Section Confined.
Context (root : list string) (Hroot : root ≠ []) (Hplain : Forall plain root).
#[local] Abbreviation dir := (render_path root).

Lemma resolved_inside p : confined_path p → inside_root dir (resolved dir p) = true.
Proof. intros [Ha Hp]. by apply path_resolve_descend. Qed.

Lemma materialize_inside files : Forall (λ f, confined_path f.1) files →
  ∃ ws, materialize dir files = Some ws ∧ Forall (λ w, inside_root dir w.1 = true) ws ∧ ws.*2 = files.*2.
Proof.
  induction files as [|[rel c] files IH]; intros H; [by exists []|]. apply Forall_cons in H as [Hr H]. cbn [fst] in Hr.
  destruct (IH H) as (ws & E & Hw & H2). exists ((resolved dir rel, c) :: ws). cbn [materialize].
  rewrite (resolved_inside _ Hr), E. split_and!; [done| |by cbn; rewrite H2]. apply Forall_cons. split; [by apply resolved_inside|done].
Qed.

Definition bytes_of (l : list (string * string * string)) : Z := foldr Z.add 0%Z ((λ a, Z.of_nat (String.length a.2)) <$> l).

Lemma collect_inside fs collect : ∀ total, (total ≤ COLLECT_MAX_BYTES)%Z →
  let l := collectArtifacts dir fs total collect in
  Forall (λ a, inside_root dir a.1.2 = true ∧ af_read fs a.1.2 = Some a.2) l ∧
  (total + bytes_of l ≤ COLLECT_MAX_BYTES)%Z ∧ (length l ≤ length collect)%nat.
Proof.
  induction collect as [|rel collect IH]; intros total Ht; cbn [collectArtifacts].
  { split_and!; [apply Forall_nil_2|cbn; lia|done]. }
  assert (Hskip : let l := collectArtifacts dir fs total collect in
    Forall (λ a, inside_root dir a.1.2 = true ∧ af_read fs a.1.2 = Some a.2) l ∧
    (total + bytes_of l ≤ COLLECT_MAX_BYTES)%Z ∧ (length l ≤ length (rel :: collect))%nat).
  { destruct (IH total Ht) as (? & ? & ?). split_and!; [done..|cbn; lia]. }
  destruct (inside_root dir (resolved dir rel)) eqn:Ei; cbn [negb]; [|done].
  destruct (af_lstat fs (resolved dir rel)) as [[size|]|]; try done. destruct (WS_MAX_FILE_BYTES <? size)%Z; [done|].
  destruct (af_read fs (resolved dir rel)) as [buf|] eqn:Er; [|done]. destruct (WS_MAX_FILE_BYTES <? _)%Z; [done|].
  destruct (COLLECT_MAX_BYTES <? total + Z.of_nat (String.length buf))%Z eqn:Eb.
  { split_and!; [apply Forall_nil_2|cbn; lia|cbn; lia]. }
  apply Z.ltb_ge in Eb. destruct (IH (total + Z.of_nat (String.length buf))%Z Eb) as (H1 & H2 & H3). split_and!.
  - apply Forall_cons. done.
  - unfold bytes_of in *. cbn. lia.
  - cbn. lia.
Qed.

Lemma manifest_bounded n : ∀ rel out, (length out ≤ MANIFEST_MAX_ENTRIES)%nat → (length (manifest_walk rel n out) ≤ MANIFEST_MAX_ENTRIES)%nat.
Proof.
  assert (Hleaf : ∀ (x : string * option Z) out, (length out ≤ MANIFEST_MAX_ENTRIES)%nat → (MANIFEST_MAX_ENTRIES <=? length out)%nat = false →
    (length (out ++ [x])%list ≤ MANIFEST_MAX_ENTRIES)%nat).
  { intros x out H E. apply Nat.leb_gt in E. rewrite length_app. cbn. lia. }
  induction n as [size c|es IH| | | |] using node_nested_ind; intros rel out Ho; cbn [manifest_walk];
    destruct (MANIFEST_MAX_ENTRIES <=? length out)%nat eqn:E; auto.
  clear E Hleaf. revert out Ho. induction IH as [|[name e] es He Hes IHes]; intros out Ho; [done|]. apply IHes, He, Ho.
Qed.

Lemma capBytes_length s n : (String.length (capBytes s n) ≤ n)%nat.
Proof.
  unfold capBytes. destruct (String.length s <=? n)%nat eqn:E; [by apply Nat.leb_le|]. apply Nat.leb_gt in E.
  assert (H : ∀ s m n, (String.length (String.substring m n s) ≤ n)%nat); [|apply H].
  clear. induction s as [|c s IH]; intros [|m] [|n]; cbn; try lia.
  - specialize (IH 0%nat n). lia.
  - apply (IH m 0%nat).
  - apply (IH m (S n)).
Qed.

(** C29: The worker runs only what it accepted, in a directory of its own. A command
    is run only for an authorised request that passed every check: the command is
    one of eight, its arguments are options or relative paths without shell text,
    the files are written at paths below the directory of the request - the check
    against escape never has to fire -, and the artifacts are read at paths below it,
    at most twenty and two megabytes of them. The child sees four variables, PATH,
    LANG, TERM and SANDBOX_ISOLATED, of which only PATH is not fixed, and never a
    network mode. Standard output is at most what the request asks for, itself at
    most 512 KB, standard error half of that, the manifest a hundred entries, and the
    time three minutes. Below is meant of paths as texts: a link that the command
    itself leaves is followed when an artifact is read. *)
Theorem sandbox_confined expected parse_url decode64 sandboxPath write_ok run q writes o :
  worker_handle expected parse_url decode64 sandboxPath dir write_ok run q = Executed writes o →
  checkAuth expected q = true ∧
  ∃ body j c fs, hr_body q = Some body ∧ validateRequest decode64 body = inr j ∧ accepted_job j ∧
    Forall (λ w, inside_root dir w.1 = true) writes ∧ writes.*2 = (jb_files j).*2 ∧
    run (jb_command j) (jb_args j)
      [("PATH", slice0 (Z.to_nat 2000) (or_str sandboxPath "/usr/local/bin:/usr/bin:/bin"));
       ("LANG", "C.UTF-8"); ("TERM", "dumb"); ("SANDBOX_ISOLATED", "1")] (jb_timeoutMs j) writes = (c, fs) ∧
    (∃ l, oc_artifacts o = (λ a, (a.1.1, a.2)) <$> l ∧ (length l ≤ COLLECT_MAX)%nat ∧ (bytes_of l ≤ COLLECT_MAX_BYTES)%Z ∧
       Forall (λ a, inside_root dir a.1.2 = true ∧ af_read fs a.1.2 = Some a.2) l) ∧
    (length (oc_manifest o) ≤ MANIFEST_MAX_ENTRIES)%nat ∧
    (Z.of_nat (String.length (oc_stdout o)) ≤ jb_maxOutput j ≤ HARD_MAX_OUTPUT)%Z ∧
    (Z.of_nat (String.length (oc_stderr o)) ≤ jb_maxOutput j / 2)%Z ∧
    (oc_ok o = true ↔ ch_error c = None).
Proof.
  unfold worker_handle. destruct (_ && _); [done|]. destruct (_ && _).
  { destruct (checkAuth expected q); [|done]. destruct (readBody q); [done|]. by destruct (validateBrowseRequest _ _) as [|[]]. }
  destruct (negb (_ && _)); [done|]. destruct (checkAuth expected q); [|done]. cbn [negb].
  unfold readBody. destruct (_ <? _)%Z; [done|]. destruct (hr_body q) as [body|]; [|done].
  destruct (validateRequest decode64 body) as [|j] eqn:Ej; [done|].
  pose proof (validateRequest_accepts _ _ _ Ej) as Hj. unfold executeInEphemeralWorkspace.
  destruct (materialize_inside (jb_files j)) as (ws & Em & Hw & H2).
  { eapply Forall_impl; [exact (aj_files _ Hj)|]. by intros ? []. }
  rewrite Em. destruct (write_ok ws); [|done]. cbn [negb].
  destruct (run _ _ _ _ ws) as [c fs] eqn:Er.
  destruct (collect_inside fs (jb_collect j) 0) as (Hc1 & Hc2 & Hc3); [done|].
  pose proof (manifest_bounded (NDir (af_tree fs)) "" []) as Hman. destruct (aj_collect _ Hj) as [_ Hcl].
  assert (0 ≤ jb_maxOutput j / 2)%Z as Hhalf by (apply Z.div_pos; [pose proof (aj_output _ Hj)|]; lia).
  pose proof (capBytes_length (ch_stdout c) (Z.to_nat (jb_maxOutput j))) as Hcap.
  pose proof (capBytes_length (ch_stderr c) (Z.to_nat (jb_maxOutput j / 2))) as Hcap2. pose proof (aj_output _ Hj) as Hout.
  intros H. split; [done|]. exists body, j, c, fs. destruct (ch_error c) as [e|] eqn:Ee; injection H as <- <-;
    split_and!; cbn [oc_ok oc_artifacts oc_manifest oc_stdout oc_stderr]; try done; try (apply Hman; cbn; lia); try lia.
  all: exists (collectArtifacts dir fs 0 (jb_collect j)); split_and!; [done|lia|lia|done].
Qed.
End Confined.

(** ** Checks on concrete values *)

Definition demo_body (command : string) (args : list string) (more : list (string * jsval)) : jsval :=
  JObj ([("runId", JStr "r1"); ("command", JStr command); ("args", JArr (JStr <$> args))] ++ more)%list.
Definition accepts (body : jsval) : bool := match validateRequest (λ s, s) body with inr _ => true | inl _ => false end.

(** Inline code is refused only as a first argument of its own. *)
Example inline_code_accepted :
  accepts (demo_body "python3" ["-c"; "import os"] []) = false ∧
  accepts (demo_body "python3" ["-B"; "-c"; "import os"] []) = true ∧
  accepts (demo_body "python3" ["-cimport os"] []) = true.
Proof. vm_compute. done. Qed.

Example refused_requests :
  accepts (demo_body "bash" [] []) = false ∧ accepts (demo_body "node" ["../x.js"] []) = false ∧
  accepts (demo_body "node" ["x.js"] [("env", JObj [("API_KEY", JStr "k")])]) = false ∧
  accepts (demo_body "npm" ["test"] [("networkMode", JStr "enabled")]) = false ∧
  accepts (demo_body "node" ["x.js"] [("collect", JArr [JStr "out/report.json"])]) = true.
Proof. vm_compute. done. Qed.

(** The guard of the application lets absolute paths of its workspace through, the
    worker does not. *)
Example guards_differ :
  CommandGuard.check_arg "/srv/app" "/srv/app/x.js" = Ok tt ∧ worker_arg "/srv/app/x.js" = false.
Proof. vm_compute. by split. Qed.

(** A file system with links, as [lstat] and [readFile] see it: links on the way are
    followed. *)
Inductive entry := EFile (content : string) | ELink (target : list string).
Fixpoint walk (fs : list (list string * entry)) (cur segs : list string) : list string :=
  match segs with
  | [] => cur
  | [s] => (cur ++ [s])%list
  | s :: segs => match mget fs (cur ++ [s])%list with Some (ELink t) => walk fs t segs | _ => walk fs (cur ++ [s])%list segs end
  end.
Definition os_lookup (fs : list (list string * entry)) (p : string) : option string :=
  match mget fs (walk fs [] (segments p)) with Some (EFile c) => Some c | _ => None end.
Definition os_aftermath (fs : list (list string * entry)) : aftermath :=
  Aftermath (λ p, (λ c, IsFile (Z.of_nat (String.length c))) <$> os_lookup fs p) (os_lookup fs) (Some [("out", NLink)]).

(** The command leaves a link to a directory of the host; the artifact below it is
    inside the workspace by its name, and its content is the host's. *)
Example artifact_through_link :
  collectArtifacts "/ws/run-1" (os_aftermath [(["etc"; "passwd"], EFile "root:x:0"); (["ws"; "run-1"; "out"], ELink ["etc"])]) 0 ["out/passwd"] =
  [("out/passwd", "/ws/run-1/out/passwd", "root:x:0")].
Proof. vm_compute. reflexivity. Qed.

(** A private address of IPv6 is none of the blocked ones. *)
Example private_ipv6_accepted :
  validateBrowseRequest (λ _, Some (Url "http:" "" "" "[::ffff:7f00:1]"))
    (JObj [("url", JStr "http://[::ffff:127.0.0.1]/"); ("networkMode", JStr "allowlist"); ("networkAllowlist", JArr [JStr "[::ffff:7f00:1]"])])
  = inr (BrowseLive "http://[::ffff:127.0.0.1]/") ∧
  validateBrowseRequest (λ _, Some (Url "http:" "" "" "127.0.0.1"))
    (JObj [("url", JStr "http://127.0.0.1/"); ("networkMode", JStr "allowlist"); ("networkAllowlist", JArr [JStr "127.0.0.1"])])
  = inl refused.
Proof. vm_compute. by split. Qed.

Definition demo_run : string → list string → list (string * string) → Z → list (string * string) → child * aftermath :=
  λ _ _ _ _ _, (Child None "ok" "", os_aftermath [(["ws"; "run-1"; "r.txt"], EFile "done")]).
Definition demo_query : http_request :=
  HttpRequest "POST" "/v1/execute" "Bearer t"
    (Some (demo_body "node" ["x.js"]
       [("workspace", JObj [("files", JArr [JObj [("path", JStr "x.js"); ("contentBase64", JStr "eA==")]])]); ("collect", JArr [JStr "r.txt"])])) 200.
Lemma demo_handled :
  worker_handle (Some "t") (λ _, None) (λ s, s) "" (render_path ["ws"; "run-1"]) (λ _, true) demo_run demo_query =
  Executed [("/ws/run-1/x.js", "eA==")] (Outcome true (Some 0%Z) "ok" "" false [("r.txt", "done")] [("out", None)]).
Proof. vm_compute. reflexivity. Qed.
Lemma demo_root_plain : Forall plain ["ws"; "run-1"].
Proof. repeat constructor; vm_compute; discriminate. Qed.

Lemma sandbox_confined_witness :
  checkAuth (Some "t") demo_query = true ∧
  worker_handle (Some "t") (λ _, None) (λ s, s) "" (render_path ["ws"; "run-1"]) (λ _, true) demo_run demo_query =
    Executed [("/ws/run-1/x.js", "eA==")] (Outcome true (Some 0%Z) "ok" "" false [("r.txt", "done")] [("out", None)]).
Proof.
  split; [|exact demo_handled].
  assert (Hr : ["ws"; "run-1"] ≠ []) by discriminate.
  exact (proj1 (sandbox_confined ["ws"; "run-1"] Hr demo_root_plain (Some "t") (λ _, None) (λ s, s) "" (λ _, true) demo_run demo_query
    [("/ws/run-1/x.js", "eA==")] (Outcome true (Some 0%Z) "ok" "" false [("r.txt", "done")] [("out", None)]) demo_handled)).
Defined.
