(* ===== verification/FileStore.v ===== *)
(** The file store of runs, events and learned data (backend/src/persistence.js):
    reading with quarantine, writing within a bound of bytes, retention by tenant,
    merging of event logs, and the sweep of files that no run needs.

    The directory is a map from names to files; a document is held as [JSON.parse]
    reads it back. Whether a file can be read, the directory written and a file
    removed are arguments. A quarantined file can be renamed. *)

From Stdlib Require Import Sorted.
From S2P Require Import Prelude JsMap JsValue Text Sorting Privacy.

Local Open Scope string_scope.

(** ** Retention by tenant *)

(* [src/backend/src/persistence.js:35-46] MAX_EVENTS_PER_RUN *)
Definition MAX_EVENTS_PER_RUN : nat := 500.
Definition MAX_EVALS : nat := 200.
Definition MAX_IDEMPOTENCY : nat := Z.to_nat 1000.
Definition MAX_BYTES : Z := 5000000.
Definition MAX_RUN_INDEX_PER_TENANT : nat := Z.to_nat 1000.
(* [src/backend/src/persistence.js:74-76] RETENTION_GRACE_MS *)
Definition RETENTION_GRACE_MS : Z := 24 * 60 * 60 * 1000.
Definition TMP_MAX_AGE_MS : Z := 60 * 60 * 1000.
Definition MAX_CORRUPT_KEPT : nat := 20.

Definition or_val (a b : jsval) : jsval := if truthy_val a then a else b.

(* [src/backend/src/persistence.js:48-51] runTenantKey *)
Definition runTenantKey (run : jsval) : string :=
  let org := or_val (prop run "orgId") (prop (prop run "ownership") "orgId") in
  if truthy_val org then slice0 128 (to_string org) else "".

(** An entry of an index as the program holds it: an object, by reference, or a
    primitive value. Equality is that of a [Set]. *)
Inductive entry := Obj (ref : nat) | Prim (v : jsval).
#[export] Instance entry_eq_dec : EqDecision entry.
Proof. solve_decision. Defined.

(** What an entry is, in a heap. *)
Definition value (heap : nat → jsval) (e : entry) : jsval := match e with Obj r => heap r | Prim v => v end.

(** The entries of a list that was just parsed or built: every object is one of its
    own. *)
Definition entries_of (l : list jsval) : list entry :=
  imap (λ i v, match v with JObj _ | JArr _ => Obj i | _ => Prim v end) l.
Definition heap_of (l : list jsval) (r : nat) : jsval := default JNull (l !! r).

(* [src/backend/src/persistence.js:57-62] retainPerTenant, buckets *)
Definition add_to_bucket (heap : nat → jsval) (buckets : list (string * list entry)) (r : entry) : list (string * list entry) :=
  let k := runTenantKey (value heap r) in
  mset buckets k (match mget buckets k with Some arr => (arr ++ [r])%list | None => [r] end).

(** [entries.slice(Math.max(0, entries.length - cap))] *)
Definition newest {A} (cap : nat) (entries : list A) : list A := drop (length entries - cap) entries.

(* [src/backend/src/persistence.js:55-68] retainPerTenant *)
Definition retainPerTenant (heap : nat → jsval) (runs : list entry) (cap : nat) : list entry :=
  let buckets := foldl (add_to_bucket heap) [] runs in
  let keep := mjoin (newest cap <$> mvalues buckets) in
  filter (λ r, r ∈ keep) runs.

(** ** Compaction of learned data *)

(* [src/backend/src/persistence.js:81-92] INTELLIGENCE_CAPS *)
Definition INTELLIGENCE_CAPS : list (string * nat) :=
  [("outcomeEvals", 200); ("routingHistory", 300); ("history", 300); ("benchmarks", 500); ("entries", 500);
   ("observations", 500); ("evaluations", 200); ("cache", 500); ("versions", 100)].
Definition GENERIC_ARRAY_CAP : nat := 500.
Definition capFor (caps : list (string * nat)) (k : string) : nat := default GENERIC_ARRAY_CAP (mget caps k).
Definition halved : list (string * nat) := (λ c, (c.1, Nat.max 10 (c.2 / 2))) <$> INTELLIGENCE_CAPS.

(** What a node holds beyond its caps. The places of an array are keys without a
    cap of their own. *)
(* [src/backend/src/persistence.js:96-111] intelligenceOverflow *)
Fixpoint overflow (caps : list (string * nat)) (v : jsval) : nat :=
  match v with
  | JObj fs => sum_list (List.map (λ f : string * jsval,
      match f.2 with JArr xs => length xs - capFor caps f.1 + sum_list (List.map (overflow caps) xs) | _ => overflow caps f.2 end) fs)
  | JArr xs => sum_list (List.map (λ x,
      match x with JArr ys => length ys - GENERIC_ARRAY_CAP + sum_list (List.map (overflow caps) ys) | _ => overflow caps x end) xs)
  | _ => 0
  end.

(** Every array is cut to its newest entries. *)
(* [src/backend/src/persistence.js:120-132] walk *)
Fixpoint prune_node (caps : list (string * nat)) (v : jsval) : jsval :=
  match v with
  | JObj fs => JObj (List.map (λ f : string * jsval,
      (f.1, match f.2 with JArr xs => JArr (newest (capFor caps f.1) (List.map (prune_node caps) xs)) | _ => prune_node caps f.2 end)) fs)
  | JArr xs => JArr (List.map (λ x,
      match x with JArr ys => JArr (newest GENERIC_ARRAY_CAP (List.map (prune_node caps) ys)) | _ => prune_node caps x end) xs)
  | _ => v
  end.

(* [src/backend/src/persistence.js:116-135] pruneIntelligenceDoc *)
Definition pruneIntelligenceDoc (caps : list (string * nat)) (doc : jsval) : jsval :=
  match doc with JObj _ => prune_node caps doc | _ => doc end.

(** ** Files *)

Inductive content := Text (v : jsval) | Blank | Garbage.
Record file := File { fl_content : content; fl_mtime : Z }.
Abbreviation disk := (list (string * file)).

(** What the host allows at an operation. *)
Record host := Host { ho_readable : string → bool; ho_writable : bool; ho_removable : string → bool; ho_now : Z }.

Definition corrupt_name (name : string) (now : Z) : string := name ++ ".corrupt-" ++ string_of_Z now.

(** [None] is the fallback. *)
(* [src/backend/src/persistence.js:168-187] _readJson *)
Definition readJson (h : host) (name : string) (d : disk) : option jsval * disk :=
  match mget d name with
  | None => (None, d)
  | Some f =>
      if negb (ho_readable h name) then (None, d)
      else
        match fl_content f with
        | Blank => (None, d)
        | Text v => (Some v, d)
        | Garbage => (None, mset (mdelete d name) (corrupt_name name (ho_now h)) f)
        end
  end.

Definition bytes (v : jsval) : Z := Z.of_nat (String.length (default "" (json_stringify v))).

(** The value that fits, and how often it was pruned. *)
(* [src/backend/src/persistence.js:192-217] _serializePrunable *)
Fixpoint serialize (attempts : nat) (maxBytes : Z) (prune : jsval → option jsval) (current : jsval) (pruned : nat) : option (jsval * nat) :=
  match attempts with
  | O => if (bytes current <=? maxBytes)%Z then Some (current, pruned) else None
  | S attempts =>
      if (bytes current <=? maxBytes)%Z then Some (current, pruned)
      else match prune current with
           | None => None
           | Some next => serialize attempts maxBytes prune next (S pruned)
           end
  end.

Inductive written := Written (pruned : nat) | TooLarge | WriteFailed | BadValue.

(** The old file is replaced in one step, or nothing changes. *)
(* [src/backend/src/persistence.js:219-242] _writeJson *)
Definition writeJson (h : host) (maxBytes : Z) (name : string) (v : jsval) (prune : jsval → option jsval) (d : disk) : written * disk :=
  if negb (ho_writable h) then (WriteFailed, d)
  else match serialize 6 maxBytes prune v 0 with
       | None => (TooLarge, d)
       | Some (v, n) => (Written n, mset d name (File (Text (Retention.clone v)) (ho_now h)))
       end.

(** The newer half of a list, down to ten entries. *)
(* [src/backend/src/persistence.js:269-272] saveEvents *)
Definition halve (v : jsval) : option jsval :=
  match v with JArr l => if (length l <=? 10)%nat then None else Some (JArr (slice_last (Nat.max 10 (length l / 2)) l)) | _ => None end.

Definition as_list (o : option jsval) : list jsval := match o with Some (JArr l) => l | _ => [] end.
Definition as_object (o : option jsval) : option jsval := match o with Some (JObj f) => Some (JObj f) | Some (JArr l) => Some (JArr l) | _ => None end.

Section Store.
Context (maxBytes : Z).

(* [src/backend/src/persistence.js:244-251] saveRunIndex *)
Definition saveRunIndex (h : host) (heap : nat → jsval) (runs : list entry) (d : disk) : written * disk :=
  writeJson h maxBytes "runs.json" (JArr (value heap <$> retainPerTenant heap runs MAX_RUN_INDEX_PER_TENANT)) halve d.
(* [src/backend/src/persistence.js:253-256] loadRunIndex *)
Definition loadRunIndex (h : host) (d : disk) : list jsval * disk :=
  let '(v, d) := readJson h "runs.json" d in (as_list v, d).

(* [src/backend/src/persistence.js:260-265] upsertRunSummary *)
Definition upsertRunSummary (h : host) (summary : jsval) (d : disk) : written * disk :=
  if negb (truthy_val summary && truthy_val (prop summary "id")) then (BadValue, d)
  else
    let '(index, d) := loadRunIndex h d in
    let index := (filter (λ r, truthy_val r = true ∧ prop r "id" ≠ prop summary "id") index ++ [summary])%list in
    saveRunIndex h (heap_of index) (entries_of index) d.

Definition events_name (runId : string) : string := runId ++ ".events.json".
(* [src/backend/src/persistence.js:267-273] saveEvents *)
Definition saveEvents (h : host) (runId : string) (events : list jsval) (d : disk) : written * disk :=
  writeJson h maxBytes (events_name runId) (JArr (slice_last MAX_EVENTS_PER_RUN events)) halve d.
(* [src/backend/src/persistence.js:289-292] loadEvents *)
Definition loadEvents (h : host) (runId : string) (d : disk) : list jsval * disk :=
  let '(v, d) := readJson h (events_name runId) d in (as_list v, d).

(** [event && Number.isFinite(event.seq)] *)
Definition seq_of (e : jsval) : option Z := match prop e "seq" with JNum n => Some n | _ => None end.
Definition add_event (over : bool) (m : list (Z * jsval)) (e : jsval) : list (Z * jsval) :=
  match seq_of e with Some n => if over || negb (mhas m n) then mset m n e else m | None => m end.
Definition by_seq (a b : Z * jsval) : bool := (a.1 <? b.1)%Z.

(** The log with the events it did not have, in the order of their numbers. *)
(* [src/backend/src/persistence.js:278-286] appendEvents *)
Definition mergeEvents (log events : list jsval) : list (Z * jsval) :=
  js_sort by_seq (foldl (add_event false) (foldl (add_event true) [] log) events).
(* [src/backend/src/persistence.js:278-287] appendEvents *)
Definition appendEvents (h : host) (runId : string) (events : list jsval) (d : disk) : written * disk :=
  let '(log, d) := loadEvents h runId d in
  saveEvents h runId (slice_last MAX_EVENTS_PER_RUN (mergeEvents log events).*2) d.

(** Long arrays of a snapshot are halved. *)
Definition shrink_field (o : jsval) (k : string) : option jsval :=
  match prop o k with
  | JArr l => if (20 <? length l)%nat then Some (JArr (slice_last (length l / 2) l)) else None
  | _ => None
  end.
Definition set_field (o : jsval) (k : string) (v : jsval) : jsval := match o with JObj f => JObj (mset f k v) | _ => o end.
(* [src/backend/src/persistence.js:297-312] saveSnapshot *)
Definition shrink_snapshot (cur : jsval) : option jsval :=
  let '(next, shrunk) := foldl (λ acc k, match shrink_field acc.1 k with Some v => (set_field acc.1 k v, true) | None => acc end)
                           (cur, false) ["trace"; "series"; "messages"; "decisions"; "changes"] in
  match prop (prop next "context") "items" with
  | JArr l => if (50 <? length l)%nat then Some (set_field next "context" (set_field (prop next "context") "items" (JArr (slice_last 50 l))))
              else if shrunk then Some next else None
  | _ => if shrunk then Some next else None
  end.
(* [src/backend/src/persistence.js:294-313] saveSnapshot *)
Definition saveSnapshot (h : host) (runId : string) (snapshot : jsval) (d : disk) : written * disk :=
  if negb (truthy_val snapshot) then (BadValue, d) else writeJson h maxBytes (runId ++ ".snapshot.json") snapshot shrink_snapshot d.
(* [src/backend/src/persistence.js:315-318] loadSnapshot *)
Definition loadSnapshot (h : host) (runId : string) (d : disk) : option jsval * disk :=
  let '(v, d) := readJson h (runId ++ ".snapshot.json") d in (as_object v, d).

(* [src/backend/src/persistence.js:320-326] saveEvals *)
Definition saveEvals (h : host) (evals : list jsval) (d : disk) : written * disk :=
  writeJson h maxBytes "evals.json" (JArr (slice_last MAX_EVALS evals)) halve d.
(* [src/backend/src/persistence.js:328-331] loadEvals *)
Definition loadEvals (h : host) (d : disk) : list jsval * disk := let '(v, d) := readJson h "evals.json" d in (as_list v, d).
(* [src/backend/src/persistence.js:333-339] saveIdempotency *)
Definition saveIdempotency (h : host) (records : list jsval) (d : disk) : written * disk :=
  writeJson h maxBytes "idempotency.json" (JArr (slice_last MAX_IDEMPOTENCY records)) halve d.
(* [src/backend/src/persistence.js:341-344] loadIdempotency *)
Definition loadIdempotency (h : host) (d : disk) : list jsval * disk := let '(v, d) := readJson h "idempotency.json" d in (as_list v, d).

(** The document is compacted, and further while it is too large and not at half
    its caps. *)
Definition compact_further (v : jsval) : option jsval :=
  match v with
  | JObj _ | JArr _ => if (overflow halved v =? 0)%nat then None else Some (pruneIntelligenceDoc halved v)
  | _ => None
  end.
(* [src/backend/src/persistence.js:351-361] saveIntelligence *)
Definition saveIntelligence (h : host) (doc : jsval) (d : disk) : written * disk :=
  match doc with
  | JObj _ | JArr _ => writeJson h maxBytes "intelligence.json" (pruneIntelligenceDoc INTELLIGENCE_CAPS doc) compact_further d
  | _ => (BadValue, d)
  end.
(* [src/backend/src/persistence.js:363-366] loadIntelligence *)
Definition loadIntelligence (h : host) (d : disk) : option jsval * disk :=
  let '(v, d) := readJson h "intelligence.json" d in (as_object v, d).

(* [src/backend/src/persistence.js:368-371] saveBilling *)
Definition saveBilling (h : host) (runId : string) (line : jsval) (d : disk) : written * disk :=
  match line with
  | JObj _ | JArr _ => if truthy_str runId then writeJson h maxBytes (runId ++ ".billing.json") line (λ _, None) d else (BadValue, d)
  | _ => (BadValue, d)
  end.
(* [src/backend/src/persistence.js:373-376] loadBilling *)
Definition loadBilling (h : host) (runId : string) (d : disk) : option jsval * disk :=
  let '(v, d) := readJson h (runId ++ ".billing.json") d in (as_object v, d).
End Store.

(** ** The sweep *)

Definition strip_suffix (suffix s : string) : option string :=
  let n := (String.length s - String.length suffix)%nat in
  if ends_with suffix s && (0 <? n)%nat then Some (slice0 n s) else None.
(** [/^(.+)\.(events|snapshot|billing)\.json$/] *)
Definition per_run (name : string) : option string :=
  match strip_suffix ".events.json" name with
  | Some id => Some id
  | None => match strip_suffix ".snapshot.json" name with Some id => Some id | None => strip_suffix ".billing.json" name end
  end.

Record report := Report { rp_deleted : list string; rp_keptActive : nat; rp_keptIndexed : nat; rp_keptFresh : nat; rp_errors : list string }.
Definition empty_report : report := Report [] 0 0 0 [].
#[export] Instance report_eta : Eta report := λ r, Report (rp_deleted r) (rp_keptActive r) (rp_keptIndexed r) (rp_keptFresh r) (rp_errors r).

Section Sweep.
Local Open Scope js_scope.
Context (h : host) (dryRun : bool) (active indexed : list string) (graceMs : Z).

(** [0] for a file that is gone. *)
Definition age (d : disk) (name : string) : Z := match mget d name with Some f => (ho_now h - fl_mtime f)%Z | None => 0%Z end.

(* [src/backend/src/persistence.js:409-420] remove *)
Definition remove (name : string) (st : report * disk) : report * disk :=
  let '(r, d) := st in
  if dryRun then (r <| rp_deleted := (rp_deleted r ++ [name])%list |>, d)
  else if ho_removable h name && mhas d name then (r <| rp_deleted := (rp_deleted r ++ [name])%list |>, mdelete d name)
  else (r <| rp_errors := (rp_errors r ++ [name])%list |>, d).

(* [src/backend/src/persistence.js:423-437] names *)
Definition sweep_name (st : report * disk) (name : string) : report * disk :=
  let '(r, d) := st in
  if contains ".tmp-" name then (if (TMP_MAX_AGE_MS <? age d name)%Z then remove name st else st)
  else
    match per_run name with
    | None => st
    | Some id =>
        if bool_decide (id ∈ active) then (r <| rp_keptActive ::= S |>, d)
        else if bool_decide (id ∈ indexed) then (r <| rp_keptIndexed ::= S |>, d)
        else if (age d name <? graceMs)%Z then (r <| rp_keptFresh ::= S |>, d)
        else remove name st
    end.

(** Surplus of the quarantine, the names in the order of their age. *)
(* [src/backend/src/persistence.js:440-444] corrupt *)
Definition surplus (names : list string) (d : disk) : list string :=
  drop MAX_CORRUPT_KEPT (js_sort (λ a b, (b.2 <? a.2)%Z) ((λ n, (n, age d n)) <$> filter (λ n, contains ".corrupt-" n = true) names)).*1.
End Sweep.

(** Only a text is the id in a file name. *)
Definition ids_of (index : list jsval) : list string :=
  omap (λ r, match prop r "id" with JStr s => if truthy_str s then Some s else None | _ => None end) index.

(** The names are read first, then the index. *)
(* [src/backend/src/persistence.js:387-449] sweepRetention *)
Definition sweepRetention (h : host) (active : list string) (indexIds : option (list string)) (graceMs : Z) (dryRun : bool) (d : disk)
    : report * disk :=
  let names := mkeys d in
  let '(indexed, d) := match indexIds with Some ids => (ids, d) | None => let '(index, d) := loadRunIndex h d in (ids_of index, d) end in
  let st := foldl (sweep_name h dryRun active indexed graceMs) (empty_report, d) names in
  foldl (λ st n, remove h dryRun n st) st (surplus h names st.2).

(* [src/backend/src/persistence.js:470-472] isFileAdapter *)
Definition isFileAdapter (kind : string) : bool := negb (String.eqb (to_lower (or_str kind "file")) "postgres").
(* [src/backend/src/persistence.js:476-485] assertNoSilentFallback *)
Definition assertNoSilentFallback (databaseUrl resolvedKind : string) : option string :=
  if truthy_str databaseUrl && isFileAdapter resolvedKind then Some "datastore_fallback" else None.

(** ** Retention *)

Section Retention.
Context (heap : nat → jsval).

(** The entries of one tenant. *)
Definition tenant (k : string) (l : list entry) : list entry := filter (λ r, runTenantKey (value heap r) = k) l.

Lemma tenant_snoc k l r : tenant k (l ++ [r])%list = (tenant k l ++ (if decide (runTenantKey (value heap r) = k) then [r] else []))%list.
Proof. unfold tenant. by rewrite filter_app. Qed.

Lemma buckets_spec l : ∀ k, mget (foldl (add_to_bucket heap) [] l) k = match tenant k l with [] => None | e => Some e end.
Proof.
  induction l as [|r l IH] using rev_ind; intros k; [done|]. rewrite foldl_app. cbn [foldl]. unfold add_to_bucket at 1.
  rewrite mget_set, tenant_snoc, !IH. destruct (decide (runTenantKey (value heap r) = k)) as [<-|E].
  - by destruct (tenant (runTenantKey (value heap r)) l).
  - by rewrite app_nil_r.
Qed.

Lemma buckets_wf l : mwf (foldl (add_to_bucket heap) [] l).
Proof. induction l as [|r l IH] using rev_ind; [apply mwf_nil|]. rewrite foldl_app. by apply mwf_set. Qed.

Lemma newest_in {A} cap (l : list A) x : x ∈ newest cap l → x ∈ l.
Proof. intros H. rewrite <-(take_drop (length l - cap) l). apply elem_of_app. by right. Qed.

Lemma kept_iff l r cap :
  r ∈ mjoin (newest cap <$> mvalues (foldl (add_to_bucket heap) [] l)) ↔
  r ∈ newest cap (tenant (runTenantKey (value heap r)) l).
Proof.
  split.
  - intros Hr. apply list_elem_of_join in Hr as (e & Hr & He). apply list_elem_of_fmap in He as (arr & -> & Ha).
    unfold mvalues in Ha. apply list_elem_of_fmap in Ha as ([k arr'] & -> & Ha). cbn in Hr.
    apply elem_mget in Ha; [|apply buckets_wf]. rewrite buckets_spec in Ha.
    assert (Ek : arr' = tenant k l) by (destruct (tenant k l); congruence). subst arr'.
    pose proof (newest_in _ _ _ Hr) as Hk. unfold tenant in Hk. apply list_elem_of_filter in Hk as [<- _]. done.
  - intros Hr. apply list_elem_of_join. eexists. split; [exact Hr|]. apply list_elem_of_fmap. eexists. split; [done|].
    unfold mvalues. apply list_elem_of_fmap. exists (runTenantKey (value heap r), tenant (runTenantKey (value heap r)) l).
    split; [done|]. apply mget_elem. rewrite buckets_spec. apply newest_in in Hr.
    destruct (tenant (runTenantKey (value heap r)) l); [by apply not_elem_of_nil in Hr|done].
Qed.

Lemma filter_whole {A} (P : A → Prop) `{!∀ x, Decision (P x)} (l : list A) : (∀ x, x ∈ l → P x) → filter P l = l.
Proof.
  induction l as [|x l IH]; intros Hp; [done|]. rewrite filter_cons_True by (apply Hp; left). f_equal. apply IH. intros y Hy. apply Hp. by right.
Qed.

Lemma filter_newest (l : list entry) n : NoDup l → filter (λ r, r ∈ drop n l) l = drop n l.
Proof.
  revert n. induction l as [|r l IH]; intros n H; [by rewrite drop_nil|]. apply NoDup_cons in H as [Hr H]. destruct n as [|n].
  - cbn [drop]. by apply filter_whole.
  - cbn [drop]. rewrite filter_cons_False; [by apply IH|]. intros Hin. apply Hr. rewrite <-(take_drop n l). apply elem_of_app. by right.
Qed.

Lemma retained_of_tenant runs cap k :
  tenant k (retainPerTenant heap runs cap) = filter (λ r, r ∈ newest cap (tenant k runs)) (tenant k runs).
Proof.
  unfold retainPerTenant, tenant at 1. rewrite list_filter_filter.
  etrans; [|symmetry; unfold tenant at 2; apply list_filter_filter]. apply filter_ext_in. intros r _.
  rewrite kept_iff.
  split; [intros [<- ?]|intros [? <-]]; done.
Qed.
End Retention.

(** C31: Retention by tenant is isolated. Whatever the entries, those kept of a
    tenant are decided by its own entries alone: they are the ones equal to one of
    its newest, as many as the cap, in their order. When no entry occurs twice - as
    in an index of objects, just parsed or built - they are exactly its newest. This
    is the retention by tenant; an index too large for its file is then halved over
    all tenants, which may cost a tenant its history
    ([byte_bound_evicts_other_tenant]). *)
Theorem retention_isolated heap runs cap k :
  tenant heap k (retainPerTenant heap runs cap) =
    filter (λ r, r ∈ newest cap (tenant heap k runs)) (tenant heap k runs) ∧
  (NoDup runs → tenant heap k (retainPerTenant heap runs cap) = newest cap (tenant heap k runs)) ∧
  retainPerTenant heap runs cap `sublist_of` runs.
Proof.
  split; [apply retained_of_tenant|]. split; [|apply sublist_filter].
  intros Hn. rewrite retained_of_tenant. apply filter_newest. unfold tenant. by apply NoDup_filter.
Qed.

(** ** The sweep *)

(** What protects a file from the sweep. *)
Definition needed (h : host) (active indexed : list string) (graceMs : Z) (d : disk) (name : string) : Prop :=
  contains ".tmp-" name = false ∧ contains ".corrupt-" name = false ∧
  ∀ id, per_run name = Some id → id ∈ active ∨ id ∈ indexed ∨ (age h d name < graceMs)%Z.

Section SweepSafe.
Context (h : host) (dryRun : bool) (active indexed : list string) (graceMs : Z).

Lemma remove_other name name' st : name ≠ name' → mget (remove h dryRun name st).2 name' = mget st.2 name'.
Proof.
  intros H. destruct st as [r d]. unfold remove. destruct dryRun; [done|].
  destruct (_ && _); [|done]. cbn. by apply mget_delete_ne.
Qed.

Lemma age_ext d d' name : mget d' name = mget d name → age h d' name = age h d name.
Proof. intros E. unfold age. by rewrite E. Qed.

(** One name touches no needed file, and only itself. *)
Lemma sweep_name_keeps d0 name name' st : needed h active indexed graceMs d0 name' → mget st.2 name' = mget d0 name' →
  mget (sweep_name h dryRun active indexed graceMs st name).2 name' = mget d0 name'.
Proof.
  intros (Ht & Hc & Hn) E. destruct (decide (name = name')) as [->|Hne].
  - destruct st as [r d]. unfold sweep_name. rewrite Ht. destruct (per_run name') as [id|] eqn:Ep; [|done].
    case_bool_decide; [done|]. case_bool_decide; [done|]. cbn [snd] in E. rewrite (age_ext _ _ _ E).
    destruct (Hn id eq_refl) as [?|[?|Ha]]; [done..|]. by rewrite (proj2 (Z.ltb_lt _ _) Ha).
  - rewrite <-E. destruct st as [r d]. unfold sweep_name.
    repeat (case_match; try done); by apply (remove_other _ _ (r, d)).
Qed.

Lemma surplus_corrupt names d n : n ∈ surplus h names d → contains ".corrupt-" n = true.
Proof.
  unfold surplus. intros H. assert (Hin : n ∈ (js_sort (λ a b, (b.2 <? a.2)%Z) ((λ n, (n, age h d n)) <$> filter (λ n, contains ".corrupt-" n = true) names)).*1).
  { rewrite <-(take_drop MAX_CORRUPT_KEPT). apply elem_of_app. by right. }
  apply list_elem_of_fmap in Hin as ([n' a] & -> & Hin). rewrite js_sort_perm in Hin.
  apply list_elem_of_fmap in Hin as (x & [= -> ->] & Hx). by apply list_elem_of_filter in Hx as [??].
Qed.
End SweepSafe.

(** The index of a call: the ids it is given, else those of the file. *)
Definition indexed_ids (h : host) (ids : option (list string)) (d : disk) : list string :=
  match ids with Some ids => ids | None => ids_of (loadRunIndex h d).1 end.

(** The call reads the index file and finds it damaged. *)
Definition quarantines (h : host) (ids : option (list string)) (d : disk) : Prop :=
  ids = None ∧ ho_readable h "runs.json" = true ∧ ∃ t, mget d "runs.json" = Some (File Garbage t).

Lemma index_read h d :
  (¬ quarantines h None d ∧ (loadRunIndex h d).2 = d) ∨
  quarantines h None d ∧ ∃ f, mget d "runs.json" = Some f ∧
    (loadRunIndex h d).2 = mset (mdelete d "runs.json") (corrupt_name "runs.json" (ho_now h)) f.
Proof.
  unfold loadRunIndex, readJson, quarantines.
  destruct (mget d "runs.json") as [[[v| |] t]|]; [left|left|destruct (ho_readable h "runs.json") eqn:Er; [right|left]|left].
  1,2: split; [by intros (_ & _ & ? & ?)|by destruct (ho_readable h "runs.json")].
  - split; [|by eexists]. split; [done|]. split; [done|]. by eexists.
  - split; [by intros (_ & ? & _)|done].
  - split; [by intros (_ & _ & ? & ?)|done].
Qed.

Lemma quarantine_marked now : contains ".corrupt-" (corrupt_name "runs.json" now) = true.
Proof. unfold corrupt_name. simpl. by destruct (string_of_Z now). Qed.

(** The removals, on a directory whose index has been read. *)
Definition sweep_disk (h : host) (dryRun : bool) (active indexed : list string) (graceMs : Z) (names : list string) (d : disk) : report * disk :=
  let st := foldl (sweep_name h dryRun active indexed graceMs) (empty_report, d) names in
  foldl (λ st n, remove h dryRun n st) st (surplus h names st.2).

Lemma sweep_disk_keeps h dryRun active indexed graceMs names d name :
  needed h active indexed graceMs d name → mget (sweep_disk h dryRun active indexed graceMs names d).2 name = mget d name.
Proof.
  intros Hn. unfold sweep_disk. set (st := foldl _ (empty_report, d) names).
  assert (E : mget st.2 name = mget d name).
  { unfold st. assert (Hg : ∀ l s, mget s.2 name = mget d name →
      mget (foldl (sweep_name h dryRun active indexed graceMs) s l).2 name = mget d name); [|by apply Hg].
    induction l as [|n l IH]; intros s Hs; [done|]. apply IH. by apply sweep_name_keeps. }
  assert (Hg : ∀ l s, (∀ n, n ∈ l → contains ".corrupt-" n = true) → mget s.2 name = mget d name →
    mget (foldl (λ st n, remove h dryRun n st) s l).2 name = mget d name).
  { induction l as [|n l IH]; intros s Hl Hs; [done|]. cbn [foldl]. apply IH; [intros m Hm; apply Hl; by right|].
    rewrite remove_other; [done|]. intros ->. destruct Hn as (_ & Hc & _). rewrite (Hl name) in Hc; [done|left]. }
  apply Hg; [|done]. intros n. apply surplus_corrupt.
Qed.

Lemma sweep_disk_dry h active indexed graceMs names d : (sweep_disk h true active indexed graceMs names d).2 = d.
Proof.
  assert (Hr : ∀ n st, (remove h true n st).2 = st.2) by (by intros n [r e]).
  assert (Hs : ∀ n st, (sweep_name h true active indexed graceMs st n).2 = st.2).
  { intros n [r e]. unfold sweep_name. by repeat (case_match; try done). }
  assert (H1 : ∀ l st, (foldl (sweep_name h true active indexed graceMs) st l).2 = st.2).
  { induction l as [|n l IH]; intros st; [done|]. cbn [foldl]. by rewrite IH, Hs. }
  assert (H2 : ∀ l st, (foldl (λ st n, remove h true n st) st l).2 = st.2).
  { induction l as [|n l IH]; intros st; [done|]. cbn [foldl]. by rewrite IH, Hr. }
  unfold sweep_disk. cbv zeta. by rewrite H2, H1.
Qed.
(** C35: The sweep spares what is needed, whether the caller gives the ids of the
    index or, as the server does, the sweep reads them from runs.json. A file of a run
    that is active, indexed or younger than the grace period, and any file that
    belongs to no run and is neither temporary nor quarantined, is left as it was; a
    dry run changes nothing. The exception is a damaged runs.json, which reading moves
    to the quarantine, even in a dry run, and nothing else of it changes the
    directory. The ids are those the index has when it is read: one that is damaged
    or cannot be read has none, so the files of its runs are not needed in this sense
    ([damaged_index_deletes]). *)
Theorem sweep_spares_needed h active ids graceMs dryRun d name :
  let d' := (sweepRetention h active ids graceMs dryRun d).2 in
  let indexed := indexed_ids h ids d in
  (needed h active indexed graceMs d name → (quarantines h ids d → name ≠ "runs.json") → mget d' name = mget d name) ∧
  (dryRun = true → ¬ quarantines h ids d → d' = d) ∧
  (dryRun = true → quarantines h ids d → ∃ f, mget d "runs.json" = Some f ∧
     d' = mset (mdelete d "runs.json") (corrupt_name "runs.json" (ho_now h)) f).
Proof.
  cbn zeta. assert (∃ d1, (sweepRetention h active ids graceMs dryRun d).2 =
      (sweep_disk h dryRun active (indexed_ids h ids d) graceMs (mkeys d) d1).2 ∧
    (¬ quarantines h ids d ∧ d1 = d ∨ quarantines h ids d ∧ ∃ f, mget d "runs.json" = Some f ∧
      d1 = mset (mdelete d "runs.json") (corrupt_name "runs.json" (ho_now h)) f)) as (d1 & -> & Hd1).
  { unfold sweepRetention, indexed_ids. destruct ids as [ids|].
    - exists d. split; [done|]. left. split; [by intros [? _]|done].
    - pose proof (index_read h d) as Hi. destruct (loadRunIndex h d) as [index d1]. by exists d1. }
  split; [|split].
  - intros Hn Hq. destruct Hd1 as [[_ ->]|(Hd & f & Ef & ->)]; [by apply sweep_disk_keeps|].
    assert (mget (mset (mdelete d "runs.json") (corrupt_name "runs.json" (ho_now h)) f) name = mget d name) as E.
    { rewrite mget_set_ne, mget_delete_ne; [done| |].
      - intros <-. by apply Hq.
      - intros <-. destruct Hn as (_ & Hc & _). by rewrite quarantine_marked in Hc. }
    rewrite <-E. apply sweep_disk_keeps. destruct Hn as (H1 & H2 & H3). split; [done|]. split; [done|].
    intros id Hid. destruct (H3 id Hid) as [?|[?|?]]; auto. right; right. by rewrite (age_ext h d).
  - intros -> Hq. rewrite sweep_disk_dry. by destruct Hd1 as [[_ ->]|[? _]].
  - intros -> Hq. rewrite sweep_disk_dry. by destruct Hd1 as [[? _]|[_ ?]].
Qed.

(** ** Compaction *)

Lemma sum_list_zero {A} (f : A → nat) l : (∀ x, x ∈ l → f x = 0) → sum_list (List.map f l) = 0.
Proof. induction l as [|x l IH]; intros H; [done|]. cbn. rewrite (H x) by left. apply IH. intros y Hy. apply H. by right. Qed.

Lemma newest_length {A} cap (l : list A) : length (newest cap l) - cap = 0.
Proof. unfold newest. rewrite length_drop. lia. Qed.

Lemma pruned_items caps n (l : list jsval) : (∀ x, x ∈ l → overflow caps (prune_node caps x) = 0) →
  sum_list (List.map (overflow caps) (newest n (List.map (prune_node caps) l))) = 0.
Proof.
  intros H. apply sum_list_zero. intros y Hy%newest_in. apply list_elem_of_In, in_map_iff in Hy as (x & <- & Hx).
  by apply H, list_elem_of_In.
Qed.

Lemma prune_no_overflow caps v :
  overflow caps (prune_node caps v) = 0 ∧ (∀ ys, v = JArr ys → ∀ y, y ∈ ys → overflow caps (prune_node caps y) = 0).
Proof.
  induction v as [| | | | |xs IH|fs IH] using jsval_nested_ind; try done.
  - rewrite Forall_forall in IH. split; [|intros ys [= <-] y Hy; by apply IH].
    cbn [prune_node overflow]. rewrite List.map_map. apply sum_list_zero. intros x Hx. destruct (IH x Hx) as [Hi Hy].
    destruct x as [| | | | |ys|]; try done. rewrite newest_length. cbn [plus]. apply pruned_items. eauto.
  - rewrite Forall_forall in IH. split; [|done]. cbn [prune_node overflow]. rewrite List.map_map. apply sum_list_zero.
    intros [k w] Hf. destruct (IH _ Hf) as [Hi Hy]. cbn [fst snd] in *.
    destruct w as [| | | | |ys|]; try done. rewrite newest_length. cbn [plus]. apply pruned_items. eauto.
Qed.

(** Compaction reaches its caps. A compacted document holds nothing beyond them,
    at any depth, so a second pass at the same caps finds nothing to do, and what is
    written is within the bound of bytes or not written at all. *)
Theorem compaction_reaches_caps caps fs h maxBytes name v prune d :
  overflow caps (pruneIntelligenceDoc caps (JObj fs)) = 0 ∧
  match writeJson h maxBytes name v prune d with
  | (Written n, d') => ∃ v', serialize 6 maxBytes prune v 0 = Some (v', n) ∧ (bytes v' ≤ maxBytes)%Z ∧
                        mget d' name = Some (File (Text (Retention.clone v')) (ho_now h)) ∧
                        (∀ other, other ≠ name → mget d' other = mget d other)
  | (_, d') => d' = d
  end.
Proof.
  split; [apply (proj1 (prune_no_overflow caps (JObj fs)))|]. unfold writeJson. destruct (ho_writable h); [|done]. cbn [negb].
  destruct (serialize 6 maxBytes prune v 0) as [[v' n]|] eqn:E; [|done]. exists v'.
  assert (Hb : ∀ k cur m, serialize k maxBytes prune cur m = Some (v', n) → (bytes v' ≤ maxBytes)%Z).
  { induction k as [|k IH]; intros cur m; cbn [serialize]; destruct (bytes cur <=? maxBytes)%Z eqn:Eb; try done.
    - intros [= <- _]. by apply Z.leb_le.
    - intros [= <- _]. by apply Z.leb_le.
    - destruct (prune cur); [|done]. apply IH. }
  split_and!; [done|by eapply Hb|by rewrite mget_set_eq|]. intros other Ho. by rewrite mget_set_ne.
Qed.

(** ** Merging of event logs *)

Definition seqs (l : list (Z * jsval)) : list Z := l.*1.

Lemma add_events_spec over l : ∀ m, mwf m →
  mwf (foldl (add_event over) m l) ∧
  (∀ n e, mget (foldl (add_event over) m l) n = Some e → mget m n = Some e ∨ (e ∈ l ∧ seq_of e = Some n)) ∧
  (∀ n, is_Some (mget (foldl (add_event over) m l) n) ↔ is_Some (mget m n) ∨ ∃ e, e ∈ l ∧ seq_of e = Some n) ∧
  (over = false → ∀ n e, mget m n = Some e → mget (foldl (add_event over) m l) n = Some e).
Proof.
  induction l as [|x l IH]; intros m Hm.
  { split_and!; [done|auto| |done]. intros n. split; [auto|]. intros [?|(e & He & _)]; [done|by apply not_elem_of_nil in He]. }
  cbn [foldl]. assert (Hm' : mwf (add_event over m x)) by (unfold add_event; destruct (seq_of x); [destruct (_ || _)|]; auto using mwf_set).
  destruct (IH _ Hm') as (H1 & H2 & H3 & H4). split_and!; [done| | |].
  - intros n e He. destruct (H2 n e He) as [Hx|[Hx Hs]]; [|right; split; [by right|done]].
    unfold add_event in Hx. destruct (seq_of x) as [k|] eqn:Ek; [|auto]. destruct (_ || _); [|auto].
    rewrite mget_set in Hx. case_decide; [|auto]. simplify_eq. right. split; [left|done].
  - intros n. rewrite H3. unfold add_event. destruct (seq_of x) as [k|] eqn:Ek.
    + destruct (over || negb (mhas m k)) eqn:Eo.
      * rewrite mget_set. case_decide as E; [subst k|].
        -- split; [|eauto]. intros _. right. exists x. split; [left|done].
        -- split; intros [?|(e & He & Hs)]; auto; right; exists e; (split; [|done]); [by right|].
           apply elem_of_cons in He as [->|?]; [congruence|done].
      * apply orb_false_iff in Eo as [_ Eo]. apply negb_false_iff in Eo. unfold mhas in Eo. apply bool_decide_eq_true in Eo.
        split; intros [?|(e & He & Hs)]; auto; [right; exists e; split; [by right|done]|].
        apply elem_of_cons in He as [->|?]; [left; congruence|eauto].
    + split; intros [?|(e & He & Hs)]; auto; right; exists e; (split; [|done]); [by right|].
      apply elem_of_cons in He as [->|?]; [congruence|done].
  - intros -> n e He. apply H4; [done|]. unfold add_event. destruct (seq_of x) as [k|]; [|done]. cbn [orb].
    destruct (negb (mhas m k)) eqn:Eo; [|done]. rewrite mget_set_ne; [done|]. intros ->. unfold mhas in Eo.
    by rewrite He, bool_decide_true in Eo.
Qed.

#[export] Instance by_seq_weak : WeakOrder by_seq.
Proof. split; unfold by_seq; intros; rewrite ?Z.ltb_lt, ?Z.ltb_ge in *; lia. Qed.

(** Merging keeps the log. The merged events are in strictly increasing order of
    their numbers; every number of the log and of the new events is there once, with
    an event of either that carries it; and an event already in the log, whose
    numbers are distinct, is never replaced. *)
Theorem log_merge_sound log events :
  let m := mergeEvents log events in
  StronglySorted (λ a b, (a.1 < b.1)%Z) m ∧
  (∀ n e, (n, e) ∈ m → seq_of e = Some n ∧ (e ∈ log ∨ e ∈ events)) ∧
  (∀ n, n ∈ seqs m ↔ ∃ e, (e ∈ log ∨ e ∈ events) ∧ seq_of e = Some n) ∧
  (NoDup (omap seq_of log) → ∀ n e, e ∈ log → seq_of e = Some n → (n, e) ∈ m).
Proof.
  cbn zeta. unfold mergeEvents. set (m0 := foldl (add_event true) [] log). set (m1 := foldl (add_event false) m0 events).
  destruct (add_events_spec true log [] mwf_nil) as (Hw0 & Ho0 & Hk0 & _). fold m0 in Hw0, Ho0, Hk0.
  destruct (add_events_spec false events m0 Hw0) as (Hw1 & Ho1 & Hk1 & Hold). fold m1 in Hw1, Ho1, Hk1, Hold.
  assert (Hin : ∀ n e, (n, e) ∈ js_sort by_seq m1 ↔ mget m1 n = Some e).
  { intros n e. rewrite js_sort_perm. split; [by apply elem_mget|apply mget_elem]. }
  assert (Hfrom : ∀ n e, mget m1 n = Some e → seq_of e = Some n ∧ (e ∈ log ∨ e ∈ events)).
  { intros n e H. destruct (Ho1 _ _ H) as [Hx|[??]]; [|auto]. destruct (Ho0 _ _ Hx) as [?|[??]]; [done|auto]. }
  split_and!.
  - pose proof (js_sort_sorted by_seq wo_irr wo_trans wo_cotrans m1) as Hs.
    assert (Hn : NoDup (js_sort by_seq m1).*1) by (rewrite js_sort_perm; exact Hw1). revert Hs Hn. generalize (js_sort by_seq m1). clear.
    induction 1 as [|a l Hl IH Ha]; intros Hn; [constructor|]. cbn in Hn. apply NoDup_cons in Hn as [Hn1 Hn2]. constructor; [by apply IH|].
    apply Forall_forall. intros b Hb. pose proof (proj1 (Forall_forall _ _) Ha b Hb) as Hab. unfold in_order, by_seq in Hab.
    apply Z.ltb_ge in Hab. assert (a.1 ≠ b.1); [|lia]. intros E. apply Hn1. rewrite E. by apply list_elem_of_fmap_2.
  - intros n e. rewrite Hin. apply Hfrom.
  - intros n. unfold seqs. rewrite list_elem_of_fmap. split.
    + intros ([k e] & -> & H). apply Hin, Hfrom in H as [??]. exists e. auto.
    + intros (e & He & Hs). assert (His : is_Some (mget m1 n)).
      { apply Hk1. destruct He as [He|He]; [left; apply Hk0|]; right; eauto. }
      destruct His as [e' He']. exists (n, e'). split; [done|]. by apply Hin.
  - intros Hn n e He Hs. apply Hin, Hold; [done|]. destruct (proj2 (Hk0 n)) as [e' He']; [right; eauto|].
    destruct (Ho0 _ _ He') as [?|[He'' Hs']]; [done|]. rewrite He'. f_equal. clear -Hn He Hs He'' Hs'.
    induction log as [|x l IH]; [by apply not_elem_of_nil in He|]. cbn in Hn.
    assert (Hno : ∀ y, y ∈ l → seq_of y = Some n → seq_of x = Some n → False).
    { intros y Hy Hsy Hsx. rewrite Hsx in Hn. apply NoDup_cons in Hn as [Hn _]. apply Hn, list_elem_of_omap. eauto. }
    assert (Hn' : NoDup (omap seq_of l)) by (destruct (seq_of x); [by apply NoDup_cons in Hn as [_ ?]|done]).
    apply elem_of_cons in He as [->|He], He'' as [->|He'']; auto; exfalso; eauto.
Qed.

(** ** Checks on concrete values *)

Definition demo_host (now : Z) : host := Host (λ _, true) true (λ _, true) now.
Definition run_of (id org : string) : jsval := JObj [("id", JStr id); ("orgId", JStr org)].
Definition index_file (runs : list jsval) : string * file := ("runs.json", File (Text (JArr runs)) 0).

(** An index that cannot be read once is written anew from the one summary. *)
Example unreadable_index_is_lost :
  let d := [index_file [run_of "r1" "a"; run_of "r2" "b"]] in
  upsertRunSummary MAX_BYTES (Host (λ _, false) true (λ _, true) 9) (run_of "r3" "a") d =
  (Written 0, [("runs.json", File (Text (JArr [run_of "r3" "a"])) 9)]).
Proof. vm_compute. reflexivity. Qed.

(** A dry run moves the damaged index to the quarantine. *)
Example dry_run_quarantines :
  mkeys (sweepRetention (demo_host 7) [] None RETENTION_GRACE_MS true [("runs.json", File Garbage 0)]).2 = ["runs.json.corrupt-7"].
Proof. vm_compute. reflexivity. Qed.

(** With a damaged index no run counts as retained, and the sweep deletes the files
    of every run that is not active. *)
Example damaged_index_deletes :
  let d := [("runs.json", File Garbage 0); ("r1.events.json", File (Text (JArr [])) 0); ("r1.snapshot.json", File (Text (JObj [])) 0)] in
  let now := (2 * RETENTION_GRACE_MS)%Z in
  rp_deleted (sweepRetention (demo_host now) [] None RETENTION_GRACE_MS false d).1 = ["r1.events.json"; "r1.snapshot.json"] ∧
  rp_deleted (sweepRetention (demo_host now) [] None RETENTION_GRACE_MS false (index_file [run_of "r1" "a"] :: drop 1 d)).1 = [].
Proof. vm_compute. by split. Qed.

(** Of a quarantine over its cap the oldest files are kept and the newest deleted. *)
Example newest_quarantine_deleted :
  let name := λ i, "f.corrupt-" ++ string_of_Z (Z.of_nat i) in
  let d := (λ i, (name i, File Garbage (Z.of_nat i))) <$> seq 1 22 in
  rp_deleted (sweepRetention (demo_host 100) [] (Some []) RETENTION_GRACE_MS false d).1 = ["f.corrupt-21"; "f.corrupt-22"].
Proof. vm_compute. reflexivity. Qed.

(** The entries of two tenants, and equal entries that survive their cap. *)
Lemma retention_isolated_witness :
  let runs := [run_of "1" "a"; run_of "2" "b"; run_of "3" "a"] in
  NoDup (entries_of runs) ∧
  tenant (heap_of runs) "b" (retainPerTenant (heap_of runs) (entries_of runs) 1) = [Obj 1] ∧
  tenant (heap_of runs) "a" (retainPerTenant (heap_of runs) (entries_of runs) 1) = newest 1 (tenant (heap_of runs) "a" (entries_of runs)).
Proof.
  intros runs. assert (NoDup (entries_of runs)) as Hn by (apply (bool_decide_unpack _); vm_compute; exact I).
  split; [exact Hn|]. split; [vm_compute; reflexivity|].
  exact (proj1 (proj2 (retention_isolated (heap_of runs) (entries_of runs) 1 "a")) Hn).
Defined.

Example equal_entries_exceed_cap :
  retainPerTenant (λ _, JNull) (entries_of [JNull; JNull]) 1 = [Prim JNull; Prim JNull] ∧
  retainPerTenant (λ _, run_of "1" "a") [Obj 0; Obj 0] 1 = [Obj 0; Obj 0].
Proof. vm_compute. by split. Qed.

(** An index too large for its file is halved over all tenants: here the whole
    history of the second one goes. *)
Example byte_bound_evicts_other_tenant :
  let runs := run_of "q" "b" :: ((λ i, run_of (string_of_Z (Z.of_nat i)) "a") <$> seq 1 11) in
  match saveRunIndex 250 (demo_host 0) (heap_of runs) (entries_of runs) [] with
  | (Written 1, d) => filter (λ r, runTenantKey r = "b") (loadRunIndex (demo_host 0) d).1 = []
  | _ => False
  end.
Proof. vm_compute. reflexivity. Qed.

Lemma sweep_spares_needed_witness :
  let d := [index_file []; ("r1.events.json", File (Text (JArr [])) 0); ("r2.events.json", File (Text (JArr [])) 0)] in
  mget (sweepRetention (demo_host 100) ["r1"] (Some []) 50 false d).2 "r1.events.json" = mget d "r1.events.json" ∧
  mget (sweepRetention (demo_host 100) ["r1"] (Some []) 50 false d).2 "r2.events.json" = None.
Proof.
  split; [|vm_compute; reflexivity].
  apply (proj1 (sweep_spares_needed (demo_host 100) ["r1"] (Some []) 50 false
    [index_file []; ("r1.events.json", File (Text (JArr [])) 0); ("r2.events.json", File (Text (JArr [])) 0)] "r1.events.json")); [|by intros [? _]].
  split; [reflexivity|]. split; [reflexivity|]. intros id Hid. left. vm_compute in Hid. injection Hid as <-. left.
Defined.
