(* ===== verification/FileTools.v ===== *)
(** The file tools of backend/src/impl/tool-executor.js: [read_file],
    [search_code] and [apply_patch].

    Reading and patching run over the files of Changesets, where each awaited
    operation may fail and a failing write may leave a part of its text; the
    search walks a tree as [readdir], [stat] and [readFile] show it, with the
    passing of time and cancellation as arguments. [all_hits] is what a search
    means: the theorems compare what the tool returns with it. *)

From S2P Require Import Prelude StateM JsMap JsValue Text ToolSystem Paths Isolation Changesets.

Local Open Scope string_scope.

(** ** Slices *)

(** [Array.prototype.slice] and [String.prototype.slice]: negative positions count
    from the end. *)
Definition clamp_index (n : Z) (len : nat) : nat :=
  if (n <? 0)%Z then Z.to_nat (Z.of_nat len + n) else Nat.min (Z.to_nat n) len.
Definition js_slice {A} (a b : Z) (l : list A) : list A :=
  let i := clamp_index a (length l) in take (clamp_index b (length l) - i) (drop i l).
Definition str_slice (a b : Z) (s : string) : string :=
  let i := clamp_index a (String.length s) in String.substring i (clamp_index b (String.length s) - i) s.

(** [Number(v) || d]; texts of fractions and exponents are left out. *)
Definition number_or (v : jsval) (d : Z) : Z :=
  match v with
  | JNum n => if (n =? 0)%Z then d else n
  | JBool true => 1%Z
  | JStr s => match Z_of_string (trim s) with Some n => if (n =? 0)%Z then d else n | None => d end
  | _ => d
  end.
(** [String(v || '')] *)
Definition text_of (v : jsval) : string := if truthy_val v then to_string v else "".

(* [src/backend/src/impl/tool-executor.js:69-71] MAX_READ_BYTES *)
Definition MAX_READ_BYTES : Z := 100000.
Definition MAX_FILE_STAT_BYTES : Z := 500000.
Definition IGNORED_DIRS : list string :=
  ["node_modules"; ".git"; "dist"; "build"; ".runtime-data"; ".runtime-data-test"; ".runtime-data-finalization-test"; "coverage"; ".next";
   "vendor"; "target"].

Definition bytes_of (s : string) : list Z := (λ c, Z.of_nat (nat_of_ascii c)) <$> String.list_ascii_of_string s.
Definition refuse (code msg : string) : js_error := JsError (Some code) msg.

(** ** Reading a file *)

(** [fs.promises.stat(p)] of a regular file, [null] when it fails or there is none. *)
Definition stat_or_null (p : string) : io (option Z) :=
  try_catch (t ← next_tick;
             if t_fault t is Some (e, _) then throw e
             else f ← gets files; mret ((λ c, Z.of_nat (String.length c)) <$> f !! p))
            (λ _, mret None).

Record read_result := ReadResult {
  rd_startLine : Z; rd_endLine : Z; rd_totalLines : nat; rd_content : string; rd_truncated : bool; rd_sha256 : string;
}.

Section Tools.
Context (h : host) (sha256 : string → string).

(** What a text gives for the parameters. *)
(* [src/backend/src/impl/tool-executor.js:96-106] handleReadFile, range *)
Definition read_range (params : jsval) (content : string) : read_result :=
  let maxBytes := Z.min (number_or (prop params "maxBytes") 20000) MAX_READ_BYTES in
  let lines := split_on newline content in
  let start := Z.max 1 (number_or (prop params "startLine") 1) in
  let last := Z.min (Z.of_nat (length lines)) (number_or (prop params "endLine") (Z.of_nat (length lines))) in
  let slice := str_slice 0 maxBytes (js_join (String newline "") (js_slice (start - 1) last lines)) in
  let outputTruncated := if (maxBytes <? 0)%Z then true else (truncateOutput slice (Some (Z.to_N maxBytes)) None).2 in
  ReadResult start last (length lines) slice (bool_decide (String.length slice < String.length content)%nat || outputTruncated) (sha256 content).

(* [src/backend/src/impl/tool-executor.js:73-107] handleReadFile *)
Definition handleReadFile (params : jsval) (workspace : option string) : io read_result :=
  abs ← lift (sandboxPath h workspace (text_of (prop params "path")));
  st ← stat_or_null abs;
  match st with
  | None => throw (refuse "not_found" "File not found")
  | Some size =>
      if (MAX_FILE_STAT_BYTES <? size)%Z then throw (refuse "too_large" "File too large")
      else
        buf ← read_or_null abs;
        match buf with
        | None => throw (refuse "unreadable" "Cannot read file")
        | Some content =>
            if isBinaryBuffer (bytes_of content) then throw (refuse "binary" "Binary file not readable as text")
            else mret (read_range params content)
        end
  end.

(** ** Patching a file *)

(** [ALLOW_FILE_WRITES] *)
(* [src/backend/src/impl/tool-executor.js:471-471] ALLOW_FILE_WRITES *)
Definition writes_allowed (v : string) : bool := bool_decide (to_lower v ∈ ["1"; "true"; "yes"]).

Record patch := Patch { pt_path : string; pt_dryRun : bool; pt_edits : option (list edit) }.
Inductive patched :=
| Proposed (editsProposed additions deletions : nat)
| Applied (editsApplied : nat) (beforeHash afterHash : string).

Definition bad_edit : js_error := refuse "bad_params" "Each edit needs oldText/newText strings".
Definition no_context : js_error := refuse "patch_conflict" "Patch context not found; no changes applied".

(** Each edit against the file as it is. *)
(* [src/backend/src/impl/tool-executor.js:454-464] handleApplyPatch, dry run *)
Fixpoint check_edits (content : string) (add del : nat) (eds : list edit) : res (nat * nat) :=
  match eds with
  | [] => Ok (add, del)
  | Edit (Some (String _ _ as old)) (Some new) :: eds =>
      if contains old content then
        let o := line_count old in
        let n := line_count new in
        if (o <=? n)%nat then check_edits content (add + (n - o)) del eds else check_edits content add (del + (o - n)) eds
      else Throw no_context
  | _ :: _ => Throw bad_edit
  end.

(** Each edit on what the previous ones left. *)
(* [src/backend/src/impl/tool-executor.js:484-492] handleApplyPatch, edits *)
Fixpoint patch_text (content : string) (eds : list edit) : res string :=
  match eds with
  | [] => Ok content
  | Edit (Some (String _ _ as old)) (Some new) :: eds =>
      if contains old content then patch_text (replace_first old new content) eds else Throw no_context
  | _ :: _ => Throw bad_edit
  end.

(** The checks shared by both modes: the path, the edits, the text. *)
Definition patch_target (p : patch) (workspace : option string) : io (string * list edit * string) :=
  abs ← lift (sandboxPath h workspace (pt_path p));
  match pt_edits p with
  | None | Some [] => throw (refuse "bad_params" "edits[] is required")
  | Some edits =>
      c ← read_or_null abs;
      match c with
      | None => throw (refuse "not_found" "File not found")
      | Some content =>
          if (MAX_FILE_STAT_BYTES <? Z.of_nat (String.length content))%Z then throw (refuse "too_large" "File too large")
          else mret (abs, edits, content)
      end
  end.

(* [src/backend/src/impl/tool-executor.js:445-510] handleApplyPatch *)
Definition handleApplyPatch (allow : string) (pid : Z) (p : patch) (workspace : option string) : io patched :=
  if pt_dryRun p then
    '(abs, edits, content) ← patch_target p workspace;
    '(add, del) ← lift (check_edits content 0 0 (take 20 edits));
    mret (Proposed (length edits) add del)
  else if negb (writes_allowed allow) then throw (refuse "disabled" "apply_patch is disabled")
  else
    '(abs, edits, content) ← patch_target p workspace;
    if isBinaryBuffer (bytes_of (slice0 (N.to_nat 8000) content)) then throw (refuse "denied" "refusing to patch binary file")
    else
      next ← lift (patch_text content (take 20 edits));
      verify ← (now ← date_now; replace_file abs (tmp_apply pid abs now) next ≫= λ _, readFile abs);
      if bool_decide (sha256 verify = sha256 next) then mret (Applied (length edits) (sha256 content) (sha256 verify))
      else throw (refuse "apply_failed" "hash verification failed after patch").
End Tools.

(** ** Searching *)

(** [s.indexOf(p)] *)
Definition index_of (p s : string) : option nat := (λ ab : string * string, String.length ab.1) <$> find_first p s.

(** [path.extname(name)] *)
Definition extname (name : string) : string :=
  match split_on "."%char name with
  | [] | [_] => ""
  | w :: ws => match ws, w with
               | [_], EmptyString => ""
               | _, _ => "." ++ default "" (last ws)
               end
  end.

(* [src/backend/src/impl/tool-executor.js:118-118] DEFAULT_EXTS *)
Definition DEFAULT_EXTS : list string :=
  [".js"; ".ts"; ".tsx"; ".jsx"; ".json"; ".md"; ".py"; ".go"; ".rs"; ".java"; ".rb"; ".c"; ".h"; ".css"; ".html"; ".yml"; ".yaml"; ".toml"].

(** [/^[.a-z0-9]{1,12}$/] *)
Definition ext_shape (s : string) : bool :=
  bool_decide (1 ≤ String.length s ≤ 12)%nat
  && negb (any_char (λ c, negb (Ascii.eqb c "."%char || ((97 <=? nat_of_ascii c)%nat && (nat_of_ascii c <=? 122)%nat)
                                 || ((48 <=? nat_of_ascii c)%nat && (nat_of_ascii c <=? 57)%nat))) s).

(** What the parameters mean; [so_exts]: the extensions looked at. *)
Record search_options := SearchOptions {
  so_query : string; so_maxResults : nat; so_maxBytes : Z; so_exts : list string; so_fileFilter : option string; so_ignores : list string;
}.

(* [src/backend/src/impl/tool-executor.js:119-126] exts *)
Definition include_exts (v : jsval) : list string :=
  let raw := to_lower (slice0 200 (to_string v)) in
  let found := filter (λ s, ext_shape s = true) ((λ s, if starts_with "." s then s else "." ++ s) <$> words (λ c, one_of ",;|" c || is_space c) raw) in
  match found with [] => DEFAULT_EXTS | _ => take 20 found end.

(* [src/backend/src/impl/tool-executor.js:109-130] handleSearchCode, parameters *)
Definition search_options_of (params : jsval) : res search_options :=
  let query := slice0 200 (text_of (prop params "query")) in
  if negb (truthy_str query) then Throw (refuse "bad_params" "query is required")
  else
    Ok (SearchOptions query (Z.to_nat (Z.min (Z.max (number_or (prop params "maxResults") 20) 1) 50))
          (Z.min (number_or (prop params "maxBytes") 24000) 64000)
          (if truthy_val (prop params "include") then include_exts (prop params "include") else DEFAULT_EXTS)
          (match prop params "fileFilter" with JStr s => Some (to_lower (slice0 120 s)) | _ => None end)
          (match prop params "excludeDir" with JArr l => take 20 (to_string <$> l) | _ => [] end)).

Record hit := Hit {
  hi_file : string; hi_line : nat; hi_column : nat; hi_match : string; hi_before : option string; hi_after : option string; hi_text : string;
}.

(** The size of a hit is that of its JSON text. *)
Definition text_or_null (o : option string) : jsval := match o with Some s => JStr s | None => JNull end.
(* [src/backend/src/impl/tool-executor.js:170-176] entry *)
Definition hit_json (x : hit) : jsval :=
  let num n := JNum (Z.of_nat n) in
  JObj [("file", JStr (hi_file x)); ("line", num (hi_line x)); ("column", num (hi_column x)); ("match", JStr (hi_match x));
        ("context", if truthy (hi_before x) || truthy (hi_after x)
                    then JObj [("before", text_or_null (hi_before x)); ("after", text_or_null (hi_after x))] else JUndef);
        ("text", JStr (hi_text x))].
Definition hit_size (x : hit) : Z := Z.of_nat (String.length (default "" (json_stringify (hit_json x)))).

Record search_state := Searching { se_results : list hit; se_bytes : Z; se_scanned : nat }.

Section Search.
Context (o : search_options).
(** Whether time is up, or the call cancelled, on entering a directory. *)
Context (late aborted : string → bool).

(** The hit of a line, if it has one. *)
(* [src/backend/src/impl/tool-executor.js:163-175] line *)
Definition line_hit (rel : string) (before : option string) (i : nat) (line : string) (after : option string) : option hit :=
  if (Z.to_nat 2000 <? String.length line)%nat then None
  else
    match index_of (to_lower (so_query o)) (to_lower line) with
    | None => None
    | Some idx =>
        let z := Z.of_nat idx in
        let window := str_slice (Z.max 0 (z - 60)) (z + Z.of_nat (String.length (so_query o)) + 60) line in
        Some (Hit rel (S i) (S idx) (slice0 240 window) (slice0 160 <$> before) (slice0 160 <$> after) (slice0 240 line))
    end.

(** The lines of a file; [true] when the byte limit ends the directory. *)
(* [src/backend/src/impl/tool-executor.js:162-181] lines *)
Fixpoint scan_lines (rel : string) (before : option string) (i : nat) (lines : list string) (st : search_state) : bool * search_state :=
  match lines with
  | [] => (false, st)
  | line :: lines =>
      if (so_maxResults o <=? length (se_results st))%nat then (false, st)
      else
        match line_hit rel before i line (head lines) with
        | None => scan_lines rel (Some line) (S i) lines st
        | Some x =>
            if (so_maxBytes o <? se_bytes st + hit_size x)%Z then (true, st)
            else scan_lines rel (Some line) (S i) lines (Searching (se_results st ++ [x]) (se_bytes st + hit_size x) (se_scanned st))
        end
  end.

(* [src/backend/src/impl/tool-executor.js:143-144] names passed over *)
Definition passed_over (name : string) : bool :=
  (negb (String.eqb name ".env.example") && starts_with "." name) || bool_decide (name ∈ IGNORED_DIRS) || bool_decide (name ∈ so_ignores o).

(** Whether a file is looked at by its name. *)
(* [src/backend/src/impl/tool-executor.js:148-151] filters *)
Definition wanted (name rel : string) : bool :=
  bool_decide (to_lower (extname name) ∈ so_exts o)
  && match so_fileFilter o with Some f => negb (truthy_str f) || contains f (to_lower rel) | None => true end.

(** The text of a file that is searched. *)
(* [src/backend/src/impl/tool-executor.js:153-159] content *)
Definition searchable (size : Z) (content : option string) : option string :=
  match content with
  | Some c => if (MAX_FILE_STAT_BYTES <? size)%Z || isBinaryBuffer (bytes_of c) then None else Some c
  | None => None
  end.

Definition below (rel name : string) : string := if truthy_str rel then rel ++ "/" ++ name else name.

(** The entries of a directory; [dir] walks a directory below it. *)
(* [src/backend/src/impl/tool-executor.js:141-183] entries *)
Fixpoint walk_entries (dir : string → node → search_state → res search_state) (rel : string) (es : list (string * node)) (st : search_state)
    : res search_state :=
  match es with
  | [] => Ok st
  | (name, e) :: es =>
      if (so_maxResults o <=? length (se_results st))%nat then Ok st
      else if passed_over name then walk_entries dir rel es st
      else
        match e with
        | NDir _ => match dir (below rel name) e st with Ok st => walk_entries dir rel es st | Throw e => Throw e end
        | NFile size content =>
            if negb (wanted name (below rel name)) then walk_entries dir rel es st
            else
              match searchable size content with
              | None => walk_entries dir rel es st
              | Some c =>
                  let st := Searching (se_results st) (se_bytes st) (S (se_scanned st)) in
                  match scan_lines (below rel name) None 0 (split_on newline c) st with
                  | (true, st) => Ok st
                  | (false, st) => walk_entries dir rel es st
                  end
              end
        | _ => walk_entries dir rel es st
        end
  end.

(** [depth] is what is left of the nine levels. *)
(* [src/backend/src/impl/tool-executor.js:134-184] walk *)
Fixpoint walk (depth : nat) (rel : string) (n : node) (st : search_state) : res search_state :=
  match depth with
  | O => Ok st
  | S depth =>
      if (so_maxResults o <=? length (se_results st))%nat || late rel then Ok st
      else if aborted rel then Throw (refuse "cancelled" "cancelled")
      else match n with NDir (Some entries) => walk_entries (walk depth) rel entries st | _ => Ok st end
  end.
End Search.

Record search_result := SearchResult { sr_query : string; sr_results : list hit; sr_filesScanned : nat; sr_truncated : bool }.

(* [src/backend/src/impl/tool-executor.js:109-188] handleSearchCode *)
Definition handleSearchCode (late aborted : string → bool) (tree : node) (params : jsval) : res search_result :=
  match search_options_of params with
  | Throw e => Throw e
  | Ok o =>
      match walk o late aborted 9 "" tree (Searching [] 0 0) with
      | Throw e => Throw e
      | Ok st => Ok (SearchResult (so_query o) (se_results st) (se_scanned st) (so_maxResults o <=? length (se_results st))%nat)
      end
  end.

(** ** What a search means *)

Section AllHits.
Context (o : search_options).

Fixpoint line_hits (rel : string) (before : option string) (i : nat) (lines : list string) : list hit :=
  match lines with
  | [] => []
  | line :: lines => (option_list (line_hit o rel before i line (head lines)) ++ line_hits rel (Some line) (S i) lines)%list
  end.

(** The hits of one entry of a directory; [dir] gives those of a directory. *)
Definition entry_hits (dir : string → node → list hit) (rel : string) (x : string * node) : list hit :=
  if passed_over o x.1 then []
  else
    match x.2 with
    | NDir _ => dir (below rel x.1) x.2
    | NFile size content =>
        if wanted o x.1 (below rel x.1)
        then match searchable size content with Some c => line_hits (below rel x.1) None 0 (split_on newline c) | None => [] end
        else []
    | _ => []
    end.

Fixpoint all_hits (depth : nat) (rel : string) (n : node) : list hit :=
  match depth with
  | O => []
  | S depth => match n with NDir (Some entries) => mjoin (entry_hits (all_hits depth) rel <$> entries) | _ => [] end
  end.
End AllHits.

Fixpoint sizes (l : list hit) : Z := match l with [] => 0%Z | x :: l => (hit_size x + sizes l)%Z end.

Lemma sizes_app l k : sizes (l ++ k) = (sizes l + sizes k)%Z.
Proof. induction l as [|x l IH]; cbn; [done|]. rewrite IH. lia. Qed.

Lemma sizes_nonneg l : (0 ≤ sizes l)%Z.
Proof. induction l as [|x l IH]; cbn; [done|]. unfold hit_size. lia. Qed.

Section SearchSpec.
Context (o : search_options) (late aborted : string → bool).

(** There is room for the hits [l]. *)
Definition room (st : search_state) (l : list hit) : Prop :=
  (length (se_results st) + length l ≤ so_maxResults o)%nat ∧ (se_bytes st + sizes l ≤ so_maxBytes o)%Z.

(** From [st] to [st'], a part of [l] was found, and all of it if there was room. *)
Definition found (st st' : search_state) (l : list hit) : Prop :=
  ∃ r, se_results st' = (se_results st ++ r)%list ∧ r `sublist_of` l ∧ se_bytes st' = (se_bytes st + sizes r)%Z ∧
    (room st l → (∀ d, late d = false) → r = l) ∧
    ((length (se_results st) ≤ so_maxResults o)%nat → (length (se_results st') ≤ so_maxResults o)%nat) ∧
    ((se_bytes st ≤ Z.max 0 (so_maxBytes o))%Z → (se_bytes st' ≤ Z.max 0 (so_maxBytes o))%Z).

Lemma found_nothing st l : (room st l → (∀ d, late d = false) → l = []) → found st st l.
Proof.
  intros H. exists []. rewrite app_nil_r. split_and!; [done|apply sublist_nil_l|cbn; lia| |done|done].
  intros Hr Hl. symmetry. by apply H.
Qed.

Lemma found_full st l : (so_maxResults o <=? length (se_results st))%nat = true → found st st l.
Proof. intros H%Nat.leb_le. apply found_nothing. intros [Hr _] _. destruct l; [done|cbn in Hr; lia]. Qed.

Lemma room_after st st' r l k : se_results st' = (se_results st ++ r)%list → se_bytes st' = (se_bytes st + sizes r)%Z → r = l →
  room st (l ++ k) → room st' k.
Proof. unfold room. intros -> -> ->. rewrite !length_app, sizes_app. lia. Qed.

Lemma room_weaken st l k : room st (l ++ k) → room st l.
Proof. unfold room. rewrite length_app, sizes_app. pose proof (sizes_nonneg k). lia. Qed.

Lemma found_app st st1 st2 l k : found st st1 l → found st1 st2 k → found st st2 (l ++ k).
Proof.
  intros (r & H1 & H2 & H3 & H4 & H5 & H6) (r' & K1 & K2 & K3 & K4 & K5 & K6). exists (r ++ r')%list.
  split_and!; [by rewrite K1, H1, app_assoc|by apply sublist_app|rewrite K3, H3; rewrite sizes_app; lia| |auto|auto].
  intros Hr Hl. assert (r = l) as E by (apply H4; [by eapply room_weaken|done]). rewrite E, K4; [done| |done]. by eapply room_after.
Qed.

(** A part that ends early, where there was no room. *)
Lemma found_stop st st1 l k : found st st1 l → ¬ room st (l ++ k) → found st st1 (l ++ k).
Proof.
  intros (r & H1 & H2 & H3 & H4 & H5 & H6) Hn. exists r. split_and!; try done. by apply sublist_inserts_r.
Qed.

Lemma scan_lines_found rel lines : ∀ before i st,
  let out := scan_lines o rel before i lines st in
  found st out.2 (line_hits o rel before i lines) ∧ (out.1 = true → ¬ room st (line_hits o rel before i lines)).
Proof.
  induction lines as [|line lines IH]; intros before i st; cbn zeta; cbn [scan_lines line_hits]; [split; [by apply found_nothing|done]|].
  destruct (so_maxResults o <=? length (se_results st))%nat eqn:Em; [split; [by apply found_full|done]|].
  apply Nat.leb_gt in Em. destruct (line_hit o rel before i line (head lines)) as [x|]; cbn [option_list app]; [|by apply IH].
  destruct (so_maxBytes o <? se_bytes st + hit_size x)%Z eqn:Eb.
  - apply Z.ltb_lt in Eb. assert (Hn : ∀ l, ¬ room st (x :: l)) by (intros l [_ Hr]; cbn in Hr; pose proof (sizes_nonneg l); lia).
    split; [|intros _; apply Hn]. apply found_nothing. intros Hr. by apply Hn in Hr.
  - apply Z.ltb_ge in Eb. set (st1 := Searching _ _ _). destruct (IH (Some line) (S i) st1) as [Hf Hs]. cbn zeta in Hf, Hs.
    assert (Hx : found st st1 [x]).
    { exists [x]. cbn [se_results se_bytes st1]. split_and!; [done|done|cbn; lia|done| |lia]. rewrite length_app. cbn. lia. }
    split; [by apply (found_app _ _ _ [x] _ Hx)|]. intros Ht Hr. apply (Hs Ht). by apply (room_after st st1 [x] [x]).
Qed.

Lemma found_scanned st st' l n : found (Searching (se_results st) (se_bytes st) n) st' l → found st st' l.
Proof. done. Qed.

Lemma walk_entries_found dir hits rel es :
  (∀ r n st, match dir r n st with Ok st' => found st st' (hits r n) | Throw _ => ∃ d, aborted d = true end) → ∀ st,
  match walk_entries o dir rel es st with
  | Ok st' => found st st' (mjoin (entry_hits o hits rel <$> es))
  | Throw _ => ∃ d, aborted d = true
  end.
Proof.
  intros Hdir. induction es as [|[name e] es IH]; intros st; [by apply found_nothing|].
  cbn [fmap list_fmap mjoin list_join walk_entries]. unfold entry_hits at 1. cbn [fst snd].
  destruct (so_maxResults o <=? length (se_results st))%nat eqn:Em; [by apply found_full|].
  destruct (passed_over o name); [apply IH|]. destruct e as [size content|d| | |]; try apply IH.
  - destruct (wanted o name (below rel name)); cbn [negb]; [|apply IH].
    destruct (searchable size content) as [c|]; [|apply IH].
    set (st0 := Searching _ _ _). pose proof (scan_lines_found (below rel name) (split_on newline c) None 0 st0) as [Hf Hs].
    destruct (scan_lines _ _ _ _ _ st0) as [[] st1]; cbn [fst snd] in Hf, Hs; apply found_scanned in Hf.
    + apply found_stop; [done|]. intros Hr%room_weaken. by apply Hs.
    + specialize (IH st1). destruct (walk_entries _ _ _ _ st1) as [st2|]; [by eapply found_app|done].
  - specialize (Hdir (below rel name) (NDir d) st). destruct (dir _ _ st) as [st1|]; [|done].
    specialize (IH st1). destruct (walk_entries _ _ _ _ st1) as [st2|]; [by eapply found_app|done].
Qed.

Lemma walk_found depth : ∀ rel n st,
  match walk o late aborted depth rel n st with
  | Ok st' => found st st' (all_hits o depth rel n)
  | Throw _ => ∃ d, aborted d = true
  end.
Proof.
  induction depth as [|depth IH]; intros rel n st; cbn [walk all_hits]; [by apply found_nothing|].
  destruct (so_maxResults o <=? length (se_results st))%nat eqn:Em; cbn [orb]; [by apply found_full|].
  destruct (late rel) eqn:El; [apply found_nothing; intros _ Hl; by rewrite Hl in El|].
  destruct (aborted rel) eqn:Ea; [eauto|]. destruct n as [|[entries|]| | |]; try by apply found_nothing.
  by apply walk_entries_found.
Qed.
End SearchSpec.

(** ** Hits are genuine *)

(** [p] leads through directories, never a link, to a file with the text [c]. *)
Inductive in_tree : node → list string → string → Prop :=
| in_file es name size c : (name, NFile size (Some c)) ∈ es → in_tree (NDir (Some es)) [name] c
| in_dir es name d p c : (name, d) ∈ es → in_tree d p c → in_tree (NDir (Some es)) (name :: p) c.

Definition path_text (rel : string) (p : list string) : string := foldl below rel p.

(** A line of a text that contains the query, in any case, at the column. *)
Definition marks (o : search_options) (c : string) (x : hit) : Prop :=
  ∃ k line a b, split_on newline c !! k = Some line ∧ hi_line x = S k ∧ hi_column x = S (String.length a) ∧
    to_lower line = a ++ to_lower (so_query o) ++ b.

(** A hit is a line of a file that the search may show. *)
Definition genuine (o : search_options) (tree : node) (x : hit) : Prop :=
  ∃ p c name, in_tree tree p c ∧ hi_file x = path_text "" p ∧ (length p ≤ 9)%nat ∧ Forall (λ n, passed_over o n = false) p ∧
    last p = Some name ∧ to_lower (extname name) ∈ so_exts o ∧ isBinaryBuffer (bytes_of c) = false ∧ marks o c x.

Lemma string_drop_app p r : string_drop (String.length p) (p ++ r) = r.
Proof. induction p; [by destruct r|]. cbn. done. Qed.

Lemma find_first_split p s a b : find_first p s = Some (a, b) → s = a ++ p ++ b.
Proof.
  revert a b. induction s as [|ch s IH]; intros a b; cbn [find_first].
  - destruct (starts_with p "") eqn:E; [|done]. intros [= <- <-]. destruct p; done.
  - destruct (starts_with p (String ch s)) eqn:E.
    + intros [= <- <-]. destruct (starts_with_split _ _ E) as [r Hr]. rewrite Hr, string_drop_app. done.
    + destruct (find_first p s) as [[a' b']|]; [|done]. intros [= <- <-]. by rewrite (IH a' b' eq_refl).
Qed.

Lemma line_hits_marks o rel lines : ∀ before i x, x ∈ line_hits o rel before i lines →
  hi_file x = rel ∧ ∃ k line a b, lines !! k = Some line ∧ hi_line x = S (i + k) ∧ hi_column x = S (String.length a) ∧
    to_lower line = a ++ to_lower (so_query o) ++ b.
Proof.
  induction lines as [|line lines IH]; intros before i x; cbn [line_hits]; [by intros ?%not_elem_of_nil|].
  intros [Hx|Hx]%elem_of_app.
  - unfold line_hit in Hx. destruct (_ <? _)%nat; [by apply not_elem_of_nil in Hx|].
    unfold index_of in Hx. destruct (find_first _ _) as [[a b]|] eqn:E; [|by apply not_elem_of_nil in Hx].
    apply find_first_split in E. apply list_elem_of_singleton in Hx as ->. split; [done|].
    exists 0, line, a, b. split_and!; [done|cbn; lia|done|done].
  - apply IH in Hx as (Hr & k & l & a & b & H1 & H2 & H3 & H4). split; [done|]. exists (S k), l, a, b. split_and!; [done|lia|done|done].
Qed.

Lemma all_hits_genuine o depth : ∀ rel n x, x ∈ all_hits o depth rel n →
  ∃ p c name, in_tree n p c ∧ hi_file x = path_text rel p ∧ (length p ≤ depth)%nat ∧ Forall (λ n, passed_over o n = false) p ∧
    last p = Some name ∧ to_lower (extname name) ∈ so_exts o ∧ isBinaryBuffer (bytes_of c) = false ∧ marks o c x.
Proof.
  induction depth as [|depth IH]; intros rel n x; cbn [all_hits]; [by intros ?%not_elem_of_nil|].
  destruct n as [|[es|]| | |]; try by intros ?%not_elem_of_nil. intros Hx.
  apply list_elem_of_join in Hx as (l & Hx & Hl). apply list_elem_of_fmap in Hl as ([name e] & -> & He).
  unfold entry_hits in Hx. cbn [fst snd] in Hx. destruct (passed_over o name) eqn:Ep; [by apply not_elem_of_nil in Hx|].
  destruct e as [size content|d| | |]; try by apply not_elem_of_nil in Hx.
  - unfold wanted in Hx. destruct (bool_decide _) eqn:Ew; [|by apply not_elem_of_nil in Hx]. apply bool_decide_eq_true in Ew.
    destruct (_ && _); [|by apply not_elem_of_nil in Hx]. destruct content as [c|]; [|by apply not_elem_of_nil in Hx].
    unfold searchable in Hx. destruct (_ || isBinaryBuffer _) eqn:Eb; [by apply not_elem_of_nil in Hx|].
    apply orb_false_iff in Eb as [_ Eb]. apply line_hits_marks in Hx as (Hr & k & line & a & b & H1 & H2 & H3 & H4).
    exists [name], c, name. split_and!; try done; [by eapply in_file|cbn; lia|by apply Forall_singleton|].
    by exists k, line, a, b.
  - apply IH in Hx as (p & c & last & H1 & H2 & H3 & H4 & H5 & H6 & H7 & H8). exists (name :: p), c, last.
    split_and!; try done; [by eapply in_dir|cbn; lia|by constructor|]. destruct p; [done|]. exact H5.
Qed.

(** A search shows the lines it is asked for. Its hits are among those of the
    reference search [all_hits], in their order, never more than fifty nor more
    bytes than allowed; they are all of them when they fit and time does not run
    out; and each is a line of a text file below the workspace, reached without a
    link, a hidden or an ignored name, that contains the query at its column. *)
Theorem search_refines late aborted tree params :
  match handleSearchCode late aborted tree params with
  | Throw e => search_options_of params = Throw e ∨ ∃ d, aborted d = true
  | Ok r => ∃ o, search_options_of params = Ok o ∧
      let all := all_hits o 9 "" tree in
      sr_results r `sublist_of` all ∧ (length (sr_results r) ≤ so_maxResults o ≤ 50)%nat ∧
      (sizes (sr_results r) ≤ Z.max 0 (so_maxBytes o) ≤ 64000)%Z ∧
      ((length all ≤ so_maxResults o)%nat → (sizes all ≤ so_maxBytes o)%Z → (∀ d, late d = false) → sr_results r = all) ∧
      (∀ x, x ∈ sr_results r → genuine o tree x)
  end.
Proof.
  unfold handleSearchCode. destruct (search_options_of params) as [o|e] eqn:Eo; [|by left].
  pose proof (walk_found o late aborted 9 "" tree (Searching [] 0 0)) as H.
  destruct (walk _ _ _ _ _ _ _) as [st|]; [|by right]. exists o. split; [done|]. cbn zeta. cbn [sr_results].
  destruct H as (r & H1 & H2 & H3 & H4 & H5 & H6). cbn [se_results se_bytes app] in *. rewrite H1 in *.
  assert (Ho : (so_maxResults o ≤ 50)%nat ∧ (so_maxBytes o ≤ 64000)%Z).
  { revert Eo. unfold search_options_of. destruct (negb _); [done|]. intros [= <-]. cbn. lia. }
  split_and!; [done|apply H5; cbn; lia|lia| |lia| |].
  - rewrite H3 in H6. lia.
  - intros Ha Hb Hl. apply H4; [|done]. unfold room. cbn [se_results se_bytes length]. lia.
  - intros x Hx. apply (all_hits_genuine o 9 "" tree). by eapply elem_of_sublist.
Qed.

(** ** Reading *)

Definition nowhere (p : string) : Prop := False.

Lemma only_nowhere s s' : only nowhere s s' → files s' = files s.
Proof. intros [_ K]. apply map_eq. intros q. apply K. by intros []. Qed.

Lemma keeps_bind_only {A B} P (m : io A) (f : A → io B) : keeps (only P) m → (∀ a, keeps (only P) (f a)) → keeps (only P) (m ≫= f).
Proof. apply keeps_bind, _. Qed.

Lemma keeps_same {A} P (m : io A) : (∀ s, (m s).1 = s) → keeps (only P) m.
Proof. intros H s. by rewrite H. Qed.

Lemma keeps_nowhere {A} P (m : io A) : keeps (only nowhere) m → keeps (only P) m.
Proof. intros H s. by eapply only_weaken; [|apply H]. Qed.

Lemma keeps_read_or_null p : keeps (only nowhere) (read_or_null p).
Proof. intros s. destruct (read_or_null p s) as [s' r] eqn:E. by apply read_or_null_spec in E as [? _]. Qed.

Lemma keeps_stat p : keeps (only nowhere) (stat_or_null p).
Proof.
  intros s. unfold stat_or_null, try_catch. pose proof (keeps_tick nowhere s) as K. unfold mbind at 1, M_bind.
  destruct (next_tick s) as [s1 [t|e]]; cbn in *; [|done]. destruct (t_fault t) as [[]|]; [done|].
  unfold gets, mbind, M_bind, mret, M_ret. done.
Qed.

Ltac keeps_auto :=
  repeat match goal with
  | |- keeps _ (_ ≫= _) => apply keeps_bind_only; [|intros ?]
  | |- keeps _ (lift _) => by apply keeps_same
  | |- keeps _ (throw _) => by apply keeps_same
  | |- keeps _ (mret _) => by apply keeps_same
  | |- keeps _ (read_or_null _) => apply keeps_nowhere, keeps_read_or_null
  | |- keeps _ (stat_or_null _) => apply keeps_nowhere, keeps_stat
  | |- keeps _ (match ?x with _ => _ end) => destruct x
  | |- keeps _ (if ?x then _ else _) => destruct x
  end.

Lemma str_slice_length a b s : (0 ≤ b)%Z → (Z.of_nat (String.length (str_slice a b s)) ≤ b)%Z ∨ (b < 0)%Z.
Proof.
  intros Hb. left. unfold str_slice.
  assert (Hl : ∀ i n t, (String.length (String.substring i n t) ≤ n)%nat).
  { intros i n t. revert i n. induction t as [|c t IH]; intros [|i] [|n]; cbn; try lia; [|apply IH..].
    specialize (IH 0 n). lia. }
  specialize (Hl (clamp_index a (String.length s)) (clamp_index b (String.length s) - clamp_index a (String.length s)) s).
  unfold clamp_index in *. destruct (Z.ltb_spec b 0); lia.
Qed.

Section ReadSpec.
Context (h : host) (sha256 : string → string).

(** A file that is read whole by name. *)
Definition readable (workspace : option string) (params : jsval) (s : sys) (content : string) : Prop :=
  ∃ abs, sandboxPath h workspace (text_of (prop params "path")) = Ok abs ∧ confined h workspace abs ∧ files s !! abs = Some content ∧
    (Z.of_nat (String.length content) ≤ MAX_FILE_STAT_BYTES)%Z ∧ isBinaryBuffer (bytes_of content) = false.

Lemma stat_or_null_spec p s s' r : stat_or_null p s = (s', r) →
  files s' = files s ∧ ∃ o, r = Ok o ∧ (∀ n, o = Some n → ∃ c, files s !! p = Some c ∧ n = Z.of_nat (String.length c)).
Proof.
  intros E. pose proof (keeps_stat p s) as K. rewrite E in K. split; [by apply only_nowhere|].
  revert E. unfold stat_or_null, try_catch. unfold mbind at 1, M_bind.
  assert (Hn : files (next_tick s).1 = files s) by (unfold next_tick; by destruct (env s)).
  destruct (next_tick s) as [s1 [t|e]]; cbn in *; [|intros [= <- <-]; by exists None]. destruct (t_fault t) as [[e pt]|].
  { intros [= <- <-]. exists None. done. }
  unfold gets, mbind, M_bind, mret, M_ret. intros [= <- <-]. rewrite Hn. eexists. split; [done|]. intros n.
  destruct (files s !! p) as [c|]; [|done]. intros [= <-]. eauto.
Qed.

(** Reading is confined, bounded and changes nothing. What [read_file] returns is
    cut from the text of one file that lies in the workspace, links followed, is no
    larger than the limit and not binary; it has at most the requested number of
    characters, and never more than the limit. No file changes, whether it returns
    or throws. *)
Theorem read_confined params workspace s :
  let '(s', r) := handleReadFile h sha256 params workspace s in
  files s' = files s ∧
  match r with
  | Ok out => ∃ content, readable workspace params s content ∧ out = read_range sha256 params content ∧
      rd_sha256 out = sha256 content ∧ rd_totalLines out = length (split_on newline content) ∧
      ((0 ≤ number_or (prop params "maxBytes") 20000)%Z →
         (Z.of_nat (String.length (rd_content out)) ≤ Z.min (number_or (prop params "maxBytes") 20000) MAX_READ_BYTES)%Z)
  | Throw e => True
  end.
Proof.
  destruct (handleReadFile h sha256 params workspace s) as [s' r] eqn:E.
  assert (K : keeps (only nowhere) (handleReadFile h sha256 params workspace)) by (unfold handleReadFile; keeps_auto).
  specialize (K s). rewrite E in K. split; [by apply only_nowhere|].
  destruct r as [out|]; [|done]. revert E. unfold handleReadFile. rewrite bind_ok. intros (s1 & abs & Ea & E).
  unfold lift in Ea. injection Ea as <- Ea. apply bind_ok in E as (s2 & st & Es & E).
  apply stat_or_null_spec in Es as (Hf & o & [= <-] & Hs). destruct st as [n|]; [|done].
  destruct (Z.ltb_spec MAX_FILE_STAT_BYTES n) as [|Hn]; [done|].
  apply bind_ok in E as (s3 & buf & Eb & E). apply read_or_null_spec in Eb as (_ & o & [= <-] & Hb).
  destruct buf as [content|]; [|done]. destruct (isBinaryBuffer _) eqn:Ebin; [done|]. injection E as <- <-.
  specialize (Hb content eq_refl). rewrite Hf in Hb. destruct (Hs n eq_refl) as (c & Hc & ->). simplify_eq.
  exists content. split; [|split_and!; try done].
  - exists abs. split_and!; try done. by eapply sandboxPath_confined.
  - intros Hm. cbn [rd_content read_range]. unfold MAX_READ_BYTES. set (m := Z.min _ _).
    destruct (str_slice_length 0 m (js_join (String newline "") (js_slice (Z.max 1 (number_or (prop params "startLine") 1) - 1)
      (Z.min (Z.of_nat (length (split_on newline content))) (number_or (prop params "endLine") (Z.of_nat (length (split_on newline content)))))
      (split_on newline content)))); lia.
Qed.
End ReadSpec.

(** ** Patching *)

Section PatchSpec.
Context (h : host) (sha256 : string → string) (pid : Z) (workspace : option string).

Lemma patch_target_spec p s s' r : patch_target h p workspace s = (s', r) →
  files s' = files s ∧
  match r with
  | Ok (abs, edits, content) => sandboxPath h workspace (pt_path p) = Ok abs ∧ pt_edits p = Some edits ∧ files s !! abs = Some content
  | Throw _ => True
  end.
Proof.
  intros E. assert (K : keeps (only nowhere) (patch_target h p workspace)) by (unfold patch_target; keeps_auto).
  specialize (K s). rewrite E in K. split; [by apply only_nowhere|]. destruct r as [[[abs edits] content]|]; [|done].
  revert E. unfold patch_target. rewrite bind_ok. intros (s1 & a & Ea & E). unfold lift in Ea. injection Ea as <- Ea.
  destruct (pt_edits p) as [[|e es]|] eqn:Ee; [done| |done]. apply bind_ok in E as (s2 & c & Ec & E).
  apply read_or_null_spec in Ec as (_ & o & [= <-] & Hc). destruct c as [c|]; [|done].
  destruct (_ <? _)%Z; [done|]. injection E as <- <- <- <-. auto.
Qed.

Lemma not_own_scratch abs : ¬ scratch [abs] abs.
Proof. intros (a & t & ->%list_elem_of_singleton & E). symmetry in E. by apply append_nil_inj in E. Qed.

(** What a patch may leave behind: the target with its old text or with all its
    edits, and temporary files beside it. *)
Definition patched_or_not (p : patch) (abs : string) (s s' : sys) : Prop :=
  ∃ old next, files s !! abs = Some old ∧ patch_text old (take 20 (default [] (pt_edits p))) = Ok next ∧
    (∀ q, q ≠ abs → ¬ scratch [abs] q → files s' !! q = files s !! q) ∧
    (files s' !! abs = Some old ∨ files s' !! abs = Some next).

(** A patch is applied as a whole. Without permission to write, and in a dry run,
    no file changes. Otherwise only the target changes, a file of the workspace with
    links followed, and temporary files beside it: after a success it holds the old
    text with the first twenty edits made in turn, and the two hashes are those of
    the old and of the new text; after a failure it holds its old text or all the
    edits. An edit that does not fit stops the call before anything is written. *)
Theorem patch_atomic allow p s :
  let '(s', r) := handleApplyPatch h sha256 allow pid p workspace s in
  (pt_dryRun p = true ∨ writes_allowed allow = false → files s' = files s) ∧
  (files s' = files s ∨ ∃ abs, sandboxPath h workspace (pt_path p) = Ok abs ∧ confined h workspace abs ∧ patched_or_not p abs s s') ∧
  match r with
  | Ok (Applied n before after) => ∃ abs old next, sandboxPath h workspace (pt_path p) = Ok abs ∧ files s !! abs = Some old ∧
      patch_text old (take 20 (default [] (pt_edits p))) = Ok next ∧ files s' !! abs = Some next ∧ before = sha256 old ∧ after = sha256 next
  | Ok (Proposed _ _ _) => pt_dryRun p = true
  | Throw _ => True
  end.
Proof.
  destruct (handleApplyPatch h sha256 allow pid p workspace s) as [s' r] eqn:E. revert E. unfold handleApplyPatch.
  destruct (pt_dryRun p) eqn:Ed.
  { unfold mbind at 1, M_bind. destruct (patch_target h p workspace s) as [s1 r1] eqn:Et. apply patch_target_spec in Et as [Hf _].
    destruct r1 as [[[abs edits] content]|]; [|intros [= <- <-]; auto]. unfold lift, mbind, M_bind.
    destruct (check_edits _ _ _ _) as [[]|]; intros [= <- <-]; auto. }
  destruct (writes_allowed allow) eqn:Ew; cbn [negb]; [|intros [= <- <-]; auto].
  unfold mbind at 1, M_bind. destruct (patch_target h p workspace s) as [s1 r1] eqn:Et. apply patch_target_spec in Et as [Hf Hr].
  assert (Hno : true = false ∨ false = true → files s' = files s) by (by intros [|]).
  destruct r1 as [[[abs edits] old]|]; [|intros [= <- <-]; auto]. destruct Hr as (Ha & He & Hold).
  destruct (isBinaryBuffer _); [intros [= <- <-]; auto|].
  unfold mbind at 1, M_bind, lift. destruct (patch_text old (take 20 edits)) as [next|] eqn:Ep; [|intros [= <- <-]; auto].
  unfold mbind at 1, M_bind. destruct ((now ← date_now; _) s1) as [s2 r2] eqn:Ei.
  apply (install_spec sha256 pid "" [abs]) in Ei as (_ & Hq & Habs & Hv); [|by left|apply not_own_scratch].
  rewrite Hf in *. intros Eout. assert (s2 = s') as -> by (destruct r2; [destruct (bool_decide _)|]; by injection Eout).
  rewrite He. cbn [default]. split; [by intros [|]|]. split.
  { right. exists abs. split; [done|]. split; [by eapply sandboxPath_confined|]. exists old, next. rewrite He. split_and!; [done..|auto|].
    rewrite Hold in Habs. done. }
  destruct r2 as [v|e]; [|by injection Eout as <-]. destruct (Hv v eq_refl) as [-> Hn].
  destruct (bool_decide _); injection Eout as <-; [|done]. exists abs, old, next. done.
Qed.

Lemma read_free p s c : fault_free s → files s !! p = Some c →
  ∃ s', readFile p s = (s', Ok c) ∧ files s' = files s ∧ fault_free s'.
Proof.
  intros (t & s1 & E & F & Hf & _ & H1)%tick_free Hc. exists s1. unfold readFile, mbind, M_bind. rewrite E, F. unfold gets. by rewrite Hf, Hc.
Qed.

Lemma install_free abs c s : fault_free s →
  ∃ s', (now ← date_now; replace_file abs (tmp_apply pid abs now) c ≫= λ _, readFile abs) s = (s', Ok c).
Proof.
  intros Hs. unfold date_now, gets. unfold mbind at 1, M_bind. set (now := match env s with [] => _ | _ => _ end).
  assert (Hne : tmp_apply pid abs now ≠ abs) by (intros E; unfold tmp_apply in E; by apply append_nil_inj in E).
  destruct (replace_free abs (tmp_apply pid abs now) c s Hs) as (s1 & E1 & H1).
  destruct (replace_file_spec abs (tmp_apply pid abs now) c s s1 (Ok tt) Hne E1) as [_ Hc].
  destruct (read_free abs s1 c H1 Hc) as (s2 & E2 & _). exists s2. unfold mbind, M_bind. by rewrite E1.
Qed.

(** A patch that fits is applied. With permission, a workspace path, a text file
    within the limit, edits that fit and no failing operation, the call succeeds. *)
Theorem patch_applies allow p s abs old edits next :
  pt_dryRun p = false → writes_allowed allow = true → sandboxPath h workspace (pt_path p) = Ok abs → files s !! abs = Some old →
  pt_edits p = Some edits → edits ≠ [] → (Z.of_nat (String.length old) ≤ MAX_FILE_STAT_BYTES)%Z →
  isBinaryBuffer (bytes_of (slice0 (N.to_nat 8000) old)) = false → patch_text old (take 20 edits) = Ok next → fault_free s →
  ∃ s', handleApplyPatch h sha256 allow pid p workspace s = (s', Ok (Applied (length edits) (sha256 old) (sha256 next))).
Proof.
  intros Hd Hw Ha Hold He Hne Hlen Hbin Hp Hfree. unfold handleApplyPatch. rewrite Hd, Hw. cbn [negb].
  destruct (read_free abs s old Hfree Hold) as (s1 & E1 & _ & H1).
  assert (Et : patch_target h p workspace s = (s1, Ok (abs, edits, old))).
  { unfold patch_target, lift. unfold mbind at 1, M_bind. rewrite Ha, He. destruct edits as [|e es]; [done|].
    unfold read_or_null, try_catch, mbind, M_bind. rewrite E1. cbn. by rewrite (proj2 (Z.ltb_ge _ _) Hlen). }
  unfold mbind at 1, M_bind. rewrite Et, Hbin. unfold lift. unfold mbind at 1, M_bind. rewrite Hp.
  destruct (install_free abs next s1 H1) as (s2 & E2). exists s2. revert E2. unfold mbind, M_bind.
  intros ->. by rewrite bool_decide_true.
Qed.
End PatchSpec.

(** ** Checks on concrete values *)

Definition tools_host : host := Host "/w" None Some.
Definition one_file (c : string) : sys := Sys [] {[ "/w/x.js" := c ]} [].
Definition swap (a b : string) : edit := Edit (Some a) (Some b).
Definition run_patch (c : string) (dry : bool) (edits : list edit) :=
  let '(s, r) := handleApplyPatch tools_host (λ s, s) "yes" 7 (Patch "x.js" dry (Some edits)) None (one_file c) in (files s !! "/w/x.js", r).

(** The dry run looks for each edit in the file as it is: it promises a patch whose
    second edit the first one removes, and refuses one whose second edit the first
    one creates. *)
Example dry_run_disagrees :
  run_patch "ab" true [swap "a" "x"; swap "ab" "y"] = (Some "ab", Ok (Proposed 2 0 0)) ∧
  run_patch "ab" false [swap "a" "x"; swap "ab" "y"] = (Some "ab", Throw no_context) ∧
  run_patch "ab" true [swap "a" "x"; swap "xb" "y"] = (Some "ab", Throw no_context) ∧
  run_patch "ab" false [swap "a" "x"; swap "xb" "y"] = (Some "y", Ok (Applied 2 "ab" "y")).
Proof. vm_compute. done. Qed.

(** Edits after the twentieth are dropped and counted as applied. *)
Example edits_dropped :
  run_patch "a" false (replicate 20 (swap "a" "a") ++ [swap "a" "b"]) = (Some "a", Ok (Applied 21 "a" "a")).
Proof. vm_compute. done. Qed.

(** A dollar sign in the new text is read as a pattern. *)
Example dollar_expanded : run_patch "cost: X" false [swap "X" "$&5"] = (Some "cost: X5", Ok (Applied 1 "cost: X" "cost: X5")).
Proof. vm_compute. done. Qed.

(** A failure of the reading that follows the rename is reported as a failure of the
    patch, which has been made. *)
Example failed_verification_keeps_patch :
  let s := Sys [] {[ "/w/x.js" := "a" ]} [Tick None 0; Tick None 0; Tick None 0; Tick (Some (refuse "EIO" "", None)) 0] in
  let '(s', r) := handleApplyPatch tools_host (λ s, s) "1" 7 (Patch "x.js" false (Some [swap "a" "b"])) None s in
  files s' !! "/w/x.js" = Some "b" ∧ r = Throw (refuse "EIO" "").
Proof. vm_compute. done. Qed.

Definition read_demo (fields : list (string * jsval)) :=
  match handleReadFile tools_host (λ s, s) (JObj (("path", JStr "x.js") :: fields)) None
          (one_file ("one" ++ String newline ("two" ++ String newline "three"))) with
  | (_, Ok r) => Some (rd_startLine r, rd_endLine r, rd_content r, rd_truncated r)
  | _ => None
  end.

(** A last line before the first counts from the end; whatever is not the whole file
    is called truncated. *)
Example line_ranges :
  read_demo [] = Some (1%Z, 3%Z, "one" ++ String newline ("two" ++ String newline "three"), false) ∧
  read_demo [("startLine", JNum 2); ("endLine", JNum 2)] = Some (2%Z, 2%Z, "two", true) ∧
  read_demo [("endLine", JNum (-1))] = Some (1%Z, (-1)%Z, "one" ++ String newline "two", true).
Proof. vm_compute. done. Qed.

Definition text (s : string) : node := NFile (Z.of_nat (String.length s)) (Some s).
Definition demo_tree : node :=
  NDir (Some [("a.js", text "let token = 1"); ("link.js", NLink); (".env", text "token"); ("node_modules", NDir (Some [("b.js", text "token")]));
              ("src", NDir (Some [("c.ts", text ("x" ++ String newline "TOKEN")); ("d.bin", text "token")]))]).
Definition search_demo (fields : list (string * jsval)) : option (list (string * nat * nat) * bool) :=
  match handleSearchCode (λ _, false) (λ _, false) demo_tree (JObj (("query", JStr "token") :: fields)) with
  | Ok r => Some ((λ x, (hi_file x, hi_line x, hi_column x)) <$> sr_results r, sr_truncated r)
  | Throw _ => None
  end.

Example search_finds :
  search_demo [] = Some ([("a.js", 1, 5); ("src/c.ts", 2, 1)], false) ∧
  search_demo [("maxResults", JNum 1)] = Some ([("a.js", 1, 5)], true) ∧
  search_demo [("include", JStr "ts, py")] = Some ([("src/c.ts", 2, 1)], false).
Proof. vm_compute. done. Qed.

(** When a hit does not fit, its directory is left and its siblings are searched
    on; the answer does not say that hits are missing. *)
Example bytes_exhausted_not_reported : search_demo [("maxBytes", JNum 90)] = Some ([("a.js", 1, 5)], false).
Proof. vm_compute. done. Qed.

Lemma patch_applies_witness :
  ∃ s', handleApplyPatch tools_host (λ s, s) "TRUE" 7 (Patch "x.js" false (Some [swap "a" "b"])) None (one_file "a") =
    (s', Ok (Applied 1 "a" "b")).
Proof.
  apply (patch_applies tools_host (λ s, s) 7 None "TRUE" (Patch "x.js" false (Some [swap "a" "b"])) (one_file "a") "/w/x.js" "a"
    [swap "a" "b"] "b"); try (vm_compute; reflexivity); [done|vm_compute; discriminate|constructor].
Defined.
