(* ===== verification/ProjectTools.v ===== *)
(** The tools that run a project's own commands, [run_tests] and [build_project]
    (backend/src/impl/tool-executor.js), the detection of the project and the
    store of artifacts (backend/src/execution/environment.js).

    The command line comes from the environment of the process, from the files of
    the project or from a constant, never from the model. Which files exist and
    what package.json holds are arguments; the environment is a map. *)

From S2P Require Import Prelude StateM JsMap JsValue Text Paths Policy CommandGuard Isolation CommandRun.

Local Open Scope string_scope.

(** ** Arguments *)

(** The checks of one argument are those of the guard. *)
(* [src/backend/src/execution/environment.js:191-236] validateCommandArgs *)
Definition validateCommandArgs (h : host) (bin : string) (args : list string) (workspace : option string) : res unit :=
  if (20 <? length args)%nat then denied "too many command arguments"
  else
    _ ← check_args (resolveWorkspaceRoot h workspace) args;
    let first := default "" (head args) in
    if String.eqb bin "node" && starts_with "-" first then denied "node flags are not allowed; provide a workspace file path"
    else if String.eqb bin "python" && bool_decide (first ∈ ["-c"; "--command"]) then denied "inline code execution is not allowed via python"
    else if existsb (λ re, re (" " ++ js_join " " args))
              [re_flag "--prefix" word_end; re_flag "--prefix=" (λ _, true); re_flag "--workspace" word_end; re_flag "--workspace=" (λ _, true);
               re_flag "--workspaces" word_end; re_flag "--node-options" eq_or_space; re_flag "--exec" word_end; re_flag "--rootdir" eq_or_space]
    then denied "workspace-redirecting flags are not allowed"
    else Ok tt.

(** A node target, below the workspace. *)
(* [src/backend/src/execution/environment.js:175-182] parseTestCommandString, node *)
Definition node_target (h : host) (workspace : option string) (arg : string) : option string :=
  let ws := resolveWorkspaceRoot h workspace in
  let abs := path_resolve ws (strip_slashes arg) in
  if inside_root ws abs then Some abs else None.

(* [src/backend/src/execution/environment.js:159-185] parseTestCommandString *)
Definition parseTestCommandString (h : host) (raw : string) (workspace : option string) : res (string * list string) :=
  match words is_space raw with
  | [] => Throw (JsError (Some "bad_params") "empty command")
  | bin :: rest =>
      if negb (bool_decide (bin ∈ ["node"; "npm"; "pytest"; "python"; "cargo"; "go"])) then denied ("command not allowlisted: " ++ bin)
      else
        _ ← validateCommandArgs h bin rest workspace;
        if String.eqb bin "node" then
          match rest with
          | first :: rest' =>
              if negb (truthy_str first) then Throw (JsError (Some "bad_params") "node requires a file argument")
              else match node_target h workspace first with
                   | Some abs => Ok ("node", abs :: rest')
                   | None => denied "node target escapes workspace"
                   end
          | [] => Throw (JsError (Some "bad_params") "node requires a file argument")
          end
        else Ok (bin, rest)
  end.

(** [None] is [null]; what the checks throw is caught. *)
(* [src/backend/src/impl/tool-executor.js:403-431] tryParseAllowlisted *)
Definition tryParseAllowlisted (h : host) (raw : string) (workspace : option string) : option spec :=
  match words is_space raw with
  | [] => None
  | bin :: rest =>
      match validateCommandArgs h bin rest workspace with
      | Throw _ => None
      | Ok _ =>
          if String.eqb bin "node" && truthy (head rest) then
            (λ abs, Spec "node" (abs :: tail rest) (Some raw)) <$> node_target h workspace (default "" (head rest))
          else if String.eqb bin "npm" && (String.eqb (js_join " " rest) "test" || npm_run_re (js_join " " rest)) then Some (Spec "npm" rest (Some raw))
          else if bool_decide (bin = "pytest" ∨ bin = "python" ∧ rest !! 0 = Some "-m" ∧ rest !! 1 = Some "pytest") then Some (Spec bin rest (Some raw))
          else if bool_decide (bin = "cargo" ∧ head rest = Some "test") then Some (Spec "cargo" rest (Some raw))
          else if bool_decide (bin = "go" ∧ head rest = Some "test") then Some (Spec "go" rest (Some raw))
          else None
      end
  end.

Section Commands.
Context (h : host) (process_env : jsmap string string).

Definition env_var (k : string) : string := default "" (mget process_env k).

(** Only the first configured command is looked at. *)
(* [src/backend/src/impl/tool-executor.js:190-208] describeTestCommand *)
Definition describeTestCommand (workspace : option string) : res spec :=
  match filter_truthy [env_var "TOOL_RUN_TESTS_CMD"; env_var "TOOL_TEST_COMMAND"] with
  | raw :: _ =>
      match tryParseAllowlisted h (trim raw) workspace with
      | Some s => Ok s
      | None => denied "configured test command not allowlisted"
      end
  | [] =>
      match tryParseAllowlisted h "node backend/test/runtime.test.js" workspace with
      | Some s => Ok s
      | None => Throw (JsError (Some "disabled") "no allowlisted test command available")
      end
  end.
End Commands.

(** ** The project *)

Record project := Project {
  projectTypes : list string; packageManager : option string; languages : list string; frameworks : list string;
  testCommand : option string; buildCommand : option string; detectedCommands : list string; git_present : bool;
}.
#[export] Instance project_eta : Eta project := λ p,
  Project (projectTypes p) (packageManager p) (languages p) (frameworks p) (testCommand p) (buildCommand p) (detectedCommands p) (git_present p).

Section Detect.
Local Open Scope js_scope.
(** Whether a file of the workspace exists, and [JSON.parse] of package.json, [{}]
    when that fails. *)
Context (exists_ : string → bool) (pkg : jsval).

Definition add_to {A} (b : bool) (x : A) (l : list A) : list A := if b then (l ++ [x])%list else l.

(** [pm run x], and [pm test] for the tests. *)
Definition script (pm x : string) : string := if String.eqb pm "npm" then "npm run " ++ x else pm ++ " run " ++ x.

(** [{ ...dependencies, ...devDependencies }[k]] *)
Definition dependency (k : string) : bool :=
  match prop pkg "devDependencies" with
  | JObj fs => match mget fs k with Some v => truthy_val v | None => truthy_val (prop (prop pkg "dependencies") k) end
  | _ => truthy_val (prop (prop pkg "dependencies") k)
  end.

(* [src/backend/src/execution/environment.js:75-95] detectProject, node *)
Definition detect_node (p : project) : project :=
  if negb (exists_ "package.json") then p
  else
    let pm := if exists_ "pnpm-lock.yaml" then "pnpm" else if exists_ "yarn.lock" then "yarn" else "npm" in
    let has x := truthy_val (prop (prop pkg "scripts") x) in
    let test := if has "test" then Some (pm ++ " test") else None in
    let build := if has "build" then Some (script pm "build") else None in
    p <| projectTypes ::= λ l, (l ++ ["node"])%list |> <| languages ::= λ l, (l ++ ["javascript"])%list |>
      <| packageManager := Some pm |> <| testCommand := test |> <| buildCommand := build |>
      <| detectedCommands := (option_list test ++ add_to (has "lint") (script pm "lint") [] ++ option_list build)%list |>
      <| frameworks ::= λ l, add_to (dependency "express" || dependency "fastify" || dependency "koa") "node-server"
           (add_to (dependency "vue") "vue" (add_to (dependency "react" || dependency "next") "react" l)) |>.

Definition or_some (o : option string) (d : string) : option string := if truthy o then o else Some d.
(** A language with its command for the tests. *)
Definition detect_tests (type lang cmd : string) (p : project) : project :=
  p <| projectTypes ::= λ l, (l ++ [type])%list |> <| languages ::= λ l, (l ++ [lang])%list |>
    <| testCommand ::= λ o, or_some o cmd |> <| detectedCommands ::= λ l, (l ++ [cmd])%list |>.
Definition detect_type (type : string) (lang : list string) (p : project) : project :=
  p <| projectTypes ::= λ l, (l ++ [type])%list |> <| languages ::= λ l, (l ++ lang)%list |>.

(* [src/backend/src/execution/environment.js:62-125] detectProject *)
Definition detectProject : project :=
  let p := detect_node (Project [] None [] [] None None [] false) in
  let p := if exists_ "pyproject.toml" || exists_ "requirements.txt" || exists_ "setup.py"
           then detect_tests "python" "python" "pytest" p <| packageManager ::= λ o, or_some o "pip" |> else p in
  let p := if exists_ "Cargo.toml" then detect_tests "rust" "rust" "cargo test" p else p in
  let p := if exists_ "go.mod" then detect_tests "go" "go" "go test ./..." p else p in
  let p := if exists_ "pom.xml" then detect_type "java-maven" ["java"] p else p in
  let p := if exists_ "build.gradle" || exists_ "build.gradle.kts" then detect_type "java-gradle" ["java"] p else p in
  let p := if exists_ "Dockerfile" then detect_type "docker" [] p else p in
  let p := if exists_ "docker-compose.yml" || exists_ "docker-compose.yaml" then detect_type "docker-compose" [] p else p in
  p <| git_present := exists_ ".git" |>.
End Detect.

(** Variables of the process that a profile shows. *)
(* [src/backend/src/execution/environment.js:54-54] SAFE_ENV_KEYS *)
Definition SAFE_ENV_KEYS : list string := ["PATH"; "NODE_ENV"; "CI"; "TERM"; "LANG"; "SHELL"].
(* [src/backend/src/execution/environment.js:136-139] safeEnv *)
Definition safeEnv (env : jsmap string string) : list (string * string) :=
  omap (λ k, (λ v, (k, slice0 500 v)) <$> mget env k) SAFE_ENV_KEYS.

(** ** The tools *)

Section Tools.
Context (h : host) (process_env : jsmap string string) (tree : string → node).
Context (execFile : jsmap string string → string → list string → child_exit) (executeIsolated : jsval → res jsval).
Local Abbreviation run := (runCommandSandboxed h process_env tree execFile executeIsolated).

(** [params] only names the suite, which is passed through to the answer. *)
(* [src/backend/src/impl/tool-executor.js:433-443] handleRunTests *)
Definition handleRunTests (ctx : context) (timeLeftMs : Z) : M (list left_process) command_result :=
  s ← lift (describeTestCommand h process_env (workspace ctx));
  run "run_tests" s ctx timeLeftMs 6000.

(** The command to build with; [detected]: [None] when detection failed. *)
(* [src/backend/src/impl/tool-executor.js:534-536] raw *)
Definition build_command (detected : option project) : string :=
  or_str (default "" (detected ≫= buildCommand)) (or_str (env_var process_env "TOOL_BUILD_COMMAND") "npm run build").

(* [src/backend/src/impl/tool-executor.js:530-556] handleBuildProject *)
Definition handleBuildProject (detected : option project) (ctx : context) (timeLeftMs : Z) : M (list left_process) command_result :=
  let raw := build_command detected in
  let parts := words is_space raw in
  if negb (v_allowed (isCommandAllowed h None parts)) then throw (JsError (Some "denied") "build command not allowed")
  else
    r ← run "build_project" (Spec (default "" (head parts)) (tail parts) (Some raw)) ctx (Z.min timeLeftMs 120000) 6000;
    mret (CommandResult (bool_decide (cr_exitCode r = Some 0%Z)) (command r) (cr_exitCode r) (cr_stdout r) (cr_stderr r) (cr_truncated r)
            (cr_isolated r) (cr_executor r)).
End Tools.

(** ** Artifacts *)

Record artifact_record := ArtifactRecord {
  at_runId : option string; at_type : string; at_name : string; at_path : option string; at_mimeType : string;
  at_size : nat; at_hash : string; at_inline : option string;
}.

Section Artifacts.
Context (sha256 : string → string).
Abbreviation store := (list (string * artifact_record)).

(** [id] is the number the code draws. *)
(* [src/backend/src/execution/environment.js:660-684] put *)
Definition put (id : string) (runId : option string) (type : option string) (name : option string) (mimeType : option string)
    (content : string) (filePath : option string) (maxInline : nat) (items : store) : artifact_record * store :=
  let r := ArtifactRecord (if truthy runId then runId else None) (or_str (default "" type) "log") (slice0 200 (or_str (default "" name) id))
             (if truthy filePath then filePath else None) (or_str (default "" mimeType) "text/plain") (String.length content) (sha256 content)
             (if (String.length content <=? maxInline)%nat then Some (slice0 maxInline content) else None) in
  let items := mset items id r in
  (r, if (500 <? length items)%nat then mdelete items (default "" (head (mkeys items))) else items).

(* [src/backend/src/execution/environment.js:686-689] get *)
Definition get (id : string) (items : store) : option artifact_record := mget items id.
(** The reference: type, size and hash. *)
(* [src/backend/src/execution/environment.js:691-694] reference *)
Definition reference (id : string) (items : store) : option (string * string * nat * string) :=
  (λ r, (id, at_type r, at_size r, at_hash r)) <$> mget items id.
(** Without the text. *)
(* [src/backend/src/execution/environment.js:696-698] listForRun *)
Definition artifacts_of_run (runId : string) (items : store) : list (string * artifact_record) :=
  (λ x : string * artifact_record, (x.1, ArtifactRecord (at_runId x.2) (at_type x.2) (at_name x.2) (at_path x.2) (at_mimeType x.2) (at_size x.2) (at_hash x.2) None))
    <$> filter (λ x : string * artifact_record, at_runId x.2 = Some runId) items.
(* [src/backend/src/execution/environment.js:700-704] clearRun *)
Definition clear_artifacts (runId : string) (items : store) : store :=
  filter (λ x : string * artifact_record, at_runId x.2 ≠ Some runId) items.
End Artifacts.

(** ** The commands are fixed *)

(** The command lines that [run_tests] may run. *)
Definition test_shape (ws c : string) (a : list string) : Prop :=
  (c = "node" ∧ ∃ target rest, a = target :: rest ∧ inside_root ws target = true) ∨
  (c = "npm" ∧ (js_join " " a = "test" ∨ npm_run_re (js_join " " a) = true)) ∨
  c = "pytest" ∨ (c = "python" ∧ a !! 0 = Some "-m" ∧ a !! 1 = Some "pytest") ∨
  ((c = "cargo" ∨ c = "go") ∧ head a = Some "test").

Lemma tryParse_shape h raw workspace s : tryParseAllowlisted h raw workspace = Some s →
  test_shape (resolveWorkspaceRoot h workspace) (cmd s) (args s).
Proof.
  unfold tryParseAllowlisted, test_shape. destruct (words is_space raw) as [|bin rest]; [done|].
  destruct (validateCommandArgs h bin rest workspace); [|done].
  destruct (String.eqb bin "node" && _) eqn:En.
  { unfold node_target. destruct (inside_root _ _) eqn:Ei; [|done]. intros [= <-]. left. split; [done|]. by eexists _, _. }
  destruct (String.eqb bin "npm" && _) eqn:Ep.
  { intros [= <-]. right; left. apply andb_true_iff in Ep as [_ Ep]. apply orb_true_iff in Ep as [Ep%String.eqb_eq|Ep]; auto. }
  case_bool_decide as Hpy; [intros [= <-]; destruct Hpy as [->|(-> & ? & ?)]; auto 10|].
  case_bool_decide as Hc; [intros [= <-]; destruct Hc as [-> ?]; auto 10|].
  case_bool_decide as Hg; [intros [= <-]; destruct Hg as [-> ?]; auto 10|done].
Qed.

Section Fixed.
Context (h : host) (process_env : jsmap string string) (tree : string → node).
Context (execFile : jsmap string string → string → list string → child_exit) (executeIsolated : jsval → res jsval).

(** What may leave the process for the command [s]. *)
Definition leaves (toolName : string) (ctx : context) (s : spec) (x : left_process) : Prop :=
  (∃ argv, validateArgv h (cmd s :: args s) (workspace ctx) = Ok argv) ∧
  match x with
  | Spawned env c a => c = cmd s ∧ a = args s ∧ env = SandboxEnv.buildSandboxEnv process_env [] ∧ required_isolation process_env toolName ctx = false
  | Posted body _ _ => ∃ l, prop body "args" = JArr (JStr <$> l) ∧ Forall (λ a, host_path (JStr a) = false) l
  end.

(** The command lines are fixed. Whatever leaves the process for [run_tests] is a
    node file of the workspace, the npm scripts test, build or lint, pytest, or the
    tests of cargo or go; for [build_project] it is the one build command of the
    project or of the environment, of a family the guard knows. In both cases it has
    passed the command guard, a child process is started only where isolation is not
    required and sees the sandbox environment only, and a request to the worker has
    no host path. *)
Theorem project_commands_fixed ctx t :
  (∀ x, x ∈ (handleRunTests h process_env tree execFile executeIsolated ctx t []).1 →
     ∃ s, describeTestCommand h process_env (workspace ctx) = Ok s ∧
       test_shape (resolveWorkspaceRoot h (workspace ctx)) (cmd s) (args s) ∧ leaves "run_tests" ctx s x) ∧
  (∀ detected x, x ∈ (handleBuildProject h process_env tree execFile executeIsolated detected ctx t []).1 →
     ∃ c a family, words is_space (build_command process_env detected) = c :: a ∧ c_family (classifyArgv (c :: a)) = Some family ∧
       leaves "build_project" ctx (Spec c a (Some (build_command process_env detected))) x).
Proof.
  split.
  - intros x. unfold handleRunTests, lift. unfold mbind, M_bind.
    destruct (describeTestCommand h process_env (workspace ctx)) as [s|e] eqn:Es; [|by intros ?%not_elem_of_nil].
    intros Hx%what_leaves. exists s. split; [done|]. split; [|done]. revert Es. unfold describeTestCommand.
    destruct (filter_truthy _) as [|raw l]; (destruct (tryParseAllowlisted _ _ _) eqn:Ep; [|done]); intros [= <-]; by eapply tryParse_shape.
  - intros detected x. unfold handleBuildProject. destruct (v_allowed _) eqn:Ev; cbn [negb]; [|by intros ?%not_elem_of_nil].
    intros Hx. set (raw := build_command process_env detected) in *.
    destruct (words is_space raw) as [|c a] eqn:Ew; [by vm_compute in Ev|].
    assert (Hf : ∃ family, c_family (classifyArgv (c :: a)) = Some family).
    { revert Ev. unfold isCommandAllowed, assertCommandAllowed. destruct (c_family _); [by eauto|done]. }
    destruct Hf as [family Hf]. exists c, a, family. split; [done|]. split; [done|].
    apply (what_leaves h process_env tree execFile executeIsolated _ _ _ (Z.min t 120000) 6000). cbn [default head tail] in Hx.
    revert Hx. unfold mbind, M_bind. destruct (runCommandSandboxed _ _ _ _ _ _ _ _ _ _ _) as [l [r|e]]; done.
Qed.
End Fixed.

(** ** Detection *)

Definition known_commands : list string := ["npm test"; "npm run build"; "npm run lint"; "pytest"; "cargo test"; "go test ./..."].

Lemma known_allowed h c : c ∈ known_commands → v_allowed (isCommandAllowed h None (words is_space c)) = true.
Proof. unfold known_commands. intros H. repeat (apply elem_of_cons in H as [->|H]; [reflexivity|]). by apply not_elem_of_nil in H. Qed.

(** Every detected command is known, and the test and build commands are detected. *)
Definition detection_sound (p : project) : Prop :=
  Forall (λ c, c ∈ known_commands) (detectedCommands p) ∧
  (∀ c, testCommand p = Some c ∨ buildCommand p = Some c → c ∈ detectedCommands p).

Lemma detect_tests_sound type lang cmd p : cmd ∈ known_commands → detection_sound p → detection_sound (detect_tests type lang cmd p).
Proof.
  intros Hc [H1 H2]. split; cbn.
  - apply Forall_app. split; [done|by apply Forall_singleton].
  - intros c H. apply elem_of_app. unfold or_some in H. destruct (truthy (testCommand p)); [left; auto|].
    destruct H as [[= <-]|H]; [right; by left|left; auto].
Qed.

Lemma detect_node_sound exists_ pkg p : exists_ "pnpm-lock.yaml" = false → exists_ "yarn.lock" = false →
  detection_sound p → detection_sound (detect_node exists_ pkg p).
Proof.
  intros Hp Hy Hs. unfold detect_node. destruct (exists_ "package.json"); [|done]. cbn [negb]. rewrite Hp, Hy. split; cbn.
  - destruct (truthy_val (prop (prop pkg "scripts") "test")), (truthy_val (prop (prop pkg "scripts") "build")),
      (truthy_val (prop (prop pkg "scripts") "lint")); apply (bool_decide_unpack _); vm_compute; exact I.
  - destruct (truthy_val (prop (prop pkg "scripts") "test")), (truthy_val (prop (prop pkg "scripts") "build")); intros c [H|H]; try done;
      injection H as <-; cbn; rewrite ?elem_of_cons, ?elem_of_app, ?elem_of_cons; tauto.
Qed.

(** What is detected can be run. In a project without a pnpm or yarn lock file,
    every detected command passes the gate of [build_project], in any workspace, and
    the test and build commands are among the detected ones. *)
Theorem detected_commands_allowed h exists_ pkg :
  exists_ "pnpm-lock.yaml" = false → exists_ "yarn.lock" = false →
  let p := detectProject exists_ pkg in
  (∀ c, c ∈ detectedCommands p → v_allowed (isCommandAllowed h None (words is_space c)) = true) ∧
  (∀ c, testCommand p = Some c ∨ buildCommand p = Some c → c ∈ detectedCommands p).
Proof.
  intros Hp Hy. cbn zeta. enough (detection_sound (detectProject exists_ pkg)) as [H1 H2].
  { split; [|done]. intros c Hc. apply known_allowed. by eapply (proj1 (Forall_forall _ _)) in H1. }
  assert (Ht : ∀ b type lang p, detection_sound p → detection_sound (if b : bool then detect_type type lang p else p)).
  { intros [] type lang p H; [|done]. exact H. }
  assert (Hc : ∀ b type lang cmd p, cmd ∈ known_commands → detection_sound p →
    detection_sound (if b : bool then detect_tests type lang cmd p else p)).
  { intros [] type lang cmd p H1 H2; [|done]. by apply detect_tests_sound. }
  unfold detectProject. cbv zeta.
  do 4 apply Ht. apply Hc; [apply (bool_decide_unpack _); exact I|]. apply Hc; [apply (bool_decide_unpack _); exact I|].
  assert (Hn : detection_sound (detect_node exists_ pkg (Project [] None [] [] None None [] false))).
  { apply detect_node_sound; [done..|]. split; [constructor|]. by intros c [|]. }
  destruct (_ || _); [|done]. apply detect_tests_sound; [apply (bool_decide_unpack _); exact I|done].
Qed.

(** ** The store *)

(** The store of artifacts is bounded and loses the oldest first. A new artifact
    can be read back, with its text when it is small enough; the others are as before
    but the first one of a full store; there are never more than 500. *)
Theorem artifacts_bounded sha256 id runId type name mime content path maxInline items :
  mwf items → (length items ≤ 500)%nat →
  let '(r, items') := put sha256 id runId type name mime content path maxInline items in
  mwf items' ∧ (length items' ≤ 500)%nat ∧ get id items' = Some r ∧
  at_inline r = (if (String.length content <=? maxInline)%nat then Some content else None) ∧
  (∀ k, k ≠ id → get k items' = get k items ∨ (length items = 500%nat ∧ head (mkeys items) = Some k ∧ get k items' = None)).
Proof.
  intros Hw Hl. unfold put. set (r := ArtifactRecord _ _ _ _ _ _ _ _). set (m := mset items id r).
  assert (Hm : mwf m) by by apply mwf_set.
  assert (Hi : at_inline r = (if (String.length content <=? maxInline)%nat then Some content else None)).
  { cbn. destruct (Nat.leb_spec (String.length content) maxInline); [|done]. by rewrite slice0_all. }
  destruct (Nat.ltb_spec 500 (length m)) as [Hlt|Hge].
  - destruct (mget items id) as [v|] eqn:Ei.
    { pose proof (msize_set_old items id r ltac:(eauto)) as Hs. unfold msize in Hs. fold m in Hs. lia. }
    pose proof (msize_set_new items id r Ei) as Hs. unfold msize in Hs. fold m in Hs.
    assert (H500 : length items = 500%nat) by lia.
    assert (Hk : ∃ k v l, items = (k, v) :: l) by (destruct items as [|[k v] l]; [discriminate H500|eauto]).
    destruct Hk as (k & v & l & E).
    assert (Hmk : head (mkeys m) = Some k ∧ head (mkeys items) = Some k).
    { unfold m. rewrite (mset_new items id r Ei), E. done. }
    destruct Hmk as [Hmk Hik]. rewrite Hmk. change (default "" (Some k)) with k.
    assert (Hne : k ≠ id) by (intros ->; rewrite E in Ei; cbn in Ei; by rewrite decide_True in Ei).
    pose proof (msize_delete m k) as Hd. unfold msize in Hd.
    split_and!; [by apply mwf_delete| | |done|].
    + specialize (Hd ltac:(apply mget_Some_keys; destruct (mkeys m); [done|injection Hmk as ->; left])). lia.
    + unfold get. rewrite mget_delete_ne by done. unfold m. by rewrite mget_set_eq.
    + intros j Hj. unfold get. destruct (decide (j = k)) as [->|Hjk].
      * right. split_and!; [lia|done|by apply mget_delete_eq].
      * left. rewrite mget_delete_ne by done. unfold m. by rewrite mget_set_ne.
  - split_and!; [done|done| |done|].
    + unfold get, m. by rewrite mget_set_eq.
    + intros k Hk. left. unfold get, m. by rewrite mget_set_ne.
Qed.

(** ** Checks on concrete values *)

(** A project of pnpm or yarn is detected with commands that the gate refuses. *)
Example pnpm_build_refused :
  let p := detectProject (λ f, bool_decide (f ∈ ["package.json"; "pnpm-lock.yaml"])) (JObj [("scripts", JObj [("build", JStr "tsc")])]) in
  buildCommand p = Some "pnpm run build" ∧
  v_allowed (isCommandAllowed sample_host None (words is_space "pnpm run build")) = false.
Proof. vm_compute. done. Qed.

(** With a build command configured for the tool, a high risk is no obstacle. *)
Example configured_build_may_push :
  v_allowed (isCommandAllowed sample_host None (words is_space "git push origin main")) = true.
Proof. vm_compute. done. Qed.

(** Flags that carry code or leave the workspace pass when they are not first, or
    not of the listed names. *)
Example arguments_accepted :
  let ok bin args := match validateCommandArgs sample_host bin args None with Ok _ => true | Throw _ => false end in
  ok "python" ["-c"; "x"] = false ∧ ok "python" ["-B"; "-c"; "x"] = true ∧ ok "pytest" ["--rootdir=/etc"] = false ∧
  ok "pytest" ["--basetemp=/etc"] = true ∧ ok "pytest" [".."] = true ∧ ok "pytest" ["../x"] = false.
Proof. vm_compute. done. Qed.

Example parse_agrees :
  parseTestCommandString sample_host "node test.js" None = Ok ("node", ["/srv/app/test.js"]) ∧
  cmd <$> tryParseAllowlisted sample_host "node ../x.js" None = None ∧
  args <$> tryParseAllowlisted sample_host "node a/t.js" None = Some ["/srv/app/a/t.js"].
Proof. vm_compute. done. Qed.

Lemma detected_commands_allowed_witness :
  detectedCommands (detectProject (λ f, String.eqb f "go.mod") JUndef) = ["go test ./..."] ∧
  v_allowed (isCommandAllowed sample_host None (words is_space "go test ./...")) = true.
Proof.
  split; [reflexivity|].
  apply (proj1 (detected_commands_allowed sample_host (λ f, String.eqb f "go.mod") JUndef eq_refl eq_refl)). left.
Defined.

Lemma artifacts_bounded_witness :
  get "b" (put (λ s, s) "b" None None None None "text" None 8 [("a", ArtifactRecord None "log" "a" None "text/plain" 1 "h" None)]).2 =
  Some (ArtifactRecord None "log" "b" None "text/plain" 4 "text" (Some "text")).
Proof.
  pose proof (artifacts_bounded (λ s, s) "b" None None None None "text" None 8 [("a", ArtifactRecord None "log" "a" None "text/plain" 1 "h" None)]) as H.
  apply H; [repeat constructor; by intros ?%not_elem_of_nil|cbn; lia].
Defined.
